(* ===== verification/_CoqProject ===== *)
-Q . S2P
Prelude.v
ByteOrder.v
Protocol.v
AckRanges.v
AckFrame.v
ClosePathFrame.v
StreamFrame.v
ControlFrames.v
PublicHeader.v
Handshake.v
ServerConfig.v
PacketUnpacker.v
PacketPacker.v
FlowControl.v
FrameSorter.v
GoFloat.v
FloatFacts.v
ConnectionParameters.v
CryptoServer.v
CryptoClient.v
HandshakeFacts.v
HandshakeKeys.v
ReceivedPackets.v
RttStats.v
SentPackets.v
Congestion.v
Olia.v
UtilityControl.v
Scheduler.v
Monitor.v
StreamsMap.v
GoSlice.v
Stream.v
StreamRead.v
StreamSTMS.v
StreamFramer.v
FramerFacts.v
PackPacket.v
PackFacts.v
Session.v
SessionFacts.v
SessionSafety.v
Aead.v
Cookies.v
CookieFacts.v
Certs.v
CertFacts.v
CertSamples.v
AeadFacts.v
CryptoTLS.v
Sending.v
SendingFacts.v
SendingKeeps.v
SendingSamples.v
SendingBounded.v
SessionRun.v
SessionRunFacts.v
SessionEnds.v
RunSamples.v
Endpoint.v
Server.v
Client.v
ServerFacts.v
ClientFacts.v
AeadSamples.v
EndpointSamples.v
