(* ===== verification/Prelude.v ===== *)
(** * qcurl-4dmap: a verification of the multipath QUIC library

    The program is [src/quic-go43DMAP], a fork of the multipath version of quic-go (gQUIC
    wire format) in which a session sends one connection over several paths.

    ** The parts of the program and how they interact

    A session owns a set of streams, a flow control manager and a set of paths.  Each path
    numbers its own packets and owns a sent packet handler, a received packet handler, RTT
    statistics and a congestion controller.

    - Sending: the stream framer cuts the data of the streams into STREAM frames within
      the flow control windows; the packet packer puts frames of any kind behind a public
      header, numbers the packet on its path, writes and seals it; the path's sent packet
      handler records it, to account for the bytes in flight, detect losses and queue
      retransmissions.
    - Receiving: the public header is parsed, the packet number inferred from its low
      bytes, the payload opened and parsed into frames; the received packet handler
      records the number and decides when an ACK is due; STREAM frames go to the frame
      sorter of their stream, ACK frames to the sent packet handler of the path they name,
      WINDOW_UPDATE frames to flow control, CLOSE_PATH frames to the path they close.
    - Running: the run loop of a session handles what happens, sends through the scheduler,
      which picks paths, keeps the timeouts and closes the session in the end.
    - Endpoints: a server and a client give the packets that arrive to the session of their
      connection, create and replace sessions and negotiate the version.

    ** Files

    - [Prelude]: Go's machine integers ([u8] .. [u64], [i64]), the reader and error monad
      of the parsers, tactics and hints, lemmas on lists, bits and options.
    - [ByteOrder]: [internal/utils/byteorder*.go], [internal/utils/float16.go].  The Go
      interface is the record [ByteOrder]; the class [ByteOrderOk] is what parsers and
      writers rely on, and both byte orders are instances.
    - [Protocol]: [internal/protocol/packet_number.go], [internal/protocol/version.go].
    - [AckRanges], [AckFrame], [ClosePathFrame], [StreamFrame], [ControlFrames]: the frames
      of [internal/wire].  The ACK and CLOSE_PATH frames share their range code.
    - [PublicHeader]: [internal/wire/public_header.go], [version_negotiation.go].
    - [PacketUnpacker]: [packet_unpacker.go]; [Frame] is the interface [wire.Frame] as the
      sum of its implementations.
    - [PacketPacker]: [packet_number_generator.go], the header, writing and sealing of
      [packet_packer.go], the receiving half of [path.go].
    - [FlowControl]: [internal/flowcontrol].
    - [FrameSorter]: [stream_frame_sorter.go].
    - [Handshake], [ServerConfig], [ConnectionParameters]: the messages of the handshake, the
      server's configuration and the negotiated parameters, in [internal/handshake]; public
      resets of [internal/wire].
    - [CryptoServer], [CryptoClient]: the crypto setups of [internal/handshake], in a state and
      error monad; one round of each [HandleCryptoStream] is a definition.
    - [Aead], [AeadFacts], [AeadSamples]: the AEADs and the derivation of their keys, in
      [internal/crypto], and packets sealed with them.
    - [Cookies], [CookieFacts]: source address tokens with their DER encoding, their acceptance in
      [server.go], the ephemeral key exchange.
    - [Certs], [CertFacts], [CertSamples]: certificate chains: their choice, compression, cache
      and verification, and the server's proof ([cert_*.go], [server_proof.go]).
    - [CryptoTLS]: the crypto setup of TLS and the derivation of its keys.
    - [HandshakeFacts], [HandshakeKeys]: what the handshake guarantees to either side, and that
      both sides end up with the same keys and parameters.
    - [GoFloat], [FloatFacts]: [float64] and [float32] on the Standard Library's
      [spec_float], and the rounding facts the congestion controllers need.
    - [ReceivedPackets], [SentPackets]: [ackhandler].
    - [RttStats], [Congestion], [Olia]: [congestion], with hybrid slow start, PRR, CUBIC and
      Reno, and OLIA over all the paths.
    - [UtilityControl]: [utility_controller.go], [utility_control_law.go],
      [qaccess_coefficients.go], [qaccess_objective_trigger.go]: the gain and back-off a path's
      congestion controller is driven with.
    - [Scheduler], [Monitor]: the path selection and the monitor of [scheduler.go].
    - [StreamsMap]: [streams_map.go]; the iterations take any function on streams.
    - [GoSlice], [Stream]: Go's slices with their backing arrays, and [stream.go] on them.
    - [StreamRead], [StreamSTMS]: theorems about reading from a stream and about sending its
      data out of order over several paths.
    - [StreamFramer], [FramerFacts]: [stream_framer.go], and what it sends.
    - [PackPacket], [PackFacts]: the composition of packets in [packet_packer.go] over the
      framer, with its queue of control frames, and what becomes of the frames.
    - [Session]: [session.go], the receiving half and the life of [path.go], and
      [path_manager.go], over all of the above: one record holds the session, its handlers run
      in a state and error monad.
    - [SessionFacts], [SessionSafety]: the session's invariant, a Hoare triple and a lemma for
      every handler, the step relation of a session; and the theorems about sessions.
    - [Sending], [SendingFacts], [SendingKeeps], [SendingBounded], [SendingSamples]: the sending
      loops of [scheduler.go] over the packer, the paths and the framer, retransmission included;
      what they send; that they keep the session's invariant; that they end.
    - [SessionRun], [SessionRunFacts], [SessionEnds], [RunSamples]: the turns of [session.run], its
      timers and the closing of a session; the invariant over whole runs; how sessions end.
    - [Endpoint], [Server], [Client], [ServerFacts], [ClientFacts], [EndpointSamples]:
      [server.go], [client.go] and the configuration of [interface.go].  A session is an instance
      of the class [PacketHandler], against which the endpoints are written.
    The files named [Samples] hold the concrete inputs on which the theorems are applied.
    Every file opens with the source it models, and its modules carry the names of the Go
    types, its definitions those of the Go functions and methods.

    ** How the code is modelled

    - Integers keep their width: a conversion or an operation that can overflow is wrapped
      with [u8] .. [u64], [i64] where the source has the type.  Bytes are integers below
      256, times and durations are nanoseconds.
    - A [bytes.Reader] is the list of the bytes left; a parser returns the rest of the input
      and a value, or an error.  A run-time panic is a result of its own, so that the
      theorems can exclude it.
    - A method with a pointer receiver takes and returns the state; linked lists are lists,
      Go maps are [gmap].  An operation that reads the clock takes [now] as an argument.
    - The channels on which the loop of a session can block are part of the model: the signal to the
      goroutine of a path that a packet was sent (one place, [sentPacket] of a path) and the
      diversification nonce a client hands to its crypto setup (a parameter).  A send that
      nobody ever takes is a call that has not ended ([None]).
    - The AEAD, the congestion controller behind [SendAlgorithm] and the random numbers of
      the packet number generator are parameters; what is assumed of them is a hypothesis
      of the theorem that needs it, and the witnesses instantiate them.

    ** What the theorems show

    - Wire format: every frame kind, the public header and a version negotiation packet
      are parsed back as they were written ([ack_frame_roundtrip], [close_path_roundtrip],
      [stream_frame_roundtrip], [payload_roundtrip], [public_header_roundtrip],
      [version_negotiation_roundtrip]), the lengths the packer computes are exact
      ([frame_min_length]), the parsers never panic and accept only well-formed frames on
      any input ([unpack_never_panics], the [_parser_sound] theorems), the 16-bit float
      loses at most its stated precision ([ufloat16_precision]).  [packet_delivered]
      composes them: a packet the packer built is received as the same frames.
    - Packet numbers: truncated numbers are recovered inside the window
      ([packet_number_recovered]), numbers are never reused ([packet_numbers_increase]).
    - Streams: whatever the order, overlap and repetition of the frames of a stream, the
      sorter hands out exactly the bytes of the stream, in order ([stream_reassembled]), each as
      soon as it and those before it arrived ([received_byte_available]), and no frame
      makes it fail or panic but for the errors the code documents ([push_never_fails]).
    - Flow control: what is received and not read is bounded for every stream and the connection
      ([flow_control_respected]); with initial windows within their maxima, a condition that
      [default_window_shrinks] shows to be needed, an accepted byte is inside the window that
      was announced and windows only grow ([receive_window_monotone]); and the sender stays
      inside the window it was given ([send_window_respected]).
    - Acknowledgement and loss recovery: an ACK reports exactly the packets received and
      still of interest and is sent in time; an incoming ACK removes exactly what it
      acknowledges; the bytes in flight are those of the packets in flight; no packet is
      forgotten, it is in flight, acknowledged or queued for retransmission; the loss
      alarm is armed while packets are in flight.
    - Congestion control and utility control: windows stay within their bounds after any
      events, NaN and infinities included ([cubic_window_bounds], [olia_bounds],
      [utility_signal_bounded], [safe_gain_steps]); a neutral gain leaves OLIA unchanged
      ([neutral_utility_is_olia]); OLIA's epsilon terms cancel ([olia_epsilon_balanced]); the
      trigger is a hysteresis ([trigger_hysteresis]); loops end ([cubic_loop_terminates]).
    - Scheduling: a path that is selected may be used ([selected_path_usable]), the low-latency
      scheduler takes the fastest in whatever order the map is walked
      ([low_latency_takes_fastest]), round robin is fair ([round_robin_fair]).
    - Streams: IDs are never reused and a server's limits hold ([stream_ids_never_reused],
      [server_stream_limits]); an application reads the stream in order and waits only for
      bytes that have not arrived ([stream_read_in_order], [read_eof_at_end]).
    - From one application to the other, without the flag that drops video data: the framer sends
      every byte of every stream, whatever is lost and split, within the peer's windows and the packets ([framer_in_order],
      [framer_respects_windows], [popped_frames_fit]); over several paths the frames of a
      stream are exact, are not overwritten, and put together give the stream again
      ([stms_bytes_once], [stms_frames_not_overwritten], [stms_delivery]).
    - Packets, without that flag: every byte taken from a stream is in a packet, at its place
      ([taken_bytes_are_packed]); a packet that is made fits, is sealed under a number of its
      own and is read by the peer as the frames it was made of ([packets_leave]); control
      frames are neither lost nor sent twice ([control_frames_conserved]).
    - Sessions: every reachable session is well formed ([session_consistent]); whatever a
      packet contains, handling it ends and does not panic, unless it names a path that the
      session does not have or has a nonce that the crypto setup does not take
      ([packets_are_handled], [unknown_path_panics], [failed_path_crashes_peer],
      [untaken_nonce]); what a packet does that is not authenticated
      ([unauthenticated_packet_opens_path]); finished streams are removed with their flow
      controllers and no others ([finished_streams_collected]).
    - Handshake: messages are parsed back as they were written ([handshake_message_roundtrip],
      [public_reset_roundtrip], [server_config_roundtrip]) and the parser accepts only what can
      be written ([handshake_parser_sound]); parameters are negotiated once, within bounds, to
      the same values ([negotiation_within_bounds], [windows_negotiated_once],
      [parameters_agree]); client and server derive their keys from the same data
      ([handshake_completes]); when a server counts as verified ([verified_server_is_proved],
      [empty_proof_replaces_server]); encryption never gets weaker ([client_never_weakens],
      [server_never_weakens]); what is sent to whom ([client_hellos], [reply_needs_token],
      [server_detects_downgrade]).
    - Keys, tokens and certificates: packets sealed by either end before and after there are keys
      are read by the other ([null_packets_delivered], [derived_packets_delivered],
      [tls_setups_match]); a token is accepted from its address for a day, and only so
      ([token_accepted_exactly]); ephemeral keys live for a minute ([ephemeral_kex_fresh]); the
      chain a server chooses is the one the client verifies the proof with ([chain_roundtrip],
      [certificate_delivered]), and decompressing one always ends ([decompression_ends]).
    - Sending and running: lost frames are queued again, each once ([lost_frames_are_requeued]); a
      packet that leaves is recorded on its path ([sent_packets_are_recorded]); the loops end as long
      as the goroutines of the paths run ([sending_ends], [ended_path_blocks]); a session stays
      consistent over all turns of its loop ([running_consistent]), is closed when a timeout has
      expired ([timeouts_close_in_time]), and closing it ends everything
      ([closing_ends_session]).
    - Endpoints: packets of different connections do not interfere ([packets_stay_apart]), closed
      connections are remembered exactly until their timer ([closed_connections_remembered]),
      every session a server serves is consistent ([served_sessions_consistent]); a client's
      packets reach their session ([client_packets_arrive]), it changes its version at most once
      ([client_switches_once]) and a negotiation succeeds ([version_negotiation_converges]).
    - Behaviour that differs from what the code or its comments say is stated as a theorem
      too ([ack_frame_long_gap_error], [default_window_shrinks],
      [new_generator_never_skips], [close_path_strands_packets],
      [close_path_packet_never_retransmitted], [rto_backoff], [blest_ecf_never_wait],
      [cubic_window_jump], [client_limits_not_enforced], [round_robin_unfair],
      [cut_fin_ends_stream_early], [stms_fallback_corrupts], [stms_reset_offset],
      [stms_fin_truncates], [stms_exceeds_window], [discard_exceeds_packet],
      [ping_is_swallowed], [oversized_packet_loses_frames], [short_timeout_becomes_zero],
      [second_server_hello_panics], [crypto_reset_crashes], [nil_packet_crashes],
      [gaps_divide_by_zero], [single_path_ignores_window], [keep_alive_repeats],
      [nonces_repeat_across_paths], [long_certificate_is_cut], [cache_confuses_hashes],
      [nil_config_panics], [nonce_panics], [untaken_nonce], [failed_switch_panics],
      [blocked_frames_hang_session]).

    ** Fuel and bounds

    Loops of the source that are not structural on a list run on fuel that is computed
    from their input (the length of the payload for the frame loop, the length of the
    list of gaps or ranges for the others, the bytes and frames left for [Read], the
    entries and bytes left for certificate chains); the theorems that a parser or an operation
    returns a result are about that fuel, so running out of it is excluded by proof.

    The loops that send packets take their fuel as an argument and return [None] without enough
    of it.  That they end is not in their code: every round that another follows sends a packet the
    path keeps track of, which is limited, or an acknowledgement that was due, or takes a packet
    that waited ([SendingBounded]).  [sending_ends] gives the fuel that is enough, after which the
    result does not depend on it; the other theorems hold for any fuel.  It leaves out the two
    schedulers that send a packet on several paths ([redundancy], [RDDT]): a round of theirs may send
    nothing but copies of earlier frames, which the first does not keep track of.  About these the
    theorems are about the turns that end.

    ** Not modelled

    Ciphers, hashes, HKDF, zlib, X.509, elliptic curves and TLS itself (parameters, with what is
    relied on as hypotheses); the files of the handshake cache; the scheduler that assigns data to
    buffers of the paths ahead of time ([sendPacketMooo], [maybePopData], the buffers of
    [path.go]), and the exchange of files with the process that learns the coefficients
    ([qaccess_phase2.go], [qaccess_sample_exporter.go]); the sockets of [pconn_manager.go], goroutines and
    their channels except those named above (an operation runs to its end under the lock that its
    component holds in the code), so the queue of [Accept], what an application waits for and what
    it is told of the handshake; HTTP/2 over QUIC, logging and the drivers
    of the experiments. *)

From stdpp Require Import base numbers list option strings gmap.

Local Open Scope Z_scope.

(** ** Machine integers *)

(** [wrap w x] is Go's conversion of [x] to an unsigned [w]-bit integer. *)
Definition wrap (w x : Z) : Z := x `mod` 2 ^ w.
Definition u8 (x : Z) : Z := wrap 8 x.
Definition u16 (x : Z) : Z := wrap 16 x.
Definition u32 (x : Z) : Z := wrap 32 x.
Definition u64 (x : Z) : Z := wrap 64 x.

(** Two's complement 64-bit integers ([int], [int64], [time.Duration]). *)
Definition i64 (x : Z) : Z := (x + 2 ^ 63) `mod` 2 ^ 64 - 2 ^ 63.

(** Ranges, as boolean tests and as propositions. *)
Definition in_u (w x : Z) : Prop := 0 <= x < 2 ^ w.
Definition in_i64 (x : Z) : Prop := - 2 ^ 63 <= x < 2 ^ 63.

Lemma wrap_small w x : in_u w x -> wrap w x = x.
Proof. unfold wrap, in_u. intros. by apply Z.mod_small. Qed.

Lemma wrap_range w x : 0 <= w -> in_u w (wrap w x).
Proof. unfold wrap, in_u. intros. apply Z.mod_pos_bound. lia. Qed.

Lemma wrap_wrap w x : 0 <= w -> wrap w (wrap w x) = wrap w x.
Proof. intros. apply wrap_small. by apply wrap_range. Qed.

Lemma u8_small x : 0 <= x < 2 ^ 8 -> u8 x = x.
Proof. apply wrap_small. Qed.
Lemma u16_small x : 0 <= x < 2 ^ 16 -> u16 x = x.
Proof. apply wrap_small. Qed.
Lemma u32_small x : 0 <= x < 2 ^ 32 -> u32 x = x.
Proof. apply wrap_small. Qed.
Lemma u64_small x : 0 <= x < 2 ^ 64 -> u64 x = x.
Proof. apply wrap_small. Qed.

Lemma i64_small x : in_i64 x -> i64 x = x.
Proof. unfold i64, in_i64. intros. rewrite Z.mod_small; lia. Qed.

Lemma i64_range x : in_i64 (i64 x).
Proof.
  unfold i64, in_i64.
  pose proof (Z.mod_pos_bound (x + 2 ^ 63) (2 ^ 64) ltac:(lia)). lia.
Qed.

(** [word] turns the fixed-width wrap-arounds of a goal into linear facts. *)
Ltac unfold_words :=
  unfold u8, u16, u32, u64, i64, wrap, in_u, in_i64 in *.
Ltac word :=
  unfold_words;
  repeat match goal with
         | H : context [2 ^ ?k] |- _ =>
             let v := eval vm_compute in (2 ^ k) in
             progress change (2 ^ k) with v in H
         | |- context [2 ^ ?k] =>
             let v := eval vm_compute in (2 ^ k) in
             progress change (2 ^ k) with v
         end;
  Z.div_mod_to_equations; lia.

Create HintDb go discriminated.
#[export] Hint Resolve wrap_range i64_range : go.

(** ** Outcomes of Go code *)

(** The error values the modelled code returns. *)
Inductive goerr : Type :=
| EOF                                   (* io.EOF of bytes.Reader *)
| GoErr (msg : string)                  (* errors.New / fmt.Errorf *)
| QErr (code : string) (msg : string).  (* qerr.Error(code, msg) *)

#[export] Instance goerr_eq_dec : EqDecision goerr.
Proof. solve_decision. Defined.

(** A call returns a value, returns a non-nil error, or panics. *)
Inductive res (A : Type) : Type :=
| Ok (a : A)
| Err (e : goerr)
| Panic.
Arguments Ok {A} a.
Arguments Err {A} e.
Arguments Panic {A}.

#[export] Instance res_eq_dec `{EqDecision A} : EqDecision (res A).
Proof. solve_decision. Defined.

#[export] Instance res_ret : MRet res := @Ok.
#[export] Instance res_bind : MBind res := fun A B f m =>
  match m with Ok a => f a | Err e => Err e | Panic => Panic end.
#[export] Instance res_fmap : FMap res := fun A B f m =>
  match m with Ok a => Ok (f a) | Err e => Err e | Panic => Panic end.

Definition is_ok {A} (r : res A) : bool :=
  match r with Ok _ => true | _ => false end.

(** ** Byte strings *)

Definition is_byte (b : Z) : bool := (0 <=? b) && (b <? 256).
Definition bytes_ok (bs : list Z) : Prop := Forall (fun b => 0 <= b < 256) bs.

Lemma bytes_ok_app a b : bytes_ok (a ++ b) <-> bytes_ok a /\ bytes_ok b.
Proof. apply Forall_app. Qed.

Lemma u8_byte x : 0 <= u8 x < 256.
Proof. word. Qed.
#[export] Hint Resolve u8_byte : go.

(** ** Reading from a bytes.Reader *)

(** The unread bytes are threaded through; a failed read keeps no position, because
    every caller returns the error at once. *)
Definition reader (A : Type) : Type := list Z -> res (A * list Z).

#[export] Instance reader_ret : MRet reader := fun A a s => Ok (a, s).
#[export] Instance reader_bind : MBind reader := fun A B f m s =>
  match m s with
  | Ok (a, s') => f a s'
  | Err e => Err e
  | Panic => Panic
  end.

Definition throw {A} (e : goerr) : reader A := fun _ => Err e.
Definition crash {A} : reader A := fun _ => Panic.

(** [r.ReadByte()] *)
Definition ReadByte : reader Z := fun s =>
  match s with [] => Err EOF | b :: s' => Ok (b, s') end.

(** [r.Len()]: the number of unread bytes. *)
Definition Len : reader Z := fun s => Ok (Z.of_nat (length s), s).

(** [io.ReadFull(r, buf)] with a buffer of [n] bytes. *)
Definition ErrUnexpectedEOF : goerr := GoErr "unexpected EOF".
Definition ReadFull (n : Z) : reader (list Z) := fun s =>
  if n <=? Z.of_nat (length s) then Ok (take (Z.to_nat n) s, drop (Z.to_nat n) s)
  else match s with [] => Err EOF | _ => Err ErrUnexpectedEOF end.

Lemma ReadFull_app bs r : ReadFull (Z.of_nat (length bs)) (bs ++ r) = Ok (bs, r).
Proof.
  unfold ReadFull. rewrite length_app, (proj2 (Z.leb_le _ _)), Nat2Z.id by lia.
  by rewrite take_app_length, drop_app_length.
Qed.

Lemma reader_bind_ok {A B} (m : reader A) (f : A -> reader B) s a s' :
  m s = Ok (a, s') -> (m ≫= f) s = f a s'.
Proof. intros H. unfold mbind, reader_bind. by rewrite H. Qed.

Lemma reader_bind_err {A B} (m : reader A) (f : A -> reader B) s e :
  m s = Err e -> (m ≫= f) s = Err e.
Proof. intros H. unfold mbind, reader_bind. by rewrite H. Qed.

Lemma reader_bind_inv {A B} (m : reader A) (f : A -> reader B) s b s'' :
  (m ≫= f) s = Ok (b, s'') ->
  exists a s', m s = Ok (a, s') /\ f a s' = Ok (b, s'').
Proof.
  unfold mbind, reader_bind.
  destruct (m s) as [[a s']| |]; [|discriminate..]. eauto.
Qed.

(** ** Writing to a bytes.Buffer *)

(** What a writing function appended, and how it ended: bytes written before an
    error or a panic stay in the buffer. *)
Definition writer : Type := list Z * res unit.

Definition wret : writer := ([], Ok tt).
Definition wfail (e : goerr) : writer := ([], Err e).
Definition wpanic : writer := ([], Panic).
Definition wbytes (bs : list Z) : writer := (bs, Ok tt).
(** [b.WriteByte(uint8(x))] *)
Definition WriteByte (x : Z) : writer := wbytes [u8 x].

Definition wseq (a b : writer) : writer :=
  match a.2 with
  | Ok _ => (a.1 ++ b.1, b.2)
  | _ => a
  end.

Declare Scope go_scope.
Delimit Scope go_scope with go.
Notation "a >;> b" := (wseq a b) (at level 62, right associativity) : go_scope.
#[global] Open Scope go_scope.

Lemma wseq_bytes bs w : wseq (wbytes bs) w = (bs ++ w.1, w.2).
Proof. done. Qed.

Lemma wseq_assoc a b c : wseq (wseq a b) c = wseq a (wseq b c).
Proof.
  destruct a as [a [[]| |]]; destruct b as [b [[]| |]]; unfold wseq; simpl;
    by rewrite ?app_assoc.
Qed.

Lemma wseq_ret_l w : wseq wret w = w.
Proof. by destruct w. Qed.

Lemma wseq_wbytes_wbytes a b : wseq (wbytes a) (wbytes b) = wbytes (a ++ b).
Proof. done. Qed.

(** A reader is safe when it keeps byte strings byte strings and never panics. *)
Definition safe {A} (m : reader A) : Prop :=
  forall s, bytes_ok s ->
    m s <> Panic /\ (forall a s', m s = Ok (a, s') -> bytes_ok s').

Lemma safe_ret {A} (a : A) : safe (mret a : reader A).
Proof. intros s Hs. split; [done|]. intros ? ? [= <- <-]. done. Qed.

Lemma safe_throw {A} e : safe (throw e : reader A).
Proof. intros s Hs. split; [done|]. intros ? ? [=]. Qed.

Lemma safe_bind {A B} (m : reader A) (f : A -> reader B) :
  safe m -> (forall a, safe (f a)) -> safe (m ≫= f).
Proof.
  intros Hm Hf s Hs. destruct (Hm s Hs) as [Hp Ho].
  unfold mbind, reader_bind. destruct (m s) as [[a s']| |] eqn:E; [|split; [done|intros ? ? [=]]|done].
  apply Hf. by eapply Ho.
Qed.

Lemma safe_if {A} (b : bool) (m1 m2 : reader A) : safe m1 -> safe m2 -> safe (if b then m1 else m2).
Proof. by destruct b. Qed.

Lemma safe_ReadByte : safe ReadByte.
Proof.
  intros [|b s] Hs; (split; [done|]); intros ? ? [=]; subst.
  by apply Forall_cons in Hs as [_ ?].
Qed.

Lemma safe_Len : safe Len.
Proof. intros s Hs. split; [done|]. by intros ? ? [= <- <-]. Qed.

Lemma safe_ReadFull n : safe (ReadFull n).
Proof.
  intros s Hs. unfold ReadFull. destruct (n <=? _); [|by destruct s; (split; [done|]); intros ? ? [=]].
  split; [done|]. intros ? ? [= <- <-]. by apply Forall_drop.
Qed.

#[export] Hint Resolve safe_ReadFull safe_Len safe_ret safe_throw safe_bind safe_if safe_ReadByte : go.

(** A safe reader all of whose results satisfy [P]. *)
Definition yields {A} (m : reader A) (P : A -> Prop) : Prop :=
  forall s, bytes_ok s ->
    m s <> Panic /\ (forall a s', m s = Ok (a, s') -> P a /\ bytes_ok s').

Lemma yields_ret {A} (a : A) (P : A -> Prop) : P a -> yields (mret a) P.
Proof. intros Ha s Hs. split; [done|]. by intros ? ? [= <- <-]. Qed.

Lemma yields_throw {A} e (P : A -> Prop) : yields (throw e) P.
Proof. intros s Hs. split; [done|]. by intros ? ? [=]. Qed.

Lemma yields_bind {A B} (m : reader A) (f : A -> reader B) P Q :
  yields m P -> (forall a, P a -> yields (f a) Q) -> yields (m ≫= f) Q.
Proof.
  intros Hm Hf s Hs. destruct (Hm s Hs) as [Hp Ho]. unfold mbind, reader_bind.
  destruct (m s) as [[a s']| |] eqn:E; [|split; [done|intros ? ? [=]]|done].
  destruct (Ho a s' eq_refl). by apply Hf.
Qed.

Lemma yields_if {A} (b : bool) (m1 m2 : reader A) P :
  (b = true -> yields m1 P) -> (b = false -> yields m2 P) -> yields (if b then m1 else m2) P.
Proof. destruct b; auto. Qed.

Lemma yields_safe {A} (m : reader A) : safe m -> yields m (fun _ => True).
Proof. intros Hm s Hs. destruct (Hm s Hs) as [? Ho]. split; [done|]. eauto. Qed.

Lemma yields_intro {A} (m : reader A) (P : A -> Prop) :
  safe m -> (forall s a s', bytes_ok s -> m s = Ok (a, s') -> P a) -> yields m P.
Proof. intros Hm HP s Hs. destruct (Hm s Hs) as [? Ho]. split; [done|]. eauto. Qed.

Lemma safe_yields {A} (m : reader A) P : yields m P -> safe m.
Proof. intros Hm s Hs. destruct (Hm s Hs) as [? Ho]. split; [done|]. intros a s' E. by apply (Ho a s') in E as [_ ?]. Qed.

Lemma yields_weaken {A} (m : reader A) (P Q : A -> Prop) :
  yields m P -> (forall a, P a -> Q a) -> yields m Q.
Proof.
  intros Hm HPQ s Hs. destruct (Hm s Hs) as [? Ho]. split; [done|].
  intros a s' [? ?]%Ho. auto.
Qed.

Lemma yields_ReadByte : yields ReadByte (fun b => 0 <= b < 256).
Proof.
  intros [|b s] Hs; (split; [done|]); intros ? ? [=]; subst. by apply Forall_cons in Hs.
Qed.

Lemma yields_ReadFull n :
  0 <= n -> yields (ReadFull n) (fun bs => Z.of_nat (length bs) = n /\ bytes_ok bs).
Proof.
  intros Hn s Hs. unfold ReadFull. destruct (Z.leb_spec n (Z.of_nat (length s))).
  - split; [done|]. intros ? ? [= <- <-]. rewrite length_take.
    rewrite <- (take_drop (Z.to_nat n) s) in Hs. apply bytes_ok_app in Hs as [? ?].
    split_and!; try done. lia.
  - by destruct s; (split; [done|]); intros ? ? [=].
Qed.

#[export] Hint Resolve yields_ret yields_throw yields_safe yields_ReadByte : go.

(** A reader that only moves forward. *)
Definition shrinks {A} (m : reader A) : Prop :=
  forall s a s', m s = Ok (a, s') -> (length s' <= length s)%nat.

Lemma shrinks_ret {A} (a : A) : shrinks (mret a).
Proof. by intros s ? ? [= <- <-]. Qed.
Lemma shrinks_throw {A} e : shrinks (throw e : reader A).
Proof. by intros s ? ? [=]. Qed.
Lemma shrinks_bind {A B} (m : reader A) (f : A -> reader B) :
  shrinks m -> (forall a, shrinks (f a)) -> shrinks (m ≫= f).
Proof.
  intros Hm Hf s b s' (a & s1 & E1 & E2)%reader_bind_inv.
  apply Hm in E1. apply Hf in E2. lia.
Qed.
Lemma shrinks_if {A} (b : bool) (m1 m2 : reader A) :
  shrinks m1 -> shrinks m2 -> shrinks (if b then m1 else m2).
Proof. by destruct b. Qed.
Lemma shrinks_ReadByte : shrinks ReadByte.
Proof. intros [|b s] ? ? [=]; subst. simpl. lia. Qed.
Lemma shrinks_Len : shrinks Len.
Proof. by intros s ? ? [= <- <-]. Qed.
Lemma shrinks_ReadFull n : shrinks (ReadFull n).
Proof.
  intros s ? ?. unfold ReadFull. destruct (n <=? _); [|by destruct s].
  intros [= <- <-]. rewrite length_drop. lia.
Qed.
Lemma shrinks_let {A B} (p : A * B) {C} (f : A -> B -> reader C) :
  (forall a b, shrinks (f a b)) -> shrinks (let '(a, b) := p in f a b).
Proof. destruct p; auto. Qed.

(** A reader that consumes something. *)
Definition progress {A} (m : reader A) : Prop :=
  forall s a s', m s = Ok (a, s') -> (length s' < length s)%nat.

Lemma progress_ReadByte : progress ReadByte.
Proof. intros [|b s] ? ? [=]; subst. simpl. lia. Qed.
Lemma progress_throw {A} e : progress (throw e : reader A).
Proof. by intros s ? ? [=]. Qed.
Lemma progress_bind {A B} (m : reader A) (f : A -> reader B) :
  progress m -> (forall a, shrinks (f a)) -> progress (m ≫= f).
Proof.
  intros Hm Hf s b s' (a & s1 & E1 & E2)%reader_bind_inv.
  apply Hm in E1. apply Hf in E2. lia.
Qed.
Lemma progress_if {A} (b : bool) (m1 m2 : reader A) :
  progress m1 -> progress m2 -> progress (if b then m1 else m2).
Proof. by destruct b. Qed.
#[export] Hint Resolve shrinks_ret shrinks_throw shrinks_bind shrinks_if shrinks_ReadByte
  shrinks_Len shrinks_ReadFull shrinks_let progress_ReadByte progress_throw progress_bind
  progress_if : go.

(** ** Time *)

(** A [time.Time] is its reading in nanoseconds, a [time.Duration] an int64 number of
    nanoseconds.  [t.Sub(u)] saturates, [Duration / Duration] truncates. *)
Definition Microsecond : Z := 1000.
Definition Millisecond : Z := 1000 * Microsecond.
Definition Second : Z := 1000 * Millisecond.
Definition time_sub (t u : Z) : Z := Z.max (- 2 ^ 63) (Z.min (2 ^ 63 - 1) (t - u)).
Definition time_add (t d : Z) : Z := t + d.

