(* ===== verification/ByteOrder.v ===== *)
(** * Byte orders and the QUIC 16-bit float

    Models [internal/utils/byteorder*.go] and [internal/utils/float16.go].  The Go
    interface [ByteOrder] is the record [ByteOrder]; [LittleEndian] and [BigEndian]
    are its two implementations, and the class [ByteOrderOk] is what the frame
    parsers and writers rely on. *)

From stdpp Require Import base numbers list option strings.
From S2P Require Import Prelude.

Local Open Scope Z_scope.

(** ** The interface *)

Record ByteOrder : Type := MkByteOrder {
  ReadUintN : Z -> reader Z;
  ReadUint64 : reader Z;
  ReadUint32 : reader Z;
  ReadUint16 : reader Z;
  WriteUint64 : Z -> writer;
  WriteUint56 : Z -> writer;
  WriteUint48 : Z -> writer;
  WriteUint40 : Z -> writer;
  WriteUint32 : Z -> writer;
  WriteUint24 : Z -> writer;
  WriteUint16 : Z -> writer;
}.

(** ** Little endian *)

Module LE.

(** The loop of [ReadUintN]: [k] iterations are left, [i] is the loop counter and
    [acc] is [res]. *)
Fixpoint ReadUintN_loop (k : nat) (i acc : Z) : reader Z :=
  match k with
  | O => mret acc
  | S k' =>
      bt ← ReadByte;
      ReadUintN_loop k' (u8 (i + 1))
        (Z.lxor acc (u64 (Z.shiftl bt (u8 (i * 8)))))
  end.

Definition ReadUintN (length : Z) : reader Z :=
  ReadUintN_loop (Z.to_nat length) 0 0.

Definition ReadUint64 : reader Z :=
  b1 ← ReadByte; b2 ← ReadByte; b3 ← ReadByte; b4 ← ReadByte;
  b5 ← ReadByte; b6 ← ReadByte; b7 ← ReadByte; b8 ← ReadByte;
  mret (u64 (b1 + u64 (Z.shiftl b2 8) + u64 (Z.shiftl b3 16) + u64 (Z.shiftl b4 24)
             + u64 (Z.shiftl b5 32) + u64 (Z.shiftl b6 40) + u64 (Z.shiftl b7 48)
             + u64 (Z.shiftl b8 56))).

Definition ReadUint32 : reader Z :=
  b1 ← ReadByte; b2 ← ReadByte; b3 ← ReadByte; b4 ← ReadByte;
  mret (u32 (b1 + u32 (Z.shiftl b2 8) + u32 (Z.shiftl b3 16) + u32 (Z.shiftl b4 24))).

Definition ReadUint16 : reader Z :=
  b1 ← ReadByte; b2 ← ReadByte;
  mret (u16 (b1 + u16 (Z.shiftl b2 8))).

Definition WriteUint64 (i : Z) : writer :=
  wbytes [u8 i; u8 (Z.shiftr i 8); u8 (Z.shiftr i 16); u8 (Z.shiftr i 24);
          u8 (Z.shiftr i 32); u8 (Z.shiftr i 40); u8 (Z.shiftr i 48); u8 (Z.shiftr i 56)].

Definition WriteUint56 (i : Z) : writer :=
  if Z.shiftl 1 56 <=? i then wpanic else
  wbytes [u8 i; u8 (Z.shiftr i 8); u8 (Z.shiftr i 16); u8 (Z.shiftr i 24);
          u8 (Z.shiftr i 32); u8 (Z.shiftr i 40); u8 (Z.shiftr i 48)].

Definition WriteUint48 (i : Z) : writer :=
  if Z.shiftl 1 48 <=? i then wpanic else
  wbytes [u8 i; u8 (Z.shiftr i 8); u8 (Z.shiftr i 16); u8 (Z.shiftr i 24);
          u8 (Z.shiftr i 32); u8 (Z.shiftr i 40)].

Definition WriteUint40 (i : Z) : writer :=
  if Z.shiftl 1 40 <=? i then wpanic else
  wbytes [u8 i; u8 (Z.shiftr i 8); u8 (Z.shiftr i 16); u8 (Z.shiftr i 24);
          u8 (Z.shiftr i 32)].

Definition WriteUint32 (i : Z) : writer :=
  wbytes [u8 i; u8 (Z.shiftr i 8); u8 (Z.shiftr i 16); u8 (Z.shiftr i 24)].

Definition WriteUint24 (i : Z) : writer :=
  if Z.shiftl 1 24 <=? i then wpanic else
  wbytes [u8 i; u8 (Z.shiftr i 8); u8 (Z.shiftr i 16)].

Definition WriteUint16 (i : Z) : writer := wbytes [u8 i; u8 (Z.shiftr i 8)].

End LE.

Definition LittleEndian : ByteOrder := {|
  ReadUintN := LE.ReadUintN; ReadUint64 := LE.ReadUint64;
  ReadUint32 := LE.ReadUint32; ReadUint16 := LE.ReadUint16;
  WriteUint64 := LE.WriteUint64; WriteUint56 := LE.WriteUint56;
  WriteUint48 := LE.WriteUint48; WriteUint40 := LE.WriteUint40;
  WriteUint32 := LE.WriteUint32; WriteUint24 := LE.WriteUint24;
  WriteUint16 := LE.WriteUint16 |}.

(** ** Big endian *)

Module BE.

Fixpoint ReadUintN_loop (k : nat) (length i acc : Z) : reader Z :=
  match k with
  | O => mret acc
  | S k' =>
      bt ← ReadByte;
      ReadUintN_loop k' length (u8 (i + 1))
        (Z.lxor acc (u64 (Z.shiftl bt (u8 ((length - 1 - i) * 8)))))
  end.

Definition ReadUintN (length : Z) : reader Z :=
  ReadUintN_loop (Z.to_nat length) length 0 0.

Definition ReadUint64 : reader Z :=
  b8 ← ReadByte; b7 ← ReadByte; b6 ← ReadByte; b5 ← ReadByte;
  b4 ← ReadByte; b3 ← ReadByte; b2 ← ReadByte; b1 ← ReadByte;
  mret (u64 (b1 + u64 (Z.shiftl b2 8) + u64 (Z.shiftl b3 16) + u64 (Z.shiftl b4 24)
             + u64 (Z.shiftl b5 32) + u64 (Z.shiftl b6 40) + u64 (Z.shiftl b7 48)
             + u64 (Z.shiftl b8 56))).

Definition ReadUint32 : reader Z :=
  b4 ← ReadByte; b3 ← ReadByte; b2 ← ReadByte; b1 ← ReadByte;
  mret (u32 (b1 + u32 (Z.shiftl b2 8) + u32 (Z.shiftl b3 16) + u32 (Z.shiftl b4 24))).

Definition ReadUint16 : reader Z :=
  b2 ← ReadByte; b1 ← ReadByte;
  mret (u16 (b1 + u16 (Z.shiftl b2 8))).

Definition WriteUint64 (i : Z) : writer :=
  wbytes [u8 (Z.shiftr i 56); u8 (Z.shiftr i 48); u8 (Z.shiftr i 40); u8 (Z.shiftr i 32);
          u8 (Z.shiftr i 24); u8 (Z.shiftr i 16); u8 (Z.shiftr i 8); u8 i].

Definition WriteUint56 (i : Z) : writer :=
  if Z.shiftl 1 56 <=? i then wpanic else
  wbytes [u8 (Z.shiftr i 48); u8 (Z.shiftr i 40); u8 (Z.shiftr i 32);
          u8 (Z.shiftr i 24); u8 (Z.shiftr i 16); u8 (Z.shiftr i 8); u8 i].

Definition WriteUint48 (i : Z) : writer :=
  if Z.shiftl 1 48 <=? i then wpanic else
  wbytes [u8 (Z.shiftr i 40); u8 (Z.shiftr i 32);
          u8 (Z.shiftr i 24); u8 (Z.shiftr i 16); u8 (Z.shiftr i 8); u8 i].

Definition WriteUint40 (i : Z) : writer :=
  if Z.shiftl 1 40 <=? i then wpanic else
  wbytes [u8 (Z.shiftr i 32);
          u8 (Z.shiftr i 24); u8 (Z.shiftr i 16); u8 (Z.shiftr i 8); u8 i].

Definition WriteUint32 (i : Z) : writer :=
  wbytes [u8 (Z.shiftr i 24); u8 (Z.shiftr i 16); u8 (Z.shiftr i 8); u8 i].

Definition WriteUint24 (i : Z) : writer :=
  if Z.shiftl 1 24 <=? i then wpanic else
  wbytes [u8 (Z.shiftr i 16); u8 (Z.shiftr i 8); u8 i].

Definition WriteUint16 (i : Z) : writer := wbytes [u8 (Z.shiftr i 8); u8 i].

End BE.

Definition BigEndian : ByteOrder := {|
  ReadUintN := BE.ReadUintN; ReadUint64 := BE.ReadUint64;
  ReadUint32 := BE.ReadUint32; ReadUint16 := BE.ReadUint16;
  WriteUint64 := BE.WriteUint64; WriteUint56 := BE.WriteUint56;
  WriteUint48 := BE.WriteUint48; WriteUint40 := BE.WriteUint40;
  WriteUint32 := BE.WriteUint32; WriteUint24 := BE.WriteUint24;
  WriteUint16 := BE.WriteUint16 |}.

(** ** Choosing the byte order by version *)

Definition Version37 : Z := 37.
Definition Version38 : Z := 38.
Definition Version39 : Z := 39.
Definition VersionMP : Z := 512.

Definition GetByteOrder (v : Z) : ByteOrder :=
  if v <? Version39 then LittleEndian else BigEndian.

(** ** The QUIC float16 *)

Definition uFloat16MaxExponent : Z := 30.
Definition uFloat16MantissaBits : Z := 11.
Definition uFloat16MantissaEffectiveBits : Z := 12.
Definition uFloat16MaxValue : Z :=
  Z.shiftl (Z.shiftl 1 uFloat16MantissaEffectiveBits - 1) uFloat16MaxExponent.

Definition decodeUfloat16 (val : Z) : Z :=
  if val <? Z.shiftl 1 uFloat16MantissaEffectiveBits then val else
  let exponent := u16 (Z.shiftr val uFloat16MantissaBits - 1) in
  let r := u64 (val - u64 (Z.shiftl exponent uFloat16MantissaBits)) in
  u64 (Z.shiftl r exponent).

Definition readUfloat16 (bo : ByteOrder) : reader Z :=
  val ← ReadUint16 bo; mret (decodeUfloat16 val).

(** One step of the binary search over the exponent: state is [(exponent, value)]. *)
Definition ufloat16_step (st : Z * Z) (offset : Z) : Z * Z :=
  let '(exponent, value) := st in
  if Z.shiftl 1 (uFloat16MantissaBits + offset) <=? value
  then (u16 (exponent + offset), Z.shiftr value offset)
  else (exponent, value).

Definition encodeUfloat16 (value : Z) : Z :=
  if value <? Z.shiftl 1 uFloat16MantissaEffectiveBits then u16 value
  else if uFloat16MaxValue <=? value then 65535
  else
    let '(exponent, value') := fold_left ufloat16_step [16; 8; 4; 2; 1] (0, value) in
    u16 (u16 value' + u16 (Z.shiftl exponent uFloat16MantissaBits)).

Definition writeUfloat16 (bo : ByteOrder) (value : Z) : writer :=
  WriteUint16 bo (encodeUfloat16 value).

(** ** Reference semantics of byte strings *)

(** The number a little-endian byte string denotes, and the [n]-byte string of a
    number.  Big-endian strings are the reversed ones. *)
Fixpoint le_val (bs : list Z) : Z :=
  match bs with [] => 0 | b :: bs' => b + 256 * le_val bs' end.
Definition be_val (bs : list Z) : Z := le_val (rev bs).

Definition le_bytes (n : nat) (v : Z) : list Z :=
  map (fun i => u8 (Z.shiftr v (8 * Z.of_nat i))) (seq 0 n).
Definition be_bytes (n : nat) (v : Z) : list Z := rev (le_bytes n v).

Lemma le_val_app a b : le_val (a ++ b) = le_val a + 2 ^ (8 * Z.of_nat (length a)) * le_val b.
Proof.
  induction a as [|x a IH]; simpl le_val.
  - rewrite Z.mul_1_l. done.
  - rewrite IH. simpl length.
    replace (8 * Z.of_nat (S (length a))) with (8 + 8 * Z.of_nat (length a)) by lia.
    rewrite Z.pow_add_r by lia. change (2 ^ 8) with 256. ring.
Qed.

Lemma le_val_bound bs : bytes_ok bs -> 0 <= le_val bs < 2 ^ (8 * Z.of_nat (length bs)).
Proof.
  induction 1 as [|b bs Hb _ IH]; simpl le_val; [simpl; lia|].
  simpl length. replace (8 * Z.of_nat (S (length bs))) with (8 + 8 * Z.of_nat (length bs)) by lia.
  rewrite Z.pow_add_r by lia. change (2 ^ 8) with 256. lia.
Qed.

Lemma length_le_bytes n v : length (le_bytes n v) = n.
Proof. unfold le_bytes. by rewrite length_map, length_seq. Qed.

Lemma length_be_bytes n v : length (be_bytes n v) = n.
Proof. unfold be_bytes. by rewrite length_rev, length_le_bytes. Qed.

Lemma bytes_ok_le_bytes n v : bytes_ok (le_bytes n v).
Proof.
  unfold bytes_ok, le_bytes. apply List.Forall_map, List.Forall_forall.
  intros. apply u8_byte.
Qed.

Lemma bytes_ok_rev bs : bytes_ok bs -> bytes_ok (rev bs).
Proof. unfold bytes_ok. rewrite rev_alt, <- rev_alt. intros. by apply Forall_rev. Qed.

Lemma bytes_ok_be_bytes n v : bytes_ok (be_bytes n v).
Proof. apply bytes_ok_rev, bytes_ok_le_bytes. Qed.

Lemma le_bytes_S n v : le_bytes (S n) v = le_bytes n v ++ [u8 (Z.shiftr v (8 * Z.of_nat n))].
Proof. unfold le_bytes. by rewrite seq_S, map_app. Qed.

Lemma le_val_le_bytes n v : le_val (le_bytes n v) = v `mod` 2 ^ (8 * Z.of_nat n).
Proof.
  induction n as [|n IH]; [by rewrite Z.mod_1_r|].
  rewrite le_bytes_S, le_val_app, IH, length_le_bytes. simpl le_val.
  unfold u8, wrap. rewrite Z.shiftr_div_pow2 by lia.
  replace (8 * Z.of_nat (S n)) with (8 * Z.of_nat n + 8) by lia.
  rewrite Z.pow_add_r, Z.rem_mul_r by lia. lia.
Qed.

Lemma le_val_le_bytes_small n v :
  0 <= v < 2 ^ (8 * Z.of_nat n) -> le_val (le_bytes n v) = v.
Proof. intros. rewrite le_val_le_bytes. by apply Z.mod_small. Qed.

(** Combining disjoint bits by xor is addition. *)
Lemma lxor_disjoint_add a b k :
  0 <= k -> 0 <= a < 2 ^ k -> Z.lxor a (b * 2 ^ k) = a + b * 2 ^ k.
Proof.
  intros Hk Ha. symmetry. apply Z.add_nocarry_lxor.
  apply Z.bits_inj'. intros i Hi. rewrite Z.land_spec, Z.bits_0.
  destruct (decide (i < k)).
  - rewrite <- Z.shiftl_mul_pow2 by lia. rewrite Z.shiftl_spec_low by lia. by rewrite andb_false_r.
  - rewrite <- (Z.mod_small a (2 ^ k)), Z.mod_pow2_bits_high by lia. done.
Qed.

(** ** What the interface promises *)

(** [dec] reads the number off a byte string, [enc] produces the string of a given
    length; every read and every write of the interface is one of the two. *)
Class ByteOrderOk (bo : ByteOrder) : Type := {
  dec : list Z -> Z;
  enc : nat -> Z -> list Z;
  dec_bound bs : bytes_ok bs -> 0 <= dec bs < 2 ^ (8 * Z.of_nat (length bs));
  enc_length n v : length (enc n v) = n;
  enc_one v : enc 1 v = [u8 v];
  enc_bytes n v : bytes_ok (enc n v);
  dec_enc n v : 0 <= v < 2 ^ (8 * Z.of_nat n) -> dec (enc n v) = v;
  readN_ok bs r : bytes_ok bs -> (length bs <= 8)%nat ->
    ReadUintN bo (Z.of_nat (length bs)) (bs ++ r) = Ok (dec bs, r);
  readN_eof k s : (length s < k)%nat -> ReadUintN bo (Z.of_nat k) s = Err EOF;
  read16_ok bs r : bytes_ok bs -> length bs = 2%nat -> ReadUint16 bo (bs ++ r) = Ok (dec bs, r);
  read16_eof s : (length s < 2)%nat -> ReadUint16 bo s = Err EOF;
  read32_ok bs r : bytes_ok bs -> length bs = 4%nat -> ReadUint32 bo (bs ++ r) = Ok (dec bs, r);
  read32_eof s : (length s < 4)%nat -> ReadUint32 bo s = Err EOF;
  read64_ok bs r : bytes_ok bs -> length bs = 8%nat -> ReadUint64 bo (bs ++ r) = Ok (dec bs, r);
  read64_eof s : (length s < 8)%nat -> ReadUint64 bo s = Err EOF;
  write64 v : WriteUint64 bo v = wbytes (enc 8 v);
  write56 v : WriteUint56 bo v = if 2 ^ 56 <=? v then wpanic else wbytes (enc 7 v);
  write48 v : WriteUint48 bo v = if 2 ^ 48 <=? v then wpanic else wbytes (enc 6 v);
  write40 v : WriteUint40 bo v = if 2 ^ 40 <=? v then wpanic else wbytes (enc 5 v);
  write32 v : WriteUint32 bo v = wbytes (enc 4 v);
  write24 v : WriteUint24 bo v = if 2 ^ 24 <=? v then wpanic else wbytes (enc 3 v);
  write16 v : WriteUint16 bo v = wbytes (enc 2 v);
}.

(** ** Little endian implements it *)

Lemma LE_loop_ok bs r : bytes_ok bs -> forall i acc,
  0 <= i -> i + Z.of_nat (length bs) <= 8 -> 0 <= acc < 2 ^ (8 * i) ->
  LE.ReadUintN_loop (length bs) i acc (bs ++ r) = Ok (acc + 2 ^ (8 * i) * le_val bs, r).
Proof.
  induction 1 as [|b bs Hb Hbs IH]; intros i acc Hi Hlen Hacc; simpl.
  - unfold mret, reader_ret. rewrite Z.mul_0_r, Z.add_0_r. done.
  - simpl in Hlen. unfold mbind, reader_bind. simpl.
    rewrite (u8_small (i * 8)), (u8_small (i + 1)) by lia.
    rewrite Z.shiftl_mul_pow2 by lia.
    assert (b * 2 ^ (i * 8) < 2 ^ 64) as Hlt.
    { assert (2 ^ (8 + i * 8) <= 2 ^ 64) by (apply Z.pow_le_mono_r; lia).
      rewrite Z.pow_add_r in H by lia. change (2 ^ 8) with 256 in H. nia. }
    rewrite u64_small by nia.
    rewrite (Z.mul_comm i 8), lxor_disjoint_add by lia.
    rewrite IH; [|lia|lia|].
    + f_equal. f_equal. replace (8 * (i + 1)) with (8 * i + 8) by lia.
      rewrite Z.pow_add_r by lia. change (2 ^ 8) with 256. ring.
    + replace (8 * (i + 1)) with (8 * i + 8) by lia.
      rewrite Z.pow_add_r by lia. change (2 ^ 8) with 256. nia.
Qed.

Lemma LE_loop_eof k : forall s i acc,
  (length s < k)%nat -> LE.ReadUintN_loop k i acc s = Err EOF.
Proof.
  induction k as [|k IH]; intros s i acc Hs; [lia|].
  destruct s as [|b s]; simpl; [done|]. apply IH. simpl in Hs. lia.
Qed.

(** [split_bytes] takes a byte string of known length apart; [run_bytes] runs a
    reader made of single-byte reads on it. *)
Ltac split_bytes :=
  repeat match goal with
         | H : length ?l = S _ |- _ => destruct l as [|? l]; [discriminate H|]
         | H : length ?l = 0%nat |- _ => apply nil_length_inv in H; subst l
         | H : S (length _) = S _ |- _ => injection H as H
         | H : length (_ :: _) = _ |- _ => simpl in H
         | H : bytes_ok (_ :: _) |- _ => unfold bytes_ok in H
         | H : Forall _ (_ :: _) |- _ => apply Forall_cons in H as [? H]
         end.

Ltac run_bytes f :=
  intros; split_bytes;
  cbv [f mbind reader_bind mret reader_ret ReadByte app le_val be_val rev];
  f_equal; f_equal; rewrite ?Z.shiftl_mul_pow2 by lia; word.

Ltac short_bytes f :=
  intros;
  cbv [f mbind reader_bind mret reader_ret ReadByte];
  repeat (match goal with |- context [match ?s with [] => _ | _ => _ end] =>
            destruct s as [|? s]; [done|] end);
  simpl in *; lia.

Lemma LE_eof16 s : (length s < 2)%nat -> LE.ReadUint16 s = Err EOF.
Proof. short_bytes LE.ReadUint16. Qed.
Lemma LE_read16 bs r : bytes_ok bs -> length bs = 2%nat ->
  LE.ReadUint16 (bs ++ r) = Ok (le_val bs, r).
Proof. run_bytes LE.ReadUint16. Qed.
Lemma LE_eof32 s : (length s < 4)%nat -> LE.ReadUint32 s = Err EOF.
Proof. short_bytes LE.ReadUint32. Qed.
Lemma LE_read32 bs r : bytes_ok bs -> length bs = 4%nat ->
  LE.ReadUint32 (bs ++ r) = Ok (le_val bs, r).
Proof. run_bytes LE.ReadUint32. Qed.
Lemma LE_eof64 s : (length s < 8)%nat -> LE.ReadUint64 s = Err EOF.
Proof. short_bytes LE.ReadUint64. Qed.
Lemma LE_read64 bs r : bytes_ok bs -> length bs = 8%nat ->
  LE.ReadUint64 (bs ++ r) = Ok (le_val bs, r).
Proof. run_bytes LE.ReadUint64. Qed.

#[export] Instance LittleEndian_ok : ByteOrderOk LittleEndian.
Proof.
  refine {| dec := le_val; enc := le_bytes |}; try done.
  - apply le_val_bound.
  - apply length_le_bytes.
  - apply bytes_ok_le_bytes.
  - apply le_val_le_bytes_small.
  - intros bs r Hbs Hlen. cbn. unfold LE.ReadUintN. rewrite Nat2Z.id.
    rewrite LE_loop_ok by (done || simpl; lia). by rewrite Z.mul_1_l.
  - intros k s Hs. cbn. unfold LE.ReadUintN. rewrite Nat2Z.id. by apply LE_loop_eof.
  - apply LE_read16.
  - apply LE_eof16.
  - apply LE_read32.
  - apply LE_eof32.
  - apply LE_read64.
  - apply LE_eof64.
Defined.

(** ** Big endian implements it *)

Lemma be_val_cons b bs :
  be_val (b :: bs) = be_val bs + 2 ^ (8 * Z.of_nat (length bs)) * b.
Proof. unfold be_val. simpl rev. rewrite le_val_app, length_rev. simpl. lia. Qed.

Lemma be_val_bound bs : bytes_ok bs -> 0 <= be_val bs < 2 ^ (8 * Z.of_nat (length bs)).
Proof. intros H. rewrite <- (length_rev bs). by apply le_val_bound, bytes_ok_rev. Qed.

Lemma BE_loop_ok bs r : bytes_ok bs -> forall n i acc,
  0 <= i -> n = i + Z.of_nat (length bs) -> n <= 8 -> 0 <= acc < 2 ^ (8 * i) ->
  BE.ReadUintN_loop (length bs) n i (acc * 2 ^ (8 * Z.of_nat (length bs))) (bs ++ r)
  = Ok (acc * 2 ^ (8 * Z.of_nat (length bs)) + be_val bs, r).
Proof.
  induction 1 as [|b bs Hb Hbs IH]; intros n i acc Hi Hn Hle Hacc; simpl.
  - unfold mret, reader_ret, be_val. by rewrite Z.add_0_r.
  - simpl in Hn. unfold mbind, reader_bind. simpl.
    set (k := Z.of_nat (length bs)) in *.
    replace (Z.of_nat (S (length bs))) with (k + 1) in * by lia.
    rewrite (u8_small ((n - 1 - i) * 8)), (u8_small (i + 1)) by lia.
    rewrite Z.shiftl_mul_pow2 by lia.
    replace ((n - 1 - i) * 8) with (8 * k) by lia.
    assert (b * 2 ^ (8 * k) < 2 ^ 64) as Hlt.
    { assert (2 ^ (8 + 8 * k) <= 2 ^ 64) as H by (apply Z.pow_le_mono_r; lia).
      rewrite Z.pow_add_r in H by lia. change (2 ^ 8) with 256 in H. nia. }
    rewrite u64_small by nia.
    replace (8 * (k + 1)) with (8 + 8 * k) by lia.
    rewrite Z.pow_add_r by lia. change (2 ^ 8) with 256.
    rewrite Z.lxor_comm.
    replace (acc * (256 * 2 ^ (8 * k))) with (acc * 2 ^ (8 + 8 * k))
      by (rewrite Z.pow_add_r by lia; done).
    rewrite lxor_disjoint_add; [|lia|rewrite Z.pow_add_r by lia; change (2 ^ 8) with 256; nia].
    rewrite Z.pow_add_r by lia. change (2 ^ 8) with 256.
    replace (b * 2 ^ (8 * k) + acc * (256 * 2 ^ (8 * k)))
      with ((acc * 256 + b) * 2 ^ (8 * k)) by ring.
    rewrite IH; [|lia|lia|lia|].
    + rewrite be_val_cons. do 2 f_equal. unfold k. ring.
    + replace (8 * (i + 1)) with (8 * i + 8) by lia.
      rewrite Z.pow_add_r by lia. change (2 ^ 8) with 256. lia.
Qed.

Lemma BE_loop_eof k : forall s n i acc,
  (length s < k)%nat -> BE.ReadUintN_loop k n i acc s = Err EOF.
Proof.
  induction k as [|k IH]; intros s n i acc Hs; [lia|].
  destruct s as [|b s]; simpl; [done|]. apply IH. simpl in Hs. lia.
Qed.

Lemma BE_eof16 s : (length s < 2)%nat -> BE.ReadUint16 s = Err EOF.
Proof. short_bytes BE.ReadUint16. Qed.
Lemma BE_read16 bs r : bytes_ok bs -> length bs = 2%nat ->
  BE.ReadUint16 (bs ++ r) = Ok (be_val bs, r).
Proof. run_bytes BE.ReadUint16. Qed.
Lemma BE_eof32 s : (length s < 4)%nat -> BE.ReadUint32 s = Err EOF.
Proof. short_bytes BE.ReadUint32. Qed.
Lemma BE_read32 bs r : bytes_ok bs -> length bs = 4%nat ->
  BE.ReadUint32 (bs ++ r) = Ok (be_val bs, r).
Proof. run_bytes BE.ReadUint32. Qed.
Lemma BE_eof64 s : (length s < 8)%nat -> BE.ReadUint64 s = Err EOF.
Proof. short_bytes BE.ReadUint64. Qed.
Lemma BE_read64 bs r : bytes_ok bs -> length bs = 8%nat ->
  BE.ReadUint64 (bs ++ r) = Ok (be_val bs, r).
Proof. run_bytes BE.ReadUint64. Qed.

#[export] Instance BigEndian_ok : ByteOrderOk BigEndian.
Proof.
  refine {| dec := be_val; enc := be_bytes |}; try done.
  - apply be_val_bound.
  - apply length_be_bytes.
  - apply bytes_ok_be_bytes.
  - intros n v H. unfold be_val, be_bytes. rewrite rev_involutive.
    by apply le_val_le_bytes_small.
  - intros bs r Hbs Hlen. cbn. unfold BE.ReadUintN. rewrite Nat2Z.id.
    pose proof (BE_loop_ok bs r Hbs (Z.of_nat (length bs)) 0 0) as H.
    rewrite Z.mul_0_l, Z.add_0_l in H. apply H; simpl; lia.
  - intros k s Hs. cbn. unfold BE.ReadUintN. rewrite Nat2Z.id. by apply BE_loop_eof.
  - apply BE_read16.
  - apply BE_eof16.
  - apply BE_read32.
  - apply BE_eof32.
  - apply BE_read64.
  - apply BE_eof64.
Defined.

#[export] Instance GetByteOrder_ok v : ByteOrderOk (GetByteOrder v).
Proof. unfold GetByteOrder. destruct (v <? Version39); apply _. Defined.

(** ** Codecs derived from the interface *)

Section Codec.
Context (bo : ByteOrder) `{Hbo : !ByteOrderOk bo}.

Lemma readN_enc n v r :
  (n <= 8)%nat -> 0 <= v < 2 ^ (8 * Z.of_nat n) ->
  ReadUintN bo (Z.of_nat n) (enc n v ++ r) = Ok (v, r).
Proof.
  intros Hn Hv. rewrite <- (enc_length n v) at 1.
  rewrite readN_ok by (rewrite ?enc_length; auto using enc_bytes). by rewrite dec_enc.
Qed.

Lemma read_uint l v r :
  0 <= l <= 8 -> 0 <= v < 2 ^ (8 * l) ->
  ReadUintN bo l (enc (Z.to_nat l) v ++ r) = Ok (v, r).
Proof.
  intros Hl Hv. rewrite <- (Z2Nat.id l) at 1 by lia.
  apply readN_enc; [lia|]. by rewrite Z2Nat.id by lia.
Qed.

(** What a read says about its input, for every width of the interface. *)
Definition reads (rd : reader Z) (n : nat) : Prop :=
  forall s, bytes_ok s ->
    rd s <> Panic /\
    forall v r, rd s = Ok (v, r) ->
      0 <= v < 2 ^ (8 * Z.of_nat n) /\
      exists bs, s = bs ++ r /\ length bs = n /\ v = dec bs.

Lemma fixed_reads rd n :
  (forall bs r, bytes_ok bs -> length bs = n -> rd (bs ++ r) = Ok (dec bs, r)) ->
  (forall s, (length s < n)%nat -> rd s = Err EOF) -> reads rd n.
Proof.
  intros Hok Heof s Hs. destruct (decide (length s < n)%nat) as [Hlt|Hge].
  { rewrite Heof by done. split; [done|discriminate]. }
  rewrite <- (take_drop n s) in Hs |- *. apply bytes_ok_app in Hs as [Hs1 Hs2].
  assert (length (take n s) = n) as Hlen by (rewrite length_take; lia).
  rewrite Hok by done. split; [done|]. intros v r [= <- <-]. split; [|eauto].
  pose proof (dec_bound (take n s) Hs1) as H. by rewrite Hlen in H.
Qed.

Lemma reads_N n : (n <= 8)%nat -> reads (ReadUintN bo (Z.of_nat n)) n.
Proof.
  intros Hn. apply fixed_reads; [|by intros; apply readN_eof].
  intros bs r Hbs <-. by apply readN_ok.
Qed.
Lemma reads_16 : reads (ReadUint16 bo) 2.
Proof. apply fixed_reads; [apply read16_ok|apply read16_eof]. Qed.
Lemma reads_32 : reads (ReadUint32 bo) 4.
Proof. apply fixed_reads; [apply read32_ok|apply read32_eof]. Qed.
Lemma reads_64 : reads (ReadUint64 bo) 8.
Proof. apply fixed_reads; [apply read64_ok|apply read64_eof]. Qed.

Lemma reads_safe rd n : reads rd n -> safe rd.
Proof.
  intros Hrd s Hs. destruct (Hrd s Hs) as [Hp Ho]. split; [done|].
  intros v r E. destruct (Ho v r E) as [_ (bs & -> & _)]. by apply bytes_ok_app in Hs as [_ ?].
Qed.

Lemma safe_readN n : 0 <= n <= 8 -> safe (ReadUintN bo n).
Proof. intros Hn. replace n with (Z.of_nat (Z.to_nat n)) by lia. eapply reads_safe, reads_N. lia. Qed.
Lemma safe_read16 : safe (ReadUint16 bo).
Proof. eapply reads_safe, reads_16. Qed.
Lemma safe_read32 : safe (ReadUint32 bo).
Proof. eapply reads_safe, reads_32. Qed.
Lemma safe_read64 : safe (ReadUint64 bo).
Proof. eapply reads_safe, reads_64. Qed.
Lemma safe_readUfloat16 : safe (readUfloat16 bo).
Proof. apply safe_bind; [apply safe_read16|]. intros. apply safe_ret. Qed.

Lemma reads_yields rd n : reads rd n -> yields rd (fun v => 0 <= v < 2 ^ (8 * Z.of_nat n)).
Proof.
  intros Hrd. apply yields_intro; [by eapply reads_safe|].
  intros s v r Hs E. destruct (Hrd s Hs) as [_ Ho]. by destruct (Ho v r E).
Qed.
Lemma yields_uint l : 0 <= l <= 8 -> yields (ReadUintN bo l) (fun v => 0 <= v < 2 ^ (8 * l)).
Proof.
  intros Hl. rewrite <- (Z2Nat.id l) by lia. apply reads_yields, reads_N. lia.
Qed.
Lemma yields_16 : yields (ReadUint16 bo) (fun v => 0 <= v < 2 ^ 16).
Proof. apply (reads_yields _ 2), reads_16. Qed.
Lemma yields_32 : yields (ReadUint32 bo) (fun v => 0 <= v < 2 ^ 32).
Proof. apply (reads_yields _ 4), reads_32. Qed.
Lemma yields_64 : yields (ReadUint64 bo) (fun v => 0 <= v < 2 ^ 64).
Proof. apply (reads_yields _ 8), reads_64. Qed.

Lemma read16_enc v r : 0 <= v < 2 ^ 16 -> ReadUint16 bo (enc 2 v ++ r) = Ok (v, r).
Proof. intros. rewrite read16_ok by auto using enc_bytes, enc_length. by rewrite dec_enc. Qed.
Lemma read32_enc v r : 0 <= v < 2 ^ 32 -> ReadUint32 bo (enc 4 v ++ r) = Ok (v, r).
Proof. intros. rewrite read32_ok by auto using enc_bytes, enc_length. by rewrite dec_enc. Qed.
Lemma read64_enc v r : 0 <= v < 2 ^ 64 -> ReadUint64 bo (enc 8 v ++ r) = Ok (v, r).
Proof. intros. rewrite read64_ok by auto using enc_bytes, enc_length. by rewrite dec_enc. Qed.
End Codec.
#[export] Hint Resolve safe_readN safe_read16 safe_read32 safe_read64 safe_readUfloat16
  yields_16 yields_32 yields_64 : go.

(** Readers only move forward, whatever the input. *)
Lemma shrinks_LE_loop k : forall i acc, shrinks (LE.ReadUintN_loop k i acc).
Proof. induction k; intros; cbn [LE.ReadUintN_loop]; auto with go. Qed.
Lemma shrinks_BE_loop k : forall l i acc, shrinks (BE.ReadUintN_loop k l i acc).
Proof. induction k; intros; cbn [BE.ReadUintN_loop]; auto with go. Qed.

Section Shrinks.
Context (v : Z).
Lemma shrinks_readN n : shrinks (ReadUintN (GetByteOrder v) n).
Proof. unfold GetByteOrder. destruct (v <? _); [apply shrinks_LE_loop|apply shrinks_BE_loop]. Qed.
Lemma shrinks_read16 : shrinks (ReadUint16 (GetByteOrder v)).
Proof. unfold GetByteOrder. destruct (v <? _); cbn; unfold LE.ReadUint16, BE.ReadUint16; auto with go. Qed.
Lemma shrinks_read32 : shrinks (ReadUint32 (GetByteOrder v)).
Proof.
  unfold GetByteOrder. destruct (v <? _); cbn; unfold LE.ReadUint32, BE.ReadUint32; auto 10 with go.
Qed.
Lemma shrinks_read64 : shrinks (ReadUint64 (GetByteOrder v)).
Proof.
  unfold GetByteOrder. destruct (v <? _); cbn; unfold LE.ReadUint64, BE.ReadUint64; auto 20 with go.
Qed.
Lemma shrinks_readUfloat16 : shrinks (readUfloat16 (GetByteOrder v)).
Proof. apply shrinks_bind; [apply shrinks_read16|]. intros. apply shrinks_ret. Qed.
End Shrinks.
#[export] Hint Resolve shrinks_readN shrinks_read16 shrinks_read32 shrinks_read64
  shrinks_readUfloat16 : go.
#[export] Hint Extern 0 (ByteOrderOk _) => typeclasses eauto : go.

(** ** The float16 codec *)

(** The exponent the encoder looks for: how far the value has to be shifted so that
    its highest bit is bit 11. *)
Definition ufloat16_exp (v : Z) : Z := Z.max 0 (Z.log2 v - 11).

Lemma ufloat16_step_spec v e o :
  0 < v -> 0 <= e -> 0 < o -> e + o < 65536 -> e <= Z.log2 v - 11 < e + 2 * o ->
  let st' := ufloat16_step (e, Z.shiftr v e) o in
  st'.2 = Z.shiftr v st'.1 /\ e <= st'.1 <= e + o /\ st'.1 <= Z.log2 v - 11 < st'.1 + o.
Proof.
  intros Hv He Ho Hov Hr. unfold ufloat16_step, uFloat16MantissaBits.
  rewrite Z.shiftl_1_l.
  assert (Z.log2 (Z.shiftr v e) = Z.log2 v - e) as Hlog.
  { rewrite Z.log2_shiftr by lia. lia. }
  assert (0 < Z.shiftr v e) as Hpos by (apply Z.log2_lt_cancel; rewrite Hlog; simpl; lia).
  destruct (Z.leb_spec (2 ^ (11 + o)) (Z.shiftr v e)) as [Hle|Hlt]; simpl.
  - apply Z.log2_le_pow2 in Hle; [|done]. rewrite Hlog in Hle.
    rewrite u16_small by lia. rewrite Z.shiftr_shiftr by lia. split_and!; try done; lia.
  - apply Z.log2_lt_pow2 in Hlt; [|done]. rewrite Hlog in Hlt. split_and!; try done; lia.
Qed.

(** The offsets [2^k, ..., 2, 1] of the binary search. *)
Fixpoint halvings (k : nat) : list Z :=
  match k with O => [1] | S k' => 2 ^ Z.of_nat k :: halvings k' end.

Lemma ufloat16_search_from v k : forall e,
  0 < v -> 0 <= e -> e + 2 * 2 ^ Z.of_nat k < 65536 ->
  e <= Z.log2 v - 11 < e + 2 * 2 ^ Z.of_nat k ->
  fold_left ufloat16_step (halvings k) (e, Z.shiftr v e)
  = (Z.log2 v - 11, Z.shiftr v (Z.log2 v - 11)).
Proof.
  induction k as [|k IH]; intros e Hv He Hov Hr.
  all: cbn [halvings fold_left].
  - pose proof (ufloat16_step_spec v e 1) as H.
    destruct (ufloat16_step (e, Z.shiftr v e) 1) as [e' x]; cbn in H.
    destruct H as (-> & ? & ?); [cbn in Hr, Hov; lia..|].
    replace e' with (Z.log2 v - 11) by lia. done.
  - assert (2 ^ Z.of_nat (S k) = 2 * 2 ^ Z.of_nat k) as E
      by (rewrite Nat2Z.inj_succ, Z.pow_succ_r by lia; done).
    pose proof (ufloat16_step_spec v e (2 ^ Z.of_nat (S k))) as H.
    destruct (ufloat16_step (e, Z.shiftr v e) (2 ^ Z.of_nat (S k))) as [e' x]; cbn in H.
    destruct H as (-> & ? & ?); [lia..|]. apply IH; lia.
Qed.

Lemma ufloat16_search v :
  11 < Z.log2 v < 43 ->
  fold_left ufloat16_step [16; 8; 4; 2; 1] (0, v) = (Z.log2 v - 11, Z.shiftr v (Z.log2 v - 11)).
Proof.
  intros Hlog. assert (0 < v) as Hv by (apply Z.log2_lt_cancel; simpl; lia).
  pose proof (ufloat16_search_from v 4 0 Hv) as H.
  rewrite Z.shiftr_0_r in H. apply H; cbn; lia.
Qed.

(** A shifted value keeps its highest bit: the mantissa has 12 significant bits. *)
Lemma shiftr_mantissa v :
  11 <= Z.log2 v -> 2 ^ 11 <= Z.shiftr v (Z.log2 v - 11) < 2 ^ 12.
Proof.
  intros Hlog. assert (0 < v) as Hv by (apply Z.log2_lt_cancel; simpl; lia).
  set (e := Z.log2 v - 11).
  assert (Z.log2 (Z.shiftr v e) = 11) as Hm by (rewrite Z.log2_shiftr; lia).
  assert (0 < Z.shiftr v e) by (apply Z.log2_lt_cancel; rewrite Hm; simpl; lia).
  pose proof (Z.log2_spec (Z.shiftr v e)) as H'. rewrite Hm in H'. lia.
Qed.

(** Values the encoder does not have to round or clamp away. *)
Lemma uFloat16_log2 v :
  2 ^ 12 <= v < uFloat16MaxValue -> 11 < Z.log2 v < 42.
Proof.
  intros Hv. split.
  - assert (12 <= Z.log2 v) by (apply Z.log2_le_pow2; lia). lia.
  - apply Z.log2_lt_pow2; [lia|]. change uFloat16MaxValue with 4396972769280 in Hv. lia.
Qed.

Lemma encodeUfloat16_big v :
  2 ^ 12 <= v < uFloat16MaxValue ->
  encodeUfloat16 v = Z.shiftr v (Z.log2 v - 11) + (Z.log2 v - 11) * 2 ^ 11.
Proof.
  intros Hv. pose proof (uFloat16_log2 v Hv) as Hlog.
  pose proof (shiftr_mantissa v ltac:(lia)) as Hm.
  unfold encodeUfloat16. change (Z.shiftl 1 uFloat16MantissaEffectiveBits) with (2 ^ 12).
  destruct (Z.ltb_spec v (2 ^ 12)); [lia|].
  destruct (Z.leb_spec uFloat16MaxValue v); [lia|].
  rewrite ufloat16_search by lia.
  unfold uFloat16MantissaBits. rewrite Z.shiftl_mul_pow2 by lia.
  rewrite (u16_small (Z.shiftr _ _)), (u16_small (_ * _)), u16_small; lia.
Qed.

Lemma decodeUfloat16_big m e :
  2 ^ 11 <= m < 2 ^ 12 -> 1 <= e <= 30 ->
  decodeUfloat16 (m + e * 2 ^ 11) = m * 2 ^ e.
Proof.
  intros Hm He. unfold decodeUfloat16, uFloat16MantissaBits.
  change (Z.shiftl 1 uFloat16MantissaEffectiveBits) with (2 ^ 12).
  destruct (Z.ltb_spec (m + e * 2 ^ 11) (2 ^ 12)); [lia|].
  assert (Z.shiftr (m + e * 2 ^ 11) 11 = e + 1) as ->.
  { rewrite Z.shiftr_div_pow2 by lia. rewrite Z.div_add by lia.
    assert (m / 2 ^ 11 = 1); [|lia]. symmetry. apply (Z.div_unique m (2 ^ 11) 1 (m - 2 ^ 11)); lia. }
  replace (e + 1 - 1) with e by lia. rewrite (u16_small e) by lia.
  rewrite (Z.shiftl_mul_pow2 e) by lia. rewrite (u64_small (e * 2 ^ 11)) by lia.
  replace (m + e * 2 ^ 11 - e * 2 ^ 11) with m by lia. rewrite (u64_small m) by lia.
  rewrite Z.shiftl_mul_pow2 by lia. apply u64_small.
  assert (2 ^ e <= 2 ^ 30) by (apply Z.pow_le_mono_r; lia). nia.
Qed.

Lemma decodeUfloat16_small w : w < 2 ^ 12 -> decodeUfloat16 w = w.
Proof.
  intros. unfold decodeUfloat16.
  change (Z.shiftl 1 uFloat16MantissaEffectiveBits) with (2 ^ 12).
  destruct (Z.ltb_spec w (2 ^ 12)); lia.
Qed.

Lemma encodeUfloat16_small v : 0 <= v < 2 ^ 12 -> encodeUfloat16 v = v.
Proof.
  intros. unfold encodeUfloat16.
  change (Z.shiftl 1 uFloat16MantissaEffectiveBits) with (2 ^ 12).
  destruct (Z.ltb_spec v (2 ^ 12)); [|lia]. apply u16_small. lia.
Qed.

Lemma encodeUfloat16_clamp v : uFloat16MaxValue <= v -> encodeUfloat16 v = 65535.
Proof.
  intros Hv. change uFloat16MaxValue with 4396972769280 in Hv. unfold encodeUfloat16.
  change (Z.shiftl 1 uFloat16MantissaEffectiveBits) with (2 ^ 12).
  change uFloat16MaxValue with 4396972769280.
  destruct (Z.ltb_spec v (2 ^ 12)); [lia|].
  destruct (Z.leb_spec 4396972769280 v); lia.
Qed.

Lemma encodeUfloat16_range v : 0 <= v -> 0 <= encodeUfloat16 v < 2 ^ 16.
Proof.
  intros Hv. destruct (decide (v < 2 ^ 12)); [rewrite encodeUfloat16_small; lia|].
  destruct (decide (uFloat16MaxValue <= v)); [rewrite encodeUfloat16_clamp; lia|].
  pose proof (uFloat16_log2 v ltac:(lia)). pose proof (shiftr_mantissa v ltac:(lia)).
  rewrite encodeUfloat16_big; lia.
Qed.

(** What a delay becomes after a trip over the wire. *)
Definition ufloat16_round (v : Z) : Z :=
  if uFloat16MaxValue <=? v then uFloat16MaxValue
  else let e := ufloat16_exp v in Z.shiftl (Z.shiftr v e) e.

Lemma decode_encode_Ufloat16 v :
  0 <= v -> decodeUfloat16 (encodeUfloat16 v) = ufloat16_round v.
Proof.
  intros Hv. unfold ufloat16_round, ufloat16_exp.
  destruct (Z.leb_spec uFloat16MaxValue v) as [Hmax|Hmax].
  { rewrite encodeUfloat16_clamp by done. reflexivity. }
  destruct (decide (v < 2 ^ 12)) as [Hs|Hb].
  - rewrite encodeUfloat16_small, decodeUfloat16_small by lia.
    assert (Z.log2 v < 12).
    { destruct (decide (v = 0)) as [->|]; [simpl; lia|]. apply Z.log2_lt_pow2; lia. }
    rewrite Z.max_l by lia. by rewrite Z.shiftr_0_r, Z.shiftl_0_r.
  - pose proof (uFloat16_log2 v ltac:(lia)). pose proof (shiftr_mantissa v ltac:(lia)).
    rewrite encodeUfloat16_big, decodeUfloat16_big by lia.
    rewrite Z.max_r, Z.shiftl_mul_pow2 by lia. done.
Qed.

(** ** Properties *)

Lemma ufloat16_round_le v : 0 <= v -> 0 <= ufloat16_round v <= v.
Proof.
  intros Hv. unfold ufloat16_round.
  destruct (Z.leb_spec uFloat16MaxValue v); [change uFloat16MaxValue with 4396972769280 in *; lia|].
  assert (0 <= ufloat16_exp v) by (unfold ufloat16_exp; lia).
  rewrite Z.shiftl_mul_pow2, Z.shiftr_div_pow2 by done.
  assert (0 < 2 ^ ufloat16_exp v) by (apply Z.pow_pos_nonneg; lia).
  split; [apply Z.mul_nonneg_nonneg; [apply Z.div_pos; lia|lia]|].
  rewrite Z.mul_comm. by apply Z.mul_div_le.
Qed.

(** A rounded number of microseconds is a duration. *)
Lemma round_in_i64 v : 0 <= v -> in_i64 (ufloat16_round v * Microsecond).
Proof.
  intros Hv. unfold in_i64, Microsecond.
  pose proof (ufloat16_round_le v Hv). unfold ufloat16_round in *.
  destruct (Z.leb_spec uFloat16MaxValue v); change uFloat16MaxValue with 4396972769280 in *; lia.
Qed.

Lemma read_ufloat16 bo `{!ByteOrderOk bo} v r :
  0 <= v -> readUfloat16 bo (enc 2 (encodeUfloat16 v) ++ r) = Ok (ufloat16_round v, r).
Proof.
  intros Hv. unfold readUfloat16. erewrite reader_bind_ok
    by (apply read16_enc; by apply encodeUfloat16_range).
  rewrite decode_encode_Ufloat16 by done. done.
Qed.

(** The ACK delay loses at most one part in 2048 on the wire: for a value in
    range, what the peer decodes is not above what was sent and is off by less than
    [v / 2^11]; values up to 4095 are exact; larger values saturate at the maximum. *)
Theorem ufloat16_precision v :
  0 <= v ->
  let d := decodeUfloat16 (encodeUfloat16 v) in
  0 <= d <= v /\
  (v < 2 ^ 12 -> d = v) /\
  (v < uFloat16MaxValue -> (v - d) * 2 ^ 11 <= v) /\
  (uFloat16MaxValue <= v -> d = uFloat16MaxValue).
Proof.
  intros Hv d. split_and!.
  - unfold d. rewrite decode_encode_Ufloat16 by done. by apply ufloat16_round_le.
  - unfold d. rewrite decode_encode_Ufloat16 by done. by apply ufloat16_round_le.
  - intros. unfold d. rewrite encodeUfloat16_small, decodeUfloat16_small by lia. done.
  - intros Hmax. unfold d. rewrite decode_encode_Ufloat16 by done. unfold ufloat16_round.
    destruct (Z.leb_spec uFloat16MaxValue v); [lia|].
    destruct (decide (v = 0)) as [->|Hnz]; [done|].
    pose proof (Z.log2_spec v ltac:(lia)) as [Hlog _].
    unfold ufloat16_exp. destruct (Z.max_spec 0 (Z.log2 v - 11)) as [[He ->]|[He ->]].
    + set (e := Z.log2 v - 11) in *. rewrite Z.shiftl_mul_pow2, Z.shiftr_div_pow2 by lia.
      assert (2 ^ e * 2 ^ 11 <= v) by (rewrite <- Z.pow_add_r by lia; by replace (e + 11) with (Z.log2 v) by lia).
      pose proof (Z.mod_pos_bound v (2 ^ e)). pose proof (Z.div_mod v (2 ^ e)). nia.
    + rewrite Z.shiftr_0_r, Z.shiftl_0_r. lia.
  - intros. unfold d. rewrite decode_encode_Ufloat16 by done. unfold ufloat16_round.
    by destruct (Z.leb_spec uFloat16MaxValue v); [|lia].
Qed.

Lemma ufloat16_precision_witness :
  0 <= 100000 /\ 0 <= decodeUfloat16 (encodeUfloat16 100000) <= 100000.
Proof. split; [lia|]. apply (ufloat16_precision 100000). lia. Defined.

(** Every 16-bit float is the encoding of the value it denotes: re-encoding a
    decoded delay gives back the same two bytes. *)
Theorem ufloat16_canonical w :
  0 <= w < 2 ^ 16 -> encodeUfloat16 (decodeUfloat16 w) = w.
Proof.
  intros Hw. destruct (decide (w < 2 ^ 12)).
  { rewrite decodeUfloat16_small, encodeUfloat16_small by lia. done. }
  set (e := w / 2 ^ 11 - 1). set (m := w - e * 2 ^ 11).
  assert (1 <= e <= 30 /\ 2 ^ 11 <= m < 2 ^ 12) as [He Hm].
  { unfold m, e. Z.div_mod_to_equations. lia. }
  replace w with (m + e * 2 ^ 11) by (unfold m; lia).
  rewrite decodeUfloat16_big by done. clearbody m e.
  assert (Z.log2 (m * 2 ^ e) = e + 11) as Hlog.
  { rewrite Z.log2_mul_pow2 by lia.
    assert (Z.log2 m = 11); [|lia]. apply Z.log2_unique'  with (m - 2 ^ 11); lia. }
  destruct (decide (uFloat16MaxValue <= m * 2 ^ e)) as [Hmax|Hmax].
  - rewrite encodeUfloat16_clamp by done. change uFloat16MaxValue with (4095 * 2 ^ 30) in Hmax.
    assert (e = 30) as ->; [|lia].
    assert (~ e <= 29); [|lia]. intros He29. assert (2 ^ e <= 2 ^ 29) by (apply Z.pow_le_mono_r; lia).
    assert (m * 2 ^ e <= 4095 * 2 ^ 29) by (apply Z.mul_le_mono_nonneg; lia). lia.
  - assert (2 ^ 1 <= 2 ^ e) by (apply Z.pow_le_mono_r; lia).
    rewrite encodeUfloat16_big by nia. rewrite Hlog.
    replace (e + 11 - 11) with e by lia.
    rewrite Z.shiftr_div_pow2, Z.div_mul by lia. done.
Qed.

Lemma ufloat16_canonical_witness :
  0 <= 40000 < 2 ^ 16 /\ encodeUfloat16 (decodeUfloat16 40000) = 40000.
Proof. split; [lia|]. apply (ufloat16_canonical 40000). lia. Defined.
