(* ===== verification/Protocol.v ===== *)
(** * Packet numbers and version numbers

    Models [internal/protocol/packet_number.go] and [internal/protocol/version.go]:
    truncated packet numbers and their recovery, the packet number lengths, version
    tags and version choice. *)

From stdpp Require Import base numbers list option strings.
From S2P Require Import Prelude.

Local Open Scope Z_scope.

(** ** Packet number lengths *)

(** [protocol/server_parameters.go] *)
Definition MaxPacketSize : Z := 1350.

Definition PacketNumberLen1 : Z := 1.
Definition PacketNumberLen2 : Z := 2.
Definition PacketNumberLen4 : Z := 4.
Definition PacketNumberLen6 : Z := 6.
Definition InitialPathID : Z := 0.

(** The lengths a packet number can have on the wire. *)
Definition valid_pn_len (l : Z) : Prop := l = 1 \/ l = 2 \/ l = 4 \/ l = 6.

Definition GetPacketNumberLengthForPublicHeader (packetNumber leastUnacked : Z) : Z :=
  let diff := u64 (packetNumber - leastUnacked) in
  if diff <? Z.shiftl 2 (u8 (PacketNumberLen2 * 8 - 2)) then PacketNumberLen2
  else if diff <? Z.shiftl 2 (u8 (PacketNumberLen4 * 8 - 2)) then PacketNumberLen4
  else PacketNumberLen6.

Definition GetPacketNumberLength (packetNumber : Z) : Z :=
  if packetNumber <? Z.shiftl 1 (PacketNumberLen1 * 8) then PacketNumberLen1
  else if packetNumber <? Z.shiftl 1 (PacketNumberLen2 * 8) then PacketNumberLen2
  else if packetNumber <? Z.shiftl 1 (PacketNumberLen4 * 8) then PacketNumberLen4
  else PacketNumberLen6.

(** ** Recovering a truncated packet number *)

Definition delta (a b : Z) : Z := if a <? b then u64 (b - a) else u64 (a - b).

Definition closestTo (target a b : Z) : Z :=
  if delta target a <? delta target b then a else b.

Definition InferPacketNumber (packetNumberLength lastPacketNumber wirePacketNumber : Z) : Z :=
  let epochDelta := u64 (Z.shiftl 1 (u8 (packetNumberLength * 8))) in
  let epoch := Z.land lastPacketNumber (u64 (Z.lnot (u64 (epochDelta - 1)))) in
  let prevEpochBegin := u64 (epoch - epochDelta) in
  let nextEpochBegin := u64 (epoch + epochDelta) in
  closestTo (u64 (lastPacketNumber + 1))
    (u64 (epoch + wirePacketNumber))
    (closestTo (u64 (lastPacketNumber + 1))
       (u64 (prevEpochBegin + wirePacketNumber)) (u64 (nextEpochBegin + wirePacketNumber))).

(** ** Versions *)

Definition VersionTLS : Z := 101.
Definition VersionUnsupported : Z := -1.

Definition SupportedVersions : list Z := [512; 39; 38; 37].

Definition VersionNumberToTag (vn : Z) : Z :=
  let v := u32 vn in
  u32 (81 + u32 (Z.shiftl ((v / 100) `mod` 10 + 48) 8)
          + u32 (Z.shiftl ((v / 10) `mod` 10 + 48) 16)
          + u32 (Z.shiftl (v `mod` 10 + 48) 24)).

Definition VersionTagToNumber (v : Z) : Z :=
  u32 (u32 (Z.land (Z.shiftr v 8) 255 - 48) * 100
       + u32 (Z.land (Z.shiftr v 16) 255 - 48) * 10
       + u32 (Z.land (Z.shiftr v 24) 255 - 48)).

Definition IsSupportedVersion (supported : list Z) (v : Z) : bool :=
  existsb (fun t => t =? v) supported.

Definition ChooseSupportedVersion (ours theirs : list Z) : Z :=
  match find (fun ourVer => existsb (fun theirVer => ourVer =? theirVer) theirs) ours with
  | Some v => v
  | None => VersionUnsupported
  end.

(** ** Lemmas *)

Lemma land_clear_low x k :
  0 <= x < 2 ^ 64 -> 0 <= k <= 64 ->
  Z.land x (u64 (Z.lnot (2 ^ k - 1))) = x - x `mod` 2 ^ k.
Proof.
  intros Hx Hk.
  assert (Z.land x (u64 (Z.lnot (2 ^ k - 1))) = Z.ldiff x (Z.ones k)) as ->.
  { rewrite Z.ones_equiv, <- Z.sub_1_r. unfold u64, wrap.
    rewrite <- Z.land_ones, (Z.land_comm (Z.lnot _)), Z.land_assoc by lia.
    rewrite (Z.land_ones x) by lia. rewrite Z.mod_small by lia.
    by rewrite Z.ldiff_land. }
  rewrite Z.ldiff_ones_r by lia. rewrite Z.shiftl_mul_pow2, Z.shiftr_div_pow2 by lia.
  pose proof (Z.div_mod x (2 ^ k)). lia.
Qed.

Lemma delta_abs a b : in_u 64 a -> in_u 64 b -> delta a b = Z.abs (a - b).
Proof.
  unfold in_u, delta. intros. destruct (Z.ltb_spec a b); rewrite u64_small; lia.
Qed.

Lemma closestTo_abs t a b :
  in_u 64 t -> in_u 64 a -> in_u 64 b ->
  closestTo t a b = if Z.abs (t - a) <? Z.abs (t - b) then a else b.
Proof. intros. unfold closestTo. by rewrite !delta_abs. Qed.

Lemma u64_sub_wrap x d :
  0 <= d <= 2 ^ 63 -> - d <= x < 2 ^ 63 -> u64 x = if 0 <=? x then x else x + 2 ^ 64.
Proof. intros. destruct (Z.leb_spec 0 x); word. Qed.

(** The arithmetic of the three candidates, for an epoch length [d]. *)
Lemma closest_candidate d last p :
  0 < d <= 2 ^ 48 -> 0 <= last < 2 ^ 62 -> 0 <= p < 2 ^ 62 ->
  2 * (p - (last + 1)) < d -> 2 * (last + 1 - p) < d ->
  closestTo (u64 (last + 1)) (u64 (last - last `mod` d + p `mod` d))
    (closestTo (u64 (last + 1))
       (u64 (u64 (last - last `mod` d - d) + p `mod` d))
       (u64 (u64 (last - last `mod` d + d) + p `mod` d))) = p.
Proof.
  intros Hd Hlast Hp Hhi Hlo.
  pose proof (Z.mod_pos_bound last d ltac:(lia)) as Hml.
  pose proof (Z.mod_pos_bound p d ltac:(lia)) as Hmp.
  pose proof (Z.mod_le last d ltac:(lia) ltac:(lia)) as Hle.
  pose proof (Z.div_mod last d ltac:(lia)) as El.
  pose proof (Z.div_mod p d ltac:(lia)) as Ep.
  assert (p / d - last / d = -1 \/ p / d - last / d = 0 \/ p / d - last / d = 1) as Hq by nia.
  assert (p - p `mod` d - (last - last `mod` d) = (p / d - last / d) * d) as Ee by lia.
  remember (last - last `mod` d) as epoch. remember (p `mod` d) as w.
  clear El Ep. revert Ee Hq. generalize (p / d - last / d) as q. intros q Ee Hq.
  rewrite (u64_small (last + 1)), (u64_small (epoch + w)), (u64_small (epoch + d)),
    (u64_small (epoch + d + w)) by lia.
  assert (u64 (u64 (epoch - d) + w) = if 0 <=? epoch - d + w then epoch - d + w
                                      else epoch - d + w + 2 ^ 64) as ->.
  { rewrite <- (u64_sub_wrap _ d) by lia. word. }
  destruct (Z.leb_spec 0 (epoch - d + w)).
  all: rewrite (closestTo_abs _ _ (epoch + d + w)) by (unfold in_u; lia).
  all: repeat match goal with |- context [if ?a <? ?b then _ else _] => destruct (Z.ltb_spec a b) end.
  all: rewrite closestTo_abs by (unfold in_u; lia).
  all: match goal with |- context [if ?a <? ?b then _ else _] => destruct (Z.ltb_spec a b) end; lia.
Qed.

Lemma InferPacketNumber_closest l last p :
  valid_pn_len l -> 0 <= last < 2 ^ 62 -> 0 <= p < 2 ^ 62 ->
  2 * (p - (last + 1)) < 2 ^ (8 * l) -> 2 * (last + 1 - p) < 2 ^ (8 * l) ->
  InferPacketNumber l last (p `mod` 2 ^ (8 * l)) = p.
Proof.
  intros Hl Hlast Hp Hhi Hlo. unfold InferPacketNumber.
  rewrite Z.shiftl_1_l, (u8_small (l * 8)) by (destruct Hl as [->|[->|[->| ->]]]; lia).
  rewrite (Z.mul_comm l 8).
  assert (1 <= 8 * l <= 48) as Hk by (destruct Hl as [->|[->|[->| ->]]]; lia).
  assert (0 < 2 ^ (8 * l) <= 2 ^ 48) as Hd.
  { split; [apply Z.pow_pos_nonneg; lia|apply Z.pow_le_mono_r; lia]. }
  rewrite (u64_small (2 ^ (8 * l))), (u64_small (2 ^ (8 * l) - 1)) by lia.
  rewrite land_clear_low by lia. by apply closest_candidate.
Qed.

Lemma header_len_diff pn lu :
  0 <= lu <= pn -> pn < 2 ^ 62 -> pn - lu < 2 ^ 47 ->
  let l := GetPacketNumberLengthForPublicHeader pn lu in
  valid_pn_len l /\ 2 <= l /\ 2 * (pn - lu) < 2 ^ (8 * l).
Proof.
  intros H1 H2 H3. unfold GetPacketNumberLengthForPublicHeader, PacketNumberLen2,
    PacketNumberLen4, PacketNumberLen6, valid_pn_len.
  rewrite u64_small by lia.
  change (Z.shiftl 2 (u8 (2 * 8 - 2))) with (2 ^ 15).
  change (Z.shiftl 2 (u8 (4 * 8 - 2))) with (2 ^ 31).
  repeat match goal with |- context [if ?a <? ?b then _ else _] => destruct (Z.ltb_spec a b) end;
    (split; [tauto|]); simpl; lia.
Qed.

Lemma GetPacketNumberLength_fits pn :
  0 <= pn < 2 ^ 48 ->
  valid_pn_len (GetPacketNumberLength pn) /\ pn < 2 ^ (8 * GetPacketNumberLength pn).
Proof.
  intros Hpn. unfold GetPacketNumberLength, valid_pn_len,
    PacketNumberLen1, PacketNumberLen2, PacketNumberLen4, PacketNumberLen6.
  rewrite !Z.shiftl_1_l.
  repeat match goal with |- context [if ?a <? ?b then _ else _] => destruct (Z.ltb_spec a b) end;
    (split; [tauto|simpl in *; lia]).
Qed.

Lemma version_tag_range vn : 0 <= VersionNumberToTag vn < 2 ^ 32.
Proof. apply wrap_range. lia. Qed.

(** Version tags and version numbers are inverse to each other on three-digit
    versions, so all supported versions survive the wire. *)
Lemma version_tag_roundtrip vn :
  0 <= vn < 1000 -> VersionTagToNumber (VersionNumberToTag vn) = vn.
Proof.
  intros Hvn. unfold VersionTagToNumber, VersionNumberToTag.
  rewrite (u32_small vn) by lia. rewrite !Z.shiftl_mul_pow2, !Z.shiftr_div_pow2 by lia.
  change 255 with (Z.ones 8). rewrite !Z.land_ones by lia.
  set (a := (vn / 100) `mod` 10 + 48). set (b := (vn / 10) `mod` 10 + 48). set (c := vn `mod` 10 + 48).
  assert (48 <= a < 58 /\ 48 <= b < 58 /\ 48 <= c < 58 /\ (a - 48) * 100 + (b - 48) * 10 + (c - 48) = vn)
    as (Ha & Hb & Hc & E) by (unfold a, b, c; Z.div_mod_to_equations; lia).
  clearbody a b c.
  rewrite (u32_small (a * 2 ^ 8)), (u32_small (b * 2 ^ 16)), (u32_small (c * 2 ^ 24)) by lia.
  rewrite (u32_small (81 + _ + _ + _)) by lia.
  assert (((81 + a * 2 ^ 8 + b * 2 ^ 16 + c * 2 ^ 24) / 2 ^ 8) `mod` 2 ^ 8 = a) as ->
    by (Z.div_mod_to_equations; lia).
  assert (((81 + a * 2 ^ 8 + b * 2 ^ 16 + c * 2 ^ 24) / 2 ^ 16) `mod` 2 ^ 8 = b) as ->
    by (Z.div_mod_to_equations; lia).
  assert (((81 + a * 2 ^ 8 + b * 2 ^ 16 + c * 2 ^ 24) / 2 ^ 24) `mod` 2 ^ 8 = c) as ->
    by (Z.div_mod_to_equations; lia).
  rewrite (u32_small (a - 48)), (u32_small (b - 48)), (u32_small (c - 48)) by lia.
  rewrite u32_small; lia.
Qed.

Lemma InferPacketNumber_header pn leastUnacked last :
  0 <= leastUnacked <= pn -> pn < 2 ^ 62 -> pn - leastUnacked < 2 ^ 47 ->
  0 <= last < 2 ^ 62 -> leastUnacked <= last + 1 ->
  let l := GetPacketNumberLengthForPublicHeader pn leastUnacked in
  2 * (last + 1 - pn) < 2 ^ (8 * l) ->
  InferPacketNumber l last (pn `mod` 2 ^ (8 * l)) = pn.
Proof.
  intros Hlu Hpn Hdiff Hlast Hseen l Hahead.
  destruct (header_len_diff pn leastUnacked) as (Hv & Hl & Hd); [lia..|].
  apply InferPacketNumber_closest; try done; try lia. fold l in Hd. lia.
Qed.

(** ** Properties *)

(** A packet number truncated to its low [l] bytes is recovered by the receiver
    whenever it lies within half an epoch of the next expected number; with the length
    the sender picks for the public header this holds as soon as the receiver has seen
    everything below [leastUnacked] and is less than half an epoch ahead. *)
Theorem packet_number_recovered pn leastUnacked last :
  0 <= leastUnacked <= pn -> pn < 2 ^ 62 -> pn - leastUnacked < 2 ^ 47 ->
  0 <= last < 2 ^ 62 -> leastUnacked <= last + 1 ->
  let l := GetPacketNumberLengthForPublicHeader pn leastUnacked in
  2 * (last + 1 - pn) < 2 ^ (8 * l) ->
  InferPacketNumber l last (pn `mod` 2 ^ (8 * l)) = pn.
Proof.
  apply InferPacketNumber_header.
Qed.

Lemma packet_number_recovered_witness :
  InferPacketNumber (GetPacketNumberLengthForPublicHeader 70000 60000) 69990
    (70000 `mod` 2 ^ (8 * GetPacketNumberLengthForPublicHeader 70000 60000)) = 70000.
Proof. apply (packet_number_recovered 70000 60000 69990); vm_compute; intuition congruence. Defined.

(** [GetPacketNumberLength] returns the shortest of the four wire lengths that
    can hold the packet number. *)
Theorem packet_number_length_minimal pn :
  0 <= pn < 2 ^ 48 ->
  let l := GetPacketNumberLength pn in
  valid_pn_len l /\ pn < 2 ^ (8 * l) /\
  (forall l', valid_pn_len l' -> pn < 2 ^ (8 * l') -> l <= l').
Proof.
  intros Hpn l. destruct (GetPacketNumberLength_fits pn Hpn) as [Hv Hl].
  split_and!; [done|done|]. unfold l, GetPacketNumberLength,
    PacketNumberLen1, PacketNumberLen2, PacketNumberLen4, PacketNumberLen6.
  rewrite !Z.shiftl_1_l.
  repeat match goal with |- context [if ?a <? ?b then _ else _] => destruct (Z.ltb_spec a b) end;
    intros l' [->|[->|[->| ->]]]; simpl in *; lia.
Qed.

Lemma packet_number_length_minimal_witness :
  0 <= 65536 < 2 ^ 48 /\ 65536 < 2 ^ (8 * GetPacketNumberLength 65536).
Proof. split; [lia|]. apply (packet_number_length_minimal 65536). lia. Defined.

(** [ChooseSupportedVersion] picks our most preferred version among those the peer
    offers, and [VersionUnsupported] only when there is no common version. *)
Theorem choose_supported_version ours theirs :
  let r := ChooseSupportedVersion ours theirs in
  (exists pre post, ours = pre ++ r :: post /\ r ∈ theirs /\ (forall u, u ∈ pre -> u ∉ theirs)) \/
  ((forall u, u ∈ ours -> u ∉ theirs) /\ r = VersionUnsupported).
Proof.
  induction ours as [|o ours IH]; [right; split; [intros ? []%not_elem_of_nil|done]|].
  unfold ChooseSupportedVersion in *. simpl.
  destruct (existsb (fun theirVer => o =? theirVer) theirs) eqn:E.
  - left. exists [], ours. apply existsb_exists in E as (x & Hx & ->%Z.eqb_eq).
    split_and!; [done|by apply list_elem_of_In|intros ? []%not_elem_of_nil].
  - assert (o ∉ theirs) as Hno.
    { intros Hin%list_elem_of_In. assert (existsb (fun t => o =? t) theirs = true); [|congruence].
      apply existsb_exists. exists o. split; [done|apply Z.eqb_refl]. }
    destruct IH as [(pre & post & Eq & Hv & Hpre)|[Hnone Hr]].
    + left. exists (o :: pre), post. rewrite Eq at 1. split_and!; [done|done|].
      intros u [->|Hu]%elem_of_cons; auto.
    + right. split; [|done]. intros u [->|Hu]%elem_of_cons; auto.
Qed.
