(* ===== verification/AckRanges.v ===== *)
(** * ACK ranges

    The part of [internal/wire/ack_frame.go] that [internal/wire/close_path_frame.go]
    repeats word for word: the list of acknowledged ranges, its validation, the
    number and size of the ACK blocks it is written as, and the loops that write and
    parse these blocks.  A frame carries [LargestAcked], [LowestAcked] and the ranges,
    highest range first; an empty list of ranges means that nothing is missing. *)

From stdpp Require Import base numbers list option strings.
From S2P Require Import Prelude ByteOrder Protocol.

Local Open Scope Z_scope.

Record AckRange : Type := MkAckRange { First : Z; Last : Z }.

#[export] Instance AckRange_eq_dec : EqDecision AckRange.
Proof. solve_decision. Defined.

(** The fields both frame types have. *)
Record Acked : Type := MkAcked {
  LargestAcked : Z;
  LowestAcked : Z;
  AckRanges : list AckRange;
}.

(** Errors of the wire package. *)
Definition ErrInvalidAckRanges : goerr :=
  GoErr "AckFrame: ACK frame contains invalid ACK ranges".
Definition ErrInvalidFirstAckRange : goerr :=
  GoErr "AckFrame: ACK frame has invalid first ACK range".
Definition errInconsistentAckLargestAcked : goerr :=
  GoErr "internal inconsistency: LargestAcked does not match ACK ranges".
Definition errInconsistentAckLowestAcked : goerr :=
  GoErr "internal inconsistency: LowestAcked does not match ACK ranges".

(** ** Queries *)

Definition HasMissingRanges (a : Acked) : bool :=
  match AckRanges a with [] => false | _ => true end.

(** [validateAckRanges]: the loop over neighbouring ranges. *)
Fixpoint ranges_descend (prev : AckRange) (rs : list AckRange) : bool :=
  match rs with
  | [] => true
  | r :: rs' =>
      negb (First prev <=? First r) && negb (First prev <=? u64 (Last r + 1))
      && ranges_descend r rs'
  end.

Definition validateAckRanges (a : Acked) : bool :=
  match AckRanges a with
  | [] => true
  | [_] => false
  | r0 :: rs =>
      (Last r0 =? LargestAcked a)
      && forallb (fun r => negb (Last r <? First r)) (AckRanges a)
      && ranges_descend r0 rs
  end.

(** Blocks needed for a range after a gap: one, and one more per 255 missing packets. *)
Definition rangeLength (gap : Z) : Z :=
  if gap `mod` 255 =? 0 then u64 (1 + gap / 255 - 1) else 1 + gap / 255.

Definition gap_between (prev r : AckRange) : Z := u64 (u64 (First prev - Last r) - 1).
Definition range_size (r : AckRange) : Z := u64 (u64 (Last r - First r) + 1).

Fixpoint numWritable_loop (numRanges : Z) (prev : AckRange) (rs : list AckRange) : Z :=
  match rs with
  | [] => numRanges
  | r :: rs' =>
      let n := u64 (numRanges + rangeLength (gap_between prev r)) in
      if n <? 255 then numWritable_loop n r rs' else numRanges
  end.

Definition numWritableNackRanges (a : Acked) : Z :=
  match AckRanges a with
  | [] => 0
  | r0 :: rs => u64 (numWritable_loop 0 r0 rs + 1)
  end.

Definition getMissingSequenceNumberDeltaLen (a : Acked) : Z :=
  let maxRangeLength :=
    if HasMissingRanges a
    then fold_left (fun m r => if m <? range_size r then range_size r else m) (AckRanges a) 0
    else u64 (u64 (LargestAcked a - LowestAcked a) + 1) in
  if maxRangeLength <=? 255 then PacketNumberLen1
  else if maxRangeLength <=? 65535 then PacketNumberLen2
  else if maxRangeLength <=? 4294967295 then PacketNumberLen4
  else PacketNumberLen6.

Definition AcksPacket (a : Acked) (p : Z) : bool :=
  if (p <? LowestAcked a) || (LargestAcked a <? p) then false
  else if HasMissingRanges a
  then existsb (fun r => (First r <=? p) && (p <=? Last r)) (AckRanges a)
  else (LowestAcked a <=? p) && (p <=? LargestAcked a).

(** ** Writing *)

Section Write.
Context (bo : ByteOrder).
(** How a 6-byte number is passed to [WriteUint48]: the ACK frame masks it. *)
Context (mask48 : Z -> Z).

(** The [switch] on a packet number length, which has no default case. *)
Definition writePacketNumber (len v : Z) : writer :=
  if len =? PacketNumberLen1 then WriteByte (u8 v)
  else if len =? PacketNumberLen2 then WriteUint16 bo (u16 v)
  else if len =? PacketNumberLen4 then WriteUint32 bo (u32 v)
  else if len =? PacketNumberLen6 then WriteUint48 bo (mask48 v)
  else wret.

(** The blocks of a long gap: [k] iterations are left, [i] is the loop counter. *)
Fixpoint write_long (k : nat) (i num deltaLen length gap : Z) : writer :=
  match k with
  | O => wret
  | S k' =>
      let '(lengthWritten, gapWritten) :=
        if i =? num - 1 then (length, u8 (1 + (u64 (gap - 1)) `mod` 255)) else (0, 255) in
      WriteByte gapWritten >;> writePacketNumber deltaLen lengthWritten
      >;> write_long k' (i + 1) num deltaLen length gap
  end.

(** One range: what is written and by how much [numRangesWritten] grows. *)
Definition write_range (deltaLen : Z) (prev r : AckRange) : writer * Z :=
  let length := range_size r in
  let gap := gap_between prev r in
  let num := if gap `mod` 255 =? 0 then u64 (gap / 255 + 1 - 1) else gap / 255 + 1 in
  if num =? 1
  then (WriteByte (u8 gap) >;> writePacketNumber deltaLen length, 1)
  else (write_long (Z.to_nat num) 0 num deltaLen length gap, num).

Fixpoint write_ranges (deltaLen numRanges written : Z) (prev : AckRange) (rs : list AckRange)
  : writer * Z :=
  match rs with
  | [] => (wret, written)
  | r :: rs' =>
      let '(w, n) := write_range deltaLen prev r in
      let written' := u64 (written + n) in
      if numRanges <=? written' then (w, written')
      else let '(w', total) := write_ranges deltaLen numRanges written' r rs' in
           (w >;> w', total)
  end.

(** From the consistency checks to the last block; [inconsistent] is the error for a
    wrong number of blocks. *)
Definition write_acked (inconsistent : goerr) (a : Acked) (deltaLen numRanges : Z) : writer :=
  match AckRanges a with
  | [] => writePacketNumber deltaLen (u64 (u64 (LargestAcked a - LowestAcked a) + 1))
  | r0 :: rs =>
      if negb (LargestAcked a =? Last r0) then wfail errInconsistentAckLargestAcked else
      if negb (LowestAcked a =? First (default r0 (last rs)))
      then wfail errInconsistentAckLowestAcked else
      let '(w, numRangesWritten) := write_ranges deltaLen numRanges 1 r0 rs in
      writePacketNumber deltaLen (u64 (u64 (LargestAcked a - First r0) + 1))
      >;> w
      >;> (if negb (numRanges =? numRangesWritten) then wfail inconsistent else wret)
  end.
End Write.

(** ** Parsing *)

(** The state of the block loop: [pre ++ [cur]] is [frame.AckRanges]. *)
Record BlockState : Type := MkBlockState {
  bs_pre : list AckRange;
  bs_cur : AckRange;
  bs_inLong : bool;
  bs_complete : bool;
}.

(** One iteration, after the gap and the block length have been read. *)
Definition block_step (st : BlockState) (gap ackBlockLength : Z) : BlockState :=
  let st' :=
    if bs_inLong st
    then MkBlockState (bs_pre st)
           (MkAckRange (u64 (First (bs_cur st) - u64 (gap + ackBlockLength)))
                       (u64 (Last (bs_cur st) - gap)))
           (bs_inLong st) (bs_complete st)
    else
      let l := u64 (u64 (First (bs_cur st) - gap) - 1) in
      MkBlockState (bs_pre st ++ [bs_cur st])
        (MkAckRange (u64 (u64 (l - ackBlockLength) + 1)) l) (bs_inLong st) false in
  MkBlockState (bs_pre st') (bs_cur st') (ackBlockLength =? 0)
    (if 0 <? ackBlockLength then true else bs_complete st').

Fixpoint parse_blocks (bo : ByteOrder) (k : nat) (deltaLen : Z) (st : BlockState) : reader BlockState :=
  match k with
  | O => mret st
  | S k' =>
      gap ← ReadByte;
      ackBlockLength ← ReadUintN bo deltaLen;
      parse_blocks bo k' deltaLen (block_step st gap ackBlockLength)
  end.

(** The ranges of a frame with missing packets, after its first block has been read. *)
Definition parse_ranges (bo : ByteOrder) (numAckBlocks deltaLen largestAcked ackBlockLength : Z)
  : reader (list AckRange * Z) :=
  let first := MkAckRange (u64 (u64 (largestAcked - ackBlockLength) + 1)) largestAcked in
  st ← parse_blocks bo (Z.to_nat numAckBlocks) deltaLen (MkBlockState [] first false false);
  let ranges := if bs_complete st then bs_pre st ++ [bs_cur st] else bs_pre st in
  match last ranges with
  | Some r => mret (ranges, First r)
  | None => crash
  end.

(** The length in the two bits of a type or flags byte: [2 * bits], or 1 for zero. *)
Definition len_of_bits (bits : Z) : Z :=
  let l := u8 (2 * bits) in if l =? 0 then 1 else l.

(** From the first block to the validation. *)
Definition parse_acked (bo : ByteOrder) (hasMissingRanges : bool)
    (numAckBlocks deltaLen largestAcked : Z) : reader Acked :=
  ackBlockLength ← ReadUintN bo deltaLen;
  if (0 <? largestAcked) && (ackBlockLength <? 1) then throw ErrInvalidFirstAckRange else
  if largestAcked <? ackBlockLength then throw ErrInvalidAckRanges else
  '(ranges, lowest) ←
    (if hasMissingRanges
     then parse_ranges bo numAckBlocks deltaLen largestAcked ackBlockLength
     else mret ([], if largestAcked =? 0 then 0 else u64 (u64 (largestAcked + 1) - ackBlockLength)));
  let a := MkAcked largestAcked lowest ranges in
  if negb (validateAckRanges a) then throw ErrInvalidAckRanges else mret a.

(** ** Well-formed ranges *)

(** [rs] continues below [prev]: every range is non-empty, starts at packet 1 at the
    earliest, and leaves a gap of at least one packet to the previous one. *)
Fixpoint descending (prev : AckRange) (rs : list AckRange) : Prop :=
  match rs with
  | [] => True
  | r :: rs' => 1 <= First r <= Last r /\ Last r + 1 < First prev /\ descending r rs'
  end.

Definition last_range (r0 : AckRange) (rs : list AckRange) : AckRange := default r0 (last rs).

Definition acked_wf (a : Acked) : Prop :=
  1 <= LowestAcked a <= LargestAcked a /\ LargestAcked a < 2 ^ 48 /\
  match AckRanges a with
  | [] => True
  | r0 :: rs =>
      rs <> [] /\ Last r0 = LargestAcked a /\ 1 <= First r0 <= Last r0 /\
      descending r0 rs /\ LowestAcked a = First (last_range r0 rs)
  end.

Lemma gap_between_wf prev r :
  1 <= First r <= Last r -> Last r + 1 < First prev -> First prev < 2 ^ 48 ->
  gap_between prev r = First prev - Last r - 1.
Proof. intros. unfold gap_between. rewrite (u64_small (First prev - Last r)) by lia.
  rewrite u64_small; lia. Qed.

Lemma range_size_wf r :
  1 <= First r <= Last r -> Last r < 2 ^ 48 -> range_size r = Last r - First r + 1.
Proof. intros. unfold range_size. rewrite (u64_small (Last r - First r)) by lia.
  rewrite u64_small; lia. Qed.

Lemma rangeLength_ceil gap : 1 <= gap < 2 ^ 48 -> rangeLength gap = (gap + 254) / 255.
Proof.
  intros. unfold rangeLength. destruct (Z.eqb_spec (gap `mod` 255) 0); [rewrite u64_small|];
    Z.div_mod_to_equations; lia.
Qed.

Lemma rangeLength_bounds gap :
  1 <= gap < 2 ^ 48 -> 1 <= rangeLength gap /\ 255 * (rangeLength gap - 1) < gap <= 255 * rangeLength gap.
Proof. intros. rewrite rangeLength_ceil by done. Z.div_mod_to_equations. lia. Qed.

(** ** The blocks of a list of ranges *)

(** A range after a gap is written as [(255, 0)] blocks and a last block that carries
    the rest of the gap and the size of the range. *)
Definition blocks_of (gap len : Z) : list (Z * Z) :=
  repeat (255, 0) (Z.to_nat (rangeLength gap - 1)) ++ [(1 + (gap - 1) `mod` 255, len)].

Definition range_blocks (prev r : AckRange) : list (Z * Z) :=
  blocks_of (First prev - Last r - 1) (Last r - First r + 1).

Fixpoint ranges_blocks (prev : AckRange) (rs : list AckRange) : list (Z * Z) :=
  match rs with
  | [] => []
  | r :: rs' => range_blocks prev r ++ ranges_blocks r rs'
  end.

Lemma length_blocks_of gap len :
  1 <= gap < 2 ^ 48 -> Z.of_nat (length (blocks_of gap len)) = rangeLength gap.
Proof.
  intros H. destruct (rangeLength_bounds gap H). unfold blocks_of.
  rewrite length_app, repeat_length. simpl. lia.
Qed.

(** The prefix of the ranges that fits into 255 blocks when [n] are already used. *)
Fixpoint writable (n : Z) (prev : AckRange) (rs : list AckRange) : list AckRange :=
  match rs with
  | [] => []
  | r :: rs' =>
      let n' := n + rangeLength (First prev - Last r - 1) in
      if n' <? 255 then r :: writable n' r rs' else []
  end.

Lemma descending_first prev rs : descending prev rs -> forall r, r ∈ rs -> First r < First prev.
Proof.
  revert prev. induction rs as [|r rs IH]; intros prev; [by intros _ ? ?%not_elem_of_nil|].
  intros (H1 & H2 & H3) x [->|Hx]%elem_of_cons; [lia|].
  pose proof (IH _ H3 _ Hx). lia.
Qed.

Lemma writable_prefix n prev rs : writable n prev rs `prefix_of` rs.
Proof.
  revert n prev. induction rs as [|r rs IH]; intros n prev; simpl; [done|].
  case_match; [by apply prefix_cons|apply prefix_nil].
Qed.

Lemma descending_app prev rs rs' : descending prev (rs ++ rs') -> descending prev rs.
Proof.
  revert prev. induction rs as [|r rs IH]; intros prev; simpl; [done|].
  intros (? & ? & ?); eauto.
Qed.

Lemma writable_descending n prev rs : descending prev rs -> descending prev (writable n prev rs).
Proof. intros H. destruct (writable_prefix n prev rs) as [k E]. rewrite E in H. by eapply descending_app. Qed.

Lemma numWritable_loop_spec rs : forall n prev,
  0 <= n < 255 -> descending prev rs -> First prev < 2 ^ 48 ->
  numWritable_loop n prev rs = n + Z.of_nat (length (ranges_blocks prev (writable n prev rs)))
  /\ numWritable_loop n prev rs < 255.
Proof.
  induction rs as [|r rs IH]; intros n prev Hn Hd Hp; simpl; [lia|].
  destruct Hd as (Hr & Hg & Hd).
  rewrite gap_between_wf by done.
  destruct (rangeLength_bounds (First prev - Last r - 1)) as [? ?]; [lia|].
  rewrite u64_small by lia.
  case_match eqn:E; [|simpl; lia]. apply Z.ltb_lt in E.
  destruct (IH (n + rangeLength (First prev - Last r - 1)) r) as [IH1 IH2]; [lia|done|lia|].
  simpl. rewrite length_app, Nat2Z.inj_add. unfold range_blocks.
  rewrite length_blocks_of by lia. lia.
Qed.

(** ** What the writer produces *)

Definition enc_block (bo : ByteOrder) `{!ByteOrderOk bo} (deltaLen : Z) (b : Z * Z) : list Z :=
  u8 b.1 :: enc (Z.to_nat deltaLen) b.2.

Section WriteSpec.
Context (bo : ByteOrder) `{!ByteOrderOk bo}.
Context (mask48 : Z -> Z).
Hypothesis mask48_id : forall v, 0 <= v < 2 ^ 48 -> mask48 v = v.
Context (deltaLen : Z).
Hypothesis deltaLen_ok : valid_pn_len deltaLen.

Lemma writePacketNumber_spec v :
  0 <= v < 2 ^ (8 * deltaLen) ->
  writePacketNumber bo mask48 deltaLen v = wbytes (enc (Z.to_nat deltaLen) v).
Proof.
  intros Hv. unfold writePacketNumber, PacketNumberLen1, PacketNumberLen2, PacketNumberLen4,
    PacketNumberLen6.
  destruct deltaLen_ok as [-> | [-> | [-> | ->]]]; simpl in Hv |- *.
  - unfold WriteByte. rewrite enc_one. unfold u8. by rewrite wrap_wrap by lia.
  - rewrite write16, u16_small by lia. done.
  - rewrite write32, u32_small by lia. done.
  - rewrite mask48_id, write48 by lia. by destruct (Z.leb_spec (2 ^ 48) v); [lia|].
Qed.

Lemma deltaLen_zero : 0 <= 0 < 2 ^ (8 * deltaLen).
Proof. split; [done|]. apply Z.pow_pos_nonneg; destruct deltaLen_ok as [-> | [-> | [-> | ->]]]; lia. Qed.

Lemma write_long_spec len gap num k : forall i,
  (0 < k)%nat -> i + Z.of_nat k = num -> 1 <= gap < 2 ^ 48 -> 0 <= len < 2 ^ (8 * deltaLen) ->
  write_long bo mask48 k i num deltaLen len gap
  = wbytes (mjoin (enc_block bo deltaLen <$>
      (repeat (255, 0) (k - 1) ++ [(1 + (gap - 1) `mod` 255, len)]))).
Proof.
  induction k as [|k IH]; intros i Hk Hi Hg Hl; [lia|].
  cbn [write_long]. destruct (decide (k = 0%nat)) as [->|Hk0].
  - rewrite (proj2 (Z.eqb_eq _ _)) by lia. rewrite u64_small by lia.
    rewrite u8_small by (Z.div_mod_to_equations; lia).
    rewrite writePacketNumber_spec by done. unfold WriteByte. cbn. by rewrite !app_nil_r.
  - rewrite (proj2 (Z.eqb_neq _ _)) by lia.
    rewrite writePacketNumber_spec by apply deltaLen_zero.
    rewrite IH by (try done; lia).
    replace (S k - 1)%nat with (S (k - 1)) by lia. done.
Qed.

Lemma write_range_spec prev r :
  1 <= First r <= Last r -> Last r + 1 < First prev -> First prev < 2 ^ 48 ->
  Last r - First r + 1 < 2 ^ (8 * deltaLen) ->
  write_range bo mask48 deltaLen prev r
  = (wbytes (mjoin (enc_block bo deltaLen <$> range_blocks prev r)),
     rangeLength (First prev - Last r - 1)).
Proof.
  intros Hr Hg Hp Hl. unfold write_range, range_blocks, blocks_of.
  rewrite gap_between_wf, range_size_wf by lia.
  set (gap := First prev - Last r - 1). set (len := Last r - First r + 1) in *.
  destruct (rangeLength_bounds gap) as [Hb1 Hb2]; [lia|].
  assert ((if gap `mod` 255 =? 0 then u64 (gap / 255 + 1 - 1) else gap / 255 + 1)
          = rangeLength gap) as ->.
  { unfold rangeLength. rewrite (Z.add_comm 1). done. }
  destruct (Z.eqb_spec (rangeLength gap) 1) as [E|E].
  - rewrite E. rewrite writePacketNumber_spec by lia.
    rewrite (Z.mod_small (gap - 1)) by lia. unfold WriteByte.
    rewrite (u8_small gap) by lia. rewrite wseq_wbytes_wbytes.
    replace (1 + (gap - 1)) with gap by lia. simpl. by rewrite app_nil_r.
  - rewrite write_long_spec by lia.
    by replace (Z.to_nat (rangeLength gap) - 1)%nat with (Z.to_nat (rangeLength gap - 1)) by lia.
Qed.

Lemma write_ranges_spec rs : forall n prev,
  0 <= n < 255 -> descending prev rs -> First prev < 2 ^ 48 ->
  (forall r, r ∈ rs -> Last r - First r + 1 < 2 ^ (8 * deltaLen)) ->
  writable n prev rs <> [] ->
  let N := numWritable_loop n prev rs + 1 in
  write_ranges bo mask48 deltaLen N (1 + n) prev rs
  = (wbytes (mjoin (enc_block bo deltaLen <$> ranges_blocks prev (writable n prev rs))), N).
Proof.
  induction rs as [|r rs IH]; intros n prev Hn Hd Hp Hsz Hne; [done|]. simpl in Hne |- *.
  destruct Hd as (Hr & Hg & Hd).
  rewrite gap_between_wf by done.
  rewrite write_range_spec by (try done; apply Hsz; left).
  set (gap := First prev - Last r - 1) in *.
  destruct (rangeLength_bounds gap) as [? ?]; [lia|].
  set (n' := n + rangeLength gap) in *.
  rewrite (u64_small n') by lia. rewrite (u64_small (1 + n + rangeLength gap)) by lia.
  destruct (Z.ltb_spec n' 255) as [Hlt|]; [|done]. cbn [ranges_blocks].
  destruct (numWritable_loop_spec rs n' r) as [E1 E2]; [lia|done|lia|].
  destruct (decide (writable n' r rs = [])) as [Enil|Ene].
  - rewrite Enil in E1 |- *. simpl in E1 |- *. rewrite E1.
    rewrite (proj2 (Z.leb_le _ _)) by lia. rewrite app_nil_r. f_equal. lia.
  - assert (0 < length (ranges_blocks r (writable n' r rs)))%nat.
    { destruct (writable n' r rs) as [|x xs] eqn:Ew; [done|]. simpl. unfold range_blocks, blocks_of.
      rewrite !length_app. simpl. lia. }
    rewrite (proj2 (Z.leb_gt _ _)) by lia.
    replace (1 + n + rangeLength gap) with (1 + n') by lia.
    rewrite IH by (try done; try lia; intros; apply Hsz; by right).
    rewrite wseq_wbytes_wbytes, fmap_app, join_app. done.
Qed.
End WriteSpec.

(** ** What the parser recovers *)

Definition run_blocks (st : BlockState) (bs : list (Z * Z)) : BlockState :=
  fold_left (fun st b => block_step st b.1 b.2) bs st.

Definition block_ok (deltaLen : Z) (b : Z * Z) : Prop :=
  0 <= b.1 < 256 /\ 0 <= b.2 < 2 ^ (8 * deltaLen).

Lemma pn_len_nat l : valid_pn_len l -> Z.of_nat (Z.to_nat l) = l /\ (Z.to_nat l <= 8)%nat.
Proof. intros [-> | [-> | [-> | ->]]]; split; lia. Qed.

Section ParseSpec.
Context (bo : ByteOrder) `{!ByteOrderOk bo}.
Context (deltaLen : Z).
Hypothesis deltaLen_ok : valid_pn_len deltaLen.

Lemma read_packet_number v r :
  0 <= v < 2 ^ (8 * deltaLen) ->
  ReadUintN bo deltaLen (enc (Z.to_nat deltaLen) v ++ r) = Ok (v, r).
Proof.
  intros Hv. destruct (pn_len_nat deltaLen deltaLen_ok) as [E Hle].
  rewrite <- E at 1. apply readN_enc; [done|]. by rewrite E.
Qed.

Lemma parse_blocks_enc bs r : forall st,
  Forall (block_ok deltaLen) bs ->
  parse_blocks bo (length bs) deltaLen st (mjoin (enc_block bo deltaLen <$> bs) ++ r)
  = Ok (run_blocks st bs, r).
Proof.
  induction bs as [|[g l] bs IH]; intros st Hbs; [done|].
  apply Forall_cons in Hbs as [[Hg Hl] Hbs]. simpl in Hg, Hl.
  cbn [length parse_blocks]. simpl. rewrite <- app_assoc.
  erewrite reader_bind_ok by done.
  erewrite reader_bind_ok by (by apply read_packet_number).
  rewrite u8_small by lia. by apply IH.
Qed.
End ParseSpec.

Lemma run_blocks_nil st : run_blocks st [] = st.
Proof. done. Qed.

Lemma run_blocks_cons st g n bs :
  run_blocks st ((g, n) :: bs) = run_blocks (block_step st g n) bs.
Proof. done. Qed.

Lemma run_blocks_app st a b : run_blocks st (a ++ b) = run_blocks (run_blocks st a) b.
Proof. apply fold_left_app. Qed.

(** The two branches of an iteration when nothing wraps around. *)
Lemma block_step_inLong pre f l c g n :
  0 <= g <= l -> 0 <= n -> g + n <= f -> f < 2 ^ 63 -> l < 2 ^ 63 ->
  block_step (MkBlockState pre (MkAckRange f l) true c) g n
  = MkBlockState pre (MkAckRange (f - g - n) (l - g)) (n =? 0) (if 0 <? n then true else c).
Proof.
  intros. unfold block_step, bs_inLong, bs_pre, bs_cur, bs_complete, First, Last.
  rewrite (u64_small (g + n)), (u64_small (f - _)), (u64_small (l - g)) by lia.
  do 2 f_equal. lia.
Qed.

Lemma block_step_new pre cur c g n :
  0 <= g -> 0 <= n -> g + n + 1 <= First cur -> First cur < 2 ^ 63 ->
  block_step (MkBlockState pre cur false c) g n
  = MkBlockState (pre ++ [cur]) (MkAckRange (First cur - g - n) (First cur - g - 1)) (n =? 0) (0 <? n).
Proof.
  intros. unfold block_step, bs_inLong, bs_pre, bs_cur, bs_complete.
  rewrite (u64_small (First cur - g)), (u64_small (First cur - g - 1)),
    (u64_small (First cur - g - 1 - n)), u64_small by lia.
  f_equal; [f_equal; lia|by destruct (0 <? n)].
Qed.

(** Long-gap blocks only move the range under construction down. *)
Lemma run_blocks_long k pre : forall f c,
  255 * Z.of_nat k < f -> f < 2 ^ 48 ->
  run_blocks (MkBlockState pre (MkAckRange f (f - 1)) true c) (repeat (255, 0) k)
  = MkBlockState pre (MkAckRange (f - 255 * Z.of_nat k) (f - 255 * Z.of_nat k - 1)) true c.
Proof.
  induction k as [|k IH]; intros f c Hk Hf.
  - simpl. by rewrite !Z.sub_0_r.
  - cbn [repeat]. rewrite run_blocks_cons, block_step_inLong by lia.
    replace (f - 255 - 0) with (f - 255) by lia. replace (f - 1 - 255) with (f - 255 - 1) by lia.
    rewrite IH by lia. do 2 f_equal; lia.
Qed.

Lemma run_blocks_range pre prev r c :
  1 <= First r <= Last r -> Last r + 1 < First prev -> First prev < 2 ^ 48 ->
  run_blocks (MkBlockState pre prev false c) (range_blocks prev r)
  = MkBlockState (pre ++ [prev]) r false true.
Proof.
  intros Hr Hg Hp. unfold range_blocks, blocks_of. destruct r as [f l]. simpl in *.
  set (gap := First prev - l - 1). destruct (rangeLength_bounds gap) as [Hb1 Hb2]; [lia|].
  assert (255 * (rangeLength gap - 1) + (1 + (gap - 1) `mod` 255) = gap) as Elast.
  { rewrite rangeLength_ceil by lia. Z.div_mod_to_equations. lia. }
  set (k := Z.to_nat (rangeLength gap - 1)).
  replace (rangeLength gap - 1) with (Z.of_nat k) in Elast by lia.
  set (g := 1 + (gap - 1) `mod` 255) in *.
  assert (1 <= g <= 255) by (unfold g; Z.div_mod_to_equations; lia).
  assert (First prev = l + 1 + 255 * Z.of_nat k + g) as Ep by lia. clearbody g k.
  rewrite run_blocks_app. destruct k as [|k].
  - cbn [repeat]. rewrite run_blocks_nil, run_blocks_cons, block_step_new by lia.
    rewrite (proj2 (Z.eqb_neq _ _)), (proj2 (Z.ltb_lt _ _)) by lia. simpl. do 2 f_equal; lia.
  - cbn [repeat]. rewrite (run_blocks_cons _ 255 0), block_step_new by lia.
    rewrite Z.sub_0_r, Z.eqb_refl, run_blocks_long by lia.
    rewrite run_blocks_cons, block_step_inLong by lia.
    rewrite (proj2 (Z.eqb_neq _ _)), (proj2 (Z.ltb_lt _ _)) by lia. simpl. do 2 f_equal; lia.
Qed.

Lemma run_blocks_ranges rs : forall pre prev c,
  descending prev rs -> First prev < 2 ^ 48 ->
  let st := run_blocks (MkBlockState pre prev false c) (ranges_blocks prev rs) in
  bs_pre st ++ [bs_cur st] = pre ++ prev :: rs /\ bs_inLong st = false /\
  (rs <> [] -> bs_complete st = true).
Proof.
  induction rs as [|r rs IH]; intros pre prev c Hd Hp; [done|].
  destruct Hd as (Hr & Hg & Hd). cbn [ranges_blocks].
  rewrite run_blocks_app, run_blocks_range by done. cbn zeta.
  destruct (IH (pre ++ [prev]) r true) as (E1 & E2 & E3); [done|lia|].
  split_and!; [by rewrite E1, <- app_assoc|done|]. intros _.
  destruct rs; [done|auto].
Qed.

Lemma ranges_blocks_ok deltaLen rs : forall prev,
  descending prev rs -> First prev < 2 ^ 48 -> valid_pn_len deltaLen ->
  (forall r, r ∈ rs -> Last r - First r + 1 < 2 ^ (8 * deltaLen)) ->
  Forall (block_ok deltaLen) (ranges_blocks prev rs).
Proof.
  induction rs as [|r rs IH]; intros prev Hd Hp Hl Hsz; [constructor|].
  destruct Hd as (Hr & Hg & Hd). cbn [ranges_blocks]. apply Forall_app. split.
  - unfold range_blocks, blocks_of. apply Forall_app. split.
    + apply Forall_forall. intros b Hb%list_elem_of_In%repeat_spec. subst b. split; simpl; [lia|].
      by apply deltaLen_zero.
    + apply Forall_singleton. split; simpl; [Z.div_mod_to_equations; lia|].
      split; [lia|]. apply Hsz. by left.
  - apply IH; try done; [lia|]. intros. apply Hsz. by right.
Qed.

(** Parsing the blocks of well-formed ranges gives the ranges back. *)
Lemma parse_ranges_enc bo `{!ByteOrderOk bo} deltaLen r0 rs r :
  valid_pn_len deltaLen -> rs <> [] ->
  1 <= First r0 <= Last r0 -> Last r0 < 2 ^ 48 -> descending r0 rs ->
  (forall r, r ∈ rs -> Last r - First r + 1 < 2 ^ (8 * deltaLen)) ->
  parse_ranges bo (Z.of_nat (length (ranges_blocks r0 rs))) deltaLen
    (Last r0) (Last r0 - First r0 + 1)
    (mjoin (enc_block bo deltaLen <$> ranges_blocks r0 rs) ++ r)
  = Ok ((r0 :: rs, First (last_range r0 rs)), r).
Proof.
  intros Hl Hne H0 H1 Hd Hsz. unfold parse_ranges. rewrite Nat2Z.id.
  erewrite reader_bind_ok by (apply parse_blocks_enc; [done|]; apply ranges_blocks_ok; try done; lia).
  rewrite (u64_small (Last r0 - _)), u64_small by lia.
  replace (MkAckRange _ (Last r0)) with r0 by (destruct r0; simpl; f_equal; lia).
  destruct (run_blocks_ranges rs [] r0 false) as (E1 & _ & E3); [done|lia|].
  rewrite E3 by done. rewrite E1. unfold last_range. simpl.
  destruct rs as [|r1 rs']; [done|]. rewrite last_cons.
  destruct (last (r1 :: rs')) as [x|] eqn:E; [done|]. by apply last_None in E.
Qed.

(** ** The delta length fits every range *)

Lemma fold_max_ge rs : forall m,
  let f := fold_left (fun m r => if m <? range_size r then range_size r else m) rs m in
  m <= f /\ (forall r, r ∈ rs -> range_size r <= f).
Proof.
  induction rs as [|r rs IH]; intros m; simpl.
  { split; [lia|]. by intros ? ?%not_elem_of_nil. }
  destruct (IH (if m <? range_size r then range_size r else m)) as [H1 H2].
  assert (m <= (if m <? range_size r then range_size r else m) /\
          range_size r <= (if m <? range_size r then range_size r else m)) as [? ?]
    by (destruct (Z.ltb_spec m (range_size r)); lia).
  split; [lia|]. intros x [->|Hx]%elem_of_cons; [lia|]. by apply H2.
Qed.

Lemma fold_max_lt rs B : forall m,
  m < B -> (forall r, r ∈ rs -> range_size r < B) ->
  fold_left (fun m r => if m <? range_size r then range_size r else m) rs m < B.
Proof.
  induction rs as [|r rs IH]; intros m Hm Hrs; simpl; [done|].
  apply IH; [|intros; apply Hrs; by right].
  pose proof (Hrs r ltac:(left)). by destruct (m <? range_size r).
Qed.

Lemma delta_len_of_max m :
  0 <= m < 2 ^ 48 ->
  let l := if m <=? 255 then PacketNumberLen1 else if m <=? 65535 then PacketNumberLen2
           else if m <=? 4294967295 then PacketNumberLen4 else PacketNumberLen6 in
  valid_pn_len l /\ m < 2 ^ (8 * l).
Proof.
  intros Hm. unfold valid_pn_len, PacketNumberLen1, PacketNumberLen2, PacketNumberLen4, PacketNumberLen6.
  repeat match goal with |- context [if ?a <=? ?b then _ else _] => destruct (Z.leb_spec a b) end;
    split; try tauto; simpl; lia.
Qed.

(** Every range of a well-formed frame is a non-empty set of 48-bit numbers. *)
Lemma descending_bounds rs : forall prev,
  descending prev rs -> First prev < 2 ^ 48 -> forall r, r ∈ rs -> 1 <= First r <= Last r /\ Last r < First prev.
Proof.
  induction rs as [|x rs IH]; intros prev Hd Hp r; [by intros ?%not_elem_of_nil|].
  destruct Hd as (Hx & Hg & Hd). intros [->|Hr]%elem_of_cons; [lia|].
  destruct (IH x Hd ltac:(lia) r Hr). lia.
Qed.

Lemma wf_range_bounds a r :
  acked_wf a -> r ∈ AckRanges a -> 1 <= First r <= Last r /\ Last r <= LargestAcked a < 2 ^ 48.
Proof.
  intros (H1 & H2 & H3) Hr. destruct (AckRanges a) as [|r0 rs]; [by apply not_elem_of_nil in Hr|].
  destruct H3 as (_ & E & H0 & Hd & _). apply elem_of_cons in Hr as [->|Hr]; [lia|].
  destruct (descending_bounds rs r0 Hd ltac:(lia) r Hr). lia.
Qed.

Lemma delta_len_fits a :
  acked_wf a ->
  let l := getMissingSequenceNumberDeltaLen a in
  valid_pn_len l /\
  (forall r, r ∈ AckRanges a -> Last r - First r + 1 < 2 ^ (8 * l)) /\
  (AckRanges a = [] -> LargestAcked a - LowestAcked a + 1 < 2 ^ (8 * l)).
Proof.
  intros Hwf. pose proof Hwf as (H1 & H2 & _). unfold getMissingSequenceNumberDeltaLen, HasMissingRanges.
  destruct (AckRanges a) as [|r0 rs] eqn:E.
  - rewrite (u64_small (_ - _)), u64_small by lia.
    destruct (delta_len_of_max (LargestAcked a - LowestAcked a + 1)) as [Hv Hl]; [lia|].
    split_and!; [done|by intros ? ?%not_elem_of_nil|done].
  - rewrite <- E. set (m := fold_left _ _ _).
    assert (forall r, r ∈ AckRanges a -> range_size r = Last r - First r + 1 /\ range_size r < 2 ^ 48) as Hsz.
    { intros r Hr. destruct (wf_range_bounds a r Hwf Hr). rewrite range_size_wf by lia. lia. }
    destruct (fold_max_ge (AckRanges a) 0) as [Hm0 Hm1].
    assert (m < 2 ^ 48) by (apply fold_max_lt; [lia|]; intros r Hr; by apply Hsz).
    destruct (delta_len_of_max m) as [Hv Hl]; [unfold m; lia|].
    split_and!; [done| |by rewrite E].
    intros r Hr. destruct (Hsz r Hr) as [<- _]. eapply Z.le_lt_trans; [by apply Hm1|done].
Qed.

(** ** Validation *)

Lemma ranges_descend_wf rs : forall prev,
  descending prev rs -> First prev < 2 ^ 48 -> ranges_descend prev rs = true.
Proof.
  induction rs as [|r rs IH]; intros prev Hd Hp; [done|]. destruct Hd as (Hr & Hg & Hd). simpl.
  rewrite u64_small by lia. rewrite !(proj2 (Z.leb_gt _ _)) by lia. simpl. apply IH; [done|lia].
Qed.

Lemma validate_wf a : acked_wf a -> validateAckRanges a = true.
Proof.
  intros Hwf. pose proof Hwf as (H1 & H2 & H3). unfold validateAckRanges.
  destruct (AckRanges a) as [|r0 [|r1 rs]] eqn:E; [done|by destruct H3|].
  destruct H3 as (_ & E0 & H0 & Hd & _). rewrite E0, Z.eqb_refl.
  rewrite ranges_descend_wf by (try done; lia). rewrite andb_true_r, andb_true_l.
  apply forallb_forall. intros r Hr. apply negb_true_iff, Z.ltb_ge.
  destruct (wf_range_bounds a r Hwf); [|lia]. rewrite E. by apply list_elem_of_In.
Qed.

(** ** Membership *)

Definition acked_numbers (a : Acked) (p : Z) : Prop :=
  match AckRanges a with
  | [] => LowestAcked a <= p <= LargestAcked a
  | rs => exists r, r ∈ rs /\ First r <= p <= Last r
  end.

Lemma last_range_lowest rs : forall r0,
  descending r0 rs -> 1 <= First r0 -> forall r, r ∈ r0 :: rs -> First (last_range r0 rs) <= First r.
Proof.
  unfold last_range. induction rs as [|x rs IH]; intros r0 Hd H0 r Hr.
  - apply list_elem_of_singleton in Hr as ->. simpl. lia.
  - destruct Hd as (Hx & Hg & Hd). rewrite last_cons.
    assert (First (default r0 (Some (default x (last rs)))) <= First x) as Hle.
    { apply (IH x Hd ltac:(lia) x). left. }
    destruct (last rs) as [y|] eqn:Ey; simpl in Hle |- *.
    all: apply elem_of_cons in Hr as [->|Hr]; [lia|].
    all: pose proof (IH x Hd ltac:(lia) r Hr) as H; try rewrite Ey in H; simpl in H; lia.
Qed.

Lemma AcksPacket_spec a p :
  acked_wf a -> AcksPacket a p = true <-> acked_numbers a p.
Proof.
  intros Hwf. pose proof Hwf as (H1 & H2 & H3). unfold AcksPacket, acked_numbers, HasMissingRanges.
  destruct (AckRanges a) as [|r0 rs] eqn:E.
  - destruct (Z.ltb_spec p (LowestAcked a)), (Z.ltb_spec (LargestAcked a) p),
      (Z.leb_spec (LowestAcked a) p), (Z.leb_spec p (LargestAcked a)); simpl; intuition lia.
  - assert (existsb (fun r => (First r <=? p) && (p <=? Last r)) (r0 :: rs) = true <->
            exists r, r ∈ r0 :: rs /\ First r <= p <= Last r) as Hex.
    { rewrite existsb_exists. split; intros (r & Hr & Hp); exists r.
      - apply andb_true_iff in Hp as [?%Z.leb_le ?%Z.leb_le]. by rewrite list_elem_of_In.
      - rewrite <- list_elem_of_In. split; [done|]. apply andb_true_iff. by rewrite !Z.leb_le. }
    destruct (Z.ltb_spec p (LowestAcked a)), (Z.ltb_spec (LargestAcked a) p); simpl orb; cbv iota;
      try exact Hex; (split; [done|]); intros (r & Hr & Hp); exfalso.
    all: destruct H3 as (_ & E0 & Hr0 & Hd & Elow).
    all: assert (r ∈ AckRanges a) as Hra by (by rewrite E).
    all: pose proof (last_range_lowest rs r0 Hd ltac:(lia) r Hr); pose proof (wf_range_bounds a r Hwf Hra); lia.
Qed.

(** ** Ranges accepted from the network *)

(** Non-empty ranges, each at least one packet below the previous one. *)
Fixpoint chain (prev : AckRange) (rs : list AckRange) : Prop :=
  match rs with
  | [] => True
  | r :: rs' => 0 <= First r <= Last r /\ Last r + 1 < First prev /\ chain r rs'
  end.

(** A range as the parser computes it: its bounds are 64-bit images of integers that
    have not dropped below [-B]. *)
Definition tracked (B : Z) (ok : Z -> Z -> Prop) (r : AckRange) : Prop :=
  exists f l, First r = u64 f /\ Last r = u64 l /\ - B <= f <= l + 1 /\ l < 2 ^ 48 /\ ok f l.

(** A range that has been closed: not empty, or empty with a representable end. *)
Definition closed (f l : Z) : Prop := f <= l \/ 0 <= l.

Definition block_inv (B : Z) (st : BlockState) : Prop :=
  Forall (tracked B closed) (bs_pre st) /\
  tracked B (fun f l => (bs_inLong st = false -> closed f l) /\
                        (bs_complete st = true -> f <= l)) (bs_cur st).

Lemma tracked_weaken B B' (ok ok' : Z -> Z -> Prop) r :
  B <= B' -> (forall f l, ok f l -> ok' f l) -> tracked B ok r -> tracked B' ok' r.
Proof. intros HB Hok (f & l & ? & ? & ? & ? & ?). exists f, l. split_and!; auto; lia. Qed.

Lemma u64_u64_l a b : u64 (u64 a - b) = u64 (a - b).
Proof. unfold u64, wrap. apply Zminus_mod_idemp_l. Qed.
Lemma u64_u64_r a b : u64 (a - u64 b) = u64 (a - b).
Proof. unfold u64, wrap. apply Zminus_mod_idemp_r. Qed.
Lemma u64_u64_add a b : u64 (u64 a + b) = u64 (a + b).
Proof. unfold u64, wrap. apply Zplus_mod_idemp_l. Qed.

Lemma block_step_inv B st g n :
  0 <= g < 256 -> 0 <= n < 2 ^ 48 -> 0 <= B ->
  block_inv B st -> block_inv (B + 2 ^ 49) (block_step st g n).
Proof.
  intros Hg Hn HB [Hpre (f & l & Ef & El & Hfl & Hl & Hopen & Hcomp)].
  assert (Forall (tracked (B + 2 ^ 49) closed) (bs_pre st)) as Hpre'.
  { eapply Forall_impl; [exact Hpre|]. intros r. apply tracked_weaken; [lia|done]. }
  unfold block_step. destruct (bs_inLong st) eqn:Elong; split; simpl.
  - done.
  - exists (f - (g + n)), (l - g). rewrite Ef, El, !u64_u64_l, u64_u64_r.
    split_and!; try done; try lia.
    + intros H%Z.eqb_neq. left. lia.
    + destruct (Z.ltb_spec 0 n); [lia|]. intros Hc%Hcomp. lia.
  - apply Forall_app. split; [done|]. apply Forall_singleton.
    exists f, l. split_and!; try done; try lia. by apply Hopen.
  - exists (f - g - 1 - n + 1), (f - g - 1). rewrite Ef, !u64_u64_l, u64_u64_add.
    split_and!; try done; try lia.
    + simpl. clear. word.
    + intros H%Z.eqb_neq. left. lia.
    + destruct (Z.ltb_spec 0 n); [lia|done].
Qed.

Section ParseSound.
Context (bo : ByteOrder) `{!ByteOrderOk bo}.
Context (deltaLen : Z).
Hypothesis deltaLen_ok : valid_pn_len deltaLen.

Lemma read_packet_number_inv s v r :
  bytes_ok s -> ReadUintN bo deltaLen s = Ok (v, r) -> 0 <= v < 2 ^ 48 /\ bytes_ok r.
Proof.
  destruct (pn_len_nat deltaLen deltaLen_ok) as [E Hle]. intros Hs. rewrite <- E. intros Hr.
  destruct (reads_N bo _ Hle s Hs) as [_ Ho]. destruct (Ho _ _ Hr) as [Hv (bs & -> & _)].
  apply bytes_ok_app in Hs as [_ Hs]. split; [|done].
  assert (2 ^ (8 * Z.of_nat (Z.to_nat deltaLen)) <= 2 ^ 48); [|lia].
  apply Z.pow_le_mono_r; [lia|]. rewrite E. destruct deltaLen_ok as [-> | [-> | [-> | ->]]]; lia.
Qed.

Lemma parse_blocks_inv k : forall B st s st' s',
  0 <= B -> bytes_ok s -> block_inv B st ->
  parse_blocks bo k deltaLen st s = Ok (st', s') ->
  block_inv (B + Z.of_nat k * 2 ^ 49) st' /\ bytes_ok s'.
Proof.
  induction k as [|k IH]; intros B st s st' s' HB Hs Hinv Hp; simpl in Hp.
  - injection Hp as <- <-. by rewrite Z.mul_0_l, Z.add_0_r.
  - apply reader_bind_inv in Hp as (g & s1 & Hg & Hp).
    apply reader_bind_inv in Hp as (n & s2 & Hn & Hp).
    destruct s as [|b s0]; [discriminate|]. injection Hg as <- <-.
    apply Forall_cons in Hs as [Hb Hs]. destruct (read_packet_number_inv _ _ _ Hs Hn) as [Hn' Hs2].
    replace (B + Z.of_nat (S k) * 2 ^ 49) with (B + 2 ^ 49 + Z.of_nat k * 2 ^ 49) by lia.
    eapply IH; [|exact Hs2| |exact Hp]; [lia|by apply block_step_inv].
Qed.

Lemma block_step_pre st g n :
  bs_pre st <> [] \/ bs_inLong st = false -> bs_pre (block_step st g n) <> [].
Proof.
  intros H. unfold block_step. destruct (bs_inLong st); simpl; [by destruct H|].
  by destruct (bs_pre st).
Qed.

Lemma parse_blocks_pre k : forall st s st' s',
  bs_pre st <> [] \/ bs_inLong st = false /\ (0 < k)%nat ->
  parse_blocks bo k deltaLen st s = Ok (st', s') -> bs_pre st' <> [].
Proof.
  induction k as [|k IH]; intros st s st' s' H Hp; simpl in Hp.
  - injection Hp as <- <-. destruct H as [?|[_ ?]]; [done|lia].
  - apply reader_bind_inv in Hp as (g & s1 & _ & Hp).
    apply reader_bind_inv in Hp as (n & s2 & _ & Hp).
    eapply IH; [|exact Hp]. left. apply block_step_pre. tauto.
Qed.

Lemma safe_read_packet_number : safe (ReadUintN bo deltaLen).
Proof. apply safe_readN; [done|]. destruct deltaLen_ok as [-> | [-> | [-> | ->]]]; lia. Qed.

Lemma safe_parse_blocks k : forall st, safe (parse_blocks bo k deltaLen st).
Proof.
  induction k as [|k IH]; intros st; simpl; auto using safe_read_packet_number with go.
Qed.

Lemma safe_parse_ranges numBlocks largest blockLen :
  1 <= numBlocks -> safe (parse_ranges bo numBlocks deltaLen largest blockLen).
Proof.
  intros Hn s Hs. unfold parse_ranges.
  destruct (safe_parse_blocks (Z.to_nat numBlocks)
    (MkBlockState [] (MkAckRange (u64 (u64 (largest - blockLen) + 1)) largest) false false) s Hs)
    as [Hp Ho]. unfold mbind, reader_bind.
  destruct (parse_blocks _ _ _ _ s) as [[st s']| |] eqn:E; [|split; [done|discriminate]|done].
  apply parse_blocks_pre in E as Hpre; [|right; split; [done|lia]].
  destruct (last (if bs_complete st then bs_pre st ++ [bs_cur st] else bs_pre st)) as [r|] eqn:El.
  - split; [done|]. intros ? ? [= <- <-]. by eapply Ho.
  - exfalso. apply last_None in El. destruct (bs_complete st); [by destruct (bs_pre st)|done].
Qed.
End ParseSound.

(** A validated list of tracked ranges is a chain of genuine packet number ranges. *)
Lemma tracked_chain rs : forall prev,
  Forall (tracked (2 ^ 60) closed) rs ->
  (forall r, r ∈ rs -> First r <= Last r) ->
  ranges_descend prev rs = true -> First prev < 2 ^ 49 -> chain prev rs.
Proof.
  induction rs as [|r rs IH]; intros prev Ht Hle Hd Hp; [done|].
  apply Forall_cons in Ht as [(f & l & Ef & El & Hfl & Hl & Hc) Ht].
  cbn in Hd. apply andb_true_iff in Hd as [[Hd1 Hd2]%andb_true_iff Hd3].
  apply negb_true_iff, Z.leb_gt in Hd1. apply negb_true_iff, Z.leb_gt in Hd2.
  pose proof (Hle r ltac:(left)) as Hr. rewrite Ef, El in *.
  assert (0 <= f) as Hf by (clear - Hd1 Hp Hfl Hl; word).
  rewrite (u64_small f) in * by lia.
  assert (f <= l) as Hfl'.
  { destruct Hc as [?|?]; [done|]. rewrite (u64_small l) in Hr by lia. done. }
  rewrite (u64_small l) in * by lia. rewrite u64_small in Hd2 by lia.
  cbn. rewrite Ef, El. split_and!; try lia.
  apply IH; try done; [intros; apply Hle; by right|lia].
Qed.

(** Ranges parsed from arbitrary bytes that pass validation. *)
Lemma parse_ranges_sound bo `{!ByteOrderOk bo} numBlocks deltaLen largest blockLen s rs low s' :
  valid_pn_len deltaLen -> bytes_ok s -> 1 <= numBlocks < 256 ->
  0 <= largest < 2 ^ 48 -> 0 <= blockLen <= largest ->
  parse_ranges bo numBlocks deltaLen largest blockLen s = Ok ((rs, low), s') ->
  validateAckRanges (MkAcked largest low rs) = true ->
  bytes_ok s' /\
  exists r0 rs', rs = r0 :: rs' /\ rs' <> [] /\ Last r0 = largest /\
    0 <= First r0 <= Last r0 /\ chain r0 rs' /\ low = First (last_range r0 rs').
Proof.
  intros Hl Hs Hnb Hlg Hbl Hp Hv. unfold parse_ranges in Hp.
  apply reader_bind_inv in Hp as (st & s1 & Hb & Hp).
  rewrite (u64_small (largest - blockLen)), u64_small in Hb by lia.
  eapply (parse_blocks_inv bo deltaLen Hl _ 0) in Hb as [Hinv Hs1]; [|lia|done|].
  2: { split; simpl; [constructor|]. exists (largest - blockLen + 1), largest. simpl.
    rewrite !u64_small by lia. split_and!; try done; try lia. by right; lia. }
  assert (Forall (tracked (2 ^ 60) closed)
            (if bs_complete st then bs_pre st ++ [bs_cur st] else bs_pre st)) as Ht.
  { destruct Hinv as [Hpre Hcur].
    assert (Forall (tracked (2 ^ 60) closed) (bs_pre st)).
    { eapply Forall_impl; [exact Hpre|]. intros r. apply tracked_weaken; [lia|done]. }
    destruct (bs_complete st); [|done]. apply Forall_app. split; [done|]. apply Forall_singleton.
    eapply tracked_weaken; [| |exact Hcur]; [lia|]. intros f l [_ H']. left. auto. }
  destruct (last (if bs_complete st then bs_pre st ++ [bs_cur st] else bs_pre st)) as [rl|] eqn:El;
    [|discriminate].
  injection Hp as Hrs Hlow Hs'. rewrite Hrs in *. subst s1. split; [done|].
  unfold validateAckRanges in Hv. cbn in Hv. destruct rs as [|r0 [|r1 rs]]; [done|done|].
  apply andb_true_iff in Hv as [[Hv1%Z.eqb_eq Hv2]%andb_true_iff Hv3].
  assert (forall r, r ∈ r0 :: r1 :: rs -> First r <= Last r) as Hle.
  { intros r Hr%list_elem_of_In. apply forallb_forall with (x := r) in Hv2; [|done].
    apply negb_true_iff, Z.ltb_ge in Hv2. done. }
  apply Forall_cons in Ht as [Ht0 Ht].
  exists r0, (r1 :: rs). pose proof (Hle r0 ltac:(left)).
  assert (0 <= First r0) by (destruct Ht0 as (f & l & -> & _); apply wrap_range; lia).
  split_and!; try done.
  - apply tracked_chain; try done; [|lia]. intros. apply Hle. by right.
  - unfold last_range. rewrite last_cons in El.
    destruct (last (r1 :: rs)) eqn:E; simpl in *; congruence.
Qed.

(** ** What is left of a frame that does not fit *)

(** The frame a peer can be told about: the highest ranges that fit into 255 blocks. *)
Definition truncate (a : Acked) : Acked :=
  match AckRanges a with
  | [] => a
  | r0 :: rs =>
      let ws := writable 0 r0 rs in
      MkAcked (LargestAcked a) (First (last_range r0 ws)) (r0 :: ws)
  end.

(** At least the second range can be written. *)
Definition second_range_fits (a : Acked) : Prop :=
  match AckRanges a with r0 :: rs => writable 0 r0 rs <> [] | [] => True end.

Lemma truncate_wf a : acked_wf a -> second_range_fits a -> acked_wf (truncate a).
Proof.
  intros (H1 & H2 & H3) Hfit. unfold truncate, second_range_fits, acked_wf in *.
  destruct (AckRanges a) as [|r0 rs] eqn:E; [by rewrite E|]. simpl.
  destruct H3 as (_ & E0 & Hr0 & Hd & _).
  pose proof (writable_descending 0 r0 rs Hd) as Hdw.
  assert (1 <= First (last_range r0 (writable 0 r0 rs)) <= First r0) as [? ?].
  { unfold last_range. destruct (last (writable 0 r0 rs)) as [x|] eqn:Ex; [|simpl; lia].
    apply last_Some_elem_of in Ex. destruct (descending_bounds _ r0 Hdw ltac:(lia) x Ex). simpl. lia. }
  split_and!; try done; lia.
Qed.

(** When the blocks of all gaps fit, nothing is lost. *)
Lemma writable_all rs : forall n prev,
  0 <= n -> descending prev rs -> First prev < 2 ^ 48 ->
  n + Z.of_nat (length (ranges_blocks prev rs)) < 255 -> writable n prev rs = rs.
Proof.
  induction rs as [|r rs IH]; intros n prev Hn Hd Hp Hb; [done|].
  destruct Hd as (Hr & Hg & Hd). cbn [ranges_blocks] in Hb. rewrite length_app, Nat2Z.inj_add in Hb.
  unfold range_blocks in Hb. rewrite length_blocks_of in Hb by lia.
  destruct (rangeLength_bounds (First prev - Last r - 1)) as [? ?]; [lia|]. simpl.
  rewrite (proj2 (Z.ltb_lt _ _)) by lia. f_equal. apply IH; try done; lia.
Qed.

(** ** Sizes *)

Lemma length_enc_blocks bo `{!ByteOrderOk bo} deltaLen bs :
  0 <= deltaLen ->
  Z.of_nat (length (mjoin (enc_block bo deltaLen <$> bs))) = (1 + deltaLen) * Z.of_nat (length bs).
Proof.
  intros Hd. induction bs as [|b bs IH]; [simpl; lia|].
  change (mjoin (enc_block bo deltaLen <$> b :: bs))
    with (enc_block bo deltaLen b ++ mjoin (enc_block bo deltaLen <$> bs)).
  rewrite length_app, Nat2Z.inj_add, IH. unfold enc_block. cbn [length]. rewrite enc_length. lia.
Qed.

(** ** The first gap is too long

    [numWritableNackRanges] leaves a second range out when it needs 255 blocks or more,
    but the writing loop looks at the count only after it has written a range. *)
Definition second_range_lost (a : Acked) : Prop :=
  match AckRanges a with
  | r0 :: r1 :: _ => 254 * 255 < First r0 - Last r1 - 1
  | _ => False
  end.

Lemma second_range_fits_iff a :
  acked_wf a -> second_range_fits a <-> ~ second_range_lost a.
Proof.
  intros (H1 & H2 & H3). unfold second_range_fits, second_range_lost.
  destruct (AckRanges a) as [|r0 [|r1 rs]]; [tauto|by destruct H3|].
  destruct H3 as (_ & E0 & Hr0 & (Hr1 & Hg & _) & _).
  destruct (rangeLength_bounds (First r0 - Last r1 - 1)) as [? ?]; [lia|]. simpl.
  destruct (Z.ltb_spec (0 + rangeLength (First r0 - Last r1 - 1)) 255); split; intros; try done; lia.
Qed.

Section WriteLost.
Context (bo : ByteOrder) `{!ByteOrderOk bo}.
Context (mask48 : Z -> Z).
Hypothesis mask48_id : forall v, 0 <= v < 2 ^ 48 -> mask48 v = v.

Lemma write_ranges_lost a r0 r1 rs :
  acked_wf a -> AckRanges a = r0 :: r1 :: rs -> second_range_lost a ->
  numWritable_loop 0 r0 (r1 :: rs) = 0 /\
  exists out n, n <> 1 /\
    write_ranges bo mask48 (getMissingSequenceNumberDeltaLen a) 1 1 r0 (r1 :: rs) = (wbytes out, n).
Proof.
  intros Hwf E Hlost. destruct (delta_len_fits a Hwf) as (Hdv & Hdr & _).
  pose proof Hwf as (H1 & H2 & H3). unfold second_range_lost in Hlost. rewrite E in *.
  destruct H3 as (_ & E0 & Hr0 & (Hr1 & Hg & _) & _).
  destruct (rangeLength_bounds (First r0 - Last r1 - 1)) as [? ?]; [lia|].
  cbn [numWritable_loop write_ranges]. rewrite gap_between_wf by lia.
  rewrite (write_range_spec _ mask48 mask48_id _ Hdv) by (try lia; apply Hdr; right; left).
  rewrite !u64_small by lia. rewrite (proj2 (Z.ltb_ge _ _)), (proj2 (Z.leb_le _ _)) by lia.
  split; [done|]. eexists _, _. split; [|done]. lia.
Qed.
End WriteLost.

(** What both [MinLength] methods add for the blocks. *)
Definition blocks_length (a : Acked) : Z :=
  if HasMissingRanges a
  then u64 ((1 + getMissingSequenceNumberDeltaLen a) * numWritableNackRanges a)
  else getMissingSequenceNumberDeltaLen a.

Lemma blocks_length_spec a :
  acked_wf a ->
  0 <= blocks_length a <= 7 * 255 /\
  blocks_length a =
    match AckRanges a with
    | [] => getMissingSequenceNumberDeltaLen a
    | r0 :: rs => (1 + getMissingSequenceNumberDeltaLen a)
                  * (1 + Z.of_nat (length (ranges_blocks r0 (writable 0 r0 rs))))
    end.
Proof.
  intros Hwf. destruct (delta_len_fits a Hwf) as (Hdv & _).
  assert (1 <= getMissingSequenceNumberDeltaLen a <= 6)
    by (destruct Hdv as [-> | [-> | [-> | ->]]]; lia).
  pose proof Hwf as (H1 & H2 & H3). unfold blocks_length, HasMissingRanges, numWritableNackRanges.
  destruct (AckRanges a) as [|r0 rs]; [split; [lia|done]|].
  destruct H3 as (_ & E0 & Hr0 & Hd & _).
  destruct (numWritable_loop_spec rs 0 r0) as [N1 N2]; [lia|done|lia|].
  rewrite Z.add_0_l in N1. rewrite N1 in *. set (n := Z.of_nat _) in *.
  rewrite (u64_small (n + 1)) by lia. rewrite u64_small by nia. split; [nia|lia].
Qed.

(** ** Blocks of a frame *)

Definition num_blocks (a : Acked) : Z :=
  match AckRanges a with [] => 0 | r0 :: rs => numWritable_loop 0 r0 rs end.

(** The first block and the blocks of the ranges that fit. *)
Definition acked_bytes (bo : ByteOrder) `{!ByteOrderOk bo} (a : Acked) : list Z :=
  let d := getMissingSequenceNumberDeltaLen a in
  match AckRanges a with
  | [] => enc (Z.to_nat d) (LargestAcked a - LowestAcked a + 1)
  | r0 :: rs =>
      enc (Z.to_nat d) (Last r0 - First r0 + 1)
      ++ mjoin (enc_block bo d <$> ranges_blocks r0 (writable 0 r0 rs))
  end.

Lemma num_blocks_range a :
  acked_wf a -> 0 <= num_blocks a < 255 /\
  (HasMissingRanges a = true -> numWritableNackRanges a = num_blocks a + 1) /\
  (HasMissingRanges a = true -> second_range_fits a -> 0 < num_blocks a).
Proof.
  intros (H1 & H2 & H3). unfold num_blocks, HasMissingRanges, numWritableNackRanges, second_range_fits.
  destruct (AckRanges a) as [|r0 rs]; [split_and!; (done || lia)|].
  destruct H3 as (_ & E0 & Hr0 & Hd & _).
  destruct (numWritable_loop_spec rs 0 r0) as [N1 N2]; [lia|done|lia|].
  rewrite u64_small by lia. split_and!; try done; try lia. intros _ Hne.
  destruct (writable 0 r0 rs) as [|x xs]; [done|]. rewrite N1. simpl. unfold range_blocks, blocks_of.
  rewrite !length_app. simpl. lia.
Qed.

Lemma length_acked_bytes bo `{!ByteOrderOk bo} a :
  acked_wf a ->
  Z.of_nat (length (acked_bytes bo a)) + (if HasMissingRanges a then 1 else 0) = blocks_length a.
Proof.
  intros Hwf. destruct (blocks_length_spec a Hwf) as [_ ->].
  destruct (delta_len_fits a Hwf) as (Hdv & _). destruct (pn_len_nat _ Hdv) as [Ed _].
  unfold acked_bytes, HasMissingRanges.
  destruct (AckRanges a); rewrite ?length_app, enc_length; [lia|].
  rewrite !Nat2Z.inj_add, length_enc_blocks by lia. lia.
Qed.

Section WriteAcked.
Context (bo : ByteOrder) `{!ByteOrderOk bo}.
Context (mask48 : Z -> Z).
Hypothesis mask48_id : forall v, 0 <= v < 2 ^ 48 -> mask48 v = v.
Context (inconsistent : goerr).

Lemma write_acked_bytes a :
  acked_wf a -> second_range_fits a ->
  write_acked bo mask48 inconsistent a (getMissingSequenceNumberDeltaLen a)
    (if HasMissingRanges a then numWritableNackRanges a else 0) = wbytes (acked_bytes bo a).
Proof.
  intros Hwf Hfit. pose proof Hwf as (H1 & H2 & H3).
  destruct (delta_len_fits a Hwf) as (Hdv & Hdr & Hdn).
  unfold write_acked, acked_bytes, HasMissingRanges, numWritableNackRanges, second_range_fits in *.
  destruct (AckRanges a) as [|r0 rs] eqn:E.
  - rewrite (u64_small (LargestAcked a - _)), (u64_small (_ + 1)) by lia.
    by rewrite (writePacketNumber_spec _ mask48 mask48_id _ Hdv) by (split; [lia|auto]).
  - destruct H3 as (Hne & E0 & Hr0 & Hd & Elow). unfold last_range in Elow.
    destruct (numWritable_loop_spec rs 0 r0) as [N1 N2]; [lia|done|lia|].
    rewrite (u64_small (_ + 1)) by lia. rewrite E0, <- Elow, !Z.eqb_refl. cbn [andb orb negb].
    rewrite (write_ranges_spec _ mask48 mask48_id _ Hdv rs 0 r0); try done; try lia.
    2: { intros r Hr. apply Hdr. by right. }
    rewrite Z.eqb_refl. cbn [andb orb negb].
    rewrite (u64_small (LargestAcked a - First r0)), (u64_small (LargestAcked a - First r0 + 1)) by lia.
    rewrite (writePacketNumber_spec _ mask48 mask48_id _ Hdv)
      by (rewrite <- E0; pose proof (Hdr r0 ltac:(left)); lia).
    change wret with (wbytes []). rewrite !wseq_wbytes_wbytes, app_nil_r. done.
Qed.

Lemma write_acked_lost a :
  acked_wf a -> second_range_lost a ->
  HasMissingRanges a = true /\
  (write_acked bo mask48 inconsistent a (getMissingSequenceNumberDeltaLen a)
    (numWritableNackRanges a)).2 = Err inconsistent.
Proof.
  intros Hwf Hlost. pose proof Hwf as (H1 & H2 & H3).
  destruct (delta_len_fits a Hwf) as (Hdv & Hdr & _).
  unfold write_acked, HasMissingRanges, numWritableNackRanges.
  destruct (AckRanges a) as [|r0 [|r1 rs]] eqn:E;
    [by unfold second_range_lost in Hlost; rewrite E in Hlost|by destruct H3|].
  destruct (write_ranges_lost bo mask48 mask48_id a r0 r1 rs Hwf E Hlost) as (N0 & out & n & Hn & Hw).
  rewrite N0, (u64_small (0 + 1)), Z.add_0_l by lia. split; [done|].
  destruct H3 as (_ & E0 & Hr0 & _ & Elow). unfold last_range in Elow.
  rewrite Hw, <- E0, Elow, !Z.eqb_refl. rewrite (proj2 (Z.eqb_neq 1 n)) by congruence.
  rewrite (u64_small (Last r0 - First r0)), (u64_small (Last r0 - First r0 + 1)) by lia.
  by rewrite (writePacketNumber_spec _ mask48 mask48_id _ Hdv) by (pose proof (Hdr r0 ltac:(left)); lia).
Qed.
End WriteAcked.

Section ParseAcked.
Context (bo : ByteOrder) `{!ByteOrderOk bo}.

Lemma parse_acked_bytes a r :
  acked_wf a -> second_range_fits a ->
  parse_acked bo (HasMissingRanges a) (num_blocks a) (getMissingSequenceNumberDeltaLen a)
    (LargestAcked a) (acked_bytes bo a ++ r) = Ok (truncate a, r).
Proof.
  intros Hwf Hfit. pose proof (truncate_wf a Hwf Hfit) as Htw.
  pose proof Hwf as (H1 & H2 & H3). destruct (delta_len_fits a Hwf) as (Hdv & Hdr & Hdn).
  unfold acked_bytes, parse_acked, num_blocks. set (d := getMissingSequenceNumberDeltaLen a) in *.
  pose proof (validate_wf _ Htw) as Hval.
  unfold truncate, HasMissingRanges, second_range_fits in *.
  destruct (AckRanges a) as [|r0 rs] eqn:E.
  - erewrite reader_bind_ok by (apply read_packet_number; [done|split; [lia|auto]]).
    rewrite (proj2 (Z.ltb_lt 0 _)), (proj2 (Z.ltb_ge _ 1)), (proj2 (Z.ltb_ge (LargestAcked a) _)) by lia.
    cbn [andb orb negb]. erewrite reader_bind_ok by done.
    rewrite (proj2 (Z.eqb_neq _ _)), (u64_small (_ + 1)), u64_small by lia.
    replace (LargestAcked a + 1 - _) with (LowestAcked a) by lia.
    replace (MkAcked _ _ []) with a by (destruct a; simpl in *; congruence).
    by rewrite Hval.
  - destruct H3 as (Hne & E0 & Hr0 & Hd & Elow).
    destruct (numWritable_loop_spec rs 0 r0) as [N1 N2]; [lia|done|lia|].
    rewrite <- !app_assoc. pose proof (Hdr r0 ltac:(left)).
    erewrite reader_bind_ok by (apply read_packet_number; [done|lia]).
    rewrite (proj2 (Z.ltb_lt 0 _)), (proj2 (Z.ltb_ge _ 1)), (proj2 (Z.ltb_ge (LargestAcked a) _)) by lia.
    cbn [andb orb negb]. rewrite N1, <- E0, Z.add_0_l.
    erewrite reader_bind_ok.
    2: { apply parse_ranges_enc; try done; try lia; [by apply writable_descending|].
         intros x Hx. apply Hdr. right. destruct (writable_prefix 0 r0 rs) as [k ->].
         apply elem_of_app. by left. }
    rewrite E0, Hval. done.
Qed.

Lemma safe_parse_acked missing n d largest :
  valid_pn_len d -> (missing = true -> 1 <= n) -> safe (parse_acked bo missing n d largest).
Proof.
  intros Hd Hn. unfold parse_acked.
  apply safe_bind; [by apply safe_read_packet_number|]. intros abl.
  do 2 (apply safe_if; [auto with go|]). apply safe_bind.
  - destruct missing; [|auto with go]. by apply (safe_parse_ranges bo d Hd), Hn.
  - intros [rs low]. auto with go.
Qed.
End ParseAcked.

(** What the parsers guarantee about an accepted frame. *)
Definition acked_valid (a : Acked) : Prop :=
  0 <= LowestAcked a <= LargestAcked a /\ LargestAcked a < 2 ^ 48 /\
  match AckRanges a with
  | [] => True
  | r0 :: rs =>
      rs <> [] /\ Last r0 = LargestAcked a /\ First r0 <= Last r0 /\
      chain r0 rs /\ LowestAcked a = First (last_range r0 rs)
  end.

Lemma chain_last rs : forall r0,
  0 <= First r0 -> chain r0 rs -> 0 <= First (last_range r0 rs) <= First r0.
Proof.
  unfold last_range. induction rs as [|r rs IH]; intros r0 H0 Hc; [simpl; lia|].
  destruct Hc as (Hr & Hg & Hc). rewrite last_cons. specialize (IH r ltac:(lia) Hc).
  destruct (last rs); simpl in *; lia.
Qed.

Lemma parse_acked_sound bo `{!ByteOrderOk bo} missing n d largest s a s' :
  valid_pn_len d -> bytes_ok s -> 0 <= largest < 2 ^ 48 -> (missing = true -> 1 <= n < 256) ->
  parse_acked bo missing n d largest s = Ok (a, s') -> acked_valid a.
Proof.
  intros Hd Hs Hlg Hn Hp. unfold parse_acked in Hp.
  apply reader_bind_inv in Hp as (abl & s2 & Habl & Hp).
  destruct (read_packet_number_inv bo d Hd _ _ _ Hs Habl) as [Hab Hs2].
  destruct ((0 <? largest) && (abl <? 1)) eqn:E2; [discriminate|].
  destruct (Z.ltb_spec largest abl) as [|Hle]; [discriminate|].
  apply reader_bind_inv in Hp as ([rs low] & s3 & Hr & Hp).
  destruct (validateAckRanges (MkAcked largest low rs)) eqn:Hv; [|discriminate].
  injection Hp as <- <-. destruct missing.
  - specialize (Hn eq_refl). assert (0 <= abl <= largest) as Hbl by lia.
    destruct (parse_ranges_sound _ _ _ _ _ _ _ _ _ Hd Hs2 Hn Hlg Hbl Hr Hv)
      as (_ & r0 & rs' & -> & Hne & E0 & H0 & Hc & ->).
    pose proof (chain_last rs' r0 ltac:(lia) Hc). unfold acked_valid. simpl. split_and!; try done; lia.
  - injection Hr as <- <-. unfold acked_valid. cbn [LargestAcked LowestAcked AckRanges].
    destruct (Z.eqb_spec largest 0); [split_and!; lia|].
    destruct (Z.ltb_spec 0 largest), (Z.ltb_spec abl 1); try discriminate E2; try lia.
    rewrite (u64_small (largest + 1)), u64_small by lia. split_and!; lia.
Qed.

Lemma len_of_bits_valid x : valid_pn_len (len_of_bits (Z.land x 3)).
Proof.
  change 3 with (Z.ones 2). rewrite Z.land_ones by lia.
  pose proof (Z.mod_pos_bound x (2 ^ 2) ltac:(lia)) as H. revert H.
  generalize (x `mod` 2 ^ 2) as y. intros y H.
  assert (y = 0 \/ y = 1 \/ y = 2 \/ y = 3) as [-> | [-> | [-> | ->]]] by lia;
    vm_compute; intuition.
Qed.

Lemma len_of_bits_valid' x : valid_pn_len (len_of_bits (Z.shiftr (Z.land x 0x0C) 2)).
Proof.
  rewrite Z.shiftr_land. change (Z.shiftr 0x0C 2) with 3. apply len_of_bits_valid.
Qed.
#[export] Hint Resolve len_of_bits_valid len_of_bits_valid' : go.

Lemma yields_packet_number bo `{!ByteOrderOk bo} l :
  valid_pn_len l -> yields (ReadUintN bo l) (fun v => 0 <= v < 2 ^ 48).
Proof.
  intros Hl. apply yields_intro; [by apply safe_read_packet_number|].
  intros s v s' Hs E. by apply (read_packet_number_inv bo l Hl) in E as [? _].
Qed.

Lemma yields_acked bo `{!ByteOrderOk bo} missing n d largest :
  valid_pn_len d -> 0 <= largest < 2 ^ 48 -> (missing = true -> 1 <= n < 256) ->
  yields (parse_acked bo missing n d largest) acked_valid.
Proof.
  intros Hd Hl Hn. apply yields_intro; [apply (safe_parse_acked bo); [done|intros E; specialize (Hn E); lia]|].
  intros s a s' Hs E. by eapply parse_acked_sound.
Qed.
