(* ===== verification/AckFrame.v ===== *)
(** * The ACK frame

    Models [internal/wire/ack_frame.go]: [ParseAckFrame], [Write], [MinLength] and
    [AcksPacket].  The range handling shared with CLOSE_PATH is in [AckRanges]. *)

From stdpp Require Import base numbers list option strings.
From S2P Require Import Prelude ByteOrder Protocol AckRanges.

Local Open Scope Z_scope.

Module AckFrame.

Record t : Type := Mk {
  PathID : Z;
  acked : Acked;                (* LargestAcked, LowestAcked, AckRanges *)
  PacketReceivedTime : Z;
  DelayTime : Z;
}.

Definition errInconsistentCount : goerr :=
  GoErr "BUG: Inconsistent number of ACK ranges written".

(** ** Parsing *)

(** The timestamps at the end of the frame are skipped. *)
Fixpoint skip_timestamps (bo : ByteOrder) (k : nat) : reader unit :=
  match k with
  | O => mret tt
  | S k' => _ ← ReadByte; _ ← ReadUint16 bo; skip_timestamps bo k'
  end.

Definition parse_timestamps (bo : ByteOrder) : reader unit :=
  numTimestamp ← ReadByte;
  if 0 <? numTimestamp
  then _ ← ReadByte; _ ← ReadUint32 bo; skip_timestamps bo (Z.to_nat (numTimestamp - 1))
  else mret tt.

(** The type byte, the path, the largest acknowledged packet and the delay. *)
Definition parse_header (bo : ByteOrder) : reader (bool * Z * Z * Z * Z) :=
  typeByte ← ReadByte;
  let hasMissingRanges := Z.land typeByte 0x20 =? 0x20 in
  let largestAckedLen := len_of_bits (Z.shiftr (Z.land typeByte 0x0C) 2) in
  let deltaLen := len_of_bits (Z.land typeByte 0x03) in
  pathID ← (if Z.land typeByte 0x10 =? 0x10 then ReadByte else mret 0);
  largestAcked ← ReadUintN bo largestAckedLen;
  delay ← readUfloat16 bo;
  mret (hasMissingRanges, deltaLen, pathID, largestAcked, i64 (delay * Microsecond)).

(** The ACK blocks. *)
Definition parse_body (bo : ByteOrder) (hasMissingRanges : bool) (deltaLen largestAcked : Z)
  : reader Acked :=
  numAckBlocks ← (if hasMissingRanges then ReadByte else mret 0);
  if hasMissingRanges && (numAckBlocks =? 0) then throw ErrInvalidAckRanges else
  parse_acked bo hasMissingRanges numAckBlocks deltaLen largestAcked.

Definition ParseAckFrame (version : Z) : reader t :=
  let bo := GetByteOrder version in
  '(hasMissingRanges, deltaLen, pathID, largestAcked, delayTime) ← parse_header bo;
  a ← parse_body bo hasMissingRanges deltaLen largestAcked;
  _ ← parse_timestamps bo;
  mret (Mk pathID a 0 delayTime).

(** ** Writing *)

Definition mask48 (v : Z) : Z := Z.land v (2 ^ 48 - 1).

Definition type_byte (largestAckedLen deltaLen : Z) (missing hasPath : bool) : Z :=
  let tb := 0x40 in
  let tb := if negb (largestAckedLen =? PacketNumberLen1)
            then Z.lxor tb (u8 (Z.shiftl (largestAckedLen / 2) 2)) else tb in
  let tb := if negb (deltaLen =? PacketNumberLen1) then Z.lxor tb (deltaLen / 2) else tb in
  let tb := if missing then Z.lor tb 0x20 else tb in
  if hasPath then Z.lor tb 0x10 else tb.

(** [Write] runs at time [now]; it also stores the delay it writes in the frame. *)
Definition Write (f : t) (version now : Z) : t * writer :=
  let bo := GetByteOrder version in
  let a := acked f in
  let largestAckedLen := GetPacketNumberLength (LargestAcked a) in
  let deltaLen := getMissingSequenceNumberDeltaLen a in
  let hasPath := negb (PathID f =? InitialPathID) in
  let delay := time_sub now (PacketReceivedTime f) in
  let f' := Mk (PathID f) a (PacketReceivedTime f) delay in
  let numRanges := if HasMissingRanges a then numWritableNackRanges a else 0 in
  (f',
   WriteByte (type_byte largestAckedLen deltaLen (HasMissingRanges a) hasPath)
   >;> (if hasPath then WriteByte (PathID f) else wret)
   >;> writePacketNumber bo mask48 largestAckedLen (LargestAcked a)
   >;> writeUfloat16 bo (u64 (Z.quot delay Microsecond))
   >;> (if HasMissingRanges a
        then if 255 <? numRanges then wpanic else WriteByte (u8 (numRanges - 1)) else wret)
   >;> write_acked bo mask48 errInconsistentCount a deltaLen numRanges
   >;> WriteByte 0).

Definition MinLength (f : t) : Z :=
  let a := acked f in
  let deltaLen := getMissingSequenceNumberDeltaLen a in
  let length := u64 (1 + 2 + 1 + GetPacketNumberLength (LargestAcked a)) in
  let length := u64 (length + (if HasMissingRanges a
                               then u64 ((1 + deltaLen) * numWritableNackRanges a) else deltaLen)) in
  if negb (PathID f =? InitialPathID) then u64 (length + 1) else length.

(** ** Lemmas *)

Lemma ack_frame_mask48 v : 0 <= v < 2 ^ 48 -> mask48 v = v.
Proof.
  intros. unfold mask48. change (2 ^ 48 - 1) with (Z.ones 48). rewrite Z.land_ones by lia.
  by apply Z.mod_small.
Qed.

(** The type byte carries the two lengths and the two flags. *)
Lemma ack_frame_type_byte l d missing hasPath :
  valid_pn_len l -> valid_pn_len d ->
  let tb := u8 (type_byte l d missing hasPath) in
  len_of_bits (Z.shiftr (Z.land tb 0x0C) 2) = l /\
  len_of_bits (Z.land tb 0x03) = d /\
  (Z.land tb 0x20 =? 0x20) = missing /\
  (Z.land tb 0x10 =? 0x10) = hasPath.
Proof.
  intros [-> | [-> | [-> | ->]]] [-> | [-> | [-> | ->]]]; destruct missing, hasPath;
    vm_compute; auto.
Qed.

Definition header_bytes (bo : ByteOrder) `{!ByteOrderOk bo} (f : t) (delay : Z) : list Z :=
  let a := acked f in
  let l := GetPacketNumberLength (LargestAcked a) in
  [u8 (type_byte l (getMissingSequenceNumberDeltaLen a) (HasMissingRanges a)
         (negb (PathID f =? InitialPathID)))]
  ++ (if negb (PathID f =? InitialPathID) then [u8 (PathID f)] else [])
  ++ enc (Z.to_nat l) (LargestAcked a)
  ++ enc 2 (encodeUfloat16 (u64 (Z.quot delay Microsecond))).

(** The part of [Write] after the delay: the number of blocks, the blocks and the
    number of timestamps. *)
Definition body_bytes (bo : ByteOrder) `{!ByteOrderOk bo} (a : Acked) : list Z :=
  (if HasMissingRanges a then [num_blocks a] else []) ++ acked_bytes bo a ++ [0].

Lemma wbytes_app a b : wbytes (a ++ b) = (wbytes a >;> wbytes b).
Proof. done. Qed.

Lemma ack_frame_write_bytes f version now :
  acked_wf (acked f) -> second_range_fits (acked f) ->
  (Write f version now).2
  = wbytes (header_bytes (GetByteOrder version) f (time_sub now (PacketReceivedTime f))
            ++ body_bytes (GetByteOrder version) (acked f)).
Proof.
  intros Hwf Hfit. destruct f as [pid a rt dt]. unfold Write, header_bytes, body_bytes.
  cbn [acked PathID PacketReceivedTime snd] in *.
  pose proof Hwf as (H1 & H2 & H3).
  destruct (GetPacketNumberLength_fits (LargestAcked a)) as [Hv Hl]; [lia|].
  destruct (delta_len_fits a Hwf) as (Hdv & Hdr & Hdn).
  rewrite (writePacketNumber_spec _ mask48 ack_frame_mask48 _ Hv) by lia.
  unfold writeUfloat16. rewrite write16.
  assert ((if negb (pid =? InitialPathID) then WriteByte pid else wret)
          = wbytes (if negb (pid =? InitialPathID) then [u8 pid] else [])) as ->
    by (by destruct (negb (pid =? InitialPathID))).
  unfold WriteByte at 1. rewrite <- !app_assoc, !wbytes_app. f_equal. f_equal. f_equal. f_equal.
  rewrite (write_acked_bytes _ mask48 ack_frame_mask48 errInconsistentCount a Hwf Hfit).
  f_equal.
  destruct (num_blocks_range a Hwf) as (Hn & En & _).
  destruct (HasMissingRanges a); [|done]. rewrite En by done.
  rewrite (proj2 (Z.ltb_ge _ _)), Z.add_simpl_r by lia. unfold WriteByte.
  by rewrite !(u8_small (num_blocks a)) by lia.
Qed.

(** Reading back the header. *)
(** The frame the peer sees. *)
Definition received (f : t) (now : Z) : t :=
  Mk (PathID f) (truncate (acked f)) 0
     (ufloat16_round (Z.quot (time_sub now (PacketReceivedTime f)) Microsecond) * Microsecond).

Lemma parse_header_bytes bo `{!ByteOrderOk bo} f delay r :
  acked_wf (acked f) -> 0 <= PathID f < 256 -> 0 <= delay < 2 ^ 63 ->
  parse_header bo (header_bytes bo f delay ++ r)
  = Ok ((HasMissingRanges (acked f), getMissingSequenceNumberDeltaLen (acked f), PathID f,
         LargestAcked (acked f), ufloat16_round (Z.quot delay Microsecond) * Microsecond), r).
Proof.
  intros Hwf Hpid Hdelay. destruct f as [pid a rt dt].
  unfold header_bytes, parse_header. cbn [acked PathID] in *.
  pose proof Hwf as (H1 & H2 & _).
  destruct (GetPacketNumberLength_fits (LargestAcked a)) as [Hv Hl]; [lia|].
  destruct (delta_len_fits a Hwf) as (Hdv & _).
  set (l := GetPacketNumberLength (LargestAcked a)) in *.
  set (d := getMissingSequenceNumberDeltaLen a) in *.
  assert (0 <= Z.quot delay Microsecond < 2 ^ 63) as Hq.
  { split; [apply Z.quot_pos; unfold Microsecond; lia|].
    eapply Z.le_lt_trans; [apply Z.quot_le_upper_bound with (q := delay)|]; unfold Microsecond; lia. }
  destruct (ack_frame_type_byte l d (HasMissingRanges a) (negb (pid =? InitialPathID)) Hv Hdv)
    as (F1 & F2 & F3 & F4).
  rewrite <- !app_assoc. erewrite reader_bind_ok by done. rewrite F1, F2, F3, F4.
  assert (forall s, (if negb (pid =? InitialPathID) then ReadByte else mret 0)
            ((if negb (pid =? InitialPathID) then [u8 pid] else []) ++ s) = Ok (pid, s)) as Hpath.
  { intros s. destruct (Z.eqb_spec pid InitialPathID) as [->|Hn]; simpl; [done|].
    by rewrite u8_small by lia. }
  erewrite reader_bind_ok by apply Hpath.
  erewrite reader_bind_ok by (apply read_packet_number; [done|lia]).
  rewrite (u64_small (Z.quot delay Microsecond)) by lia.
  erewrite reader_bind_ok by (apply read_ufloat16; lia).
  rewrite (i64_small (_ * Microsecond)) by (apply round_in_i64; lia). done.
Qed.

Lemma parse_body_bytes bo `{!ByteOrderOk bo} a r :
  acked_wf a -> second_range_fits a ->
  parse_body bo (HasMissingRanges a) (getMissingSequenceNumberDeltaLen a) (LargestAcked a)
    (body_bytes bo a ++ r) = Ok (truncate a, [0] ++ r).
Proof.
  intros Hwf Hfit. unfold body_bytes, parse_body. rewrite <- !app_assoc.
  destruct (num_blocks_range a Hwf) as (Hn & _ & Hpos).
  pose proof (parse_acked_bytes bo a ([0] ++ r) Hwf Hfit) as Hacked.
  destruct (HasMissingRanges a) eqn:E.
  - erewrite reader_bind_ok by done. rewrite (proj2 (Z.eqb_neq _ 0)) by (specialize (Hpos eq_refl Hfit); lia).
    exact Hacked.
  - erewrite reader_bind_ok by done. unfold HasMissingRanges, num_blocks in *.
    by destruct (AckRanges a).
Qed.

Lemma parse_no_timestamps bo r : parse_timestamps bo ([0] ++ r) = Ok (tt, r).
Proof. done. Qed.

Lemma length_body_bytes bo `{!ByteOrderOk bo} a :
  acked_wf a -> Z.of_nat (length (body_bytes bo a)) = 1 + blocks_length a.
Proof.
  intros Hwf. rewrite <- (length_acked_bytes bo) by done. unfold body_bytes.
  rewrite !length_app. destruct (HasMissingRanges a); cbn [length]; lia.
Qed.

(** ** Safety of the parser *)

Lemma safe_skip_timestamps bo `{!ByteOrderOk bo} k : safe (skip_timestamps bo k).
Proof. induction k; simpl; auto with go. Qed.

Lemma safe_parse_timestamps bo `{!ByteOrderOk bo} : safe (parse_timestamps bo).
Proof. unfold parse_timestamps. auto 6 using safe_skip_timestamps with go. Qed.

Lemma yields_header bo `{!ByteOrderOk bo} :
  yields (parse_header bo) (fun '(_, d, _, largest, _) => valid_pn_len d /\ 0 <= largest < 2 ^ 48).
Proof.
  unfold parse_header. eapply yields_bind; [auto with go|]. intros tb _.
  eapply yields_bind; [auto with go|]. intros pid _.
  eapply yields_bind; [apply yields_packet_number; auto with go|]. intros la Hla.
  eapply yields_bind; [auto with go|]. intros fl _. apply yields_ret. auto with go.
Qed.

Lemma yields_body bo `{!ByteOrderOk bo} missing d largest :
  valid_pn_len d -> 0 <= largest < 2 ^ 48 -> yields (parse_body bo missing d largest) acked_valid.
Proof.
  intros Hd Hl. unfold parse_body. apply (yields_bind _ _ (fun n => 0 <= n < 256));
    [apply yields_if; intros _; auto with go; apply yields_ret; lia|]. intros n Hn.
  apply yields_if; intros Eg; [auto with go|]. apply yields_acked; [done..|].
  intros ->. apply Z.eqb_neq in Eg. lia.
Qed.

Lemma ack_frame_parse_yields version : yields (ParseAckFrame version) (fun f => acked_valid (acked f)).
Proof.
  unfold ParseAckFrame. eapply yields_bind; [apply yields_header; apply _|].
  intros [[[[m d] pid] la] delay] [Hd Hla].
  eapply yields_bind; [apply yields_body; auto with go; apply _|]. intros a Ha.
  eapply yields_bind; [apply yields_safe, safe_parse_timestamps; apply _|]. auto with go.
Qed.

Lemma type_byte_kind l d missing hasPath :
  valid_pn_len l -> valid_pn_len d ->
  Z.land (u8 (type_byte l d missing hasPath)) 0xc0 = 0x40.
Proof.
  intros [-> | [-> | [-> | ->]]] [-> | [-> | [-> | ->]]]; destruct missing, hasPath; done.
Qed.

(** The frame on the wire: an ACK type byte, and everything comes back. *)
Lemma ack_frame_parses_back f version now :
  acked_wf (acked f) -> second_range_fits (acked f) -> 0 <= PathID f < 256 ->
  PacketReceivedTime f <= now ->
  exists tb out, (Write f version now).2 = wbytes (tb :: out) /\ Z.land tb 0xc0 = 0x40 /\
    forall r, ParseAckFrame version ((tb :: out) ++ r) = Ok (received f now, r).
Proof.
  intros Hwf Hfit Hpid Hnow.
  assert (0 <= time_sub now (PacketReceivedTime f) < 2 ^ 63) as Hdelay by (unfold time_sub; lia).
  eexists _, _. split_and!; [by apply ack_frame_write_bytes| |].
  { pose proof Hwf as (H1 & H2 & _). destruct (delta_len_fits _ Hwf) as (Hdv & _).
    destruct (GetPacketNumberLength_fits (LargestAcked (acked f))) as [Hv _]; [lia|].
    by apply type_byte_kind. }
  intros r. match goal with |- ParseAckFrame _ (?x ++ r) = _ =>
    change x with (header_bytes (GetByteOrder version) f (time_sub now (PacketReceivedTime f))
                   ++ body_bytes (GetByteOrder version) (acked f)) end.
  unfold ParseAckFrame. rewrite <- app_assoc.
  erewrite reader_bind_ok by (by apply parse_header_bytes). cbv beta iota.
  erewrite reader_bind_ok by (by apply parse_body_bytes).
  erewrite reader_bind_ok by apply parse_no_timestamps. done.
Qed.

(** [MinLength] is exact: the length the packet packer reserves is the number of
    bytes [Write] produces. *)
Lemma ack_frame_min_length f version now :
  acked_wf (acked f) -> second_range_fits (acked f) ->
  exists out, (Write f version now).2 = wbytes out /\ MinLength f = Z.of_nat (length out).
Proof.
  intros Hwf Hfit. eexists. split; [by apply ack_frame_write_bytes|].
  rewrite length_app, Nat2Z.inj_add, length_body_bytes by done.
  change (MinLength f) with
    (let length := u64 (u64 (1 + 2 + 1 + GetPacketNumberLength (LargestAcked (acked f)))
                        + blocks_length (acked f)) in
     if negb (PathID f =? InitialPathID) then u64 (length + 1) else length).
  pose proof Hwf as (H1 & H2 & _). destruct (blocks_length_spec _ Hwf) as [Hb _].
  destruct (GetPacketNumberLength_fits (LargestAcked (acked f))) as [Hv _]; [lia|].
  destruct (pn_len_nat _ Hv) as [El Hl8]. unfold header_bytes.
  rewrite !length_app, !enc_length. cbv zeta.
  destruct (negb (PathID f =? InitialPathID)); cbn [length];
    rewrite (u64_small (1 + 2 + 1 + _)) by lia.
  all: rewrite (u64_small (_ + blocks_length _)) by lia; rewrite ?u64_small by lia; lia.
Qed.

(** ** Properties *)

(** C36. An ACK frame survives the wire.  For every well-formed frame whose second range
    fits (otherwise see [ack_frame_long_gap_error]), [Write] succeeds, and parsing what it wrote consumes exactly these bytes and
    yields the same path, the same acknowledged packets (the highest ranges that fit
    into 255 blocks when there are too many), and the delay rounded to a float16. *)
Theorem ack_frame_roundtrip f version now r :
  acked_wf (acked f) -> second_range_fits (acked f) -> 0 <= PathID f < 256 ->
  PacketReceivedTime f <= now ->
  exists out, (Write f version now).2 = wbytes out /\
    ParseAckFrame version (out ++ r) = Ok (received f now, r).
Proof.
  intros Hwf Hfit Hpid Hnow.
  destruct (ack_frame_parses_back f version now Hwf Hfit Hpid Hnow) as (tb & out & Hw & _ & Hp). eauto.
Qed.

Definition sample : t :=
  Mk 3 (MkAcked 1000 10 [MkAckRange 900 1000; MkAckRange 300 310; MkAckRange 10 20]) 5000 0.

Lemma ack_frame_roundtrip_witness :
  exists out, (Write sample VersionMP 2005000).2 = wbytes out /\
    ParseAckFrame VersionMP (out ++ [7]) = Ok (received sample 2005000, [7]).
Proof.
  apply (ack_frame_roundtrip sample VersionMP 2005000 [7]); vm_compute; intuition congruence.
Defined.

(** Nothing an attacker sends can make the parser panic or accept nonsense: on any
    byte string [ParseAckFrame] returns a frame or an error, and an accepted frame
    acknowledges a strictly descending chain of disjoint, non-touching, non-empty
    ranges between [LowestAcked] and [LargestAcked], all below 2^48. *)
Theorem ack_frame_parser_sound version s :
  bytes_ok s ->
  ParseAckFrame version s <> Panic /\
  forall f s', ParseAckFrame version s = Ok (f, s') -> acked_valid (acked f) /\ bytes_ok s'.
Proof. revert s. apply ack_frame_parse_yields. Qed.

Lemma ack_frame_parser_sound_witness :
  bytes_ok [0x60; 9; 0; 0; 1; 3; 2; 2; 0] /\
  ParseAckFrame VersionMP [0x60; 9; 0; 0; 1; 3; 2; 2; 0] <> Panic.
Proof.
  split; [repeat constructor; lia|].
  apply (ack_frame_parser_sound VersionMP [0x60; 9; 0; 0; 1; 3; 2; 2; 0]). repeat constructor; lia.
Defined.

(** [AcksPacket] answers whether a packet number is in one of the frame's ranges. *)
Theorem ack_frame_acks_packet f p :
  acked_wf (acked f) -> AcksPacket (acked f) p = true <-> acked_numbers (acked f) p.
Proof. apply AcksPacket_spec. Qed.

(** A frame whose first gap is longer than 254 * 255 packets cannot be sent: [Write]
    reports an inconsistent number of ranges, although the frame is well formed. *)
Theorem ack_frame_long_gap_error f version now :
  acked_wf (acked f) -> second_range_lost (acked f) ->
  (Write f version now).2.2 = Err errInconsistentCount.
Proof.
  intros Hwf Hlost. destruct f as [pid a rt dt]. unfold Write. cbn [acked PathID PacketReceivedTime snd] in *.
  pose proof Hwf as (H1 & H2 & H3).
  destruct (GetPacketNumberLength_fits (LargestAcked a)) as [Hv Hl]; [lia|].
  destruct (delta_len_fits a Hwf) as (Hdv & Hdr & _).
  rewrite (writePacketNumber_spec _ mask48 ack_frame_mask48 _ Hv) by lia. unfold writeUfloat16. rewrite write16.
  destruct (write_acked_lost (GetByteOrder version) mask48 ack_frame_mask48 errInconsistentCount a Hwf Hlost)
    as [-> Hw].
  destruct (num_blocks_range a Hwf) as (Hn & En & _).
  rewrite (proj2 (Z.ltb_ge 255 _)) by (unfold second_range_lost, HasMissingRanges in *; 
    destruct (AckRanges a); [done|]; rewrite En by done; lia).
  unfold wseq at 5. destruct (write_acked _ _ _ _ _ _) as [out e]. cbn [snd] in Hw. subst e.
  by destruct (negb (pid =? InitialPathID)).
Qed.

Definition gap_sample : t :=
  Mk 0 (MkAcked 100000 1 [MkAckRange 100000 100000; MkAckRange 1 1]) 0 0.

Lemma ack_frame_long_gap_error_witness :
  (Write gap_sample Version39 0).2.2 = Err errInconsistentCount.
Proof. apply (ack_frame_long_gap_error gap_sample); vm_compute; intuition congruence. Defined.

Lemma ack_frame_acks_packet_witness :
  AcksPacket (acked sample) 305 = true <-> acked_numbers (acked sample) 305.
Proof. apply (ack_frame_acks_packet sample 305); vm_compute; intuition congruence. Defined.

End AckFrame.
