(* ===== verification/ClosePathFrame.v ===== *)
(** * The CLOSE_PATH frame

    Models [internal/wire/close_path_frame.go], the multipath frame that closes a path
    and carries its last acknowledgement.  It repeats the range handling of the ACK
    frame, so its methods are those of [AckRanges]; the layout differs: a type byte
    without flags, the path, a byte of flags, the number of blocks, the largest
    acknowledged packet, the blocks, and neither a delay nor timestamps. *)

From stdpp Require Import base numbers list option strings.
From S2P Require Import Prelude ByteOrder Protocol AckRanges.

Local Open Scope Z_scope.

Module ClosePathFrame.

Record t : Type := Mk {
  PathID : Z;
  acked : Acked;                (* LargestAcked, LowestAcked, AckRanges *)
}.

Definition errInconsistentCount : goerr :=
  GoErr "BUG: Inconsistent number of ACK ranges written in ClosePath".

(** ** Methods shared with the ACK frame *)

Definition HasMissingRanges (f : t) : bool := AckRanges.HasMissingRanges (acked f).
Definition validateAckRanges (f : t) : bool := AckRanges.validateAckRanges (acked f).
Definition getMissingSequenceNumberDeltaLen (f : t) : Z :=
  AckRanges.getMissingSequenceNumberDeltaLen (acked f).
Definition numWritableNackRanges (f : t) : Z := AckRanges.numWritableNackRanges (acked f).
Definition AcksPacket (f : t) (p : Z) : bool := AckRanges.AcksPacket (acked f) p.

(** ** Writing *)

(** Here a 6-byte number goes to [WriteUint48] unmasked. *)
Definition no_mask (v : Z) : Z := v.

Definition flags_byte (missing : bool) (largestAckedLen deltaLen : Z) : Z :=
  let flags := if missing then Z.lor 0 0x10 else 0 in
  let flags := if negb (largestAckedLen =? PacketNumberLen1)
               then Z.lxor flags (u8 (Z.shiftl (largestAckedLen / 2) 2)) else flags in
  if negb (deltaLen =? PacketNumberLen1) then Z.lxor flags (deltaLen / 2) else flags.

Definition Write (f : t) (version : Z) : writer :=
  let bo := GetByteOrder version in
  let largestAckedLen := GetPacketNumberLength (LargestAcked (acked f)) in
  let deltaLen := getMissingSequenceNumberDeltaLen f in
  let numRanges := if HasMissingRanges f then numWritableNackRanges f else 0 in
  WriteByte 0x11
  >;> WriteByte (PathID f)
  >;> WriteByte (flags_byte (HasMissingRanges f) largestAckedLen deltaLen)
  >;> (if HasMissingRanges f
       then if 255 <? numRanges then wpanic else WriteByte (u8 (numRanges - 1)) else wret)
  >;> writePacketNumber bo no_mask largestAckedLen (LargestAcked (acked f))
  >;> write_acked bo no_mask errInconsistentCount (acked f) deltaLen numRanges.

Definition MinLength (f : t) : Z :=
  let deltaLen := getMissingSequenceNumberDeltaLen f in
  let length := u64 (1 + 1 + 1 + GetPacketNumberLength (LargestAcked (acked f))) in
  u64 (length + (if HasMissingRanges f
                 then u64 ((1 + deltaLen) * numWritableNackRanges f) else deltaLen)).

(** ** Parsing *)

Definition ParseClosePathFrame (version : Z) : reader t :=
  let bo := GetByteOrder version in
  _ ← ReadByte;
  pathID ← ReadByte;
  flags ← ReadByte;
  let hasMissingRanges := Z.land flags 0x10 =? 0x10 in
  let largestAckedLen := len_of_bits (Z.shiftr (Z.land flags 0x0C) 2) in
  let deltaLen := len_of_bits (Z.land flags 0x03) in
  numAckBlocks ← (if hasMissingRanges then ReadByte else mret 0);
  if hasMissingRanges && (numAckBlocks =? 0) then throw ErrInvalidAckRanges else
  largestAcked ← ReadUintN bo largestAckedLen;
  a ← parse_acked bo hasMissingRanges numAckBlocks deltaLen largestAcked;
  mret (Mk pathID a).

(** ** Lemmas *)

Lemma flags_fields missing l d :
  valid_pn_len l -> valid_pn_len d ->
  let flags := u8 (flags_byte missing l d) in
  len_of_bits (Z.shiftr (Z.land flags 0x0C) 2) = l /\
  len_of_bits (Z.land flags 0x03) = d /\
  (Z.land flags 0x10 =? 0x10) = missing.
Proof.
  intros [-> | [-> | [-> | ->]]] [-> | [-> | [-> | ->]]]; destruct missing; vm_compute; auto.
Qed.

Lemma no_mask_id v : 0 <= v < 2 ^ 48 -> no_mask v = v.
Proof. done. Qed.

Definition frame_bytes (bo : ByteOrder) `{!ByteOrderOk bo} (f : t) : list Z :=
  let l := GetPacketNumberLength (LargestAcked (acked f)) in
  [0x11; u8 (PathID f);
   u8 (flags_byte (HasMissingRanges f) l (getMissingSequenceNumberDeltaLen f))]
  ++ (if HasMissingRanges f then [num_blocks (acked f)] else [])
  ++ enc (Z.to_nat l) (LargestAcked (acked f))
  ++ acked_bytes bo (acked f).

Lemma close_path_frame_write_bytes f version :
  acked_wf (acked f) -> second_range_fits (acked f) ->
  Write f version = wbytes (frame_bytes (GetByteOrder version) f).
Proof.
  intros Hwf Hfit. unfold Write, frame_bytes. pose proof Hwf as (H1 & H2 & _).
  destruct (GetPacketNumberLength_fits (LargestAcked (acked f))) as [Hv Hl]; [lia|].
  rewrite (writePacketNumber_spec _ no_mask no_mask_id _ Hv) by lia.
  unfold HasMissingRanges, getMissingSequenceNumberDeltaLen, numWritableNackRanges.
  rewrite (write_acked_bytes _ no_mask no_mask_id errInconsistentCount _ Hwf Hfit).
  destruct (num_blocks_range _ Hwf) as (Hn & En & _).
  destruct (AckRanges.HasMissingRanges (acked f)) eqn:E; [|done]. rewrite En by done.
  rewrite (proj2 (Z.ltb_ge _ _)), Z.add_simpl_r by lia. unfold WriteByte.
  by rewrite !(u8_small (num_blocks _)) by lia.
Qed.

Lemma close_path_frame_parse_yields version : yields (ParseClosePathFrame version) (fun f => acked_valid (acked f)).
Proof.
  unfold ParseClosePathFrame.
  eapply yields_bind; [auto with go|]. intros _ _.
  eapply yields_bind; [auto with go|]. intros pid _.
  eapply yields_bind; [auto with go|]. intros flags _.
  apply (yields_bind _ _ (fun n => 0 <= n < 256));
    [apply yields_if; intros _; auto with go; apply yields_ret; lia|]. intros n Hn.
  apply yields_if; intros Eg; [auto with go|].
  eapply yields_bind; [apply yields_packet_number; [apply _|auto with go]|]. intros la Hla.
  eapply yields_bind; [apply yields_acked; [apply _|auto with go|done|]|auto with go].
  intros E. rewrite E in Eg. apply Z.eqb_neq in Eg. lia.
Qed.

Lemma close_path_frame_parses_back f version :
  acked_wf (acked f) -> second_range_fits (acked f) -> 0 <= PathID f < 256 ->
  exists out, Write f version = wbytes (0x11 :: out) /\
    forall r, ParseClosePathFrame version ((0x11 :: out) ++ r)
              = Ok (Mk (PathID f) (truncate (acked f)), r).
Proof.
  intros Hwf Hfit Hpid. eexists. split; [by apply close_path_frame_write_bytes|]. intros r.
  match goal with |- ParseClosePathFrame _ (?x ++ r) = _ =>
    change x with (frame_bytes (GetByteOrder version) f) end.
  unfold frame_bytes, ParseClosePathFrame. rewrite <- !app_assoc.
  pose proof Hwf as (H1 & H2 & _). destruct (delta_len_fits _ Hwf) as (Hdv & _).
  destruct (GetPacketNumberLength_fits (LargestAcked (acked f))) as [Hv Hl]; [lia|].
  destruct (flags_fields (HasMissingRanges f) _ _ Hv Hdv) as (F1 & F2 & F3).
  do 3 erewrite reader_bind_ok by done.
  unfold getMissingSequenceNumberDeltaLen. rewrite F1, F2, F3, (u8_small (PathID f)) by lia.
  destruct (num_blocks_range _ Hwf) as (Hn & _ & Hpos).
  pose proof (parse_acked_bytes (GetByteOrder version) _ r Hwf Hfit) as Hacked.
  unfold HasMissingRanges in *.
  destruct (AckRanges.HasMissingRanges (acked f)) eqn:E.
  - erewrite reader_bind_ok by done.
    rewrite (proj2 (Z.eqb_neq _ 0)) by (specialize (Hpos eq_refl Hfit); lia). cbn [andb].
    erewrite reader_bind_ok by (apply read_packet_number; [done|lia]).
    by erewrite reader_bind_ok by exact Hacked.
  - erewrite reader_bind_ok by done. cbn [andb].
    erewrite reader_bind_ok by (apply read_packet_number; [done|lia]).
    assert (num_blocks (acked f) = 0) as E0.
    { unfold AckRanges.HasMissingRanges, num_blocks in *. by destruct (AckRanges (acked f)). }
    rewrite E0 in Hacked. by erewrite reader_bind_ok by exact Hacked.
Qed.

(** [MinLength] of a CLOSE_PATH frame is the number of bytes [Write] produces. *)
Lemma close_path_frame_min_length f version :
  acked_wf (acked f) -> second_range_fits (acked f) ->
  exists out, Write f version = wbytes out /\ MinLength f = Z.of_nat (length out).
Proof.
  intros Hwf Hfit. eexists. split; [by apply close_path_frame_write_bytes|].
  change (MinLength f) with
    (u64 (u64 (1 + 1 + 1 + GetPacketNumberLength (LargestAcked (acked f))) + blocks_length (acked f))).
  pose proof Hwf as (H1 & H2 & _). destruct (blocks_length_spec _ Hwf) as [Hb _].
  destruct (GetPacketNumberLength_fits (LargestAcked (acked f))) as [Hv _]; [lia|].
  destruct (pn_len_nat _ Hv) as [El Hl8]. pose proof (length_acked_bytes (GetByteOrder version) _ Hwf) as Hlen.
  unfold frame_bytes, HasMissingRanges in *. rewrite !length_app, !enc_length.
  rewrite (u64_small (1 + 1 + 1 + _)) by lia. rewrite u64_small by lia.
  destruct (AckRanges.HasMissingRanges (acked f)); cbn [length]; lia.
Qed.

(** ** Properties *)

(** A CLOSE_PATH frame survives the wire: what [Write] produces for a well-formed
    frame is parsed back to the same path and the same acknowledged packets (the highest
    ranges that fit into 255 blocks when there are too many), and nothing more is read. *)
Theorem close_path_roundtrip f version r :
  acked_wf (acked f) -> second_range_fits (acked f) -> 0 <= PathID f < 256 ->
  exists out, Write f version = wbytes out /\
    ParseClosePathFrame version (out ++ r) = Ok (Mk (PathID f) (truncate (acked f)), r).
Proof.
  intros Hwf Hfit Hpid. destruct (close_path_frame_parses_back f version Hwf Hfit Hpid) as (out & Hw & Hp). eauto.
Qed.

Definition sample : t :=
  Mk 2 (MkAcked 70000 7 [MkAckRange 69990 70000; MkAckRange 7 30000]).

Lemma close_path_roundtrip_witness :
  exists out, Write sample VersionMP = wbytes out /\
    ParseClosePathFrame VersionMP (out ++ [1; 2]) = Ok (Mk 2 (truncate (acked sample)), [1; 2]).
Proof. apply (close_path_roundtrip sample VersionMP [1; 2]); vm_compute; intuition congruence. Defined.

(** On any byte string the CLOSE_PATH parser returns a frame or an error, never
    panics, and an accepted frame acknowledges a descending chain of disjoint ranges. *)
Theorem close_path_parser_sound version s :
  bytes_ok s ->
  ParseClosePathFrame version s <> Panic /\
  forall f s', ParseClosePathFrame version s = Ok (f, s') -> acked_valid (acked f) /\ bytes_ok s'.
Proof. revert s. apply close_path_frame_parse_yields. Qed.

Lemma close_path_parser_sound_witness :
  bytes_ok [0x11; 1; 0x10; 1; 9; 3; 2; 2] /\
  ParseClosePathFrame VersionMP [0x11; 1; 0x10; 1; 9; 3; 2; 2] <> Panic.
Proof.
  split; [repeat constructor; lia|].
  apply (close_path_parser_sound VersionMP [0x11; 1; 0x10; 1; 9; 3; 2; 2]). repeat constructor; lia.
Defined.

End ClosePathFrame.
