(* ===== verification/StreamFrame.v ===== *)
(** * The STREAM frame

    Models [internal/wire/stream_frame.go]: [ParseStreamFrame], [Write],
    [calculateStreamIDLength], [getOffsetLength], [MinLength] and [DataLen]. *)

From stdpp Require Import base numbers list option strings.
From S2P Require Import Prelude ByteOrder Protocol.

Local Open Scope Z_scope.

Module StreamFrame.

Record t : Type := Mk {
  StreamID : Z;
  FinBit : bool;
  DataLenPresent : bool;
  Offset : Z;
  Data : list Z;
  Rcvpkttime : Z;
  Priority : bool;
}.

#[export] Instance t_eq_dec : EqDecision t.
Proof. solve_decision. Defined.

Definition errInvalidStreamIDLen : goerr := GoErr "StreamFrame: Invalid StreamID length".
Definition errInvalidOffsetLen : goerr := GoErr "StreamFrame: Invalid offset length".
Definition errEmptyNoFin : goerr :=
  GoErr "StreamFrame: attempting to write empty frame without FIN".

Definition DataLen (f : t) : Z := u64 (Z.of_nat (length (Data f))).

(** ** Parsing *)

Definition ParseStreamFrame (version : Z) : reader t :=
  let bo := GetByteOrder version in
  typeByte ← ReadByte;
  let finBit := 0 <? Z.land typeByte 0x40 in
  let dataLenPresent := 0 <? Z.land typeByte 0x20 in
  let offsetLen := Z.shiftr (Z.land typeByte 0x1c) 2 in
  let offsetLen := if negb (offsetLen =? 0) then u8 (offsetLen + 1) else offsetLen in
  let streamIDLen := u8 (Z.land typeByte 0x3 + 1) in
  sid ← ReadUintN bo streamIDLen;
  offset ← ReadUintN bo offsetLen;
  dataLen ← (if dataLenPresent then ReadUint16 bo else mret 0);
  if u16 MaxPacketSize <? dataLen then throw (QErr "InvalidStreamData" "data len too large") else
  dataLen ← (if negb dataLenPresent then n ← Len; mret (u16 n) else mret dataLen);
  data ← (if negb (dataLen =? 0) then ReadFull dataLen else mret []);
  let frame := Mk (u32 sid) finBit dataLenPresent offset data 0 false in
  if u64 (Offset frame + DataLen frame) <? Offset frame
  then throw (QErr "InvalidStreamData" "data overflows maximum offset") else
  if negb (FinBit frame) && (DataLen frame =? 0) then throw (QErr "EmptyStreamFrameNoFin" "")
  else mret frame.

(** ** Writing *)

Definition calculateStreamIDLength (f : t) : Z :=
  if StreamID f <? 2 ^ 8 then 1
  else if StreamID f <? 2 ^ 16 then 2
  else if StreamID f <? 2 ^ 24 then 3
  else 4.

Definition getOffsetLength (f : t) : Z :=
  if Offset f =? 0 then 0
  else if Offset f <? 2 ^ 16 then 2
  else if Offset f <? 2 ^ 24 then 3
  else if Offset f <? 2 ^ 32 then 4
  else if Offset f <? 2 ^ 40 then 5
  else if Offset f <? 2 ^ 48 then 6
  else if Offset f <? 2 ^ 56 then 7
  else 8.

Definition write_stream_id (bo : ByteOrder) (len id : Z) : writer :=
  if len =? 1 then WriteByte (u8 id)
  else if len =? 2 then WriteUint16 bo (u16 id)
  else if len =? 3 then WriteUint24 bo (u32 id)
  else if len =? 4 then WriteUint32 bo (u32 id)
  else wfail errInvalidStreamIDLen.

Definition write_offset (bo : ByteOrder) (len off : Z) : writer :=
  if len =? 0 then wret
  else if len =? 2 then WriteUint16 bo (u16 off)
  else if len =? 3 then WriteUint24 bo (u32 off)
  else if len =? 4 then WriteUint32 bo (u32 off)
  else if len =? 5 then WriteUint40 bo off
  else if len =? 6 then WriteUint48 bo off
  else if len =? 7 then WriteUint56 bo off
  else if len =? 8 then WriteUint64 bo off
  else wfail errInvalidOffsetLen.

Definition type_byte (fin present : bool) (offsetLength streamIDLen : Z) : Z :=
  let tb := 0x80 in
  let tb := if fin then Z.lxor tb 0x40 else tb in
  let tb := if present then Z.lxor tb 0x20 else tb in
  let tb := if 0 <? offsetLength
            then Z.lxor tb (u8 (Z.shiftl (u8 (u8 offsetLength - 1)) 2)) else tb in
  Z.lxor tb (u8 (streamIDLen - 1)).

Definition Write (f : t) (version : Z) : writer :=
  let bo := GetByteOrder version in
  if (Z.of_nat (length (Data f)) =? 0) && negb (FinBit f) then wfail errEmptyNoFin else
  WriteByte (type_byte (FinBit f) (DataLenPresent f) (getOffsetLength f) (calculateStreamIDLength f))
  >;> write_stream_id bo (calculateStreamIDLength f) (StreamID f)
  >;> write_offset bo (getOffsetLength f) (Offset f)
  >;> (if DataLenPresent f then WriteUint16 bo (u16 (Z.of_nat (length (Data f)))) else wret)
  >;> wbytes (Data f).

(** The length of the header; the whole frame has [MinLength + DataLen] bytes. *)
Definition MinLength (f : t) : Z :=
  let length := u64 (u64 (1 + calculateStreamIDLength f) + getOffsetLength f) in
  if DataLenPresent f then u64 (length + 2) else length.

(** ** Lemmas *)

(** The lengths the type byte can express. *)
Definition valid_id_len (l : Z) : Prop := l = 1 \/ l = 2 \/ l = 3 \/ l = 4.
Definition valid_offset_len (l : Z) : Prop :=
  l = 0 \/ l = 2 \/ l = 3 \/ l = 4 \/ l = 5 \/ l = 6 \/ l = 7 \/ l = 8.

Lemma stream_id_len f :
  0 <= StreamID f < 2 ^ 32 ->
  valid_id_len (calculateStreamIDLength f) /\ StreamID f < 2 ^ (8 * calculateStreamIDLength f).
Proof.
  intros H. unfold calculateStreamIDLength, valid_id_len. repeat case_match;
    rewrite ?Z.ltb_lt, ?Z.ltb_ge in *; (split; [lia|simpl; lia]).
Qed.

Lemma offset_len f :
  0 <= Offset f < 2 ^ 64 ->
  valid_offset_len (getOffsetLength f) /\ Offset f < 2 ^ (8 * getOffsetLength f).
Proof.
  intros H. unfold getOffsetLength, valid_offset_len. repeat case_match;
    rewrite ?Z.eqb_eq, ?Z.eqb_neq, ?Z.ltb_lt, ?Z.ltb_ge in *; (split; [lia|simpl; lia]).
Qed.

(** The type byte carries both flags and both lengths. *)
Lemma stream_frame_type_byte fin present ol sl :
  valid_offset_len ol -> valid_id_len sl ->
  let tb := u8 (type_byte fin present ol sl) in
  let o := Z.shiftr (Z.land tb 0x1c) 2 in
  (0 <? Z.land tb 0x40) = fin /\ (0 <? Z.land tb 0x20) = present /\
  (if negb (o =? 0) then u8 (o + 1) else o) = ol /\ u8 (Z.land tb 0x3 + 1) = sl /\
  Z.land tb 0x80 = 0x80 /\ tb <> 0.
Proof.
  intros Ho Hs. unfold valid_offset_len, valid_id_len in *.
  destruct fin, present; intuition subst; done.
Qed.

Definition offset_len_of (tb : Z) : Z :=
  let o := Z.shiftr (Z.land tb 0x1c) 2 in if negb (o =? 0) then u8 (o + 1) else o.

Lemma land_ones_range x k : 0 <= k -> 0 <= Z.land x (Z.ones k) < 2 ^ k.
Proof. intros. rewrite Z.land_ones by lia. apply Z.mod_pos_bound. lia. Qed.

Lemma type_byte_lens tb : 0 <= u8 (Z.land tb 0x3 + 1) <= 8 /\ 0 <= offset_len_of tb <= 8.
Proof.
  pose proof (land_ones_range tb 2 ltac:(lia)) as H1.
  pose proof (land_ones_range (Z.shiftr tb 2) 3 ltac:(lia)) as H2.
  unfold offset_len_of. rewrite Z.shiftr_land. change (Z.shiftr 0x1c 2) with (Z.ones 3).
  change (Z.land tb 3) with (Z.land tb (Z.ones 2)). set (o := Z.land (Z.shiftr tb 2) (Z.ones 3)) in *.
  destruct (Z.eqb_spec o 0); cbn [negb]; rewrite ?u8_small by lia; lia.
Qed.

Section Bytes.
Context (bo : ByteOrder) `{!ByteOrderOk bo}.

Lemma write_stream_id_spec l id :
  valid_id_len l -> 0 <= id < 2 ^ (8 * l) ->
  write_stream_id bo l id = wbytes (enc (Z.to_nat l) id).
Proof.
  intros [-> | [-> | [-> | ->]]] H; simpl in H |- *.
  - unfold write_stream_id, WriteByte. simpl. rewrite enc_one. unfold u8. by rewrite wrap_wrap by lia.
  - unfold write_stream_id. simpl. by rewrite write16, u16_small by lia.
  - unfold write_stream_id. simpl. rewrite write24, u32_small by lia.
    by destruct (Z.leb_spec (2 ^ 24) id); [lia|].
  - unfold write_stream_id. simpl. by rewrite write32, u32_small by lia.
Qed.

Lemma enc_zero v : enc 0 v = [].
Proof. apply nil_length_inv, enc_length. Qed.

Lemma write_offset_spec l off :
  valid_offset_len l -> 0 <= off < 2 ^ (8 * l) ->
  write_offset bo l off = wbytes (enc (Z.to_nat l) off).
Proof.
  intros [-> | [-> | [-> | [-> | [-> | [-> | [-> | ->]]]]]]] H; simpl in H |- *;
    unfold write_offset; simpl.
  - by rewrite enc_zero.
  - by rewrite write16, u16_small by lia.
  - rewrite write24, u32_small by lia. by destruct (Z.leb_spec (2 ^ 24) off); [lia|].
  - by rewrite write32, u32_small by lia.
  - rewrite write40. by destruct (Z.leb_spec (2 ^ 40) off); [lia|].
  - rewrite write48. by destruct (Z.leb_spec (2 ^ 48) off); [lia|].
  - rewrite write56. by destruct (Z.leb_spec (2 ^ 56) off); [lia|].
  - by rewrite write64.
Qed.

(** The header [Write] produces. *)
Definition header_bytes (f : t) : list Z :=
  [u8 (type_byte (FinBit f) (DataLenPresent f) (getOffsetLength f) (calculateStreamIDLength f))]
  ++ enc (Z.to_nat (calculateStreamIDLength f)) (StreamID f)
  ++ enc (Z.to_nat (getOffsetLength f)) (Offset f)
  ++ (if DataLenPresent f then enc 2 (u16 (Z.of_nat (length (Data f)))) else []).
End Bytes.

(** A frame [Write] accepts. *)
Definition writable (f : t) : Prop :=
  0 <= StreamID f < 2 ^ 32 /\ 0 <= Offset f < 2 ^ 64 /\ (Data f <> [] \/ FinBit f = true).

(** The data ends at a representable offset and its length can be recovered: it is
    written, or nothing follows the frame. *)
Definition sendable (f : t) (r : list Z) : Prop :=
  writable f /\ Offset f + Z.of_nat (length (Data f)) < 2 ^ 64 /\
  if DataLenPresent f then Z.of_nat (length (Data f)) <= MaxPacketSize
  else r = [] /\ Z.of_nat (length (Data f)) < 2 ^ 16.

Lemma stream_frame_write_bytes f version :
  writable f -> Write f version = wbytes (header_bytes (GetByteOrder version) f ++ Data f).
Proof.
  intros (Hid & Hoff & Hne). unfold Write, header_bytes.
  destruct (stream_id_len f Hid) as [Hl Hl']. destruct (offset_len f Hoff) as [Ho Ho'].
  rewrite (proj2 (andb_false_iff _ _)).
  2: { destruct Hne as [Hne| ->]; [|by right]. left. apply Z.eqb_neq. destruct (Data f); [done|simpl; lia]. }
  rewrite (write_stream_id_spec (GetByteOrder version)), (write_offset_spec (GetByteOrder version))
    by (done || lia).
  rewrite <- !app_assoc. destruct (DataLenPresent f); [by rewrite write16|done].
Qed.

(** What the parser guarantees about a frame it accepts. *)
Definition accepted (f : t) : Prop :=
  writable f /\ Offset f + Z.of_nat (length (Data f)) < 2 ^ 64 /\ bytes_ok (Data f) /\
  (DataLenPresent f = true -> Z.of_nat (length (Data f)) <= MaxPacketSize).

Lemma stream_frame_parse_yields version : yields (ParseStreamFrame version) accepted.
Proof.
  unfold ParseStreamFrame. eapply yields_bind; [apply yields_ReadByte|]. intros tb Htb.
  destruct (type_byte_lens tb) as [Hsl Hol]. cbv zeta.
  change (if negb (Z.shiftr (Z.land tb 28) 2 =? 0) then _ else _) with (offset_len_of tb).
  eapply yields_bind; [apply yields_uint; [apply _|lia]|]. intros sid Hsid.
  eapply yields_bind; [apply yields_uint; [apply _|lia]|]. intros off Hoff.
  apply (yields_bind _ _ (fun n => 0 <= n < 2 ^ 16)).
  { apply yields_if; intros _; [auto with go|apply yields_ret; lia]. }
  intros n Hn. apply yields_if; intros En; [auto with go|].
  rewrite u16_small in En by (unfold MaxPacketSize; lia). apply Z.ltb_ge in En.
  apply (yields_bind _ _ (fun m => 0 <= m < 2 ^ 16 /\ ((0 <? Z.land tb 0x20) = true -> m = n))).
  { apply yields_if; intros E; [|apply yields_ret; done].
    apply negb_true_iff in E. rewrite E. eapply yields_bind; [apply yields_safe, safe_Len|].
    intros l _. apply yields_ret. split; [apply wrap_range; lia|done]. }
  intros m [Hm Hmn]. apply (yields_bind _ _ (fun bs => Z.of_nat (length bs) = m /\ bytes_ok bs)).
  { apply yields_if; intros E; [apply yields_ReadFull; lia|].
    apply negb_false_iff, Z.eqb_eq in E. apply yields_ret. split; [simpl; lia|constructor]. }
  intros data [Hd Hdb]. unfold DataLen. cbn [Offset Data FinBit]. rewrite Hd, (u64_small m) by lia.
  assert (2 ^ (8 * offset_len_of tb) <= 2 ^ 64) by (apply Z.pow_le_mono_r; lia).
  apply yields_if; intros E1; [auto with go|]. apply yields_if; intros E2; [auto with go|].
  apply yields_ret. unfold accepted, writable. simpl in Hoff. cbn [StreamID Offset Data FinBit DataLenPresent].
  apply Z.ltb_ge in E1. rewrite Hd. split_and!; try done.
  - apply wrap_range. lia.
  - apply wrap_range. lia.
  - lia.
  - lia.
  - destruct (0 <? Z.land tb 0x40); [by right|left]. apply Z.eqb_neq in E2.
    intros ->. simpl in Hd. lia.
  - destruct (Z.lt_ge_cases (off + m) (2 ^ 64)); [done|]. exfalso.
    replace (u64 (off + m)) with (off + m - 2 ^ 64) in E1 by (clear - H0 H Hoff Hm; word). lia.
  - intros E%Hmn. lia.
Qed.

(** The frame the peer sees; two fields are not sent. *)
Definition received (f : t) : t :=
  Mk (StreamID f) (FinBit f) (DataLenPresent f) (Offset f) (Data f) 0 false.

Lemma stream_frame_parses_back f version r :
  sendable f r ->
  exists tb out, Write f version = wbytes (tb :: out) /\ Z.land tb 0x80 = 0x80 /\
    ParseStreamFrame version ((tb :: out) ++ r) = Ok (received f, r).
Proof.
  intros (Hw & Hov & Hlen). eexists _, _. split_and!; [by apply stream_frame_write_bytes| |].
  { pose proof Hw as (Hid & Hoff & _). destruct (stream_id_len f Hid) as [Hl _].
    destruct (offset_len f Hoff) as [Ho _].
    by destruct (stream_frame_type_byte (FinBit f) (DataLenPresent f) _ _ Ho Hl) as (_ & _ & _ & _ & ? & _). }
  match goal with |- ParseStreamFrame _ (?x ++ r) = _ =>
    change x with (header_bytes (GetByteOrder version) f ++ Data f) end.
  pose proof Hw as (Hid & Hoff & Hne). set (bo := GetByteOrder version).
  destruct (stream_id_len f Hid) as [Hl Hl']. destruct (offset_len f Hoff) as [Ho Ho'].
  destruct (stream_frame_type_byte (FinBit f) (DataLenPresent f) _ _ Ho Hl) as (F1 & F2 & F3 & F4 & _).
  unfold header_bytes, ParseStreamFrame. fold bo. rewrite <- !app_assoc.
  erewrite reader_bind_ok by done. rewrite F1, F2, F3, F4.
  erewrite reader_bind_ok by (apply read_uint; [destruct Hl as [-> | [-> | [-> | ->]]]; lia|lia]).
  erewrite reader_bind_ok by (apply read_uint; [clear - Ho; unfold valid_offset_len in Ho; lia|lia]).
  rewrite (u32_small (StreamID f)) by lia.
  set (n := Z.of_nat (length (Data f))) in *.
  assert (forall s, (if negb (n =? 0) then ReadFull n else mret []) (Data f ++ s) = Ok (Data f, s))
    as Hdata.
  { intros s. destruct (Z.eqb_spec n 0) as [E|_]; [|apply ReadFull_app].
    destruct (Data f); [done|]. subst n. simpl in E. lia. }
  assert ((u64 (Offset f + u64 n) <? Offset f) = false) as Hchk1
    by (rewrite (u64_small n), u64_small by lia; apply Z.ltb_ge; lia).
  assert (negb (FinBit f) && (u64 n =? 0) = false) as Hchk2.
  { rewrite u64_small by lia. apply andb_false_iff. destruct Hne as [Hne| ->]; [right|by left].
    apply Z.eqb_neq. subst n. destruct (Data f); [done|simpl; lia]. }
  unfold received. destruct (DataLenPresent f).
  - rewrite (u16_small n) by (unfold MaxPacketSize in *; lia).
    erewrite reader_bind_ok by (apply read16_enc; unfold MaxPacketSize in *; lia).
    rewrite u16_small, (proj2 (Z.ltb_ge _ _)) by (unfold MaxPacketSize in *; lia).
    erewrite reader_bind_ok by done. erewrite reader_bind_ok by apply Hdata.
    unfold DataLen. cbn [Offset Data FinBit]. fold n. by rewrite Hchk1, Hchk2.
  - destruct Hlen as [-> Hlen]. erewrite reader_bind_ok by done. rewrite (proj2 (Z.ltb_ge _ _)) by done.
    erewrite reader_bind_ok.
    2: { cbn [negb]. erewrite reader_bind_ok by done. rewrite app_nil_l, app_nil_r. fold n.
         by rewrite (u16_small n) by lia. }
    specialize (Hdata []). rewrite app_nil_r in Hdata.
    erewrite reader_bind_ok by exact Hdata.
    unfold DataLen. cbn [Offset Data FinBit]. fold n. by rewrite Hchk1, Hchk2.
Qed.

(** The header length [MinLength] announces plus the data is the size of the frame. *)
Lemma stream_frame_min_length f version :
  writable f ->
  exists out, Write f version = wbytes out /\
    Z.of_nat (length out) = MinLength f + Z.of_nat (length (Data f)).
Proof.
  intros Hw. eexists. split; [by apply stream_frame_write_bytes|]. pose proof Hw as (Hid & Hoff & _).
  destruct (stream_id_len f Hid) as [Hl _]. destruct (offset_len f Hoff) as [Ho _].
  unfold MinLength, header_bytes, valid_id_len, valid_offset_len in *.
  rewrite !length_app, !enc_length.
  rewrite (u64_small (1 + _)) by lia. rewrite (u64_small (_ + getOffsetLength f)) by lia.
  destruct (DataLenPresent f); rewrite ?enc_length, ?u64_small by lia; cbn [length]; lia.
Qed.

(** ** Properties *)

(** A STREAM frame survives the wire: what [Write] produces is parsed back to the
    same stream, offset, FIN bit and data, and exactly the frame is consumed.  A frame
    without a data length must be the last one of its packet. *)
Theorem stream_frame_roundtrip f version r :
  sendable f r ->
  exists out, Write f version = wbytes out /\
    ParseStreamFrame version (out ++ r) = Ok (received f, r).
Proof. intros H. destruct (stream_frame_parses_back f version r H) as (tb & out & Hw & _ & Hp). eauto. Qed.

Definition sample : t := Mk 70000 true true 123456789 [1; 2; 3] 0 false.

Lemma stream_frame_roundtrip_witness :
  exists out, Write sample VersionMP = wbytes out /\
    ParseStreamFrame VersionMP (out ++ [9]) = Ok (sample, [9]).
Proof.
  apply (stream_frame_roundtrip sample VersionMP [9]).
  vm_compute. intuition congruence.
Defined.

(** The parser never panics, and every frame it accepts carries data or a FIN, at
    most a packet of data when the length is explicit, and ends below 2^64. *)
Theorem stream_frame_parser_sound version s :
  bytes_ok s ->
  ParseStreamFrame version s <> Panic /\
  forall f s', ParseStreamFrame version s = Ok (f, s') -> accepted f /\ bytes_ok s'.
Proof. revert s. apply stream_frame_parse_yields. Qed.

Lemma stream_frame_parser_sound_witness :
  bytes_ok [0xc0; 5; 1; 2] /\ ParseStreamFrame VersionMP [0xc0; 5; 1; 2] <> Panic.
Proof.
  split; [repeat constructor; lia|].
  apply (stream_frame_parser_sound VersionMP [0xc0; 5; 1; 2]). repeat constructor; lia.
Defined.

End StreamFrame.
