(* ===== verification/ControlFrames.v ===== *)
(** * Control frames

    Models the small frames of [internal/wire]: RST_STREAM, BLOCKED, WINDOW_UPDATE,
    GOAWAY, CONNECTION_CLOSE, STOP_WAITING, PING and the multipath frames ADD_ADDRESS
    and PATHS.  Each module has the frame's fields, [Write], the parser and
    [MinLength], the bytes [Write] produces and that the parser recovers the frame. *)

From stdpp Require Import base numbers list option strings.
From S2P Require Import Prelude ByteOrder Protocol AckRanges.

Local Open Scope Z_scope.

(** A [uint32] and the like. *)
Definition is_u (w x : Z) : bool := (0 <=? x) && (x <? 2 ^ w).

Lemma is_u_range w x : is_u w x = true <-> 0 <= x < 2 ^ w.
Proof. unfold is_u. rewrite andb_true_iff, Z.leb_le, Z.ltb_lt. done. Qed.

(** Rewrites one successful read at the head of a parser. *)
Ltac read_step := erewrite reader_bind_ok
  by first [done | apply read16_enc; lia | apply read32_enc; lia | apply read64_enc; lia].

(** Turns a sequence of successful writes into the bytes written. *)
Ltac write_bytes := unfold WriteByte; rewrite ?wseq_wbytes_wbytes.

(** ** RST_STREAM *)
Module RstStreamFrame.
Record t : Type := Mk { StreamID : Z; ErrorCode : Z; ByteOffset : Z }.

Definition Write (f : t) (version : Z) : writer :=
  let bo := GetByteOrder version in
  WriteByte 0x01 >;> WriteUint32 bo (u32 (StreamID f)) >;> WriteUint64 bo (ByteOffset f)
  >;> WriteUint32 bo (ErrorCode f).

Definition MinLength (f : t) : Z := 1 + 4 + 8 + 4.

Definition ParseRstStreamFrame (version : Z) : reader t :=
  let bo := GetByteOrder version in
  _ ← ReadByte;
  sid ← ReadUint32 bo;
  byteOffset ← ReadUint64 bo;
  errorCode ← ReadUint32 bo;
  mret (Mk sid errorCode byteOffset).

Definition valid (f : t) : Prop :=
  0 <= StreamID f < 2 ^ 32 /\ 0 <= ErrorCode f < 2 ^ 32 /\ 0 <= ByteOffset f < 2 ^ 64.

Lemma rst_stream_parses_back f version :
  valid f -> exists out, Write f version = wbytes (0x01 :: out) /\
    MinLength f = Z.of_nat (length (0x01 :: out)) /\
    forall r, ParseRstStreamFrame version ((0x01 :: out) ++ r) = Ok (f, r).
Proof.
  intros (H1 & H2 & H3). unfold Write. rewrite !write32, write64, (u32_small (StreamID f)) by lia.
  write_bytes. eexists. split_and!; [done|cbn [length]; rewrite !length_app, !enc_length; done|].
  intros r. rewrite <- app_comm_cons, <- !app_assoc. unfold ParseRstStreamFrame.
  do 4 read_step. by destruct f.
Qed.
End RstStreamFrame.

(** ** BLOCKED *)
Module BlockedFrame.
Record t : Type := Mk { StreamID : Z }.

Definition Write (f : t) (version : Z) : writer :=
  let bo := GetByteOrder version in WriteByte 0x05 >;> WriteUint32 bo (u32 (StreamID f)).

Definition MinLength (f : t) : Z := 1 + 4.

Definition ParseBlockedFrame (version : Z) : reader t :=
  let bo := GetByteOrder version in
  _ ← ReadByte; sid ← ReadUint32 bo; mret (Mk sid).

Definition valid (f : t) : Prop := 0 <= StreamID f < 2 ^ 32.

Lemma blocked_parses_back f version :
  valid f -> exists out, Write f version = wbytes (0x05 :: out) /\
    MinLength f = Z.of_nat (length (0x05 :: out)) /\
    forall r, ParseBlockedFrame version ((0x05 :: out) ++ r) = Ok (f, r).
Proof.
  unfold valid. intros H. unfold Write. rewrite write32, (u32_small (StreamID f)) by lia.
  write_bytes. eexists. split_and!; [done|cbn [length]; by rewrite enc_length|].
  intros r. rewrite <- app_comm_cons. unfold ParseBlockedFrame. do 2 read_step. by destruct f.
Qed.
End BlockedFrame.

(** ** WINDOW_UPDATE *)
Module WindowUpdateFrame.
Record t : Type := Mk { StreamID : Z; ByteOffset : Z }.

Definition Write (f : t) (version : Z) : writer :=
  let bo := GetByteOrder version in
  WriteByte 0x4 >;> WriteUint32 bo (u32 (StreamID f)) >;> WriteUint64 bo (ByteOffset f).

Definition MinLength (f : t) : Z := 1 + 4 + 8.

Definition ParseWindowUpdateFrame (version : Z) : reader t :=
  let bo := GetByteOrder version in
  _ ← ReadByte; sid ← ReadUint32 bo; byteOffset ← ReadUint64 bo; mret (Mk sid byteOffset).

Definition valid (f : t) : Prop := 0 <= StreamID f < 2 ^ 32 /\ 0 <= ByteOffset f < 2 ^ 64.

Lemma window_update_parses_back f version :
  valid f -> exists out, Write f version = wbytes (0x04 :: out) /\
    MinLength f = Z.of_nat (length (0x04 :: out)) /\
    forall r, ParseWindowUpdateFrame version ((0x04 :: out) ++ r) = Ok (f, r).
Proof.
  intros (H1 & H2). unfold Write. rewrite write32, write64, (u32_small (StreamID f)) by lia.
  write_bytes. eexists. split_and!; [done|cbn [length]; rewrite !length_app, !enc_length; done|].
  intros r. rewrite <- app_comm_cons, <- !app_assoc. unfold ParseWindowUpdateFrame.
  do 3 read_step. by destruct f.
Qed.
End WindowUpdateFrame.

(** ** GOAWAY *)
Module GoawayFrame.
Record t : Type := Mk { ErrorCode : Z; LastGoodStream : Z; ReasonPhrase : list Z }.

Definition ParseGoawayFrame (version : Z) : reader t :=
  let bo := GetByteOrder version in
  _ ← ReadByte;
  errorCode ← ReadUint32 bo;
  lastGoodStream ← ReadUint32 bo;
  reasonPhraseLen ← ReadUint16 bo;
  if u16 MaxPacketSize <? reasonPhraseLen
  then throw (QErr "InvalidGoawayData" "reason phrase too long") else
  reasonPhrase ← ReadFull reasonPhraseLen;
  mret (Mk errorCode lastGoodStream reasonPhrase).

Definition Write (f : t) (version : Z) : writer :=
  let bo := GetByteOrder version in
  WriteByte 0x03 >;> WriteUint32 bo (u32 (ErrorCode f)) >;> WriteUint32 bo (u32 (LastGoodStream f))
  >;> WriteUint16 bo (u16 (Z.of_nat (length (ReasonPhrase f)))) >;> wbytes (ReasonPhrase f).

Definition MinLength (f : t) : Z := u64 (1 + 4 + 4 + 2 + Z.of_nat (length (ReasonPhrase f))).

Definition valid (f : t) : Prop :=
  0 <= ErrorCode f < 2 ^ 32 /\ 0 <= LastGoodStream f < 2 ^ 32 /\
  Z.of_nat (length (ReasonPhrase f)) <= MaxPacketSize.

Lemma goaway_parses_back f version :
  valid f -> exists out, Write f version = wbytes (0x03 :: out) /\
    MinLength f = Z.of_nat (length (0x03 :: out)) /\
    forall r, ParseGoawayFrame version ((0x03 :: out) ++ r) = Ok (f, r).
Proof.
  intros (H1 & H2 & H3). unfold Write, MaxPacketSize in *.
  rewrite !write32, write16, (u32_small (ErrorCode f)), (u32_small (LastGoodStream f)), u16_small by lia.
  write_bytes. eexists. split_and!; [done| |].
  { cbn [length]. unfold MinLength. rewrite !length_app, !enc_length, u64_small by lia. lia. }
  intros r. rewrite <- app_comm_cons, <- !app_assoc. unfold ParseGoawayFrame. do 4 read_step.
  rewrite u16_small, (proj2 (Z.ltb_ge _ _)) by (unfold MaxPacketSize; lia).
  erewrite reader_bind_ok by apply ReadFull_app. by destruct f.
Qed.
End GoawayFrame.

(** ** CONNECTION_CLOSE *)
Module ConnectionCloseFrame.
Record t : Type := Mk { ErrorCode : Z; ReasonPhrase : list Z }.

Definition ParseConnectionCloseFrame (version : Z) : reader t :=
  let bo := GetByteOrder version in
  _ ← ReadByte;
  errorCode ← ReadUint32 bo;
  reasonPhraseLen ← ReadUint16 bo;
  if u16 MaxPacketSize <? reasonPhraseLen
  then throw (QErr "InvalidConnectionCloseData" "reason phrase too long") else
  reasonPhrase ← ReadFull reasonPhraseLen;
  mret (Mk errorCode reasonPhrase).

Definition MinLength (f : t) : Z := u64 (1 + 4 + 2 + Z.of_nat (length (ReasonPhrase f))).

Definition Write (f : t) (version : Z) : writer :=
  let bo := GetByteOrder version in
  WriteByte 0x02 >;> WriteUint32 bo (u32 (ErrorCode f))
  >;> (if 65535 <? Z.of_nat (length (ReasonPhrase f))
       then wfail (GoErr "ConnectionFrame: ReasonPhrase too long")
       else WriteUint16 bo (u16 (Z.of_nat (length (ReasonPhrase f)))) >;> wbytes (ReasonPhrase f)).

Definition valid (f : t) : Prop :=
  0 <= ErrorCode f < 2 ^ 32 /\ Z.of_nat (length (ReasonPhrase f)) <= MaxPacketSize.

Lemma connection_close_parses_back f version :
  valid f -> exists out, Write f version = wbytes (0x02 :: out) /\
    MinLength f = Z.of_nat (length (0x02 :: out)) /\
    forall r, ParseConnectionCloseFrame version ((0x02 :: out) ++ r) = Ok (f, r).
Proof.
  intros (H1 & H3). unfold Write, MaxPacketSize in *. rewrite (proj2 (Z.ltb_ge _ _)) by lia.
  rewrite !write32, write16, (u32_small (ErrorCode f)), u16_small by lia.
  write_bytes. eexists. split_and!; [done| |].
  { cbn [length]. unfold MinLength. rewrite !length_app, !enc_length, u64_small by lia. lia. }
  intros r. rewrite <- app_comm_cons, <- !app_assoc. unfold ParseConnectionCloseFrame. do 3 read_step.
  rewrite u16_small, (proj2 (Z.ltb_ge _ _)) by (unfold MaxPacketSize; lia).
  erewrite reader_bind_ok by apply ReadFull_app. by destruct f.
Qed.
End ConnectionCloseFrame.

(** ** STOP_WAITING *)
Module StopWaitingFrame.
Record t : Type := Mk { LeastUnacked : Z; PacketNumberLen : Z; PacketNumber : Z }.

Definition errLeastUnackedHigherThanPacketNumber : goerr :=
  GoErr "StopWaitingFrame: LeastUnacked can't be greater than the packet number".
Definition errPacketNumberNotSet : goerr := GoErr "StopWaitingFrame: PacketNumber not set".
Definition errPacketNumberLenNotSet : goerr := GoErr "StopWaitingFrame: PacketNumberLen not set".

Definition Write (f : t) (version : Z) : writer :=
  let bo := GetByteOrder version in
  if PacketNumber f =? 0 then wfail errPacketNumberNotSet else
  if PacketNumber f <? LeastUnacked f then wfail errLeastUnackedHigherThanPacketNumber else
  let leastUnackedDelta := u64 (PacketNumber f - LeastUnacked f) in
  WriteByte 0x06
  >;> (if PacketNumberLen f =? PacketNumberLen1 then WriteByte (u8 leastUnackedDelta)
       else if PacketNumberLen f =? PacketNumberLen2 then WriteUint16 bo (u16 leastUnackedDelta)
       else if PacketNumberLen f =? PacketNumberLen4 then WriteUint32 bo (u32 leastUnackedDelta)
       else if PacketNumberLen f =? PacketNumberLen6
       then WriteUint48 bo (Z.land leastUnackedDelta (2 ^ 48 - 1))
       else wfail errPacketNumberLenNotSet).

Definition MinLength (f : t) : res Z :=
  let minLength := 1 in
  if PacketNumberLen f =? 0 then Err errPacketNumberLenNotSet
  else Ok (u64 (minLength + PacketNumberLen f)).

Definition ParseStopWaitingFrame (packetNumber packetNumberLen version : Z) : reader t :=
  let bo := GetByteOrder version in
  _ ← ReadByte;
  leastUnackedDelta ← ReadUintN bo packetNumberLen;
  if packetNumber <=? leastUnackedDelta
  then throw (QErr "InvalidStopWaitingData" "invalid LeastUnackedDelta")
  else mret (Mk (u64 (packetNumber - leastUnackedDelta)) 0 0).

(** The least unacknowledged packet is not beyond this one, and the difference fits
    into the packet number length of the header. *)
Definition valid (f : t) : Prop :=
  1 <= LeastUnacked f <= PacketNumber f /\ PacketNumber f < 2 ^ 64 /\
  valid_pn_len (PacketNumberLen f) /\
  PacketNumber f - LeastUnacked f < 2 ^ (8 * PacketNumberLen f).

Definition mask48 (v : Z) : Z := Z.land v (2 ^ 48 - 1).
Lemma stop_waiting_mask48 v : 0 <= v < 2 ^ 48 -> mask48 v = v.
Proof.
  intros. unfold mask48. change (2 ^ 48 - 1) with (Z.ones 48). rewrite Z.land_ones by lia.
  by apply Z.mod_small.
Qed.

Lemma stop_waiting_parses_back f version :
  valid f -> exists out, Write f version = wbytes (0x06 :: out) /\
    MinLength f = Ok (Z.of_nat (length (0x06 :: out))) /\
    forall r, ParseStopWaitingFrame (PacketNumber f) (PacketNumberLen f) version ((0x06 :: out) ++ r)
              = Ok (Mk (LeastUnacked f) 0 0, r).
Proof.
  intros (H1 & H2 & H3 & H4). set (d := PacketNumber f - LeastUnacked f).
  exists (enc (ByteOrderOk := GetByteOrder_ok version) (Z.to_nat (PacketNumberLen f)) d).
  assert (0 <= d < 2 ^ (8 * PacketNumberLen f)) as Hd by (unfold d; lia).
  assert (0 <= PacketNumberLen f <= 8) by (destruct H3 as [-> | [-> | [-> | ->]]]; lia).
  split_and!.
  - unfold Write.
    rewrite (proj2 (Z.eqb_neq (PacketNumber f) 0)) by lia.
    rewrite (proj2 (Z.ltb_ge _ _)) by lia.
    rewrite u64_small by lia. fold d.
    pose proof (writePacketNumber_spec (GetByteOrder version) mask48 stop_waiting_mask48 _ H3 d Hd) as Hw.
    unfold writePacketNumber, mask48 in Hw.
    destruct H3 as [E | [E | [E | E]]]; rewrite E in Hw |- *; cbn [Z.eqb PacketNumberLen1 PacketNumberLen2
      PacketNumberLen4 PacketNumberLen6 Pos.eqb] in Hw |- *; by rewrite Hw.
  - unfold MinLength. rewrite (proj2 (Z.eqb_neq _ _)), u64_small
      by (destruct H3 as [-> | [-> | [-> | ->]]]; lia).
    cbn [length]. rewrite enc_length. f_equal. lia.
  - intros r. rewrite <- app_comm_cons. unfold ParseStopWaitingFrame. read_step.
    erewrite reader_bind_ok by (apply read_uint; lia).
    rewrite (proj2 (Z.leb_gt _ _)), u64_small by (unfold d in *; lia).
    by replace (PacketNumber f - d) with (LeastUnacked f) by (unfold d; lia).
Qed.
End StopWaitingFrame.

(** ** PING *)
Module PingFrame.
Definition Write (version : Z) : writer := WriteByte 0x07.
Definition MinLength : Z := 1.
Definition ParsePingFrame (version : Z) : reader unit := _ ← ReadByte; mret tt.
End PingFrame.

(** ** ADD_ADDRESS *)
Module AddAddressFrame.

(** [net.UDPAddr]; an [IP] is a byte slice of 4 or 16 bytes. *)
Record UDPAddr : Type := MkAddr { IP : list Z; Port : Z; Zone : string }.
Record t : Type := Mk { IPVersion : Z; Addr : UDPAddr }.

Definition ErrUnknownIPVersion : goerr := GoErr "AddAddressFrame: unknown IP version".
Definition errInconsistentAddrIPVersion : goerr :=
  GoErr "internal inconsistency: Addr does not match IP version".

(** The standard library's [net.IPv4], [IP.To4] and [IP.To16]. *)
Definition v4InV6Prefix : list Z := [0; 0; 0; 0; 0; 0; 0; 0; 0; 0; 0xff; 0xff].
Definition IPv4 (a b c d : Z) : list Z := v4InV6Prefix ++ [a; b; c; d].
Definition To4 (ip : list Z) : option (list Z) :=
  if Nat.eqb (length ip) 4 then Some ip
  else if Nat.eqb (length ip) 16 && bool_decide (take 12 ip = v4InV6Prefix) then Some (drop 12 ip)
  else None.
Definition To16 (ip : list Z) : option (list Z) :=
  if Nat.eqb (length ip) 4 then Some (v4InV6Prefix ++ ip)
  else if Nat.eqb (length ip) 16 then Some ip
  else None.

Definition Write (f : t) (version : Z) : writer :=
  let bo := GetByteOrder version in
  WriteByte 0x10 >;> WriteByte (IPVersion f)
  >;> (if IPVersion f =? 4
       then match To4 (IP (Addr f)) with
            | None => wfail errInconsistentAddrIPVersion
            | Some ip => wbytes ip
            end
       else if IPVersion f =? 6
       then match To16 (IP (Addr f)) with
            | None => wfail errInconsistentAddrIPVersion
            | Some ip => wbytes ip
            end
       else wfail ErrUnknownIPVersion)
  >;> WriteUint16 bo (u16 (Port (Addr f))).

Fixpoint read_bytes (n : nat) : reader (list Z) :=
  match n with
  | O => mret []
  | S n' => b ← ReadByte; bs ← read_bytes n'; mret (b :: bs)
  end.

Definition ParseAddAddressFrame (version : Z) : reader t :=
  let bo := GetByteOrder version in
  _ ← ReadByte;
  ipv ← ReadByte;
  ip ← (if ipv =? 4
        then a ← ReadByte; b ← ReadByte; c ← ReadByte; d ← ReadByte; mret (IPv4 a b c d)
        else if ipv =? 6 then read_bytes 16
        else throw ErrUnknownIPVersion);
  port ← ReadUint16 bo;
  mret (Mk ipv (MkAddr ip port "")).

Definition MinLength (f : t) : res Z :=
  if IPVersion f =? 4 then Ok (1 + 1 + 4 + 2)
  else if IPVersion f =? 6 then Ok (1 + 1 + 16 + 2)
  else Err ErrUnknownIPVersion.

(** The 16-byte form in which the peer sees the address. *)
Definition address_seen (f : t) : option (list Z) :=
  if IPVersion f =? 4 then option_map (app v4InV6Prefix) (To4 (IP (Addr f)))
  else if IPVersion f =? 6 then To16 (IP (Addr f))
  else None.

Definition valid (f : t) : Prop :=
  is_Some (address_seen f) /\ 0 <= Port (Addr f) < 2 ^ 16.

Lemma read_bytes_app bs r : read_bytes (length bs) (bs ++ r) = Ok (bs, r).
Proof.
  induction bs as [|b bs IH]; [done|]. cbn [length read_bytes app].
  erewrite reader_bind_ok by done. by erewrite reader_bind_ok by exact IH.
Qed.

Lemma length_To4 ip x : To4 ip = Some x -> length x = 4%nat.
Proof.
  unfold To4. destruct (Nat.eqb_spec (length ip) 4) as [E|]; [by intros [= <-]|].
  destruct (Nat.eqb_spec (length ip) 16) as [E|]; [|done].
  destruct (bool_decide _); [|done]. intros [= <-]. rewrite length_drop. lia.
Qed.

Lemma length_To16 ip x : To16 ip = Some x -> length x = 16%nat.
Proof.
  unfold To16. destruct (Nat.eqb_spec (length ip) 4) as [E|].
  - intros [= <-]. cbn [length]. by rewrite E.
  - by destruct (Nat.eqb_spec (length ip) 16); [intros [= <-]|].
Qed.

Lemma add_address_parses_back f version :
  valid f -> exists out ip, Write f version = wbytes (0x10 :: out) /\
    MinLength f = Ok (Z.of_nat (length (0x10 :: out))) /\ address_seen f = Some ip /\
    forall r, ParseAddAddressFrame version ((0x10 :: out) ++ r)
              = Ok (Mk (IPVersion f) (MkAddr ip (Port (Addr f)) ""), r).
Proof.
  intros [[ip Hip] Hp]. unfold address_seen, Write, MinLength, ParseAddAddressFrame in *.
  destruct (Z.eqb_spec (IPVersion f) 4) as [E4|_]; [|destruct (Z.eqb_spec (IPVersion f) 6) as [E6|_]; [|done]].
  - destruct (To4 (IP (Addr f))) as [x|] eqn:Ex; [|done]. injection Hip as <-.
    apply length_To4 in Ex. destruct x as [|a [|b [|c [|d [|]]]]]; try done.
    rewrite write16, u16_small, E4 by lia. write_bytes. eexists _, _. split_and!; [done| |done|].
    { cbn [length app]. by rewrite enc_length. }
    intros r. do 2 read_step. change (u8 4 =? 4) with true. cbv iota.
    erewrite reader_bind_ok by (by do 4 read_step). by read_step.
  - rewrite Hip. apply length_To16 in Hip as Hlen.
    rewrite write16, u16_small, E6 by lia. cbv beta iota. write_bytes. eexists _, _. split_and!; [done| |done|].
    { cbn [length]. rewrite !length_app, enc_length, Hlen. done. }
    intros r. rewrite <- app_comm_cons, <- !app_assoc. do 2 read_step.
    change (u8 6 =? 4) with false. change (u8 6 =? 6) with true. cbv iota.
    erewrite reader_bind_ok by (rewrite <- Hlen; apply read_bytes_app). by read_step.
Qed.
End AddAddressFrame.

(** ** PATHS *)
Module PathsFrame.
Record t : Type := Mk {
  MaxNumPaths : Z; NumPaths : Z; PathIDs : list Z; RemoteRTTs : list Z
}.

Definition ErrTooManyPaths : goerr := GoErr "PathsFrame: more paths than the maximum enabled".
Definition ErrPathsNumber : goerr :=
  GoErr "PathsFrame: number of paths advertised and # of paths do not match".
Definition ErrMissingRTT : goerr :=
  GoErr "PathsFrame: number of paths IDs and number of remote RTTs do not match".

Fixpoint write_paths (bo : ByteOrder) (ids rtts : list Z) : writer :=
  match ids, rtts with
  | id :: ids', rtt :: rtts' =>
      WriteByte id >;> writeUfloat16 bo (u64 (Z.quot rtt Microsecond)) >;> write_paths bo ids' rtts'
  | _, _ => wret
  end.

Definition Write (f : t) (version : Z) : writer :=
  let bo := GetByteOrder version in
  WriteByte 0x12 >;> WriteByte (MaxNumPaths f) >;> WriteByte (NumPaths f)
  >;> (if negb (NumPaths f =? Z.of_nat (length (PathIDs f))) then wfail ErrPathsNumber else
       if negb (Nat.eqb (length (PathIDs f)) (length (RemoteRTTs f))) then wfail ErrMissingRTT else
       write_paths bo (PathIDs f) (RemoteRTTs f)).

Fixpoint parse_paths (bo : ByteOrder) (k : nat) : reader (list Z * list Z) :=
  match k with
  | O => mret ([], [])
  | S k' =>
      pathID ← ReadByte;
      remoteRTT ← readUfloat16 bo;
      '(ids, rtts) ← parse_paths bo k';
      mret (pathID :: ids, i64 (i64 remoteRTT * Microsecond) :: rtts)
  end.

Definition ParsePathsFrame (version : Z) : reader t :=
  let bo := GetByteOrder version in
  _ ← ReadByte;
  maxNum ← ReadByte;
  num ← ReadByte;
  if maxNum <? num then throw ErrTooManyPaths else
  '(ids, rtts) ← parse_paths bo (Z.to_nat num);
  mret (Mk maxNum num ids rtts).

(** The sum is computed in a [uint8]. *)
Definition MinLength (f : t) : Z := u8 (1 + 1 + 1 + u8 (3 * NumPaths f)).

Definition valid (f : t) : Prop :=
  0 <= NumPaths f <= MaxNumPaths f /\ MaxNumPaths f < 256 /\
  Z.of_nat (length (PathIDs f)) = NumPaths f /\ Z.of_nat (length (RemoteRTTs f)) = NumPaths f /\
  bytes_ok (PathIDs f) /\ Forall (fun rtt => 0 <= rtt < 2 ^ 63) (RemoteRTTs f).

(** A round-trip time as the peer sees it. *)
Definition rtt_seen (rtt : Z) : Z := ufloat16_round (Z.quot rtt Microsecond) * Microsecond.

Definition received (f : t) : t := Mk (MaxNumPaths f) (NumPaths f) (PathIDs f) (rtt_seen <$> RemoteRTTs f).

Lemma paths_roundtrip bo `{!ByteOrderOk bo} ids : forall rtts,
  length rtts = length ids -> bytes_ok ids -> Forall (fun rtt => 0 <= rtt < 2 ^ 63) rtts ->
  exists out, write_paths bo ids rtts = wbytes out /\ length out = (3 * length ids)%nat /\
    forall r, parse_paths bo (length ids) (out ++ r) = Ok ((ids, rtt_seen <$> rtts), r).
Proof.
  induction ids as [|id ids IH]; intros [|rtt rtts] Hlen Hids Hrtts; try done; [by exists []|].
  apply Forall_cons in Hids as [Hid Hids]. apply Forall_cons in Hrtts as [Hrtt Hrtts].
  destruct (IH rtts ltac:(simpl in Hlen; lia) Hids Hrtts) as (out & Hw & Hl & Hp).
  assert (0 <= Z.quot rtt Microsecond < 2 ^ 63) as Hq.
  { split; [apply Z.quot_pos; unfold Microsecond; lia|].
    eapply Z.le_lt_trans; [apply Z.quot_le_upper_bound with (q := rtt)|]; unfold Microsecond; lia. }
  cbn [write_paths]. unfold writeUfloat16. rewrite Hw, write16, u64_small by lia. write_bytes.
  eexists. split_and!; [done| |].
  { rewrite !length_app, enc_length, Hl. simpl. lia. }
  intros r. rewrite <- !app_assoc. cbn [length parse_paths]. erewrite reader_bind_ok by done.
  erewrite reader_bind_ok by (apply read_ufloat16; lia).
  erewrite reader_bind_ok by apply Hp. cbv beta iota. rewrite u8_small by lia.
  cbn [fmap list_fmap]. unfold rtt_seen at 1. do 4 f_equal.
  pose proof (round_in_i64 (Z.quot rtt Microsecond) ltac:(lia)) as Hr.
  rewrite (i64_small (ufloat16_round _)), i64_small; [done|done|].
  unfold in_i64, Microsecond in *. lia.
Qed.

Lemma paths_parses_back f version :
  valid f -> exists out, Write f version = wbytes (0x12 :: out) /\
    Z.of_nat (length (0x12 :: out)) = 3 + 3 * NumPaths f /\
    forall r, ParsePathsFrame version ((0x12 :: out) ++ r) = Ok (received f, r).
Proof.
  intros (H1 & H2 & H3 & H4 & H5 & H6).
  destruct (paths_roundtrip (GetByteOrder version) (PathIDs f) (RemoteRTTs f)) as (out & Hw & Hl & Hp);
    [lia|done|done|].
  unfold Write. rewrite Hw, H3, Z.eqb_refl, (proj2 (Nat.eqb_eq _ _)) by lia. cbn [negb]. write_bytes.
  eexists. split_and!; [done| |].
  { cbn [length]. rewrite !length_app, Hl. simpl. lia. }
  intros r. rewrite <- app_comm_cons, <- !app_assoc. unfold ParsePathsFrame. do 3 read_step.
  rewrite !u8_small, (proj2 (Z.ltb_ge _ _)) by lia.
  replace (Z.to_nat (NumPaths f)) with (length (PathIDs f)) by lia.
  by erewrite reader_bind_ok by apply Hp.
Qed.

Lemma MinLength_exact f :
  0 <= NumPaths f < 256 -> MinLength f = 3 + 3 * NumPaths f <-> NumPaths f <= 84.
Proof. intros H. unfold MinLength. split; intros; word. Qed.
End PathsFrame.
