(* ===== verification/PublicHeader.v ===== *)
(** * The public header

    Models [internal/wire/public_header.go] ([Write], [ParsePublicHeader],
    [PeekConnectionID], [GetLength], [hasPacketNumber]) and
    [internal/wire/version_negotiation.go]. *)

From stdpp Require Import base numbers list option strings.
From S2P Require Import Prelude ByteOrder Protocol AckRanges.

Local Open Scope Z_scope.

(** [protocol.Perspective] *)
Inductive Perspective : Type := PerspectiveServer | PerspectiveClient.
#[export] Instance Perspective_eq_dec : EqDecision Perspective.
Proof. solve_decision. Defined.
Definition is_server (p : Perspective) : bool :=
  match p with PerspectiveServer => true | PerspectiveClient => false end.

Definition VersionWhatever : Z := 0.
Definition VersionUnknown : Z := -2.

Module PublicHeader.

Record t : Type := Mk {
  ConnectionID : Z;
  PathID : Z;
  VersionFlag : bool;
  ResetFlag : bool;
  TruncateConnectionID : bool;
  MultipathFlag : bool;
  PacketNumberLen : Z;
  PacketNumber : Z;
  VersionNumber : Z;              (* sent by the client *)
  SupportedVersions : list Z;     (* sent by the server *)
  DiversificationNonce : list Z;
}.

Definition ErrPacketWithUnknownVersion : goerr :=
  GoErr "PublicHeader: Received a packet without version number, that we don't know the version for".
Definition errResetAndVersionFlagSet : goerr :=
  GoErr "PublicHeader: Reset Flag and Version Flag should not be set at the same time".
Definition errReceivedTruncatedConnectionID : goerr :=
  QErr "InvalidPacketHeader" "receiving packets with truncated ConnectionID is not supported".
Definition errInvalidConnectionID : goerr := QErr "InvalidPacketHeader" "connection ID cannot be 0".
Definition errGetLengthNotForVersionNegotiation : goerr :=
  GoErr "PublicHeader: GetLength cannot be called for VersionNegotiation packets".
Definition errPacketNumberLenNotSet : goerr := GoErr "StopWaitingFrame: PacketNumberLen not set".
Definition errNonceLength : goerr := GoErr "invalid diversification nonce length".
Definition errLenNotSet : goerr := GoErr "PublicHeader: PacketNumberLen not set".

Definition hasPacketNumber (resetFlag versionFlag : bool) (packetSentBy : Perspective) : bool :=
  if resetFlag then false else if versionFlag && is_server packetSentBy then false else true.

(** ** Writing *)

Definition has_nonce (h : t) : bool := 0 <? Z.of_nat (length (DiversificationNonce h)).

Definition publicFlagByte (h : t) (pers : Perspective) : Z :=
  let fb := 0 in
  let fb := if VersionFlag h then Z.lor fb 0x01 else fb in
  let fb := if ResetFlag h then Z.lor fb 0x02 else fb in
  let fb := if negb (TruncateConnectionID h) then Z.lor fb 0x08 else fb in
  let fb := if has_nonce h then Z.lor fb 0x04 else fb in
  let fb := if hasPacketNumber (ResetFlag h) (VersionFlag h) pers
            then if PacketNumberLen h =? PacketNumberLen1 then Z.lor fb 0x00
                 else if PacketNumberLen h =? PacketNumberLen2 then Z.lor fb 0x10
                 else if PacketNumberLen h =? PacketNumberLen4 then Z.lor fb 0x20
                 else if PacketNumberLen h =? PacketNumberLen6 then Z.lor fb 0x30
                 else fb
            else fb in
  if MultipathFlag h then Z.lor fb 0x40 else fb.

Definition Write (h : t) (version : Z) (pers : Perspective) : writer :=
  let bo := GetByteOrder version in
  if VersionFlag h && ResetFlag h then wfail errResetAndVersionFlagSet else
  if has_nonce h && negb (Z.of_nat (length (DiversificationNonce h)) =? 32)
  then wfail errNonceLength else
  WriteByte (publicFlagByte h pers)
  >;> (if negb (TruncateConnectionID h) then WriteUint64 LittleEndian (ConnectionID h) else wret)
  >;> (if VersionFlag h && negb (is_server pers)
       then WriteUint32 LittleEndian (VersionNumberToTag (VersionNumber h)) else wret)
  >;> (if has_nonce h then wbytes (DiversificationNonce h) else wret)
  >;> (if MultipathFlag h then WriteByte (PathID h) else wret)
  >;> (if negb (hasPacketNumber (ResetFlag h) (VersionFlag h) pers) then wret
       else if PacketNumberLen h =? PacketNumberLen1 then WriteByte (u8 (PacketNumber h))
       else if PacketNumberLen h =? PacketNumberLen2 then WriteUint16 bo (u16 (PacketNumber h))
       else if PacketNumberLen h =? PacketNumberLen4 then WriteUint32 bo (u32 (PacketNumber h))
       else if PacketNumberLen h =? PacketNumberLen6
       then WriteUint48 bo (Z.land (PacketNumber h) (2 ^ 48 - 1))
       else wfail errLenNotSet).

(** ** Parsing *)

(** Reads the connection ID and puts everything back. *)
Definition PeekConnectionID (packetSentBy : Perspective) : reader Z := fun s =>
  let read : reader Z :=
    flags ← ReadByte;
    let truncateConnectionID := Z.land flags 0x08 =? 0 in
    if truncateConnectionID && negb (is_server packetSentBy)
    then throw errReceivedTruncatedConnectionID
    else if negb truncateConnectionID then ReadUint64 LittleEndian else mret 0 in
  match read s with
  | Ok (connectionID, _) => Ok (connectionID, s)
  | Err e => Err e
  | Panic => Panic
  end.

(** The loop over the versions of a version negotiation packet, which ends when a
    version cannot be read any more.  Every round reads four bytes, so [length s] rounds
    are enough. *)
Fixpoint read_versions (fuel : nat) (s : list Z) : list Z * list Z :=
  match fuel with
  | O => ([], s)
  | S fuel' =>
      match ReadUint32 LittleEndian s with
      | Ok (tag, s') =>
          let '(vs, r) := read_versions fuel' s' in (VersionTagToNumber tag :: vs, r)
      | _ => ([], [])
      end
  end.

Definition packet_number_len (flags : Z) : Z :=
  let b := Z.land flags 0x30 in
  if b =? 0x30 then PacketNumberLen6
  else if b =? 0x20 then PacketNumberLen4
  else if b =? 0x10 then PacketNumberLen2
  else if b =? 0x00 then PacketNumberLen1
  else 0.

(** From the version on: [h] has the flags, the connection ID and the nonce. *)
Definition parse_path_and_number (h : t) (packetSentBy : Perspective) (version : Z) : reader t :=
  pathID ← (if MultipathFlag h then ReadByte else mret 0);
  packetNumber ←
    (if hasPacketNumber (ResetFlag h) (VersionFlag h) packetSentBy
     then ReadUintN (GetByteOrder version) (PacketNumberLen h) else mret 0);
  mret (Mk (ConnectionID h) pathID (VersionFlag h) (ResetFlag h) (TruncateConnectionID h)
          (MultipathFlag h) (PacketNumberLen h) packetNumber (VersionNumber h)
          (SupportedVersions h) (DiversificationNonce h)).

Definition with_versions (h : t) (v : Z) (vs : list Z) : t :=
  Mk (ConnectionID h) (PathID h) (VersionFlag h) (ResetFlag h) (TruncateConnectionID h)
     (MultipathFlag h) (PacketNumberLen h) (PacketNumber h) v vs (DiversificationNonce h).

Definition parse_version (h : t) (packetSentBy : Perspective) (version : Z) : reader t :=
  if negb (ResetFlag h) && VersionFlag h then
    if is_server packetSentBy then
      n ← Len;
      if negb (n `mod` 4 =? 0) then throw (QErr "InvalidVersionNegotiationPacket" "") else
      (fun s => let '(vs, r) := read_versions (S (length s)) s in Ok (with_versions h 0 vs, r)) : reader t
    else
      versionTag ← ReadUint32 LittleEndian;
      let v := VersionTagToNumber versionTag in
      parse_path_and_number (with_versions h v []) packetSentBy v
  else parse_path_and_number h packetSentBy version.

Definition ParsePublicHeader (packetSentBy : Perspective) (version : Z) : reader t :=
  flags ← ReadByte;
  let resetFlag := 0 <? Z.land flags 0x02 in
  let versionFlag := 0 <? Z.land flags 0x01 in
  if (version =? VersionUnknown) && negb (versionFlag || resetFlag)
  then throw ErrPacketWithUnknownVersion else
  let truncateConnectionID := Z.land flags 0x08 =? 0 in
  if truncateConnectionID && negb (is_server packetSentBy) then throw errReceivedTruncatedConnectionID
  else
  let pnLen := if hasPacketNumber resetFlag versionFlag packetSentBy
               then packet_number_len flags else 0 in
  let multipathFlag := 0 <? Z.land flags 0x40 in
  connectionID ← (if negb truncateConnectionID then ReadUint64 LittleEndian else mret 0);
  if negb truncateConnectionID && (connectionID =? 0) then throw errInvalidConnectionID else
  nonce ←
    (if is_server packetSentBy && (0 <? Z.land flags 0x04) && (negb versionFlag && negb resetFlag)
     then ReadFull 32 else mret []);
  parse_version (Mk connectionID 0 versionFlag resetFlag truncateConnectionID multipathFlag pnLen
                   0 0 [] nonce) packetSentBy version.

(** ** Length *)

Definition GetLength (h : t) (pers : Perspective) : res Z :=
  if VersionFlag h && ResetFlag h then Err errResetAndVersionFlagSet else
  if VersionFlag h && is_server pers then Err errGetLengthNotForVersionNegotiation else
  let hasPN := hasPacketNumber (ResetFlag h) (VersionFlag h) pers in
  if hasPN && negb (PacketNumberLen h =? PacketNumberLen1)
     && negb (PacketNumberLen h =? PacketNumberLen2)
     && negb (PacketNumberLen h =? PacketNumberLen4)
     && negb (PacketNumberLen h =? PacketNumberLen6)
  then Err errPacketNumberLenNotSet else
  let length := 1 in
  let length := if hasPN then length + PacketNumberLen h else length in
  let length := if negb (TruncateConnectionID h) then length + 8 else length in
  let length := if VersionFlag h then length + 4 else length in
  let length := length + Z.of_nat (List.length (DiversificationNonce h)) in
  Ok (if MultipathFlag h then length + 1 else length).

(** ** Lemmas *)

(** The flag byte carries every flag and the packet number length. *)
Lemma flag_fields h pers :
  (hasPacketNumber (ResetFlag h) (VersionFlag h) pers = true -> valid_pn_len (PacketNumberLen h)) ->
  let fb := u8 (publicFlagByte h pers) in
  (0 <? Z.land fb 0x02) = ResetFlag h /\ (0 <? Z.land fb 0x01) = VersionFlag h /\
  (Z.land fb 0x08 =? 0) = TruncateConnectionID h /\ (0 <? Z.land fb 0x04) = has_nonce h /\
  (0 <? Z.land fb 0x40) = MultipathFlag h /\
  (hasPacketNumber (ResetFlag h) (VersionFlag h) pers = true ->
   packet_number_len fb = PacketNumberLen h).
Proof.
  unfold publicFlagByte. generalize (has_nonce h) as n. destruct h as [c p v r tr m l pn vn sv dn].
  cbn [ResetFlag VersionFlag TruncateConnectionID MultipathFlag PacketNumberLen].
  destruct (hasPacketNumber r v pers).
  - intros n Hl. destruct (Hl eq_refl) as [-> | [-> | [-> | ->]]];
      destruct v, r, tr, m, n; vm_compute; split_and!; done.
  - intros n _. destruct v, r, tr, m, n; vm_compute; split_and!; done.
Qed.

(** The packet number on the wire is its low [l] bytes. *)
Definition write_packet_number (bo : ByteOrder) (l pn : Z) : writer :=
  if l =? PacketNumberLen1 then WriteByte (u8 pn)
  else if l =? PacketNumberLen2 then WriteUint16 bo (u16 pn)
  else if l =? PacketNumberLen4 then WriteUint32 bo (u32 pn)
  else if l =? PacketNumberLen6 then WriteUint48 bo (Z.land pn (2 ^ 48 - 1))
  else wfail errLenNotSet.

Lemma write_packet_number_spec bo `{!ByteOrderOk bo} l pn :
  valid_pn_len l ->
  write_packet_number bo l pn = wbytes (enc (Z.to_nat l) (pn `mod` 2 ^ (8 * l))).
Proof.
  intros [-> | [-> | [-> | ->]]]; unfold write_packet_number; simpl.
  - rewrite enc_one. unfold WriteByte. by do 2 f_equal.
  - by rewrite write16.
  - by rewrite write32.
  - change (2 ^ 48 - 1) with (Z.ones 48). rewrite Z.land_ones, write48 by lia.
    pose proof (Z.mod_pos_bound pn (2 ^ 48) ltac:(lia)).
    by rewrite (proj2 (Z.leb_gt _ _)) by lia.
Qed.

(** A header of a regular packet, as the packet packer builds it. *)
Record regular (h : t) (version : Z) (pers : Perspective) : Prop := {
  reg_reset : ResetFlag h = false;
  reg_version : VersionFlag h = true ->
    pers = PerspectiveClient /\ VersionNumber h = version /\ 0 <= version < 1000;
  reg_truncate : TruncateConnectionID h = true -> pers = PerspectiveServer;
  reg_conn : TruncateConnectionID h = false -> 1 <= ConnectionID h < 2 ^ 64;
  reg_nonce : DiversificationNonce h = [] \/
    length (DiversificationNonce h) = 32%nat /\ pers = PerspectiveServer /\ VersionFlag h = false;
  reg_pn_len : valid_pn_len (PacketNumberLen h);
  reg_path : 0 <= PathID h < 256;
}.

(** The header the peer sees: the packet number is truncated, fields that are not sent
    are zero. *)
Definition received (h : t) : t :=
  Mk (if negb (TruncateConnectionID h) then ConnectionID h else 0)
     (if MultipathFlag h then PathID h else 0)
     (VersionFlag h) (ResetFlag h) (TruncateConnectionID h) (MultipathFlag h) (PacketNumberLen h)
     (PacketNumber h `mod` 2 ^ (8 * PacketNumberLen h))
     (if VersionFlag h then VersionNumber h else 0) [] (DiversificationNonce h).

Definition header_bytes (h : t) (version : Z) (pers : Perspective) : list Z :=
  [u8 (publicFlagByte h pers)]
  ++ (if negb (TruncateConnectionID h)
      then enc (ByteOrderOk := LittleEndian_ok) 8 (ConnectionID h) else [])
  ++ (if VersionFlag h
      then enc (ByteOrderOk := LittleEndian_ok) 4 (VersionNumberToTag (VersionNumber h)) else [])
  ++ DiversificationNonce h
  ++ (if MultipathFlag h then [u8 (PathID h)] else [])
  ++ enc (ByteOrderOk := GetByteOrder_ok version) (Z.to_nat (PacketNumberLen h))
       (PacketNumber h `mod` 2 ^ (8 * PacketNumberLen h)).

Lemma regular_has_number h version pers :
  regular h version pers -> hasPacketNumber (ResetFlag h) (VersionFlag h) pers = true.
Proof.
  intros [-> Hv _ _ _ _ _]. unfold hasPacketNumber.
  destruct (VersionFlag h); [|done]. by destruct (Hv eq_refl) as [-> _].
Qed.

Lemma public_header_write_bytes h version pers :
  regular h version pers -> Write h version pers = wbytes (header_bytes h version pers).
Proof.
  intros Hr. pose proof (regular_has_number h version pers Hr) as Hpn.
  destruct Hr as [Hreset Hver Htr Hc Hn Hl Hp]. unfold Write, header_bytes.
  change (if PacketNumberLen h =? PacketNumberLen1 then _ else _)
    with (write_packet_number (GetByteOrder version) (PacketNumberLen h) (PacketNumber h)).
  rewrite Hpn, Hreset, andb_false_r, (write_packet_number_spec (GetByteOrder version)), write64, write32
    by done.
  assert (has_nonce h && negb (Z.of_nat (length (DiversificationNonce h)) =? 32) = false) as ->.
  { unfold has_nonce. destruct Hn as [-> | [-> _]]; done. }
  assert ((if has_nonce h then wbytes (DiversificationNonce h) else wret)
          = wbytes (DiversificationNonce h)) as ->.
  { unfold has_nonce. destruct Hn as [-> | [-> _]]; done. }
  assert (VersionFlag h && negb (is_server pers) = VersionFlag h) as ->.
  { destruct (VersionFlag h); [|done]. by destruct (Hver eq_refl) as [-> _]. }
  cbn [negb]. by destruct (TruncateConnectionID h), (VersionFlag h), (MultipathFlag h).
Qed.

Lemma GetLength_bytes h version pers :
  regular h version pers -> GetLength h pers = Ok (Z.of_nat (length (header_bytes h version pers))).
Proof.
  intros Hr. pose proof (regular_has_number h version pers Hr) as Hpn.
  destruct Hr as [Hreset Hver Htr Hc Hn Hl Hp]. unfold GetLength, header_bytes.
  assert (VersionFlag h && is_server pers = false) as ->.
  { destruct (VersionFlag h); [|done]. by destruct (Hver eq_refl) as [-> _]. }
  rewrite Hpn, Hreset, andb_false_r. destruct (pn_len_nat _ Hl) as [El _].
  assert (true && negb (PacketNumberLen h =? PacketNumberLen1) && negb (PacketNumberLen h =? PacketNumberLen2)
          && negb (PacketNumberLen h =? PacketNumberLen4) && negb (PacketNumberLen h =? PacketNumberLen6)
          = false) as -> by (destruct Hl as [-> | [-> | [-> | ->]]]; done).
  rewrite !length_app, enc_length. f_equal.
  destruct (TruncateConnectionID h), (VersionFlag h), (MultipathFlag h); cbn [negb];
    rewrite ?enc_length; cbn [length]; lia.
Qed.

Lemma read_optional {A} (b : bool) (m : reader A) (bs r : list Z) (a d : A) :
  (b = true -> forall r, m (bs ++ r) = Ok (a, r)) ->
  (if b then m else mret d) ((if b then bs else []) ++ r) = Ok (if b then a else d, r).
Proof. destruct b; auto. Qed.

Lemma nonce_bytes h version pers r :
  regular h version pers ->
  (if has_nonce h then ReadFull 32 else mret []) (DiversificationNonce h ++ r)
  = Ok (DiversificationNonce h, r).
Proof.
  intros Hr. unfold has_nonce. destruct (reg_nonce _ _ _ Hr) as [-> | [Hlen _]]; [done|].
  rewrite (proj2 (Z.ltb_lt _ _)) by lia.
  replace 32 with (Z.of_nat (length (DiversificationNonce h))) by lia. apply ReadFull_app.
Qed.

Lemma parse_path_and_number_bytes h version pers c v r :
  regular h version pers ->
  parse_path_and_number (Mk c 0 (VersionFlag h) (ResetFlag h) (TruncateConnectionID h) (MultipathFlag h)
      (PacketNumberLen h) 0 v [] (DiversificationNonce h)) pers version
    ((if MultipathFlag h then [u8 (PathID h)] else [])
     ++ enc (ByteOrderOk := GetByteOrder_ok version) (Z.to_nat (PacketNumberLen h))
          (PacketNumber h `mod` 2 ^ (8 * PacketNumberLen h)) ++ r)
  = Ok (Mk c (if MultipathFlag h then PathID h else 0) (VersionFlag h) (ResetFlag h)
          (TruncateConnectionID h) (MultipathFlag h) (PacketNumberLen h)
          (PacketNumber h `mod` 2 ^ (8 * PacketNumberLen h)) v [] (DiversificationNonce h), r).
Proof.
  intros Hr. pose proof (regular_has_number h version pers Hr) as Hpn.
  destruct Hr as [Hreset Hver Htr Hc Hn Hl Hp]. unfold parse_path_and_number.
  cbn [MultipathFlag ResetFlag VersionFlag PacketNumberLen]. rewrite Hpn.
  erewrite reader_bind_ok by (apply read_optional; intros _ ?; by rewrite u8_small by lia).
  assert (0 < 2 ^ (8 * PacketNumberLen h)) as Hpos
    by (destruct Hl as [-> | [-> | [-> | ->]]]; done).
  erewrite reader_bind_ok by (apply read_packet_number; [done|by apply Z.mod_pos_bound]).
  done.
Qed.

Lemma parse_path_and_number_conn h pers version s h' r :
  parse_path_and_number h pers version s = Ok (h', r) -> ConnectionID h' = ConnectionID h.
Proof.
  unfold parse_path_and_number. intros H.
  apply reader_bind_inv in H as (p & s1 & _ & H). apply reader_bind_inv in H as (n & s2 & _ & H).
  by injection H as <- _.
Qed.

Lemma parse_version_conn h pers version s h' r :
  parse_version h pers version s = Ok (h', r) -> ConnectionID h' = ConnectionID h.
Proof.
  unfold parse_version. destruct (negb (ResetFlag h) && VersionFlag h).
  - destruct (is_server pers); intros H.
    + apply reader_bind_inv in H as (n & s1 & _ & H). destruct (negb _); [discriminate|].
      destruct (read_versions _ _). by injection H as <- _.
    + apply reader_bind_inv in H as (n & s1 & _ & H). by apply parse_path_and_number_conn in H.
  - apply parse_path_and_number_conn.
Qed.

Lemma parse_bytes h version version' pers r :
  regular h version pers ->
  (VersionFlag h = true \/ version' = version /\ version <> VersionUnknown) ->
  ParsePublicHeader pers version' (header_bytes h version pers ++ r) = Ok (received h, r).
Proof.
  intros Hr Hv. pose proof (regular_has_number h version pers Hr) as Hpn.
  destruct (flag_fields h pers) as (F1 & F2 & F3 & F4 & F5 & F6); [by intros; apply Hr|].
  unfold header_bytes, ParsePublicHeader. rewrite <- !app_assoc. erewrite reader_bind_ok by done.
  rewrite F1, F2, F3, F4, F5, F6, Hpn by done.
  pose proof Hr as [Hreset Hver Htr Hc Hn Hl Hp].
  assert ((version' =? VersionUnknown) && negb (VersionFlag h || ResetFlag h) = false) as ->.
  { destruct Hv as [-> | [-> ?%Z.eqb_neq]]; [by rewrite andb_false_r|]. by rewrite H. }
  assert (TruncateConnectionID h && negb (is_server pers) = false) as ->.
  { destruct (TruncateConnectionID h); [|done]. by rewrite (Htr eq_refl). }
  erewrite reader_bind_ok by (apply read_optional; intros E ?;
    apply read64_enc; specialize (Hc (proj1 (negb_true_iff _) E)); lia).
  assert (negb (TruncateConnectionID h) &&
    ((if negb (TruncateConnectionID h) then ConnectionID h else 0) =? 0) = false) as ->.
  { destruct (TruncateConnectionID h); [done|]. cbn [negb andb]. apply Z.eqb_neq.
    specialize (Hc eq_refl). lia. }
  assert (is_server pers && has_nonce h && (negb (VersionFlag h) && negb (ResetFlag h)) = has_nonce h)
    as ->.
  { unfold has_nonce. rewrite Hreset. destruct Hn as [-> | (-> & -> & ->)]; [|done].
    by rewrite andb_false_r. }
  pose proof (parse_path_and_number_bytes h version pers) as Hpath.
  unfold parse_version, received. rewrite Hreset in Hpath |- *. cbn [ResetFlag VersionFlag negb andb].
  destruct (VersionFlag h) eqn:Ev.
  - destruct (Hver eq_refl) as (-> & Hvn & Hrange). destruct Hn as [Hn|(_ & _ & [=])].
    rewrite Hn in Hpath |- *. rewrite app_nil_l. unfold has_nonce. rewrite Hn. erewrite reader_bind_ok by done.
    cbn [is_server]. erewrite reader_bind_ok by (apply read32_enc, version_tag_range).
    rewrite version_tag_roundtrip, Hvn by lia. by apply Hpath.
  - destruct Hv as [[=]|[-> _]]. rewrite app_nil_l.
    erewrite reader_bind_ok by apply (nonce_bytes h version pers _ Hr). by apply Hpath.
Qed.

(** ** Properties *)

(** A public header survives the wire.  For every regular header [Write] succeeds,
    [GetLength] is the number of bytes written, and the peer parses the same flags,
    connection, path, version, nonce and the packet number truncated to its length. *)
Theorem public_header_roundtrip h version version' pers :
  regular h version pers ->
  (VersionFlag h = true \/ version' = version /\ version <> VersionUnknown) ->
  exists out, Write h version pers = wbytes out /\
    GetLength h pers = Ok (Z.of_nat (length out)) /\
    forall r, ParsePublicHeader pers version' (out ++ r) = Ok (received h, r).
Proof.
  intros Hr Hv. exists (header_bytes h version pers).
  split_and!; [by apply public_header_write_bytes|by apply GetLength_bytes|]. intros r. by apply parse_bytes.
Qed.

Definition sample : t :=
  Mk 0x1122334455667788 3 true false false true 4 0x123456789 512 [] [].

Lemma public_header_roundtrip_witness :
  exists out, Write sample VersionMP PerspectiveClient = wbytes out /\
    GetLength sample PerspectiveClient = Ok (Z.of_nat (length out)) /\
    forall r, ParsePublicHeader PerspectiveClient VersionUnknown (out ++ r) = Ok (received sample, r).
Proof.
  apply (public_header_roundtrip sample VersionMP VersionUnknown PerspectiveClient); [|by left].
  split; try done; vm_compute; intuition congruence.
Defined.

(** The connection a packet is dispatched to by [PeekConnectionID] is the one its
    header names: whenever [ParsePublicHeader] accepts a packet, peeking at it succeeds
    with the same connection ID and leaves the packet untouched. *)
Theorem peek_connection_id_agrees packetSentBy version s h r :
  ParsePublicHeader packetSentBy version s = Ok (h, r) ->
  PeekConnectionID packetSentBy s = Ok (ConnectionID h, s).
Proof.
  unfold ParsePublicHeader, PeekConnectionID. intros H.
  apply reader_bind_inv in H as (fb & s1 & E1 & H). rewrite (reader_bind_ok _ _ _ _ _ E1).
  destruct (_ && negb (_ || _)); [discriminate|].
  destruct ((Z.land fb 8 =? 0) && negb (is_server packetSentBy)); [discriminate|].
  apply reader_bind_inv in H as (c & s2 & E2 & H). rewrite E2.
  destruct (negb (Z.land fb 8 =? 0) && (c =? 0)); [discriminate|].
  apply reader_bind_inv in H as (n & s3 & E3 & H).
  apply parse_version_conn in H. by rewrite H.
Qed.

(** A packet of connection 0x0102030405060708 with packet number 5 and one more byte. *)
Lemma peek_connection_id_agrees_witness :
  PeekConnectionID PerspectiveClient [8; 8; 7; 6; 5; 4; 3; 2; 1; 5; 99]
  = Ok (72623859790382856, [8; 8; 7; 6; 5; 4; 3; 2; 1; 5; 99]).
Proof.
  eapply (peek_connection_id_agrees PerspectiveClient VersionMP _
    (match ParsePublicHeader PerspectiveClient VersionMP [8; 8; 7; 6; 5; 4; 3; 2; 1; 5; 99] with
     | Ok (h, _) => h | _ => sample end)).
  vm_compute. reflexivity.
Defined.

End PublicHeader.

(** [ComposeVersionNegotiation]: an error of [Write] is only logged. *)
Definition ComposeVersionNegotiation (connectionID : Z) (versions : list Z) : list Z :=
  let h := PublicHeader.Mk connectionID 0 true false false false 0 1 0 [] [] in
  fold_left (fun buf v => buf ++ (WriteUint32 LittleEndian (VersionNumberToTag v)).1)
    versions (PublicHeader.Write h VersionWhatever PerspectiveServer).1.

(** ** Version negotiation *)

Lemma read_versions_tags vs : forall fuel,
  (length vs < fuel)%nat -> Forall (fun v => 0 <= v < 1000) vs ->
  PublicHeader.read_versions fuel
    (mjoin ((fun v => enc (ByteOrderOk := LittleEndian_ok) 4 (VersionNumberToTag v)) <$> vs)) = (vs, []).
Proof.
  induction vs as [|v vs IH]; intros [|fuel] Hf Hvs; try (simpl in Hf; lia); [done|].
  apply Forall_cons in Hvs as [Hv Hvs].
  change (mjoin (_ <$> v :: vs)) with (enc (ByteOrderOk := LittleEndian_ok) 4 (VersionNumberToTag v) ++
    mjoin ((fun v => enc (ByteOrderOk := LittleEndian_ok) 4 (VersionNumberToTag v)) <$> vs)).
  cbn [PublicHeader.read_versions]. rewrite read32_enc by apply version_tag_range.
  rewrite IH by (try done; simpl in Hf; lia). by rewrite version_tag_roundtrip by lia.
Qed.

Lemma Compose_bytes c vs :
  ComposeVersionNegotiation c vs
  = [0x09] ++ enc (ByteOrderOk := LittleEndian_ok) 8 c
    ++ mjoin ((fun v => enc (ByteOrderOk := LittleEndian_ok) 4 (VersionNumberToTag v)) <$> vs).
Proof.
  unfold ComposeVersionNegotiation.
  assert (forall pre, fold_left (fun buf v => buf ++ (WriteUint32 LittleEndian (VersionNumberToTag v)).1) vs pre
    = pre ++ mjoin ((fun v => enc (ByteOrderOk := LittleEndian_ok) 4 (VersionNumberToTag v)) <$> vs)) as ->.
  { induction vs as [|v vs IH]; intros pre; [by rewrite app_nil_r|]. cbn [fold_left].
    rewrite IH, write32, <- app_assoc. done. }
  unfold PublicHeader.Write. cbn -[enc WriteUint64]. by rewrite write64.
Qed.

Lemma length_tags vs :
  Z.of_nat (length (mjoin ((fun v => enc (ByteOrderOk := LittleEndian_ok) 4 (VersionNumberToTag v)) <$> vs)))
  = 4 * Z.of_nat (length vs).
Proof.
  induction vs as [|v vs IH]; [done|].
  change (mjoin (_ <$> v :: vs)) with (enc (ByteOrderOk := LittleEndian_ok) 4 (VersionNumberToTag v) ++
    mjoin ((fun v => enc (ByteOrderOk := LittleEndian_ok) 4 (VersionNumberToTag v)) <$> vs)).
  rewrite length_app, enc_length, Nat2Z.inj_add, IH. cbn [length]. lia.
Qed.

(** The client reads from a version negotiation packet exactly the versions the
    server offered, for its connection, whatever version it tried first. *)
Theorem version_negotiation_roundtrip c vs version :
  1 <= c < 2 ^ 64 -> Forall (fun v => 0 <= v < 1000) vs ->
  exists h, PublicHeader.ParsePublicHeader PerspectiveServer version
      (ComposeVersionNegotiation c vs) = Ok (h, []) /\
    PublicHeader.ConnectionID h = c /\ PublicHeader.VersionFlag h = true /\
    PublicHeader.ResetFlag h = false /\ PublicHeader.SupportedVersions h = vs.
Proof.
  intros Hc Hvs. rewrite Compose_bytes. unfold PublicHeader.ParsePublicHeader.
  erewrite reader_bind_ok by done.
  change (0 <? Z.land 9 2) with false. change (0 <? Z.land 9 1) with true.
  change (0 <? Z.land 9 4) with false. change (0 <? Z.land 9 64) with false.
  change (Z.land 9 8 =? 0) with false. cbn [negb andb orb is_server]. rewrite andb_false_r.
  erewrite reader_bind_ok by (apply read64_enc; lia).
  rewrite (proj2 (Z.eqb_neq _ _)) by lia. cbn [andb].
  erewrite reader_bind_ok by done. unfold PublicHeader.parse_version. cbn [PublicHeader.ResetFlag PublicHeader.VersionFlag negb andb is_server].
  erewrite reader_bind_ok by done. rewrite length_tags, Z.mul_comm, Z.mod_mul by lia. cbn [negb Z.eqb].
  rewrite read_versions_tags; [by eexists| |done].
  pose proof (length_tags vs). lia.
Qed.

Lemma version_negotiation_roundtrip_witness :
  exists h, PublicHeader.ParsePublicHeader PerspectiveServer VersionMP
      (ComposeVersionNegotiation 77 SupportedVersions) = Ok (h, []) /\
    PublicHeader.ConnectionID h = 77 /\ PublicHeader.VersionFlag h = true /\
    PublicHeader.ResetFlag h = false /\ PublicHeader.SupportedVersions h = SupportedVersions.
Proof.
  apply (version_negotiation_roundtrip 77 SupportedVersions VersionMP); [lia|].
  repeat constructor; done.
Defined.
