(* ===== verification/Handshake.v ===== *)
(** * Handshake messages and the public reset

    Models [internal/handshake/handshake_message.go], [internal/handshake/tags.go] and
    [internal/wire/public_reset.go].  A message is a tag and a map from tags to values; on the wire
    an index with the end of each value stands before the values.  The [io.Reader] a message is
    parsed from is the list of the bytes that are left. *)

From stdpp Require Import base numbers list option strings gmap sorting.
From S2P Require Import Prelude ByteOrder Protocol PublicHeader.

Local Open Scope Z_scope.

(** ** Tags *)

(** ['A' + 'B'<<8 + ...] *)
Fixpoint chars (s : string) : Z :=
  match s with
  | EmptyString => 0
  | String c s => Z.of_N (Strings.Ascii.N_of_ascii c) + Z.shiftl (chars s) 8
  end.

(** [[]byte("...")] *)
Fixpoint bytes_of_string (s : string) : list Z :=
  match s with
  | EmptyString => []
  | String c s => Z.of_N (Strings.Ascii.N_of_ascii c) :: bytes_of_string s
  end.

Definition TagCHLO : Z := chars "CHLO".
Definition TagREJ : Z := chars "REJ".
Definition TagSHLO : Z := chars "SHLO".
Definition TagSCFG : Z := chars "SCFG".
Definition TagMSPC : Z := chars "MSPC".
Definition TagMIDS : Z := chars "MIDS".
Definition TagTCID : Z := chars "TCID".
Definition TagICSL : Z := chars "ICSL".
Definition TagCFCW : Z := chars "CFCW".
Definition TagSFCW : Z := chars "SFCW".
Definition TagPAD : Z := chars "PAD".
Definition TagSNI : Z := chars "SNI".
Definition TagVER : Z := chars "VER".
Definition TagCCS : Z := chars "CCS".
Definition TagCCRT : Z := chars "CCRT".
Definition TagSVID : Z := chars "SVID".
Definition TagPDMD : Z := chars "PDMD".
Definition TagFHL2 : Z := chars "FHL2".
Definition TagNSTP : Z := chars "NSTP".
Definition TagSTK : Z := chars "STK".
Definition TagSNO : Z := chars "SNO".
Definition TagPROF : Z := chars "PROF".
Definition TagNONC : Z := chars "NONC".
Definition TagXLCT : Z := chars "XLCT".
Definition TagSCID : Z := chars "SCID".
Definition TagKEXS : Z := chars "KEXS".
Definition TagAEAD : Z := chars "AEAD".
Definition TagPUBS : Z := chars "PUBS".
Definition TagOBIT : Z := chars "OBIT".
Definition TagEXPY : Z := chars "EXPY".
Definition TagCERT : Z := 0xff545243.
Definition TagPRST : Z := chars "PRST".
Definition TagRSEQ : Z := chars "RSEQ".
Definition TagRNON : Z := chars "RNON".

(** ** Messages *)

Definition CryptoMaxParams : Z := 128.
Definition CryptoParameterMaxLength : Z := 4000.

Module HandshakeMessage.

Record t : Type := Mk {
  Tag : Z;
  Data : gmap Z (list Z);
}.

(** [binary.LittleEndian.Uint32] of the four bytes read. *)
Definition read_uint32 : reader Z :=
  slice4 ← ReadFull 4;
  match LE.ReadUint32 slice4 with Ok (v, _) => mret v | _ => crash end.

(** The loop over the index of [ParseHandshakeMessage]. *)
Fixpoint parse_values (k : nat) (index : list Z) (dataStart : Z) (resultMap : gmap Z (list Z)) : reader (gmap Z (list Z)) :=
  match k with
  | O => mret resultMap
  | S k =>
      match LE.ReadUint32 index with
      | Ok (tag, index) =>
          match LE.ReadUint32 index with
          | Ok (dataEnd, index) =>
              let dataLen := u32 (dataEnd - dataStart) in
              if CryptoParameterMaxLength <? dataLen then throw (QErr "CryptoInvalidValueLength" "value too long")
              else data ← ReadFull dataLen; parse_values k index dataEnd (<[tag := data]> resultMap)
          | _ => crash
          end
      | _ => crash
      end
  end.

Definition ParseHandshakeMessage : reader t :=
  messageTag ← read_uint32;
  nPairs ← read_uint32;
  if CryptoMaxParams <? nPairs then throw (QErr "CryptoTooManyEntries" "")
  else
    index ← ReadFull (nPairs * 8);
    resultMap ← parse_values (Z.to_nat nPairs) index 0 ∅;
    mret (Mk messageTag resultMap).

Definition getTagsSorted (h : t) : list Z := merge_sort Z.le (map fst (map_to_list (Data h))).

(** The loop of [Write]: the index and the values. *)
Fixpoint write_values (data : gmap Z (list Z)) (tags : list Z) (offset : Z) : list Z * list Z :=
  match tags with
  | [] => ([], [])
  | t :: tags =>
      let v := default [] (data !! t) in
      let offset := u32 (offset + u32 (Z.of_nat (length v))) in
      let '(index, values) := write_values data tags offset in
      ((LE.WriteUint32 t).1 ++ (LE.WriteUint32 offset).1 ++ index, v ++ values)
  end.

Definition Write (h : t) : writer :=
  let '(index, values) := write_values (Data h) (getTagsSorted h) 0 in
  LE.WriteUint32 (Tag h) >;> LE.WriteUint16 (u16 (Z.of_nat (size (Data h)))) >;> LE.WriteUint16 0
  >;> wbytes index >;> wbytes values.

End HandshakeMessage.

(** ** Public reset *)

Module PublicReset.

Record t : Type := Mk {
  RejectedPacketNumber : Z;
  Nonce : Z;
}.

Definition WritePublicReset (connectionID rejectedPacketNumber nonceProof : Z) : writer :=
  WriteByte 0x0a >;> LE.WriteUint64 connectionID >;> LE.WriteUint32 TagPRST >;> LE.WriteUint32 2
  >;> LE.WriteUint32 TagRNON >;> LE.WriteUint32 8 >;> LE.WriteUint32 TagRSEQ >;> LE.WriteUint32 16
  >;> LE.WriteUint64 nonceProof >;> LE.WriteUint64 rejectedPacketNumber.

Definition errTag : goerr := GoErr "wrong public reset tag".
Definition missing (name : string) : goerr := GoErr (name +:+ " missing").
Definition invalid (name : string) : goerr := GoErr ("invalid " +:+ name +:+ " tag").

(** A value of eight bytes. *)
Definition number (name : string) (value : option (list Z)) : reader Z :=
  match value with
  | None => throw (missing name)
  | Some v =>
      if negb (length v =? 8)%nat then throw (invalid name)
      else match LE.ReadUint64 v with Ok (n, _) => mret n | _ => crash end
  end.

Definition ParsePublicReset : reader t :=
  msg ← HandshakeMessage.ParseHandshakeMessage;
  if negb (HandshakeMessage.Tag msg =? TagPRST) then throw errTag
  else
    rseq ← number "RSEQ" (HandshakeMessage.Data msg !! TagRSEQ);
    rnon ← number "RNON" (HandshakeMessage.Data msg !! TagRNON);
    mret (Mk rseq rnon).

End PublicReset.

(** ** Facts about messages *)

Abbreviation valid_value v := (bytes_ok v /\ (length v <= 4000)%nat).

Record message_ok (h : HandshakeMessage.t) : Prop := {
  mo_tag : 0 <= HandshakeMessage.Tag h < 2 ^ 32;
  mo_size : (size (HandshakeMessage.Data h) <= 128)%nat;
  mo_tags t v : HandshakeMessage.Data h !! t = Some v -> 0 <= t < 2 ^ 32;
  mo_values t v : HandshakeMessage.Data h !! t = Some v -> valid_value v;
}.

(** A value that can be written. *)
Definition good_value (t : Z) (v : list Z) : Prop := 0 <= t < 2 ^ 32 /\ valid_value v.
Lemma message_ok_intro tag data :
  0 <= tag < 2 ^ 32 -> (size data <= 128)%nat -> map_Forall good_value data -> message_ok (HandshakeMessage.Mk tag data).
Proof. intros Ht Hs H. split; [done..| |]; intros t v E; by destruct (H t v E). Qed.

Section Messages.
Import HandshakeMessage.

Lemma LE_write32 v : LE.WriteUint32 v = wbytes (le_bytes 4 v).
Proof. done. Qed.
Lemma LE_read32_bytes v r : 0 <= v < 2 ^ 32 -> LE.ReadUint32 (le_bytes 4 v ++ r) = Ok (v, r).
Proof. exact (read32_enc LittleEndian v r). Qed.

Lemma LE_read64_bytes v r : 0 <= v < 2 ^ 64 -> LE.ReadUint64 (le_bytes 8 v ++ r) = Ok (v, r).
Proof. exact (read64_enc LittleEndian v r). Qed.

Lemma read_uint32_bytes v r : 0 <= v < 2 ^ 32 -> read_uint32 (le_bytes 4 v ++ r) = Ok (v, r).
Proof.
  intros Hv. unfold read_uint32. erewrite reader_bind_ok by exact (ReadFull_app (le_bytes 4 v) r).
  rewrite <- (app_nil_r (le_bytes 4 v)), LE_read32_bytes by done. done.
Qed.

(** Reading the values back, in the order they were written. *)
Lemma parse_written data tags : forall offset res r,
  (forall t, t ∈ tags -> 0 <= t < 2 ^ 32 /\ exists v, data !! t = Some v /\ valid_value v) ->
  0 <= offset -> offset + 4000 * Z.of_nat (length tags) < 2 ^ 32 ->
  parse_values (length tags) (write_values data tags offset).1 offset res ((write_values data tags offset).2 ++ r)
  = Ok (foldl (fun res t => <[t := default [] (data !! t)]> res) res tags, r).
Proof.
  induction tags as [|t tags IH]; intros offset res r Htags Ho Hlen; cbn [write_values parse_values length foldl]; [done|].
  destruct (Htags t ltac:(left)) as (Ht & v & Ev & Hv & Hl). rewrite Ev. change (default [] (Some v)) with v.
  rewrite (u32_small (Z.of_nat _)) by lia. set (o := u32 _). assert (o = offset + Z.of_nat (length v)) as Eo by (apply u32_small; cbn [length] in Hlen; lia).
  destruct (write_values data tags o) as [index values] eqn:E. rewrite !LE_write32. cbn [fst snd wbytes].
  rewrite LE_read32_bytes by done. rewrite LE_read32_bytes by (cbn [length] in Hlen; lia).
  rewrite u32_small by lia. replace (o - offset) with (Z.of_nat (length v)) by lia.
  unfold CryptoParameterMaxLength. rewrite (proj2 (Z.ltb_ge _ _)) by lia.
  rewrite <- app_assoc. erewrite reader_bind_ok by apply ReadFull_app.
  specialize (IH o (<[t := v]> res) r). rewrite E in IH. apply IH; [|lia|cbn [length] in Hlen; lia].
  intros t' Ht'. apply Htags. by right.
Qed.

Lemma insert_all_lookup (data : gmap Z (list Z)) tags : forall (res : gmap Z (list Z)) k,
  foldl (fun res t => <[t := default [] (data !! t)]> res) res tags !! k
  = if decide (k ∈ tags) then Some (default [] (data !! k)) else res !! k.
Proof.
  induction tags as [|t tags IH]; intros res k; cbn [foldl]; [by rewrite decide_False by apply not_elem_of_nil|].
  rewrite IH. destruct (decide (k ∈ tags)) as [H|H]; [by rewrite decide_True by (by right)|].
  destruct (decide (k = t)) as [->|Hk]; [rewrite decide_True by left; apply lookup_insert_eq|].
  rewrite decide_False by (rewrite elem_of_cons; tauto). by rewrite lookup_insert_ne.
Qed.

Lemma elem_of_tags h t : t ∈ getTagsSorted h <-> is_Some (Data h !! t).
Proof.
  unfold getTagsSorted. rewrite merge_sort_Permutation, list_elem_of_fmap. split.
  - intros ([k v] & -> & H%elem_of_map_to_list). by eexists.
  - intros [v Hv]. exists (t, v). split; [done|]. by apply elem_of_map_to_list.
Qed.
Lemma length_sorted h : length (getTagsSorted h) = size (Data h).
Proof. unfold getTagsSorted. by rewrite merge_sort_Permutation, length_fmap, length_map_to_list. Qed.

Lemma map_of_tags h : foldl (fun res t => <[t := default [] (Data h !! t)]> res) (∅ : gmap Z (list Z)) (getTagsSorted h) = Data h.
Proof.
  apply map_eq. intros k. rewrite insert_all_lookup. destruct (decide _) as [[v Hv]%elem_of_tags|Hk].
  - by rewrite Hv.
  - rewrite lookup_empty. symmetry. rewrite elem_of_tags in Hk. by apply eq_None_not_Some.
Qed.

Lemma length_index data tags : forall offset, length (write_values data tags offset).1 = (8 * length tags)%nat.
Proof.
  induction tags as [|t tags IH]; intros offset; cbn [write_values length]; [done|].
  specialize (IH (u32 (offset + u32 (Z.of_nat (length (default [] (data !! t))))))).
  destruct (write_values data tags _) as [i v]. cbn [fst] in *. rewrite !length_app, IH. cbn. lia.
Qed.

(** The number of parameters is written as two 16-bit numbers. *)
Lemma le_bytes_high n : 0 <= n < 2 ^ 16 -> le_bytes 2 n ++ le_bytes 2 0 = le_bytes 4 n.
Proof.
  intros Hn. assert (Z.shiftr n 16 = 0 /\ Z.shiftr n 24 = 0) as [E1 E2] by (rewrite !Z.shiftr_div_pow2, !Z.div_small by lia; done).
  unfold le_bytes. cbn [seq map app]. change (8 * Z.of_nat 2) with 16. change (8 * Z.of_nat 3) with 24. by rewrite E1, E2.
Qed.

(** A message that is written, and what reads it back. *)
Lemma parse_write h r :
  message_ok h -> (Write h).2 = Ok tt /\ ParseHandshakeMessage ((Write h).1 ++ r) = Ok (h, r).
Proof.
  intros [Htag Hsize Htags Hvalues]. unfold Write.
  pose proof (parse_written (Data h) (getTagsSorted h) 0 ∅ r) as Hparse. pose proof (length_index (Data h) (getTagsSorted h) 0) as Hlen.
  rewrite map_of_tags, length_sorted in *. rewrite u16_small by lia.
  destruct (write_values (Data h) (getTagsSorted h) 0) as [index values]. cbn [fst snd] in *.
  split; [done|]. change ((_ >;> _)%go.1) with (le_bytes 4 (Tag h) ++ le_bytes 2 (Z.of_nat (size (Data h))) ++ le_bytes 2 0 ++ index ++ values).
  rewrite (app_assoc (le_bytes 2 _)), le_bytes_high, <- !app_assoc by lia. unfold ParseHandshakeMessage.
  erewrite reader_bind_ok by (apply read_uint32_bytes; done). erewrite reader_bind_ok by (apply read_uint32_bytes; lia).
  unfold CryptoMaxParams. rewrite (proj2 (Z.ltb_ge _ _)) by lia.
  replace (Z.of_nat (size (Data h)) * 8) with (Z.of_nat (length index)) by lia. erewrite reader_bind_ok by apply ReadFull_app.
  rewrite Nat2Z.id. erewrite reader_bind_ok.
  2: { apply Hparse; [|lia|lia]. intros t [v Hv]%elem_of_tags. split; [by eapply Htags|]. exists v. split; [done|]. by eapply Hvalues. }
  by destruct h.
Qed.

(** A handshake message that is written is parsed back as the same message, whatever follows it,
    if it has at most 128 parameters of at most 4000 bytes. *)
Theorem handshake_message_roundtrip h r :
  message_ok h -> (Write h).2 = Ok tt /\ ParseHandshakeMessage ((Write h).1 ++ r) = Ok (h, r).
Proof. apply parse_write. Qed.

Lemma LE_read32_4 b1 b2 b3 b4 s : exists v, LE.ReadUint32 (b1 :: b2 :: b3 :: b4 :: s) = Ok (v, s) /\ 0 <= v < 2 ^ 32.
Proof. eexists. split; [reflexivity|]. word. Qed.

Lemma parse_values_yields k : forall index dataStart res, bytes_ok index -> length index = (8 * k)%nat ->
  map_Forall (fun t v => 0 <= t < 2 ^ 32 /\ valid_value v) res -> 0 <= dataStart ->
  yields (parse_values k index dataStart res)
    (fun m => map_Forall (fun t v => 0 <= t < 2 ^ 32 /\ valid_value v) m /\ (size m <= size res + k)%nat).
Proof.
  induction k as [|k IH]; intros index dataStart res Hb Hlen Hres Hd; cbn [parse_values].
  { apply yields_ret. split; [done|lia]. }
  destruct index as [|b1 [|b2 [|b3 [|b4 [|b5 [|b6 [|b7 [|b8 index]]]]]]]]; cbn [length] in Hlen; try lia.
  destruct (LE_read32_4 b1 b2 b3 b4 (b5 :: b6 :: b7 :: b8 :: index)) as (tag & -> & Htag).
  destruct (LE_read32_4 b5 b6 b7 b8 index) as (dataEnd & -> & Hend). set (dataLen := u32 (dataEnd - dataStart)).
  apply yields_if; [intros _; apply yields_throw|]. intros Hshort%Z.ltb_ge.
  eapply yields_bind; [apply yields_ReadFull; unfold dataLen; word|]. cbn beta. intros data [Hl Hok].
  assert (map_Forall (fun t v => 0 <= t < 2 ^ 32 /\ valid_value v) (<[tag := data]> res)) as Hres'.
  { apply map_Forall_insert_2; [|done]. split; [done|]. split; [done|]. unfold CryptoParameterMaxLength in Hshort. lia. }
  eapply yields_weaken; [apply IH; [by (do 8 apply Forall_cons in Hb as [_ Hb])|lia|exact Hres'|lia]|].
  cbn beta. intros m [H1 H2]. split; [done|]. rewrite map_size_insert in H2. destruct (res !! tag); cbn in H2; lia.
Qed.

(** On any input [ParseHandshakeMessage] returns an error or a message that can be written: it never
    panics, and a message it accepts has at most 128 parameters of at most 4000 bytes. *)
Theorem handshake_parser_sound s :
  bytes_ok s -> ParseHandshakeMessage s <> Panic /\ forall h r, ParseHandshakeMessage s = Ok (h, r) -> message_ok h.
Proof.
  assert (yields read_uint32 (fun v => 0 <= v < 2 ^ 32)) as Hread.
  { unfold read_uint32. eapply yields_bind; [apply yields_ReadFull; lia|]. cbn beta. intros bs [Hl Hb].
    destruct bs as [|b1 [|b2 [|b3 [|b4 [|]]]]]; cbn [length] in Hl; try lia.
    destruct (LE_read32_4 b1 b2 b3 b4 []) as (v & -> & Hv). by apply yields_ret. }
  intros Hs. enough (yields ParseHandshakeMessage message_ok) as H.
  { destruct (H s Hs) as [? Ho]. split; [done|]. intros h r E. by apply (Ho h r). }
  unfold ParseHandshakeMessage. eapply yields_bind; [exact Hread|]. cbn beta. intros tag Htag.
  eapply yields_bind; [exact Hread|]. cbn beta. intros n Hn. apply yields_if; [intros _; apply yields_throw|]. intros Hle%Z.ltb_ge.
  eapply yields_bind; [apply yields_ReadFull; lia|]. cbn beta. intros index [Hl Hb].
  eapply yields_bind; [apply parse_values_yields; [done|lia|apply map_Forall_empty|lia]|]. cbn beta. intros m [H1 H2].
  apply yields_ret. unfold CryptoMaxParams in Hle. rewrite map_size_empty in H2. constructor; cbn [Tag Data]; [done|lia| |]; intros t v E; by destruct (H1 t v E).
Qed.
End Messages.

(** A public reset that a server sends for a connection is parsed by its client as a reset of that
    connection, with the same packet number and nonce. *)
Theorem public_reset_roundtrip connectionID n nonce version :
  0 < connectionID < 2 ^ 64 -> 0 <= n < 2 ^ 64 -> 0 <= nonce < 2 ^ 64 ->
  exists h r, PublicHeader.ParsePublicHeader PerspectiveServer version (PublicReset.WritePublicReset connectionID n nonce).1 = Ok (h, r)
    /\ PublicHeader.ResetFlag h = true /\ PublicHeader.ConnectionID h = connectionID
    /\ PublicReset.ParsePublicReset r = Ok (PublicReset.Mk n nonce, []).
Proof.
  intros Hc Hn Hnonce.
  set (body := le_bytes 4 TagPRST ++ le_bytes 4 2 ++ (le_bytes 4 TagRNON ++ le_bytes 4 8 ++ le_bytes 4 TagRSEQ ++ le_bytes 4 16) ++ le_bytes 8 nonce ++ le_bytes 8 n).
  change (PublicReset.WritePublicReset connectionID n nonce).1 with (10 :: le_bytes 8 connectionID ++ body).
  eexists (PublicHeader.Mk connectionID 0 false true false false 0 0 0 [] []), body. split; [|split; [done|split; [done|]]].
  - unfold PublicHeader.ParsePublicHeader. erewrite reader_bind_ok by reflexivity. cbn beta zeta.
    change (0 <? Z.land 10 2) with true. change (0 <? Z.land 10 1) with false. change (Z.land 10 8 =? 0) with false.
    replace ((version =? VersionUnknown) && negb (false || true)) with false by (by destruct (version =? _)).
    cbn [orb negb andb PublicHeader.is_server is_server].
    erewrite reader_bind_ok by exact (read64_enc LittleEndian connectionID body ltac:(lia)).
    rewrite (proj2 (Z.eqb_neq connectionID 0)) by lia. done.
  - unfold PublicReset.ParsePublicReset. set (h := HandshakeMessage.Mk TagPRST (<[TagRSEQ := le_bytes 8 n]> (<[TagRNON := le_bytes 8 nonce]> ∅))).
    erewrite (reader_bind_ok _ _ body h []).
    2: { unfold body, HandshakeMessage.ParseHandshakeMessage.
         erewrite reader_bind_ok by (apply read_uint32_bytes; done). erewrite reader_bind_ok by (apply read_uint32_bytes; lia).
         change (CryptoMaxParams <? 2) with false. done. }
    cbn [HandshakeMessage.Tag HandshakeMessage.Data h]. change (negb (TagPRST =? TagPRST)) with false. cbn match.
    rewrite lookup_insert_eq, lookup_insert_ne, lookup_insert_eq by done. unfold PublicReset.number. rewrite !length_le_bytes. cbn [Nat.eqb negb].
    rewrite <- (app_nil_r (le_bytes 8 n)), <- (app_nil_r (le_bytes 8 nonce)), !LE_read64_bytes by done. done.
Qed.

(** ** Witnesses *)

Definition sample_message : HandshakeMessage.t :=
  HandshakeMessage.Mk TagCHLO (<[TagICSL := [30; 0; 0; 0]]> {[TagMSPC := [100; 0; 0; 0]]}).
Lemma sample_message_ok : message_ok sample_message.
Proof.
  apply message_ok_intro; [done|vm_compute; lia|].
  apply map_Forall_insert_2; [|apply map_Forall_singleton]; (split; [done|split; [repeat constructor; lia|cbn; lia]]).
Qed.

Lemma handshake_message_roundtrip_witness :
  HandshakeMessage.ParseHandshakeMessage ((HandshakeMessage.Write sample_message).1 ++ [7]) = Ok (sample_message, [7]).
Proof. apply (handshake_message_roundtrip sample_message [7]), sample_message_ok. Defined.

Lemma handshake_parser_sound_witness :
  HandshakeMessage.ParseHandshakeMessage (repeat 0 20) <> Panic
  /\ exists h r, HandshakeMessage.ParseHandshakeMessage (repeat 0 20) = Ok (h, r) /\ message_ok h.
Proof.
  destruct (handshake_parser_sound (repeat 0 20)) as [H1 H2]; [repeat constructor; lia|]. split; [exact H1|].
  eexists _, _. split; [vm_compute; reflexivity|]. eapply H2. vm_compute. reflexivity.
Defined.

Lemma public_reset_roundtrip_witness :
  exists h r, PublicHeader.ParsePublicHeader PerspectiveServer VersionMP (PublicReset.WritePublicReset 0xdecafbad 1000 7).1 = Ok (h, r)
    /\ PublicHeader.ConnectionID h = 0xdecafbad /\ PublicReset.ParsePublicReset r = Ok (PublicReset.Mk 1000 7, []).
Proof. destruct (public_reset_roundtrip 0xdecafbad 1000 7 VersionMP) as (h & r & H1 & _ & H2 & H3); [lia..|]. by exists h, r. Defined.
