(* ===== verification/ServerConfig.v ===== *)
(** * Server configurations

    Models [internal/handshake/server_config.go], [internal/handshake/server_config_client.go] and
    [HashCert]: the configuration of a server, which it sends as a handshake message, and what a
    client reads from it.

    The key exchange and the certificate chain are the interfaces of [internal/crypto], records of
    functions; the client's new key pair is an argument. *)

From stdpp Require Import base numbers list option strings gmap.
From S2P Require Import Prelude ByteOrder Protocol PublicHeader Handshake.

Local Open Scope Z_scope.

(** [crypto.KeyExchange] *)
Record KeyExchange : Type := MkKEX {
  PublicKey : list Z;
  CalculateSharedKey : list Z -> res (list Z);
}.

(** [crypto.CertChain] *)
Module CertChain.
Record t : Type := Mk {
  SignServerProof : list Z -> list Z -> list Z -> res (list Z);      (* SNI, CHLO, configuration *)
  GetCertsCompressed : list Z -> list Z -> list Z -> res (list Z);   (* SNI, common sets, cached *)
  GetLeafCert : list Z -> res (list Z);
}.
End CertChain.

(** FNV-1a with 64 bits. *)
Definition HashCert (cert : list Z) : Z :=
  foldl (fun h b => u64 (Z.lxor h b * 1099511628211)) 14695981039346656037 cert.

(** ** The server's side *)

Module ServerConfig.

Record t : Type := Mk {
  kex : KeyExchange;
  certChain : CertChain.t;
  ID : list Z;
  obit : list Z;
}.

(** [NewServerConfig]: [id] and [obit] are random. *)
Definition NewServerConfig (kex : KeyExchange) (certChain : CertChain.t) (id obit : list Z) : t := Mk kex certChain id obit.

Definition message (s : t) : HandshakeMessage.t :=
  HandshakeMessage.Mk TagSCFG
    (<[TagSCID := ID s]>
    (<[TagKEXS := bytes_of_string "C255"]>
    (<[TagAEAD := bytes_of_string "AESG"]>
    (<[TagPUBS := [0x20; 0x00; 0x00] ++ PublicKey (kex s)]>
    (<[TagOBIT := obit s]>
    {[TagEXPY := repeat 0xff 8]}))))).

Definition Get (s : t) : list Z := (HandshakeMessage.Write (message s)).1.

Definition Sign (s : t) (sni chlo : list Z) : res (list Z) := CertChain.SignServerProof (certChain s) sni chlo (Get s).
Definition GetCertsCompressed (s : t) (sni commonSetHashes compressedHashes : list Z) : res (list Z) :=
  CertChain.GetCertsCompressed (certChain s) sni commonSetHashes compressedHashes.

End ServerConfig.

(** ** The client's side *)

Module serverConfigClient.

Record t : Type := Mk {
  raw : list Z;
  ID : list Z;
  obit : list Z;
  expiry : Z;                 (* in seconds *)
  kex : KeyExchange;
  sharedSecret : list Z;
}.

Definition errMessageNotServerConfig : goerr := GoErr "ServerConfig must have TagSCFG".
Definition notFound (name : string) : goerr := QErr "CryptoMessageParameterNotFound" name.
Definition badLength (name : string) : goerr := QErr "CryptoInvalidValueLength" name.

(** The first index at which four bytes of the list are these. *)
Fixpoint find4 (tag : list Z) (i : nat) (l : list Z) : option nat :=
  match l with
  | a :: b :: c :: d :: l => if decide ([a; b; c; d] = tag) then Some i else find4 tag (S i) l
  | _ => None
  end.

(** The loop over the public values, each behind its length in three bytes. *)
Fixpoint parse_pubs (fuel : nat) (pubs : list Z) : res (list (Z * list Z)) :=
  match fuel with
  | O => Ok []
  | S fuel =>
      match pubs with
      | b0 :: b1 :: b2 :: _ :: _ =>
          let rest := drop 3 pubs in
          let last_len := b0 + Z.shiftl b1 8 + Z.shiftl b2 16 in
          if last_len =? 0 then Err (badLength "PUBS")
          else if Z.of_nat (length rest) <? last_len then Err (badLength "PUBS")
          else more ← parse_pubs fuel (drop (Z.to_nat last_len) rest);
               mret ((last_len, take (Z.to_nat last_len) rest) :: more)
      | _ => Ok []
      end
  end.

Definition find_tag (tagMap : gmap Z (list Z)) (tag : Z) (name : string) : res (list Z) :=
  match tagMap !! tag with Some v => Ok v | None => Err (notFound name) end.

Definition check_that (b : bool) (e : goerr) : res unit := if b then Ok tt else Err e.

Definition MaxInt64 : Z := 2 ^ 63 - 1.

(** [newKEX] is what [NewCurve25519KEX] returns. *)
Definition parseValues (newKEX : res KeyExchange) (raw : list Z) (tagMap : gmap Z (list Z)) : res t :=
  scfgID ← find_tag tagMap TagSCID "SCID";
  _ ← check_that (length scfgID =? 16)%nat (badLength "SCID");
  kexs ← find_tag tagMap TagKEXS "KEXS";
  _ ← check_that (length kexs mod 4 =? 0)%nat (badLength "KEXS");
  c255Foundat ← (match find4 (bytes_of_string "C255") 0 kexs with
                 | Some i => Ok i
                 | None => Err (QErr "CryptoNoSupport" "KEXS: Could not find C255, other key exchanges are not supported")
                 end);
  aead ← find_tag tagMap TagAEAD "AEAD";
  _ ← check_that (length aead mod 4 =? 0)%nat (badLength "AEAD");
  _ ← check_that (match find4 (bytes_of_string "AESG") 0 aead with Some _ => true | None => false end) (QErr "CryptoNoSupport" "AEAD");
  pubs ← find_tag tagMap TagPUBS "PUBS";
  pubs_kexs ← parse_pubs (length pubs) pubs;
  '(len, value) ← (match pubs_kexs !! c255Foundat with Some p => Ok p | None => Err (notFound "KEXS not in PUBS") end);
  _ ← check_that (len =? 32) (badLength "PUBS");
  kex ← newKEX;
  sharedSecret ← CalculateSharedKey kex value;
  obit ← find_tag tagMap TagOBIT "OBIT";
  _ ← check_that (length obit =? 8)%nat (badLength "OBIT");
  expy ← find_tag tagMap TagEXPY "EXPY";
  _ ← check_that (length expy =? 8)%nat (badLength "EXPY");
  '(stamp, _) ← LE.ReadUint64 expy;
  mret (Mk raw scfgID obit (Z.min stamp (MaxInt64 / 2)) kex sharedSecret).

Definition parseServerConfig (newKEX : res KeyExchange) (data : list Z) : res t :=
  '(message, _) ← HandshakeMessage.ParseHandshakeMessage data;
  if negb (HandshakeMessage.Tag message =? TagSCFG) then Err errMessageNotServerConfig
  else parseValues newKEX data (HandshakeMessage.Data message).

(** [now] in nanoseconds since 1970. *)
Definition IsExpired (s : t) (now : Z) : bool := expiry s * Second <? now.

Definition Get (s : t) : list Z := raw s.

End serverConfigClient.

(** ** What the client reads *)

Section Facts.
Context (s : ServerConfig.t).
Hypothesis ID_ok : bytes_ok (ServerConfig.ID s) /\ length (ServerConfig.ID s) = 16%nat.
Hypothesis obit_ok : bytes_ok (ServerConfig.obit s) /\ length (ServerConfig.obit s) = 8%nat.
Hypothesis key_ok : bytes_ok (PublicKey (ServerConfig.kex s)) /\ length (PublicKey (ServerConfig.kex s)) = 32%nat.

Lemma config_message_ok : message_ok (ServerConfig.message s).
Proof using ID_ok obit_ok key_ok.
  assert (map_Forall (fun t v => 0 <= t < 2 ^ 32 /\ bytes_ok v /\ (length v <= 4000)%nat) (HandshakeMessage.Data (ServerConfig.message s))) as H.
  { destruct ID_ok as [? E1], obit_ok as [? E2], key_ok as [? E3]. cbn [HandshakeMessage.Data ServerConfig.message].
    repeat (apply map_Forall_insert_2; [split; [done|]|]); [split; [|cbn; lia]..|].
    - done.
    - repeat constructor; cbn; lia.
    - repeat constructor; cbn; lia.
    - apply bytes_ok_app. split; [repeat constructor; lia|done].
    - done.
    - repeat constructor; lia.
    - by intros ? ?. }
  constructor; [done| | |].
  - cbn [HandshakeMessage.Data ServerConfig.message]. rewrite !map_size_insert_None by done. rewrite map_size_singleton. lia.
  - intros t v E. by destruct (H t v E).
  - intros t v E. by destruct (H t v E).
Qed.


Lemma parse_pubs_key : serverConfigClient.parse_pubs 35 ([0x20; 0x00; 0x00] ++ PublicKey (ServerConfig.kex s)) = Ok [(32, PublicKey (ServerConfig.kex s))].
Proof using key_ok.
  clear ID_ok obit_ok. destruct key_ok as [_ E]. destruct (PublicKey _) as [|k l] eqn:Ek; [done|].
  assert (length (drop 32 (k :: l)) = 0%nat) as Hd by (rewrite length_drop; lia). apply nil_length_inv in Hd.
  assert (take 32 (k :: l) = k :: l) as Ht by (apply take_ge; lia).
  cbn [app]. cbn [serverConfigClient.parse_pubs drop]. change (32 + Z.shiftl 0 8 + Z.shiftl 0 16) with 32. change (32 =? 0) with false.
  rewrite E. change (Z.of_nat 32 <? 32) with false. cbn match. change (Z.to_nat 32) with 32%nat. by rewrite Hd, Ht.
Qed.

Lemma find_C255 : serverConfigClient.find4 (bytes_of_string "C255") 0 (bytes_of_string "C255") = Some 0%nat.
Proof. by vm_compute. Qed.
Lemma find_AESG : serverConfigClient.find4 (bytes_of_string "AESG") 0 (bytes_of_string "AESG") = Some 0%nat.
Proof. by vm_compute. Qed.

(** The client reads from a server's configuration what the server put into it, and keeps the bytes it
    was sent in; the shared secret is the one for the server's public key. *)
Theorem server_config_roundtrip newKEX kex secret :
  newKEX = Ok kex -> CalculateSharedKey kex (PublicKey (ServerConfig.kex s)) = Ok secret ->
  serverConfigClient.parseServerConfig newKEX (ServerConfig.Get s)
  = Ok (serverConfigClient.Mk (ServerConfig.Get s) (ServerConfig.ID s) (ServerConfig.obit s) (serverConfigClient.MaxInt64 / 2) kex secret).
Proof using ID_ok obit_ok key_ok.
  intros -> Hsecret. unfold serverConfigClient.parseServerConfig.
  pose proof (parse_write _ [] config_message_ok) as [_ E]. rewrite app_nil_r in E.
  change (HandshakeMessage.Write (ServerConfig.message s)).1 with (ServerConfig.Get s) in E.
  rewrite E. destruct ID_ok as [_ E1], obit_ok as [_ E2], key_ok as [_ E3].
  cbn [mbind res_bind HandshakeMessage.Tag HandshakeMessage.Data ServerConfig.message]. change (negb (TagSCFG =? TagSCFG)) with false. cbn match.
  unfold serverConfigClient.parseValues.
  set (m := insert TagSCID _ _).
  assert (m !! TagSCID = Some (ServerConfig.ID s) /\ m !! TagKEXS = Some (bytes_of_string "C255") /\ m !! TagAEAD = Some (bytes_of_string "AESG")
    /\ m !! TagPUBS = Some ([0x20; 0x00; 0x00] ++ PublicKey (ServerConfig.kex s)) /\ m !! TagOBIT = Some (ServerConfig.obit s) /\ m !! TagEXPY = Some (repeat 0xff 8))
    as (L1 & L2 & L3 & L4 & L5 & L6) by (split_and!; vm_compute; reflexivity).
  clearbody m.
  unfold serverConfigClient.find_tag. rewrite L1, L2, L3, L4, L5, L6. cbn [mbind res_bind]. rewrite E1, find_C255, find_AESG. cbn -[serverConfigClient.parse_pubs app].
  rewrite length_app, E3. change (length [32%Z; 0%Z; 0%Z] + 32)%nat with 35%nat. rewrite parse_pubs_key.
  cbn -[LE.ReadUint64]. rewrite Hsecret. cbn -[LE.ReadUint64]. rewrite E2. reflexivity.
Qed.
End Facts.

Definition sample_key : list Z := repeat 5 32.
Definition sample_kex : KeyExchange := MkKEX sample_key (fun other => if (length other =? 32)%nat then Ok (take 32 other) else Err (GoErr "expected 32 bytes")).
Definition sample_chain : CertChain.t := CertChain.Mk (fun sni chlo scfg => Ok [1; 2; 3]) (fun sni common cached => Ok [4; 5; 6]) (fun sni => Ok [7; 8; 9]).
Definition sample_config : ServerConfig.t := ServerConfig.NewServerConfig sample_kex sample_chain (repeat 11 16) (repeat 12 8).

Lemma server_config_roundtrip_witness :
  exists c, serverConfigClient.parseServerConfig (Ok sample_kex) (ServerConfig.Get sample_config) = Ok c /\ serverConfigClient.obit c = repeat 12 8.
Proof.
  eexists. split; [apply (server_config_roundtrip sample_config) with (kex := sample_kex) (secret := sample_key)|]; try reflexivity;
    (split; [repeat constructor; lia|reflexivity]).
Defined.
