(* ===== verification/PacketUnpacker.v ===== *)
(** * Unpacking a packet

    Models [packet_unpacker.go]: decryption of the payload and the loop that reads all
    frames of a packet.  The [wire.Frame] interface is the sum of the frame types, with
    its two methods [Write] and [MinLength].  The payload the packet packer writes,
    frame after frame, is unpacked to the same frames. *)

From stdpp Require Import base numbers list option strings pretty.
From S2P Require Import Prelude ByteOrder Protocol AckRanges AckFrame ClosePathFrame StreamFrame ControlFrames PublicHeader.

Local Open Scope Z_scope.

(** ** The Frame interface *)

Inductive Frame : Type :=
| FStream (f : StreamFrame.t)
| FAck (f : AckFrame.t)
| FRstStream (f : RstStreamFrame.t)
| FConnectionClose (f : ConnectionCloseFrame.t)
| FGoaway (f : GoawayFrame.t)
| FWindowUpdate (f : WindowUpdateFrame.t)
| FBlocked (f : BlockedFrame.t)
| FStopWaiting (f : StopWaitingFrame.t)
| FPing
| FAddAddress (f : AddAddressFrame.t)
| FClosePath (f : ClosePathFrame.t)
| FPaths (f : PathsFrame.t).

(** [frame.Write(b, version)] at time [now]. *)
Definition Frame_Write (f : Frame) (version now : Z) : writer :=
  match f with
  | FStream f => StreamFrame.Write f version
  | FAck f => (AckFrame.Write f version now).2
  | FRstStream f => RstStreamFrame.Write f version
  | FConnectionClose f => ConnectionCloseFrame.Write f version
  | FGoaway f => GoawayFrame.Write f version
  | FWindowUpdate f => WindowUpdateFrame.Write f version
  | FBlocked f => BlockedFrame.Write f version
  | FStopWaiting f => StopWaitingFrame.Write f version
  | FPing => PingFrame.Write version
  | FAddAddress f => AddAddressFrame.Write f version
  | FClosePath f => ClosePathFrame.Write f version
  | FPaths f => PathsFrame.Write f version
  end.

(** [frame.MinLength(version)] *)
Definition Frame_MinLength (f : Frame) : res Z :=
  match f with
  | FStream f => Ok (StreamFrame.MinLength f)
  | FAck f => Ok (AckFrame.MinLength f)
  | FRstStream f => Ok (RstStreamFrame.MinLength f)
  | FConnectionClose f => Ok (ConnectionCloseFrame.MinLength f)
  | FGoaway f => Ok (GoawayFrame.MinLength f)
  | FWindowUpdate f => Ok (WindowUpdateFrame.MinLength f)
  | FBlocked f => Ok (BlockedFrame.MinLength f)
  | FStopWaiting f => StopWaitingFrame.MinLength f
  | FPing => Ok PingFrame.MinLength
  | FAddAddress f => AddAddressFrame.MinLength f
  | FClosePath f => Ok (ClosePathFrame.MinLength f)
  | FPaths f => Ok (PathsFrame.MinLength f)
  end.

(** [protocol.EncryptionLevel] *)
Definition EncryptionUnspecified : Z := 0.
Definition EncryptionUnencrypted : Z := 1.
Definition EncryptionSecure : Z := 2.
Definition EncryptionForwardSecure : Z := 3.

(** [err.Error()] *)
Definition Error (e : goerr) : string :=
  match e with
  | EOF => "EOF"
  | GoErr m => m
  | QErr c "" => c
  | QErr c m => c +:+ ": " +:+ m
  end.

(** [qerr.Error(code, err.Error())] around a failed parse. *)
Definition wrap_err {A} (code : string) (m : reader A) : reader A := fun s =>
  match m s with
  | Err e => Err (QErr code (Error e))
  | r => r
  end.

Definition hex_digit (d : Z) : string :=
  nth (Z.to_nat d) ["0"; "1"; "2"; "3"; "4"; "5"; "6"; "7"; "8"; "9"; "a"; "b"; "c"; "d"; "e"; "f"]
    "".
(** [%x] of a byte *)
Definition hex_byte (b : Z) : string :=
  (if b <? 16 then "" else hex_digit (b / 16)) +:+ hex_digit (b `mod` 16).

Section Unpack.
Context (version : Z).
(** What the unpacker uses of the public header, and the level of the packet. *)
Context (packetNumber packetNumberLen : Z) (encryptionLevel : Z).

Definition parse_stream : reader Frame :=
  frame ← wrap_err "InvalidStreamData" (StreamFrame.ParseStreamFrame version);
  let streamID := StreamFrame.StreamID frame in
  if negb (streamID =? 1) && (encryptionLevel <=? EncryptionUnencrypted)
  then throw (QErr "UnencryptedStreamData"
                ("received unencrypted stream data on stream " +:+ pretty (Z.to_N streamID)))
  else mret (FStream frame).

(** One frame; the type byte has been peeked at. *)
Definition parse_frame (typeByte : Z) : reader Frame :=
  if Z.land typeByte 0x80 =? 0x80 then parse_stream
  else if Z.land typeByte 0xc0 =? 0x40 then
    f ← wrap_err "InvalidAckData" (AckFrame.ParseAckFrame version); mret (FAck f)
  else if Z.land typeByte 0xe0 =? 0x20 then throw (GoErr "unimplemented: CONGESTION_FEEDBACK")
  else if typeByte =? 0x01 then
    f ← wrap_err "InvalidRstStreamData" (RstStreamFrame.ParseRstStreamFrame version); mret (FRstStream f)
  else if typeByte =? 0x02 then
    f ← wrap_err "InvalidConnectionCloseData" (ConnectionCloseFrame.ParseConnectionCloseFrame version);
    mret (FConnectionClose f)
  else if typeByte =? 0x03 then
    f ← wrap_err "InvalidGoawayData" (GoawayFrame.ParseGoawayFrame version); mret (FGoaway f)
  else if typeByte =? 0x04 then
    f ← wrap_err "InvalidWindowUpdateData" (WindowUpdateFrame.ParseWindowUpdateFrame version);
    mret (FWindowUpdate f)
  else if typeByte =? 0x05 then
    f ← wrap_err "InvalidBlockedData" (BlockedFrame.ParseBlockedFrame version); mret (FBlocked f)
  else if typeByte =? 0x06 then
    f ← wrap_err "InvalidStopWaitingData"
          (StopWaitingFrame.ParseStopWaitingFrame packetNumber packetNumberLen version);
    mret (FStopWaiting f)
  else if typeByte =? 0x07 then _ ← PingFrame.ParsePingFrame version; mret FPing
  else if typeByte =? 0x10 then
    f ← AddAddressFrame.ParseAddAddressFrame version; mret (FAddAddress f)
  else if typeByte =? 0x11 then
    f ← ClosePathFrame.ParseClosePathFrame version; mret (FClosePath f)
  else if typeByte =? 0x12 then f ← PathsFrame.ParsePathsFrame version; mret (FPaths f)
  else throw (QErr "InvalidFrameData" ("unknown type byte 0x" +:+ hex_byte typeByte)).

(** The loop over the payload.  Every round consumes at least one byte, so
    [length s] rounds are enough; the model panics when it runs out of fuel. *)
Fixpoint unpack_loop (fuel : nat) (fs : list Frame) (s : list Z) : res (list Frame) :=
  match s with
  | [] => Ok fs
  | typeByte :: s' =>
      match fuel with
      | O => Panic
      | S fuel' =>
          if typeByte =? 0 then unpack_loop fuel' fs s'
          else match parse_frame typeByte s with
               | Ok (f, s'') => unpack_loop fuel' (fs ++ [f]) s''
               | Err e => Err e
               | Panic => Panic
               end
      end
  end.

Definition unpack_payload (decrypted : list Z) : res (list Frame) :=
  if Nat.eqb (length decrypted) 0 then Err (QErr "MissingPayload" "")
  else unpack_loop (length decrypted) [] decrypted.
End Unpack.

(** [quicAEAD]: decrypts [src] under a packet number and associated data. *)
Definition quicAEAD : Type := list Z -> Z -> list Z -> res (list Z * Z).

Definition Unpack (Open : quicAEAD) (version : Z) (publicHeaderBinary : list Z)
    (hdr : PublicHeader.t) (data : list Z) : res (Z * list Frame) :=
  match Open data (PublicHeader.PacketNumber hdr) publicHeaderBinary with
  | Ok (decrypted, encryptionLevel) =>
      fs ← unpack_payload version (PublicHeader.PacketNumber hdr) (PublicHeader.PacketNumberLen hdr)
             encryptionLevel decrypted;
      mret (encryptionLevel, fs)
  | Err e => Err (QErr "DecryptionFailure" (Error e))
  | Panic => Panic
  end.

(** ** Every parser makes progress *)

Lemma progress_wrap {A} code (m : reader A) : progress m -> progress (wrap_err code m).
Proof.
  intros Hm s a s'. unfold wrap_err. destruct (m s) as [[? ?]| |] eqn:E; [|done..].
  intros [= <- <-]. by eapply Hm.
Qed.
Lemma safe_wrap {A} code (m : reader A) : safe m -> safe (wrap_err code m).
Proof.
  intros Hm s Hs. unfold wrap_err. destruct (Hm s Hs) as [Hp Ho].
  destruct (m s) as [[a s']| |]; [done| |done]. split; [done|]. by intros ? ? [=].
Qed.

Section Progress.
Context (version : Z).
Abbreviation bo := (GetByteOrder version).

Lemma shrinks_parse_blocks k : forall d st, shrinks (parse_blocks bo k d st).
Proof. induction k; intros; cbn [parse_blocks]; auto with go. Qed.
Lemma shrinks_parse_acked m n d l : shrinks (parse_acked bo m n d l).
Proof.
  unfold parse_acked, parse_ranges. apply shrinks_bind; [auto with go|]. intros abl.
  do 2 (apply shrinks_if; [auto with go|]). apply shrinks_bind; [|intros [? ?]; auto with go].
  apply shrinks_if; [|auto with go]. apply shrinks_bind; [apply shrinks_parse_blocks|].
  intros st. destruct (last _); [auto with go|]. by intros ? ? ? [=].
Qed.
Lemma progress_ack : progress (AckFrame.ParseAckFrame version).
Proof.
  unfold AckFrame.ParseAckFrame. apply progress_bind; [unfold AckFrame.parse_header; auto 10 with go|].
  intros [[[[m d] p] l] t]. apply shrinks_bind.
  { unfold AckFrame.parse_body. apply shrinks_bind; [auto with go|]. intros.
    apply shrinks_if; [auto with go|apply shrinks_parse_acked]. }
  intros. apply shrinks_bind; [|auto with go]. unfold AckFrame.parse_timestamps.
  assert (forall k, shrinks (AckFrame.skip_timestamps bo k)) as H
    by (intros k; induction k; cbn [AckFrame.skip_timestamps]; auto with go).
  auto 10 with go.
Qed.
Lemma progress_close_path : progress (ClosePathFrame.ParseClosePathFrame version).
Proof.
  unfold ClosePathFrame.ParseClosePathFrame. apply progress_bind; [auto with go|]. intros.
  do 3 (apply shrinks_bind; [auto with go|]; intros). apply shrinks_if; [auto with go|].
  apply shrinks_bind; [auto with go|]. intros. apply shrinks_bind; [apply shrinks_parse_acked|auto with go].
Qed.
Lemma progress_stream : progress (StreamFrame.ParseStreamFrame version).
Proof. unfold StreamFrame.ParseStreamFrame. auto 20 with go. Qed.
Lemma progress_rst : progress (RstStreamFrame.ParseRstStreamFrame version).
Proof. unfold RstStreamFrame.ParseRstStreamFrame. auto 20 with go. Qed.
Lemma progress_close : progress (ConnectionCloseFrame.ParseConnectionCloseFrame version).
Proof. unfold ConnectionCloseFrame.ParseConnectionCloseFrame. auto 20 with go. Qed.
Lemma progress_goaway : progress (GoawayFrame.ParseGoawayFrame version).
Proof. unfold GoawayFrame.ParseGoawayFrame. auto 20 with go. Qed.
Lemma progress_window : progress (WindowUpdateFrame.ParseWindowUpdateFrame version).
Proof. unfold WindowUpdateFrame.ParseWindowUpdateFrame. auto 20 with go. Qed.
Lemma progress_blocked : progress (BlockedFrame.ParseBlockedFrame version).
Proof. unfold BlockedFrame.ParseBlockedFrame. auto 20 with go. Qed.
Lemma progress_stop_waiting pn l : progress (StopWaitingFrame.ParseStopWaitingFrame pn l version).
Proof. unfold StopWaitingFrame.ParseStopWaitingFrame. auto 20 with go. Qed.
Lemma progress_ping : progress (PingFrame.ParsePingFrame version).
Proof. unfold PingFrame.ParsePingFrame. auto 20 with go. Qed.
Lemma progress_address : progress (AddAddressFrame.ParseAddAddressFrame version).
Proof.
  unfold AddAddressFrame.ParseAddAddressFrame.
  assert (forall k, shrinks (AddAddressFrame.read_bytes k)) as H
    by (intros k; induction k; cbn [AddAddressFrame.read_bytes]; auto with go).
  auto 20 with go.
Qed.
Lemma progress_paths : progress (PathsFrame.ParsePathsFrame version).
Proof.
  unfold PathsFrame.ParsePathsFrame.
  assert (forall k, shrinks (PathsFrame.parse_paths bo k)) as H.
  { intros k; induction k; cbn [PathsFrame.parse_paths]; [auto with go|].
    do 2 (apply shrinks_bind; [auto with go|]; intros).
    apply shrinks_bind; [done|]. intros [? ?]. auto with go. }
  apply progress_bind; [auto with go|]. intros.
  do 2 (apply shrinks_bind; [auto with go|]; intros). apply shrinks_if; [auto with go|].
  apply shrinks_bind; [done|]. intros [? ?]. auto with go.
Qed.
End Progress.
#[export] Hint Resolve progress_wrap safe_wrap progress_ack progress_close_path progress_stream
  progress_rst progress_close progress_goaway progress_window progress_blocked progress_stop_waiting
  progress_ping progress_address progress_paths : go.

Lemma progress_parse_frame v pn l lvl tb : progress (parse_frame v pn l lvl tb).
Proof.
  unfold parse_frame, parse_stream.
  repeat (apply progress_if; [auto 10 with go|]). auto with go.
Qed.

(** ** No parser panics *)

Lemma safe_parse_frame v pn l lvl tb :
  0 <= l <= 8 -> safe (parse_frame v pn l lvl tb).
Proof.
  intros Hl. unfold parse_frame, parse_stream.
  assert (safe (StreamFrame.ParseStreamFrame v)) by eapply safe_yields, StreamFrame.stream_frame_parse_yields.
  assert (safe (AckFrame.ParseAckFrame v)) by eapply safe_yields, AckFrame.ack_frame_parse_yields.
  assert (safe (ClosePathFrame.ParseClosePathFrame v)) by eapply safe_yields, ClosePathFrame.close_path_frame_parse_yields.
  assert (forall k, safe (AddAddressFrame.read_bytes k)) as Hrb
    by (intros k; induction k; cbn [AddAddressFrame.read_bytes]; auto with go).
  assert (forall k, safe (PathsFrame.parse_paths (GetByteOrder v) k)) as Hpp.
  { intros k; induction k; cbn [PathsFrame.parse_paths]; [auto with go|].
    do 2 (apply safe_bind; [auto with go|]; intros). apply safe_bind; [done|]. intros [? ?]. auto with go. }
  assert (safe (PathsFrame.ParsePathsFrame v)) as Hpf.
  { unfold PathsFrame.ParsePathsFrame. do 3 (apply safe_bind; [auto with go|]; intros).
    apply safe_if; [auto with go|]. apply safe_bind; [done|]. intros [? ?]. auto with go. }
  repeat (apply safe_if; [|]).
  all: unfold RstStreamFrame.ParseRstStreamFrame, ConnectionCloseFrame.ParseConnectionCloseFrame,
    GoawayFrame.ParseGoawayFrame, WindowUpdateFrame.ParseWindowUpdateFrame,
    BlockedFrame.ParseBlockedFrame, StopWaitingFrame.ParseStopWaitingFrame, PingFrame.ParsePingFrame,
    AddAddressFrame.ParseAddAddressFrame; auto 12 with go.
Qed.

Lemma unpack_loop_total v pn l lvl : 0 <= l <= 8 -> forall fuel fs s,
  (length s <= fuel)%nat -> bytes_ok s -> unpack_loop v pn l lvl fuel fs s <> Panic.
Proof.
  intros Hl. induction fuel as [|fuel IH]; intros fs [|tb s] Hf Hs; try done; [simpl in Hf; lia|].
  cbn [unpack_loop]. destruct (Z.eqb_spec tb 0).
  - apply IH; [simpl in Hf; lia|]. by apply Forall_cons in Hs as [_ ?].
  - destruct (safe_parse_frame v pn l lvl tb Hl (tb :: s) Hs) as [Hp Ho].
    destruct (parse_frame v pn l lvl tb (tb :: s)) as [[f s'']| |] eqn:E; [|done|done].
    apply IH; [|by eapply Ho]. apply progress_parse_frame in E. simpl in *. lia.
Qed.

(** ** The payload survives *)

(** A STREAM frame without a data length takes the rest of the packet. *)
Definition ends_packet (f : Frame) : bool :=
  match f with FStream f => negb (StreamFrame.DataLenPresent f) | _ => false end.

Section Roundtrip.
Context (version packetNumber packetNumberLen encryptionLevel now : Z).

(** What has to hold of a frame that is sent in a packet with this number at this
    level. *)
Definition frame_ok (f : Frame) : Prop :=
  match f with
  | FStream f => StreamFrame.sendable f [] /\
      (StreamFrame.StreamID f = 1 \/ EncryptionUnencrypted < encryptionLevel)
  | FAck f => acked_wf (AckFrame.acked f) /\ second_range_fits (AckFrame.acked f) /\
      0 <= AckFrame.PathID f < 256 /\ AckFrame.PacketReceivedTime f <= now
  | FRstStream f => RstStreamFrame.valid f
  | FConnectionClose f => ConnectionCloseFrame.valid f
  | FGoaway f => GoawayFrame.valid f
  | FWindowUpdate f => WindowUpdateFrame.valid f
  | FBlocked f => BlockedFrame.valid f
  | FStopWaiting f => StopWaitingFrame.valid f /\
      StopWaitingFrame.PacketNumber f = packetNumber /\
      StopWaitingFrame.PacketNumberLen f = packetNumberLen
  | FPing => True
  | FAddAddress f => AddAddressFrame.valid f
  | FClosePath f => acked_wf (ClosePathFrame.acked f) /\ second_range_fits (ClosePathFrame.acked f) /\
      0 <= ClosePathFrame.PathID f < 256
  | FPaths f => PathsFrame.valid f
  end.

(** The frame as the peer sees it. *)
Definition seen (f : Frame) : Frame :=
  match f with
  | FStream f => FStream (StreamFrame.received f)
  | FAck f => FAck (AckFrame.received f now)
  | FStopWaiting f => FStopWaiting (StopWaitingFrame.Mk (StopWaitingFrame.LeastUnacked f) 0 0)
  | FAddAddress f =>
      FAddAddress (AddAddressFrame.Mk (AddAddressFrame.IPVersion f)
        (AddAddressFrame.MkAddr (default [] (AddAddressFrame.address_seen f))
           (AddAddressFrame.Port (AddAddressFrame.Addr f)) ""))
  | FClosePath f => FClosePath (ClosePathFrame.Mk (ClosePathFrame.PathID f) (truncate (ClosePathFrame.acked f)))
  | FPaths f => FPaths (PathsFrame.received f)
  | f => f
  end.

Abbreviation parse := (parse_frame version packetNumber packetNumberLen encryptionLevel).

Lemma parse_wrapped {A} code (m : reader A) (k : A -> Frame) s a r :
  m s = Ok (a, r) -> (f ← wrap_err code m; mret (k f)) s = Ok (k a, r).
Proof. intros E. erewrite reader_bind_ok; [done|]. unfold wrap_err. by rewrite E. Qed.

Lemma parse_unwrapped {A} (m : reader A) (k : A -> Frame) s a r :
  m s = Ok (a, r) -> (f ← m; mret (k f)) s = Ok (k a, r).
Proof. intros E. by erewrite reader_bind_ok. Qed.

Lemma stream_kind tb out r f :
  Z.land tb 0x80 = 0x80 ->
  StreamFrame.ParseStreamFrame version ((tb :: out) ++ r) = Ok (f, r) ->
  StreamFrame.StreamID f = 1 \/ EncryptionUnencrypted < encryptionLevel ->
  parse tb ((tb :: out) ++ r) = Ok (FStream f, r).
Proof.
  intros Hk Hp Hid. unfold parse_frame, parse_stream. rewrite Hk, Z.eqb_refl.
  erewrite reader_bind_ok by (unfold wrap_err; by rewrite Hp). cbv zeta.
  destruct Hid as [-> | Hl]; [done|]. by rewrite (proj2 (Z.leb_gt _ _)), andb_false_r by lia.
Qed.

Lemma ack_kind tb out r f :
  Z.land tb 0xc0 = 0x40 ->
  AckFrame.ParseAckFrame version ((tb :: out) ++ r) = Ok (f, r) ->
  parse tb ((tb :: out) ++ r) = Ok (FAck f, r).
Proof.
  intros Hk Hp. unfold parse_frame.
  replace (Z.land tb 0x80) with (Z.land (Z.land tb 0xc0) 0x80) by (by rewrite <- Z.land_assoc).
  rewrite Hk, Z.eqb_refl. change (Z.land 64 128 =? 128) with false. cbv iota. by apply parse_wrapped.
Qed.

Lemma frame_roundtrip f r :
  frame_ok f -> (ends_packet f = true -> r = []) ->
  exists tb out, Frame_Write f version now = wbytes (tb :: out) /\ tb <> 0 /\
    parse tb ((tb :: out) ++ r) = Ok (seen f, r).
Proof.
  destruct f as [f|f|f|f|f|f|f|f| |f|f|f]; cbn [frame_ok ends_packet Frame_Write seen].
  - intros [Hs Hl] Hr.
    destruct (StreamFrame.stream_frame_parses_back f version r) as (tb & out & Hw & Hk & Hp).
    { destruct Hs as (Hw & Ho & Hd). split_and!; try apply Hw; [done|].
      destruct (StreamFrame.DataLenPresent f); [done|]. split; [by apply Hr|apply Hd]. }
    exists tb, out. split_and!; [done|by intros ->|]. by apply stream_kind.
  - intros (Hwf & Hfit & Hp & Hnow) _.
    destruct (AckFrame.ack_frame_parses_back f version now Hwf Hfit Hp Hnow) as (tb & out & Hw & Hk & Hpa).
    exists tb, out. split_and!; [done|by intros ->|]. by apply ack_kind.
  - intros Hv _. destruct (RstStreamFrame.rst_stream_parses_back f version Hv) as (out & Hw & _ & Hp).
    exists 1, out. split_and!; [done..|]. by apply parse_wrapped.
  - intros Hv _. destruct (ConnectionCloseFrame.connection_close_parses_back f version Hv) as (out & Hw & _ & Hp).
    exists 2, out. split_and!; [done..|]. by apply parse_wrapped.
  - intros Hv _. destruct (GoawayFrame.goaway_parses_back f version Hv) as (out & Hw & _ & Hp).
    exists 3, out. split_and!; [done..|]. by apply parse_wrapped.
  - intros Hv _. destruct (WindowUpdateFrame.window_update_parses_back f version Hv) as (out & Hw & _ & Hp).
    exists 4, out. split_and!; [done..|]. by apply parse_wrapped.
  - intros Hv _. destruct (BlockedFrame.blocked_parses_back f version Hv) as (out & Hw & _ & Hp).
    exists 5, out. split_and!; [done..|]. by apply parse_wrapped.
  - intros (Hv & <- & <-) _. destruct (StopWaitingFrame.stop_waiting_parses_back f version Hv) as (out & Hw & _ & Hp).
    exists 6, out. split_and!; [done..|]. by apply parse_wrapped.
  - intros _ _. by exists 7, [].
  - intros Hv _. destruct (AddAddressFrame.add_address_parses_back f version Hv) as (out & ip & Hw & _ & Hip & Hp).
    exists 16, out. split_and!; [done..|]. rewrite Hip. by apply parse_unwrapped.
  - intros (Hwf & Hfit & Hpa) _.
    destruct (ClosePathFrame.close_path_frame_parses_back f version Hwf Hfit Hpa) as (out & Hw & Hp).
    exists 17, out. split_and!; [done..|]. by apply parse_unwrapped.
  - intros Hv _. destruct (PathsFrame.paths_parses_back f version Hv) as (out & Hw & _ & Hp).
    exists 18, out. split_and!; [done..|]. by apply parse_unwrapped.
Qed.
End Roundtrip.

Section Payload.
Context (version packetNumber packetNumberLen encryptionLevel now : Z).
Abbreviation ok := (frame_ok packetNumber packetNumberLen encryptionLevel now).

(** The payload loop of [packetPacker.writeAndSealPacket]. *)
Fixpoint write_frames (fs : list Frame) : writer :=
  match fs with
  | [] => wret
  | f :: fs' => Frame_Write f version now >;> write_frames fs'
  end.

(** Only the last frame may omit its data length. *)
Fixpoint payload_ok (fs : list Frame) : Prop :=
  match fs with
  | [] => True
  | f :: fs' => ok f /\ (ends_packet f = true -> fs' = []) /\ payload_ok fs'
  end.

Lemma write_frames_unpack fs :
  payload_ok fs ->
  exists out, write_frames fs = wbytes out /\ (fs <> [] -> out <> []) /\
    forall fuel acc, (length out <= fuel)%nat ->
      unpack_loop version packetNumber packetNumberLen encryptionLevel fuel acc out
      = Ok (acc ++ (seen now <$> fs)).
Proof.
  induction fs as [|f fs IH]; intros Hok.
  { exists []. split_and!; [done|done|]. intros [|fuel] acc _; cbn; by rewrite app_nil_r. }
  destruct Hok as (Hf & Hend & Hfs). destruct (IH Hfs) as (rest & Hw & _ & Hloop).
  destruct (frame_roundtrip version packetNumber packetNumberLen encryptionLevel now f rest Hf)
    as (tb & out & Hwf & Hne & Hp).
  { intros E. rewrite (Hend E) in Hw. by injection Hw. }
  exists ((tb :: out) ++ rest). split_and!; [cbn [write_frames]; by rewrite Hwf, Hw|done|].
  intros [|fuel] acc Hfuel; [simpl in Hfuel; lia|].
  change ((tb :: out) ++ rest) with (tb :: (out ++ rest)) in *. cbn [unpack_loop].
  rewrite (proj2 (Z.eqb_neq _ _)), Hp by done.
  rewrite Hloop by (simpl in Hfuel; rewrite length_app in Hfuel; lia).
  by rewrite <- app_assoc.
Qed.
End Payload.

(** ** Properties *)

(** What the packet packer writes is what the peer's unpacker reads.  A non-empty
    list of valid frames in which only the last one may omit its data length is written
    without error, and unpacking the payload of that packet yields exactly these frames,
    in order, each as the peer sees it. *)
Theorem payload_roundtrip version packetNumber packetNumberLen encryptionLevel now fs :
  fs <> [] -> payload_ok packetNumber packetNumberLen encryptionLevel now fs ->
  exists out, write_frames version now fs = wbytes out /\
    unpack_payload version packetNumber packetNumberLen encryptionLevel out = Ok (seen now <$> fs).
Proof.
  intros Hne Hok.
  destruct (write_frames_unpack version packetNumber packetNumberLen encryptionLevel now fs Hok)
    as (out & Hw & Hout & Hloop).
  exists out. split; [done|]. unfold unpack_payload. specialize (Hout Hne).
  rewrite (proj2 (Nat.eqb_neq _ _)) by (by destruct out). by apply Hloop.
Qed.

Definition sample_payload : list Frame :=
  [FStopWaiting (StopWaitingFrame.Mk 5 2 9);
   FAck (AckFrame.Mk 1 (MkAcked 100 1 [MkAckRange 50 100; MkAckRange 1 10]) 0 0);
   FPing; FBlocked (BlockedFrame.Mk 7); FWindowUpdate (WindowUpdateFrame.Mk 7 100000);
   FStream (StreamFrame.Mk 7 false false 1000 [104; 105] 0 false)].

Lemma payload_roundtrip_witness :
  exists out, write_frames VersionMP 1000000 sample_payload = wbytes out /\
    unpack_payload VersionMP 9 2 EncryptionForwardSecure out = Ok (seen 1000000 <$> sample_payload).
Proof.
  apply (payload_roundtrip VersionMP 9 2 EncryptionForwardSecure 1000000 sample_payload); [done|].
  vm_compute. intuition congruence.
Defined.

(** Unpacking terminates and never panics: whatever an attacker sends, if decryption
    yields a byte string, [Unpack] returns frames or an error. *)
Theorem unpack_never_panics (Open : quicAEAD) version raw hdr data :
  Open data (PublicHeader.PacketNumber hdr) raw <> Panic ->
  (forall p lvl, Open data (PublicHeader.PacketNumber hdr) raw = Ok (p, lvl) -> bytes_ok p) ->
  0 <= PublicHeader.PacketNumberLen hdr <= 8 ->
  Unpack Open version raw hdr data <> Panic.
Proof.
  intros Hp Ho Hl. unfold Unpack.
  destruct (Open data (PublicHeader.PacketNumber hdr) raw) as [[p lvl]| |]; [|done|done].
  unfold unpack_payload. destruct (Nat.eqb (length p) 0); [done|].
  pose proof (unpack_loop_total version (PublicHeader.PacketNumber hdr)
    (PublicHeader.PacketNumberLen hdr) lvl Hl (length p) [] p ltac:(lia) (Ho p lvl eq_refl)).
  by destruct (unpack_loop _ _ _ _ _ _ _).
Qed.

Lemma unpack_never_panics_witness :
  Unpack (fun src _ _ => Ok (src, EncryptionSecure)) VersionMP [] PublicHeader.sample
    [0; 0x12; 1; 2; 0xff] <> Panic.
Proof.
  apply (unpack_never_panics (fun src _ _ => Ok (src, EncryptionSecure)) VersionMP [] PublicHeader.sample
    [0; 0x12; 1; 2; 0xff]); [done| |vm_compute; intuition congruence].
  intros p lvl [= <- <-]. repeat constructor; lia.
Defined.

(** [MinLength] is exact for every frame: it is the number of bytes [Write]
    produces, not counting the data of a STREAM frame.  For a PATHS frame this needs at
    most 84 paths, because its length is computed in a [uint8]. *)
Theorem frame_min_length packetNumber packetNumberLen encryptionLevel version now f :
  frame_ok packetNumber packetNumberLen encryptionLevel now f ->
  (forall p, f = FPaths p -> PathsFrame.NumPaths p <= 84) ->
  exists out n, Frame_Write f version now = wbytes out /\ Frame_MinLength f = Ok n /\
    Z.of_nat (length out) =
      n + match f with FStream f => Z.of_nat (length (StreamFrame.Data f)) | _ => 0 end.
Proof.
  destruct f as [f|f|f|f|f|f|f|f| |f|f|f]; cbn [frame_ok Frame_Write Frame_MinLength]; intros Hok Hpaths.
  - destruct Hok as [[Hw _] _]. destruct (StreamFrame.stream_frame_min_length f version Hw) as (out & ? & ?). eauto.
  - destruct Hok as (Hwf & Hfit & _).
    destruct (AckFrame.ack_frame_min_length f version now Hwf Hfit) as (out & Hw & Hl). eexists _, _. split_and!; [exact Hw|done|lia].
  - destruct (RstStreamFrame.rst_stream_parses_back f version Hok) as (out & Hw & Hl & _). eexists _, _. split_and!; [exact Hw|done|lia].
  - destruct (ConnectionCloseFrame.connection_close_parses_back f version Hok) as (out & Hw & Hl & _). eexists _, _. split_and!; [exact Hw|done|lia].
  - destruct (GoawayFrame.goaway_parses_back f version Hok) as (out & Hw & Hl & _). eexists _, _. split_and!; [exact Hw|done|lia].
  - destruct (WindowUpdateFrame.window_update_parses_back f version Hok) as (out & Hw & Hl & _). eexists _, _. split_and!; [exact Hw|done|lia].
  - destruct (BlockedFrame.blocked_parses_back f version Hok) as (out & Hw & Hl & _). eexists _, _. split_and!; [exact Hw|done|lia].
  - destruct Hok as [Hv _]. destruct (StopWaitingFrame.stop_waiting_parses_back f version Hv) as (out & Hw & Hl & _).
    rewrite Hl. eexists _, _. split_and!; [done..|lia].
  - by eexists _, _.
  - destruct (AddAddressFrame.add_address_parses_back f version Hok) as (out & ip & Hw & Hl & _).
    rewrite Hl. eexists _, _. split_and!; [done..|lia].
  - destruct Hok as (Hwf & Hfit & _).
    destruct (ClosePathFrame.close_path_frame_min_length f version Hwf Hfit) as (out & Hw & Hl). eexists _, _. split_and!; [exact Hw|done|lia].
  - destruct (PathsFrame.paths_parses_back f version Hok) as (out & Hw & Hl & _).
    eexists _, _. split_and!; [done..|]. rewrite Hl, Z.add_0_r. symmetry.
    destruct Hok as (H1 & H2 & _). apply PathsFrame.MinLength_exact; [lia|by apply Hpaths].
Qed.

Lemma frame_min_length_witness :
  exists out n, Frame_Write (FPaths (PathsFrame.Mk 255 1 [3] [25000000])) VersionMP 0 = wbytes out /\
    Frame_MinLength (FPaths (PathsFrame.Mk 255 1 [3] [25000000])) = Ok n /\
    Z.of_nat (length out) = n + 0.
Proof.
  apply (frame_min_length 1 1 EncryptionSecure VersionMP 0 (FPaths (PathsFrame.Mk 255 1 [3] [25000000]))).
  - repeat split; cbn; try lia; repeat constructor; cbn; lia.
  - by intros p [= <-].
Defined.
