(* ===== verification/PacketPacker.v ===== *)
(** * Packing, sending and receiving a packet

    Models [packet_number_generator.go], the parts of [packet_packer.go] that build the
    public header ([getPublicHeader]), write and seal a packet ([writeAndSealPacket])
    and decide what may be sent ([canSendData]), and the receiving half of
    [path.handlePacketImpl] up to the decrypted frames.  The theorem at the end composes
    the whole wire format: a packet that was packed is received as the same frames. *)

From stdpp Require Import base numbers list option strings.
From S2P Require Import Prelude ByteOrder Protocol AckRanges StreamFrame ControlFrames PublicHeader PacketUnpacker.

Local Open Scope Z_scope.

(** ** The packet number generator *)

Module packetNumberGenerator.
Record t : Type := Mk { averagePeriod : Z; next : Z; nextToSkip : Z }.

Definition newPacketNumberGenerator (averagePeriod : Z) : t := Mk averagePeriod 1 0.

Definition Peek (p : t) : Z := next p.

(** [rnd] is what [crypto/rand] delivers, [None] when it fails. *)
Definition generateNewSkip (p : t) (rnd : option Z) : t :=
  match rnd with
  | None => p
  | Some num =>
      let skip := u64 (num * u64 (averagePeriod p - 1)) / (65535 / 2) in
      Mk (averagePeriod p) (next p) (u64 (u64 (next p + 2) + skip))
  end.

Definition Pop (p : t) (rnd : option Z) : Z * t :=
  let n := next p in
  let p := Mk (averagePeriod p) (u64 (next p + 1)) (nextToSkip p) in
  if next p =? nextToSkip p
  then (n, generateNewSkip (Mk (averagePeriod p) (u64 (next p + 1)) (nextToSkip p)) rnd)
  else (n, p).

(** The numbers of a series of packets. *)
Fixpoint pops (p : t) (rnds : list (option Z)) : list Z :=
  match rnds with
  | [] => []
  | r :: rnds' => let '(n, p') := Pop p r in n :: pops p' rnds'
  end.

Lemma Pop_next p r :
  0 <= next p < 2 ^ 62 ->
  (Pop p r).1 = next p /\ (next (Pop p r).2 = next p + 1 \/ next (Pop p r).2 = next p + 2).
Proof.
  intros H. unfold Pop. cbn [next]. rewrite (u64_small (next p + 1)) by lia.
  destruct (_ =? _); cbn [nextToSkip averagePeriod next fst snd]; [|auto].
  split; [done|]. right. unfold generateNewSkip. rewrite (u64_small (next p + 1 + 1)) by lia.
  destruct r; cbn [next]; lia.
Qed.

Lemma pops_fresh avg rnds : forall n,
  1 <= n -> n + Z.of_nat (length rnds) < 2 ^ 62 ->
  pops (Mk avg n 0) rnds = seqZ n (Z.of_nat (length rnds)).
Proof.
  induction rnds as [|r rnds IH]; intros n Hn Hl; [done|].
  cbn [pops length]. unfold Pop. cbn [next nextToSkip averagePeriod].
  rewrite u64_small by (cbn [length] in Hl; lia).
  rewrite (proj2 (Z.eqb_neq _ _)) by lia.
  rewrite seqZ_cons by lia. cbn [length] in Hl. rewrite IH by lia.
  f_equal. f_equal. lia.
Qed.

End packetNumberGenerator.

(** ** The packer *)

(** What [getPublicHeader] and [writeAndSealPacket] use of the packer and the path. *)
Record Packer : Type := MkPacker {
  connectionID : Z;
  perspective : Perspective;
  version : Z;
  truncateConnectionID : bool;        (* connectionParameters.TruncateConnectionID() *)
  diversificationNonce : list Z;      (* cryptoSetup.DiversificationNonce() *)
}.
Record SendPath : Type := MkSendPath {
  pathID : Z;
  leastUnacked : Z;
  generator : packetNumberGenerator.t;
  handshakeComplete : bool;           (* pth.sess != nil && pth.sess.handshakeComplete *)
}.

Definition getPublicHeader (p : Packer) (encLevel : Z) (pth : SendPath) : PublicHeader.t :=
  let pnum := packetNumberGenerator.Peek (generator pth) in
  let packetNumberLen := GetPacketNumberLengthForPublicHeader pnum (leastUnacked pth) in
  let nonce := if is_server (perspective p) && (encLevel =? EncryptionSecure)
               then diversificationNonce p else [] in
  let versionFlag := negb (is_server (perspective p)) && negb (encLevel =? EncryptionForwardSecure) in
  let versionNumber := if versionFlag then version p else 0 in
  let multipath := handshakeComplete pth && (VersionMP <=? version p) in
  PublicHeader.Mk (connectionID p) (if multipath then pathID pth else 0) versionFlag false
    (if multipath then false else truncateConnectionID p) multipath packetNumberLen pnum
    versionNumber [] nonce.

Definition canSendData (p : Packer) (encLevel : Z) : bool :=
  if negb (is_server (perspective p)) then EncryptionSecure <=? encLevel
  else encLevel =? EncryptionForwardSecure.

(** [handshake.Sealer] *)
Record Sealer : Type := MkSealer {
  Seal : list Z -> Z -> list Z -> list Z;    (* plaintext, packet number, associated data *)
  Overhead : Z;
}.

Definition errNumbersDiffer : goerr :=
  GoErr "packetPacker BUG: Peeked and Popped packet numbers do not match".

(** [Ok None] is the result [nil, nil] for a packet that is too large. *)
Definition writeAndSealPacket (p : Packer) (h : PublicHeader.t) (payloadFrames : list Frame)
    (sealer : Sealer) (pth : SendPath) (now : Z) (rnd : option Z) : res (option (list Z)) * SendPath :=
  match PublicHeader.Write h (version p) (perspective p) with
  | (hdr, Ok _) =>
      match write_frames (version p) now payloadFrames with
      | (payload, Ok _) =>
          if u64 MaxPacketSize <? u64 (Z.of_nat (length (hdr ++ payload)) + Overhead sealer)
          then (Ok None, pth)
          else
            let raw := hdr ++ Seal sealer payload (PublicHeader.PacketNumber h) hdr in
            let '(num, gen') := packetNumberGenerator.Pop (generator pth) rnd in
            let pth' := MkSendPath (pathID pth) (leastUnacked pth) gen' (handshakeComplete pth) in
            if negb (num =? PublicHeader.PacketNumber h) then (Err errNumbersDiffer, pth')
            else (Ok (Some raw), pth')
      | (_, Err e) => (Err e, pth)
      | (_, Panic) => (Panic, pth)
      end
  | (_, Err e) => (Err e, pth)
  | (_, Panic) => (Panic, pth)
  end.

(** ** Receiving *)

Definition with_number (h : PublicHeader.t) (pn : Z) : PublicHeader.t :=
  PublicHeader.Mk (PublicHeader.ConnectionID h) (PublicHeader.PathID h) (PublicHeader.VersionFlag h)
    (PublicHeader.ResetFlag h) (PublicHeader.TruncateConnectionID h) (PublicHeader.MultipathFlag h)
    (PublicHeader.PacketNumberLen h) pn (PublicHeader.VersionNumber h)
    (PublicHeader.SupportedVersions h) (PublicHeader.DiversificationNonce h).

(** A datagram: the header is parsed ([hdr.Raw] is what was read), the packet number is
    inferred from the largest one received on the path, the rest is unpacked. *)
Definition receive_packet (Open : quicAEAD) (packetSentBy : Perspective) (version : Z)
    (largestRcvdPacketNumber : Z) (packet : list Z) : res (PublicHeader.t * Z * list Frame) :=
  match PublicHeader.ParsePublicHeader packetSentBy version packet with
  | Ok (hdr, data) =>
      let raw := take (length packet - length data) packet in
      let hdr := with_number hdr (InferPacketNumber (PublicHeader.PacketNumberLen hdr)
                                    largestRcvdPacketNumber (PublicHeader.PacketNumber hdr)) in
      '(lvl, fs) ← Unpack Open version raw hdr data;
      mret (hdr, lvl, fs)
  | Err e => Err e
  | Panic => Panic
  end.

(** ** Lemmas *)

(** The number of the next packet on a path. *)
Definition next_number (pth : SendPath) : Z := packetNumberGenerator.next (generator pth).

Record packer_ok (p : Packer) (pth : SendPath) : Prop := {
  ok_conn : 1 <= connectionID p < 2 ^ 64;
  ok_version : 0 <= version p < 1000;
  ok_truncate : truncateConnectionID p = true -> perspective p = PerspectiveServer;
  ok_nonce : length (diversificationNonce p) = 32%nat;
  ok_path : 0 <= pathID pth < 256;
  ok_unacked : 0 <= leastUnacked pth <= next_number pth;
  ok_number : next_number pth < 2 ^ 62;
  ok_window : next_number pth - leastUnacked pth < 2 ^ 47;
}.

Lemma getPublicHeader_regular p pth lvl :
  packer_ok p pth ->
  PublicHeader.regular (getPublicHeader p lvl pth) (version p) (perspective p).
Proof.
  intros [Hc Hv Ht Hn Hp Hu Hpn Hw]. unfold getPublicHeader. unfold next_number in *.
  split; cbn -[Z.pow].
  - done.
  - destruct (perspective p); [done|]. by destruct (_ =? _).
  - destruct (_ && _); [done|apply Ht].
  - intros _. lia.
  - destruct (perspective p); cbn [is_server andb negb]; [|by left].
    destruct (lvl =? EncryptionSecure); [right|by left]. done.
  - by destruct (header_len_diff (packetNumberGenerator.next (generator pth)) (leastUnacked pth)); [lia..|].
  - destruct (_ && _); lia.
Qed.

Lemma Pop_peeked pth rnd :
  packetNumberGenerator.next (generator pth) < 2 ^ 62 -> 0 <= next_number pth ->
  (packetNumberGenerator.Pop (generator pth) rnd).1 = packetNumberGenerator.Peek (generator pth).
Proof. intros. apply packetNumberGenerator.Pop_next. unfold next_number in *. lia. Qed.

(** The path after its next number was used. *)
Definition advanced (pth : SendPath) (rnd : option Z) : SendPath :=
  MkSendPath (pathID pth) (leastUnacked pth) (packetNumberGenerator.Pop (generator pth) rnd).2 (handshakeComplete pth).

(** What [writeAndSealPacket] does with a valid payload, and what the peer makes of it. *)
Lemma written p sealer pth lvl fs now rnd :
  packer_ok p pth ->
  let h := getPublicHeader p lvl pth in
  let hdr := PublicHeader.header_bytes h (version p) (perspective p) in
  payload_ok (PublicHeader.PacketNumber h) (PublicHeader.PacketNumberLen h) lvl now fs ->
  exists payload, write_frames (version p) now fs = wbytes payload /\ next_number pth < next_number (advanced pth rnd)
    /\ writeAndSealPacket p h fs sealer pth now rnd
       = (if u64 MaxPacketSize <? u64 (Z.of_nat (length (hdr ++ payload)) + Overhead sealer) then (Ok None, pth)
          else (Ok (Some (hdr ++ Seal sealer payload (PublicHeader.PacketNumber h) hdr)), advanced pth rnd))
    /\ forall (Open : quicAEAD) last, fs <> [] ->
         (forall payload ad, Open (Seal sealer payload (PublicHeader.PacketNumber h) ad)
            (PublicHeader.PacketNumber h) ad = Ok (payload, lvl)) ->
         0 <= last < 2 ^ 62 -> leastUnacked pth <= last + 1 ->
         2 * (last + 1 - next_number pth) < 2 ^ (8 * PublicHeader.PacketNumberLen h) ->
         receive_packet Open (perspective p) (version p) last (hdr ++ Seal sealer payload (PublicHeader.PacketNumber h) hdr)
         = Ok (with_number (PublicHeader.received h) (next_number pth), lvl, seen now <$> fs).
Proof.
  intros Hok h hdr Hfs. pose proof (getPublicHeader_regular p pth lvl Hok) as Hreg. fold h in Hreg.
  destruct (write_frames_unpack (version p) _ _ _ now fs Hfs) as (payload & Hw & Hpne & Hloop).
  pose proof (ok_number _ _ Hok) as Hnum. pose proof (ok_unacked _ _ Hok) as Hun.
  destruct (packetNumberGenerator.Pop_next (generator pth) rnd) as [E1 E2]; [unfold next_number in *; lia|].
  exists payload. split; [done|]. split; [|split].
  3: intros Open last Hne Hopen Hlast Hseen Hahead.
  - unfold next_number, advanced. cbn [generator]. lia.
  - unfold writeAndSealPacket. rewrite (PublicHeader.public_header_write_bytes _ _ _ Hreg), Hw. fold hdr. cbn [wbytes].
    unfold advanced. destruct (u64 MaxPacketSize <? _); [done|]. destruct (packetNumberGenerator.Pop (generator pth) rnd) as [num gen']. cbn [fst snd] in *.
    change (PublicHeader.PacketNumber h) with (packetNumberGenerator.next (generator pth)). by rewrite E1, Z.eqb_refl.
  - unfold receive_packet. unfold hdr at 1 2. rewrite (PublicHeader.parse_bytes h (version p) (version p) (perspective p)); [|done|].
    2: { right. split; [done|]. destruct (ok_version _ _ Hok). unfold VersionUnknown. lia. }
    fold hdr. rewrite length_app. replace (length hdr + _ - _)%nat with (length hdr) by lia. rewrite take_app_length.
    assert (InferPacketNumber (PublicHeader.PacketNumberLen (PublicHeader.received h)) last
      (PublicHeader.PacketNumber (PublicHeader.received h)) = next_number pth) as ->.
    { apply (InferPacketNumber_header (next_number pth) (leastUnacked pth)); try done. by apply (ok_window _ _ Hok). }
    unfold Unpack. cbn [with_number PublicHeader.PacketNumber PublicHeader.PacketNumberLen].
    change (next_number pth) with (PublicHeader.PacketNumber h).
    rewrite (Hopen payload hdr). unfold unpack_payload.
    rewrite (proj2 (Nat.eqb_neq _ _)) by (specialize (Hpne Hne); by destruct payload).
    change (PublicHeader.PacketNumberLen (PublicHeader.received h)) with (PublicHeader.PacketNumberLen h).
    by rewrite Hloop by lia.
Qed.

(** ** Properties *)

(** Packet numbers on a path strictly increase and never jump by more than two, so
    two consecutive numbers are never both skipped. *)
Theorem packet_numbers_increase p rnds :
  0 <= packetNumberGenerator.next p ->
  packetNumberGenerator.next p + 2 * Z.of_nat (length rnds) < 2 ^ 62 ->
  forall i a b, packetNumberGenerator.pops p rnds !! i = Some a ->
    packetNumberGenerator.pops p rnds !! S i = Some b -> b = a + 1 \/ b = a + 2.
Proof.
  revert p. induction rnds as [|r rnds IH]; intros p H0 Hl i a b Ha Hb; [done|].
  cbn [packetNumberGenerator.pops length] in *.
  destruct (packetNumberGenerator.Pop_next p r) as [E1 E2]; [lia|].
  destruct (packetNumberGenerator.Pop p r) as [n p'] eqn:E. cbn [fst snd] in *.
  destruct i as [|i].
  - injection Ha as <-. destruct rnds as [|r' rnds]; [done|]. cbn in Hb.
    destruct (packetNumberGenerator.Pop_next p' r') as [E3 _]; [cbn [length] in Hl; lia|].
    destruct (packetNumberGenerator.Pop p' r') as [n' p'']. cbn in Hb, E3. injection Hb as <-. lia.
  - eapply (IH p'); [lia|lia|exact Ha|exact Hb].
Qed.

Lemma packet_numbers_increase_witness :
  packetNumberGenerator.pops (packetNumberGenerator.Mk 500 7 9) [Some 0; Some 3; None] = [7; 8; 10] /\
  (10 = 8 + 1 \/ 10 = 8 + 2).
Proof.
  split; [done|].
  apply (packet_numbers_increase (packetNumberGenerator.Mk 500 7 9) [Some 0; Some 3; None]
           ltac:(done) ltac:(done) 1 8 10); done.
Defined.

(** The generator of a new path never skips a number: [nextToSkip] starts at 0 and
    is only ever drawn when the next number reaches it, so the first packets are
    1, 2, 3, ... whatever the random source delivers. *)
Theorem new_generator_never_skips avg rnds :
  Z.of_nat (length rnds) < 2 ^ 61 ->
  packetNumberGenerator.pops (packetNumberGenerator.newPacketNumberGenerator avg) rnds
  = seqZ 1 (Z.of_nat (length rnds)).
Proof. intros H. apply packetNumberGenerator.pops_fresh; lia. Qed.

Lemma new_generator_never_skips_witness :
  packetNumberGenerator.pops (packetNumberGenerator.newPacketNumberGenerator 500) [Some 1; Some 2; Some 3]
  = seqZ 1 3.
Proof. apply (new_generator_never_skips 500 [Some 1; Some 2; Some 3]). simpl. lia. Defined.

(** The size of the packet a header and a payload make. *)
Definition packet_size (p : Packer) (h : PublicHeader.t) (sealer : Sealer) (payload : list Z) : Z :=
  Z.of_nat (length (PublicHeader.header_bytes h (version p) (perspective p))) + Z.of_nat (length payload) + Overhead sealer.

(** A packet leaves exactly if it is not too large. *)
Lemma written_fits p sealer pth lvl fs now rnd :
  packer_ok p pth -> 0 <= Overhead sealer ->
  let h := getPublicHeader p lvl pth in
  payload_ok (PublicHeader.PacketNumber h) (PublicHeader.PacketNumberLen h) lvl now fs ->
  exists payload, write_frames (version p) now fs = wbytes payload
    /\ (MaxPacketSize < packet_size p h sealer payload < 2 ^ 64 -> writeAndSealPacket p h fs sealer pth now rnd = (Ok None, pth))
    /\ (packet_size p h sealer payload <= MaxPacketSize -> exists raw pth',
          writeAndSealPacket p h fs sealer pth now rnd = (Ok (Some raw), pth') /\ next_number pth < next_number pth'
          /\ forall (Open : quicAEAD) last, fs <> [] ->
               (forall payload ad, Open (Seal sealer payload (PublicHeader.PacketNumber h) ad) (PublicHeader.PacketNumber h) ad = Ok (payload, lvl)) ->
               0 <= last < 2 ^ 62 -> leastUnacked pth <= last + 1 -> 2 * (last + 1 - next_number pth) < 2 ^ (8 * PublicHeader.PacketNumberLen h) ->
               receive_packet Open (perspective p) (version p) last raw = Ok (with_number (PublicHeader.received h) (next_number pth), lvl, seen now <$> fs)).
Proof.
  intros Hok Hov h Hfs. destruct (written p sealer pth lvl fs now rnd Hok Hfs) as (payload & Hw & Hnext & E & Hrecv). fold h in E, Hrecv.
  exists payload. split; [done|]. rewrite E, length_app, Nat2Z.inj_add. fold (packet_size p h sealer payload).
  change (u64 MaxPacketSize) with MaxPacketSize. assert (0 <= packet_size p h sealer payload) by (unfold packet_size; lia). split.
  - intros Hs. by rewrite u64_small, (proj2 (Z.ltb_lt _ _)) by lia.
  - intros Hs. rewrite u64_small, (proj2 (Z.ltb_ge _ _)) by (unfold MaxPacketSize in *; lia). eexists _, _. split; [done|]. split; [done|exact Hrecv].
Qed.

(** C23. A packet is delivered.  The packer writes a valid, non-empty payload under the header it builds
    exactly if header, payload and the overhead of the AEAD do not exceed the size of a packet; otherwise nothing is
    written and the path is as before.  When it is written the packet number advances, and a peer that has
    received up to [last] on this path reads from it the header as it is sent with the full packet number, the
    encryption level and the frames as they are sent. *)
Theorem packet_delivered (Open : quicAEAD) p sealer pth lvl fs now rnd last :
  packer_ok p pth -> fs <> [] ->
  let h := getPublicHeader p lvl pth in
  payload_ok (PublicHeader.PacketNumber h) (PublicHeader.PacketNumberLen h) lvl now fs ->
  0 <= Overhead sealer ->
  (forall payload ad, Open (Seal sealer payload (PublicHeader.PacketNumber h) ad)
     (PublicHeader.PacketNumber h) ad = Ok (payload, lvl)) ->
  0 <= last < 2 ^ 62 -> leastUnacked pth <= last + 1 ->
  2 * (last + 1 - next_number pth) < 2 ^ (8 * PublicHeader.PacketNumberLen h) ->
  exists payload, write_frames (version p) now fs = wbytes payload
    /\ (MaxPacketSize < packet_size p h sealer payload < 2 ^ 64 -> writeAndSealPacket p h fs sealer pth now rnd = (Ok None, pth))
    /\ (packet_size p h sealer payload <= MaxPacketSize -> exists raw pth',
          writeAndSealPacket p h fs sealer pth now rnd = (Ok (Some raw), pth') /\ next_number pth < next_number pth'
          /\ receive_packet Open (perspective p) (version p) last raw
             = Ok (with_number (PublicHeader.received h) (next_number pth), lvl, seen now <$> fs)).
Proof.
  intros Hok Hne h Hfs Hov Hopen Hlast Hseen Hahead.
  destruct (written_fits p sealer pth lvl fs now rnd Hok Hov Hfs) as (payload & Hw & Hbig & Hfit).
  exists payload. split; [done|]. split; [done|]. intros Hs. destruct (Hfit Hs) as (raw & pth' & E & Hn & Hrecv). exists raw, pth'. split; [done|]. split; [done|]. by apply Hrecv.
Qed.

Definition null_sealer : Sealer := MkSealer (fun p _ _ => repeat 0 12 ++ p) 12.
Definition null_open : quicAEAD := fun src _ _ => Ok (drop 12 src, EncryptionForwardSecure).
Definition sample_packer : Packer := MkPacker 0xdecafbad PerspectiveClient VersionMP false (repeat 0 32).
Definition sample_path : SendPath :=
  MkSendPath 3 5 (packetNumberGenerator.Mk 500 9 0) true.
Definition sample_frames : list Frame :=
  [FStopWaiting (StopWaitingFrame.Mk 5 2 9); FPing;
   FStream (StreamFrame.Mk 7 false false 1000 [104; 105] 0 false)].

Lemma packet_delivered_witness :
  let h := getPublicHeader sample_packer EncryptionForwardSecure sample_path in
  exists raw pth', writeAndSealPacket sample_packer h sample_frames null_sealer sample_path 0 None = (Ok (Some raw), pth')
    /\ next_number sample_path < next_number pth'
    /\ receive_packet null_open PerspectiveClient VersionMP 8 raw
       = Ok (with_number (PublicHeader.received h) 9, EncryptionForwardSecure, seen 0 <$> sample_frames).
Proof.
  destruct (packet_delivered null_open sample_packer null_sealer sample_path EncryptionForwardSecure
           sample_frames 0 None 8) as (payload & Ew & _ & Hfit);
    [split; vm_compute; intuition congruence|done|vm_compute; intuition congruence|done|done|done|by vm_compute|by vm_compute|].
  apply Hfit. vm_compute in Ew. injection Ew as <-. vm_compute. discriminate.
Defined.
