(* ===== verification/FlowControl.v ===== *)
(** * Flow control

    Models [internal/flowcontrol/flow_controller.go] and
    [internal/flowcontrol/flow_control_manager.go]: one controller per stream and one
    for the connection (stream 0), with the bytes sent and received on each and the
    windows both sides may use.  Byte counts are [uint64]. *)

From stdpp Require Import base numbers list option strings gmap pretty.
From S2P Require Import Prelude.

Local Open Scope Z_scope.

(** What the controllers ask the connection parameters manager for. *)
Record Params : Type := MkParams {
  GetReceiveConnectionFlowControlWindow : Z;
  GetMaxReceiveConnectionFlowControlWindow : Z;
  GetReceiveStreamFlowControlWindow : Z;
  GetMaxReceiveStreamFlowControlWindow : Z;
  GetSendConnectionFlowControlWindow : Z;
  GetSendStreamFlowControlWindow : Z;
}.

Module flowController.

Record t : Type := Mk {
  streamID : Z;
  contributesToConnection : bool;
  bytesSent : Z;
  sendWindow : Z;
  bytesRetrans : Z;
  lastWindowUpdateTime : option Z;      (* None is the zero time *)
  bytesRead : Z;
  highestReceived : Z;
  receiveWindow : Z;
  receiveWindowIncrement : Z;
  maxReceiveWindowIncrement : Z;
}.

Definition newFlowController (id : Z) (contributes : bool) (params : Params) : t :=
  if id =? 0
  then Mk id contributes 0 0 0 None 0 0
         (GetReceiveConnectionFlowControlWindow params)
         (GetReceiveConnectionFlowControlWindow params)
         (GetMaxReceiveConnectionFlowControlWindow params)
  else Mk id contributes 0 0 0 None 0 0
         (GetReceiveStreamFlowControlWindow params)
         (GetReceiveStreamFlowControlWindow params)
         (GetMaxReceiveStreamFlowControlWindow params).

(** ** Sending *)

Definition getSendWindow (params : Params) (c : t) : Z :=
  if sendWindow c =? 0
  then if streamID c =? 0 then GetSendConnectionFlowControlWindow params
       else GetSendStreamFlowControlWindow params
  else sendWindow c.

Definition AddBytesSent (c : t) (n : Z) : t :=
  Mk (streamID c) (contributesToConnection c) (u64 (bytesSent c + n)) (sendWindow c) (bytesRetrans c)
     (lastWindowUpdateTime c) (bytesRead c) (highestReceived c) (receiveWindow c)
     (receiveWindowIncrement c) (maxReceiveWindowIncrement c).

Definition AddBytesRetrans (c : t) (n : Z) : t :=
  Mk (streamID c) (contributesToConnection c) (bytesSent c) (sendWindow c) (u64 (bytesRetrans c + n))
     (lastWindowUpdateTime c) (bytesRead c) (highestReceived c) (receiveWindow c)
     (receiveWindowIncrement c) (maxReceiveWindowIncrement c).

Definition UpdateSendWindow (c : t) (newOffset : Z) : bool * t :=
  if sendWindow c <? newOffset
  then (true, Mk (streamID c) (contributesToConnection c) (bytesSent c) newOffset (bytesRetrans c)
                 (lastWindowUpdateTime c) (bytesRead c) (highestReceived c) (receiveWindow c)
                 (receiveWindowIncrement c) (maxReceiveWindowIncrement c))
  else (false, c).

Definition SendWindowSize (params : Params) (c : t) : Z :=
  let w := getSendWindow params c in
  if w <? bytesSent c then 0 else u64 (w - bytesSent c).

Definition SendWindowOffset (params : Params) (c : t) : Z := getSendWindow params c.

(** ** Receiving *)

Definition ErrReceivedSmallerByteOffset : goerr := GoErr "Received a smaller byte offset".

Definition set_highestReceived (c : t) (h : Z) : t :=
  Mk (streamID c) (contributesToConnection c) (bytesSent c) (sendWindow c) (bytesRetrans c)
     (lastWindowUpdateTime c) (bytesRead c) h (receiveWindow c)
     (receiveWindowIncrement c) (maxReceiveWindowIncrement c).

(** The increment, and whether [ErrReceivedSmallerByteOffset] is returned. *)
Definition UpdateHighestReceived (c : t) (byteOffset : Z) : Z * option goerr * t :=
  if byteOffset =? highestReceived c then (0, None, c)
  else if highestReceived c <? byteOffset
  then (u64 (byteOffset - highestReceived c), None, set_highestReceived c byteOffset)
  else (0, Some ErrReceivedSmallerByteOffset, c).

Definition IncrementHighestReceived (c : t) (increment : Z) : t :=
  set_highestReceived c (u64 (highestReceived c + increment)).

Definition AddBytesRead (c : t) (n now : Z) : t :=
  Mk (streamID c) (contributesToConnection c) (bytesSent c) (sendWindow c) (bytesRetrans c)
     (if bytesRead c =? 0 then Some now else lastWindowUpdateTime c)
     (u64 (bytesRead c + n)) (highestReceived c) (receiveWindow c)
     (receiveWindowIncrement c) (maxReceiveWindowIncrement c).

Definition set_window (c : t) (lastUpdate : option Z) (window increment : Z) : t :=
  Mk (streamID c) (contributesToConnection c) (bytesSent c) (sendWindow c) (bytesRetrans c)
     lastUpdate (bytesRead c) (highestReceived c) window increment (maxReceiveWindowIncrement c).

(** The window grows when updates follow each other within two round trips, the larger
    of the local smoothed RTT and the RTTs the peer reported. *)
Definition maybeAdjustWindowIncrement (c : t) (smoothedRTT : Z) (remoteRTTs : list Z) (now : Z) : t :=
  match lastWindowUpdateTime c with
  | None => c
  | Some last =>
      if smoothedRTT =? 0 then c else
      let maxRemoteRTT := fold_left Z.max remoteRTTs 0 in
      if i64 (2 * Z.max smoothedRTT maxRemoteRTT) <=? time_sub now last then c
      else set_window c (lastWindowUpdateTime c) (receiveWindow c)
             (Z.min (u64 (2 * receiveWindowIncrement c)) (maxReceiveWindowIncrement c))
  end.

(** Whether the window was updated, the new increment (0 if it did not change) and the
    new offset. *)
Definition MaybeUpdateWindow (c : t) (smoothedRTT : Z) (remoteRTTs : list Z) (now : Z)
  : (bool * Z * Z) * t :=
  let diff := u64 (receiveWindow c - bytesRead c) in
  if diff <? receiveWindowIncrement c / 2 then
    let c' := maybeAdjustWindowIncrement c smoothedRTT remoteRTTs now in
    let newWindowIncrement :=
      if negb (receiveWindowIncrement c' =? receiveWindowIncrement c)
      then receiveWindowIncrement c' else 0 in
    let c'' := set_window c' (Some now) (u64 (bytesRead c' + receiveWindowIncrement c'))
                 (receiveWindowIncrement c') in
    ((true, newWindowIncrement, receiveWindow c''), c'')
  else ((false, receiveWindowIncrement c, receiveWindow c), c).

Definition EnsureMinimumWindowIncrement (c : t) (inc : Z) : t :=
  if receiveWindowIncrement c <? inc
  then set_window c None (receiveWindow c) (Z.min inc (maxReceiveWindowIncrement c))
  else c.

Definition CheckFlowControlViolation (c : t) : bool := receiveWindow c <? highestReceived c.

End flowController.

Import flowController.

(** ** The manager *)

Module flowControlManager.

Record t : Type := Mk {
  streamFlowController : gmap Z flowController.t;
  connFlowController : flowController.t;
}.

Definition errMapAccess : goerr := GoErr "Error accessing the flowController map.".
Definition tooMuchData (msg : string) : goerr := QErr "FlowControlReceivedTooMuchData" msg.

Definition NewFlowControlManager (params : Params) : t :=
  Mk ∅ (newFlowController 0 false params).

Definition NewStream (f : t) (id : Z) (contributes : bool) (params : Params) : t :=
  match streamFlowController f !! id with
  | Some _ => f
  | None => Mk (<[id := newFlowController id contributes params]> (streamFlowController f))
              (connFlowController f)
  end.

Definition RemoveStream (f : t) (id : Z) : t :=
  Mk (delete id (streamFlowController f)) (connFlowController f).

Definition getFlowController (f : t) (id : Z) : res flowController.t :=
  match streamFlowController f !! id with Some c => Ok c | None => Err errMapAccess end.

Definition num (z : Z) : string := pretty (Z.to_N z).

(** The two violation checks both handlers end with: the stream's own window, then the
    connection's, to which [increment] bytes are added first. *)
Definition check_windows (f : t) (id byteOffset increment : Z) (c : flowController.t)
  : option goerr * t :=
  let f := Mk (<[id := c]> (streamFlowController f)) (connFlowController f) in
  if CheckFlowControlViolation c
  then (Some (tooMuchData ("Received " +:+ num byteOffset +:+ " bytes on stream " +:+ num id
                           +:+ ", allowed " +:+ num (receiveWindow c) +:+ " bytes")), f)
  else if contributesToConnection c then
    let conn := IncrementHighestReceived (connFlowController f) increment in
    let f := Mk (streamFlowController f) conn in
    if CheckFlowControlViolation conn
    then (Some (tooMuchData ("Received " +:+ num (highestReceived conn)
                             +:+ " bytes for the connection, allowed "
                             +:+ num (receiveWindow conn) +:+ " bytes")), f)
    else (None, f)
  else (None, f).

Definition ResetStream (f : t) (id byteOffset : Z) : option goerr * t :=
  match streamFlowController f !! id with
  | None => (Some errMapAccess, f)
  | Some c =>
      let '(increment, err, c') := UpdateHighestReceived c byteOffset in
      match err with
      | Some _ => (Some (QErr "StreamDataAfterTermination" ""), f)
      | None => check_windows f id byteOffset increment c'
      end
  end.

Definition UpdateHighestReceived (f : t) (id byteOffset : Z) : option goerr * t :=
  match streamFlowController f !! id with
  | None => (Some errMapAccess, f)
  | Some c =>
      let '(increment, _, c') := flowController.UpdateHighestReceived c byteOffset in
      check_windows f id byteOffset increment c'
  end.

Definition on_stream (f : t) (id : Z) (op : flowController.t -> flowController.t) : option goerr * t :=
  match streamFlowController f !! id with
  | None => (Some errMapAccess, f)
  | Some c =>
      (None, Mk (<[id := op c]> (streamFlowController f))
               (if contributesToConnection c then op (connFlowController f) else connFlowController f))
  end.

Definition AddBytesRead (f : t) (id n now : Z) : option goerr * t :=
  on_stream f id (fun c => flowController.AddBytesRead c n now).
Definition AddBytesSent (f : t) (id n : Z) : option goerr * t :=
  on_stream f id (fun c => flowController.AddBytesSent c n).
Definition AddBytesRetrans (f : t) (id n : Z) : option goerr * t :=
  on_stream f id (fun c => flowController.AddBytesRetrans c n).

Definition GetBytesSent (f : t) (id : Z) : res Z := c ← getFlowController f id; mret (bytesSent c).
Definition GetBytesRetrans (f : t) (id : Z) : res Z := c ← getFlowController f id; mret (bytesRetrans c).

Definition GetReceiveWindow (f : t) (id : Z) : res Z :=
  if id =? 0 then Ok (receiveWindow (connFlowController f))
  else c ← getFlowController f id; mret (receiveWindow c).

Definition SendWindowSize (params : Params) (f : t) (id : Z) : res Z :=
  fc ← getFlowController f id;
  let r := flowController.SendWindowSize params fc in
  mret (if contributesToConnection fc
        then Z.min r (flowController.SendWindowSize params (connFlowController f)) else r).

Definition RemainingConnectionWindowSize (params : Params) (f : t) : Z :=
  flowController.SendWindowSize params (connFlowController f).

Definition UpdateWindow (f : t) (id offset : Z) : res bool * t :=
  if id =? 0 then
    let '(b, c) := UpdateSendWindow (connFlowController f) offset in
    (Ok b, Mk (streamFlowController f) c)
  else match streamFlowController f !! id with
       | None => (Err errMapAccess, f)
       | Some c => let '(b, c') := UpdateSendWindow c offset in
                   (Ok b, Mk (<[id := c']> (streamFlowController f)) (connFlowController f))
       end.

(** [ByteCount(float64(x) * ConnectionFlowControlMultiplier)] with the multiplier 1.5:
    exact in a [float64] below 2^52. *)
Definition connection_increment (x : Z) : Z := 3 * x / 2.

(** [GetWindowUpdates]: the streams are visited in the order [ids] (Go's map order). *)
Fixpoint stream_updates (force : bool) (rtt : Z) (remote : list Z) (now : Z) (ids : list Z) (f : t)
  : list (Z * Z) * t :=
  match ids with
  | [] => ([], f)
  | id :: ids' =>
      match streamFlowController f !! id with
      | None => stream_updates force rtt remote now ids' f
      | Some c =>
          let '((necessary, newIncrement, offset), c') := MaybeUpdateWindow c rtt remote now in
          let f' := Mk (<[id := c']> (streamFlowController f)) (connFlowController f) in
          if force || necessary then
            let f'' := if contributesToConnection c' && negb (newIncrement =? 0)
                       then Mk (streamFlowController f')
                              (EnsureMinimumWindowIncrement (connFlowController f')
                                 (connection_increment newIncrement))
                       else f' in
            let '(us, g) := stream_updates force rtt remote now ids' f'' in
            ((id, offset) :: us, g)
          else stream_updates force rtt remote now ids' f'
      end
  end.

Definition GetWindowUpdates (force : bool) (rtt : Z) (remote : list Z) (now : Z) (ids : list Z) (f : t)
  : list (Z * Z) * t :=
  let '(us, f) := stream_updates force rtt remote now ids f in
  let '((necessary, _, offset), c) := MaybeUpdateWindow (connFlowController f) rtt remote now in
  let f := Mk (streamFlowController f) c in
  (us ++ (if force || necessary then [(0, offset)] else []), f).

End flowControlManager.

(** ** Invariant of a controller *)

(** What was read was received, and neither the bytes received and not yet read nor the window beyond what was
    read is more than [K].  If [fits] (the initial window is within the maximum of the increment), what was
    received also fits the window, and the increment has not outgrown its maximum. *)
Record ctrl_ok (K : Z) (fits : Prop) (c : flowController.t) : Prop := {
  ok_limit : K < 2 ^ 52;
  ok_read : 0 <= bytesRead c <= highestReceived c;
  ok_read_max : bytesRead c < 2 ^ 61;
  ok_unread : highestReceived c <= bytesRead c + K;
  ok_window : 0 <= receiveWindow c <= bytesRead c + K;
  ok_increment : 0 <= receiveWindowIncrement c <= K;
  ok_max : 0 <= maxReceiveWindowIncrement c <= K;
  ok_fits : fits -> highestReceived c <= receiveWindow c /\ receiveWindowIncrement c <= maxReceiveWindowIncrement c;
}.

Lemma maybeAdjust_fields c rtt remote now :
  let c' := maybeAdjustWindowIncrement c rtt remote now in
  bytesRead c' = bytesRead c /\ highestReceived c' = highestReceived c /\
  contributesToConnection c' = contributesToConnection c /\
  maxReceiveWindowIncrement c' = maxReceiveWindowIncrement c /\
  (receiveWindowIncrement c' = receiveWindowIncrement c \/
   receiveWindowIncrement c' = Z.min (u64 (2 * receiveWindowIncrement c)) (maxReceiveWindowIncrement c)).
Proof.
  unfold maybeAdjustWindowIncrement.
  destruct (lastWindowUpdateTime c); [|auto 10]. destruct (rtt =? 0); [auto 10|].
  destruct (_ <=? _); cbn; auto 10.
Qed.

(** An update takes back what was already advertised only if the initial window was too large. *)
Lemma MaybeUpdateWindow_ok K fits c rtt remote now :
  ctrl_ok K fits c ->
  let '((necessary, newIncrement, offset), c') := MaybeUpdateWindow c rtt remote now in
  ctrl_ok K fits c' /\ (fits -> receiveWindow c <= receiveWindow c') /\ offset = receiveWindow c' /\
  highestReceived c' = highestReceived c /\ bytesRead c' = bytesRead c /\
  contributesToConnection c' = contributesToConnection c /\
  0 <= newIncrement < 2 ^ 52.
Proof.
  intros [Hk Hr Hrm Hh Hw Hi Hm Hf]. unfold MaybeUpdateWindow.
  destruct (Z.ltb_spec (u64 (receiveWindow c - bytesRead c)) (receiveWindowIncrement c / 2)) as [Hlt|Hge].
  2: { split_and!; try done; lia. }
  destruct (maybeAdjust_fields c rtt remote now) as (F1 & F2 & F3 & F4 & F5).
  set (c' := maybeAdjustWindowIncrement c rtt remote now) in *.
  rewrite (u64_small (2 * receiveWindowIncrement c)) in F5 by lia.
  assert (0 <= receiveWindowIncrement c' <= K) as Hinc by lia.
  assert (fits -> receiveWindowIncrement c <= receiveWindowIncrement c' <= maxReceiveWindowIncrement c) as Hincf
    by (intros F; destruct (Hf F); lia).
  assert (receiveWindowIncrement c / 2 <= receiveWindowIncrement c) by (Z.div_mod_to_equations; lia).
  cbn [set_window receiveWindow highestReceived bytesRead contributesToConnection].
  rewrite F1, (u64_small (bytesRead c + receiveWindowIncrement c')), F3, F2 by lia.
  assert (fits -> receiveWindow c <= bytesRead c + receiveWindowIncrement c') as Hwf.
  { intros F. destruct (Hf F). rewrite u64_small in Hlt by lia. specialize (Hincf F). lia. }
  split_and!; try done; try lia.
  - split; cbn; rewrite ?F1, ?F2, ?F4; try lia. intros F. destruct (Hf F). specialize (Hincf F). specialize (Hwf F). lia.
  - destruct (negb _); lia.
  - destruct (negb _); lia.
Qed.

Lemma EnsureMinimum_ok K fits c inc :
  ctrl_ok K fits c -> 0 <= inc ->
  let c' := EnsureMinimumWindowIncrement c inc in
  ctrl_ok K fits c' /\ receiveWindow c' = receiveWindow c /\ highestReceived c' = highestReceived c /\
  bytesRead c' = bytesRead c.
Proof.
  intros [Hk Hr Hrm Hh Hw Hi Hm Hf] Hinc. unfold EnsureMinimumWindowIncrement.
  destruct (Z.ltb_spec (receiveWindowIncrement c) inc); [|done].
  cbn. split_and!; try done. split; cbn; try lia. intros F. destruct (Hf F). lia.
Qed.

(** ** Sums over the streams *)

(** The sum of [g] over the streams that count against the connection. *)
Definition contribution (g : flowController.t -> Z) (c : flowController.t) : Z :=
  if contributesToConnection c then g c else 0.
Definition total (g : flowController.t -> Z) (m : gmap Z flowController.t) : Z :=
  map_fold (fun _ c acc => contribution g c + acc) 0 m.

Lemma total_insert_new g m id c :
  m !! id = None -> total g (<[id := c]> m) = contribution g c + total g m.
Proof.
  intros H. unfold total. rewrite map_fold_insert_L; [done| |done]. intros. lia.
Qed.

Lemma total_delete g m id c :
  m !! id = Some c -> total g m = contribution g c + total g (delete id m).
Proof.
  intros H. rewrite <- (insert_delete_id m id c) at 1 by done.
  apply total_insert_new, lookup_delete_eq.
Qed.

Lemma total_replace g m id c c' :
  m !! id = Some c -> total g (<[id := c']> m) = total g m - contribution g c + contribution g c'.
Proof.
  intros H. rewrite (total_delete g m id c) by done.
  rewrite (total_delete g (<[id := c']> m) id c') by apply lookup_insert_eq.
  rewrite delete_insert_eq. lia.
Qed.

Lemma total_nonneg g m :
  (forall id c, m !! id = Some c -> 0 <= g c) -> 0 <= total g m.
Proof.
  induction m as [|id c m Hid IH] using map_ind; intros H; [done|].
  rewrite total_insert_new by done. unfold contribution at 1.
  assert (0 <= g c) by (eapply H, lookup_insert_eq).
  assert (0 <= total g m).
  { apply IH. intros id' c' H'. eapply (H id'). rewrite lookup_insert_ne; [done|]. intros ->. congruence. }
  destruct (contributesToConnection c); lia.
Qed.

(** ** Invariant of the manager *)

Definition unread (c : flowController.t) : Z := highestReceived c - bytesRead c.

Import flowControlManager.

(** The most that may be received and not read: the initial window, or what the increment may grow to. *)
Definition initial_window (params : Params) (id : Z) : Z :=
  if id =? 0 then GetReceiveConnectionFlowControlWindow params else GetReceiveStreamFlowControlWindow params.
Definition max_increment (params : Params) (id : Z) : Z :=
  if id =? 0 then GetMaxReceiveConnectionFlowControlWindow params else GetMaxReceiveStreamFlowControlWindow params.
Definition limit (params : Params) (id : Z) : Z := Z.max (initial_window params id) (max_increment params id).
Definition starts_within (params : Params) (id : Z) : Prop := initial_window params id <= max_increment params id.

(** Windows are far from the width of their type. *)
Definition params_ok (p : Params) : Prop :=
  forall id, 0 <= initial_window p id < 2 ^ 52 /\ 0 <= max_increment p id < 2 ^ 52.

(** The calls a session makes.  Data is reported as received or reset with any offset
    that the manager accepts; the application only reads what was received. *)
Inductive step (params : Params) (f : flowControlManager.t) : flowControlManager.t -> Prop :=
| step_new id b : step params f (NewStream f id b params)
| step_remove id : step params f (RemoveStream f id)
| step_received id off f' :
    0 <= off < 2 ^ 64 ->
    flowControlManager.UpdateHighestReceived f id off = (None, f') -> step params f f'
| step_reset id off f' :
    0 <= off < 2 ^ 64 -> ResetStream f id off = (None, f') -> step params f f'
| step_read id n now c f' :
    streamFlowController f !! id = Some c -> 0 <= n -> bytesRead c + n <= highestReceived c ->
    bytesRead c + n < 2 ^ 61 -> bytesRead (connFlowController f) + n < 2 ^ 61 ->
    flowControlManager.AddBytesRead f id n now = (None, f') -> step params f f'
| step_sent id n f' : flowControlManager.AddBytesSent f id n = (None, f') -> step params f f'
| step_retrans id n f' : flowControlManager.AddBytesRetrans f id n = (None, f') -> step params f f'
| step_window id off b f' : UpdateWindow f id off = (Ok b, f') -> step params f f'
| step_updates force rtt remote now ids us f' :
    GetWindowUpdates force rtt remote now ids f = (us, f') -> step params f f'.

Section Invariant.
Context (params : Params).
Abbreviation stream_ok id := (ctrl_ok (limit params id) (starts_within params id)).

Record inv (f : flowControlManager.t) : Prop := {
  inv_streams : forall id c, streamFlowController f !! id = Some c -> stream_ok id c;
  inv_conn : stream_ok 0 (connFlowController f);
  inv_total : total highestReceived (streamFlowController f) <= highestReceived (connFlowController f);
  inv_unread : total unread (streamFlowController f) <= unread (connFlowController f);
}.

Lemma newFlowController_ok id b : params_ok params -> stream_ok id (newFlowController id b params).
Proof.
  intros H. specialize (H id). unfold newFlowController, limit, starts_within, initial_window, max_increment in *.
  destruct (id =? 0); split; cbn; lia.
Qed.

Lemma lookup_insert_cases {A} (m : gmap Z A) i j x y :
  <[i := x]> m !! j = Some y -> (j = i /\ y = x) \/ (j <> i /\ m !! j = Some y).
Proof.
  destruct (decide (j = i)) as [->|Hne].
  - rewrite lookup_insert_eq. intros [= <-]. by left.
  - rewrite lookup_insert_ne by done. auto.
Qed.

(** Replacing a stream's controller by one that differs in how much is received and
    read, with the same change at the connection. *)
Lemma inv_update f id c c' conn' :
  inv f -> streamFlowController f !! id = Some c -> stream_ok id c' -> stream_ok 0 conn' ->
  contributesToConnection c' = contributesToConnection c ->
  contribution highestReceived c' - contribution highestReceived c
    <= highestReceived conn' - highestReceived (connFlowController f) ->
  contribution unread c' - contribution unread c
    <= unread conn' - unread (connFlowController f) ->
  inv (Mk (<[id := c']> (streamFlowController f)) conn').
Proof.
  intros [Hs Hc Ht Hu] Hid Hc' Hconn' Hk Hh Hun. split; cbn.
  - intros j cj [[-> ->]|[_ Hj]]%lookup_insert_cases; eauto.
  - done.
  - rewrite (total_replace _ _ _ c) by done. lia.
  - rewrite (total_replace _ _ _ c) by done. lia.
Qed.

Lemma check_windows_inv f id c off inc c' f' :
  inv f -> streamFlowController f !! id = Some c ->
  (c' = c /\ inc = 0 \/ c' = set_highestReceived c off /\ inc = off - highestReceived c /\ 0 < inc) ->
  check_windows f id off inc c' = (None, f') -> inv f'.
Proof.
  intros Hinv Hid Hc. pose proof (inv_streams f Hinv id c Hid) as Hok.
  pose proof (inv_conn f Hinv) as Hconn. unfold check_windows, CheckFlowControlViolation.
  cbn [streamFlowController connFlowController].
  destruct (Z.ltb_spec (receiveWindow c') (highestReceived c')) as [|Hw]; [done|].
  pose proof Hok as [Hk Hr Hrm Hh Hwm Hi Hm Hf]. pose proof Hconn as [Gk Gr Grm Gh Gwm Gi Gm Gf].
  assert (stream_ok id c' /\ contributesToConnection c' = contributesToConnection c /\ bytesRead c' = bytesRead c /\
          highestReceived c' = highestReceived c + inc /\ 0 <= inc < 2 ^ 62) as (Hok' & Hkc & Hb & Hhh & Hinc).
  { destruct Hc as [[-> ->]|(-> & -> & Hpos)]; [split_and!; try done; lia|]. cbn in *.
    split_and!; try done; try lia. split; cbn; try lia. intros F. destruct (Hf F). lia. }
  destruct (contributesToConnection c') eqn:Ek.
  - cbn [IncrementHighestReceived set_highestReceived receiveWindow highestReceived].
    rewrite (u64_small (highestReceived (connFlowController f) + inc)) by lia.
    destruct (Z.ltb_spec (receiveWindow (connFlowController f)) (highestReceived (connFlowController f) + inc))
      as [|Hcw]; [done|].
    intros [= <-]. eapply inv_update; eauto; unfold contribution, unread; rewrite ?Ek, <- ?Hkc; cbn.
    + unfold IncrementHighestReceived. split; cbn; rewrite ?u64_small by lia; try lia. intros F. destruct (Gf F). lia.
    + rewrite u64_small by lia. lia.
    + rewrite u64_small by lia. lia.
  - intros [= <-]. eapply inv_update; eauto; unfold contribution; rewrite ?Ek, <- ?Hkc; lia.
Qed.

Lemma received_update K fits c off inc err c' :
  ctrl_ok K fits c -> 0 <= off < 2 ^ 64 ->
  flowController.UpdateHighestReceived c off = (inc, err, c') ->
  c' = c /\ inc = 0 \/ c' = set_highestReceived c off /\ inc = off - highestReceived c /\ 0 < inc.
Proof.
  intros [_ Hr _ _ _ _ _ _] Hoff. unfold flowController.UpdateHighestReceived.
  destruct (Z.eqb_spec off (highestReceived c)); [intros [= <- <- <-]; auto|].
  destruct (Z.ltb_spec (highestReceived c) off); intros [= <- <- <-]; [right|auto].
  rewrite u64_small by lia. split_and!; auto. lia.
Qed.

Lemma stream_updates_inv force rtt remote now ids : forall f us f',
  inv f -> stream_updates force rtt remote now ids f = (us, f') -> inv f'.
Proof.
  induction ids as [|id ids IH]; intros f us f' Hinv; cbn [stream_updates]; [by intros [= <- <-]|].
  destruct (streamFlowController f !! id) as [c|] eqn:Hid; [|by apply IH].
  pose proof (MaybeUpdateWindow_ok _ _ c rtt remote now (inv_streams f Hinv id c Hid)) as Hm.
  destruct (MaybeUpdateWindow c rtt remote now) as [[[nec inc] off] c'].
  destruct Hm as (Hok & _ & _ & Hh & Hb & Hk & Hinc).
  assert (inv (Mk (<[id := c']> (streamFlowController f)) (connFlowController f))) as Hinv'.
  { eapply inv_update; eauto; [apply (inv_conn f Hinv)| |]; unfold contribution, unread;
      rewrite Hk, ?Hh, ?Hb; lia. }
  destruct (force || nec); [|by apply IH].
  destruct (contributesToConnection c' && negb (inc =? 0)).
  - destruct (EnsureMinimum_ok (limit params 0) (starts_within params 0) (connFlowController f) (connection_increment inc)) as (E1 & E2 & E3 & E4).
    { apply (inv_conn f Hinv). }
    { unfold connection_increment. Z.div_mod_to_equations. lia. }
    destruct (stream_updates _ _ _ _ _ _) as [us' g] eqn:Er. intros [= <- <-].
    eapply IH; [|exact Er]. destruct Hinv' as [A1 A2 A3 A4]. split; cbn in *; [done|done| |].
    + by rewrite E3.
    + unfold unread in *. by rewrite E3, E4.
  - destruct (stream_updates _ _ _ _ _ _) as [us' g] eqn:Er. intros [= <- <-]. eapply IH; eauto.
Qed.

Lemma NewStream_inv f id b : params_ok params -> inv f -> inv (NewStream f id b params).
Proof.
  intros Hp Hinv. unfold NewStream. destruct (streamFlowController f !! id) eqn:Hid; [done|].
  destruct Hinv as [Hst Hc Ht Hu]. pose proof (newFlowController_ok id b Hp) as Hnew.
  assert (highestReceived (newFlowController id b params) = 0 /\
          bytesRead (newFlowController id b params) = 0) as [E1 E2]
    by (unfold newFlowController; by destruct (id =? 0)).
  split; cbn; [|done| |].
  - intros j cj [[-> ->]|[_ Hj]]%lookup_insert_cases; eauto.
  - rewrite total_insert_new by done. unfold contribution. rewrite E1.
    destruct (contributesToConnection _); lia.
  - rewrite total_insert_new by done. unfold contribution, unread at 1. rewrite E1, E2.
    destruct (contributesToConnection _); lia.
Qed.

Lemma RemoveStream_inv f id : inv f -> inv (RemoveStream f id).
Proof.
  intros Hinv. unfold RemoveStream. destruct (streamFlowController f !! id) as [c|] eqn:Hid.
  2: { rewrite delete_id by done. by destruct f. }
  pose proof Hinv as [Hst Hc Ht Hu]. pose proof (Hst id c Hid) as [_ Hr _ _ _ _ _ _].
  split; cbn; [|done| |].
  - intros j cj [_ Hj]%lookup_delete_Some. eauto.
  - rewrite (total_delete _ _ id c) in Ht by done. unfold contribution in Ht.
    destruct (contributesToConnection c); lia.
  - rewrite (total_delete _ _ id c) in Hu by done. unfold contribution, unread at 1 in Hu.
    destruct (contributesToConnection c); lia.
Qed.

Lemma received_inv f id off f' :
  inv f -> 0 <= off < 2 ^ 64 ->
  flowControlManager.UpdateHighestReceived f id off = (None, f') \/ ResetStream f id off = (None, f') ->
  inv f'.
Proof.
  intros Hinv Ho E. unfold flowControlManager.UpdateHighestReceived, ResetStream in E.
  destruct (streamFlowController f !! id) as [c|] eqn:Hid; [|by destruct E].
  destruct (flowController.UpdateHighestReceived c off) as [[inc err] c'] eqn:Eu.
  eapply check_windows_inv; [done|exact Hid|eapply received_update|].
  - by eapply inv_streams.
  - exact Ho.
  - exact Eu.
  - destruct E as [E|E]; [exact E|]. destruct err; [done|exact E].
Qed.

(** Operations that leave the receiving side alone. *)
Definition same_receiving (c c' : flowController.t) : Prop :=
  contributesToConnection c' = contributesToConnection c /\ bytesRead c' = bytesRead c /\
  highestReceived c' = highestReceived c /\ receiveWindow c' = receiveWindow c /\
  receiveWindowIncrement c' = receiveWindowIncrement c /\
  maxReceiveWindowIncrement c' = maxReceiveWindowIncrement c.

Lemma same_receiving_ok K fits c c' : same_receiving c c' -> ctrl_ok K fits c -> ctrl_ok K fits c'.
Proof. intros (_ & E1 & E2 & E3 & E4 & E5) [H1 H2 H3 H4 H5 H6 H7 H8]. split; rewrite ?E1, ?E2, ?E3, ?E4, ?E5; done. Qed.

Lemma same_receiving_inv f id c c' conn' :
  inv f -> streamFlowController f !! id = Some c -> same_receiving c c' ->
  same_receiving (connFlowController f) conn' ->
  inv (Mk (<[id := c']> (streamFlowController f)) conn').
Proof.
  intros Hinv Hid Hc Hconn. pose proof Hc as (F1 & F2 & F3 & _). pose proof Hconn as (_ & G2 & G3 & _).
  eapply inv_update; eauto; unfold contribution, unread; rewrite ?F1, ?F2, ?F3, ?G2, ?G3; try lia.
  - eapply same_receiving_ok, inv_streams; eauto.
  - eapply same_receiving_ok, inv_conn; eauto.
Qed.

Lemma on_stream_inv f id op f' :
  inv f -> (forall c, same_receiving c (op c)) -> on_stream f id op = (None, f') -> inv f'.
Proof.
  intros Hinv Hop. unfold on_stream. destruct (streamFlowController f !! id) as [c|] eqn:Hid; [|done].
  intros [= <-]. eapply same_receiving_inv; eauto. by destruct (contributesToConnection c).
Qed.

Lemma AddBytesRead_inv f id n now c f' :
  inv f -> streamFlowController f !! id = Some c -> 0 <= n -> bytesRead c + n <= highestReceived c ->
  bytesRead c + n < 2 ^ 61 -> bytesRead (connFlowController f) + n < 2 ^ 61 ->
  flowControlManager.AddBytesRead f id n now = (None, f') -> inv f'.
Proof.
  intros Hinv Hid Hn Hle Hb1 Hb2. unfold flowControlManager.AddBytesRead, on_stream. rewrite Hid.
  intros [= <-]. pose proof (inv_streams f Hinv id c Hid) as Hok. pose proof (inv_conn f Hinv) as Hconn.
  assert (contribution unread c <= unread (connFlowController f)) as Hun.
  { pose proof (inv_unread f Hinv) as Hu. rewrite (total_delete _ _ id c) in Hu by done.
    assert (0 <= total unread (delete id (streamFlowController f))); [|lia].
    apply total_nonneg. intros j cj [_ Hj]%lookup_delete_Some.
    destruct (inv_streams f Hinv j cj Hj) as [_ ? _ _ _ _ _ _]. unfold unread. lia. }
  pose proof Hok as [Hk Hr Hrm Hh Hw Hi Hm Hf]. pose proof Hconn as [Gk Gr Grm Gh Gw Gi Gm Gf].
  unfold contribution, unread in Hun.
  destruct (contributesToConnection c) eqn:Ek.
  all: eapply inv_update; eauto; unfold contribution, unread; cbn; rewrite ?Ek, ?u64_small by lia; try lia.
  all: unfold flowController.AddBytesRead; split; cbn; rewrite ?u64_small by lia; try lia; intros F; first [destruct (Hf F)|destruct (Gf F)]; try lia; destruct (Gf F); lia.
Qed.

Lemma UpdateWindow_inv f id off b f' : inv f -> UpdateWindow f id off = (Ok b, f') -> inv f'.
Proof.
  intros Hinv. unfold UpdateWindow.
  assert (forall c b c', UpdateSendWindow c off = (b, c') -> same_receiving c c') as Hsame
    by (intros c ? c'; unfold UpdateSendWindow; destruct (_ <? _); by intros [= <- <-]).
  destruct (id =? 0).
  - destruct (UpdateSendWindow (connFlowController f) off) as [b' c'] eqn:E. intros [= <- <-].
    pose proof (Hsame _ _ _ E) as Hs. pose proof Hs as (_ & G2 & G3 & _). destruct Hinv as [H1 H2 H3 H4].
    split; cbn; [done|by eapply same_receiving_ok|by rewrite G3|unfold unread in *; by rewrite G2, G3].
  - destruct (streamFlowController f !! id) as [c|] eqn:Hid; [|done].
    destruct (UpdateSendWindow c off) as [b' c'] eqn:E. intros [= <- <-].
    eapply same_receiving_inv; eauto. done.
Qed.

Lemma GetWindowUpdates_inv force rtt remote now ids f us f' :
  inv f -> GetWindowUpdates force rtt remote now ids f = (us, f') -> inv f'.
Proof.
  intros Hinv. unfold GetWindowUpdates.
  destruct (stream_updates _ _ _ _ _ _) as [us' g] eqn:E.
  pose proof (stream_updates_inv _ _ _ _ _ _ _ _ Hinv E) as [H1 H2 H3 H4].
  pose proof (MaybeUpdateWindow_ok _ _ (connFlowController g) rtt remote now H2) as Hm.
  destruct (MaybeUpdateWindow _ _ _ _) as [[[nec inc] off] c']. intros [= <- <-].
  destruct Hm as (Hok & _ & _ & Hh & Hb & _). split; cbn; [done|done|by rewrite Hh|].
  unfold unread in *. by rewrite Hh, Hb.
Qed.

Lemma step_inv f f' : params_ok params -> inv f -> step params f f' -> inv f'.
Proof.
  intros Hp Hinv []; eauto using NewStream_inv, RemoveStream_inv, received_inv, AddBytesRead_inv,
    UpdateWindow_inv, GetWindowUpdates_inv.
  all: eapply on_stream_inv; [done| |eassumption]; intros c; by repeat split.
Qed.

(** The states a session can reach. *)
Inductive reachable : flowControlManager.t -> Prop :=
| reach_new : reachable (NewFlowControlManager params)
| reach_step f f' : reachable f -> step params f f' -> reachable f'.

Lemma reachable_inv f : params_ok params -> reachable f -> inv f.
Proof.
  intros Hp Hr. induction Hr as [|f f' _ IH Hs]; [|by eapply step_inv].
  split; cbn; [done|by apply (newFlowController_ok 0 false)|unfold total; by rewrite map_fold_empty|].
  unfold total. by rewrite map_fold_empty.
Qed.
End Invariant.

(** ** Properties *)

(** C32. Flow control is never exceeded.  In every state a session can reach, with windows below 2^52 bytes, no
    stream has more bytes received and not read than its initial window or the largest increment allow, nor have
    all streams that count against the connection together more than the connection's.  If a stream's initial
    window is within the maximum of the increment, the stream has received at most what its window allows now,
    and if the connection's is, so have those streams together; the default parameters are not
    ([default_window_shrinks]). *)
Theorem flow_control_respected params f :
  params_ok params -> reachable params f ->
  (forall id c, streamFlowController f !! id = Some c ->
     0 <= unread c <= limit params id /\ (starts_within params id -> highestReceived c <= receiveWindow c)) /\
  total unread (streamFlowController f) <= limit params 0 /\
  (starts_within params 0 -> total highestReceived (streamFlowController f) <= receiveWindow (connFlowController f)).
Proof.
  intros Hp Hr. destruct (reachable_inv params f Hp Hr) as [Hs Hc Ht Hu]. split_and!.
  - intros id c Hid. destruct (Hs id c Hid) as [_ H1 _ H2 _ _ _ H3]. unfold unread. split; [lia|]. intros F. by destruct (H3 F).
  - destruct Hc. unfold unread in *. lia.
  - intros F. destruct Hc as [_ _ _ _ _ _ _ Hf]. destruct (Hf F). lia.
Qed.

Definition sample_params : Params := MkParams 49152 1572864 32768 1048576 16384 16384.
Definition sample_state : flowControlManager.t :=
  (flowControlManager.UpdateHighestReceived (NewStream (NewFlowControlManager sample_params) 5 true sample_params)
     5 20000).2.

Lemma sample_params_ok : params_ok sample_params.
Proof. intros id. unfold initial_window, max_increment. destruct (id =? 0); cbn; lia. Qed.

Lemma flow_control_respected_witness :
  (forall id c, streamFlowController sample_state !! id = Some c ->
     0 <= unread c <= limit sample_params id /\ (starts_within sample_params id -> highestReceived c <= receiveWindow c)) /\
  total unread (streamFlowController sample_state) <= limit sample_params 0 /\
  (starts_within sample_params 0 -> total highestReceived (streamFlowController sample_state) <= receiveWindow (connFlowController sample_state)) /\
  starts_within sample_params 0 /\ starts_within sample_params 5.
Proof.
  destruct (flow_control_respected sample_params sample_state) as (H1 & H2 & H3); [exact sample_params_ok| |by split_and!].
  eapply reach_step; [eapply reach_step; [apply reach_new|apply (step_new _ _ 5 true)]|].
  by eapply (step_received _ _ 5 20000).
Defined.

(** A window update never withdraws credit: the offset [MaybeUpdateWindow] announces
    is at least the one announced before, as long as the increment is within its maximum. *)
Theorem receive_window_monotone K c rtt remote now :
  ctrl_ok K True c -> receiveWindow c <= receiveWindow (MaybeUpdateWindow c rtt remote now).2 /\
    (MaybeUpdateWindow c rtt remote now).1.2 = receiveWindow (MaybeUpdateWindow c rtt remote now).2.
Proof.
  intros Hc. pose proof (MaybeUpdateWindow_ok _ _ c rtt remote now Hc) as H.
  destruct (MaybeUpdateWindow c rtt remote now) as [[[nec inc] off] c'].
  destruct H as (_ & H & ? & _). split; [by apply H|done].
Qed.

Lemma receive_window_monotone_witness :
  let c := flowController.Mk 5 true 0 0 0 (Some 0) 20000 20000 32768 32768 1048576 in
  receiveWindow c <= receiveWindow (MaybeUpdateWindow c 1000 [] 1500).2 /\
    (MaybeUpdateWindow c 1000 [] 1500).1.2 = receiveWindow (MaybeUpdateWindow c 1000 [] 1500).2.
Proof.
  apply (receive_window_monotone (2 ^ 20) (flowController.Mk 5 true 0 0 0 (Some 0) 20000 20000 32768 32768 1048576)).
  split; cbn; lia.
Defined.

(** The constants of [protocol/server_parameters.go] a server uses. *)
Definition ReceiveStreamFlowControlWindow : Z := 2 ^ 20 * 160.
Definition ReceiveConnectionFlowControlWindow : Z := 2 ^ 20 * 200.
Definition DefaultMaxReceiveStreamFlowControlWindowServer : Z := 1 * 2 ^ 20.
Definition DefaultMaxReceiveConnectionFlowControlWindowServer : Z := 3 * 2 ^ 20 / 2.
Definition server_params : Params :=
  MkParams ReceiveConnectionFlowControlWindow DefaultMaxReceiveConnectionFlowControlWindowServer
    ReceiveStreamFlowControlWindow DefaultMaxReceiveStreamFlowControlWindowServer 16384 16384.

(** With the server's default constants credit is withdrawn.  A stream that reads
    100 MB within two round trips has its window moved back from 160 MB to 101 MB, and a
    peer that then sends within the 160 MB it was granted is reported as violating flow
    control. *)
Theorem default_window_shrinks :
  exists c c' now rtt,
    c = flowController.AddBytesRead (set_highestReceived (newFlowController 5 true server_params) (2 ^ 20 * 100))
          (2 ^ 20 * 100) 0 /\
    (MaybeUpdateWindow c rtt [] now).2 = c' /\
    receiveWindow c = 2 ^ 20 * 160 /\ receiveWindow c' = 2 ^ 20 * 101 /\
    CheckFlowControlViolation
      (flowController.UpdateHighestReceived c' (2 ^ 20 * 150)).2 = true.
Proof. eexists _, _, 1000, 1000. split_and!; [done|reflexivity|vm_compute; done..]. Qed.

(** Sending stays within both windows: whatever is sent within the size
    [SendWindowSize] reports keeps the stream within its send window and, if the stream
    counts against the connection, the connection within its own. *)
Theorem send_window_respected params f id w n f' c :
  SendWindowSize params f id = Ok w -> 0 <= n <= w ->
  streamFlowController f !! id = Some c ->
  0 <= bytesSent c <= getSendWindow params c -> getSendWindow params c < 2 ^ 64 ->
  0 <= bytesSent (connFlowController f) <= getSendWindow params (connFlowController f) ->
  getSendWindow params (connFlowController f) < 2 ^ 64 ->
  flowControlManager.AddBytesSent f id n = (None, f') ->
  exists c', streamFlowController f' !! id = Some c' /\
    bytesSent c' = bytesSent c + n /\ bytesSent c' <= getSendWindow params c' /\
    bytesSent (connFlowController f') <= getSendWindow params (connFlowController f').
Proof.
  intros Hw Hn Hid Hs Hs64 Hc Hc64. unfold flowControlManager.AddBytesSent, on_stream. rewrite Hid.
  intros [= <-]. unfold SendWindowSize, getFlowController in Hw. rewrite Hid in Hw. cbn in Hw.
  injection Hw as <-. unfold flowController.SendWindowSize in Hn.
  rewrite (proj2 (Z.ltb_ge (getSendWindow params c) _)), (u64_small (getSendWindow params c - _)) in Hn by lia.
  rewrite (proj2 (Z.ltb_ge (getSendWindow params (connFlowController f)) _)),
    (u64_small (getSendWindow params (connFlowController f) - _)) in Hn by lia.
  eexists. cbn. split; [apply lookup_insert_eq|]. unfold flowController.AddBytesSent, getSendWindow in *.
  cbn in *. destruct (contributesToConnection c); cbn; rewrite ?u64_small by lia; split_and!; lia.
Qed.

Lemma send_window_respected_witness :
  exists c', streamFlowController (flowControlManager.AddBytesSent sample_state 5 1000).2 !! 5 = Some c' /\
    bytesSent c' = 0 + 1000 /\ bytesSent c' <= getSendWindow sample_params c' /\
    bytesSent (connFlowController (flowControlManager.AddBytesSent sample_state 5 1000).2)
      <= getSendWindow sample_params (connFlowController (flowControlManager.AddBytesSent sample_state 5 1000).2).
Proof.
  apply (send_window_respected sample_params sample_state 5 16384 1000 _
    (flowController.Mk 5 true 0 0 0 None 0 20000 32768 32768 1048576));
    try reflexivity; vm_compute; split; congruence.
Defined.
