(* ===== verification/FrameSorter.v ===== *)
(** * Reassembly of a stream

    Models [stream_frame_sorter.go]: STREAM frames arrive in any order, overlap and
    repeat; the sorter keeps the gaps that are still missing and a queue of frames by
    offset, and hands the data out in order.  The list of gaps is the linked list
    [utils.ByteIntervalList]; a gap is [Start, End).

    The theorems relate the sorter to its abstract state, the set of bytes received so
    far, and show that it hands out exactly the bytes of the stream. *)

From stdpp Require Import base numbers list option strings gmap.
From S2P Require Import Prelude StreamFrame.

Local Open Scope Z_scope.

Definition MaxByteCount : Z := 2 ^ 64 - 1.
Definition MaxStreamFrameSorterGaps : Z := 2500.

(** [utils.ByteInterval] *)
Record ByteInterval : Type := MkInterval { Start : Z; End : Z }.
#[export] Instance ByteInterval_eq_dec : EqDecision ByteInterval.
Proof. solve_decision. Defined.

Module streamFrameSorter.

Record t : Type := Mk {
  queuedFrames : gmap Z StreamFrame.t;
  readPosition : Z;
  gaps : list ByteInterval;
  dupframesize : Z;
}.

Definition errTooManyGapsInReceivedStreamData : goerr :=
  GoErr "Too many gaps in received StreamFrame data".
Definition errDuplicateStreamData : goerr := GoErr "Duplicate Stream Data".
Definition errEmptyStreamData : goerr := GoErr "Stream Data empty".
Definition errNoGap : goerr := GoErr "StreamFrameSorter BUG: no gap found".
Definition errNoEndGap : goerr := GoErr "StreamFrameSorter BUG: no end gap found".

Definition newStreamFrameSorter : t := Mk ∅ 0 [MkInterval 0 MaxByteCount] 0.

(** [frame.Data[n:]] and [frame.Data[:n]], which panic out of range; the fields that are
    not touched stay. *)
Definition with_data (f : StreamFrame.t) (off : Z) (data : list Z) : StreamFrame.t :=
  StreamFrame.Mk (StreamFrame.StreamID f) (StreamFrame.FinBit f) (StreamFrame.DataLenPresent f)
    off data (StreamFrame.Rcvpkttime f) (StreamFrame.Priority f).

Definition cut_front (f : StreamFrame.t) (n : Z) : option StreamFrame.t :=
  if StreamFrame.DataLen f <? n then None
  else Some (with_data f (u64 (StreamFrame.Offset f + n)) (drop (Z.to_nat n) (StreamFrame.Data f))).
Definition cut_back (f : StreamFrame.t) (n : Z) : option StreamFrame.t :=
  if StreamFrame.DataLen f <? n then None
  else Some (with_data f (StreamFrame.Offset f) (take (Z.to_nat n) (StreamFrame.Data f))).

(** Skips the gaps before the frame [start, end). *)
Inductive skip_result : Type :=
| SkipDup
| SkipNone
| SkipFound (pre : list ByteInterval) (gap : ByteInterval) (rest : list ByteInterval).

Fixpoint skip_gaps (start end_ : Z) (pre gs : list ByteInterval) : skip_result :=
  match gs with
  | [] => SkipNone
  | gap :: rest =>
      if end_ <=? Start gap then SkipDup
      else if (Start gap <? end_) && (start <=? End gap) then SkipFound pre gap rest
      else skip_gaps start end_ (pre ++ [gap]) rest
  end.

(** The search for the gap the frame ends in.  [endGap] is the current gap, [first] says
    that it is the gap the frame starts in, [rest] are the gaps after it; the gaps in
    between have been removed from the list, as has [endGap] itself when [removed]. *)
Record EndGap : Type := MkEndGap {
  eg_gap : ByteInterval;
  eg_first : bool;
  eg_removed : bool;
  eg_rest : list ByteInterval;
  eg_queue : gmap Z StreamFrame.t;
}.

Fixpoint find_end_gap (end_ : Z) (endGap : ByteInterval) (first : bool) (rest : list ByteInterval)
    (queue : gmap Z StreamFrame.t) : EndGap + EndGap :=
  if End endGap <=? end_ then
    match rest with
    | [] => inr (MkEndGap endGap first false [] queue)        (* no end gap found *)
    | nextEndGap :: rest' =>
        if end_ <=? Start nextEndGap then inl (MkEndGap endGap first (negb first) rest queue)
        else find_end_gap end_ nextEndGap false rest' (delete (End endGap) queue)
    end
  else inl (MkEndGap endGap first false rest queue).

(** The list of gaps after the frame [start, end) has been taken out of [gap] and the
    end gap. *)
Definition update_gaps (start end_ : Z) (pre : list ByteInterval) (gap : ByteInterval) (e : EndGap)
  : list ByteInterval :=
  let endGap := eg_gap e in
  let keep_end (g : ByteInterval) := if eg_first e || eg_removed e then [] else [g] in
  if start =? Start gap then
    let endGap' := if end_ <? End endGap then MkInterval end_ (End endGap) else endGap in
    pre
    ++ (if End gap <=? end_ then [] else [if eg_first e then endGap' else gap])
    ++ keep_end endGap' ++ eg_rest e
  else if end_ =? End endGap then
    pre ++ [MkInterval (Start gap) start] ++ keep_end endGap ++ eg_rest e
  else if eg_first e then
    pre ++ [MkInterval (Start gap) start; MkInterval end_ (End gap)] ++ eg_rest e
  else
    pre ++ [MkInterval (Start gap) start] ++ keep_end (MkInterval end_ (End endGap)) ++ eg_rest e.

(** How a call of [Push] ends. *)
Inductive push_result : Type :=
| Pushed (err : option goerr) (s : t)
| PushPanic.

(** From the search for the gaps on; the frame has been cut at its front if a frame with
    the same offset was queued. *)
Definition push_into_gaps (s : t) (frame : StreamFrame.t) : push_result :=
  let start := StreamFrame.Offset frame in
  let end_ := u64 (StreamFrame.Offset frame + StreamFrame.DataLen frame) in
  match skip_gaps start end_ [] (gaps s) with
  | SkipDup => Pushed (Some errDuplicateStreamData) s
  | SkipNone => Pushed (Some errNoGap) s
  | SkipFound pre gap rest =>
      match (if start <? Start gap then cut_front frame (u64 (Start gap - start)) else Some frame) with
      | None => PushPanic
      | Some frame =>
          let start := if start <? Start gap then Start gap else start in
          match find_end_gap end_ gap true rest (queuedFrames s) with
          | inr e =>
              Pushed (Some errNoEndGap)
                (Mk (eg_queue e) (readPosition s)
                    (pre ++ [gap] ++ (if eg_first e then [] else [eg_gap e])) (dupframesize s))
          | inl e =>
              let cutLen := u64 (end_ - End (eg_gap e)) in
              match (if End (eg_gap e) <? end_
                     then cut_back frame (u64 (StreamFrame.DataLen frame - cutLen)) else Some frame) with
              | None => PushPanic
              | Some frame =>
                  let end_ := if End (eg_gap e) <? end_ then u64 (end_ - cutLen) else end_ in
                  let gaps' := update_gaps start end_ pre gap e in
                  if MaxStreamFrameSorterGaps <? Z.of_nat (length gaps')
                  then Pushed (Some errTooManyGapsInReceivedStreamData)
                         (Mk (eg_queue e) (readPosition s) gaps' (dupframesize s))
                  else Pushed None
                         (Mk (<[StreamFrame.Offset frame := frame]> (eg_queue e)) (readPosition s)
                             gaps' (dupframesize s))
              end
          end
      end
  end.

Definition Push (s : t) (frame : StreamFrame.t) : push_result :=
  if StreamFrame.DataLen frame =? 0 then
    if StreamFrame.FinBit frame
    then Pushed None (Mk (<[StreamFrame.Offset frame := frame]> (queuedFrames s)) (readPosition s)
                         (gaps s) (dupframesize s))
    else Pushed (Some errEmptyStreamData) s
  else
    match queuedFrames s !! StreamFrame.Offset frame with
    | Some oldFrame =>
        if StreamFrame.DataLen frame <=? StreamFrame.DataLen oldFrame
        then Pushed (Some errDuplicateStreamData)
               (Mk (queuedFrames s) (readPosition s) (gaps s)
                   (u64 (dupframesize s + StreamFrame.DataLen frame)))
        else match cut_front frame (StreamFrame.DataLen oldFrame) with
             | Some frame => push_into_gaps s frame
             | None => PushPanic
             end
    | None => push_into_gaps s frame
    end.

Definition Head (s : t) : option StreamFrame.t := queuedFrames s !! readPosition s.

(** [Pop] reads a field of the head before it checks that there is one. *)
Definition Pop (s : t) : res (StreamFrame.t * t) :=
  match Head s with
  | None => Panic
  | Some frame =>
      Ok (frame, Mk (delete (StreamFrame.Offset frame) (queuedFrames s))
                    (u64 (readPosition s + StreamFrame.DataLen frame)) (gaps s) (dupframesize s))
  end.

End streamFrameSorter.
Import streamFrameSorter.

(** ** Gaps *)

(** Disjoint, non-touching and ordered, starting at [lo] at the earliest. *)
Fixpoint sorted (lo : Z) (gs : list ByteInterval) : Prop :=
  match gs with
  | [] => True
  | g :: gs' => lo <= Start g < End g /\ sorted (End g + 1) gs'
  end.

(** The gaps reach to the end of the stream. *)
Definition reaches_end (gs : list ByteInterval) : Prop :=
  exists g, last gs = Some g /\ End g = MaxByteCount.

Definition in_gap (gs : list ByteInterval) (x : Z) : Prop :=
  exists g, g ∈ gs /\ Start g <= x < End g.

Lemma in_gap_app gs gs' x : in_gap (gs ++ gs') x <-> in_gap gs x \/ in_gap gs' x.
Proof.
  unfold in_gap. setoid_rewrite elem_of_app. split.
  - intros (g & [Hg|Hg] & Hx); eauto.
  - intros [(g & Hg & Hx)|(g & Hg & Hx)]; eauto.
Qed.
Lemma in_gap_cons g gs x : in_gap (g :: gs) x <-> Start g <= x < End g \/ in_gap gs x.
Proof.
  unfold in_gap. setoid_rewrite elem_of_cons. split.
  - intros (h & [->|Hg] & Hx); eauto.
  - intros [Hx|(h & Hg & Hx)]; eauto.
Qed.
Lemma in_gap_nil x : in_gap [] x <-> False.
Proof. unfold in_gap. split; [|done]. by intros (g & []%not_elem_of_nil & _). Qed.

Lemma sorted_weaken lo lo' gs : lo' <= lo -> sorted lo gs -> sorted lo' gs.
Proof. destruct gs; simpl; [done|]. intros ? [? ?]. split; [lia|done]. Qed.

Lemma sorted_app lo gs g gs' :
  sorted lo (gs ++ g :: gs') <->
  sorted lo gs /\ (forall p, p ∈ gs -> End p < Start g) /\ lo <= Start g < End g /\ sorted (End g + 1) gs'.
Proof.
  revert lo. induction gs as [|p gs IH]; intros lo; cbn [app sorted].
  - split; [|tauto]. intros [? ?]. split_and!; try tauto. by intros ? []%not_elem_of_nil.
  - rewrite IH. setoid_rewrite elem_of_cons. split.
    + intros (Hp & Hs & Hlt & Hg & Hgs). split_and!; try tauto; try lia. intros x [->|Hx]; [lia|auto].
    + intros ((Hp & Hs) & Hlt & Hg & Hgs). specialize (Hlt p (or_introl eq_refl)) as Hpg.
      split_and!; auto; try tauto; lia.
Qed.

Lemma sorted_bounds lo gs g : sorted lo gs -> g ∈ gs -> lo <= Start g < End g.
Proof.
  revert lo. induction gs as [|p gs IH]; intros lo; [by intros _ []%not_elem_of_nil|].
  intros [Hp Hs] [->|Hg]%elem_of_cons; [done|]. specialize (IH _ Hs Hg). lia.
Qed.

(** ** Finding the gaps of a frame *)

Lemma skip_gaps_spec start end_ gs : forall pre,
  match skip_gaps start end_ pre gs with
  | SkipDup => exists p g rest, gs = p ++ g :: rest /\ (forall x, x ∈ p -> End x < start) /\ end_ <= Start g
  | SkipNone => forall x, x ∈ gs -> End x < start
  | SkipFound pre' g rest => exists p, pre' = pre ++ p /\ gs = p ++ g :: rest /\
      (forall x, x ∈ p -> End x < start) /\ Start g < end_ /\ start <= End g
  end.
Proof.
  induction gs as [|g gs IH]; intros pre; cbn [skip_gaps]; [by intros ? []%not_elem_of_nil|].
  destruct (Z.leb_spec end_ (Start g)) as [|Hlt].
  { exists [], g, gs. split_and!; try done. by intros ? []%not_elem_of_nil. }
  rewrite (proj2 (Z.ltb_lt _ _)) by lia. destruct (Z.leb_spec start (End g)) as [|Hgt]; cbn [andb].
  { exists []. rewrite app_nil_r. split_and!; try done. by intros ? []%not_elem_of_nil. }
  specialize (IH (pre ++ [g])). destruct (skip_gaps start end_ (pre ++ [g]) gs) as [| |pre' g' rest].
  - destruct IH as (p & g' & rest & -> & Hp & He). exists (g :: p), g', rest. split_and!; try done.
    intros x [->|Hx]%elem_of_cons; [lia|auto].
  - intros x [->|Hx]%elem_of_cons; [lia|auto].
  - destruct IH as (p & -> & -> & Hp & He). exists (g :: p). rewrite <- app_assoc. split_and!; try done; [|lia..].
    intros x [->|Hx]%elem_of_cons; [lia|auto].
Qed.

(** What the search for the end gap does, when it starts at [g] with the gaps [rest]
    after it: it stops at [eg_gap e], the gaps before it are covered by the frame, and
    only frames at their ends are dropped from the queue. *)
Record end_gap_ok (end_ : Z) (g : ByteInterval) (first : bool) (rest : list ByteInterval)
    (q : gmap Z StreamFrame.t) (e : EndGap) : Prop := {
  eg_split : (eg_gap e = g /\ eg_first e = first /\ eg_rest e = rest /\ eg_queue e = q) \/
    (exists mid, rest = mid ++ eg_gap e :: eg_rest e /\ eg_first e = false /\ End g <= end_ /\
       forall m, m ∈ mid -> End m <= end_);
  eg_start : Start (eg_gap e) < end_;
  eg_end : (eg_removed e = false /\ end_ < End (eg_gap e)) \/
    (eg_removed e = negb (eg_first e) /\ End (eg_gap e) <= end_ /\
     exists n tl, eg_rest e = n :: tl /\ end_ <= Start n);
  eg_keys : forall k, (k < End g \/ Start (eg_gap e) <= k) -> eg_queue e !! k = q !! k;
  eg_sub : forall k f, eg_queue e !! k = Some f -> q !! k = Some f;
}.

Lemma find_end_gap_spec end_ rest : forall g first q,
  sorted (Start g) (g :: rest) -> reaches_end (g :: rest) -> Start g < end_ < MaxByteCount ->
  exists e, find_end_gap end_ g first rest q = inl e /\ end_gap_ok end_ g first rest q e.
Proof.
  induction rest as [|n rest IH]; intros g first q Hs (l & Hl & HM) He; cbn [find_end_gap].
  - injection Hl as <-. rewrite (proj2 (Z.leb_gt _ _)) by lia.
    eexists. split; [done|]. split; cbn; auto. lia. left. split; [done|lia].
  - destruct Hs as [Hg [Hn Hs]]. destruct (Z.leb_spec (End g) end_) as [Hle|Hlt].
    2: { eexists. split; [done|]. split; cbn; auto. lia. }
    destruct (Z.leb_spec end_ (Start n)) as [Hle'|Hlt'].
    + eexists. split; [done|]. split; cbn; auto; [lia|]. right. split_and!; [done|lia|by eauto].
    + destruct (IH n false (delete (End g) q)) as (e & -> & [Hsplit Hst Hend Hkeys Hsub]).
      { by split; [lia|]. }
      { exists l. split; [|done]. by rewrite last_cons_cons in Hl. }
      { lia. }
      assert (End n <= Start (eg_gap e) \/ eg_gap e = n) as Hpos.
      { destruct Hsplit as [(-> & _)|(mid & -> & _)]; [by right|left].
        apply sorted_app in Hs as (_ & _ & ? & _). lia. }
      eexists. split; [done|]. split; [|done|done| |].
      * right. destruct Hsplit as [(-> & -> & -> & _)|(mid & -> & -> & Hn' & Hmid)].
        -- exists []. split_and!; try done. by intros ? []%not_elem_of_nil.
        -- exists (n :: mid). split_and!; try done. intros m [->|Hm]%elem_of_cons; auto.
      * intros k Hk. rewrite Hkeys by (destruct Hpos as [?| ->]; lia).
        apply lookup_delete_ne. destruct Hpos as [?| Ep]; [lia|rewrite Ep in Hk; lia].
      * intros k f Hk%Hsub. by apply lookup_delete_Some in Hk as [_ ?].
Qed.

(** ** The gaps after a push *)

(** What is left of the gaps when the bytes [a, b) arrive, where [a] lies in [g] and
    [b] in (or at the end of) [e]. *)
Definition remaining (a b : Z) (pre : list ByteInterval) (g e : ByteInterval) (tl : list ByteInterval)
  : list ByteInterval :=
  pre ++ (if a =? Start g then [] else [MkInterval (Start g) a])
      ++ (if b <? End e then [MkInterval b (End e)] else []) ++ tl.

Lemma update_gaps_remaining end_ pre g rest q e a b :
  end_gap_ok end_ g true rest q e -> sorted (Start g) (g :: rest) ->
  b = Z.min end_ (End (eg_gap e)) ->
  update_gaps a b pre g e = remaining a b pre g (eg_gap e) (eg_rest e).
Proof.
  intros [Hsplit Hst Hend _ _] [Hg Hs] Eb. unfold update_gaps, remaining.
  destruct Hsplit as [(Ee & Ef & Er & _)|(mid & Er & Ef & Hle & Hmid)].
  - rewrite Ee in Eb, Hend. rewrite Ef, Ee in *. cbn [orb negb] in *. destruct Hend as [[_ Hlt]|(_ & Hle & _)].
    + assert (b = end_) as -> by lia. rewrite !(proj2 (Z.leb_gt (End g) _)) by lia.
      rewrite (proj2 (Z.ltb_lt end_ _)), (proj2 (Z.eqb_neq end_ _)) by lia.
      by destruct (a =? Start g).
    + assert (b = End g) as -> by lia. rewrite Z.ltb_irrefl, Z.leb_refl, Z.eqb_refl.
      by destruct (a =? Start g).
  - rewrite Ef in *. cbn [orb negb] in *. rewrite Er in Hs. apply sorted_app in Hs as (_ & _ & He & _).
    assert (End g < b) by lia. rewrite (proj2 (Z.leb_le (End g) _)) by lia.
    destruct Hend as [[-> Hlt]|(-> & Hle' & _)]; cbn [orb].
    + assert (b = end_) as -> by lia. rewrite (proj2 (Z.ltb_lt end_ _)), (proj2 (Z.eqb_neq end_ _)) by lia.
      by destruct (a =? Start g).
    + assert (b = End (eg_gap e)) as -> by lia. rewrite Z.ltb_irrefl, Z.eqb_refl.
      by destruct (a =? Start g).
Qed.

(** [span] are the gaps a push touches, from [g] to [e]; the two can coincide. *)
Section Remaining.
Context (a b lo : Z) (pre : list ByteInterval) (g e : ByteInterval) (tl span : list ByteInterval).
Hypothesis Hspan : (span = [g] /\ e = g) \/ (exists mid, span = g :: mid ++ [e]).
Hypothesis Hsorted : sorted lo (pre ++ span ++ tl).
Hypothesis Ha : Start g <= a < End g.
Hypothesis Hb : Start e < b <= End e.
Hypothesis Hab : a < b.

Lemma span_facts :
  sorted lo pre /\ (forall p, p ∈ pre -> End p < Start g) /\ lo <= Start g /\
  sorted (End e + 1) tl /\ (e = g \/ End g < Start e).
Proof.
  destruct Hspan as [[-> ->]|(mid & ->)].
  - apply sorted_app in Hsorted as (H1 & H2 & H3 & H4). split_and!; try done; [lia|by left].
  - cbn [app] in Hsorted. apply sorted_app in Hsorted as (H1 & H2 & H3 & H4).
    rewrite <- app_assoc in H4. apply sorted_app in H4 as (H5 & H6 & H7 & H8).
    split_and!; try done; [lia|right; lia].
Qed.

Lemma remaining_sorted : sorted lo (remaining a b pre g e tl).
Proof.
  destruct span_facts as (H1 & H2 & H3 & H4 & H5). unfold remaining.
  assert (forall l, (forall p, p ∈ pre -> End p < l) -> lo <= l -> forall gs, sorted l gs -> sorted lo (pre ++ gs)) as Happ.
  { intros l Hl Hlo gs Hgs. destruct gs as [|x gs]; [by rewrite app_nil_r|].
    apply sorted_app. destruct Hgs as [Hx Hgs]. split_and!; try done; try lia.
    intros p Hp%Hl. lia. }
  assert (sorted (a + 1) ((if b <? End e then [MkInterval b (End e)] else []) ++ tl)) as Htl.
  { destruct (Z.ltb_spec b (End e)); cbn; [split; [lia|done]|]. eapply sorted_weaken; [|done]. lia. }
  destruct (Z.eqb_spec a (Start g)) as [->|Hne]; cbn [app].
  - apply (Happ (Start g)); [done|lia|]. eapply sorted_weaken; [|done]. lia.
  - apply (Happ (Start g)); [done|lia|]. cbn. split; [lia|done].
Qed.

Lemma remaining_in_gap x :
  in_gap (remaining a b pre g e tl) x <-> in_gap (pre ++ span ++ tl) x /\ ~ (a <= x < b).
Proof.
  destruct span_facts as (H1 & H2 & H3 & H4 & H5). unfold remaining. rewrite !in_gap_app.
  assert (in_gap pre x -> ~ (a <= x < b)) as Hpre.
  { intros (p & Hp & Hx). specialize (H2 p Hp). lia. }
  assert (in_gap tl x -> ~ (a <= x < b)) as Htl.
  { intros (p & Hp & Hx). pose proof (sorted_bounds _ _ _ H4 Hp). lia. }
  assert (in_gap (if a =? Start g then [] else [MkInterval (Start g) a]) x <-> Start g <= x < a) as ->.
  { destruct (Z.eqb_spec a (Start g)) as [->|]; rewrite ?in_gap_cons, in_gap_nil; cbn; lia. }
  assert (in_gap (if b <? End e then [MkInterval b (End e)] else []) x <-> b <= x < End e) as ->.
  { destruct (Z.ltb_spec b (End e)); rewrite ?in_gap_cons, in_gap_nil; cbn; lia. }
  assert (in_gap span x /\ ~ (a <= x < b) <-> Start g <= x < a \/ b <= x < End e) as Hsp; [|tauto].
  destruct Hspan as [[-> ->]|(mid & ->)].
  - rewrite in_gap_cons, in_gap_nil. lia.
  - rewrite in_gap_cons, in_gap_app, in_gap_cons, in_gap_nil.
    cbn [app] in Hsorted. apply sorted_app in Hsorted as (_ & _ & _ & Hs).
    rewrite <- app_assoc in Hs. apply sorted_app in Hs as (Hs1 & Hs2 & Hs3 & _).
    assert (in_gap mid x -> a <= x < b) as Hmid.
    { intros (m & Hm & Hx). pose proof (sorted_bounds _ _ _ Hs1 Hm). specialize (Hs2 m Hm). lia. }
    split; [intros [[?|[?|[?|[]]]] ?]; try tauto; lia|].
    intros [?|?]; (split; [|lia]); [left; lia|do 2 right; left; lia].
Qed.

Lemma remaining_end : reaches_end (pre ++ span ++ tl) -> b < MaxByteCount -> reaches_end (remaining a b pre g e tl).
Proof.
  intros (l & Hl & HM) HbM. unfold remaining, reaches_end.
  destruct tl as [|t tl'].
  - assert (l = e) as ->.
    { destruct Hspan as [[-> ->]|(mid & ->)]; rewrite app_nil_r in Hl.
      - rewrite last_snoc in Hl. congruence.
      - rewrite app_comm_cons, app_assoc, last_snoc in Hl. congruence. }
    rewrite (proj2 (Z.ltb_lt b _)) by lia. rewrite app_nil_r, app_assoc, last_snoc. eauto.
  - exists l. split; [|done]. rewrite app_assoc, last_app_cons in Hl.
    by rewrite app_assoc, app_assoc, last_app_cons.
Qed.
End Remaining.

(** ** The queue *)

Definition flen (f : StreamFrame.t) : Z := Z.of_nat (length (StreamFrame.Data f)).

(** The queued frames lead from [a] to [b] without a hole. *)
Inductive chain (q : gmap Z StreamFrame.t) : Z -> Z -> Prop :=
| chain_nil a : chain q a a
| chain_cons a b f : q !! a = Some f -> 0 < flen f -> chain q (a + flen f) b -> chain q a b.

Lemma chain_le q a b : chain q a b -> a <= b.
Proof. induction 1; lia. Qed.

Lemma chain_app q a b c : chain q a b -> chain q b c -> chain q a c.
Proof. induction 1; [done|]. intros. econstructor; eauto. Qed.

Lemma chain_agree q q' a b :
  chain q a b -> (forall k, a <= k < b -> q' !! k = q !! k) -> chain q' a b.
Proof.
  induction 1 as [|a b f Hf Hl Hc IH]; intros Hk; [constructor|]. pose proof (chain_le _ _ _ Hc).
  apply (chain_cons _ a b f); [rewrite Hk by lia; done|done|]. apply IH. intros. apply Hk. lia.
Qed.

Lemma chain_one q a b f : q !! a = Some f -> 0 < flen f -> b = a + flen f -> chain q a b.
Proof. intros ? ? ->. eapply chain_cons; eauto using chain_nil. Qed.

(** Every received stretch, from [a] to the first gap and from one gap to the next, is
    covered by a chain. *)
Fixpoint tiled (q : gmap Z StreamFrame.t) (a : Z) (gs : list ByteInterval) : Prop :=
  match gs with
  | [] => True
  | g :: gs' => chain q a (Start g) /\ tiled q (End g) gs'
  end.

Lemma tiled_app q a gs g gs' :
  tiled q a (gs ++ g :: gs') <->
  tiled q a gs /\ chain q (default a (End <$> last gs)) (Start g) /\ tiled q (End g) gs'.
Proof.
  revert a. induction gs as [|p gs IH]; intros a; cbn [app tiled]; [simpl; tauto|].
  rewrite IH, last_cons. destruct (last gs); simpl; tauto.
Qed.

Lemma tiled_agree q q' gs : forall a,
  tiled q a gs -> (forall k g, g ∈ gs -> k < Start g -> a <= k -> q' !! k = q !! k) -> sorted a gs ->
  tiled q' a gs.
Proof.
  induction gs as [|g gs IH]; intros a; [done|]. intros [Hc Ht] Hk [Hg Hs]. split.
  - eapply chain_agree; [done|]. intros k Hk'. eapply (Hk k g); [left|lia|lia].
  - apply IH; [done| |eapply sorted_weaken; [|done]; lia].
    intros k x Hx Hlt Hle. eapply (Hk k x); [by right|done|lia].
Qed.

Lemma tiled_concat q a gs gs' :
  tiled q a gs -> tiled q (default a (End <$> last gs)) gs' -> tiled q a (gs ++ gs').
Proof.
  intros H1 H2. destruct gs' as [|g gs']; [by rewrite app_nil_r|]. by apply tiled_app.
Qed.

(** Inserting the new frame [a, b) into the queue covers the stretches between the
    remaining gaps again. *)
Section Tiled.
Context (a b lo : Z) (pre : list ByteInterval) (g e : ByteInterval) (tl span : list ByteInterval).
Context (q q' : gmap Z StreamFrame.t) (f : StreamFrame.t).
Hypothesis Hspan : (span = [g] /\ e = g) \/ (exists mid, span = g :: mid ++ [e]).
Hypothesis Hsorted : sorted lo (pre ++ span ++ tl).
Hypothesis Ha : Start g <= a < End g.
Hypothesis Hb : Start e < b <= End e.
Hypothesis Hlen : flen f = b - a.
Hypothesis Hab : a < b.
Hypothesis Hq : forall k, k <> a -> (k < End g \/ Start e <= k) -> q' !! k = q !! k.
Hypothesis Hf : q' !! a = Some f.
Hypothesis Htiled : tiled q lo (pre ++ span ++ tl).

Lemma tiled_remaining : tiled q' lo (remaining a b pre g e tl).
Proof.
  destruct (span_facts b lo pre g e tl span Hspan Hsorted Hb) as (H1 & H2 & H3 & H4 & H5).
  assert (tiled q lo pre /\ chain q (default lo (End <$> last pre)) (Start g) /\ tiled q (End e) tl)
    as (T1 & T2 & T3).
  { destruct Hspan as [[-> ->]|(mid & ->)]; [by apply tiled_app in Htiled|].
    cbn [app] in Htiled. apply tiled_app in Htiled as (T1 & T2 & T3).
    rewrite <- app_assoc in T3. apply tiled_app in T3 as (_ & _ & T4). done. }
  assert (tiled q' lo pre) as T1'.
  { eapply tiled_agree; [done| |done]. intros k x Hx Hk _.
    pose proof (H2 x Hx). pose proof (sorted_bounds _ _ _ H1 Hx). apply Hq; lia. }
  assert (tiled q' (End e) tl) as T3'.
  { eapply tiled_agree; [done| |eapply sorted_weaken; [|done]; lia]. intros k x Hx Hk Hle. apply Hq; lia. }
  assert (chain q' (default lo (End <$> last pre)) (Start g)) as T2'
    by (eapply chain_agree; [done|]; intros k Hk; apply Hq; lia).
  assert (chain q' a b) as Cf by (eapply chain_one; eauto; lia).
  assert (forall x, chain q' x b ->
    tiled q' x ((if b <? End e then [MkInterval b (End e)] else []) ++ tl)) as Hext.
  { intros x Hx. destruct (Z.ltb_spec b (End e)); [by split|].
    assert (b = End e) as -> by lia. destruct tl as [|t tl']; [done|]. destruct T3' as [C T].
    split; [by eapply chain_app|done]. }
  unfold remaining. apply tiled_concat; [done|].
  destruct (Z.eqb_spec a (Start g)) as [E|].
  - apply Hext. eapply chain_app; [done|]. by rewrite <- E.
  - split; [done|]. by apply Hext.
Qed.
End Tiled.

(** ** The invariant *)

Section Sorter.
(** The stream the peer sends: the byte at each offset, and its length. *)
Context (d : Z -> Z) (N : Z).
Hypothesis HN : 0 <= N < MaxByteCount.

(** A frame of this stream; an empty frame only marks the end. *)
Definition good (f : StreamFrame.t) : Prop :=
  0 <= StreamFrame.Offset f /\ StreamFrame.Offset f + flen f <= N /\
  (flen f = 0 -> StreamFrame.Offset f = N) /\
  forall i b, StreamFrame.Data f !! i = Some b -> b = d (StreamFrame.Offset f + Z.of_nat i).

Record sinv (s : t) : Prop := {
  si_sorted : sorted (readPosition s) (gaps s);
  si_end : reaches_end (gaps s);
  si_last : forall g, g ∈ gaps s -> Start g <= N;
  si_queue : forall k f, queuedFrames s !! k = Some f -> StreamFrame.Offset f = k /\ good f;
  si_disjoint : forall k f g, queuedFrames s !! k = Some f -> 0 < flen f -> g ∈ gaps s ->
    k + flen f <= Start g \/ End g <= k;
  si_tiled : tiled (queuedFrames s) (readPosition s) (gaps s);
  si_pos : 0 <= readPosition s;
}.

Lemma sinv_new : sinv newStreamFrameSorter.
Proof.
  split; cbn; try done.
  - by eexists.
  - intros g ->%list_elem_of_singleton. cbn. lia.
  - split; [constructor|done].
Qed.

Lemma DataLen_flen f : good f -> StreamFrame.DataLen f = flen f.
Proof.
  intros (H1 & H2 & _). unfold StreamFrame.DataLen, flen, MaxByteCount in *. rewrite u64_small; lia.
Qed.

(** Cutting a frame leaves a frame of the stream. *)
Lemma cut_front_good f n :
  good f -> 0 <= n < flen f ->
  exists f', cut_front f n = Some f' /\ good f' /\ StreamFrame.Offset f' = StreamFrame.Offset f + n /\
    flen f' = flen f - n.
Proof.
  intros Hg Hn. pose proof Hg as (H1 & H2 & H3 & H4). unfold cut_front.
  rewrite DataLen_flen, (proj2 (Z.ltb_ge _ _)) by (done || lia).
  eexists. split; [done|]. unfold good, with_data, flen, MaxByteCount in *. cbn.
  rewrite u64_small, length_drop by lia. split_and!; try lia.
  intros i b Hi. rewrite lookup_drop in Hi. rewrite (H4 _ _ Hi). f_equal. lia.
Qed.

Lemma cut_back_good f n :
  good f -> 0 < n <= flen f ->
  exists f', cut_back f n = Some f' /\ good f' /\ StreamFrame.Offset f' = StreamFrame.Offset f /\
    flen f' = n.
Proof.
  intros Hg Hn. pose proof Hg as (H1 & H2 & H3 & H4). unfold cut_back.
  rewrite DataLen_flen, (proj2 (Z.ltb_ge _ _)) by (done || lia).
  eexists. split; [done|]. unfold good, with_data, flen in *. cbn.
  rewrite length_take. split_and!; try lia.
  intros i b [Hi _]%lookup_take_Some. by apply H4.
Qed.

(** How a push can end: data was added, or it was all there already, or there are too
    many gaps and the connection is closed. *)
Definition push_ok (s : t) (a b : Z) (r : push_result) : Prop :=
  match r with
  | Pushed None s' => sinv s' /\ readPosition s' = readPosition s /\
      forall x, in_gap (gaps s') x <-> in_gap (gaps s) x /\ ~ (a <= x < b)
  | Pushed (Some e) s' =>
      (e = errDuplicateStreamData /\ sinv s' /\ readPosition s' = readPosition s /\
       gaps s' = gaps s /\ forall x, a <= x < b -> ~ in_gap (gaps s) x) \/
      e = errTooManyGapsInReceivedStreamData
  | PushPanic => False
  end.

(** Bytes between two neighbouring gaps are not in any gap. *)
Lemma not_in_gap lo p g rest a b x :
  sorted lo (p ++ g :: rest) -> (forall y, y ∈ p -> End y < a) -> b <= Start g -> a <= x < b ->
  ~ in_gap (p ++ g :: rest) x.
Proof.
  intros Hs Hp Hb Hx. apply sorted_app in Hs as (_ & _ & Hg & Hr).
  rewrite in_gap_app, in_gap_cons. intros [(y & Hy & ?)|[?|(y & Hy & ?)]].
  - specialize (Hp y Hy). lia.
  - lia.
  - pose proof (sorted_bounds _ _ _ Hr Hy). lia.
Qed.

(** The frame after the cut at the start of its gap, and after the cut at the end. *)
Lemma front_cut f g :
  good f -> 0 < flen f -> 0 <= Start g < StreamFrame.Offset f + flen f ->
  exists f', (if StreamFrame.Offset f <? Start g
              then cut_front f (u64 (Start g - StreamFrame.Offset f)) else Some f) = Some f' /\
    good f' /\ StreamFrame.Offset f' = Z.max (StreamFrame.Offset f) (Start g) /\
    StreamFrame.Offset f' + flen f' = StreamFrame.Offset f + flen f.
Proof.
  intros Hf Hl Hg. pose proof Hf as (F1 & F2 & _). destruct (Z.ltb_spec (StreamFrame.Offset f) (Start g)).
  - rewrite u64_small by (unfold MaxByteCount in *; lia).
    destruct (cut_front_good f (Start g - StreamFrame.Offset f)) as (f' & E & Hf' & Ho & Hl'); [done|lia|].
    exists f'. split_and!; try done; lia.
  - exists f. split_and!; try done; lia.
Qed.

Lemma back_cut f e :
  good f -> StreamFrame.Offset f < End e -> 0 < flen f ->
  exists f', (if End e <? StreamFrame.Offset f + flen f
              then cut_back f (u64 (StreamFrame.DataLen f - u64 (StreamFrame.Offset f + flen f - End e)))
              else Some f) = Some f' /\
    good f' /\ StreamFrame.Offset f' = StreamFrame.Offset f /\
    StreamFrame.Offset f' + flen f' = Z.min (StreamFrame.Offset f + flen f) (End e).
Proof.
  intros Hf He Hl. pose proof Hf as (F1 & F2 & _). unfold MaxByteCount in *.
  destruct (Z.ltb_spec (End e) (StreamFrame.Offset f + flen f)).
  - rewrite DataLen_flen, (u64_small (_ + _ - _)) by (done || lia). rewrite u64_small by lia.
    destruct (cut_back_good f (flen f - (StreamFrame.Offset f + flen f - End e))) as (f' & E & Hf' & Ho & Hl');
      [done|lia|].
    exists f'. split_and!; try done; lia.
  - exists f. split_and!; try done; lia.
Qed.

(** The new state after the frame [a, b) has been put into the gaps from [g] to [e]. *)
Lemma sinv_insert s f a b pre g e tl span q' :
  sinv s -> gaps s = pre ++ span ++ tl ->
  (span = [g] /\ e = g) \/ (exists mid, span = g :: mid ++ [e]) ->
  good f -> StreamFrame.Offset f = a -> a + flen f = b -> a < b ->
  Start g <= a < End g -> Start e < b <= End e ->
  (forall k, (k < End g \/ Start e <= k) -> q' !! k = queuedFrames s !! k) ->
  (forall k x, q' !! k = Some x -> queuedFrames s !! k = Some x) ->
  sinv (Mk (<[a := f]> q') (readPosition s) (remaining a b pre g e tl) (dupframesize s)) /\
  forall x, in_gap (remaining a b pre g e tl) x <-> in_gap (gaps s) x /\ ~ (a <= x < b).
Proof.
  intros [I1 I2 I3 I4 I5 I6 I7] Eg Hspan Hf Ho Hl Hab Ha Hb Hkeys Hsub. rewrite Eg in *.
  pose proof Hf as (F1 & F2 & _).
  pose proof (remaining_in_gap a b _ _ _ _ _ _ Hspan I1 Ha Hb Hab) as Hgap. split; [|done].
  assert (forall h x, h ∈ remaining a b pre g e tl -> Start h <= x < End h ->
    in_gap (pre ++ span ++ tl) x /\ ~ (a <= x < b)) as Hin
    by (intros h x Hh Hx; apply Hgap; by exists h).
  pose proof (remaining_sorted a b _ _ _ _ _ _ Hspan I1 Ha Hb Hab) as Hsorted.
  split; cbn.
  - done.
  - eapply remaining_end; eauto. lia.
  - intros h Hh. pose proof (sorted_bounds _ _ _ Hsorted Hh) as Hh'.
    unfold remaining in Hh. rewrite !elem_of_app in Hh. destruct Hh as [Hh|[Hh|[Hh|Hh]]].
    + apply I3. apply elem_of_app. by left.
    + destruct (a =? Start g); [by apply not_elem_of_nil in Hh|]. apply list_elem_of_singleton in Hh as ->.
      cbn. lia.
    + destruct (b <? End e); [|by apply not_elem_of_nil in Hh]. apply list_elem_of_singleton in Hh as ->.
      cbn. lia.
    + apply I3. rewrite !elem_of_app. auto.
  - intros k x [[<- <-]|[_ Hk]]%lookup_insert_Some; [done|]. by apply I4, Hsub.
  - intros k x h [[<- <-]|[_ Hk]]%lookup_insert_Some Hx Hh.
    + pose proof (sorted_bounds _ _ _ Hsorted Hh). destruct (decide (a + flen f <= Start h)); [by left|].
      right. destruct (decide (End h <= a)); [done|]. exfalso.
      destruct (Hin h (Z.max (Start h) a) Hh ltac:(lia)) as [_ Hn]. lia.
    + pose proof (sorted_bounds _ _ _ Hsorted Hh). destruct (decide (k + flen x <= Start h)); [by left|].
      right. destruct (decide (End h <= k)); [done|]. exfalso.
      destruct (Hin h (Z.max (Start h) k) Hh ltac:(lia)) as [(h' & Hh' & Hx') _].
      destruct (I5 k x h' (Hsub _ _ Hk) Hx Hh'); lia.
  - eapply (tiled_remaining a b (readPosition s) pre g e tl span (queuedFrames s) _ f); eauto.
    + lia.
    + intros k Hne Hk. rewrite lookup_insert_ne by done. by apply Hkeys.
    + apply lookup_insert_eq.
  - done.
Qed.

(** All missing bytes of a frame lie between the two cuts. *)
Lemma covered_by_span lo p g e tl span start end_ a x :
  sorted lo (p ++ span ++ tl) ->
  (span = [g] /\ e = g) \/ (exists mid, span = g :: mid ++ [e]) ->
  (forall y, y ∈ p -> End y < start) -> a = Z.max start (Start g) ->
  (end_ < End e \/ exists n tl', tl = n :: tl' /\ end_ <= Start n) ->
  in_gap (p ++ span ++ tl) x -> start <= x < end_ -> a <= x < Z.min end_ (End e).
Proof.
  intros Hs Hspan Hp -> He Hin Hx.
  assert (sorted (End e + 1) tl /\ Start g <= Start e < End e /\
          (in_gap span x -> Start g <= x < End e)) as (S1 & S2 & S3).
  { destruct Hspan as [[-> ->]|(mid & ->)]; cbn [app] in Hs; apply sorted_app in Hs as (_ & _ & Hg & Hs).
    - split_and!; try done; [lia..|]. rewrite in_gap_cons, in_gap_nil. tauto.
    - rewrite <- app_assoc in Hs. apply sorted_app in Hs as (Hs1 & Hs2 & Hs3 & Hs4).
      split_and!; try done; [lia..|]. rewrite in_gap_cons, in_gap_app, in_gap_cons, in_gap_nil.
      intros [?|[(y & Hy & ?)|[?|[]]]]; [lia| |lia].
      pose proof (sorted_bounds _ _ _ Hs1 Hy). specialize (Hs2 y Hy). lia. }
  rewrite !in_gap_app in Hin. destruct Hin as [(y & Hy & ?)|[Hin|(y & Hy & ?)]].
  - specialize (Hp y Hy). lia.
  - specialize (S3 Hin). lia.
  - pose proof (sorted_bounds _ _ _ S1 Hy). destruct He as [?|(n & tl' & -> & Hn)]; [lia|].
    destruct S1 as [Sn S1]. apply elem_of_cons in Hy as [->|Hy]; [lia|].
    pose proof (sorted_bounds _ _ _ S1 Hy). lia.
Qed.

Lemma push_into_gaps_ok s f :
  sinv s -> good f -> 0 < flen f -> (forall g, g ∈ gaps s -> StreamFrame.Offset f <> End g) ->
  push_ok s (StreamFrame.Offset f) (StreamFrame.Offset f + flen f) (push_into_gaps s f).
Proof.
  intros Hinv Hf Hl Hnot. pose proof Hf as (F1 & F2 & _). pose proof Hinv as [I1 I2 I3 I4 I5 I6 I7].
  unfold push_into_gaps. rewrite DataLen_flen, u64_small by (done || unfold MaxByteCount in *; lia).
  set (start := StreamFrame.Offset f) in *. set (end_ := start + flen f) in *.
  assert (end_ = start + flen f) as Eend by done.
  pose proof (skip_gaps_spec start end_ (gaps s) []) as Hskip.
  destruct (skip_gaps start end_ [] (gaps s)) as [| |pre g rest].
  { destruct Hskip as (p & g & rest & Eg & Hp & He). left. split_and!; try done.
    intros x Hx. rewrite Eg in I1 |- *. by eapply not_in_gap. }
  { destruct I2 as (l & Hlast%last_Some_elem_of & HM). specialize (Hskip l Hlast). unfold end_ in *. lia. }
  destruct Hskip as (p & -> & Eg & Hp & Hge & Hsg). cbn [app].
  assert (g ∈ gaps s) as Hg by (rewrite Eg; apply elem_of_app; right; left).
  pose proof (sorted_bounds _ _ _ I1 Hg) as Hgb. specialize (Hnot g Hg).
  destruct (front_cut f g Hf Hl ltac:(lia)) as (f1 & E1 & Hf1 & Ho1 & Hl1). fold start in E1, Ho1, Hl1.
  rewrite E1. fold end_ in Hl1.
  assert (sorted (Start g) (g :: rest)) as Hsr.
  { rewrite Eg in I1. apply sorted_app in I1 as (_ & _ & Hb & Hr). split; [lia|done]. }
  destruct (find_end_gap_spec end_ rest g true (queuedFrames s)) as (e & Ee & He); [done| |lia|].
  { destruct I2 as (l & Hlast & HM). exists l. split; [|done]. by rewrite Eg, last_app_cons in Hlast. }
  rewrite Ee. pose proof He as [Hsplit Hst Hend Hkeys Hsub].
  assert (End g <= Start (eg_gap e) \/ eg_gap e = g) as Hpos.
  { destruct Hsplit as [(-> & _)|(mid & Er & _)]; [by right|left]. rewrite Er in Hsr.
    destruct Hsr as [_ Hsr]. apply sorted_app in Hsr as (_ & _ & ? & _). lia. }
  assert (Start (eg_gap e) < End (eg_gap e)) as Heb.
  { destruct Hsplit as [(-> & _)|(mid & Er & _)]; [lia|]. rewrite Er in Hsr.
    destruct Hsr as [_ Hsr]. apply sorted_app in Hsr as (_ & _ & ? & _). lia. }
  assert (StreamFrame.Offset f1 < End (eg_gap e)) as Ha1 by (destruct Hpos as [?| ->]; lia).
  destruct (back_cut f1 (eg_gap e) Hf1 Ha1) as (f2 & E2 & Hf2 & Ho2 & Hl2); [destruct Hpos as [?| Ep]; lia|].
  rewrite Hl1 in E2, Hl2. rewrite E2.
  assert ((if start <? Start g then Start g else start) = StreamFrame.Offset f1) as ->
    by (rewrite Ho1; destruct (Z.ltb_spec start (Start g)); lia).
  assert ((if End (eg_gap e) <? end_ then u64 (end_ - u64 (end_ - End (eg_gap e))) else end_)
          = Z.min end_ (End (eg_gap e))) as ->.
  { destruct (Z.ltb_spec (End (eg_gap e)) end_); [|lia].
    rewrite (u64_small (end_ - End _)), u64_small by (unfold MaxByteCount in *; lia). lia. }
  rewrite (update_gaps_remaining end_ p g rest (queuedFrames s) e _ _ He Hsr eq_refl).
  destruct (MaxStreamFrameSorterGaps <? _); [by right|]. rewrite Ho2.
  assert (exists span, gaps s = p ++ span ++ eg_rest e /\
    ((span = [g] /\ eg_gap e = g) \/ (exists mid, span = g :: mid ++ [eg_gap e]))) as (span & Esp & Hspan).
  { destruct Hsplit as [(E & _ & Er & _)|(mid & Er & _)].
    - exists [g]. rewrite Eg, Er. auto.
    - exists (g :: mid ++ [eg_gap e]). rewrite Eg, Er. cbn. rewrite <- app_assoc. eauto. }
  destruct (sinv_insert s f2 (StreamFrame.Offset f1) (Z.min end_ (End (eg_gap e))) p g (eg_gap e) (eg_rest e)
    span (eg_queue e) Hinv Esp Hspan Hf2) as [Hs Hx]; try done; try lia.
  split_and!; [done|done|]. intros x. cbn [gaps]. rewrite Hx.
  assert (in_gap (gaps s) x -> start <= x < end_ ->
          StreamFrame.Offset f1 <= x < Z.min end_ (End (eg_gap e))) as Hcov.
  2: { split; intros [Hin Hout]; (split; [done|]); intros Hr; apply Hout; [by apply Hcov|lia]. }
  intros Hin Hr. rewrite Esp in I1, Hin.
  eapply (covered_by_span _ _ _ _ _ _ _ _ _ x I1 Hspan Hp Ho1); [|done|done].
  destruct Hend as [[_ ?]|(_ & _ & n & tl & En & Hn)]; eauto.
Qed.

(** The byte after a gap is queued, unless nothing follows the gap. *)
Lemma gap_end_queued s g :
  sinv s -> g ∈ gaps s -> End g <= N -> exists f, queuedFrames s !! End g = Some f.
Proof.
  intros [I1 I2 _ _ _ I6 _] (pre & rest & Eg)%list_elem_of_split He. rewrite Eg in *.
  destruct rest as [|n rest].
  { destruct I2 as (l & Hl & HM). rewrite last_snoc in Hl. injection Hl as <-. lia. }
  apply sorted_app in I1 as (_ & _ & _ & Hn & _). apply tiled_app in I6 as (_ & _ & Hc & _).
  inversion Hc as [x Ex|x y f Hf _ _ Ex]; subst; [lia|eauto].
Qed.

Lemma push_ok_extend s a a' b r :
  push_ok s a' b r -> a <= a' -> (forall x, a <= x < a' -> ~ in_gap (gaps s) x) -> push_ok s a b r.
Proof.
  intros H Ha Hx. destruct r as [[e|] s'|]; [|destruct H as (H1 & H2 & H3)|done].
  - destruct H as [(-> & H1 & H2 & H3 & H4)| ->]; [left|by right]. split_and!; try done.
    intros x Hr. destruct (decide (x < a')); [apply Hx; lia|apply H4; lia].
  - split_and!; try done. intros x. rewrite H3. split; intros [Hin Hn]; (split; [done|]); intros Hr; apply Hn.
    + destruct (decide (x < a')); [|lia]. exfalso. apply (Hx x); [lia|done].
    + lia.
Qed.

(** The bytes of a queued frame are in no gap. *)
Lemma queued_not_in_gap s k f x :
  sinv s -> queuedFrames s !! k = Some f -> k <= x < k + flen f -> ~ in_gap (gaps s) x.
Proof.
  intros [_ _ _ _ I5 _ _] Hk Hx (g & Hg & Hxg). destruct (I5 k f g Hk ltac:(lia) Hg); lia.
Qed.

Lemma Push_ok s f :
  sinv s -> good f -> (flen f = 0 -> StreamFrame.FinBit f = true) ->
  push_ok s (StreamFrame.Offset f) (StreamFrame.Offset f + flen f) (Push s f).
Proof.
  intros Hinv Hf Hfin. pose proof Hf as (F1 & F2 & F3 & _). unfold Push.
  rewrite (DataLen_flen f) by done. destruct (Z.eqb_spec (flen f) 0) as [E0|Hne].
  - rewrite (Hfin E0), E0, Z.add_0_r. rewrite (F3 E0) in *. destruct Hinv as [I1 I2 I3 I4 I5 I6 I7].
    split_and!; [|done|intros x; cbn; split; [intros; split; [done|lia]|tauto]]. split; cbn; try done.
    + intros k x [[<- <-]|[_ Hk]]%lookup_insert_Some; [by rewrite F3|by apply I4].
    + intros k x g [[<- <-]|[_ Hk]]%lookup_insert_Some Hx Hg; [lia|by apply I5].
    + eapply tiled_agree; [done| |done]. intros k g Hg Hk _. specialize (I3 g Hg).
      apply lookup_insert_ne. lia.
  - assert (0 < flen f) by (unfold flen in *; lia).
    destruct (queuedFrames s !! StreamFrame.Offset f) as [old|] eqn:Eold.
    + pose proof (si_queue _ Hinv _ _ Eold) as [Eo Hold]. rewrite (DataLen_flen old) by done.
      pose proof Hold as (G1 & G2 & G3 & _).
      assert (0 < flen old) as Hlo by (destruct (decide (flen old = 0)) as [E|]; [specialize (G3 E)|unfold flen in *]; lia).
      destruct (Z.leb_spec (flen f) (flen old)).
      * left. destruct Hinv as [I1 I2 I3 I4 I5 I6 I7].
        split_and!; try done. intros x Hx (g & Hg & Hxg). destruct (I5 _ old g Eold Hlo Hg); lia.
      * destruct (cut_front_good f (flen old)) as (f' & -> & Hf' & Ho' & Hl'); [done|lia|].
        eapply (push_ok_extend s _ (StreamFrame.Offset f + flen old)); [|lia|].
        -- rewrite <- Ho'. replace (StreamFrame.Offset f + flen f) with (StreamFrame.Offset f' + flen f') by lia.
           apply push_into_gaps_ok; [done|done|lia|]. intros g Hg E.
           pose proof (sorted_bounds _ _ _ (si_sorted _ Hinv) Hg).
           destruct (si_disjoint _ Hinv _ old g Eold Hlo Hg); lia.
        -- intros x Hx. by eapply queued_not_in_gap.
    + apply push_into_gaps_ok; [done|done|done|]. intros g Hg E.
      destruct (gap_end_queued s g Hinv Hg) as [x Ex]; [lia|]. congruence.
Qed.

(** The head is the byte at the read position, if it was received. *)
Lemma Head_received s :
  sinv s -> readPosition s < MaxByteCount -> ~ in_gap (gaps s) (readPosition s) ->
  exists f, Head s = Some f /\ 0 < flen f.
Proof.
  intros [I1 I2 _ _ _ I6 _] Hlt Hn. unfold Head. destruct (gaps s) as [|g gs].
  - by destruct I2 as (? & [=] & _).
  - destruct I6 as [Hc _], I1 as [Hg _]. rewrite in_gap_cons in Hn.
    inversion Hc as [x Ex|x y f Hf Hl _ Ex]; subst; [|eauto]. exfalso. apply Hn. left. lia.
Qed.

Lemma Pop_ok s f :
  sinv s -> Head s = Some f ->
  exists s', Pop s = Ok (f, s') /\ sinv s' /\ readPosition s' = readPosition s + flen f /\
    gaps s' = gaps s /\ good f /\ StreamFrame.Offset f = readPosition s.
Proof.
  intros Hinv Hh. pose proof Hinv as [I1 I2 I3 I4 I5 I6 I7]. unfold Pop. rewrite Hh.
  destruct (I4 _ _ Hh) as [Eo Hf]. pose proof Hf as (F1 & F2 & _). rewrite (DataLen_flen f) by done.
  rewrite u64_small by (unfold flen, MaxByteCount in *; lia). rewrite Eo.
  eexists. split_and!; [done| |done|done|done|done]. unfold Head in Hh.
  destruct (gaps s) as [|g gs] eqn:Eg; [by destruct I2 as (? & [=] & _)|].
  destruct I1 as [Hg Hs], I6 as [Hc Ht].
  assert (chain (queuedFrames s) (readPosition s + flen f) (Start g)) as Hc'.
  { inversion Hc as [x Ex|x y f' Hf' Hl Hc' Ex]; subst.
    - destruct (decide (flen f = 0)) as [E|Hne]; [rewrite E, Z.add_0_r; assert (readPosition s = Start g) as -> by congruence; constructor|].
      destruct (I5 _ f g Hh ltac:(unfold flen in *; lia) ltac:(left)); unfold flen in *; lia.
    - rewrite Hh in Hf'. by injection Hf' as <-. }
  pose proof (chain_le _ _ _ Hc').
  assert (forall k, k <> readPosition s -> delete (readPosition s) (queuedFrames s) !! k = queuedFrames s !! k)
    as Hdel by (intros k Hk; by apply lookup_delete_ne).
  split; cbn; rewrite ?Eg; try done.
  - split; [unfold flen in *; lia|done].
  - intros k x [_ Hk]%lookup_delete_Some. by apply I4.
  - intros k x h [_ Hk]%lookup_delete_Some Hx Hin. by apply I5.
  - split.
    + destruct (decide (flen f = 0)) as [E|Hne].
      * assert (readPosition s = Start g) as ->; [|rewrite E, Z.add_0_r; constructor].
        inversion Hc as [|x y f' Hf' Hl _ Ex]; [done|]. subst. rewrite Hh in Hf'. injection Hf' as <-. lia.
      * eapply chain_agree; [done|]. intros k Hk. apply Hdel. unfold flen in *. lia.
    + eapply tiled_agree; [done| |eapply sorted_weaken; [|done]; lia]. intros k x Hx Hk Hle. apply Hdel. lia.
  - unfold flen. lia.
Qed.

(** ** Runs of the sorter *)

Definition covers (f : StreamFrame.t) (x : Z) : Prop :=
  StreamFrame.Offset f <= x < StreamFrame.Offset f + flen f.

(** A run of the sorter: the frames pushed so far and the data handed out so far.  A
    run ends when the sorter refuses to keep more gaps, which closes the connection. *)
Inductive run : t -> list StreamFrame.t -> list Z -> Prop :=
| run_new : run newStreamFrameSorter [] []
| run_push s fs out f e s' :
    run s fs out -> good f -> (flen f = 0 -> StreamFrame.FinBit f = true) ->
    Push s f = Pushed e s' -> e <> Some errTooManyGapsInReceivedStreamData ->
    run s' (f :: fs) out
| run_pop s fs out f s' :
    run s fs out -> Head s = Some f -> Pop s = Ok (f, s') -> run s' fs (out ++ StreamFrame.Data f).

(** The abstraction: the gaps are the bytes that no pushed frame has covered, and the
    output is the prefix of the stream up to the read position. *)
Record run_inv (s : t) (fs : list StreamFrame.t) (out : list Z) : Prop := {
  ri_inv : sinv s;
  ri_pos : readPosition s = Z.of_nat (length out);
  ri_out : out = d <$> seqZ 0 (Z.of_nat (length out));
  ri_gaps : forall x, 0 <= x < MaxByteCount ->
    (in_gap (gaps s) x <-> forall f, f ∈ fs -> ~ covers f x);
}.

Lemma good_data f : good f -> StreamFrame.Data f = d <$> seqZ (StreamFrame.Offset f) (flen f).
Proof.
  intros (_ & _ & _ & Hd). apply list_eq. intros i. rewrite list_lookup_fmap.
  destruct (StreamFrame.Data f !! i) as [b|] eqn:Ei.
  - pose proof (lookup_lt_Some _ _ _ Ei). rewrite lookup_seqZ_lt by (unfold flen; lia).
    cbn. by rewrite (Hd _ _ Ei).
  - apply lookup_ge_None in Ei. by rewrite lookup_seqZ_ge by (unfold flen; lia).
Qed.

Lemma run_inv_new : run_inv newStreamFrameSorter [] [].
Proof.
  split; [apply sinv_new|done|done|]. intros x Hx. cbn. rewrite in_gap_cons. cbn. split.
  - by intros _ f []%not_elem_of_nil.
  - by left.
Qed.

Lemma run_inv_push s fs out f e s' :
  run_inv s fs out -> good f -> (flen f = 0 -> StreamFrame.FinBit f = true) ->
  Push s f = Pushed e s' -> e <> Some errTooManyGapsInReceivedStreamData ->
  run_inv s' (f :: fs) out.
Proof.
  intros [R1 R2 R3 R4] Hf Hfin Hp He. pose proof (Push_ok s f R1 Hf Hfin) as H. rewrite Hp in H.
  assert (sinv s' /\ readPosition s' = readPosition s /\
    forall x, in_gap (gaps s') x <-> in_gap (gaps s) x /\ ~ covers f x) as (H1 & H2 & H3).
  { destruct e as [e|]; cbn in H; [|done]. destruct H as [(_ & H1 & H2 & H3 & H4)| ->]; [|done].
    split_and!; try done. intros x. rewrite H3. split; [|tauto].
    intros Hx. split; [done|]. intros Hc. by apply (H4 x Hc). }
  split; [done|congruence|done|]. intros x Hx. rewrite H3, (R4 x Hx). setoid_rewrite elem_of_cons. split.
  - intros [Ha Hb] g [->|Hg]; auto.
  - intros Ha. split; [intros g Hg|]; apply Ha; auto.
Qed.

Lemma run_inv_pop s fs out f s' :
  run_inv s fs out -> Head s = Some f -> Pop s = Ok (f, s') ->
  run_inv s' fs (out ++ StreamFrame.Data f).
Proof.
  intros [R1 R2 R3 R4] Hh Hp. destruct (Pop_ok s f R1 Hh) as (x & Hp' & H1 & H2 & H3 & H4 & H5).
  rewrite Hp in Hp'. injection Hp' as <-.
  split; [done| | |by rewrite H3].
  - rewrite H2, R2, length_app. unfold flen. lia.
  - rewrite length_app, Nat2Z.inj_add, seqZ_app, fmap_app, <- R3 by lia. f_equal.
    rewrite (good_data f H4) at 1. rewrite H5, R2. done.
Qed.

Lemma run_invariant s fs out : run s fs out -> run_inv s fs out.
Proof. induction 1; eauto using run_inv_new, run_inv_push, run_inv_pop. Qed.

Lemma run_good s fs out f : run s fs out -> f ∈ fs -> good f.
Proof.
  induction 1; [by intros []%not_elem_of_nil| |done]. intros [->|?]%elem_of_cons; auto.
Qed.

(** The position of the reader never passes a missing byte. *)
Lemma read_covered s fs out x :
  run s fs out -> 0 <= x < readPosition s -> exists f, f ∈ fs /\ covers f x.
Proof.
  intros Hr Hx. destruct (run_invariant _ _ _ Hr) as [R1 R2 R3 R4].
  destruct (decide (Exists (fun f => covers f x) fs)) as [H|H].
  - apply Exists_exists in H as (f & ? & ?). eauto.
  - exfalso. assert (x < MaxByteCount) as Hlt.
    { destruct R1 as [I1 I2 I3 _ _ I6 _]. destruct (gaps s) as [|g gs].
      - by destruct I2 as (? & [=] & _).
      - destruct I1 as [? _]. specialize (I3 g ltac:(left)). lia. }
    assert (in_gap (gaps s) x) as (g & Hg & Hgx).
    { apply R4; [lia|]. intros f Hf Hc. apply H, Exists_exists. eauto. }
    pose proof (sorted_bounds _ _ _ (si_sorted _ R1) Hg). lia.
Qed.

(** C24. Whatever the order in which frames of a stream arrive, however they overlap and
    repeat, the data the sorter hands out is a prefix of the stream: every byte in
    order, none twice, none before it was received. *)
Theorem stream_reassembled s fs out :
  run s fs out ->
  out = d <$> seqZ 0 (Z.of_nat (length out)) /\ readPosition s = Z.of_nat (length out) /\
  forall x, 0 <= x < Z.of_nat (length out) -> exists f, f ∈ fs /\ covers f x.
Proof.
  intros Hr. destruct (run_invariant _ _ _ Hr) as [R1 R2 R3 R4]. split_and!; [done|done|].
  intros x Hx. eapply read_covered; [done|lia].
Qed.

(** Nothing that was received is lost: as soon as the byte at the read position has
    been in a frame that was pushed, the sorter has a head with data, and popping it
    moves the read position past it. *)
Theorem received_byte_available s fs out f :
  run s fs out -> f ∈ fs -> covers f (readPosition s) ->
  exists h s', Head s = Some h /\ Pop s = Ok (h, s') /\
    readPosition s < readPosition s' /\ run s' fs (out ++ StreamFrame.Data h).
Proof.
  intros Hr Hf Hc. destruct (run_invariant _ _ _ Hr) as [R1 R2 R3 R4].
  pose proof (run_good _ _ _ _ Hr Hf) as (F1 & F2 & _). unfold covers in Hc.
  destruct (Head_received s R1) as (h & Hh & Hl); [lia| |].
  { intros Hg. apply (proj1 (R4 (readPosition s) ltac:(lia)) Hg f Hf). done. }
  destruct (Pop_ok s h R1 Hh) as (s' & Hp & _ & Hpos & _). exists h, s'.
  split_and!; [done|done|lia|by eapply run_pop].
Qed.

Lemma too_many_gaps s f s' :
  Push s f = Pushed (Some errTooManyGapsInReceivedStreamData) s' ->
  MaxStreamFrameSorterGaps < Z.of_nat (length (gaps s')).
Proof.
  assert (forall g, push_into_gaps s g = Pushed (Some errTooManyGapsInReceivedStreamData) s' ->
    MaxStreamFrameSorterGaps < Z.of_nat (length (gaps s'))) as Hinto.
  { intros g. unfold push_into_gaps. repeat case_match; intros E; try done; injection E as E; try done.
    all: subst s'; by apply Z.ltb_lt. }
  unfold Push. repeat case_match; intros E; try done; try (injection E as E; done); by eapply Hinto.
Qed.

(** Pushing a frame of the stream never panics and never reports one of the
    sorter's internal errors: it succeeds, or reports a duplicate only when every byte
    of the frame had been received before, or gives up on a stream that has been cut
    into more than [MaxStreamFrameSorterGaps] gaps. *)
Theorem push_never_fails s fs out f :
  run s fs out -> good f -> (flen f = 0 -> StreamFrame.FinBit f = true) ->
  exists e s', Push s f = Pushed e s' /\
    (e = None \/
     (e = Some errDuplicateStreamData /\ forall x, covers f x -> exists g, g ∈ fs /\ covers g x) \/
     (e = Some errTooManyGapsInReceivedStreamData /\
      MaxStreamFrameSorterGaps < Z.of_nat (length (gaps s')))).
Proof.
  intros Hr Hf Hfin. destruct (run_invariant _ _ _ Hr) as [R1 R2 R3 R4].
  pose proof (Push_ok s f R1 Hf Hfin) as H. destruct (Push s f) as [e s'|] eqn:Ep; [|done].
  exists e, s'. split; [done|]. destruct e as [e|]; [right|by left].
  destruct H as [(-> & _ & _ & _ & Hdup)| ->]; [left|right; split; [done|by eapply too_many_gaps]].
  split; [done|]. intros x Hx. destruct (decide (Exists (fun g => covers g x) fs)) as [Hex|Hnex].
  - apply Exists_exists in Hex as (g & ? & ?). eauto.
  - exfalso. apply (Hdup x Hx), R4; [destruct Hf; unfold covers in Hx; lia|].
    intros g Hg Hc. apply Hnex, Exists_exists. eauto.
Qed.
End Sorter.

(** ** Frames of any peer

    What does not depend on the frames being pieces of one stream: whatever frames arrive, pushing
    them never panics, and the gaps stay in order and reach to the end. *)

Definition gaps_ok (gs : list ByteInterval) : Prop := sorted 0 gs /\ reaches_end gs.

(** A frame with its last byte below the largest offset, as its parser accepts it. *)
Definition wide (f : StreamFrame.t) : Prop := 0 <= StreamFrame.Offset f /\ StreamFrame.Offset f + flen f < 2 ^ 64.

Lemma wide_len f : wide f -> StreamFrame.DataLen f = flen f.
Proof. intros [? ?]. unfold StreamFrame.DataLen. apply u64_small. unfold flen in *. lia. Qed.

Lemma cut_front_any f n :
  wide f -> 0 <= n <= flen f ->
  exists f', cut_front f n = Some f' /\ wide f' /\ StreamFrame.Offset f' = StreamFrame.Offset f + n /\ flen f' = flen f - n.
Proof.
  intros Hw Hn. pose proof Hw as [H1 H2]. unfold cut_front. rewrite (wide_len f Hw), (proj2 (Z.ltb_ge _ _)) by lia.
  assert (u64 (StreamFrame.Offset f + n) = StreamFrame.Offset f + n) as E by (apply u64_small; lia).
  assert (Z.of_nat (length (drop (Z.to_nat n) (StreamFrame.Data f))) = flen f - n) as El by (rewrite length_drop; unfold flen in *; lia).
  eexists. split; [done|]. unfold wide, with_data. unfold flen at 1 2. cbn. rewrite E, El. split_and!; lia.
Qed.

Lemma cut_back_any f n :
  wide f -> 0 <= n <= flen f -> exists f', cut_back f n = Some f' /\ StreamFrame.Offset f' = StreamFrame.Offset f /\ flen f' = n.
Proof.
  intros Hw Hn. unfold cut_back. rewrite (wide_len f Hw), (proj2 (Z.ltb_ge _ _)) by lia.
  eexists. split; [done|]. split; [done|]. unfold flen, with_data. cbn. rewrite length_take. unfold flen in *. lia.
Qed.

(** A frame may start at the end of a gap, and then leaves the gap alone. *)
Lemma remaining_any a b lo pre g e tl :
  sorted lo pre -> (forall p, p ∈ pre -> End p < Start g) -> lo <= Start g -> sorted (End e + 1) tl -> Start g <= a ->
  Start e < b <= End e -> (e = g /\ a <= End g \/ End g < Start e /\ a <= End g) -> (b < End e -> a < b) ->
  sorted lo (remaining a b pre g e tl).
Proof.
  intros H1 H2 H3 H4 Ha Hb He Hab. unfold remaining.
  assert (forall l, (forall p, p ∈ pre -> End p < l) -> lo <= l -> forall gs, sorted l gs -> sorted lo (pre ++ gs)) as Happ.
  { intros l Hl Hlo gs Hgs. destruct gs as [|x gs]; [by rewrite app_nil_r|].
    apply sorted_app. destruct Hgs as [Hx Hgs]. split_and!; try done; try lia. intros p Hp%Hl. lia. }
  assert (sorted (a + 1) ((if b <? End e then [MkInterval b (End e)] else []) ++ tl)) as Htl.
  { destruct (Z.ltb_spec b (End e)); cbn; [split; [lia|done]|]. eapply sorted_weaken; [|done]. destruct He as [[-> ?]|[? ?]]; lia. }
  apply (Happ (Start g)); [done|lia|]. destruct (Z.eqb_spec a (Start g)) as [->|Hne]; cbn [app].
  - eapply sorted_weaken; [|done]. lia.
  - cbn. split; [lia|done].
Qed.

(** A frame up to the largest offset finds no end gap. *)
Lemma find_end_gap_none rest : forall g first q,
  sorted (Start g) (g :: rest) -> reaches_end (g :: rest) ->
  exists e, find_end_gap MaxByteCount g first rest q = inr e
    /\ (eg_first e = first /\ rest = [] /\ eg_gap e = g \/ eg_first e = false /\ exists mid, rest = mid ++ [eg_gap e]).
Proof.
  assert (forall gs lo x, sorted lo gs -> reaches_end gs -> x ∈ gs -> End x <= MaxByteCount) as Hmax.
  { intros gs lo x Hs (l & Hl & HM) Hx. destruct (last_Some gs l) as [Hd _]. destruct (Hd Hl) as [pre E]. subst gs.
    apply sorted_app in Hs as (_ & Hlt & Hb & _). apply elem_of_app in Hx as [Hx|Hx%list_elem_of_singleton]; [|subst x; lia].
    specialize (Hlt x Hx). lia. }
  induction rest as [|n rest IH]; intros g first q Hs Hr; cbn [find_end_gap].
  - rewrite (proj2 (Z.leb_le _ _)) by (eapply Hmax; [exact Hs|exact Hr|left]). eexists. split; [done|]. by left.
  - rewrite (proj2 (Z.leb_le _ _)) by (eapply Hmax; [exact Hs|exact Hr|left]).
    assert (reaches_end (n :: rest)) as Hr' by (destruct Hr as (l & Hl & HM); exists l; by rewrite last_cons_cons in Hl).
    destruct Hs as [Hg [Hn Hs]]. assert (End n <= MaxByteCount) as Hnm by (eapply (Hmax (n :: rest) (Start n)); [split; [lia|exact Hs]|done|left]).
    rewrite (proj2 (Z.leb_gt _ _)) by lia. destruct (IH n false (delete (End g) q)) as (e & -> & He); [split; [lia|done]|done|].
    exists e. split; [done|]. right. destruct He as [(E1 & -> & Eg)|[E1 [mid ->]]]; (split; [done|]).
    + exists []. by rewrite Eg.
    + by exists (n :: mid).
Qed.

Lemma push_into_gaps_any s f :
  gaps_ok (gaps s) -> wide f -> 0 < flen f -> exists e s', push_into_gaps s f = Pushed e s' /\ gaps_ok (gaps s').
Proof.
  intros [Hs Hr] Hw Hl. pose proof Hw as [W1 W2]. unfold push_into_gaps. rewrite (wide_len f Hw), (u64_small (_ + _)) by lia.
  set (start := StreamFrame.Offset f) in *. set (end_ := start + flen f) in *. assert (end_ = start + flen f) as Eend by done.
  pose proof (skip_gaps_spec start end_ (gaps s) []) as Hskip.
  destruct (skip_gaps start end_ [] (gaps s)) as [| |pre g rest]; [by eexists _, _..|].
  destruct Hskip as (p & -> & Eg & Hp & Hge & Hsg). cbn [app]. pose proof Hs as Hs'. rewrite Eg in Hs'.
  apply sorted_app in Hs' as (S1 & S2 & S3 & S4).
  assert (exists f1, (if start <? Start g then cut_front f (u64 (Start g - start)) else Some f) = Some f1 /\ wide f1
    /\ StreamFrame.Offset f1 = Z.max start (Start g) /\ StreamFrame.Offset f1 + flen f1 = end_) as (f1 & -> & Hw1 & Ho1 & Hl1).
  { destruct (Z.ltb_spec start (Start g)); [|exists f; split_and!; try done; unfold start in *; lia].
    destruct (cut_front_any f (Start g - start) Hw) as (f1 & E & Hw1 & Ho1 & Hl1); [unfold end_ in *; lia|].
    rewrite u64_small by lia. exists f1. split_and!; try done; unfold start, end_ in *; lia. }
  assert (sorted (Start g) (g :: rest)) as Hsr by (split; [lia|done]).
  assert (reaches_end (g :: rest)) as Hrr by (destruct Hr as (l & Hlast & HM); exists l; by rewrite Eg, last_app_cons in Hlast).
  destruct (decide (end_ = MaxByteCount)) as [Emax|Hmax].
  { rewrite Emax. destruct (find_end_gap_none rest g true (queuedFrames s) Hsr Hrr) as (e & -> & He).
    eexists _, _. split; [done|]. cbn [gaps]. destruct He as [(-> & -> & _)|(-> & mid & ->)].
    - cbn [app]. rewrite Eg in Hs, Hr. by split.
    - apply sorted_app in S4 as (_ & _ & S5 & _). split.
      + cbn [app]. apply sorted_app. split; [done|]. split; [done|]. split; [lia|]. cbn. split; [lia|done].
      + destruct Hrr as (l & Hlast & HM). rewrite app_comm_cons, last_snoc in Hlast. injection Hlast as <-.
        exists (eg_gap e). split; [|done]. cbn [app]. by rewrite last_app_cons. }
  destruct (find_end_gap_spec end_ rest g true (queuedFrames s)) as (e & -> & He); [done|done|unfold MaxByteCount in *; lia|].
  pose proof He as [Hsplit Hst Hend _ _].
  assert ((eg_gap e = g \/ End g < Start (eg_gap e)) /\ Start (eg_gap e) < End (eg_gap e) /\ sorted (End (eg_gap e) + 1) (eg_rest e)) as (Hpos & Heb & Htl).
  { destruct Hsplit as [(-> & _ & -> & _)|(mid & Er & _)]; [split_and!; [by left|lia|done]|]. rewrite Er in S4.
    apply sorted_app in S4 as (_ & _ & ? & ?). split_and!; [right; lia|lia|done]. }
  assert (StreamFrame.Offset f1 <= End (eg_gap e)) as Ha1 by (destruct Hpos as [-> |?]; lia).
  assert (exists f2, (if End (eg_gap e) <? end_ then cut_back f1 (u64 (StreamFrame.DataLen f1 - u64 (end_ - End (eg_gap e)))) else Some f1) = Some f2) as (f2 & ->).
  { destruct (Z.ltb_spec (End (eg_gap e)) end_); [|by eexists]. rewrite (wide_len f1 Hw1), (u64_small (end_ - _)) by lia.
    rewrite u64_small by (unfold wide in *; lia).
    destruct (cut_back_any f1 (flen f1 - (end_ - End (eg_gap e))) Hw1) as (f2 & E & _); [lia|by exists f2]. }
  assert ((if start <? Start g then Start g else start) = StreamFrame.Offset f1) as ->
    by (rewrite Ho1; destruct (Z.ltb_spec start (Start g)); lia).
  assert ((if End (eg_gap e) <? end_ then u64 (end_ - u64 (end_ - End (eg_gap e))) else end_) = Z.min end_ (End (eg_gap e))) as ->.
  { destruct (Z.ltb_spec (End (eg_gap e)) end_); [|lia]. rewrite (u64_small (end_ - End _)), u64_small by lia. lia. }
  rewrite (update_gaps_remaining end_ p g rest (queuedFrames s) e _ _ He Hsr eq_refl).
  assert (gaps_ok (remaining (StreamFrame.Offset f1) (Z.min end_ (End (eg_gap e))) p g (eg_gap e) (eg_rest e))) as Hok.
  { split.
    - apply remaining_any; [exact S1|exact S2|lia|exact Htl|lia|lia| |lia]. destruct Hpos as [E|E]; [left|right]; (split; [done|lia]).
    - assert (exists span, gaps s = p ++ span ++ eg_rest e /\
        ((span = [g] /\ eg_gap e = g) \/ (exists mid, span = g :: mid ++ [eg_gap e]))) as (span & Esp & Hspan).
      { destruct Hsplit as [(E & _ & Er & _)|(mid & Er & _)].
        - exists [g]. rewrite Eg, Er. auto.
        - exists (g :: mid ++ [eg_gap e]). rewrite Eg, Er. cbn. rewrite <- app_assoc. eauto. }
      rewrite Esp in Hs, Hr. eapply remaining_end; try done; unfold MaxByteCount in *; lia. }
  destruct (MaxStreamFrameSorterGaps <? _); by eexists _, _.
Qed.

Lemma Push_any s f : gaps_ok (gaps s) -> wide f -> exists e s', Push s f = Pushed e s' /\ gaps_ok (gaps s').
Proof.
  intros Hg Hw. unfold Push. rewrite (wide_len f Hw). destruct (Z.eqb_spec (flen f) 0) as [|Hne].
  { destruct (StreamFrame.FinBit f); by eexists _, _. }
  assert (0 < flen f) by (unfold flen in *; lia).
  destruct (queuedFrames s !! StreamFrame.Offset f) as [old|]; [|by apply push_into_gaps_any].
  destruct (Z.leb_spec (flen f) (StreamFrame.DataLen old)); [by eexists _, _|].
  assert (0 <= StreamFrame.DataLen old) by (apply wrap_range; lia).
  destruct (cut_front_any f (StreamFrame.DataLen old) Hw) as (f' & -> & Hw' & _ & Hl'); [lia|]. apply push_into_gaps_any; [done|done|lia].
Qed.

(** [Pop] reads the receive time of the head before it checks that there is a head:
    on a sorter with nothing to hand out it panics. *)
Lemma pop_without_head_panics s : Head s = None <-> Pop s = Panic.
Proof. unfold Pop. by destruct (Head s). Qed.

(** Two frames that overlap, pushed out of order, and the data they give. *)
Module Overlap.
Definition stream (x : Z) : Z := x + 10.
Definition frame (off : Z) (data : list Z) : StreamFrame.t := StreamFrame.Mk 5 false true off data 0 false.
Definition s0 : t := newStreamFrameSorter.
Definition after (r : push_result) : t := match r with Pushed _ s => s | PushPanic => s0 end.
Definition s1 : t := after (Push s0 (frame 2 [12; 13; 14])).
Definition s2 : t := after (Push s1 (frame 0 [10; 11; 12; 13])).
Definition s3 : t := match Pop s2 with Ok (_, s) => s | _ => s0 end.

Lemma good_frame off data :
  0 <= off -> off + Z.of_nat (length data) <= 5 -> data <> [] ->
  data = stream <$> seqZ off (Z.of_nat (length data)) ->
  good stream 5 (frame off data).
Proof.
  intros H1 H2 H3 H4. unfold good, flen, frame. cbn. split_and!; try lia.
  - intros E. destruct data; [done|cbn in E; lia].
  - intros i b Hi. rewrite H4, list_lookup_fmap in Hi.
    destruct (seqZ off (Z.of_nat (length data)) !! i) as [x|] eqn:Ex; [|done].
    apply lookup_seqZ in Ex as [-> ?]. injection Hi as <-. done.
Defined.

Lemma run1 : run stream 5 s1 [frame 2 [12; 13; 14]] [].
Proof.
  eapply (run_push _ _ s0 [] [] _ None); [apply run_new| |intros [=]| |intros [=]].
  - apply good_frame; [lia|cbn; lia|intros [=]|reflexivity].
  - vm_compute. reflexivity.
Defined.

Lemma run2 : run stream 5 s2 [frame 0 [10; 11; 12; 13]; frame 2 [12; 13; 14]] [].
Proof.
  eapply (run_push _ _ s1 _ [] _ None); [apply run1| |intros [=]| |intros [=]].
  - apply good_frame; [lia|cbn; lia|intros [=]|reflexivity].
  - vm_compute. reflexivity.
Defined.

Lemma run3 : run stream 5 s3 [frame 0 [10; 11; 12; 13]; frame 2 [12; 13; 14]] [10; 11].
Proof.
  apply (run_pop _ _ s2 _ [] (frame 0 [10; 11])); [apply run2| |]; vm_compute; reflexivity.
Defined.

Lemma stream_reassembled_witness :
  [10; 11] = stream <$> seqZ 0 2 /\ readPosition s3 = 2 /\
  forall x, 0 <= x < 2 ->
    exists f, f ∈ [frame 0 [10; 11; 12; 13]; frame 2 [12; 13; 14]] /\ covers f x.
Proof. apply (stream_reassembled stream 5 ltac:(done) _ _ _ run3). Defined.

Lemma received_byte_available_witness :
  exists h s', Head s3 = Some h /\ Pop s3 = Ok (h, s') /\ readPosition s3 < readPosition s' /\
    run stream 5 s' [frame 0 [10; 11; 12; 13]; frame 2 [12; 13; 14]] ([10; 11] ++ StreamFrame.Data h).
Proof.
  apply (received_byte_available stream 5 ltac:(done) s3 _ [10; 11] (frame 2 [12; 13; 14]) run3).
  - right. left.
  - unfold covers. vm_compute. split; [intros [=]|reflexivity].
Defined.

Lemma push_never_fails_witness :
  exists e s', Push s2 (frame 1 [11; 12]) = Pushed e s' /\
    (e = None \/
     (e = Some errDuplicateStreamData /\
      forall x, covers (frame 1 [11; 12]) x ->
        exists g, g ∈ [frame 0 [10; 11; 12; 13]; frame 2 [12; 13; 14]] /\ covers g x) \/
     (e = Some errTooManyGapsInReceivedStreamData /\
      MaxStreamFrameSorterGaps < Z.of_nat (length (gaps s')))).
Proof.
  apply (push_never_fails stream 5 ltac:(done) s2 _ [] (frame 1 [11; 12]) run2); [|intros [=]].
  apply good_frame; [lia|cbn; lia|intros [=]|reflexivity].
Defined.
End Overlap.
