(* ===== verification/GoFloat.v ===== *)
(** * Floating point

    Go's [float64] and [float32] as the Standard Library's [spec_float]: IEEE 754 numbers
    with round-to-nearest-even operations that compute, at precision 53 and exponent bound
    1024 for binary64, 24 and 128 for binary32.  A decimal literal is the quotient of two exact integers,
    which rounds it correctly.  Conversions to an integer truncate; Go leaves the result
    open when it does not fit, here it is reduced to the width. *)

From Stdlib Require Import ZArith Floats.SpecFloat.
From stdpp Require Import base numbers option.
From S2P Require Import Prelude.

Local Open Scope Z_scope.

Declare Scope f64_scope.
Declare Scope f32_scope.
Delimit Scope f64_scope with f64.
Delimit Scope f32_scope with f32.

Abbreviation float := spec_float.

(** ** Operations *)

Definition of_Z64 (x : Z) : float := binary_normalize 53 1024 x 0 false.
Definition of_Z32 (x : Z) : float := binary_normalize 24 128 x 0 false.

Infix "+" := (SFadd 53 1024) : f64_scope.
Infix "-" := (SFsub 53 1024) : f64_scope.
Infix "*" := (SFmul 53 1024) : f64_scope.
Infix "/" := (SFdiv 53 1024) : f64_scope.
Infix "+" := (SFadd 24 128) : f32_scope.
Infix "-" := (SFsub 24 128) : f32_scope.
Infix "*" := (SFmul 24 128) : f32_scope.
Infix "/" := (SFdiv 24 128) : f32_scope.

Definition f0 : float := of_Z64 0.

(** The literal n/d. *)
Definition lit64 (n d : Z) : float := (of_Z64 n / of_Z64 d)%f64.
Definition lit32 (n d : Z) : float := (of_Z32 n / of_Z32 d)%f32.

Definition flt (x y : float) : bool := SFltb x y.
Definition fle (x y : float) : bool := SFleb x y.
Definition feq (x y : float) : bool := SFeqb x y.

Definition is_nan (x : float) : bool := match x with S754_nan => true | _ => false end.
Definition is_inf (x : float) : bool := match x with S754_infinity _ => true | _ => false end.
Definition is_finite (x : float) : bool := negb (is_nan x || is_inf x).

(** Truncation towards zero. *)
Definition trunc (x : float) : Z :=
  match x with
  | S754_finite s m e =>
      let a := if 0 <=? e then Z.shiftl (Zpos m) e else Z.shiftr (Zpos m) (- e) in
      if s then - a else a
  | _ => 0
  end.

(** The conversion [float64(x)] of a [float32], which is exact. *)
Definition widen (x : float) : float :=
  match x with
  | S754_finite s m e => binary_normalize 53 1024 (if s then Zneg m else Zpos m) e false
  | _ => x
  end.

Definition to_int64 (x : float) : Z := i64 (trunc x).
Definition to_uint64 (x : float) : Z := u64 (trunc x).

(** [math.Max], [math.Min]: NaN wins, zeros are ordered by sign. *)
Definition math_Max (x y : float) : float :=
  match x, y with
  | S754_infinity false, _ | _, S754_infinity false => S754_infinity false
  | S754_nan, _ | _, S754_nan => S754_nan
  | S754_zero true, S754_zero _ => y
  | S754_zero false, S754_zero _ => x
  | _, _ => if flt y x then x else y
  end.

Definition math_Min (x y : float) : float :=
  match x, y with
  | S754_infinity true, _ | _, S754_infinity true => S754_infinity true
  | S754_nan, _ | _, S754_nan => S754_nan
  | S754_zero true, S754_zero _ => x
  | S754_zero false, S754_zero _ => y
  | _, _ => if flt x y then x else y
  end.

(** [math.Round]: to the nearest integer, halves away from zero. *)
Definition math_Round (x : float) : float :=
  match x with
  | S754_finite s m e =>
      if 0 <=? e then x
      else
        let r := Z.shiftr (2 * Zpos m + Z.shiftl 1 (- e)) (1 - e) in
        if r =? 0 then S754_zero s else of_Z64 (if s then - r else r)
  | _ => x
  end.

(** ** Order *)

Lemma SFcompare_swap x y : SFcompare y x = CompOpp <$> SFcompare x y.
Proof.
  destruct x as [s|s| |s m e], y as [s'|s'| |s' m' e']; try (destruct s; try destruct s'; reflexivity);
    try (destruct s'; reflexivity); try reflexivity.
  assert (forall a b, Pos.compare_cont Eq a b = CompOpp (Pos.compare_cont Eq b a)) as Hp
    by (intros a b; exact (Pos.compare_antisym b a)).
  cbn. rewrite (Z.compare_antisym e e'). destruct s, s'; try reflexivity; destruct (e ?= e'); cbn; try reflexivity.
  - by rewrite (Hp m' m).
  - by rewrite (Hp m' m).
Qed.

Lemma SFcompare_refl x : is_nan x = false -> SFcompare x x = Some Eq.
Proof.
  destruct x as [s|s| |s m e]; intros H; try done; cbn; [by destruct s|].
  rewrite Z.compare_refl. assert (Pos.compare_cont Eq m m = Eq) as -> by exact (Pos.compare_refl m).
  by destruct s.
Qed.

Lemma SFcompare_some x y : is_nan x = false -> is_nan y = false -> is_Some (SFcompare x y).
Proof. destruct x, y; try done; intros _ _; eexists; reflexivity. Qed.

Lemma fle_refl x : is_nan x = false -> fle x x = true.
Proof. intros H. unfold fle, SFleb. by rewrite SFcompare_refl. Qed.

Lemma flt_false_fle x y : is_nan x = false -> is_nan y = false -> flt x y = false -> fle y x = true.
Proof.
  intros Hx Hy. unfold flt, fle, SFltb, SFleb. rewrite (SFcompare_swap x y).
  destruct (SFcompare_some x y Hx Hy) as [[] ->]; done.
Qed.

Lemma flt_fle x y : flt x y = true -> fle x y = true.
Proof. unfold flt, fle, SFltb, SFleb. by destruct (SFcompare x y) as [[]|]. Qed.

Lemma fle_not_nan x y : fle x y = true -> is_nan x = false /\ is_nan y = false.
Proof. by destruct x, y. Qed.

Create HintDb float.
#[export] Hint Resolve fle_refl flt_false_fle flt_fle : float.
