(* ===== verification/FloatFacts.v ===== *)
(** * Rounding

    What the floating-point operations of [GoFloat] compute, in real numbers.  A finite
    float is a real number [val]; [rounds y r] says that [r] is a correctly rounded [y] as
    far as bounds are concerned: a representable number on either side of [y] stays on that
    side of [r].  The operations round the exact result, comparisons compare the values,
    conversions to integers truncate them.  This is what the bounds on windows, gains and
    weights in the files on congestion and utility control rest on. *)

From Stdlib Require Import ZArith Reals Lra Lia Floats.SpecFloat.
From stdpp Require Import base numbers option.
From S2P Require Import Prelude GoFloat.

Local Open Scope Z_scope.

(** ** Powers of two *)

Definition bp (e : Z) : R := powerRZ 2 e.

Lemma bp_pos e : (0 < bp e)%R.
Proof. apply powerRZ_lt. lra. Qed.

Lemma bp_add a b : bp (a + b) = (bp a * bp b)%R.
Proof. apply powerRZ_add. lra. Qed.

Lemma bp_IZR e : 0 <= e -> bp e = IZR (2 ^ e).
Proof.
  intros H. unfold bp. rewrite <- (Z2Nat.id e) at 1 by done.
  rewrite <- pow_powerRZ, pow_IZR. f_equal. rewrite Z2Nat.id by done. done.
Qed.

Lemma bp_succ e : bp (e + 1) = (2 * bp e)%R.
Proof. rewrite bp_add. rewrite (bp_IZR 1) by lia. change (2 ^ 1) with 2. lra. Qed.

Lemma bp_le a b : a <= b -> (bp a <= bp b)%R.
Proof.
  intros H. replace b with (a + (b - a)) by lia. rewrite bp_add, (bp_IZR (b - a)) by lia.
  pose proof (bp_pos a). assert (1 <= IZR (2 ^ (b - a)))%R; [apply IZR_le; lia|]. nra.
Qed.

(** A number on the grid of a smaller exponent. *)
Lemma bp_grid M E e : e <= E -> (IZR M * bp E = IZR (M * 2 ^ (E - e)) * bp e)%R.
Proof.
  intros H. rewrite mult_IZR, <- (bp_IZR (E - e)) by lia.
  replace E with ((E - e) + e) at 1 by lia. rewrite bp_add. lra.
Qed.

(** ** Digits *)

Lemma digits2_pos_log2 m : Zpos (digits2_pos m) = Z.log2 (Zpos m) + 1.
Proof.
  induction m as [m IH|m IH|]; cbn [digits2_pos]; [| |done].
  - rewrite Pos2Z.inj_succ, IH, (Pos2Z.inj_xI m), Z.log2_succ_double by lia. lia.
  - rewrite Pos2Z.inj_succ, IH, (Pos2Z.inj_xO m), Z.log2_double by lia. lia.
Qed.

Lemma Zdigits2_bounds m : 0 < m -> 2 ^ (Zdigits2 m - 1) <= m < 2 ^ Zdigits2 m.
Proof.
  destruct m as [|m|m]; try lia. intros _. unfold Zdigits2. rewrite digits2_pos_log2.
  replace (Z.log2 (Zpos m) + 1 - 1) with (Z.log2 (Zpos m)) by lia.
  pose proof (Z.log2_spec (Zpos m) ltac:(lia)). lia.
Qed.

Lemma Zdigits2_eq m k : 2 ^ (k - 1) <= m < 2 ^ k -> 0 < m -> Zdigits2 m = k.
Proof.
  intros H Hm. destruct m as [|m|m]; try lia. unfold Zdigits2. rewrite digits2_pos_log2.
  destruct (decide (k <= 0)).
  { destruct (decide (k = 0)) as [->|]; [cbn in H; lia|]. rewrite (Z.pow_neg_r 2 k) in H; lia. }
  rewrite (Z.log2_unique (Zpos m) (k - 1)); [lia|lia|].
  replace (Z.succ (k - 1)) with k by lia. done.
Qed.

Lemma Zdigits2_le m k : 0 < m -> 0 <= k -> m < 2 ^ k -> Zdigits2 m <= k.
Proof.
  intros Hm Hk H. destruct (Zdigits2_bounds m Hm) as [Hl _].
  destruct (decide (Zdigits2 m <= k)); [done|].
  assert (2 ^ k <= 2 ^ (Zdigits2 m - 1)) by (apply Z.pow_le_mono_r; lia). lia.
Qed.

Lemma Zdigits2_ge m k : 0 < m -> 2 ^ (k - 1) <= m -> k <= Zdigits2 m.
Proof.
  intros Hm H. destruct (Zdigits2_bounds m Hm) as [_ Hu].
  destruct (decide (k <= Zdigits2 m)); [done|].
  assert (0 < Zdigits2 m) by (destruct m; [lia|unfold Zdigits2; lia|lia]).
  assert (2 ^ Zdigits2 m <= 2 ^ (k - 1)) by (apply Z.pow_le_mono_r; lia). lia.
Qed.

(** ** Locations *)

(** [y] lies where the record says: at its mantissa, or strictly above it. *)
Definition located (b : bool) (m e : Z) (y : R) : Prop :=
  if b then (IZR m * bp e < y < IZR (m + 1) * bp e)%R else y = (IZR m * bp e)%R.

Definition rest (mrs : shr_record) : bool := shr_r mrs || shr_s mrs.

Lemma shr_1_spec mrs e y :
  0 <= shr_m mrs -> located (rest mrs) (shr_m mrs) e y ->
  shr_m (shr_1 mrs) = shr_m mrs / 2 /\ located (rest (shr_1 mrs)) (shr_m (shr_1 mrs)) (e + 1) y.
Proof.
  destruct mrs as [m r s]. unfold rest. cbn [shr_m shr_r shr_s]. intros Hm Hl.
  set (b := orb r s) in *.
  assert (exists m' r', shr_1 (Build_shr_record m r s) = Build_shr_record m' r' b
          /\ m = 2 * m' + (if r' then 1 else 0) /\ 0 <= m') as (m' & r' & -> & -> & Hm').
  { destruct m as [|[p|p|]|]; try lia; cbn.
    - by exists 0, false.
    - exists (Zpos p), true. split_and!; [done|lia|lia].
    - exists (Zpos p), false. split_and!; [done|lia|lia].
    - by exists 0, true. }
  cbn [shr_m shr_r shr_s]. split.
  { apply (Z.div_unique_pos _ 2 m' (if r' then 1 else 0)); destruct r'; lia. }
  unfold located in *. rewrite bp_succ. pose proof (bp_pos e).
  destruct r', b; cbn [orb]; repeat rewrite ?plus_IZR, ?mult_IZR in Hl; repeat rewrite plus_IZR; nra.
Qed.

Lemma iter_pos_nat {A : Type} (f : A -> A) n x : SpecFloat.iter_pos f n x = Nat.iter (Pos.to_nat n) f x.
Proof.
  revert x. induction n as [n IH|n IH|]; intros x; cbn [SpecFloat.iter_pos]; [| |done].
  - rewrite !IH, <- Nat.iter_add, <- Nat.iter_succ_r. f_equal. lia.
  - rewrite !IH, <- Nat.iter_add. f_equal. lia.
Qed.

Lemma shr_iter_spec k mrs e y :
  0 <= shr_m mrs -> located (rest mrs) (shr_m mrs) e y ->
  shr_m (Nat.iter k shr_1 mrs) = shr_m mrs / 2 ^ Z.of_nat k
  /\ located (rest (Nat.iter k shr_1 mrs)) (shr_m (Nat.iter k shr_1 mrs)) (e + Z.of_nat k) y.
Proof.
  intros Hm Hl. induction k as [|k [IHm IHl]].
  - cbn. rewrite Z.div_1_r, Z.add_0_r. done.
  - rewrite Nat.iter_succ.
    assert (0 <= shr_m (Nat.iter k shr_1 mrs)) as Hk by (rewrite IHm; apply Z.div_pos; lia).
    destruct (shr_1_spec _ _ _ Hk IHl) as [H1 H2]. split.
    + rewrite H1, IHm, Z.div_div by lia. f_equal.
      replace (Z.of_nat (S k)) with (Z.of_nat k + 1) by lia. rewrite Z.pow_add_r by lia. done.
    + by replace (e + Z.of_nat (S k)) with (e + Z.of_nat k + 1) by lia.
Qed.

Lemma shr_spec mrs e n y :
  0 <= shr_m mrs -> located (rest mrs) (shr_m mrs) e y -> 0 <= n ->
  exists mrs', shr mrs e n = (mrs', e + n) /\ shr_m mrs' = shr_m mrs / 2 ^ n
               /\ located (rest mrs') (shr_m mrs') (e + n) y.
Proof.
  intros Hm Hl Hn. destruct n as [|n|n]; [| |lia].
  - exists mrs. cbn [shr]. rewrite Z.add_0_r, Z.pow_0_r, Z.div_1_r. done.
  - exists (SpecFloat.iter_pos shr_1 n mrs). cbn [shr]. rewrite iter_pos_nat.
    pose proof (shr_iter_spec (Pos.to_nat n) mrs e y Hm Hl) as [H1 H2].
    rewrite positive_nat_Z in H1, H2. done.
Qed.

Definition is_inexact (l : location) : bool := match l with loc_Exact => false | _ => true end.

Lemma rest_of_loc m l : rest (shr_record_of_loc m l) = is_inexact l /\ shr_m (shr_record_of_loc m l) = m.
Proof. by destruct l as [|[]]. Qed.

Lemma round_nearest_even_spec mrs :
  let m2 := round_nearest_even (shr_m mrs) (loc_of_shr_record mrs) in
  (m2 = shr_m mrs \/ m2 = shr_m mrs + 1) /\ (rest mrs = false -> m2 = shr_m mrs).
Proof.
  destruct mrs as [m [] []]; unfold rest; cbn; try destruct (Z.even m); split; try done; auto.
Qed.

(** ** Values and rounding *)

Definition val (x : float) : R :=
  match x with
  | S754_finite s m e => ((if s then - IZR (Zpos m) else IZR (Zpos m)) * bp e)%R
  | _ => 0%R
  end.

Section Format.
Context (prec emax : Z).
Context (Hprec : 1 < prec) (Hemax : prec < emax).

Abbreviation emin := (emin prec emax).
Abbreviation fexp := (fexp prec emax).

(** The numbers of the format, with no bound on the exponent. *)
Definition repr (z : R) : Prop :=
  exists M E, z = (IZR M * bp E)%R /\ Z.abs M <= 2 ^ prec /\ emin <= E.

(** The format's finite floats. *)
Definition valid (x : float) : Prop := valid_binary prec emax x = true /\ is_finite x = true.

(** [r] is [y] rounded. *)
Definition near (y r : R) : Prop :=
  (forall z, repr z -> (y <= z)%R -> (r <= z)%R) /\ (forall z, repr z -> (z <= y)%R -> (z <= r)%R).
Definition rounds (y : R) (r : float) : Prop := valid r /\ near y (val r).

Definition canonical (M E : Z) : Prop := emin <= E /\ (0 < M -> fexp (Zdigits2 M + E) = E).

Lemma pow_prec_pos : 0 < 2 ^ (prec - 1) /\ 2 ^ prec = 2 * 2 ^ (prec - 1).
Proof.
  split; [apply Z.pow_pos_nonneg; lia|].
  replace prec with (prec - 1 + 1) at 1 by lia. rewrite Z.pow_add_r by lia. lia.
Qed.

(** The mantissa of the first shift. *)
Lemma shifted_mantissa m e :
  0 <= m -> e <= fexp (Zdigits2 m + e) ->
  let n := fexp (Zdigits2 m + e) - e in
  0 <= m / 2 ^ n < 2 ^ prec /\ (emin < fexp (Zdigits2 m + e) -> 2 ^ (prec - 1) <= m / 2 ^ n).
Proof.
  intros Hm0 He n. pose proof pow_prec_pos.
  destruct (decide (m = 0)) as [->|]; [rewrite Z.div_0_l by (apply Z.pow_nonzero; lia);
    unfold SpecFloat.fexp in *; cbn [Zdigits2] in *; lia|].
  assert (0 < m) as Hm by lia. destruct (Zdigits2_bounds m Hm) as [Hl Hu].
  assert (1 <= Zdigits2 m) as Hd by (destruct m; unfold Zdigits2; lia).
  assert (0 <= n) as Hn by (unfold n; lia).
  assert (Zdigits2 m - prec <= n) as Hn' by (unfold n, SpecFloat.fexp; lia).
  split; [split|].
  - apply Z.div_pos; [lia|]. apply Z.pow_pos_nonneg; lia.
  - apply Z.div_lt_upper_bound; [apply Z.pow_pos_nonneg; lia|].
    rewrite <- Z.pow_add_r by lia.
    assert (2 ^ Zdigits2 m <= 2 ^ (n + prec)) by (apply Z.pow_le_mono_r; lia). lia.
  - intros Hmin. assert (n = Zdigits2 m - prec) as -> by (unfold n, SpecFloat.fexp in *; lia).
    apply Z.div_le_lower_bound; [apply Z.pow_pos_nonneg; lia|].
    rewrite <- Z.pow_add_r by lia. replace (Zdigits2 m - prec + (prec - 1)) with (Zdigits2 m - 1) by lia. done.
Qed.

(** Rounding the mantissa to a neighbour keeps representable numbers on their side. *)
Lemma near_mantissa b m1 m2 e1 y :
  0 <= m1 -> emin <= e1 -> (emin < e1 -> 2 ^ (prec - 1) <= m1) ->
  located b m1 e1 y -> (m2 = m1 \/ m2 = m1 + 1) -> (b = false -> m2 = m1) ->
  near y (IZR m2 * bp e1).
Proof.
  intros Hm1 He1 Hbig Hl Hm2 Hex. pose proof (bp_pos e1) as Hp. pose proof pow_prec_pos as [Hpp Hpe].
  assert (forall z, repr z -> (exists k, z = (IZR k * bp e1)%R) \/ (z <= IZR m1 * bp e1)%R) as Hgrid.
  { intros z (M & E & -> & HM & HE). destruct (decide (e1 <= E)) as [Hle|Hgt].
    - left. eexists. by apply bp_grid.
    - right. assert (2 ^ (prec - 1) <= m1) by (apply Hbig; lia).
      assert (IZR M * bp E <= IZR (2 ^ (prec - 1)) * bp (E + 1))%R.
      { rewrite bp_succ. assert (IZR M <= 2 * IZR (2 ^ (prec - 1)))%R.
        { rewrite <- mult_IZR. apply IZR_le. lia. }
        pose proof (bp_pos E). nra. }
      assert (bp (E + 1) <= bp e1)%R by (apply bp_le; lia).
      assert (IZR (2 ^ (prec - 1)) <= IZR m1)%R by (by apply IZR_le).
      assert (0 < IZR (2 ^ (prec - 1)))%R by (apply IZR_lt; lia). pose proof (bp_pos (E + 1)). nra. }
  assert (IZR m1 * bp e1 <= IZR m2 * bp e1)%R as Hle.
  { apply Rmult_le_compat_r; [lra|]. apply IZR_le. lia. }
  split; intros z Hz Hy.
  - destruct b; [|rewrite (Hex eq_refl); unfold located in Hl; lra].
    unfold located in Hl. destruct (Hgrid z Hz) as [[k ->]|H]; [|lra].
    apply Rmult_le_compat_r; [lra|]. apply IZR_le.
    assert (IZR m1 < IZR k)%R as Hk%lt_IZR by nra. lia.
  - destruct (Hgrid z Hz) as [[k ->]|H]; [|lra].
    destruct b; [|rewrite (Hex eq_refl); unfold located in Hl; lra].
    unfold located in Hl. apply Rmult_le_compat_r; [lra|]. apply IZR_le.
    assert (IZR k < IZR (m1 + 1))%R as Hk%lt_IZR by nra. lia.
Qed.

Definition packed (s : bool) (M E : Z) : float :=
  match M with
  | Z0 => S754_zero s
  | Zpos m => if E <=? emax - prec then S754_finite s m E else S754_infinity s
  | Zneg _ => S754_nan
  end.

(** The second shift only renormalises a mantissa that was rounded up to [2 ^ prec]. *)
Lemma renormalise s m2 e1 :
  0 <= m2 <= 2 ^ prec -> emin <= e1 -> (emin < e1 -> 2 ^ (prec - 1) <= m2) ->
  exists M E, canonical M E /\ 0 <= M < 2 ^ prec /\ (IZR M * bp E = IZR m2 * bp e1)%R
    /\ (let '(mrs, e'') := shr_fexp prec emax m2 e1 loc_Exact in
        match shr_m mrs with
        | Z0 => S754_zero s
        | Zpos m => if e'' <=? emax - prec then S754_finite s m e'' else S754_infinity s
        | _ => S754_nan
        end) = packed s M E.
Proof.
  intros Hm2 He1 Hbig. pose proof pow_prec_pos as [Hpp Hpe].
  destruct (decide (m2 = 2 ^ prec)) as [->|Hne].
  - assert (Zdigits2 (2 ^ prec) = prec + 1) as Hd.
    { apply Zdigits2_eq; [|lia]. replace (prec + 1 - 1) with prec by lia.
      rewrite (Z.pow_add_r 2 prec 1) by lia. lia. }
    exists (2 ^ (prec - 1)), (e1 + 1).
    assert (Zdigits2 (2 ^ (prec - 1)) = prec) as Hd'.
    { apply Zdigits2_eq; [|lia]. lia. }
    unfold canonical. split_and!; [lia|intros _; rewrite Hd'; unfold SpecFloat.fexp; lia|lia|lia| |].
    + rewrite bp_succ, Hpe, mult_IZR. lra.
    + unfold shr_fexp. rewrite Hd. replace (fexp (prec + 1 + e1) - e1) with 1 by (unfold SpecFloat.fexp; lia).
      cbn [shr SpecFloat.iter_pos]. rewrite Hpe.
      destruct (2 ^ (prec - 1)) as [|p|p]; try lia. done.
  - exists m2, e1.
    assert (0 < m2 -> Zdigits2 m2 <= prec) as Hd by (intros; apply Zdigits2_le; lia).
    assert (0 < m2 -> fexp (Zdigits2 m2 + e1) = e1) as Hf.
    { intros H0. specialize (Hd H0). unfold SpecFloat.fexp in *.
      destruct (decide (e1 = emin)); [lia|].
      assert (prec <= Zdigits2 m2) by (apply Zdigits2_ge; [lia|apply Hbig; lia]). lia. }
    unfold canonical. split_and!; [lia|done|lia|lia|done|].
    unfold shr_fexp. assert (fexp (Zdigits2 m2 + e1) - e1 <= 0) as Hn.
    { destruct (decide (0 < m2)); [rewrite Hf by done; lia|].
      assert (m2 = 0) as -> by lia. cbn [Zdigits2]. unfold SpecFloat.fexp. lia. }
    destruct (fexp (Zdigits2 m2 + e1) - e1); [| lia |]; cbn [shr shr_record_of_loc shr_m]; by destruct m2.
Qed.

Lemma round_aux_spec s m e l y :
  0 <= m -> e <= fexp (Zdigits2 m + e) -> located (is_inexact l) m e y ->
  exists M E, canonical M E /\ 0 <= M < 2 ^ prec /\ near y (IZR M * bp E)
    /\ binary_round_aux prec emax s m e l = packed s M E.
Proof.
  intros Hm He Hl. destruct (rest_of_loc m l) as [Hr Hsm].
  pose proof (shifted_mantissa m e Hm He) as [Hr1 Hbig].
  destruct (shr_spec (shr_record_of_loc m l) e (fexp (Zdigits2 m + e) - e) y) as (mrs & Hshr & Hm1 & Hl1).
  { by rewrite Hsm. } { by rewrite Hr, Hsm. } { lia. }
  rewrite Hsm in Hm1. rewrite <- Hm1 in Hr1, Hbig.
  replace (e + (fexp (Zdigits2 m + e) - e)) with (fexp (Zdigits2 m + e)) in * by lia.
  set (e1 := fexp (Zdigits2 m + e)) in *.
  assert (emin <= e1) as He1 by (unfold e1, SpecFloat.fexp; lia).
  pose proof (round_nearest_even_spec mrs) as [Hm2 Hex].
  pose proof (near_mantissa _ _ _ e1 y (proj1 Hr1) He1 Hbig Hl1 Hm2 Hex) as Hnear.
  unfold binary_round_aux. unfold shr_fexp at 1. fold e1. rewrite Hshr.
  set (m2 := round_nearest_even (shr_m mrs) (loc_of_shr_record mrs)) in *.
  destruct (renormalise s m2 e1) as (M & E & Hc & HM & Hv & Heq); [lia|done|intros; specialize (Hbig H); lia|].
  exists M, E. rewrite Hv. done.
Qed.

Definition maxval : R := (IZR (2 ^ prec - 1) * bp (emax - prec))%R.

Lemma repr_opp z : repr z -> repr (- z).
Proof.
  intros (M & E & -> & HM & HE). exists (- M), E. rewrite opp_IZR. split_and!; [lra|lia|done].
Qed.

Lemma near_opp y r : near y r -> near (- y) (- r).
Proof.
  intros [H1 H2]. split; intros z Hz Hy; pose proof (repr_opp z Hz) as Hz'.
  - assert (- z <= r)%R; [apply H2; [done|lra]|lra].
  - assert (r <= - z)%R; [apply H1; [done|lra]|lra].
Qed.

Lemma repr_maxval : repr maxval.
Proof.
  exists (2 ^ prec - 1), (emax - prec). pose proof pow_prec_pos. split_and!; [done|lia|unfold SpecFloat.emin; lia].
Qed.

(** A canonical number below [maxval] does not overflow. *)
Lemma canonical_bounded M E :
  canonical M E -> 0 < M -> (IZR M * bp E <= maxval)%R -> E <= emax - prec.
Proof.
  intros [HE Hc] HM Hle. specialize (Hc HM). pose proof pow_prec_pos as [Hpp Hpe].
  destruct (decide (E <= emax - prec)) as [|Hgt]; [done|exfalso].
  assert (Zdigits2 M = prec) as Hd by (unfold SpecFloat.fexp, SpecFloat.emin in *; lia).
  pose proof (Zdigits2_bounds M HM) as [Hl _]. rewrite Hd in Hl.
  assert (bp (emax - prec + 1) <= bp E)%R as Hb by (apply bp_le; lia). rewrite bp_succ in Hb.
  pose proof (bp_pos (emax - prec)). apply IZR_le in Hl.
  assert (0 < IZR (2 ^ (prec - 1)))%R by (apply IZR_lt; lia).
  unfold maxval in Hle. rewrite Hpe, minus_IZR, mult_IZR in Hle. nra.
Qed.

Lemma packed_rounds (s : bool) M E y :
  canonical M E -> 0 <= M < 2 ^ prec -> near y (IZR M * bp E) -> (y <= maxval)%R ->
  rounds (if s then - y else y)%R (packed s M E).
Proof.
  intros Hc HM Hn Hy. destruct M as [|m|m]; [| |lia]; cbn [packed].
  - split; [done|]. cbn [val]. rewrite Rmult_0_l in Hn.
    destruct s; [|done]. rewrite <- Ropp_0. by apply near_opp.
  - assert (E <= emax - prec) as HE.
    { apply (canonical_bounded (Zpos m)); [done|lia|]. apply Hn; [apply repr_maxval|done]. }
    rewrite (proj2 (Z.leb_le _ _) HE). destruct Hc as [_ Hc]. split.
    + split; [|done]. cbn. unfold bounded, canonical_mantissa.
      rewrite (proj2 (Z.leb_le _ _) HE), andb_true_r. apply Z.eqb_eq, Hc. lia.
    + cbn [val]. destruct s; [|done]. rewrite Ropp_mult_distr_l_reverse. by apply near_opp.
Qed.

Lemma iter_xO m d : Zpos (Pos.iter xO m d) = Zpos m * 2 ^ Zpos d.
Proof.
  induction d as [|d IH] using Pos.peano_ind; [cbn; lia|].
  rewrite Pos.iter_succ, Pos2Z.inj_xO, IH, Pos2Z.inj_succ, Z.pow_succ_r by lia. lia.
Qed.

Lemma Zdigits2_shift m k : 0 < m -> 0 <= k -> Zdigits2 (m * 2 ^ k) = Zdigits2 m + k.
Proof.
  intros Hm Hk. pose proof (Zdigits2_bounds m Hm) as [Hl Hu].
  assert (1 <= Zdigits2 m) as Hd by (destruct m; unfold Zdigits2; lia).
  assert (0 < 2 ^ k) by (apply Z.pow_pos_nonneg; lia).
  apply Zdigits2_eq; [|nia].
  replace (Zdigits2 m + k - 1) with (Zdigits2 m - 1 + k) by lia. rewrite !Z.pow_add_r by lia. nia.
Qed.

Lemma shl_align_spec m e e' :
  exists mz ez, shl_align m e e' = (mz, ez) /\ ez = Z.min e e'
    /\ (IZR (Zpos mz) * bp ez = IZR (Zpos m) * bp e)%R /\ Zpos (digits2_pos mz) + ez = Zpos (digits2_pos m) + e.
Proof.
  unfold shl_align. destruct (e' - e) as [|d|d] eqn:Hd.
  - exists m, e. split_and!; [done|lia|done|done].
  - exists m, e. split_and!; [done|lia|done|done].
  - eexists _, e'. split_and!; [done|lia| |].
    + rewrite iter_xO, (bp_grid (Zpos m) e e') by lia. by replace (e - e') with (Zpos d) by lia.
    + pose proof (Zdigits2_shift (Zpos m) (Zpos d) ltac:(lia) ltac:(lia)) as H.
      rewrite <- iter_xO in H. unfold Zdigits2 in H. lia.
Qed.

Lemma binary_round_rounds (s : bool) m e :
  (IZR (Zpos m) * bp e <= maxval)%R ->
  rounds (if s then - (IZR (Zpos m) * bp e) else IZR (Zpos m) * bp e)%R (binary_round prec emax s m e).
Proof.
  intros Hy. unfold binary_round.
  destruct (shl_align_spec m e (fexp (Zpos (digits2_pos m) + e))) as (mz & ez & -> & Hez & Hv & Hd).
  destruct (round_aux_spec s (Zpos mz) ez loc_Exact (IZR (Zpos m) * bp e)) as (M & E & Hc & HM & Hn & ->).
  { lia. } { unfold Zdigits2. rewrite Hd. lia. } { cbn. by rewrite Hv. }
  by apply packed_rounds.
Qed.

Lemma binary_normalize_rounds m e s :
  (Rabs (IZR m * bp e) <= maxval)%R -> rounds (IZR m * bp e) (binary_normalize prec emax m e s).
Proof.
  intros Hy. pose proof (bp_pos e). destruct m as [|m|m]; cbn [binary_normalize].
  - rewrite Rmult_0_l. split; [done|]. split; intros z Hz Hz'; cbn [val]; lra.
  - apply (binary_round_rounds false). rewrite Rabs_right in Hy; [done|].
    assert (0 < IZR (Zpos m))%R by (apply IZR_lt; lia). nra.
  - pose proof (binary_round_rounds true m e) as Hr. cbn in Hr.
    replace (IZR (Zneg m)) with (- IZR (Zpos m))%R in * by (rewrite <- opp_IZR; done).
    replace (- IZR (Zpos m) * bp e)%R with (- (IZR (Zpos m) * bp e))%R in * by lra.
    apply Hr. rewrite Rabs_Ropp, Rabs_right in Hy; [done|].
    assert (0 < IZR (Zpos m))%R by (apply IZR_lt; lia). nra.
Qed.

(** ** Operations *)

Lemma valid_finite s m e : valid (S754_finite s m e) -> fexp (Zpos (digits2_pos m) + e) = e /\ e <= emax - prec.
Proof.
  intros [H _]. cbn in H. unfold bounded, canonical_mantissa in H.
  apply andb_prop in H as [H1%Z.eqb_eq H2%Z.leb_le]. done.
Qed.

Lemma valid_repr x : valid x -> repr (val x).
Proof.
  pose proof pow_prec_pos.
  destruct x as [s|s| |s m e]; intros Hx; try (exists 0, emin; split_and!; [cbn; lra|lia|lia]).
  apply valid_finite in Hx as [Hx _].
  assert (Zpos (digits2_pos m) <= prec) by (unfold SpecFloat.fexp in Hx; lia).
  pose proof (Zdigits2_bounds (Zpos m) ltac:(lia)) as [_ Hu]. unfold Zdigits2 in Hu.
  assert (2 ^ Zpos (digits2_pos m) <= 2 ^ prec) by (apply Z.pow_le_mono_r; lia).
  exists (if s then - Zpos m else Zpos m), e. split_and!; [| |unfold SpecFloat.fexp in Hx; lia].
  - cbn [val]. destruct s; rewrite ?opp_IZR; done.
  - destruct s; lia.
Qed.

(** A representable number rounds to itself, and rounding is monotone towards one. *)
Lemma rounds_exact y r : rounds y r -> repr y -> val r = y.
Proof. intros [_ [H1 H2]] Hy. apply Rle_antisym; [apply H1|apply H2]; try done; lra. Qed.

Lemma rounds_le y r z : rounds y r -> repr z -> (y <= z)%R -> (val r <= z)%R.
Proof. intros [_ [H _]]. apply H. Qed.

Lemma rounds_ge y r z : rounds y r -> repr z -> (z <= y)%R -> (z <= val r)%R.
Proof. intros [_ [_ H]]. apply H. Qed.

Lemma rounds_valid y r : rounds y r -> valid r.
Proof. by intros [H _]. Qed.

Lemma rounds_val x : valid x -> rounds (val x) x.
Proof. intros H. split; [done|]. split; intros z _ Hz; done. Qed.

Lemma signed_align s m e ez :
  ez <= e -> (IZR (cond_Zopp s (Zpos (fst (shl_align m e ez)))) * bp ez
              = (if s then - IZR (Zpos m) else IZR (Zpos m)) * bp e)%R.
Proof.
  intros H. destruct (shl_align_spec m e ez) as (mz & e' & -> & -> & Hv & _). cbn [fst].
  replace (Z.min e ez) with ez in Hv by lia. destruct s; cbn [cond_Zopp]; rewrite ?opp_IZR; lra.
Qed.

Lemma SFadd_rounds x y :
  valid x -> valid y -> (Rabs (val x + val y) <= maxval)%R -> rounds (val x + val y) (SFadd prec emax x y).
Proof.
  intros Hx Hy Hb.
  destruct x as [s|s| |s m e], y as [s'|s'| |s' m' e']; try (by destruct Hx); try (by destruct Hy).
  - cbn [val]. rewrite Rplus_0_l. cbn [SFadd]. destruct s, s'; by apply (rounds_val (S754_zero _)).
  - cbn [val]. rewrite Rplus_0_l. by apply (rounds_val (S754_finite s' m' e')).
  - cbn [val]. rewrite Rplus_0_r. by apply (rounds_val (S754_finite s m e)).
  - cbn [SFadd].
    assert (val (S754_finite s m e) + val (S754_finite s' m' e')
            = IZR (cond_Zopp s (Zpos (fst (shl_align m e (Z.min e e'))))
                   + cond_Zopp s' (Zpos (fst (shl_align m' e' (Z.min e e'))))) * bp (Z.min e e'))%R as Heq.
    { rewrite plus_IZR, Rmult_plus_distr_r, !signed_align by lia. done. }
    rewrite Heq in *. by apply binary_normalize_rounds.
Qed.

Lemma SFsub_opp x y : valid x -> valid y ->
  (exists s s', x = S754_zero s /\ y = S754_zero s' /\ exists s'', SFsub prec emax x y = S754_zero s'')
  \/ SFsub prec emax x y = SFadd prec emax x (SFopp y).
Proof.
  intros Hx Hy.
  destruct x as [s|s| |s m e], y as [s'|s'| |s' m' e']; try (by destruct Hx); try (by destruct Hy);
    try (right; reflexivity).
  - left. exists s, s'. split_and!; [done|done|]. destruct s, s'; eauto.
  - right. cbn [SFsub SFadd SFopp]. f_equal. destruct s, s'; cbn [cond_Zopp negb]; lia.
Qed.

Lemma SFopp_valid y : valid y -> valid (SFopp y) /\ val (SFopp y) = (- val y)%R.
Proof.
  intros Hy. destruct y as [s|s| |s m e]; try (by destruct Hy); cbn [SFopp val].
  - split; [done|lra].
  - split; [done|]. destruct s; cbn [negb]; lra.
Qed.

Lemma SFsub_rounds x y :
  valid x -> valid y -> (Rabs (val x - val y) <= maxval)%R -> rounds (val x - val y) (SFsub prec emax x y).
Proof.
  intros Hx Hy Hb. destruct (SFsub_opp x y Hx Hy) as [(s & s' & -> & -> & s'' & Hs)|Hs]; rewrite Hs.
  - cbn [val]. rewrite Rminus_0_r. by apply (rounds_val (S754_zero s'')).
  - destruct (SFopp_valid y Hy) as [Hv Hval]. unfold Rminus in *. rewrite <- Hval in *. by apply SFadd_rounds.
Qed.

Lemma fexp_mono a b : a <= b -> fexp a <= fexp b.
Proof. unfold SpecFloat.fexp. lia. Qed.

Lemma Zdigits2_mul_ge a b : 0 < a -> 0 < b -> Zdigits2 a + Zdigits2 b - 1 <= Zdigits2 (a * b).
Proof.
  intros Ha Hb. pose proof (Zdigits2_bounds a Ha) as [Hla _]. pose proof (Zdigits2_bounds b Hb) as [Hlb _].
  assert (1 <= Zdigits2 a /\ 1 <= Zdigits2 b) as [Hda Hdb] by (destruct a, b; unfold Zdigits2; lia).
  apply Zdigits2_ge; [nia|].
  replace (Zdigits2 a + Zdigits2 b - 1 - 1) with ((Zdigits2 a - 1) + (Zdigits2 b - 1)) by lia.
  rewrite Z.pow_add_r by lia. assert (0 < 2 ^ (Zdigits2 b - 1)) by (apply Z.pow_pos_nonneg; lia). nia.
Qed.

Lemma Rabs_sign (s : bool) (r : R) : (0 <= r)%R -> Rabs (if s then - r else r) = r.
Proof. intros. destruct s; rewrite ?Rabs_Ropp; apply Rabs_right; lra. Qed.

Lemma SFmul_rounds x y :
  valid x -> valid y -> (Rabs (val x * val y) <= maxval)%R -> rounds (val x * val y) (SFmul prec emax x y).
Proof.
  intros Hx Hy Hb.
  destruct x as [s|s| |s m e], y as [s'|s'| |s' m' e']; try (by destruct Hx); try (by destruct Hy);
    cbn [SFmul]; try (rewrite ?Rmult_0_l, ?Rmult_0_r; cbn [val]; rewrite ?Rmult_0_l, ?Rmult_0_r; by apply (rounds_val (S754_zero _))).
  set (r := (IZR (Zpos m * Zpos m') * bp (e + e'))%R).
  assert (val (S754_finite s m e) * val (S754_finite s' m' e') = if xorb s s' then - r else r)%R as Heq.
  { unfold r. cbn [val]. rewrite mult_IZR, bp_add. destruct s, s'; cbn [xorb]; lra. }
  rewrite Heq in *. assert (0 <= r)%R as Hr.
  { apply Rmult_le_pos; [apply IZR_le; lia|]. pose proof (bp_pos (e + e')). lra. }
  rewrite Rabs_sign in Hb by done.
  apply valid_finite in Hx as [Hx _]. apply valid_finite in Hy as [Hy _].
  pose proof (Zdigits2_mul_ge (Zpos m) (Zpos m') ltac:(lia) ltac:(lia)) as Hd.
  destruct (round_aux_spec (xorb s s') (Zpos (m * m')) (e + e') loc_Exact r) as (M & E & Hc & HM & Hn & ->).
  - lia.
  - change (Zpos (m * m')) with (Zpos m * Zpos m').
    change (Zdigits2 (Zpos m)) with (Zpos (digits2_pos m)) in Hd.
    change (Zdigits2 (Zpos m')) with (Zpos (digits2_pos m')) in Hd.
    unfold SpecFloat.fexp, SpecFloat.emin in *. lia.
  - done.
  - by apply packed_rounds.
Qed.

(** The quotient of the mantissas, at an exponent that leaves enough digits. *)
Lemma SFdiv_core_spec m1 e1 m2 e2 :
  0 < m1 -> 0 < m2 ->
  exists q e l, SFdiv_core_binary prec emax m1 e1 m2 e2 = (q, e, l)
    /\ 0 <= q /\ e <= fexp (Zdigits2 q + e)
    /\ located (is_inexact l) q e (IZR m1 * bp e1 / (IZR m2 * bp e2))%R.
Proof.
  intros H1 H2. unfold SFdiv_core_binary.
  set (e := Z.min (fexp (Zdigits2 m1 + e1 - (Zdigits2 m2 + e2))) (e1 - e2)).
  set (s := e1 - e2 - e). assert (0 <= s) as Hs by (unfold s, e; lia).
  replace (match s with Z0 => m1 | Zpos _ => Z.shiftl m1 s | Zneg _ => 0 end) with (m1 * 2 ^ s)
    by (destruct s; [lia|rewrite Z.shiftl_mul_pow2 by lia; done|lia]).
  pose proof (Z.div_mod (m1 * 2 ^ s) m2 ltac:(lia)) as Hdm.
  pose proof (Z.mod_pos_bound (m1 * 2 ^ s) m2 H2) as Hmod.
  unfold Z.div, Z.modulo in Hdm, Hmod. destruct (Z.div_eucl (m1 * 2 ^ s) m2) as [q r].
  exists q, e, (new_location m2 r).
  assert (0 < 2 ^ s) as Hps by (apply Z.pow_pos_nonneg; lia).
  assert (0 <= q) as Hq by nia.
  split_and!; [done|done| |].
  - assert (Zdigits2 m1 + s - Zdigits2 m2 <= Zdigits2 q) as Hd.
    { destruct (decide (q = 0)) as [->|Hq0].
      - rewrite Z.mul_0_r, Z.add_0_l in Hdm. cbn [Zdigits2].
        rewrite <- Zdigits2_shift by lia. rewrite Hdm.
        assert (Zdigits2 r <= Zdigits2 m2); [|lia].
        pose proof (Zdigits2_bounds m2 H2). apply Zdigits2_le; [lia|destruct m2; unfold Zdigits2; lia|lia].
      - rewrite <- Zdigits2_shift by lia.
        assert (Zdigits2 (m1 * 2 ^ s) <= Zdigits2 q + Zdigits2 m2); [|lia].
        pose proof (Zdigits2_bounds m2 H2) as [_ Hu2]. pose proof (Zdigits2_bounds q ltac:(lia)) as [_ Huq].
        assert (0 <= Zdigits2 q /\ 0 <= Zdigits2 m2) by (destruct q, m2; unfold Zdigits2; lia).
        apply Zdigits2_le; [nia|lia|]. rewrite Z.pow_add_r by lia. nia. }
    pose proof (fexp_mono (Zdigits2 m1 + e1 - (Zdigits2 m2 + e2)) (Zdigits2 q + e)). unfold s, e in *. lia.
  - assert (IZR m1 * bp e1 / (IZR m2 * bp e2) = (IZR q + IZR r / IZR m2) * bp e)%R as ->.
    { assert (bp e1 = bp s * bp e2 * bp e)%R as ->.
      { rewrite <- !bp_add. f_equal. unfold s. lia. }
      assert (IZR m1 * bp s = IZR m2 * IZR q + IZR r)%R as Hz.
      { rewrite (bp_IZR s), <- !mult_IZR, <- plus_IZR by lia. by f_equal. }
      pose proof (bp_pos e2). assert (0 < IZR m2)%R by (by apply IZR_lt).
      replace (IZR m1 * (bp s * bp e2 * bp e))%R with ((IZR m1 * bp s) * (bp e2 * bp e))%R by lra.
      rewrite Hz. field. lra. }
    pose proof (bp_pos e) as Hpe. assert (0 < IZR m2)%R as Hm2 by (by apply IZR_lt).
    assert (is_inexact (new_location m2 r) = negb (r =? 0)) as ->.
    { unfold new_location, new_location_even, new_location_odd. by destruct (Z.even m2), (r =? 0). }
    destruct (Z.eqb_spec r 0) as [->|Hr]; cbn [negb located].
    + unfold Rdiv. rewrite Rmult_0_l, Rplus_0_r. done.
    + rewrite plus_IZR.
      assert (0 < IZR r / IZR m2)%R by (apply Rdiv_lt_0_compat; [apply IZR_lt; lia|done]).
      assert (IZR r / IZR m2 < 1)%R.
      { apply (Rmult_lt_reg_r (IZR m2)); [done|]. unfold Rdiv. rewrite Rmult_assoc, Rinv_l, Rmult_1_r by lra.
        rewrite Rmult_1_l. apply IZR_lt. lia. }
      split; apply Rmult_lt_compat_r; lra.
Qed.

Lemma SFdiv_rounds x y :
  valid x -> valid y -> val y <> 0%R -> (Rabs (val x / val y) <= maxval)%R ->
  rounds (val x / val y) (SFdiv prec emax x y).
Proof.
  intros Hx Hy Hy0 Hb.
  destruct x as [s|s| |s m e], y as [s'|s'| |s' m' e']; try (by destruct Hx); try (by destruct Hy); try done.
  - cbn [val SFdiv]. unfold Rdiv. rewrite Rmult_0_l. by apply (rounds_val (S754_zero _)).
  - cbn [SFdiv]. destruct (SFdiv_core_spec (Zpos m) e (Zpos m') e') as (q & e1 & l & -> & Hq & He & Hl); [lia|lia|].
    set (r := (IZR (Zpos m) * bp e / (IZR (Zpos m') * bp e'))%R) in *.
    pose proof (bp_pos e). pose proof (bp_pos e').
    assert (0 < IZR (Zpos m))%R by (apply IZR_lt; lia). assert (0 < IZR (Zpos m'))%R by (apply IZR_lt; lia).
    assert (val (S754_finite s m e) / val (S754_finite s' m' e') = if xorb s s' then - r else r)%R as Heq.
    { unfold r. cbn [val]. destruct s, s'; cbn [xorb]; field; lra. }
    rewrite Heq in *. assert (0 <= r)%R as Hr.
    { apply Rlt_le, Rdiv_lt_0_compat; apply Rmult_lt_0_compat; lra. }
    rewrite Rabs_sign in Hb by done.
    destruct (round_aux_spec (xorb s s') q e1 l r Hq He Hl) as (M & E & Hc & HM & Hn & ->).
    by apply packed_rounds.
Qed.

(** *** Results are floats of the format, overflow and NaN included *)

Lemma packed_valid (s : bool) M E : canonical M E -> 0 <= M < 2 ^ prec -> valid_binary prec emax (packed s M E) = true.
Proof.
  intros [_ Hc] HM. destruct M as [|m|m]; [done| |lia]. cbn [packed].
  destruct (E <=? emax - prec) eqn:HE; [|done]. cbn. unfold bounded, canonical_mantissa.
  rewrite HE, andb_true_r. apply Z.eqb_eq, Hc. lia.
Qed.

Lemma binary_normalize_valid m e s : valid_binary prec emax (binary_normalize prec emax m e s) = true.
Proof.
  assert (forall (s : bool) p, valid_binary prec emax (binary_round prec emax s p e) = true) as H.
  { intros s' p. unfold binary_round.
    destruct (shl_align_spec p e (fexp (Zpos (digits2_pos p) + e))) as (mz & ez & -> & Hez & Hv & Hd).
    destruct (round_aux_spec s' (Zpos mz) ez loc_Exact (IZR (Zpos p) * bp e)) as (M & E & Hc & HM & _ & ->).
    { lia. } { unfold Zdigits2. rewrite Hd. lia. } { cbn. by rewrite Hv. }
    by apply packed_valid. }
  destruct m; [done|apply H|apply H].
Qed.

Lemma SFmul_valid x y : valid_binary prec emax x = true -> valid_binary prec emax y = true ->
  valid_binary prec emax (SFmul prec emax x y) = true.
Proof.
  intros Hx Hy. destruct x as [s|s| |s m e], y as [s'|s'| |s' m' e']; try done.
  assert (valid (S754_finite s m e)) as [Fx _]%valid_finite by done.
  assert (valid (S754_finite s' m' e')) as [Fy _]%valid_finite by done.
  pose proof (Zdigits2_mul_ge (Zpos m) (Zpos m') ltac:(lia) ltac:(lia)) as Hd. cbn [SFmul].
  destruct (round_aux_spec (xorb s s') (Zpos (m * m')) (e + e') loc_Exact (IZR (Zpos (m * m')) * bp (e + e'))) as (M & E & Hc & HM & _ & ->).
  - lia.
  - change (Zpos (m * m')) with (Zpos m * Zpos m').
    change (Zdigits2 (Zpos m)) with (Zpos (digits2_pos m)) in Hd.
    change (Zdigits2 (Zpos m')) with (Zpos (digits2_pos m')) in Hd.
    unfold SpecFloat.fexp, SpecFloat.emin in *. lia.
  - done.
  - by apply packed_valid.
Qed.

Lemma SFadd_valid x y : valid_binary prec emax x = true -> valid_binary prec emax y = true ->
  valid_binary prec emax (SFadd prec emax x y) = true.
Proof.
  intros Hx Hy. destruct x as [[]|[]| |[] m e], y as [[]|[]| |[] m' e']; try done; apply binary_normalize_valid.
Qed.

Lemma SFdiv_valid x y : valid_binary prec emax x = true -> valid_binary prec emax y = true ->
  valid_binary prec emax (SFdiv prec emax x y) = true.
Proof.
  intros Hx Hy. destruct x as [s|s| |s m e], y as [s'|s'| |s' m' e']; try done.
  cbn [SFdiv]. destruct (SFdiv_core_spec (Zpos m) e (Zpos m') e') as (q & e1 & l & -> & Hq & He & Hl); [lia|lia|].
  destruct (round_aux_spec (xorb s s') q e1 l _ Hq He Hl) as (M & E & Hc & HM & _ & ->). by apply packed_valid.
Qed.

(** ** Comparison *)

Lemma canonical_lt m e m' e' :
  fexp (Zpos (digits2_pos m) + e) = e -> fexp (Zpos (digits2_pos m') + e') = e' -> e < e' ->
  (IZR (Zpos m) * bp e < IZR (Zpos m') * bp e')%R.
Proof.
  intros H H' Hlt. pose proof pow_prec_pos as [Hpp Hpe].
  pose proof (Zdigits2_bounds (Zpos m) ltac:(lia)) as [_ Hu].
  pose proof (Zdigits2_bounds (Zpos m') ltac:(lia)) as [Hl _]. unfold Zdigits2 in Hu, Hl.
  assert (Zpos (digits2_pos m') = prec) as Hd by (unfold SpecFloat.fexp in *; lia). rewrite Hd in Hl.
  assert (2 ^ Zpos (digits2_pos m) <= 2 ^ prec) by (apply Z.pow_le_mono_r; unfold SpecFloat.fexp in *; lia).
  assert (bp (e + 1) <= bp e')%R as Hb by (apply bp_le; lia). rewrite bp_succ in Hb.
  pose proof (bp_pos e). assert (IZR (Zpos m) < 2 * IZR (2 ^ (prec - 1)))%R.
  { rewrite <- mult_IZR. apply IZR_lt. lia. }
  assert (IZR (2 ^ (prec - 1)) <= IZR (Zpos m'))%R by (by apply IZR_le).
  assert (0 < IZR (2 ^ (prec - 1)))%R by (apply IZR_lt; lia). nra.
Qed.

Definition Rrel (c : comparison) (a b : R) : Prop :=
  match c with Lt => (a < b)%R | Eq => a = b | Gt => (b < a)%R end.

Lemma compare_positive m e m' e' :
  fexp (Zpos (digits2_pos m) + e) = e -> fexp (Zpos (digits2_pos m') + e') = e' ->
  Rrel (match e ?= e' with Lt => Lt | Gt => Gt | Eq => Pos.compare_cont Eq m m' end)
       (IZR (Zpos m) * bp e) (IZR (Zpos m') * bp e').
Proof.
  intros H H'. pose proof (bp_pos e). destruct (Z.compare_spec e e') as [<-|Hlt|Hgt].
  - change (Pos.compare_cont Eq m m') with (Pos.compare m m').
    destruct (Pos.compare_spec m m') as [<-|Hm|Hm]; cbn [Rrel]; [done| |];
      apply Rmult_lt_compat_r; try done; apply IZR_lt; lia.
  - by apply canonical_lt.
  - by apply canonical_lt.
Qed.

Lemma SFcompare_rel x y : valid x -> valid y -> exists c, SFcompare x y = Some c /\ Rrel c (val x) (val y).
Proof.
  intros Hx Hy.
  destruct x as [s|s| |s m e], y as [s'|s'| |s' m' e']; try (by destruct Hx); try (by destruct Hy);
    cbn [SFcompare]; eexists; (split; [reflexivity|]).
  - done.
  - pose proof (bp_pos e'). assert (0 < IZR (Zpos m'))%R by (apply IZR_lt; lia). destruct s'; cbn; nra.
  - pose proof (bp_pos e). assert (0 < IZR (Zpos m))%R by (apply IZR_lt; lia). destruct s; cbn; nra.
  - apply valid_finite in Hx as [Hx _]. apply valid_finite in Hy as [Hy _].
    pose proof (compare_positive m e m' e' Hx Hy) as Hc.
    pose proof (bp_pos e). assert (0 < IZR (Zpos m))%R by (apply IZR_lt; lia).
    pose proof (bp_pos e'). assert (0 < IZR (Zpos m'))%R by (apply IZR_lt; lia).
    destruct s, s'; cbn [val]; [|cbn; nra|cbn; nra|exact Hc].
    destruct (e ?= e'); [destruct (Pos.compare_cont Eq m m')| |]; cbn in *; lra.
Qed.

Lemma flt_spec x y : valid x -> valid y -> flt x y = true <-> (val x < val y)%R.
Proof.
  intros Hx Hy. destruct (SFcompare_rel x y Hx Hy) as (c & Hc & Hr). unfold flt, SFltb. rewrite Hc.
  destruct c; cbn in Hr; split; try done; lra.
Qed.

Lemma fle_spec x y : valid x -> valid y -> fle x y = true <-> (val x <= val y)%R.
Proof.
  intros Hx Hy. destruct (SFcompare_rel x y Hx Hy) as (c & Hc & Hr). unfold fle, SFleb. rewrite Hc.
  destruct c; cbn in Hr; split; try done; lra.
Qed.

Lemma flt_spec_false x y : valid x -> valid y -> flt x y = false <-> (val y <= val x)%R.
Proof.
  intros Hx Hy. rewrite <- not_true_iff_false, flt_spec by done. split; intros H; lra.
Qed.

(** ** Integers *)

Lemma repr_IZR n : Z.abs n <= 2 ^ prec -> repr (IZR n).
Proof.
  intros H. exists n, 0. split_and!; [rewrite (bp_IZR 0) by lia; change (2 ^ 0) with 1; lra|done|].
  unfold SpecFloat.emin. lia.
Qed.

Lemma IZR_le_maxval n : Z.abs n < 2 ^ prec -> (Rabs (IZR n) <= maxval)%R.
Proof.
  intros H. rewrite <- abs_IZR. unfold maxval. pose proof pow_prec_pos.
  assert (bp 0 <= bp (emax - prec))%R as Hb by (apply bp_le; lia).
  rewrite (bp_IZR 0) in Hb by lia. change (2 ^ 0) with 1 in Hb.
  assert (IZR (Z.abs n) <= IZR (2 ^ prec - 1))%R by (apply IZR_le; lia).
  assert (0 <= IZR (2 ^ prec - 1))%R by (apply IZR_le; lia). nra.
Qed.

Lemma of_Z_exact n : Z.abs n < 2 ^ prec ->
  valid (binary_normalize prec emax n 0 false) /\ val (binary_normalize prec emax n 0 false) = IZR n.
Proof.
  intros H. assert (IZR n * bp 0 = IZR n)%R as Hn by (rewrite (bp_IZR 0) by lia; change (2 ^ 0) with 1; lra).
  assert (rounds (IZR n * bp 0) (binary_normalize prec emax n 0 false)) as Hr.
  { apply binary_normalize_rounds. rewrite Hn. by apply IZR_le_maxval. }
  rewrite Hn in Hr. split; [by eapply rounds_valid|]. apply (rounds_exact _ _ Hr), repr_IZR. lia.
Qed.

End Format.

(** Truncation towards zero. *)
Lemma trunc_positive m e :
  let a := if 0 <=? e then Z.shiftl (Zpos m) e else Z.shiftr (Zpos m) (- e) in
  (IZR a <= IZR (Zpos m) * bp e < IZR (a + 1))%R.
Proof.
  cbn zeta. destruct (Z.leb_spec 0 e) as [He|He].
  - rewrite Z.shiftl_mul_pow2, plus_IZR, mult_IZR, (bp_IZR e) by lia. lra.
  - rewrite Z.shiftr_div_pow2 by lia.
    assert (bp e * IZR (2 ^ (- e)) = 1)%R as Hi.
    { rewrite <- bp_IZR, <- bp_add by lia. replace (e + - e) with 0 by lia. by rewrite (bp_IZR 0). }
    assert (0 < 2 ^ (- e)) as Hp by (apply Z.pow_pos_nonneg; lia).
    pose proof (Z.div_mod (Zpos m) (2 ^ (- e)) ltac:(lia)) as Hd.
    pose proof (Z.mod_pos_bound (Zpos m) (2 ^ (- e)) Hp) as Hm.
    set (q := Zpos m / 2 ^ (- e)) in *. set (r := Zpos m `mod` 2 ^ (- e)) in *.
    rewrite Hd, plus_IZR, mult_IZR, plus_IZR. pose proof (bp_pos e).
    assert (0 <= IZR r < IZR (2 ^ (- e)))%R by (split; [apply IZR_le|apply IZR_lt]; lia).
    replace ((IZR (2 ^ (- e)) * IZR q + IZR r) * bp e)%R with (IZR q * (bp e * IZR (2 ^ (- e))) + IZR r * bp e)%R by lra.
    rewrite Hi. split; nra.
Qed.

Lemma trunc_spec x : (0 <= val x)%R -> (IZR (trunc x) <= val x < IZR (trunc x + 1))%R.
Proof.
  destruct x as [s|s| |s m e]; cbn [val trunc]; try (intros; rewrite Z.add_0_l; lra).
  intros Hv. pose proof (bp_pos e). assert (0 < IZR (Zpos m))%R by (apply IZR_lt; lia).
  destruct s; [exfalso; nra|]. apply trunc_positive.
Qed.

Lemma trunc_le x n : (0 <= val x)%R -> (val x <= IZR n)%R -> trunc x <= n.
Proof. intros H0 H. apply le_IZR. pose proof (trunc_spec x H0). lra. Qed.

Lemma trunc_ge x n : (0 <= val x)%R -> (IZR n <= val x)%R -> n <= trunc x.
Proof.
  intros H0 H. pose proof (trunc_spec x H0). apply Z.lt_succ_r, lt_IZR. unfold Z.succ. lra.
Qed.

Lemma Rabs_bounds x a : (Rabs x <= a)%R <-> (- a <= x <= a)%R.
Proof. unfold Rabs. destruct (Rcase_abs x); split; intros; lra. Qed.

(** ** binary64 *)

Abbreviation valid64 := (valid 53 1024).
Abbreviation repr64 := (repr 53 1024).
Abbreviation rounds64 := (rounds 53 1024).

(** A binary64 number, NaN and infinities included. *)
Definition number (x : float) : Prop := valid_binary 53 1024 x = true.

Lemma of_Z64_number n : number (of_Z64 n).
Proof. apply (binary_normalize_valid 53 1024 eq_refl). Qed.
Lemma mul_number x y : number x -> number y -> number (x * y)%f64.
Proof. apply (SFmul_valid 53 1024 eq_refl eq_refl). Qed.
Lemma add_number x y : number x -> number y -> number (x + y)%f64.
Proof. apply (SFadd_valid 53 1024 eq_refl). Qed.
Lemma div_number x y : number x -> number y -> number (x / y)%f64.
Proof. apply (SFdiv_valid 53 1024 eq_refl). Qed.

Definition add64 := SFadd_rounds 53 1024 eq_refl eq_refl.
Definition sub64 := SFsub_rounds 53 1024 eq_refl eq_refl.
Definition mul64 := SFmul_rounds 53 1024 eq_refl eq_refl.
Definition div64 := SFdiv_rounds 53 1024 eq_refl eq_refl.
Definition flt64 := flt_spec 53 1024 eq_refl.
Definition fle64 := fle_spec 53 1024 eq_refl.
Definition flt64_false := flt_spec_false 53 1024 eq_refl.
Definition repr_int64 := repr_IZR 53 1024 eq_refl eq_refl.
Definition repr_val64 := valid_repr 53 1024 eq_refl.

(** Numbers this small do not overflow. *)
Lemma small64 r : (Rabs r <= IZR (2 ^ 64))%R -> (Rabs r <= maxval 53 1024)%R.
Proof.
  intros H. unfold maxval. assert (bp 64 <= bp (1024 - 53))%R as Hb by (apply bp_le; lia).
  rewrite (bp_IZR 64) in Hb by lia. assert (1 <= IZR (2 ^ 53 - 1))%R by (apply IZR_le; lia).
  assert (0 <= IZR (2 ^ 64))%R by (apply IZR_le; lia). nra.
Qed.

Lemma of_Z64_exact n : Z.abs n < 2 ^ 53 -> valid64 (of_Z64 n) /\ val (of_Z64 n) = IZR n.
Proof. apply (of_Z_exact 53 1024 eq_refl eq_refl). Qed.

Lemma math_Max_spec x y : valid64 x -> valid64 y -> valid64 (math_Max x y) /\ val (math_Max x y) = Rmax (val x) (val y).
Proof.
  intros Hx Hy. pose proof (flt64 y x Hy Hx) as Hlt. pose proof (flt64_false y x Hy Hx) as Hge.
  assert (valid64 (if flt y x then x else y) /\ val (if flt y x then x else y) = Rmax (val x) (val y)) as Hif.
  { destruct (flt y x).
    - split; [done|]. symmetry. apply Rmax_left. apply Rlt_le. by apply Hlt.
    - split; [done|]. symmetry. apply Rmax_right. by apply Hge. }
  destruct x as [s|s| |s m e], y as [s'|s'| |s' m' e']; try (by destruct Hx); try (by destruct Hy); cbn [math_Max];
    try exact Hif.
  - cbn [val]. rewrite Rmax_left by lra. by destruct s, s'.
  - by destruct s.
Qed.

Lemma math_Min_spec x y : valid64 x -> valid64 y -> valid64 (math_Min x y) /\ val (math_Min x y) = Rmin (val x) (val y).
Proof.
  intros Hx Hy. pose proof (flt64 x y Hx Hy) as Hlt. pose proof (flt64_false x y Hx Hy) as Hge.
  assert (valid64 (if flt x y then x else y) /\ val (if flt x y then x else y) = Rmin (val x) (val y)) as Hif.
  { destruct (flt x y).
    - split; [done|]. symmetry. apply Rmin_left. apply Rlt_le. by apply Hlt.
    - split; [done|]. symmetry. apply Rmin_right. by apply Hge. }
  destruct x as [s|s| |s m e], y as [s'|s'| |s' m' e']; try (by destruct Hx); try (by destruct Hy); cbn [math_Min];
    try exact Hif.
  - cbn [val]. rewrite Rmin_left by lra. by destruct s, s'.
  - by destruct s.
Qed.

(** The integer next to a number below one half of the mantissa's range. *)
Lemma nearest_integer m e :
  e < 0 -> Zpos m < 2 ^ 53 ->
  let r := Z.shiftr (2 * Zpos m + Z.shiftl 1 (- e)) (1 - e) in
  0 <= r < 2 ^ 53 /\ (Rabs (IZR r - IZR (Zpos m) * bp e) <= / 2)%R
  /\ forall k, ((IZR (Zpos m) * bp e <= IZR k)%R -> r <= k) /\ ((IZR k <= IZR (Zpos m) * bp e)%R -> k <= r).
Proof.
  intros He Hm r. set (D := 2 ^ (- e)).
  assert (0 < D) as HD by (apply Z.pow_pos_nonneg; lia).
  assert (2 <= D) as HD2.
  { unfold D. change 2 with (2 ^ 1) at 1. apply Z.pow_le_mono_r; lia. }
  assert (r = (2 * Zpos m + D) / (2 * D)) as Hr.
  { unfold r. rewrite Z.shiftr_div_pow2, Z.shiftl_mul_pow2, Z.mul_1_l by lia. f_equal.
    unfold D. rewrite <- Z.pow_succ_r by lia. f_equal. lia. }
  assert (bp e * IZR D = 1)%R as Hi.
  { unfold D. rewrite <- bp_IZR, <- bp_add by lia. replace (e + - e) with 0 by lia. by rewrite (bp_IZR 0). }
  pose proof (bp_pos e) as Hp. split.
  { rewrite Hr. split; [apply Z.div_pos; lia|]. apply Z.div_lt_upper_bound; nia. }
  split.
  - pose proof (Z.div_mod (2 * Zpos m + D) (2 * D) ltac:(lia)) as Hdm. rewrite <- Hr in Hdm.
    pose proof (Z.mod_pos_bound (2 * Zpos m + D) (2 * D) ltac:(lia)) as Hmod.
    set (w := (2 * Zpos m + D) `mod` (2 * D)) in *. assert (2 * D * r = 2 * Zpos m + D - w) as Hw by lia.
    apply (f_equal IZR) in Hw. rewrite minus_IZR, plus_IZR, !mult_IZR in Hw.
    assert (0 <= IZR w <= 2 * IZR D)%R as Hwb by (rewrite <- mult_IZR; split; apply IZR_le; lia).
    assert (0 < IZR D)%R by (by apply IZR_lt).
    assert (IZR r = IZR (Zpos m) * bp e + / 2 - IZR w * bp e / 2)%R as ->.
    { apply (Rmult_eq_reg_l (2 * IZR D)); [|lra]. rewrite Hw.
      replace (2 * IZR D * (IZR (Zpos m) * bp e + / 2 - IZR w * bp e / 2))%R
        with (2 * IZR (Zpos m) * (bp e * IZR D) + IZR D - IZR w * (bp e * IZR D))%R by field.
      rewrite Hi. lra. }
    assert (0 <= IZR w * bp e <= 2)%R.
    { split; [nra|]. replace 2%R with (2 * (bp e * IZR D))%R by lra. nra. }
    apply Rabs_bounds. lra.
  - intros k. split; intros Hk.
    + assert (IZR (Zpos m) <= IZR (k * D))%R as Hk'%le_IZR.
      { rewrite mult_IZR, <- (Rmult_1_r (IZR (Zpos m))), <- Hi, <- Rmult_assoc.
        apply Rmult_le_compat_r; [apply IZR_le; lia|done]. }
      assert (r < k + 1); [|lia]. rewrite Hr. apply Z.div_lt_upper_bound; [lia|].
      replace (2 * D * (k + 1)) with (2 * (k * D) + 2 * D) by ring. lia.
    + assert (IZR (k * D) <= IZR (Zpos m))%R as Hk'%le_IZR.
      { rewrite mult_IZR, <- (Rmult_1_r (IZR (Zpos m))), <- Hi, <- Rmult_assoc.
        apply Rmult_le_compat_r; [apply IZR_le; lia|done]. }
      rewrite Hr. apply Z.div_le_lower_bound; nia.
Qed.

Lemma math_Round_spec x :
  valid64 x ->
  valid64 (math_Round x) /\ (exists n, val (math_Round x) = IZR n) /\ (Rabs (val (math_Round x) - val x) <= / 2)%R
  /\ forall k, ((val x <= IZR k)%R -> (val (math_Round x) <= IZR k)%R)
             /\ ((IZR k <= val x)%R -> (IZR k <= val (math_Round x))%R).
Proof.
  intros Hx. destruct x as [s|s| |s m e]; try (by destruct Hx).
  { cbn [math_Round val]. split_and!; [done|by exists 0|rewrite Rminus_0_r, Rabs_R0; lra|done]. }
  cbn [math_Round]. destruct (Z.leb_spec 0 e) as [He|He].
  { split_and!; [done| |rewrite Rminus_diag, Rabs_R0; lra|done]. cbn [val]. rewrite (bp_IZR e) by done.
    exists ((if s then - Zpos m else Zpos m) * 2 ^ e). rewrite mult_IZR. destruct s; rewrite ?opp_IZR; done. }
  pose proof (valid_finite 53 1024 _ _ _ Hx) as [Hf _].
  assert (Zpos m < 2 ^ 53) as Hm.
  { pose proof (Zdigits2_bounds (Zpos m) ltac:(lia)) as [_ Hu]. unfold Zdigits2 in Hu.
    assert (2 ^ Zpos (digits2_pos m) <= 2 ^ 53); [|lia]. apply Z.pow_le_mono_r; unfold fexp in Hf; lia. }
  destruct (nearest_integer m e He Hm) as (Hr & Hhalf & Hk).
  set (r := Z.shiftr (2 * Zpos m + Z.shiftl 1 (- e)) (1 - e)) in *.
  assert (exists n, (if r =? 0 then S754_zero s else of_Z64 (if s then - r else r)) = n /\ valid64 n
          /\ val n = IZR (if s then - r else r)) as (n & -> & Hv & Hn).
  { destruct (Z.eqb_spec r 0) as [->|]; eexists; (split; [reflexivity|]); [by destruct s|].
    apply of_Z64_exact. destruct s; lia. }
  split_and!; [done|by eexists| |].
  { rewrite Hn. cbn [val]. apply Rabs_bounds in Hhalf. apply Rabs_bounds. destruct s; rewrite ?opp_IZR; lra. }
  intros k. rewrite Hn. cbn [val]. destruct s; [|split; intros; apply IZR_le, Hk; lra].
  split; intros H.
  - assert (- k <= r); [|apply IZR_le; lia]. apply Hk. rewrite opp_IZR. lra.
  - assert (r <= - k); [|apply IZR_le; lia]. apply Hk. rewrite opp_IZR. lra.
Qed.

(** ** Bounded arithmetic *)

(** A number is determined by its value, but for the sign of zero. *)
Lemma valid64_inj x y : valid64 x -> valid64 y -> val x = val y -> val x <> 0%R -> x = y.
Proof.
  intros Hx Hy Heq Hne. destruct (SFcompare_rel 53 1024 eq_refl x y Hx Hy) as (c & Hc & Hr).
  destruct c; cbn in Hr; [|lra|lra]. clear Hr.
  destruct x as [s|s| |s m e], y as [s'|s'| |s' m' e']; try (by destruct Hx); try (by destruct Hy);
    try (exfalso; apply Hne; reflexivity); try (exfalso; apply Hne; rewrite Heq; reflexivity).
  pose proof (bp_pos e). pose proof (bp_pos e'). assert (0 < IZR (Zpos m))%R by (apply IZR_lt; lia).
  assert (0 < IZR (Zpos m'))%R by (apply IZR_lt; lia).
  cbn [SFcompare] in Hc. injection Hc as Hc. destruct s, s'; cbn [val] in Heq; try nra;
    destruct (Z.compare_spec e e') as [->|?|?]; try done; f_equal;
    change (Pos.compare_cont Eq m m') with (Pos.compare m m') in Hc;
    destruct (Pos.compare_spec m m'); done.
Qed.

Lemma valid64_le_maxval x : valid64 x -> (Rabs (val x) <= maxval 53 1024)%R.
Proof.
  intros Hx. pose proof (bp_pos (1024 - 53)) as Hp.
  assert (0 <= maxval 53 1024)%R as H0 by (unfold maxval; apply Rmult_le_pos; [apply IZR_le; lia|lra]).
  destruct x as [s|s| |s m e]; try (cbn; rewrite Rabs_R0; done).
  apply valid_finite in Hx as [Hf He]. unfold fexp in Hf.
  pose proof (Zdigits2_bounds (Zpos m) ltac:(lia)) as [_ Hu]. unfold Zdigits2 in Hu.
  assert (2 ^ Zpos (digits2_pos m) <= 2 ^ 53) by (apply Z.pow_le_mono_r; lia).
  assert (IZR (Zpos m) <= IZR (2 ^ 53 - 1))%R by (apply IZR_le; lia).
  assert (bp e <= bp (1024 - 53))%R by (apply bp_le; lia). pose proof (bp_pos e).
  assert (0 < IZR (Zpos m))%R by (apply IZR_lt; lia).
  assert (Rabs (val (S754_finite s m e)) = IZR (Zpos m) * bp e)%R as ->.
  { cbn [val]. destruct s; [rewrite Rabs_left by nra|rewrite Rabs_right by nra]; lra. }
  unfold maxval. nra.
Qed.

(** Division of non-negative numbers overflows to infinity at worst. *)
Lemma div64_nonneg x y : valid64 x -> valid64 y -> (0 <= val x)%R -> (0 < val y)%R ->
  (valid64 (x / y)%f64 /\ (0 <= val (x / y)%f64)%R) \/ (x / y)%f64 = S754_infinity false.
Proof.
  intros Hx Hy H0 H1.
  destruct x as [s|s| |s m e], y as [s'|s'| |s' m' e']; try (by destruct Hx); try (by destruct Hy);
    try (cbn [val] in H1; lra).
  - left. split; [done|]. cbn. lra.
  - pose proof (bp_pos e). pose proof (bp_pos e').
    assert (0 < IZR (Zpos m))%R by (apply IZR_lt; lia). assert (0 < IZR (Zpos m'))%R by (apply IZR_lt; lia).
    destruct s; [cbn [val] in H0; nra|]. destruct s'; [cbn [val] in H1; nra|].
    cbn [SFdiv]. destruct (SFdiv_core_spec 53 1024 eq_refl (Zpos m) e (Zpos m') e') as (q & e1 & l & Hq' & Hq & He & Hl); [lia|lia|].
    rewrite Hq'. destruct (round_aux_spec 53 1024 eq_refl (xorb false false) q e1 l _ Hq He Hl) as (M & E & Hc & HM & Hn & ->).
    destruct M as [|p|p]; [| |lia]; cbn [packed xorb].
    + left. split; [done|cbn; lra].
    + destruct (Z.leb_spec E (1024 - 53)); [left|by right]. destruct Hc as [_ Hc]. split.
      * split; [|done]. cbn. unfold bounded, canonical_mantissa. rewrite (proj2 (Z.leb_le _ _)), andb_true_r by done.
        apply Z.eqb_eq, Hc. lia.
      * cbn [val]. apply Rmult_le_pos; [apply IZR_le; lia|]. pose proof (bp_pos E). lra.
Qed.

(** [bnd k x]: a number of absolute value at most the integer [k]. *)
Definition bnd (k : Z) (x : float) : Prop := valid64 x /\ (Rabs (val x) <= IZR k)%R.

Lemma rounds64_bnd y r k : rounds64 y r -> (Rabs y <= IZR k)%R -> 0 <= k <= 2 ^ 53 -> bnd k r.
Proof.
  intros Hr Hy Hk. split; [by eapply rounds_valid|]. apply Rabs_bounds in Hy. apply Rabs_bounds. split.
  - apply (rounds_ge _ _ _ _ _ Hr); [|lra]. apply (repr_opp 53 1024 eq_refl), repr_int64. lia.
  - apply (rounds_le _ _ _ _ _ Hr); [|lra]. apply repr_int64. lia.
Qed.

Lemma small_int r k : (Rabs r <= IZR k)%R -> k <= 2 ^ 53 -> (Rabs r <= maxval 53 1024)%R.
Proof. intros H Hk. apply small64. apply (Rle_trans _ (IZR k)); [done|]. apply IZR_le. lia. Qed.

Lemma bnd_add a b x y : bnd a x -> bnd b y -> 0 <= a + b <= 2 ^ 53 -> bnd (a + b) (x + y)%f64.
Proof.
  intros [Hx Hxb] [Hy Hyb] Hk. assert (Rabs (val x + val y) <= IZR (a + b))%R as Hs.
  { rewrite plus_IZR. pose proof (Rabs_triang (val x) (val y)). lra. }
  eapply rounds64_bnd; [apply add64; [done|done|eapply small_int; [done|lia]]|done|lia].
Qed.

Lemma bnd_sub a b x y : bnd a x -> bnd b y -> 0 <= a + b <= 2 ^ 53 -> bnd (a + b) (x - y)%f64.
Proof.
  intros [Hx Hxb] [Hy Hyb] Hk. assert (Rabs (val x - val y) <= IZR (a + b))%R as Hs.
  { rewrite plus_IZR. apply Rabs_bounds in Hxb, Hyb. apply Rabs_bounds. lra. }
  eapply rounds64_bnd; [apply sub64; [done|done|eapply small_int; [done|lia]]|done|lia].
Qed.

Lemma bnd_mul a b x y : bnd a x -> bnd b y -> 0 <= a -> 0 <= a * b <= 2 ^ 53 -> bnd (a * b) (x * y)%f64.
Proof.
  intros [Hx Hxb] [Hy Hyb] Ha Hk. assert (Rabs (val x * val y) <= IZR (a * b))%R as Hs.
  { rewrite mult_IZR, Rabs_mult. apply Rmult_le_compat; try apply Rabs_pos; done. }
  eapply rounds64_bnd; [apply mul64; [done|done|eapply small_int; [done|lia]]|done|lia].
Qed.

Lemma bnd_mono a b x : bnd a x -> a <= b -> bnd b x.
Proof. intros [H1 H2] H. split; [done|]. apply (Rle_trans _ (IZR a)); [done|by apply IZR_le]. Qed.

Lemma bnd_opp a x : bnd a x -> bnd a (SFopp x).
Proof. intros [H1 H2]. destruct (SFopp_valid 53 1024 x H1) as [Hv Ev]. split; [done|]. by rewrite Ev, Rabs_Ropp. Qed.

(** A constant compared with an integer by evaluation. *)
Lemma bnd_const x k :
  valid_binary 53 1024 x && is_finite x && fle (of_Z64 (- k)) x && fle x (of_Z64 k) = true -> 0 <= k < 2 ^ 53 -> bnd k x.
Proof.
  intros H Hk. apply andb_prop in H as [H H4]. apply andb_prop in H as [H H3]. apply andb_prop in H as [H1 H2].
  assert (valid64 x) as Hx by done. destruct (of_Z64_exact k ltac:(lia)) as [Hk1 Ek].
  destruct (of_Z64_exact (- k) ltac:(lia)) as [Hk2 Ek2].
  apply (fle64 _ _ Hk2 Hx) in H3. apply (fle64 _ _ Hx Hk1) in H4. split; [done|].
  apply Rabs_bounds. rewrite opp_IZR in Ek2. lra.
Qed.

(** Numbers between one half and two lie on a common grid, so that differences are exact. *)
Lemma half_grid x : valid64 x -> (/ 2 <= val x)%R -> (val x <= 2)%R ->
  exists M, val x = (IZR M * bp (-53))%R /\ 0 <= M <= 2 ^ 54.
Proof.
  intros Hx Hlo Hhi. destruct x as [s|s| |s m e]; try (cbn [val] in Hlo; lra).
  pose proof (bp_pos e). assert (0 < IZR (Zpos m))%R by (apply IZR_lt; lia).
  destruct s; [cbn [val] in Hlo; nra|]. apply valid_finite in Hx as [Hf _]. unfold fexp in Hf.
  pose proof (Zdigits2_bounds (Zpos m) ltac:(lia)) as [_ Hu]. unfold Zdigits2 in Hu.
  assert (2 ^ Zpos (digits2_pos m) <= 2 ^ 53) by (apply Z.pow_le_mono_r; lia).
  assert (bp (-53) * IZR (2 ^ 53) = 1)%R as Hi.
  { rewrite <- bp_IZR, <- bp_add by lia. by apply (bp_IZR 0). }
  assert (-53 <= e) as He.
  { destruct (decide (-53 <= e)); [done|exfalso]. assert (bp e <= bp (-54))%R as Hb by (apply bp_le; lia).
    assert (bp (-53) = 2 * bp (-54))%R as H2 by (change (-53) with (-54 + 1); apply bp_succ).
    assert (IZR (Zpos m) < IZR (2 ^ 53))%R by (apply IZR_lt; lia). cbn [val] in Hlo. nra. }
  exists (Zpos m * 2 ^ (e - -53)). cbn [val]. rewrite (bp_grid (Zpos m) e (-53) He) in *. split; [done|].
  split; [assert (0 < 2 ^ (e - -53)) by (apply Z.pow_pos_nonneg; lia); nia|].
  apply le_IZR. change (2 ^ 54) with (2 * 2 ^ 53). rewrite (mult_IZR 2 (2 ^ 53)).
  cbn [val] in Hhi. rewrite (bp_grid (Zpos m) e (-53) He) in Hhi.
  pose proof (bp_pos (-53)). assert (0 < IZR (2 ^ 53))%R by (apply IZR_lt; lia). nra.
Qed.

Lemma sub_exact x y : valid64 x -> valid64 y -> (/ 2 <= val x <= 2)%R -> (/ 2 <= val y <= 2)%R ->
  (Rabs (val x - val y) <= 1)%R -> valid64 (x - y)%f64 /\ val (x - y)%f64 = (val x - val y)%R.
Proof.
  intros Hx Hy Hbx Hby Hd. destruct (half_grid x Hx) as (M & EM & _); [lra|lra|].
  destruct (half_grid y Hy) as (N & EN & _); [lra|lra|].
  assert (rounds64 (val x - val y) (x - y)%f64) as Hr.
  { apply sub64; [done|done|]. apply (small_int _ 1); [done|lia]. }
  split; [by eapply rounds_valid|]. apply (rounds_exact _ _ _ _ Hr).
  exists (M - N), (-53). rewrite EM, EN, minus_IZR in *. split_and!; [lra| |unfold emin; lia].
  apply le_IZR. rewrite abs_IZR, minus_IZR.
  assert (bp (-53) * IZR (2 ^ 53) = 1)%R as Hi.
  { rewrite <- bp_IZR, <- bp_add by lia. by apply (bp_IZR 0). }
  pose proof (bp_pos (-53)) as Hp. apply (Rmult_le_reg_r (bp (-53))); [done|].
  rewrite (Rmult_comm (IZR (2 ^ 53))), Hi.
  replace (Rabs (IZR M - IZR N) * bp (-53))%R with (Rabs (IZR M * bp (-53) - IZR N * bp (-53))); [done|].
  rewrite <- Rmult_minus_distr_r, Rabs_mult, (Rabs_right (bp (-53))) by lra. done.
Qed.

(** Rounding a number below two moves it by less than [2 ^ -40]. *)
Lemma grid_near y r : rounds64 y r -> (Rabs y <= 2)%R -> (Rabs (val r - y) <= / 1000000000000)%R.
Proof.
  intros Hr Hy. apply Rabs_bounds in Hy. set (k := up (y * IZR (2 ^ 40))).
  destruct (archimed (y * IZR (2 ^ 40))) as [Hu1 Hu2]. fold k in Hu1, Hu2.
  assert (bp (-40) * IZR (2 ^ 40) = 1)%R as Hi.
  { rewrite <- bp_IZR, <- bp_add by lia. by apply (bp_IZR 0). }
  pose proof (bp_pos (-40)) as Hp. change (2 ^ 40) with 1099511627776 in *.
  assert (Z.abs k <= 2 ^ 42) as Hk.
  { assert (IZR k <= IZR (2 ^ 42))%R as H1 by (change (2 ^ 42) with 4398046511104; lra).
    assert (IZR (- 2 ^ 42) <= IZR k)%R as H2 by (change (- 2 ^ 42) with (-4398046511104); lra).
    apply le_IZR in H1, H2. lia. }
  assert (repr64 (IZR k * bp (-40))) as R1 by (exists k, (-40); split_and!; [done|lia|unfold emin; lia]).
  assert (repr64 (IZR (k - 1) * bp (-40))) as R2 by (exists (k - 1), (-40); split_and!; [done|lia|unfold emin; lia]).
  assert (y <= IZR k * bp (-40))%R as B1 by nra.
  assert (IZR (k - 1) * bp (-40) <= y)%R as B2 by (rewrite minus_IZR; nra).
  pose proof (rounds_le _ _ _ _ _ Hr R1 B1) as C1. pose proof (rounds_ge _ _ _ _ _ Hr R2 B2) as C2.
  rewrite minus_IZR in *. apply Rabs_bounds. nra.
Qed.

(** ** Constants *)

Lemma val_fraction m k : val (S754_finite false m (Zneg k)) = (IZR (Zpos m) / IZR (2 ^ Zpos k))%R.
Proof.
  cbn [val]. assert (bp (Zneg k) * IZR (2 ^ Zpos k) = 1)%R as Hi.
  { rewrite <- bp_IZR, <- bp_add by lia. replace (Zneg k + Zpos k) with 0 by lia. by apply (bp_IZR 0). }
  assert (0 < IZR (2 ^ Zpos k))%R by (apply IZR_lt, Z.pow_pos_nonneg; lia).
  unfold Rdiv. f_equal. apply (Rmult_eq_reg_r (IZR (2 ^ Zpos k))); [|lra]. rewrite Hi. field. lra.
Qed.

(** The exact value of a constant, as a fraction in the context. *)
Tactic Notation "real_value" constr(c) "as" ident(H) :=
  let v := eval vm_compute in c in
  lazymatch v with
  | S754_finite false ?m (Zneg ?k) =>
      let d := eval vm_compute in (2 ^ Zpos k) in
      assert (val c = (IZR (Zpos m) / IZR d)%R) as H
        by (replace c with v by (vm_compute; reflexivity); apply (val_fraction m k))
  end.
