(* ===== verification/ConnectionParameters.v ===== *)
(** * Connection parameters

    Models [internal/handshake/connection_parameters_manager.go]: the parameters of a connection,
    what an endpoint announces of them in its hello and what it takes from its peer's.

    The theorems: negotiated values stay within what the endpoint is configured for, windows are
    negotiated once, and the two endpoints of a handshake agree. *)

From stdpp Require Import base numbers list option strings gmap.
From S2P Require Import Prelude ByteOrder Protocol GoFloat PublicHeader FlowControl Handshake.

Local Open Scope Z_scope.

Definition MaxStreamsPerConnection : Z := 100.
Definition MaxIncomingDynamicStreamsPerConnection : Z := 100.
Definition MaxStreamsMinimumIncrement : Z := 10.
Definition InitialStreamFlowControlWindow : Z := Z.shiftl 1 14.
Definition InitialConnectionFlowControlWindow : Z := Z.shiftl 1 14.

Definition ErrMalformedTag : goerr := QErr "InvalidCryptoMessageParameter" "malformed Tag value".
Definition ErrFlowControlRenegotiationNotSupported : goerr :=
  QErr "InvalidCryptoMessageParameter" "renegotiation of flow control parameters not supported".

Module connectionParametersManager.

Record t : Type := Mk {
  perspective : Perspective;
  version : Z;
  flowControlNegotiated : bool;
  truncateConnectionID : bool;
  maxStreamsPerConnection : Z;
  maxIncomingDynamicStreamsPerConnection : Z;
  idleConnectionStateLifetime : Z;
  sendStreamFlowControlWindow : Z;
  sendConnectionFlowControlWindow : Z;
  receiveStreamFlowControlWindow : Z;
  receiveConnectionFlowControlWindow : Z;
  maxReceiveStreamFlowControlWindow : Z;
  maxReceiveConnectionFlowControlWindow : Z;
}.

Definition NewConnectionParamatersManager (pers : Perspective) (v maxReceiveStream maxReceiveConnection idleTimeout : Z) : t :=
  Mk pers v false false MaxStreamsPerConnection MaxStreamsPerConnection idleTimeout
    InitialStreamFlowControlWindow InitialConnectionFlowControlWindow
    ReceiveStreamFlowControlWindow ReceiveConnectionFlowControlWindow maxReceiveStream maxReceiveConnection.

(** *** Setting *)

Definition update (h : t) (negotiated truncate : bool) (mspc mids icsl sfcw cfcw : Z) : t :=
  Mk (perspective h) (version h) negotiated truncate mspc mids icsl sfcw cfcw
    (receiveStreamFlowControlWindow h) (receiveConnectionFlowControlWindow h)
    (maxReceiveStreamFlowControlWindow h) (maxReceiveConnectionFlowControlWindow h).

Definition negotiateMaxStreamsPerConnection (clientValue : Z) : Z := Z.min clientValue MaxStreamsPerConnection.
Definition negotiateMaxIncomingDynamicStreamsPerConnection (clientValue : Z) : Z := Z.min clientValue MaxIncomingDynamicStreamsPerConnection.
Definition negotiateIdleConnectionStateLifetime (h : t) (clientValue : Z) : Z := Z.min clientValue (idleConnectionStateLifetime h).

Definition set_truncate (n : Z) (h : t) : t :=
  update h (flowControlNegotiated h) (n =? 0) (maxStreamsPerConnection h) (maxIncomingDynamicStreamsPerConnection h)
    (idleConnectionStateLifetime h) (sendStreamFlowControlWindow h) (sendConnectionFlowControlWindow h).
Definition set_max_streams (n : Z) (h : t) : t :=
  update h (flowControlNegotiated h) (truncateConnectionID h) (negotiateMaxStreamsPerConnection n) (maxIncomingDynamicStreamsPerConnection h)
    (idleConnectionStateLifetime h) (sendStreamFlowControlWindow h) (sendConnectionFlowControlWindow h).
Definition set_max_incoming (n : Z) (h : t) : t :=
  update h (flowControlNegotiated h) (truncateConnectionID h) (maxStreamsPerConnection h) (negotiateMaxIncomingDynamicStreamsPerConnection n)
    (idleConnectionStateLifetime h) (sendStreamFlowControlWindow h) (sendConnectionFlowControlWindow h).
Definition set_idle (n : Z) (h : t) : t :=
  update h (flowControlNegotiated h) (truncateConnectionID h) (maxStreamsPerConnection h) (maxIncomingDynamicStreamsPerConnection h)
    (negotiateIdleConnectionStateLifetime h (i64 (n * Second))) (sendStreamFlowControlWindow h) (sendConnectionFlowControlWindow h).
Definition set_stream_window (n : Z) (h : t) : t :=
  update h (flowControlNegotiated h) (truncateConnectionID h) (maxStreamsPerConnection h) (maxIncomingDynamicStreamsPerConnection h)
    (idleConnectionStateLifetime h) n (sendConnectionFlowControlWindow h).
Definition set_connection_window (n : Z) (h : t) : t :=
  update h (flowControlNegotiated h) (truncateConnectionID h) (maxStreamsPerConnection h) (maxIncomingDynamicStreamsPerConnection h)
    (idleConnectionStateLifetime h) (sendStreamFlowControlWindow h) n.
Definition set_negotiated (b : bool) (h : t) : t :=
  update h b (truncateConnectionID h) (maxStreamsPerConnection h) (maxIncomingDynamicStreamsPerConnection h)
    (idleConnectionStateLifetime h) (sendStreamFlowControlWindow h) (sendConnectionFlowControlWindow h).

(** A part of [SetFromMap]: the error, if any, and the manager. *)
Definition part : Type := t -> option goerr * t.
Definition andThen (a b : part) : part := fun h => match a h with (Some e, h) => (Some e, h) | (None, h) => b h end.

(** [if value, ok := params[tag]; ok], with the value read and set. *)
Definition on_tag (params : gmap Z (list Z)) (tag : Z) (set : Z -> t -> t) : part := fun h =>
  match params !! tag with
  | None => (None, h)
  | Some value =>
      match LE.ReadUint32 value with
      | Ok (n, _) => (None, set n h)
      | _ => (Some ErrMalformedTag, h)
      end
  end.

Definition on_window (params : gmap Z (list Z)) (tag : Z) (set : Z -> t -> t) : part := fun h =>
  match params !! tag with
  | Some _ => if flowControlNegotiated h then (Some ErrFlowControlRenegotiationNotSupported, h) else on_tag params tag set h
  | None => (None, h)
  end.

Definition has (params : gmap Z (list Z)) (tag : Z) : bool := match params !! tag with Some _ => true | None => false end.

Definition SetFromMap (h : t) (params : gmap Z (list Z)) : option goerr * t :=
  andThen (fun h => if is_server (perspective h) then on_tag params TagTCID set_truncate h else (None, h))
  (andThen (on_tag params TagMSPC set_max_streams)
  (andThen (on_tag params TagMIDS set_max_incoming)
  (andThen (on_tag params TagICSL set_idle)
  (andThen (on_window params TagSFCW set_stream_window)
  (andThen (on_window params TagCFCW set_connection_window)
  (fun h => (None, if has params TagCFCW || has params TagSFCW then set_negotiated true h else h))))))) h.

(** *** Getting *)

Definition uint32 (n : Z) : list Z := (LE.WriteUint32 (u32 n)).1.

Definition GetHelloMap (h : t) : gmap Z (list Z) :=
  <[TagICSL := uint32 (Z.quot (idleConnectionStateLifetime h) Second)]>
  (<[TagMSPC := uint32 (maxStreamsPerConnection h)]>
  (<[TagMIDS := uint32 MaxIncomingDynamicStreamsPerConnection]>
  (<[TagCFCW := uint32 (receiveConnectionFlowControlWindow h)]>
  {[TagSFCW := uint32 (receiveStreamFlowControlWindow h)]}))).

Definition GetMaxOutgoingStreams (h : t) : Z := maxIncomingDynamicStreamsPerConnection h.

(** [MaxStreamsMultiplier] is 1.1. *)
Definition GetMaxIncomingStreams : Z :=
  Z.max (u32 (u32 MaxIncomingDynamicStreamsPerConnection + MaxStreamsMinimumIncrement))
    (u32 (trunc (of_Z64 MaxIncomingDynamicStreamsPerConnection * lit64 11 10)%f64)).

Definition GetIdleConnectionStateLifetime (h : t) : Z := idleConnectionStateLifetime h.

Definition TruncateConnectionID (h : t) : bool :=
  if negb (is_server (perspective h)) then false else truncateConnectionID h.

(** What flow control asks for. *)
Definition flow_params (h : t) : Params :=
  MkParams (receiveConnectionFlowControlWindow h) (maxReceiveConnectionFlowControlWindow h)
    (receiveStreamFlowControlWindow h) (maxReceiveStreamFlowControlWindow h)
    (sendConnectionFlowControlWindow h) (sendStreamFlowControlWindow h).

End connectionParametersManager.

(** ** What is negotiated *)

Section Negotiation.
Import connectionParametersManager.

Lemma ReadUint32_range s n r : LE.ReadUint32 s = Ok (n, r) -> 0 <= n < 2 ^ 32.
Proof.
  intros (b1 & s1 & _ & (b2 & s2 & _ & (b3 & s3 & _ & (b4 & s4 & _ & E)%reader_bind_inv)%reader_bind_inv)%reader_bind_inv)%reader_bind_inv.
  injection E as <- _. word.
Qed.

(** What every part keeps, [SetFromMap] keeps. *)
Definition keeps (P : t -> Prop) (p : part) : Prop := forall h, P h -> P (p h).2.

Lemma keeps_andThen P a b : keeps P a -> keeps P b -> keeps P (andThen a b).
Proof. intros Ha Hb h Hh. unfold andThen. specialize (Ha h Hh). destruct (a h) as [[e|] h']; [done|by apply Hb]. Qed.
Lemma keeps_on_tag P params tag set : (forall n h, 0 <= n < 2 ^ 32 -> P h -> P (set n h)) -> keeps P (on_tag params tag set).
Proof.
  intros Hset h Hh. unfold on_tag. destruct (params !! tag) as [v|]; [|done].
  destruct (LE.ReadUint32 v) as [[n r]| |] eqn:E; [|done..]. apply Hset; [|done]. by eapply ReadUint32_range.
Qed.
Lemma keeps_on_window P params tag set :
  (forall n h, 0 <= n < 2 ^ 32 -> flowControlNegotiated h = false -> P h -> P (set n h)) -> keeps P (on_window params tag set).
Proof.
  intros Hset h Hh. unfold on_window. destruct (params !! tag) as [v|] eqn:Ev; [|done]. destruct (flowControlNegotiated h) eqn:En; [done|].
  unfold on_tag. rewrite Ev. destruct (LE.ReadUint32 v) as [[n r]| |] eqn:E; [|done..]. apply Hset; [|done..]. by eapply ReadUint32_range.
Qed.

Record within (h0 h : t) : Prop := {
  w_streams : 0 <= maxStreamsPerConnection h <= MaxStreamsPerConnection;
  w_incoming : 0 <= maxIncomingDynamicStreamsPerConnection h <= MaxIncomingDynamicStreamsPerConnection;
  w_idle : 0 <= idleConnectionStateLifetime h <= idleConnectionStateLifetime h0;
  w_send : 0 <= sendStreamFlowControlWindow h < 2 ^ 32 /\ 0 <= sendConnectionFlowControlWindow h < 2 ^ 32;
  w_receive : receiveStreamFlowControlWindow h = receiveStreamFlowControlWindow h0
    /\ receiveConnectionFlowControlWindow h = receiveConnectionFlowControlWindow h0
    /\ maxReceiveStreamFlowControlWindow h = maxReceiveStreamFlowControlWindow h0
    /\ maxReceiveConnectionFlowControlWindow h = maxReceiveConnectionFlowControlWindow h0;
}.

Lemma seconds_small n : 0 <= n < 2 ^ 32 -> i64 (n * Second) = n * Second /\ 0 <= n * Second.
Proof. intros Hn. change Second with 1000000000. rewrite i64_small by (unfold in_i64; lia). lia. Qed.

Lemma SetFromMap_within h0 h params : within h0 h -> within h0 (SetFromMap h params).2.
Proof.
  revert h. assert (forall n h, 0 <= n < 2 ^ 32 -> within h0 h ->
    (within h0 (set_truncate n h) /\ within h0 (set_max_streams n h) /\ within h0 (set_max_incoming n h)) /\ within h0 (set_idle n h)
    /\ within h0 (set_stream_window n h) /\ within h0 (set_connection_window n h)) as Hset.
  { intros n h Hn [H1 H2 H3 H4 H5]. destruct (seconds_small n Hn) as [E1 E2].
    split_and!; constructor; cbn; unfold negotiateMaxStreamsPerConnection, negotiateMaxIncomingDynamicStreamsPerConnection, negotiateIdleConnectionStateLifetime in *;
      rewrite ?E1; try done; try lia; by split_and!. }
  apply (keeps_andThen (within h0)); [intros h Hh; destruct (is_server _); [|done]; revert h Hh; apply keeps_on_tag; intros; by apply Hset|].
  apply keeps_andThen; [apply keeps_on_tag; intros; by apply Hset|]. apply keeps_andThen; [apply keeps_on_tag; intros; by apply Hset|].
  apply keeps_andThen; [apply keeps_on_tag; intros; by apply Hset|]. apply keeps_andThen; [apply keeps_on_window; intros; by apply Hset|].
  apply keeps_andThen; [apply keeps_on_window; intros; by apply Hset|].
  intros h [H1 H2 H3 H4 H5]. cbn. destruct (_ || _); by constructor.
Qed.

(** Whatever a peer sends, in whatever number of hellos, malformed ones included, the connection
    allows at most the configured number of streams, its idle timeout only shrinks and is never
    negative, the peer's windows are 32-bit numbers and its own are not changed. *)
Theorem negotiation_within_bounds pers v maxStream maxConnection idle hellos :
  0 <= idle ->
  let h0 := NewConnectionParamatersManager pers v maxStream maxConnection idle in
  within h0 (foldl (fun h params => (SetFromMap h params).2) h0 hellos).
Proof.
  intros Hidle h0. assert (within h0 h0) as H0 by (constructor; cbn; try done; lia).
  revert H0. generalize h0 at 2 4. induction hellos as [|params hellos IH]; intros h Hh; cbn [foldl]; [done|].
  by apply IH, SetFromMap_within.
Qed.

(** A part fails whenever [P] holds. *)
Definition refuses (P : t -> Prop) (p : part) : Prop := forall h, P h -> (p h).1 <> None.

Lemma refuses_first P a b : refuses P a -> refuses P (andThen a b).
Proof. intros Ha h Hh. specialize (Ha h Hh). unfold andThen. by destruct (a h) as [[e|] h']. Qed.
Lemma refuses_second P a b : keeps P a -> refuses P b -> refuses P (andThen a b).
Proof. intros Ha Hb h Hh. specialize (Ha h Hh). unfold andThen. destruct (a h) as [[e|] h']; [done|by apply Hb]. Qed.

Definition same_windows (h0 h : t) : Prop :=
  flowControlNegotiated h = true /\ sendStreamFlowControlWindow h = sendStreamFlowControlWindow h0
  /\ sendConnectionFlowControlWindow h = sendConnectionFlowControlWindow h0.

Lemma window_refused h0 params tag set : has params tag = true -> refuses (same_windows h0) (on_window params tag set).
Proof. unfold has, on_window. intros Ht h (Hn & _). destruct (params !! tag); [by rewrite Hn|done]. Qed.
Lemma window_kept h0 params tag set : keeps (same_windows h0) (on_window params tag set).
Proof. apply keeps_on_window. intros n h _ Hn (Hn' & _). congruence. Qed.

(** The windows of the peer are negotiated once: a second hello with windows is refused, and does not
    change them. *)
Theorem windows_negotiated_once h params :
  flowControlNegotiated h = true ->
  sendStreamFlowControlWindow (SetFromMap h params).2 = sendStreamFlowControlWindow h
  /\ sendConnectionFlowControlWindow (SetFromMap h params).2 = sendConnectionFlowControlWindow h
  /\ (has params TagSFCW || has params TagCFCW = true -> (SetFromMap h params).1 <> None).
Proof.
  intros Hn. assert (same_windows h h) as Hh by done. set (P := same_windows h).
  assert (keeps P (fun h => if is_server (perspective h) then on_tag params TagTCID set_truncate h else (None, h))) as K1
    by (intros h' Hh'; destruct (is_server _); [|done]; by apply (keeps_on_tag P)).
  assert (keeps P (on_tag params TagMSPC set_max_streams) /\ keeps P (on_tag params TagMIDS set_max_incoming) /\ keeps P (on_tag params TagICSL set_idle))
    as (K2 & K3 & K4) by (split_and!; by apply (keeps_on_tag P)).
  assert (keeps P (on_window params TagSFCW set_stream_window) /\ keeps P (on_window params TagCFCW set_connection_window)) as [K5 K6]
    by (split; apply window_kept).
  assert (P (SetFromMap h params).2 /\ (has params TagSFCW || has params TagCFCW = true -> (SetFromMap h params).1 <> None)) as [(_ & E1 & E2) E3]; [|done].
  split.
  - unfold SetFromMap. apply (keeps_andThen P); [done| |done]. do 5 (apply (keeps_andThen P); [done|]). intros h' Hh'. cbn. destruct (_ || _); by destruct Hh'.
  - intros Ht. unfold SetFromMap.
    apply (refuses_second P); [done| |done]. do 3 (apply (refuses_second P); [done|]). apply orb_true_iff in Ht as [Ht|Ht].
    + by apply refuses_first, window_refused.
    + apply refuses_second; [done|]. by apply refuses_first, window_refused.
Qed.

(** ** The handshake *)

(** A hello that announces the parameters of [h], among others. *)
Record hello_of (h : t) (m : HandshakeMessage.t) : Prop := {
  hello_ok : message_ok m;
  hello_map : GetHelloMap h ⊆ HandshakeMessage.Data m;
  hello_tcid v : HandshakeMessage.Data m !! TagTCID = Some v -> (4 <= length v)%nat;
}.

(** Timeouts are announced in seconds. *)
Definition whole_seconds (d : Z) : Prop := exists n, 0 <= n < 2 ^ 32 /\ d = n * Second.

Record agree (c s : t) : Prop := {
  a_idle : idleConnectionStateLifetime c = idleConnectionStateLifetime s;
  a_streams : maxStreamsPerConnection c = maxStreamsPerConnection s;
  a_client_sends : sendStreamFlowControlWindow c = receiveStreamFlowControlWindow s
    /\ sendConnectionFlowControlWindow c = receiveConnectionFlowControlWindow s;
  a_server_sends : sendStreamFlowControlWindow s = receiveStreamFlowControlWindow c
    /\ sendConnectionFlowControlWindow s = receiveConnectionFlowControlWindow c;
  a_outgoing : GetMaxOutgoingStreams c <= GetMaxIncomingStreams /\ GetMaxOutgoingStreams s <= GetMaxIncomingStreams;
}.

Lemma ReadUint32_uint32 n : 0 <= n < 2 ^ 32 -> LE.ReadUint32 (uint32 n) = Ok (n, []).
Proof.
  intros Hn. unfold uint32. rewrite (u32_small n) by done. rewrite <- (app_nil_r (_.1)). exact (LE_read32_bytes n [] Hn).
Qed.
Lemma on_tag_number params tag set h n : params !! tag = Some (uint32 n) -> 0 <= n < 2 ^ 32 -> on_tag params tag set h = (None, set n h).
Proof. intros E Hn. unfold on_tag. by rewrite E, ReadUint32_uint32. Qed.
Lemma on_window_number params tag set h n :
  params !! tag = Some (uint32 n) -> 0 <= n < 2 ^ 32 -> flowControlNegotiated h = false -> on_window params tag set h = (None, set n h).
Proof. intros E Hn Hf. unfold on_window. rewrite E, Hf. by apply on_tag_number. Qed.

(** A hello of four bytes or more for the connection ID is accepted. *)
Lemma ReadUint32_long v : (4 <= length v)%nat -> exists n r, LE.ReadUint32 v = Ok (n, r).
Proof. intros Hv. destruct v as [|b1 [|b2 [|b3 [|b4 v]]]]; cbn [length] in Hv; try lia. by eexists _, _. Qed.

Lemma andThen_ok a b h h' : a h = (None, h') -> andThen a b h = b h'.
Proof. unfold andThen. by intros ->. Qed.
Ltac reduce_update :=
  cbv beta iota delta [set_max_streams set_max_incoming set_idle set_stream_window set_connection_window set_negotiated update perspective version
    flowControlNegotiated truncateConnectionID maxStreamsPerConnection maxIncomingDynamicStreamsPerConnection idleConnectionStateLifetime
    sendStreamFlowControlWindow sendConnectionFlowControlWindow receiveStreamFlowControlWindow receiveConnectionFlowControlWindow
    maxReceiveStreamFlowControlWindow maxReceiveConnectionFlowControlWindow].

(** What an endpoint takes from the hello of a peer [h] that announces [n] seconds. *)
Lemma takes_hello h h' m n :
  hello_of h' m -> flowControlNegotiated h = false -> Z.quot (idleConnectionStateLifetime h') Second = n -> 0 <= n < 2 ^ 32 ->
  0 <= maxStreamsPerConnection h' <= 100 -> 0 <= receiveStreamFlowControlWindow h' < 2 ^ 32 -> 0 <= receiveConnectionFlowControlWindow h' < 2 ^ 32 ->
  exists b, SetFromMap h (HandshakeMessage.Data m)
    = (None, update h true b (maxStreamsPerConnection h') 100 (Z.min (n * Second) (idleConnectionStateLifetime h))
               (receiveStreamFlowControlWindow h') (receiveConnectionFlowControlWindow h')).
Proof.
  intros [_ Hmap Htcid] Hneg Eidle Hn Hs H1 H2. set (params := HandshakeMessage.Data m).
  assert (forall tag v, GetHelloMap h' !! tag = Some v -> params !! tag = Some v) as Hget by (intros; by eapply lookup_weaken).
  assert (params !! TagMSPC = Some (uint32 (maxStreamsPerConnection h')) /\ params !! TagMIDS = Some (uint32 100)
    /\ params !! TagICSL = Some (uint32 n) /\ params !! TagSFCW = Some (uint32 (receiveStreamFlowControlWindow h'))
    /\ params !! TagCFCW = Some (uint32 (receiveConnectionFlowControlWindow h'))) as (E1 & E2 & E3 & E4 & E5).
  { split_and!; apply Hget; [done|done| |done|done]. unfold GetHelloMap. by rewrite Eidle. }
  clear Hget Hmap Eidle. revert E1 E4 E5 Hs H1 H2. generalize (maxStreamsPerConnection h'), (receiveStreamFlowControlWindow h'), (receiveConnectionFlowControlWindow h').
  intros mspc sfcw cfcw E1 E4 E5 Hs H1 H2. destruct h as [p v neg tr ms mi idle sw cw rw rc mw mc]. cbn in Hneg. subst neg.
  assert (exists b, (if is_server p then on_tag params TagTCID set_truncate (Mk p v false tr ms mi idle sw cw rw rc mw mc) else (None, Mk p v false tr ms mi idle sw cw rw rc mw mc))
    = (None, Mk p v false b ms mi idle sw cw rw rc mw mc)) as [b Eb].
  { destruct (is_server _); [|by exists tr]. unfold on_tag. destruct (params !! TagTCID) as [v'|] eqn:Ev; [|by exists tr].
    destruct (ReadUint32_long v' (Htcid _ Ev)) as (k & r & ->). by exists (k =? 0). }
  exists b. unfold SetFromMap. erewrite andThen_ok by exact Eb.
  erewrite andThen_ok by (apply on_tag_number; [exact E1|lia]). erewrite andThen_ok by (apply on_tag_number; [exact E2|lia]).
  erewrite andThen_ok by (apply on_tag_number; [exact E3|lia]). erewrite andThen_ok by (apply on_window_number; [exact E4|lia|done]).
  erewrite andThen_ok by (apply on_window_number; [exact E5|lia|done]). reduce_update.
  unfold has. rewrite E5. cbn [orb]. reduce_update. destruct (seconds_small n Hn) as [En _].
  unfold negotiateIdleConnectionStateLifetime, negotiateMaxStreamsPerConnection, MaxStreamsPerConnection.
  by rewrite En, (Z.min_l mspc 100) by lia.
Qed.

Lemma negotiate v cs cc ci ss sc si chlo :
  let client := NewConnectionParamatersManager PerspectiveClient v cs cc ci in
  let server := NewConnectionParamatersManager PerspectiveServer v ss sc si in
  whole_seconds ci -> whole_seconds si -> hello_of client chlo ->
  exists server', SetFromMap server (HandshakeMessage.Data chlo) = (None, server')
    /\ forall shlo, hello_of server' shlo ->
        exists client', SetFromMap client (HandshakeMessage.Data shlo) = (None, client')
          /\ agree client' server' /\ idleConnectionStateLifetime client' = Z.min ci si.
Proof.
  intros client server (nc & Hnc & Ec) (ns & Hns & Es) Hchlo.
  assert (forall n, Z.quot (n * Second) Second = n) as Equot by (intros n; by apply Z.quot_mul).
  destruct (takes_hello server client chlo nc Hchlo eq_refl) as [b Eb]; [cbn; by rewrite Ec|done..|].
  eexists. split; [exact Eb|].
  intros shlo Hshlo. set (server' := update _ _ _ _ _ _ _ _) in *.
  assert (idleConnectionStateLifetime server' = Z.min nc ns * Second) as Ei.
  { cbn. rewrite Es, <- Z.mul_min_distr_nonneg_r by done. done. }
  destruct (takes_hello client server' shlo (Z.min nc ns) Hshlo eq_refl) as [b' Eb']; [by rewrite Ei|lia|done..|].
  eexists. split; [exact Eb'|].
  assert (Z.min (Z.min nc ns * Second) ci = Z.min nc ns * Second) as Em by (subst ci; change Second with 1000000000; lia).
  split; [|cbn; subst ci si; change Second with 1000000000; lia].
  constructor; [|done..|by vm_compute]. cbn. rewrite Em, <- Ei. done.
Qed.

(** When client and server each send their hello, which may hold other parameters, both are read,
    accepted, and the endpoints agree: on the idle timeout, the smaller of the two, on the number of
    streams, and each sends within the windows of the other. *)
Theorem parameters_agree v cs cc ci ss sc si chlo rest :
  let client := NewConnectionParamatersManager PerspectiveClient v cs cc ci in
  let server := NewConnectionParamatersManager PerspectiveServer v ss sc si in
  whole_seconds ci -> whole_seconds si -> hello_of client chlo ->
  exists m server', HandshakeMessage.ParseHandshakeMessage ((HandshakeMessage.Write chlo).1 ++ rest) = Ok (m, rest)
    /\ SetFromMap server (HandshakeMessage.Data m) = (None, server')
    /\ forall shlo rest', hello_of server' shlo ->
        exists m' client', HandshakeMessage.ParseHandshakeMessage ((HandshakeMessage.Write shlo).1 ++ rest') = Ok (m', rest')
          /\ SetFromMap client (HandshakeMessage.Data m') = (None, client')
          /\ agree client' server' /\ idleConnectionStateLifetime client' = Z.min ci si.
Proof.
  intros client server Hci Hsi Hchlo. destruct (negotiate v cs cc ci ss sc si chlo Hci Hsi Hchlo) as (server' & E & H).
  exists chlo, server'. split; [by apply parse_write, Hchlo|]. split; [exact E|]. intros shlo rest' Hshlo.
  destruct (H shlo Hshlo) as (client' & E' & Ha & Hi). exists shlo, client'. split; [by apply parse_write, Hshlo|]. by split.
Qed.

(** A client configured with an idle timeout of less than a second announces zero: the server that
    takes it over times out at once. *)
Theorem short_timeout_becomes_zero v cs cc ci ss sc si chlo :
  0 <= ci < Second -> 0 <= si -> hello_of (NewConnectionParamatersManager PerspectiveClient v cs cc ci) chlo ->
  exists server', SetFromMap (NewConnectionParamatersManager PerspectiveServer v ss sc si) (HandshakeMessage.Data chlo) = (None, server')
    /\ GetIdleConnectionStateLifetime server' = 0.
Proof.
  intros Hci Hsi Hchlo. destruct (takes_hello (NewConnectionParamatersManager PerspectiveServer v ss sc si) _ chlo 0 Hchlo eq_refl) as [b Eb];
    [by apply Z.quot_small|done..|]. eexists. split; [exact Eb|]. cbn. lia.
Qed.

(** Every hello can be written. *)
Lemma uint32_ok n : bytes_ok (uint32 n) /\ (length (uint32 n) <= 4000)%nat.
Proof. split; [apply (bytes_ok_le_bytes 4)|cbn; lia]. Qed.
Lemma hello_map_ok h : map_Forall good_value (GetHelloMap h).
Proof. unfold GetHelloMap. repeat (apply map_Forall_insert_2; [split; [done|apply uint32_ok]|]). by intros ? ?. Qed.
Lemma size_hello_map h : size (GetHelloMap h) = 5%nat.
Proof. unfold GetHelloMap. rewrite !map_size_insert_None by done. by rewrite map_size_singleton. Qed.
Lemma hello_alone h tag : 0 <= tag < 2 ^ 32 -> hello_of h (HandshakeMessage.Mk tag (GetHelloMap h)).
Proof.
  intros Htag. split; [|done|].
  - apply message_ok_intro; [done|rewrite size_hello_map; lia|apply hello_map_ok].
  - cbn [HandshakeMessage.Data]. by intros v [= <-].
Qed.
End Negotiation.

(** ** Witnesses *)

Import connectionParametersManager.
Definition sample_client : t := NewConnectionParamatersManager PerspectiveClient 512 (2 ^ 24) (3 * 2 ^ 23) (30 * Second).
Definition sample_server : t := NewConnectionParamatersManager PerspectiveServer 512 (2 ^ 20) (3 * 2 ^ 19) (20 * Second).

Lemma negotiation_within_bounds_witness : within sample_client (SetFromMap sample_client {[TagMSPC := [0xff; 0xff; 0xff; 0xff]]}).2.
Proof. apply (negotiation_within_bounds PerspectiveClient 512 (2 ^ 24) (3 * 2 ^ 23) (30 * Second) [{[TagMSPC := [0xff; 0xff; 0xff; 0xff]]}]). done. Defined.

Lemma windows_negotiated_once_witness :
  (SetFromMap (SetFromMap sample_server (GetHelloMap sample_client)).2 (GetHelloMap sample_client)).1 <> None.
Proof. by apply (windows_negotiated_once (SetFromMap sample_server (GetHelloMap sample_client)).2 (GetHelloMap sample_client)). Defined.

Lemma parameters_agree_witness :
  exists m server', HandshakeMessage.ParseHandshakeMessage ((HandshakeMessage.Write (HandshakeMessage.Mk TagCHLO (GetHelloMap sample_client))).1 ++ []) = Ok (m, [])
    /\ SetFromMap sample_server (HandshakeMessage.Data m) = (None, server')
    /\ exists client', agree client' server' /\ idleConnectionStateLifetime client' = 20 * Second.
Proof.
  destruct (parameters_agree 512 (2 ^ 24) (3 * 2 ^ 23) (30 * Second) (2 ^ 20) (3 * 2 ^ 19) (20 * Second) (HandshakeMessage.Mk TagCHLO (GetHelloMap sample_client)) [])
    as (m & server' & E1 & E2 & H).
  - exists 30. split; [lia|reflexivity].
  - exists 20. split; [lia|reflexivity].
  - apply hello_alone. vm_compute. split; [discriminate|reflexivity].
  - exists m, server'. split; [exact E1|]. split; [exact E2|].
    destruct (H (HandshakeMessage.Mk TagSHLO (GetHelloMap server')) []) as (m' & client' & _ & _ & Ha & Hi).
    { apply hello_alone. vm_compute. split; [discriminate|reflexivity]. }
    exists client'. split; [exact Ha|exact Hi].
Defined.

Lemma short_timeout_becomes_zero_witness :
  exists server', SetFromMap sample_server (GetHelloMap (NewConnectionParamatersManager PerspectiveClient 512 (2 ^ 24) (3 * 2 ^ 23) 500000000)) = (None, server')
    /\ GetIdleConnectionStateLifetime server' = 0.
Proof.
  apply (short_timeout_becomes_zero 512 (2 ^ 24) (3 * 2 ^ 23) 500000000 (2 ^ 20) (3 * 2 ^ 19) (20 * Second) (HandshakeMessage.Mk TagCHLO (GetHelloMap _)));
    [by vm_compute|done|]. apply hello_alone. vm_compute. split; [discriminate|reflexivity].
Defined.
