(* ===== verification/CryptoServer.v ===== *)
(** * The crypto setup of a server

    Models [internal/handshake/crypto_setup_server.go]: the handshake messages a server takes and the
    replies it makes, the keys it derives, and which of them it opens and seals packets with.

    The primitives are parameters: the AEADs and the key exchange are the interfaces of
    [internal/crypto], the key derivation and the ephemeral key exchange are fields of the Go struct,
    and so are the cookies, which are [stkGenerator] and [acceptSTKCallback]; random bytes and the
    outcome of a write to the crypto stream are arguments.  What is written to the stream and sent on
    [aeadChanged] is recorded; the channel holds two levels, as many as are sent. *)

From stdpp Require Import base numbers list option strings gmap.
From S2P Require Import Prelude ByteOrder Protocol PublicHeader PacketUnpacker PacketPacker Handshake ServerConfig ConnectionParameters.

Local Open Scope Z_scope.

(** ** What client and server share *)

(** [crypto.AEAD]: [Open src packetNumber associatedData]. *)
Record AEAD : Type := MkAEAD {
  AEAD_Open : list Z -> Z -> list Z -> res (list Z);
  AEAD_Seal : Sealer;
}.

(** [QuicCryptoKeyDerivationFunction] *)
Definition KeyDerivation : Type :=
  bool -> list Z -> list Z -> Z -> list Z -> list Z -> list Z -> list Z -> Perspective -> res AEAD.

(** State and error; the state reached is kept by an error. *)
Definition MS (S A : Type) : Type := S -> res A * S.
Definition ms_ret {S A} (a : A) : MS S A := fun s => (Ok a, s).
Definition ms_bind {S A B} (m : MS S A) (k : A -> MS S B) : MS S B := fun s =>
  match m s with
  | (Ok a, s) => k a s
  | (Err e, s) => (Err e, s)
  | (Panic, s) => (Panic, s)
  end.
Definition ms_get {S} : MS S S := fun s => (Ok s, s).
Definition ms_modify {S} (f : S -> S) : MS S unit := fun s => (Ok tt, f s).
Definition ms_lift {S A} (r : res A) : MS S A := fun s => (r, s).
Definition ms_fail {S A} (e : goerr) : MS S A := fun s => (Err e, s).
Definition ms_check {S} (b : bool) (e : goerr) : MS S unit := if b then ms_ret tt else ms_fail e.
Definition ms_error {S} (e : option goerr) : MS S unit := match e with Some e => ms_fail e | None => ms_ret tt end.
Notation "x <~ m ;; k" := (ms_bind m (fun x => k)) (at level 100, m at next level, right associativity).

Lemma ok_inv {S A} (a b : A) (s s' : S) : (Ok a, s) = (Ok b, s') -> a = b /\ s = s'.
Proof. by intros [= -> ->]. Qed.

(** Running a computation one step at a time. *)
Section Step.
Context {S : Type}.
Lemma bind_ok {A B} (m : MS S A) (k : A -> MS S B) a s s' : m s = (Ok a, s') -> ms_bind m k s = k a s'.
Proof. unfold ms_bind. by intros ->. Qed.
Lemma bind_err {A B} (m : MS S A) (k : A -> MS S B) e s s' : m s = (Err e, s') -> ms_bind m k s = (Err e, s').
Proof. unfold ms_bind. by intros ->. Qed.
Lemma bind_ret {A B} (a : A) (k : A -> MS S B) s : ms_bind (ms_ret a) k s = k a s.
Proof. done. Qed.
Lemma bind_get {B} (k : S -> MS S B) s : ms_bind ms_get k s = k s s.
Proof. done. Qed.
Lemma bind_modify {B} f (k : unit -> MS S B) s : ms_bind (ms_modify f) k s = k tt (f s).
Proof. done. Qed.
Lemma bind_lift {A B} (r : res A) a (k : A -> MS S B) s : r = Ok a -> ms_bind (ms_lift r) k s = k a s.
Proof. by intros ->. Qed.
Lemma bind_check {B} (b : bool) e (k : unit -> MS S B) s : b = true -> ms_bind (ms_check b e) k s = k tt s.
Proof. by intros ->. Qed.
End Step.

(** What a computation keeps, whatever its outcome. *)
Definition ms_keeps {S A} (P : S -> Prop) (m : MS S A) : Prop := forall s, P s -> P (m s).2.

Section Keeps.
Context {S : Type} (P : S -> Prop).
Lemma ms_keeps_bind {A B} (m : MS S A) (k : A -> MS S B) : ms_keeps P m -> (forall a, ms_keeps P (k a)) -> ms_keeps P (ms_bind m k).
Proof. intros Hm Hk s Hs. specialize (Hm s Hs). unfold ms_bind. destruct (m s) as [[a|e|] s']; [by apply Hk|done..]. Qed.
Lemma ms_keeps_ret {A} (a : A) : ms_keeps P (ms_ret a).
Proof. by intros s Hs. Qed.
Lemma ms_keeps_get : ms_keeps P ms_get.
Proof. by intros s Hs. Qed.
Lemma ms_keeps_lift {A} (r : res A) : ms_keeps P (ms_lift r).
Proof. by intros s Hs. Qed.
Lemma ms_keeps_fail {A} e : ms_keeps P (ms_fail e : MS S A).
Proof. by intros s Hs. Qed.
Lemma ms_keeps_check b e : ms_keeps P (ms_check b e).
Proof. by intros s Hs; destruct b. Qed.
Lemma ms_keeps_error e : ms_keeps P (ms_error e).
Proof. by intros s Hs; destruct e. Qed.
Lemma ms_keeps_modify f : (forall s, P s -> P (f s)) -> ms_keeps P (ms_modify f).
Proof. intros Hf s Hs. by apply Hf. Qed.
Lemma ms_keeps_if {A} (b : bool) (m m' : MS S A) : ms_keeps P m -> ms_keeps P m' -> ms_keeps P (if b then m else m').
Proof. by destruct b. Qed.
End Keeps.
Create HintDb ms discriminated.
#[export] Hint Resolve ms_keeps_bind ms_keeps_ret ms_keeps_get ms_keeps_lift ms_keeps_fail ms_keeps_check ms_keeps_error ms_keeps_if : ms.

(** What holds where a computation ends without an error. *)
Definition ms_ok {S A} (P : S -> Prop) (m : MS S A) (Q : A -> S -> Prop) : Prop :=
  forall s a s', P s -> m s = (Ok a, s') -> Q a s'.

Section Ok.
Context {S : Type}.
Implicit Types P : S -> Prop.
Lemma ok_bind {A B} P (m : MS S A) (k : A -> MS S B) Q R : ms_ok P m Q -> (forall a, ms_ok (Q a) (k a) R) -> ms_ok P (ms_bind m k) R.
Proof. intros Hm Hk s b s' Hs E. unfold ms_bind in E. destruct (m s) as [[a|e|] s1] eqn:E1; [|done..]. eapply Hk; [by eapply Hm|done]. Qed.
Lemma ok_ret {A} P (a : A) Q : (forall s, P s -> Q a s) -> ms_ok P (ms_ret a) Q.
Proof. intros H s a' s' Hs [= <- <-]. by apply H. Qed.
Lemma ok_get P (Q : S -> S -> Prop) : (forall s, P s -> Q s s) -> ms_ok P ms_get Q.
Proof. intros H s a' s' Hs [= <- <-]. by apply H. Qed.
Lemma ok_lift {A} P (r : res A) Q : (forall a s, r = Ok a -> P s -> Q a s) -> ms_ok P (ms_lift r) Q.
Proof. intros H s a' s' Hs [= -> <-]. by apply H. Qed.
Lemma ok_fail {A} P e (Q : A -> S -> Prop) : ms_ok P (ms_fail e) Q.
Proof. intros s a' s' Hs [=]. Qed.
Lemma ok_check P b e Q : (forall s, b = true -> P s -> Q tt s) -> ms_ok P (ms_check b e) Q.
Proof. intros H s a' s' Hs E. destruct b; [|done]. injection E as <- <-. by apply H. Qed.
Lemma ok_modify P f Q : (forall s, P s -> Q tt (f s)) -> ms_ok P (ms_modify f) Q.
Proof. intros H s a' s' Hs [= <- <-]. by apply H. Qed.
Lemma ok_weaken {A} P (m : MS S A) (Q R : A -> S -> Prop) : ms_ok P m Q -> (forall a s, Q a s -> R a s) -> ms_ok P m R.
Proof. intros Hm H s a s' Hs E. by eapply H, Hm. Qed.
Lemma ok_keeps {A} P (m : MS S A) : ms_keeps P m -> ms_ok P m (fun _ => P).
Proof. intros H s a s' Hs E. specialize (H s Hs). by rewrite E in H. Qed.
End Ok.

(** Takes a computation apart; leaves what is done to the state. *)
Ltac ms_split :=
  cbn beta zeta;
  lazymatch goal with
  | |- ms_keeps _ (ms_bind _ _) => apply ms_keeps_bind; [ms_split|intros ?; ms_split]
  | |- ms_keeps _ (ms_modify _) => apply ms_keeps_modify
  | |- ms_keeps _ (match ?x with _ => _ end) => destruct x; ms_split
  | |- _ => try solve [auto with ms]
  end.

(** [cryptoData[tag]] *)
Definition value_of (m : gmap Z (list Z)) (tag : Z) : list Z := default [] (m !! tag).

Definition ClientHelloMinimumSize : Z := 1024.

(** [GetSealerWithEncryptionLevel] of either side. *)
Definition sealer_at (who : string) (nullAEAD : AEAD) (secure forwardSecure : option AEAD) (encLevel : Z) : res Sealer :=
  if encLevel =? EncryptionUnencrypted then Ok (AEAD_Seal nullAEAD)
  else if encLevel =? EncryptionSecure then
    match secure with Some a => Ok (AEAD_Seal a) | None => Err (GoErr (who +:+ ": no secureAEAD")) end
  else if encLevel =? EncryptionForwardSecure then
    match forwardSecure with Some a => Ok (AEAD_Seal a) | None => Err (GoErr (who +:+ ": no forwardSecureAEAD")) end
  else Err (GoErr (who +:+ ": no encryption level specified")).

(** ** The server *)

Definition ErrHOLExperiment : goerr := QErr "InvalidCryptoMessageParameter" "HOL experiment. Unsupported".
Definition ErrNSTPExperiment : goerr := QErr "InvalidCryptoMessageParameter" "NSTP experiment. Unsupported".
Definition errNoSNI : goerr := QErr "CryptoMessageParameterNotFound" "SNI required".
Definition errNoVersion : goerr := QErr "InvalidCryptoMessageParameter" "client hello missing version tag".
Definition errVersionTag : goerr := QErr "InvalidCryptoMessageParameter" "incorrect version tag".
Definition errDowngrade : goerr := QErr "VersionNegotiationMismatch" "Downgrade attack detected".
Definition errSmallCHLO : goerr := QErr "CryptoInvalidValueLength" "CHLO too small".
Definition errNoSupport : goerr := QErr "CryptoNoSupport" "Unsupported AEAD or KEXS".
Definition errNonceLength : goerr := QErr "InvalidCryptoMessageParameter" "invalid client nonce length".
Definition errObit : goerr := QErr "InvalidCryptoMessageParameter" "OBIT not matching".

Module cryptoSetupServer.
Section Server.
Context (keyDerivation : KeyDerivation) (nullAEAD : AEAD).
(** A token decodes to a cookie, or to none. *)
Context {Cookie : Type} (NewToken : res (list Z)) (DecodeToken : list Z -> res (option Cookie)) (acceptSTKCallback : option Cookie -> bool).
Context (cryptoStream_Write : list Z -> option goerr).

Record t : Type := Mk {
  connID : Z;
  scfg : ServerConfig.t;
  version : Z;
  supportedVersions : list Z;
  diversificationNonce : list Z;
  secureAEAD : option AEAD;
  forwardSecureAEAD : option AEAD;
  receivedForwardSecurePacket : bool;
  receivedSecurePacket : bool;
  sentSHLO : bool;                         (* the channel was closed *)
  aeadChanged : list Z;
  aeadClosed : bool;
  connectionParameters : connectionParametersManager.t;
  written : list (list Z);
}.

Definition NewCryptoSetup (connID : Z) (version : Z) (scfg : ServerConfig.t) (params : connectionParametersManager.t) (supportedVersions : list Z) : t :=
  Mk connID scfg version supportedVersions [] None None false false false [] false params [].

Definition set_keys (h : t) (nonce : list Z) (secure forward : option AEAD) : t :=
  Mk (connID h) (scfg h) (version h) (supportedVersions h) nonce secure forward (receivedForwardSecurePacket h) (receivedSecurePacket h)
    (sentSHLO h) (aeadChanged h) (aeadClosed h) (connectionParameters h) (written h).
Definition set_received (h : t) (forward secure : bool) : t :=
  Mk (connID h) (scfg h) (version h) (supportedVersions h) (diversificationNonce h) (secureAEAD h) (forwardSecureAEAD h) forward secure
    (sentSHLO h) (aeadChanged h) (aeadClosed h) (connectionParameters h) (written h).
Definition set_channels (h : t) (sent : bool) (levels : list Z) (closed : bool) : t :=
  Mk (connID h) (scfg h) (version h) (supportedVersions h) (diversificationNonce h) (secureAEAD h) (forwardSecureAEAD h)
    (receivedForwardSecurePacket h) (receivedSecurePacket h) sent levels closed (connectionParameters h) (written h).
Definition set_params (h : t) (p : connectionParametersManager.t) : t :=
  Mk (connID h) (scfg h) (version h) (supportedVersions h) (diversificationNonce h) (secureAEAD h) (forwardSecureAEAD h)
    (receivedForwardSecurePacket h) (receivedSecurePacket h) (sentSHLO h) (aeadChanged h) (aeadClosed h) p (written h).
Definition set_written (h : t) (w : list (list Z)) : t :=
  Mk (connID h) (scfg h) (version h) (supportedVersions h) (diversificationNonce h) (secureAEAD h) (forwardSecureAEAD h)
    (receivedForwardSecurePacket h) (receivedSecurePacket h) (sentSHLO h) (aeadChanged h) (aeadClosed h) (connectionParameters h) w.

Definition M : Type -> Type := MS t.

Definition notify (level : Z) : M unit :=
  ms_modify (fun h => set_channels h (sentSHLO h) (aeadChanged h ++ [level]) (aeadClosed h)).
Definition write_stream (reply : list Z) : M unit := fun h =>
  match cryptoStream_Write reply with
  | Some e => (Err e, h)
  | None => (Ok tt, set_written h (written h ++ [reply]))
  end.

(** *** Client hellos *)

Definition acceptSTK (token : list Z) : bool :=
  match DecodeToken token with Ok stk => acceptSTKCallback stk | _ => false end.

Definition isInchoateCHLO (h : t) (cryptoData : gmap Z (list Z)) (cert : list Z) : bool :=
  match cryptoData !! TagPUBS, cryptoData !! TagSCID, cryptoData !! TagXLCT with
  | Some _, Some scid, Some xlctTag =>
      if negb (bool_decide (scid = ServerConfig.ID (scfg h))) then true
      else if negb (length xlctTag =? 8)%nat then true
      else match LE.ReadUint64 xlctTag with
           | Ok (xlct, _) => if negb (HashCert cert =? xlct) then true else negb (acceptSTK (value_of cryptoData TagSTK))
           | _ => true
           end
  | _, _, _ => true
  end.

Definition handleInchoateCHLO (sni chlo : list Z) (cryptoData : gmap Z (list Z)) : M (list Z) :=
  _ <~ ms_check (ClientHelloMinimumSize <=? Z.of_nat (length chlo)) errSmallCHLO;;
  token <~ ms_lift NewToken;;
  h <~ ms_get;;
  let replyMap : gmap Z (list Z) :=
    <[TagSCFG := ServerConfig.Get (scfg h)]> (<[TagSTK := token]> {[TagSVID := bytes_of_string "quic-go"]}) in
  replyMap <~ (if acceptSTK (value_of cryptoData TagSTK) then
                 proof <~ ms_lift (ServerConfig.Sign (scfg h) sni chlo);;
                 certCompressed <~ ms_lift (ServerConfig.GetCertsCompressed (scfg h) sni (value_of cryptoData TagCCS) (value_of cryptoData TagCCRT));;
                 ms_ret (<[TagCERT := certCompressed]> (<[TagPROF := proof]> replyMap))
               else ms_ret replyMap);;
  ms_ret (HandshakeMessage.Write (HandshakeMessage.Mk TagREJ replyMap)).1.

Definition validateClientNonce (nonce : list Z) : M unit :=
  h <~ ms_get;;
  _ <~ ms_check (length nonce =? 32)%nat errNonceLength;;
  ms_check (bool_decide (take 8 (drop 4 nonce) = ServerConfig.obit (scfg h))) errObit.

(** [rand] and [rand'] are what [rand.Read] delivers for the two nonces. *)
Definition handleCHLO (sni data : list Z) (cryptoData : gmap Z (list Z)) (ephermalKex : KeyExchange) (rand rand' : res (list Z)) : M (list Z) :=
  h <~ ms_get;;
  sharedSecret <~ ms_lift (CalculateSharedKey (ServerConfig.kex (scfg h)) (value_of cryptoData TagPUBS));;
  cert <~ ms_lift (CertChain.GetLeafCert (ServerConfig.certChain (scfg h)) sni);;
  serverNonce <~ ms_lift rand;;
  _ <~ ms_modify (fun h => set_keys h (match rand' with Ok n => n | _ => repeat 0 32 end) (secureAEAD h) (forwardSecureAEAD h));;
  divNonce <~ ms_lift rand';;
  let clientNonce := value_of cryptoData TagNONC in
  _ <~ validateClientNonce clientNonce;;
  _ <~ ms_check (bool_decide (value_of cryptoData TagAEAD = bytes_of_string "AESG")) errNoSupport;;
  _ <~ ms_check (bool_decide (value_of cryptoData TagKEXS = bytes_of_string "C255")) errNoSupport;;
  let secure := keyDerivation false sharedSecret clientNonce (connID h) data (ServerConfig.Get (scfg h)) cert divNonce PerspectiveServer in
  _ <~ ms_modify (fun h => set_keys h divNonce (match secure with Ok a => Some a | _ => None end) (forwardSecureAEAD h));;
  _ <~ ms_lift secure;;
  _ <~ notify EncryptionSecure;;
  ephermalSharedSecret <~ ms_lift (CalculateSharedKey ephermalKex (value_of cryptoData TagPUBS));;
  let forward := keyDerivation true ephermalSharedSecret (clientNonce ++ serverNonce) (connID h) data (ServerConfig.Get (scfg h)) cert [] PerspectiveServer in
  _ <~ ms_modify (fun h => set_keys h divNonce (secureAEAD h) (match forward with Ok a => Some a | _ => None end));;
  _ <~ ms_lift forward;;
  h <~ ms_get;;
  let '(e, params) := connectionParametersManager.SetFromMap (connectionParameters h) cryptoData in
  _ <~ ms_modify (fun h => set_params h params);;
  _ <~ ms_error e;;
  let verTag := concat (map (fun v => (LE.WriteUint32 (VersionNumberToTag v)).1) (supportedVersions h)) in
  let replyMap := <[TagVER := verTag]> (<[TagSNO := serverNonce]> (<[TagPUBS := PublicKey ephermalKex]> (connectionParametersManager.GetHelloMap params))) in
  ms_ret (HandshakeMessage.Write (HandshakeMessage.Mk TagSHLO replyMap)).1.

(** The checks of [handleMessage] before the hello is looked at: the SNI. *)
Definition check_hello (cryptoData : gmap Z (list Z)) : M (list Z) :=
  h <~ ms_get;;
  _ <~ ms_check (match cryptoData !! TagFHL2 with Some _ => false | None => true end) ErrHOLExperiment;;
  _ <~ ms_check (match cryptoData !! TagNSTP with Some _ => false | None => true end) ErrNSTPExperiment;;
  let sni := value_of cryptoData TagSNI in
  _ <~ ms_check (negb (bool_decide (sni = []))) errNoSNI;;
  verSlice <~ (match cryptoData !! TagVER with Some v => ms_ret v | None => ms_fail errNoVersion end);;
  _ <~ ms_check (length verSlice =? 4)%nat errVersionTag;;
  v <~ ms_lift (LE.ReadUint32 verSlice);;
  let ver := VersionTagToNumber v.1 in
  _ <~ ms_check (negb (negb (ver =? version h) && IsSupportedVersion (supportedVersions h) ver)) errDowngrade;;
  ms_ret sni.

(** Is the handshake done? *)
Definition handleMessage (chloData : list Z) (cryptoData : gmap Z (list Z)) (ephermalKex : KeyExchange) (rand rand' : res (list Z)) : M bool :=
  sni <~ check_hello cryptoData;;
  h <~ ms_get;;
  cert <~ ms_lift (CertChain.GetLeafCert (ServerConfig.certChain (scfg h)) sni);;
  if negb (isInchoateCHLO h cryptoData cert) then
    reply <~ handleCHLO sni chloData cryptoData ephermalKex rand rand';;
    _ <~ write_stream reply;;
    _ <~ notify EncryptionForwardSecure;;
    _ <~ ms_modify (fun h => set_channels h true (aeadChanged h) (aeadClosed h));;
    ms_ret true
  else
    reply <~ handleInchoateCHLO sni chloData cryptoData;;
    _ <~ write_stream reply;;
    ms_ret false.

(** One round of the loop of [HandleCryptoStream], on the bytes of the stream: the rest of them and
    whether the handshake is done. *)
Definition on_crypto_data (ephermalKex : KeyExchange) (rand rand' : res (list Z)) (input : list Z) : M (bool * list Z) :=
  match HandshakeMessage.ParseHandshakeMessage input with
  | Ok (message, rest) =>
      let chloData := take (length input - length rest) input in
      if negb (HandshakeMessage.Tag message =? TagCHLO) then ms_fail (QErr "InvalidCryptoMessageType" "")
      else done_ <~ handleMessage chloData (HandshakeMessage.Data message) ephermalKex rand rand';; ms_ret (done_, rest)
  | Err _ => ms_fail (QErr "HandshakeFailed" "")
  | Panic => ms_lift Panic
  end.

(** *** Packets *)

(** [None]: the call waits until the server hello was written. *)
Definition Open (src : list Z) (packetNumber : Z) (associatedData : list Z) (h : t) : option (res (list Z * Z) * t) :=
  let null := fun h => Some (d ← AEAD_Open nullAEAD src packetNumber associatedData; mret (d, EncryptionUnencrypted), h) in
  let try_secure := fun h =>
    match secureAEAD h with
    | Some a =>
        match AEAD_Open a src packetNumber associatedData with
        | Ok d => Some (Ok (d, EncryptionSecure), set_received h (receivedForwardSecurePacket h) true)
        | Err e => if receivedSecurePacket h then Some (Err e, h) else null h
        | Panic => Some (Panic, h)
        end
    | None => null h
    end in
  match forwardSecureAEAD h with
  | Some a =>
      match AEAD_Open a src packetNumber associatedData with
      | Ok d =>
          if receivedForwardSecurePacket h then Some (Ok (d, EncryptionForwardSecure), h)
          else if sentSHLO h
          then Some (Ok (d, EncryptionForwardSecure), set_channels (set_received h true (receivedSecurePacket h)) (sentSHLO h) (aeadChanged h) true)
          else None
      | Err e => if receivedForwardSecurePacket h then Some (Err e, h) else try_secure h
      | Panic => Some (Panic, h)
      end
  | None => try_secure h
  end.

Definition GetSealer (h : t) : Z * Sealer :=
  match forwardSecureAEAD h with
  | Some a => (EncryptionForwardSecure, AEAD_Seal a)
  | None => (EncryptionUnencrypted, AEAD_Seal nullAEAD)
  end.

Definition GetSealerForCryptoStream (h : t) : Z * Sealer :=
  match secureAEAD h with
  | Some a => (EncryptionSecure, AEAD_Seal a)
  | None => (EncryptionUnencrypted, AEAD_Seal nullAEAD)
  end.

Definition GetSealerWithEncryptionLevel (h : t) (encLevel : Z) : res Sealer :=
  sealer_at "CryptoSetupServer" nullAEAD (secureAEAD h) (forwardSecureAEAD h) encLevel.

End Server.
End cryptoSetupServer.
