(* ===== verification/CryptoClient.v ===== *)
(** * The crypto setup of a client

    Models [internal/handshake/crypto_setup_client.go]: the hellos a client sends, what it does with the
    answers of the server, when it takes the server for verified, the keys it derives and which of
    them it opens and seals packets with.

    As for the server, the AEADs, the key exchange, the key derivation and random bytes are
    parameters, and so is the certificate manager, an interface of [internal/crypto]: the class
    [CertManager].  The files of the handshake cache are a function from names to contents. *)

From stdpp Require Import base numbers list option strings gmap.
From S2P Require Import Prelude ByteOrder Protocol PublicHeader PacketUnpacker PacketPacker Handshake ServerConfig ConnectionParameters CryptoServer.

Local Open Scope Z_scope.

(** [crypto.CertManager]: [GetLeafCert] is [None] before the certificates are set. *)
Class CertManager (CM : Type) : Type := {
  SetData : CM -> list Z -> option goerr * CM;
  GetCommonCertificateHashes : CM -> list Z;
  GetLeafCert : CM -> option (list Z);
  GetLeafCertHash : CM -> Z;
  VerifyServerProof : CM -> list Z -> list Z -> list Z -> bool;      (* proof, CHLO, configuration *)
  Verify : CM -> string -> option goerr;
}.

Definition MaxClientHellos : Z := 3.

Definition errNoObitForClientNonce : goerr := GoErr "CryptoSetup BUG: No OBIT for client nonce available".
Definition errClientNonceAlreadyExists : goerr := GoErr "CryptoSetup BUG: A client nonce was already generated".
Definition errConflictingDiversificationNonces : goerr := GoErr "Received two different diversification nonces".
Definition errTooManyRejects : goerr := QErr "CryptoTooManyRejects" "More than 3 rejects".
Definition errProofInvalid : goerr := QErr "ProofInvalid" "".
Definition errConfigExpired : goerr := QErr "CryptoServerConfigExpired" "".
Definition errCertificateData : goerr := QErr "InvalidCryptoMessageParameter" "Certificate data invalid".
Definition errUnencryptedSHLO : goerr := QErr "CryptoEncryptionLevelIncorrect" "unencrypted SHLO message".
Definition errNoPubs : goerr := QErr "CryptoMessageParameterNotFound" "PUBS".
Definition errNoVersionList : goerr := QErr "InvalidCryptoMessageParameter" "server hello missing version list".
Definition errParameter : goerr := QErr "InvalidCryptoMessageParameter" "".

(** [TransportParameters] *)
Record TransportParameters : Type := MkTransport {
  RequestConnectionIDTruncation : bool;
  CacheHandshake : bool;
}.

Module cryptoSetupClient.
Section Client.
Context (keyDerivation : KeyDerivation) (nullAEAD : AEAD).
Context {CM : Type} `{!CertManager CM}.
Context (cryptoStream_Write : list Z -> option goerr).
(** The name it connects to, the versions offered in a version negotiation, the transport parameters. *)
Context (hostname : list Z) (hostname_string : string) (negotiatedVersions : list Z) (params : TransportParameters).

Record t : Type := Mk {
  connID : Z;
  version : Z;
  serverConfig : option serverConfigClient.t;
  stk : list Z;
  sno : option (list Z);                       (* [None]: nil *)
  nonc : list Z;
  proof : list Z;
  chloForSignature : list Z;
  lastSentCHLO : list Z;
  certManager : CM;
  certData : list Z;
  scfgData : list Z;
  diversificationNonce : list Z;
  clientHelloCounter : Z;
  serverVerified : bool;
  receivedSecurePacket : bool;
  secureAEAD : option AEAD;
  forwardSecureAEAD : option AEAD;
  aeadChanged : list Z;
  aeadClosed : bool;
  connectionParameters : connectionParametersManager.t;
  written : list (list Z);
}.

Definition NewCryptoSetupClient (connID version : Z) (cm : CM) (p : connectionParametersManager.t) : t :=
  Mk connID version None [] None [] [] [] [] cm [] [] [] 0 false false None None [] false p [].

Definition set_config (h : t) (c : option serverConfigClient.t) (raw nonc : list Z) : t :=
  Mk (connID h) (version h) c (stk h) (sno h) nonc (proof h) (chloForSignature h) (lastSentCHLO h) (certManager h) (certData h) raw
    (diversificationNonce h) (clientHelloCounter h) (serverVerified h) (receivedSecurePacket h) (secureAEAD h) (forwardSecureAEAD h)
    (aeadChanged h) (aeadClosed h) (connectionParameters h) (written h).
Definition set_tokens (h : t) (stk : list Z) (sno : option (list Z)) : t :=
  Mk (connID h) (version h) (serverConfig h) stk sno (nonc h) (proof h) (chloForSignature h) (lastSentCHLO h) (certManager h) (certData h) (scfgData h)
    (diversificationNonce h) (clientHelloCounter h) (serverVerified h) (receivedSecurePacket h) (secureAEAD h) (forwardSecureAEAD h)
    (aeadChanged h) (aeadClosed h) (connectionParameters h) (written h).
Definition set_proof (h : t) (proof chlo : list Z) : t :=
  Mk (connID h) (version h) (serverConfig h) (stk h) (sno h) (nonc h) proof chlo (lastSentCHLO h) (certManager h) (certData h) (scfgData h)
    (diversificationNonce h) (clientHelloCounter h) (serverVerified h) (receivedSecurePacket h) (secureAEAD h) (forwardSecureAEAD h)
    (aeadChanged h) (aeadClosed h) (connectionParameters h) (written h).
Definition set_certs (h : t) (cm : CM) (data : list Z) : t :=
  Mk (connID h) (version h) (serverConfig h) (stk h) (sno h) (nonc h) (proof h) (chloForSignature h) (lastSentCHLO h) cm data (scfgData h)
    (diversificationNonce h) (clientHelloCounter h) (serverVerified h) (receivedSecurePacket h) (secureAEAD h) (forwardSecureAEAD h)
    (aeadChanged h) (aeadClosed h) (connectionParameters h) (written h).
Definition set_hello (h : t) (last : list Z) (counter : Z) (written : list (list Z)) : t :=
  Mk (connID h) (version h) (serverConfig h) (stk h) (sno h) (nonc h) (proof h) (chloForSignature h) last (certManager h) (certData h) (scfgData h)
    (diversificationNonce h) counter (serverVerified h) (receivedSecurePacket h) (secureAEAD h) (forwardSecureAEAD h)
    (aeadChanged h) (aeadClosed h) (connectionParameters h) written.
Definition set_verified (h : t) (div : list Z) (verified received : bool) : t :=
  Mk (connID h) (version h) (serverConfig h) (stk h) (sno h) (nonc h) (proof h) (chloForSignature h) (lastSentCHLO h) (certManager h) (certData h) (scfgData h)
    div (clientHelloCounter h) verified received (secureAEAD h) (forwardSecureAEAD h)
    (aeadChanged h) (aeadClosed h) (connectionParameters h) (written h).
Definition set_keys (h : t) (secure forward : option AEAD) (levels : list Z) (closed : bool) (p : connectionParametersManager.t) : t :=
  Mk (connID h) (version h) (serverConfig h) (stk h) (sno h) (nonc h) (proof h) (chloForSignature h) (lastSentCHLO h) (certManager h) (certData h) (scfgData h)
    (diversificationNonce h) (clientHelloCounter h) (serverVerified h) (receivedSecurePacket h) secure forward levels closed p (written h).

Definition M : Type -> Type := MS t.

(** The send on [aeadChanged] panics when the channel was closed. *)
Definition notify (level : Z) : M unit := fun h =>
  if aeadClosed h then (Panic, h)
  else (Ok tt, set_keys h (secureAEAD h) (forwardSecureAEAD h) (aeadChanged h ++ [level]) false (connectionParameters h)).

(** [now] in nanoseconds since 1970; [rnd] is what [rand.Read] delivers for the last 20 bytes. *)
Definition generateClientNonce (now : Z) (rnd : res (list Z)) : M unit :=
  h <~ ms_get;;
  _ <~ ms_check (bool_decide (nonc h = [])) errClientNonceAlreadyExists;;
  config <~ ms_lift (match serverConfig h with Some c => Ok c | None => Panic end);;
  _ <~ ms_check (length (serverConfigClient.obit config) =? 8)%nat errNoObitForClientNonce;;
  rest <~ ms_lift rnd;;
  ms_modify (fun h => set_config h (serverConfig h) (scfgData h)
    ((BE.WriteUint32 (u32 (now / Second))).1 ++ serverConfigClient.obit config ++ rest)).

(** *** Hellos *)

Definition getTags (h : t) : gmap Z (list Z) :=
  let tags := connectionParametersManager.GetHelloMap (connectionParameters h) in
  let tags := <[TagPDMD := bytes_of_string "X509"]> (<[TagSNI := hostname]> tags) in
  let ccs := GetCommonCertificateHashes (certManager h) in
  let tags := if bool_decide (ccs = []) then tags else <[TagCCS := ccs]> tags in
  let tags := <[TagVER := (LE.WriteUint32 (VersionNumberToTag (version h))).1]> tags in
  let tags := if RequestConnectionIDTruncation params then <[TagTCID := [0; 0; 0; 0]]> tags else tags in
  let tags := if bool_decide (stk h = []) then tags else <[TagSTK := stk h]> tags in
  let tags := match sno h with Some (_ :: _ as n) => <[TagSNO := n]> tags | _ => tags end in
  match serverConfig h with
  | None => tags
  | Some config =>
      let tags := <[TagSCID := serverConfigClient.ID config]> tags in
      match GetLeafCert (certManager h) with
      | None => tags
      | Some _ =>
          <[TagPUBS := PublicKey (serverConfigClient.kex config)]>
          (<[TagAEAD := bytes_of_string "AESG"]>
          (<[TagKEXS := bytes_of_string "C255"]>
          (<[TagXLCT := (LE.WriteUint64 (GetLeafCertHash (certManager h))).1]>
          (<[TagNONC := nonc h]> tags))))
      end
  end.

Definition tags_size (tags : gmap Z (list Z)) : Z := map_fold (fun _ v n => n + (8 + Z.of_nat (length v))) 0 tags.

Definition addPadding (tags : gmap Z (list Z)) : gmap Z (list Z) :=
  let paddingSize := ClientHelloMinimumSize - tags_size tags in
  if 0 <? paddingSize then <[TagPAD := repeat 0 (Z.to_nat paddingSize)]> tags else tags.

Definition sendCHLO : M unit :=
  _ <~ ms_modify (fun h => set_hello h (lastSentCHLO h) (clientHelloCounter h + 1) (written h));;
  h <~ ms_get;;
  _ <~ ms_check (clientHelloCounter h <=? MaxClientHellos) errTooManyRejects;;
  let b := (HandshakeMessage.Write (HandshakeMessage.Mk TagCHLO (addPadding (getTags h)))).1 in
  _ <~ ms_error (cryptoStream_Write b);;
  ms_modify (fun h => set_hello h b (clientHelloCounter h) (written h ++ [b])).

(** *** Answers *)

(** [if v, ok := cryptoData[tag]; ok] *)
Definition when (cryptoData : gmap Z (list Z)) (tag : Z) (f : list Z -> M unit) : M unit :=
  match cryptoData !! tag with Some v => f v | None => ms_ret tt end.

Definition handleREJMessage (cryptoData : gmap Z (list Z)) (newKEX : res KeyExchange) (now : Z) (rnd : res (list Z)) : M unit :=
  _ <~ when cryptoData TagSTK (fun v => ms_modify (fun h => set_tokens h v (sno h)));;
  _ <~ when cryptoData TagSNO (fun v => ms_modify (fun h => set_tokens h (stk h) (Some v)));;
  _ <~ when cryptoData TagSCFG (fun scfg =>
         let parsed := serverConfigClient.parseServerConfig newKEX scfg in
         _ <~ ms_modify (fun h => set_config h (match parsed with Ok c => Some c | _ => None end) (scfgData h) (nonc h));;
         c <~ ms_lift parsed;;
         _ <~ ms_check (negb (serverConfigClient.IsExpired c now)) errConfigExpired;;
         _ <~ ms_modify (fun h => set_config h (serverConfig h) scfg (nonc h));;
         h <~ ms_get;;
         if bool_decide (nonc h = []) then generateClientNonce now rnd else ms_ret tt);;
  _ <~ when cryptoData TagPROF (fun v => ms_modify (fun h => set_proof h v (lastSentCHLO h)));;
  _ <~ when cryptoData TagCERT (fun crt =>
         h <~ ms_get;;
         let '(e, cm) := SetData (certManager h) crt in
         _ <~ ms_modify (fun h => set_certs h cm (certData h));;
         _ <~ ms_check (match e with None => true | Some _ => false end) errCertificateData;;
         _ <~ ms_modify (fun h => set_certs h (certManager h) crt);;
         ms_check (match Verify cm "quic.clemente.io" with None => true | Some _ => false end) errProofInvalid);;
  h <~ ms_get;;
  match serverConfig h, GetLeafCert (certManager h) with
  | Some c, Some _ =>
      if bool_decide (proof h = []) then ms_ret tt
      else
        _ <~ ms_check (VerifyServerProof (certManager h) (proof h) (chloForSignature h) (serverConfigClient.Get c)) errProofInvalid;;
        ms_modify (fun h => set_verified h (diversificationNonce h) true (receivedSecurePacket h))
  | _, _ => ms_ret tt
  end.

(** The loop of [validateVersionList]. *)
Fixpoint versions_match (vs : list Z) (b : list Z) : bool :=
  match vs with
  | [] => true
  | negotiatedVersion :: vs =>
      match LE.ReadUint32 b with
      | Ok (verTag, b) =>
          let ver := VersionTagToNumber verTag in
          let ver := if IsSupportedVersion SupportedVersions ver then ver else VersionUnsupported in
          if negb (ver =? negotiatedVersion) then false else versions_match vs b
      | _ => false
      end
  end.

Definition validateVersionList (verTags : list Z) : bool :=
  match negotiatedVersions with
  | [] => true
  | _ =>
      if negb (length verTags mod 4 =? 0)%nat || negb (length verTags / 4 =? length negotiatedVersions)%nat then false
      else versions_match negotiatedVersions verTags
  end.

Definition handleSHLOMessage (cryptoData : gmap Z (list Z)) : M unit :=
  h <~ ms_get;;
  _ <~ ms_check (receivedSecurePacket h) errUnencryptedSHLO;;
  _ <~ when cryptoData TagSNO (fun v => ms_modify (fun h => set_tokens h (stk h) (Some v)));;
  serverPubs <~ (match cryptoData !! TagPUBS with Some v => ms_ret v | None => ms_fail errNoPubs end);;
  verTag <~ (match cryptoData !! TagVER with Some v => ms_ret v | None => ms_fail errNoVersionList end);;
  _ <~ ms_check (validateVersionList verTag) errDowngrade;;
  h <~ ms_get;;
  let nonce := nonc h ++ default [] (sno h) in
  config <~ ms_lift (match serverConfig h with Some c => Ok c | None => Panic end);;
  ephermalSharedSecret <~ ms_lift (CalculateSharedKey (serverConfigClient.kex config) serverPubs);;
  let forward := keyDerivation true ephermalSharedSecret nonce (connID h) (lastSentCHLO h) (serverConfigClient.Get config)
                   (default [] (GetLeafCert (certManager h))) [] PerspectiveClient in
  _ <~ ms_modify (fun h => set_keys h (secureAEAD h) (match forward with Ok a => Some a | _ => None end) (aeadChanged h) (aeadClosed h) (connectionParameters h));;
  _ <~ ms_lift forward;;
  h <~ ms_get;;
  let '(e, p) := connectionParametersManager.SetFromMap (connectionParameters h) cryptoData in
  _ <~ ms_modify (fun h => set_keys h (secureAEAD h) (forwardSecureAEAD h) (aeadChanged h) (aeadClosed h) p);;
  _ <~ ms_check (match e with None => true | Some _ => false end) errParameter;;
  _ <~ notify EncryptionForwardSecure;;
  ms_modify (fun h => set_keys h (secureAEAD h) (forwardSecureAEAD h) (aeadChanged h) true (connectionParameters h)).

Definition nonempty (l : list Z) : bool := negb (bool_decide (l = [])).

Definition maybeUpgradeCrypto : M unit :=
  h <~ ms_get;;
  if negb (serverVerified h) then ms_ret tt
  else
    match secureAEAD h, serverConfig h with
    | None, Some config =>
        let leafCert := default [] (GetLeafCert (certManager h)) in
        if nonempty (serverConfigClient.sharedSecret config) && nonempty (nonc h) && nonempty leafCert
           && nonempty (diversificationNonce h) && nonempty (lastSentCHLO h)
        then
          let nonce := nonc h ++ default [] (sno h) in
          let secure := keyDerivation false (serverConfigClient.sharedSecret config) nonce (connID h) (lastSentCHLO h) (serverConfigClient.Get config)
                          leafCert (diversificationNonce h) PerspectiveClient in
          _ <~ ms_modify (fun h => set_keys h (match secure with Ok a => Some a | _ => None end) (forwardSecureAEAD h) (aeadChanged h) (aeadClosed h) (connectionParameters h));;
          _ <~ ms_lift secure;;
          notify EncryptionSecure
        else ms_ret tt
    | _, _ => ms_ret tt
    end.

(** *** The loop of [HandleCryptoStream] *)

(** What the loop waits for: a diversification nonce, a message of the crypto stream, or the error of
    its parser. *)
Inductive event : Type :=
| DivNonce (n : list Z)
| Message (m : HandshakeMessage.t)
| Broken (e : goerr).

(** The beginning of a round, up to where it waits. *)
Definition prepare : M unit :=
  _ <~ maybeUpgradeCrypto;;
  h <~ ms_get;;
  match secureAEAD h with None => sendCHLO | Some _ => ms_ret tt end.

(** The rest of a round. *)
Definition handle_event (ev : event) (newKEX : res KeyExchange) (now : Z) (rnd : res (list Z)) : M unit :=
  match ev with
  | DivNonce divNonce =>
      h <~ ms_get;;
      _ <~ ms_check (negb (nonempty (diversificationNonce h) && negb (bool_decide (diversificationNonce h = divNonce)))) errConflictingDiversificationNonces;;
      ms_modify (fun h => set_verified h divNonce (serverVerified h) (receivedSecurePacket h))
  | Message m =>
      if HandshakeMessage.Tag m =? TagREJ then handleREJMessage (HandshakeMessage.Data m) newKEX now rnd
      else if HandshakeMessage.Tag m =? TagSHLO then handleSHLOMessage (HandshakeMessage.Data m)
      else ms_fail (QErr "InvalidCryptoMessageType" "")
  | Broken e => ms_fail (QErr "HandshakeFailed" (Error e))
  end.

Definition on_event (ev : event) (newKEX : res KeyExchange) (now : Z) (rnd : res (list Z)) : M unit :=
  _ <~ handle_event ev newKEX now rnd;; prepare.

(** [useHandshakeCache], where it succeeds; a failure leaves what was set before it. *)
Definition useHandshakeCache (file : string -> res (list Z)) (newKEX : res KeyExchange) (now : Z) (rnd : res (list Z)) : M unit :=
  sni <~ ms_lift (file ("cache_sni_" +:+ hostname_string));;
  _ <~ ms_check (bool_decide (sni = hostname)) (GoErr "error when comparing SNI");;
  token <~ ms_lift (file ("cache_stk_" +:+ hostname_string));;
  _ <~ ms_modify (fun h => set_tokens h token (sno h));;
  certs <~ ms_lift (file ("cache_cert_" +:+ hostname_string));;
  h <~ ms_get;;
  let '(e, cm) := SetData (certManager h) certs in
  _ <~ ms_modify (fun h => set_certs h cm certs);;
  _ <~ ms_error e;;
  scfg <~ ms_lift (file ("cache_scfg_" +:+ hostname_string));;
  let parsed := serverConfigClient.parseServerConfig newKEX scfg in
  _ <~ ms_modify (fun h => set_config h (match parsed with Ok c => Some c | _ => None end) scfg (nonc h));;
  _ <~ ms_lift parsed;;
  _ <~ generateClientNonce now rnd;;
  ms_modify (fun h => set_verified h (diversificationNonce h) true (receivedSecurePacket h)).

(** [HandleCryptoStream] up to where it first waits. *)
Definition start (file : string -> res (list Z)) (newKEX : res KeyExchange) (now : Z) (rnd : res (list Z)) : M unit := fun h =>
  let h := if CacheHandshake params then (useHandshakeCache file newKEX now rnd h).2 else h in
  prepare h.

(** *** Packets *)

Definition Open (src : list Z) (packetNumber : Z) (associatedData : list Z) (h : t) : res (list Z * Z) * t :=
  let null := (d ← AEAD_Open nullAEAD src packetNumber associatedData; mret (d, EncryptionUnencrypted), h) in
  match forwardSecureAEAD h with
  | Some a => (d ← AEAD_Open a src packetNumber associatedData; mret (d, EncryptionForwardSecure), h)
  | None =>
      match secureAEAD h with
      | Some a =>
          match AEAD_Open a src packetNumber associatedData with
          | Ok d => (Ok (d, EncryptionSecure), set_verified h (diversificationNonce h) (serverVerified h) true)
          | Err e => if receivedSecurePacket h then (Err e, h) else null
          | Panic => (Panic, h)
          end
      | None => null
      end
  end.

Definition GetSealer (h : t) : Z * Sealer :=
  match forwardSecureAEAD h, secureAEAD h with
  | Some a, _ => (EncryptionForwardSecure, AEAD_Seal a)
  | None, Some a => (EncryptionSecure, AEAD_Seal a)
  | None, None => (EncryptionUnencrypted, AEAD_Seal nullAEAD)
  end.

Definition GetSealerForCryptoStream (h : t) : Z * Sealer := (EncryptionUnencrypted, AEAD_Seal nullAEAD).

Definition GetSealerWithEncryptionLevel (h : t) (encLevel : Z) : res Sealer :=
  sealer_at "CryptoSetupClient" nullAEAD (secureAEAD h) (forwardSecureAEAD h) encLevel.

End Client.
End cryptoSetupClient.
