(* ===== verification/HandshakeFacts.v ===== *)
(** * What the handshake guarantees

    Theorems about the crypto setups of client and server: hellos are large enough and few enough, a
    server sends its certificates and keys only to a client that owns its address, neither side
    accepts a weaker encryption once it has seen a stronger one, and both derive their keys from the
    same data; when a client takes a server for verified, and how it can be made to do so. *)

From stdpp Require Import base numbers list option strings gmap.
From S2P Require Import Prelude ByteOrder Protocol PublicHeader PacketUnpacker PacketPacker Handshake ServerConfig ConnectionParameters CryptoServer CryptoClient.

Local Open Scope Z_scope.

(** ** The size of a message *)

Definition values_size (data : gmap Z (list Z)) (tags : list Z) : Z :=
  foldr (fun t n => n + Z.of_nat (length (default [] (data !! t)))) 0 tags.

Lemma length_values data tags : forall offset,
  Z.of_nat (length (HandshakeMessage.write_values data tags offset).2) = values_size data tags.
Proof.
  induction tags as [|t tags IH]; intros offset; cbn [HandshakeMessage.write_values values_size foldr]; [done|].
  specialize (IH (u32 (offset + u32 (Z.of_nat (length (default [] (data !! t))))))).
  destruct (HandshakeMessage.write_values data tags _) as [i v]. cbn [snd] in *. rewrite length_app, Nat2Z.inj_add, IH. unfold values_size. lia.
Qed.

Lemma values_size_perm data l l' : l ≡ₚ l' -> values_size data l = values_size data l'.
Proof. intros Hp. unfold values_size. induction Hp; cbn [foldr]; lia. Qed.

Lemma values_size_map data : 8 * Z.of_nat (size data) + values_size data (map fst (map_to_list data)) = cryptoSetupClient.tags_size data.
Proof.
  unfold cryptoSetupClient.tags_size.
  assert (forall m : gmap Z (list Z), m ⊆ data -> 8 * Z.of_nat (size m) + values_size data (map fst (map_to_list m)) = map_fold (fun _ v n => n + (8 + Z.of_nat (length v))) 0 m) as H;
    [|by apply H].
  intros m. induction m as [|k v m Hk IH] using map_ind; intros Hsub; [by rewrite map_size_empty, map_fold_empty, map_to_list_empty|].
  assert (data !! k = Some v) as Ek by (eapply lookup_weaken; [|exact Hsub]; apply lookup_insert_eq).
  rewrite map_size_insert_None by done. rewrite map_fold_insert_L by (done || (intros; lia)).
  rewrite (values_size_perm _ _ (k :: map fst (map_to_list m))).
  2: { rewrite map_to_list_insert by done. done. }
  cbn [values_size foldr]. rewrite Ek. fold (values_size data (map fst (map_to_list m))).
  specialize (IH ltac:(etrans; [by apply insert_subseteq|done])). cbn [default from_option id]. lia.
Qed.

Lemma message_size h : Z.of_nat (length (HandshakeMessage.Write h).1) = 8 + cryptoSetupClient.tags_size (HandshakeMessage.Data h).
Proof.
  unfold HandshakeMessage.Write. pose proof (length_index (HandshakeMessage.Data h) (HandshakeMessage.getTagsSorted h) 0) as Hi.
  pose proof (length_values (HandshakeMessage.Data h) (HandshakeMessage.getTagsSorted h) 0) as Hv. rewrite length_sorted in Hi.
  destruct (HandshakeMessage.write_values _ _ _) as [i v]. cbn [fst snd] in *.
  change ((_ >;> _)%go.1) with (le_bytes 4 (HandshakeMessage.Tag h) ++ le_bytes 2 (u16 (Z.of_nat (size (HandshakeMessage.Data h)))) ++ le_bytes 2 0 ++ i ++ v).
  rewrite !length_app, !length_le_bytes, Hi. rewrite <- values_size_map.
  rewrite (values_size_perm _ (HandshakeMessage.getTagsSorted h) (map fst (map_to_list (HandshakeMessage.Data h)))) in Hv
    by apply sorting.merge_sort_Permutation. lia.
Qed.

(** Key derivation does not fail (it only expands a secret). *)
Definition kdf_total (keyDerivation : KeyDerivation) : Prop :=
  forall fs secret nonces c chlo scfg cert div pers, exists a, keyDerivation fs secret nonces c chlo scfg cert div pers = Ok a.

Ltac derive Hkdf :=
  match type of Hkdf with kdf_total ?kd =>
    match goal with |- context [kd ?fs ?s ?n ?c ?ch ?sc ?ce ?d ?p] => let E := fresh in destruct (Hkdf fs s n c ch sc ce d p) as [? E]; rewrite E end
  end.

#[local] Opaque HandshakeMessage.Write HandshakeMessage.ParseHandshakeMessage ServerConfig.Get.

(** ** The client *)

Section Client.
Import cryptoSetupClient.
Context (keyDerivation : KeyDerivation) (nullAEAD : AEAD) {CM : Type} `{!CertManager CM}.
Context (cryptoStream_Write : list Z -> option goerr) (hostname : list Z) (hostname_string : string) (negotiatedVersions : list Z) (params : TransportParameters).

Abbreviation client := (cryptoSetupClient.t (CM := CM)).
Abbreviation sendCHLO := (cryptoSetupClient.sendCHLO cryptoStream_Write hostname params).
Abbreviation prepare := (cryptoSetupClient.prepare keyDerivation cryptoStream_Write hostname params).
Abbreviation handle_event := (cryptoSetupClient.handle_event keyDerivation negotiatedVersions).
Abbreviation on_event := (cryptoSetupClient.on_event keyDerivation cryptoStream_Write hostname negotiatedVersions params).
Abbreviation start := (cryptoSetupClient.start keyDerivation cryptoStream_Write hostname hostname_string params).
Abbreviation getTags := (cryptoSetupClient.getTags hostname params).

(** *** Hellos *)

Lemma getTags_no_padding (h : client) : getTags h !! TagPAD = None.
Proof.
  unfold cryptoSetupClient.getTags. destruct (serverConfig h) as [c|]; [destruct (GetLeafCert _)|]; destruct (sno h) as [[|]|];
    repeat case_bool_decide; destruct (RequestConnectionIDTruncation params); repeat (rewrite lookup_insert_ne by done); done.
Qed.

Lemma padded_size tags : tags !! TagPAD = None -> ClientHelloMinimumSize <= tags_size (addPadding tags).
Proof.
  intros Hno. unfold addPadding. destruct (Z.ltb_spec 0 (ClientHelloMinimumSize - tags_size tags)); [|lia].
  unfold tags_size at 1. rewrite map_fold_insert_L by (done || (intros; lia)). fold (tags_size tags). rewrite repeat_length. lia.
Qed.

(** Has sent at most three hellos, all long enough. *)
Definition hellos_ok (h : client) : Prop :=
  Z.of_nat (length (written h)) <= clientHelloCounter h /\ Z.of_nat (length (written h)) <= MaxClientHellos
  /\ Forall (fun b => ClientHelloMinimumSize + 8 <= Z.of_nat (length b)) (written h).

Lemma sendCHLO_ok : ms_keeps hellos_ok sendCHLO.
Proof.
  intros h (H1 & H2 & H3). unfold cryptoSetupClient.sendCHLO, ms_bind, ms_modify, ms_get. cbn beta iota.
  set (h1 := set_hello h _ _ _). unfold ms_check. destruct (Z.leb_spec (clientHelloCounter h1) MaxClientHellos) as [Hle|_]; cbn [ms_ret ms_fail].
  2: { split; cbn; [lia|]. by split. }
  set (b := (HandshakeMessage.Write _).1). unfold ms_error. destruct (cryptoStream_Write b); cbn.
  { split; cbn; [lia|]. by split. }
  unfold hellos_ok. cbn. rewrite length_app. cbn [length]. cbn in Hle. split; [lia|]. split; [lia|]. apply Forall_app. split; [done|].
  apply Forall_singleton. unfold b. rewrite message_size. cbn [HandshakeMessage.Data]. pose proof (padded_size _ (getTags_no_padding h1)). lia.
Qed.

(** The rest of the client does not touch the hellos. *)
Definition only_hellos (P : client -> Prop) : Prop :=
  forall h h', written h' = written h -> clientHelloCounter h' = clientHelloCounter h -> P h -> P h'.
Lemma hellos_ok_only : only_hellos hellos_ok.
Proof. intros h h' E1 E2. unfold hellos_ok. by rewrite E1, E2. Qed.

Section Kept.
Context (P : client -> Prop) (HP : only_hellos P).

Lemma keeps_notify level : ms_keeps P (notify level).
Proof using HP. intros h Hh. unfold notify. destruct (aeadClosed h); [done|]. by eapply HP; [..|exact Hh]. Qed.
Lemma keeps_nonce now rnd : ms_keeps P (generateClientNonce now rnd).
Proof using HP. unfold generateClientNonce. ms_split. intros h Hh. by eapply HP; [..|exact Hh]. Qed.
Lemma keeps_upgrade : ms_keeps P (maybeUpgradeCrypto keyDerivation).
Proof using HP. unfold maybeUpgradeCrypto. ms_split; [|apply keeps_notify]. intros h Hh. by eapply HP; [..|exact Hh]. Qed.
Lemma keeps_SHLO m : ms_keeps P (handleSHLOMessage keyDerivation negotiatedVersions m).
Proof using HP. unfold handleSHLOMessage, when. ms_split; try apply keeps_notify; intros h Hh; by eapply HP; [..|exact Hh]. Qed.
Lemma keeps_REJ m newKEX now rnd : ms_keeps P (handleREJMessage m newKEX now rnd).
Proof using HP. unfold handleREJMessage, when. ms_split; try apply keeps_nonce; intros h Hh; by eapply HP; [..|exact Hh]. Qed.
Lemma keeps_event ev newKEX now rnd : ms_keeps P (handle_event ev newKEX now rnd).
Proof using HP.
  destruct ev as [n|m|e]; unfold cryptoSetupClient.handle_event; ms_split; try apply keeps_REJ; try apply keeps_SHLO.
  intros h Hh. by eapply HP; [..|exact Hh].
Qed.
Lemma keeps_cache file newKEX now rnd : ms_keeps P (useHandshakeCache hostname hostname_string file newKEX now rnd).
Proof using HP. unfold useHandshakeCache. ms_split; try apply keeps_nonce; intros h Hh; by eapply HP; [..|exact Hh]. Qed.
End Kept.

(** *** Runs of a client *)

(** What can happen to a client: it is started, it handles an event while it runs, it opens a packet.
    The flag says whether it still runs; events
    are restricted to those that are [allowed]. *)
Inductive client_run (allowed : event -> Prop) (h0 : client) : bool -> client -> Prop :=
| cr_start file newKEX now rnd r h : start file newKEX now rnd h0 = (r, h) -> client_run allowed h0 (is_ok r) h
| cr_event ev newKEX now rnd h r h' :
    client_run allowed h0 true h -> allowed ev -> on_event ev newKEX now rnd h = (r, h') -> client_run allowed h0 (is_ok r) h'
| cr_open src n ad h r h' b : client_run allowed h0 b h -> Open nullAEAD src n ad h = (r, h') -> client_run allowed h0 b h'.

Lemma keeps_Open P (HP : only_hellos P) src n ad h : P h -> P (Open nullAEAD src n ad h).2.
Proof.
  clear negotiatedVersions params cryptoStream_Write hostname hostname_string. intros Hh. unfold Open.
  destruct (forwardSecureAEAD h); [done|]. destruct (secureAEAD h) as [a|]; [|done].
  destruct (AEAD_Open a src n ad); [|by destruct (receivedSecurePacket h)|done]. by eapply HP; [..|exact Hh].
Qed.

(** Whatever a server or an attacker answers, a client sends at most three hellos, and each has the
    1024 bytes without which a server refuses it. *)
Theorem client_hellos connID version cm p b h :
  client_run (fun _ => True) (NewCryptoSetupClient connID version cm p) b h ->
  (length (written h) <= 3)%nat /\ Forall (fun hello => ClientHelloMinimumSize <= Z.of_nat (length hello)) (written h).
Proof.
  intros Hrun. enough (hellos_ok h) as (_ & H1 & H2).
  { unfold MaxClientHellos in H1. split; [lia|]. eapply Forall_impl; [exact H2|]. cbn beta. intros. lia. }
  assert (ms_keeps hellos_ok prepare) as Hprep.
  { unfold cryptoSetupClient.prepare. ms_split; [|apply sendCHLO_ok]. apply keeps_upgrade, hellos_ok_only. }
  induction Hrun as [file newKEX now rnd r h E|ev newKEX now rnd h r h' _ IH _ E|src n ad h r h' b _ IH E].
  - change h with (r, h).2. rewrite <- E. unfold cryptoSetupClient.start. apply Hprep. destruct (CacheHandshake params).
    + apply keeps_cache; [apply hellos_ok_only|]. by split_and!.
    + by split_and!.
  - change h' with (r, h').2. rewrite <- E. unfold cryptoSetupClient.on_event. revert h IH E. intros h IH _. revert h IH.
    apply (ms_keeps_bind hellos_ok); [apply keeps_event, hellos_ok_only|done].
  - change h' with (r, h').2. rewrite <- E. by apply keeps_Open; [apply hellos_ok_only|].
Qed.

(** *** The server is verified *)

(** The certificate manager of [internal/crypto]: without certificates nothing is verified. *)
Class CertManagerOk : Prop := {
  verify_leaf cm name : Verify cm name = None -> GetLeafCert cm <> None;
  proof_leaf cm proof chlo scfg : VerifyServerProof cm proof chlo scfg = true -> GetLeafCert cm <> None;
}.
Context `{HCM : !CertManagerOk}.

(** The configuration in use was signed, together with this hello, by the owner of the certificate. *)
Definition proved (chlo : list Z) (h : client) : Prop :=
  exists c, serverConfig h = Some c /\ proof h <> []
    /\ VerifyServerProof (certManager h) (proof h) chlo (serverConfigClient.Get c) = true.
Definition verified_proved (h : client) : Prop := serverVerified h = true -> proved (chloForSignature h) h.

Definition has_proof (h : client) : Prop :=
  serverVerified h = true -> proof h <> [] /\ serverConfig h <> None /\ GetLeafCert (certManager h) <> None.

Definition has_config (h : client) : Prop := has_proof h /\ serverConfig h <> None.

Lemma ok_when (P Q : client -> Prop) m tag (f : list Z -> cryptoSetupClient.M unit) :
  (forall h, P h -> Q h) -> (forall v, m !! tag = Some v -> ms_ok P (f v) (fun _ => Q)) -> ms_ok P (when m tag f) (fun _ => Q).
Proof. intros HPQ Hf. unfold when. destruct (m !! tag) as [v|]; [by apply Hf|]. by apply ok_ret. Qed.

Lemma REJ_verifies m newKEX now rnd :
  m !! TagPROF <> Some [] -> ms_ok verified_proved (handleREJMessage m newKEX now rnd) (fun _ => verified_proved).
Proof using HCM.
  intros Hne. unfold handleREJMessage.
  apply (ok_bind _ _ _ (fun _ => has_proof)).
  { apply ok_when; [|intros v _; apply ok_modify]; intros h Hh Hv; destruct (Hh Hv) as (c & E1 & E2 & E3); (split; [done|]); cbn;
      rewrite E1; (split; [done|]); by eapply proof_leaf. }
  intros _. apply (ok_bind _ _ _ (fun _ => has_proof)). { apply ok_when; [done|]. intros v _. by apply ok_modify. }
  intros _. apply (ok_bind _ _ _ (fun _ => has_proof)).
  { apply ok_when; [done|]. intros scfg _. cbn zeta.
    set (parsed := serverConfigClient.parseServerConfig newKEX scfg).
    apply (ok_bind _ _ _ (fun _ h => serverVerified h = true -> proof h <> [] /\ GetLeafCert (certManager h) <> None
      /\ (forall c, parsed = Ok c -> serverConfig h = Some c))).
    { apply ok_modify. intros h Hh Hv. destruct (Hh Hv) as (? & ? & ?). cbn. split_and!; [done..|]. by intros c ->. }
    intros _. apply (ok_bind _ _ _ (fun _ => has_proof)).
    { apply ok_lift. intros c h Ec Hh Hv. destruct (Hh Hv) as (? & ? & Hc). rewrite (Hc c Ec). by split_and!. }
    intros c. apply ok_keeps. ms_split; [by intros h Hh|]. unfold generateClientNonce. ms_split. by intros h Hh. }
  intros _. apply (ok_bind _ _ _ (fun _ => has_proof)).
  { apply ok_when; [done|]. intros v Ev. apply ok_modify. intros h Hh Hv. destruct (Hh Hv) as (_ & ? & ?). split_and!; [|done..]. cbn. congruence. }
  intros _. apply (ok_bind _ _ _ (fun _ => has_proof)).
  { apply ok_when; [done|]. intros crt _. apply (ok_bind _ _ _ (fun _ => has_proof)); [by apply ok_get|]. intros h0.
    destruct (SetData (certManager h0) crt) as [e cm].
    apply (ok_bind _ _ _ (fun _ h => (serverVerified h = true -> proof h <> [] /\ serverConfig h <> None) /\ certManager h = cm)).
    { apply ok_modify. intros h Hh. split; [|done]. intros Hv. by destruct (Hh Hv) as (? & ? & ?). }
    intros _. apply (ok_bind _ _ _ (fun _ h => (serverVerified h = true -> proof h <> [] /\ serverConfig h <> None) /\ certManager h = cm)); [by apply ok_check|].
    intros _. apply (ok_bind _ _ _ (fun _ h => (serverVerified h = true -> proof h <> [] /\ serverConfig h <> None) /\ certManager h = cm)); [by apply ok_modify|].
    intros _. apply ok_check. intros h Hver [Hh Ecm] Hv. destruct (Hh Hv). split_and!; [done..|]. rewrite Ecm.
    destruct (Verify cm "quic.clemente.io") eqn:E; [done|]. by eapply verify_leaf. }
  intros _ h a h' Hh E. unfold ms_bind, ms_get in E. revert E.
  destruct (serverConfig h) as [c|] eqn:Ec; [|intros [= <- <-] Hv; by destruct (Hh Hv) as (_ & ? & _)].
  destruct (GetLeafCert (certManager h)) eqn:El; [|intros [= <- <-] Hv; by destruct (Hh Hv) as (_ & _ & ?)].
  case_bool_decide as Ep; [intros [= <- <-] Hv; by destruct (Hh Hv) as (? & _ & _)|].
  destruct (VerifyServerProof (certManager h) (proof h) (chloForSignature h) (serverConfigClient.Get c)) eqn:Ever; [|done].
  intros [= <- <-] _. by exists c.
Qed.

(** The hello that the next proof is over was sent, and so was the one that the proof received is over. *)
Definition hellos_sent (h : client) : Prop := lastSentCHLO h ∈ written h /\ (proof h <> [] -> chloForSignature h ∈ written h).

Lemma REJ_sent m newKEX now rnd : ms_keeps hellos_sent (handleREJMessage m newKEX now rnd).
Proof. unfold handleREJMessage, when, generateClientNonce. ms_split; intros h [H1 H2]; split; try done. Qed.

Lemma event_sent ev newKEX now rnd : ms_keeps hellos_sent (handle_event ev newKEX now rnd).
Proof.
  destruct ev as [n|m|e]; unfold cryptoSetupClient.handle_event; ms_split; try apply REJ_sent; [by intros h Hh|].
  unfold handleSHLOMessage, when. ms_split; try (intros h1 Hh1; exact Hh1). intros h1 Hh1. unfold notify. by destruct (aeadClosed h1).
Qed.

Lemma sendCHLO_sends h h' : (proof h <> [] -> chloForSignature h ∈ written h) -> sendCHLO h = (Ok tt, h') -> hellos_sent h'.
Proof.
  intros Hh. unfold cryptoSetupClient.sendCHLO, ms_bind, ms_modify, ms_get, ms_check, ms_error. cbn beta iota. destruct (_ <=? _); [|done]. cbn [ms_ret].
  destruct (cryptoStream_Write _); [done|]. intros [= <-]. split; cbn; [apply elem_of_app; right; by left|]. intros Hp. apply elem_of_app. left. by apply Hh.
Qed.

Lemma prepare_sent h h' : hellos_sent h -> prepare h = (Ok tt, h') -> hellos_sent h'.
Proof.
  intros Hh. unfold cryptoSetupClient.prepare, ms_bind at 1.
  assert (ms_keeps hellos_sent (maybeUpgradeCrypto keyDerivation)) as Hup.
  { unfold maybeUpgradeCrypto. ms_split; try (intros h1 Hh1; exact Hh1). intros h1 Hh1. unfold notify. by destruct (aeadClosed h1). }
  specialize (Hup h Hh). destruct (maybeUpgradeCrypto keyDerivation h) as [[[]| |] h1]; cbn [snd] in Hup; [|done..].
  unfold ms_bind, ms_get. destruct (secureAEAD h1); [by intros [= <-]|]. apply sendCHLO_sends, Hup.
Qed.

Lemma started_sent connID version cm p h : prepare (NewCryptoSetupClient connID version cm p) = (Ok tt, h) -> hellos_sent h.
Proof. by apply sendCHLO_sends. Qed.

Lemma Open_same src n ad (h h' : client) r : Open nullAEAD src n ad h = (r, h') ->
  h' = h \/ h' = set_verified h (diversificationNonce h) (serverVerified h) true.
Proof.
  unfold Open. destruct (forwardSecureAEAD h); [intros [= _ <-]; by left|].
  destruct (secureAEAD h) as [a|]; [|intros [= _ <-]; by left]. destruct (AEAD_Open a src n ad); [intros [= _ <-]; by right| |intros [= _ <-]; by left].
  destruct (receivedSecurePacket h); intros [= _ <-]; by left.
Qed.

(** C17. Unless it uses a cache or is sent an empty proof, a client that runs takes the server for
    verified only while the configuration it derives its keys from is signed, together with a hello
    that the client sent, by the owner of the certificate it was shown last. *)
Theorem verified_server_is_proved connID version cm p h :
  CacheHandshake params = false ->
  client_run (fun ev => match ev with Message m => HandshakeMessage.Data m !! TagPROF <> Some [] | _ => True end)
    (NewCryptoSetupClient connID version cm p) true h ->
  serverVerified h = true -> exists chlo, chlo ∈ written h /\ proved chlo h.
Proof using HCM.
  intros Hcache Hrun. enough (verified_proved h /\ hellos_sent h) as [H [_ Hs]].
  { intros Hv. destruct (H Hv) as (c & E1 & E2 & E3). exists (chloForSignature h). split; [by apply Hs|]. by exists c. }
  assert (ms_keeps verified_proved prepare) as Hprep.
  { unfold cryptoSetupClient.prepare, maybeUpgradeCrypto, cryptoSetupClient.sendCHLO. ms_split; try (intros h' Hh'; exact Hh').
    intros h' Hh'. unfold notify. by destruct (aeadClosed h'). }
  remember true as b eqn:Eb. induction Hrun as [file newKEX now rnd r h E|ev newKEX now rnd h r h' _ IH Hev E|src n ad h r h' b _ IH E].
  - destruct r as [[]| |]; [|done..]. unfold cryptoSetupClient.start in E. rewrite Hcache in E. split; [|by apply started_sent in E].
    change h with (Ok tt : res unit, h).2. rewrite <- E. by apply Hprep.
  - destruct r as [[]| |]; [|done..]. specialize (IH eq_refl) as [IH Hs]. unfold cryptoSetupClient.on_event in E.
    assert (ms_ok verified_proved (handle_event ev newKEX now rnd) (fun _ => verified_proved)) as Hok.
    { destruct ev as [n|m|e]; unfold cryptoSetupClient.handle_event.
      - apply ok_keeps. ms_split. intros h1 Hh1. exact Hh1.
      - destruct (_ =? _); [by apply REJ_verifies|]. destruct (_ =? _); [|apply ok_fail]. apply ok_keeps.
        unfold handleSHLOMessage, when. ms_split; try (intros h1 Hh1; exact Hh1). intros h1 Hh1. unfold notify. by destruct (aeadClosed h1).
      - apply ok_fail. }
    split.
    + eapply (ok_bind _ _ _ (fun _ => verified_proved) (fun _ => verified_proved)); [exact Hok| |exact IH|exact E]. intros a. by apply ok_keeps.
    + unfold ms_bind in E. pose proof (event_sent ev newKEX now rnd h Hs) as Hs1. destruct (handle_event ev newKEX now rnd h) as [[a| |] h1]; [|done..].
      by eapply prepare_sent.
  - specialize (IH Eb). apply Open_same in E as [->| ->]; exact IH.
Qed.

(** The rejection of an attacker: a configuration of its own, and an empty proof. *)
Definition forged_rejection (raw : list Z) : HandshakeMessage.t := HandshakeMessage.Mk TagREJ (<[TagSCFG := raw]> {[TagPROF := []]}).

(** A client that has verified its server takes a rejection with an empty proof and another
    configuration, which nobody signed, and still holds the server for verified: its initial keys are
    then derived from the secret of that configuration. *)
Theorem empty_proof_replaces_server h raw config newKEX now rnd leaf :
  serverVerified h = true -> nonc h <> [] -> secureAEAD h = None -> diversificationNonce h = [] -> aeadClosed h = false ->
  clientHelloCounter h < MaxClientHellos -> GetLeafCert (certManager h) = Some leaf -> leaf <> [] ->
  (forall b, cryptoStream_Write b = None) ->
  serverConfigClient.parseServerConfig newKEX raw = Ok config -> serverConfigClient.IsExpired config now = false ->
  serverConfigClient.sharedSecret config <> [] ->
  exists h', on_event (Message (forged_rejection raw)) newKEX now rnd h = (Ok tt, h')
    /\ serverVerified h' = true /\ serverConfig h' = Some config
    /\ forall n newKEX' now' rnd' a, n <> [] ->
        keyDerivation false (serverConfigClient.sharedSecret config) (nonc h ++ default [] (sno h)) (connID h) (lastSentCHLO h')
          (serverConfigClient.Get config) leaf n PerspectiveClient = Ok a ->
        exists h'', on_event (DivNonce n) newKEX' now' rnd' h' = (Ok tt, h'') /\ secureAEAD h'' = Some a.
Proof.
  intros Hv Hn Hs Hd Hopen Hcount El Hleaf Hw Hparse Hexp Hsec.
  set (m := HandshakeMessage.Data (forged_rejection raw)).
  assert (m !! TagSTK = None /\ m !! TagSNO = None /\ m !! TagSCFG = Some raw /\ m !! TagPROF = Some [] /\ m !! TagCERT = None)
    as (E1 & E2 & E3 & E4 & E5) by (split_and!; vm_compute; reflexivity).
  set (h1 := set_proof (set_config h (Some config) raw (nonc h)) [] (lastSentCHLO h)).
  assert (handle_event (Message (forged_rejection raw)) newKEX now rnd h = (Ok tt, h1)) as Erej.
  { unfold cryptoSetupClient.handle_event. change (HandshakeMessage.Tag (forged_rejection raw) =? TagREJ) with true.
    unfold handleREJMessage, when. fold m. rewrite E1, E2, E3, E4, E5, Hparse.
    unfold ms_bind, ms_modify, ms_lift, ms_check, ms_get, ms_ret. rewrite Hexp. cbn [negb]. cbn beta iota zeta. cbn [nonc set_config].
    rewrite bool_decide_eq_false_2 by done. cbn. by rewrite El. }
  set (b := (HandshakeMessage.Write (HandshakeMessage.Mk TagCHLO (addPadding (getTags (set_hello h1 (lastSentCHLO h1) (clientHelloCounter h1 + 1) (written h1)))))).1).
  assert (b <> []) as Hb.
  { intros E. pose proof (message_size (HandshakeMessage.Mk TagCHLO (addPadding (getTags (set_hello h1 (lastSentCHLO h1) (clientHelloCounter h1 + 1) (written h1)))))) as Hl.
    fold b in Hl. rewrite E in Hl. cbn [HandshakeMessage.Data length] in Hl. pose proof (padded_size _ (getTags_no_padding (set_hello h1 (lastSentCHLO h1) (clientHelloCounter h1 + 1) (written h1)))).
    unfold ClientHelloMinimumSize in *. lia. }
  set (h2 := set_hello h1 b (clientHelloCounter h + 1) (written h ++ [b])).
  assert (prepare h1 = (Ok tt, h2)) as Eprep.
  { unfold cryptoSetupClient.prepare, ms_bind. assert (maybeUpgradeCrypto keyDerivation h1 = (Ok tt, h1)) as ->.
    { unfold maybeUpgradeCrypto, ms_bind, ms_get. cbn. rewrite Hv, Hs. cbn. rewrite El, Hd. cbn. by rewrite !andb_false_r. }
    unfold ms_get. cbn beta iota. cbn [secureAEAD h1 set_proof set_config]. rewrite Hs.
    unfold cryptoSetupClient.sendCHLO, ms_bind, ms_modify, ms_get, ms_check. cbn beta iota. cbn [clientHelloCounter set_hello h1 set_proof set_config].
    rewrite (proj2 (Z.leb_le _ _)) by lia. unfold ms_ret, ms_error. rewrite Hw. done. }
  exists h2. split; [|split; [exact Hv|split; [done|]]].
  - unfold cryptoSetupClient.on_event, ms_bind. by rewrite Erej.
  - intros n newKEX' now' rnd' a Hne Ha.
    set (h3 := set_verified h2 n true (receivedSecurePacket h)).
    assert (handle_event (DivNonce n) newKEX' now' rnd' h2 = (Ok tt, h3)) as Ediv.
    { unfold cryptoSetupClient.handle_event, ms_bind, ms_get, ms_check, ms_modify. cbn beta iota.
      assert (diversificationNonce h2 = []) as -> by exact Hd. cbn. unfold h3. by rewrite <- Hv. }
    unfold cryptoSetupClient.on_event, ms_bind. rewrite Ediv. unfold cryptoSetupClient.prepare, ms_bind.
    set (h4 := set_keys h3 (Some a) (forwardSecureAEAD h) (aeadChanged h) (aeadClosed h) (connectionParameters h)).
    assert (maybeUpgradeCrypto keyDerivation h3 = notify EncryptionSecure h4) as ->.
    { unfold maybeUpgradeCrypto, ms_bind, ms_get. cbn. rewrite Hs. cbn. rewrite El. cbn. unfold nonempty.
      rewrite !bool_decide_eq_false_2 by done. cbn. change (lastSentCHLO h2) with b in Ha. by rewrite Ha. }
    unfold notify. cbn [aeadClosed h4 set_keys]. rewrite Hopen. cbn. eexists. by split.
Qed.

(** A second server hello that is in order, except that it does not repeat the windows, makes the
    client send on a closed channel: the process stops. *)
Theorem second_server_hello_panics h m config pubs versions secret a newKEX now rnd :
  aeadClosed h = true -> receivedSecurePacket h = true -> serverConfig h = Some config -> HandshakeMessage.Tag m = TagSHLO ->
  HandshakeMessage.Data m !! TagPUBS = Some pubs -> HandshakeMessage.Data m !! TagVER = Some versions ->
  validateVersionList negotiatedVersions versions = true -> CalculateSharedKey (serverConfigClient.kex config) pubs = Ok secret ->
  keyDerivation true secret (nonc h ++ default (default [] (sno h)) (HandshakeMessage.Data m !! TagSNO)) (connID h) (lastSentCHLO h)
    (serverConfigClient.Get config) (default [] (GetLeafCert (certManager h))) [] PerspectiveClient = Ok a ->
  (connectionParametersManager.SetFromMap (connectionParameters h) (HandshakeMessage.Data m)).1 = None ->
  exists h', on_event (Message m) newKEX now rnd h = (Panic, h').
Proof.
  intros Hclosed Hrec Ec Etag Epubs Ever Hvalid Esec Ekdf Eset.
  destruct (connectionParametersManager.SetFromMap (connectionParameters h) (HandshakeMessage.Data m)) as [e p] eqn:Ep. cbn in Eset. subst e.
  enough (exists h', handle_event (Message m) newKEX now rnd h = (Panic, h')) as [h' E].
  { exists h'. unfold cryptoSetupClient.on_event, ms_bind. by rewrite E. }
  unfold cryptoSetupClient.handle_event. rewrite Etag. change (TagSHLO =? TagREJ) with false. change (TagSHLO =? TagSHLO) with true. cbn match.
  unfold handleSHLOMessage, when. rewrite Epubs, Ever. unfold ms_bind, ms_modify, ms_lift, ms_check, ms_get, ms_ret. rewrite Hrec, Hvalid. cbn beta iota zeta.
  destruct (HandshakeMessage.Data m !! TagSNO) as [n|]; cbn beta iota zeta; cbn [serverConfig set_tokens]; rewrite Ec, Esec; cbn in Ekdf |- *; rewrite Ekdf; cbn;
    rewrite Ep; cbn; unfold notify; cbn; rewrite Hclosed; by eexists.
Qed.

(** *** Encryption never gets weaker *)

(** The weakest level the client still opens packets with. *)
Definition accepts_from (h : client) : Z :=
  match forwardSecureAEAD h with
  | Some _ => EncryptionForwardSecure
  | None => if receivedSecurePacket h then EncryptionSecure else EncryptionUnencrypted
  end.
Definition at_least (l : Z) (h : client) : Prop := (receivedSecurePacket h = true -> secureAEAD h <> None) /\ l <= accepts_from h.

Lemma at_least_same l (h h' : client) :
  receivedSecurePacket h' = receivedSecurePacket h -> secureAEAD h' = secureAEAD h -> forwardSecureAEAD h' = forwardSecureAEAD h -> at_least l h -> at_least l h'.
Proof. intros E1 E2 E3. unfold at_least, accepts_from. by rewrite E1, E2, E3. Qed.

Lemma event_at_least l ev newKEX now rnd : kdf_total keyDerivation -> ms_keeps (at_least l) (handle_event ev newKEX now rnd).
Proof.
  intros Hkdf. assert (forall level, ms_keeps (at_least l) (notify level)) as Hnotify.
  { intros level h Hh. unfold notify. destruct (aeadClosed h); [done|]. by eapply at_least_same; [..|exact Hh]. }
  assert (forall f : client -> client, (forall h, receivedSecurePacket (f h) = receivedSecurePacket h) -> (forall h, secureAEAD (f h) = secureAEAD h) ->
    (forall h, forwardSecureAEAD (f h) = forwardSecureAEAD h) -> forall h, at_least l h -> at_least l (f h)) as Hsame by (intros f H1 H2 H3 h; by apply at_least_same).
  destruct ev as [n|m|e]; unfold cryptoSetupClient.handle_event; ms_split; try (by apply Hsame).
  - unfold handleREJMessage, when, generateClientNonce. ms_split; by apply Hsame.
  - unfold handleSHLOMessage, when. ms_split; try apply Hnotify; try (by apply Hsame).
    intros h [H1 H2]. derive Hkdf. split; [done|]. unfold accepts_from in *. cbn. revert H2.
    destruct (forwardSecureAEAD h), (receivedSecurePacket h); unfold EncryptionForwardSecure, EncryptionSecure, EncryptionUnencrypted; lia.
Qed.

Lemma prepare_at_least l : kdf_total keyDerivation -> ms_keeps (at_least l) prepare.
Proof.
  intros Hkdf. unfold cryptoSetupClient.prepare, maybeUpgradeCrypto, cryptoSetupClient.sendCHLO. ms_split; try (intros h Hh; by eapply at_least_same; [..|exact Hh]).
  - intros h [H1 H2]. derive Hkdf. by split.
  - intros h Hh. unfold notify. destruct (aeadClosed h); [done|]. by eapply at_least_same; [..|exact Hh].
Qed.

Lemma Open_at_least l src n ad h r h' :
  at_least l h -> Open nullAEAD src n ad h = (r, h') -> at_least l h' /\ forall d level, r = Ok (d, level) -> l <= level /\ at_least level h'.
Proof.
  intros [H1 H2] E. unfold Open in E. unfold accepts_from in H2. unfold EncryptionForwardSecure, EncryptionSecure, EncryptionUnencrypted in *.
  destruct (forwardSecureAEAD h) as [a|] eqn:Ef.
  { injection E as <- <-. split; [split; [done|unfold accepts_from; by rewrite Ef]|]. intros d level. destruct (AEAD_Open a src n ad); [|done..].
    intros [= <- <-]. split; [done|]. split; [done|]. unfold accepts_from. by rewrite Ef. }
  assert (forall r h', (d ← AEAD_Open nullAEAD src n ad; mret (d, 1), h) = (r, h') -> receivedSecurePacket h = false ->
    at_least l h' /\ forall d level, r = Ok (d, level) -> l <= level /\ at_least level h') as Hnull.
  { intros r' h'' E' Er. injection E' as <- <-. rewrite Er in H2. assert (at_least l h) as Hl by (split; [done|unfold accepts_from; by rewrite Ef, Er]).
    split; [done|]. intros d level. destruct (AEAD_Open nullAEAD src n ad); [|done..]. intros [= <- <-]. split; [done|]. split; [done|]. unfold accepts_from. by rewrite Ef, Er. }
  destruct (secureAEAD h) as [a|] eqn:Es; [|apply (Hnull _ _ E); destruct (receivedSecurePacket h); [by destruct (H1 eq_refl)|done]].
  destruct (AEAD_Open a src n ad) as [d|e|] eqn:Eo.
  - injection E as <- <-. split; [split; [cbn; congruence|unfold accepts_from; cbn; rewrite Ef; destruct (receivedSecurePacket h); unfold EncryptionSecure; lia]|].
    intros d' level [= <- <-]. split; [destruct (receivedSecurePacket h); lia|]. split; [cbn; congruence|]. unfold accepts_from. cbn. by rewrite Ef.
  - destruct (receivedSecurePacket h) eqn:Er; [|by apply (Hnull _ _ E)]. injection E as <- <-. split; [|done]. split; [congruence|]. unfold accepts_from. by rewrite Ef, Er.
  - injection E as <- <-. split; [|done]. split; [congruence|]. unfold accepts_from. by rewrite Ef.
Qed.

Lemma cache_at_least l file newKEX now rnd : ms_keeps (at_least l) (useHandshakeCache hostname hostname_string file newKEX now rnd).
Proof.
  unfold useHandshakeCache, generateClientNonce. ms_split; intros h Hh; by eapply at_least_same; [..|exact Hh].
Qed.

(** What the client does between two packets. *)
Inductive client_step : client -> client -> Prop :=
| cs_start file newKEX now rnd h : client_step h (start file newKEX now rnd h).2
| cs_event ev newKEX now rnd h : client_step h (on_event ev newKEX now rnd h).2
| cs_open src n ad h : client_step h (Open nullAEAD src n ad h).2.

(** C18. A client never accepts a packet at a lower encryption level than one it accepted before. *)
Theorem client_never_weakens connID version cm p h0 h1 h2 h3 h4 src n ad d level src' n' ad' d' level' :
  kdf_total keyDerivation -> h0 = NewCryptoSetupClient connID version cm p ->
  rtc client_step h0 h1 -> Open nullAEAD src n ad h1 = (Ok (d, level), h2) ->
  rtc client_step h2 h3 -> Open nullAEAD src' n' ad' h3 = (Ok (d', level'), h4) ->
  level <= level'.
Proof.
  intros Hkdf -> H01 E1 H23 E2.
  assert (forall l h h', rtc client_step h h' -> at_least l h -> at_least l h') as Hsteps.
  { intros l h h'. induction 1 as [|h h' h'' Hstep _ IH]; [done|]. intros Hh. apply IH. destruct Hstep as [file newKEX now rnd h|ev newKEX now rnd h|s k a h].
    - unfold cryptoSetupClient.start. apply prepare_at_least; [done|]. destruct (CacheHandshake params); [by apply cache_at_least|exact Hh].
    - unfold cryptoSetupClient.on_event. apply (ms_keeps_bind (at_least l)); [by apply event_at_least| |exact Hh]. intros _. by apply prepare_at_least.
    - destruct (Open nullAEAD s k a h) as [r h'] eqn:E. by destruct (Open_at_least _ _ _ _ _ _ _ Hh E). }
  assert (at_least EncryptionUnencrypted h1) as I1 by (eapply Hsteps; [exact H01|]; by split).
  destruct (Open_at_least _ _ _ _ _ _ _ I1 E1) as [_ H]. destruct (H d level eq_refl) as [_ I2].
  eapply Hsteps in I2; [|exact H23]. destruct (Open_at_least _ _ _ _ _ _ _ I2 E2) as [_ H']. by destruct (H' d' level' eq_refl).
Qed.
End Client.

(** ** The server *)

Section Server.
Import cryptoSetupServer.
Context (keyDerivation : KeyDerivation) (nullAEAD : AEAD).
Context {Cookie : Type} (NewToken : res (list Z)) (DecodeToken : list Z -> res (option Cookie)) (acceptSTKCallback : option Cookie -> bool).
Context (cryptoStream_Write : list Z -> option goerr).

Abbreviation on_crypto_data := (cryptoSetupServer.on_crypto_data keyDerivation NewToken DecodeToken acceptSTKCallback cryptoStream_Write).
Abbreviation handleMessage := (cryptoSetupServer.handleMessage keyDerivation NewToken DecodeToken acceptSTKCallback cryptoStream_Write).
Abbreviation handleCHLO := (cryptoSetupServer.handleCHLO keyDerivation).
Abbreviation handleInchoateCHLO := (cryptoSetupServer.handleInchoateCHLO NewToken DecodeToken acceptSTKCallback).
Abbreviation isInchoateCHLO := (cryptoSetupServer.isInchoateCHLO DecodeToken acceptSTKCallback).
Abbreviation acceptSTK := (cryptoSetupServer.acceptSTK DecodeToken acceptSTKCallback).

(** *** Replies *)

Definition same_written (w : list (list Z)) (h : t) : Prop := written h = w.

Lemma check_hello_pure m h0 : ms_keeps (eq h0) (check_hello m).
Proof. unfold check_hello. by ms_split. Qed.
Lemma handleCHLO_written w sni data m eph rand rand' : ms_keeps (same_written w) (handleCHLO sni data m eph rand rand').
Proof. unfold cryptoSetupServer.handleCHLO, validateClientNonce, notify. ms_split; by intros h Hh. Qed.
Lemma handleInchoateCHLO_pure h0 sni chlo m : ms_keeps (eq h0) (handleInchoateCHLO sni chlo m).
Proof. unfold cryptoSetupServer.handleInchoateCHLO. by ms_split. Qed.

Definition short_rejection (scfg : ServerConfig.t) (token : list Z) : list Z :=
  (HandshakeMessage.Write (HandshakeMessage.Mk TagREJ (<[TagSCFG := ServerConfig.Get scfg]> (<[TagSTK := token]> {[TagSVID := bytes_of_string "quic-go"]})))).1.

Lemma inchoate_reply sni chlo m h reply h' :
  handleInchoateCHLO sni chlo m h = (Ok reply, h') ->
  ClientHelloMinimumSize <= Z.of_nat (length chlo)
  /\ (acceptSTK (value_of m TagSTK) = true \/ exists token, NewToken = Ok token /\ reply = short_rejection (scfg h) token).
Proof.
  unfold cryptoSetupServer.handleInchoateCHLO, ms_bind, ms_check, ms_lift, ms_get. intros E.
  destruct (Z.leb_spec ClientHelloMinimumSize (Z.of_nat (length chlo))) as [Hle|]; [|done]. split; [done|]. unfold ms_ret in E. cbn beta iota zeta in E.
  destruct NewToken as [token| |]; [|done..]. destruct (acceptSTK _); [by left|]. right. exists token. split; [reflexivity|].
  apply ok_inv in E as [E _]. rewrite <- E. reflexivity.
Qed.

Lemma complete_has_token m h cert : isInchoateCHLO h m cert = false -> acceptSTK (value_of m TagSTK) = true.
Proof.
  unfold cryptoSetupServer.isInchoateCHLO. destruct (m !! TagPUBS); [|done]. destruct (m !! TagSCID); [|done]. destruct (m !! TagXLCT); [|done].
  destruct (negb (bool_decide _)); [done|]. destruct (negb (_ =? 8)%nat); [done|]. destruct (LE.ReadUint64 _) as [[x ?]| |]; [|done..].
  destruct (negb (_ =? x)); [done|]. by destruct (acceptSTK _).
Qed.

(** C20. Whatever a client sends, the server answers with at most one message, and only to a hello of the
    required size or one with an accepted token; unless the token was accepted, which shows that the
    client owns its address, the answer is the rejection with the configuration and a new token,
    without certificates, proof or keys. *)
Theorem reply_needs_token eph rand rand' input h r h' :
  on_crypto_data eph rand rand' input h = (r, h') ->
  written h' = written h
  \/ exists m rest reply, HandshakeMessage.ParseHandshakeMessage input = Ok (m, rest) /\ written h' = written h ++ [reply]
      /\ (acceptSTK (value_of (HandshakeMessage.Data m) TagSTK) = true
          \/ (ClientHelloMinimumSize <= Z.of_nat (length input - length rest)
              /\ exists token, NewToken = Ok token /\ reply = short_rejection (scfg h) token)).
Proof.
  unfold cryptoSetupServer.on_crypto_data. destruct (HandshakeMessage.ParseHandshakeMessage input) as [[m rest]| |] eqn:Ep; [|by intros [= _ <-]; left..].
  destruct (negb _); [by intros [= _ <-]; left|]. set (chlo := take _ input). unfold ms_bind at 1.
  assert (length chlo <= length input - length rest)%nat as Hchlo by (unfold chlo; rewrite length_take; lia).
  enough (forall r h', handleMessage chlo (HandshakeMessage.Data m) eph rand rand' h = (r, h') ->
    written h' = written h \/ exists reply, written h' = written h ++ [reply] /\ (acceptSTK (value_of (HandshakeMessage.Data m) TagSTK) = true
      \/ (ClientHelloMinimumSize <= Z.of_nat (length chlo) /\ exists token, NewToken = Ok token /\ reply = short_rejection (scfg h) token))) as H.
  { destruct (handleMessage chlo (HandshakeMessage.Data m) eph rand rand' h) as [r1 h1] eqn:E. intros E'.
    assert (h' = h1) as -> by (destruct r1; by injection E' as _ <-).
    destruct (H r1 h1 eq_refl) as [?|(reply & H1 & H2)]; [by left|]. right. exists m, rest, reply. split; [reflexivity|]. split; [exact H1|].
    destruct H2 as [?|[H2 H3]]; [by left|]. right. split; [lia|exact H3]. }
  clear r h'. intros r h'. unfold cryptoSetupServer.handleMessage. set (data := HandshakeMessage.Data m).
  unfold ms_bind at 1. pose proof (check_hello_pure data h h eq_refl) as Eh. destruct (check_hello data h) as [[sni|e|] h1]; cbn [snd] in Eh; subst h1;
    [|by intros [= _ <-]; left..].
  unfold ms_bind at 1, ms_get. unfold ms_bind at 1, ms_lift. destruct (CertChain.GetLeafCert _ sni) as [cert| |]; [|by intros [= _ <-]; left..].
  destruct (isInchoateCHLO h data cert) eqn:Ei; cbn [negb].
  - unfold ms_bind at 1. pose proof (handleInchoateCHLO_pure h sni chlo data h eq_refl) as Eh.
    destruct (handleInchoateCHLO sni chlo data h) as [[reply|e|] h1] eqn:Er; cbn [snd] in Eh; subst h1; [|by intros [= _ <-]; left..].
    apply inchoate_reply in Er as [Hl Hr]. unfold ms_bind, write_stream, ms_ret. destruct (cryptoStream_Write reply); intros E.
    + left. by injection E as _ <-.
    + right. exists reply. injection E as _ <-. split; [reflexivity|]. destruct Hr as [?|?]; [by left|]. right. by split.
  - apply complete_has_token in Ei. unfold ms_bind at 1. pose proof (handleCHLO_written (written h) sni chlo data eph rand rand' h eq_refl) as Eh.
    destruct (handleCHLO sni chlo data eph rand rand' h) as [[reply|e|] h1] eqn:Er; cbn [snd] in Eh; unfold same_written in Eh; [|by intros [= _ <-]; left..].
    unfold ms_bind, write_stream, notify, ms_modify, ms_ret. destruct (cryptoStream_Write reply); intros E.
    + left. by injection E as _ <-.
    + right. exists reply. injection E as _ <-. cbn. rewrite Eh. split; [reflexivity|]. by left.
Qed.

(** The server refuses a client that was made to use a version other than the one it prefers, although
    the server supports that one. *)
Theorem server_detects_downgrade eph rand rand' input h m rest ver r sni :
  HandshakeMessage.ParseHandshakeMessage input = Ok (m, rest) -> HandshakeMessage.Tag m = TagCHLO ->
  HandshakeMessage.Data m !! TagFHL2 = None -> HandshakeMessage.Data m !! TagNSTP = None ->
  HandshakeMessage.Data m !! TagSNI = Some sni -> sni <> [] ->
  HandshakeMessage.Data m !! TagVER = Some ver -> length ver = 4%nat -> LE.ReadUint32 ver = Ok r ->
  VersionTagToNumber r.1 <> version h -> VersionTagToNumber r.1 ∈ supportedVersions h ->
  on_crypto_data eph rand rand' input h = (Err errDowngrade, h).
Proof.
  intros Ep Et E1 E2 E3 Hsni E4 E5 E6 Hne Hin. unfold cryptoSetupServer.on_crypto_data. rewrite Ep, Et. change (negb (TagCHLO =? TagCHLO)) with false. cbn match.
  unfold ms_bind at 1. unfold cryptoSetupServer.handleMessage. unfold ms_bind at 1.
  enough (check_hello (HandshakeMessage.Data m) h = (Err errDowngrade, h)) as -> by done.
  unfold check_hello, ms_bind, ms_get, ms_check, value_of, ms_lift. rewrite E1, E2, E3, E4. cbn beta iota zeta. change (default [] (Some sni)) with sni.
  rewrite bool_decide_eq_false_2 by done. cbn [negb ms_ret]. rewrite E5, E6. cbn [Nat.eqb ms_ret].
  rewrite (proj2 (Z.eqb_neq _ _)) by done. assert (IsSupportedVersion (supportedVersions h) (VersionTagToNumber r.1) = true) as ->; [|done].
  apply existsb_exists. exists (VersionTagToNumber r.1). split; [by apply list_elem_of_In|]. by apply Z.eqb_eq.
Qed.

(** *** Encryption never gets weaker *)

Definition server_from (h : t) : Z :=
  if receivedForwardSecurePacket h then EncryptionForwardSecure else if receivedSecurePacket h then EncryptionSecure else EncryptionUnencrypted.
Definition server_at_least (l : Z) (h : t) : Prop :=
  (receivedForwardSecurePacket h = true -> forwardSecureAEAD h <> None) /\ (receivedSecurePacket h = true -> secureAEAD h <> None) /\ l <= server_from h.

Lemma data_at_least l eph rand rand' input : kdf_total keyDerivation -> ms_keeps (server_at_least l) (on_crypto_data eph rand rand' input).
Proof.
  intros Hkdf. unfold cryptoSetupServer.on_crypto_data. destruct (HandshakeMessage.ParseHandshakeMessage input) as [[m rest]| |]; [|apply ms_keeps_fail|apply ms_keeps_lift].
  unfold cryptoSetupServer.handleMessage, cryptoSetupServer.handleCHLO, cryptoSetupServer.handleInchoateCHLO, validateClientNonce, check_hello, notify, write_stream.
  ms_split; try (intros h Hh; exact Hh).
  all: try (intros h (H1 & H2 & H3); derive Hkdf; by split_and!).
  all: intros h Hh; by destruct (cryptoStream_Write _).
Qed.

Lemma server_Open_at_least l src n ad h r h' :
  server_at_least l h -> Open nullAEAD src n ad h = Some (r, h') ->
  server_at_least l h' /\ forall d level, r = Ok (d, level) -> l <= level /\ server_at_least level h'.
Proof.
  intros (H1 & H2 & H3) E. unfold Open in E. unfold server_at_least, server_from in *. unfold EncryptionForwardSecure, EncryptionSecure, EncryptionUnencrypted in *.
  assert (forall r h', Some (d ← AEAD_Open nullAEAD src n ad; mret (d, 1), h) = Some (r, h') -> receivedForwardSecurePacket h = false -> receivedSecurePacket h = false ->
    server_at_least l h' /\ forall d level, r = Ok (d, level) -> l <= level /\ server_at_least level h') as Hnull.
  { intros r' h'' E' E1 E2. injection E' as <- <-. unfold server_at_least, server_from. rewrite E1, E2 in *. split; [done|].
    intros d level. destruct (AEAD_Open nullAEAD src n ad); [|done..]. by intros [= <- <-]. }
  assert (forall r h', match secureAEAD h with
      | Some a => match AEAD_Open a src n ad with
          | Ok d => Some (Ok (d, 2), set_received h (receivedForwardSecurePacket h) true)
          | Err e => if receivedSecurePacket h then Some (Err e, h) else Some (d ← AEAD_Open nullAEAD src n ad; mret (d, 1), h)
          | Panic => Some (Panic, h) end
      | None => Some (d ← AEAD_Open nullAEAD src n ad; mret (d, 1), h) end = Some (r, h') -> receivedForwardSecurePacket h = false ->
    server_at_least l h' /\ forall d level, r = Ok (d, level) -> l <= level /\ server_at_least level h') as Hsecure.
  { intros r' h'' E' Ef. destruct (secureAEAD h) as [a|] eqn:Es; [|apply (Hnull _ _ E' Ef); destruct (receivedSecurePacket h); [by destruct (H2 eq_refl)|done]].
    destruct (AEAD_Open a src n ad) as [d|e|] eqn:Eo.
    - injection E' as <- <-. unfold server_at_least, server_from. cbn. rewrite Ef, Es in *. unfold EncryptionSecure. split.
      + split_and!; [done..|]. destruct (receivedSecurePacket h); lia.
      + intros d' level [= <- <-]. split; [destruct (receivedSecurePacket h); lia|by split_and!].
    - destruct (receivedSecurePacket h) eqn:Er; [|by apply (Hnull _ _ E')]. injection E' as <- <-. split; [|done].
      unfold server_at_least, server_from. by rewrite Ef, Er, Es in *.
    - injection E' as <- <-. split; [|done]. unfold server_at_least, server_from. by rewrite Es in *. }
  destruct (forwardSecureAEAD h) as [a|] eqn:Ef; [|apply (Hsecure _ _ E); destruct (receivedForwardSecurePacket h); [by destruct (H1 eq_refl)|done]].
  destruct (AEAD_Open a src n ad) as [d|e|] eqn:Eo.
  - destruct (receivedForwardSecurePacket h) eqn:Er.
    + injection E as <- <-. assert (server_at_least l h) as Hl by (unfold server_at_least, server_from; by rewrite Er, Ef).
      split; [done|]. intros d' level [= <- <-]. split; [done|]. unfold server_at_least, server_from. by rewrite Er, Ef.
    + destruct (sentSHLO h); [|done]. injection E as <- <-. unfold server_at_least, server_from. cbn. rewrite Ef. unfold EncryptionForwardSecure.
      split; [split_and!; [done..|destruct (receivedSecurePacket h); lia]|]. intros d' level [= <- <-]. split; [destruct (receivedSecurePacket h); lia|by split_and!].
  - destruct (receivedForwardSecurePacket h) eqn:Er; [|by apply (Hsecure _ _ E)]. injection E as <- <-. split; [|done].
    unfold server_at_least, server_from. by rewrite Er, Ef.
  - injection E as <- <-. split; [|done]. unfold server_at_least, server_from. by rewrite Ef.
Qed.

Inductive server_step : t -> t -> Prop :=
| ss_data eph rand rand' input h : server_step h (on_crypto_data eph rand rand' input h).2
| ss_open src n ad h r h' : Open nullAEAD src n ad h = Some (r, h') -> server_step h h'.

(** C19. A server never accepts a packet at a lower encryption level than one it accepted before. *)
Theorem server_never_weakens connID version scfg p versions h0 h1 h2 h3 h4 src n ad d level src' n' ad' d' level' :
  kdf_total keyDerivation -> h0 = NewCryptoSetup connID version scfg p versions ->
  rtc server_step h0 h1 -> Open nullAEAD src n ad h1 = Some (Ok (d, level), h2) ->
  rtc server_step h2 h3 -> Open nullAEAD src' n' ad' h3 = Some (Ok (d', level'), h4) ->
  level <= level'.
Proof.
  intros Hkdf -> H01 E1 H23 E2.
  assert (forall l h h', rtc server_step h h' -> server_at_least l h -> server_at_least l h') as Hsteps.
  { intros l h h'. induction 1 as [|h h' h'' Hstep _ IH]; [done|]. intros Hh. apply IH. destruct Hstep as [eph rand rand' input h|s k a h r h' E].
    - by apply data_at_least.
    - by destruct (server_Open_at_least _ _ _ _ _ _ _ Hh E). }
  assert (server_at_least EncryptionUnencrypted h1) as I1 by (eapply Hsteps; [exact H01|]; by split).
  destruct (server_Open_at_least _ _ _ _ _ _ _ I1 E1) as [_ H]. destruct (H d level eq_refl) as [_ I2].
  eapply Hsteps in I2; [|exact H23]. destruct (server_Open_at_least _ _ _ _ _ _ _ I2 E2) as [_ H']. by destruct (H' d' level' eq_refl).
Qed.
End Server.

(** ** Witnesses *)

(** A key exchange that commutes, AEADs that mark what they seal with their level, and certificates that
    verify what is signed with three bytes. *)
Definition toy_kex (a : Z) : KeyExchange :=
  MkKEX (repeat a 32) (fun other => if (length other =? 32)%nat then Ok (map (fun b => (a * b) mod 256) other) else Err (GoErr "expected 32 bytes")).
Definition toy_aead (level : Z) : AEAD :=
  MkAEAD (fun src _ _ => match src with b :: d => if b =? level then Ok d else Err (GoErr "decryption failed") | [] => Err (GoErr "decryption failed") end)
    (MkSealer (fun d _ _ => level :: d) 1).
Definition toy_kdf : KeyDerivation := fun fs _ _ _ _ _ _ _ _ => Ok (toy_aead (if fs then EncryptionForwardSecure else EncryptionSecure)).
#[local] Instance toy_certs : CertManager (list Z) := {
  SetData _ data := (None, data);
  GetCommonCertificateHashes _ := [];
  GetLeafCert cm := match cm with [] => None | _ => Some cm end;
  GetLeafCertHash cm := HashCert cm;
  VerifyServerProof cm proof _ _ := match cm with [] => false | _ => bool_decide (proof = [1; 2; 3]) end;
  Verify cm _ := match cm with [] => Some (GoErr "no certificate") | _ => None end;
}.
#[local] Instance toy_certs_ok : CertManagerOk.
Proof. by split; [intros [|b cm]|intros [|b cm]]. Qed.
Lemma toy_kdf_total : kdf_total toy_kdf.
Proof. intros fs ? ? ? ? ? ? ? ?. by eexists. Qed.

Definition toy_writes (_ : list Z) : option goerr := None.
Definition toy_host : list Z := bytes_of_string "quic.clemente.io".
Definition toy_transport : TransportParameters := MkTransport false false.
Definition no_file (_ : string) : res (list Z) := Err (GoErr "no such file").
Definition toy_token : list Z := [9; 9].
Definition toy_decode (token : list Z) : res (option unit) := if bool_decide (token = toy_token) then Ok (Some tt) else Err (GoErr "invalid token").
Definition toy_accept (c : option unit) : bool := match c with Some _ => true | None => false end.

Definition toy_config : ServerConfig.t := ServerConfig.NewServerConfig (toy_kex 5) sample_chain (repeat 11 16) (repeat 12 8).
Definition toy_rejection : HandshakeMessage.t :=
  HandshakeMessage.Mk TagREJ (<[TagSCFG := ServerConfig.Get toy_config]> (<[TagSTK := toy_token]> (<[TagPROF := [1; 2; 3]]> {[TagCERT := [7; 8; 9]]}))).

(** A client that starts, is sent a rejection, and a diversification nonce. *)
Abbreviation toy_event := (cryptoSetupClient.on_event toy_kdf toy_writes toy_host [] toy_transport).
Definition toy_client : cryptoSetupClient.t (CM := list Z) := cryptoSetupClient.NewCryptoSetupClient 77 512 [] sample_client.
Definition started_client : cryptoSetupClient.t (CM := list Z) := (cryptoSetupClient.start toy_kdf toy_writes toy_host "quic.clemente.io" toy_transport no_file (Ok (toy_kex 3)) 0 (Ok []) toy_client).2.
Definition rejected_client : cryptoSetupClient.t (CM := list Z) := (toy_event (cryptoSetupClient.Message toy_rejection) (Ok (toy_kex 3)) 0 (Ok (repeat 3 20)) started_client).2.
Definition secured_client : cryptoSetupClient.t (CM := list Z) := (toy_event (cryptoSetupClient.DivNonce (repeat 4 32)) (Ok (toy_kex 3)) 0 (Ok (repeat 3 20)) rejected_client).2.

Lemma rejected_client_runs (allowed : cryptoSetupClient.event -> Prop) :
  allowed (cryptoSetupClient.Message toy_rejection) ->
  client_run toy_kdf (toy_aead 1) toy_writes toy_host "quic.clemente.io" [] toy_transport allowed toy_client true rejected_client.
Proof.
  intros Ha. apply (cr_event toy_kdf (toy_aead 1) toy_writes toy_host "quic.clemente.io" [] toy_transport allowed toy_client
    (cryptoSetupClient.Message toy_rejection) (Ok (toy_kex 3)) 0 (Ok (repeat 3 20)) started_client (Ok tt)); [|done|by vm_compute].
  apply (cr_start toy_kdf (toy_aead 1) toy_writes toy_host "quic.clemente.io" [] toy_transport allowed toy_client no_file (Ok (toy_kex 3)) 0 (Ok []) (Ok tt)).
  by vm_compute.
Qed.

Lemma client_hellos_witness :
  (length (cryptoSetupClient.written rejected_client) <= 3)%nat
  /\ Forall (fun hello => ClientHelloMinimumSize <= Z.of_nat (length hello)) (cryptoSetupClient.written rejected_client).
Proof.
  apply (client_hellos toy_kdf (toy_aead 1) toy_writes toy_host "quic.clemente.io" [] toy_transport 77 512 [] sample_client true rejected_client).
  by apply rejected_client_runs.
Defined.

Lemma verified_server_is_proved_witness : exists chlo, chlo ∈ cryptoSetupClient.written rejected_client /\ proved chlo rejected_client.
Proof.
  apply (verified_server_is_proved toy_kdf (toy_aead 1) toy_writes toy_host "quic.clemente.io" [] toy_transport 77 512 [] sample_client rejected_client);
    [done|apply rejected_client_runs|by vm_compute].
  cbn beta iota. by vm_compute.
Defined.

(** An attacker's configuration. *)
Definition other_config : ServerConfig.t := ServerConfig.NewServerConfig (toy_kex 7) sample_chain (repeat 21 16) (repeat 22 8).
Definition other_parsed : serverConfigClient.t :=
  serverConfigClient.Mk (ServerConfig.Get other_config) (repeat 21 16) (repeat 22 8) (serverConfigClient.MaxInt64 / 2) (toy_kex 3) (repeat 21 32).

Lemma empty_proof_replaces_server_witness :
  exists h', toy_event (cryptoSetupClient.Message (forged_rejection (ServerConfig.Get other_config))) (Ok (toy_kex 3)) 0 (Ok []) rejected_client = (Ok tt, h')
    /\ cryptoSetupClient.serverVerified h' = true /\ cryptoSetupClient.serverConfig h' = Some other_parsed.
Proof.
  destruct (empty_proof_replaces_server toy_kdf toy_writes toy_host [] toy_transport rejected_client (ServerConfig.Get other_config) other_parsed (Ok (toy_kex 3)) 0 (Ok []) [7; 8; 9])
    as (h' & E & Hv & Hc & _); [by vm_compute..|]. exists h'. exact (conj E (conj Hv Hc)).
Defined.

Lemma client_never_weakens_witness :
  exists h2 h4, cryptoSetupClient.Open (toy_aead 1) [1; 42] 1 [] toy_client = (Ok ([42], EncryptionUnencrypted), h2)
    /\ cryptoSetupClient.Open (toy_aead 1) [2; 43] 2 [] secured_client = (Ok ([43], EncryptionSecure), h4)
    /\ EncryptionUnencrypted <= EncryptionSecure.
Proof.
  exists toy_client. eexists. split; [by vm_compute|]. split; [by vm_compute|].
  eapply (client_never_weakens toy_kdf (toy_aead 1) toy_writes toy_host "quic.clemente.io" [] toy_transport 77 512 [] sample_client toy_client toy_client toy_client secured_client
    _ [1; 42] 1 [] [42] EncryptionUnencrypted [2; 43] 2 [] [43] EncryptionSecure);
    [exact toy_kdf_total|done|apply rtc_refl|by vm_compute| |by vm_compute].
  eapply rtc_l; [apply (cs_start _ _ _ _ _ _ _ no_file (Ok (toy_kex 3)) 0 (Ok []))|].
  eapply rtc_l; [apply (cs_event _ _ _ _ _ _ _ (cryptoSetupClient.Message toy_rejection) (Ok (toy_kex 3)) 0 (Ok (repeat 3 20)))|].
  apply rtc_once, (cs_event _ _ _ _ _ _ _ (cryptoSetupClient.DivNonce (repeat 4 32)) (Ok (toy_kex 3)) 0 (Ok (repeat 3 20))).
Defined.

(** A server, the first hello it is sent, and the one after the rejection. *)
Abbreviation toy_data := (cryptoSetupServer.on_crypto_data toy_kdf (Ok toy_token) toy_decode toy_accept toy_writes (toy_kex 6) (Ok (repeat 8 32)) (Ok (repeat 4 32))).
Definition toy_server : cryptoSetupServer.t := cryptoSetupServer.NewCryptoSetup 77 512 toy_config sample_server [512].
Definition first_hello : list Z := cryptoSetupClient.lastSentCHLO started_client.
Definition second_hello : list Z := cryptoSetupClient.lastSentCHLO rejected_client.

Lemma reply_needs_token_witness :
  cryptoSetupServer.written (toy_data first_hello toy_server).2 = []
  \/ exists m rest reply, HandshakeMessage.ParseHandshakeMessage first_hello = Ok (m, rest) /\ cryptoSetupServer.written (toy_data first_hello toy_server).2 = [reply]
      /\ (cryptoSetupServer.acceptSTK toy_decode toy_accept (value_of (HandshakeMessage.Data m) TagSTK) = true
          \/ (ClientHelloMinimumSize <= Z.of_nat (length first_hello - length rest)
              /\ exists token, Ok toy_token = Ok token /\ reply = short_rejection toy_config token)).
Proof.
  apply (reply_needs_token toy_kdf (Ok toy_token) toy_decode toy_accept toy_writes (toy_kex 6) (Ok (repeat 8 32)) (Ok (repeat 4 32)) first_hello toy_server
    (toy_data first_hello toy_server).1). apply surjective_pairing.
Defined.

Lemma server_never_weakens_witness :
  exists h2 h4, cryptoSetupServer.Open (toy_aead 1) [1; 42] 1 [] toy_server = Some (Ok ([42], EncryptionUnencrypted), h2)
    /\ cryptoSetupServer.Open (toy_aead 1) [3; 43] 2 [] (toy_data second_hello (toy_data first_hello toy_server).2).2 = Some (Ok ([43], EncryptionForwardSecure), h4)
    /\ EncryptionUnencrypted <= EncryptionForwardSecure.
Proof.
  exists toy_server. eexists. split; [by vm_compute|]. split; [by vm_compute|].
  eapply (server_never_weakens toy_kdf (toy_aead 1) (Ok toy_token) toy_decode toy_accept toy_writes 77 512 toy_config sample_server [512]
    toy_server toy_server toy_server (toy_data second_hello (toy_data first_hello toy_server).2).2 _ [1; 42] 1 [] [42] EncryptionUnencrypted [3; 43] 2 [] [43] EncryptionForwardSecure);
    [exact toy_kdf_total|done|apply rtc_refl|by vm_compute| |by vm_compute].
  eapply rtc_l; [apply (ss_data _ _ _ _ _ _ (toy_kex 6) (Ok (repeat 8 32)) (Ok (repeat 4 32)) first_hello)|].
  apply rtc_once, (ss_data _ _ _ _ _ _ (toy_kex 6) (Ok (repeat 8 32)) (Ok (repeat 4 32)) second_hello).
Defined.
