(* ===== verification/HandshakeKeys.v ===== *)
(** * Client and server agree

    The last flight of the handshake: a client that knows the server's configuration sends its complete
    hello, the server answers it, and both end up with keys derived from the same data and with
    parameters that agree. *)

From stdpp Require Import base numbers list option strings gmap.
From S2P Require Import Prelude ByteOrder Protocol PublicHeader PacketUnpacker PacketPacker Handshake ServerConfig ConnectionParameters CryptoServer CryptoClient HandshakeFacts.

Local Open Scope Z_scope.

#[local] Opaque HandshakeMessage.Write HandshakeMessage.ParseHandshakeMessage ServerConfig.Get.

Ltac lookups := repeat (rewrite lookup_insert_ne by done); first [apply lookup_insert_eq|done].

Section Tags.
Import cryptoSetupClient.
Context {CM : Type} `{!CertManager CM} (hostname : list Z) (params : TransportParameters).
Abbreviation client := (cryptoSetupClient.t (CM := CM)).

(** The hello of a client that has all it needs: the parameters and what the handshake needs. *)
Record complete_hello (c : client) (cfg : serverConfigClient.t) (m : gmap Z (list Z)) : Prop := {
  ch_sni : m !! TagSNI = Some hostname;
  ch_ver : m !! TagVER = Some (le_bytes 4 (VersionNumberToTag (version c)));
  ch_stk : m !! TagSTK = Some (stk c);
  ch_scid : m !! TagSCID = Some (serverConfigClient.ID cfg);
  ch_nonc : m !! TagNONC = Some (nonc c);
  ch_xlct : m !! TagXLCT = Some (le_bytes 8 (GetLeafCertHash (certManager c)));
  ch_kexs : m !! TagKEXS = Some (bytes_of_string "C255");
  ch_aead : m !! TagAEAD = Some (bytes_of_string "AESG");
  ch_pubs : m !! TagPUBS = Some (PublicKey (serverConfigClient.kex cfg));
  ch_none : m !! TagFHL2 = None /\ m !! TagNSTP = None;
  ch_tcid v : m !! TagTCID = Some v -> (4 <= length v)%nat;
  ch_params : connectionParametersManager.GetHelloMap (connectionParameters c) ⊆ m;
}.

Lemma hello_map_subset p (m : gmap Z (list Z)) :
  (forall t, t = TagICSL \/ t = TagMSPC \/ t = TagMIDS \/ t = TagCFCW \/ t = TagSFCW -> m !! t = connectionParametersManager.GetHelloMap p !! t) ->
  connectionParametersManager.GetHelloMap p ⊆ m.
Proof.
  intros Hm. apply map_subseteq_spec. intros t v Ht. rewrite Hm; [done|]. unfold connectionParametersManager.GetHelloMap in Ht.
  apply lookup_insert_Some in Ht as [[<- _]|[_ Ht]]; [by left|]. apply lookup_insert_Some in Ht as [[<- _]|[_ Ht]]; [by right; left|].
  apply lookup_insert_Some in Ht as [[<- _]|[_ Ht]]; [by do 2 right; left|]. apply lookup_insert_Some in Ht as [[<- _]|[_ Ht]]; [by do 3 right; left|].
  apply lookup_singleton_Some in Ht as [<- _]. by do 4 right.
Qed.

Lemma getTags_complete c cfg leaf :
  serverConfig c = Some cfg -> GetLeafCert (certManager c) = Some leaf -> sno c = None -> stk c <> [] ->
  complete_hello c cfg (addPadding (getTags hostname params c)).
Proof.
  intros Ec El Es Hstk.
  assert (forall t, t <> TagPAD -> addPadding (getTags hostname params c) !! t = getTags hostname params c !! t) as Hpad.
  { intros t Ht. unfold addPadding. destruct (0 <? _); [by rewrite lookup_insert_ne|done]. }
  remember (getTags hostname params c) as T eqn:ET. unfold getTags in ET. rewrite Ec, El, Es in ET. rewrite (bool_decide_eq_false_2 (stk c = [])) in ET by done.
  set (base := if bool_decide (GetCommonCertificateHashes (certManager c) = []) then _ else _) in ET.
  assert (base !! TagSNI = Some hostname
    /\ forall t, t <> TagPDMD -> t <> TagSNI -> t <> TagCCS -> base !! t = connectionParametersManager.GetHelloMap (connectionParameters c) !! t) as [Hsni Hbase].
  { unfold base. case_bool_decide; (split; [lookups|intros; by repeat (rewrite lookup_insert_ne by done)]). }
  clearbody base. cbn zeta in ET.
  set (tc := if RequestConnectionIDTruncation params then _ else _) in ET.
  assert (tc !! TagVER = Some (le_bytes 4 (VersionNumberToTag (version c))) /\ (forall v, tc !! TagTCID = Some v -> (4 <= length v)%nat)
    /\ forall t, t <> TagVER -> t <> TagTCID -> tc !! t = base !! t) as (Hver & Htcid & Htc).
  { unfold tc. destruct (RequestConnectionIDTruncation params); (split; [lookups|split; [|intros; by repeat (rewrite lookup_insert_ne by done)]]).
    - intros v. rewrite lookup_insert_eq. by intros [= <-].
    - intros v. rewrite lookup_insert_ne, Hbase by done. done. }
  clearbody tc. cbn zeta in ET.
  constructor; [..|intros v|apply hello_map_subset; intros t Ht]; rewrite ?Hpad by (done || (intros ->; naive_solver)); subst T.
  all: try (repeat (rewrite lookup_insert_ne by done); first [apply lookup_insert_eq|rewrite Htc by done; first [exact Hsni|by rewrite Hbase]]).
  - repeat (rewrite lookup_insert_ne by done). exact Hver.
  - split; repeat (rewrite lookup_insert_ne by done); rewrite Htc by done; by rewrite Hbase.
  - repeat (rewrite lookup_insert_ne by done). apply Htcid.
  - destruct Ht as [->|[->|[->|[->| ->]]]]; repeat (rewrite lookup_insert_ne by done); rewrite Htc by done; by rewrite Hbase.
Qed.
End Tags.

Lemma HashCert_range cert : 0 <= HashCert cert < 2 ^ 64.
Proof.
  unfold HashCert. assert (forall l h, 0 <= h < 2 ^ 64 -> 0 <= foldl (fun h b => u64 (Z.lxor h b * 1099511628211)) h l < 2 ^ 64) as H; [|apply H; lia].
  induction l as [|b l IH]; intros h Hh; cbn [foldl]; [done|]. apply IH. word.
Qed.

(** Version tags of three digits. *)
Lemma version_tag v : 0 <= v < 1000 -> VersionTagToNumber (VersionNumberToTag v) = v /\ 0 <= VersionNumberToTag v < 2 ^ 32.
Proof.
  intros Hv. split; [|unfold VersionNumberToTag; word].
  assert (forall n : nat, (n < 1000)%nat -> VersionTagToNumber (VersionNumberToTag (Z.of_nat n)) = Z.of_nat n) as H.
  { intros n Hn. assert (forallb (fun n => VersionTagToNumber (VersionNumberToTag (Z.of_nat n)) =? Z.of_nat n) (seq 0 1000) = true) as Hall by (by vm_compute).
    rewrite forallb_forall in Hall. apply Z.eqb_eq, Hall. apply in_seq. lia. }
  specialize (H (Z.to_nat v) ltac:(lia)). by rewrite Z2Nat.id in H by lia.
Qed.

Section Keys.
Context (keyDerivation : KeyDerivation) (Hkdf : kdf_total keyDerivation).
Context {Cookie : Type} (NewToken : res (list Z)) (DecodeToken : list Z -> res (option Cookie)) (acceptSTKCallback : option Cookie -> bool).
Context {CM : Type} `{!CertManager CM}.
Context (hostname : list Z) (negotiatedVersions : list Z) (params : TransportParameters).

(** Writes to the crypto stream succeed. *)
Definition writes (_ : list Z) : option goerr := None.

Abbreviation client := (cryptoSetupClient.t (CM := CM)).
Abbreviation server := cryptoSetupServer.t.
Abbreviation server_data := (cryptoSetupServer.on_crypto_data keyDerivation NewToken DecodeToken acceptSTKCallback writes).
Abbreviation client_event := (cryptoSetupClient.on_event keyDerivation writes hostname negotiatedVersions params).
Abbreviation client_hello := (cryptoSetupClient.sendCHLO writes hostname params).
Abbreviation acceptSTK := (cryptoSetupServer.acceptSTK DecodeToken acceptSTKCallback).

(** The client knows the server's configuration, certificate and address token. *)
Record ready (c : client) (h : server) (cfg : serverConfigClient.t) (leaf : list Z) : Prop := {
  r_config : cryptoSetupClient.serverConfig c = Some cfg;
  r_raw : serverConfigClient.Get cfg = ServerConfig.Get (cryptoSetupServer.scfg h);
  r_id : serverConfigClient.ID cfg = ServerConfig.ID (cryptoSetupServer.scfg h);
  r_leaf : GetLeafCert (cryptoSetupClient.certManager c) = Some leaf /\ leaf <> [];
  r_chain : CertChain.GetLeafCert (ServerConfig.certChain (cryptoSetupServer.scfg h)) hostname = Ok leaf;
  r_hash : GetLeafCertHash (cryptoSetupClient.certManager c) = HashCert leaf;
  r_nonce : length (cryptoSetupClient.nonc c) = 32%nat /\ take 8 (drop 4 (cryptoSetupClient.nonc c)) = ServerConfig.obit (cryptoSetupServer.scfg h);
  r_sno : cryptoSetupClient.sno c = None;
  r_token : cryptoSetupClient.stk c <> [] /\ acceptSTK (cryptoSetupClient.stk c) = true;
  r_secret : CalculateSharedKey (ServerConfig.kex (cryptoSetupServer.scfg h)) (PublicKey (serverConfigClient.kex cfg)) = Ok (serverConfigClient.sharedSecret cfg);
  r_connID : cryptoSetupClient.connID c = cryptoSetupServer.connID h;
  r_version : cryptoSetupClient.version c = cryptoSetupServer.version h /\ 0 <= cryptoSetupServer.version h < 1000;
  r_host : hostname <> [];
}.

(** Both were derived from the same data, for the two ends. *)
Definition paired (fs : bool) (c s : option AEAD) : Prop :=
  exists secret nonces connID chlo scfg cert div ac as_, c = Some ac /\ s = Some as_
    /\ keyDerivation fs secret nonces connID chlo scfg cert div PerspectiveClient = Ok ac
    /\ keyDerivation fs secret nonces connID chlo scfg cert div PerspectiveServer = Ok as_.

Lemma paired_intro fs secret nonces connID chlo scfg cert div ac as_ :
  keyDerivation fs secret nonces connID chlo scfg cert div PerspectiveClient = Ok ac ->
  keyDerivation fs secret nonces connID chlo scfg cert div PerspectiveServer = Ok as_ -> paired fs (Some ac) (Some as_).
Proof. intros H1 H2. exists secret, nonces, connID, chlo, scfg, cert, div, ac, as_. by split_and!. Qed.

Lemma server_checks c h cfg leaf m :
  ready c h cfg leaf -> complete_hello hostname c cfg m ->
  cryptoSetupServer.check_hello m h = (Ok hostname, h)
  /\ cryptoSetupServer.isInchoateCHLO DecodeToken acceptSTKCallback h m leaf = false.
Proof.
  intros [] []. destruct ch_none0 as [Hf Hn], r_version0 as [Ev Hv], r_token0 as [Ht1 Ht2]. destruct (version_tag _ Hv) as [Etag Htag]. split.
  - unfold cryptoSetupServer.check_hello, ms_bind, ms_get, ms_check, ms_lift, value_of. rewrite Hf, Hn, ch_sni0, ch_ver0. cbn beta iota zeta.
    change (default [] (Some hostname)) with hostname. rewrite bool_decide_eq_false_2 by done. cbn [negb ms_ret]. rewrite length_le_bytes. cbn [Nat.eqb ms_ret].
    rewrite <- (app_nil_r (le_bytes 4 _)), Ev, LE_read32_bytes by done. cbn [fst]. rewrite Etag, Z.eqb_refl. done.
  - unfold cryptoSetupServer.isInchoateCHLO. rewrite ch_pubs0, ch_scid0, ch_xlct0, r_id0. rewrite bool_decide_eq_true_2 by done. cbn [negb].
    rewrite length_le_bytes. cbn [Nat.eqb negb]. rewrite <- (app_nil_r (le_bytes 8 _)), r_hash0, LE_read64_bytes by apply HashCert_range.
    rewrite Z.eqb_refl. cbn [negb]. unfold value_of. rewrite ch_stk0. change (default [] (Some (cryptoSetupClient.stk c))) with (cryptoSetupClient.stk c). by rewrite Ht2.
Qed.

(** The server hello. *)
Definition server_hello (h : server) (eph : KeyExchange) (sn : list Z) (p : connectionParametersManager.t) : HandshakeMessage.t :=
  HandshakeMessage.Mk TagSHLO
    (<[TagVER := concat (map (fun v => (LE.WriteUint32 (VersionNumberToTag v)).1) (cryptoSetupServer.supportedVersions h))]>
    (<[TagSNO := sn]> (<[TagPUBS := PublicKey eph]> (connectionParametersManager.GetHelloMap p)))).

(** The server after its answer. *)
Definition answered (h : server) (dn : list Z) (aS aF : AEAD) (p : connectionParametersManager.t) (reply : list Z) : server :=
  cryptoSetupServer.Mk (cryptoSetupServer.connID h) (cryptoSetupServer.scfg h) (cryptoSetupServer.version h) (cryptoSetupServer.supportedVersions h) dn
    (Some aS) (Some aF) (cryptoSetupServer.receivedForwardSecurePacket h) (cryptoSetupServer.receivedSecurePacket h) true
    ((cryptoSetupServer.aeadChanged h ++ [EncryptionSecure]) ++ [EncryptionForwardSecure]) (cryptoSetupServer.aeadClosed h) p
    (cryptoSetupServer.written h ++ [reply]).

Lemma server_answers c h cfg leaf m data eph es sn dn p :
  ready c h cfg leaf -> complete_hello hostname c cfg m -> CalculateSharedKey eph (PublicKey (serverConfigClient.kex cfg)) = Ok es ->
  connectionParametersManager.SetFromMap (cryptoSetupServer.connectionParameters h) m = (None, p) ->
  exists aS aF,
    keyDerivation false (serverConfigClient.sharedSecret cfg) (cryptoSetupClient.nonc c) (cryptoSetupServer.connID h) data
      (ServerConfig.Get (cryptoSetupServer.scfg h)) leaf dn PerspectiveServer = Ok aS
    /\ keyDerivation true es (cryptoSetupClient.nonc c ++ sn) (cryptoSetupServer.connID h) data
      (ServerConfig.Get (cryptoSetupServer.scfg h)) leaf [] PerspectiveServer = Ok aF
    /\ cryptoSetupServer.handleMessage keyDerivation NewToken DecodeToken acceptSTKCallback writes data m eph (Ok sn) (Ok dn) h
       = (Ok true, answered h dn aS aF p (HandshakeMessage.Write (server_hello h eph sn p)).1).
Proof using Hkdf.
  intros Hr Hm Heph Hset. destruct (server_checks c h cfg leaf m Hr Hm) as [Hcheck Hcomplete]. destruct Hr, Hm.
  destruct (Hkdf false (serverConfigClient.sharedSecret cfg) (cryptoSetupClient.nonc c) (cryptoSetupServer.connID h) data
    (ServerConfig.Get (cryptoSetupServer.scfg h)) leaf dn PerspectiveServer) as [aS EaS].
  destruct (Hkdf true es (cryptoSetupClient.nonc c ++ sn) (cryptoSetupServer.connID h) data
    (ServerConfig.Get (cryptoSetupServer.scfg h)) leaf [] PerspectiveServer) as [aF EaF].
  exists aS, aF. split; [exact EaS|]. split; [exact EaF|]. destruct r_nonce0 as [En1 En2].
  unfold cryptoSetupServer.handleMessage. unfold ms_bind at 1. rewrite Hcheck. unfold ms_bind at 1, ms_get. unfold ms_bind at 1, ms_lift. rewrite r_chain0.
  cbn beta iota. rewrite Hcomplete. cbn [negb]. unfold ms_bind at 1.
  enough (cryptoSetupServer.handleCHLO keyDerivation hostname data m eph (Ok sn) (Ok dn) h
    = (Ok (HandshakeMessage.Write (server_hello h eph sn p)).1,
       cryptoSetupServer.Mk (cryptoSetupServer.connID h) (cryptoSetupServer.scfg h) (cryptoSetupServer.version h) (cryptoSetupServer.supportedVersions h) dn
         (Some aS) (Some aF) (cryptoSetupServer.receivedForwardSecurePacket h) (cryptoSetupServer.receivedSecurePacket h) (cryptoSetupServer.sentSHLO h)
         (cryptoSetupServer.aeadChanged h ++ [EncryptionSecure]) (cryptoSetupServer.aeadClosed h) p (cryptoSetupServer.written h))) as -> by reflexivity.
  unfold cryptoSetupServer.handleCHLO, value_of. rewrite ch_pubs0, ch_nonc0, ch_kexs0, ch_aead0.
  change (default [] (Some ?x)) with x. rewrite bind_get. rewrite (bind_lift _ _ _ _ r_secret0), (bind_lift _ _ _ _ r_chain0).
  rewrite (bind_lift (Ok sn) sn _ _ eq_refl), bind_modify, (bind_lift (Ok dn) dn _ _ eq_refl). cbn beta iota zeta.
  rewrite (bind_ok _ _ tt _ (cryptoSetupServer.set_keys h dn (cryptoSetupServer.secureAEAD h) (cryptoSetupServer.forwardSecureAEAD h))).
  2: { unfold cryptoSetupServer.validateClientNonce. rewrite bind_get, En1, bind_check by done. unfold ms_check.
       change (cryptoSetupServer.scfg (cryptoSetupServer.set_keys h _ _ _)) with (cryptoSetupServer.scfg h). by rewrite bool_decide_eq_true_2. }
  rewrite !bind_check by (by apply bool_decide_eq_true_2). rewrite EaS, bind_modify, (bind_lift (Ok aS) aS _ _ eq_refl).
  unfold cryptoSetupServer.notify. rewrite bind_modify, (bind_lift _ _ _ _ Heph), EaF, bind_modify, (bind_lift (Ok aF) aF _ _ eq_refl), bind_get.
  cbn beta iota zeta. change (cryptoSetupServer.connectionParameters (cryptoSetupServer.set_keys _ _ _ _)) with (cryptoSetupServer.connectionParameters h).
  rewrite Hset. cbn beta iota zeta. rewrite bind_modify. reflexivity.
Qed.
(** *** The client's side *)

(** What is left of the client between its hello and the answer. *)
Definition waiting (c : client) : Prop :=
  cryptoSetupClient.serverVerified c = true /\ cryptoSetupClient.secureAEAD c = None /\ cryptoSetupClient.forwardSecureAEAD c = None
  /\ cryptoSetupClient.aeadClosed c = false /\ cryptoSetupClient.diversificationNonce c = [].

(** A client that sends its hello. *)
Definition said (c : client) (b : list Z) : client :=
  cryptoSetupClient.set_hello c b (cryptoSetupClient.clientHelloCounter c + 1) (cryptoSetupClient.written c ++ [b]).

Definition hello (c : client) : HandshakeMessage.t :=
  HandshakeMessage.Mk TagCHLO (cryptoSetupClient.addPadding (cryptoSetupClient.getTags hostname params c)).

Lemma client_says c :
  cryptoSetupClient.clientHelloCounter c < MaxClientHellos -> client_hello c = (Ok tt, said c (HandshakeMessage.Write (hello c)).1).
Proof.
  intros Hc. unfold cryptoSetupClient.sendCHLO. rewrite bind_modify, bind_get, bind_check by (apply Z.leb_le; cbn; lia). reflexivity.
Qed.

Lemma client_upgrades c cfg leaf dn a newKEX now rnd :
  waiting c -> cryptoSetupClient.serverConfig c = Some cfg -> GetLeafCert (cryptoSetupClient.certManager c) = Some leaf -> leaf <> [] ->
  serverConfigClient.sharedSecret cfg <> [] -> cryptoSetupClient.nonc c <> [] -> cryptoSetupClient.lastSentCHLO c <> [] -> cryptoSetupClient.sno c = None -> dn <> [] ->
  keyDerivation false (serverConfigClient.sharedSecret cfg) (cryptoSetupClient.nonc c) (cryptoSetupClient.connID c) (cryptoSetupClient.lastSentCHLO c)
    (serverConfigClient.Get cfg) leaf dn PerspectiveClient = Ok a ->
  client_event (cryptoSetupClient.DivNonce dn) newKEX now rnd c
  = (Ok tt, cryptoSetupClient.set_keys (cryptoSetupClient.set_verified c dn true (cryptoSetupClient.receivedSecurePacket c))
              (Some a) None (cryptoSetupClient.aeadChanged c ++ [EncryptionSecure]) false (cryptoSetupClient.connectionParameters c)).
Proof.
  intros (E1 & E2 & E3 & E4 & E5) Ecfg El Hl Hs Hn Hb Esno Hdn Ek. unfold cryptoSetupClient.on_event.
  rewrite (bind_ok _ _ tt _ (cryptoSetupClient.set_verified c dn true (cryptoSetupClient.receivedSecurePacket c))).
  2: { unfold cryptoSetupClient.handle_event. rewrite bind_get, bind_check by (unfold cryptoSetupClient.nonempty; by rewrite E5).
       unfold ms_modify. by rewrite E1. }
  set (c2 := cryptoSetupClient.set_verified c dn true _). unfold cryptoSetupClient.prepare.
  erewrite bind_ok.
  2: { unfold cryptoSetupClient.maybeUpgradeCrypto. rewrite bind_get.
       change (cryptoSetupClient.serverVerified c2) with true. change (cryptoSetupClient.secureAEAD c2) with (cryptoSetupClient.secureAEAD c).
       change (cryptoSetupClient.serverConfig c2) with (cryptoSetupClient.serverConfig c). change (cryptoSetupClient.certManager c2) with (cryptoSetupClient.certManager c).
       change (cryptoSetupClient.nonc c2) with (cryptoSetupClient.nonc c). change (cryptoSetupClient.lastSentCHLO c2) with (cryptoSetupClient.lastSentCHLO c).
       change (cryptoSetupClient.sno c2) with (cryptoSetupClient.sno c). change (cryptoSetupClient.diversificationNonce c2) with dn.
       rewrite E2, Ecfg, El, Esno. cbn [negb]. change (default [] (Some leaf)) with leaf. cbn zeta. unfold cryptoSetupClient.nonempty.
       rewrite !bool_decide_eq_false_2 by done. cbn [negb andb]. change (default [] None) with (@nil Z). rewrite app_nil_r.
       change (cryptoSetupClient.connID c2) with (cryptoSetupClient.connID c). rewrite Ek, bind_modify, (bind_lift (Ok a) a _ _ eq_refl).
       unfold cryptoSetupClient.notify. change (cryptoSetupClient.aeadClosed (cryptoSetupClient.set_keys _ _ _ _ _ _)) with (cryptoSetupClient.aeadClosed c).
       by rewrite E4. }
  rewrite bind_get. cbn. by rewrite E3.
Qed.

Lemma server_hello_values h eph sn p :
  HandshakeMessage.Data (server_hello h eph sn p) !! TagSNO = Some sn /\ HandshakeMessage.Data (server_hello h eph sn p) !! TagPUBS = Some (PublicKey eph)
  /\ HandshakeMessage.Data (server_hello h eph sn p) !! TagVER
     = Some (concat (map (fun v => (LE.WriteUint32 (VersionNumberToTag v)).1) (cryptoSetupServer.supportedVersions h))).
Proof. unfold server_hello. cbn [HandshakeMessage.Data]. split_and!; lookups. Qed.

Lemma server_hello_ok h eph sn p :
  valid_value sn -> valid_value (PublicKey eph) -> (length (cryptoSetupServer.supportedVersions h) <= 1000)%nat -> message_ok (server_hello h eph sn p).
Proof.
  intros Hsn Hpub Hlen. apply message_ok_intro; [done| |].
  - assert (forall k v (m : gmap Z (list Z)), (size (<[k := v]> m) <= S (size m))%nat) as Hins
      by (intros k v m; rewrite map_size_insert; destruct (m !! k); cbn; lia).
    do 3 (etrans; [apply Hins|apply le_n_S]). rewrite size_hello_map. lia.
  - apply map_Forall_insert_2; [|apply map_Forall_insert_2; [by split|apply map_Forall_insert_2; [by split|apply hello_map_ok]]]. split; [done|].
    assert (forall vs, bytes_ok (concat (map (fun v => (LE.WriteUint32 (VersionNumberToTag v)).1) vs))
      /\ length (concat (map (fun v => (LE.WriteUint32 (VersionNumberToTag v)).1) vs)) = (4 * length vs)%nat) as H.
    { induction vs as [|v vs [IH1 IH2]]; [by split; [constructor|]|]. cbn [map concat length]. rewrite LE_write32. cbn [fst wbytes]. split.
      - apply bytes_ok_app. split; [apply bytes_ok_le_bytes|done].
      - rewrite length_app, IH2, length_le_bytes. lia. }
    destruct (H (cryptoSetupServer.supportedVersions h)) as [H1 H2]. split; [exact H1|]. rewrite H2. lia.
Qed.

Lemma client_completes c cfg leaf h eph sn p es a s0 p' newKEX now rnd :
  cryptoSetupClient.receivedSecurePacket c = true -> cryptoSetupClient.aeadClosed c = false -> cryptoSetupClient.secureAEAD c = Some s0 ->
  cryptoSetupClient.serverConfig c = Some cfg -> GetLeafCert (cryptoSetupClient.certManager c) = Some leaf ->
  CalculateSharedKey (serverConfigClient.kex cfg) (PublicKey eph) = Ok es ->
  cryptoSetupClient.validateVersionList negotiatedVersions
    (concat (map (fun v => (LE.WriteUint32 (VersionNumberToTag v)).1) (cryptoSetupServer.supportedVersions h))) = true ->
  keyDerivation true es (cryptoSetupClient.nonc c ++ sn) (cryptoSetupClient.connID c) (cryptoSetupClient.lastSentCHLO c)
    (serverConfigClient.Get cfg) leaf [] PerspectiveClient = Ok a ->
  connectionParametersManager.SetFromMap (cryptoSetupClient.connectionParameters c) (HandshakeMessage.Data (server_hello h eph sn p)) = (None, p') ->
  client_event (cryptoSetupClient.Message (server_hello h eph sn p)) newKEX now rnd c
  = (Ok tt, cryptoSetupClient.set_keys (cryptoSetupClient.set_tokens c (cryptoSetupClient.stk c) (Some sn))
              (Some s0) (Some a) (cryptoSetupClient.aeadChanged c ++ [EncryptionForwardSecure]) true p').
Proof.
  intros Hr Hc Es Ecfg El Heph Hver Ek Hset. destruct (server_hello_values h eph sn p) as (L1 & L2 & L3).
  unfold cryptoSetupClient.on_event. erewrite bind_ok.
  2: { unfold cryptoSetupClient.handle_event. change (HandshakeMessage.Tag (server_hello h eph sn p)) with TagSHLO.
       change (TagSHLO =? TagREJ) with false. change (TagSHLO =? TagSHLO) with true. cbn match.
       unfold cryptoSetupClient.handleSHLOMessage, cryptoSetupClient.when. rewrite L1, L2, L3, bind_get, bind_check by exact Hr. rewrite bind_modify.
       rewrite !bind_ret, bind_check, bind_get by exact Hver. cbn zeta.
       set (c1 := cryptoSetupClient.set_tokens c _ _). change (cryptoSetupClient.serverConfig c1) with (cryptoSetupClient.serverConfig c).
       rewrite Ecfg, (bind_lift (Ok cfg) cfg _ _ eq_refl), (bind_lift _ _ _ _ Heph). cbn zeta.
       change (cryptoSetupClient.certManager c1) with (cryptoSetupClient.certManager c). rewrite El. change (default [] (Some leaf)) with leaf.
       change (keyDerivation true es (cryptoSetupClient.nonc c1 ++ default [] (cryptoSetupClient.sno c1)) (cryptoSetupClient.connID c1) (cryptoSetupClient.lastSentCHLO c1))
         with (keyDerivation true es (cryptoSetupClient.nonc c ++ sn) (cryptoSetupClient.connID c) (cryptoSetupClient.lastSentCHLO c)).
       rewrite Ek, bind_modify, (bind_lift (Ok a) a _ _ eq_refl), bind_get.
       change (cryptoSetupClient.connectionParameters (cryptoSetupClient.set_keys c1 _ _ _ _ _)) with (cryptoSetupClient.connectionParameters c).
       rewrite Hset. cbn beta iota. rewrite bind_modify, bind_check by done.
       erewrite bind_ok by (unfold cryptoSetupClient.notify; cbn; rewrite Hc; reflexivity). reflexivity. }
  unfold cryptoSetupClient.prepare. erewrite bind_ok.
  2: { unfold cryptoSetupClient.maybeUpgradeCrypto. rewrite bind_get. cbn. rewrite Es. destruct (negb _); reflexivity. }
  rewrite bind_get. reflexivity.
Qed.

(** *** The flight *)

(** The server takes the client's hello. *)
Lemma server_takes c h cfg leaf eph es sn dn p rest :
  ready c h cfg leaf -> message_ok (hello c) ->
  CalculateSharedKey eph (PublicKey (serverConfigClient.kex cfg)) = Ok es ->
  connectionParametersManager.SetFromMap (cryptoSetupServer.connectionParameters h) (HandshakeMessage.Data (hello c)) = (None, p) ->
  let b := (HandshakeMessage.Write (hello c)).1 in
  exists aS aF,
    keyDerivation false (serverConfigClient.sharedSecret cfg) (cryptoSetupClient.nonc c) (cryptoSetupServer.connID h) b
      (ServerConfig.Get (cryptoSetupServer.scfg h)) leaf dn PerspectiveServer = Ok aS
    /\ keyDerivation true es (cryptoSetupClient.nonc c ++ sn) (cryptoSetupServer.connID h) b
      (ServerConfig.Get (cryptoSetupServer.scfg h)) leaf [] PerspectiveServer = Ok aF
    /\ server_data eph (Ok sn) (Ok dn) (b ++ rest) h
       = (Ok (true, rest), answered h dn aS aF p (HandshakeMessage.Write (server_hello h eph sn p)).1).
Proof using Hkdf.
  intros Hr Hok Heph Hset b.
  assert (complete_hello hostname c cfg (HandshakeMessage.Data (hello c))) as Hm.
  { apply (getTags_complete hostname params c cfg leaf); [apply Hr|apply Hr|apply Hr|apply (r_token _ _ _ _ Hr)]. }
  destruct (server_answers c h cfg leaf _ b eph es sn dn p Hr Hm Heph Hset) as (aS & aF & E1 & E2 & E3).
  exists aS, aF. split; [exact E1|]. split; [exact E2|]. unfold cryptoSetupServer.on_crypto_data.
  destruct (parse_write (hello c) rest Hok) as [_ Hp]. change (HandshakeMessage.Write (hello c)).1 with b in Hp. rewrite Hp.
  change (negb (HandshakeMessage.Tag (hello c) =? TagCHLO)) with false. cbn match. rewrite length_app, Nat.add_sub, take_app_length.
  by rewrite (bind_ok _ _ _ _ _ E3).
Qed.

(** C2. The last flight, between ends whose idle timeouts are whole seconds.  A client that knows the server's configuration, certificate and address token
    sends its hello; the server answers it, and the client, once it has the diversification nonce and
    a packet that opens with the initial keys, takes the answer.  Both hold initial and
    forward-secure keys that were derived from the same data, and their parameters agree. *)
Theorem handshake_completes c h cfg leaf eph es sn dn v cs cc ci ss sc si rest :
  ready c h cfg leaf -> waiting c -> cryptoSetupClient.clientHelloCounter c < MaxClientHellos -> serverConfigClient.sharedSecret cfg <> [] -> dn <> [] ->
  cryptoSetupClient.connectionParameters c = connectionParametersManager.NewConnectionParamatersManager PerspectiveClient v cs cc ci ->
  cryptoSetupServer.connectionParameters h = connectionParametersManager.NewConnectionParamatersManager PerspectiveServer v ss sc si ->
  whole_seconds ci -> whole_seconds si ->
  cryptoSetupClient.validateVersionList negotiatedVersions
    (concat (map (fun v => (LE.WriteUint32 (VersionNumberToTag v)).1) (cryptoSetupServer.supportedVersions h))) = true ->
  CalculateSharedKey eph (PublicKey (serverConfigClient.kex cfg)) = Ok es ->
  CalculateSharedKey (serverConfigClient.kex cfg) (PublicKey eph) = Ok es ->
  message_ok (hello c) -> valid_value sn -> valid_value (PublicKey eph) -> (length (cryptoSetupServer.supportedVersions h) <= 1000)%nat ->
  exists c1 h1 reply,
    client_hello c = (Ok tt, c1)
    /\ server_data eph (Ok sn) (Ok dn) (cryptoSetupClient.lastSentCHLO c1 ++ rest) h = (Ok (true, rest), h1)
    /\ cryptoSetupServer.written h1 = cryptoSetupServer.written h ++ [reply]
    /\ forall newKEX now rnd, exists c2,
        client_event (cryptoSetupClient.DivNonce (cryptoSetupServer.diversificationNonce h1)) newKEX now rnd c1 = (Ok tt, c2)
        /\ paired false (cryptoSetupClient.secureAEAD c2) (cryptoSetupServer.secureAEAD h1)
        /\ forall nullAEAD src n ad d c3,
            cryptoSetupClient.Open nullAEAD src n ad c2 = (Ok (d, EncryptionSecure), c3) ->
            exists m c4, HandshakeMessage.ParseHandshakeMessage (reply ++ rest) = Ok (m, rest)
              /\ client_event (cryptoSetupClient.Message m) newKEX now rnd c3 = (Ok tt, c4)
              /\ paired true (cryptoSetupClient.forwardSecureAEAD c4) (cryptoSetupServer.forwardSecureAEAD h1)
              /\ agree (cryptoSetupClient.connectionParameters c4) (cryptoSetupServer.connectionParameters h1).
Proof using Hkdf.
  intros Hr Hwait Hcount Hsec Hdn Epc Eps Hci Hsi Hver Heph1 Heph2 Hok Hsn Hpub Hlen.
  assert (forall p, message_ok (server_hello h eph sn p)) as Hsok by (intros p; by apply server_hello_ok).
  assert (hello_of (connectionParametersManager.NewConnectionParamatersManager PerspectiveClient v cs cc ci) (hello c)) as Hchlo.
  { rewrite <- Epc. destruct (getTags_complete hostname params c cfg leaf); [apply Hr|apply Hr|apply Hr|apply (r_token _ _ _ _ Hr)|]. by split. }
  destruct (negotiate v cs cc ci ss sc si (hello c) Hci Hsi Hchlo) as (p & Ep & Hshlo). rewrite <- Eps in Ep.
  destruct (Hshlo (server_hello h eph sn p)) as (pc & Epc' & Hagree & _).
  { split; [done| |].
    - apply hello_map_subset. intros t Ht. unfold server_hello. cbn [HandshakeMessage.Data]. destruct Ht as [->|[->|[->|[->| ->]]]]; by repeat (rewrite lookup_insert_ne by done).
    - intros v'. unfold server_hello. cbn [HandshakeMessage.Data]. by repeat (rewrite lookup_insert_ne by done). }
  destruct (server_takes c h cfg leaf eph es sn dn p rest Hr Hok Heph1 Ep) as (aS & aF & EaS & EaF & Esrv).
  destruct Hr as [Rcfg Rraw _ [Rleaf Rne] _ _ [Rn _] Rsno _ _ Rid _ _].
  set (b := (HandshakeMessage.Write (hello c)).1) in *. set (reply := (HandshakeMessage.Write (server_hello h eph sn p)).1) in *.
  exists (said c b), (answered h dn aS aF p reply), reply. split; [exact (client_says c Hcount)|]. split; [exact Esrv|]. split; [reflexivity|].
  intros newKEX now rnd.
  destruct (Hkdf false (serverConfigClient.sharedSecret cfg) (cryptoSetupClient.nonc c) (cryptoSetupClient.connID c) b
    (serverConfigClient.Get cfg) leaf dn PerspectiveClient) as [aC EaC].
  destruct (Hkdf true es (cryptoSetupClient.nonc c ++ sn) (cryptoSetupClient.connID c) b (serverConfigClient.Get cfg) leaf [] PerspectiveClient) as [aC' EaC'].
  assert (b <> []) as Hb.
  { intros E. pose proof (message_size (hello c)) as Hl. fold b in Hl. rewrite E in Hl. cbn [length] in Hl.
    pose proof (padded_size _ (getTags_no_padding hostname params c)). unfold ClientHelloMinimumSize in *. cbn [HandshakeMessage.Data hello] in Hl. lia. }
  eexists. split; [|split].
  - refine (client_upgrades (said c b) cfg leaf dn aC newKEX now rnd Hwait Rcfg Rleaf Rne Hsec _ Hb Rsno Hdn EaC).
    intros E. change (cryptoSetupClient.nonc c = []) in E. by rewrite E in Rn.
  - rewrite <- Rid, <- Rraw in EaS. exact (paired_intro _ _ _ _ _ _ _ _ _ _ EaC EaS).
  - intros nullAEAD src n ad d c3 Eopen. set (c2 := cryptoSetupClient.set_keys _ _ _ _ _ _) in Eopen.
    assert (c3 = cryptoSetupClient.set_verified c2 dn true true) as ->.
    { unfold cryptoSetupClient.Open in Eopen. cbn in Eopen. destruct (AEAD_Open aC src n ad); [by injection Eopen as _ <-| |done].
      destruct (cryptoSetupClient.receivedSecurePacket c); [done|]. destruct (AEAD_Open nullAEAD src n ad); done. }
    eexists (server_hello h eph sn p), _. split; [apply parse_write, Hsok|].
    rewrite <- Epc in Epc'.
    split; [exact (client_completes (cryptoSetupClient.set_verified c2 dn true true) cfg leaf h eph sn p es aC' aC pc newKEX now rnd
              eq_refl eq_refl eq_refl Rcfg Rleaf Heph2 Hver EaC' Epc')|].
    split; [|exact Hagree]. rewrite <- Rid, <- Rraw in EaF. exact (paired_intro _ _ _ _ _ _ _ _ _ _ EaC' EaF).
Qed.
End Keys.

(** ** Witness *)

#[local] Existing Instance toy_certs.

(** The client that was rejected, with the windows and versions of [toy_server]. *)
Definition parsed_config : serverConfigClient.t :=
  serverConfigClient.Mk (ServerConfig.Get toy_config) (repeat 11 16) (repeat 12 8) (serverConfigClient.MaxInt64 / 2) (toy_kex 3) (repeat 15 32).

Lemma toy_ready : ready toy_decode toy_accept toy_host rejected_client toy_server parsed_config [7; 8; 9].
Proof. split; try (by vm_compute); by (split; vm_compute). Qed.

Lemma toy_hello_ok : message_ok (hello toy_host toy_transport rejected_client).
Proof.
  apply message_ok_intro; [done|vm_compute; lia|].
  assert (forallb (fun kv => (0 <=? kv.1) && (kv.1 <? 2 ^ 32) && forallb (fun b => (0 <=? b) && (b <? 256)) kv.2 && (length kv.2 <=? 4000)%nat)
    (map_to_list (cryptoSetupClient.addPadding (cryptoSetupClient.getTags toy_host toy_transport rejected_client))) = true) as H by (by vm_compute).
  rewrite forallb_forall in H. intros t v E%elem_of_map_to_list%list_elem_of_In%H. cbn [fst snd] in E.
  apply andb_true_iff in E as [[[E1%Z.leb_le E2%Z.ltb_lt]%andb_true_iff E3]%andb_true_iff E4%Nat.leb_le]. split; [lia|]. split; [|done].
  apply Forall_forall. intros b Hb%list_elem_of_In. rewrite forallb_forall in E3. apply E3, andb_true_iff in Hb as [?%Z.leb_le ?%Z.ltb_lt]. done.
Qed.

Lemma handshake_completes_witness :
  exists c1 h1 reply,
    cryptoSetupClient.sendCHLO toy_writes toy_host toy_transport rejected_client = (Ok tt, c1)
    /\ cryptoSetupServer.on_crypto_data toy_kdf (Ok toy_token) toy_decode toy_accept toy_writes (toy_kex 6) (Ok (repeat 8 32)) (Ok (repeat 4 32))
         (cryptoSetupClient.lastSentCHLO c1 ++ []) toy_server = (Ok (true, []), h1)
    /\ cryptoSetupServer.written h1 = [reply].
Proof.
  destruct (handshake_completes toy_kdf toy_kdf_total (Ok toy_token) toy_decode toy_accept toy_host [] toy_transport rejected_client toy_server parsed_config [7; 8; 9]
    (toy_kex 6) (repeat 18 32) (repeat 8 32) (repeat 4 32) 512 (2 ^ 24) (3 * 2 ^ 23) (30 * Second) (2 ^ 20) (3 * 2 ^ 19) (20 * Second) [])
    as (c1 & h1 & reply & E1 & E2 & E3 & _).
  1: exact toy_ready.
  1: by vm_compute.
  1-2: by vm_compute.
  1: done.
  1-2: by vm_compute.
  1: by exists 30.
  1: by exists 20.
  1: by vm_compute.
  1-2: by vm_compute.
  1: exact toy_hello_ok.
  1-2: (split; [repeat constructor; lia|cbn; lia]).
  1: cbn; lia.
  exists c1, h1, reply. exact (conj E1 (conj E2 E3)).
Defined.
