(* ===== verification/ReceivedPackets.v ===== *)
(** * Acknowledging received packets

    Models [ackhandler/received_packet_history.go] and
    [ackhandler/received_packet_handler.go].  The history is the linked list of ranges of
    packet numbers, in ascending order; the handler decides when an ACK is due and builds
    it.  Durations and times are nanoseconds, the zero [time.Time] of an alarm is [None];
    one argument [now] stands for the calls of [time.Now] in one operation.

    The theorems say that an ACK reports exactly the packets that were received and are
    still of interest, that it is a well-formed frame, and that it is sent in time. *)

From stdpp Require Import base numbers list option strings.
From S2P Require Import Prelude GoFloat ByteOrder AckRanges AckFrame ClosePathFrame.

Local Open Scope Z_scope.

(** [utils.PacketInterval] *)
Record PacketInterval : Type := MkPacketInterval { Start : Z; End : Z }.

Definition MaxTrackedReceivedAckRanges : Z := 2500.
Definition AckSendDelay : Z := 25 * Millisecond.
Definition MaxPacketsReceivedBeforeAckSend : Z := 20.
Definition RetransmittablePacketsBeforeAck : Z := 2.

Module receivedPacketHistory.

Record t : Type := Mk {
  ranges : list PacketInterval;
  lowestInReceivedPacketNumbers : Z;
}.

Definition errTooManyOutstandingReceivedAckRanges : goerr :=
  QErr "TooManyOutstandingReceivedPackets" "Too many outstanding received ACK ranges".

Definition newReceivedPacketHistory : t := Mk [] 0.

(** After [el] was extended: merge it with the range before it, if they touch.  The
    lists here start with the last range. *)
Definition merge (el : PacketInterval) (prevs : list PacketInterval) : list PacketInterval :=
  match prevs with
  | prev :: rest =>
      if u64 (End prev + 1) =? Start el then MkPacketInterval (Start prev) (End el) :: rest
      else el :: prevs
  | [] => [el]
  end.

(** The loop of [ReceivedPacket], from the last range to the first. *)
Fixpoint received_loop (p : Z) (els : list PacketInterval) : list PacketInterval :=
  match els with
  | [] => [MkPacketInterval p p]
  | el :: prevs =>
      if (Start el <=? p) && (p <=? End el) then els
      else if End el =? u64 (p - 1) then merge (MkPacketInterval (Start el) p) prevs
      else if Start el =? u64 (p + 1) then merge (MkPacketInterval p (End el)) prevs
      else if End el <? p then MkPacketInterval p p :: els
      else el :: received_loop p prevs
  end.

Definition ReceivedPacket (h : t) (p : Z) : option goerr * t :=
  if MaxTrackedReceivedAckRanges <=? Z.of_nat (length (ranges h))
  then (Some errTooManyOutstandingReceivedAckRanges, h)
  else (None, Mk (rev (received_loop p (rev (ranges h)))) (lowestInReceivedPacketNumbers h)).

(** The loop of [DeleteUpTo], from the first range to the last. *)
Fixpoint delete_loop (p : Z) (els : list PacketInterval) : list PacketInterval :=
  match els with
  | [] => []
  | el :: rest =>
      if (Start el <=? p) && (p <? End el) then MkPacketInterval (u64 (p + 1)) (End el) :: delete_loop p rest
      else if End el <=? p then delete_loop p rest
      else els
  end.

Definition DeleteUpTo (h : t) (p : Z) : t :=
  Mk (delete_loop p (ranges h)) (Z.max (lowestInReceivedPacketNumbers h) (u64 (p + 1))).

Definition GetAckRanges (h : t) : list AckRange :=
  (fun el => MkAckRange (Start el) (End el)) <$> rev (ranges h).

Definition GetHighestAckRange (h : t) : AckRange :=
  match last (ranges h) with
  | Some r => MkAckRange (Start r) (End r)
  | None => MkAckRange 0 0
  end.

End receivedPacketHistory.
Import receivedPacketHistory.

Module receivedPacketHandler.

Record t : Type := Mk {
  largestObserved : Z;
  lowerLimit : Z;
  largestObservedReceivedTime : Z;
  packetHistory : receivedPacketHistory.t;
  ackSendDelay : Z;
  packetsReceivedSinceLastAck : Z;
  retransmittablePacketsReceivedSinceLastAck : Z;
  ackQueued : bool;
  ackAlarm : option Z;
  lastAck : option AckFrame.t;
  version : Z;
  packets : Z;
  totalrecvsize : float;
  thistimesize : float;
  totaltime : float;
  starttime : Z;
  lasttime : Z;
  estimaterecvtp : float;
  thistimerecvtp : float;
}.

Definition errInvalidPacketNumber : goerr := GoErr "ReceivedPacketHandler: Invalid packet number".

Definition NewReceivedPacketHandler (version now : Z) : t :=
  Mk 0 0 0 newReceivedPacketHistory AckSendDelay 0 0 false None None version 0
     f0 f0 f0 now now f0 f0.

Definition GetStatistics (h : t) : Z := packets h.

(** [Duration.Milliseconds] and [Duration.Microseconds] truncate. *)
Definition GetStatisticstp (h : t) (now : Z) : float * float * t :=
  let totaltime' := of_Z64 (Z.quot (time_sub now (starttime h)) Millisecond) in
  let million := of_Z64 1000000 in
  let estimate := (totalrecvsize h * of_Z64 8 / (totaltime' / of_Z64 1000) / million)%f64 in
  let thistime := (thistimesize h * of_Z64 8
                   / (of_Z64 (Z.quot (time_sub now (lasttime h)) Microsecond) / million) / million)%f64 in
  (estimate, thistime,
   Mk (largestObserved h) (lowerLimit h) (largestObservedReceivedTime h) (packetHistory h) (ackSendDelay h)
      (packetsReceivedSinceLastAck h) (retransmittablePacketsReceivedSinceLastAck h) (ackQueued h)
      (ackAlarm h) (lastAck h) (version h) (packets h) (totalrecvsize h) f0 totaltime'
      (starttime h) now estimate thistime).

(** The state in which only the ACK bookkeeping changes. *)
Definition set_ack (h : t) (n r : Z) (queued : bool) (alarm : option Z) (last : option AckFrame.t) : t :=
  Mk (largestObserved h) (lowerLimit h) (largestObservedReceivedTime h) (packetHistory h) (ackSendDelay h)
     n r queued alarm last (version h) (packets h) (totalrecvsize h) (thistimesize h) (totaltime h)
     (starttime h) (lasttime h) (estimaterecvtp h) (thistimerecvtp h).

Definition maybeQueueAck (h : t) (packetNumber : Z) (shouldInstigateAck : bool) (now : Z) : t :=
  let n := i64 (packetsReceivedSinceLastAck h + 1) in
  let r := if shouldInstigateAck then i64 (retransmittablePacketsReceivedSinceLastAck h + 1)
           else retransmittablePacketsReceivedSinceLastAck h in
  let queued :=
    ackQueued h
    || match lastAck h with None => true | Some _ => false end
    || ((version h <? Version39) && (MaxPacketsReceivedBeforeAckSend <=? n))
    || match lastAck h with
       | Some a => (packetNumber <? LargestAcked (AckFrame.acked a))
                   || (LargestAcked (AckFrame.acked a) <? First (GetHighestAckRange (packetHistory h)))
       | None => false
       end in
  let queued' := queued || (shouldInstigateAck && (RetransmittablePacketsBeforeAck <=? r)) in
  let alarm :=
    if queued' then None
    else if shouldInstigateAck
    then match ackAlarm h with None => Some (time_add now (ackSendDelay h)) | Some a => Some a end
    else ackAlarm h in
  set_ack h n r queued' alarm (lastAck h).

Definition ReceivedPacket (h : t) (packetNumber : Z) (shouldInstigateAck : bool) (size now : Z)
  : option goerr * t :=
  if packetNumber =? 0 then (Some errInvalidPacketNumber, h)
  else
    let newest := largestObserved h <? packetNumber in
    let with_history (hist : receivedPacketHistory.t) : t :=
      Mk (if newest then packetNumber else largestObserved h) (lowerLimit h)
         (if newest then now else largestObservedReceivedTime h) hist (ackSendDelay h)
         (packetsReceivedSinceLastAck h) (retransmittablePacketsReceivedSinceLastAck h)
         (ackQueued h) (ackAlarm h) (lastAck h) (version h) (u64 (packets h + 1))
         (totalrecvsize h + of_Z64 size)%f64 (thistimesize h + of_Z64 size)%f64 (totaltime h)
         (starttime h) (lasttime h) (estimaterecvtp h) (thistimerecvtp h) in
    if packetNumber <=? lowerLimit h then (None, with_history (packetHistory h))
    else
      match receivedPacketHistory.ReceivedPacket (packetHistory h) packetNumber with
      | (Some err, hist) => (Some err, with_history hist)
      | (None, hist) => (None, maybeQueueAck (with_history hist) packetNumber shouldInstigateAck now)
      end.

Definition SetLowerLimit (h : t) (p : Z) : t :=
  Mk (largestObserved h) p (largestObservedReceivedTime h) (DeleteUpTo (packetHistory h) p) (ackSendDelay h)
     (packetsReceivedSinceLastAck h) (retransmittablePacketsReceivedSinceLastAck h) (ackQueued h)
     (ackAlarm h) (lastAck h) (version h) (packets h) (totalrecvsize h) (thistimesize h) (totaltime h)
     (starttime h) (lasttime h) (estimaterecvtp h) (thistimerecvtp h).

(** The ranges as a frame reports them; indexing an empty list of ranges panics. *)
Definition reported (h : t) : res Acked :=
  let ackRanges := GetAckRanges (packetHistory h) in
  match last ackRanges with
  | None => Panic
  | Some r =>
      Ok (MkAcked (largestObserved h) (First r)
                  (if 1 <? Z.of_nat (length ackRanges) then ackRanges else []))
  end.

Definition GetAckFrame (h : t) (now : Z) : res (option AckFrame.t * t) :=
  if negb (ackQueued h) && match ackAlarm h with None => true | Some a => now <? a end
  then Ok (None, h)
  else
    a ← reported h;
    let ack := AckFrame.Mk 0 a (largestObservedReceivedTime h) 0 in
    Ok (Some ack, set_ack h 0 0 false None (Some ack)).

Definition GetClosePathFrame (h : t) : res ClosePathFrame.t :=
  a ← reported h; Ok (ClosePathFrame.Mk 0 a).

Definition GetAlarmTimeout (h : t) : option Z := ackAlarm h.

End receivedPacketHandler.
Import receivedPacketHandler.

(** ** The history as a set of packet numbers *)

Definition in_ranges (els : list PacketInterval) (x : Z) : Prop :=
  exists el, el ∈ els /\ Start el <= x <= End el.

(** Ascending, non-empty ranges that do not touch. *)
Fixpoint asc (lo : Z) (els : list PacketInterval) : Prop :=
  match els with
  | [] => True
  | el :: rest => lo <= Start el <= End el /\ asc (End el + 2) rest
  end.

Lemma in_ranges_nil x : in_ranges [] x <-> False.
Proof. split; [|done]. by intros (el & []%not_elem_of_nil & _). Qed.
Lemma in_ranges_cons el els x : in_ranges (el :: els) x <-> Start el <= x <= End el \/ in_ranges els x.
Proof.
  unfold in_ranges. setoid_rewrite elem_of_cons. split.
  - intros (e & [->|He] & Hx); eauto.
  - intros [Hx|(e & He & Hx)]; eauto.
Qed.
Lemma elem_of_rev {A} (x : A) l : x ∈ rev l <-> x ∈ l.
Proof. by rewrite !list_elem_of_In, <- in_rev. Qed.
Lemma in_ranges_rev els x : in_ranges (rev els) x <-> in_ranges els x.
Proof. unfold in_ranges. by setoid_rewrite elem_of_rev. Qed.

Lemma asc_weaken lo lo' els : lo' <= lo -> asc lo els -> asc lo' els.
Proof. destruct els; simpl; [done|]. intros ? [? ?]. split; [lia|done]. Qed.

Lemma asc_snoc lo els el :
  asc lo (els ++ [el]) <->
  asc lo els /\ (forall e, e ∈ els -> End e + 1 < Start el) /\ lo <= Start el <= End el.
Proof.
  revert lo. induction els as [|e els IH]; intros lo; cbn [app asc].
  - split; [|tauto]. intros [? _]. split_and!; try done; [by intros ? []%not_elem_of_nil|lia..].
  - rewrite IH. setoid_rewrite elem_of_cons. split.
    + intros (He & Ha & Hlt & Hel). split_and!; try tauto; [|lia..]. intros x [->|Hx]; [lia|auto].
    + intros ((He & Ha) & Hlt & Hel). specialize (Hlt e (or_introl eq_refl)) as Hl.
      split_and!; auto; try lia.
Qed.

Lemma asc_bounds lo els el : asc lo els -> el ∈ els -> lo <= Start el <= End el.
Proof.
  revert lo. induction els as [|e els IH]; intros lo; [by intros _ []%not_elem_of_nil|].
  intros [He Ha] [->|Hel]%elem_of_cons; [done|]. specialize (IH _ Ha Hel). lia.
Qed.

(** The end of every range is in it: bounds on the members are bounds on the ranges. *)
Lemma asc_ends lo els el b :
  asc lo els -> (forall x, in_ranges els x -> x < b) -> el ∈ els -> End el < b.
Proof.
  intros Ha Hb Hel. apply Hb. exists el. pose proof (asc_bounds _ _ _ Ha Hel). split; [done|lia].
Qed.

(** [ReceivedPacket] adds the packet and keeps the ranges apart; the lists start with the
    last range here. *)
Section Insert.
Context (p : Z).
Hypothesis Hp : 1 <= p < 2 ^ 63.

Lemma merge_spec el prevs :
  asc 1 (rev prevs) -> 1 <= Start el <= End el -> End el < 2 ^ 63 ->
  (forall e, e ∈ prevs -> End e < Start el) ->
  asc 1 (rev (merge el prevs)) /\ forall x, in_ranges (merge el prevs) x <-> in_ranges (el :: prevs) x.
Proof.
  intros Ha He Hb Hlt. destruct prevs as [|prev rest]; cbn [merge]; [by split; [split|]|].
  pose proof (Hlt prev ltac:(left)) as Hpe. cbn [rev] in Ha. pose proof Ha as (Hr & Hlp & Hpr)%asc_snoc.
  rewrite u64_small by lia. destruct (Z.eqb_spec (End prev + 1) (Start el)) as [E|Hne].
  - split.
    + cbn [rev]. apply asc_snoc. cbn [Start End]. split_and!; try done; lia.
    + intros x. rewrite !in_ranges_cons. cbn [Start End]. split; [|lia || (intros [?|[?|?]]; [left; lia..|by right])].
      intros [?|?]; [|by right; right]. destruct (decide (x <= End prev)); [right; left|left]; lia.
  - split; [|done]. cbn [rev]. apply asc_snoc. split_and!; try done; try lia.
    intros e Hin. rewrite elem_of_app, list_elem_of_singleton in Hin. destruct Hin as [Hin| ->]; [|lia].
    specialize (Hlp e Hin). lia.
Qed.

Lemma received_loop_spec els :
  asc 1 (rev els) -> (forall e, e ∈ els -> End e < 2 ^ 63) ->
  asc 1 (rev (received_loop p els)) /\
  forall x, in_ranges (received_loop p els) x <-> in_ranges els x \/ x = p.
Proof.
  induction els as [|el prevs IH]; intros Ha Hb; cbn [received_loop].
  { split; [by split; [cbn; lia|]|]. intros x. rewrite in_ranges_cons, !in_ranges_nil. cbn. lia. }
  pose proof (Hb el ltac:(left)) as Hbe. cbn [rev] in Ha. pose proof Ha as (Hr & Hlt & Hel)%asc_snoc.
  rewrite !u64_small by lia.
  assert (forall e, e ∈ prevs -> End e + 1 < Start el) as Hlt' by (intros; by apply Hlt, elem_of_rev).
  destruct (Z.leb_spec (Start el) p), (Z.leb_spec p (End el)); cbn [andb]; try lia.
  { split; [done|]. intros x. rewrite in_ranges_cons. split; [tauto|]. intros [?| ->]; [done|left; lia]. }
  all: destruct (Z.eqb_spec (End el) (p - 1)) as [E1|E1]; try lia.
  { destruct (merge_spec (MkPacketInterval (Start el) p) prevs) as [Hm Hx]; cbn [Start End] in *; try done; try lia.
    { intros e He. specialize (Hlt' e He). lia. }
    split; [done|]. intros x. rewrite Hx, !in_ranges_cons. cbn [Start End].
    split; [|intros [[?|?]| ->]; [left; lia|by right|left; lia]].
    intros [?|?]; [|by left; right]. destruct (decide (x = p)); [by right|left; left; lia]. }
  { destruct (Z.eqb_spec (Start el) (p + 1)) as [E2|E2]; try lia. rewrite (proj2 (Z.ltb_lt (End el) p)) by lia. split.
    - cbn [rev]. apply asc_snoc. cbn. split_and!; try lia; [by apply asc_snoc|].
      intros e. rewrite elem_of_app, list_elem_of_singleton. intros [He| ->]; [|lia]. specialize (Hlt e He). lia.
    - intros x. rewrite in_ranges_cons. cbn. split; [intros [?|?]; [right; lia|by left]|]. intros [?| ->]; [by right|left; lia]. }
  destruct (Z.eqb_spec (Start el) (p + 1)) as [E2|E2].
  { destruct (merge_spec (MkPacketInterval p (End el)) prevs) as [Hm Hx]; cbn [Start End] in *; try done; try lia.
    { intros e He. specialize (Hlt' e He). lia. }
    split; [done|]. intros x. rewrite Hx, !in_ranges_cons. cbn [Start End].
    split; [|intros [[?|?]| ->]; [left; lia|by right|left; lia]].
    intros [?|?]; [|by left; right]. destruct (decide (x = p)); [by right|left; left; lia]. }
  rewrite (proj2 (Z.ltb_ge (End el) p)) by lia.
  destruct IH as [Hi Hx]; [done|intros; apply Hb; by right|]. split.
  - cbn [rev]. apply asc_snoc. split_and!; try done; try lia. intros e He.
    assert (End e < Start el - 1); [|lia]. eapply (asc_ends 1 _ e _ Hi); [|done].
    intros x. rewrite in_ranges_rev, Hx. intros [(y & Hy & ?)| ->]; [|lia]. specialize (Hlt' y Hy). lia.
  - intros x. rewrite !in_ranges_cons, Hx. tauto.
Qed.
End Insert.

Lemma delete_loop_spec p els : forall lo,
  asc lo els -> 0 <= p < 2 ^ 63 ->
  asc lo (delete_loop p els) /\ forall x, in_ranges (delete_loop p els) x <-> in_ranges els x /\ p < x.
Proof.
  induction els as [|el rest IH]; intros lo Ha Hp; cbn [delete_loop].
  { split; [done|]. intros x. rewrite in_ranges_nil. tauto. }
  destruct Ha as [Hel Ha]. destruct (IH _ Ha Hp) as [Hi Hx].
  assert (p <= End el -> forall x, in_ranges rest x -> p < x) as Hup.
  { intros Hle x (e & He & Hxe). pose proof (asc_bounds _ _ _ Ha He). lia. }
  destruct (Z.leb_spec (Start el) p), (Z.ltb_spec p (End el)); cbn [andb].
  - rewrite u64_small by lia. split; [cbn; split; [lia|done]|]. intros x. rewrite !in_ranges_cons, Hx. cbn.
    split; [intros [?|?]; [split; [left|]; lia|tauto]|]. intros [[?|?] ?]; [left; lia|tauto].
  - rewrite (proj2 (Z.leb_le (End el) p)) by lia. split; [eapply asc_weaken; [|done]; lia|].
    intros x. rewrite in_ranges_cons, Hx. split; [tauto|]. intros [[?|?] ?]; [lia|tauto].
  - rewrite (proj2 (Z.leb_gt (End el) p)) by lia. split; [done|]. intros x. rewrite in_ranges_cons.
    split; [|tauto]. intros [?|?]; (split; [by auto|]); [lia|by apply Hup; [lia|]].
  - lia.
Qed.

(** ** The ranges of a frame *)

Definition ack_range (el : PacketInterval) : AckRange := MkAckRange (Start el) (End el).

Lemma asc_descending els : forall el,
  asc 1 (rev (el :: els)) -> 1 <= Start el <= End el /\ descending (ack_range el) (ack_range <$> els).
Proof.
  induction els as [|e els IH]; intros el Ha; cbn [rev] in Ha.
  - apply asc_snoc in Ha as (_ & _ & ?). by split.
  - apply asc_snoc in Ha as (Ha & Hlt & Hel). destruct (IH e Ha) as [He Hd]. split; [lia|].
    cbn. split_and!; try done; try lia. specialize (Hlt e). apply Hlt. rewrite elem_of_app. right. left.
Qed.

(** What a frame reports is well formed, and says exactly what the history says. *)
Lemma reported_spec h :
  let els := ranges (packetHistory h) in
  asc 1 els -> in_ranges els (largestObserved h) -> (forall x, in_ranges els x -> x <= largestObserved h) ->
  largestObserved h < 2 ^ 48 ->
  exists a, reported h = Ok a /\ acked_wf a /\ LargestAcked a = largestObserved h /\
    forall p, acked_numbers a p <-> in_ranges els p.
Proof.
  intros els Ha Hin Hmax Hb. unfold reported, GetAckRanges. fold els.
  assert (forall p, in_ranges els p <-> in_ranges (rev els) p) as Hrev by (intros; by rewrite in_ranges_rev).
  setoid_rewrite Hrev. apply Hrev in Hin. rewrite <- (rev_involutive els) in Ha.
  assert (forall x, in_ranges (rev els) x -> x <= largestObserved h) as Hmax' by (intros x ?%Hrev; auto).
  clear Hrev Hmax. destruct (rev els) as [|el rest]; [by apply in_ranges_nil in Hin|].
  destruct (asc_descending rest el Ha) as [Hel Hd].
  assert (End el = largestObserved h) as Hlast.
  { apply in_ranges_cons in Hin as [?|(e & He & Hx)]; [specialize (Hmax' (End el)); rewrite in_ranges_cons in Hmax'; lia|].
    cbn [rev] in Ha. apply asc_snoc in Ha as (_ & Hlt & _). specialize (Hlt e ltac:(by apply elem_of_rev)).
    specialize (Hmax' (End el)). rewrite in_ranges_cons in Hmax'. lia. }
  destruct rest as [|e rest].
  - exists (MkAcked (largestObserved h) (Start el) []). split_and!; try done; try (unfold acked_wf; cbn; lia).
    intros p. rewrite in_ranges_cons, in_ranges_nil. unfold acked_numbers. cbn. lia.
  - change ((fun el => MkAckRange (Start el) (End el)) <$> el :: e :: rest)
      with (ack_range el :: ack_range e :: (ack_range <$> rest)).
    set (y := default (ack_range e) (last (ack_range <$> rest))).
    assert (last (ack_range el :: ack_range e :: (ack_range <$> rest)) = Some y) as ->
      by (unfold y; rewrite !last_cons; by destruct (last (ack_range <$> rest))).
    assert (last_range (ack_range el) (ack_range e :: (ack_range <$> rest)) = y) as El
      by (unfold last_range, y; rewrite last_cons; by destruct (last (ack_range <$> rest))).
    assert (y ∈ ack_range e :: (ack_range <$> rest)) as Hy.
    { unfold y. destruct (last (ack_range <$> rest)) as [z|] eqn:Ez; [|left].
      right. by apply last_Some_elem_of. }
    destruct (descending_bounds _ _ Hd ltac:(cbn; lia) y Hy) as [? ?].
    rewrite (proj2 (Z.ltb_lt _ _)) by (cbn [length]; lia).
    eexists. split; [done|]. split_and!; [|done|].
    + unfold acked_wf. cbn [LargestAcked LowestAcked AckRanges]. rewrite El.
      cbn [First Last ack_range] in *. split_and!; try done; lia.
    + intros p. unfold acked_numbers. cbn [AckRanges]. unfold in_ranges.
      change (ack_range el :: ack_range e :: (ack_range <$> rest)) with (ack_range <$> el :: e :: rest).
      setoid_rewrite list_elem_of_fmap. split.
      * intros (r & (z & -> & Hz) & Hr). by exists z.
      * intros (z & Hz & Hr). exists (ack_range z). split; [by exists z|done].
Qed.

(** ** Runs of the handler

    A run is what a path does with its handler: packets arrive, a packet that has arrived
    may carry a STOP_WAITING frame (whose least unacked packet is at least 1 and at most
    the number of that packet, which the frame's parser guarantees), ACKs are asked for.
    [rcvd] are the packet numbers received so far, [lims] the lower limits set so far,
    [clock] the time of the last operation. *)
Inductive run : t -> list Z -> list Z -> Z -> Prop :=
| run_new version now : run (NewReceivedPacketHandler version now) [] [] now
| run_packet h rcvd lims clock pn inst size now h' :
    run h rcvd lims clock -> clock <= now -> 1 <= pn < 2 ^ 48 ->
    ReceivedPacket h pn inst size now = (None, h') -> run h' (pn :: rcvd) lims now
| run_stop_waiting h rcvd lims clock pn leastUnacked :
    run h rcvd lims clock -> pn ∈ rcvd -> 1 <= leastUnacked <= pn ->
    run (SetLowerLimit h (u64 (leastUnacked - 1))) rcvd (leastUnacked - 1 :: lims) clock
| run_ack h rcvd lims clock now a h' :
    run h rcvd lims clock -> clock <= now -> GetAckFrame h now = Ok (a, h') -> run h' rcvd lims now.

Abbreviation history h := (ranges (packetHistory h)).

Record handler_inv (h : t) (rcvd lims : list Z) (clock : Z) : Prop := {
  hi_asc : asc 1 (history h);
  hi_sound : forall x, in_ranges (history h) x -> x ∈ rcvd;
  hi_complete : forall x, x ∈ rcvd -> (forall l, l ∈ lims -> l < x) -> in_ranges (history h) x;
  hi_max : forall x, x ∈ rcvd -> 1 <= x <= largestObserved h;
  hi_largest : rcvd <> [] -> in_ranges (history h) (largestObserved h) /\ lowerLimit h < largestObserved h;
  hi_bound : 0 <= largestObserved h < 2 ^ 48;
  hi_limit : lowerLimit h = 0 \/ (0 <= lowerLimit h /\ lowerLimit h ∈ lims /\ rcvd <> []);
  hi_due : ackQueued h = true \/ is_Some (ackAlarm h) -> rcvd <> [];
  hi_alarm : forall a, ackAlarm h = Some a -> a <= clock + AckSendDelay;
  hi_delay : ackSendDelay h = AckSendDelay;
  hi_none : rcvd = [] -> largestObserved h = 0;
}.

Lemma handler_inv_new version now : handler_inv (NewReceivedPacketHandler version now) [] [] now.
Proof.
  split; cbn; try done.
  - by intros x (? & []%not_elem_of_nil & _).
  - by intros x []%not_elem_of_nil.
  - by intros x []%not_elem_of_nil.
  - by left.
  - intros [[=]|[? [=]]].
Qed.

Lemma handler_inv_stop_waiting h rcvd lims clock pn least :
  handler_inv h rcvd lims clock -> pn ∈ rcvd -> 1 <= least <= pn ->
  handler_inv (SetLowerLimit h (u64 (least - 1))) rcvd (least - 1 :: lims) clock.
Proof.
  intros [I1 I2 I3 I4 I5 I6 I7 I8 I9 I10 I11] Hpn Hl. pose proof (I4 _ Hpn). rewrite u64_small by lia.
  destruct (delete_loop_spec (least - 1) (history h) 1 I1) as [D1 D2]; [lia|].
  split; cbn; try done; try setoid_rewrite D2.
  - intros x [Hx _]. auto.
  - setoid_rewrite elem_of_cons. intros x Hx Hlim. split; [|by auto]. apply I3; auto.
  - intros Hr. destruct (I5 Hr). split; [split; [done|lia]|lia].
  - right. split_and!; [lia|left|]. intros ->. by apply not_elem_of_nil in Hpn.
Qed.

(** Alarms and counters do not touch the history. *)
Lemma maybeQueueAck_spec h pn inst now :
  let h' := maybeQueueAck h pn inst now in
  packetHistory h' = packetHistory h /\ largestObserved h' = largestObserved h /\
  lowerLimit h' = lowerLimit h /\ ackSendDelay h' = ackSendDelay h /\
  (ackQueued h' = true /\ ackAlarm h' = None \/
   (inst = true -> ackAlarm h' = Some (default (now + ackSendDelay h) (ackAlarm h))) /\
   (inst = false -> ackAlarm h' = ackAlarm h)).
Proof.
  cbv zeta. unfold maybeQueueAck, set_ack, time_add. cbn. split_and!; try done.
  destruct (_ || (inst && _)) eqn:E; cbn [orb andb]; [by left|right].
  destruct inst; (split; [intros [=]|intros [=]]; try done). by destruct (ackAlarm h).
Qed.

Lemma handler_inv_packet h rcvd lims clock pn inst size now h' :
  handler_inv h rcvd lims clock -> clock <= now -> 1 <= pn < 2 ^ 48 ->
  ReceivedPacket h pn inst size now = (None, h') -> handler_inv h' (pn :: rcvd) lims now.
Proof.
  intros [I1 I2 I3 I4 I5 I6 I7 I8 I9 I10 I11] Hclk Hpn. unfold ReceivedPacket.
  rewrite (proj2 (Z.eqb_neq pn 0)) by lia.
  set (lg := if largestObserved h <? pn then pn else largestObserved h).
  assert (largestObserved h <= lg /\ pn <= lg /\ lg < 2 ^ 48 /\ (lg = pn \/ lg = largestObserved h)) as (L1 & L2 & L3 & L4)
    by (unfold lg; destruct (Z.ltb_spec (largestObserved h) pn); lia).
  assert (forall x, x ∈ pn :: rcvd -> 1 <= x <= lg) as Hmax.
  { intros x [->|Hx]%elem_of_cons; [lia|]. specialize (I4 x Hx). lia. }
  assert (forall a, ackAlarm h = Some a -> a <= now + AckSendDelay) as Hal by (intros a Ea; specialize (I9 a Ea); lia).
  destruct (Z.leb_spec pn (lowerLimit h)) as [Hold|Hnew].
  - (* below the lower limit: not tracked *)
    destruct I7 as [E|(E1 & E2 & Hne)]; [lia|]. intros [= <-]. destruct (I5 Hne) as [H1 H2].
    assert (lg = largestObserved h) as Elg by lia.
    split; cbn; fold lg; rewrite ?Elg; try done.
    + intros x Hx. right. auto.
    + intros x [->|Hx]%elem_of_cons Hlim; [specialize (Hlim _ E2); lia|auto].
    + intros x Hx. rewrite <- Elg. auto.
    + right. done.
  - unfold receivedPacketHistory.ReceivedPacket. destruct (_ <=? _); [intros [=]|]. intros [= <-].
    assert (forall e, e ∈ rev (history h) -> End e < 2 ^ 63) as Hb.
    { intros e He. rewrite elem_of_rev in He. apply (asc_ends 1 (history h) e _ I1); [|exact He]. intros x Hx%I2%I4. lia. }
    destruct (received_loop_spec pn ltac:(lia) (rev (history h))) as [R1 R2];
      [by rewrite rev_involutive|done|].
    setoid_rewrite in_ranges_rev in R2.
    match goal with |- handler_inv (maybeQueueAck ?g _ _ _) _ _ _ => set (h1 := g) end.
    pose proof (maybeQueueAck_spec h1 pn inst now) as (M1 & M2 & M3 & M4 & M5).
    set (h2 := maybeQueueAck h1 pn inst now) in *. clearbody h2.
    assert (forall x, in_ranges (history h2) x <-> in_ranges (history h) x \/ x = pn) as Hin.
    { intros x. rewrite M1. cbn. by rewrite in_ranges_rev. }
    assert (largestObserved h2 = lg) as Elg by (by rewrite M2).
    cbn in M3, M4, M5. split; rewrite ?Elg, ?M3, ?M4; try done.
    + rewrite M1. done.
    + intros x [Hx| ->]%Hin; [right; auto|left].
    + intros x [->|Hx]%elem_of_cons Hlim; apply Hin; [by right|left; auto].
    + intros _. split; [|lia]. apply Hin. destruct L4 as [-> | ->]; [by right|left].
      destruct rcvd as [|y rcvd]; [|by apply I5]. specialize (I11 eq_refl). lia.
    + lia.
    + destruct I7 as [?|(? & ? & ?)]; [by left|]. right. done.
    + intros a Ea. destruct M5 as [[_ E]|[E1 E2]]; [congruence|]. destruct inst.
      * rewrite E1 in Ea by done. injection Ea as <-. destruct (ackAlarm h) as [b|] eqn:Eb; cbn; [by apply Hal|].
        rewrite I10. lia.
      * rewrite E2 in Ea by done. by apply Hal.
Qed.

Lemma reported_ok h rcvd lims clock :
  handler_inv h rcvd lims clock -> rcvd <> [] ->
  exists a, reported h = Ok a /\ acked_wf a /\ LargestAcked a = largestObserved h /\
    forall p, acked_numbers a p <-> in_ranges (history h) p.
Proof.
  intros [I1 I2 I3 I4 I5 I6 I7 I8 I9 I10 I11] Hne. destruct (I5 Hne) as [Hl _].
  apply reported_spec; [done|done| |lia]. intros x Hx%I2%I4. lia.
Qed.

Lemma handler_inv_ack h rcvd lims clock now a h' :
  handler_inv h rcvd lims clock -> clock <= now -> GetAckFrame h now = Ok (a, h') ->
  handler_inv h' rcvd lims now.
Proof.
  intros Hinv Hclk. pose proof Hinv as [I1 I2 I3 I4 I5 I6 I7 I8 I9 I10 I11]. unfold GetAckFrame.
  destruct (_ && _).
  - intros [= <- <-]. split; try done. intros b Eb. specialize (I9 b Eb). lia.
  - destruct (reported h) as [x|e|]; cbn; [|intros [=]..]. intros [= <- <-].
    split; cbn; try done. intros [[=]|[? [=]]].
Qed.

Lemma run_handler_inv h rcvd lims clock : run h rcvd lims clock -> handler_inv h rcvd lims clock.
Proof.
  induction 1; eauto using handler_inv_new, handler_inv_packet, handler_inv_stop_waiting, handler_inv_ack.
Qed.

Lemma due_reports h rcvd lims clock now :
  handler_inv h rcvd lims clock ->
  ackQueued h = true \/ (exists a, ackAlarm h = Some a /\ a <= now) ->
  exists ack h', GetAckFrame h now = Ok (Some ack, h') /\ reported h = Ok (AckFrame.acked ack).
Proof.
  intros Hinv Hdue. destruct (reported_ok _ _ _ _ Hinv) as (a & Ha & _).
  { apply (hi_due _ _ _ _ Hinv). destruct Hdue as [?|(a & -> & _)]; [by left|right; by eexists]. }
  unfold GetAckFrame. rewrite Ha.
  assert (negb (ackQueued h) && match ackAlarm h with None => true | Some a => now <? a end = false) as ->.
  { destruct Hdue as [-> |(b & -> & Hb)]; [done|]. rewrite (proj2 (Z.ltb_ge _ _)) by lia. by rewrite andb_false_r. }
  cbn. eauto.
Qed.

Lemma due_or_none h now :
  (ackQueued h = true \/ (exists a, ackAlarm h = Some a /\ a <= now)) \/ GetAckFrame h now = Ok (None, h).
Proof.
  unfold GetAckFrame. destruct (ackQueued h); [by left; left|]. destruct (ackAlarm h) as [a|]; cbn; [|by right].
  destruct (Z.ltb_spec now a); [by right|left; right]. eauto.
Qed.

(** ** Properties *)

(** C33. An ACK reports what was received.  At any point of a run asking for an ACK does
    not panic, and an ACK that is given is a well-formed frame that acknowledges only
    packets that were received, every received packet above the lower limits the peer
    has set, and names the largest packet received as its largest. *)
Theorem ack_reports_received h rcvd lims clock now :
  run h rcvd lims clock -> clock <= now ->
  exists o h', GetAckFrame h now = Ok (o, h') /\
    forall ack, o = Some ack ->
      acked_wf (AckFrame.acked ack) /\
      (forall p, AcksPacket (AckFrame.acked ack) p = true -> p ∈ rcvd) /\
      (forall p, p ∈ rcvd -> (forall l, l ∈ lims -> l < p) -> AcksPacket (AckFrame.acked ack) p = true) /\
      LargestAcked (AckFrame.acked ack) ∈ rcvd /\
      (forall p, p ∈ rcvd -> p <= LargestAcked (AckFrame.acked ack)).
Proof.
  intros Hr Hclk. pose proof (run_handler_inv _ _ _ _ Hr) as Hinv.
  destruct (due_or_none h now) as [Hdue|Hnot]; [|by exists None, h].
  destruct (due_reports _ _ _ _ now Hinv Hdue) as (ack & h' & Hget & Hrep).
  exists (Some ack), h'. split; [done|]. intros ? [= <-].
  assert (rcvd <> []) as Hne.
  { apply (hi_due _ _ _ _ Hinv). destruct Hdue as [?|(a & -> & _)]; [by left|right; by eexists]. }
  destruct (reported_ok _ _ _ _ Hinv Hne) as (a & Ha & Hwf & Hl & Hnum).
  rewrite Ha in Hrep. injection Hrep as <-. destruct Hinv as [I1 I2 I3 I4 I5 I6 I7 I8 I9 I10 I11].
  split_and!; [done| | | |].
  - intros p Hp%AcksPacket_spec; [|done]. by apply I2, Hnum.
  - intros p Hp Hlim. apply AcksPacket_spec; [done|]. apply Hnum. auto.
  - rewrite Hl. by apply I2, I5.
  - intros p Hp. rewrite Hl. by apply I4.
Qed.

(** Packets are acknowledged in time: [AckSendDelay] after a packet that asks for an
    ACK was received, the handler hands out an ACK. *)
Theorem ack_in_time h rcvd lims clock pn size now h' now' :
  run h rcvd lims clock -> clock <= now -> 1 <= pn < 2 ^ 48 -> lowerLimit h < pn ->
  ReceivedPacket h pn true size now = (None, h') -> now + AckSendDelay <= now' ->
  exists ack h'', GetAckFrame h' now' = Ok (Some ack, h'') /\ AcksPacket (AckFrame.acked ack) pn = true.
Proof.
  intros Hr Hclk Hpn Hlim Hrec Hnow. pose proof (run_handler_inv _ _ _ _ Hr) as Hinv.
  pose proof (handler_inv_packet _ _ _ _ _ _ _ _ _ Hinv Hclk Hpn Hrec) as Hinv'.
  unfold ReceivedPacket, receivedPacketHistory.ReceivedPacket in Hrec.
  rewrite (proj2 (Z.eqb_neq pn 0)), (proj2 (Z.leb_gt pn (lowerLimit h))) in Hrec by lia.
  destruct (_ <=? Z.of_nat (length (ranges _))); [by discriminate|]. injection Hrec as <-.
  match type of Hinv' with handler_inv (maybeQueueAck ?g _ _ _) _ _ _ => set (h1 := g) in * end.
  pose proof (maybeQueueAck_spec h1 pn true now) as (M1 & _ & _ & _ & M5).
  destruct (due_reports _ _ _ _ now' Hinv') as (ack & h'' & Hget & Hrep).
  { destruct M5 as [[E _]|[E _]]; [by left|right]. specialize (E eq_refl).
    eexists. split; [done|]. pose proof (hi_alarm _ _ _ _ Hinv' _ E). lia. }
  exists ack, h''. split; [done|].
  destruct (reported_ok _ _ _ _ Hinv') as (a & Ha & Hwf & _ & Hnum); [done|].
  rewrite Ha in Hrep. injection Hrep as <-. apply AcksPacket_spec; [done|]. apply Hnum. rewrite M1. cbn.
  destruct Hinv as [I1 I2 I3 I4 I5 I6 I7 I8 I9 I10 I11]. rewrite in_ranges_rev.
  apply received_loop_spec; [lia|by rewrite rev_involutive| |by right].
  intros e He. rewrite elem_of_rev in He. apply (asc_ends 1 (history h) e _ I1); [|exact He].
  intros x Hx%I2%I4. lia.
Qed.

(** Packets 1 and 3 arrive. *)
Definition sample0 : t := NewReceivedPacketHandler VersionMP 0.
Definition sample1 : t := (ReceivedPacket sample0 1 true 100 0).2.
Definition sample2 : t := (ReceivedPacket sample1 3 true 100 1000).2.

Lemma sample_run : run sample2 [3; 1] [] 1000.
Proof.
  eapply (run_packet sample1 [1] [] 0 3 true 100 1000); [|done|lia|reflexivity].
  eapply (run_packet sample0 [] [] 0 1 true 100 0); [apply run_new|done|lia|reflexivity].
Qed.

Lemma ack_reports_received_witness :
  exists o h', GetAckFrame sample2 2000 = Ok (o, h') /\
    forall ack, o = Some ack ->
      acked_wf (AckFrame.acked ack) /\
      (forall p, AcksPacket (AckFrame.acked ack) p = true -> p ∈ [3; 1]) /\
      (forall p, p ∈ [3; 1] -> (forall l, l ∈ [] -> l < p) -> AcksPacket (AckFrame.acked ack) p = true) /\
      LargestAcked (AckFrame.acked ack) ∈ [3; 1] /\
      (forall p, p ∈ [3; 1] -> p <= LargestAcked (AckFrame.acked ack)).
Proof. apply (ack_reports_received sample2 [3; 1] [] 1000 2000 sample_run). lia. Defined.

Lemma ack_in_time_witness :
  exists ack h'', GetAckFrame (ReceivedPacket sample2 5 true 100 2000).2 (25 * 1000000 + 2000) = Ok (Some ack, h'') /\
    AcksPacket (AckFrame.acked ack) 5 = true.
Proof.
  apply (ack_in_time sample2 [3; 1] [] 1000 5 100 2000 _ _ sample_run); [lia|lia|reflexivity|reflexivity|].
  vm_compute. intros [=].
Defined.
