(* ===== verification/RttStats.v ===== *)
(** * Round-trip time statistics

    Models [congestion/rtt_stats.go]: the minimum, latest and smoothed round-trip time of
    a path and the windowed minimum filter.  Durations are nanoseconds in an [int64]; the
    averages go through [float32] microseconds as in the code.  The theorem orders the
    minima the filter keeps. *)

From Stdlib Require Import ZArith.
From stdpp Require Import base numbers list option.
From S2P Require Import Prelude GoFloat.

Local Open Scope Z_scope.

Definition InfDuration : Z := 2 ^ 63 - 1.
Definition AbsDuration (d : Z) : Z := if 0 <=? d then d else i64 (- d).
Definition MaxDuration (a b : Z) : Z := if b <? a then a else b.
Definition MinDuration (a b : Z) : Z := if b <? a then b else a.

(** The zero [time.Time], January 1 of year 1, in nanoseconds of the epoch. *)
Definition zero_time : Z := -62135596800 * Second.

(** [time.Duration(f) * time.Microsecond] for a [float32] number of microseconds. *)
Definition of_micros (f : float) : Z := i64 (to_int64 f * Microsecond).
Definition micros (d : Z) : float := of_Z32 (Z.quot d Microsecond).

Module RTTStats.

Record rttSample : Type := MkSample { rtt : Z; time : Z }.

Record t : Type := Mk {
  initialRTTus : Z;
  recentMinRTTwindow : Z;
  minRTT : Z;
  latestRTT : Z;
  smoothedRTT : Z;
  meanDeviation : Z;
  numMinRTTsamplesRemaining : Z;
  newMinRTT : rttSample;
  recentMinRTT : rttSample;
  halfWindowRTT : rttSample;
  quarterWindowRTT : rttSample;
}.

Definition initialRTT : Z := 100 * 1000.
Definition no_sample : rttSample := MkSample 0 zero_time.

Definition rttAlpha : float := lit32 1 8.
Definition oneMinusAlpha : float := lit32 7 8.
Definition rttBeta : float := lit32 1 4.
Definition oneMinusBeta : float := lit32 3 4.
Definition halfWindow : float := lit32 1 2.
Definition quarterWindow : float := lit32 1 4.

Definition NewRTTStats : t := Mk initialRTT InfDuration 0 0 0 0 0 no_sample no_sample no_sample no_sample.

Definition MinRTT (r : t) : Z := minRTT r.
Definition LatestRTT (r : t) : Z := latestRTT r.
Definition RecentMinRTT (r : t) : Z := rtt (recentMinRTT r).
Definition SmoothedRTT (r : t) : Z := smoothedRTT r.
Definition GetQuarterWindowRTT (r : t) : Z := rtt (quarterWindowRTT r).
Definition GetHalfWindowRTT (r : t) : Z := rtt (halfWindowRTT r).
Definition MeanDeviation (r : t) : Z := meanDeviation r.

Definition SetRecentMinRTTwindow (r : t) (w : Z) : t :=
  Mk (initialRTTus r) w (minRTT r) (latestRTT r) (smoothedRTT r) (meanDeviation r)
     (numMinRTTsamplesRemaining r) (newMinRTT r) (recentMinRTT r) (halfWindowRTT r) (quarterWindowRTT r).

(** The filter: the sample being collected, and the three recent minima. *)
Record filter : Type := MkFilter { remaining : Z; fresh : rttSample; recent : rttSample; half : rttSample; quarter : rttSample }.

(** The first part of [updateRecentMinRTT]: collecting a new minimum on demand. *)
Definition collect (f : filter) (sample now : Z) : filter :=
  if 0 <? remaining f then
    let n := u32 (remaining f - 1) in
    let new := if (rtt (fresh f) =? 0) || (sample <=? rtt (fresh f)) then MkSample sample now else fresh f in
    if n =? 0 then MkFilter n new new new new else MkFilter n new (recent f) (half f) (quarter f)
  else f.

(** The second part: the three recent samples. *)
Definition update_samples (f : filter) (sample now : Z) : filter :=
  let s := MkSample sample now in
  if (rtt (recent f) =? 0) || (sample <=? rtt (recent f)) then MkFilter (remaining f) (fresh f) s s s
  else if sample <=? rtt (half f) then MkFilter (remaining f) (fresh f) (recent f) s s
  else if sample <=? rtt (quarter f) then MkFilter (remaining f) (fresh f) (recent f) (half f) s
  else f.

(** The third part: samples older than the window expire. *)
Definition expire (f : filter) (window sample now : Z) : filter :=
  let s := MkSample sample now in
  if time (recent f) <? now - window then MkFilter (remaining f) (fresh f) (half f) (quarter f) s
  else if time (half f) <? now - of_micros (micros window * halfWindow)%f32
  then MkFilter (remaining f) (fresh f) (recent f) (quarter f) s
  else if time (quarter f) <? now - of_micros (micros window * quarterWindow)%f32
  then MkFilter (remaining f) (fresh f) (recent f) (half f) s
  else f.

Definition updateRecentMinRTT (f : filter) (window sample now : Z) : filter :=
  expire (update_samples (collect f sample now) sample now) window sample now.

Definition filter_of (r : t) : filter :=
  MkFilter (numMinRTTsamplesRemaining r) (newMinRTT r) (recentMinRTT r) (halfWindowRTT r) (quarterWindowRTT r).

Definition UpdateRTT (r : t) (sendDelta ackDelay now : Z) : t :=
  if (sendDelta =? InfDuration) || (sendDelta <=? 0) then r
  else
    let min := if (minRTT r =? 0) || (sendDelta <? minRTT r) then sendDelta else minRTT r in
    let f := updateRecentMinRTT (filter_of r) (recentMinRTTwindow r) sendDelta now in
    let sample := if ackDelay <? sendDelta then i64 (sendDelta - ackDelay) else sendDelta in
    let first := smoothedRTT r =? 0 in
    let dev := if first then Z.quot sample 2
               else of_micros (oneMinusBeta * micros (meanDeviation r)
                               + rttBeta * micros (AbsDuration (i64 (smoothedRTT r - sample))))%f32 in
    let smoothed := if first then sample
                    else of_micros (micros (smoothedRTT r) * oneMinusAlpha + micros sample * rttAlpha)%f32 in
    Mk (initialRTTus r) (recentMinRTTwindow r) min sample smoothed dev
       (remaining f) (fresh f) (recent f) (half f) (quarter f).

Definition SampleNewRecentMinRTT (r : t) (numSamples : Z) : t :=
  Mk (initialRTTus r) (recentMinRTTwindow r) (minRTT r) (latestRTT r) (smoothedRTT r) (meanDeviation r)
     numSamples no_sample (recentMinRTT r) (halfWindowRTT r) (quarterWindowRTT r).

Definition OnConnectionMigration (r : t) : t :=
  Mk initialRTT InfDuration 0 0 0 0 0 (newMinRTT r) no_sample no_sample no_sample.

Definition ExpireSmoothedMetrics (r : t) : t :=
  Mk (initialRTTus r) (recentMinRTTwindow r) (minRTT r) (latestRTT r)
     (MaxDuration (smoothedRTT r) (latestRTT r))
     (MaxDuration (meanDeviation r) (AbsDuration (i64 (smoothedRTT r - latestRTT r))))
     (numMinRTTsamplesRemaining r) (newMinRTT r) (recentMinRTT r) (halfWindowRTT r) (quarterWindowRTT r).

Definition UpdateSessionRTT (r : t) (smoothed : Z) : t :=
  Mk (initialRTTus r) (recentMinRTTwindow r) (minRTT r) (latestRTT r) smoothed (meanDeviation r)
     (numMinRTTsamplesRemaining r) (newMinRTT r) (recentMinRTT r) (halfWindowRTT r) (quarterWindowRTT r).

End RTTStats.
Import RTTStats.

(** ** The filter *)

(** The operations on the statistics, with ghost state: the valid round-trip times
    measured since the last migration. *)
Inductive rtt_run : t -> list Z -> Prop :=
| rtt_new : rtt_run NewRTTStats []
| rtt_update r ds sendDelta ackDelay now :
    rtt_run r ds ->
    rtt_run (UpdateRTT r sendDelta ackDelay now)
      (if (sendDelta =? InfDuration) || (sendDelta <=? 0) then ds else sendDelta :: ds)
| rtt_window r ds w : rtt_run r ds -> rtt_run (SetRecentMinRTTwindow r w) ds
| rtt_sample r ds n : rtt_run r ds -> 0 <= n < 2 ^ 32 -> rtt_run (SampleNewRecentMinRTT r n) ds
| rtt_migrate r ds : rtt_run r ds -> rtt_run (OnConnectionMigration r) []
| rtt_expire r ds : rtt_run r ds -> rtt_run (ExpireSmoothedMetrics r) ds
| rtt_session r ds s : rtt_run r ds -> rtt_run (UpdateSessionRTT r s) ds.

(** The three minima are ordered, and all of them were measured. *)
Definition ordered (ds : list Z) (f : filter) : Prop :=
  rtt (recent f) <= rtt (half f) <= rtt (quarter f) /\
  rtt (recent f) ∈ ds /\ rtt (half f) ∈ ds /\ rtt (quarter f) ∈ ds.

Definition idle (f : filter) : Prop := rtt (recent f) = 0 /\ rtt (half f) = 0 /\ rtt (quarter f) = 0.

Definition fresh_ok (ds : list Z) (f : filter) : Prop :=
  0 < remaining f -> rtt (fresh f) = 0 \/ rtt (fresh f) ∈ ds.

Lemma collect_ok ds f sample now :
  fresh_ok ds f -> 0 < sample -> 0 <= remaining f < 2 ^ 32 -> ordered ds f \/ idle f ->
  let f' := collect f sample now in
  fresh_ok (sample :: ds) f' /\ 0 <= remaining f' < 2 ^ 32 /\ (ordered (sample :: ds) f' \/ idle f').
Proof.
  intros Hf Hs Hr Ho. cbv zeta. unfold collect.
  assert (ordered (sample :: ds) f \/ idle f) as Ho'.
  { destruct Ho as [(H & ? & ? & ?)|?]; [left|by right]. split; [done|]. by rewrite !elem_of_cons; auto. }
  destruct (Z.ltb_spec 0 (remaining f)) as [Hpos|Hz]; [|by split_and!; [intros ?; lia|lia..|]].
  rewrite u32_small by lia. specialize (Hf Hpos).
  set (new := if _ || _ then _ else _).
  assert (rtt new ∈ sample :: ds) as Hnew.
  { unfold new. destruct (Z.eqb_spec (rtt (fresh f)) 0); [left|]. destruct Hf as [?|?]; [done|].
    destruct (sample <=? _); cbn; [left|by right]. }
  destruct (Z.eqb_spec (remaining f - 1) 0); cbn.
  - split_and!; [intros _; by right|cbn; lia..|]. left. split; cbn; [lia|done].
  - split_and!; [intros _; by right|cbn; lia..|]. done.
Qed.

Lemma update_samples_ok ds f sample now :
  sample ∈ ds -> 0 < sample -> ordered ds f \/ idle f ->
  let f' := update_samples f sample now in
  ordered ds f' /\ rtt (quarter f') <= sample /\ remaining f' = remaining f /\ fresh f' = fresh f.
Proof.
  intros Hin Hs Ho. cbv zeta. unfold update_samples.
  destruct (Z.eqb_spec (rtt (recent f)) 0) as [E|Hne]; [by repeat split; cbn|].
  destruct Ho as [(H & H1 & H2 & H3)|(? & _)]; [|done]. cbn [orb].
  destruct (Z.leb_spec sample (rtt (recent f))); [by repeat split; cbn|].
  destruct (Z.leb_spec sample (rtt (half f))); [by repeat split; cbn; try lia|].
  destruct (Z.leb_spec sample (rtt (quarter f))); repeat split; cbn; try done; lia.
Qed.

Lemma expire_ok ds f window sample now :
  sample ∈ ds -> ordered ds f -> rtt (quarter f) <= sample ->
  let f' := expire f window sample now in
  ordered ds f' /\ remaining f' = remaining f /\ fresh f' = fresh f.
Proof.
  intros Hin (H & H1 & H2 & H3) Hq. cbv zeta. unfold expire.
  repeat case_match; repeat split; cbn; try done; lia.
Qed.

Record stats_inv (r : t) (ds : list Z) : Prop := {
  st_pos : forall d, d ∈ ds -> 0 < d;
  st_min : match ds with [] => minRTT r = 0 | _ => minRTT r ∈ ds /\ forall d, d ∈ ds -> minRTT r <= d end;
  st_filter : match ds with [] => idle (filter_of r) | _ => ordered ds (filter_of r) end;
  st_fresh : fresh_ok ds (filter_of r);
  st_remaining : 0 <= numMinRTTsamplesRemaining r < 2 ^ 32;
}.

Lemma stats_inv_update r ds sendDelta ackDelay now :
  stats_inv r ds ->
  stats_inv (UpdateRTT r sendDelta ackDelay now)
    (if (sendDelta =? InfDuration) || (sendDelta <=? 0) then ds else sendDelta :: ds).
Proof.
  intros [H1 H2 H3 H4 H5]. unfold UpdateRTT.
  destruct ((sendDelta =? InfDuration) || (sendDelta <=? 0)) eqn:E; [done|].
  apply orb_false_iff in E as [_ Hpos%Z.leb_gt].
  destruct (collect_ok ds (filter_of r) sendDelta now H4 Hpos H5) as (C1 & C2 & C3).
  { destruct ds; [by right|by left]. }
  destruct (update_samples_ok (sendDelta :: ds) (collect (filter_of r) sendDelta now) sendDelta now)
    as (U1 & U2 & U3 & U4); [left|done|done|].
  destruct (expire_ok (sendDelta :: ds) _ (recentMinRTTwindow r) sendDelta now ltac:(left) U1 U2) as (E1 & E2 & E3).
  rewrite U3 in E2. rewrite U4 in E3.
  split; cbn -[expire update_samples collect]; unfold filter_of, fresh_ok in *;
    cbn -[expire update_samples collect]; unfold updateRecentMinRTT.
  - intros d [->|Hd]%elem_of_cons; auto.
  - destruct ds as [|d0 ds].
    + rewrite H2. cbn. split; [left|]. intros d [->|[]%not_elem_of_nil]%elem_of_cons. lia.
    + destruct H2 as [Hm Hle]. specialize (H1 _ Hm) as Hp. rewrite (proj2 (Z.eqb_neq _ 0)) by lia. cbn [orb].
      destruct (Z.ltb_spec sendDelta (minRTT r)); (split; [by rewrite !elem_of_cons in *; auto|]).
      * intros d [->|Hd]%elem_of_cons; [lia|]. specialize (Hle d Hd). lia.
      * intros d [->|Hd]%elem_of_cons; [lia|auto].
  - exact E1.
  - unfold filter_of in E2, E3. rewrite E2, E3. apply C1.
  - unfold filter_of in E2. rewrite E2. exact C2.
Qed.

Lemma stats_inv_empty r :
  minRTT r = 0 -> idle (filter_of r) -> numMinRTTsamplesRemaining r = 0 -> stats_inv r [].
Proof.
  intros H1 H2 H3. split; try done; [by intros d []%not_elem_of_nil| |lia].
  intros H. cbn in H. lia.
Qed.

Lemma rtt_run_inv r ds : rtt_run r ds -> stats_inv r ds.
Proof.
  induction 1 as [|r ds ? ? ? _ IH|r ds w _ [H1 H2 H3 H4 H5]|r ds n _ [H1 H2 H3 H4 H5] Hn|r ds _ _
    |r ds _ [H1 H2 H3 H4 H5]|r ds s _ [H1 H2 H3 H4 H5]].
  - by apply stats_inv_empty.
  - by apply stats_inv_update.
  - by split.
  - split; try done. intros _. by left.
  - by apply stats_inv_empty.
  - by split.
  - by split.
Qed.

(** The RTT minima are what they claim to be.  After any sequence of operations the
    minimum RTT is the smallest valid round-trip time measured since the last migration
    (0 before the first), the recent, half-window and quarter-window minima are measured
    values too, and they are ordered. *)
Theorem rtt_minima r ds :
  rtt_run r ds ->
  match ds with
  | [] => MinRTT r = 0 /\ RecentMinRTT r = 0
  | _ => MinRTT r ∈ ds /\ (forall d, d ∈ ds -> MinRTT r <= d) /\
         RecentMinRTT r ∈ ds /\
         MinRTT r <= RecentMinRTT r <= GetHalfWindowRTT r /\ GetHalfWindowRTT r <= GetQuarterWindowRTT r
  end.
Proof.
  intros [H1 H2 H3 H4 H5]%rtt_run_inv. destruct ds as [|d ds].
  - split; [done|]. apply H3.
  - destruct H2 as [Hm Hle], H3 as (Ho & Hr & _ & _). specialize (Hle _ Hr) as Hmr.
    unfold MinRTT, RecentMinRTT, GetHalfWindowRTT, GetQuarterWindowRTT in *. cbn in *.
    split_and!; try done; lia.
Qed.

Lemma rtt_minima_witness :
  let r := UpdateRTT (UpdateRTT NewRTTStats (30 * Millisecond) 0 1000) (20 * Millisecond) (5 * Millisecond) 2000 in
  MinRTT r ∈ [20 * Millisecond; 30 * Millisecond] /\
  (forall d, d ∈ [20 * Millisecond; 30 * Millisecond] -> MinRTT r <= d) /\
  RecentMinRTT r ∈ [20 * Millisecond; 30 * Millisecond] /\
  MinRTT r <= RecentMinRTT r <= GetHalfWindowRTT r /\ GetHalfWindowRTT r <= GetQuarterWindowRTT r.
Proof.
  apply (rtt_minima _ [20 * Millisecond; 30 * Millisecond]).
  apply (rtt_update _ [30 * Millisecond]), (rtt_update _ []), rtt_new.
Defined.

(** The smoothed RTT moves by an eighth of the difference. *)
Example smoothed_rtt_example :
  SmoothedRTT (UpdateRTT (UpdateRTT NewRTTStats (30 * Millisecond) 0 1000) (20 * Millisecond) (5 * Millisecond) 2000)
  = 28125 * Microsecond.
Proof. vm_compute. reflexivity. Qed.
