(* ===== verification/SentPackets.v ===== *)
(** * Tracking sent packets

    Models [ackhandler/sent_packet_handler.go], [ackhandler/stop_waiting_manager.go],
    [ackhandler/packet.go] and [ackhandler/retransmittable.go]: which packets are in
    flight, which an ACK acknowledges, which are declared lost and queued for
    retransmission, and when the loss detection alarm fires.  Congestion control is an
    interface of the code ([congestion.SendAlgorithm]) and a class here; the RTT
    statistics the handler shares with it are passed to its methods.  The clock and the
    answer of the RTO callback are arguments.

    The theorems: an ACK removes exactly the packets it acknowledges, the bytes in flight
    are the sizes of the packets in flight, every packet sent is in flight, acknowledged
    or queued, and while packets are in flight the alarm is armed. *)

From Stdlib Require Import ZArith.
From stdpp Require Import base numbers list option strings sorting.
From S2P Require Import Prelude GoFloat RttStats AckRanges AckFrame ClosePathFrame StreamFrame ControlFrames PacketUnpacker.

Local Open Scope Z_scope.

(** ** Packets *)

Record Packet : Type := MkPacket {
  PacketNumber : Z;
  Frames : list Frame;
  Length : Z;
  PktEncryptionLevel : Z;
  SendTime : Z;
  NeedRetrans : bool;
}.

Definition IsFrameRetransmittable (f : Frame) : bool :=
  match f with FStopWaiting _ | FAck _ => false | _ => true end.

Definition IsFrameRetransmittableForRed (f : Frame) : bool :=
  match f with FStopWaiting _ | FStream _ => false | _ => true end.

Definition stripNonRetransmittableFrames (fs : list Frame) : list Frame :=
  List.filter IsFrameRetransmittable fs.

Definition HasRetransmittableFrames (fs : list Frame) : bool := existsb IsFrameRetransmittable fs.
Definition HasRetransmittableFramesForRed (fs : list Frame) : bool := existsb IsFrameRetransmittableForRed fs.

Definition GetFramesForRetransmission (p : Packet) : list Frame :=
  List.filter (fun f => match f with FAck _ | FStopWaiting _ => false | _ => true end) (Frames p).

Definition IsRetransmittable (p : Packet) : bool :=
  existsb (fun f => match f with
    | FStream _ | FRstStream _ | FWindowUpdate _ | FBlocked _ | FPing | FGoaway _ | FAddAddress _ | FPaths _ => true
    | _ => false
    end) (Frames p).

(** ** Stop waiting *)

Module stopWaitingManager.

Record t : Type := Mk {
  largestLeastUnackedSent : Z;
  nextLeastUnacked : Z;
  lastStopWaitingFrame : option StopWaitingFrame.t;
}.

Definition empty : t := Mk 0 0 None.

Definition frame (leastUnacked : Z) : StopWaitingFrame.t := StopWaitingFrame.Mk leastUnacked 0 0.

Definition GetStopWaitingFrame (s : t) (force : bool) : option StopWaitingFrame.t * t :=
  if nextLeastUnacked s <=? largestLeastUnackedSent s then
    if force then
      match lastStopWaitingFrame s with
      | None =>
          if 0 <? largestLeastUnackedSent s then
            let swf := Some (frame (nextLeastUnacked s)) in
            (swf, Mk (largestLeastUnackedSent s) (nextLeastUnacked s) swf)
          else (None, s)
      | Some f => (Some f, s)
      end
    else (None, s)
  else
    let swf := Some (frame (nextLeastUnacked s)) in
    (swf, Mk (nextLeastUnacked s) (nextLeastUnacked s) swf).

Definition ReceivedAck (s : t) (largestAcked : Z) : t :=
  if nextLeastUnacked s <=? largestAcked
  then Mk (largestLeastUnackedSent s) (u64 (largestAcked + 1)) (lastStopWaitingFrame s) else s.

Definition QueuedRetransmissionForPacketNumber (s : t) (p : Z) : t :=
  if nextLeastUnacked s <=? p
  then Mk (largestLeastUnackedSent s) (u64 (p + 1)) (lastStopWaitingFrame s) else s.

End stopWaitingManager.

(** ** Congestion control *)

(** [congestion.SendAlgorithm], as far as the handler uses it. *)
Class SendAlgorithm (C : Type) : Type := {
  OnPacketSent : C -> RTTStats.t -> Z -> Z -> Z -> Z -> bool -> C;  (* time, in flight, number, bytes *)
  GetCongestionWindow : C -> Z;
  MaybeExitSlowStart : C -> RTTStats.t -> C;
  OnPacketAcked : C -> RTTStats.t -> Z -> Z -> Z -> Z -> C;          (* time, number, bytes, in flight *)
  OnPacketLost : C -> Z -> Z -> Z -> C;                              (* number, bytes, in flight *)
  OnRetransmissionTimeout : C -> bool -> C;
  RetransmissionDelay : C -> RTTStats.t -> Z;
  CSmoothedRTT : C -> RTTStats.t -> Z;
  BandwidthEstimate : C -> RTTStats.t -> Z;
  SetUtilityControl : C -> float -> float -> C;
}.

(** ** The handler *)

Definition defaultRTOTimeout : Z := 500 * Millisecond.
Definition minRTOTimeout : Z := 200 * Millisecond.
Definition maxRTOTimeout : Z := 60 * Second.
Definition maxTailLossProbes : Z := 2.
Definition minRetransmissionTime : Z := 200 * Millisecond.
Definition minTailLossProbeTimeout : Z := 10 * Millisecond.
Definition MaxTrackedSentPackets : Z := 300 * 2500.
Definition MaxTrackedSkippedPackets : Z := 10.
Definition MaxNonRetransmittablePackets : Z := 19.

Definition ErrDuplicateOrOutOfOrderAck : goerr := GoErr "SentPacketHandler: Duplicate or out-of-order ACK".
Definition ErrTooManyTrackedSentPackets : goerr :=
  GoErr "Too many outstanding non-acked and non-retransmitted packets".
Definition ErrAckForSkippedPacket : goerr :=
  QErr "InvalidAckData" "Received an ACK for a skipped packet number".
Definition errAckForUnsentPacket : goerr := QErr "InvalidAckData" "Received ACK for an unsent package".
Definition errPacketNumberNotIncreasing : goerr := GoErr "Already sent a packet with a higher packet number".
(** The message also names the packet and the range. *)
Definition errWrongPacket : goerr := GoErr "BUG: ackhandler would have acked wrong packet".

Module sentPacketHandler.
Section Handler.
Context {C : Type} `{!SendAlgorithm C}.

(** The fields that acknowledging and losing packets changes. *)
Record flight : Type := MkFlight {
  packetHistory : list Packet;
  bytesInFlight : Z;
  retransmissionQueue : list Packet;
  stopWaiting : stopWaitingManager.t;
  congestion : C;
  rtoCount : Z;
  tlpCount : Z;
  losses : Z;
  lostbytes : Z;
}.

(** The fields that only feed statistics. *)
Record statistics : Type := MkStatistics {
  packets : Z;
  retransmissions : Z;
  totalrecvsize : float;
  thistimesize : float;
  totaltime : float;
  starttime : Z;
  lasttime : Z;
  estimaterecvtp : float;
  thistimerecvtp : float;
}.

Record t : Type := Mk {
  lastSentPacketNumber : Z;
  skippedPackets : list Z;
  numNonRetransmittablePackets : Z;
  LargestAcked : Z;
  largestReceivedPacketWithAck : Z;
  rttStats : RTTStats.t;
  inflight : flight;
  lossTime : option Z;
  lastSentTime : Z;
  alarm : option Z;
  stats : statistics;
}.

Definition NewSentPacketHandler (rtt : RTTStats.t) (cong : C) (now : Z) : t :=
  Mk 0 [] 0 0 0 rtt (MkFlight [] 0 [] stopWaitingManager.empty cong 0 0 0 0) None zero_time None
     (MkStatistics 0 0 f0 f0 f0 now now f0 f0).

(** *** In flight *)

Definition largestInOrderAcked (h : t) : Z :=
  match packetHistory (inflight h) with
  | p :: _ => u64 (PacketNumber p - 1)
  | [] => LargestAcked h
  end.

(** [packetHistory.Remove]: the elements are told apart by their packet numbers. *)
Definition remove (p : Packet) (l : list Packet) : list Packet :=
  List.filter (fun q => negb (PacketNumber q =? PacketNumber p)) l.

Definition onPacketAcked (f : flight) (p : Packet) : flight :=
  MkFlight (remove p (packetHistory f)) (u64 (bytesInFlight f - Length p)) (retransmissionQueue f)
           (stopWaiting f) (congestion f) 0 0 (losses f) (lostbytes f).

Definition with_congestion (f : flight) (c : C) : flight :=
  MkFlight (packetHistory f) (bytesInFlight f) (retransmissionQueue f) (stopWaiting f) c
           (rtoCount f) (tlpCount f) (losses f) (lostbytes f).

(** One newly acknowledged packet. *)
Definition ack_one (rtt : RTTStats.t) (now : Z) (f : flight) (p : Packet) : flight :=
  let f := onPacketAcked f p in
  with_congestion f (OnPacketAcked (congestion f) rtt now (PacketNumber p) (Length p) (bytesInFlight f)).

Definition queuePacketForRetransmission (f : flight) (p : Packet) : flight :=
  MkFlight (remove p (packetHistory f)) (u64 (bytesInFlight f - Length p)) (retransmissionQueue f ++ [p])
           (stopWaitingManager.QueuedRetransmissionForPacketNumber (stopWaiting f) (PacketNumber p))
           (congestion f) (rtoCount f) (tlpCount f) (losses f) (lostbytes f).

Definition count_loss (f : flight) (p : Packet) : flight :=
  MkFlight (packetHistory f) (bytesInFlight f) (retransmissionQueue f) (stopWaiting f) (congestion f)
           (rtoCount f) (tlpCount f) (u64 (losses f + 1)) (u64 (lostbytes f + Length p)).

Definition on_lost (f : flight) (p : Packet) : flight :=
  with_congestion f (OnPacketLost (congestion f) (PacketNumber p) (Length p) (bytesInFlight f)).

(** One lost packet, after it has been counted. *)
Definition lose_one (f : flight) (p : Packet) : flight := on_lost (queuePacketForRetransmission f p) p.

Definition queueRTO (f : flight) (p : Packet) : flight :=
  on_lost (count_loss (queuePacketForRetransmission f p) p) p.

Definition on_timeout (f : flight) : flight := with_congestion f (OnRetransmissionTimeout (congestion f) true).

Definition retransmitTLP (f : flight) : flight :=
  match last (packetHistory f) with Some p => queuePacketForRetransmission f p | None => f end.

Definition retransmitOldestPacket (f : flight) : flight :=
  match packetHistory f with p :: _ => queueRTO f p | [] => f end.

Definition retransmitOldestTwoPackets (f : flight) : flight :=
  on_timeout (retransmitOldestPacket (retransmitOldestPacket f)).

(** The loop runs until the history is empty: once per packet, since each turn removes
    one. *)
Definition retransmitAllPackets (f : flight) : flight :=
  on_timeout (Nat.iter (length (packetHistory f)) retransmitOldestPacket f).

(** *** Alarms *)

Definition hasOutstandingRetransmittablePacket (f : flight) : bool :=
  existsb IsRetransmittable (packetHistory f).

Definition hasMultipleOutstandingRetransmittablePackets (f : flight) : bool :=
  match packetHistory f with _ :: _ :: _ => true | _ => false end.

Definition computeRTOTimeout (rtt : RTTStats.t) (f : flight) : Z :=
  let rto := RetransmissionDelay (congestion f) rtt in
  let rto := if rto =? 0 then defaultRTOTimeout else rto in
  let rto := MaxDuration rto minRTOTimeout in
  MinDuration (i64 (Z.shiftl rto (rtoCount f))) maxRTOTimeout.

Definition computeTLPTimeout (rtt : RTTStats.t) (f : flight) : Z :=
  let r := CSmoothedRTT (congestion f) rtt in
  if hasMultipleOutstandingRetransmittablePackets f
  then MaxDuration (i64 (2 * r)) (i64 (Z.quot (i64 (r * 3)) 2 + Z.quot minRetransmissionTime 2))
  else MaxDuration (i64 (2 * r)) minTailLossProbeTimeout.

Definition updateLossDetectionAlarm (h : t) : t :=
  let f := inflight h in
  let alarm' :=
    match packetHistory f with
    | [] => None
    | _ =>
        match lossTime h with
        | Some l => Some l
        | None =>
            if negb (RTTStats.SmoothedRTT (rttStats h) =? 0) && (tlpCount f <? maxTailLossProbes)
            then Some (time_add (lastSentTime h) (computeTLPTimeout (rttStats h) f))
            else Some (time_add (lastSentTime h)
                        (MaxDuration (computeRTOTimeout (rttStats h) f) minRetransmissionTime))
        end
    end in
  Mk (lastSentPacketNumber h) (skippedPackets h) (numNonRetransmittablePackets h) (LargestAcked h)
     (largestReceivedPacketWithAck h) (rttStats h) f (lossTime h) (lastSentTime h) alarm' (stats h).

(** The state with other packets in flight. *)
Definition set_inflight (h : t) (f : flight) : t :=
  Mk (lastSentPacketNumber h) (skippedPackets h) (numNonRetransmittablePackets h) (LargestAcked h)
     (largestReceivedPacketWithAck h) (rttStats h) f (lossTime h) (lastSentTime h) (alarm h) (stats h).

Definition set_alarm (h : t) (a : option Z) : t :=
  Mk (lastSentPacketNumber h) (skippedPackets h) (numNonRetransmittablePackets h) (LargestAcked h)
     (largestReceivedPacketWithAck h) (rttStats h) (inflight h) (lossTime h) (lastSentTime h) a (stats h).

(** *** Loss detection *)

(** The loop of [detectLostPackets]: the packets that are overdue, and when the first of
    the others will be. *)
Fixpoint detect_loop (largestAcked delayUntilLost now : Z) (lt : option Z) (ps : list Packet)
  : list Packet * option Z :=
  match ps with
  | [] => ([], lt)
  | p :: ps' =>
      if largestAcked <? PacketNumber p then ([], lt)
      else
        let timeSinceSent := time_sub now (SendTime p) in
        if delayUntilLost <? timeSinceSent then
          let '(lost, lt') := detect_loop largestAcked delayUntilLost now lt ps' in (p :: lost, lt')
        else
          detect_loop largestAcked delayUntilLost now
            (match lt with None => Some (time_add now (i64 (delayUntilLost - timeSinceSent))) | Some _ => lt end) ps'
  end.

Definition detectLostPackets (h : t) (now : Z) : t :=
  let maxRTT := of_Z64 (MaxDuration (RTTStats.LatestRTT (rttStats h)) (RTTStats.SmoothedRTT (rttStats h))) in
  let delayUntilLost := to_int64 (lit64 9 8 * maxRTT)%f64 in
  let '(lost, lt) := detect_loop (LargestAcked h) delayUntilLost now None (packetHistory (inflight h)) in
  let f := foldl lose_one (foldl count_loss (inflight h) lost) lost in
  Mk (lastSentPacketNumber h) (skippedPackets h) (numNonRetransmittablePackets h) (LargestAcked h)
     (largestReceivedPacketWithAck h) (rttStats h) f lt (lastSentTime h) (alarm h) (stats h).

(** The packets up to the largest acknowledged one. *)
Fixpoint up_to (largestAcked : Z) (ps : list Packet) : list Packet :=
  match ps with
  | [] => []
  | p :: ps' => if largestAcked <? PacketNumber p then [] else p :: up_to largestAcked ps'
  end.

Definition SetInflightAsLost (h : t) : t :=
  let lost := up_to (LargestAcked h) (packetHistory (inflight h)) in
  set_inflight h (foldl lose_one (foldl count_loss (inflight h) lost) lost).

Definition OnAlarm (h : t) (now : Z) (onRTO : Z -> bool) : t :=
  if negb (hasOutstandingRetransmittablePacket (inflight h)) then set_alarm h None
  else
    let f := inflight h in
    let h' :=
      match lossTime h with
      | Some _ => detectLostPackets h now
      | None =>
          if tlpCount f <? maxTailLossProbes then
            let f' := retransmitTLP f in
            set_inflight h (MkFlight (packetHistory f') (bytesInFlight f') (retransmissionQueue f')
              (stopWaiting f') (congestion f') (rtoCount f') (u32 (tlpCount f' + 1)) (losses f') (lostbytes f'))
          else
            let f' := if onRTO (lastSentTime h) then retransmitAllPackets f else retransmitOldestTwoPackets f in
            set_inflight h (MkFlight (packetHistory f') (bytesInFlight f') (retransmissionQueue f')
              (stopWaiting f') (congestion f') (u32 (rtoCount f' + 1)) (tlpCount f') (losses f') (lostbytes f'))
      end in
    updateLossDetectionAlarm h'.

(** *** Sending *)

Definition skip_one (skipped : list Z) (p : Z) : list Z :=
  let s := skipped ++ [p] in
  if MaxTrackedSkippedPackets <? Z.of_nat (length s) then drop 1 s else s.

Definition SentPacket (h : t) (packet : Packet) (now : Z) : option goerr * t :=
  if PacketNumber packet <=? lastSentPacketNumber h then (Some errPacketNumberNotIncreasing, h)
  else
    let st := stats h in
    let st1 := MkStatistics (packets st) (retransmissions st) (totalrecvsize st + of_Z64 (Length packet))%f64
                 (thistimesize st + of_Z64 (Length packet))%f64 (totaltime st) (starttime st) (lasttime st)
                 (estimaterecvtp st) (thistimerecvtp st) in
    let f := inflight h in
    if MaxTrackedSentPackets <?
       u64 (Z.of_nat (length (retransmissionQueue f)) + Z.of_nat (length (packetHistory f)) + 1)
    then (Some ErrTooManyTrackedSentPackets,
          Mk (lastSentPacketNumber h) (skippedPackets h) (numNonRetransmittablePackets h) (LargestAcked h)
             (largestReceivedPacketWithAck h) (rttStats h) f (lossTime h) (lastSentTime h) (alarm h) st1)
    else
      let skipped := foldl skip_one (skippedPackets h)
        (seqZ (lastSentPacketNumber h + 1) (PacketNumber packet - lastSentPacketNumber h - 1)) in
      let st2 := MkStatistics (u64 (packets st1 + 1)) (retransmissions st1) (totalrecvsize st1) (thistimesize st1)
                   (totaltime st1) (starttime st1) (lasttime st1) (estimaterecvtp st1) (thistimerecvtp st1) in
      let frames := stripNonRetransmittableFrames (Frames packet) in
      let isRetransmittable :=
        match frames with [] => false | _ => true end
        && negb (negb (NeedRetrans packet) && negb (HasRetransmittableFramesForRed frames)) in
      let packet' := MkPacket (PacketNumber packet) frames (Length packet) (PktEncryptionLevel packet)
                       (if isRetransmittable then now else SendTime packet) (NeedRetrans packet) in
      let f' :=
        if isRetransmittable
        then MkFlight (packetHistory f ++ [packet']) (u64 (bytesInFlight f + Length packet)) (retransmissionQueue f)
               (stopWaiting f) (congestion f) (rtoCount f) (tlpCount f) (losses f) (lostbytes f)
        else f in
      let c := OnPacketSent (congestion f') (rttStats h) now (bytesInFlight f') (PacketNumber packet)
                 (Length packet) isRetransmittable in
      (None,
       updateLossDetectionAlarm
         (Mk (PacketNumber packet) skipped
             (if isRetransmittable then 0 else i64 (numNonRetransmittablePackets h + 1))
             (LargestAcked h) (largestReceivedPacketWithAck h) (rttStats h) (with_congestion f' c)
             (lossTime h) now (alarm h) st2)).

Definition ShouldSendRetransmittablePacket (h : t) : bool :=
  MaxNonRetransmittablePackets <=? numNonRetransmittablePackets h.

Definition SendingAllowed (h : t) : bool :=
  let f := inflight h in
  let congestionLimited := GetCongestionWindow (congestion f) <? bytesInFlight f in
  let maxTrackedLimited :=
    MaxTrackedSentPackets <=? Z.of_nat (length (retransmissionQueue f)) + Z.of_nat (length (packetHistory f)) in
  let haveRetransmissions := 0 <? Z.of_nat (length (retransmissionQueue f)) in
  negb maxTrackedLimited && (negb congestionLimited || haveRetransmissions).

(** *** Acknowledgements *)

(** The range index moves on while the packet is above the current range and there is a
    next one; [rest] are the ranges after the current one, lowest first. *)
Fixpoint advance (pn : Z) (r : AckRange) (rest : list AckRange) : AckRange * list AckRange :=
  match rest with
  | r' :: rest' => if Last r <? pn then advance pn r' rest' else (r, rest)
  | [] => (r, [])
  end.

(** The loop of [determineNewlyAckedPackets] and of its CLOSE_PATH copy; [None] is the
    internal error. *)
Fixpoint newly_acked (a : Acked) (r : AckRange) (rest : list AckRange) (ps : list Packet)
  : option (list Packet) :=
  match ps with
  | [] => Some []
  | p :: ps' =>
      let pn := PacketNumber p in
      if pn <? LowestAcked a then newly_acked a r rest ps'
      else if AckRanges.LargestAcked a <? pn then Some []
      else if HasMissingRanges a then
        let '(r', rest') := advance pn r rest in
        if First r' <=? pn then
          if Last r' <? pn then None
          else acked ← newly_acked a r' rest' ps'; Some (p :: acked)
        else newly_acked a r' rest' ps'
      else acked ← newly_acked a r rest ps'; Some (p :: acked)
  end.

Definition determineNewlyAckedPackets (f : flight) (a : Acked) : option (list Packet) :=
  match rev (AckRanges a) with
  | r :: rest => newly_acked a r rest (packetHistory f)
  | [] => newly_acked a (MkAckRange 0 0) [] (packetHistory f)
  end.

(** The search of [maybeUpdateRTT]. *)
Fixpoint find_sent (largestAcked : Z) (ps : list Packet) : option Packet :=
  match ps with
  | [] => None
  | p :: ps' =>
      if PacketNumber p =? largestAcked then Some p
      else if largestAcked <? PacketNumber p then None else find_sent largestAcked ps'
  end.

Definition maybeUpdateRTT (h : t) (largestAcked ackDelay rcvTime now : Z) : bool * RTTStats.t :=
  match find_sent largestAcked (packetHistory (inflight h)) with
  | Some p => (true, RTTStats.UpdateRTT (rttStats h) (time_sub rcvTime (SendTime p)) ackDelay now)
  | None => (false, rttStats h)
  end.

Definition skippedPacketsAcked (h : t) (a : Acked) : bool := existsb (AcksPacket a) (skippedPackets h).

(** The index of the last skipped packet that is not above [lioa], plus one. *)
Definition delete_index (lioa : Z) (skipped : list Z) : nat :=
  snd (foldl (fun '(i, d) p => (S i, if p <=? lioa then S i else d)) (O, O) skipped).

Definition garbageCollectSkippedPackets (h : t) : t :=
  Mk (lastSentPacketNumber h) (drop (delete_index (largestInOrderAcked h) (skippedPackets h)) (skippedPackets h))
     (numNonRetransmittablePackets h) (LargestAcked h) (largestReceivedPacketWithAck h) (rttStats h)
     (inflight h) (lossTime h) (lastSentTime h) (alarm h) (stats h).

Definition set_received (h : t) (largestAcked withPacketNumber : Z) (rtt : RTTStats.t) (f : flight) : t :=
  Mk (lastSentPacketNumber h) (skippedPackets h) (numNonRetransmittablePackets h) largestAcked
     withPacketNumber rtt f (lossTime h) (lastSentTime h) (alarm h) (stats h).

Definition ReceivedAck (h : t) (frame : AckFrame.t) (withPacketNumber rcvTime now : Z) : option goerr * t :=
  let a := AckFrame.acked frame in
  if lastSentPacketNumber h <? AckRanges.LargestAcked a then (Some errAckForUnsentPacket, h)
  else if withPacketNumber <=? largestReceivedPacketWithAck h then (Some ErrDuplicateOrOutOfOrderAck, h)
  else if AckRanges.LargestAcked a <=? largestInOrderAcked h
  then (None, set_received h (LargestAcked h) withPacketNumber (rttStats h) (inflight h))
  else
    let h1 := set_received h (AckRanges.LargestAcked a) withPacketNumber (rttStats h) (inflight h) in
    if skippedPacketsAcked h1 a then (Some ErrAckForSkippedPacket, h1)
    else
      let '(rttUpdated, rtt) := maybeUpdateRTT h1 (AckRanges.LargestAcked a) (AckFrame.DelayTime frame) rcvTime now in
      let f := if rttUpdated
               then with_congestion (inflight h1) (MaybeExitSlowStart (congestion (inflight h1)) rtt)
               else inflight h1 in
      let h2 := set_received h1 (LargestAcked h1) withPacketNumber rtt f in
      match determineNewlyAckedPackets f a with
      | None => (Some errWrongPacket, h2)
      | Some ackedPackets =>
          let h3 := set_inflight h2 (foldl (ack_one rtt now) f ackedPackets) in
          let h4 := garbageCollectSkippedPackets (updateLossDetectionAlarm (detectLostPackets h3 now)) in
          let f4 := inflight h4 in
          (None,
           set_inflight h4
             (MkFlight (packetHistory f4) (bytesInFlight f4) (retransmissionQueue f4)
                (stopWaitingManager.ReceivedAck (stopWaiting f4) (AckRanges.LargestAcked a)) (congestion f4)
                (rtoCount f4) (tlpCount f4) (losses f4) (lostbytes f4)))
      end.

Definition ReceivedClosePath (h : t) (frame : ClosePathFrame.t) (withPacketNumber now : Z) : option goerr * t :=
  let a := ClosePathFrame.acked frame in
  if lastSentPacketNumber h <? AckRanges.LargestAcked a then (Some errAckForUnsentPacket, h)
  else if withPacketNumber <=? largestReceivedPacketWithAck h then (Some ErrDuplicateOrOutOfOrderAck, h)
  else
    let h1 := set_received h (LargestAcked h) withPacketNumber (rttStats h) (inflight h) in
    if skippedPacketsAcked h1 a then (Some ErrAckForSkippedPacket, h1)
    else
      match determineNewlyAckedPackets (inflight h1) a with
      | None => (Some errWrongPacket, h1)
      | Some ackedPackets =>
          (None, garbageCollectSkippedPackets
                   (SetInflightAsLost (set_inflight h1 (foldl (ack_one (rttStats h) now) (inflight h1) ackedPackets))))
      end.

(** *** The rest of the interface *)

Definition set_retransmissions (h : t) (n : Z) : t :=
  let st := stats h in
  Mk (lastSentPacketNumber h) (skippedPackets h) (numNonRetransmittablePackets h) (LargestAcked h)
     (largestReceivedPacketWithAck h) (rttStats h) (inflight h) (lossTime h) (lastSentTime h) (alarm h)
     (MkStatistics (packets st) n (totalrecvsize st) (thistimesize st) (totaltime st) (starttime st)
        (lasttime st) (estimaterecvtp st) (thistimerecvtp st)).

Definition set_queue (f : flight) (q : list Packet) : flight :=
  MkFlight (packetHistory f) (bytesInFlight f) q (stopWaiting f) (congestion f) (rtoCount f) (tlpCount f)
           (losses f) (lostbytes f).

Definition DequeuePacketForRetransmission (h : t) : option Packet * t :=
  match retransmissionQueue (inflight h) with
  | [] => (None, h)
  | p :: q =>
      (Some p, set_retransmissions (set_inflight h (set_queue (inflight h) q)) (u64 (retransmissions (stats h) + 1)))
  end.

Definition DuplicatePacket (h : t) (p : Packet) : t :=
  set_inflight h (set_queue (inflight h) (retransmissionQueue (inflight h) ++ [p])).

Definition GetLeastUnacked (h : t) : Z := u64 (largestInOrderAcked h + 1).

Definition GetStopWaitingFrame (h : t) (force : bool) : option StopWaitingFrame.t * t :=
  let f := inflight h in
  let '(swf, s) := stopWaitingManager.GetStopWaitingFrame (stopWaiting f) force in
  (swf, set_inflight h (MkFlight (packetHistory f) (bytesInFlight f) (retransmissionQueue f) s (congestion f)
                          (rtoCount f) (tlpCount f) (losses f) (lostbytes f))).

Definition GetAlarmTimeout (h : t) : option Z := alarm h.
Definition GetStatistics (h : t) : Z * Z * Z := (packets (stats h), retransmissions (stats h), losses (inflight h)).
Definition GetCWND (h : t) : Z := u64 (GetCongestionWindow (congestion (inflight h))).
Definition GetBytesInflight (h : t) : Z := bytesInFlight (inflight h).
Definition GetBandwidthEstimate (h : t) : Z := u64 (BandwidthEstimate (congestion (inflight h)) (rttStats h)).
Definition GetLossRate (h : t) : float := (of_Z64 (losses (inflight h)) / of_Z64 (packets (stats h)))%f64.
Definition GetLostByte (h : t) : Z := lostbytes (inflight h).
Definition GetSentBytes (h : t) : Z := to_uint64 (totalrecvsize (stats h)).
Definition HandlerSetUtilityControl (h : t) (gain backoff : float) : t :=
  set_inflight h (with_congestion (inflight h) (SetUtilityControl (congestion (inflight h)) gain backoff)).

Definition GetStatisticstp (h : t) (now : Z) : float * float * t :=
  let st := stats h in
  let million := of_Z64 1000000 in
  let totaltime' := of_Z64 (Z.quot (time_sub now (starttime st)) Millisecond) in
  let estimate := (totalrecvsize st * of_Z64 8 / (totaltime' / of_Z64 1000) / million)%f64 in
  let thistime := (thistimesize st * of_Z64 8
                   / (of_Z64 (Z.quot (time_sub now (lasttime st)) Microsecond) / million) / million)%f64 in
  (estimate, thistime,
   Mk (lastSentPacketNumber h) (skippedPackets h) (numNonRetransmittablePackets h) (LargestAcked h)
      (largestReceivedPacketWithAck h) (rttStats h) (inflight h) (lossTime h) (lastSentTime h) (alarm h)
      (MkStatistics (packets st) (retransmissions st) (totalrecvsize st) f0 totaltime' (starttime st) now
         estimate thistime)).

End Handler.
End sentPacketHandler.
Import sentPacketHandler.

(** ** Which packets an ACK acknowledges *)

Definition ordered (ps : list Packet) : Prop :=
  StronglySorted (fun p q => PacketNumber p < PacketNumber q) ps.

Definition in_range (pn : Z) (r : AckRange) : bool := (First r <=? pn) && (pn <=? Last r).

Lemma in_range_spec pn r : in_range pn r = true <-> First r <= pn <= Last r.
Proof. unfold in_range. by rewrite andb_true_iff, !Z.leb_le. Qed.

(** Ranges from the lowest up. *)
Fixpoint rising (r : AckRange) (rest : list AckRange) : Prop :=
  First r <= Last r /\ match rest with [] => True | r' :: rest' => Last r < First r' /\ rising r' rest' end.

Definition top (r : AckRange) (rest : list AckRange) : AckRange := default r (last rest).

Lemma top_cons r r' rest : top r (r' :: rest) = top r' rest.
Proof. unfold top. rewrite last_cons. by destruct (last rest). Qed.

Lemma rising_snoc rest : forall r z,
  rising r rest -> Last (top r rest) < First z -> First z <= Last z -> rising r (rest ++ [z]).
Proof.
  induction rest as [|r' rest IH]; intros r z [H1 H2] Ht Hz; cbn [app rising].
  - unfold top in Ht. cbn in Ht. by split_and!.
  - rewrite top_cons in Ht. destruct H2. split_and!; auto.
Qed.

Lemma rising_above rest : forall r pn, rising r rest -> pn < First r -> existsb (in_range pn) (r :: rest) = false.
Proof.
  induction rest as [|r' rest IH]; intros r pn [H1 H2] Hlt; cbn [existsb].
  - unfold in_range. rewrite (proj2 (Z.leb_gt (First r) pn)) by lia. done.
  - unfold in_range at 1. rewrite (proj2 (Z.leb_gt (First r) pn)) by lia. destruct H2. apply IH; [done|lia].
Qed.

(** The ranges of an accepted frame rise from the last to the first. *)
Lemma chain_rising rs : forall r0,
  First r0 <= Last r0 -> chain r0 rs ->
  exists r rest, rev (r0 :: rs) = r :: rest /\ rising r rest /\ top r rest = r0.
Proof.
  induction rs as [|x rs IH]; intros r0 H0 Hc.
  - exists r0, []. by repeat split.
  - destruct Hc as (Hx & Hg & Hc). destruct (IH x ltac:(lia) Hc) as (r & rest & E & Hr & Ht).
    exists r, (rest ++ [r0]). cbn [rev] in *. rewrite E. split_and!; [done| |].
    + apply rising_snoc; [done|rewrite Ht; lia|done].
    + unfold top. by rewrite last_snoc.
Qed.

Lemma advance_spec pn rest : forall r,
  rising r rest ->
  let '(r', rest') := advance pn r rest in
  rising r' rest' /\ top r' rest' = top r rest /\ (pn <= Last r' \/ rest' = []) /\
  forall q, pn <= q -> existsb (in_range q) (r' :: rest') = existsb (in_range q) (r :: rest).
Proof.
  induction rest as [|x rest IH]; intros r [H1 H2]; cbn [advance].
  - split_and!; try done. by right.
  - destruct H2 as [Hlt Hx]. destruct (Z.ltb_spec (Last r) pn) as [Hp|Hp].
    + specialize (IH x Hx). destruct (advance pn x rest) as [r' rest']. destruct IH as (I1 & I2 & I3 & I4).
      split_and!; [done|by rewrite top_cons|done|].
      intros q Hq. rewrite (I4 q Hq). cbn [existsb]. unfold in_range at 3.
      rewrite (proj2 (Z.leb_gt q (Last r))) by lia. by rewrite andb_false_r.
    + split_and!; try done. by left.
Qed.

Lemma filter_none {A} (P : A -> bool) ps : (forall p, p ∈ ps -> P p = false) -> List.filter P ps = [].
Proof.
  induction ps as [|p ps IH]; intros H; [done|]. cbn [List.filter].
  rewrite H by left. apply IH. intros q Hq. apply H. by right.
Qed.

Lemma AcksPacket_above a pn : AckRanges.LargestAcked a < pn -> AcksPacket a pn = false.
Proof. intros H. unfold AcksPacket. rewrite (proj2 (Z.ltb_lt _ pn)) by lia. by rewrite orb_true_r. Qed.
Lemma AcksPacket_below a pn : pn < LowestAcked a -> AcksPacket a pn = false.
Proof. intros H. unfold AcksPacket. by rewrite (proj2 (Z.ltb_lt pn _)) by lia. Qed.
Lemma AcksPacket_between a pn :
  LowestAcked a <= pn <= AckRanges.LargestAcked a ->
  AcksPacket a pn = if HasMissingRanges a then existsb (in_range pn) (AckRanges a) else true.
Proof.
  intros H. unfold AcksPacket. rewrite (proj2 (Z.ltb_ge pn _)), (proj2 (Z.ltb_ge _ pn)) by lia. cbn [orb].
  destruct (HasMissingRanges a); [done|].
  by rewrite (proj2 (Z.leb_le _ pn)), (proj2 (Z.leb_le pn _)) by lia.
Qed.

Lemma newly_acked_missing a ps : forall r rest,
  HasMissingRanges a = true -> rising r rest -> Last (top r rest) = AckRanges.LargestAcked a -> ordered ps ->
  (forall p, p ∈ ps -> existsb (in_range (PacketNumber p)) (r :: rest)
                       = existsb (in_range (PacketNumber p)) (AckRanges a)) ->
  newly_acked a r rest ps = Some (List.filter (fun p => AcksPacket a (PacketNumber p)) ps).
Proof.
  intros r rest Hm. revert r rest. induction ps as [|p ps IH]; intros r rest Hr Ht Ho Hmem; [done|].
  apply StronglySorted_inv in Ho as [Ho Hall]. rewrite Forall_forall in Hall. cbn [newly_acked List.filter].
  assert (forall q, q ∈ ps -> existsb (in_range (PacketNumber q)) (r :: rest)
                              = existsb (in_range (PacketNumber q)) (AckRanges a)) as Hmem'
    by (intros; apply Hmem; by right).
  destruct (Z.ltb_spec (PacketNumber p) (LowestAcked a)) as [Hlow|Hlow].
  { rewrite AcksPacket_below by lia. by apply IH. }
  destruct (Z.ltb_spec (AckRanges.LargestAcked a) (PacketNumber p)) as [Hhi|Hhi].
  { rewrite AcksPacket_above by lia. rewrite filter_none; [done|].
    intros q Hq. apply AcksPacket_above. specialize (Hall q Hq). cbn in Hall. lia. }
  rewrite Hm, AcksPacket_between, Hm by lia. rewrite <- Hmem by left.
  pose proof (advance_spec (PacketNumber p) rest r Hr) as Hadv.
  destruct (advance (PacketNumber p) r rest) as [r' rest']. destruct Hadv as (A1 & A2 & A3 & A4).
  assert (PacketNumber p <= Last r') as Hle.
  { destruct A3 as [?| ->]; [done|]. rewrite <- A2 in Ht. cbn in Ht. lia. }
  rewrite <- (A4 (PacketNumber p)) by lia.
  assert (newly_acked a r' rest' ps = Some (List.filter (fun p => AcksPacket a (PacketNumber p)) ps)) as IH'.
  { apply IH; [done|by rewrite A2|done|]. intros q Hq. specialize (Hall q Hq). cbn in Hall.
    rewrite A4 by lia. by apply Hmem'. }
  destruct (Z.leb_spec (First r') (PacketNumber p)) as [Hin|Hout].
  - rewrite (proj2 (Z.ltb_ge (Last r') _)) by lia. cbn [existsb].
    rewrite (proj2 (in_range_spec (PacketNumber p) r')) by lia. cbn [orb]. by rewrite IH'.
  - by rewrite rising_above by (done || lia).
Qed.

Lemma newly_acked_all a ps r rest :
  HasMissingRanges a = false -> ordered ps ->
  newly_acked a r rest ps = Some (List.filter (fun p => AcksPacket a (PacketNumber p)) ps).
Proof.
  intros Hm. induction ps as [|p ps IH]; intros Ho; [done|].
  apply StronglySorted_inv in Ho as [Ho Hall]. rewrite Forall_forall in Hall. cbn [newly_acked List.filter].
  destruct (Z.ltb_spec (PacketNumber p) (LowestAcked a)) as [Hlow|Hlow].
  { rewrite AcksPacket_below by lia. by apply IH. }
  destruct (Z.ltb_spec (AckRanges.LargestAcked a) (PacketNumber p)) as [Hhi|Hhi].
  { rewrite AcksPacket_above by lia. rewrite filter_none; [done|].
    intros q Hq. apply AcksPacket_above. specialize (Hall q Hq). cbn in Hall. lia. }
  rewrite Hm, AcksPacket_between, Hm, IH by (done || lia). done.
Qed.

Lemma existsb_rev {A} (P : A -> bool) l : existsb P (rev l) = existsb P l.
Proof.
  induction l as [|x l IH]; [done|]. cbn [rev existsb]. rewrite existsb_app, IH. cbn. by rewrite orb_false_r, orb_comm.
Qed.

Lemma determine_exact {C} `{!SendAlgorithm C} (f : flight (C := C)) a :
  acked_valid a -> ordered (packetHistory f) ->
  determineNewlyAckedPackets f a
  = Some (List.filter (fun p => AcksPacket a (PacketNumber p)) (packetHistory f)).
Proof.
  intros (_ & _ & Hr) Ho. unfold determineNewlyAckedPackets.
  destruct (AckRanges a) as [|r0 rs] eqn:E.
  - apply newly_acked_all; [|done]. unfold HasMissingRanges. by rewrite E.
  - destruct Hr as (_ & Hl & H0 & Hc & _). destruct (chain_rising rs r0 H0 Hc) as (r & rest & Er & Hrise & Ht).
    rewrite Er. apply newly_acked_missing; [unfold HasMissingRanges; by rewrite E|done|by rewrite Ht|done|].
    intros p _. by rewrite <- Er, existsb_rev, E.
Qed.

(** ** Accounting *)

Definition total (ps : list Packet) : Z := foldr (fun p n => Length p + n) 0 ps.

Lemma total_app ps qs : total (ps ++ qs) = total ps + total qs.
Proof. unfold total. induction ps as [|p ps IH]; cbn [foldr app]; [lia|]. rewrite IH. lia. Qed.

Lemma total_perm ps qs : ps ≡ₚ qs -> total ps = total qs.
Proof. unfold total. induction 1; cbn; lia. Qed.

Lemma remove_incl p q l : q ∈ remove p l <-> q ∈ l /\ PacketNumber q <> PacketNumber p.
Proof.
  unfold remove. rewrite !list_elem_of_In, filter_In, negb_true_iff, Z.eqb_neq. done.
Qed.

Lemma ordered_filter (P : Packet -> bool) l : ordered l -> ordered (List.filter P l).
Proof.
  unfold ordered. induction 1 as [|p l Hs IH Hall]; cbn [List.filter]; [constructor|].
  destruct (P p); [|done]. constructor; [done|]. rewrite Forall_forall in *. intros q Hq.
  apply Hall. rewrite list_elem_of_In in *. by apply filter_In in Hq as [? _].
Qed.

Lemma remove_all_other p l : (forall q, q ∈ l -> PacketNumber q <> PacketNumber p) -> remove p l = l.
Proof.
  unfold remove. induction l as [|q l IH]; intros H; cbn [List.filter]; [done|].
  rewrite (proj2 (Z.eqb_neq _ _)) by (apply H; left). cbn. f_equal. apply IH. intros r Hr. apply H. by right.
Qed.

(** Packet numbers tell the packets of the history apart. *)
Lemma remove_perm p l : ordered l -> p ∈ l -> l ≡ₚ p :: remove p l.
Proof.
  intros Ho. induction Ho as [|q l Hs IH Hall]; intros Hp; [by apply not_elem_of_nil in Hp|].
  rewrite Forall_forall in Hall. unfold remove. cbn [List.filter].
  apply elem_of_cons in Hp as [->|Hp].
  - rewrite Z.eqb_refl. cbn [negb]. fold (remove q l). rewrite remove_all_other; [done|].
    intros r Hr. specialize (Hall r Hr). cbn in Hall. lia.
  - specialize (Hall p Hp). cbn in Hall. rewrite (proj2 (Z.eqb_neq _ _)) by lia. cbn [negb].
    fold (remove p l). rewrite (IH Hp) at 1. apply Permutation_swap.
Qed.

Section Accounting.
Context {C : Type} `{!SendAlgorithm C}.
Implicit Types (f : flight (C := C)) (h : t (C := C)).

(** The bytes in flight are the bytes of the packets in flight. *)
Definition counted f : Prop := ordered (packetHistory f) /\ bytesInFlight f = u64 (total (packetHistory f)).

Lemma u64_sub_total a b : u64 (u64 (b + a) - b) = u64 a.
Proof. unfold u64, wrap. rewrite Zminus_mod_idemp_l. f_equal. lia. Qed.

(** From [f] to [f'] the packets [gone] left the history; [lost] were queued. *)
Record moved f f' (gone lost : list Packet) : Prop := {
  mv_history : packetHistory f ≡ₚ gone ++ packetHistory f';
  mv_sub : forall p, p ∈ packetHistory f' -> p ∈ packetHistory f;
  mv_queue : retransmissionQueue f' = retransmissionQueue f ++ lost;
  mv_counted : counted f';
}.

Lemma moved_refl f : counted f -> moved f f [] [].
Proof. intros Hc. split; [done|done|by rewrite app_nil_r|done]. Qed.

Lemma moved_trans f1 f2 f3 g1 g2 l1 l2 :
  moved f1 f2 g1 l1 -> moved f2 f3 g2 l2 -> moved f1 f3 (g1 ++ g2) (l1 ++ l2).
Proof.
  intros [H1 S1 Q1 C1] [H2 S2 Q2 C2]. split; [|auto| |done].
  - by rewrite H1, H2, app_assoc.
  - by rewrite Q2, Q1, app_assoc.
Qed.

(** Only the other fields differ. *)
Definition same_packets f f' : Prop :=
  packetHistory f' = packetHistory f /\ bytesInFlight f' = bytesInFlight f /\
  retransmissionQueue f' = retransmissionQueue f.

Lemma moved_same f f1 f2 g l : moved f f1 g l -> same_packets f1 f2 -> moved f f2 g l.
Proof.
  intros [H S Q [O B]] (E1 & E2 & E3). split; rewrite ?E1, ?E3; try done.
  unfold counted. by rewrite E1, E2.
Qed.

Lemma moved_ack rtt now f p :
  counted f -> p ∈ packetHistory f -> moved f (ack_one rtt now f p) [p] [].
Proof.
  intros [Ho Hb] Hp. pose proof (remove_perm p _ Ho Hp) as Hperm. split; cbn.
  - done.
  - intros q Hq. by apply remove_incl in Hq as [? _].
  - by rewrite app_nil_r.
  - split; cbn; [by apply ordered_filter|]. rewrite Hb, (total_perm _ _ Hperm). apply u64_sub_total.
Qed.

Lemma moved_queue f p :
  counted f -> p ∈ packetHistory f -> moved f (queuePacketForRetransmission f p) [p] [p].
Proof.
  intros [Ho Hb] Hp. pose proof (remove_perm p _ Ho Hp) as Hperm. split; cbn; try done.
  - intros q Hq. by apply remove_incl in Hq as [? _].
  - split; cbn; [by apply ordered_filter|]. rewrite Hb, (total_perm _ _ Hperm). apply u64_sub_total.
Qed.

Lemma moved_lose f p : counted f -> p ∈ packetHistory f -> moved f (lose_one f p) [p] [p].
Proof. intros Hc Hp. eapply moved_same; [by apply moved_queue|done]. Qed.
Lemma moved_rto f p : counted f -> p ∈ packetHistory f -> moved f (queueRTO f p) [p] [p].
Proof. intros Hc Hp. eapply moved_same; [by apply moved_queue|done]. Qed.

(** A loop over distinct packets of the history. *)
Lemma moved_fold (op : flight -> Packet -> flight) (queued : Packet -> list Packet) ps : forall f,
  (forall f p, counted f -> p ∈ packetHistory f -> moved f (op f p) [p] (queued p)) ->
  (forall f p, packetHistory (op f p) = remove p (packetHistory f)) ->
  counted f -> ordered ps -> (forall p, p ∈ ps -> p ∈ packetHistory f) ->
  moved f (foldl op f ps) ps (ps ≫= queued).
Proof.
  intros f Hop Hrem. revert f. induction ps as [|p ps IH]; intros f Hc Ho Hin; [by apply moved_refl|].
  apply StronglySorted_inv in Ho as [Ho Hall]. rewrite Forall_forall in Hall.
  pose proof (Hop f p Hc (Hin p ltac:(left))) as Hmv.
  rewrite bind_cons. cbn [foldl].
  apply (moved_trans f (op f p) (foldl op (op f p) ps) [p] ps (queued p) (ps ≫= queued)); [done|].
  apply IH; [apply Hmv|done|]. intros q Hq. rewrite Hrem. apply remove_incl.
  split; [apply Hin; by right|]. specialize (Hall q Hq). cbn in Hall. lia.
Qed.

Lemma moved_acks rtt now f ps :
  counted f -> ordered ps -> (forall p, p ∈ ps -> p ∈ packetHistory f) ->
  moved f (foldl (ack_one rtt now) f ps) ps [].
Proof.
  intros Hc Ho Hin.
  assert ((ps ≫= (fun _ => [])) = @nil Packet) as <- by (clear; by induction ps).
  apply moved_fold; auto using moved_ack.
Qed.

Lemma bind_singleton (ps : list Packet) : (ps ≫= (fun p => [p])) = ps.
Proof. induction ps as [|p ps IH]; cbn; [done|]. f_equal. exact IH. Qed.

Lemma counted_losses f ps : counted f -> counted (foldl count_loss f ps) /\ same_packets f (foldl count_loss f ps).
Proof.
  revert f. induction ps as [|p ps IH]; intros f Hc; [by repeat split; try apply Hc|]. cbn [foldl].
  destruct (IH (count_loss f p) Hc) as [Hc' (E1 & E2 & E3)]. by repeat split; try apply Hc'.
Qed.

Lemma moved_losses f ps :
  counted f -> ordered ps -> (forall p, p ∈ ps -> p ∈ packetHistory f) ->
  moved f (foldl lose_one (foldl count_loss f ps) ps) ps ps.
Proof.
  intros Hc Ho Hin. destruct (counted_losses f ps Hc) as [Hc' (E1 & E2 & E3)].
  set (f1 := foldl count_loss f ps) in *. clearbody f1.
  assert (moved f1 (foldl lose_one f1 ps) ps ps) as [H S Q Cn].
  { rewrite <- (bind_singleton ps) at 3. apply moved_fold; auto using moved_lose. intros p Hp. rewrite E1. auto. }
  split; try done; rewrite <- ?E1, <- ?E3; done.
Qed.

(** ** Losses and alarms *)

Lemma ordered_cons p ps q : ordered (p :: ps) -> q ∈ ps -> PacketNumber p < PacketNumber q.
Proof. intros [_ H]%StronglySorted_inv Hq. rewrite Forall_forall in H. by apply H. Qed.

Lemma detect_loop_spec largestAcked d now ps : forall lt,
  ordered ps ->
  let lost := (detect_loop largestAcked d now lt ps).1 in
  ordered lost /\
  forall p, p ∈ lost <-> p ∈ ps /\ PacketNumber p <= largestAcked /\ d < time_sub now (SendTime p).
Proof.
  induction ps as [|p ps IH]; intros lt Ho; cbn [detect_loop].
  { split; [constructor|]. intros p. cbn. rewrite !elem_of_nil. tauto. }
  pose proof Ho as [Hs _]%StronglySorted_inv.
  destruct (Z.ltb_spec largestAcked (PacketNumber p)) as [Hgt|Hle].
  { split; [constructor|]. intros q. cbn. rewrite elem_of_nil, elem_of_cons. split; [done|].
    intros [[->|Hq] [? _]]; [lia|]. pose proof (ordered_cons p ps q Ho Hq). lia. }
  set (since := time_sub now (SendTime p)).
  destruct (Z.ltb_spec d since) as [Hd|Hd].
  - specialize (IH lt Hs). destruct (detect_loop largestAcked d now lt ps) as [lost lt'].
    cbn [fst] in *. destruct IH as [Hol Hin]. split.
    + constructor; [done|]. apply Forall_forall. intros q Hq%Hin. eapply ordered_cons; [done|tauto].
    + intros q. rewrite !elem_of_cons, Hin. split; [intros [->|?]; tauto|]. intros [[->|?] ?]; tauto.
  - specialize (IH (match lt with None => Some (time_add now (i64 (d - since))) | Some _ => lt end) Hs).
    destruct IH as [Hol Hin]. split; [done|]. intros q. rewrite Hin, elem_of_cons. split; [tauto|].
    intros [[->|?] (? & ?)]; [unfold since in *; lia|tauto].
Qed.

Lemma up_to_spec largestAcked ps :
  ordered ps ->
  ordered (up_to largestAcked ps) /\
  forall p, p ∈ up_to largestAcked ps <-> p ∈ ps /\ PacketNumber p <= largestAcked.
Proof.
  induction ps as [|p ps IH]; intros Ho; cbn [up_to].
  { split; [constructor|]. intros p. rewrite !elem_of_nil. tauto. }
  pose proof Ho as [Hs _]%StronglySorted_inv. destruct (IH Hs) as [Hol Hin].
  destruct (Z.ltb_spec largestAcked (PacketNumber p)) as [Hgt|Hle].
  - split; [constructor|]. intros q. rewrite elem_of_nil, elem_of_cons. split; [done|].
    intros [[->|Hq] ?]; [lia|]. pose proof (ordered_cons p ps q Ho Hq). lia.
  - split.
    + constructor; [done|]. apply Forall_forall. intros q Hq%Hin. eapply ordered_cons; [done|tauto].
    + intros q. rewrite !elem_of_cons, Hin. split; [intros [->|?]; tauto|]. intros [[->|?] ?]; tauto.
Qed.

Lemma moved_oldest f : counted f -> exists l, moved f (retransmitOldestPacket f) l l.
Proof.
  intros Hc. unfold retransmitOldestPacket. destruct (packetHistory f) as [|p ps] eqn:E.
  - exists []. by apply moved_refl.
  - exists [p]. apply moved_rto; [done|]. rewrite E. left.
Qed.

Lemma moved_oldest_iter n : forall f, counted f -> exists l, moved f (Nat.iter n retransmitOldestPacket f) l l.
Proof.
  induction n as [|n IH]; intros f Hc; [exists []; by apply moved_refl|].
  destruct (IH f Hc) as (l & Hl). cbn [Nat.iter nat_rect].
  destruct (moved_oldest (Nat.iter n retransmitOldestPacket f)) as (l' & Hl'); [apply Hl|].
  exists (l ++ l'). by eapply moved_trans.
Qed.

Lemma moved_tlp f : counted f -> exists l, moved f (retransmitTLP f) l l.
Proof.
  intros Hc. unfold retransmitTLP. destruct (last (packetHistory f)) as [p|] eqn:E.
  - exists [p]. apply moved_queue; [done|]. by apply last_Some_elem_of.
  - exists []. by apply moved_refl.
Qed.

Lemma moved_timeout (onRTO : bool) f :
  counted f ->
  exists l, moved f (if onRTO then retransmitAllPackets f else retransmitOldestTwoPackets f) l l.
Proof.
  intros Hc. destruct onRTO.
  - destruct (moved_oldest_iter (length (packetHistory f)) f Hc) as (l & Hl). exists l.
    eapply moved_same; [exact Hl|done].
  - destruct (moved_oldest_iter 2 f Hc) as (l & Hl). exists l. eapply moved_same; [exact Hl|done].
Qed.

Lemma moved_detect h now :
  counted (inflight h) -> exists l, moved (inflight h) (inflight (detectLostPackets h now)) l l.
Proof.
  intros Hc. unfold detectLostPackets.
  set (d := to_int64 _). clearbody d.
  destruct (detect_loop_spec (LargestAcked h) d now (packetHistory (inflight h)) None (proj1 Hc)) as [Ho Hin].
  destruct (detect_loop _ _ _ _ _) as [lost lt]. cbn [fst] in *. exists lost. cbn.
  apply moved_losses; [done|done|]. intros p Hp%Hin. tauto.
Qed.

Lemma detect_last h now : lastSentPacketNumber (detectLostPackets h now) = lastSentPacketNumber h.
Proof. unfold detectLostPackets. by destruct (detect_loop _ _ _ _ _). Qed.

Lemma moved_set_lost h :
  counted (inflight h) ->
  moved (inflight h) (inflight (SetInflightAsLost h))
    (up_to (LargestAcked h) (packetHistory (inflight h))) (up_to (LargestAcked h) (packetHistory (inflight h))).
Proof.
  intros Hc. destruct (up_to_spec (LargestAcked h) _ (proj1 Hc)) as [Ho Hin].
  apply moved_losses; [done|done|]. intros p Hp%Hin. tauto.
Qed.

Lemma moved_alarm h now onRTO :
  counted (inflight h) -> exists l, moved (inflight h) (inflight (OnAlarm h now onRTO)) l l.
Proof.
  intros Hc. unfold OnAlarm. destruct (negb _); [exists []; by apply moved_refl|].
  destruct (lossTime h); [exact (moved_detect h now Hc)|].
  destruct (_ <? _).
  - destruct (moved_tlp _ Hc) as (l & Hl). exists l. eapply moved_same; [exact Hl|done].
  - destruct (moved_timeout (onRTO (lastSentTime h)) _ Hc) as (l & Hl). exists l. eapply moved_same; [exact Hl|done].
Qed.

(** What an ACK does to the packets in flight. *)
Lemma moved_received_ack h frame wpn rcvTime now e h' :
  counted (inflight h) -> acked_valid (AckFrame.acked frame) ->
  ReceivedAck h frame wpn rcvTime now = (e, h') ->
  exists acked lost, moved (inflight h) (inflight h') (acked ++ lost) lost /\
    (forall p, p ∈ acked -> AcksPacket (AckFrame.acked frame) (PacketNumber p) = true) /\
    e <> Some errWrongPacket /\
    (e = None -> largestInOrderAcked h < AckRanges.LargestAcked (AckFrame.acked frame) ->
     forall p, p ∈ packetHistory (inflight h') -> AcksPacket (AckFrame.acked frame) (PacketNumber p) = false).
Proof.
  intros Hc Hv. unfold ReceivedAck. set (a := AckFrame.acked frame) in *.
  assert (forall e, e <> Some errWrongPacket -> (e = None -> False) -> forall g, same_packets (inflight h) g ->
    exists acked lost, moved (inflight h) g (acked ++ lost) lost /\
    (forall p, p ∈ acked -> AcksPacket a (PacketNumber p) = true) /\ e <> Some errWrongPacket /\
    (e = None -> largestInOrderAcked h < AckRanges.LargestAcked a ->
     forall p, p ∈ packetHistory g -> AcksPacket a (PacketNumber p) = false)) as Hsame.
  { intros e' He1 He2 g Hg. exists [], []. split_and!; try done.
    - eapply moved_same; [by apply moved_refl|done].
    - by intros p []%not_elem_of_nil. }
  destruct (_ <? _); [intros [= <- <-]; by apply Hsame|].
  destruct (_ <=? largestReceivedPacketWithAck h); [intros [= <- <-]; by apply Hsame|].
  destruct (Z.leb_spec (AckRanges.LargestAcked a) (largestInOrderAcked h)).
  { intros [= <- <-]. exists [], []. split_and!; try done; [by apply moved_refl| |lia].
    by intros p []%not_elem_of_nil. }
  destruct (skippedPacketsAcked _ _); [intros [= <- <-]; by apply Hsame|].
  destruct (maybeUpdateRTT _ _ _ _ _) as [upd rtt].
  set (f := if upd then _ else _).
  assert (same_packets (inflight h) f) as Hf by (unfold f; by destruct upd).
  assert (counted f) as Hcf by (destruct Hf as (E1 & E2 & _), Hc; split; rewrite ?E1, ?E2; done).
  clearbody f. rewrite determine_exact by (done || apply Hcf). intros [= <- <-].
  set (acked := List.filter _ _).
  assert (forall p, p ∈ acked <-> p ∈ packetHistory f /\ AcksPacket a (PacketNumber p) = true) as Hin
    by (intros p; unfold acked; by rewrite !list_elem_of_In, filter_In).
  pose proof (moved_acks rtt now f acked Hcf (ordered_filter _ _ (proj1 Hcf)) ltac:(by intros p [? _]%Hin)) as Hm.
  set (f1 := foldl (ack_one rtt now) f acked) in *. clearbody f1.
  match goal with |- context [detectLostPackets ?x now] => set (h3 := x) end.
  destruct (moved_detect h3 now) as (lost & Hl); [apply Hm|]. change (inflight h3) with f1 in Hl.
  exists acked, lost.
  assert (moved f (inflight (detectLostPackets h3 now)) (acked ++ lost) ([] ++ lost)) as Hall
    by (by eapply moved_trans).
  split_and!; [|by intros p [_ ?]%Hin|done|].
  - destruct Hf as (E1 & E2 & E3). destruct Hall as [H1 S1 Q1 C1].
    split; cbn; rewrite <- ?E1, <- ?E3; done.
  - intros _ _ p Hp. cbn in Hp. destruct (AcksPacket a (PacketNumber p)) eqn:Ea; [|done]. exfalso.
    pose proof (mv_sub _ _ _ _ Hall p Hp) as Hpf. specialize (proj2 (Hin p) (conj Hpf Ea)) as Hpa.
    pose proof (mv_history _ _ _ _ Hall) as Hperm. destruct Hcf as [Ho _].
    assert (NoDup (packetHistory f)) as Hnd.
    { clear -Ho. induction Ho as [|q l _ IH Hall]; constructor; [|done].
      rewrite Forall_forall in Hall. intros Hq%Hall. lia. }
    rewrite Hperm in Hnd. apply NoDup_app in Hnd as (_ & Hd & _).
    apply (Hd p); [|exact Hp]. apply elem_of_app. by left.
Qed.

(** ** Reachable states *)

(** Any sequence of operations of a path; frames from the peer are as their parsers
    accept them. *)
Inductive reachable : t (C := C) -> Prop :=
| reach_new rtt c now : reachable (NewSentPacketHandler rtt c now)
| reach_sent h packet now : reachable h -> reachable (SentPacket h packet now).2
| reach_ack h frame wpn rcvTime now :
    reachable h -> acked_valid (AckFrame.acked frame) -> reachable (ReceivedAck h frame wpn rcvTime now).2
| reach_close_path h frame wpn now :
    reachable h -> acked_valid (ClosePathFrame.acked frame) -> reachable (ReceivedClosePath h frame wpn now).2
| reach_alarm h now onRTO : reachable h -> reachable (OnAlarm h now onRTO)
| reach_lost h : reachable h -> reachable (SetInflightAsLost h)
| reach_dequeue h : reachable h -> reachable (DequeuePacketForRetransmission h).2
| reach_duplicate h p : reachable h -> reachable (DuplicatePacket h p)
| reach_stop_waiting h force : reachable h -> reachable (GetStopWaitingFrame h force).2
| reach_utility h gain backoff : reachable h -> reachable (HandlerSetUtilityControl h gain backoff).

Record handler_inv h : Prop := {
  sh_counted : counted (inflight h);
  sh_last : forall p, p ∈ packetHistory (inflight h) -> PacketNumber p <= lastSentPacketNumber h;
  sh_armed : hasOutstandingRetransmittablePacket (inflight h) = true -> is_Some (alarm h);
}.

Lemma outstanding_spec f :
  hasOutstandingRetransmittablePacket f = true <-> exists p, p ∈ packetHistory f /\ IsRetransmittable p = true.
Proof. unfold hasOutstandingRetransmittablePacket. rewrite existsb_exists. by setoid_rewrite list_elem_of_In. Qed.

Lemma alarm_armed h :
  packetHistory (inflight h) <> [] -> is_Some (alarm (updateLossDetectionAlarm h)).
Proof.
  intros Hne. unfold updateLossDetectionAlarm. cbn. destruct (packetHistory (inflight h)); [done|].
  destruct (lossTime h); [by eexists|]. destruct (_ && _); by eexists.
Qed.

Lemma inv_alarm_updated h :
  counted (inflight h) -> (forall p, p ∈ packetHistory (inflight h) -> PacketNumber p <= lastSentPacketNumber h) ->
  handler_inv (updateLossDetectionAlarm h).
Proof.
  intros Hc Hl. split; [done|done|]. intros (p & Hp & _)%outstanding_spec. apply alarm_armed.
  intros E. cbn in Hp. rewrite E in Hp. by apply not_elem_of_nil in Hp.
Qed.

(** Operations that only take packets out of the history, without touching the alarm. *)
Lemma inv_moved h h' g l :
  handler_inv h -> moved (inflight h) (inflight h') g l ->
  lastSentPacketNumber h' = lastSentPacketNumber h -> alarm h' = alarm h -> handler_inv h'.
Proof.
  intros [H1 H2 H3] [M1 M2 M3 M4] El Ea. split; [done| |].
  - intros p Hp. rewrite El. auto.
  - intros (p & Hp & Hr)%outstanding_spec. rewrite Ea. apply H3, outstanding_spec. eauto.
Qed.

Lemma inv_same h h' :
  handler_inv h -> same_packets (inflight h) (inflight h') ->
  lastSentPacketNumber h' = lastSentPacketNumber h -> alarm h' = alarm h -> handler_inv h'.
Proof.
  intros Hi Hs. apply (inv_moved h h' [] []); [done|]. eapply moved_same; [apply moved_refl, Hi|done].
Qed.

(** The queue plays no role in the invariant. *)
Lemma inv_queue h q st :
  handler_inv h ->
  handler_inv (set_retransmissions (set_inflight h (set_queue (inflight h) q)) st) /\
  handler_inv (set_inflight h (set_queue (inflight h) q)).
Proof. intros [[H0 H1] H2 H3]. split; (split; [by split|done|done]). Qed.

Lemma inv_sent h packet now : handler_inv h -> handler_inv (SentPacket h packet now).2.
Proof.
  intros Hi. pose proof Hi as [[Ho Hb] H2 H3]. unfold SentPacket.
  destruct (Z.leb_spec (PacketNumber packet) (lastSentPacketNumber h)); [done|].
  destruct (_ <? _); [apply (inv_same h); done|]. cbn [snd].
  apply inv_alarm_updated; destruct (_ && _); cbn.
  - split; cbn.
    + apply StronglySorted_app_2; [|done|by repeat constructor].
      intros p q Hp ->%list_elem_of_singleton. cbn. specialize (H2 p Hp). lia.
    + rewrite total_app, Hb. cbn. unfold u64, wrap. rewrite Zplus_mod_idemp_l. f_equal. lia.
  - done.
  - intros p [Hp| ->%list_elem_of_singleton]%elem_of_app; [specialize (H2 p Hp)|cbn]; lia.
  - intros p Hp. specialize (H2 p Hp). lia.
Qed.

Lemma inv_ack h frame wpn rcvTime now :
  handler_inv h -> acked_valid (AckFrame.acked frame) -> handler_inv (ReceivedAck h frame wpn rcvTime now).2.
Proof.
  intros Hi Hv. pose proof Hi as [Hc H2 H3].
  destruct (ReceivedAck h frame wpn rcvTime now) as [e h'] eqn:E. cbn [snd].
  destruct (moved_received_ack h frame wpn rcvTime now e h' Hc Hv E) as (acked & lost & Hm & _ & _ & _).
  unfold ReceivedAck in E.
  destruct (_ <? _); [by injection E as <- <-|].
  destruct (_ <=? largestReceivedPacketWithAck h); [by injection E as <- <-|].
  destruct (_ <=? largestInOrderAcked h); [injection E as <- <-; by apply (inv_same h)|].
  destruct (skippedPacketsAcked _ _); [injection E as <- <-; by apply (inv_same h)|].
  destruct (maybeUpdateRTT _ _ _ _ _) as [upd rtt].
  destruct (determineNewlyAckedPackets _ _) as [ps|]; injection E as <- <-.
  2: { apply (inv_same h); [done|by destruct upd|done|done]. }
  match goal with |- handler_inv (set_inflight (garbageCollectSkippedPackets (updateLossDetectionAlarm ?x)) _) =>
    assert (handler_inv (updateLossDetectionAlarm x)) as Hx end.
  { apply inv_alarm_updated; [apply Hm|]. intros p Hp. rewrite detect_last.
    apply (mv_sub _ _ _ _ Hm) in Hp. exact (H2 p Hp). }
  eapply inv_same; [exact Hx|done|done|done].
Qed.

Lemma moved_close_path h frame wpn now e h' :
  counted (inflight h) -> acked_valid (ClosePathFrame.acked frame) ->
  ReceivedClosePath h frame wpn now = (e, h') ->
  lastSentPacketNumber h' = lastSentPacketNumber h /\ alarm h' = alarm h /\
  exists acked lost, moved (inflight h) (inflight h') (acked ++ lost) lost /\
    (e = None ->
     (forall p, p ∈ acked -> AcksPacket (ClosePathFrame.acked frame) (PacketNumber p) = true) /\
     (forall p, p ∈ lost -> PacketNumber p <= LargestAcked h)).
Proof.
  intros Hc Hv. unfold ReceivedClosePath. set (a := ClosePathFrame.acked frame) in *.
  assert (forall (e : option goerr) g, (e = None -> False) -> same_packets (inflight h) g ->
    exists acked lost, moved (inflight h) g (acked ++ lost) lost /\
    (e = None -> (forall p, p ∈ acked -> AcksPacket a (PacketNumber p) = true) /\
                 (forall p, p ∈ lost -> PacketNumber p <= LargestAcked h))) as Hsame.
  { intros e' g He Hg. exists [], []. split; [|by intros ?%He].
    eapply moved_same; [by apply moved_refl|done]. }
  destruct (_ <? _); [intros [= <- <-]; split_and!; [done|done|by apply (Hsame (Some errAckForUnsentPacket))]|].
  destruct (_ <=? largestReceivedPacketWithAck h);
    [intros [= <- <-]; split_and!; [done|done|by apply (Hsame (Some ErrDuplicateOrOutOfOrderAck))]|].
  destruct (skippedPacketsAcked _ _);
    [intros [= <- <-]; split_and!; [done|done|by apply (Hsame (Some ErrAckForSkippedPacket))]|].
  cbn [inflight set_received]. rewrite determine_exact by (done || apply Hc). intros [= <- <-].
  set (acked := List.filter _ _).
  assert (forall p, p ∈ acked <-> p ∈ packetHistory (inflight h) /\ AcksPacket a (PacketNumber p) = true) as Hin
    by (intros p; unfold acked; by rewrite !list_elem_of_In, filter_In).
  pose proof (moved_acks (rttStats h) now (inflight h) acked Hc (ordered_filter _ _ (proj1 Hc))
    ltac:(by intros p [? _]%Hin)) as Hm.
  match goal with |- context [SetInflightAsLost ?x] => set (h3 := x) end.
  pose proof (moved_set_lost h3 ltac:(apply Hm)) as Hl.
  split_and!; [done|done|]. eexists acked, _. split.
  - exact (moved_trans _ _ _ _ _ _ _ Hm Hl).
  - intros _. split; [by intros p [_ ?]%Hin|]. intros p Hp.
    by apply (up_to_spec _ _ (proj1 (mv_counted _ _ _ _ Hm))) in Hp as [_ ?].
Qed.

Lemma inv_on_alarm h now onRTO : handler_inv h -> handler_inv (OnAlarm h now onRTO).
Proof.
  intros Hi. pose proof Hi as [Hc H2 H3]. destruct (moved_alarm h now onRTO Hc) as (l & Hm).
  unfold OnAlarm in *. destruct (hasOutstandingRetransmittablePacket (inflight h)) eqn:Eo; cbn [negb] in *.
  2: { split; [done|done|]. cbn. congruence. }
  apply inv_alarm_updated; [apply Hm|]. intros p Hp. apply (mv_sub _ _ _ _ Hm) in Hp.
  specialize (H2 p Hp). destruct (lossTime h); [by rewrite detect_last|by destruct (_ <? _)].
Qed.

Lemma reachable_handler_inv h : reachable h -> handler_inv h.
Proof.
  induction 1 as [rtt c now|h p now _ IH|h fr w r now _ IH Hv|h fr w now _ IH Hv|h now o _ IH|h _ IH|h _ IH|h p _ IH
    |h force _ IH|h g b _ IH].
  - split; [by split; [constructor|]|by intros p []%not_elem_of_nil|done].
  - by apply inv_sent.
  - by apply inv_ack.
  - destruct (ReceivedClosePath h fr w now) as [e h'] eqn:E.
    destruct (moved_close_path _ _ _ _ _ _ (sh_counted _ IH) Hv E) as (E1 & E2 & acked & lost & Hm & _).
    by eapply inv_moved.
  - by apply inv_on_alarm.
  - eapply inv_moved; [done|by apply moved_set_lost, IH|done|done].
  - unfold DequeuePacketForRetransmission. destruct (retransmissionQueue _); [done|]. by apply inv_queue.
  - apply (inv_queue h _ 0 IH).
  - unfold GetStopWaitingFrame. destruct (stopWaitingManager.GetStopWaitingFrame _ _). by apply (inv_same h).
  - by apply (inv_same h).
Qed.

(** ** Properties *)

(** The scan that decides which packets an ACK acknowledges is exact: on the history
    of any reachable handler and any frame the parser accepts it finds precisely the
    packets [AcksPacket] answers yes for, and never the internal error. *)
Theorem newly_acked_exact h a :
  reachable h -> acked_valid a ->
  determineNewlyAckedPackets (inflight h) a
  = Some (List.filter (fun p => AcksPacket a (PacketNumber p)) (packetHistory (inflight h))).
Proof. intros Hr Hv. apply determine_exact; [done|]. apply (reachable_handler_inv h Hr). Qed.

(** The bytes in flight are right: whatever is sent, acknowledged, lost or timed
    out, they are the sizes of the packets in the history, which are ordered by packet
    number and were all sent. *)
Theorem bytes_in_flight_exact h :
  reachable h ->
  bytesInFlight (inflight h) = u64 (total (packetHistory (inflight h))) /\
  ordered (packetHistory (inflight h)) /\
  forall p, p ∈ packetHistory (inflight h) -> PacketNumber p <= lastSentPacketNumber h.
Proof. intros [[Ho Hb] Hl _]%reachable_handler_inv. done. Qed.

(** C31. An ACK forgets nothing: every packet that was in flight is acknowledged by the
    frame, queued for retransmission or still in flight; and after an ACK that was accepted
    and whose largest packet is above the in-order mark, no packet it acknowledges is. *)
Theorem ack_accounts_for_packets h frame wpn rcvTime now e h' :
  reachable h -> acked_valid (AckFrame.acked frame) ->
  ReceivedAck h frame wpn rcvTime now = (e, h') ->
  exists acked lost,
    packetHistory (inflight h) ≡ₚ acked ++ lost ++ packetHistory (inflight h') /\
    retransmissionQueue (inflight h') = retransmissionQueue (inflight h) ++ lost /\
    (forall p, p ∈ acked -> AcksPacket (AckFrame.acked frame) (PacketNumber p) = true) /\
    (e = None -> largestInOrderAcked h < AckRanges.LargestAcked (AckFrame.acked frame) ->
     forall p, p ∈ packetHistory (inflight h') -> AcksPacket (AckFrame.acked frame) (PacketNumber p) = false).
Proof.
  intros Hr Hv E. pose proof (sh_counted _ (reachable_handler_inv h Hr)) as Hc.
  destruct (moved_received_ack h frame wpn rcvTime now e h' Hc Hv E) as (acked & lost & [M1 M2 M3 M4] & H1 & _ & H2).
  exists acked, lost. split_and!; try done. by rewrite M1, app_assoc.
Qed.

(** A timeout forgets nothing: when the alarm fires, every packet that was in flight
    is queued for retransmission or still in flight. *)
Theorem alarm_accounts_for_packets h now onRTO :
  reachable h ->
  exists lost,
    packetHistory (inflight h) ≡ₚ lost ++ packetHistory (inflight (OnAlarm h now onRTO)) /\
    retransmissionQueue (inflight (OnAlarm h now onRTO)) = retransmissionQueue (inflight h) ++ lost.
Proof.
  intros Hr. pose proof (sh_counted _ (reachable_handler_inv h Hr)) as Hc.
  destruct (moved_alarm h now onRTO Hc) as (l & [M1 _ M3 _]). by exists l.
Qed.

(** While a retransmittable packet is in flight, the loss detection alarm is armed. *)
Theorem loss_alarm_armed h :
  reachable h -> hasOutstandingRetransmittablePacket (inflight h) = true -> is_Some (GetAlarmTimeout h).
Proof. intros Hr. apply (sh_armed _ (reachable_handler_inv h Hr)). Qed.

(** A CLOSE_PATH frame strands packets.  The packets above the largest packet that
    was acknowledged before stay in flight on the closed path when the frame does not
    acknowledge them; they are not queued for retransmission. *)
Theorem close_path_strands_packets h frame wpn now h' p :
  reachable h -> acked_valid (ClosePathFrame.acked frame) ->
  ReceivedClosePath h frame wpn now = (None, h') ->
  p ∈ packetHistory (inflight h) -> LargestAcked h < PacketNumber p ->
  AcksPacket (ClosePathFrame.acked frame) (PacketNumber p) = false ->
  p ∈ packetHistory (inflight h').
Proof.
  intros Hr Hv E Hp Hl Ha. pose proof (sh_counted _ (reachable_handler_inv h Hr)) as Hc.
  destruct (moved_close_path _ _ _ _ _ _ Hc Hv E) as (_ & _ & acked & lost & [M1 _ _ _] & Hn).
  destruct (Hn eq_refl) as [H1 H2]. rewrite M1, !elem_of_app in Hp. destruct Hp as [[Hp|Hp]|Hp]; [| |done].
  - rewrite (H1 p Hp) in Ha. done.
  - specialize (H2 p Hp). lia.
Qed.

(** The retransmission timeout backs off exponentially up to a minute, as long as the
    shifted value fits an [int64]; after 36 timeouts in a row it does not, and the
    timeout becomes negative (the alarm then fires again after 200 ms). *)
Theorem rto_backoff rtt (f : flight (C := C)) :
  let rto := MaxDuration (if RetransmissionDelay (congestion f) rtt =? 0 then defaultRTOTimeout
                          else RetransmissionDelay (congestion f) rtt) minRTOTimeout in
  (0 <= rtoCount f -> rto * 2 ^ rtoCount f < 2 ^ 63 ->
   computeRTOTimeout rtt f = Z.min (rto * 2 ^ rtoCount f) maxRTOTimeout) /\
  (RetransmissionDelay (congestion f) rtt = 0 -> rtoCount f = 36 -> computeRTOTimeout rtt f < 0).
Proof.
  intros rto. unfold computeRTOTimeout. fold rto. unfold MinDuration. split.
  - intros H0 Hlt. rewrite Z.shiftl_mul_pow2 by done.
    assert (0 < rto) by (unfold rto, MaxDuration, minRTOTimeout, Millisecond, Microsecond; case_match; lia).
    assert (0 < 2 ^ rtoCount f) by (apply Z.pow_pos_nonneg; lia).
    rewrite i64_small by (unfold in_i64; nia). destruct (Z.ltb_spec maxRTOTimeout (rto * 2 ^ rtoCount f)); lia.
  - intros E1 E2. unfold rto. rewrite E1, E2. vm_compute. reflexivity.
Qed.

(** A packet that carries only a CLOSE_PATH frame is tracked as retransmittable but
    never retransmitted: when the alarm fires it is cancelled and the packet stays. *)
Theorem close_path_packet_never_retransmitted h frame packet now h' now' onRTO :
  packetHistory (inflight h) = [] -> Frames packet = [FClosePath frame] -> NeedRetrans packet = true ->
  SentPacket h packet now = (None, h') ->
  (exists p, packetHistory (inflight h') = [p] /\ Frames p = [FClosePath frame]) /\
  OnAlarm h' now' onRTO = set_alarm h' None.
Proof.
  intros Hh Hf Hn. unfold SentPacket. rewrite Hf, Hn. cbn. destruct (_ <=? _); [intros [=]|].
  destruct (_ <? _); [intros [=]|]. intros [= <-]. split.
  - rewrite Hh. eexists. split; [done|]. done.
  - unfold OnAlarm, hasOutstandingRetransmittablePacket. cbn. rewrite Hh. done.
Qed.
End Accounting.

(** ** An example *)

(** A congestion controller with a fixed window. *)
#[local] Instance fixed_window : SendAlgorithm Z := {|
  OnPacketSent c _ _ _ _ _ _ := c;
  GetCongestionWindow c := c;
  MaybeExitSlowStart c _ := c;
  OnPacketAcked c _ _ _ _ _ := c;
  OnPacketLost c _ _ _ := c;
  OnRetransmissionTimeout c _ := c;
  RetransmissionDelay _ rtt := RTTStats.SmoothedRTT rtt;
  CSmoothedRTT _ rtt := RTTStats.SmoothedRTT rtt;
  BandwidthEstimate _ _ := 0;
  SetUtilityControl c _ _ := c;
|}.

(** Packets 1, 2 and 3 are sent, then 1 and 3 are acknowledged. *)
Definition sent_ping (n : Z) : Packet := MkPacket n [FPing] 100 0 0 true.
Definition sample0 : t (C := Z) := NewSentPacketHandler RTTStats.NewRTTStats 100000 0.
Definition sample1 : t (C := Z) := (SentPacket sample0 (sent_ping 1) 1000).2.
Definition sample2 : t (C := Z) := (SentPacket sample1 (sent_ping 2) 2000).2.
Definition sample3 : t (C := Z) := (SentPacket sample2 (sent_ping 3) 3000).2.
Definition sample_acked : Acked := MkAcked 3 1 [MkAckRange 3 3; MkAckRange 1 1].
Definition sample_ack : AckFrame.t := AckFrame.Mk 0 sample_acked 0 0.
Definition sample_close : ClosePathFrame.t := ClosePathFrame.Mk 0 (MkAcked 2 2 []).

Lemma sample_reachable : reachable sample3.
Proof. apply reach_sent, reach_sent, reach_sent, reach_new. Qed.

Lemma sample_acked_valid : acked_valid sample_acked.
Proof. repeat split; cbn; try lia; done. Qed.

Lemma newly_acked_exact_witness :
  determineNewlyAckedPackets (inflight sample3) sample_acked
  = Some (List.filter (fun p => AcksPacket sample_acked (PacketNumber p)) (packetHistory (inflight sample3))).
Proof. apply (newly_acked_exact sample3 sample_acked sample_reachable sample_acked_valid). Defined.

Lemma bytes_in_flight_exact_witness :
  bytesInFlight (inflight sample3) = u64 (total (packetHistory (inflight sample3))) /\
  ordered (packetHistory (inflight sample3)) /\
  forall p, p ∈ packetHistory (inflight sample3) -> PacketNumber p <= lastSentPacketNumber sample3.
Proof. apply (bytes_in_flight_exact sample3 sample_reachable). Defined.

Lemma ack_accounts_for_packets_witness :
  exists acked lost,
    packetHistory (inflight sample3)
    ≡ₚ acked ++ lost ++ packetHistory (inflight (ReceivedAck sample3 sample_ack 1 4000 5000).2) /\
    retransmissionQueue (inflight (ReceivedAck sample3 sample_ack 1 4000 5000).2)
    = retransmissionQueue (inflight sample3) ++ lost /\
    (forall p, p ∈ acked -> AcksPacket sample_acked (PacketNumber p) = true) /\
    ((ReceivedAck sample3 sample_ack 1 4000 5000).1 = None -> largestInOrderAcked sample3 < 3 ->
     forall p, p ∈ packetHistory (inflight (ReceivedAck sample3 sample_ack 1 4000 5000).2) ->
       AcksPacket sample_acked (PacketNumber p) = false).
Proof.
  apply (ack_accounts_for_packets sample3 sample_ack 1 4000 5000 _ _ sample_reachable sample_acked_valid).
  apply surjective_pairing.
Defined.

Lemma alarm_accounts_for_packets_witness :
  exists lost,
    packetHistory (inflight sample3)
    ≡ₚ lost ++ packetHistory (inflight (OnAlarm sample3 (600 * Millisecond) (fun _ => true))) /\
    retransmissionQueue (inflight (OnAlarm sample3 (600 * Millisecond) (fun _ => true)))
    = retransmissionQueue (inflight sample3) ++ lost.
Proof. apply (alarm_accounts_for_packets sample3 _ _ sample_reachable). Defined.

Lemma loss_alarm_armed_witness : is_Some (GetAlarmTimeout sample3).
Proof. apply (loss_alarm_armed sample3 sample_reachable). vm_compute. reflexivity. Defined.

Lemma close_path_strands_packets_witness :
  MkPacket 3 [FPing] 100 0 3000 true ∈ packetHistory (inflight (ReceivedClosePath sample3 sample_close 1 5000).2).
Proof.
  apply (close_path_strands_packets sample3 sample_close 1 5000 _ _ sample_reachable).
  - repeat split; cbn; lia.
  - vm_compute. reflexivity.
  - vm_compute. right. right. left.
  - vm_compute. reflexivity.
  - vm_compute. reflexivity.
Defined.

Definition close_path_packet : Packet := MkPacket 1 [FClosePath sample_close] 20 3 0 true.

Lemma close_path_packet_never_retransmitted_witness :
  (exists p, packetHistory (inflight (SentPacket sample0 close_path_packet 1000).2) = [p] /\
     Frames p = [FClosePath sample_close]) /\
  OnAlarm (SentPacket sample0 close_path_packet 1000).2 (600 * Millisecond) (fun _ => true)
  = set_alarm (SentPacket sample0 close_path_packet 1000).2 None.
Proof.
  apply (close_path_packet_never_retransmitted sample0 sample_close close_path_packet 1000); try done.
Defined.
