(* ===== verification/Congestion.v ===== *)
(** * Congestion control of a single path

    Models [congestion/hybrid_slow_start.go], [congestion/prr_sender.go],
    [congestion/cubic.go], [congestion/bandwidth.go] and [congestion/cubic_sender.go].  The
    Cubic sender is the [SendAlgorithm] of the first path, and an instance of the class the
    sent packet handler is written against.  Windows are in packets, [uint64]; the clock is
    an argument; a zero [time.Time] is [None] where the code asks for [IsZero] and
    [zero_time] where it only subtracts.  [math.Cbrt] is an argument too: what is shown
    holds for any cube root.  The path number and the switch of the log lines are left out.

    The theorems: the window stays between two packets and its maximum, the inner loop of
    Cubic ends, one loss event cuts the window once, and the epoch is shifted wrongly when
    an application-limited period ends with a loss. *)

From Stdlib Require Import ZArith Reals Lra Floats.SpecFloat.
From stdpp Require Import base numbers list option.
From S2P Require Import Prelude GoFloat FloatFacts RttStats SentPackets.

Local Open Scope Z_scope.

Definition DefaultTCPMSS : Z := 1460.
Definition InitialCongestionWindow : Z := 32.
Definition DefaultMaxCongestionWindow : Z := 2500.

Definition MaxPacketNumber (a b : Z) : Z := if b <? a then a else b.
Definition MinPacketNumber (a b : Z) : Z := if a <? b then a else b.

(** ** Bandwidth *)

Definition BytesPerSecond : Z := 8.
Definition BandwidthFromDelta (bytes delta : Z) : Z :=
  u64 (u64 (bytes * Second) / u64 delta * BytesPerSecond).

(** ** Hybrid slow start *)

Module HybridSlowStart.

Record t : Type := Mk {
  endPacketNumber : Z;
  lastSentPacketNumber : Z;
  started : bool;
  currentMinRTT : Z;
  rttSampleCount : Z;
  hystartFound : bool;
}.

Definition new : t := Mk 0 0 false 0 0 false.

Definition hybridStartLowWindow : Z := 16.
Definition hybridStartMinSamples : Z := 8.
Definition hybridStartDelayFactorExp : Z := 3.
Definition hybridStartDelayMinThresholdUs : Z := 4000.
Definition hybridStartDelayMaxThresholdUs : Z := 16000.

Definition StartReceiveRound (s : t) (lastSent : Z) : t :=
  Mk lastSent (lastSentPacketNumber s) true 0 0 (hystartFound s).

Definition IsEndOfRound (s : t) (ack : Z) : bool := endPacketNumber s <? ack.

(** The delay increase that ends slow start. *)
Definition increaseThreshold (minRTT : Z) : Z :=
  let us := Z.shiftr (Z.quot minRTT Microsecond) hybridStartDelayFactorExp in
  i64 (Z.max (Z.min us hybridStartDelayMaxThresholdUs) hybridStartDelayMinThresholdUs * Microsecond).

Definition ShouldExitSlowStart (s : t) (latestRTT minRTT congestionWindow : Z) : bool * t :=
  let s := if started s then s else StartReceiveRound s (lastSentPacketNumber s) in
  if hystartFound s then (true, s)
  else
    let n := u32 (rttSampleCount s + 1) in
    let cur := if (n <=? hybridStartMinSamples)
                  && ((currentMinRTT s =? 0) || (latestRTT <? currentMinRTT s))
               then latestRTT else currentMinRTT s in
    let found := if n =? hybridStartMinSamples
                 then i64 (minRTT + increaseThreshold minRTT) <? cur else false in
    ((hybridStartLowWindow <=? congestionWindow) && found,
     Mk (endPacketNumber s) (lastSentPacketNumber s) (started s) cur n found).

Definition OnPacketSent (s : t) (packetNumber : Z) : t :=
  Mk (endPacketNumber s) packetNumber (started s) (currentMinRTT s) (rttSampleCount s) (hystartFound s).

Definition set_started (s : t) (b : bool) : t :=
  Mk (endPacketNumber s) (lastSentPacketNumber s) b (currentMinRTT s) (rttSampleCount s) (hystartFound s).

Definition OnPacketAcked (s : t) (ackedPacketNumber : Z) : t :=
  if IsEndOfRound s ackedPacketNumber then set_started s false else s.

Definition Restart (s : t) : t :=
  Mk (endPacketNumber s) (lastSentPacketNumber s) false (currentMinRTT s) (rttSampleCount s) false.

End HybridSlowStart.

(** ** Proportional rate reduction *)

Module PrrSender.

Record t : Type := Mk {
  bytesSentSinceLoss : Z;
  bytesDeliveredSinceLoss : Z;
  ackCountSinceLoss : Z;
  bytesInFlightBeforeLoss : Z;
}.

Definition new : t := Mk 0 0 0 0.

Definition OnPacketSent (p : t) (sentBytes : Z) : t :=
  Mk (u64 (bytesSentSinceLoss p + sentBytes)) (bytesDeliveredSinceLoss p) (ackCountSinceLoss p)
     (bytesInFlightBeforeLoss p).

Definition OnPacketLost (bytesInFlight : Z) : t := Mk 0 0 0 bytesInFlight.

Definition OnPacketAcked (p : t) (ackedBytes : Z) : t :=
  Mk (bytesSentSinceLoss p) (u64 (bytesDeliveredSinceLoss p + ackedBytes)) (u64 (ackCountSinceLoss p + 1))
     (bytesInFlightBeforeLoss p).

Definition TimeUntilSend (p : t) (congestionWindow bytesInFlight slowstartThreshold : Z) : Z :=
  if (bytesSentSinceLoss p =? 0) || (bytesInFlight <? DefaultTCPMSS) then 0
  else if bytesInFlight <? congestionWindow then
    if u64 (bytesDeliveredSinceLoss p + u64 (ackCountSinceLoss p * DefaultTCPMSS)) <=? bytesSentSinceLoss p
    then InfDuration else 0
  else if u64 (bytesSentSinceLoss p * bytesInFlightBeforeLoss p)
          <? u64 (bytesDeliveredSinceLoss p * slowstartThreshold)
  then 0 else InfDuration.

End PrrSender.

(** ** Cubic *)

Module Cubic.

Definition cubeScale : Z := 40.
Definition cubeCongestionWindowScale : Z := 410.
Definition cubeFactor : Z := 2 ^ cubeScale / cubeCongestionWindowScale.
Definition defaultNumConnections : Z := 2.
Definition beta_ : float := lit32 7 10.
Definition betaLastMax : float := lit32 85 100.
Definition maxCubicTimeInterval : Z := 30 * Millisecond.

Record t : Type := Mk {
  numConnections : Z;
  epoch : option Z;
  appLimitedStartTime : option Z;
  lastUpdateTime : Z;
  lastCongestionWindow : Z;
  lastMaxCongestionWindow : Z;
  ackedPacketsCount : Z;
  estimatedTCPcongestionWindow : Z;
  originPointCongestionWindow : Z;
  timeToOriginPoint : Z;
  lastTargetCongestionWindow : Z;
}.

Definition Reset (c : t) : t := Mk (numConnections c) None None zero_time 0 0 0 0 0 0 0.

Definition NewCubic : t := Mk defaultNumConnections None None zero_time 0 0 0 0 0 0 0.

(** The backoff factor and the additive increase of [n] emulated connections. *)
Definition beta (n : Z) : float := ((of_Z32 n - of_Z32 1 + beta_) / of_Z32 n)%f32.
Definition alpha (n : Z) : float :=
  (of_Z32 3 * of_Z32 n * of_Z32 n * (of_Z32 1 - beta n) / (of_Z32 1 + beta n))%f32.

Definition OnApplicationLimited (c : t) (now : Z) : t :=
  match appLimitedStartTime c with
  | Some _ => c
  | None => Mk (numConnections c) (epoch c) (Some now) (lastUpdateTime c) (lastCongestionWindow c)
               (lastMaxCongestionWindow c) (ackedPacketsCount c) (estimatedTCPcongestionWindow c)
               (originPointCongestionWindow c) (timeToOriginPoint c) (lastTargetCongestionWindow c)
  end.

Definition CongestionWindowAfterPacketLoss (c : t) (currentCongestionWindow : Z) : Z * t :=
  let lastMax := if currentCongestionWindow <? lastMaxCongestionWindow c
                 then to_uint64 (betaLastMax * of_Z32 currentCongestionWindow)%f32
                 else currentCongestionWindow in
  (to_uint64 (of_Z32 currentCongestionWindow * beta (numConnections c))%f32,
   Mk (numConnections c) None (appLimitedStartTime c) (lastUpdateTime c) (lastCongestionWindow c)
      lastMax (ackedPacketsCount c) (estimatedTCPcongestionWindow c)
      (originPointCongestionWindow c) (timeToOriginPoint c) (lastTargetCongestionWindow c)).

(** The loop that grows the estimated TCP window; every round but one that starts at an
    estimate of zero takes an acknowledged packet, which bounds their number. *)
Definition requiredAckCount (n est : Z) : Z := to_uint64 (of_Z32 est / alpha n)%f32.

Fixpoint tcp_loop (fuel : nat) (n acked est : Z) : Z * Z :=
  match fuel with
  | O => (acked, est)
  | S fuel' =>
      if acked <? requiredAckCount n est then (acked, est)
      else tcp_loop fuel' n (u64 (acked - requiredAckCount n est)) (u64 (est + 1))
  end.

(** The start of an epoch, or its shift through an application-limited period. *)
Definition start_epoch (Cbrt : float -> float) (c : t) (currentCongestionWindow now : Z) : t :=
  match epoch c with
  | None =>
      let atMax := lastMaxCongestionWindow c <=? currentCongestionWindow in
      Mk (numConnections c) (Some now) (appLimitedStartTime c) now currentCongestionWindow
         (lastMaxCongestionWindow c) 1 currentCongestionWindow
         (if atMax then currentCongestionWindow else lastMaxCongestionWindow c)
         (if atMax then 0
          else u32 (trunc (Cbrt (of_Z64 (u64 (cubeFactor
                 * u64 (lastMaxCongestionWindow c - currentCongestionWindow)))))))
         (lastTargetCongestionWindow c)
  | Some e =>
      let '(e', a) := match appLimitedStartTime c with
                      | Some s => (time_add e (time_sub now s), None)
                      | None => (e, None)
                      end in
      Mk (numConnections c) (Some e') a now currentCongestionWindow
         (lastMaxCongestionWindow c) (ackedPacketsCount c) (estimatedTCPcongestionWindow c)
         (originPointCongestionWindow c) (timeToOriginPoint c) (lastTargetCongestionWindow c)
  end.

(** The cubic function, in packets. *)
Definition cubic_target (c : t) (now delayMin : Z) : Z :=
  let e := match epoch c with Some e => e | None => zero_time end in
  let elapsedTime := Z.quot (i64 (Z.shiftl (Z.quot (time_sub (time_add now delayMin) e) Microsecond) 10)) 1000000 in
  let offset := i64 (timeToOriginPoint c - elapsedTime) in
  let offset := if offset <? 0 then i64 (- offset) else offset in
  let delta := u64 (Z.shiftr (i64 (i64 (i64 (cubeCongestionWindowScale * offset) * offset) * offset)) cubeScale) in
  if timeToOriginPoint c <? elapsedTime
  then u64 (originPointCongestionWindow c + delta)
  else u64 (originPointCongestionWindow c - delta).

Definition CongestionWindowAfterAck (Cbrt : float -> float) (c : t) (currentCongestionWindow delayMin now : Z) : Z * t :=
  let c := Mk (numConnections c) (epoch c) (appLimitedStartTime c) (lastUpdateTime c) (lastCongestionWindow c)
              (lastMaxCongestionWindow c) (u64 (ackedPacketsCount c + 1)) (estimatedTCPcongestionWindow c)
              (originPointCongestionWindow c) (timeToOriginPoint c) (lastTargetCongestionWindow c) in
  if (lastCongestionWindow c =? currentCongestionWindow)
     && (time_sub now (lastUpdateTime c) <=? maxCubicTimeInterval)
  then (MaxPacketNumber (lastTargetCongestionWindow c) (estimatedTCPcongestionWindow c), c)
  else
    let c := start_epoch Cbrt c currentCongestionWindow now in
    let target := cubic_target c now delayMin in
    let '(acked, est) := tcp_loop (S (S (Z.to_nat (ackedPacketsCount c)))) (numConnections c)
                           (ackedPacketsCount c) (estimatedTCPcongestionWindow c) in
    (if target <? est then est else target,
     Mk (numConnections c) (epoch c) (appLimitedStartTime c) (lastUpdateTime c) (lastCongestionWindow c)
        (lastMaxCongestionWindow c) acked est (originPointCongestionWindow c) (timeToOriginPoint c) target).

Definition SetNumConnections (c : t) (n : Z) : t :=
  Mk n (epoch c) (appLimitedStartTime c) (lastUpdateTime c) (lastCongestionWindow c)
     (lastMaxCongestionWindow c) (ackedPacketsCount c) (estimatedTCPcongestionWindow c)
     (originPointCongestionWindow c) (timeToOriginPoint c) (lastTargetCongestionWindow c).

End Cubic.

(** ** The Cubic sender *)

Module cubicSender.

Definition maxBurstBytes : Z := 3 * DefaultTCPMSS.
Definition defaultMinimumCongestionWindow : Z := 2.
Definition renoBeta : float := lit32 7 10.

Record t : Type := Mk {
  hybridSlowStart : HybridSlowStart.t;
  prr : PrrSender.t;
  slowstartPacketsLost : Z;
  slowstartBytesLost : Z;
  cubic : Cubic.t;
  reno : bool;
  largestSentPacketNumber : Z;
  largestAckedPacketNumber : Z;
  largestSentAtLastCutback : Z;
  congestionWindow : Z;
  slowstartThreshold : Z;
  lastCutbackExitedSlowstart : bool;
  slowStartLargeReduction : bool;
  minCongestionWindow : Z;
  maxTCPCongestionWindow : Z;
  numConnections : Z;
  congestionWindowCount : Z;
  initialCongestionWindow : Z;
  initialMaxCongestionWindow : Z;
}.

Definition NewCubicSender (reno : bool) (initial initialMax : Z) : t :=
  Mk HybridSlowStart.new PrrSender.new 0 0 Cubic.NewCubic reno 0 0 0 initial initialMax false false
     defaultMinimumCongestionWindow initialMax Cubic.defaultNumConnections 0 initial initialMax.

Definition InRecovery (c : t) : bool :=
  (largestAckedPacketNumber c <=? largestSentAtLastCutback c) && negb (largestAckedPacketNumber c =? 0).
Definition GetCongestionWindow (c : t) : Z := u64 (congestionWindow c * DefaultTCPMSS).
Definition GetSlowStartThreshold (c : t) : Z := u64 (slowstartThreshold c * DefaultTCPMSS).
Definition InSlowStart (c : t) : bool := GetCongestionWindow c <? GetSlowStartThreshold c.

Definition TimeUntilSend (c : t) (bytesInFlight : Z) : Z :=
  if InRecovery c
  then PrrSender.TimeUntilSend (prr c) (GetCongestionWindow c) bytesInFlight (GetSlowStartThreshold c)
  else if bytesInFlight <? GetCongestionWindow c then 0 else InfDuration.

(** Updates of groups of fields. *)
Definition set_parts (c : t) (h : HybridSlowStart.t) (p : PrrSender.t) (q : Cubic.t) : t :=
  Mk h p (slowstartPacketsLost c) (slowstartBytesLost c) q (reno c) (largestSentPacketNumber c)
     (largestAckedPacketNumber c) (largestSentAtLastCutback c) (congestionWindow c) (slowstartThreshold c)
     (lastCutbackExitedSlowstart c) (slowStartLargeReduction c) (minCongestionWindow c)
     (maxTCPCongestionWindow c) (numConnections c) (congestionWindowCount c)
     (initialCongestionWindow c) (initialMaxCongestionWindow c).

Definition set_numbers (c : t) (sent acked cutback : Z) : t :=
  Mk (hybridSlowStart c) (prr c) (slowstartPacketsLost c) (slowstartBytesLost c) (cubic c) (reno c) sent
     acked cutback (congestionWindow c) (slowstartThreshold c)
     (lastCutbackExitedSlowstart c) (slowStartLargeReduction c) (minCongestionWindow c)
     (maxTCPCongestionWindow c) (numConnections c) (congestionWindowCount c)
     (initialCongestionWindow c) (initialMaxCongestionWindow c).

Definition set_window (c : t) (window threshold count : Z) : t :=
  Mk (hybridSlowStart c) (prr c) (slowstartPacketsLost c) (slowstartBytesLost c) (cubic c) (reno c)
     (largestSentPacketNumber c) (largestAckedPacketNumber c) (largestSentAtLastCutback c) window threshold
     (lastCutbackExitedSlowstart c) (slowStartLargeReduction c) (minCongestionWindow c)
     (maxTCPCongestionWindow c) (numConnections c) count
     (initialCongestionWindow c) (initialMaxCongestionWindow c).

Definition set_loss_stats (c : t) (packets bytes : Z) (exited : bool) : t :=
  Mk (hybridSlowStart c) (prr c) packets bytes (cubic c) (reno c)
     (largestSentPacketNumber c) (largestAckedPacketNumber c) (largestSentAtLastCutback c)
     (congestionWindow c) (slowstartThreshold c)
     exited (slowStartLargeReduction c) (minCongestionWindow c)
     (maxTCPCongestionWindow c) (numConnections c) (congestionWindowCount c)
     (initialCongestionWindow c) (initialMaxCongestionWindow c).

Definition OnPacketSent (c : t) (packetNumber bytes : Z) (isRetransmittable : bool) : bool * t :=
  if negb isRetransmittable then (false, c)
  else
    let p := if InRecovery c then PrrSender.OnPacketSent (prr c) bytes else prr c in
    (true, set_numbers (set_parts c (HybridSlowStart.OnPacketSent (hybridSlowStart c) packetNumber) p (cubic c))
             packetNumber (largestAckedPacketNumber c) (largestSentAtLastCutback c)).

Definition ExitSlowstart (c : t) : t :=
  set_window c (congestionWindow c) (congestionWindow c) (congestionWindowCount c).

Definition MaybeExitSlowStart (c : t) (rtt : RTTStats.t) : t :=
  if InSlowStart c then
    let '(exit, h) := HybridSlowStart.ShouldExitSlowStart (hybridSlowStart c) (RTTStats.LatestRTT rtt)
                        (RTTStats.MinRTT rtt) (GetCongestionWindow c / DefaultTCPMSS) in
    let c := set_parts c h (prr c) (cubic c) in
    if exit then ExitSlowstart c else c
  else c.

Definition isCwndLimited (c : t) (bytesInFlight : Z) : bool :=
  let window := GetCongestionWindow c in
  if window <=? bytesInFlight then true
  else
    let availableBytes := u64 (window - bytesInFlight) in
    let slowStartLimited := InSlowStart c && (window / 2 <? bytesInFlight) in
    slowStartLimited || (availableBytes <=? maxBurstBytes).

Definition maybeIncreaseCwnd (Cbrt : float -> float) (c : t) (rtt : RTTStats.t) (now bytesInFlight : Z) : t :=
  if negb (isCwndLimited c bytesInFlight)
  then set_parts c (hybridSlowStart c) (prr c) (Cubic.OnApplicationLimited (cubic c) now)
  else if maxTCPCongestionWindow c <=? congestionWindow c then c
  else if InSlowStart c
  then set_window c (u64 (congestionWindow c + 1)) (slowstartThreshold c) (congestionWindowCount c)
  else if reno c then
    let count := u64 (congestionWindowCount c + 1) in
    if congestionWindow c <=? u64 (count * u64 (numConnections c))
    then set_window c (u64 (congestionWindow c + 1)) (slowstartThreshold c) 0
    else set_window c (congestionWindow c) (slowstartThreshold c) count
  else
    let '(w, q) := Cubic.CongestionWindowAfterAck Cbrt (cubic c) (congestionWindow c) (RTTStats.MinRTT rtt) now in
    set_window (set_parts c (hybridSlowStart c) (prr c) q)
      (MinPacketNumber (maxTCPCongestionWindow c) w) (slowstartThreshold c) (congestionWindowCount c).

Definition OnPacketAcked (Cbrt : float -> float) (c : t) (rtt : RTTStats.t)
    (now ackedPacketNumber ackedBytes bytesInFlight : Z) : t :=
  let c := set_numbers c (largestSentPacketNumber c)
             (MaxPacketNumber ackedPacketNumber (largestAckedPacketNumber c)) (largestSentAtLastCutback c) in
  if InRecovery c
  then set_parts c (hybridSlowStart c) (PrrSender.OnPacketAcked (prr c) ackedBytes) (cubic c)
  else
    let c := maybeIncreaseCwnd Cbrt c rtt now bytesInFlight in
    if InSlowStart c
    then set_parts c (HybridSlowStart.OnPacketAcked (hybridSlowStart c) ackedPacketNumber) (prr c) (cubic c)
    else c.

Definition RenoBeta (c : t) : float :=
  ((of_Z32 (numConnections c) - of_Z32 1 + renoBeta) / of_Z32 (numConnections c))%f32.

(** A loss that belongs to the loss event the window was last cut for. *)
Definition same_event (c : t) (lostBytes : Z) : t :=
  if negb (lastCutbackExitedSlowstart c) then c
  else
    let packets := u64 (slowstartPacketsLost c + 1) in
    let bytes := u64 (slowstartBytesLost c + lostBytes) in
    let c := set_loss_stats c packets bytes (lastCutbackExitedSlowstart c) in
    if negb (slowStartLargeReduction c) then c
    else
      let w := if (packets =? 1) || (u64 (bytes - lostBytes) / DefaultTCPMSS <? bytes / DefaultTCPMSS)
               then MaxPacketNumber (u64 (congestionWindow c - 1)) (minCongestionWindow c)
               else congestionWindow c in
      set_window c w w (congestionWindowCount c).

(** The window after a new loss event. *)
Definition cutback (c : t) : Z * Cubic.t :=
  if slowStartLargeReduction c && InSlowStart c then (u64 (congestionWindow c - 1), cubic c)
  else if reno c then (to_uint64 (of_Z32 (congestionWindow c) * RenoBeta c)%f32, cubic c)
  else Cubic.CongestionWindowAfterPacketLoss (cubic c) (congestionWindow c).

Definition OnPacketLost (c : t) (packetNumber lostBytes bytesInFlight : Z) : t :=
  if packetNumber <=? largestSentAtLastCutback c then same_event c lostBytes
  else
    let packets := if InSlowStart c then u64 (slowstartPacketsLost c + 1) else slowstartPacketsLost c in
    let c := set_loss_stats c packets (slowstartBytesLost c) (InSlowStart c) in
    let '(w, q) := cutback c in
    let w := if w <? minCongestionWindow c then minCongestionWindow c else w in
    set_numbers (set_window (set_parts c (hybridSlowStart c) (PrrSender.OnPacketLost bytesInFlight) q) w w 0)
      (largestSentPacketNumber c) (largestAckedPacketNumber c) (largestSentPacketNumber c).

Definition BandwidthEstimate (c : t) (rtt : RTTStats.t) : Z :=
  let srtt := RTTStats.SmoothedRTT rtt in
  if srtt =? 0 then 0 else BandwidthFromDelta (GetCongestionWindow c) srtt.

Definition SetNumEmulatedConnections (c : t) (n : Z) : t :=
  let n := Z.max n 1 in
  Mk (hybridSlowStart c) (prr c) (slowstartPacketsLost c) (slowstartBytesLost c)
     (Cubic.SetNumConnections (cubic c) n) (reno c)
     (largestSentPacketNumber c) (largestAckedPacketNumber c) (largestSentAtLastCutback c)
     (congestionWindow c) (slowstartThreshold c)
     (lastCutbackExitedSlowstart c) (slowStartLargeReduction c) (minCongestionWindow c)
     (maxTCPCongestionWindow c) n (congestionWindowCount c)
     (initialCongestionWindow c) (initialMaxCongestionWindow c).

Definition OnRetransmissionTimeout (c : t) (packetsRetransmitted : bool) : t :=
  let c := set_numbers c (largestSentPacketNumber c) (largestAckedPacketNumber c) 0 in
  if negb packetsRetransmitted then c
  else
    let c := set_parts c (HybridSlowStart.Restart (hybridSlowStart c)) (prr c) (Cubic.Reset (cubic c)) in
    set_window c (minCongestionWindow c) (congestionWindow c / 2) (congestionWindowCount c).

Definition OnConnectionMigration (c : t) : t :=
  Mk (HybridSlowStart.Restart (hybridSlowStart c)) PrrSender.new
     (slowstartPacketsLost c) (slowstartBytesLost c) (Cubic.Reset (cubic c)) (reno c) 0 0 0
     (initialCongestionWindow c) (initialMaxCongestionWindow c) false (slowStartLargeReduction c)
     (minCongestionWindow c) (initialMaxCongestionWindow c) (numConnections c) 0
     (initialCongestionWindow c) (initialMaxCongestionWindow c).

Definition SetSlowStartLargeReduction (c : t) (enabled : bool) : t :=
  Mk (hybridSlowStart c) (prr c) (slowstartPacketsLost c) (slowstartBytesLost c) (cubic c) (reno c)
     (largestSentPacketNumber c) (largestAckedPacketNumber c) (largestSentAtLastCutback c)
     (congestionWindow c) (slowstartThreshold c)
     (lastCutbackExitedSlowstart c) enabled (minCongestionWindow c)
     (maxTCPCongestionWindow c) (numConnections c) (congestionWindowCount c)
     (initialCongestionWindow c) (initialMaxCongestionWindow c).

Definition RetransmissionDelay (rtt : RTTStats.t) : Z :=
  if RTTStats.SmoothedRTT rtt =? 0 then 0
  else i64 (RTTStats.SmoothedRTT rtt + i64 (RTTStats.MeanDeviation rtt * 4)).

End cubicSender.
Import cubicSender.

(** The Cubic sender as the handler's congestion controller. *)
#[export] Instance cubic_send_algorithm (Cbrt : float -> float) : SendAlgorithm cubicSender.t := {|
  SentPackets.OnPacketSent c _ _ _ number bytes retransmittable := (cubicSender.OnPacketSent c number bytes retransmittable).2;
  SentPackets.GetCongestionWindow := cubicSender.GetCongestionWindow;
  SentPackets.MaybeExitSlowStart := cubicSender.MaybeExitSlowStart;
  SentPackets.OnPacketAcked := cubicSender.OnPacketAcked Cbrt;
  SentPackets.OnPacketLost := cubicSender.OnPacketLost;
  SentPackets.OnRetransmissionTimeout := cubicSender.OnRetransmissionTimeout;
  SentPackets.RetransmissionDelay _ rtt := cubicSender.RetransmissionDelay rtt;
  SentPackets.CSmoothedRTT _ rtt := RTTStats.SmoothedRTT rtt;
  SentPackets.BandwidthEstimate := cubicSender.BandwidthEstimate;
  SentPackets.SetUtilityControl c _ _ := c;
|}.

(** ** The loop of Cubic *)

Lemma of_Z32_bounds n k : 0 <= k <= 100 -> 0 <= n <= 2 ^ k ->
  valid 24 128 (of_Z32 n) /\ (IZR (Z.min n (2 ^ 24)) <= val (of_Z32 n) <= IZR (2 ^ k))%R.
Proof.
  intros Hk Hn. assert (IZR n * bp 0 = IZR n)%R as H0 by (rewrite (bp_IZR 0) by lia; change (2 ^ 0) with 1; lra).
  assert (0 <= IZR n <= IZR (2 ^ k))%R as Hb by (split; apply IZR_le; lia).
  assert (rounds 24 128 (IZR n * bp 0) (of_Z32 n)) as Hr.
  { apply binary_normalize_rounds; [lia|lia|]. rewrite H0, Rabs_right by lra. unfold maxval.
    assert (IZR (2 ^ k) <= bp (128 - 24))%R as Hm by (rewrite <- bp_IZR by lia; apply bp_le; lia).
    pose proof (bp_pos (128 - 24)). assert (1 <= IZR (2 ^ 24 - 1))%R by (apply IZR_le; lia). nra. }
  rewrite H0 in Hr. split; [by eapply rounds_valid|split].
  - apply (rounds_ge _ _ _ _ _ Hr); [apply repr_IZR; lia|]. apply IZR_le. lia.
  - apply (rounds_le _ _ _ _ _ Hr); [|lra]. exists 1, k.
    rewrite <- bp_IZR by lia. unfold emin. split_and!; [lra|lia|lia].
Qed.

Lemma alpha_bounds : valid 24 128 (Cubic.alpha 2) /\ (/ 2 <= val (Cubic.alpha 2) <= 1)%R.
Proof.
  assert (valid 24 128 (Cubic.alpha 2)) as Ha by (vm_compute; done). split; [done|].
  assert (valid 24 128 (lit32 1 2)) by (vm_compute; done). assert (valid 24 128 (of_Z32 1)) by (vm_compute; done).
  assert (val (lit32 1 2) = / 2)%R as <-.
  { change (lit32 1 2) with (S754_finite false 8388608 (-24)). cbn [val].
    assert (bp (-24) * bp 24 = 1)%R as Hb by (rewrite <- bp_add; apply (bp_IZR 0); lia).
    rewrite (bp_IZR 24) in Hb by lia. change (2 ^ 24) with 16777216 in Hb. lra. }
  destruct (of_Z32_bounds 1 0) as [_ [_ H1]]; [lia|cbn; lia|].
  assert (val (lit32 1 2) <= val (Cubic.alpha 2))%R.
  { apply (fle_spec 24 128); [lia|done|done|]. vm_compute. done. }
  assert (val (Cubic.alpha 2) <= val (of_Z32 1))%R; [|change (2 ^ 0) with 1 in H1; lra].
  apply (fle_spec 24 128); [lia|done|done|]. vm_compute. done.
Qed.

Lemma requiredAckCount_bounds est : 1 <= est <= 2 ^ 62 -> 1 <= Cubic.requiredAckCount 2 est <= 2 ^ 63.
Proof.
  intros He. destruct alpha_bounds as [Ha Hab]. destruct (of_Z32_bounds est 62) as [Hv Hb]; [lia|lia|].
  unfold Cubic.requiredAckCount. generalize dependent (Cubic.alpha 2). intros a Ha Hab.
  assert (1 <= val (of_Z32 est))%R by (apply (Rle_trans _ (IZR (Z.min est (2 ^ 24)))); [apply IZR_le; lia|lra]).
  assert (1 <= val (of_Z32 est) / val a <= IZR (2 ^ 63))%R as Hq.
  { change (2 ^ 63) with (2 ^ 62 * 2). rewrite mult_IZR.
    assert (1 <= / val a <= 2)%R.
    { split; [rewrite <- Rinv_1; apply Rinv_le_contravar; lra|].
      rewrite <- (Rinv_inv 2). apply Rinv_le_contravar; lra. }
    unfold Rdiv. nra. }
  assert (rounds 24 128 (val (of_Z32 est) / val a) (of_Z32 est / a)%f32) as Hr.
  { apply SFdiv_rounds; [lia|lia|done|done|lra|]. rewrite Rabs_right by lra. unfold maxval.
    assert (IZR (2 ^ 63) <= bp (128 - 24))%R by (rewrite <- bp_IZR by lia; apply bp_le; lia).
    pose proof (bp_pos (128 - 24)). assert (1 <= IZR (2 ^ 24 - 1))%R by (apply IZR_le; lia). nra. }
  assert (1 <= val (of_Z32 est / a)%f32)%R as Hlo.
  { apply (rounds_ge _ _ _ _ _ Hr); [apply (repr_IZR 24 128 eq_refl eq_refl 1); lia|lra]. }
  assert (val (of_Z32 est / a)%f32 <= IZR (2 ^ 63))%R as Hhi.
  { apply (rounds_le _ _ _ _ _ Hr); [|lra]. exists 1, 63.
    rewrite <- bp_IZR by lia. unfold emin. split_and!; [lra|lia|lia]. }
  assert (1 <= trunc (of_Z32 est / a)%f32) by (apply trunc_ge; lra).
  assert (trunc (of_Z32 est / a)%f32 <= 2 ^ 63) by (apply trunc_le; lra).
  unfold to_uint64. rewrite u64_small; lia.
Qed.

Lemma tcp_loop_spec fuel : forall acked est,
  0 <= acked < Z.of_nat fuel -> 1 <= est -> est + acked < 2 ^ 62 ->
  let '(acked', est') := Cubic.tcp_loop fuel 2 acked est in
  0 <= acked' < Cubic.requiredAckCount 2 est' /\ est <= est' /\ est' + acked' <= est + acked.
Proof.
  induction fuel as [|fuel IH]; intros acked est Ha He Hs; [lia|]. cbn [Cubic.tcp_loop].
  pose proof (requiredAckCount_bounds est ltac:(lia)) as Hr.
  destruct (Z.ltb_spec acked (Cubic.requiredAckCount 2 est)) as [|Hge]; [lia|].
  rewrite (u64_small (acked - _)), (u64_small (est + 1)) by lia.
  specialize (IH (acked - Cubic.requiredAckCount 2 est) (est + 1) ltac:(lia) ltac:(lia) ltac:(lia)).
  destruct (Cubic.tcp_loop _ _ _ _). lia.
Qed.

(** More rounds than the loop needs change nothing. *)
Lemma tcp_loop_more k fuel : forall acked est,
  let '(acked', est') := Cubic.tcp_loop fuel 2 acked est in
  acked' < Cubic.requiredAckCount 2 est' ->
  Cubic.tcp_loop (fuel + k) 2 acked est = (acked', est').
Proof.
  induction fuel as [|fuel IH]; intros acked est; cbn [Cubic.tcp_loop Nat.add].
  - intros H. destruct k; [done|]. cbn [Cubic.tcp_loop]. by rewrite (proj2 (Z.ltb_lt _ _) H).
  - destruct (Z.ltb_spec acked (Cubic.requiredAckCount 2 est)) as [Hlt|Hge]; [done|]. apply IH.
Qed.

(** The loop with which Cubic tracks the window of a Reno connection ends: the rounds the
    model allows are enough to reach its exit condition, for every estimate and count of
    acknowledged packets that do not come close to overflowing. *)
Theorem cubic_loop_terminates acked est k :
  0 <= acked -> 1 <= est -> est + acked < 2 ^ 62 ->
  let fuel := S (S (Z.to_nat acked)) in
  let '(acked', est') := Cubic.tcp_loop fuel 2 acked est in
  acked' < Cubic.requiredAckCount 2 est'
  /\ Cubic.tcp_loop (fuel + k) 2 acked est = (acked', est').
Proof.
  intros Ha He Hs fuel. pose proof (tcp_loop_spec fuel acked est ltac:(lia) He Hs) as H.
  pose proof (tcp_loop_more k fuel acked est) as Hm. destruct (Cubic.tcp_loop fuel 2 acked est).
  split; [lia|]. apply Hm. lia.
Qed.

Lemma cubic_loop_terminates_witness :
  Cubic.tcp_loop (52 + 7) 2 50 10 = (4, 14).
Proof.
  pose proof (cubic_loop_terminates 50 10 7 ltac:(lia) ltac:(lia) ltac:(lia)) as H.
  vm_compute in H. exact (proj2 H).
Defined.

(** ** Bounds of the window *)

Inductive op : Type :=
| Sent (number bytes : Z) (retransmittable : bool)
| Exit (rtt : RTTStats.t)
| Acked (rtt : RTTStats.t) (now number bytes inFlight : Z)
| Lost (number bytes inFlight : Z)
| Timeout (retransmitted : bool)
| Migrate
| LargeReduction (enabled : bool).

Definition apply (Cbrt : float -> float) (c : t) (o : op) : t :=
  match o with
  | Sent n b r => (OnPacketSent c n b r).2
  | Exit rtt => MaybeExitSlowStart c rtt
  | Acked rtt now n b f => OnPacketAcked Cbrt c rtt now n b f
  | Lost n b f => OnPacketLost c n b f
  | Timeout r => OnRetransmissionTimeout c r
  | Migrate => OnConnectionMigration c
  | LargeReduction e => SetSlowStartLargeReduction c e
  end.

Definition run (Cbrt : float -> float) (c : t) (ops : list op) : t := fold_left (apply Cbrt) ops c.

(** The estimate of the Reno window is at least the minimum once there is one, and grows by
    at most the packets acknowledged. *)
Definition cubic_ok (n : Z) (q : Cubic.t) : Prop :=
  Cubic.numConnections q = 2 /\ 0 <= Cubic.ackedPacketsCount q /\ 0 <= Cubic.estimatedTCPcongestionWindow q
  /\ Cubic.estimatedTCPcongestionWindow q + Cubic.ackedPacketsCount q <= 2500 + n
  /\ (Cubic.lastCongestionWindow q <> 0 \/ Cubic.epoch q <> None -> 2 <= Cubic.estimatedTCPcongestionWindow q).

Definition window_ok (w : Z) : Prop := 2 <= w <= 2500.

Record sender_ok (n : Z) (c : t) : Prop := {
  ok_window : window_ok (congestionWindow c);
  ok_threshold : 0 <= slowstartThreshold c <= 2500;
  ok_min : minCongestionWindow c = 2;
  ok_max : maxTCPCongestionWindow c = 2500;
  ok_initial : initialCongestionWindow c = 32 /\ initialMaxCongestionWindow c = 2500;
  ok_connections : numConnections c = 2;
  ok_cubic : cubic_ok n (cubic c);
}.

Lemma beta_shrinks w : 0 <= w <= 2500 -> 0 <= to_uint64 (of_Z32 w * Cubic.beta 2)%f32 <= w.
Proof.
  intros Hw.
  assert (forallb (fun k => let w := Z.of_nat k in
            (0 <=? to_uint64 (of_Z32 w * Cubic.beta 2)%f32) && (to_uint64 (of_Z32 w * Cubic.beta 2)%f32 <=? w))
          (seq 0 2501) = true) as H by (vm_compute; reflexivity).
  rewrite forallb_forall in H. specialize (H (Z.to_nat w)). rewrite in_seq, Z2Nat.id in H by lia.
  specialize (H ltac:(lia)). apply andb_prop in H as [H1%Z.leb_le H2%Z.leb_le]. done.
Qed.

Lemma start_epoch_ok Cbrt q w now n :
  cubic_ok n q -> window_ok w -> 0 <= n ->
  exists a e e' app org tto,
    Cubic.start_epoch Cbrt q w now
    = Cubic.Mk 2 (Some e') app now w (Cubic.lastMaxCongestionWindow q) a e org tto (Cubic.lastTargetCongestionWindow q)
    /\ 0 <= a /\ 2 <= e /\ e + a <= 2500 + Z.max 1 n.
Proof.
  intros (Hn & Ha & He & Hs & H2) Hw Hb. unfold Cubic.start_epoch, window_ok in *.
  destruct (Cubic.epoch q) as [e0|] eqn:Hep.
  - assert (2 <= Cubic.estimatedTCPcongestionWindow q) by (apply H2; by right).
    destruct (Cubic.appLimitedStartTime q); rewrite Hn; do 6 eexists; (split; [done|lia]).
  - rewrite Hn. do 6 eexists; (split; [done|lia]).
Qed.

Lemma after_ack_ok Cbrt q w delayMin now n w' q' :
  cubic_ok n q -> window_ok w -> 0 <= n < 2 ^ 60 ->
  Cubic.CongestionWindowAfterAck Cbrt q w delayMin now = (w', q') -> 2 <= w' /\ cubic_ok (n + 1) q'.
Proof.
  intros Hq Hw Hb. unfold Cubic.CongestionWindowAfterAck. cbn zeta.
  set (q1 := Cubic.Mk _ _ _ _ _ _ _ _ _ _ _).
  assert (cubic_ok (n + 1) q1) as Hq1.
  { destruct Hq as (Hn & Ha & He & Hs & H2). unfold q1, cubic_ok; cbn. rewrite u64_small by lia. split_and!; try lia; done. }
  clearbody q1. case_match eqn:Hearly.
  - intros [= <- <-]. split; [|done]. apply andb_prop in Hearly as [Hl%Z.eqb_eq _].
    destruct Hq1 as (_ & _ & _ & _ & H2). unfold window_ok in Hw.
    assert (2 <= Cubic.estimatedTCPcongestionWindow q1) by (apply H2; left; lia).
    unfold MaxPacketNumber. destruct (Z.ltb_spec (Cubic.estimatedTCPcongestionWindow q1) (Cubic.lastTargetCongestionWindow q1)); lia.
  - destruct (start_epoch_ok Cbrt q1 w now (n + 1) Hq1 Hw ltac:(lia)) as (a & e & e' & app & org & tto & -> & Ha & He & Hs).
    cbn [Cubic.numConnections Cubic.ackedPacketsCount Cubic.estimatedTCPcongestionWindow].
    pose proof (tcp_loop_spec (S (S (Z.to_nat a))) a e ltac:(lia) ltac:(lia) ltac:(lia)) as Hl.
    destruct (Cubic.tcp_loop _ _ _ _) as [a2 e2]. intros [= <- <-].
    unfold cubic_ok. cbn -[Cubic.cubic_target].
    destruct (Z.ltb_spec (Cubic.cubic_target (Cubic.Mk 2 (Some e') app now w (Cubic.lastMaxCongestionWindow q1) a e org tto
      (Cubic.lastTargetCongestionWindow q1)) now delayMin) e2); split_and!; lia.
Qed.

Lemma cubic_ok_mono n n' q : cubic_ok n q -> n <= n' -> cubic_ok n' q.
Proof. intros (H1 & H2 & H3 & H4 & H5) Hn. unfold cubic_ok. split_and!; try done; lia. Qed.

Lemma cubic_reset_ok n q : cubic_ok n q -> 0 <= n -> cubic_ok n (Cubic.Reset q).
Proof. intros (H1 & _) Hn. unfold cubic_ok; cbn. split_and!; try done; try lia. by intros []. Qed.

(** The invariant depends on the window, the threshold and Cubic only. *)
Lemma sender_ok_update n n' c c' :
  sender_ok n c -> window_ok (congestionWindow c') -> 0 <= slowstartThreshold c' <= 2500 ->
  cubic_ok n' (cubic c') ->
  (minCongestionWindow c', maxTCPCongestionWindow c', initialCongestionWindow c', initialMaxCongestionWindow c', numConnections c')
  = (minCongestionWindow c, maxTCPCongestionWindow c, initialCongestionWindow c, initialMaxCongestionWindow c, numConnections c) ->
  sender_ok n' c'.
Proof.
  intros [] Hw Ht Hq [= H1 H2 H3 H4 H5]. destruct ok_initial0.
  split; rewrite ?H1, ?H2, ?H3, ?H4, ?H5; done.
Qed.

Lemma maybeIncreaseCwnd_ok Cbrt n c rtt now f :
  sender_ok n c -> 0 <= n < 2 ^ 60 -> sender_ok (n + 1) (maybeIncreaseCwnd Cbrt c rtt now f).
Proof.
  intros Hc Hn. pose proof Hc as [Hw Ht _ Hm _ _ Hq].
  assert (cubic_ok (n + 1) (cubic c)) as Hq' by (eapply cubic_ok_mono; [done|lia]).
  unfold maybeIncreaseCwnd. destruct (isCwndLimited c f); cbn [negb].
  2: { eapply sender_ok_update; [done|done|done| |done]. cbn. unfold Cubic.OnApplicationLimited.
       destruct Hq' as (? & ? & ? & ? & ?). by destruct (Cubic.appLimitedStartTime (cubic c)). }
  destruct (Z.leb_spec (maxTCPCongestionWindow c) (congestionWindow c)) as [|Hlt].
  { by eapply sender_ok_update. }
  unfold window_ok in Hw. rewrite Hm in Hlt.
  assert (window_ok (u64 (congestionWindow c + 1))) as Hinc by (unfold window_ok; rewrite u64_small; lia).
  destruct (InSlowStart c); [by eapply sender_ok_update|].
  destruct (reno c); [destruct (congestionWindow c <=? _); by eapply sender_ok_update|].
  destruct (Cubic.CongestionWindowAfterAck _ _ _ _ _) as [w' q'] eqn:Ha.
  destruct (after_ack_ok _ _ _ _ _ n _ _ Hq Hw Hn Ha) as [Hw' Hq''].
  eapply sender_ok_update; [done| |done|done|done].
  cbn. unfold MinPacketNumber, window_ok. rewrite Hm. destruct (Z.ltb_spec 2500 w'); lia.
Qed.

Lemma reno_beta c : RenoBeta c = Cubic.beta (numConnections c).
Proof. reflexivity. Qed.

Lemma OnPacketLost_ok n c p b f : sender_ok n c -> 0 <= n -> sender_ok (n + 1) (OnPacketLost c p b f).
Proof.
  intros Hc Hn. pose proof Hc as [Hw Ht Hmin Hm _ Hk Hq]. unfold window_ok in *.
  assert (cubic_ok (n + 1) (cubic c)) as Hq' by (eapply cubic_ok_mono; [done|lia]).
  unfold OnPacketLost, same_event. destruct (p <=? _).
  - destruct (lastCutbackExitedSlowstart c); cbn [negb]; [|by eapply sender_ok_update].
    change (slowStartLargeReduction (set_loss_stats c _ _ _)) with (slowStartLargeReduction c).
    destruct (slowStartLargeReduction c); cbn [negb]; [|by eapply sender_ok_update].
    cbn [congestionWindow minCongestionWindow set_loss_stats]. rewrite Hmin.
    set (w := if _ || _ then _ else _). assert (window_ok w).
    { unfold w, window_ok, MaxPacketNumber. rewrite (u64_small (congestionWindow c - 1)) by lia.
      destruct (_ || _); [|lia]. destruct (Z.ltb_spec 2 (congestionWindow c - 1)); lia. }
    eapply sender_ok_update; [done|done|unfold window_ok in *; cbn; lia|done|done].
  - assert (forall w q, cutback (set_loss_stats c (if InSlowStart c then u64 (slowstartPacketsLost c + 1)
              else slowstartPacketsLost c) (slowstartBytesLost c) (InSlowStart c)) = (w, q) ->
            0 <= w <= 2500 /\ cubic_ok (n + 1) q) as Hcut.
    { intros w q. unfold cutback. cbn [reno cubic congestionWindow slowStartLargeReduction set_loss_stats]. pose proof (beta_shrinks (congestionWindow c) ltac:(lia)) as Hb.
      destruct (_ && _).
      { intros [= <- <-]. split; [rewrite u64_small; lia|done]. }
      destruct (reno c).
      { intros [= <- <-]. split; [|done]. rewrite reno_beta. cbn [numConnections set_loss_stats]. by rewrite Hk; lia. }
      destruct Hq' as (H1 & H2 & H3 & H4 & H5). unfold Cubic.CongestionWindowAfterPacketLoss.
      rewrite H1. intros [= <- <-]. split; [lia|]. unfold cubic_ok; cbn. split_and!; try done.
      intros [H|H]; [apply H5; by left|done]. }
    destruct (cutback _) as [w q]. destruct (Hcut w q eq_refl) as [Hw' Hq''].
    cbn [minCongestionWindow set_loss_stats]. rewrite Hmin.
    eapply sender_ok_update; [done| | |done|done]; unfold window_ok; cbn; destruct (Z.ltb_spec w 2); lia.
Qed.

Lemma apply_ok Cbrt n c o : sender_ok n c -> 0 <= n < 2 ^ 60 -> sender_ok (n + 1) (apply Cbrt c o).
Proof.
  intros Hc Hn. pose proof Hc as [Hw Ht Hmin Hm [Hi Him] Hk Hq].
  assert (cubic_ok (n + 1) (cubic c)) as Hq' by (eapply cubic_ok_mono; [done|lia]).
  destruct o as [p b []|rtt|rtt now p b f|p b f|[]| |e]; cbn [apply];
    try (by eapply sender_ok_update); try (by apply OnPacketLost_ok; [|lia]).
  - unfold MaybeExitSlowStart. destruct (InSlowStart c); [|by eapply sender_ok_update].
    destruct (HybridSlowStart.ShouldExitSlowStart _ _ _ _) as [[] h]; (eapply sender_ok_update; [done|done| |done|done]).
    + cbn. unfold window_ok in Hw. lia.
    + done.
  - unfold OnPacketAcked. set (c1 := set_numbers c _ _ _).
    assert (sender_ok n c1) as Hc1 by (by eapply sender_ok_update).
    destruct (InRecovery c1); [by eapply sender_ok_update|].
    pose proof (maybeIncreaseCwnd_ok Cbrt n c1 rtt now f Hc1 Hn) as Hc2.
    destruct (InSlowStart _); [|done]. pose proof Hc2 as []. by eapply sender_ok_update.
  - unfold window_ok in *. eapply sender_ok_update; [done| | | |done]; cbn.
    + rewrite Hmin. unfold window_ok. lia.
    + split; [apply Z.div_pos; lia|]. apply Z.div_le_upper_bound; lia.
    + apply cubic_reset_ok; [done|lia].
  - split; cbn; rewrite ?Hi, ?Him; try done; try lia.
    apply cubic_reset_ok; [done|lia].
Qed.

Lemma run_ok Cbrt ops : forall n c,
  sender_ok n c -> 0 <= n -> n + Z.of_nat (length ops) < 2 ^ 60 ->
  sender_ok (n + Z.of_nat (length ops)) (run Cbrt c ops).
Proof.
  induction ops as [|o ops IH]; intros n c Hc Hn Hl; cbn [length run fold_left] in *.
  - by rewrite Z.add_0_r.
  - rewrite Nat2Z.inj_succ in *.
    replace (n + Z.succ (Z.of_nat (length ops))) with (n + 1 + Z.of_nat (length ops)) by lia.
    apply IH; [apply apply_ok; [done|lia]|lia|lia].
Qed.

Lemma new_sender_ok reno : sender_ok 0 (NewCubicSender reno InitialCongestionWindow DefaultMaxCongestionWindow).
Proof.
  split; cbn; unfold window_ok, cubic_ok, InitialCongestionWindow, DefaultMaxCongestionWindow;
    try lia; try done. cbn. split_and!; try lia; [done|]. by intros [].
Qed.

(** The window of a Cubic sender stays between two packets and the maximum of 2500, in
    every sequence of events, with Reno or Cubic growth and with any cube root. *)
Theorem cubic_window_bounds Cbrt reno ops :
  Z.of_nat (length ops) < 2 ^ 60 ->
  window_ok (congestionWindow
    (run Cbrt (NewCubicSender reno InitialCongestionWindow DefaultMaxCongestionWindow) ops)).
Proof.
  intros Hl. eapply ok_window, (run_ok _ _ 0); [apply new_sender_ok|lia|lia].
Qed.

Lemma cubic_window_bounds_witness :
  window_ok (congestionWindow (run (fun x => x)
    (NewCubicSender false InitialCongestionWindow DefaultMaxCongestionWindow)
    [Sent 1 1400 true; Lost 1 1400 0; Timeout true])).
Proof. apply (cubic_window_bounds (fun x => x) false [Sent 1 1400 true; Lost 1 1400 0; Timeout true]). cbn. lia. Defined.

(** ** Loss events *)

Lemma beta_shrinks_strictly w : 2 < w <= 2500 ->
  Z.max 2 (to_uint64 (of_Z32 w * Cubic.beta 2)%f32) < w.
Proof.
  intros Hw.
  assert (forallb (fun k => let w := Z.of_nat k in Z.max 2 (to_uint64 (of_Z32 w * Cubic.beta 2)%f32) <? w)
          (seq 3 2498) = true) as H by (vm_compute; reflexivity).
  rewrite forallb_forall in H. specialize (H (Z.to_nat w)). rewrite in_seq, Z2Nat.id in H by lia.
  apply Z.ltb_lt, H. lia.
Qed.

(** The losses of packets sent before a cut leave the window alone. *)
Lemma later_losses_keep ls : forall c,
  slowStartLargeReduction c = false ->
  Forall (fun l => l.1.1 <= largestSentAtLastCutback c) ls ->
  congestionWindow (fold_left (fun c l => OnPacketLost c l.1.1 l.1.2 l.2) ls c) = congestionWindow c.
Proof.
  induction ls as [|[[p b] f] ls IH]; intros c Hr Hls; [done|]. inversion Hls as [|? ? Hp Hls']; subst.
  cbn [fold_left fst snd] in *. unfold OnPacketLost at 2. rewrite (proj2 (Z.leb_le _ _) Hp). unfold same_event.
  destruct (lastCutbackExitedSlowstart c); cbn [negb]; [|by apply IH].
  cbn [slowStartLargeReduction set_loss_stats]. rewrite Hr. cbn [negb]. by rewrite IH.
Qed.

(** Losses in packets already sent are one loss event: the first one cuts the window
    (by the backoff factor, to two packets at least), the losses of other packets sent
    before it was detected do not cut it again. *)
Theorem losses_cut_once Cbrt ops p b f ls :
  let c := run Cbrt (NewCubicSender false InitialCongestionWindow DefaultMaxCongestionWindow) ops in
  Z.of_nat (length ops) < 2 ^ 60 -> slowStartLargeReduction c = false ->
  largestSentAtLastCutback c < p -> 2 < congestionWindow c ->
  Forall (fun l => l.1.1 <= largestSentPacketNumber c) ls -> reno c = false ->
  let c' := fold_left (fun c l => OnPacketLost c l.1.1 l.1.2 l.2) ls (OnPacketLost c p b f) in
  congestionWindow c' = Z.max 2 (to_uint64 (of_Z32 (congestionWindow c) * Cubic.beta 2)%f32)
  /\ congestionWindow c' < congestionWindow c.
Proof.
  intros c Hl Hr Hp Hw Hls Hre c'.
  assert (sender_ok (0 + Z.of_nat (length ops)) c) as [[_ Hmax] _ Hmin _ _ _ (Hk & _)]
    by (apply run_ok; [apply new_sender_ok|lia|lia]).
  assert (congestionWindow c' = Z.max 2 (to_uint64 (of_Z32 (congestionWindow c) * Cubic.beta 2)%f32)) as Heq.
  { unfold c'. clearbody c. rewrite later_losses_keep.
    - unfold OnPacketLost. destruct (Z.leb_spec p (largestSentAtLastCutback c)); [lia|].
      unfold cutback. cbn [slowStartLargeReduction set_loss_stats reno cubic congestionWindow minCongestionWindow].
      rewrite Hr, Hre. cbn [andb]. unfold Cubic.CongestionWindowAfterPacketLoss. rewrite Hk. cbn [congestionWindow set_numbers set_window].
      rewrite Hmin. destruct (Z.ltb_spec (to_uint64 (of_Z32 (congestionWindow c) * Cubic.beta 2)%f32) 2); lia.
    - unfold OnPacketLost. destruct (Z.leb_spec p (largestSentAtLastCutback c)); [lia|]. by destruct (cutback _).
    - unfold OnPacketLost. destruct (Z.leb_spec p (largestSentAtLastCutback c)); [lia|]. by destruct (cutback _). }
  rewrite Heq. split; [done|]. apply beta_shrinks_strictly. lia.
Qed.

Definition loss_events : list op := [Sent 1 1400 true; Sent 2 1400 true; Sent 3 1400 true].

Lemma losses_cut_once_witness :
  let c := run (fun x => x) (NewCubicSender false InitialCongestionWindow DefaultMaxCongestionWindow) loss_events in
  let c' := fold_left (fun c l => OnPacketLost c l.1.1 l.1.2 l.2) [(3, 1400, 0)] (OnPacketLost c 1 1400 0) in
  congestionWindow c' = Z.max 2 (to_uint64 (of_Z32 (congestionWindow c) * Cubic.beta 2)%f32)
  /\ congestionWindow c' < congestionWindow c.
Proof.
  simple refine (losses_cut_once (fun x => x) loss_events 1 1400 0 [(3, 1400, 0)] _ _ _ _ _ _).
  - cbn. lia.
  - vm_compute. reflexivity.
  - vm_compute. reflexivity.
  - vm_compute. reflexivity.
  - constructor; [vm_compute; discriminate|constructor].
  - vm_compute. reflexivity.
Defined.

(** ** The epoch after an application-limited period *)

Definition jump_events : list op :=
  [Sent 1 1460 true; Acked RTTStats.NewRTTStats 0 1 1460 0;
   Sent 2 1460 true; Sent 3 1460 true; Lost 2 1460 1460; Sent 4 1460 true; Lost 4 1460 0;
   Sent 5 1460 true; Sent 6 1460 true; Acked RTTStats.NewRTTStats (10 * Second) 5 1460 32120].

(** An application-limited period that began before a loss is added to the epoch that
    starts after it.  The epoch then lies in the future, the cubic function of a negative time
    is subtracted from the origin and wraps around, and a single acknowledgement raises the
    window from 22 packets to the maximum of 2500. *)
Theorem cubic_window_jump Cbrt :
  let c := run Cbrt (NewCubicSender false InitialCongestionWindow DefaultMaxCongestionWindow) jump_events in
  congestionWindow c = 22
  /\ congestionWindow (apply Cbrt c (Acked RTTStats.NewRTTStats (10 * Second + 100 * Millisecond) 6 1460 32120)) = 2500.
Proof. vm_compute. split; reflexivity. Qed.
