(* ===== verification/Olia.v ===== *)
(** * Coupled congestion control of several paths

    Models [congestion/olia.go] and [congestion/olia_sender.go].  The senders of a session
    share one map from paths to senders, which every sender reads and whose OLIA parameters
    it writes; here the map is the state ([store]) and an operation of the sender of one path
    takes and returns it.  A sender's RTT statistics are those of its path and live in the
    store with it.  Go iterates over a map in any order: the one loop whose result depends on
    it takes the order as an argument.

    The 4D-MAP extension scales the growth of the window by [utilityGain] and its cut by
    [utilityBackoff].  The theorems: windows, gains and backoffs stay within their bounds
    whatever the controller asks for, neutral utility is plain OLIA, and OLIA moves window
    between paths without creating any: its increments [epsilon] sum to zero. *)

From Stdlib Require Import ZArith Reals Lra Floats.SpecFloat.
From stdpp Require Import base numbers list option gmap.
From S2P Require Import Prelude GoFloat FloatFacts RttStats SentPackets Congestion.

Local Open Scope Z_scope.

(** ** OLIA *)

Module Olia.

Definition scale : Z := 10.

Record t : Type := Mk {
  loss1 : Z;
  loss2 : Z;
  loss3 : Z;
  epsilonNum : Z;
  epsilonDen : Z;
  sndCwndCnt : Z;
}.

Definition NewOlia (ackedBytes : Z) : t := Mk ackedBytes ackedBytes ackedBytes 0 1 0.

Definition oliaScale (v : Z) : Z := u64 (Z.shiftl v scale).

Definition Reset : t := Mk 0 0 0 0 1 0.

Definition SmoothedBytesBetweenLosses (o : t) : Z :=
  Z.max (u64 (loss3 o - loss2 o)) (u64 (loss2 o - loss1 o)).

Definition UpdateAckedSinceLastLoss (o : t) (ackedBytes : Z) : t :=
  Mk (loss1 o) (loss2 o) (u64 (loss3 o + ackedBytes)) (epsilonNum o) (epsilonDen o) (sndCwndCnt o).

Definition OnPacketLost (o : t) : t :=
  Mk (loss2 o) (loss3 o) (loss3 o) (epsilonNum o) (epsilonDen o) (sndCwndCnt o).

Definition set_count (o : t) (n : Z) : t :=
  Mk (loss1 o) (loss2 o) (loss3 o) (epsilonNum o) (epsilonDen o) n.

Definition set_epsilon (o : t) (num den : Z) : t :=
  Mk (loss1 o) (loss2 o) (loss3 o) num den (sndCwndCnt o).

(** The counter of fractions of a packet after an acknowledgement. *)
Definition next_count (o : t) (currentCongestionWindow rate cwndScaled : Z) : Z :=
  let incDen := u64 (u64 (epsilonDen o * currentCongestionWindow) * rate) in
  let incDen := if incDen =? 0 then 1 else incDen in
  let square := u64 (u64 (epsilonDen o * cwndScaled) * cwndScaled) in
  let step incNum := i64 (oliaScale incNum / incDen) in
  if epsilonNum o =? -1 then
    if square <? rate
    then i64 (sndCwndCnt o - step (u64 (rate - square)))
    else i64 (sndCwndCnt o + step (u64 (square - rate)))
  else i64 (sndCwndCnt o + step (u64 (u64 (u64 (epsilonNum o) * rate) + square))).

Definition CongestionWindowAfterAck (o : t) (currentCongestionWindow rate cwndScaled : Z) : Z * t :=
  let n := next_count o currentCongestionWindow rate cwndScaled in
  if 2 ^ scale - 1 <=? n then (u64 (currentCongestionWindow + 1), set_count o 0)
  else if n <=? 0 - 2 ^ scale + 1 then (MaxPacketNumber 1 (u64 (currentCongestionWindow - 1)), set_count o 0)
  else (currentCongestionWindow, set_count o n).

End Olia.

(** ** The sender *)

Module OliaSender.

Definition utilityGainMin : float := lit64 80 100.
Definition utilityGainMax : float := lit64 120 100.
Definition utilityBackoffMin : float := lit64 90 100.
Definition utilityBackoffMax : float := lit64 110 100.

Record t : Type := Mk {
  hybridSlowStart : HybridSlowStart.t;
  prr : PrrSender.t;
  rttStats : RTTStats.t;
  slowstartPacketsLost : Z;
  slowstartBytesLost : Z;
  olia : Olia.t;
  largestSentPacketNumber : Z;
  largestAckedPacketNumber : Z;
  largestSentAtLastCutback : Z;
  congestionWindow : Z;
  slowstartThreshold : Z;
  lastCutbackExitedSlowstart : bool;
  slowStartLargeReduction : bool;
  minCongestionWindow : Z;
  maxTCPCongestionWindow : Z;
  numConnections : Z;
  congestionWindowCount : Z;
  initialCongestionWindow : Z;
  initialMaxCongestionWindow : Z;
  utilityGain : float;
  utilityBackoff : float;
  utilitySsAckAccum : float;
}.

(** All senders of a session, by path. *)
Abbreviation store := (gmap Z t).

Definition one : float := of_Z64 1.

Definition NewOliaSender (rtt : RTTStats.t) (initial initialMax : Z) : t :=
  Mk HybridSlowStart.new PrrSender.new rtt 0 0 (Olia.NewOlia 0) 0 0 0 initial initialMax false false
     cubicSender.defaultMinimumCongestionWindow initialMax Cubic.defaultNumConnections 0 initial initialMax
     one one f0.

(** Updates of groups of fields. *)
Definition set_parts (o : t) (h : HybridSlowStart.t) (p : PrrSender.t) (q : Olia.t) : t :=
  Mk h p (rttStats o) (slowstartPacketsLost o) (slowstartBytesLost o) q
     (largestSentPacketNumber o) (largestAckedPacketNumber o) (largestSentAtLastCutback o)
     (congestionWindow o) (slowstartThreshold o) (lastCutbackExitedSlowstart o) (slowStartLargeReduction o)
     (minCongestionWindow o) (maxTCPCongestionWindow o) (numConnections o) (congestionWindowCount o)
     (initialCongestionWindow o) (initialMaxCongestionWindow o)
     (utilityGain o) (utilityBackoff o) (utilitySsAckAccum o).

Definition set_numbers (o : t) (sent acked cutback : Z) : t :=
  Mk (hybridSlowStart o) (prr o) (rttStats o) (slowstartPacketsLost o) (slowstartBytesLost o) (olia o)
     sent acked cutback
     (congestionWindow o) (slowstartThreshold o) (lastCutbackExitedSlowstart o) (slowStartLargeReduction o)
     (minCongestionWindow o) (maxTCPCongestionWindow o) (numConnections o) (congestionWindowCount o)
     (initialCongestionWindow o) (initialMaxCongestionWindow o)
     (utilityGain o) (utilityBackoff o) (utilitySsAckAccum o).

Definition set_window (o : t) (window threshold count : Z) (accum : float) : t :=
  Mk (hybridSlowStart o) (prr o) (rttStats o) (slowstartPacketsLost o) (slowstartBytesLost o) (olia o)
     (largestSentPacketNumber o) (largestAckedPacketNumber o) (largestSentAtLastCutback o)
     window threshold (lastCutbackExitedSlowstart o) (slowStartLargeReduction o)
     (minCongestionWindow o) (maxTCPCongestionWindow o) (numConnections o) count
     (initialCongestionWindow o) (initialMaxCongestionWindow o)
     (utilityGain o) (utilityBackoff o) accum.

Definition set_loss_stats (o : t) (packets bytes : Z) (exited : bool) : t :=
  Mk (hybridSlowStart o) (prr o) (rttStats o) packets bytes (olia o)
     (largestSentPacketNumber o) (largestAckedPacketNumber o) (largestSentAtLastCutback o)
     (congestionWindow o) (slowstartThreshold o) exited (slowStartLargeReduction o)
     (minCongestionWindow o) (maxTCPCongestionWindow o) (numConnections o) (congestionWindowCount o)
     (initialCongestionWindow o) (initialMaxCongestionWindow o)
     (utilityGain o) (utilityBackoff o) (utilitySsAckAccum o).

Definition set_rtt (o : t) (r : RTTStats.t) : t :=
  Mk (hybridSlowStart o) (prr o) r (slowstartPacketsLost o) (slowstartBytesLost o) (olia o)
     (largestSentPacketNumber o) (largestAckedPacketNumber o) (largestSentAtLastCutback o)
     (congestionWindow o) (slowstartThreshold o) (lastCutbackExitedSlowstart o) (slowStartLargeReduction o)
     (minCongestionWindow o) (maxTCPCongestionWindow o) (numConnections o) (congestionWindowCount o)
     (initialCongestionWindow o) (initialMaxCongestionWindow o)
     (utilityGain o) (utilityBackoff o) (utilitySsAckAccum o).

(** A bound on what the utility controller asks for, neutral for NaN and infinities. *)
Definition sanitize (lo hi x : float) : float :=
  if is_nan x || is_inf x then one else math_Min hi (math_Max lo x).

Definition SetUtilityControl (o : t) (gain backoff : float) : t :=
  Mk (hybridSlowStart o) (prr o) (rttStats o) (slowstartPacketsLost o) (slowstartBytesLost o) (olia o)
     (largestSentPacketNumber o) (largestAckedPacketNumber o) (largestSentAtLastCutback o)
     (congestionWindow o) (slowstartThreshold o) (lastCutbackExitedSlowstart o) (slowStartLargeReduction o)
     (minCongestionWindow o) (maxTCPCongestionWindow o) (numConnections o) (congestionWindowCount o)
     (initialCongestionWindow o) (initialMaxCongestionWindow o)
     (sanitize utilityGainMin utilityGainMax gain) (sanitize utilityBackoffMin utilityBackoffMax backoff)
     (utilitySsAckAccum o).

Definition InRecovery (o : t) : bool :=
  (largestAckedPacketNumber o <=? largestSentAtLastCutback o) && negb (largestAckedPacketNumber o =? 0).
Definition GetCongestionWindow (o : t) : Z := u64 (congestionWindow o * DefaultTCPMSS).
Definition GetSlowStartThreshold (o : t) : Z := u64 (slowstartThreshold o * DefaultTCPMSS).
Definition InSlowStart (o : t) : bool := GetCongestionWindow o <? GetSlowStartThreshold o.

Definition TimeUntilSend (o : t) (bytesInFlight : Z) : Z :=
  if InRecovery o
  then PrrSender.TimeUntilSend (prr o) (GetCongestionWindow o) bytesInFlight (GetSlowStartThreshold o)
  else if bytesInFlight <? GetCongestionWindow o then 0 else InfDuration.

Definition OnPacketSent (o : t) (packetNumber bytes : Z) (isRetransmittable : bool) : bool * t :=
  if negb isRetransmittable then (false, o)
  else
    let p := if InRecovery o then PrrSender.OnPacketSent (prr o) bytes else prr o in
    (true, set_numbers (set_parts o (HybridSlowStart.OnPacketSent (hybridSlowStart o) packetNumber) p (olia o))
             packetNumber (largestAckedPacketNumber o) (largestSentAtLastCutback o)).

Definition ExitSlowstart (o : t) : t :=
  set_window o (congestionWindow o) (congestionWindow o) (congestionWindowCount o) f0.

Definition MaybeExitSlowStart (o : t) : t :=
  if InSlowStart o then
    let '(exit, h) := HybridSlowStart.ShouldExitSlowStart (hybridSlowStart o) (RTTStats.LatestRTT (rttStats o))
                        (RTTStats.MinRTT (rttStats o)) (GetCongestionWindow o / DefaultTCPMSS) in
    let o := set_parts o h (prr o) (olia o) in
    if exit then ExitSlowstart o else o
  else o.

Definition isCwndLimited (o : t) (bytesInFlight : Z) : bool :=
  let window := GetCongestionWindow o in
  if window <=? bytesInFlight then true
  else
    let availableBytes := u64 (window - bytesInFlight) in
    let slowStartLimited := InSlowStart o && (window / 2 <? bytesInFlight) in
    slowStartLimited || (availableBytes <=? cubicSender.maxBurstBytes).

(** *** The loops over all senders *)

Definition getMaxCwnd (m : list t) : Z :=
  fold_left (fun best o => MaxPacketNumber best (congestionWindow o)) m 0.

Definition getRate (m : list t) (pathRTT : Z) : Z :=
  let rate := fold_left (fun rate o =>
    let scaledNum := u64 (Olia.oliaScale (congestionWindow o) * u64 pathRTT) in
    let srtt := RTTStats.SmoothedRTT (rttStats o) in
    if negb (srtt =? 0) then u64 (rate + scaledNum / u64 srtt) else rate) m 1 in
  u64 (rate * rate).

(** The square of the smoothed RTT and the bytes between losses, by which paths compare. *)
Definition quality (o : t) : Z * Z :=
  let srtt := RTTStats.SmoothedRTT (rttStats o) in
  (i64 (srtt * srtt), Olia.SmoothedBytesBetweenLosses (olia o)).

Definition at_least (tmp best : Z * Z) : bool :=
  i64 (i64 best.2 * tmp.1) <=? i64 (i64 tmp.2 * best.1).

Definition best_quality (m : list t) : Z * Z :=
  fold_left (fun best o => if at_least (quality o) best then quality o else best) m (0, 0).

(** The numbers of paths with the largest window and of the best paths without it. *)
Definition count_paths (m : list t) (maxCwnd : Z) (best : Z * Z) : Z * Z :=
  fold_left (fun '(M, BNotM) o =>
    if congestionWindow o =? maxCwnd then (u8 (M + 1), BNotM)
    else if at_least (quality o) best then (M, u8 (BNotM + 1)) else (M, BNotM)) m (0, 0).

Definition epsilon_of (n M BNotM maxCwnd : Z) (best : Z * Z) (o : t) : Z * Z :=
  if BNotM =? 0 then (0, 1)
  else if (congestionWindow o <? maxCwnd) && at_least (quality o) best then (1, u32 (u32 n * u32 BNotM))
  else if congestionWindow o =? maxCwnd then (-1, u32 (u32 n * u32 M))
  else (0, 1).

(** [order] is the order in which Go visits the senders when it looks for the best path. *)
Definition getEpsilon (s : store) (order : list t) : store :=
  let m := (map_to_list s).*2 in
  let maxCwnd := getMaxCwnd m in
  let best := best_quality order in
  let '(M, BNotM) := count_paths m maxCwnd best in
  (fun o => let '(num, den) := epsilon_of (Z.of_nat (size s)) M BNotM maxCwnd best o in
            set_parts o (hybridSlowStart o) (prr o) (Olia.set_epsilon (olia o) num den)) <$> s.

(** *** Growth *)

(** Slow start: the gain accumulates, whole packets go to the window.  A round raises the
    window, which the maximum bounds. *)
Fixpoint slow_start_loop (fuel : nat) (max window : Z) (accum : float) : Z * float :=
  match fuel with
  | O => (window, accum)
  | S fuel' =>
      if fle one accum && (window <? max)
      then slow_start_loop fuel' max (u64 (window + 1)) (accum - one)%f64
      else (window, accum)
  end.

(** The change of the window OLIA computes, scaled by the gain. *)
Definition scale_window (o : t) (newCwnd : Z) : Z :=
  let oldCwnd := congestionWindow o in
  let delta := (of_Z64 newCwnd - of_Z64 oldCwnd)%f64 in
  let adjusted := (of_Z64 oldCwnd + delta * utilityGain o)%f64 in
  let rounded := math_Round adjusted in
  to_uint64 (math_Max (of_Z64 (minCongestionWindow o)) (math_Min (of_Z64 (maxTCPCongestionWindow o)) rounded)).

Definition maybeIncreaseCwnd (s : store) (order : list t) (path : Z) (o : t) (bytesInFlight : Z) : store :=
  if negb (isCwndLimited o bytesInFlight) then s
  else if maxTCPCongestionWindow o <=? congestionWindow o then s
  else if InSlowStart o then
    let '(w, a) := slow_start_loop (Z.to_nat (maxTCPCongestionWindow o - congestionWindow o))
                     (maxTCPCongestionWindow o) (congestionWindow o) (utilitySsAckAccum o + utilityGain o)%f64 in
    <[path := set_window o w (slowstartThreshold o) (congestionWindowCount o) a]> s
  else
    let s := getEpsilon s order in
    match s !! path with
    | None => s
    | Some o =>
        let rate := getRate (map_to_list s).*2 (RTTStats.SmoothedRTT (rttStats o)) in
        let cwndScaled := Olia.oliaScale (congestionWindow o) in
        let '(w, q) := Olia.CongestionWindowAfterAck (olia o) (congestionWindow o) rate cwndScaled in
        let newCwnd := MinPacketNumber (maxTCPCongestionWindow o) w in
        <[path := set_window (set_parts o (hybridSlowStart o) (prr o) q) (scale_window o newCwnd)
                    (slowstartThreshold o) (congestionWindowCount o) (utilitySsAckAccum o)]> s
    end.

Definition OnPacketAcked (s : store) (order : list t) (path : Z) (o : t)
    (ackedPacketNumber ackedBytes bytesInFlight : Z) : store :=
  let o := set_numbers o (largestSentPacketNumber o)
             (MaxPacketNumber ackedPacketNumber (largestAckedPacketNumber o)) (largestSentAtLastCutback o) in
  if InRecovery o
  then <[path := set_parts o (hybridSlowStart o) (PrrSender.OnPacketAcked (prr o) ackedBytes) (olia o)]> s
  else
    let o := set_parts o (hybridSlowStart o) (prr o) (Olia.UpdateAckedSinceLastLoss (olia o) ackedBytes) in
    let s := maybeIncreaseCwnd (<[path := o]> s) order path o bytesInFlight in
    match s !! path with
    | Some o =>
        if InSlowStart o
        then <[path := set_parts o (HybridSlowStart.OnPacketAcked (hybridSlowStart o) ackedPacketNumber) (prr o) (olia o)]> s
        else s
    | None => s
    end.

(** *** Losses *)

Definition RenoBeta (o : t) : float :=
  ((of_Z32 (numConnections o) - of_Z32 1 + cubicSender.renoBeta) / of_Z32 (numConnections o))%f32.

(** The factor of a cut, in (0, 1]. *)
Definition effectiveBeta (o : t) : float :=
  let b := (widen (RenoBeta o) * utilityBackoff o)%f64 in
  let b := if flt one b then one else b in
  if fle b f0 || is_nan b || is_inf b then lit64 1 1000000000 else b.

Definition same_event (o : t) (lostBytes : Z) : t :=
  if negb (lastCutbackExitedSlowstart o) then o
  else
    let packets := u64 (slowstartPacketsLost o + 1) in
    let bytes := u64 (slowstartBytesLost o + lostBytes) in
    let o := set_loss_stats o packets bytes (lastCutbackExitedSlowstart o) in
    if negb (slowStartLargeReduction o) then o
    else
      let w := if (packets =? 1) || (u64 (bytes - lostBytes) / DefaultTCPMSS <? bytes / DefaultTCPMSS)
               then MaxPacketNumber (u64 (congestionWindow o - 1)) (minCongestionWindow o)
               else congestionWindow o in
      set_window o w w (congestionWindowCount o) (utilitySsAckAccum o).

Definition cutback (o : t) : Z :=
  if slowStartLargeReduction o && InSlowStart o then u64 (congestionWindow o - 1)
  else to_uint64 (of_Z64 (congestionWindow o) * effectiveBeta o)%f64.

Definition OnPacketLost (o : t) (packetNumber lostBytes bytesInFlight : Z) : t :=
  if packetNumber <=? largestSentAtLastCutback o then same_event o lostBytes
  else
    let packets := if InSlowStart o then u64 (slowstartPacketsLost o + 1) else slowstartPacketsLost o in
    let o := set_loss_stats o packets (slowstartBytesLost o) (InSlowStart o) in
    let w := cutback o in
    let w := if w <? minCongestionWindow o then minCongestionWindow o else w in
    set_numbers
      (set_window (set_parts o (hybridSlowStart o) (PrrSender.OnPacketLost bytesInFlight) (Olia.OnPacketLost (olia o)))
         w w 0 (utilitySsAckAccum o))
      (largestSentPacketNumber o) (largestAckedPacketNumber o) (largestSentPacketNumber o).

Definition SetNumEmulatedConnections (o : t) (n : Z) : t :=
  Mk (hybridSlowStart o) (prr o) (rttStats o) (slowstartPacketsLost o) (slowstartBytesLost o) (olia o)
     (largestSentPacketNumber o) (largestAckedPacketNumber o) (largestSentAtLastCutback o)
     (congestionWindow o) (slowstartThreshold o) (lastCutbackExitedSlowstart o) (slowStartLargeReduction o)
     (minCongestionWindow o) (maxTCPCongestionWindow o) (Z.max n 1) (congestionWindowCount o)
     (initialCongestionWindow o) (initialMaxCongestionWindow o)
     (utilityGain o) (utilityBackoff o) (utilitySsAckAccum o).

Definition OnRetransmissionTimeout (o : t) (packetsRetransmitted : bool) : t :=
  let o := set_numbers o (largestSentPacketNumber o) (largestAckedPacketNumber o) 0 in
  if negb packetsRetransmitted then o
  else
    let o := set_parts o (HybridSlowStart.Restart (hybridSlowStart o)) (prr o) Olia.Reset in
    set_window o (minCongestionWindow o) (congestionWindow o / 2) (congestionWindowCount o) (utilitySsAckAccum o).

Definition OnConnectionMigration (o : t) : t :=
  Mk (HybridSlowStart.Restart (hybridSlowStart o)) PrrSender.new (rttStats o)
     (slowstartPacketsLost o) (slowstartBytesLost o) Olia.Reset 0 0 0
     (initialCongestionWindow o) (initialMaxCongestionWindow o) false (slowStartLargeReduction o)
     (minCongestionWindow o) (initialMaxCongestionWindow o) (numConnections o) 0
     (initialCongestionWindow o) (initialMaxCongestionWindow o)
     (utilityGain o) (utilityBackoff o) f0.

Definition SetSlowStartLargeReduction (o : t) (enabled : bool) : t :=
  Mk (hybridSlowStart o) (prr o) (rttStats o) (slowstartPacketsLost o) (slowstartBytesLost o) (olia o)
     (largestSentPacketNumber o) (largestAckedPacketNumber o) (largestSentAtLastCutback o)
     (congestionWindow o) (slowstartThreshold o) (lastCutbackExitedSlowstart o) enabled
     (minCongestionWindow o) (maxTCPCongestionWindow o) (numConnections o) (congestionWindowCount o)
     (initialCongestionWindow o) (initialMaxCongestionWindow o)
     (utilityGain o) (utilityBackoff o) (utilitySsAckAccum o).

Definition RetransmissionDelay (o : t) : Z := cubicSender.RetransmissionDelay (rttStats o).

Definition BandwidthEstimate (o : t) : Z :=
  let srtt := RTTStats.SmoothedRTT (rttStats o) in
  if srtt =? 0 then 0 else BandwidthFromDelta (GetCongestionWindow o) srtt.

End OliaSender.
Import OliaSender.

(** ** Bounds *)

(** The constants, between small integers. *)
Lemma val_between x a b :
  valid64 x -> Z.abs a < 2 ^ 53 -> Z.abs b < 2 ^ 53 ->
  fle (of_Z64 a) x = true -> fle x (of_Z64 b) = true -> (IZR a <= val x <= IZR b)%R.
Proof.
  intros Hx Ha Hb H1 H2. destruct (of_Z64_exact a Ha) as [Hva Ea]. destruct (of_Z64_exact b Hb) as [Hvb Eb].
  apply (fle64 _ _ Hva Hx) in H1. apply (fle64 _ _ Hx Hvb) in H2. lra.
Qed.

Definition within (lo hi x : float) : Prop := valid64 x /\ (val lo <= val x <= val hi)%R.

Definition gain_ok : float -> Prop := within utilityGainMin utilityGainMax.
Definition backoff_ok : float -> Prop := within utilityBackoffMin utilityBackoffMax.

Lemma sanitize_within lo hi x :
  valid64 lo -> valid64 hi -> valid_binary 53 1024 x = true ->
  fle lo one = true -> fle one hi = true -> within lo hi (sanitize lo hi x).
Proof.
  intros Hlo Hhi Hx H1 H2. assert (valid64 one) as Ho by (vm_compute; done).
  apply (fle64 _ _ Hlo Ho) in H1. apply (fle64 _ _ Ho Hhi) in H2.
  unfold sanitize. destruct (is_nan x || is_inf x) eqn:Hf; [split; [done|lra]|].
  assert (valid64 x) as Hv by (split; [done|unfold is_finite; by rewrite Hf]).
  destruct (math_Max_spec lo x Hlo Hv) as [Hm Em]. destruct (math_Min_spec hi (math_Max lo x) Hhi Hm) as [Hn En].
  split; [done|]. rewrite En, Em. unfold Rmax, Rmin. destruct (Rle_dec (val lo) (val x)), (Rle_dec (val hi) _); lra.
Qed.

Lemma gain_neutral : gain_ok one /\ backoff_ok one.
Proof.
  assert (valid64 one) as Ho by (vm_compute; done).
  assert (valid64 utilityGainMin) by (vm_compute; done). assert (valid64 utilityGainMax) by (vm_compute; done).
  assert (valid64 utilityBackoffMin) by (vm_compute; done). assert (valid64 utilityBackoffMax) by (vm_compute; done).
  split; (split; [done|]); (split; [apply (fle64 _ _)|apply (fle64 _ _)]; try done; vm_compute; done).
Qed.

Lemma sanitize_gain x : valid_binary 53 1024 x = true -> gain_ok (sanitize utilityGainMin utilityGainMax x).
Proof. intros H. apply sanitize_within; try done; vm_compute; done. Qed.

Lemma sanitize_backoff x : valid_binary 53 1024 x = true -> backoff_ok (sanitize utilityBackoffMin utilityBackoffMax x).
Proof. intros H. apply sanitize_within; try done; vm_compute; done. Qed.

Lemma gain_small g : gain_ok g -> valid64 g /\ (0 <= val g <= 2)%R.
Proof.
  intros [Hg Hb]. split; [done|].
  assert (0 <= val utilityGainMin <= 1)%R by (apply (val_between _ 0 1); try done; vm_compute; done).
  assert (1 <= val utilityGainMax <= 2)%R by (apply (val_between _ 1 2); try done; vm_compute; done). lra.
Qed.

Lemma backoff_small g : backoff_ok g -> valid64 g /\ (0 <= val g <= 2)%R.
Proof.
  intros [Hg Hb]. split; [done|].
  assert (0 <= val utilityBackoffMin <= 1)%R by (apply (val_between _ 0 1); try done; vm_compute; done).
  assert (1 <= val utilityBackoffMax <= 2)%R by (apply (val_between _ 1 2); try done; vm_compute; done). lra.
Qed.

(** What the window is scaled to, before it is rounded and clamped. *)
Lemma adjusted_rounds old new g :
  window_ok old -> 0 <= new <= 2500 -> gain_ok g ->
  exists x, ((of_Z64 new - of_Z64 old) * g = x)%f64 /\ valid64 x /\ (Rabs (val x) <= 5000)%R
    /\ rounds64 (IZR old + val x) (of_Z64 old + x)%f64.
Proof.
  intros Ho Hn Hg. unfold window_ok in Ho. destruct (gain_small g Hg) as [Hv Hb].
  destruct (of_Z64_exact old ltac:(lia)) as [Hvo Eo]. destruct (of_Z64_exact new ltac:(lia)) as [Hvn En].
  assert (rounds64 (val (of_Z64 new) - val (of_Z64 old)) (of_Z64 new - of_Z64 old)%f64) as Hd.
  { apply sub64; [done|done|]. apply small64. rewrite Eo, En, <- minus_IZR. rewrite <- abs_IZR. apply IZR_le. lia. }
  rewrite Eo, En, <- minus_IZR in Hd.
  pose proof (rounds_exact _ _ _ _ Hd (repr_int64 (new - old) ltac:(lia))) as Ed.
  pose proof (rounds_valid _ _ _ _ Hd) as Hvd.
  assert (Rabs (IZR (new - old) * val g) <= 5000)%R as Hp.
  { rewrite Rabs_mult, <- abs_IZR, (Rabs_right (val g)) by lra.
    assert (IZR (Z.abs (new - old)) <= IZR 2500)%R by (apply IZR_le; lia).
    assert (0 <= IZR (Z.abs (new - old)))%R by (apply IZR_le; lia). nra. }
  assert (rounds64 (val (of_Z64 new - of_Z64 old)%f64 * val g) ((of_Z64 new - of_Z64 old) * g)%f64) as Hm.
  { apply mul64; [done|done|]. apply small64. rewrite Ed. apply (Rle_trans _ 5000); [done|]. apply IZR_le. lia. }
  rewrite Ed in Hm. eexists. split; [reflexivity|]. split; [by eapply rounds_valid|].
  assert (Rabs (val ((of_Z64 new - of_Z64 old) * g)%f64) <= 5000)%R as Hx.
  { apply Rabs_bounds. apply Rabs_bounds in Hp. split.
    - apply (rounds_ge _ _ _ _ _ Hm); [apply (repr_opp 53 1024 eq_refl); apply (repr_int64 5000); lia|lra].
    - apply (rounds_le _ _ _ _ _ Hm); [apply (repr_int64 5000); lia|lra]. }
  split; [done|]. rewrite <- Eo. apply add64; [done|by eapply rounds_valid|].
  apply small64. rewrite Eo. apply (Rle_trans _ (Rabs (IZR old) + Rabs (val ((of_Z64 new - of_Z64 old) * g)%f64)));
    [apply Rabs_triang|].
  rewrite <- abs_IZR. assert (IZR (Z.abs old) <= IZR 2500)%R by (apply IZR_le; lia).
  apply (Rle_trans _ 7500); [lra|]. apply IZR_le. lia.
Qed.

Lemma scale_window_ok o new :
  window_ok (congestionWindow o) -> minCongestionWindow o = 2 -> maxTCPCongestionWindow o = 2500 ->
  gain_ok (utilityGain o) -> 0 <= new <= 2500 -> window_ok (scale_window o new).
Proof.
  intros Hw Hmin Hmax Hg Hn. unfold scale_window. rewrite Hmin, Hmax.
  destruct (adjusted_rounds _ _ _ Hw Hn Hg) as (x & -> & Hx & Hb & Hr).
  destruct (math_Round_spec _ (rounds_valid _ _ _ _ Hr)) as [Hv _].
  set (r := math_Round _) in *.
  destruct (of_Z64_exact 2 ltac:(lia)) as [H2 E2]. destruct (of_Z64_exact 2500 ltac:(lia)) as [H25 E25].
  destruct (math_Min_spec _ r H25 Hv) as [Hm Em]. destruct (math_Max_spec _ _ H2 Hm) as [HM EM].
  assert (2 <= val (math_Max (of_Z64 2) (math_Min (of_Z64 2500) r)) <= 2500)%R as Hc.
  { rewrite EM, Em, E2, E25. unfold Rmax, Rmin. destruct (Rle_dec 2500 (val r)), (Rle_dec 2 _); lra. }
  assert (2 <= trunc (math_Max (of_Z64 2) (math_Min (of_Z64 2500) r))) by (apply trunc_ge; lra).
  assert (trunc (math_Max (of_Z64 2) (math_Min (of_Z64 2500) r)) <= 2500) by (apply trunc_le; lra).
  unfold window_ok, to_uint64. rewrite u64_small; lia.
Qed.

Lemma effectiveBeta_bounds o :
  numConnections o = 2 -> backoff_ok (utilityBackoff o) ->
  valid64 (effectiveBeta o) /\ (0 <= val (effectiveBeta o) <= 1)%R.
Proof.
  intros Hn Hb. destruct (backoff_small _ Hb) as [Hv Hg]. unfold effectiveBeta.
  assert (widen (RenoBeta o) = widen (Cubic.beta 2)) as -> by (unfold RenoBeta; by rewrite Hn).
  assert (valid64 (widen (Cubic.beta 2))) as Hw by (vm_compute; done).
  assert (0 <= val (widen (Cubic.beta 2)) <= 1)%R as Hwb by (apply (val_between _ 0 1); try done; vm_compute; done).
  set (w := widen (Cubic.beta 2)) in *. clearbody w.
  assert (rounds64 (val w * val (utilityBackoff o)) (w * utilityBackoff o)%f64) as Hr.
  { apply mul64; [done|done|]. apply small64. rewrite Rabs_right by nra. apply (Rle_trans _ 2); [nra|]. apply IZR_le. lia. }
  pose proof (rounds_valid _ _ _ _ Hr) as Hp. destruct (of_Z64_exact 1 ltac:(lia)) as [Ho Eo]. fold one in Ho, Eo.
  assert (0 <= val (w * utilityBackoff o)%f64)%R as H0.
  { apply (rounds_ge _ _ _ _ _ Hr); [apply (repr_int64 0); lia|nra]. }
  set (b := (w * utilityBackoff o)%f64) in *.
  assert (valid64 (if flt one b then one else b) /\ (0 <= val (if flt one b then one else b) <= 1)%R) as [Hc Hcb].
  { destruct (flt one b) eqn:Hlt; [split; [done|lra]|]. apply (flt64_false _ _ Ho Hp) in Hlt. split; [done|lra]. }
  destruct (_ || _ || _); [|done]. split; [vm_compute; done|]. apply (val_between _ 0 1); try done; vm_compute; done.
Qed.

Lemma olia_cutback_ok o :
  window_ok (congestionWindow o) -> numConnections o = 2 -> backoff_ok (utilityBackoff o) -> 0 <= cutback o <= 2500.
Proof.
  intros Hw Hn Hb. unfold cutback, window_ok in *. destruct (_ && _); [rewrite u64_small; lia|].
  destruct (effectiveBeta_bounds o Hn Hb) as [Hv Hbb]. destruct (of_Z64_exact (congestionWindow o) ltac:(lia)) as [Hc Ec].
  assert (0 <= IZR (congestionWindow o) <= 2500)%R by (split; apply IZR_le; lia).
  assert (rounds64 (val (of_Z64 (congestionWindow o)) * val (effectiveBeta o))
            (of_Z64 (congestionWindow o) * effectiveBeta o)%f64) as Hr.
  { apply mul64; [done|done|]. apply small64. rewrite Ec, Rabs_right by nra.
    apply (Rle_trans _ 2500); [nra|]. apply IZR_le. lia. }
  rewrite Ec in Hr. set (x := (of_Z64 (congestionWindow o) * effectiveBeta o)%f64) in *.
  assert (0 <= val x)%R by (apply (rounds_ge _ _ _ _ _ Hr); [apply (repr_int64 0); lia|nra]).
  assert (val x <= 2500)%R by (apply (rounds_le _ _ _ _ _ Hr); [apply (repr_int64 2500); lia|nra]).
  assert (0 <= trunc x) by (apply trunc_ge; lra). assert (trunc x <= 2500) by (apply trunc_le; lra).
  unfold to_uint64. rewrite u64_small; lia.
Qed.

(** ** The invariant of the store *)

Record olia_ok (o : t) : Prop := {
  ok_window : window_ok (congestionWindow o);
  ok_min : minCongestionWindow o = 2;
  ok_max : maxTCPCongestionWindow o = 2500;
  ok_initial : initialCongestionWindow o = 32 /\ initialMaxCongestionWindow o = 2500;
  ok_connections : numConnections o = 2;
  ok_gain : gain_ok (utilityGain o);
  ok_backoff : backoff_ok (utilityBackoff o);
}.

Definition store_ok (s : store) : Prop := map_Forall (fun _ o => olia_ok o) s.

(** The events of a session's congestion control.  [Olia_rtt] is the update of a path's RTT
    statistics; an event of a path that has no sender is none. *)
Inductive event : Type :=
| Olia_new (path : Z) (rtt : RTTStats.t)
| Olia_rtt (path : Z) (rtt : RTTStats.t)
| Olia_sent (path number bytes : Z) (retransmittable : bool)
| Olia_exit (path : Z)
| Olia_acked (path : Z) (order : list t) (number bytes inFlight : Z)
| Olia_lost (path number bytes inFlight : Z)
| Olia_timeout (path : Z) (retransmitted : bool)
| Olia_migrate (path : Z)
| Olia_large (path : Z) (enabled : bool)
| Olia_utility (path : Z) (gain backoff : float).

Definition on_sender (s : store) (path : Z) (f : t -> t) : store :=
  match s !! path with Some o => <[path := f o]> s | None => s end.

Definition handle (s : store) (e : event) : store :=
  match e with
  | Olia_new p rtt => <[p := NewOliaSender rtt InitialCongestionWindow DefaultMaxCongestionWindow]> s
  | Olia_rtt p rtt => on_sender s p (fun o => set_rtt o rtt)
  | Olia_sent p n b r => on_sender s p (fun o => (OnPacketSent o n b r).2)
  | Olia_exit p => on_sender s p MaybeExitSlowStart
  | Olia_acked p order n b f =>
      match s !! p with Some o => OnPacketAcked s order p o n b f | None => s end
  | Olia_lost p n b f => on_sender s p (fun o => OnPacketLost o n b f)
  | Olia_timeout p r => on_sender s p (fun o => OnRetransmissionTimeout o r)
  | Olia_migrate p => on_sender s p OnConnectionMigration
  | Olia_large p e => on_sender s p (fun o => SetSlowStartLargeReduction o e)
  | Olia_utility p g b => on_sender s p (fun o => SetUtilityControl o g b)
  end.

(** The floats the controller hands over are binary64 numbers, possibly NaN or infinite. *)
Definition event_ok (e : event) : Prop :=
  match e with
  | Olia_utility _ g b => valid_binary 53 1024 g = true /\ valid_binary 53 1024 b = true
  | _ => True
  end.

Lemma olia_ok_update o o' :
  olia_ok o -> window_ok (congestionWindow o') ->
  gain_ok (utilityGain o') -> backoff_ok (utilityBackoff o') ->
  (minCongestionWindow o', maxTCPCongestionWindow o', initialCongestionWindow o', initialMaxCongestionWindow o', numConnections o')
  = (minCongestionWindow o, maxTCPCongestionWindow o, initialCongestionWindow o, initialMaxCongestionWindow o, numConnections o) ->
  olia_ok o'.
Proof.
  intros [] Hw Hg Hb [= H1 H2 H3 H4 H5]. destruct ok_initial0.
  split; rewrite ?H1, ?H2, ?H3, ?H4, ?H5; done.
Qed.

Ltac keeps_olia := eapply olia_ok_update; [eassumption|..]; try done.

Lemma on_olia_ok s p f :
  store_ok s -> (forall o, olia_ok o -> olia_ok (f o)) -> store_ok (on_sender s p f).
Proof.
  intros Hs Hf. unfold on_sender. destruct (s !! p) as [o|] eqn:Ho; [|done].
  apply map_Forall_insert_2; [|done]. apply Hf. by apply (Hs p).
Qed.

Lemma slow_start_loop_bounds max fuel : 0 <= max < 2 ^ 63 -> forall w a,
  0 <= w <= max -> let '(w', _) := slow_start_loop fuel max w a in w <= w' <= max.
Proof.
  intros Hm. induction fuel as [|fuel IH]; intros w a Hw; cbn [slow_start_loop]; [lia|].
  destruct (fle one a && (w <? max)) eqn:Hc; [|lia].
  apply andb_prop in Hc as [_ Hc%Z.ltb_lt]. rewrite u64_small by lia.
  specialize (IH (w + 1) (a - one)%f64 ltac:(lia)). destruct (slow_start_loop _ _ _ _). lia.
Qed.

(** The rounds allowed are enough: the loop stops because its condition fails. *)
Lemma slow_start_loop_exit max fuel : 0 <= max < 2 ^ 63 -> forall w a,
  0 <= w <= max -> max - w <= Z.of_nat fuel ->
  let '(w', a') := slow_start_loop fuel max w a in (fle one a' && (w' <? max)) = false.
Proof.
  intros Hm. induction fuel as [|fuel IH]; intros w a Hw Hf; cbn [slow_start_loop].
  { rewrite (proj2 (Z.ltb_ge _ _)) by lia. apply andb_false_r. }
  destruct (fle one a && (w <? max)) eqn:Hc; [|done].
  apply andb_prop in Hc as [_ Hc%Z.ltb_lt]. rewrite u64_small by lia. apply IH; lia.
Qed.

Lemma getEpsilon_ok s order : store_ok s -> store_ok (getEpsilon s order).
Proof.
  intros Hs. unfold getEpsilon. destruct (count_paths _ _ _). apply map_Forall_fmap.
  eapply map_Forall_impl; [exact Hs|]. intros p o Ho. cbn. destruct (epsilon_of _ _ _ _ _ _).
  pose proof Ho as []. keeps_olia.
Qed.

Lemma after_ack_nonneg q w rate scaled : 0 <= w -> 0 <= (Olia.CongestionWindowAfterAck q w rate scaled).1.
Proof.
  intros Hw. unfold Olia.CongestionWindowAfterAck, MaxPacketNumber.
  pose proof (wrap_range 64 (w + 1) ltac:(lia)) as H1. unfold in_u in H1. fold (u64 (w + 1)) in H1.
  destruct (_ <=? _); [cbn; lia|]. destruct (_ <=? _); [|cbn; lia].
  cbn [fst]. destruct (Z.ltb_spec (u64 (w - 1)) 1); [lia|]. lia.
Qed.

Lemma olia_increase_ok s order p o f :
  store_ok s -> olia_ok o -> store_ok (maybeIncreaseCwnd s order p o f).
Proof.
  intros Hs Ho. unfold maybeIncreaseCwnd. destruct (isCwndLimited o f); cbn [negb]; [|done].
  destruct (_ <=? congestionWindow o); [done|]. destruct (InSlowStart o).
  - pose proof Ho as [Hw Hmin Hmax _ _ Hg Hb]. unfold window_ok in Hw. rewrite Hmax.
    pose proof (slow_start_loop_bounds 2500 (Z.to_nat (2500 - congestionWindow o)) ltac:(lia)
                  (congestionWindow o) (utilitySsAckAccum o + utilityGain o)%f64 ltac:(lia)) as Hl.
    destruct (slow_start_loop _ _ _ _) as [w a]. apply map_Forall_insert_2; [|done].
    keeps_olia. unfold window_ok. cbn. lia.
  - pose proof (getEpsilon_ok s order Hs) as Hs'. destruct (getEpsilon s order !! p) as [o'|] eqn:Ho'; [|done].
    pose proof (Hs' p o' Ho') as Hok. pose proof Hok as [Hw Hmin Hmax _ _ Hg Hb].
    set (rate := getRate _ _).
    pose proof (after_ack_nonneg (olia o') (congestionWindow o') rate (Olia.oliaScale (congestionWindow o'))
                  ltac:(unfold window_ok in Hw; lia)) as Hn.
    destruct (Olia.CongestionWindowAfterAck _ _ _ _) as [w q]. cbn [fst] in Hn.
    apply map_Forall_insert_2; [|done]. keeps_olia. cbn [congestionWindow set_window].
    apply scale_window_ok; try done. unfold MinPacketNumber. rewrite Hmax. destruct (Z.ltb_spec 2500 w); lia.
Qed.

Lemma olia_acked_ok s order p o n b f :
  store_ok s -> olia_ok o -> store_ok (OnPacketAcked s order p o n b f).
Proof.
  intros Hs Ho. pose proof Ho as []. unfold OnPacketAcked. set (o1 := set_numbers o _ _ _).
  assert (olia_ok o1) as Ho1 by keeps_olia. pose proof Ho1 as [].
  destruct (InRecovery o1); [apply map_Forall_insert_2; [keeps_olia|done]|].
  set (o2 := set_parts o1 _ _ _). assert (olia_ok o2) as Ho2 by keeps_olia.
  pose proof (olia_increase_ok (<[p := o2]> s) order p o2 f) as H.
  assert (store_ok (maybeIncreaseCwnd (<[p := o2]> s) order p o2 f)) as Hs'.
  { apply H; [by apply map_Forall_insert_2|done]. }
  destruct (_ !! p) as [o3|] eqn:E; [|done]. destruct (InSlowStart o3); [|done].
  pose proof (Hs' p o3 E) as Ho3. pose proof Ho3 as []. apply map_Forall_insert_2; [keeps_olia|done].
Qed.

Lemma olia_lost_ok o n b f : olia_ok o -> olia_ok (OnPacketLost o n b f).
Proof.
  intros Ho. pose proof Ho as [Hw Hmin Hmax _ Hk Hg Hb]. unfold OnPacketLost, same_event. destruct (n <=? _).
  - destruct (lastCutbackExitedSlowstart o); cbn [negb]; [|done].
    change (slowStartLargeReduction (set_loss_stats o _ _ _)) with (slowStartLargeReduction o).
    destruct (slowStartLargeReduction o); cbn [negb]; [|keeps_olia]. keeps_olia.
    cbn [congestionWindow minCongestionWindow set_loss_stats set_window]. rewrite Hmin. unfold window_ok in *.
    destruct (_ || _); [|lia]. unfold MaxPacketNumber. rewrite u64_small by lia.
    destruct (Z.ltb_spec 2 (congestionWindow o - 1)); lia.
  - set (o1 := set_loss_stats o _ _ _).
    pose proof (olia_cutback_ok o1 Hw Hk Hb) as Hc. keeps_olia.
    cbn [congestionWindow set_numbers set_window]. change (minCongestionWindow o1) with (minCongestionWindow o).
    rewrite Hmin. unfold window_ok. destruct (Z.ltb_spec (cutback o1) 2); lia.
Qed.

Lemma handle_ok s e : store_ok s -> event_ok e -> store_ok (handle s e).
Proof.
  intros Hs He. destruct e as [p rtt|p rtt|p n b r|p|p order n b f|p n b f|p r|p|p e|p g b]; cbn [handle];
    try (apply on_olia_ok; [done|]; intros o Ho; pose proof Ho as [Hw Hmin Hmax [Hi Hx] Hk Hg Hb]).
  - apply map_Forall_insert_2; [|done]. destruct gain_neutral. split; done.
  - keeps_olia.
  - destruct r; [keeps_olia|done].
  - unfold MaybeExitSlowStart. destruct (InSlowStart o); [|done].
    destruct (HybridSlowStart.ShouldExitSlowStart _ _ _ _) as [[] h]; keeps_olia.
  - destruct (s !! p) as [o|] eqn:Ho; [|done]. apply olia_acked_ok; [done|]. by apply (Hs p).
  - by apply olia_lost_ok.
  - destruct r; keeps_olia. cbn. rewrite Hmin. unfold window_ok. lia.
  - split; cbn; try done. unfold window_ok. lia.
  - keeps_olia.
  - destruct He. keeps_olia; [by apply sanitize_gain|by apply sanitize_backoff].
Qed.

Lemma handle_all_ok es : forall s, store_ok s -> Forall event_ok es -> store_ok (fold_left handle es s).
Proof.
  induction es as [|e es IH]; intros s Hs He; [done|]. inversion He; subst. cbn. apply IH; [|done]. by apply handle_ok.
Qed.

(** C37. Whatever the utility controller asks for, NaN and infinities included, and whatever
    happens on the paths, the senders of a session keep their windows between two packets and
    2500, the gain between 0.80 and 1.20 and the backoff between 0.90 and 1.10. *)
Theorem olia_bounds es p o :
  Forall event_ok es -> fold_left handle es (∅ : store) !! p = Some o ->
  window_ok (congestionWindow o) /\ gain_ok (utilityGain o) /\ backoff_ok (utilityBackoff o).
Proof.
  intros He Ho. assert (store_ok (fold_left handle es ∅)) as Hs.
  { apply handle_all_ok; [|done]. apply map_Forall_empty. }
  pose proof (Hs p o Ho) as []. done.
Qed.

Definition utility_events : list event :=
  [Olia_new 1 RTTStats.NewRTTStats; Olia_new 3 RTTStats.NewRTTStats; Olia_sent 1 1 1400 true;
   Olia_utility 1 S754_nan (of_Z64 5); Olia_lost 1 1 1400 1400; Olia_utility 1 (of_Z64 7) (S754_infinity true)].

Lemma olia_bounds_witness :
  exists o, fold_left handle utility_events (∅ : store) !! 1 = Some o
    /\ window_ok (congestionWindow o) /\ gain_ok (utilityGain o) /\ backoff_ok (utilityBackoff o).
Proof.
  eexists. split; [vm_compute; reflexivity|]. apply (olia_bounds utility_events 1).
  - repeat constructor; vm_compute; reflexivity.
  - vm_compute. reflexivity.
Defined.

(** ** Neutral utility *)

(** What plain OLIA makes of the window: one packet per acknowledgement in slow start, the
    OLIA increment otherwise. *)
Definition plain_window (s : store) (order : list t) (path : Z) (o : t) (bytesInFlight : Z) : Z :=
  if negb (isCwndLimited o bytesInFlight) then congestionWindow o
  else if maxTCPCongestionWindow o <=? congestionWindow o then congestionWindow o
  else if InSlowStart o then congestionWindow o + 1
  else
    let s := getEpsilon s order in
    match s !! path with
    | None => congestionWindow o
    | Some o =>
        let rate := getRate (map_to_list s).*2 (RTTStats.SmoothedRTT (rttStats o)) in
        MinPacketNumber (maxTCPCongestionWindow o)
          (Olia.CongestionWindowAfterAck (olia o) (congestionWindow o) rate (Olia.oliaScale (congestionWindow o))).1
    end.

Lemma scale_window_neutral o new :
  olia_ok o -> utilityGain o = one -> 0 <= new <= 2500 -> scale_window o new = Z.max 2 new.
Proof.
  intros [Hw Hmin Hmax _ _ Hg _] Hone Hn. unfold scale_window. rewrite Hmin, Hmax.
  destruct (adjusted_rounds _ _ _ Hw Hn Hg) as (x & Ex & Hx & _ & Hr). rewrite Ex.
  destruct (of_Z64_exact 1 ltac:(lia)) as [H1 E1]. fold one in H1, E1. unfold window_ok in Hw.
  destruct (of_Z64_exact (congestionWindow o) ltac:(lia)) as [Hvo Eo]. destruct (of_Z64_exact new ltac:(lia)) as [Hvn En].
  assert (val x = IZR (new - congestionWindow o)) as Evx.
  { assert (rounds64 (val (of_Z64 new) - val (of_Z64 (congestionWindow o))) (of_Z64 new - of_Z64 (congestionWindow o))%f64) as Hd.
    { apply sub64; [done|done|]. apply small64. rewrite Eo, En, <- minus_IZR, <- abs_IZR. apply IZR_le. lia. }
    rewrite Eo, En, <- minus_IZR in Hd.
    pose proof (rounds_exact _ _ _ _ Hd (repr_int64 (new - congestionWindow o) ltac:(lia))) as Ed.
    assert (rounds64 (IZR (new - congestionWindow o)) x) as Hm.
    { rewrite <- Ed, <- (Rmult_1_r (val _)), <- E1, <- Ex, Hone. apply mul64; [by eapply rounds_valid|done|].
      apply small64. rewrite E1, Rmult_1_r, Ed, <- abs_IZR. apply IZR_le. lia. }
    apply (rounds_exact _ _ _ _ Hm), repr_int64. lia. }
  rewrite Evx, <- plus_IZR in Hr. replace (congestionWindow o + (new - congestionWindow o)) with new in Hr by lia.
  pose proof (rounds_exact _ _ _ _ Hr (repr_int64 new ltac:(lia))) as Er.
  destruct (math_Round_spec _ (rounds_valid _ _ _ _ Hr)) as (Hv & _ & _ & Hk). rewrite Er in Hk.
  assert (val (math_Round (of_Z64 (congestionWindow o) + x)%f64) = IZR new) as Ev.
  { apply Rle_antisym; apply Hk; lra. }
  set (r := math_Round _) in *.
  destruct (of_Z64_exact 2 ltac:(lia)) as [H2 E2]. destruct (of_Z64_exact 2500 ltac:(lia)) as [H25 E25].
  destruct (math_Min_spec _ r H25 Hv) as [Hm Em]. destruct (math_Max_spec _ _ H2 Hm) as [HM EM].
  assert (val (math_Max (of_Z64 2) (math_Min (of_Z64 2500) r)) = IZR (Z.max 2 new)) as Ec.
  { rewrite EM, Em, E2, E25, Ev, Rmin_right by (apply IZR_le; lia). unfold Rmax.
    destruct (Rle_dec 2 (IZR new)) as [Hle|Hgt].
    - f_equal. apply (le_IZR 2 new) in Hle. lia.
    - assert (IZR new < 2)%R as Hlt by lra. apply (lt_IZR new 2) in Hlt. f_equal. lia. }
  assert (0 <= IZR (Z.max 2 new))%R by (apply IZR_le; lia).
  unfold to_uint64. rewrite u64_small.
  - apply Z.le_antisymm; [apply trunc_le|apply trunc_ge]; lra.
  - split; [apply trunc_ge; lra|]. apply (Z.le_lt_trans _ (Z.max 2 new)); [apply trunc_le; lra|lia].
Qed.

(** C38. With the neutral gain of 1.0 and an empty accumulator the sender is plain OLIA, packet for packet, with a
    minimum window of two, and the accumulator stays empty: the float arithmetic of the extension adds nothing. *)
Theorem neutral_utility_is_olia s order p o f o' :
  store_ok s -> s !! p = Some o -> utilityGain o = one -> utilitySsAckAccum o = f0 ->
  maybeIncreaseCwnd s order p o f !! p = Some o' ->
  congestionWindow o' = Z.max 2 (plain_window s order p o f) /\ utilitySsAckAccum o' = f0.
Proof.
  intros Hs Ho Hg Ha. pose proof (Hs p o Ho) as Hok. pose proof Hok as [Hw Hmin Hmax _ _ _ _]. unfold window_ok in Hw.
  unfold maybeIncreaseCwnd, plain_window. destruct (isCwndLimited o f); cbn [negb].
  2: { rewrite Ho. intros [= <-]. split; [lia|done]. }
  destruct (Z.leb_spec (maxTCPCongestionWindow o) (congestionWindow o)) as [|Hlt].
  { rewrite Ho. intros [= <-]. split; [lia|done]. }
  rewrite Hmax in *. destruct (InSlowStart o).
  - rewrite Ha, Hg. replace (f0 + one)%f64 with one by (vm_compute; reflexivity).
    destruct (Z.to_nat (2500 - congestionWindow o)) as [|fuel] eqn:Hf; [lia|]. cbn [slow_start_loop].
    replace (fle one one) with true by (vm_compute; reflexivity). rewrite (proj2 (Z.ltb_lt _ _) Hlt). cbn [andb].
    replace (one - one)%f64 with f0 by (vm_compute; reflexivity). rewrite u64_small by lia.
    assert (slow_start_loop fuel 2500 (congestionWindow o + 1) f0 = (congestionWindow o + 1, f0)) as ->.
    { destruct fuel; [done|]. cbn [slow_start_loop]. by replace (fle one f0) with false by (vm_compute; reflexivity). }
    rewrite lookup_insert_eq. intros [= <-]. cbn. split; [lia|done].
  - assert (exists o1, getEpsilon s order !! p = Some o1 /\ utilityGain o1 = one /\ utilitySsAckAccum o1 = f0)
      as (o1 & Ho1 & Hg1 & Ha1).
    { unfold getEpsilon. destruct (count_paths _ _ _). rewrite lookup_fmap, Ho. cbn [fmap option_fmap option_map].
      eexists. split; [reflexivity|]. by destruct (epsilon_of _ _ _ _ _ _). }
    rewrite Ho1. pose proof (getEpsilon_ok s order Hs p o1 Ho1) as Hok1. pose proof Hok1 as [Hw1 _ Hmax1 _ _ _ _].
    set (rate := getRate _ _).
    pose proof (after_ack_nonneg (olia o1) (congestionWindow o1) rate (Olia.oliaScale (congestionWindow o1))
                  ltac:(unfold window_ok in Hw1; lia)) as Hn.
    destruct (Olia.CongestionWindowAfterAck _ _ _ _) as [w q]. cbn [fst] in *.
    rewrite lookup_insert_eq. intros [= <-]. cbn [congestionWindow set_window utilitySsAckAccum]. split; [|done].
    apply scale_window_neutral; [done|done|]. unfold MinPacketNumber. rewrite Hmax1. destruct (Z.ltb_spec 2500 w); lia.
Qed.

Definition two_paths : store :=
  fold_left handle [Olia_new 1 RTTStats.NewRTTStats; Olia_new 3 RTTStats.NewRTTStats] ∅.

Lemma neutral_utility_is_olia_witness :
  exists o o', two_paths !! 1 = Some o /\ maybeIncreaseCwnd two_paths [] 1 o 40000 !! 1 = Some o'
    /\ congestionWindow o' = Z.max 2 (plain_window two_paths [] 1 o 40000) /\ utilitySsAckAccum o' = f0.
Proof.
  eexists _, _. split; [vm_compute; reflexivity|]. split; [vm_compute; reflexivity|].
  apply (neutral_utility_is_olia two_paths [] 1); try (vm_compute; reflexivity).
  apply handle_all_ok; [apply map_Forall_empty|repeat constructor].
Defined.

(** ** The increments of OLIA *)

Definition epsilon (o : t) : R := (IZR (Olia.epsilonNum (olia o)) / IZR (Olia.epsilonDen (olia o)))%R.
Definition sumR (l : list R) : R := foldr Rplus 0%R l.
Definition total_epsilon (s : store) : R := sumR (epsilon <$> (map_to_list s).*2).

#[export] Instance sumR_proper : Proper ((≡ₚ) ==> eq) sumR.
Proof. intros l l'. unfold sumR. induction 1; cbn; lra. Qed.

Section Balance.
Context (maxCwnd : Z) (best : Z * Z).

Definition in_M (o : t) : bool := congestionWindow o =? maxCwnd.
Definition in_BNotM (o : t) : bool := negb (in_M o) && at_least (quality o) best.
Definition count (P : t -> bool) (l : list t) : Z := Z.of_nat (length (List.filter P l)).

Lemma count_cons P o l : count P (o :: l) = (if P o then 1 else 0) + count P l.
Proof. unfold count. cbn. destruct (P o); cbn [length]; lia. Qed.

Lemma count_length P l : 0 <= count P l <= Z.of_nat (length l).
Proof. unfold count. pose proof (List.filter_length_le P l). lia. Qed.

Lemma count_paths_spec l : forall a b,
  0 <= a -> 0 <= b -> a + b + Z.of_nat (length l) < 256 ->
  fold_left (fun '(M, BNotM) o =>
    if congestionWindow o =? maxCwnd then (u8 (M + 1), BNotM)
    else if at_least (quality o) best then (M, u8 (BNotM + 1)) else (M, BNotM)) l (a, b)
  = (a + count in_M l, b + count in_BNotM l).
Proof.
  induction l as [|o l IH]; intros a b Ha Hb Hl; [unfold count; cbn; f_equal; lia|].
  cbn [length] in Hl. cbn [fold_left]. rewrite !count_cons. unfold in_BNotM, in_M in *.
  destruct (congestionWindow o =? maxCwnd); cbn [negb andb].
  - rewrite u8_small, IH by lia. f_equal; lia.
  - destruct (at_least (quality o) best).
    + rewrite u8_small, IH by lia. f_equal; lia.
    + rewrite IH by lia. f_equal; lia.
Qed.

(** The sum of a list of increments is what its members in [M] and outside contribute. *)
Lemma sum_epsilon n M B l :
  B <> 0 -> Forall (fun o => congestionWindow o <= maxCwnd) l ->
  sumR ((fun o => let '(num, den) := epsilon_of n M B maxCwnd best o in (IZR num / IZR den)%R) <$> l)
  = (IZR (count in_BNotM l) * (1 / IZR (u32 (u32 n * u32 B))) - IZR (count in_M l) * (1 / IZR (u32 (u32 n * u32 M))))%R.
Proof.
  intros HB. induction l as [|o l IH]; intros Hl.
  { change (sumR _) with 0%R. change (count _ []) with 0. change (count in_M []) with 0. lra. }
  inversion Hl as [|? ? Ho Hl']; subst.
  rewrite !count_cons. cbn [fmap list_fmap sumR foldr]. fold (sumR ((fun o => let '(num, den) := epsilon_of n M B maxCwnd best o in (IZR num / IZR den)%R) <$> l)).
  rewrite (IH Hl'). unfold epsilon_of. rewrite (proj2 (Z.eqb_neq _ _) HB).
  unfold in_BNotM, in_M in *. rewrite !plus_IZR.
  destruct (Z.ltb_spec (congestionWindow o) maxCwnd), (Z.eqb_spec (congestionWindow o) maxCwnd); try lia;
    destruct (at_least (quality o) best); cbn [negb andb]; unfold Rdiv; lra.
Qed.

Lemma sum_no_epsilon n M l :
  sumR ((fun o => let '(num, den) := epsilon_of n M 0 maxCwnd best o in (IZR num / IZR den)%R) <$> l) = 0%R.
Proof.
  induction l as [|o l IH]; [done|]. unfold epsilon_of in *. cbn [Z.eqb] in *.
  change (sumR (?f <$> o :: l)) with (f o + sumR (f <$> l))%R. rewrite IH. lra.
Qed.
End Balance.

Lemma getMaxCwnd_spec l : forall b, let m := fold_left (fun best o => MaxPacketNumber best (congestionWindow o)) l b in
  b <= m /\ Forall (fun o => congestionWindow o <= m) l /\ (m = b \/ exists o, o ∈ l /\ congestionWindow o = m).
Proof.
  induction l as [|o l IH]; intros b; cbn [fold_left]; [split_and!; [lia|constructor|by left]|].
  specialize (IH (MaxPacketNumber b (congestionWindow o))). cbn zeta in IH. destruct IH as (H1 & H2 & H3).
  set (m := fold_left _ l _) in *. unfold MaxPacketNumber in *.
  destruct (Z.ltb_spec (congestionWindow o) b); (split_and!; [lia|constructor; [lia|done]|]).
  - destruct H3 as [->|(o' & Ho' & He)]; [by left|]. right. exists o'. split; [by apply list_elem_of_further|done].
  - destruct H3 as [->|(o' & Ho' & He)]; right; [exists o; split; [by left|done]|exists o'; split; [by right|done]].
Qed.

Lemma epsilon_terms_cancel n c : 0 < n < 256 -> 0 < c < 256 -> (IZR c * (1 / IZR (u32 (u32 n * u32 c))) = / IZR n)%R.
Proof.
  intros Hn Hc. rewrite (u32_small n), (u32_small c), (u32_small (n * c)), mult_IZR by nia.
  assert (0 < IZR n)%R by (apply IZR_lt; lia). assert (0 < IZR c)%R by (apply IZR_lt; lia). field. lra.
Qed.

(** The increments that OLIA gives the paths sum to zero, in whatever order Go visits the
    senders: what the best paths gain, the paths with the largest windows give up. *)
Theorem olia_epsilon_balanced s order :
  (size s < 256)%nat -> map_Forall (fun _ o => 0 <= congestionWindow o) s ->
  total_epsilon (getEpsilon s order) = 0%R.
Proof.
  intros Hsize Hpos. unfold total_epsilon, getEpsilon. set (l := (map_to_list s).*2).
  assert (length l = size s) as Hlen by (unfold l; rewrite length_fmap; apply length_map_to_list).
  pose proof (getMaxCwnd_spec l 0) as (_ & Hmax & Hatt). fold (getMaxCwnd l) in Hmax, Hatt.
  set (mx := getMaxCwnd l) in *. set (best := best_quality order).
  unfold count_paths. rewrite (count_paths_spec mx best l 0 0), !Z.add_0_l by lia.
  set (M := count (in_M mx) l). set (B := count (in_BNotM mx best) l).
  rewrite map_to_list_fmap. rewrite <- !list_fmap_compose.
  replace (sumR _) with
    (sumR ((fun o => let '(num, den) := epsilon_of (Z.of_nat (size s)) M B mx best o in (IZR num / IZR den)%R) <$> l)).
  2: { unfold l. rewrite <- list_fmap_compose. f_equal. apply list_fmap_ext. intros i [k o] _. cbn.
       by destruct (epsilon_of _ _ _ _ _ o). }
  destruct (decide (B = 0)) as [HB|HB].
  { rewrite HB. apply sum_no_epsilon. }
  rewrite sum_epsilon by done. fold M B.
  pose proof (count_length (in_BNotM mx best) l) as HBl. fold B in HBl.
  pose proof (count_length (in_M mx) l) as HMl. fold M in HMl.
  assert (0 < M) as HM.
  { destruct l as [|o0 l0] eqn:El; [cbn in HBl; lia|].
    assert (exists o, o ∈ o0 :: l0 /\ congestionWindow o = mx) as (o & Ho & He).
    { destruct Hatt as [Hz|?]; [|done]. inversion Hmax as [|? ? H1 H2]; subst.
      exists o0. split; [by left|]. assert (0 <= congestionWindow o0); [|lia].
      assert (o0 ∈ l) as Hin by (rewrite El; by left). apply list_elem_of_fmap in Hin as ([k o1] & -> & Hk%elem_of_map_to_list).
      by apply (Hpos k). }
    assert (o ∈ List.filter (in_M mx) (o0 :: l0)) as Hin.
    { apply list_elem_of_In, filter_In. split; [by apply list_elem_of_In|]. unfold in_M. by apply Z.eqb_eq. }
    unfold M, count. destruct (List.filter _ _); [by apply elem_of_nil in Hin|cbn; lia]. }
  rewrite (epsilon_terms_cancel _ B), (epsilon_terms_cancel _ M) by lia. lra.
Qed.

Lemma olia_epsilon_balanced_witness : total_epsilon (getEpsilon two_paths (map_to_list two_paths).*2) = 0%R.
Proof.
  apply olia_epsilon_balanced.
  - vm_compute. repeat constructor.
  - unfold two_paths. cbn. apply map_Forall_insert_2; [done|]. apply map_Forall_insert_2; [done|]. apply map_Forall_empty.
Defined.
