(* ===== verification/UtilityControl.v ===== *)
(** * The utility controller

    Models [utility_control_law.go], [utility_controller.go], [qaccess_coefficients.go],
    [qaccess_objective_trigger.go] and the in-memory part of [qaccess_phase2.go]: how the
    measured throughput, delay and loss of a path become the gain and backoff of its
    congestion controller, which coefficients weigh them, and when new coefficients are
    asked for.  Numbers are [float64].  [math.Pow] is an argument; what is assumed of it is
    the documented behaviour on numbers between 0 and 1.  The CSV and JSON files, the
    audit log and the fields of [PathMetrics] that only they use are left out, and the
    seconds since the start of the experiment, which the code parses from the run's name,
    are an argument.

    The theorems: the signal is within the bounds of the congestion controller, the safe law
    moves the gain in small steps inside its own bounds, the coefficients in use are valid
    whatever the file says, and the trigger has the hysteresis it is configured with. *)

From Stdlib Require Import ZArith Reals Lra Floats.SpecFloat.
From stdpp Require Import base numbers list option strings gmap pretty.
From S2P Require Import Prelude GoFloat FloatFacts RttStats SentPackets Congestion Olia.

Local Open Scope Z_scope.

(** ** Numbers *)

Definition clamp (x lo hi : float) : float :=
  if flt x lo then lo else if flt hi x then hi else x.

Definition sanitizeMetric (v : float) : float :=
  if is_nan v || is_inf v || flt v f0 then f0 else v.

Definition f1 : float := of_Z64 1.

(** Constants of the control laws. *)
Definition legacyGainMin : float := lit64 80 100.
Definition legacyGainMax : float := lit64 120 100.
Definition legacyRetMin : float := lit64 90 100.
Definition legacyRetMax : float := lit64 110 100.
Definition safeTV1GainMin : float := lit64 95 100.
Definition safeTV1GainMax : float := lit64 110 100.
Definition safeTV1MaxGainStep : float := lit64 2 100.
Definition safeTV1MaxDelayPen : float := lit64 2 100.
Definition epsilon12 : float := lit64 1 1000000000000.

Definition bwRefBps : float := of_Z64 30000000.
Definition delayRefMs : float := of_Z64 100.
Definition delayTrendRefMs : float := of_Z64 50.
Definition lossRef : float := lit64 1 100.
Definition inflightActiveMin : Z := 1024.

(** ** Modes *)

Inductive ControlLawMode : Type := ControlLawLegacy | ControlLawSafeTV1.

Inductive UtilityMode : Type :=
| ModeBaseline | ModeQAccessT | ModeQAccessD | ModeQAccessL | ModeQAccessCollect.

Definition isQAccessRuntimeMode (m : UtilityMode) : bool :=
  match m with ModeQAccessT | ModeQAccessD | ModeQAccessL => true | _ => false end.

(** ** Coefficients *)

Record QAccessCoeffEntry : Type := MkEntry { EAlpha : float; EBeta : float; EGamma : float }.

Record QAccessCoefficients : Type := MkCoeffs {
  Alpha : float;
  Beta : float;
  Gamma : float;
  Source : string;
  Metric : string;
}.

Record QAccessCoeffsDocument : Type := MkDoc {
  Version : Z;
  Default : QAccessCoeffEntry;
  Paths : gmap string QAccessCoeffEntry;
  DAlpha : float;
  DBeta : float;
  DGamma : float;
  DSource : string;
  DMetric : string;
}.

Definition qaccessCoeffsVersion : Z := 1.

Definition finitePositive (v max : float) : bool :=
  negb (is_nan v || is_inf v || fle v f0 || flt max v).
Definition finiteNonNeg (v max : float) : bool :=
  negb (is_nan v || is_inf v || flt v f0 || flt max v).

Definition validCoeffEntry (alpha beta gamma : float) : bool :=
  finitePositive alpha (of_Z64 2) && finiteNonNeg beta f1 && finiteNonNeg gamma f1.

Definition validQAccessCoefficients (c : QAccessCoefficients) : bool :=
  if negb (finitePositive (Alpha c) (of_Z64 2)) then false
  else if negb (finiteNonNeg (Beta c) f1) then false
  else if negb (finiteNonNeg (Gamma c) f1) then false
  else true.

Definition defaultQAccessTCoefficients : QAccessCoefficients :=
  MkCoeffs (lit64 70 100) (lit64 10 100) (lit64 10 100) "builtin" "predicted_next_bw_bps".

Definition defaultEntry : QAccessCoeffEntry := MkEntry (lit64 6 10) (lit64 3 10) (lit64 1 10).

Definition entryFromMapping (alpha beta gamma : float) : option QAccessCoeffEntry :=
  if negb (validCoeffEntry alpha beta gamma) then None else Some (MkEntry alpha beta gamma).

Definition valid_entry (e : QAccessCoeffEntry) : bool := validCoeffEntry (EAlpha e) (EBeta e) (EGamma e).

Definition normalizeCoeffsDocument (doc : QAccessCoeffsDocument) : QAccessCoeffsDocument :=
  if Version doc =? qaccessCoeffsVersion then
    MkDoc (Version doc) (if negb (valid_entry (Default doc)) then defaultEntry else Default doc)
      (filter (fun kv => valid_entry kv.2 = true) (Paths doc))
      (DAlpha doc) (DBeta doc) (DGamma doc) (DSource doc) (DMetric doc)
  else
    match entryFromMapping (DAlpha doc) (DBeta doc) (DGamma doc) with
    | Some e => MkDoc qaccessCoeffsVersion e ∅ (DAlpha doc) (DBeta doc) (DGamma doc) (DSource doc) (DMetric doc)
    | None => doc
    end.

Definition from_entry (e : QAccessCoeffEntry) (source metric : string) : QAccessCoefficients :=
  MkCoeffs (EAlpha e) (EBeta e) (EGamma e) source metric.

Definition ResolveCoefficientsForPath (doc : QAccessCoeffsDocument) (pathID : Z) : QAccessCoefficients :=
  let doc := normalizeCoeffsDocument doc in
  let metric := if decide (DMetric doc = ""%string) then "unknown"%string else DMetric doc in
  let fallback :=
    if valid_entry (Default doc) then from_entry (Default doc) "default" metric
    else
      let legacy := if negb (Version doc =? qaccessCoeffsVersion)
                    then entryFromMapping (DAlpha doc) (DBeta doc) (DGamma doc) else None in
      match legacy with
      | Some e => from_entry e "legacy" (DMetric doc)
      | None => defaultQAccessTCoefficients
      end in
  match Paths doc !! pretty (Z.to_N pathID) with
  | Some e => if valid_entry e then from_entry e "per_path" metric else fallback
  | None => fallback
  end.

Definition qaccessAlphaCandidates : list float := [lit64 60 100; lit64 70 100; lit64 80 100; lit64 90 100].
Definition qaccessBetaCandidates : list float := [lit64 5 100; lit64 10 100; lit64 20 100; lit64 30 100].
Definition qaccessGammaCandidates : list float := [lit64 5 100; lit64 10 100; lit64 20 100; lit64 30 100].

Definition qaccessCandidateCount : Z := 4 * 4 * 4.

(** The candidate of an index, row by row; reading past a list would panic. *)
Definition QAccessCandidateAt (idx : Z) : option (float * float * float) :=
  let nBeta := 4 in
  let nGamma := 4 in
  let idx := if idx <? 0 then 0 else idx in
  let max := 4 * nBeta * nGamma in
  let idx := if max <=? idx then Z.rem idx max else idx in
  let ai := Z.quot idx (nBeta * nGamma) in
  let rem := Z.rem idx (nBeta * nGamma) in
  let bi := Z.quot rem nGamma in
  let gi := Z.rem rem nGamma in
  a ← qaccessAlphaCandidates !! Z.to_nat ai;
  b ← qaccessBetaCandidates !! Z.to_nat bi;
  g ← qaccessGammaCandidates !! Z.to_nat gi;
  Some (a, b, g).

(** ** Control law *)

Record controlLawTermsInput : Type := MkTerms {
  GTotal : float;
  NormD : float;
  NormL : float;
  TAlpha : float;
  TBeta : float;
  TGamma : float;
}.

Record ControlLawDiagnostics : Type := MkDiag {
  ThroughputRewardTerm : float;
  LossPenaltyTerm : float;
  DelayPenaltyTerm : float;
  GainRaw : float;
  GainClamped : float;
  GainHitMin : bool;
  GainHitMax : bool;
  RetentionRaw : float;
  RetentionClamped : float;
  RetentionHitMin : bool;
  RetentionHitMax : bool;
  ControlLaw : ControlLawMode;
  DelayPenaltyBounded : float;
  PrevGain : float;
  StepLimitedGain : float;
}.

Section ControlLaw.
Context (Pow : float -> float -> float).

Definition gTotalPowAlpha (gTotal alpha : float) : float := if fle gTotal f0 then f0 else Pow gTotal alpha.

(** Reward, loss and delay penalty, and the raw gain they give. *)
Definition computeGainMappingTerms (t : controlLawTermsInput) : float * float * float * float :=
  let gPow := gTotalPowAlpha (GTotal t) (TAlpha t) in
  let reward := (lit64 20 100 * gPow)%f64 in
  let loss := (SFopp (lit64 10 100) * TBeta t * of_Z64 5 * NormL t)%f64 in
  let delay := (SFopp (lit64 5 100) * TGamma t * of_Z64 5 * NormD t)%f64 in
  (reward, loss, delay, (f1 + reward + loss + delay)%f64).

Definition computeRetentionMappingTerms (t : controlLawTermsInput) : float :=
  let gPow := gTotalPowAlpha (GTotal t) (TAlpha t) in
  let reward := (SFopp (lit64 8 100) * gPow)%f64 in
  let loss := (lit64 5 100 * TBeta t * of_Z64 5 * NormL t)%f64 in
  let delay := (lit64 3 100 * TGamma t * of_Z64 5 * NormD t)%f64 in
  (f1 + reward + loss + delay)%f64.

Definition hit_min (x lo : float) : bool := fle x (lo + epsilon12)%f64.
Definition hit_max (x hi : float) : bool := fle (hi - epsilon12)%f64 x.

Definition computeLegacyGainBackoffWithDiagnostics (minGain maxGain minBackoff maxBackoff : float)
    (t : controlLawTermsInput) : float * float * ControlLawDiagnostics :=
  let '(tp, lossPen, delayPen, gainRaw) := computeGainMappingTerms t in
  let retRaw := computeRetentionMappingTerms t in
  let gain := clamp gainRaw minGain maxGain in
  let retention := clamp retRaw minBackoff maxBackoff in
  (gain, retention,
   MkDiag tp lossPen delayPen gainRaw gain (hit_min gain minGain) (hit_max gain maxGain)
     retRaw retention (hit_min retention minBackoff) (hit_max retention maxBackoff)
     ControlLawLegacy delayPen f0 gain).

Definition boundDelayPenaltyForGain (delayPenalty : float) : float :=
  if flt delayPenalty (SFopp safeTV1MaxDelayPen) then SFopp safeTV1MaxDelayPen else delayPenalty.

Definition stepLimitGain (prev target : float) : float :=
  (prev + clamp (target - prev) (SFopp safeTV1MaxGainStep) safeTV1MaxGainStep)%f64.

(** One step of the safe law for a path whose last applied gain is [last] (zero when the
    map has none); the gain is also what the map holds afterwards. *)
Definition computeSafeTV1GainBackoff (last : float) (t : controlLawTermsInput)
  : float * float * ControlLawDiagnostics :=
  let '(tp, lossPen, delayPen, _) := computeGainMappingTerms t in
  let delayBounded := boundDelayPenaltyForGain delayPen in
  let gainRaw := (f1 + tp + lossPen + delayBounded)%f64 in
  let gainClamped := clamp gainRaw safeTV1GainMin safeTV1GainMax in
  let prev := if feq last f0 then f1 else last in
  let applied := stepLimitGain prev gainClamped in
  let retRaw := computeRetentionMappingTerms t in
  let retention := clamp retRaw legacyRetMin legacyRetMax in
  (applied, retention,
   MkDiag tp lossPen delayPen gainRaw gainClamped (fle gainClamped (lit64 950000000001 1000000000000))
     (fle (lit64 1099999999999 1000000000000) gainClamped) retRaw retention
     (hit_min retention legacyRetMin) (hit_max retention legacyRetMax)
     ControlLawSafeTV1 delayBounded prev applied).

(** [U = G^alpha - beta*G*L - gamma*G*D]. *)
Definition qaccessUtility (gTotal normD normL alpha beta gamma : float) : float :=
  let g := if fle gTotal f0 then lit64 1 1000000000 else gTotal in
  (Pow g alpha - (beta * g * normL + gamma * g * normD))%f64.

End ControlLaw.

(** ** Metrics *)

Record PathMetrics : Type := MkMetrics {
  PathID : Z;
  BWbps : float;
  OWDms : float;
  DelayGradientMs : float;
  LossRate : float;
  InflightBytes : Z;
}.

Record PathState : Type := MkPathState { LastOWDms : float; LastBWbps : float; LastLoss : float; LastTime : Z }.

Definition PathMetricsActive (pm : PathMetrics) : bool :=
  if flt f0 (sanitizeMetric (BWbps pm)) || flt f0 (sanitizeMetric (OWDms pm)) then true
  else inflightActiveMin <? InflightBytes pm.

Definition normalizeG (bwBps : float) : float := clamp (sanitizeMetric bwBps / bwRefBps)%f64 f0 f1.
Definition normalizeL (loss : float) : float := clamp (sanitizeMetric loss / lossRef)%f64 f0 f1.
Definition normalizeD (owdMs delayTrendMs : float) : float :=
  let delayLevel := clamp (sanitizeMetric owdMs / delayRefMs)%f64 f0 f1 in
  let trend := if flt f0 delayTrendMs
               then clamp (sanitizeMetric delayTrendMs / delayTrendRefMs)%f64 f0 f1 else f0 in
  clamp (lit64 7 10 * delayLevel + lit64 3 10 * trend)%f64 f0 f1.

Definition ComputeRoundGTotal (paths : list PathMetrics) : float :=
  let sum := fold_left (fun sum pm =>
    if negb (PathMetricsActive pm) then sum else (sum + sanitizeMetric (BWbps pm) / bwRefBps)%f64) paths f0 in
  clamp sum f0 f1.

(** ** The objective trigger *)

Record objectiveTriggerState : Type := MkTrigger {
  referenceSamples : list float;
  reference : float;
  referenceReady : bool;
  current : float;
  absoluteChange : float;
  relativeChange : float;
  triggerStreak : Z;
  recoveryStreak : Z;
  triggered : bool;
  requestPending : bool;
}.

Definition new_trigger : objectiveTriggerState := MkTrigger [] f0 false f0 f0 f0 0 0 false false.

Inductive TriggerMode : Type := TriggerLegacy | ObjectiveT | ObjectiveD | ObjectiveL | TriggerOther.

(** The part of [qaccessPhase2Config] the trigger reads. *)
Record triggerConfig : Type := MkTriggerConfig {
  triggerMode : TriggerMode;
  triggerReferenceStart : float;
  triggerReferenceEnd : float;
  triggerActivateSamples : Z;
  triggerRecoverySamples : Z;
  triggerTAbsBps : float;
  triggerTRelative : float;
  triggerDAbsMs : float;
  triggerDRelative : float;
  triggerLRatio : float;
}.

Definition objectiveTriggerEnabled (c : triggerConfig) : bool :=
  match triggerMode c with TriggerLegacy => false | _ => true end.

Definition objectiveTriggerConfigurationValid (c : triggerConfig) (m : UtilityMode) : bool :=
  match triggerMode c, m with
  | TriggerLegacy, _ | ObjectiveT, ModeQAccessT | ObjectiveD, ModeQAccessD | ObjectiveL, ModeQAccessL => true
  | _, _ => false
  end.

(** [sort.Float64s]; the samples are never NaN. *)
Fixpoint insert_float (x : float) (l : list float) : list float :=
  match l with
  | [] => [x]
  | y :: l' => if flt x y then x :: y :: l' else y :: insert_float x l'
  end.
Definition sort_floats (l : list float) : list float := foldr insert_float [] l.

Definition medianFloat64 (values : list float) : float :=
  match values with
  | [] => f0
  | _ =>
      let ordered := sort_floats values in
      let n := length ordered in
      let mid := (n / 2)%nat in
      if Nat.odd n then default f0 (ordered !! mid)
      else ((default f0 (ordered !! (mid - 1)%nat) + default f0 (ordered !! mid)) / of_Z64 2)%f64
  end.

Definition objectiveMetric (c : triggerConfig) (pm : PathMetrics) : float :=
  match triggerMode c with
  | ObjectiveT => BWbps pm
  | ObjectiveD => OWDms pm
  | ObjectiveL => LossRate pm
  | _ => f0
  end.

Definition objectiveDeteriorated (c : triggerConfig) (ref cur : float) : bool * float * float :=
  let delta := (cur - ref)%f64 in
  let relative := if flt epsilon12 (SFabs ref) then (delta / SFabs ref)%f64 else f0 in
  (match triggerMode c with
   | ObjectiveT => fle (triggerTAbsBps c) (SFabs delta) || fle (triggerTRelative c) (SFabs relative)
   | ObjectiveD => flt f0 delta && (fle (triggerDAbsMs c) delta || fle (triggerDRelative c) relative)
   | ObjectiveL => fle (triggerLRatio c) delta
   | _ => false
   end, delta, relative).

(** The streaks after one more sample. *)
Definition count_sample (c : triggerConfig) (s : objectiveTriggerState) (deteriorated : bool) : objectiveTriggerState :=
  let set streak recovery trig pending :=
    MkTrigger (referenceSamples s) (reference s) (referenceReady s) (current s) (absoluteChange s)
      (relativeChange s) streak recovery trig pending in
  if deteriorated then
    if negb (triggered s) then
      let streak := i64 (triggerStreak s + 1) in
      if triggerActivateSamples c <=? streak then set streak 0 true true
      else set streak 0 (triggered s) (requestPending s)
    else set (triggerStreak s) 0 (triggered s) (requestPending s)
  else if triggered s then
    let recovery := i64 (recoveryStreak s + 1) in
    if triggerRecoverySamples c <=? recovery then set 0 0 false false
    else set 0 recovery (triggered s) (requestPending s)
  else set 0 (recoveryStreak s) (triggered s) (requestPending s).

(** The reference: the median of the samples of the reference interval, or the first sample of
    a path that starts late. *)
Definition update_reference (c : triggerConfig) (s : objectiveTriggerState) (cur elapsed : float) : objectiveTriggerState :=
  let set samples ref ready :=
    MkTrigger samples ref ready cur (absoluteChange s) (relativeChange s)
      (triggerStreak s) (recoveryStreak s) (triggered s) (requestPending s) in
  let s1 :=
    if fle (triggerReferenceStart c) elapsed && fle elapsed (triggerReferenceEnd c)
    then let samples := referenceSamples s ++ [cur] in set samples (medianFloat64 samples) true
    else set (referenceSamples s) (reference s) (referenceReady s) in
  if flt (triggerReferenceEnd c) elapsed && negb (referenceReady s1)
  then set (referenceSamples s1 ++ [cur]) cur true else s1.

(** The update of one path's state by [observeObjectiveTrigger]. *)
Definition observe_sample (c : triggerConfig) (s : objectiveTriggerState) (cur elapsed : float) : objectiveTriggerState :=
  let s := update_reference c s cur elapsed in
  if negb (referenceReady s) || fle elapsed (triggerReferenceEnd c) then s
  else
    let '(deteriorated, absolute, relative) := objectiveDeteriorated c (reference s) cur in
    count_sample c
      (MkTrigger (referenceSamples s) (reference s) (referenceReady s) cur absolute relative
         (triggerStreak s) (recoveryStreak s) (triggered s) (requestPending s)) deteriorated.

(** ** The controller *)

Record UtilityController : Type := MkController {
  Mode : UtilityMode;
  Prev : gmap Z PathState;
  MinGain : float;
  MaxGain : float;
  MinBackoff : float;
  MaxBackoff : float;
  roundGTotal : float;
  coeffs : QAccessCoefficients;
  coeffsDoc : QAccessCoeffsDocument;
  perPathCoeffs : option (gmap Z QAccessCoefficients);
  phase2 : triggerConfig;
  currentRoundTotalBwBps : float;
  currentRoundActivePaths : Z;
  objectiveTriggerStates : gmap Z objectiveTriggerState;
  collectIdx : Z;
  controlLawMode : ControlLawMode;
  prevAppliedGain : gmap Z float;
}.

Definition zero_doc : QAccessCoeffsDocument := MkDoc 0 (MkEntry f0 f0 f0) ∅ f0 f0 f0 "" "".

(** A new controller before its coefficients are read from a file. *)
Definition newUtilityController (mode : UtilityMode) (law : ControlLawMode) (p2 : triggerConfig) : UtilityController :=
  MkController mode ∅ legacyGainMin legacyGainMax legacyRetMin legacyRetMax f0 defaultQAccessTCoefficients
    zero_doc None p2 f0 0 ∅ 0 law ∅.

Definition getCoefficientsForPath (uc : UtilityController) (pathID : Z) : QAccessCoefficients :=
  let fallback := if Version (coeffsDoc uc) =? qaccessCoeffsVersion
                  then ResolveCoefficientsForPath (coeffsDoc uc) pathID else coeffs uc in
  match perPathCoeffs uc with
  | Some m => default fallback (m !! pathID)
  | None => fallback
  end.

(** [strconv.ParseUint(key, 10, 8)] *)
Fixpoint parse_digits (s : string) (n : Z) : option Z :=
  match s with
  | EmptyString => Some n
  | String c s' =>
      let d := Z.of_nat (Ascii.nat_of_ascii c) - 48 in
      if (0 <=? d) && (d <=? 9) then
        let n := n * 10 + d in
        if 255 <? n then None else parse_digits s' n
      else None
  end.
Definition ParseUint8 (s : string) : option Z :=
  match s with EmptyString => None | _ => parse_digits s 0 end.

Definition with_metric (doc : QAccessCoeffsDocument) (c : QAccessCoefficients) : QAccessCoefficients :=
  if decide (DMetric doc = ""%string) then c else MkCoeffs (Alpha c) (Beta c) (Gamma c) (Source c) (DMetric doc).

(** The coefficients of every path the document names.  Two keys of one path ([1] and [01])
    give the same entry, so the order the map is walked in does not matter. *)
Definition per_path_coefficients (doc : QAccessCoeffsDocument) : gmap Z QAccessCoefficients :=
  list_to_map (omap (fun kv => pid ← ParseUint8 kv.1;
                               Some (pid, with_metric doc (ResolveCoefficientsForPath doc pid)))
                 (map_to_list (Paths doc))).

Definition set_coefficients (uc : UtilityController) (c : QAccessCoefficients) (doc : QAccessCoeffsDocument)
    (per : option (gmap Z QAccessCoefficients)) : UtilityController :=
  MkController (Mode uc) (Prev uc) (MinGain uc) (MaxGain uc) (MinBackoff uc) (MaxBackoff uc) (roundGTotal uc)
    c doc per (phase2 uc) (currentRoundTotalBwBps uc) (currentRoundActivePaths uc) (objectiveTriggerStates uc)
    (collectIdx uc) (controlLawMode uc) (prevAppliedGain uc).

(** [reloadCoefficientsFromDisk] on what decoding the file gave: a document, or an error. *)
Definition reloadCoefficientsFromDisk (uc : UtilityController) (file : option QAccessCoeffsDocument) : UtilityController :=
  match file with
  | None => set_coefficients uc defaultQAccessTCoefficients (coeffsDoc uc) None
  | Some d =>
      let doc := normalizeCoeffsDocument d in
      let fallback := with_metric doc (ResolveCoefficientsForPath doc 0) in
      let fallback := if bool_decide (DSource doc <> ""%string) && bool_decide (Source fallback = "default"%string)
                      then MkCoeffs (Alpha fallback) (Beta fallback) (Gamma fallback) (DSource doc) (Metric fallback)
                      else fallback in
      set_coefficients uc fallback doc (Some (per_path_coefficients doc))
  end.

Definition SetMode (uc : UtilityController) (mode : UtilityMode) : UtilityController :=
  MkController mode (Prev uc) (MinGain uc) (MaxGain uc) (MinBackoff uc) (MaxBackoff uc) (roundGTotal uc)
    (coeffs uc) (coeffsDoc uc) (perPathCoeffs uc) (phase2 uc) (currentRoundTotalBwBps uc)
    (currentRoundActivePaths uc) (objectiveTriggerStates uc) (collectIdx uc) (controlLawMode uc) (prevAppliedGain uc).

(** The end of [BeginMonitorRound]: the next candidate when training data is collected, and
    no aggregate throughput yet. *)
Definition next_round (uc : UtilityController) (collecting : bool) : UtilityController :=
  MkController (Mode uc) (Prev uc) (MinGain uc) (MaxGain uc) (MinBackoff uc) (MaxBackoff uc) f0
    (coeffs uc) (coeffsDoc uc) (perPathCoeffs uc) (phase2 uc) (currentRoundTotalBwBps uc)
    (currentRoundActivePaths uc) (objectiveTriggerStates uc)
    (match Mode uc with ModeQAccessCollect => if collecting then i64 (collectIdx uc + 1) else collectIdx uc | _ => collectIdx uc end)
    (controlLawMode uc) (prevAppliedGain uc).

Definition SetRoundGTotal (uc : UtilityController) (gTotal : float) : UtilityController :=
  MkController (Mode uc) (Prev uc) (MinGain uc) (MaxGain uc) (MinBackoff uc) (MaxBackoff uc)
    (clamp (sanitizeMetric gTotal) f0 f1) (coeffs uc) (coeffsDoc uc) (perPathCoeffs uc) (phase2 uc)
    (currentRoundTotalBwBps uc) (currentRoundActivePaths uc) (objectiveTriggerStates uc) (collectIdx uc)
    (controlLawMode uc) (prevAppliedGain uc).

Definition noteActivePathThroughput (uc : UtilityController) (pm : PathMetrics) : UtilityController :=
  if negb (PathMetricsActive pm) then uc
  else
    MkController (Mode uc) (Prev uc) (MinGain uc) (MaxGain uc) (MinBackoff uc) (MaxBackoff uc)
      (roundGTotal uc) (coeffs uc) (coeffsDoc uc) (perPathCoeffs uc) (phase2 uc)
      (currentRoundTotalBwBps uc + sanitizeMetric (BWbps pm))%f64 (i64 (currentRoundActivePaths uc + 1))
      (objectiveTriggerStates uc) (collectIdx uc) (controlLawMode uc) (prevAppliedGain uc).

Definition observeObjectiveTrigger (uc : UtilityController) (pm : PathMetrics) (elapsed : float) : UtilityController :=
  if negb (objectiveTriggerEnabled (phase2 uc)) || negb (objectiveTriggerConfigurationValid (phase2 uc) (Mode uc)) then uc
  else
    let state := default new_trigger (objectiveTriggerStates uc !! PathID pm) in
    let cur := sanitizeMetric (objectiveMetric (phase2 uc) pm) in
    MkController (Mode uc) (Prev uc) (MinGain uc) (MaxGain uc) (MinBackoff uc) (MaxBackoff uc)
      (roundGTotal uc) (coeffs uc) (coeffsDoc uc) (perPathCoeffs uc) (phase2 uc)
      (currentRoundTotalBwBps uc) (currentRoundActivePaths uc)
      (<[PathID pm := observe_sample (phase2 uc) state cur elapsed]> (objectiveTriggerStates uc))
      (collectIdx uc) (controlLawMode uc) (prevAppliedGain uc).

Definition set_gain_and_state (uc : UtilityController) (path : Z) (gain : option float) (st : PathState) : UtilityController :=
  MkController (Mode uc) (<[path := st]> (Prev uc)) (MinGain uc) (MaxGain uc) (MinBackoff uc) (MaxBackoff uc)
    (roundGTotal uc) (coeffs uc) (coeffsDoc uc) (perPathCoeffs uc) (phase2 uc)
    (currentRoundTotalBwBps uc) (currentRoundActivePaths uc) (objectiveTriggerStates uc) (collectIdx uc)
    (controlLawMode uc) (match gain with Some g => <[path := g]> (prevAppliedGain uc) | None => prevAppliedGain uc end).

Record ControlSignal : Type := MkSignal {
  SPathID : Z;
  SMode : UtilityMode;
  Utility : float;
  Gain : float;
  Backoff : float;
  SNormG : float;
  SNormD : float;
  SNormL : float;
  SGTotal : float;
  SAlpha : float;
  SBeta : float;
  SGamma : float;
  DelayTrend : float;
  Active : bool;
  Diagnostics : option ControlLawDiagnostics;
}.

(** [math.Round(x*10000) / 10000] *)
Definition round4 (x : float) : float := (math_Round (x * of_Z64 10000) / of_Z64 10000)%f64.

Section Compute.
Context (Pow : float -> float -> float).

(** Gain, backoff, utility and diagnostics of an active path, with the gain the safe law
    remembers. *)
Definition control (uc : UtilityController) (path : Z) (gTotal normD normL alpha beta gamma : float)
  : float * float * float * option ControlLawDiagnostics * option float :=
  let u := qaccessUtility Pow gTotal normD normL alpha beta gamma in
  let t := MkTerms gTotal normD normL alpha beta gamma in
  if isQAccessRuntimeMode (Mode uc) then
    match controlLawMode uc with
    | ControlLawSafeTV1 =>
        let '(g, b, d) := computeSafeTV1GainBackoff Pow (default f0 (prevAppliedGain uc !! path)) t in
        (u, g, b, Some d, Some g)
    | ControlLawLegacy =>
        let '(g, b, d) := computeLegacyGainBackoffWithDiagnostics Pow
                            (MinGain uc) (MaxGain uc) (MinBackoff uc) (MaxBackoff uc) t in
        (u, g, b, Some d, None)
    end
  else
    let '(g, b, d) := computeLegacyGainBackoffWithDiagnostics Pow
                        (MinGain uc) (MaxGain uc) (MinBackoff uc) (MaxBackoff uc) t in
    (u, g, b, Some d, None).

Definition Compute (uc : UtilityController) (pm : PathMetrics) (now : Z) (elapsed : float)
  : ControlSignal * UtilityController :=
  let pm := MkMetrics (PathID pm) (sanitizeMetric (BWbps pm)) (sanitizeMetric (OWDms pm))
              (DelayGradientMs pm) (sanitizeMetric (LossRate pm)) (InflightBytes pm) in
  let active := PathMetricsActive pm in
  let uc := if isQAccessRuntimeMode (Mode uc) then
              let uc := noteActivePathThroughput uc pm in
              if active then observeObjectiveTrigger uc pm elapsed else uc
            else uc in
  let lastOWD := match Prev uc !! PathID pm with Some p => LastOWDms p | None => OWDms pm end in
  let gradient := if feq (DelayGradientMs pm) f0 then (OWDms pm - lastOWD)%f64 else DelayGradientMs pm in
  let normG := normalizeG (BWbps pm) in
  let normL := normalizeL (LossRate pm) in
  let normD := normalizeD (OWDms pm) gradient in
  let gTotal := if fle (roundGTotal uc) f0 && active then normG else roundGTotal uc in
  let c := getCoefficientsForPath uc (PathID pm) in
  let '(alpha, beta, gamma) :=
    match Mode uc with
    | ModeQAccessCollect => default (f0, f0, f0) (QAccessCandidateAt (Z.rem (collectIdx uc) qaccessCandidateCount))
    | _ => (Alpha c, Beta c, Gamma c)
    end in
  let '(u, gain, backoff, diag, last) :=
    match Mode uc with
    | ModeBaseline => (f0, f1, f1, None, None)
    | _ => if active then control uc (PathID pm) gTotal normD normL alpha beta gamma
           else (f0, f1, f1, None, None)
    end in
  (MkSignal (PathID pm) (Mode uc) (round4 u) (round4 gain) (round4 backoff) (round4 normG) (round4 normD)
     (round4 normL) (round4 gTotal) alpha beta gamma (round4 gradient) active diag,
   set_gain_and_state uc (PathID pm) last (MkPathState (OWDms pm) (BWbps pm) (LossRate pm) now)).

(** ** Runs *)

Inductive control_event : Type :=
| Reload (file : option QAccessCoeffsDocument)
| ChangeMode (mode : UtilityMode)
| NextRound (collecting : bool)
| RoundTotal (gTotal : float)
| Measure (pm : PathMetrics) (now : Z) (elapsed : float).

Definition control_step (uc : UtilityController) (e : control_event) : UtilityController * list ControlSignal :=
  match e with
  | Reload file => (reloadCoefficientsFromDisk uc file, [])
  | ChangeMode m => (SetMode uc m, [])
  | NextRound c => (next_round uc c, [])
  | RoundTotal g => (SetRoundGTotal uc g, [])
  | Measure pm now elapsed => let '(sig, uc) := Compute uc pm now elapsed in (uc, [sig])
  end.

(** The signals of a run and the controller after it. *)
Fixpoint control_run (uc : UtilityController) (es : list control_event) : UtilityController * list ControlSignal :=
  match es with
  | [] => (uc, [])
  | e :: es => let '(uc, out) := control_step uc e in let '(uc, rest) := control_run uc es in (uc, out ++ rest)
  end.

End Compute.

(** ** Ranges *)

(** A non-negative number or its overflow. *)
Definition nonneg (x : float) : Prop := (valid64 x /\ (0 <= val x)%R) \/ x = S754_infinity false.

Lemma val_f0 : val f0 = 0%R.
Proof. reflexivity. Qed.

Lemma sanitizeMetric_spec v :
  valid_binary 53 1024 v = true -> valid64 (sanitizeMetric v) /\ (0 <= val (sanitizeMetric v))%R.
Proof.
  intros Hv. unfold sanitizeMetric. assert (valid64 f0) as H0 by done.
  destruct (is_nan v || is_inf v) eqn:Hf; cbn [orb]; [split; [done|rewrite val_f0; lra]|].
  assert (valid64 v) as Hx by (split; [done|unfold is_finite; by rewrite Hf]).
  destruct (flt v f0) eqn:Hlt; [split; [done|rewrite val_f0; lra]|].
  apply (flt64_false _ _ Hx H0) in Hlt. split; [done|]. rewrite val_f0 in Hlt. lra.
Qed.

Lemma clamp_within x lo hi :
  valid64 x -> valid64 lo -> valid64 hi -> (val lo <= val hi)%R -> within lo hi (clamp x lo hi).
Proof.
  intros Hx Hlo Hhi Hle. unfold clamp, within. destruct (flt x lo) eqn:H1.
  - split; [done|lra].
  - apply (flt64_false _ _ Hx Hlo) in H1. destruct (flt hi x) eqn:H2; [split; [done|lra]|].
    apply (flt64_false _ _ Hhi Hx) in H2. split; [done|lra].
Qed.

(** A number between 0 and 1. *)
Definition unit (x : float) : Prop := valid64 x /\ (0 <= val x <= 1)%R.

Lemma unit_bnd x : unit x -> bnd 1 x.
Proof. intros [H1 H2]. split; [done|]. apply Rabs_bounds. lra. Qed.

Lemma val_f1 : valid64 f1 /\ val f1 = 1%R.
Proof. apply (of_Z64_exact 1). lia. Qed.

Lemma clamp_unit x : nonneg x -> unit (clamp x f0 f1).
Proof.
  destruct val_f1 as [H1 E1]. intros [[Hx H0]| ->].
  - destruct (clamp_within x f0 f1 Hx) as [Hv Hb]; [done|done|rewrite val_f0, E1; lra|]. split; [done|].
    rewrite val_f0, E1 in Hb. lra.
  - assert (clamp (S754_infinity false) f0 f1 = f1) as -> by reflexivity. split; [done|rewrite E1; lra].
Qed.

Lemma div_nonneg x y : valid64 x -> (0 <= val x)%R -> valid64 y -> (0 < val y)%R -> nonneg (x / y)%f64.
Proof. intros. by apply div64_nonneg. Qed.

Lemma const_pos x : valid64 x -> flt f0 x = true -> (0 < val x)%R.
Proof. intros Hx H. apply (flt64 f0 x) in H; done. Qed.

Lemma ratio_unit v c : valid_binary 53 1024 v = true -> valid64 c -> flt f0 c = true ->
  unit (clamp (sanitizeMetric v / c)%f64 f0 f1).
Proof.
  intros Hv Hc H. destruct (sanitizeMetric_spec v Hv). apply clamp_unit, div_nonneg; try done. by apply const_pos.
Qed.

Lemma normalizeG_unit v : valid_binary 53 1024 v = true -> unit (normalizeG v).
Proof. intros H. apply ratio_unit; [done|vm_compute; done|vm_compute; done]. Qed.

Lemma normalizeL_unit v : valid_binary 53 1024 v = true -> unit (normalizeL v).
Proof. intros H. apply ratio_unit; [done|vm_compute; done|vm_compute; done]. Qed.

Lemma clamp_unit_bnd k x : bnd k x -> unit (clamp x f0 f1).
Proof.
  intros [Hx _]. destruct val_f1 as [H1 E1]. destruct (clamp_within x f0 f1 Hx) as [Hv Hb]; [done|done|rewrite val_f0, E1; lra|].
  split; [done|]. rewrite val_f0, E1 in Hb. lra.
Qed.

Lemma normalizeD_unit v trend :
  valid_binary 53 1024 v = true -> valid_binary 53 1024 trend = true -> unit (normalizeD v trend).
Proof.
  intros Hv Ht. unfold normalizeD.
  assert (unit (clamp (sanitizeMetric v / delayRefMs)%f64 f0 f1)) as Hl by (apply ratio_unit; [done|vm_compute; done|vm_compute; done]).
  set (t := if flt f0 trend then _ else _). assert (unit t) as Htr.
  { unfold t. destruct (flt f0 trend); [apply ratio_unit; [done|vm_compute; done|vm_compute; done]|].
    split; [done|rewrite val_f0; lra]. }
  apply (clamp_unit_bnd (1 * 1 + 1 * 1)). apply bnd_add; [| |lia].
  - apply bnd_mul; [apply bnd_const; [vm_compute; done|lia]|by apply unit_bnd|lia|lia].
  - apply bnd_mul; [apply bnd_const; [vm_compute; done|lia]|by apply unit_bnd|lia|lia].
Qed.

(** ** Coefficients *)

Definition coefficient_ok (alpha beta gamma : float) : Prop :=
  valid64 alpha /\ (0 < val alpha <= 2)%R /\ unit beta /\ unit gamma.

Lemma finitePositive_spec v : valid_binary 53 1024 v = true -> finitePositive v (of_Z64 2) = true ->
  valid64 v /\ (0 < val v <= 2)%R.
Proof.
  intros Hv H. unfold finitePositive in H. apply negb_true_iff in H.
  apply orb_false_elim in H as [H H4]. apply orb_false_elim in H as [H H3].
  assert (valid64 v) as Hx by (split; [done|unfold is_finite; by rewrite H]).
  destruct (of_Z64_exact 2 ltac:(lia)) as [H2 E2]. apply (flt64_false _ _ H2 Hx) in H4.
  assert (~ (val v <= val f0)%R) as Hn by (rewrite <- (fle64 _ _ Hx); [by rewrite H3|done]).
  rewrite val_f0 in Hn. split; [done|lra].
Qed.

Lemma finiteNonNeg_spec v : valid_binary 53 1024 v = true -> finiteNonNeg v f1 = true -> unit v.
Proof.
  intros Hv H. unfold finiteNonNeg in H. apply negb_true_iff in H.
  apply orb_false_elim in H as [H H4]. apply orb_false_elim in H as [H H3].
  assert (valid64 v) as Hx by (split; [done|unfold is_finite; by rewrite H]).
  destruct val_f1 as [H1 E1]. apply (flt64_false _ _ H1 Hx) in H4. apply (flt64_false v f0 Hx) in H3; [|done].
  rewrite val_f0 in H3. split; [done|lra].
Qed.

Lemma validCoeffEntry_spec a b g :
  valid_binary 53 1024 a = true -> valid_binary 53 1024 b = true -> valid_binary 53 1024 g = true ->
  validCoeffEntry a b g = true -> coefficient_ok a b g.
Proof.
  intros Ha Hb Hg H. unfold validCoeffEntry in H. apply andb_prop in H as [H H3]. apply andb_prop in H as [H1 H2].
  destruct (finitePositive_spec a Ha H1). split; [done|]. split; [done|]. split; by apply finiteNonNeg_spec.
Qed.

Definition binary64_entry (e : QAccessCoeffEntry) : Prop :=
  valid_binary 53 1024 (EAlpha e) = true /\ valid_binary 53 1024 (EBeta e) = true /\ valid_binary 53 1024 (EGamma e) = true.

(** A document of binary64 numbers, NaN and infinities included. *)
Definition binary64_doc (d : QAccessCoeffsDocument) : Prop :=
  binary64_entry (Default d) /\ map_Forall (fun _ e => binary64_entry e) (Paths d)
  /\ binary64_entry (MkEntry (DAlpha d) (DBeta d) (DGamma d)).

Definition coeffs_ok (c : QAccessCoefficients) : Prop := coefficient_ok (Alpha c) (Beta c) (Gamma c).

Lemma default_coeffs_ok : coeffs_ok defaultQAccessTCoefficients.
Proof. apply validCoeffEntry_spec; vm_compute; done. Qed.

Lemma from_entry_ok e src m : binary64_entry e -> valid_entry e = true -> coeffs_ok (from_entry e src m).
Proof. intros (H1 & H2 & H3) H. by apply validCoeffEntry_spec. Qed.

Lemma normalize_binary64 d : binary64_doc d -> binary64_doc (normalizeCoeffsDocument d).
Proof.
  intros (H1 & H2 & H3). unfold normalizeCoeffsDocument. destruct (Version d =? _).
  - split_and!; cbn.
    + destruct (valid_entry (Default d)); cbn [negb]; [done|]. split_and!; vm_compute; done.
    + intros k e He. apply map_lookup_filter_Some in He as [He _]. by apply (H2 k).
    + done.
  - unfold entryFromMapping. destruct (validCoeffEntry _ _ _); cbn [negb]; [|done].
    split_and!; cbn; [done|apply map_Forall_empty|done].
Qed.

Lemma resolved_ok doc path : binary64_doc doc -> coeffs_ok (ResolveCoefficientsForPath doc path).
Proof.
  intros Hd. apply normalize_binary64 in Hd as (H1 & H2 & H3). unfold ResolveCoefficientsForPath.
  set (d := normalizeCoeffsDocument doc) in *. cbn zeta.
  match goal with |- context [match Paths d !! _ with Some _ => _ | None => ?f end] => set (fb := f) end.
  assert (coeffs_ok fb) as Hfb.
  { unfold fb. destruct (valid_entry (Default d)) eqn:Hv; [by apply from_entry_ok|].
    destruct (negb _); [|apply default_coeffs_ok]. unfold entryFromMapping.
    destruct (validCoeffEntry _ _ _) eqn:Hl; cbn [negb]; [|apply default_coeffs_ok]. by apply from_entry_ok. }
  destruct (Paths d !! _) as [e|] eqn:He; [|done].
  destruct (valid_entry e) eqn:Hv; [|done]. apply from_entry_ok; [|done]. by eapply H2.
Qed.

(** Whatever numbers the coefficient file holds, NaN and infinities included, the
    coefficients a path is controlled with are finite and in range: an exponent in (0, 2] and
    two weights in [0, 1]. *)
Theorem resolved_coefficients_valid doc path :
  binary64_doc doc -> coeffs_ok (ResolveCoefficientsForPath doc path).
Proof. apply resolved_ok. Qed.

Definition bad_doc : QAccessCoeffsDocument :=
  MkDoc 1 (MkEntry S754_nan f0 f0) {[ "3"%string := MkEntry (of_Z64 7) f0 f0 ]} f0 f0 f0 "" "".

Lemma resolved_coefficients_valid_witness : coeffs_ok (ResolveCoefficientsForPath bad_doc 3).
Proof.
  apply resolved_coefficients_valid. split_and!; cbn; try done.
  apply map_Forall_singleton. by split_and!; vm_compute.
Defined.

(** ** Gain and backoff *)

(** The documented behaviour of [math.Pow] on the numbers it is called with here. *)
Definition Pow_ok (Pow : float -> float -> float) : Prop :=
  forall g a, valid64 g -> (0 < val g <= 1)%R -> valid64 a -> (0 < val a <= 2)%R -> unit (Pow g a).

Ltac const_bnd := apply bnd_const; [vm_compute; done|lia].

Section Gain.
Context (Pow : float -> float -> float) (HPow : Pow_ok Pow).

Definition terms_ok (t : controlLawTermsInput) : Prop :=
  unit (GTotal t) /\ unit (NormD t) /\ unit (NormL t) /\ coefficient_ok (TAlpha t) (TBeta t) (TGamma t).

Lemma gPow_unit t : terms_ok t -> unit (gTotalPowAlpha Pow (GTotal t) (TAlpha t)).
Proof.
  intros ([Hg Hgb] & _ & _ & (Ha & Hab & _)). unfold gTotalPowAlpha. destruct (fle (GTotal t) f0) eqn:H.
  - split; [done|rewrite val_f0; lra].
  - apply HPow; try done. assert (~ (val (GTotal t) <= val f0)%R) as Hn by (rewrite <- (fle64 _ f0 Hg); [by rewrite H|done]).
    rewrite val_f0 in Hn. lra.
Qed.

Lemma gain_terms_bnd t : terms_ok t ->
  let '(r, l, d, g) := computeGainMappingTerms Pow t in bnd 1 r /\ bnd 5 l /\ bnd 5 d /\ bnd 12 g.
Proof.
  intros Ht. pose proof (unit_bnd _ (gPow_unit t Ht)) as Hp.
  destruct Ht as (_ & HD & HL & (_ & _ & HB & HG)). apply unit_bnd in HD, HL, HB, HG. cbn [computeGainMappingTerms].
  assert (bnd 1 (lit64 20 100 * gTotalPowAlpha Pow (GTotal t) (TAlpha t))%f64) as Hr.
  { apply (bnd_mul 1 1); [const_bnd|done|lia|lia]. }
  assert (forall k x y, bnd 1 k -> bnd 1 x -> bnd 1 y -> bnd 5 (k * x * of_Z64 5 * y)%f64) as Hterm.
  { intros k x y Hk Hx Hy. apply (bnd_mul 5 1); [|done|lia|lia]. apply (bnd_mul 1 5); [|const_bnd|lia|lia].
    apply (bnd_mul 1 1); [done|done|lia|lia]. }
  assert (bnd 5 (SFopp (lit64 10 100) * TBeta t * of_Z64 5 * NormL t)%f64) as Hl by (apply Hterm; [const_bnd|done|done]).
  assert (bnd 5 (SFopp (lit64 5 100) * TGamma t * of_Z64 5 * NormD t)%f64) as Hd by (apply Hterm; [const_bnd|done|done]).
  split_and!; [done|done|done|]. apply (bnd_add 7 5); [|done|lia]. apply (bnd_add 2 5); [|done|lia].
  apply (bnd_add 1 1); [const_bnd|done|lia].
Qed.

Lemma retention_bnd t : terms_ok t -> bnd 12 (computeRetentionMappingTerms Pow t).
Proof.
  intros Ht. pose proof (unit_bnd _ (gPow_unit t Ht)) as Hp.
  destruct Ht as (_ & HD & HL & (_ & _ & HB & HG)). apply unit_bnd in HD, HL, HB, HG. unfold computeRetentionMappingTerms.
  assert (forall k x y, bnd 1 k -> bnd 1 x -> bnd 1 y -> bnd 5 (k * x * of_Z64 5 * y)%f64) as Hterm.
  { intros k x y Hk Hx Hy. apply (bnd_mul 5 1); [|done|lia|lia]. apply (bnd_mul 1 5); [|const_bnd|lia|lia].
    apply (bnd_mul 1 1); [done|done|lia|lia]. }
  apply (bnd_add 7 5); [|apply Hterm; [const_bnd|done|done]|lia].
  apply (bnd_add 2 5); [|apply Hterm; [const_bnd|done|done]|lia].
  apply (bnd_add 1 1); [const_bnd|apply (bnd_mul 1 1); [const_bnd|done|lia|lia]|lia].
Qed.

Lemma legacy_within t : terms_ok t ->
  let '(g, b, _) := computeLegacyGainBackoffWithDiagnostics Pow legacyGainMin legacyGainMax legacyRetMin legacyRetMax t in
  gain_ok g /\ backoff_ok b.
Proof.
  intros Ht. pose proof (gain_terms_bnd t Ht) as Hg. pose proof (retention_bnd t Ht) as [Hr _].
  unfold computeLegacyGainBackoffWithDiagnostics. destruct (computeGainMappingTerms Pow t) as [[[r l] d] g].
  destruct Hg as (_ & _ & _ & [Hg _]). destruct gain_neutral as [[_ H1] [_ H2]].
  split; (apply clamp_within; [done|vm_compute; done|vm_compute; done|]).
  - change legacyGainMin with OliaSender.utilityGainMin. change legacyGainMax with OliaSender.utilityGainMax. lra.
  - change legacyRetMin with OliaSender.utilityBackoffMin. change legacyRetMax with OliaSender.utilityBackoffMax. lra.
Qed.

(** *** The safe law *)

Definition safe_ok : float -> Prop := within safeTV1GainMin safeTV1GainMax.

Lemma safe_bounds x : safe_ok x -> valid64 x /\ (9 / 10 <= val x <= 6 / 5)%R.
Proof.
  intros [Hx Hb]. split; [done|]. real_value safeTV1GainMin as E1. real_value safeTV1GainMax as E2. lra.
Qed.

(** A step stays between the last gain and the target, and moves by at most the step. *)
Lemma step_within prev target :
  safe_ok prev -> safe_ok target ->
  safe_ok (stepLimitGain prev target)
  /\ (Rabs (val (stepLimitGain prev target) - val prev) <= 0.02 + / 1000000000)%R.
Proof.
  intros Hp Ht. destruct (safe_bounds _ Hp) as [Vp Bp]. destruct (safe_bounds _ Ht) as [Vt Bt].
  destruct (sub_exact target prev Vt Vp) as [Vd Ed]; [lra|lra|apply Rabs_bounds; lra|].
  set (d := (target - prev)%f64) in *. real_value safeTV1MaxGainStep as Es.
  assert (valid64 safeTV1MaxGainStep) as Vs by (split; vm_compute; reflexivity).
  destruct (SFopp_valid 53 1024 safeTV1MaxGainStep Vs) as [Vo Eo].
  assert (forall x, valid64 x -> (val prev <= val prev + val x <= val target \/ val target <= val prev + val x <= val prev)%R ->
            (Rabs (val x) <= 0.02 + / 2000000000)%R ->
            safe_ok (prev + x)%f64 /\ (Rabs (val (prev + x)%f64 - val prev) <= 0.02 + / 1000000000)%R) as Hstep.
  { intros x Vx Hx Hbx. apply Rabs_bounds in Hbx. assert (Rabs (val prev + val x) <= 2)%R as H2 by (apply Rabs_bounds; lra).
    assert (rounds64 (val prev + val x) (prev + x)%f64) as Hr.
    { apply add64; [done|done|]. apply (small_int _ 2); [done|lia]. }
    pose proof (repr_val64 prev Vp) as Rp. pose proof (repr_val64 target Vt) as Rt.
    assert (val prev <= val (prev + x)%f64 <= val target \/ val target <= val (prev + x)%f64 <= val prev)%R as Hbet.
    { destruct Hx as [Hx|Hx]; [left|right].
      - split; [apply (rounds_ge _ _ _ _ _ Hr Rp)|apply (rounds_le _ _ _ _ _ Hr Rt)]; lra.
      - split; [apply (rounds_ge _ _ _ _ _ Hr Rt)|apply (rounds_le _ _ _ _ _ Hr Rp)]; lra. }
    split.
    - destruct Hp as [_ Hp], Ht as [_ Ht]. split; [by eapply rounds_valid|lra].
    - apply Rabs_bounds. pose proof (grid_near (val prev + val x) _ Hr H2) as Hg.
      apply Rabs_bounds in Hg. lra. }
  unfold stepLimitGain. fold d. unfold clamp.
  destruct (flt d (SFopp safeTV1MaxGainStep)) eqn:H1.
  - apply (flt64 _ _ Vd Vo) in H1. apply Hstep; [done|right; lra|apply Rabs_bounds; lra].
  - apply (flt64_false _ _ Vd Vo) in H1. destruct (flt safeTV1MaxGainStep d) eqn:H2.
    + apply (flt64 _ _ Vs Vd) in H2. apply Hstep; [done|left; lra|apply Rabs_bounds; lra].
    + apply (flt64_false _ _ Vs Vd) in H2. apply Hstep; [done| |apply Rabs_bounds; lra].
      rewrite Ed. destruct (Rle_dec (val prev) (val target)); [left|right]; lra.
Qed.
End Gain.

(** ** The signal *)

(** Rounding to four decimals stays within bounds that have four decimals. *)
Lemma round4_within x lo hi k1 k2 :
  within lo hi x -> valid64 lo -> valid64 hi -> 0 < k1 -> k1 <= k2 <= 20000 ->
  (Rabs (val lo - IZR k1 / 10000) <= / 1000000000)%R -> (Rabs (val hi - IZR k2 / 10000) <= / 1000000000)%R ->
  (of_Z64 k1 / of_Z64 10000)%f64 = lo -> (of_Z64 k2 / of_Z64 10000)%f64 = hi ->
  within lo hi (round4 x).
Proof.
  intros [Vx Bx] Vlo Vhi Hk1 Hk2 Alo Ahi Elo Ehi. apply Rabs_bounds in Alo, Ahi. unfold round4.
  assert (1 <= IZR k1 /\ IZR k1 <= IZR k2 <= 20000)%R as [B1 B2] by (split_and!; apply IZR_le; lia).
  destruct (of_Z64_exact 10000 ltac:(lia)) as [V4 E4].
  assert (rounds64 (val x * 10000) (x * of_Z64 10000)%f64) as Hp.
  { rewrite <- E4. apply mul64; [done|done|]. apply (small_int _ 30000); [|lia]. rewrite E4. apply Rabs_bounds. lra. }
  set (p := (x * of_Z64 10000)%f64) in *.
  assert (bp (-10) = / 1024)%R as E10.
  { assert (bp (-10) * bp 10 = 1)%R as Hb by (rewrite <- bp_add; by apply (bp_IZR 0)).
    rewrite (bp_IZR 10) in Hb by lia. change (2 ^ 10) with 1024 in Hb. lra. }
  assert (val p <= IZR k2 + / 1024)%R as Pu.
  { replace (IZR k2 + / 1024)%R with (IZR (k2 * 1024 + 1) * bp (-10))%R
      by (rewrite plus_IZR, mult_IZR, E10; lra).
    apply (rounds_le _ _ _ _ _ Hp); [exists (k2 * 1024 + 1), (-10); split_and!; [done|lia|unfold emin; lia]|].
    rewrite plus_IZR, mult_IZR, E10. lra. }
  assert (IZR k1 - / 1024 <= val p)%R as Pl.
  { replace (IZR k1 - / 1024)%R with (IZR (k1 * 1024 - 1) * bp (-10))%R
      by (rewrite minus_IZR, mult_IZR, E10; lra).
    apply (rounds_ge _ _ _ _ _ Hp); [exists (k1 * 1024 - 1), (-10); split_and!; [done|lia|unfold emin; lia]|].
    rewrite minus_IZR, mult_IZR, E10. lra. }
  destruct (math_Round_spec p (rounds_valid _ _ _ _ Hp)) as (Vr & [n En] & Hh & _).
  set (r := math_Round p) in *. rewrite En in Hh. apply Rabs_bounds in Hh.
  assert (k1 - 1 < n /\ n < k2 + 1) as [N1 N2].
  { split; apply lt_IZR; rewrite ?minus_IZR, ?plus_IZR; lra. }
  assert (IZR n <> 0)%R as Hn0 by (apply not_0_IZR; lia).
  assert (forall k, n = k -> r = of_Z64 k) as Hr.
  { intros k <-. destruct (of_Z64_exact n ltac:(lia)) as [Vn Evn]. apply valid64_inj; [done|done|lra|lra]. }
  destruct (decide (n = k1)) as [E|Hne1]; [rewrite (Hr k1 E), Elo; split; [done|lra]|].
  destruct (decide (n = k2)) as [E|Hne2]; [rewrite (Hr k2 E), Ehi; split; [done|lra]|].
  assert (IZR k1 + 1 <= IZR n /\ IZR n <= IZR k2 - 1)%R as [M1 M2].
  { rewrite <- plus_IZR, <- minus_IZR. split; apply IZR_le; lia. }
  assert (rounds64 (val r / 10000) (r / of_Z64 10000)%f64) as Hd.
  { rewrite <- E4. apply div64; [done|done|lra|]. apply (small_int _ 10); [|lia]. rewrite E4, En. apply Rabs_bounds. lra. }
  split; [by eapply rounds_valid|]. rewrite En in Hd. split.
  - apply (rounds_ge _ _ _ _ _ Hd); [by apply repr_val64|lra].
  - apply (rounds_le _ _ _ _ _ Hd); [by apply repr_val64|lra].
Qed.

Lemma round4_gain x : gain_ok x -> gain_ok (round4 x).
Proof.
  intros H. real_value OliaSender.utilityGainMin as E1. real_value OliaSender.utilityGainMax as E2.
  apply (round4_within x _ _ 8000 12000); [exact H|split; vm_compute; reflexivity|split; vm_compute; reflexivity|lia|lia| | |vm_compute; reflexivity|vm_compute; reflexivity].
  - rewrite E1. apply Rabs_bounds. lra.
  - rewrite E2. apply Rabs_bounds. lra.
Qed.

Lemma round4_backoff x : backoff_ok x -> backoff_ok (round4 x).
Proof.
  intros H. real_value OliaSender.utilityBackoffMin as E1. real_value OliaSender.utilityBackoffMax as E2.
  apply (round4_within x _ _ 9000 11000); [exact H|split; vm_compute; reflexivity|split; vm_compute; reflexivity|lia|lia| | |vm_compute; reflexivity|vm_compute; reflexivity].
  - rewrite E1. apply Rabs_bounds. lra.
  - rewrite E2. apply Rabs_bounds. lra.
Qed.

Lemma safe_is_gain x : safe_ok x -> gain_ok x.
Proof.
  intros Hs. destruct (safe_bounds x Hs) as [Vx Bx]. split; [done|].
  real_value OliaSender.utilityGainMin as E1. real_value OliaSender.utilityGainMax as E2.
  destruct Hs as [_ Hs]. real_value safeTV1GainMin as E3. real_value safeTV1GainMax as E4. lra.
Qed.

(** The safe law's gain for one path. *)
Lemma safe_law_step Pow last t :
  Pow_ok Pow -> terms_ok t -> last = f0 \/ safe_ok last ->
  let '(g, b, _) := computeSafeTV1GainBackoff Pow last t in
  safe_ok g /\ backoff_ok b
  /\ (Rabs (val g - val (if feq last f0 then f1 else last)) <= 0.02 + / 1000000000)%R.
Proof.
  intros HP Ht Hl. pose proof (gain_terms_bnd Pow HP t Ht) as Hg. pose proof (retention_bnd Pow HP t Ht) as [Vr _].
  unfold computeSafeTV1GainBackoff. destruct (computeGainMappingTerms Pow t) as [[[r l] d] g].
  destruct Hg as (Br & Bl & Bd & _).
  assert (bnd 5 (boundDelayPenaltyForGain d)) as Bb.
  { unfold boundDelayPenaltyForGain. destruct (flt _ _); [const_bnd|done]. }
  assert (bnd 12 (f1 + r + l + boundDelayPenaltyForGain d)%f64) as [Vg _].
  { apply (bnd_add 7 5); [|done|lia]. apply (bnd_add 2 5); [|done|lia]. apply (bnd_add 1 1); [const_bnd|done|lia]. }
  assert (safe_ok (clamp (f1 + r + l + boundDelayPenaltyForGain d)%f64 safeTV1GainMin safeTV1GainMax)) as Hc.
  { apply clamp_within; [done|vm_compute; done|vm_compute; done|].
    real_value safeTV1GainMin as E1. real_value safeTV1GainMax as E2. lra. }
  assert (safe_ok (if feq last f0 then f1 else last)) as Hp.
  { assert (safe_ok f1) as H1.
    { destruct val_f1 as [V1 Ev1]. split; [done|]. rewrite Ev1.
      real_value safeTV1GainMin as E1. real_value safeTV1GainMax as E2. lra. }
    destruct Hl as [->|Hl]; [exact H1|]. destruct (feq last f0); [exact H1|exact Hl]. }
  destruct (step_within _ _ Hp Hc) as [S1 S2]. split_and!; [done| |done].
  apply clamp_within; [done|vm_compute; done|vm_compute; done|].
  real_value legacyRetMin as E1. real_value legacyRetMax as E2. lra.
Qed.

(** *** Candidates *)

Definition candidate_ok (i : nat) : bool :=
  match QAccessCandidateAt (Z.of_nat i) with
  | Some (a, b, g) =>
      valid_binary 53 1024 a && valid_binary 53 1024 b && valid_binary 53 1024 g && validCoeffEntry a b g
  | None => false
  end.

(** Every index has a candidate: the reads of the three lists never panic. *)
Lemma candidate_total idx :
  exists a b g, QAccessCandidateAt idx = Some (a, b, g) /\ coefficient_ok a b g.
Proof.
  set (k := if idx <? 0 then 0 else Z.rem idx 64).
  assert (0 <= k < 64) as Hk.
  { unfold k. destruct (Z.ltb_spec idx 0); [lia|]. rewrite Z.rem_mod_nonneg by lia. apply Z.mod_pos_bound. lia. }
  assert (QAccessCandidateAt idx = QAccessCandidateAt k) as ->.
  { unfold QAccessCandidateAt. replace (if k <? 0 then 0 else k) with k by (destruct (Z.ltb_spec k 0); lia).
    replace (if 4 * 4 * 4 <=? k then Z.rem k (4 * 4 * 4) else k) with k by (destruct (Z.leb_spec (4 * 4 * 4) k); lia).
    assert ((if 4 * 4 * 4 <=? (if idx <? 0 then 0 else idx) then Z.rem (if idx <? 0 then 0 else idx) (4 * 4 * 4)
             else if idx <? 0 then 0 else idx) = k) as ->; [|done].
    unfold k. change (4 * 4 * 4) with 64. destruct (Z.ltb_spec idx 0); [done|].
    destruct (Z.leb_spec 64 idx); [done|]. rewrite Z.rem_small by lia. done. }
  assert (forallb candidate_ok (seq 0 64) = true) as Hall by (vm_compute; reflexivity).
  rewrite forallb_forall in Hall. specialize (Hall (Z.to_nat k)). unfold candidate_ok in Hall.
  rewrite Z2Nat.id in Hall by lia. specialize (Hall ltac:(apply in_seq; lia)).
  destruct (QAccessCandidateAt k) as [[[a b] g]|]; [|done].
  apply andb_prop in Hall as [Hall H4]. apply andb_prop in Hall as [Hall H3]. apply andb_prop in Hall as [H1 H2].
  exists a, b, g. split; [done|]. by apply validCoeffEntry_spec.
Qed.

(** ** The controller's invariant *)

Record controller_ok (uc : UtilityController) : Prop := {
  ok_limits : MinGain uc = legacyGainMin /\ MaxGain uc = legacyGainMax
              /\ MinBackoff uc = legacyRetMin /\ MaxBackoff uc = legacyRetMax;
  ok_round : unit (roundGTotal uc);
  ok_coeffs : coeffs_ok (coeffs uc);
  ok_doc : binary64_doc (coeffsDoc uc);
  ok_per_path : forall m, perPathCoeffs uc = Some m -> map_Forall (fun _ => coeffs_ok) m;
  ok_gains : map_Forall (fun _ => safe_ok) (prevAppliedGain uc);
  ok_prev : map_Forall (fun _ p => valid64 (LastOWDms p) /\ (0 <= val (LastOWDms p))%R) (Prev uc);
}.

Definition metrics_ok (pm : PathMetrics) : Prop :=
  number (BWbps pm) /\ number (OWDms pm) /\ number (DelayGradientMs pm) /\ number (LossRate pm).

Definition event_ok (e : control_event) : Prop :=
  match e with
  | Reload (Some d) => binary64_doc d
  | RoundTotal g => number g
  | Measure pm _ _ => metrics_ok pm
  | _ => True
  end.

Lemma unit_f0 : unit f0.
Proof. split; [done|rewrite val_f0; lra]. Qed.

Lemma new_controller_ok mode law p2 : controller_ok (newUtilityController mode law p2).
Proof.
  split; cbn; try done.
  - apply unit_f0.
  - apply default_coeffs_ok.
Qed.

Lemma with_metric_ok doc c : coeffs_ok c -> coeffs_ok (with_metric doc c).
Proof. intros H. unfold with_metric. by destruct (decide _). Qed.

Lemma per_path_ok doc : binary64_doc doc -> map_Forall (fun _ => coeffs_ok) (per_path_coefficients doc).
Proof.
  intros Hd pid c Hc. apply elem_of_list_to_map_2 in Hc. apply list_elem_of_omap in Hc as ([k e] & _ & Hk).
  cbn in Hk. destruct (ParseUint8 k); cbn in Hk; [|done]. injection Hk as _ <-. by apply with_metric_ok, resolved_ok.
Qed.

Lemma reload_ok uc file :
  controller_ok uc -> event_ok (Reload file) -> controller_ok (reloadCoefficientsFromDisk uc file).
Proof.
  intros [H1 H2 H3 H4 H5 H6 H7] He. destruct file as [d|]; cbn [reloadCoefficientsFromDisk].
  - pose proof (normalize_binary64 d He) as Hd. cbn zeta. set (doc := normalizeCoeffsDocument d) in *.
    pose proof (with_metric_ok doc _ (resolved_ok doc 0 Hd)) as Hf.
    split; cbn [set_coefficients MinGain MaxGain MinBackoff MaxBackoff roundGTotal coeffs coeffsDoc perPathCoeffs prevAppliedGain Prev]; try assumption.
    + destruct (_ && _); exact Hf.
    + intros m [= <-]. by apply per_path_ok.
  - split; cbn [set_coefficients MinGain MaxGain MinBackoff MaxBackoff roundGTotal coeffs coeffsDoc perPathCoeffs prevAppliedGain Prev]; try assumption.
    + apply default_coeffs_ok.
    + by intros m [=].
Qed.

Lemma coefficients_in_use_ok uc path : controller_ok uc -> coeffs_ok (getCoefficientsForPath uc path).
Proof.
  intros [_ _ H3 H4 H5 _ _]. unfold getCoefficientsForPath.
  set (fb := if _ =? _ then _ else _). assert (coeffs_ok fb) as Hfb.
  { unfold fb. destruct (Version _ =? _); [by apply resolved_ok|done]. }
  destruct (perPathCoeffs uc) as [m|]; [|done]. destruct (m !! path) as [c|] eqn:Hc; [|done].
  by apply (H5 m eq_refl path).
Qed.

(** Throughput accounting and the trigger leave the rest of the controller alone. *)
Lemma note_ok uc pm : controller_ok uc -> controller_ok (noteActivePathThroughput uc pm).
Proof. intros H. unfold noteActivePathThroughput. destruct (negb _); [done|]. by destruct H; split. Qed.

Lemma observe_ok uc pm el : controller_ok uc -> controller_ok (observeObjectiveTrigger uc pm el).
Proof. intros H. unfold observeObjectiveTrigger. destruct (_ || _); [done|]. by destruct H; split. Qed.

Lemma note_gains uc pm :
  prevAppliedGain (noteActivePathThroughput uc pm) = prevAppliedGain uc /\ Mode (noteActivePathThroughput uc pm) = Mode uc.
Proof. unfold noteActivePathThroughput. by destruct (negb _). Qed.

Lemma observe_gains uc pm el :
  prevAppliedGain (observeObjectiveTrigger uc pm el) = prevAppliedGain uc /\ Mode (observeObjectiveTrigger uc pm el) = Mode uc.
Proof. unfold observeObjectiveTrigger. by destruct (_ || _). Qed.

(** The gain the safe law starts from. *)
Definition last_gain (uc : UtilityController) (path : Z) : float := default f1 (prevAppliedGain uc !! path).
Definition small_step (old new : float) : Prop := (Rabs (val new - val old) <= 0.02 + / 1000000000)%R.

Lemma last_gain_start uc path : controller_ok uc ->
  let last := default f0 (prevAppliedGain uc !! path) in
  (last = f0 \/ safe_ok last) /\ (if feq last f0 then f1 else last) = last_gain uc path.
Proof.
  intros H. unfold last_gain. destruct (prevAppliedGain uc !! path) as [g|] eqn:Hg; cbn [default from_option id].
  - pose proof (ok_gains uc H path g Hg) as Hs. split; [by right|].
    apply safe_bounds in Hs as [_ Hs]. destruct g as [s|s| |s m e]; cbn [val] in Hs; try lra. by destruct s.
  - split; [by left|done].
Qed.

Lemma control_spec Pow uc path gT nD nL a b g :
  Pow_ok Pow -> controller_ok uc -> unit gT -> unit nD -> unit nL -> coefficient_ok a b g ->
  let '(_, gain, backoff, _, last) := control Pow uc path gT nD nL a b g in
  gain_ok gain /\ backoff_ok backoff
  /\ (forall x, last = Some x -> safe_ok x /\ small_step (last_gain uc path) x).
Proof.
  intros HP Hok HG HD HL Hc. assert (terms_ok (MkTerms gT nD nL a b g)) as Ht by done.
  pose proof (legacy_within Pow HP _ Ht) as Hleg. destruct (last_gain_start uc path Hok) as [Hl El].
  pose proof (safe_law_step Pow _ _ HP Ht Hl) as Hsafe. rewrite El in Hsafe.
  destruct (ok_limits uc Hok) as (E1 & E2 & E3 & E4). unfold control. rewrite E1, E2, E3, E4.
  destruct (computeLegacyGainBackoffWithDiagnostics _ _ _ _ _ _) as [[lg lb] ld]. destruct Hleg as [Hlg Hlb].
  destruct (computeSafeTV1GainBackoff _ _ _) as [[sg sb] sd]. destruct Hsafe as (Hs1 & Hs2 & Hs3).
  assert (forall x : float, None = Some x -> safe_ok x /\ small_step (last_gain uc path) x) as Hnone by discriminate.
  destruct (isQAccessRuntimeMode (Mode uc)); [destruct (controlLawMode uc)|].
  - exact (conj Hlg (conj Hlb Hnone)).
  - refine (conj (safe_is_gain _ Hs1) (conj Hs2 _)). intros x Hx. injection Hx as <-. exact (conj Hs1 Hs3).
  - exact (conj Hlg (conj Hlb Hnone)).
Qed.

Lemma sanitized_number v : number v -> number (sanitizeMetric v).
Proof. intros H. by destruct (sanitizeMetric_spec v H) as [[? _] _]. Qed.

Lemma gradient_number uc path owd g :
  controller_ok uc -> valid64 owd -> (0 <= val owd)%R -> number g ->
  number (if feq g f0 then (owd - match Prev uc !! path with Some p => LastOWDms p | None => owd end)%f64 else g).
Proof.
  intros Hok Vo Bo Hg. destruct (feq g f0); [|exact Hg].
  set (l := match Prev uc !! path with Some p => LastOWDms p | None => owd end).
  assert (valid64 l /\ (0 <= val l)%R) as [Vl Bl].
  { unfold l. destruct (Prev uc !! path) as [p|] eqn:Hp; [exact (ok_prev uc Hok path p Hp)|exact (conj Vo Bo)]. }
  pose proof (valid64_le_maxval owd Vo) as M1. pose proof (valid64_le_maxval l Vl) as M2. apply Rabs_bounds in M1, M2.
  assert (Rabs (val owd - val l) <= maxval 53 1024)%R as Hm by (apply Rabs_bounds; lra).
  exact (proj1 (rounds_valid _ _ _ _ (sub64 _ _ Vo Vl Hm))).
Qed.

Lemma neutral_signal : gain_ok f1 /\ backoff_ok f1.
Proof. exact gain_neutral. Qed.

Section Signals.
Context (Pow : float -> float -> float) (HPow : Pow_ok Pow).

(** The controller [Compute] reads its coefficients from. *)
Definition observed (uc : UtilityController) (pm : PathMetrics) (elapsed : float) : UtilityController :=
  if isQAccessRuntimeMode (Mode uc) then
    let uc := noteActivePathThroughput uc pm in
    if PathMetricsActive pm then observeObjectiveTrigger uc pm elapsed else uc
  else uc.

Lemma observed_ok uc pm el :
  controller_ok uc -> controller_ok (observed uc pm el) /\ prevAppliedGain (observed uc pm el) = prevAppliedGain uc.
Proof.
  intros H. unfold observed. destruct (isQAccessRuntimeMode _); [|exact (conj H eq_refl)]. cbn zeta.
  destruct (note_gains uc pm) as [En _]. destruct (PathMetricsActive pm).
  - destruct (observe_gains (noteActivePathThroughput uc pm) pm el) as [Eo _].
    split; [by apply observe_ok, note_ok|by rewrite Eo].
  - split; [by apply note_ok|done].
Qed.

Lemma set_gain_ok uc path last st :
  controller_ok uc -> valid64 (LastOWDms st) -> (0 <= val (LastOWDms st))%R ->
  (forall x, last = Some x -> safe_ok x) -> controller_ok (set_gain_and_state uc path last st).
Proof.
  intros [H1 H2 H3 H4 H5 H6 H7] V B Hx.
  split; cbn [set_gain_and_state MinGain MaxGain MinBackoff MaxBackoff roundGTotal coeffs coeffsDoc perPathCoeffs prevAppliedGain Prev]; try assumption.
  - destruct last as [x|]; [|exact H6]. apply map_Forall_insert_2; [exact (Hx x eq_refl)|exact H6].
  - apply map_Forall_insert_2; [exact (conj V B)|exact H7].
Qed.

(** One measurement: the invariant, the signal and the remembered gains. *)
Lemma Compute_spec uc pm now el :
  controller_ok uc -> metrics_ok pm ->
  let '(sig, uc') := Compute Pow uc pm now el in
  controller_ok uc' /\ gain_ok (Gain sig) /\ backoff_ok (Backoff sig)
  /\ (forall path x, prevAppliedGain uc' !! path = Some x ->
        prevAppliedGain uc !! path = Some x
        \/ (path = PathID pm /\ safe_ok x /\ small_step (last_gain uc path) x)).
Proof.
  intros Hok (H1 & H2 & H3 & H4). unfold Compute. cbn [PathID BWbps OWDms DelayGradientMs LossRate InflightBytes].
  set (pm' := MkMetrics _ _ _ _ _ _). fold (observed uc pm' el).
  destruct (observed_ok uc pm' el Hok) as [Hok' Eg]. set (uc1 := observed uc pm' el) in *. cbn zeta.
  destruct (sanitizeMetric_spec _ H2) as [Vo Bo].
  set (grad := if feq _ f0 then _ else _). assert (number grad) as Hgrad by (by apply gradient_number).
  pose proof (normalizeG_unit _ (sanitized_number _ H1)) as UG. pose proof (normalizeL_unit _ (sanitized_number _ H4)) as UL.
  pose proof (normalizeD_unit _ grad (sanitized_number _ H2) Hgrad) as UD.
  set (gT := if _ && _ then _ else _). assert (unit gT) as UT.
  { unfold gT. destruct (_ && _); [exact UG|apply (ok_round uc1 Hok')]. }
  set (coefs := match Mode uc1 with ModeQAccessCollect => _ | _ => _ end).
  assert (let '(a, b, g) := coefs in coefficient_ok a b g) as Hc.
  { pose proof (coefficients_in_use_ok uc1 (PathID pm) Hok') as Hcc.
    destruct (candidate_total (Z.rem (collectIdx uc1) qaccessCandidateCount)) as (a & b & g & E & Hcand).
    unfold coefs. destruct (Mode uc1); try exact Hcc. rewrite E. exact Hcand. }
  clearbody grad gT coefs. destruct coefs as [[a b] g].
  pose proof (control_spec Pow uc1 (PathID pm) gT _ _ a b g HPow Hok' UT UD UL Hc) as Hctl.
  destruct (control _ _ _ _ _ _ _ _ _) as [[[[u gain] backoff] diag] last]. destruct Hctl as (Hg & Hb & Hlast).
  set (branch := match Mode uc1 with ModeBaseline => _ | _ => _ end).
  assert (let '(_, gain, backoff, _, last) := branch in gain_ok gain /\ backoff_ok backoff
            /\ (forall x, last = Some x -> safe_ok x /\ small_step (last_gain uc1 (PathID pm)) x)) as Hbr.
  { assert (forall x : float, None = Some x -> safe_ok x /\ small_step (last_gain uc1 (PathID pm)) x) as Hnone by discriminate.
    pose proof (conj (proj1 neutral_signal) (conj (proj2 neutral_signal) Hnone)) as Hneutral.
    pose proof (conj Hg (conj Hb Hlast)) as Hcontrol.
    unfold branch. destruct (Mode uc1); [exact Hneutral|..]; (destruct (PathMetricsActive pm'); [exact Hcontrol|exact Hneutral]). }
  clearbody branch. destruct branch as [[[[u' gain'] backoff'] diag'] last']. destruct Hbr as (Hg' & Hb' & Hl').
  cbn [Gain Backoff]. split; [|split; [by apply round4_gain|split; [by apply round4_backoff|]]].
  - apply set_gain_ok; [exact Hok'|exact Vo|exact Bo|]. intros x Hx. apply (proj1 (Hl' x Hx)).
  - intros path x. cbn [set_gain_and_state prevAppliedGain]. unfold last_gain in *. rewrite Eg in *.
    destruct last' as [y|]; [|by left]. destruct (decide (path = PathID pm)) as [->|Hne].
    + rewrite lookup_insert_eq. intros [= <-]. right. destruct (Hl' y eq_refl) as [S1 S2]. exact (conj eq_refl (conj S1 S2)).
    + rewrite lookup_insert_ne by done. by left.
Qed.
End Signals.

(** *** What the congestion controller makes of a signal *)

Lemma sanitize_id lo hi x :
  within lo hi x -> valid64 lo -> valid64 hi -> (0 < val lo)%R -> OliaSender.sanitize lo hi x = x.
Proof.
  intros [Vx Bx] Vlo Vhi Hpos. unfold OliaSender.sanitize.
  assert (is_nan x || is_inf x = false) as ->.
  { destruct Vx as [_ Hf]. unfold is_finite in Hf. by apply negb_true_iff in Hf. }
  destruct (math_Max_spec lo x Vlo Vx) as [V1 E1]. destruct (math_Min_spec hi _ Vhi V1) as [V2 E2].
  rewrite Rmax_right in E1 by lra. rewrite E1, Rmin_right in E2 by lra.
  apply valid64_inj; [exact V2|exact Vx|lra|lra].
Qed.

Lemma sanitize_signal g b :
  gain_ok g -> backoff_ok b ->
  OliaSender.sanitize OliaSender.utilityGainMin OliaSender.utilityGainMax g = g
  /\ OliaSender.sanitize OliaSender.utilityBackoffMin OliaSender.utilityBackoffMax b = b.
Proof.
  intros Hg Hb. split; (apply sanitize_id; [assumption|split; vm_compute; reflexivity|split; vm_compute; reflexivity|]).
  - apply const_pos; [split; vm_compute; reflexivity|vm_compute; reflexivity].
  - apply const_pos; [split; vm_compute; reflexivity|vm_compute; reflexivity].
Qed.

Definition signal_ok (sig : ControlSignal) : Prop := gain_ok (Gain sig) /\ backoff_ok (Backoff sig).

Lemma control_step_ok Pow uc e : Pow_ok Pow -> controller_ok uc -> event_ok e ->
  controller_ok (control_step Pow uc e).1 /\ Forall signal_ok (control_step Pow uc e).2.
Proof.
  intros HP Hok He. destruct e as [file|m|c|g|pm now el]; cbn [control_step].
  - split; [by apply reload_ok|constructor].
  - split; [destruct Hok; by split|constructor].
  - split; [|constructor]. destruct Hok as [H1 H2 H3 H4 H5 H6 H7]. split; try assumption. apply unit_f0.
  - split; [|constructor]. destruct Hok as [H1 H2 H3 H4 H5 H6 H7]. split; try assumption.
    destruct (sanitizeMetric_spec g He) as [V B]. apply clamp_unit. by left.
  - pose proof (Compute_spec Pow HP uc pm now el Hok He) as Hc.
    destruct (Compute Pow uc pm now el) as [sig uc']. destruct Hc as (H1 & H2 & H3 & _).
    split; [exact H1|]. constructor; [exact (conj H2 H3)|constructor].
Qed.

Lemma control_run_ok Pow es uc : Pow_ok Pow -> controller_ok uc -> Forall event_ok es ->
  controller_ok (control_run Pow uc es).1 /\ Forall signal_ok (control_run Pow uc es).2.
Proof.
  intros HP Hok He. revert uc Hok. induction He as [|e es He _ IH]; intros uc Hok; cbn [control_run].
  - split; [exact Hok|constructor].
  - pose proof (control_step_ok Pow uc e HP Hok He) as [H1 H2]. destruct (control_step Pow uc e) as [uc1 out].
    pose proof (IH uc1 H1) as [H3 H4]. destruct (control_run Pow uc1 es) as [uc2 rest].
    split; [exact H3|]. apply Forall_app. exact (conj H2 H4).
Qed.

(** Whatever is measured, NaN and infinities included, whatever coefficient files are read
    and whichever mode and law are in force, every signal of the controller is within the
    bounds of the congestion controller, which therefore applies exactly what was asked. *)
Theorem utility_signal_bounded Pow mode law p2 es sig o :
  Pow_ok Pow -> Forall event_ok es ->
  sig ∈ (control_run Pow (newUtilityController mode law p2) es).2 ->
  gain_ok (Gain sig) /\ backoff_ok (Backoff sig)
  /\ OliaSender.utilityGain (OliaSender.SetUtilityControl o (Gain sig) (Backoff sig)) = Gain sig
  /\ OliaSender.utilityBackoff (OliaSender.SetUtilityControl o (Gain sig) (Backoff sig)) = Backoff sig.
Proof.
  intros HP He Hin.
  destruct (control_run_ok Pow es _ HP (new_controller_ok mode law p2) He) as [_ Hall].
  rewrite Forall_forall in Hall. destruct (Hall sig Hin) as [Hg Hb]. destruct (sanitize_signal _ _ Hg Hb) as [E1 E2].
  exact (conj Hg (conj Hb (conj E1 E2))).
Qed.

(** Under the safe law the gain a path is driven with moves by at most 0.02 per
    measurement, from 1 for a path seen first, and stays in [0.95, 1.10]; the gains of the
    other paths do not change. *)
Theorem safe_gain_steps Pow mode law p2 es pm now elapsed path g :
  Pow_ok Pow -> Forall event_ok es -> metrics_ok pm ->
  let uc := (control_run Pow (newUtilityController mode law p2) es).1 in
  prevAppliedGain (Compute Pow uc pm now elapsed).2 !! path = Some g ->
  safe_ok g /\ (prevAppliedGain uc !! path = Some g
                \/ path = PathID pm /\ (Rabs (val g - val (default f1 (prevAppliedGain uc !! path))) <= 0.02 + / 1000000000)%R).
Proof.
  intros HP He Hm uc. destruct (control_run_ok Pow es _ HP (new_controller_ok mode law p2) He) as [Hok _].
  fold uc in Hok. pose proof (Compute_spec Pow HP uc pm now elapsed Hok Hm) as Hc.
  destruct (Compute Pow uc pm now elapsed) as [sig uc']. destruct Hc as (_ & _ & _ & Hc). intros Hg.
  destruct (Hc path g Hg) as [H|(E & Hs & Hst)]; [|split; [exact Hs|right; exact (conj E Hst)]].
  split; [|by left]. exact (ok_gains uc Hok path g H).
Qed.

(** ** Hysteresis of the trigger *)

(** How many samples of one kind end a history, newest first. *)
Fixpoint leading (b : bool) (hist : list bool) : Z :=
  match hist with
  | d :: h => if Bool.eqb d b then 1 + leading b h else 0
  | [] => 0
  end.

(** The intended trigger: it fires at [n] deteriorated samples in a row and holds until [m]
    normal samples in a row. *)
Fixpoint hysteresis (n m : Z) (hist : list bool) : bool :=
  match hist with
  | [] => false
  | d :: h =>
      if hysteresis n m h then negb (negb d && (m <=? leading false hist))
      else d && (n <=? leading true hist)
  end.

Lemma leading_range b h : 0 <= leading b h <= Z.of_nat (length h).
Proof. induction h as [|d h IH]; cbn [leading length]; [lia|]. destruct (Bool.eqb d b); lia. Qed.

(** The counters against the history. *)
Definition tracks (c : triggerConfig) (s : objectiveTriggerState) (hist : list bool) : Prop :=
  triggered s = hysteresis (triggerActivateSamples c) (triggerRecoverySamples c) hist
  /\ requestPending s = triggered s
  /\ (if triggered s then recoveryStreak s = leading false hist
      else triggerStreak s = leading true hist /\ recoveryStreak s = 0).

Lemma count_sample_tracks c s hist d :
  tracks c s hist -> Z.of_nat (length hist) + 1 < 2 ^ 63 -> tracks c (count_sample c s d) (d :: hist).
Proof.
  intros (Ht & Hp & Hs) Hlen. pose proof (leading_range true hist). pose proof (leading_range false hist).
  unfold tracks, count_sample. cbn [hysteresis]. rewrite <- Ht.
  destruct (triggered s) eqn:Et, d; cbn [negb andb]; cbn [leading Bool.eqb].
  - cbn. rewrite Hp. done.
  - rewrite Hs, i64_small by (unfold in_i64; lia). rewrite (Z.add_comm 1).
    destruct (Z.leb_spec (triggerRecoverySamples c) (leading false hist + 1)); [done|].
    cbn. rewrite Hp. done.
  - destruct Hs as [-> Hr]. rewrite i64_small by (unfold in_i64; lia). rewrite (Z.add_comm 1).
    destruct (Z.leb_spec (triggerActivateSamples c) (leading true hist + 1)); [done|].
    cbn. rewrite Hp. done.
  - cbn. rewrite Hp. by destruct Hs as [_ ->].
Qed.

Definition deteriorates (c : triggerConfig) (ref : float) (x : float * float) : bool :=
  (objectiveDeteriorated c ref x.1).1.1.

Definition after_reference (c : triggerConfig) (x : float * float) : Prop := fle x.2 (triggerReferenceEnd c) = false.

Lemma observe_tracks c s hist x :
  tracks c s hist -> referenceReady s = true -> after_reference c x -> Z.of_nat (length hist) + 1 < 2 ^ 63 ->
  let s' := observe_sample c s x.1 x.2 in
  tracks c s' (deteriorates c (reference s) x :: hist) /\ referenceReady s' = true /\ reference s' = reference s.
Proof.
  intros Ht Hr Hx Hlen. unfold observe_sample, update_reference, deteriorates. unfold after_reference in Hx.
  rewrite Hx, andb_false_r. cbn [referenceReady]. rewrite Hr. cbn [negb]. rewrite andb_false_r.
  cbn [referenceReady reference negb orb referenceSamples triggerStreak recoveryStreak triggered requestPending].
  destruct (objectiveDeteriorated c (reference s) x.1) as [[d ab] rel]. cbn [fst]. split.
  - apply count_sample_tracks; [|exact Hlen]. destruct Ht as (H1 & H2 & H3). exact (conj H1 (conj H2 H3)).
  - unfold count_sample. cbn. destruct d, (triggered s); repeat case_match; done.
Qed.

(** Once the reference interval is over, the trigger's streak counters implement the
    intended hysteresis on the history of samples: it fires exactly when the configured number
    of consecutive samples were worse than the reference, and holds, through any mixture of
    samples, until the configured number of consecutive samples were not. *)
Theorem trigger_hysteresis c s xs :
  referenceReady s = true -> triggered s = false -> requestPending s = false ->
  triggerStreak s = 0 -> recoveryStreak s = 0 ->
  Forall (after_reference c) xs -> Z.of_nat (length xs) < 2 ^ 63 ->
  let s' := fold_left (fun s x => observe_sample c s x.1 x.2) xs s in
  let intended := hysteresis (triggerActivateSamples c) (triggerRecoverySamples c)
                    (rev (map (deteriorates c (reference s)) xs)) in
  triggered s' = intended /\ requestPending s' = intended /\ reference s' = reference s.
Proof.
  intros Hr Ht Hp Hs1 Hs2 Hx Hlen.
  assert (tracks c s []) as H0 by (unfold tracks; rewrite Ht, Hp; done).
  assert (forall xs s hist, tracks c s hist -> referenceReady s = true -> Forall (after_reference c) xs ->
            Z.of_nat (length hist + length xs) < 2 ^ 63 ->
            let s' := fold_left (fun s x => observe_sample c s x.1 x.2) xs s in
            tracks c s' (rev (map (deteriorates c (reference s)) xs) ++ hist) /\ reference s' = reference s) as Hgen.
  { clear. intros xs. induction xs as [|x xs IH]; intros s hist Ht Hr Hx Hlen; [done|]. cbn [length] in Hlen.
    inversion Hx as [|? ? Hx1 Hx2]; subst.
    destruct (observe_tracks c s hist x Ht Hr Hx1 ltac:(lia)) as (H1 & H2 & H3). cbn [fold_left map rev].
    destruct (IH _ _ H1 H2 Hx2 ltac:(cbn [length]; lia)) as [H4 H5]. rewrite H3 in H4, H5.
    split; [|exact H5]. rewrite <- app_assoc. exact H4. }
  destruct (Hgen xs s [] H0 Hr Hx ltac:(cbn [length]; lia)) as [(H1 & H2 & _) H4]. rewrite app_nil_r in H1.
  cbn zeta. rewrite H2, H1. split_and!; done.
Qed.

Definition witness_trigger : triggerConfig :=
  MkTriggerConfig ObjectiveD (of_Z64 10) (of_Z64 30) 3 5 f0 f0 (of_Z64 10) (lit64 25 100) f0.
Definition witness_trigger_state : objectiveTriggerState :=
  MkTrigger [of_Z64 50] (of_Z64 50) true f0 f0 f0 0 0 false false.
Definition witness_samples : list (float * float) :=
  map (fun p => (of_Z64 p.1, of_Z64 p.2)) [(70, 31); (70, 32); (70, 33); (50, 34); (50, 35); (70, 36); (50, 37)].

Lemma trigger_hysteresis_witness :
  let s' := fold_left (fun s x => observe_sample witness_trigger s x.1 x.2) witness_samples witness_trigger_state in
  triggered s' = hysteresis 3 5 (rev (map (deteriorates witness_trigger (of_Z64 50)) witness_samples))
  /\ triggered s' = true.
Proof.
  cbn zeta. split; [|vm_compute; reflexivity].
  refine (proj1 (trigger_hysteresis witness_trigger witness_trigger_state witness_samples _ _ _ _ _ _ _));
    try reflexivity.
  repeat constructor; vm_compute; reflexivity.
Defined.

(** ** Witnesses of the run theorems *)

(** [math.Pow] at the exponent 1. *)
Definition linear_pow (g _ : float) : float := g.

Lemma linear_pow_ok : Pow_ok linear_pow.
Proof. intros g a Hg Hb _ _. split; [exact Hg|]. unfold linear_pow. lra. Qed.

Definition witness_metrics : PathMetrics := MkMetrics 1 (of_Z64 20000000) (of_Z64 40) f0 S754_nan 4096.
Definition witness_events : list control_event :=
  [Reload (Some bad_doc); RoundTotal (S754_infinity false); Measure witness_metrics 5 f0].
Definition witness_controller : UtilityController := newUtilityController ModeQAccessT ControlLawSafeTV1 witness_trigger.

Lemma bad_doc_numbers : binary64_doc bad_doc.
Proof. split_and!; cbn; try done. apply map_Forall_singleton. by split_and!; vm_compute. Qed.

Lemma witness_events_ok : Forall event_ok witness_events.
Proof.
  apply Forall_cons_2; [exact bad_doc_numbers|]. apply Forall_cons_2; [vm_compute; reflexivity|].
  apply Forall_cons_2; [|apply Forall_nil_2]. split_and!; vm_compute; reflexivity.
Qed.

Definition witness_signal : option ControlSignal := head (control_run linear_pow witness_controller witness_events).2.

Lemma utility_signal_bounded_witness :
  exists sig, witness_signal = Some sig /\ flt f1 (Gain sig) = true
    /\ gain_ok (Gain sig) /\ backoff_ok (Backoff sig)
    /\ OliaSender.utilityGain (OliaSender.SetUtilityControl (OliaSender.NewOliaSender RTTStats.NewRTTStats 32 2000) (Gain sig) (Backoff sig)) = Gain sig
    /\ OliaSender.utilityBackoff (OliaSender.SetUtilityControl (OliaSender.NewOliaSender RTTStats.NewRTTStats 32 2000) (Gain sig) (Backoff sig)) = Backoff sig.
Proof.
  assert (exists sig, (control_run linear_pow witness_controller witness_events).2 = [sig] /\ flt f1 (Gain sig) = true) as (sig & E & Hg)
    by (eexists; split; vm_compute; reflexivity).
  exists sig. split; [unfold witness_signal; rewrite E; reflexivity|]. split; [exact Hg|].
  apply (utility_signal_bounded linear_pow ModeQAccessT ControlLawSafeTV1 witness_trigger witness_events);
    [exact linear_pow_ok|exact witness_events_ok|].
  fold witness_controller. rewrite E. apply list_elem_of_here.
Defined.

Lemma safe_gain_steps_witness :
  exists g, prevAppliedGain (Compute linear_pow (control_run linear_pow witness_controller witness_events).1 witness_metrics 6 f0).2 !! 1 = Some g
    /\ flt (lit64 103 100) g = true /\ safe_ok g.
Proof.
  assert (exists g, prevAppliedGain (Compute linear_pow (control_run linear_pow witness_controller witness_events).1 witness_metrics 6 f0).2 !! 1 = Some g
            /\ flt (lit64 103 100) g = true) as (g & E & Hg) by (eexists; split; vm_compute; reflexivity).
  exists g. split; [exact E|]. split; [exact Hg|].
  refine (proj1 (safe_gain_steps linear_pow ModeQAccessT ControlLawSafeTV1 witness_trigger witness_events witness_metrics 6 f0 1 g _ _ _ E)).
  - exact linear_pow_ok.
  - exact witness_events_ok.
  - split_and!; vm_compute; reflexivity.
Defined.
