(* ===== verification/Monitor.v ===== *)
(** * Monitor

    Models the [monitor] of [scheduler.go]: what is recorded of every path before a packet is
    sent, the metrics the utility controller is given, the signal it hands back to the
    congestion controller of the path, and the switches between schedulers that depend on
    what was recorded.

    The theorems: whatever the paths report, a round of the monitor gives every path's
    congestion controller a gain and a backoff within its bounds and keeps the controller's
    invariant; and the warm-up of the [moooko] scheduler ends exactly when every path has an
    RTT. *)

From Stdlib Require Import ZArith Reals Lra Floats.SpecFloat.
From stdpp Require Import base numbers list option strings gmap.
From S2P Require Import Prelude GoFloat FloatFacts RttStats SentPackets Olia UtilityControl Scheduler.

Local Open Scope Z_scope.

Section Monitor.
Context {C : Type} `{!SendAlgorithm C}.
Context (Pow : float -> float -> float).

Record monitor : Type := MkMonitor {
  state_owd : gmap Z Z;
  state_bw : gmap Z Z;
  state_cwnd : gmap Z Z;
  state_loss : gmap Z float;
  state_inflight : gmap Z Z;
  totalbw : float;
  lackbw : bool;
  totalcwnd : Z;
  retransBytes : Z;
  bitrate : float;
  utilityController : option UtilityController;
}.

Definition setup (uc : option UtilityController) : monitor :=
  MkMonitor ∅ ∅ ∅ ∅ ∅ f0 false 0 0 (of_Z64 (18504 * 1000 / 8)) uc.

(** The start of a round for a controller that does not own the coefficient files;
    [collecting]: training data is collected. *)
Definition monitorClear (m : monitor) (collecting : bool) : monitor :=
  MkMonitor (state_owd m) (state_bw m) (state_cwnd m) (state_loss m) (state_inflight m)
    f0 (lackbw m) 0 0 (bitrate m)
    (uc ← utilityController m; Some (next_round uc collecting)).

Definition monitorUpdatePathState (m : monitor) (p : path (C := C)) : monitor :=
  let h := sentHandler p in
  let id := pathID p in
  let owd := Z.quot (rtt p) 2 in
  let inflight := i64 (sentPacketHandler.GetBytesInflight h) in
  let cwnd := i64 (i64 (sentPacketHandler.GetCWND h) - inflight) in
  let counted := negb (id =? 0) && (0 <? owd) in
  MkMonitor (<[id := owd]> (state_owd m)) (<[id := i64 (sentPacketHandler.GetBandwidthEstimate h)]> (state_bw m))
    (<[id := cwnd]> (state_cwnd m)) (<[id := sentPacketHandler.GetLossRate h]> (state_loss m))
    (<[id := inflight]> (state_inflight m))
    (if counted then totalbw m + of_Z64 cwnd / (of_Z64 owd / of_Z64 1000000000) else totalbw m)%f64
    (lackbw m)
    (if counted then i64 (totalcwnd m + cwnd) else totalcwnd m)
    (if counted then u64 (retransBytes m + sentPacketHandler.GetLostByte h) else retransBytes m)
    (bitrate m) (utilityController m).

Definition owd_of (m : monitor) (id : Z) : Z := default 0 (state_owd m !! id).
Definition bw_of (m : monitor) (id : Z) : Z := default 0 (state_bw m !! id).
Definition loss_of (m : monitor) (id : Z) : float := default f0 (state_loss m !! id).
Definition inflight_of (m : monitor) (id : Z) : Z := default 0 (state_inflight m !! id).

Definition bw_bps (m : monitor) (id : Z) : float := (of_Z64 (bw_of m id) * of_Z64 8)%f64.
Definition owd_ms (m : monitor) (id : Z) : float := (of_Z64 (owd_of m id) / of_Z64 1000000)%f64.

Definition snapshot (m : monitor) (p : path (C := C)) : PathMetrics :=
  MkMetrics (pathID p) (bw_bps m (pathID p)) (owd_ms m (pathID p)) f0 f0 (inflight_of m (pathID p)).

Definition with_controller (m : monitor) (uc : option UtilityController) : monitor :=
  MkMonitor (state_owd m) (state_bw m) (state_cwnd m) (state_loss m) (state_inflight m)
    (totalbw m) (lackbw m) (totalcwnd m) (retransBytes m) (bitrate m) uc.

Definition monitorPrepareUtilityRound (m : monitor) (order : list (path (C := C))) : monitor :=
  match utilityController m with
  | None => m
  | Some uc => with_controller m (Some (SetRoundGTotal uc (ComputeRoundGTotal (snapshot m <$> order))))
  end.

(** The metrics of a path; the fields that only the sample files use are left out. *)
Definition path_metrics (m : monitor) (p : path (C := C)) : PathMetrics :=
  MkMetrics (pathID p) (bw_bps m (pathID p)) (owd_ms m (pathID p)) f0 (loss_of m (pathID p)) (inflight_of m (pathID p)).

Definition apply_signal (p : path (C := C)) (gain backoff : float) : path :=
  MkPath (pathID p) (open_ p) (potentiallyFailed p)
    (sentPacketHandler.HandlerSetUtilityControl (sentHandler p) gain backoff).

Definition monitorApplyUtility (m : monitor) (p : path (C := C)) (now : Z) (elapsed : float) : monitor * path :=
  match utilityController m with
  | None => (m, p)
  | Some uc =>
      let '(sig, uc) := Compute Pow uc (path_metrics m p) now elapsed in
      (with_controller m (Some uc), apply_signal p (Gain sig) (Backoff sig))
  end.

(** The paths in the order of the last loop, each with its new controller. *)
Fixpoint apply_all (m : monitor) (order : list (path (C := C))) (now : Z) (elapsed : float) : monitor * list path :=
  match order with
  | [] => (m, [])
  | p :: order =>
      let '(m, p) := monitorApplyUtility m p now elapsed in
      let '(m, ps) := apply_all m order now elapsed in (m, p :: ps)
  end.

(** What the packet sending functions do with the monitor before they choose a path. *)
Definition monitor_round (m : monitor) (collecting : bool) (order1 order2 order3 : list (path (C := C)))
    (now : Z) (elapsed : float) : monitor * list path :=
  let m := fold_left monitorUpdatePathState order1 (monitorClear m collecting) in
  apply_all (monitorPrepareUtilityRound m order2) order3 now elapsed.

(** ** Switching schedulers *)

Record switches : Type := MkSwitches {
  Name : string;
  OriginScheduler : string;
  Flag_beginining : bool;
  Flag_high_lossrate : bool;
}.

Definition loss_step (m : monitor) (st : switches * bool) (p : path (C := C)) : switches * bool :=
  let '(s, high) := st in
  if negb (pathID p =? InitialPathID) && flt (lit64 2 100) (loss_of m (pathID p)) then
    (MkSwitches (if decide (Name s = "moooko"%string) then "redundancy" else Name s) (OriginScheduler s) (Flag_beginining s) true, true)
  else st.

Definition isHighlossrate (m : monitor) (s : switches) (order : list (path (C := C))) : switches :=
  let '(s, high) := fold_left (loss_step m) order (s, false) in
  if negb high && Flag_high_lossrate s && bool_decide (Name s = "redundancy"%string)
  then MkSwitches "moooko" (OriginScheduler s) (Flag_beginining s) false else s.

Definition isBandwidthEnough (m : monitor) (paths totalpacketnum : Z) : monitor :=
  MkMonitor (state_owd m) (state_bw m) (state_cwnd m) (state_loss m) (state_inflight m) (totalbw m)
    (flt (totalbw m + of_Z64 2700000)%f64 (bitrate m) && (3 <=? paths) && (30000 <? totalpacketnum))
    (totalcwnd m) (retransBytes m) (bitrate m) (utilityController m).

Definition warm (s : switches) : switches :=
  MkSwitches (if decide (Name s = "moooko"%string) then "rtt" else Name s) (OriginScheduler s) true (Flag_high_lossrate s).

Definition begin_step (few : bool) (st : switches * bool) (p : path (C := C)) : switches * bool :=
  let st := if few then (warm st.1, true) else st in
  if negb (pathID p =? InitialPathID) && (rtt p =? 0) then (warm st.1, true) else st.

Definition isAtbegining (s : switches) (order : list (path (C := C))) : switches :=
  let '(s, flag) := fold_left (begin_step (length order <? 3)%nat) order (s, false) in
  if negb flag && Flag_beginining s && bool_decide (Name s = "rtt"%string) && bool_decide (OriginScheduler s = "moooko"%string)
  then MkSwitches "moooko" (OriginScheduler s) false (Flag_high_lossrate s) else s.

(** ** A round of the monitor *)

Lemma lookup_number (l : gmap Z float) id : map_Forall (fun _ => number) l -> number (default f0 (l !! id)).
Proof. intros H. destruct (l !! id) as [x|] eqn:E; [exact (H id x E)|reflexivity]. Qed.

Definition monitor_ok (m : monitor) : Prop :=
  map_Forall (fun _ => number) (state_loss m)
  /\ match utilityController m with Some uc => controller_ok uc | None => True end.

Lemma bw_number m id : number (bw_bps m id).
Proof. apply mul_number; apply of_Z64_number. Qed.

Lemma owd_number m id : number (owd_ms m id).
Proof. apply div_number; apply of_Z64_number. Qed.

(** Whatever a path reports are numbers, NaN for a path that sent nothing. *)
Lemma path_metrics_ok m p : map_Forall (fun _ => number) (state_loss m) -> metrics_ok (path_metrics m p).
Proof.
  intros H. split; [apply bw_number|]. split; [apply owd_number|]. split; [reflexivity|]. by apply lookup_number.
Qed.

Lemma clear_ok m c : monitor_ok m -> monitor_ok (monitorClear m c).
Proof.
  intros [H1 H2]. split; [exact H1|]. cbn [monitorClear utilityController]. destruct (utilityController m) as [uc|]; [|done].
  cbn. apply (control_step_ok (fun g _ => g) uc (NextRound c)); [|exact H2|done].
  intros g a Hg Hb _ _. split; [exact Hg|]. cbv beta. lra.
Qed.

Lemma update_ok m p : monitor_ok m -> monitor_ok (monitorUpdatePathState m p).
Proof.
  intros [H1 H2]. split; [|exact H2]. cbn [monitorUpdatePathState state_loss].
  apply map_Forall_insert_2; [|exact H1]. apply div_number; apply of_Z64_number.
Qed.

Lemma updates_ok m order : monitor_ok m -> monitor_ok (fold_left monitorUpdatePathState order m).
Proof. revert m. induction order as [|p order IH]; intros m Hm; [exact Hm|]. apply IH. by apply update_ok. Qed.


Lemma sanitize_number v : number v -> number (sanitizeMetric v).
Proof. intros H. unfold sanitizeMetric. by destruct (_ || _). Qed.

Lemma clamp_number x lo hi : number x -> number lo -> number hi -> number (clamp x lo hi).
Proof. intros. unfold clamp. destruct (flt x lo); [done|]. by destruct (flt hi x). Qed.

Lemma round_total_number ms : Forall metrics_ok ms -> number (ComputeRoundGTotal ms).
Proof.
  intros Hms. unfold ComputeRoundGTotal. apply clamp_number; [|reflexivity|reflexivity].
  assert (forall x, number x -> number (fold_left (fun sum pm =>
    if negb (PathMetricsActive pm) then sum else (sum + sanitizeMetric (BWbps pm) / bwRefBps)%f64) ms x)) as H.
  { induction Hms as [|pm ms [Hbw _] _ IH]; intros x Hx; [exact Hx|]. cbn [fold_left]. apply IH.
    destruct (negb _); [exact Hx|]. apply add_number; [exact Hx|]. apply div_number; [by apply sanitize_number|reflexivity]. }
  apply H. reflexivity.
Qed.

Lemma snapshot_ok m p : metrics_ok (snapshot m p).
Proof. split; [apply bw_number|]. split; [apply owd_number|]. split; reflexivity. Qed.

Context (HPow : Pow_ok Pow).

Lemma prepare_ok m order : monitor_ok m -> monitor_ok (monitorPrepareUtilityRound m order).
Proof.
  intros [H1 H2]. unfold monitorPrepareUtilityRound. destruct (utilityController m) as [uc|] eqn:E; [|split; [exact H1|by rewrite E]].
  split; [exact H1|]. cbn [with_controller utilityController].
  apply (control_step_ok Pow uc (RoundTotal (ComputeRoundGTotal (snapshot m <$> order))) HPow H2).
  apply round_total_number, Forall_fmap, Forall_true. intros p. apply snapshot_ok.
Qed.

Lemma monitor_apply_ok m p now elapsed :
  monitor_ok m -> monitor_ok (monitorApplyUtility m p now elapsed).1
  /\ match utilityController m with
     | Some _ => exists gain backoff, gain_ok gain /\ backoff_ok backoff
                 /\ (monitorApplyUtility m p now elapsed).2 = apply_signal p gain backoff
     | None => (monitorApplyUtility m p now elapsed).2 = p
     end
  /\ (utilityController (monitorApplyUtility m p now elapsed).1 = None <-> utilityController m = None).
Proof.
  intros [H1 H2]. unfold monitorApplyUtility. destruct (utilityController m) as [uc|] eqn:E.
  2:{ cbn [fst snd]. split; [split; [exact H1|]; rewrite E; exact I|]. split; [reflexivity|]. rewrite E. done. }
  pose proof (Compute_spec Pow HPow uc _ now elapsed H2 (path_metrics_ok m p H1)) as Hc.
  destruct (Compute Pow uc (path_metrics m p) now elapsed) as [sig uc']. destruct Hc as (G1 & G2 & G3 & _).
  split; [split; [exact H1|exact G1]|]. split; [|done]. exists (Gain sig), (Backoff sig). done.
Qed.

Lemma apply_all_ok m order now elapsed :
  monitor_ok m -> monitor_ok (apply_all m order now elapsed).1
  /\ Forall2 (fun p p' => match utilityController m with
                          | Some _ => exists gain backoff, gain_ok gain /\ backoff_ok backoff /\ p' = apply_signal p gain backoff
                          | None => p' = p
                          end) order (apply_all m order now elapsed).2.
Proof.
  revert m. induction order as [|p order IH]; intros m Hm; cbn [apply_all]; [split; [exact Hm|constructor]|].
  destruct (monitor_apply_ok m p now elapsed Hm) as (H1 & H2 & H3). destruct (monitorApplyUtility m p now elapsed) as [m1 p1]. cbn [fst snd] in *.
  destruct (IH m1 H1) as [G1 G2]. destruct (apply_all m1 order now elapsed) as [m2 ps]. cbn [fst snd] in *.
  split; [exact G1|]. constructor; [exact H2|]. eapply Forall2_impl; [exact G2|]. intros a b.
  destruct (utilityController m1), (utilityController m); try done; destruct H3 as [H3 H3']; [by discriminate H3'|by discriminate H3].
Qed.

(** Whatever the paths report (no packets sent, no RTT, any bandwidth and loss), in every
    round every path's congestion controller is handed a gain and a backoff within its
    bounds, exactly one per path, and the utility controller keeps its invariant for the next
    round. *)
Theorem monitor_round_drives_paths m collecting order1 order2 order3 now elapsed :
  monitor_ok m -> is_Some (utilityController m) ->
  let '(m', ps) := monitor_round m collecting order1 order2 order3 now elapsed in
  monitor_ok m' /\ Forall2 (fun p p' => exists gain backoff, gain_ok gain /\ backoff_ok backoff
                                        /\ p' = apply_signal p gain backoff) order3 ps.
Proof.
  intros Hm Huc. unfold monitor_round.
  set (m1 := monitorPrepareUtilityRound _ order2).
  assert (monitor_ok m1) as H1 by (apply prepare_ok, updates_ok, clear_ok, Hm).
  assert (is_Some (utilityController m1)) as [uc Huc1].
  { unfold m1, monitorPrepareUtilityRound.
    assert (forall l m, utilityController (fold_left monitorUpdatePathState l m) = utilityController m) as Hf.
    { clear. intros l. induction l as [|p l IH]; intros m; [done|]. cbn [fold_left]. by rewrite IH. }
    rewrite Hf. cbn [monitorClear utilityController]. destruct Huc as [uc ->]. cbn. eauto. }
  destruct (apply_all_ok m1 order3 now elapsed H1) as [G1 G2]. rewrite Huc1 in G2.
  destruct (apply_all m1 order3 now elapsed) as [m' ps]. done.
Qed.

(** ** The warm-up *)

(** A path that keeps the scheduler warming up. *)
Definition cold (few : bool) (p : path (C := C)) : bool := few || (negb (pathID p =? InitialPathID) && (rtt p =? 0)).

Lemma warm_warm s : warm (warm s) = warm s.
Proof. unfold warm. cbn. destruct (decide (Name s = "moooko"%string)); by repeat case_decide. Qed.

Lemma begin_step_spec few s flag p :
  begin_step few (s, flag) p = if cold few p then (warm s, true) else (s, flag).
Proof.
  unfold begin_step, cold. destruct few; cbn [orb fst]; destruct (_ && _); by rewrite ?warm_warm.
Qed.

Lemma begin_loop few order s flag :
  fold_left (begin_step few) order (s, flag) = if existsb (cold few) order then (warm s, true) else (s, flag).
Proof.
  revert s flag. induction order as [|p order IH]; intros s flag; [done|]. cbn [fold_left existsb].
  rewrite begin_step_spec. destruct (cold few p); rewrite IH; cbn [orb]; destruct (existsb _ _); by rewrite ?warm_warm.
Qed.

(** A session configured for [moooko] runs the low-latency scheduler exactly as long as it
    has fewer than three paths or a path without RTT, and [moooko] otherwise, whatever
    happened before. *)
Theorem warmup_exact s order :
  OriginScheduler s = "moooko"%string ->
  (Name s = "moooko"%string \/ (Name s = "rtt"%string /\ Flag_beginining s = true)) ->
  let s' := isAtbegining s order in
  Name s' = (if existsb (cold (length order <? 3)%nat) order then "rtt" else "moooko")%string
  /\ OriginScheduler s' = "moooko"%string
  /\ (Name s' = "moooko"%string \/ (Name s' = "rtt"%string /\ Flag_beginining s' = true)).
Proof.
  intros Ho Hn. unfold isAtbegining. rewrite begin_loop. destruct (existsb _ _); cbn [negb andb].
  - assert (Name (warm s) = "rtt"%string) as Hw by (unfold warm; cbn; case_decide; [done|]; by destruct Hn as [?|[-> _]]).
    rewrite Hw. split; [done|]. split; [done|]. by right.
  - rewrite Ho. rewrite (bool_decide_eq_true_2 ("moooko" = "moooko")%string) by done. rewrite andb_true_r.
    destruct Hn as [Hn|[Hn Hf]].
    + rewrite Hn. rewrite (bool_decide_eq_false_2 ("moooko" = "rtt")%string) by done. rewrite andb_false_r.
      rewrite Hn. split; [done|]. split; [done|]. by left.
    + rewrite Hn, Hf. rewrite (bool_decide_eq_true_2 ("rtt" = "rtt")%string) by done. cbn. split; [done|]. split; [done|]. by left.
Qed.
End Monitor.

(** ** Witnesses *)

#[local] Existing Instance sample_algorithm.

Lemma warmup_exact_witness :
  Name (isAtbegining (MkSwitches "rtt" "moooko" true false) sample_paths) = "moooko"%string
  /\ Name (isAtbegining (MkSwitches "moooko" "moooko" true false) (take 2 sample_paths)) = "rtt"%string.
Proof.
  split.
  - refine (proj1 (warmup_exact (MkSwitches "rtt" "moooko" true false) sample_paths _ _)); [reflexivity|by right].
  - refine (proj1 (warmup_exact (MkSwitches "moooko" "moooko" true false) (take 2 sample_paths) _ _)); [reflexivity|by left].
Defined.

Lemma monitor_round_drives_paths_witness :
  let '(m', ps) := monitor_round linear_pow (setup (Some witness_controller)) false sample_paths sample_paths sample_paths 7 f0 in
  length ps = 3%nat /\ monitor_ok m'.
Proof.
  pose proof (monitor_round_drives_paths linear_pow linear_pow_ok (setup (Some witness_controller)) false
                sample_paths sample_paths sample_paths 7 f0) as H.
  assert (monitor_ok (setup (Some witness_controller))) as Hm by (split; [apply map_Forall_empty|apply new_controller_ok]).
  specialize (H Hm (ex_intro _ _ eq_refl)). destruct (monitor_round _ _ _ _ _ _ _ _) as [m' ps].
  destruct H as [H1 H2]. apply Forall2_length in H2. split; [symmetry; exact H2|exact H1].
Defined.
