(* ===== verification/StreamsMap.v ===== *)
(** * Streams map

    Models [streams_map.go]: which streams a session has, how the peer's and our own streams
    are opened, accepted and removed, the limits on their number, and the two iterations, of
    which the round robin one decides whose data is sent next.

    A stream is any type [S]; a function that is handed a stream by an iteration works on the
    whole map and some state of its own.  Blocking calls are modelled up to the point where
    they wait.  Stream IDs are 32-bit integers.

    The theorems: on a server the limits hold and the counters are exact; a stream ID is never
    given out twice; opening a stream terminates on every ID; a round robin iteration visits
    every stream once; and on a client neither limit is enforced. *)

From Stdlib Require Import ZArith.
From stdpp Require Import base numbers list option strings gmap.
From S2P Require Import Prelude PublicHeader.

Local Open Scope Z_scope.

Definition MaxNewStreamIDDelta : Z := 4 * 100.

Definition TooManyOpenStreams : goerr := QErr "TooManyOpenStreams" "".
Definition errMapAccess : goerr := GoErr "streamsMap: Error accessing the streams map".
Definition errSmallStreamID : goerr := QErr "InvalidStreamID" "attempted to open a stream a lot smaller than the highest opened stream".
Definition errWrongSide : goerr := QErr "InvalidStreamID" "attempted to open a stream from the other side".
Definition errNoStream : goerr := GoErr "attempted to remove non-existing stream".

Module streamsMap.
Section StreamsMap.
Context {S : Type} (newStream : Z -> S).

Record t : Type := Mk {
  perspective : Perspective;
  streams : gmap Z S;
  openStreams : list Z;
  roundRobinIndex : Z;
  nextStream : Z;
  highestStreamOpenedByPeer : Z;
  closeErr : option goerr;
  nextStreamToAccept : Z;
  numOutgoingStreams : Z;
  numIncomingStreams : Z;
}.

Definition newStreamsMap (pers : Perspective) : t :=
  match pers with
  | PerspectiveClient => Mk pers ∅ [] 0 1 0 None 2 0 0
  | PerspectiveServer => Mk pers ∅ [] 0 2 0 None 1 0 0
  end.

(** The error for a stream that exists is ignored by the callers. *)
Definition putStream (m : t) (id : Z) (s : S) : t :=
  match streams m !! id with
  | Some _ => m
  | None => Mk (perspective m) (<[id := s]> (streams m)) (openStreams m ++ [id]) (roundRobinIndex m) (nextStream m)
              (highestStreamOpenedByPeer m) (closeErr m) (nextStreamToAccept m) (numOutgoingStreams m) (numIncomingStreams m)
  end.

(** One more stream opened by the side [by]. *)
Definition counted (m : t) (outgoing : bool) : t :=
  Mk (perspective m) (streams m) (openStreams m) (roundRobinIndex m) (nextStream m) (highestStreamOpenedByPeer m)
    (closeErr m) (nextStreamToAccept m)
    (if outgoing then u32 (numOutgoingStreams m + 1) else numOutgoingStreams m)
    (if outgoing then numIncomingStreams m else u32 (numIncomingStreams m + 1)).

Definition set_highest (m : t) (id : Z) : t :=
  Mk (perspective m) (streams m) (openStreams m) (roundRobinIndex m) (nextStream m) id
    (closeErr m) (nextStreamToAccept m) (numOutgoingStreams m) (numIncomingStreams m).

Definition openRemoteStream (maxIncoming : Z) (m : t) (id : Z) : res S * t :=
  if maxIncoming <=? numIncomingStreams m then (Err TooManyOpenStreams, m)
  else if u32 (id + MaxNewStreamIDDelta) <? highestStreamOpenedByPeer m then (Err errSmallStreamID, m)
  else
    let m := counted m (negb (is_server (perspective m))) in
    let m := if highestStreamOpenedByPeer m <? id then set_highest m id else m in
    let s := newStream id in
    (Ok s, putStream m id s).

Definition openStreamImpl (maxOutgoing : Z) (m : t) : res S * t :=
  let id := nextStream m in
  if maxOutgoing <=? numOutgoingStreams m then (Err TooManyOpenStreams, m)
  else
    let m := counted m (is_server (perspective m)) in
    let m := Mk (perspective m) (streams m) (openStreams m) (roundRobinIndex m) (u32 (nextStream m + 2))
               (highestStreamOpenedByPeer m) (closeErr m) (nextStreamToAccept m) (numOutgoingStreams m) (numIncomingStreams m) in
    let s := newStream id in
    (Ok s, putStream m id s).

Definition OpenStream (maxOutgoing : Z) (m : t) : res S * t :=
  match closeErr m with
  | Some e => (Err e, m)
  | None => openStreamImpl maxOutgoing m
  end.

(** [None]: the call waits for a stream to be removed or an error. *)
Definition OpenStreamSync (maxOutgoing : Z) (m : t) : option (res S) * t :=
  match closeErr m with
  | Some e => (Some (Err e), m)
  | None =>
      match openStreamImpl maxOutgoing m with
      | (Ok s, m) => (Some (Ok s), m)
      | (Err e, m) => if decide (e = TooManyOpenStreams) then (None, m) else (Some (Err e), m)
      | (Panic, m) => (Some Panic, m)
      end
  end.

(** The loop that opens every stream up to [id]; [None] if it has not ended. *)
Fixpoint open_loop (fuel : nat) (maxIncoming : Z) (m : t) (sid id : Z) : option (res unit * t) :=
  if sid <=? id then
    match fuel with
    | O => None
    | Datatypes.S fuel =>
        match openRemoteStream maxIncoming m sid with
        | (Ok _, m) => open_loop fuel maxIncoming m (u32 (sid + 2)) id
        | (Err e, m) => Some (Err e, m)
        | (Panic, m) => Some (Panic, m)
        end
    end
  else Some (Ok tt, m).

(** Is a stream that is not in the map closed, or of the wrong side? *)
Definition closed_or_wrong (m : t) (id : Z) : option (res (option S)) :=
  let ours := if is_server (perspective m) then id mod 2 =? 0 else id mod 2 =? 1 in
  if ours then Some (if id <=? nextStream m then Ok None else Err errWrongSide)
  else if id <=? highestStreamOpenedByPeer m then Some (Ok None)
  else None.

Definition first_sid (m : t) : Z :=
  let sid := u32 (highestStreamOpenedByPeer m + 2) in
  if (sid =? 2) && is_server (perspective m) then 1 else sid.

Definition open_fuel (m : t) (id : Z) : nat := Z.to_nat ((id - first_sid m) / 2 + 2).

Definition GetOrOpenStream (maxIncoming : Z) (m : t) (id : Z) : option (res (option S) * t) :=
  match streams m !! id with
  | Some s => Some (Ok (Some s), m)
  | None =>
      match closed_or_wrong m id with
      | Some r => Some (r, m)
      | None =>
          match open_loop (open_fuel m id) maxIncoming m (first_sid m) id with
          | Some (Ok _, m) => Some (Ok (streams m !! id), m)
          | Some (Err e, m) => Some (Err e, m)
          | Some (Panic, m) => Some (Panic, m)
          | None => None
          end
      end
  end.

(** [None]: the call waits for the peer to open the stream. *)
Definition AcceptStream (m : t) : option (res S) * t :=
  match closeErr m with
  | Some e => (Some (Err e), m)
  | None =>
      match streams m !! nextStreamToAccept m with
      | None => (None, m)
      | Some s =>
          (Some (Ok s), Mk (perspective m) (streams m) (openStreams m) (roundRobinIndex m) (nextStream m)
                          (highestStreamOpenedByPeer m) (closeErr m) (u32 (nextStreamToAccept m + 2))
                          (numOutgoingStreams m) (numIncomingStreams m))
      end
  end.

(** ** Removing *)

(** The list without its first [id], and the index of that one. *)
Fixpoint remove_first (id : Z) (l : list Z) (i : Z) : list Z * option Z :=
  match l with
  | [] => ([], None)
  | s :: l => if s =? id then (l, Some i) else let '(l', r) := remove_first id l (i + 1) in (s :: l', r)
  end.

Definition RemoveStream (m : t) (id : Z) : res unit * t :=
  match streams m !! id with
  | None => (Err errNoStream, m)
  | Some _ =>
      let even := id mod 2 =? 0 in
      let '(l, i) := remove_first id (openStreams m) 0 in
      let rr := match i with
                | Some i => if i <? roundRobinIndex m then u32 (roundRobinIndex m - 1) else roundRobinIndex m
                | None => roundRobinIndex m
                end in
      (Ok tt, Mk (perspective m) (delete id (streams m)) l rr (nextStream m) (highestStreamOpenedByPeer m) (closeErr m)
                (nextStreamToAccept m)
                (if even then u32 (numOutgoingStreams m - 1) else numOutgoingStreams m)
                (if even then numIncomingStreams m else u32 (numIncomingStreams m - 1)))
  end.

(** [cancel]: the stream's [Cancel]. *)
Definition CloseWithError (cancel : S -> S) (m : t) (e : goerr) : t :=
  Mk (perspective m) (cancel <$> streams m) (openStreams m) (roundRobinIndex m) (nextStream m)
    (highestStreamOpenedByPeer m) (Some e) (nextStreamToAccept m) (numOutgoingStreams m) (numIncomingStreams m).

(** ** Iterations *)

Section Iterations.
Context {X : Type} (fn : Z -> S -> t * X -> res bool * (t * X)).

Definition iterateFunc (id : Z) (st : t * X) : res bool * (t * X) :=
  match streams st.1 !! id with
  | None => (Err errMapAccess, st)
  | Some s => fn id s st
  end.

Fixpoint iterate_loop (ids : list Z) (st : t * X) : res unit * (t * X) :=
  match ids with
  | [] => (Ok tt, st)
  | id :: ids =>
      match iterateFunc id st with
      | (Ok cont, st) => if cont then iterate_loop ids st else (Ok tt, st)
      | (Err e, st) => (Err e, st)
      | (Panic, st) => (Panic, st)
      end
  end.

Definition Iterate (st : t * X) : res unit * (t * X) := iterate_loop (openStreams st.1) st.

(** The crypto and the header stream; [false]: the iteration is over. *)
Fixpoint priority_loop (ids : list Z) (st : t * X) : res bool * (t * X) :=
  match ids with
  | [] => (Ok true, st)
  | id :: ids =>
      match iterateFunc id st with
      | (Ok cont, st) => if cont then priority_loop ids st else (Ok false, st)
      | (Err e, st) => if decide (e = errMapAccess) then (if decide (streams st.1 !! id = None) then priority_loop ids st else (Ok false, st)) else (Err e, st)
      | (Panic, st) => (Panic, st)
      end
  end.

Definition set_index (st : t * X) (i : Z) : t * X :=
  let m := st.1 in
  (Mk (perspective m) (streams m) (openStreams m) i (nextStream m) (highestStreamOpenedByPeer m) (closeErr m)
     (nextStreamToAccept m) (numOutgoingStreams m) (numIncomingStreams m), st.2).

(** [n] streams are left; [i] is the loop's index. *)
Fixpoint rr_loop (n : nat) (i numStreams startIndex : Z) (st : t * X) : res unit * (t * X) :=
  match n with
  | O => (Ok tt, st)
  | Datatypes.S n =>
      match openStreams st.1 !! Z.to_nat (u32 (i + startIndex) mod numStreams) with
      | None => (Panic, st)
      | Some id =>
          if (id =? 1) || (id =? 3) then rr_loop n (i + 1) numStreams startIndex st
          else
            match iterateFunc id st with
            | (Ok cont, st) =>
                let st := set_index st (u32 (roundRobinIndex st.1 + 1) mod numStreams) in
                if cont then rr_loop n (i + 1) numStreams startIndex st else (Ok tt, st)
            | (Err e, st) => (Err e, st)
            | (Panic, st) => (Panic, st)
            end
      end
  end.

Definition RoundRobinIterate (st : t * X) : res unit * (t * X) :=
  let numStreams := Z.of_nat (size (streams st.1)) in
  let startIndex := roundRobinIndex st.1 in
  match priority_loop [1; 3] st with
  | (Ok true, st) => rr_loop (size (streams st.1)) 0 numStreams startIndex st
  | (Ok false, st) => (Ok tt, st)
  | (Err e, st) => (Err e, st)
  | (Panic, st) => (Panic, st)
  end.

End Iterations.
End StreamsMap.
Arguments t S : clear implicits.

(** ** The invariant *)

Section Invariant.
Context {S : Type} (newStream : Z -> S).
Implicit Types (m : t S).

Definition even_id (id : Z) : bool := id mod 2 =? 0.
Definition evens (l : list Z) : Z := Z.of_nat (length (List.filter even_id l)).
Definition odds (l : list Z) : Z := Z.of_nat (length (List.filter (fun id => negb (even_id id)) l)).

(** Is the stream opened by the peer? *)
Definition remote (p : Perspective) (id : Z) : Prop := even_id id = negb (is_server p).

Record inv m : Prop := {
  i_nodup : NoDup (openStreams m);
  i_dom : forall id, id ∈ openStreams m <-> is_Some (streams m !! id);
  i_in : numIncomingStreams m = odds (openStreams m);
  i_out : numOutgoingStreams m = evens (openStreams m);
  i_range : forall id, id ∈ openStreams m -> 0 <= id < 2 ^ 32;
  i_remote : forall id, id ∈ openStreams m -> remote (perspective m) id -> id <= highestStreamOpenedByPeer m;
  i_ours : forall id, id ∈ openStreams m -> ~ remote (perspective m) id -> id < nextStream m;
  i_next : ~ remote (perspective m) (nextStream m) /\ 1 <= nextStream m < 2 ^ 32;
  i_highest : 0 <= highestStreamOpenedByPeer m < 2 ^ 32
              /\ (highestStreamOpenedByPeer m = 0 \/ remote (perspective m) (highestStreamOpenedByPeer m));
  i_index : 0 <= roundRobinIndex m <= Z.of_nat (length (openStreams m));
}.

Lemma evens_app l l' : evens (l ++ l') = evens l + evens l'.
Proof. unfold evens. rewrite List.filter_app, length_app. lia. Qed.
Lemma odds_app l l' : odds (l ++ l') = odds l + odds l'.
Proof. unfold odds. rewrite List.filter_app, length_app. lia. Qed.

Lemma evens_one id : evens [id] = if even_id id then 1 else 0.
Proof. unfold evens. cbn [List.filter]. by destruct (even_id id). Qed.
Lemma odds_one id : odds [id] = if even_id id then 0 else 1.
Proof. unfold odds. cbn [List.filter]. by destruct (even_id id). Qed.

(** At most [2 ^ 31] IDs have the same parity, so the counters do not wrap. *)
Lemma parity_count (b : bool) (l : list Z) :
  NoDup l -> (forall id, id ∈ l -> 0 <= id < 2 ^ 32) ->
  Z.of_nat (length (List.filter (fun id => Bool.eqb (even_id id) b) l)) <= 2 ^ 31.
Proof.
  intros Hn Hr. set (f := List.filter _ l).
  assert (NoDup f) as Hf by (apply NoDup_ListNoDup, List.NoDup_filter, NoDup_ListNoDup, Hn).
  assert (forall x, x ∈ f -> x ∈ l /\ even_id x = b) as Hx.
  { intros x Hx. apply list_elem_of_In, List.filter_In in Hx as [H1 H2]. apply list_elem_of_In in H1. split; [done|].
    by apply eqb_prop in H2. }
  assert (NoDup ((fun x => x / 2) <$> f)) as Hd.
  { apply NoDup_fmap_2_strong; [|done]. intros x y [_ Ex]%Hx [_ Ey]%Hx Hxy. unfold even_id in Ex, Ey.
    pose proof (Z.div_mod x 2 ltac:(lia)) as Dx. pose proof (Z.div_mod y 2 ltac:(lia)) as Dy.
    pose proof (Z.mod_pos_bound x 2 ltac:(lia)). pose proof (Z.mod_pos_bound y 2 ltac:(lia)).
    destruct (Z.eqb_spec (x `mod` 2) 0), (Z.eqb_spec (y `mod` 2) 0); subst b; try discriminate; lia. }
  assert (((fun x => x / 2) <$> f) ⊆ seqZ 0 (2 ^ 31)) as Hsub.
  { intros z [x [-> [Hin _]%Hx]]%list_elem_of_fmap. apply elem_of_seqZ. specialize (Hr x Hin).
    pose proof (Z.div_pos x 2). pose proof (Z.div_lt_upper_bound x 2 (2 ^ 31)). lia. }
  pose proof (submseteq_length _ _ (NoDup_submseteq _ _ Hd Hsub)) as Hlen.
  rewrite length_fmap, length_seqZ in Hlen. lia.
Qed.

Lemma evens_bound l : NoDup l -> (forall id, id ∈ l -> 0 <= id < 2 ^ 32) -> 0 <= evens l <= 2 ^ 31.
Proof.
  intros Hn Hr. pose proof (parity_count true l Hn Hr) as H. unfold evens.
  rewrite (List.filter_ext even_id (fun id => Bool.eqb (even_id id) true)) by (intros; by destruct (even_id _)). lia.
Qed.
Lemma odds_bound l : NoDup l -> (forall id, id ∈ l -> 0 <= id < 2 ^ 32) -> 0 <= odds l <= 2 ^ 31.
Proof.
  intros Hn Hr. pose proof (parity_count false l Hn Hr) as H. unfold odds.
  rewrite (List.filter_ext (fun id => negb (even_id id)) (fun id => Bool.eqb (even_id id) false)) by (intros; by destruct (even_id _)). lia.
Qed.

Lemma new_inv p : inv (newStreamsMap (S := S) p).
Proof.
  assert (forall id : Z, id ∈ @nil Z <-> is_Some ((∅ : gmap Z S) !! id)) as Hd.
  { intros id. split; [by intros []%not_elem_of_nil|by intros [? ?]]. }
  destruct p; (split; cbn [newStreamsMap openStreams streams numIncomingStreams numOutgoingStreams perspective nextStream highestStreamOpenedByPeer];
    [constructor|exact Hd|done|done|by intros ? []%not_elem_of_nil|by intros ? []%not_elem_of_nil|by intros ? []%not_elem_of_nil
    |split; [done|lia]|split; [lia|by left]|cbn; lia]).
Qed.

(** Entering a new stream. *)
Lemma put_new m id s :
  streams m !! id = None -> openStreams (putStream m id s) = openStreams m ++ [id]
  /\ streams (putStream m id s) = <[id := s]> (streams m)
  /\ nextStream (putStream m id s) = nextStream m /\ perspective (putStream m id s) = perspective m
  /\ highestStreamOpenedByPeer (putStream m id s) = highestStreamOpenedByPeer m
  /\ numIncomingStreams (putStream m id s) = numIncomingStreams m /\ numOutgoingStreams (putStream m id s) = numOutgoingStreams m
  /\ roundRobinIndex (putStream m id s) = roundRobinIndex m.
Proof. intros H. unfold putStream. by rewrite H. Qed.

(** One more stream with a new ID keeps the invariant, whoever opened it. *)
Lemma add_stream_inv m m' id s :
  inv m -> streams m !! id = None -> 0 <= id < 2 ^ 32 ->
  openStreams m' = openStreams m ++ [id] -> streams m' = <[id := s]> (streams m) -> perspective m' = perspective m ->
  numIncomingStreams m' = (if even_id id then numIncomingStreams m else u32 (numIncomingStreams m + 1)) ->
  numOutgoingStreams m' = (if even_id id then u32 (numOutgoingStreams m + 1) else numOutgoingStreams m) ->
  highestStreamOpenedByPeer m <= highestStreamOpenedByPeer m' -> nextStream m <= nextStream m' ->
  (remote (perspective m) id -> id <= highestStreamOpenedByPeer m') -> (~ remote (perspective m) id -> id < nextStream m') ->
  (~ remote (perspective m) (nextStream m') /\ 1 <= nextStream m' < 2 ^ 32) ->
  (0 <= highestStreamOpenedByPeer m' < 2 ^ 32
   /\ (highestStreamOpenedByPeer m' = 0 \/ remote (perspective m) (highestStreamOpenedByPeer m'))) ->
  roundRobinIndex m' = roundRobinIndex m -> inv m'.
Proof.
  intros [Hn Hd Hi Ho Hr Hrem Hour Hnext Hhigh Hindex] Hnone Hid Eo Es Ep Ei Eou Hh Hne H1 H2 H3 H4 H5.
  assert (id ∉ openStreams m) as Hnot by (rewrite Hd, Hnone; by intros [? ?]).
  assert (NoDup (openStreams m')) as Hn'.
  { rewrite Eo. apply NoDup_app. split; [done|]. split; [|apply NoDup_singleton]. by intros x Hx ->%list_elem_of_singleton. }
  assert (forall x, x ∈ openStreams m' -> 0 <= x < 2 ^ 32) as Hr'.
  { rewrite Eo. intros x [Hx| ->%list_elem_of_singleton]%elem_of_app; [by apply Hr|done]. }
  pose proof (evens_bound _ Hn' Hr') as Bev. pose proof (odds_bound _ Hn' Hr') as Bod.
  rewrite Eo in Bev, Bod. rewrite evens_app, evens_one in Bev. rewrite odds_app, odds_one in Bod.
  split.
  - done.
  - intros x. rewrite Eo, Es, elem_of_app, list_elem_of_singleton, Hd. destruct (decide (x = id)) as [->|Hne'].
    + rewrite lookup_insert_eq. split; eauto.
    + rewrite lookup_insert_ne by done. tauto.
  - rewrite Ei, Eo, odds_app, odds_one, Hi. destruct (even_id id); [lia|]. apply u32_small.
    unfold odds in *. lia.
  - rewrite Eou, Eo, evens_app, evens_one, Ho. destruct (even_id id); [|lia]. apply u32_small. unfold evens in *. lia.
  - done.
  - rewrite Ep, Eo. intros x [Hx| ->%list_elem_of_singleton]%elem_of_app Hre; [|by apply H1]. specialize (Hrem x Hx Hre). lia.
  - rewrite Ep, Eo. intros x [Hx| ->%list_elem_of_singleton]%elem_of_app Hre; [|by apply H2]. specialize (Hour x Hx Hre). lia.
  - by rewrite Ep.
  - by rewrite Ep.
  - rewrite H5, Eo, length_app. lia.
Qed.

Lemma remote_even p id : remote p id -> even_id id = negb (is_server p).
Proof. done. Qed.
Lemma ours_even p id : ~ remote p id -> even_id id = is_server p.
Proof. unfold remote. destruct (even_id id), p; done. Qed.

Lemma new_remote_absent m id :
  inv m -> remote (perspective m) id -> highestStreamOpenedByPeer m < id -> streams m !! id = None.
Proof.
  intros Hinv Hre Hlt. destruct (streams m !! id) as [s|] eqn:E; [|done].
  assert (id ∈ openStreams m) as Hin by (apply (i_dom m Hinv); eauto). pose proof (i_remote m Hinv id Hin Hre). lia.
Qed.

Lemma new_ours_absent m :
  inv m -> streams m !! nextStream m = None.
Proof.
  intros Hinv. destruct (streams m !! nextStream m) as [s|] eqn:E; [|done].
  assert (nextStream m ∈ openStreams m) as Hin by (apply (i_dom m Hinv); eauto).
  pose proof (i_ours m Hinv _ Hin (proj1 (i_next m Hinv))). lia.
Qed.

(** *** The peer's streams *)

Lemma openRemote_spec maxIncoming m id :
  inv m -> remote (perspective m) id -> highestStreamOpenedByPeer m < id < 2 ^ 32 ->
  match openRemoteStream newStream maxIncoming m id with
  | (Ok s, m') => inv m' /\ s = newStream id /\ openStreams m' = openStreams m ++ [id] /\ nextStream m' = nextStream m
                  /\ highestStreamOpenedByPeer m' = id /\ perspective m' = perspective m
                  /\ streams m' = <[id := s]> (streams m) /\ numIncomingStreams m < maxIncoming
  | (Err _, m') => m' = m
  | (Panic, _) => False
  end.
Proof.
  intros Hinv Hre Hid. unfold openRemoteStream.
  destruct (Z.leb_spec maxIncoming (numIncomingStreams m)); [done|].
  destruct (u32 (id + MaxNewStreamIDDelta) <? highestStreamOpenedByPeer m); [done|]. cbn zeta.
  assert (0 <= highestStreamOpenedByPeer m) as Hh0 by apply (i_highest m Hinv).
  set (m1 := counted m _). change (highestStreamOpenedByPeer m1) with (highestStreamOpenedByPeer m).
  rewrite (proj2 (Z.ltb_lt _ _) (proj1 Hid)). set (m2 := set_highest m1 id).
  pose proof (new_remote_absent m id Hinv Hre (proj1 Hid)) as Hnone.
  destruct (put_new m2 id (newStream id) Hnone) as (P1 & P2 & P3 & P4 & P5 & P6 & P7 & P8).
  assert (inv (putStream m2 id (newStream id))) as Hi'.
  { apply (add_stream_inv m _ id (newStream id)); try assumption; try lia.
    - rewrite P6. cbn. rewrite (remote_even _ _ Hre). by destruct (perspective m).
    - rewrite P7. cbn. rewrite (remote_even _ _ Hre). by destruct (perspective m).
    - rewrite P5. cbn. lia.
    - rewrite P3. cbn. lia.
    - rewrite P5. cbn. lia.
    - done.
    - rewrite P3. apply (i_next m Hinv).
    - rewrite P5. cbn. split; [lia|by right]. }
  split; [done|]. split; [done|]. split; [by rewrite P1|]. split; [by rewrite P3|]. split; [by rewrite P5|].
  split; [by rewrite P4|]. split; [by rewrite P2|lia].
Qed.
(** The streams a call opened. *)
Record opened m m' (news : list Z) : Prop := {
  op_inv : inv m';
  op_open : openStreams m' = openStreams m ++ news;
  op_pers : perspective m' = perspective m;
  op_next : nextStream m' = nextStream m;
  op_high : highestStreamOpenedByPeer m <= highestStreamOpenedByPeer m';
  op_news : forall n, n ∈ news -> remote (perspective m) n /\ highestStreamOpenedByPeer m < n <= highestStreamOpenedByPeer m';
  op_content : forall n, streams m' !! n = if decide (n ∈ news) then Some (newStream n) else streams m !! n;
}.

Lemma opened_refl m : inv m -> opened m m [].
Proof.
  intros H. split; [done|by rewrite app_nil_r|done|done|lia|by intros ? []%not_elem_of_nil|].
  intros n. by rewrite decide_False by (intros []%not_elem_of_nil).
Qed.

Lemma remote_next p sid : remote p sid -> 0 <= sid -> sid + 2 < 2 ^ 32 -> remote p (u32 (sid + 2)).
Proof.
  intros H H0 Hlt. rewrite u32_small by lia. unfold remote, even_id in *. rewrite <- H.
  replace (sid + 2) with (sid + 1 * 2) by lia. by rewrite Z.mod_add.
Qed.

Lemma remote_gap p a b : remote p a -> remote p b -> a < b -> a + 2 <= b.
Proof.
  unfold remote, even_id. intros Ha Hb Hlt. destruct (decide (b = a + 1)) as [->|]; [|lia].
  rewrite <- Ha in Hb. pose proof (Z.mod_pos_bound a 2). assert ((a + 1) mod 2 = 1 - a mod 2) as E.
  { rewrite (Z.div_mod a 2) at 1 by lia. replace (2 * (a / 2) + a mod 2 + 1) with (a mod 2 + 1 + (a / 2) * 2) by lia.
    rewrite Z.mod_add by lia. destruct (decide (a mod 2 = 0)) as [->|]; [done|]. by replace (a mod 2) with 1 by lia. }
  rewrite E in Hb. destruct (Z.eqb_spec (a mod 2) 0), (Z.eqb_spec (1 - a mod 2) 0); (discriminate || lia).
Qed.

(** After the last ID of its kind the loop wraps around and fails at once. *)
Lemma wrapped_open maxIncoming m sid :
  highestStreamOpenedByPeer m >= 2 ^ 32 - 2 -> 0 <= sid <= 1 ->
  exists e, openRemoteStream newStream maxIncoming m sid = (Err e, m).
Proof.
  intros Hh Hs. unfold openRemoteStream. destruct (maxIncoming <=? numIncomingStreams m); [by eexists|].
  unfold MaxNewStreamIDDelta. rewrite u32_small by lia. rewrite (proj2 (Z.ltb_lt _ _)) by lia. by eexists.
Qed.

Lemma open_loop_spec fuel maxIncoming m sid id :
  inv m -> remote (perspective m) sid -> remote (perspective m) id ->
  highestStreamOpenedByPeer m < sid -> sid <= id < 2 ^ 32 -> (id - sid) / 2 + 2 <= Z.of_nat fuel ->
  exists r m' news, open_loop newStream fuel maxIncoming m sid id = Some (r, m') /\ opened m m' news
    /\ (r = Ok tt -> id ∈ news) /\ r <> Panic
    /\ (is_server (perspective m) = true -> numIncomingStreams m <= maxIncoming -> numIncomingStreams m' <= maxIncoming).
Proof.
  revert m sid. induction fuel as [|fuel IH]; intros m sid Hinv Hs Hid Hlow Hle Hfuel.
  { pose proof (Z.div_pos (id - sid) 2). lia. }
  cbn [open_loop]. rewrite (proj2 (Z.leb_le sid id)) by lia.
  pose proof (openRemote_spec maxIncoming m sid Hinv Hs ltac:(lia)) as Hopen.
  destruct (openRemoteStream newStream maxIncoming m sid) as [[s|e|] m1]; [|subst m1|done].
  2:{ exists (Err e), m, []. split; [done|]. split; [by apply opened_refl|]. split; [done|]. split; [done|]. auto. }
  destruct Hopen as (Hi1 & -> & Ho1 & Hn1 & Hh1 & Hp1 & Hst1 & Hlim).
  assert (opened m m1 [sid]) as Hop1.
  { split; try done; [lia| |].
    - intros n ->%list_elem_of_singleton. split; [done|lia].
    - intros n. rewrite Hst1. case_decide as Hin.
      + apply list_elem_of_singleton in Hin as ->. by rewrite lookup_insert_eq.
      + rewrite list_elem_of_singleton in Hin. by rewrite lookup_insert_ne. }
  assert (is_server (perspective m) = true -> numIncomingStreams m <= maxIncoming -> numIncomingStreams m1 <= maxIncoming) as Hlim1.
  { intros Hsv _. rewrite (i_in _ Hi1), Ho1, odds_app, odds_one, <- (i_in _ Hinv), (remote_even _ _ Hs), Hsv. cbn. lia. }
  assert (0 <= sid) by (pose proof (i_highest m Hinv); lia).
  destruct (decide (sid = id)) as [->|Hne].
  - destruct (decide (id + 2 < 2 ^ 32)) as [Hsm|Hbig].
    + exists (Ok tt), m1, [id]. rewrite u32_small by lia. destruct fuel; cbn [open_loop]; rewrite (proj2 (Z.leb_gt _ _)) by lia;
        (split; [done|split; [done|split; [by intros _; apply list_elem_of_singleton|split; [done|exact Hlim1]]]]).
    + assert (0 <= u32 (id + 2) <= 1) as Hwrap.
      { unfold u32, wrap. replace (id + 2) with ((id + 2 - 2 ^ 32) + 1 * 2 ^ 32) by lia. rewrite Z.mod_add by lia.
        rewrite Z.mod_small by lia. lia. }
      destruct fuel as [|fuel]; [rewrite Z.sub_diag, Z.div_0_l in Hfuel by lia; lia|]. cbn [open_loop].
      rewrite (proj2 (Z.leb_le _ _)) by lia.
      destruct (wrapped_open maxIncoming m1 (u32 (id + 2)) ltac:(lia) Hwrap) as [e ->].
      exists (Err e), m1, [id]. split; [done|]. split; [done|]. split; [done|]. split; [done|]. exact Hlim1.
  - pose proof (remote_gap _ _ _ Hs Hid ltac:(lia)) as Hgap.
    pose proof (remote_next _ _ Hs ltac:(lia) ltac:(lia)) as Hs2. rewrite u32_small in Hs2 |- * by lia.
    destruct (IH m1 (sid + 2) Hi1) as (r & m2 & news & Hl & Hop2 & Hr & Hnp & Hlim2).
    + by rewrite Hp1. + by rewrite Hp1. + lia. + lia.
    + replace (id - sid) with (id - (sid + 2) + 1 * 2) in Hfuel by lia. rewrite Z.div_add in Hfuel by lia. lia.
    + exists r, m2, (sid :: news). split; [done|]. split.
      * destruct Hop2 as [O1 O2 O3 O4 O5 O6 O7]. split.
        -- done.
        -- rewrite O2, Ho1, <- app_assoc. done.
        -- by rewrite O3.
        -- by rewrite O4.
        -- lia.
        -- intros n Hn. apply elem_of_cons in Hn as [->|Hn]; [split; [done|lia]|]. destruct (O6 n Hn) as [G1 G2].
           rewrite Hp1 in G1. split; [done|lia].
        -- intros n. rewrite O7, (op_content _ _ _ Hop1). destruct (decide (n ∈ news)) as [Hin|Hnin].
           ++ rewrite decide_True by (apply elem_of_cons; by right). done.
           ++ destruct (decide (n ∈ [sid])) as [Hin|Hnin'].
              ** rewrite decide_True by (apply list_elem_of_singleton in Hin as ->; left). done.
              ** rewrite decide_False by (intros [->|Hx]%elem_of_cons; [by apply Hnin', list_elem_of_singleton|by apply Hnin]). done.
      * split; [intros H1; apply elem_of_cons; right; by apply Hr|]. split; [done|].
        intros Hsv Hm. apply Hlim2; [by rewrite Hp1|by apply Hlim1].
Qed.
Lemma first_sid_spec m :
  inv m -> highestStreamOpenedByPeer m + 2 < 2 ^ 32 ->
  remote (perspective m) (first_sid m) /\ highestStreamOpenedByPeer m < first_sid m <= highestStreamOpenedByPeer m + 2.
Proof.
  intros Hinv Hlt. destruct (i_highest m Hinv) as [Hh Hp]. unfold first_sid. rewrite u32_small by lia.
  destruct (Z.eqb_spec (highestStreamOpenedByPeer m + 2) 2) as [E|E]; cbn [andb].
  - replace (highestStreamOpenedByPeer m) with 0 by lia. destruct (perspective m); cbn; (split; [done|lia]).
  - destruct Hp as [Hp|Hp]; [lia|]. split; [|lia]. rewrite <- (u32_small (highestStreamOpenedByPeer m + 2)) by lia.
    apply remote_next; [done|lia|lia].
Qed.

Lemma closed_or_wrong_spec m id :
  match closed_or_wrong m id with
  | Some (Ok None) => (~ remote (perspective m) id /\ id <= nextStream m) \/ (remote (perspective m) id /\ id <= highestStreamOpenedByPeer m)
  | Some (Ok (Some _)) => False
  | Some (Err e) => e = errWrongSide /\ ~ remote (perspective m) id /\ nextStream m < id
  | Some Panic => False
  | None => remote (perspective m) id /\ highestStreamOpenedByPeer m < id
  end.
Proof.
  unfold closed_or_wrong, remote, even_id.
  assert (id mod 2 = 0 \/ id mod 2 = 1) as Hm by (pose proof (Z.mod_pos_bound id 2); lia).
  destruct (perspective m); cbn [is_server negb];
    destruct Hm as [-> | ->]; cbn [Z.eqb]; repeat case_match; repeat match goal with H : (_ <=? _) = _ |- _ => revert H end;
    repeat match goal with |- context [?a <=? ?b] => destruct (Z.leb_spec a b) end; intros; simplify_eq; (naive_solver lia || idtac).
Qed.
(** [GetOrOpenStream] ends on every ID: with the stream if it is open, with nothing if it is
    closed, with an error if it is ours and was never opened, and otherwise after opening the
    peer's streams up to it, or as many as the limit and the wrap-around allow. *)
Lemma get_or_open_spec maxIncoming m id :
  inv m -> 0 <= id < 2 ^ 32 ->
  exists r m' news, GetOrOpenStream newStream maxIncoming m id = Some (r, m') /\ opened m m' news /\ r <> Panic
    /\ (is_server (perspective m) = true -> numIncomingStreams m <= maxIncoming -> numIncomingStreams m' <= maxIncoming)
    /\ match r with
       | Ok o => o = streams m' !! id
                 /\ (o = None -> m' = m /\ ((~ remote (perspective m) id /\ id <= nextStream m)
                                         \/ (remote (perspective m) id /\ id <= highestStreamOpenedByPeer m)))
       | _ => streams m !! id = None
       end.
Proof.
  intros Hinv Hid. unfold GetOrOpenStream. destruct (streams m !! id) as [s|] eqn:Hs.
  { exists (Ok (Some s)), m, []. split; [done|]. split; [by apply opened_refl|]. split; [done|]. split; [auto|]. by rewrite Hs. }
  pose proof (closed_or_wrong_spec m id) as Hc. destruct (closed_or_wrong m id) as [[[?|]|e|]|]; try done.
  { exists (Ok None), m, []. split; [done|]. split; [by apply opened_refl|]. split; [done|]. split; [auto|]. by rewrite Hs. }
  { exists (Err e), m, []. split; [done|]. split; [by apply opened_refl|]. done. }
  destruct Hc as [Hre Hlt]. destruct (i_highest m Hinv) as [Hh0 Hp].
  assert (highestStreamOpenedByPeer m + 2 <= id \/ (id = 1 /\ highestStreamOpenedByPeer m = 0)) as Hgap.
  { destruct Hp as [Hp|Hp]; [|left; by apply (remote_gap (perspective m))].
    destruct (decide (id = 1)) as [->|]; [by right|]. left. lia. }
  destruct (first_sid_spec m Hinv ltac:(lia)) as [Hr1 Hr2].
  assert (first_sid m <= id) as Hle.
  { destruct Hgap as [|[-> E]]; [lia|]. unfold first_sid. rewrite E. unfold remote, even_id in Hre. cbn in Hre.
    destruct (perspective m); [done|discriminate]. }
  pose proof (Z.div_pos (id - first_sid m) 2 ltac:(lia) ltac:(lia)).
  destruct (open_loop_spec (open_fuel m id) maxIncoming m (first_sid m) id) as (r & m' & news & Hl & Hop & Hr & Hnp & Hlim);
    try done; try lia; [unfold open_fuel; lia|].
  rewrite Hl. destruct r as [u|e|]; [|by exists (Err e), m', news|done]. destruct u.
  exists (Ok (streams m' !! id)), m', news. split; [done|]. split; [done|]. split; [done|]. split; [done|]. split; [done|].
  rewrite (op_content _ _ _ Hop), decide_True by auto. done.
Qed.

(** *** Our streams *)

Lemma remote_two p id : remote p (id + 2) <-> remote p id.
Proof.
  unfold remote, even_id. replace (id + 2) with (id + 1 * 2) by lia. by rewrite Z.mod_add.
Qed.

Lemma open_impl_spec maxOutgoing m :
  inv m -> nextStream m + 2 < 2 ^ 32 ->
  match openStreamImpl newStream maxOutgoing m with
  | (Ok s, m') => inv m' /\ s = newStream (nextStream m) /\ openStreams m' = openStreams m ++ [nextStream m]
                  /\ nextStream m' = nextStream m + 2 /\ highestStreamOpenedByPeer m' = highestStreamOpenedByPeer m
                  /\ perspective m' = perspective m /\ closeErr m' = closeErr m /\ numOutgoingStreams m < maxOutgoing
                  /\ streams m' = <[nextStream m := s]> (streams m)
  | (Err e, m') => m' = m /\ e = TooManyOpenStreams /\ maxOutgoing <= numOutgoingStreams m
  | (Panic, _) => False
  end.
Proof.
  intros Hinv Hlt. unfold openStreamImpl. destruct (Z.leb_spec maxOutgoing (numOutgoingStreams m)); [done|]. cbn zeta.
  set (m1 := counted m _).
  set (m2 := Mk (perspective m1) (streams m1) (openStreams m1) (roundRobinIndex m1) (u32 (nextStream m1 + 2)) (highestStreamOpenedByPeer m1)
               (closeErr m1) (nextStreamToAccept m1) (numOutgoingStreams m1) (numIncomingStreams m1)).
  destruct (i_next m Hinv) as [Hn1 Hn2]. pose proof (new_ours_absent m Hinv) as Hnone.
  destruct (put_new m2 (nextStream m) (newStream (nextStream m)) Hnone) as (P1 & P2 & P3 & P4 & P5 & P6 & P7 & P8).
  assert (nextStream m2 = nextStream m + 2) as E2 by (cbn; apply u32_small; lia).
  assert (inv (putStream m2 (nextStream m) (newStream (nextStream m)))) as Hi'.
  { apply (add_stream_inv m _ (nextStream m) (newStream (nextStream m))); try assumption; try lia.
    - rewrite P6. cbn. rewrite (ours_even _ _ Hn1). by destruct (perspective m).
    - rewrite P7. cbn. rewrite (ours_even _ _ Hn1). by destruct (perspective m).
    - rewrite P5. cbn. lia.
    - done.
    - rewrite P3, E2, remote_two. split; [done|lia].
    - rewrite P5. apply (i_highest m Hinv). }
  split; [done|]. split; [done|]. split; [by rewrite P1|]. split; [by rewrite P3|]. split; [by rewrite P5|].
  split; [by rewrite P4|]. split; [unfold putStream; by destruct (streams m2 !! nextStream m)|]. split; [lia|by rewrite P2].
Qed.

(** *** Removing *)

Lemma remove_first_spec id l i :
  id ∈ l -> exists l1 l2, l = l1 ++ id :: l2 /\ (id ∉ l1)
    /\ remove_first id l i = (l1 ++ l2, Some (i + Z.of_nat (length l1))).
Proof.
  revert i. induction l as [|x l IH]; intros i Hin; [by apply not_elem_of_nil in Hin|]. cbn [remove_first].
  destruct (Z.eqb_spec x id) as [->|Hne].
  - exists [], l. split; [done|]. split; [apply not_elem_of_nil|]. cbn. by rewrite Z.add_0_r.
  - apply elem_of_cons in Hin as [->|Hin]; [done|]. destruct (IH (i + 1) Hin) as (l1 & l2 & -> & Hnot & ->).
    exists (x :: l1), l2. split; [done|]. split; [by intros [->|?]%elem_of_cons|]. cbn [length app].
    replace (i + 1 + Z.of_nat (length l1)) with (i + Z.of_nat (Datatypes.S (length l1))) by lia. done.
Qed.

Lemma remove_spec m id :
  inv m ->
  match streams m !! id with
  | None => RemoveStream m id = (Err errNoStream, m)
  | Some _ => exists m', RemoveStream m id = (Ok tt, m') /\ inv m' /\ (id ∉ openStreams m')
      /\ (forall x, x ∈ openStreams m <-> x = id \/ x ∈ openStreams m')
      /\ perspective m' = perspective m /\ nextStream m' = nextStream m
      /\ highestStreamOpenedByPeer m' = highestStreamOpenedByPeer m
      /\ numIncomingStreams m' <= numIncomingStreams m /\ numOutgoingStreams m' <= numOutgoingStreams m
  end.
Proof.
  intros Hinv. unfold RemoveStream. destruct (streams m !! id) as [s|] eqn:Hs; [|done].
  destruct Hinv as [Hn Hd Hi Ho Hr Hrem Hour Hnext Hhigh Hindex].
  assert (id ∈ openStreams m) as Hin by (apply Hd; eauto).
  destruct (remove_first_spec id (openStreams m) 0 Hin) as (l1 & l2 & El & Hnot & ->).
  assert (NoDup (l1 ++ l2) /\ id ∉ l1 ++ l2) as [Hn' Hnot'].
  { rewrite El in Hn. rewrite <- Permutation_middle in Hn. apply NoDup_cons in Hn as [H1 H2]. done. }
  assert (forall x, x ∈ openStreams m <-> x = id \/ x ∈ l1 ++ l2) as Hel.
  { intros x. rewrite El, !elem_of_app, elem_of_cons. tauto. }
  assert (forall x, x ∈ l1 ++ l2 -> 0 <= x < 2 ^ 32) as Hr' by (intros x Hx; apply Hr, Hel; by right).
  pose proof (evens_bound _ Hn' Hr') as Bev. pose proof (odds_bound _ Hn' Hr') as Bod.
  assert (evens (openStreams m) = evens (l1 ++ l2) + (if even_id id then 1 else 0)) as Ee.
  { rewrite El, !evens_app. change (id :: l2) with ([id] ++ l2). rewrite evens_app, evens_one. lia. }
  assert (odds (openStreams m) = odds (l1 ++ l2) + (if even_id id then 0 else 1)) as Eo.
  { rewrite El, !odds_app. change (id :: l2) with ([id] ++ l2). rewrite odds_app, odds_one. lia. }
  eexists. split; [done|]. change (id mod 2 =? 0) with (even_id id) in *. split.
  - split; cbn [openStreams streams numIncomingStreams numOutgoingStreams perspective nextStream highestStreamOpenedByPeer roundRobinIndex]; try done.
    + intros x. rewrite lookup_delete_is_Some, <- Hd, Hel. split; [|by intros [Hne [->|?]]].
      intros Hx. split; [intros ->; by apply Hnot'|by right].
    + destruct (even_id id); [lia|]. rewrite u32_small by lia. lia.
    + destruct (even_id id); [|lia]. rewrite u32_small by lia. lia.
    + intros x Hx. apply Hrem, Hel. by right.
    + intros x Hx. apply Hour, Hel. by right.
    + assert (length (openStreams m) = Datatypes.S (length (l1 ++ l2))) as Hl by (rewrite El, !length_app; cbn; lia).
      assert (evens (l1 ++ l2) + odds (l1 ++ l2) = Z.of_nat (length (l1 ++ l2))) as Hsum.
      { unfold evens, odds. rewrite <- (List.filter_length even_id (l1 ++ l2)). lia. }
      pose proof (evens_bound _ Hn Hr) as Bev'. pose proof (odds_bound _ Hn Hr) as Bod'.
      rewrite length_app in *. destruct (even_id id), (Z.ltb_spec (0 + Z.of_nat (length l1)) (roundRobinIndex m)); rewrite ?u32_small by lia; lia.
  - split; [done|]. split; [done|]. split; [done|]. split; [done|]. split; [done|]. cbn [numIncomingStreams numOutgoingStreams].
    destruct (even_id id); (split; [|]); try lia; rewrite u32_small by lia; lia.
Qed.
(** ** The round robin iteration *)

(** A function that notes the streams it is handed and goes on. *)
Definition visit (id : Z) (_ : S) (st : t S * list Z) : res bool * (t S * list Z) := (Ok true, (st.1, st.2 ++ [id])).

Definition priority (id : Z) : bool := (id =? 1) || (id =? 3).

Lemma inv_size m : inv m -> size (streams m) = length (openStreams m).
Proof.
  intros Hinv. assert (dom (streams m) = list_to_set (openStreams m)) as E.
  { apply leibniz_equiv. intros x. by rewrite elem_of_dom, elem_of_list_to_set, (i_dom m Hinv). }
  rewrite <- size_dom, E. apply size_list_to_set, (i_nodup m Hinv).
Qed.

Definition present m (ids : list Z) : list Z := List.filter (fun id => bool_decide (is_Some (streams m !! id))) ids.

Lemma priority_visits m ids log :
  priority_loop visit ids (m, log) = (Ok true, (m, log ++ present m ids)).
Proof.
  revert log. induction ids as [|id ids IH]; intros log; cbn [priority_loop present List.filter]; [by rewrite app_nil_r|].
  unfold iterateFunc. cbn [fst]. destruct (streams m !! id) as [s|] eqn:E.
  - cbn [visit fst snd]. rewrite IH. rewrite bool_decide_eq_true_2 by eauto. by rewrite <- app_assoc.
  - rewrite decide_True, decide_True by done. rewrite IH. rewrite bool_decide_eq_false_2 by (by intros [? ?]). done.
Qed.

(** The order of the visits: from the round robin index on, around the list. *)
Definition rotated m : list Z :=
  let s := Z.to_nat (roundRobinIndex m mod Z.of_nat (length (openStreams m))) in
  drop s (openStreams m) ++ take s (openStreams m).

Lemma rotated_lookup m (i : nat) :
  inv m -> Z.of_nat (length (openStreams m)) <= 2 ^ 30 -> (i < length (openStreams m))%nat ->
  openStreams m !! Z.to_nat (u32 (Z.of_nat i + roundRobinIndex m) mod Z.of_nat (length (openStreams m))) = rotated m !! i.
Proof.
  intros Hinv Hlen Hi. pose proof (i_index m Hinv) as Hx. set (n := length (openStreams m)) in *.
  rewrite u32_small by lia. unfold rotated. fold n. set (s := Z.to_nat (roundRobinIndex m mod Z.of_nat n)).
  pose proof (Z.mod_pos_bound (roundRobinIndex m) (Z.of_nat n) ltac:(lia)) as Hs.
  assert (s < n)%nat as Hsn by (unfold s; lia).
  assert ((Z.of_nat i + roundRobinIndex m) mod Z.of_nat n = (Z.of_nat i + Z.of_nat s) mod Z.of_nat n) as ->.
  { unfold s. rewrite Z2Nat.id by lia. by rewrite Zplus_mod_idemp_r. }
  destruct (decide (i < n - s)%nat) as [Hlt|Hge].
  - rewrite lookup_app_l by (rewrite length_drop; fold n; lia). rewrite lookup_drop, Z.mod_small by lia. f_equal. lia.
  - rewrite lookup_app_r by (rewrite length_drop; fold n; lia). rewrite length_drop. fold n.
    rewrite lookup_take_lt by lia. replace (Z.of_nat i + Z.of_nat s) with (Z.of_nat (i - (n - s)) + 1 * Z.of_nat n) by lia.
    rewrite Z.mod_add, Z.mod_small by lia. f_equal. lia.
Qed.

Lemma rr_visits m0 m log (i n : nat) :
  inv m0 -> Z.of_nat (length (openStreams m0)) <= 2 ^ 30 -> (i + n = length (openStreams m0))%nat ->
  openStreams m = openStreams m0 -> streams m = streams m0 ->
  exists m', rr_loop visit n (Z.of_nat i) (Z.of_nat (length (openStreams m0))) (roundRobinIndex m0) (m, log)
      = (Ok tt, (m', log ++ List.filter (fun id => negb (priority id)) (drop i (rotated m0))))
    /\ openStreams m' = openStreams m0 /\ streams m' = streams m0.
Proof.
  intros Hinv Hlen. revert m log i. induction n as [|n IH]; intros m log i Hin Eo Es; cbn [rr_loop].
  { exists m. rewrite drop_ge; [by rewrite app_nil_r|]. unfold rotated. rewrite length_app, length_drop, length_take. lia. }
  cbn [fst]. rewrite Eo, rotated_lookup by (done || lia).
  assert (i < length (rotated m0))%nat as Hr by (unfold rotated; rewrite length_app, length_drop, length_take; lia).
  destruct (lookup_lt_is_Some_2 _ _ Hr) as [id Hid]. rewrite Hid.
  rewrite (drop_S _ _ _ Hid). cbn [List.filter]. unfold priority at 1.
  assert (is_Some (streams m !! id)) as [s Hs].
  { rewrite Es. apply (i_dom m0 Hinv). apply list_elem_of_lookup_2 in Hid. unfold rotated in Hid.
    rewrite Permutation_app_comm, take_drop in Hid. exact Hid. }
  replace (Z.of_nat i + 1) with (Z.of_nat (Datatypes.S i)) by lia.
  destruct ((id =? 1) || (id =? 3)); cbn [negb].
  - by apply IH; [lia|..].
  - unfold iterateFunc. cbn [fst]. rewrite Hs. cbn [visit fst snd].
    destruct (IH (set_index (m, log ++ [id]) (u32 (roundRobinIndex m + 1) mod Z.of_nat (length (openStreams m0)))).1
                (log ++ [id]) (Datatypes.S i)) as (m' & H1 & H2 & H3); [lia|exact Eo|exact Es|].
    exists m'. split; [|done]. rewrite <- app_assoc in H1. exact H1.
Qed.

(** A round robin iteration hands every open stream to the function exactly once, the crypto
    and the header stream first, wherever it starts. *)
Lemma round_robin_visits m :
  inv m -> Z.of_nat (length (openStreams m)) <= 2 ^ 30 ->
  exists m' rest, RoundRobinIterate visit (m, []) = (Ok tt, (m', present m [1; 3] ++ rest))
    /\ present m [1; 3] ++ rest ≡ₚ openStreams m /\ openStreams m' = openStreams m /\ streams m' = streams m.
Proof.
  intros Hinv Hlen. unfold RoundRobinIterate. rewrite priority_visits. cbn [fst]. rewrite app_nil_l, (inv_size m Hinv).
  destruct (rr_visits m m (present m [1; 3]) 0 (length (openStreams m)) Hinv Hlen) as (m' & H1 & H2 & H3); [lia|done|done|].
  change (Z.of_nat 0) with 0 in H1. rewrite H1, drop_0. eexists m', _. split; [done|]. split; [|done].
  assert (rotated m ≡ₚ openStreams m) as Hrot by (unfold rotated; rewrite Permutation_app_comm; by rewrite take_drop).
  assert (NoDup (rotated m)) as Hnr by (rewrite Hrot; apply (i_nodup m Hinv)).
  apply NoDup_Permutation; [|apply (i_nodup m Hinv)|].
  - apply NoDup_app. split; [|split].
    + unfold present. apply NoDup_ListNoDup, List.NoDup_filter. apply NoDup_ListNoDup. apply (NoDup_cons_2 1 [3]); [|apply NoDup_singleton].
      by intros [=]%list_elem_of_singleton.
    + intros x Hx Hx'. apply list_elem_of_In, List.filter_In in Hx as [Hx _], Hx' as [_ Hx'].
      unfold priority in Hx'. cbn in Hx. destruct Hx as [<-|[<-|[]]]; discriminate.
    + apply NoDup_ListNoDup, List.NoDup_filter, NoDup_ListNoDup, Hnr.
  - intros x. rewrite elem_of_app, !list_elem_of_In. unfold present. rewrite !List.filter_In, bool_decide_eq_true, <- !list_elem_of_In.
    rewrite Hrot, <- (i_dom m Hinv). unfold priority. cbn. rewrite !elem_of_cons.
    destruct (Z.eqb_spec x 1), (Z.eqb_spec x 3); cbn;
      (split; [by intros [[_ ?]|[? _]]|intros HP; first [by right|left; split; [tauto|exact HP]]]).
Qed.
(** ** Runs *)

Inductive op : Type :=
| GetOrOpen (id : Z)
| Open
| OpenSync
| Accept
| Remove (id : Z)
| Close (e : goerr).

Context (maxIncoming maxOutgoing : Z) (cancel : S -> S).

Definition step m (o : op) : t S :=
  match o with
  | GetOrOpen id => match GetOrOpenStream newStream maxIncoming m id with Some (_, m) => m | None => m end
  | Open => (OpenStream newStream maxOutgoing m).2
  | OpenSync => (OpenStreamSync newStream maxOutgoing m).2
  | Accept => (AcceptStream m).2
  | Remove id => (RemoveStream m id).2
  | Close e => CloseWithError cancel m e
  end.

(** The streams in the map after an operation that were not in it before. *)
Definition fresh m m' : list Z := List.filter (fun id => negb (bool_decide (id ∈ openStreams m))) (openStreams m').

(** The map after a run and the IDs opened in it, in order. *)
Fixpoint run m (ops : list op) : t S * list Z :=
  match ops with
  | [] => (m, [])
  | o :: ops => let m' := step m o in let '(m'', ids) := run m' ops in (m'', fresh m m' ++ ids)
  end.

Definition op_ok (o : op) : Prop := match o with GetOrOpen id => 0 <= id < 2 ^ 32 | _ => True end.

(** What one operation does to the IDs. *)
Record steps m m' (news : list Z) : Prop := {
  st_inv : inv m';
  st_news : fresh m m' = news;
  st_pers : perspective m' = perspective m;
  st_next : nextStream m <= nextStream m' <= nextStream m + 2;
  st_high : highestStreamOpenedByPeer m <= highestStreamOpenedByPeer m';
  st_remote : forall n, n ∈ news -> remote (perspective m) n -> highestStreamOpenedByPeer m < n <= highestStreamOpenedByPeer m';
  st_ours : forall n, n ∈ news -> ~ remote (perspective m) n -> nextStream m <= n < nextStream m';
  st_limits : is_server (perspective m) = true -> numIncomingStreams m <= maxIncoming -> numOutgoingStreams m <= maxOutgoing ->
              numIncomingStreams m' <= maxIncoming /\ numOutgoingStreams m' <= maxOutgoing;
}.

Lemma fresh_app m m' news :
  openStreams m' = openStreams m ++ news -> NoDup (openStreams m') -> fresh m m' = news.
Proof.
  intros E Hn. unfold fresh. rewrite E in *. apply NoDup_app in Hn as (_ & Hd & _).
  assert (forall l, (forall x, x ∈ l -> x ∈ openStreams m) -> List.filter (fun id => negb (bool_decide (id ∈ openStreams m))) l = []) as H1.
  { induction l as [|x l IH]; intros H; [done|]. cbn [List.filter]. rewrite bool_decide_eq_true_2 by (apply H; left).
    cbn. apply IH. intros y Hy. apply H. by right. }
  assert (forall l, (forall x, x ∈ l -> x ∉ openStreams m) -> List.filter (fun id => negb (bool_decide (id ∈ openStreams m))) l = l) as H2.
  { induction l as [|x l IH]; intros H; [done|]. cbn [List.filter]. rewrite bool_decide_eq_false_2 by (apply H; left).
    cbn. f_equal. apply IH. intros y Hy. apply H. by right. }
  rewrite List.filter_app, H1, H2; [done| |done]. intros x Hx Hx'. by apply (Hd x Hx').
Qed.

Lemma fresh_sub m m' : (forall x, x ∈ openStreams m' -> x ∈ openStreams m) -> fresh m m' = [].
Proof.
  intros H. unfold fresh. induction (openStreams m') as [|x l IH]; [done|]. cbn [List.filter].
  rewrite bool_decide_eq_true_2 by (apply H; left). cbn. apply IH. intros y Hy. apply H. by right.
Qed.

(** Operations that open nothing. *)
Lemma quiet_steps m m' :
  inv m' -> (forall x, x ∈ openStreams m' -> x ∈ openStreams m) -> perspective m' = perspective m ->
  nextStream m' = nextStream m -> highestStreamOpenedByPeer m' = highestStreamOpenedByPeer m ->
  numIncomingStreams m' <= numIncomingStreams m -> numOutgoingStreams m' <= numOutgoingStreams m -> steps m m' [].
Proof.
  intros. split; try done; try lia; try (by intros ? []%not_elem_of_nil). by apply fresh_sub.
Qed.

Lemma same_inv m m' :
  inv m -> openStreams m' = openStreams m -> dom (streams m') = dom (streams m) -> perspective m' = perspective m ->
  nextStream m' = nextStream m -> highestStreamOpenedByPeer m' = highestStreamOpenedByPeer m ->
  numIncomingStreams m' = numIncomingStreams m -> numOutgoingStreams m' = numOutgoingStreams m ->
  roundRobinIndex m' = roundRobinIndex m -> inv m'.
Proof.
  intros [H1 H2 H3 H4 H5 H6 H7 H8 H9 H10] E1 E2 E3 E4 E5 E6 E7 E8.
  split; rewrite ?E1, ?E3, ?E4, ?E5, ?E6, ?E7, ?E8; try done.
  intros id. by rewrite <- elem_of_dom, E2, elem_of_dom.
Qed.

Lemma opening_steps m :
  inv m -> nextStream m + 2 < 2 ^ 32 ->
  exists news, steps m (openStreamImpl newStream maxOutgoing m).2 news.
Proof.
  intros Hinv Hlt. pose proof (open_impl_spec maxOutgoing m Hinv Hlt) as H.
  destruct (openStreamImpl newStream maxOutgoing m) as [[s|e|] m']; [| |done]; cbn [snd].
  - destruct H as (H1 & -> & H3 & H4 & H5 & H6 & _ & H8 & _). exists [nextStream m].
    destruct (i_next m Hinv) as [Hn _]. split; try done; try lia.
    + apply fresh_app; [done|apply (i_nodup _ H1)].
    + by intros n ->%list_elem_of_singleton ?.
    + intros n ->%list_elem_of_singleton _. lia.
    + intros Hs Hi Ho. rewrite (i_in _ H1), (i_out _ H1), H3, odds_app, evens_app, odds_one, evens_one, (ours_even _ _ Hn), Hs.
      rewrite <- (i_in _ Hinv), <- (i_out _ Hinv). lia.
  - destruct H as [-> _]. exists []. by apply quiet_steps.
Qed.

Lemma step_steps m o :
  inv m -> op_ok o -> nextStream m + 2 < 2 ^ 32 -> exists news, steps m (step m o) news.
Proof.
  intros Hinv Ho Hlt. destruct o as [id| | | |id|e]; cbn [step].
  - destruct (get_or_open_spec maxIncoming m id Hinv Ho) as (r & m' & news & -> & [O1 O2 O3 O4 O5 O6 O7] & _ & Hl & _).
    exists news. split; try done; try lia.
    + apply fresh_app; [done|apply (i_nodup _ O1)].
    + intros n Hn _. by apply O6.
    + intros n Hn Hno. by destruct (O6 n Hn) as [? _].
    + intros Hs Hi Hou. split; [by apply Hl|]. rewrite (i_out _ O1), O2, evens_app, <- (i_out _ Hinv).
      assert (evens news = 0) as ->; [|lia]. unfold evens.
      assert (forall l, (forall n, n ∈ l -> even_id n = false) -> List.filter even_id l = []) as Hf.
      { induction l as [|x l IH]; intros H; [done|]. cbn [List.filter]. rewrite (H x) by left. apply IH. intros y Hy. apply H. by right. }
      rewrite Hf; [done|]. intros n Hn. destruct (O6 n Hn) as [Hre _]. rewrite (remote_even _ _ Hre), Hs. done.
  - unfold OpenStream. destruct (closeErr m); [exists []; by apply quiet_steps|]. by apply opening_steps.
  - unfold OpenStreamSync. destruct (closeErr m); [exists []; by apply quiet_steps|].
    destruct (opening_steps m Hinv Hlt) as [news Hs]. exists news.
    destruct (openStreamImpl newStream maxOutgoing m) as [[s|e|] m']; cbn [snd] in *; try done. by destruct (decide _).
  - exists []. unfold AcceptStream. destruct (closeErr m); [by apply quiet_steps|].
    destruct (streams m !! nextStreamToAccept m); [|by apply quiet_steps]. cbn [snd]. apply quiet_steps; try done.
    by apply (same_inv m).
  - exists []. pose proof (remove_spec m id Hinv) as H. destruct (streams m !! id) as [s|].
    + destruct H as (m' & -> & H1 & _ & H2 & H3 & H4 & H5 & H6 & H7). cbn [snd]. apply quiet_steps; try done.
      intros x Hx. apply H2. by right.
    + rewrite H. by apply quiet_steps.
  - exists []. apply quiet_steps; try done. apply (same_inv m); try done. cbn. apply dom_fmap_L.
Qed.

Lemma run_spec ops m :
  inv m -> Forall op_ok ops -> nextStream m + 2 * Z.of_nat (length ops) < 2 ^ 32 ->
  let '(m', ids) := run m ops in
  inv m' /\ perspective m' = perspective m
  /\ (is_server (perspective m) = true -> numIncomingStreams m <= maxIncoming -> numOutgoingStreams m <= maxOutgoing ->
      numIncomingStreams m' <= maxIncoming /\ numOutgoingStreams m' <= maxOutgoing)
  /\ NoDup ids
  /\ (forall n, n ∈ ids -> (remote (perspective m) n -> highestStreamOpenedByPeer m < n) /\ (~ remote (perspective m) n -> nextStream m <= n)).
Proof.
  revert m. induction ops as [|o ops IH]; intros m Hinv Hok Hlen; cbn [run].
  { split; [done|]. split; [done|]. split; [done|]. split; [constructor|]. by intros n []%not_elem_of_nil. }
  apply Forall_cons_1 in Hok as [Ho Hok]. cbn [length] in Hlen.
  destruct (step_steps m o Hinv Ho ltac:(lia)) as (news & [S1 S2 S3 S4 S5 S6 S7 S8]).
  specialize (IH (step m o) S1 Hok ltac:(lia)). destruct (run (step m o) ops) as [m' ids].
  destruct IH as (G1 & G2 & G3 & G4 & G5). rewrite S3 in *. rewrite S2.
  split; [done|]. split; [done|]. split; [intros Hs Hi Hou; destruct (S8 Hs Hi Hou); by apply G3|]. split.
  - apply NoDup_app. split; [|split; [|done]].
    + rewrite <- S2. unfold fresh. apply NoDup_ListNoDup, List.NoDup_filter, NoDup_ListNoDup, (i_nodup _ S1).
    + intros n Hn Hn'. destruct (G5 n Hn') as [K1 K2]. specialize (S6 n Hn). specialize (S7 n Hn).
      destruct (decide (even_id n = negb (is_server (perspective m)))) as [Hr|Hr].
      * specialize (S6 Hr). specialize (K1 Hr). lia.
      * specialize (S7 Hr). specialize (K2 Hr). lia.
  - intros n [Hn|Hn]%elem_of_app.
    + split; intros Hr; [specialize (S6 n Hn Hr); lia|specialize (S7 n Hn Hr); lia].
    + destruct (G5 n Hn) as [K1 K2]. split; intros Hr; [specialize (K1 Hr); lia|specialize (K2 Hr); lia].
Qed.

Lemma map_run_inv p ops :
  Forall op_ok ops -> 2 + 2 * Z.of_nat (length ops) < 2 ^ 32 ->
  inv (run (newStreamsMap p) ops).1.
Proof.
  intros Ho Hl. pose proof (run_spec ops (newStreamsMap p) (new_inv p) Ho) as H.
  assert (nextStream (newStreamsMap (S := S) p) <= 2) as Hn by (destruct p; cbn; lia).
  destruct (run (newStreamsMap p) ops) as [m ids]. apply H. lia.
Qed.

(** On a server, after any sequence of operations, the two counters are the numbers of open
    streams with odd and with even IDs, and neither is above its limit. *)
Theorem server_stream_limits ops :
  Forall op_ok ops -> 2 + 2 * Z.of_nat (length ops) < 2 ^ 32 -> 0 <= maxIncoming -> 0 <= maxOutgoing ->
  let m := (run (newStreamsMap PerspectiveServer) ops).1 in
  numIncomingStreams m = odds (openStreams m) /\ odds (openStreams m) <= maxIncoming
  /\ numOutgoingStreams m = evens (openStreams m) /\ evens (openStreams m) <= maxOutgoing.
Proof.
  intros Ho Hl Hi Hout m. pose proof (map_run_inv PerspectiveServer ops Ho Hl) as Hinv. fold m in Hinv.
  pose proof (run_spec ops (newStreamsMap PerspectiveServer) (new_inv _) Ho Hl) as H. unfold m in *.
  destruct (run (newStreamsMap PerspectiveServer) ops) as [m' ids]. cbn [fst] in *. destruct H as (_ & _ & H & _).
  rewrite <- (i_in _ Hinv), <- (i_out _ Hinv). destruct (H eq_refl Hi Hout). done.
Qed.

(** A stream ID is opened at most once in the life of a session, removals notwithstanding. *)
Theorem stream_ids_never_reused p ops :
  Forall op_ok ops -> 2 + 2 * Z.of_nat (length ops) < 2 ^ 32 -> NoDup (run (newStreamsMap p) ops).2.
Proof.
  intros Ho Hl. pose proof (run_spec ops (newStreamsMap p) (new_inv p) Ho) as H.
  assert (nextStream (newStreamsMap (S := S) p) <= 2) as Hn by (destruct p; cbn; lia).
  destruct (run (newStreamsMap p) ops) as [m ids]. by apply H; [lia].
Qed.

(** [GetOrOpenStream] ends on every ID and every map of a session, wrap-around of the IDs
    included.  Without an error it gives the stream that the map then holds, or nothing for a
    stream of the past: one that was opened before, or the next one of our own. *)
Theorem get_or_open_ends p ops id :
  Forall op_ok ops -> 2 + 2 * Z.of_nat (length ops) < 2 ^ 32 -> 0 <= id < 2 ^ 32 ->
  let m := (run (newStreamsMap p) ops).1 in
  exists r m', GetOrOpenStream newStream maxIncoming m id = Some (r, m') /\ r <> Panic
    /\ (forall o, r = Ok o -> o = streams m' !! id)
    /\ (r = Ok None -> m' = m /\ (id <= nextStream m \/ id <= highestStreamOpenedByPeer m))
    /\ (forall e, r = Err e -> streams m !! id = None).
Proof.
  intros Ho Hl Hid m. destruct (get_or_open_spec maxIncoming m id (map_run_inv p ops Ho Hl) Hid)
    as (r & m' & news & E & _ & Hp & _ & Hr). exists r, m'. split; [done|]. split; [done|].
  destruct r as [o|e|]; [|by split|done]. destruct Hr as [H1 H2].
  split; [by intros ? [= <-]|]. split; [|done]. intros [= ->]. destruct (H2 eq_refl) as [-> H3]. tauto.
Qed.

(** A round robin iteration visits every open stream exactly once, wherever it starts, and the
    crypto and the header stream before the others. *)
Theorem round_robin_visits_all p ops :
  Forall op_ok ops -> 2 + 2 * Z.of_nat (length ops) < 2 ^ 32 ->
  let m := (run (newStreamsMap p) ops).1 in
  Z.of_nat (length (openStreams m)) <= 2 ^ 30 ->
  exists log rest m', RoundRobinIterate visit (m, []) = (Ok tt, (m', log)) /\ log ≡ₚ openStreams m
    /\ log = List.filter (fun id => bool_decide (is_Some (streams m !! id))) [1; 3] ++ rest
    /\ streams m' = streams m.
Proof.
  intros Ho Hl m Hlen. destruct (round_robin_visits m (map_run_inv p ops Ho Hl) Hlen) as (m' & rest & H1 & H2 & _ & H4).
  by eexists _, rest, m'.
Qed.

(** *** A client's limits *)

Lemma client_opens n m :
  inv m -> perspective m = PerspectiveClient -> closeErr m = None -> numOutgoingStreams m < maxOutgoing ->
  nextStream m + 2 * Z.of_nat n < 2 ^ 32 ->
  length (openStreams (run m (repeat Open n)).1) = (length (openStreams m) + n)%nat.
Proof.
  revert m. induction n as [|n IH]; intros m Hinv Hp Hc Hlt Hn; cbn [repeat run]; [cbn; lia|].
  cbn [step]. unfold OpenStream. rewrite Hc. pose proof (open_impl_spec maxOutgoing m Hinv ltac:(lia)) as H.
  destruct (openStreamImpl newStream maxOutgoing m) as [[s|e|] m']; [|lia|done].
  destruct H as (H1 & _ & H3 & H4 & _ & H6 & H7 & _). cbn [snd].
  destruct (i_next m Hinv) as [Hours _]. pose proof (ours_even _ _ Hours) as He. rewrite Hp in He.
  assert (numOutgoingStreams m' = numOutgoingStreams m) as Eo.
  { rewrite (i_out _ H1), H3, evens_app, evens_one, He, <- (i_out _ Hinv). cbn. lia. }
  specialize (IH m' H1). rewrite H3, length_app, H6, H7, Eo, H4 in IH.
  destruct (run m' (repeat Open n)) as [m'' ids]. cbn [fst length] in *. rewrite IH by (done || lia). lia.
Qed.

(** On a client the limits do not limit: with a limit of one outgoing stream it opens any
    number of them, since its own streams are counted as incoming ones. *)
Theorem client_limits_not_enforced n :
  0 < maxOutgoing -> 1 + 2 * Z.of_nat n < 2 ^ 32 ->
  length (openStreams (run (newStreamsMap PerspectiveClient) (repeat Open n)).1) = n.
Proof. intros H1 H2. by apply (client_opens n (newStreamsMap PerspectiveClient) (new_inv _)). Qed.
End Invariant.

(** A function that serves one stream other than the two special ones and stops. *)
Definition serve_one {S} (id : Z) (s : S) (st : t S * list Z) : res bool * (t S * list Z) :=
  if priority id then (Ok true, st) else (Ok false, (st.1, st.2 ++ [id])).

(** [n] iterations, one after the other. *)
Fixpoint served {S} (n : nat) (st : t S * list Z) : list Z :=
  match n with
  | O => st.2
  | Datatypes.S n => served n (RoundRobinIterate serve_one st).2
  end.

(** With the crypto and the header stream open, which the iteration skips without moving its
    index, the first of the other streams has three turns where each of the others has one. *)
Theorem round_robin_unfair (newStream : Z -> unit) :
  let m := (run newStream 100 100 id (newStreamsMap PerspectiveServer) [GetOrOpen 9]).1 in
  openStreams m = [1; 3; 5; 7; 9] /\ served 10 (m, []) = [5; 5; 5; 7; 9; 5; 5; 5; 7; 9].
Proof. by vm_compute. Qed.

(** *** Concrete runs *)

Definition sample_ops : list op := [GetOrOpen 7; Open; Open; Remove 3; GetOrOpen 9; Accept; Remove 2; OpenSync].

Lemma sample_ok : Forall op_ok sample_ops.
Proof. unfold sample_ops. repeat constructor; cbn; lia. Qed.

Lemma server_stream_limits_witness :
  let m := (run (fun id => id) 5 2 id (newStreamsMap PerspectiveServer) sample_ops).1 in
  openStreams m = [1; 5; 7; 4; 9; 6]
  /\ numIncomingStreams m = odds (openStreams m) /\ odds (openStreams m) <= 5
  /\ numOutgoingStreams m = evens (openStreams m) /\ evens (openStreams m) <= 2.
Proof.
  split; [vm_compute; reflexivity|]. apply (server_stream_limits (fun id => id) 5 2 id sample_ops sample_ok); cbn; lia.
Defined.

Lemma stream_ids_never_reused_witness :
  (run (fun id => id) 5 2 id (newStreamsMap PerspectiveServer) sample_ops).2 = [1; 3; 5; 7; 2; 4; 9; 6]
  /\ NoDup (run (fun id => id) 5 2 id (newStreamsMap PerspectiveServer) sample_ops).2.
Proof.
  split; [vm_compute; reflexivity|]. apply (stream_ids_never_reused (fun id => id) 5 2 id _ sample_ops sample_ok); cbn; lia.
Defined.

Lemma get_or_open_ends_witness :
  let m := (run (fun id => id) 5 2 id (newStreamsMap PerspectiveServer) sample_ops).1 in
  exists r m', GetOrOpenStream (fun id => id) 5 m 13 = Some (r, m') /\ r <> Panic
    /\ (forall o, r = Ok o -> o = streams m' !! 13)
    /\ (r = Ok None -> m' = m /\ (13 <= nextStream m \/ 13 <= highestStreamOpenedByPeer m))
    /\ (forall e, r = Err e -> streams m !! 13 = None).
Proof. apply (get_or_open_ends (fun id => id) 5 2 id _ sample_ops 13 sample_ok); cbn; lia. Defined.

Lemma round_robin_visits_all_witness :
  let m := (run (fun id => id) 5 2 id (newStreamsMap PerspectiveServer) sample_ops).1 in
  exists log rest m', RoundRobinIterate visit (m, []) = (Ok tt, (m', log)) /\ log ≡ₚ openStreams m
    /\ log = List.filter (fun id => bool_decide (is_Some (streams m !! id))) [1; 3] ++ rest
    /\ streams m' = streams m.
Proof.
  apply (round_robin_visits_all (fun id => id) 5 2 id _ sample_ops sample_ok); [cbn; lia|].
  vm_compute. discriminate.
Defined.

Lemma client_limits_not_enforced_witness :
  length (openStreams (run (fun id => id) 1 1 id (newStreamsMap PerspectiveClient) (repeat Open 50)).1) = 50%nat.
Proof. apply (client_limits_not_enforced (fun id => id) 1 1 id 50); cbn; lia. Defined.
End streamsMap.
