(* ===== verification/GoSlice.v ===== *)
(** * Go slices

    A slice of bytes is a window into a backing array: [s[:n]] may reach up to the capacity,
    [s[n:]] shares the array, and [append] writes into the array when there is room.  The
    stream's buffer is cut and joined in place, so its operations are modelled on slices;
    [contents] is what a reader of the slice sees. *)

From stdpp Require Import base numbers list option.
From S2P Require Import Prelude.

Local Open Scope Z_scope.

Module slice.

Record t : Type := Mk {
  arr : list Z;
  lo : Z;
  hi : Z;
}.

Definition len (s : t) : Z := hi s - lo s.
Definition cap (s : t) : Z := Z.of_nat (length (arr s)) - lo s.

Definition contents (s : t) : list Z := take (Z.to_nat (len s)) (drop (Z.to_nat (lo s)) (arr s)).

(** A new array with the bytes [l]. *)
Definition of_list (l : list Z) : t := Mk l 0 (Z.of_nat (length l)).

(** [s[:n]], [s[n:]] and [s[a:b]] *)
Definition upto (s : t) (n : Z) : res t :=
  if (0 <=? n) && (n <=? cap s) then Ok (Mk (arr s) (lo s) (lo s + n)) else Panic.
Definition from (s : t) (n : Z) : res t :=
  if (0 <=? n) && (n <=? len s) then Ok (Mk (arr s) (lo s + n) (hi s)) else Panic.
Definition between (s : t) (a b : Z) : res t :=
  if (0 <=? a) && (a <=? b) && (b <=? cap s) then Ok (Mk (arr s) (lo s + a) (lo s + b)) else Panic.

(** [append(s, l...)]; without room the bytes move to a new array. *)
Definition append (s : t) (l : list Z) : t :=
  let n := Z.of_nat (length l) in
  if len s + n <=? cap s
  then Mk (take (Z.to_nat (hi s)) (arr s) ++ l ++ drop (Z.to_nat (hi s + n)) (arr s)) (lo s) (hi s + n)
  else of_list (contents s ++ l).

(** ** Lemmas *)

Record wf (s : t) : Prop := {
  wf_lo : 0 <= lo s;
  wf_hi : lo s <= hi s;
  wf_arr : hi s <= Z.of_nat (length (arr s));
}.

Lemma len_contents s : wf s -> Z.of_nat (length (contents s)) = len s.
Proof. intros []. unfold contents, len. rewrite length_take, length_drop. lia. Qed.

Lemma of_list_wf l : wf (of_list l).
Proof. split; cbn; lia. Qed.

Lemma of_list_contents l : contents (of_list l) = l.
Proof. unfold contents, len, of_list. cbn. rewrite drop_0. apply firstn_all2. lia. Qed.

Lemma of_list_len l : len (of_list l) = Z.of_nat (length l).
Proof. unfold len, of_list. cbn. lia. Qed.

Lemma upto_spec s n :
  wf s -> 0 <= n <= len s ->
  exists s', upto s n = Ok s' /\ wf s' /\ len s' = n /\ contents s' = take (Z.to_nat n) (contents s)
    /\ arr s' = arr s /\ lo s' = lo s /\ hi s' = lo s + n.
Proof.
  intros [H1 H2 H3] Hn. unfold upto, cap, len in *. rewrite (proj2 (Z.leb_le 0 n)), (proj2 (Z.leb_le n _)) by lia.
  eexists. split; [done|]. split; [split; cbn; lia|]. split; [cbn; lia|]. split; [|done].
  unfold contents, len. cbn. rewrite take_take. f_equal. lia.
Qed.

Lemma from_spec s n :
  wf s -> 0 <= n <= len s ->
  exists s', from s n = Ok s' /\ wf s' /\ len s' = len s - n /\ contents s' = drop (Z.to_nat n) (contents s)
    /\ arr s' = arr s /\ lo s' = lo s + n /\ hi s' = hi s.
Proof.
  intros [H1 H2 H3] Hn. unfold from, len in *. rewrite (proj2 (Z.leb_le 0 n)), (proj2 (Z.leb_le n _)) by lia.
  eexists. split; [done|]. split; [split; cbn; lia|]. split; [cbn; lia|]. split; [|done].
  unfold contents, len. cbn. rewrite skipn_firstn_comm, drop_drop. f_equal; [lia|]. f_equal. lia.
Qed.

Lemma between_spec s a b :
  wf s -> 0 <= a <= b -> b <= len s ->
  exists s', between s a b = Ok s' /\ wf s' /\ len s' = b - a
    /\ contents s' = take (Z.to_nat (b - a)) (drop (Z.to_nat a) (contents s)).
Proof.
  intros [H1 H2 H3] Hab Hb. unfold between, cap, len in *.
  rewrite (proj2 (Z.leb_le 0 a)), (proj2 (Z.leb_le a b)), (proj2 (Z.leb_le b _)) by lia.
  eexists. split; [done|]. split; [split; cbn; lia|]. split; [cbn; lia|].
  unfold contents, len. cbn. rewrite skipn_firstn_comm, take_take, drop_drop. f_equal; [lia|]. f_equal. lia.
Qed.

(** With room, the array changes only behind the slice. *)
Lemma append_spec s l :
  wf s ->
  wf (append s l) /\ contents (append s l) = contents s ++ l
  /\ len (append s l) = len s + Z.of_nat (length l).
Proof.
  intros [H1 H2 H3]. unfold append. destruct (Z.leb_spec (len s + Z.of_nat (length l)) (cap s)) as [Hle|Hgt].
  - unfold len, cap in *. split; [|split].
    + split; cbn; rewrite ?length_app, ?length_take, ?length_drop; lia.
    + unfold contents, len. cbn. rewrite drop_app_le by (rewrite length_take; lia).
      rewrite skipn_firstn_comm, take_app_ge by (rewrite length_take, length_drop; lia).
      f_equal; [f_equal; lia|]. rewrite length_take, length_drop, take_app_le by lia. apply firstn_all2. lia.
    + unfold len. cbn. lia.
  - split; [apply of_list_wf|]. rewrite of_list_contents, of_list_len, length_app. split; [done|].
    rewrite Nat2Z.inj_add, len_contents by done. done.
Qed.

Lemma append_frame s l :
  wf s -> len s + Z.of_nat (length l) <= cap s ->
  forall i, (i < Z.to_nat (hi s) \/ Z.to_nat (hi s + Z.of_nat (length l)) <= i)%nat -> arr (append s l) !! i = arr s !! i.
Proof.
  intros [H1 H2 H3] Hle i Hi. unfold append. rewrite (proj2 (Z.leb_le _ _)) by done. cbn.
  destruct Hi as [Hi|Hi].
  - rewrite lookup_app_l by (rewrite length_take; lia). by apply lookup_take_lt.
  - rewrite lookup_app_r by (rewrite length_take; lia). rewrite lookup_app_r by (rewrite length_take; lia).
    rewrite lookup_drop, length_take. f_equal. lia.
Qed.

End slice.
