(* ===== verification/Stream.v ===== *)
(** * Streams

    Models [stream.go]: the life of a stream, the data waiting to be sent, and what an
    application reads.  A call that blocks is modelled up to where it waits; the wake-ups and
    the context of a stream carry no data.  The flow control manager a stream shares with the
    session is passed in and out.  Offsets are 64-bit byte counts.

    There are two ways to take data: in order ([getDataForWriting]), and for the STMS
    scheduler out of order ([getDataForWritingSTMS]), where the fast path sends from the front
    and a slower one from behind a gap the fast path is to fill meanwhile. *)

From stdpp Require Import base numbers list option strings gmap pretty.
From S2P Require Import Prelude StreamFrame FlowControl FrameSorter GoSlice.

Local Open Scope Z_scope.

(** A call that may panic, in a function that also returns a state. *)
Definition or_panic {A B T} (r : res A) (s : T) (k : A -> res B * T) : res B * T :=
  match r with Ok a => k a | Err e => (Err e, s) | Panic => (Panic, s) end.
Notation "'let!' x ':=' r 'at' s 'in' k" := (or_panic r s (fun x => k)) (at level 10, x name, r at level 99, s at level 99, k at level 200) : go_scope.

Module stream.

Record flags_t : Type := MkFlags {
  cancelled : bool;
  finishedReading : bool;
  finishedWriting : bool;
  resetLocally : bool;
  resetRemotely : bool;
  finSent : bool;
  rstSent : bool;
}.

(** Where the video frames are in the data waiting to be sent. *)
Record marks_t : Type := MkMarks {
  I_startinx : Z;
  I_endinx : Z;
  Iframecount : Z;
  hasI : bool;
  NextHeaderOff : list Z;
  cansendpattern : bool;
}.

(** Where the fast path is, where the slower one began and where it is, and the size of the
    gap before the latter's data. *)
Record offsets_t : Type := MkOffsets {
  writeOffsetF : Z;
  writeOffsetSS : Z;
  writeOffsetSN : Z;
  gap : Z;
}.

Record t : Type := Mk {
  streamID : Z;
  readPosInFrame : Z;
  writeOffset : Z;
  readOffset : Z;
  err : option goerr;
  flags : flags_t;
  frameQueue : streamFrameSorter.t;
  readDeadline : option Z;          (* None is the zero time *)
  writeDeadline : option Z;
  dataForWriting : option slice.t;  (* None is nil *)
  marks : marks_t;
  offsets : offsets_t;
}.

Definition errDeadline : goerr := GoErr "deadline exceeded".
Definition errDiscard : goerr := GoErr "find discard err".

Definition newStream (id : Z) : t :=
  Mk id 0 0 0 None (MkFlags false false false false false false false) streamFrameSorter.newStreamFrameSorter
    None None None (MkMarks (-1) (-1) 0 false [-3] true) (MkOffsets 0 0 0 0).

Definition set_flags (s : t) (f : flags_t) : t :=
  Mk (streamID s) (readPosInFrame s) (writeOffset s) (readOffset s) (err s) f (frameQueue s) (readDeadline s)
    (writeDeadline s) (dataForWriting s) (marks s) (offsets s).
Definition set_err (s : t) (e : option goerr) : t :=
  Mk (streamID s) (readPosInFrame s) (writeOffset s) (readOffset s) e (flags s) (frameQueue s) (readDeadline s)
    (writeDeadline s) (dataForWriting s) (marks s) (offsets s).
Definition set_read (s : t) (pos off : Z) (q : streamFrameSorter.t) : t :=
  Mk (streamID s) pos (writeOffset s) off (err s) (flags s) q (readDeadline s)
    (writeDeadline s) (dataForWriting s) (marks s) (offsets s).
Definition set_write (s : t) (off : Z) (d : option slice.t) : t :=
  Mk (streamID s) (readPosInFrame s) off (readOffset s) (err s) (flags s) (frameQueue s) (readDeadline s)
    (writeDeadline s) d (marks s) (offsets s).
Definition set_marks (s : t) (m : marks_t) : t :=
  Mk (streamID s) (readPosInFrame s) (writeOffset s) (readOffset s) (err s) (flags s) (frameQueue s) (readDeadline s)
    (writeDeadline s) (dataForWriting s) m (offsets s).
Definition set_stms (s : t) (d : option slice.t) (o : offsets_t) : t :=
  Mk (streamID s) (readPosInFrame s) (writeOffset s) (readOffset s) (err s) (flags s) (frameQueue s) (readDeadline s)
    (writeDeadline s) d (marks s) o.

Definition SetReadDeadline (s : t) (d : option Z) : t :=
  Mk (streamID s) (readPosInFrame s) (writeOffset s) (readOffset s) (err s) (flags s) (frameQueue s) d
    (writeDeadline s) (dataForWriting s) (marks s) (offsets s).
Definition SetWriteDeadline (s : t) (d : option Z) : t :=
  Mk (streamID s) (readPosInFrame s) (writeOffset s) (readOffset s) (err s) (flags s) (frameQueue s) (readDeadline s)
    d (dataForWriting s) (marks s) (offsets s).

(** [!deadline.IsZero() && !time.Now().Before(deadline)] *)
Definition expired (deadline : option Z) (now : Z) : bool :=
  match deadline with Some d => d <=? now | None => false end.

(** ** Life of a stream *)

Definition Close (s : t) : t :=
  let f := flags s in
  set_flags s (MkFlags (cancelled f) (finishedReading f) true (resetLocally f) (resetRemotely f) (finSent f) (rstSent f)).

Definition finishedWriteAndSentFin (s : t) : bool := finishedWriting (flags s) && finSent (flags s).

Definition shouldSendReset (s : t) : bool :=
  if rstSent (flags s) then false
  else (resetLocally (flags s) || resetRemotely (flags s)) && negb (finishedWriteAndSentFin s).

Definition isNone {A} (o : option A) : bool := match o with None => true | Some _ => false end.

Definition shouldSendFin (s : t) : bool :=
  finishedWriting (flags s) && negb (finSent (flags s)) && isNone (err s) && isNone (dataForWriting s).

Definition sentFin (s : t) : t :=
  let f := flags s in
  set_flags s (MkFlags (cancelled f) (finishedReading f) (finishedWriting f) (resetLocally f) (resetRemotely f) true (rstSent f)).

(** The error of a stream is set once. *)
Definition first_err (s : t) (e : goerr) : t :=
  match err s with None => set_err s (Some e) | Some _ => s end.

Definition Cancel (s : t) (e : goerr) : t :=
  let f := flags s in
  first_err (set_flags s (MkFlags true (finishedReading f) (finishedWriting f) (resetLocally f) (resetRemotely f) (finSent f) (rstSent f))) e.

(** The RST_STREAM frame a reset queues: the stream and the byte offset. *)
Definition queue_reset (s : t) : option (Z * Z) * t :=
  if shouldSendReset s then
    let f := flags s in
    (Some (streamID s, writeOffset s),
     set_flags s (MkFlags (cancelled f) (finishedReading f) (finishedWriting f) (resetLocally f) (resetRemotely f) (finSent f) true))
  else (None, s).

Definition Reset (s : t) (e : goerr) : option (Z * Z) * t :=
  let f := flags s in
  if resetLocally f then (None, s)
  else queue_reset (first_err (set_flags s (MkFlags (cancelled f) (finishedReading f) (finishedWriting f) true (resetRemotely f) (finSent f) (rstSent f))) e).

Definition RegisterRemoteError (s : t) (e : goerr) : option (Z * Z) * t :=
  let f := flags s in
  if resetRemotely f then (None, s)
  else queue_reset (first_err (set_flags s (MkFlags (cancelled f) (finishedReading f) (finishedWriting f) (resetLocally f) true (finSent f) (rstSent f))) e).

Definition finished (s : t) : bool :=
  let f := flags s in
  cancelled f
  || (finishedReading f && finishedWriteAndSentFin s)
  || (resetRemotely f && rstSent f)
  || (finishedReading f && rstSent f)
  || (finishedWriteAndSentFin s && resetRemotely f).

(** ** Writing *)

(** The loop over the bytes that looks for the headers of video frames: the headers found,
    where the key frame begins and ends, and its counters.  The array of headers has room for
    30. *)
Definition is_header (d : list Z) : bool :=
  match d with
  | p :: p1 :: _ :: _ :: _ :: _ :: _ :: p7 :: p8 :: _ :: _ :: _ :: p12 :: _ =>
      ((p =? 6) && (p1 =? 0) && (p7 =? 8) && (p8 =? 1))
      || ((p =? 7) && (p1 =? 0) && (p7 =? 9) && (p8 =? 1) && ((p12 =? 23) || (p12 =? 39)))
  | _ => false
  end.
Definition is_key_header (d : list Z) : bool := (default 0 (d !! 0%nat) =? 7) && (default 0 (d !! 12%nat) =? 23).

(** [n] positions are left, [d] are the bytes from position [i] on. *)
Fixpoint find_loop (n : nat) (i : Z) (d : list Z) (tmp : list Z) (m : marks_t) : res (list Z * marks_t) :=
  match n with
  | O => Ok (tmp, m)
  | S n =>
      if is_header d then
        if (30 <=? length tmp)%nat then Panic
        else
          let tmp := tmp ++ [i] in
          if negb (I_startinx m =? -1)
          then Ok (tmp, MkMarks (I_startinx m) (if i =? 0 then -2 else i - 1) (Iframecount m) (hasI m) (NextHeaderOff m) (cansendpattern m))
          else if is_key_header d
          then find_loop n (i + 1) (drop 1 d) tmp (MkMarks i (I_endinx m) (Iframecount m + 1) true (NextHeaderOff m) (cansendpattern m))
          else find_loop n (i + 1) (drop 1 d) tmp m
      else find_loop n (i + 1) (drop 1 d) tmp m
  end.

Definition FindIframe (d : list Z) (m : marks_t) : res marks_t :=
  match find_loop (length d - 12) 0 d [] m with
  | Ok (tmp, m) =>
      Ok (MkMarks (I_startinx m) (I_endinx m) (Iframecount m) (hasI m) (match tmp with [] => [-1] | _ => tmp end) (cansendpattern m))
  | Err e => Err e
  | Panic => Panic
  end.

(** How a call of [Write] ends; [WWaits]: it waits until the data is taken. *)
Inductive write_end : Type :=
| WReturns (n : Z) (e : option goerr)
| WWaits
| WPanics.

(** The loop of [Write], for a buffer of [n] bytes. *)
Definition Write_wait (s : t) (n now : Z) : write_end :=
  if expired (writeDeadline s) now then WReturns 0 (Some errDeadline)
  else match err s, dataForWriting s with
       | None, None => WReturns n None
       | Some e, d => WReturns (n - match d with Some d => slice.len d | None => 0 end) (Some e)
       | None, Some _ => WWaits
       end.

Definition Write (IPriority : bool) (s : t) (p : list Z) (now : Z) : write_end * t :=
  let n := Z.of_nat (length p) in
  if resetLocally (flags s) || negb (isNone (err s)) then (WReturns 0 (err s), s)
  else if finishedWriting (flags s) then (WReturns 0 (Some (GoErr ("write on closed stream " +:+ pretty (Z.to_N (streamID s))))), s)
  else if n =? 0 then (WReturns 0 None, s)
  else
    let s := set_write s (writeOffset s) (Some (slice.of_list p)) in
    match (if IPriority then FindIframe p (marks s) else Ok (marks s)) with
    | Ok m => let s := set_marks s m in (Write_wait s n now, s)
    | _ => (WPanics, s)
    end.

Definition lenOfDataForWriting (s : t) : Z :=
  match err s, dataForWriting s with
  | None, Some d => slice.len d
  | _, _ => 0
  end.

(** *** Taking data in order *)

Definition getDataForWriting (s : t) (maxBytes : Z) : res (option slice.t) * t :=
  match err s, dataForWriting s with
  | None, Some d =>
      if maxBytes <? slice.len d then
        let! ret := slice.upto d maxBytes at s in
        let! d := slice.from d maxBytes at s in
        (Ok (Some ret), set_write s (u64 (writeOffset s + slice.len ret)) (Some d))
      else (Ok (Some d), set_write s (u64 (writeOffset s + slice.len d)) None)
  | _, _ => (Ok None, s)
  end.

(** *** Taking data for STMS *)

(** An empty buffer becomes nil. *)
Definition drained (d : slice.t) : option slice.t := if slice.len d =? 0 then None else Some d.

(** The fast path, with a slower one behind the gap. *)
Definition take_fast (s : t) (d : slice.t) (maxBytes : Z) : res (option slice.t) * t :=
  let o := offsets s in
  let F := writeOffsetF o in
  let SS := writeOffsetSS o in
  let SN := writeOffsetSN o in
  (** Up to where the slower path began. *)
  let fill :=
    let! ret := slice.upto d (u64 (SS - F)) at s in
    let! d := slice.from d (u64 (SS - F)) at s in
    (Ok (Some ret), set_stms s (drained d) (MkOffsets SN SN SN 0)) in
  if maxBytes <? slice.len d then
    let! ret := slice.upto d maxBytes at s in
    let n := slice.len ret in
    if (SS <? u64 (F + n)) && (F <? SS) then fill
    else if (u64 (F + n) <=? SS) && (F <? SS) then
      let! d := slice.from d maxBytes at s in
      (Ok (Some ret), set_stms s (drained d) (MkOffsets (u64 (F + n)) SS SN (u64 (gap o - n))))
    else if F =? SS then
      let! d := slice.from d maxBytes at s in
      (Ok (Some ret), set_stms s (drained d) (MkOffsets (u64 (SN + n)) (u64 (SN + n)) (u64 (SN + n)) 0))
    else (Ok (Some ret), set_stms s (drained d) o)
  else
    let n := slice.len d in
    if (SS <=? u64 (F + n)) && (F <? SS) then fill
    else if (u64 (F + n) <? SS) && (F <? SS) then (Ok (Some d), set_stms s (drained d) o)
    else if F =? SS then (Ok (Some d), set_stms s None (MkOffsets (u64 (SN + n)) (u64 (SN + n)) (u64 (SN + n)) 0))
    else (Ok (Some d), set_stms s (drained d) o).

(** The fast path when there is no other. *)
Definition take_only (s : t) (d : slice.t) (maxBytes : Z) : res (option slice.t) * t :=
  let o := offsets s in
  let moved n := MkOffsets (u64 (writeOffsetF o + n)) (u64 (writeOffsetSS o + n)) (u64 (writeOffsetSN o + n)) (gap o) in
  if maxBytes <? slice.len d then
    let! ret := slice.upto d maxBytes at s in
    let! d := slice.from d maxBytes at s in
    (Ok (Some ret), set_stms s (Some d) (moved (slice.len ret)))
  else (Ok (Some d), set_stms s None (moved (slice.len d))).

(** [s.dataForWriting] without the bytes [a, b): [append(d[:a], d[b:]...)] *)
Definition cut_out (d : slice.t) (a b : Z) : res slice.t :=
  l ← slice.upto d a; r ← slice.from d b; mret (slice.append l (slice.contents r)).

(** A slower path, behind a gap of [g] bytes. *)
Definition take_slow (s : t) (d : slice.t) (maxBytes g : Z) : res (option slice.t) * t :=
  let o := offsets s in
  let F := writeOffsetF o in
  let SS := writeOffsetSS o in
  let SN := writeOffsetSN o in
  if slice.len d <=? g then (Ok None, s)
  else if SS <? SN then
    let! r := slice.from d (gap o) at s in
    if maxBytes <? slice.len r then
      let! m := slice.between d (gap o) (u64 (gap o + maxBytes)) at s in
      let ret := slice.of_list (slice.contents m) in
      let! d := cut_out d (gap o) (u64 (gap o + maxBytes)) at s in
      (Ok (Some ret), set_stms s (drained d) (MkOffsets F SS (u64 (SN + slice.len ret)) (gap o)))
    else
      let! d := slice.upto d (gap o) at s in
      (Ok (if slice.len r =? 0 then None else Some r),
       set_stms s (drained d) (MkOffsets F SS (u64 (SN + slice.len r)) (gap o)))
  else
    let! r := slice.from d g at s in
    if maxBytes <? slice.len r then
      let! m := slice.between d g (i64 (g + i64 maxBytes)) at s in
      let ret := slice.of_list (slice.contents m) in
      let! d := cut_out d g (i64 (g + i64 maxBytes)) at s in
      (Ok (Some ret), set_stms s (drained d) (MkOffsets F (u64 (SS + g)) (u64 (u64 (SS + g) + slice.len ret)) g))
    else
      let ret := slice.of_list (slice.contents r) in
      let! d := slice.upto d g at s in
      (Ok (Some ret), set_stms s (drained d) (MkOffsets F (u64 (SS + g)) (u64 (u64 (SS + g) + slice.len ret)) g)).

Definition getDataForWritingSTMS (s : t) (maxBytes g : Z) : res (option slice.t) * t :=
  match err s, dataForWriting s with
  | None, Some d =>
      if g <? 0 then
        if g =? -1 then take_fast s d maxBytes
        else if g =? -2 then take_only s d maxBytes
        else (Ok None, s)
      else take_slow s d maxBytes g
  | _, _ => (Ok None, s)
  end.

(** ** Receiving *)

Definition AddStreamFrame (f : flowControlManager.t) (s : t) (frame : StreamFrame.t) : res unit * (flowControlManager.t * t) :=
  let maxOffset := u64 (StreamFrame.Offset frame + StreamFrame.DataLen frame) in
  match flowControlManager.UpdateHighestReceived f (streamID s) maxOffset with
  | (Some e, f) => (Err e, (f, s))
  | (None, f) =>
      match streamFrameSorter.Push (frameQueue s) frame with
      | streamFrameSorter.Pushed e q =>
          let s := set_read s (readPosInFrame s) (readOffset s) q in
          (match e with
           | Some e => if decide (e = streamFrameSorter.errDuplicateStreamData) then Ok tt else Err e
           | None => Ok tt
           end, (f, s))
      | streamFrameSorter.PushPanic => (Panic, (f, s))
      end
  end.

(** The error is ignored. *)
Definition CloseRemote (f : flowControlManager.t) (s : t) (offset : Z) : flowControlManager.t * t :=
  (AddStreamFrame f s (StreamFrame.Mk 0 true false offset [] 0 false)).2.

(** How a call of [Read] ends: with the bytes read and an error, waiting for data, or in a
    panic; [ReadFuel]: it has not ended. *)
Inductive read_end : Type :=
| ReadReturns (data : list Z) (e : option goerr)
| ReadWaits
| ReadPanics
| ReadFuel.

(** A frame that says that data was discarded. *)
Definition is_discard (frame : StreamFrame.t) : bool := bool_decide (StreamFrame.Data frame = [97; 98; 99; 100]).

Definition AddBytesRead (f : flowControlManager.t) (s : t) (n now : Z) : flowControlManager.t :=
  if resetRemotely (flags s) then f else (flowControlManager.AddBytesRead f (streamID s) n now).2.

(** The bytes of the frame that are copied when [room] are left in the buffer, and the stream
    with the bytes counted; the frame is popped when it is used up. *)
Definition read_frame (f : flowControlManager.t) (s : t) (frame : StreamFrame.t) (room now : Z)
  : res (list Z * (flowControlManager.t * t)) :=
  let pos := i64 (u64 (readOffset s - StreamFrame.Offset frame)) in
  let n := Z.min room (i64 (StreamFrame.DataLen frame) - pos) in
  if (pos <? 0) || (StreamFrame.DataLen frame <? pos) then Panic
  else
    let data := take (Z.to_nat n) (drop (Z.to_nat pos) (StreamFrame.Data frame)) in
    let f := AddBytesRead f s n now in
    let off := u64 (readOffset s + n) in
    if StreamFrame.DataLen frame <=? pos + n then
      '(_, q) ← streamFrameSorter.Pop (frameQueue s); mret (data, (f, set_read s (pos + n) off q))
    else mret (data, (f, set_read s (pos + n) off (frameQueue s))).

(** The loop of [Read] for a buffer of [n] bytes, of which [acc] has been filled. *)
Fixpoint read_loop (fuel : nat) (f : flowControlManager.t) (s : t) (n now : Z) (acc : list Z)
  : read_end * (flowControlManager.t * t) :=
  if n <=? Z.of_nat (length acc) then (ReadReturns acc None, (f, s))
  else
    match fuel with
    | O => (ReadFuel, (f, s))
    | S fuel =>
        let room := n - Z.of_nat (length acc) in
        match streamFrameSorter.Head (frameQueue s) with
        | None =>
            if negb (length acc =? 0)%nat then (ReadReturns acc (err s), (f, s))
            else if expired (readDeadline s) now then (ReadReturns [] (Some errDeadline), (f, s))
            else (ReadWaits, (f, s))
        | Some frame =>
            if expired (readDeadline s) now then (ReadReturns acc (Some errDeadline), (f, s))
            else if is_discard frame then
              match read_frame f s frame room now with
              | Ok (data, st) => (ReadReturns (acc ++ data) (Some errDiscard), st)
              | _ => (ReadPanics, (f, s))
              end
            else if StreamFrame.DataLen frame <? i64 (u64 (readOffset s - StreamFrame.Offset frame))
            then (ReadReturns acc (Some (GoErr "BUG: readPosInFrame > frame.DataLen in stream.Read")), (f, s))
            else
              match read_frame f s frame room now with
              | Ok (data, (f, s)) =>
                  if (StreamFrame.DataLen frame <=? readPosInFrame s) && StreamFrame.FinBit frame then
                    let g := flags s in
                    (ReadReturns (acc ++ data) (Some EOF),
                     (f, set_flags s (MkFlags (cancelled g) true (finishedWriting g) (resetLocally g) (resetRemotely g) (finSent g) (rstSent g))))
                  else read_loop fuel f s n now (acc ++ data)
              | _ => (ReadPanics, (f, s))
              end
        end
    end.

(** Every round copies a byte or pops a frame. *)
Definition read_fuel (s : t) (n : Z) : nat := Z.to_nat n + size (streamFrameSorter.queuedFrames (frameQueue s)) + 1.

Definition Read (f : flowControlManager.t) (s : t) (n now : Z) : read_end * (flowControlManager.t * t) :=
  if cancelled (flags s) || resetLocally (flags s) then (ReadReturns [] (err s), (f, s))
  else if finishedReading (flags s) then (ReadReturns [] (Some EOF), (f, s))
  else read_loop (read_fuel s n) f s n now [].
End stream.
