(* ===== verification/StreamRead.v ===== *)
(** * Reading from a stream

    The receiving side of [stream.go] over the frame sorter: whatever frames of the stream
    arrive, and however the calls of [Read] and [AddStreamFrame] interleave, an application
    reads the bytes of the stream in order; a call ends, never reports an internal error, and
    stops short of the buffer only when no further byte has arrived. *)

From stdpp Require Import base numbers list option strings gmap.
From S2P Require Import Prelude StreamFrame FlowControl FrameSorter GoSlice Stream.
Import streamFrameSorter stream.

Local Open Scope Z_scope.

Section Reader.
Context (d : Z -> Z) (N : Z).
Hypothesis HN : 0 <= N < 2 ^ 62.

Abbreviation good := (FrameSorter.good d N).
Abbreviation sinv := (FrameSorter.sinv d N).

Lemma N_max : 0 <= N < MaxByteCount.
Proof. unfold MaxByteCount. lia. Qed.
#[local] Hint Resolve N_max : core.

(** ** What a push leaves *)

(** What a push into the gaps does to the queue: the frames before the gaps stay, and the only
    new one is what is left of the pushed frame, which keeps its end if its last byte is new. *)
Lemma push_into_queue q f e q' :
  sinv q -> good f -> 0 < flen f -> push_into_gaps q f = Pushed e q' ->
  readPosition q' = readPosition q
  /\ (forall k, (forall g, g ∈ gaps q -> k < Start g) -> queuedFrames q' !! k = queuedFrames q !! k)
  /\ (forall k h, queuedFrames q' !! k = Some h -> queuedFrames q !! k = Some h
      \/ (StreamFrame.FinBit h = StreamFrame.FinBit f
         /\ (in_gap (gaps q) (StreamFrame.Offset f + flen f - 1) -> StreamFrame.Offset h + flen h = StreamFrame.Offset f + flen f))).
Proof.
  intros Hinv Hf Hl. pose proof Hinv as [I1 I2 I3 I4 I5 I6 I7]. unfold push_into_gaps. pose proof Hf as (F1 & F2 & _).
  rewrite (DataLen_flen d N N_max) by done. rewrite u64_small by lia.
  set (start := StreamFrame.Offset f) in *. set (end_ := start + flen f) in *.
  pose proof (skip_gaps_spec start end_ (gaps q) []) as Hskip.
  destruct (skip_gaps start end_ [] (gaps q)) as [| |pre g rest]; [intros [= _ <-]; by auto..|].
  destruct Hskip as (p & -> & Eg & Hp & Hge & Hsg). cbn [app].
  assert (g ∈ gaps q) as Hg by (rewrite Eg; apply elem_of_app; right; left).
  pose proof (sorted_bounds _ _ _ I1 Hg) as Hgb.
  destruct (front_cut d N N_max f g Hf Hl ltac:(lia)) as (f1 & E1 & Hf1 & Ho1 & Hl1). fold start in E1, Ho1, Hl1. rewrite E1.
  fold end_ in Hl1.
  assert (sorted (Start g) (g :: rest)) as Hsr.
  { rewrite Eg in I1. apply sorted_app in I1 as (_ & _ & Hb & Hr). split; [lia|done]. }
  destruct (find_end_gap_spec end_ rest g true (queuedFrames q)) as (x & -> & Hx); [done| |unfold MaxByteCount; lia|].
  { destruct I2 as (l & Hlast & HM). exists l. split; [|done]. by rewrite Eg, last_app_cons in Hlast. }
  destruct (if End (eg_gap x) <? end_ then _ else Some f1) as [f2|] eqn:E2; [|done].
  assert (StreamFrame.Offset f2 = StreamFrame.Offset f1 /\ StreamFrame.FinBit f2 = StreamFrame.FinBit f
          /\ (end_ <= End (eg_gap x) -> flen f2 = flen f1)) as (Ho2 & Hfin & Hend).
  { assert (StreamFrame.FinBit f1 = StreamFrame.FinBit f) as <-.
    { clear E2. destruct (start <? Start g); [|by injection E1 as <-]. unfold cut_front in E1. case_match; [done|]. by injection E1 as <-. }
    destruct (Z.ltb_spec (End (eg_gap x)) end_); [|by injection E2 as <-]. unfold cut_back in E2. case_match; [done|].
    injection E2 as <-. cbn. split; [done|]. split; [done|lia]. }
  assert (forall k, (forall g, g ∈ gaps q -> k < Start g) -> eg_queue x !! k = queuedFrames q !! k) as Hkeep.
  { intros k Hk. apply (eg_keys _ _ _ _ _ _ Hx). left. specialize (Hk g Hg). lia. }
  assert (in_gap (gaps q) (end_ - 1) -> end_ <= End (eg_gap x)) as Hlast.
  { intros (y & Hy & Hyx). destruct (eg_end _ _ _ _ _ _ Hx) as [[_ ?]|(_ & Hle & n & tl & En & Hn)]; [lia|].
    rewrite Eg in I1, Hy. apply sorted_app in I1 as (_ & Hpb & Hb & Hr).
    apply elem_of_app in Hy as [Hy|Hy]; [specialize (Hpb y Hy); lia|].
    destruct (eg_split _ _ _ _ _ _ Hx) as [(Ee & _ & Er & _)|(mid & Er & _ & Hle' & Hmid)].
    - apply elem_of_cons in Hy as [->|Hy]; [rewrite Ee; lia|]. rewrite <- Er, En in Hy. rewrite <- Er, En in Hr.
      destruct Hr as [Hr1 Hr2]. apply elem_of_cons in Hy as [->|Hy]; [lia|]. pose proof (sorted_bounds _ _ _ Hr2 Hy). lia.
    - rewrite Er in Hy, Hr. apply sorted_app in Hr as (_ & Hm & Hb' & Hr). rewrite En in Hy, Hr. destruct Hr as [Hr1 Hr2].
      apply elem_of_cons in Hy as [->|Hy]; [lia|]. apply elem_of_app in Hy as [Hy|Hy]; [specialize (Hm y Hy); lia|].
      apply elem_of_cons in Hy as [->|Hy]; [lia|]. apply elem_of_cons in Hy as [->|Hy]; [lia|].
      pose proof (sorted_bounds _ _ _ Hr2 Hy). lia. }
  destruct (MaxStreamFrameSorterGaps <? _); intros [= _ <-]; cbn; (split; [done|]); (split; [|]).
  - done.
  - intros k h Hk. left. by apply (eg_sub _ _ _ _ _ _ Hx).
  - intros k Hk. rewrite lookup_insert_ne; [by apply Hkeep|]. specialize (Hk g Hg). lia.
  - intros k h [[<- <-]|[_ Hk]]%lookup_insert_Some; [right|left; by apply (eg_sub _ _ _ _ _ _ Hx)].
    split; [done|]. intros Hin. specialize (Hend (Hlast Hin)). lia.
Qed.

(** The end of a frame that carries a FIN bit is the end of the stream. *)
Definition ends_right (f : StreamFrame.t) : Prop := StreamFrame.FinBit f = true -> StreamFrame.Offset f + flen f = N.
Definition queue_ends_right (q : streamFrameSorter.t) : Prop := forall k h, queuedFrames q !! k = Some h -> ends_right h.

(** A push leaves the frame at the read position alone, if it has data; and it keeps the ends
    right, if the last byte of a frame with a FIN bit is new. *)
Lemma Push_queue q f e q' :
  sinv q -> good f -> Push q f = Pushed e q' ->
  (forall h, Head q = Some h -> 0 < flen h -> Head q' = Some h)
  /\ (queue_ends_right q -> ends_right f ->
      (StreamFrame.FinBit f = true -> 0 < flen f -> in_gap (gaps q) (N - 1)) -> queue_ends_right q').
Proof.
  intros Hinv Hf. pose proof Hinv as [I1 I2 I3 I4 I5 I6 I7]. unfold Head.
  assert (forall h, queuedFrames q !! readPosition q = Some h -> 0 < flen h -> forall g, g ∈ gaps q -> readPosition q < Start g) as Hgap.
  { intros h Hh Hl g Hg. pose proof (sorted_bounds _ _ _ I1 Hg). destruct (I5 _ h g Hh Hl Hg); lia. }
  unfold Push. pose proof Hf as (F1 & F2 & F3 & _). rewrite (DataLen_flen d N N_max) by done.
  assert (0 < flen f -> forall f1, good f1 -> 0 < flen f1 -> StreamFrame.FinBit f1 = StreamFrame.FinBit f ->
    StreamFrame.Offset f1 + flen f1 = StreamFrame.Offset f + flen f ->
    push_into_gaps q f1 = Pushed e q' ->
    (forall h, queuedFrames q !! readPosition q = Some h -> 0 < flen h -> queuedFrames q' !! readPosition q' = Some h)
    /\ (queue_ends_right q -> ends_right f ->
      (StreamFrame.FinBit f = true -> 0 < flen f -> in_gap (gaps q) (N - 1)) -> queue_ends_right q')) as Hinto.
  { intros Hlf f1 Hf1 Hl1 Hb1 He1 Hp. destruct (push_into_queue q f1 e q' Hinv Hf1 Hl1 Hp) as (P1 & P2 & P3). split.
    - intros h Hh Hl. rewrite P1, P2; [done|]. by apply (Hgap h).
    - intros Hq Hends Hnew k h Hk Hfin. destruct (P3 k h Hk) as [Hold|[Hb Hend]]; [by apply (Hq k h)|].
      rewrite Hb, Hb1 in Hfin. specialize (Hends Hfin). rewrite Hend; [lia|]. rewrite He1, Hends. by apply Hnew. }
  destruct (Z.eqb_spec (flen f) 0) as [E0|Hne].
  - destruct (StreamFrame.FinBit f) eqn:Ef; intros [= _ <-]; [|by auto]. cbn. split.
    + intros h Hh Hl. rewrite lookup_insert_ne; [done|]. intros E. specialize (F3 E0).
      destruct (I4 _ _ Hh) as [Eo (G1 & G2 & _)]. lia.
    + intros Hq Hends _ k h Hk. cbn in Hk. apply lookup_insert_Some in Hk as [[_ <-]|[_ Hk]]; [done|by apply (Hq k h)].
  - assert (0 < flen f) by (unfold flen in *; lia).
    destruct (queuedFrames q !! StreamFrame.Offset f) as [old|] eqn:Eold; [|by apply Hinto].
    pose proof (I4 _ _ Eold) as [_ Hold]. rewrite (DataLen_flen d N N_max old) by done.
    destruct (Z.leb_spec (flen f) (flen old)); [by intros [= _ <-]; auto|].
    destruct (cut_front_good d N N_max f (flen old)) as (f' & Ec & Hf' & Ho' & Hl'); [done|unfold flen in *; lia|]. rewrite Ec.
    apply Hinto; [done|done|lia| |lia]. unfold cut_front in Ec. case_match; [done|]. by injection Ec as <-.
Qed.

(** ** One call of [Read] *)

(** The reader is inside the frame at the read position, or there is none. *)
Record reading (s : stream.t) : Prop := {
  rd_sorter : sinv (frameQueue s);
  rd_pos : readPosition (frameQueue s) <= readOffset s <= N;
  rd_head : match Head (frameQueue s) with
            | Some h => readOffset s <= readPosition (frameQueue s) + flen h
            | None => readOffset s = readPosition (frameQueue s)
            end;
}.

Definition slice_of (a n : Z) : list Z := d <$> seqZ a n.

Lemma slice_of_app a m n : 0 <= m -> 0 <= n -> slice_of a (m + n) = slice_of a m ++ slice_of (a + m) n.
Proof. intros. unfold slice_of. by rewrite seqZ_app, fmap_app by lia. Qed.

Lemma length_slice a n : 0 <= n -> Z.of_nat (length (slice_of a n)) = n.
Proof. intros. unfold slice_of. rewrite length_fmap, length_seqZ. lia. Qed.

Lemma sub_slice a n i m :
  0 <= i -> 0 <= m -> i + m <= n -> take (Z.to_nat m) (drop (Z.to_nat i) (slice_of a n)) = slice_of (a + i) m.
Proof.
  intros Hi Hm Hn. replace n with (i + (m + (n - i - m))) by lia.
  rewrite slice_of_app, drop_app_length' by (try lia; rewrite <- (Nat2Z.id (length _)), length_slice; lia).
  rewrite slice_of_app, take_app_length' by (try lia; rewrite <- (Nat2Z.id (length _)), length_slice; lia). done.
Qed.

(** What the frame at the head gives. *)
Lemma read_frame_spec f s h room now :
  reading s -> Head (frameQueue s) = Some h -> 0 <= room < 2 ^ 62 ->
  exists n f' s', read_frame f s h room now = Ok (slice_of (readOffset s) n, (f', s'))
    /\ n = Z.min room (readPosition (frameQueue s) + flen h - readOffset s)
    /\ reading s' /\ readOffset s' = readOffset s + n /\ flags s' = flags s /\ err s' = err s /\ readDeadline s' = readDeadline s
    /\ readPosInFrame s' = readOffset s' - StreamFrame.Offset h /\ streamID s' = streamID s
    /\ (n < room -> readPosInFrame s' = flen h)
    /\ (if flen h <=? readPosInFrame s'
        then (size (queuedFrames (frameQueue s')) < size (queuedFrames (frameQueue s)))%nat
        else size (queuedFrames (frameQueue s')) = size (queuedFrames (frameQueue s)) /\ n = room).
Proof.
  intros [R1 R2 R3] Hh Hroom. rewrite Hh in R3.
  destruct (Pop_ok d N N_max (frameQueue s) h R1 Hh) as (q' & Hp & Hq & Hpos & Hgaps & Hg & Ho).
  pose proof Hg as (G1 & G2 & _). assert (0 <= flen h) by (unfold flen; lia).
  pose proof (si_pos _ _ _ R1). unfold read_frame. rewrite (DataLen_flen d N N_max) by done. rewrite Ho.
  set (p := readOffset s - readPosition (frameQueue s)). assert (0 <= p <= flen h) as Hpb by (unfold p; lia).
  rewrite (u64_small p) by (unfold p; lia). rewrite (i64_small p) by (unfold in_i64, p; lia).
  rewrite (i64_small (flen h)) by (unfold in_i64; lia).
  rewrite (proj2 (Z.ltb_ge p 0)), (proj2 (Z.ltb_ge (flen h) p)) by lia. cbn [orb].
  set (n := Z.min room (flen h - p)). assert (0 <= n <= flen h - p) as Hn by (unfold n; lia).
  assert (take (Z.to_nat n) (drop (Z.to_nat p) (StreamFrame.Data h)) = slice_of (readOffset s) n) as ->.
  { rewrite (good_data d N h Hg), Ho. fold (slice_of (readPosition (frameQueue s)) (flen h)). rewrite sub_slice by lia.
    f_equal. unfold p. lia. }
  rewrite (u64_small (readOffset s + n)) by (unfold p in *; lia).
  assert (size (queuedFrames q') < size (queuedFrames (frameQueue s)))%nat as Hsz.
  { unfold Pop in Hp. rewrite Hh in Hp. injection Hp as <-. cbn. rewrite Ho. unfold Head in Hh.
    rewrite map_size_delete_Some by (rewrite Hh; eauto). assert (size (queuedFrames (frameQueue s)) <> 0)%nat; [|lia].
    intros E%map_size_empty_inv. rewrite E in Hh. by rewrite lookup_empty in Hh. }
  assert (n = Z.min room (readPosition (frameQueue s) + flen h - readOffset s)) as Hneq by (unfold n, p; lia).
  destruct (Z.leb_spec (flen h) (p + n)) as [Hfull|Hpart].
  - rewrite Hp. exists n. eexists _, _. split; [done|]. split; [done|].
    split.
    { split; cbn; [done|unfold p in *; lia|]. destruct (Head q') as [h'|]; [assert (0 <= flen h') by (unfold flen; lia)|]; unfold p in *; lia. }
    cbn. split; [done|]. split; [done|]. split; [done|]. split; [done|]. split; [unfold p; lia|]. split; [done|]. split; [lia|].
    rewrite (proj2 (Z.leb_le _ _)) by lia. done.
  - exists n. eexists _, _. split; [done|]. split; [done|].
    split. { split; cbn; [done|unfold p in *; lia|]. rewrite Hh. unfold p in *. lia. }
    cbn. split; [done|]. split; [done|]. split; [done|]. split; [done|]. split; [unfold p; lia|]. split; [done|]. split; [lia|].
    rewrite (proj2 (Z.leb_gt _ _)) by lia. split; [done|lia].
Qed.
(** The errors a call may end with: the end of the stream, a deadline that is over, data that was discarded,
    and the error the stream was closed with. *)
Definition reported (s : stream.t) (now : Z) (x : goerr) : Prop :=
  x = EOF \/ x = errDeadline /\ expired (readDeadline s) now = true \/ x = errDiscard \/ err s = Some x.

(** What a call may answer, when it starts in [s] with [acc] in its buffer of [n] bytes. *)
Definition answer_ok (now : Z) (s : stream.t) (n : Z) (acc : list Z) (r : read_end * (flowControlManager.t * stream.t)) : Prop :=
  let '(e, (_, s')) := r in
  reading s' /\ err s' = err s /\ streamID s' = streamID s /\ readDeadline s' = readDeadline s
  /\ (queue_ends_right (frameQueue s) -> queue_ends_right (frameQueue s'))
  /\ match e with
     | ReadReturns out e =>
         let got := readOffset s' - readOffset s in
         0 <= got /\ out = acc ++ slice_of (readOffset s) got /\ Z.of_nat (length out) <= n
         /\ (e = None -> Z.of_nat (length out) = n \/ (Head (frameQueue s') = None /\ flags s' = flags s))
         /\ (e = Some EOF -> err s = Some EOF \/ (finishedReading (flags s') = true
                                             /\ (queue_ends_right (frameQueue s) -> readOffset s' = N)))
         /\ (forall x, e = Some x -> reported s now x)
     | ReadWaits => readOffset s' = readOffset s /\ acc = [] /\ Head (frameQueue s') = None
     | ReadPanics | ReadFuel => False
     end.

Lemma answer_same now f s n acc e :
  reading s -> Z.of_nat (length acc) <= n ->
  (e = None -> Z.of_nat (length acc) = n \/ Head (frameQueue s) = None) ->
  (e = Some EOF -> err s = Some EOF) -> (forall x, e = Some x -> reported s now x) ->
  answer_ok now s n acc (ReadReturns acc e, (f, s)).
Proof.
  intros Hs Hacc He1 He2 He3. split; [done|]. split; [done|]. split; [done|]. split; [done|]. split; [done|]. rewrite Z.sub_diag. split; [lia|].
  split; [by rewrite app_nil_r|]. split; [done|]. split; [|by auto 10]. intros ->. destruct (He1 eq_refl); auto.
Qed.

Lemma popped_ends q h q' : Pop q = Ok (h, q') -> queue_ends_right q -> queue_ends_right q'.
Proof.
  unfold Pop. destruct (Head q); [|done]. intros [= -> <-] Hq k x Hk. cbn in Hk.
  apply lookup_delete_Some in Hk as [_ Hk]. by apply (Hq k x).
Qed.

Lemma read_frame_queue f s h room now data f' s' :
  read_frame f s h room now = Ok (data, (f', s')) -> queue_ends_right (frameQueue s) -> queue_ends_right (frameQueue s').
Proof.
  unfold read_frame. destruct (_ || _); [done|]. destruct (_ <=? _); [|by intros [= _ _ <-]].
  destruct (Pop (frameQueue s)) as [[h' q']| |] eqn:Ep; [|done..]. intros [= _ _ <-] Hq. cbn. by eapply popped_ends.
Qed.

(** What a call answers after it has read [got] more bytes. *)
Lemma answer_more now s s1 n acc got r :
  reading s -> readOffset s1 = readOffset s + got -> 0 <= got -> err s1 = err s -> streamID s1 = streamID s -> readDeadline s1 = readDeadline s -> flags s1 = flags s ->
  (queue_ends_right (frameQueue s) -> queue_ends_right (frameQueue s1)) ->
  answer_ok now s1 n (acc ++ slice_of (readOffset s) got) r -> answer_ok now s n acc r.
Proof.
  intros Hs Ho Hg He Hi Hdl Hf Hq. destruct r as [e [f' s']]. intros (A1 & A2 & A3 & A3' & A4 & A5).
  split; [done|]. split; [congruence|]. split; [congruence|]. split; [congruence|]. split; [by auto|].
  destruct e as [out e| | |]; [| |done..].
  2: { destruct A5 as (B1 & B2 & B3). apply app_eq_nil in B2 as [-> B2]. pose proof (length_slice (readOffset s) got Hg) as Hl.
    rewrite B2 in Hl. cbn in Hl. split; [lia|done]. }
  destruct A5 as (B1 & B2 & B3 & B4 & B5 & B6).
  split; [lia|]. split. { rewrite B2, <- app_assoc, Ho, <- slice_of_app by lia. do 2 f_equal. lia. }
  split; [done|]. unfold reported in *. rewrite <- Hf, <- He, <- Hdl. split; [done|]. split; [|exact B6]. intros E. destruct (B5 E) as [|[? ?]]; auto.
Qed.

Lemma read_loop_spec fuel f s n now acc :
  reading s -> Z.of_nat (length acc) <= n < 2 ^ 62 ->
  (size (queuedFrames (frameQueue s)) < fuel)%nat ->
  answer_ok now s n acc (read_loop fuel f s n now acc).
Proof.
  revert f s acc. induction fuel as [|fuel IH]; intros f s acc Hs Hn Hfuel; [lia|]. cbn [read_loop].
  destruct (Z.leb_spec n (Z.of_nat (length acc))) as [Hfull|Hroom].
  { apply answer_same; [done|lia|intros _; left; lia|done|done]. }
  destruct (Head (frameQueue s)) as [h|] eqn:Hh.
  2: { destruct acc as [|b acc]; cbn [length Nat.eqb negb].
    - destruct (expired (readDeadline s) now) eqn:Ee; [apply answer_same; [done|lia|done|done|intros x [= <-]; by right; left]|].
      split; [done|]. split; [done|]. split; [done|]. split; [done|]. split; done.
    - apply answer_same; [done|lia|by intros _; right|done|intros x Hx; by right; right; right]. }
  destruct (expired (readDeadline s) now) eqn:Ee; [apply answer_same; [done|lia|done|done|intros x [= <-]; by right; left]|].
  destruct (read_frame_spec f s h (n - Z.of_nat (length acc)) now Hs Hh ltac:(lia))
    as (got & f1 & s1 & Ef & Eg & R1 & R2 & R3 & R4 & Rd & R5 & R6 & R7 & R8).
  pose proof (read_frame_queue _ _ _ _ _ _ _ _ Ef) as Rq.
  pose proof Hs as [S1 S2 S3]. rewrite Hh in S3.
  assert (0 <= got <= n - Z.of_nat (length acc)) as Hgot by lia.
  assert (Z.of_nat (length (acc ++ slice_of (readOffset s) got)) = Z.of_nat (length acc) + got) as Hlen
    by (rewrite length_app, Nat2Z.inj_add, length_slice; lia).
  destruct (Pop_ok d N N_max (frameQueue s) h S1 Hh) as (q' & _ & _ & _ & _ & Hgh & Ho).
  rewrite (DataLen_flen d N N_max h Hgh). pose proof Hgh as (G1 & G2 & _).
  destruct (is_discard h).
  { rewrite Ef. eapply (answer_more now s s1 n acc got); try done; [lia|].
    apply answer_same; [done|lia|done|done|intros x [= <-]; by right; right; left]. }
  rewrite (u64_small (readOffset s - _)), i64_small by (unfold in_i64; rewrite ?Ho; pose proof (si_pos _ _ _ S1); lia).
  rewrite (proj2 (Z.ltb_ge (flen h) _)) by lia. rewrite Ef.
  destruct ((flen h <=? readPosInFrame s1) && StreamFrame.FinBit h) eqn:Efin.
  - apply andb_true_iff in Efin as [Efull Efin]. split; [by split; destruct R1|]. split; [done|]. split; [done|]. split; [done|]. split; [done|].
    cbn. split; [lia|]. split; [do 2 f_equal; lia|]. split; [lia|]. split; [done|]. split; [|intros x [= <-]; by left]. intros _. right. split; [done|].
    intros Hq. assert (ends_right h) as Hend by (by apply (Hq (readPosition (frameQueue s)))). specialize (Hend Efin).
    apply Z.leb_le in Efull. lia.
  - eapply (answer_more now s s1 n acc got); try done; [lia|]. destruct (flen h <=? readPosInFrame s1).
    + apply IH; [done|lia|lia].
    + destruct R8 as [_ R8]. destruct fuel; cbn [read_loop]; rewrite (proj2 (Z.leb_le _ _)) by lia;
        (apply answer_same; [done|lia|intros _; left; lia|done|done]).
Qed.
(** ** The life of a reader *)

(** What can happen to the receiving side of a stream: frames arrive, the application reads,
    and anything that leaves the sorter and the read offset alone (writing, resets, flow
    control).  The frames that arrived, the last one first, and the bytes read. *)
Inductive history : stream.t -> list StreamFrame.t -> list Z -> Prop :=
| history_new id : history (newStream id) [] []
| history_frame s fs out f frame f' s' :
    history s fs out -> good frame -> ends_right frame -> (flen frame = 0 -> StreamFrame.FinBit frame = true) ->
    AddStreamFrame f s frame = (Ok tt, (f', s')) -> history s' (frame :: fs) out
| history_read s fs out f n now data e f' s' :
    history s fs out -> 0 <= n < 2 ^ 62 -> Read f s n now = (ReadReturns data e, (f', s')) -> history s' fs (out ++ data)
| history_wait s fs out f n now f' s' :
    history s fs out -> 0 <= n < 2 ^ 62 -> Read f s n now = (ReadWaits, (f', s')) -> history s' fs out
| history_other s fs out s' :
    history s fs out -> frameQueue s' = frameQueue s -> readOffset s' = readOffset s -> history s' fs out.

(** A frame with data and a FIN bit arrives before any other frame with the last byte. *)
Fixpoint fin_first (fs : list StreamFrame.t) : Prop :=
  match fs with
  | [] => True
  | f :: fs => (StreamFrame.FinBit f = true -> 0 < flen f -> forall g, g ∈ fs -> ~ covers g (N - 1)) /\ fin_first fs
  end.

Record received (s : stream.t) (fs : list StreamFrame.t) (out : list Z) : Prop := {
  rc_reading : reading s;
  rc_out : out = slice_of 0 (readOffset s);
  rc_gaps : forall x, 0 <= x < MaxByteCount -> (in_gap (gaps (frameQueue s)) x <-> forall f, f ∈ fs -> ~ covers f x);
  rc_ends : fin_first fs -> queue_ends_right (frameQueue s);
}.

(** What [Read] does on a stream that is open for reading, and on one that is not. *)
Definition readable (s : stream.t) : Prop := cancelled (flags s) = false /\ resetLocally (flags s) = false /\ finishedReading (flags s) = false.

Lemma Read_spec f s n now :
  reading s -> 0 <= n < 2 ^ 62 ->
  (exists e, Read f s n now = (ReadReturns [] e, (f, s)) /\ ~ readable s) \/ answer_ok now s n [] (Read f s n now).
Proof.
  intros Hs Hn. unfold Read, readable.
  destruct (cancelled (flags s)); [left; eexists; split; [done|by intros (? & ? & ?)]|].
  destruct (resetLocally (flags s)); [left; eexists; split; [done|by intros (? & ? & ?)]|].
  destruct (finishedReading (flags s)); [left; eexists; split; [done|by intros (? & ? & ?)]|].
  right. apply read_loop_spec; [done|cbn; lia|unfold read_fuel; lia].
Qed.

Lemma answer_gaps fuel f s n now acc :
  gaps (frameQueue (read_loop fuel f s n now acc).2.2) = gaps (frameQueue s).
Proof.
  assert (forall f s h room now data f' s', read_frame f s h room now = Ok (data, (f', s')) -> gaps (frameQueue s') = gaps (frameQueue s)) as Hf.
  { clear. intros f s h room now data f' s'. unfold read_frame. destruct (_ || _); [done|]. destruct (_ <=? _); [|by intros [= _ _ <-]].
    unfold Pop. destruct (Head (frameQueue s)); [|done]. by intros [= _ _ <-]. }
  revert f s acc. induction fuel as [|fuel IH]; intros f s acc; cbn [read_loop]; [by destruct (_ <=? _)|].
  destruct (n <=? _); [done|]. destruct (Head (frameQueue s)) as [h|]; [|repeat case_match; done].
  destruct (expired _ _); [done|].
  destruct (is_discard h); [destruct (read_frame f s h _ now) as [[data [f' s']]| |] eqn:Er; [cbn; by eapply Hf|done..]|].
  destruct (_ <? _); [done|]. destruct (read_frame f s h _ now) as [[data [f' s']]| |] eqn:Er; [|done..].
  apply Hf in Er. destruct (_ && _); [done|]. by rewrite IH.
Qed.

Lemma Read_gaps f s n now : gaps (frameQueue (Read f s n now).2.2) = gaps (frameQueue s).
Proof.
  unfold Read. destruct (_ || _); [done|]. destruct (finishedReading _); [done|]. apply answer_gaps.
Qed.

Lemma history_received s fs out : history s fs out -> received s fs out.
Proof.
  induction 1 as [id|s fs out f frame f' s' _ IH Hg Hends Hfin Ha|s fs out f n now data e f' s' _ IH Hn Hr
    |s fs out f n now f' s' _ IH Hn Hr|s fs out s' _ IH Hq Ho].
  - destruct (run_inv_new d N N_max) as [I1 _ _ I4]. split; [split; cbn; [exact I1|lia|done]|done|exact I4|].
    intros _ k h Hk. cbn in Hk. by rewrite lookup_empty in Hk.
  - destruct IH as [[R1 R2 R3] R4 R5 R6]. unfold AddStreamFrame in Ha.
    destruct (flowControlManager.UpdateHighestReceived f (streamID s) _) as [[?|] f1]; [done|].
    pose proof (Push_ok d N N_max (frameQueue s) frame R1 Hg Hfin) as Hp.
    destruct (Push (frameQueue s) frame) as [e q|] eqn:Ep; [|done].
    assert (e = None \/ e = Some errDuplicateStreamData) as He.
    { destruct e as [e|]; [|by left]. right. destruct (decide (e = _)) as [->|]; [done|]. by injection Ha. }
    assert (s' = set_read s (readPosInFrame s) (readOffset s) q) as -> by (destruct e; [destruct (decide _)|]; by injection Ha).
    assert (sinv q /\ readPosition q = readPosition (frameQueue s)
            /\ forall x, in_gap (gaps q) x <-> in_gap (gaps (frameQueue s)) x /\ ~ covers frame x) as (Hq1 & Hq2 & Hq3).
    { destruct He as [-> | ->]; cbn in Hp; [done|]. destruct Hp as [(_ & H1 & H2 & H3 & H4)|]; [|done].
      split; [done|]. split; [done|]. intros x. rewrite H3. split; [|tauto]. intros Hx. split; [done|].
      intros Hc. by apply (H4 x Hc). }
    destruct (Push_queue (frameQueue s) frame e q R1 Hg Ep) as [Hh Hq].
    split; cbn [set_read readOffset frameQueue].
    + split; cbn; [done|lia|]. destruct (Head (frameQueue s)) as [h|] eqn:Eh.
      * destruct (decide (0 < flen h)) as [Hl|Hl]; [by rewrite (Hh h eq_refl Hl), Hq2|].
        assert (0 <= flen h) by (unfold flen; lia).
        destruct (Head q) as [h'|]; [assert (0 <= flen h') by (unfold flen; lia)|]; lia.
      * destruct (Head q) as [h'|]; [assert (0 <= flen h') by (unfold flen; lia)|]; lia.
    + done.
    + intros x Hx. rewrite Hq3, (R5 x Hx). setoid_rewrite elem_of_cons. split.
      * intros [Ha1 Hb] g [->|Hin]; auto.
      * intros Ha1. split; [intros g Hin|]; apply Ha1; auto.
    + intros [Hf1 Hf2]. apply Hq; [by apply R6|done|]. intros Hb Hl. apply R5; [destruct Hg as (? & ? & _); unfold MaxByteCount; lia|].
      intros g Hin Hc. by apply (Hf1 Hb Hl g Hin).
  - destruct IH as [R1 R4 R5 R6]. pose proof (Read_gaps f s n now) as Hgaps. rewrite Hr in Hgaps. cbn in Hgaps.
    destruct (Read_spec f s n now R1 Hn) as [(e' & E & _)|A]; rewrite Hr in *.
    { injection E as -> -> -> ->. by rewrite app_nil_r. }
    destruct A as (A1 & A2 & A3 & _ & A4 & A5). destruct A5 as (B1 & B2 & _). pose proof (rd_pos _ R1). pose proof (si_pos _ _ _ (rd_sorter _ R1)).
    split; [done| |by rewrite Hgaps|by auto].
    rewrite B2, R4, app_nil_l. replace (slice_of 0 (readOffset s')) with (slice_of 0 (readOffset s + (readOffset s' - readOffset s)))
      by (f_equal; lia). by rewrite slice_of_app by lia.
  - destruct IH as [R1 R4 R5 R6]. pose proof (Read_gaps f s n now) as Hgaps. rewrite Hr in Hgaps. cbn in Hgaps.
    destruct (Read_spec f s n now R1 Hn) as [(e' & E & _)|A]; rewrite Hr in *; [done|].
    destruct A as (A1 & A2 & A3 & _ & A4 & A5 & _). split; [done|by rewrite A5|by rewrite Hgaps|by auto].
  - destruct IH as [[R1 R2 R3] R4 R5 R6]. split; [split|..]; rewrite ?Hq, ?Ho; done.
Qed.

(** With nothing at the read position, the next byte has not arrived. *)
Lemma next_missing s fs out :
  received s fs out -> Head (frameQueue s) = None -> forall f, f ∈ fs -> ~ covers f (Z.of_nat (length out)).
Proof.
  intros [[R1 R2 R3] R4 R5 _] Hh. rewrite Hh in R3. pose proof (si_pos _ _ _ R1).
  rewrite R4, length_slice by lia. rewrite R3. intros f Hf Hc.
  destruct (Head_received d N (frameQueue s) R1) as (h & E & _); [unfold MaxByteCount; lia| |congruence].
  intros Hg. by apply (proj1 (R5 (readPosition (frameQueue s)) ltac:(unfold MaxByteCount; lia)) Hg f Hf).
Qed.

(** A call that waits on an open stream has used up all that arrived in order. *)
Lemma wait_missing s fs out f n now :
  history s fs out -> 0 <= n < 2 ^ 62 -> readable s -> (Read f s n now).1 = ReadWaits ->
  forall g, g ∈ fs -> ~ covers g (Z.of_nat (length out)).
Proof.
  intros H Hn Ho Hw. pose proof (history_received _ _ _ H) as [R1 _ _ _].
  destruct (Read_spec f s n now R1 Hn) as [(e & _ & Hno)|A]; [done|].
  destruct (Read f s n now) as [e [f' s']] eqn:E. cbn in Hw. subst e. destruct A as (_ & _ & _ & _ & _ & _ & _ & Hnone).
  eapply (next_missing s'); [|done]. by eapply history_received, history_wait.
Qed.

(** Every byte that was read has arrived. *)
Lemma history_arrived s fs out x : received s fs out -> 0 <= x < Z.of_nat (length out) -> exists f, f ∈ fs /\ covers f x.
Proof.
  intros [R1 R4 R5 R6] Hx. pose proof (rd_pos _ R1). pose proof (si_pos _ _ _ (rd_sorter _ R1)).
  assert (Z.of_nat (length out) = readOffset s) as El by (rewrite R4; apply length_slice; lia).
  destruct (decide (Exists (fun f => covers f x) fs)) as [Hex|Hnex]; [by apply Exists_exists in Hex as (g & ? & ?); eauto|].
  exfalso. assert (in_gap (gaps (frameQueue s)) x) as Hgap.
  { apply R5; [unfold MaxByteCount; lia|]. intros g Hg Hc. apply Hnex, Exists_exists. eauto. }
  destruct R1 as [I1 [_ I2] I3]. destruct Hgap as (g & Hg & Hgx). pose proof (sorted_bounds _ _ _ (si_sorted _ _ _ I1) Hg).
  destruct (Head (frameQueue s)) as [h|] eqn:Eh; [|lia].
  destruct (decide (0 < flen h)) as [Hl|Hl]; [|lia].
  destruct (si_disjoint _ _ _ I1 _ h g Eh Hl Hg); lia.
Qed.

(** C25. In whatever order the frames of a stream arrive, and however reading and receiving
    interleave, what an application has read is a prefix of the stream, and every byte of it
    has arrived.  On a stream open for reading a call always ends: it waits, or returns short of its
    buffer without an error, only if the next byte has not arrived; it fails only with the end of the stream,
    a deadline that is over, the mark of discarded data or the error the stream was closed with, so never with an
    internal error. *)
Theorem stream_read_in_order s fs out :
  history s fs out ->
  out = slice_of 0 (Z.of_nat (length out)) /\ Z.of_nat (length out) <= N
  /\ (forall x, 0 <= x < Z.of_nat (length out) -> exists f, f ∈ fs /\ covers f x)
  /\ forall f n now, 0 <= n < 2 ^ 62 -> readable s ->
     match (Read f s n now).1 with
     | ReadReturns data e => Z.of_nat (length data) <= n
         /\ match e with
            | None => Z.of_nat (length data) = n \/ forall f, f ∈ fs -> ~ covers f (Z.of_nat (length (out ++ data)))
            | Some x => x = EOF \/ x = errDeadline /\ expired (readDeadline s) now = true \/ x = errDiscard \/ err s = Some x
            end
     | ReadWaits => forall f, f ∈ fs -> ~ covers f (Z.of_nat (length out))
     | ReadPanics | ReadFuel => False
     end.
Proof.
  intros H. pose proof (history_received _ _ _ H) as Hr. pose proof Hr as [R1 R4 R5 R6].
  pose proof (rd_pos _ R1). pose proof (si_pos _ _ _ (rd_sorter _ R1)).
  assert (Z.of_nat (length out) = readOffset s) as El by (rewrite R4; apply length_slice; lia).
  split; [by rewrite El|]. split; [lia|]. split; [intros x; by apply (history_arrived s)|].
  intros f n now Hn Ho. destruct (Read_spec f s n now R1 Hn) as [(e & _ & Hno)|A]; [done|].
  pose proof (wait_missing s fs out f n now H Hn Ho) as Hw. pose proof (history_read s fs out f n now) as Hd.
  destruct (Read f s n now) as [[data e| | |] [f' s']]; [| |by destruct A as (_ & _ & _ & _ & _ & [])..]; cbn [fst].
  - destruct A as (_ & _ & _ & _ & _ & B1 & B2 & B3 & B4 & _ & B6). split; [done|]. destruct e as [x|]; [by apply B6|].
    destruct (B4 eq_refl) as [|[Hnone _]]; [by left|right]. eapply (next_missing s'); [|done]. eapply history_received, Hd; done.
  - by apply Hw.
Qed.

(** A read ends with EOF only at the end of the stream, if every frame with data and a FIN bit
    arrived before any other frame with the last byte. *)
Theorem read_eof_at_end s fs out f n now data f' s' :
  history s fs out -> fin_first fs -> readable s -> err s <> Some EOF -> 0 <= n < 2 ^ 62 ->
  Read f s n now = (ReadReturns data (Some EOF), (f', s')) -> out ++ data = slice_of 0 N.
Proof.
  intros H Hf Ho He Hn Hr. pose proof (history_received _ _ _ H) as [R1 R4 R5 R6].
  pose proof (history_received _ _ _ (history_read _ _ _ _ _ _ _ _ _ _ H Hn Hr)) as [_ R4' _ _].
  destruct (Read_spec f s n now R1 Hn) as [(e & _ & Hno)|A]; [done|]. rewrite Hr in A.
  destruct A as (_ & _ & _ & _ & _ & _ & _ & _ & _ & B & _). destruct (B eq_refl) as [|[_ Hend]]; [done|].
  rewrite R4'. f_equal. apply Hend. by apply R6.
Qed.
End Reader.

(** ** A stream that ends too early *)

Definition part_frame (fin : bool) (off : Z) (data : list Z) : StreamFrame.t := StreamFrame.Mk 5 fin true off data 0 false.

Lemma part_good fin off n :
  0 <= off -> 0 < n -> off + n <= 5 -> good (fun x => x + 10) 5 (part_frame fin off (slice_of (fun x => x + 10) off n)).
Proof.
  intros H0 H1 H2. pose proof (length_slice (fun x => x + 10) off n ltac:(lia)) as Hl. unfold good, flen, part_frame. cbn.
  split; [done|]. split; [lia|]. split; [lia|]. intros i b Hb. unfold slice_of in Hb.
  apply list_lookup_fmap_Some in Hb as (x & -> & Hx). apply lookup_seqZ in Hx. lia.
Qed.

(** Two of the frames of the stream 10, 11, 12, 13, 14: the whole stream, and its second part
    after the frame was split for a retransmission. *)
Definition whole_frame : StreamFrame.t := part_frame true 0 [10; 11; 12; 13; 14].
Definition second_part : StreamFrame.t := part_frame true 2 [12; 13; 14].

Definition reader_params : Params := MkParams 100 100 100 100 100 100.
Definition reader_flow : flowControlManager.t :=
  flowControlManager.NewStream (flowControlManager.NewFlowControlManager reader_params) 5 true reader_params.

Definition deliver (fs : list StreamFrame.t) : flowControlManager.t * stream.t :=
  fold_left (fun '(f, s) frame => (AddStreamFrame f s frame).2) fs (reader_flow, newStream 5).

(** When the second part of a split frame arrives before the whole of it, which happens when
    the original was late but not lost, the whole frame is cut to its first part and keeps its
    FIN bit: the application reads two of the five bytes and then the end of the stream. *)
Theorem cut_fin_ends_stream_early :
  good (fun x => x + 10) 5 whole_frame /\ good (fun x => x + 10) 5 second_part
  /\ ends_right 5 whole_frame /\ ends_right 5 second_part
  /\ (let '(f, s) := deliver [second_part; whole_frame] in (Read f s 100 0).1 = ReadReturns [10; 11] (Some EOF))
  /\ (let '(f, s) := deliver [whole_frame; second_part] in (Read f s 100 0).1 = ReadReturns [10; 11; 12; 13; 14] (Some EOF)).
Proof.
  split; [by apply (part_good true 0 5)|]. split; [by apply (part_good true 2 3)|]. split; [done|]. split; [done|]. split; vm_compute; reflexivity.
Qed.

(** ** Witnesses *)

Definition after_add (st : flowControlManager.t * stream.t) (frame : StreamFrame.t) : flowControlManager.t * stream.t :=
  (AddStreamFrame st.1 st.2 frame).2.
Definition first_part : StreamFrame.t := part_frame false 0 [10; 11].
Definition state1 := after_add (reader_flow, newStream 5) first_part.
Definition state2 := (Read state1.1 state1.2 4 0).2.
Definition state3 := after_add state2 whole_frame.

Lemma state3_history : history (fun x => x + 10) 5 state3.2 [whole_frame; first_part] [10; 11].
Proof.
  apply (history_frame _ _ state2.2 _ _ state2.1 whole_frame state3.1).
  - apply (history_read _ _ state1.2 _ [] state1.1 4 0 [10; 11] None state2.1); [|lia|vm_compute; reflexivity].
    apply (history_frame _ _ (newStream 5) _ _ reader_flow first_part state1.1);
      [constructor|by apply (part_good false 0 2)|done|done|vm_compute; reflexivity].
  - by apply (part_good true 0 5).
  - done.
  - done.
  - vm_compute. reflexivity.
Qed.

Lemma stream_read_in_order_witness :
  readable state3.2
  /\ [10; 11] = slice_of (fun x => x + 10) 0 2 /\ 2 <= 5
  /\ (forall x, 0 <= x < 2 -> exists f, f ∈ [whole_frame; first_part] /\ covers f x)
  /\ forall f n now, 0 <= n < 2 ^ 62 -> readable state3.2 ->
     match (Read f state3.2 n now).1 with
     | ReadReturns data e => Z.of_nat (length data) <= n
         /\ match e with
            | None => Z.of_nat (length data) = n \/ forall f, f ∈ [whole_frame; first_part] -> ~ covers f (Z.of_nat (length ([10; 11] ++ data)))
            | Some x => x = EOF \/ x = errDeadline /\ expired (readDeadline state3.2) now = true \/ x = errDiscard \/ err state3.2 = Some x
            end
     | ReadWaits => forall f, f ∈ [whole_frame; first_part] -> ~ covers f 2
     | ReadPanics | ReadFuel => False
     end.
Proof.
  split; [done|]. apply (stream_read_in_order (fun x => x + 10) 5 ltac:(lia) state3.2 _ _ state3_history).
Defined.

Lemma read_eof_at_end_witness :
  (Read state3.1 state3.2 100 0).1 = ReadReturns [12; 13; 14] (Some EOF)
  /\ [10; 11] ++ [12; 13; 14] = slice_of (fun x => x + 10) 0 5.
Proof.
  split; [vm_compute; reflexivity|].
  apply (read_eof_at_end (fun x => x + 10) 5 ltac:(lia) state3.2 [whole_frame; first_part] [10; 11] state3.1 100 0 [12; 13; 14]
    (Read state3.1 state3.2 100 0).2.1 (Read state3.1 state3.2 100 0).2.2 state3_history).
  - split; [|split; [done|done]]. intros _ _ g [->|[]%not_elem_of_nil]%elem_of_cons. unfold covers, flen. cbn. lia.
  - done.
  - vm_compute. discriminate.
  - lia.
  - vm_compute. reflexivity.
Defined.
