(* ===== verification/StreamSTMS.v ===== *)
(** * Sending out of order

    The STMS scheduler sends the data of a stream over two paths at once: the fast path takes
    it from the front, a slower one from behind a gap that the fast path is to fill by the time
    the slower path's data arrives ([getDataForWritingSTMS] of [stream.go], and the offset
    [stream_framer.go] puts on the frame).

    The theorems: as long as the fast path asks for the variant that knows of the gap, every
    frame carries the bytes of the stream at its offset, every byte is sent exactly once, and
    the frames that share the stream's buffer are not overwritten when the buffer is cut; the
    variant for a single path sends wrong bytes when a gap is open. *)

From stdpp Require Import base numbers list option strings gmap.
From S2P Require Import Prelude StreamFrame FlowControl FrameSorter GoSlice Stream StreamRead.
Import stream.

Local Open Scope Z_scope.

(** [frame.Offset] of [maybePopNormalFramesSTMS] *)
Definition stms_offset (s : stream.t) (g : Z) : Z :=
  let o := offsets s in
  if g <? 0 then
    if (writeOffsetF o =? writeOffsetSS o) && (writeOffsetSS o <? writeOffsetSN o) then writeOffsetSN o else writeOffsetF o
  else if writeOffsetSS o <? writeOffsetSN o then writeOffsetSN o else u64 (writeOffsetF o + g).

(** ** Segments of the stream *)

Definition seg (l : list Z) (a b : Z) : list Z := take (Z.to_nat (b - a)) (drop (Z.to_nat a) l).

Lemma seg_nil l a : seg l a a = [].
Proof. unfold seg. by rewrite Z.sub_diag. Qed.

Lemma length_seg l a b : 0 <= a <= b -> b <= Z.of_nat (length l) -> Z.of_nat (length (seg l a b)) = b - a.
Proof. intros. unfold seg. rewrite length_take, length_drop. lia. Qed.

Lemma seg_app l a b c : 0 <= a <= b -> b <= c -> c <= Z.of_nat (length l) -> seg l a c = seg l a b ++ seg l b c.
Proof.
  intros H1 H2 H3. unfold seg. replace (Z.to_nat (c - a)) with (Z.to_nat (b - a) + Z.to_nat (c - b))%nat by lia.
  rewrite <- (take_drop (Z.to_nat (b - a)) (take _ _)).
  rewrite take_take, skipn_firstn_comm, drop_drop. f_equal; f_equal; try lia. f_equal. lia.
Qed.

Lemma seg_all l : seg l 0 (Z.of_nat (length l)) = l.
Proof. unfold seg. rewrite drop_0. apply firstn_all2. lia. Qed.

Lemma seg_app_l l l' a b : 0 <= a -> b <= Z.of_nat (length l) -> seg (l ++ l') a b = seg l a b.
Proof.
  intros Ha Hb. unfold seg. destruct (decide (b <= a)) as [Hle|Hgt].
  { by replace (Z.to_nat (b - a)) with 0%nat by lia. }
  rewrite drop_app_le by lia. apply take_app_le. rewrite length_drop. lia.
Qed.

Lemma seg_app_r l l' : seg (l ++ l') (Z.of_nat (length l)) (Z.of_nat (length (l ++ l'))) = l'.
Proof.
  unfold seg. rewrite Nat2Z.id, drop_app_length, length_app. apply firstn_all2. lia.
Qed.

(** The beginning and the rest of two segments in a row. *)
Lemma take_segs l a b c e n :
  0 <= a <= b -> b <= Z.of_nat (length l) -> 0 <= n <= b - a -> take (Z.to_nat n) (seg l a b ++ seg l c e) = seg l a (a + n).
Proof.
  intros H1 H2 H3. rewrite take_app_le by (rewrite <- (Nat2Z.id (length _)), length_seg; lia).
  unfold seg. rewrite take_take. f_equal. lia.
Qed.

Lemma drop_segs l a b c e n :
  0 <= a <= b -> b <= Z.of_nat (length l) -> 0 <= n <= b - a -> drop (Z.to_nat n) (seg l a b ++ seg l c e) = seg l (a + n) b ++ seg l c e.
Proof.
  intros H1 H2 H3. rewrite drop_app_le by (rewrite <- (Nat2Z.id (length _)), length_seg; lia).
  f_equal. unfold seg. rewrite skipn_firstn_comm, drop_drop. f_equal; [lia|f_equal; lia].
Qed.

(** ** The buffer and what is left to send *)

Definition holds (o : option slice.t) (l : list Z) : Prop :=
  match o with
  | Some d => slice.wf d /\ slice.contents d = l /\ l <> []
  | None => l = []
  end.

Lemma drained_holds d l : slice.wf d -> slice.contents d = l -> holds (drained d) l.
Proof.
  intros Hw E. pose proof (slice.len_contents d Hw) as Hl. rewrite E in Hl. unfold drained.
  destruct (Z.eqb_spec (slice.len d) 0) as [E0|Hne]; cbn.
  - destruct l; [done|cbn in Hl; lia].
  - split; [done|]. split; [done|]. intros ->. cbn in Hl. lia.
Qed.

(** [l] is what the application has written so far: the fast path is at [F], the slower one
    began at [SS] and is at [SN]; the buffer holds the gap and what follows the slower path. *)
Record sending (l : list Z) (s : stream.t) : Prop := {
  sd_len : Z.of_nat (length l) < 2 ^ 62;
  sd_order : 0 <= writeOffsetF (offsets s) <= writeOffsetSS (offsets s)
             /\ writeOffsetSS (offsets s) <= writeOffsetSN (offsets s) <= Z.of_nat (length l);
  sd_closed : writeOffsetSS (offsets s) = writeOffsetSN (offsets s) -> writeOffsetF (offsets s) = writeOffsetSS (offsets s);
  sd_gap : writeOffsetSS (offsets s) < writeOffsetSN (offsets s) -> gap (offsets s) = writeOffsetSS (offsets s) - writeOffsetF (offsets s);
  sd_data : holds (dataForWriting s) (seg l (writeOffsetF (offsets s)) (writeOffsetSS (offsets s))
                                      ++ seg l (writeOffsetSN (offsets s)) (Z.of_nat (length l)));
}.

(** The positions that are left to send. *)
Definition unsent (l : list Z) (s : stream.t) : list Z :=
  seqZ (writeOffsetF (offsets s)) (writeOffsetSS (offsets s) - writeOffsetF (offsets s))
  ++ seqZ (writeOffsetSN (offsets s)) (Z.of_nat (length l) - writeOffsetSN (offsets s)).

(** Taking [r] from the buffer [d] leaves [d']: what the two share stays as it is. *)
Definition shares_ok (d r : slice.t) (d' : option slice.t) : Prop :=
  (slice.arr r = slice.arr d -> slice.lo d <= slice.lo r /\ slice.hi r <= slice.hi d)
  /\ match d' with
     | None => True
     | Some d' =>
         slice.lo d <= slice.lo d' /\ slice.hi d' <= slice.hi d /\ length (slice.arr d') = length (slice.arr d)
         /\ (forall i, (i < Z.to_nat (slice.lo d') \/ Z.to_nat (slice.hi d') <= i)%nat -> slice.arr d' !! i = slice.arr d !! i)
         /\ (slice.arr r = slice.arr d -> slice.hi r <= slice.lo d' \/ slice.hi d' <= slice.lo r)
     end.

(** What a call that takes data does. *)
Definition taken (l : list Z) (s : stream.t) (maxBytes g : Z) (res : res (option slice.t) * stream.t) : Prop :=
  let '(r, s') := res in
  sending l s' /\ err s' = err s /\ flags s' = flags s /\ streamID s' = streamID s /\ writeOffset s' = writeOffset s
  /\ match r with
     | Ok None =>
         unsent l s' = unsent l s
         /\ forall d', dataForWriting s' = Some d' -> exists d, dataForWriting s = Some d
              /\ slice.arr d' = slice.arr d /\ slice.lo d <= slice.lo d' /\ slice.hi d' <= slice.hi d
     | Ok (Some r) =>
         slice.wf r /\ 0 < slice.len r <= maxBytes
         /\ slice.contents r = seg l (stms_offset s g) (stms_offset s g + slice.len r)
         /\ unsent l s ≡ₚ seqZ (stms_offset s g) (slice.len r) ++ unsent l s'
         /\ stms_offset s g + slice.len r <= Z.of_nat (length l)
         /\ forall d, dataForWriting s = Some d -> shares_ok d r (dataForWriting s')
     | _ => False
     end.

Lemma taken_nothing l s maxBytes g : sending l s -> taken l s maxBytes g (Ok None, s).
Proof. intros Hs. split; [done|]. split_and!; try done. intros d' Ed. exists d'. split_and!; done. Qed.

Lemma seqZ_split a n m : 0 <= n <= m -> seqZ a m = seqZ a n ++ seqZ (a + n) (m - n).
Proof. intros H. replace m with (n + (m - n)) at 1 by lia. apply seqZ_app; lia. Qed.

Lemma drained_shares d r d' :
  (slice.arr r = slice.arr d -> slice.lo d <= slice.lo r /\ slice.hi r <= slice.hi d) ->
  slice.lo d <= slice.lo d' -> slice.hi d' <= slice.hi d -> length (slice.arr d') = length (slice.arr d) ->
  (forall i, (i < Z.to_nat (slice.lo d') \/ Z.to_nat (slice.hi d') <= i)%nat -> slice.arr d' !! i = slice.arr d !! i) ->
  (slice.arr r = slice.arr d -> slice.hi r <= slice.lo d' \/ slice.hi d' <= slice.lo r) ->
  shares_ok d r (drained d').
Proof. intros. split; [done|]. unfold drained. destruct (_ =? _); done. Qed.

(** Cutting the buffer in two. *)
Lemma split_front d n :
  slice.wf d -> 0 <= n <= slice.len d ->
  exists r d', slice.upto d n = Ok r /\ slice.from d n = Ok d' /\ slice.wf r /\ slice.wf d' /\ slice.len r = n
    /\ slice.contents r = take (Z.to_nat n) (slice.contents d) /\ slice.contents d' = drop (Z.to_nat n) (slice.contents d)
    /\ shares_ok d r (drained d').
Proof.
  intros Hw Hn. destruct (slice.upto_spec d n Hw Hn) as (r & E1 & R1 & R2 & R3 & R4 & R5 & R6).
  destruct (slice.from_spec d n Hw Hn) as (d' & E2 & D1 & D2 & D3 & D4 & D5 & D6).
  exists r, d'. split_and!; try done. unfold slice.len in *. apply drained_shares; try lia.
  - by rewrite D4.
  - intros i _. by rewrite D4.
Qed.

(** Cutting bytes out of the buffer moves the ones behind them, in place. *)
Lemma cut_out_spec d a b :
  slice.wf d -> 0 <= a <= b -> b <= slice.len d ->
  exists d', cut_out d a b = Ok d' /\ slice.wf d'
    /\ slice.contents d' = take (Z.to_nat a) (slice.contents d) ++ drop (Z.to_nat b) (slice.contents d)
    /\ slice.lo d' = slice.lo d /\ slice.hi d' = slice.hi d - (b - a) /\ length (slice.arr d') = length (slice.arr d)
    /\ forall i, (i < Z.to_nat (slice.lo d') \/ Z.to_nat (slice.hi d') <= i)%nat -> slice.arr d' !! i = slice.arr d !! i.
Proof.
  intros Hw Ha Hb. destruct (slice.upto_spec d a Hw ltac:(lia)) as (u & E1 & U1 & U2 & U3 & U4 & U5 & U6).
  destruct (slice.from_spec d b Hw ltac:(lia)) as (v & E2 & V1 & V2 & V3 & V4 & V5 & V6).
  unfold cut_out. rewrite E1, E2. cbn. eexists. split; [done|].
  destruct (slice.append_spec u (slice.contents v) U1) as (A1 & A2 & A3). split; [done|]. split; [by rewrite A2, U3, V3|].
  pose proof (slice.len_contents v V1) as Lv.
  assert (slice.len u + Z.of_nat (length (slice.contents v)) <= slice.cap u) as Hroom.
  { destruct Hw. unfold slice.cap, slice.len in *. rewrite U4, U5. lia. }
  pose proof (slice.append_frame u (slice.contents v) U1 Hroom) as Hfr.
  assert (slice.lo (slice.append u (slice.contents v)) = slice.lo d /\ slice.hi (slice.append u (slice.contents v)) = slice.hi d - (b - a)) as [El Eh].
  { unfold slice.append. rewrite (proj2 (Z.leb_le _ _)) by done. cbn. unfold slice.len in *. split; lia. }
  split; [done|]. split; [done|]. split.
  - unfold slice.append. rewrite (proj2 (Z.leb_le _ _)) by done. cbn. destruct U1. unfold slice.cap, slice.len in *.
    rewrite !length_app, length_take, length_drop, <- U4. lia.
  - intros i Hi. rewrite Hfr, U4; [done|]. destruct Hw. unfold slice.len in *. lia.
Qed.

(** A copy of a part of the buffer is not the buffer's array. *)
Lemma copy_shares d m d' :
  slice.wf d -> Z.of_nat (length m) < slice.len d ->
  slice.lo d' = slice.lo d -> slice.hi d' <= slice.hi d -> length (slice.arr d') = length (slice.arr d) ->
  (forall i, (i < Z.to_nat (slice.lo d') \/ Z.to_nat (slice.hi d') <= i)%nat -> slice.arr d' !! i = slice.arr d !! i) ->
  shares_ok d (slice.of_list m) (drained d').
Proof.
  intros [] Hm El Eh Ea Hf. assert (slice.arr (slice.of_list m) = slice.arr d -> False) as Hne.
  { intros E%(f_equal length). cbn in E. unfold slice.len in *. lia. }
  apply drained_shares; try done; try lia; intros E; by destruct (Hne E).
Qed.

Lemma copy_all_shares d m d' :
  slice.wf d -> Z.of_nat (length m) = slice.len d -> slice.len d' = 0 -> shares_ok d (slice.of_list m) (drained d').
Proof.
  intros [] Hm E0. unfold drained. rewrite (proj2 (Z.eqb_eq _ _)) by done. split; [|done].
  intros E%(f_equal length). cbn in *. unfold slice.len in *. lia.
Qed.

Section Take.
Context (l : list Z) (s : stream.t) (maxBytes : Z).
Hypothesis (Hs : sending l s) (Hmax : 0 < maxBytes < 2 ^ 62).
Abbreviation F := (writeOffsetF (offsets s)).
Abbreviation SS := (writeOffsetSS (offsets s)).
Abbreviation SN := (writeOffsetSN (offsets s)).
Abbreviation W := (Z.of_nat (length l)).

Lemma buffer_facts d :
  dataForWriting s = Some d ->
  slice.wf d /\ slice.contents d = seg l F SS ++ seg l SN W /\ slice.len d = (SS - F) + (W - SN) /\ 0 < slice.len d.
Proof.
  intros Ed. destruct Hs as [H1 [H2 H2'] H3 H4 H5]. rewrite Ed in H5. destruct H5 as (Hw & Hc & Hne).
  pose proof (slice.len_contents d Hw) as Hl. rewrite Hc, length_app, Nat2Z.inj_add, !length_seg in Hl by lia.
  split; [done|]. split; [done|]. split; [lia|].
  assert (slice.len d <> 0); [|lia]. intros E0. destruct (seg l F SS ++ seg l SN W) as [|b bs] eqn:E; [done|].
  pose proof (slice.len_contents d Hw) as Hl'. rewrite Hc in Hl'. cbn in Hl'. lia.
Qed.

(** The bytes of the gap, or a part of them. *)
Lemma take_gap d n o' :
  dataForWriting s = Some d -> 0 < n <= SS - F -> n <= maxBytes ->
  o' = (if n =? SS - F then MkOffsets SN SN SN 0 else MkOffsets (F + n) SS SN (gap (offsets s) - n)) \/ o' = MkOffsets (F + n) SS SN (gap (offsets s) - n) ->
  exists r d', slice.upto d n = Ok r /\ slice.from d n = Ok d' /\ slice.len r = n
    /\ taken l s maxBytes (-1) (Ok (Some r), set_stms s (drained d') o').
Proof.
  intros Ed Hn Hm Ho. destruct (buffer_facts d Ed) as (Hw & Hc & Hlen & Hpos). destruct Hs as [H1 [H2 H2'] H3 H4 H5].
  destruct (split_front d n Hw ltac:(lia)) as (r & d' & E1 & E2 & Hwr & Hwd & Hlr & Hcr & Hcd & Hsh).
  exists r, d'. split; [done|]. split; [done|]. split; [done|].
  rewrite Hc, take_segs in Hcr by lia. rewrite Hc, drop_segs in Hcd by lia.
  assert (stms_offset s (-1) = F) as Eoff.
  { unfold stms_offset. cbn. rewrite (proj2 (Z.eqb_neq F SS)) by lia. done. }
  assert (holds (drained d') (seg l (F + n) SS ++ seg l SN W)) as Hh by (by apply drained_holds).
  assert (gap (offsets s) = SS - F) as Hg by (apply H4; lia).
  unfold taken. rewrite Eoff, Hlr.
  assert (o' = MkOffsets SN SN SN 0 /\ n = SS - F \/ o' = MkOffsets (F + n) SS SN (gap (offsets s) - n)) as Ho'.
  { destruct Ho as [-> |?]; [|by right]. destruct (Z.eqb_spec n (SS - F)); [by left|by right]. }
  clear Ho. split.
  { destruct Ho' as [[-> En]| ->]; (split; cbn [offsets set_stms writeOffsetF writeOffsetSS writeOffsetSN gap dataForWriting]); try done; try lia.
    - rewrite seg_nil. rewrite En in Hh. replace (F + (SS - F)) with SS in Hh by lia. by rewrite seg_nil in Hh. }
  split; [done|]. split; [done|]. split; [done|]. split; [done|]. split; [done|]. split; [lia|]. split; [done|]. split; [|split; [lia|]].
  - unfold unsent. destruct Ho' as [[-> En]| ->]; cbn [offsets set_stms writeOffsetF writeOffsetSS writeOffsetSN].
    + rewrite Z.sub_diag, En. by cbn.
    + rewrite (seqZ_split F n (SS - F)) by lia. rewrite <- app_assoc. replace (SS - (F + n)) with (SS - F - n) by lia. done.
  - intros d0. rewrite Ed. intros [= <-]. done.
Qed.

(** The bytes behind the slower path, when there is no gap to fill. *)
Lemma take_next d n :
  dataForWriting s = Some d -> F = SS -> 0 < n <= slice.len d -> n <= maxBytes ->
  exists r d', slice.upto d n = Ok r /\ slice.from d n = Ok d' /\ slice.len r = n
    /\ taken l s maxBytes (-1) (Ok (Some r), set_stms s (drained d') (MkOffsets (SN + n) (SN + n) (SN + n) 0))
    /\ (n = slice.len d -> taken l s maxBytes (-1) (Ok (Some d), set_stms s None (MkOffsets (SN + n) (SN + n) (SN + n) 0))).
Proof.
  intros Ed EF Hn Hm. destruct (buffer_facts d Ed) as (Hw & Hc & Hlen & Hpos). destruct Hs as [H1 [H2 H2'] H3 H4 H5].
  destruct (split_front d n Hw ltac:(lia)) as (r & d' & E1 & E2 & Hwr & Hwd & Hlr & Hcr & Hcd & Hsh).
  exists r, d'. split; [done|]. split; [done|]. split; [done|].
  assert (slice.contents d = seg l SN W ++ seg l W W) as Hc'.
  { rewrite Hc, EF, seg_nil, (seg_nil l W), app_nil_r. done. }
  rewrite Hc', take_segs in Hcr by lia. rewrite Hc', drop_segs, (seg_nil l W), app_nil_r in Hcd by lia.
  assert (stms_offset s (-1) = SN) as Eoff.
  { unfold stms_offset. cbn. rewrite EF, Z.eqb_refl. cbn [andb]. destruct (Z.ltb_spec SS SN); [done|]. lia. }
  assert (forall o, o = drained d' \/ (o = None /\ n = slice.len d) -> holds o (seg l (SN + n) W)) as Hh.
  { intros o [-> |[-> En]]; [by apply drained_holds|]. cbn. replace (SN + n) with W by lia. apply seg_nil. }
  assert (forall o, holds o (seg l (SN + n) W) -> sending l (set_stms s o (MkOffsets (SN + n) (SN + n) (SN + n) 0))) as Hsend.
  { intros o Ho. split; cbn [offsets set_stms writeOffsetF writeOffsetSS writeOffsetSN gap dataForWriting]; try done; try lia.
    by rewrite seg_nil. }
  assert (forall o, unsent l s ≡ₚ seqZ SN n ++ unsent l (set_stms s o (MkOffsets (SN + n) (SN + n) (SN + n) 0))) as Hun.
  { intros o. unfold unsent. cbn [offsets set_stms writeOffsetF writeOffsetSS writeOffsetSN]. rewrite EF, !Z.sub_diag. cbn [seqZ Z.to_nat seq fmap list_fmap app].
    rewrite (seqZ_split SN n (W - SN)) by lia. replace (W - (SN + n)) with (W - SN - n) by lia. done. }
  unfold taken. rewrite Eoff. split.
  - rewrite Hlr. split; [apply Hsend, Hh; by left|]. split_and!; try done; try lia. intros d0. rewrite Ed. by intros [= <-].
  - intros En. split; [apply Hsend, Hh; by right|]. rewrite <- En. split_and!; try done; try lia.
    + rewrite Hc', (seg_nil l W), app_nil_r. f_equal. lia.
    + intros d0. rewrite Ed. intros [= <-]. split; [lia|done].
Qed.

Lemma take_fast_ok d :
  dataForWriting s = Some d -> taken l s maxBytes (-1) (take_fast s d maxBytes).
Proof.
  intros Ed. destruct (buffer_facts d Ed) as (Hw & Hc & Hlen & Hpos). pose proof Hs as [H1 [H2 H2'] H3 H4 H5].
  unfold take_fast. cbn zeta.
  destruct (Z.ltb_spec maxBytes (slice.len d)) as [Hbig|Hsmall].
  - destruct (slice.upto_spec d maxBytes Hw ltac:(lia)) as (r & E1 & R1 & R2 & R3 & _). rewrite E1. cbn [or_panic]. rewrite R2.
    rewrite (u64_small (F + maxBytes)) by lia.
    destruct (Z.ltb_spec F SS) as [Hlt|Hge].
    + rewrite !andb_true_r. destruct (Z.ltb_spec SS (F + maxBytes)) as [Hover|Hin].
      * rewrite (u64_small (SS - F)) by lia.
        destruct (take_gap d (SS - F) (MkOffsets SN SN SN 0) Ed ltac:(lia) ltac:(lia)) as (r' & d' & -> & -> & _ & Ht);
          [left; by rewrite Z.eqb_refl|]. exact Ht.
      * rewrite (proj2 (Z.leb_le _ _)) by lia.
        destruct (take_gap d maxBytes (MkOffsets (F + maxBytes) SS SN (gap (offsets s) - maxBytes)) Ed ltac:(lia) ltac:(lia)) as (r' & d' & E1' & -> & _ & Ht);
          [by right|]. rewrite E1 in E1'. injection E1' as <-. cbn [or_panic].
        rewrite (u64_small (gap _ - _)) by (rewrite H4; lia). exact Ht.
    + rewrite !andb_false_r. rewrite (proj2 (Z.eqb_eq F SS)) by lia.
      destruct (take_next d maxBytes Ed ltac:(lia) ltac:(lia) ltac:(lia)) as (r' & d' & E1' & -> & _ & Ht & _).
      rewrite E1 in E1'. injection E1' as <-. cbn [or_panic]. rewrite !(u64_small (SN + maxBytes)) by lia. exact Ht.
  - rewrite (u64_small (F + slice.len d)) by lia. destruct (Z.ltb_spec F SS) as [Hlt|Hge].
    + rewrite !andb_true_r. rewrite (proj2 (Z.leb_le SS _)) by lia. rewrite (u64_small (SS - F)) by lia.
      destruct (take_gap d (SS - F) (MkOffsets SN SN SN 0) Ed ltac:(lia) ltac:(lia)) as (r' & d' & -> & -> & _ & Ht);
        [left; by rewrite Z.eqb_refl|]. exact Ht.
    + rewrite !andb_false_r. rewrite (proj2 (Z.eqb_eq F SS)) by lia.
      destruct (take_next d (slice.len d) Ed ltac:(lia) ltac:(lia) ltac:(lia)) as (_ & _ & _ & _ & _ & _ & Ht).
      rewrite !(u64_small (SN + _)) by lia. by apply Ht.
Qed.

(** What a slower path leaves when it takes [m] bytes from [p] on. *)
Lemma slow_sending o p m g :
  p = stms_offset s g -> 0 <= g -> 0 <= m ->
  (SS < SN /\ p = SN \/ SS = SN /\ p = SN + g /\ 0 < m) -> p + m <= W ->
  let a := if SS <? SN then SS else SN + g in
  let s' := set_stms s o (MkOffsets F a (p + m) (if SS <? SN then gap (offsets s) else g)) in
  holds o (seg l F a ++ seg l (p + m) W) ->
  sending l s' /\ unsent l s ≡ₚ seqZ p m ++ unsent l s'.
Proof.
  intros Ep Hg Hm Hcase Hend a s' Ho. destruct Hs as [H1 [H2 H2'] H3 H4 H5]. destruct Hcase as [[Hlt ->]|(Heq & -> & Hpos)].
  - subst s' a. cbv zeta in *. rewrite (proj2 (Z.ltb_lt SS SN)) in * by done. specialize (H4 Hlt). split.
    + split; cbn [offsets set_stms writeOffsetF writeOffsetSS writeOffsetSN gap dataForWriting]; try done; lia.
    + unfold unsent. cbn [offsets set_stms writeOffsetF writeOffsetSS writeOffsetSN].
      rewrite (seqZ_split SN m (W - SN)) by lia. replace (W - (SN + m)) with (W - SN - m) by lia. solve_Permutation.
  - subst s' a. cbv zeta in *. rewrite (proj2 (Z.ltb_ge SS SN)) in * by lia. specialize (H3 Heq). split.
    + split; cbn [offsets set_stms writeOffsetF writeOffsetSS writeOffsetSN gap dataForWriting]; try done; lia.
    + unfold unsent. cbn [offsets set_stms writeOffsetF writeOffsetSS writeOffsetSN]. rewrite H3, Heq, Z.sub_diag.
      replace (SN + g - SN) with g by lia. rewrite (seqZ_split SN g (W - SN)) by lia. rewrite (seqZ_split (SN + g) m (W - SN - g)) by lia.
      replace (W - (SN + g + m)) with (W - SN - g - m) by lia. cbn [seqZ Z.to_nat seq fmap list_fmap app]. solve_Permutation.
Qed.

(** A slower path takes [n] bytes from position [p] of the stream, which is [a] in the buffer. *)
Lemma slow_take d g p a n r d' g' :
  dataForWriting s = Some d -> p = stms_offset s g -> 0 <= g ->
  (SS < SN /\ p = SN /\ a = SS - F /\ g' = a \/ SS = SN /\ p = SN + g /\ a = g /\ g' = g) ->
  0 < n <= maxBytes -> p + n <= W ->
  slice.wf r -> slice.contents r = take (Z.to_nat n) (drop (Z.to_nat a) (slice.contents d)) ->
  slice.wf d' -> slice.contents d' = take (Z.to_nat a) (slice.contents d) ++ drop (Z.to_nat (a + n)) (slice.contents d) ->
  shares_ok d r (drained d') ->
  slice.len r = n /\
  taken l s maxBytes g (Ok (Some r), set_stms s (drained d') (MkOffsets F (if SS <? SN then SS else SN + g) (p + n) g')).
Proof.
  intros Ed Ep Hg Hcase Hn Hend Hwr Hcr Hwd Hcd Hsh. destruct (buffer_facts d Ed) as (Hw & Hc & Hlen & Hpos).
  pose proof Hs as [H1 [H2 H2'] H3 H4 H5].
  assert (slice.contents r = seg l p (p + n)) as Er.
  { rewrite Hcr, Hc. destruct Hcase as [(Hlt & -> & -> & _)|(Heq & -> & -> & _)].
    - rewrite drop_segs by lia. replace (F + (SS - F)) with SS by lia. rewrite seg_nil. cbn [app].
      rewrite <- (app_nil_r (seg l SN W)), <- (seg_nil l W), take_segs by lia. done.
    - specialize (H3 Heq). rewrite H3, Heq, seg_nil. cbn [app]. rewrite <- (app_nil_r (seg l SN W)), <- (seg_nil l W).
      rewrite drop_segs, take_segs by lia. done. }
  assert (slice.len r = n) as Elen by (rewrite <- (slice.len_contents r Hwr), Er, length_seg; lia).
  split; [done|].
  assert (holds (drained d') (seg l F (if SS <? SN then SS else SN + g) ++ seg l (p + n) W)) as Hh.
  { apply drained_holds; [done|]. rewrite Hcd, Hc. destruct Hcase as [(Hlt & -> & -> & _)|(Heq & -> & -> & _)].
    - rewrite (proj2 (Z.ltb_lt SS SN)) by done. rewrite take_segs by lia. replace (F + (SS - F)) with SS by lia.
      f_equal. rewrite drop_app_ge by (pose proof (length_seg l F SS ltac:(lia) ltac:(lia)); lia).
      replace (Z.to_nat (SS - F + n) - length (seg l F SS))%nat with (Z.to_nat n)
        by (pose proof (length_seg l F SS ltac:(lia) ltac:(lia)); lia).
      rewrite <- (app_nil_r (seg l SN W)), <- (seg_nil l W), drop_segs, (seg_nil l W), app_nil_r by lia. done.
    - specialize (H3 Heq). rewrite (proj2 (Z.ltb_ge SS SN)) by lia. rewrite H3, Heq, seg_nil. cbn [app].
      rewrite <- (app_nil_r (seg l SN W)), <- (seg_nil l W), take_segs, drop_segs, (seg_nil l W), app_nil_r by lia.
      f_equal. f_equal. lia. }
  assert (g' = (if SS <? SN then gap (offsets s) else g)) as Eg.
  { destruct Hcase as [(Hlt & -> & -> & ->)|(Heq & -> & -> & ->)].
    - rewrite (proj2 (Z.ltb_lt SS SN)) by done. rewrite H4; lia.
    - by rewrite (proj2 (Z.ltb_ge SS SN)) by lia. }
  rewrite Eg. destruct (slow_sending (drained d') p n g Ep Hg ltac:(lia)) as [S1 S2]; [|done|done|].
  { destruct Hcase as [(? & ? & _)|(? & ? & _)]; [left|right]; repeat split; try done; lia. }
  split; [exact S1|]. split_and!; try done; rewrite ?Elen, <- ?Ep; try done; try lia. intros d0. rewrite Ed. by intros [= <-].
Qed.

Lemma offset_slow g : 0 <= g < 2 ^ 62 -> SS <= 2 ^ 62 -> 0 <= F -> F <= SS -> stms_offset s g = if SS <? SN then SN else F + g.
Proof.
  intros. unfold stms_offset. rewrite (proj2 (Z.ltb_ge g 0)) by lia. destruct (SS <? SN); [done|]. apply u64_small. lia.
Qed.

Lemma take_slow_ok d g :
  dataForWriting s = Some d -> 0 <= g < 2 ^ 62 -> taken l s maxBytes g (take_slow s d maxBytes g).
Proof.
  intros Ed Hg. destruct (buffer_facts d Ed) as (Hw & Hc & Hlen & Hpos). pose proof Hs as [H1 [H2 H2'] H3 H4 H5].
  unfold take_slow. cbn zeta. destruct (Z.leb_spec (slice.len d) g) as [|Hgl]; [by apply taken_nothing|].
  pose proof (offset_slow g Hg ltac:(lia) ltac:(lia) ltac:(lia)) as Eo.
  destruct (Z.ltb_spec SS SN) as [Hlt|Hge].
  - specialize (H4 Hlt). rewrite H4. set (a := SS - F) in *.
    destruct (slice.from_spec d a Hw ltac:(unfold a; lia)) as (r & -> & R1 & R2 & R3 & R4 & R5 & R6). cbn [or_panic]. rewrite R2.
    destruct (Z.ltb_spec maxBytes (slice.len d - a)) as [Hbig|Hsmall].
    + rewrite (u64_small (a + maxBytes)) by (unfold a in *; lia).
      destruct (slice.between_spec d a (a + maxBytes) Hw ltac:(unfold a in *; lia) ltac:(lia)) as (m & -> & M1 & M2 & M3). cbn [or_panic].
      destruct (cut_out_spec d a (a + maxBytes) Hw ltac:(unfold a in *; lia) ltac:(lia)) as (d' & -> & D1 & D2 & D3 & D4 & D5 & D6). cbn [or_panic].
      replace (a + maxBytes - a) with maxBytes in * by lia.
      pose proof (slice.len_contents m M1) as Lm. rewrite slice.of_list_len, Lm, M2, (u64_small (SN + maxBytes)) by (unfold a in *; lia).
      destruct (slow_take d g SN a maxBytes (slice.of_list (slice.contents m)) d' a Ed) as [_ Ht]; try done; try (unfold a in *; lia).
      * apply slice.of_list_wf.
      * by rewrite slice.of_list_contents.
      * apply copy_shares; try done; unfold a in *; lia.
      * rewrite (proj2 (Z.ltb_lt SS SN)) in Ht by done. exact Ht.
    + destruct (slice.upto_spec d a Hw ltac:(unfold a; lia)) as (d' & -> & D1 & D2 & D3 & D4 & D5 & D6). cbn [or_panic].
      replace (slice.len d - a) with (W - SN) in * by (unfold a; lia).
      destruct (Z.eqb_spec (W - SN) 0) as [E0|Hne].
      * assert (W = SN) as EW by lia. replace (W - SN) with 0 in * by lia. rewrite Z.add_0_r, u64_small by lia.
        assert (set_stms s (drained d') (MkOffsets F SS SN a) = set_stms s (drained d') (MkOffsets F SS (SN + 0) (gap (offsets s)))) as -> by (rewrite Z.add_0_r, H4; done).
        destruct (slow_sending (drained d') SN 0 g) as [S1 S2]; [by rewrite Eo|lia|lia|by left|lia| |].
        -- rewrite (proj2 (Z.ltb_lt SS SN)) by done. apply drained_holds; [done|]. rewrite D3, Hc, take_segs by (unfold a; lia).
           replace (F + a) with SS by (unfold a; lia). replace (SN + 0) with W by lia. by rewrite seg_nil, app_nil_r.
        -- rewrite (proj2 (Z.ltb_lt SS SN)) in S1 by done. split; [exact S1|]. split_and!; try done.
           { unfold unsent. cbn [offsets set_stms writeOffsetF writeOffsetSS writeOffsetSN]. by rewrite Z.add_0_r. }
           intros d0. cbn. unfold drained. destruct (_ =? 0); [done|]. intros [= <-]. exists d.
           split_and!; try done; try lia. unfold slice.len in *. lia.
      * rewrite (u64_small (SN + _)) by lia.
        destruct (slow_take d g SN a (W - SN) r d' a Ed) as [_ Ht]; try done; try (unfold a in *; lia).
        -- rewrite R3. symmetry. apply firstn_all2. rewrite length_drop. pose proof (slice.len_contents d Hw). unfold a. lia.
        -- rewrite D3. rewrite (drop_ge (slice.contents d)), app_nil_r; [done|]. pose proof (slice.len_contents d Hw). unfold a. lia.
        -- apply drained_shares; rewrite ?D4, ?R4, ?D5, ?D6, ?R5, ?R6; try done; try lia; unfold slice.len, a in *; destruct Hw; lia.
        -- rewrite (proj2 (Z.ltb_lt SS SN)) in Ht by done. replace (SN + (W - SN)) with W in * by lia. exact Ht.
  - assert (SS = SN) as Heq by lia. specialize (H3 Heq). rewrite H3 in Eo.
    destruct (slice.from_spec d g Hw ltac:(lia)) as (r & -> & R1 & R2 & R3 & R4 & R5 & R6). cbn [or_panic]. rewrite R2.
    assert (slice.len d = W - SN) as Ld by lia. rewrite !(u64_small (SS + g)) by lia.
    destruct (Z.ltb_spec maxBytes (slice.len d - g)) as [Hbig|Hsmall].
    + rewrite (i64_small maxBytes) by (unfold in_i64; lia). rewrite (i64_small (g + maxBytes)) by (unfold in_i64; lia).
      destruct (slice.between_spec d g (g + maxBytes) Hw ltac:(lia) ltac:(lia)) as (m & -> & M1 & M2 & M3). cbn [or_panic].
      destruct (cut_out_spec d g (g + maxBytes) Hw ltac:(lia) ltac:(lia)) as (d' & -> & D1 & D2 & D3 & D4 & D5 & D6). cbn [or_panic].
      replace (g + maxBytes - g) with maxBytes in * by lia.
      pose proof (slice.len_contents m M1) as Lm. rewrite slice.of_list_len, Lm, M2, u64_small by lia.
      destruct (slow_take d g (SN + g) g maxBytes (slice.of_list (slice.contents m)) d' g Ed) as [_ Ht]; try done; try lia.
      * apply slice.of_list_wf.
      * by rewrite slice.of_list_contents.
      * apply copy_shares; try done; lia.
      * rewrite (proj2 (Z.ltb_ge SS SN)) in Ht by lia. rewrite Heq. exact Ht.
    + destruct (slice.upto_spec d g Hw ltac:(lia)) as (d' & -> & D1 & D2 & D3 & D4 & D5 & D6). cbn [or_panic].
      pose proof (slice.len_contents r R1) as Lr. rewrite slice.of_list_len, Lr, R2, u64_small by lia.
      destruct (slow_take d g (SN + g) g (slice.len d - g) (slice.of_list (slice.contents r)) d' g Ed) as [_ Ht]; try done; try lia.
      * apply slice.of_list_wf.
      * rewrite slice.of_list_contents, R3. symmetry. apply firstn_all2. rewrite length_drop. pose proof (slice.len_contents d Hw). lia.
      * rewrite D3. rewrite (drop_ge (slice.contents d)), app_nil_r; [done|]. pose proof (slice.len_contents d Hw). lia.
      * destruct (decide (g = 0)) as [->|].
        -- apply copy_all_shares; [done|lia|]. rewrite D2. done.
        -- apply copy_shares; rewrite ?D4; try done; try lia. unfold slice.len in *. lia.
      * rewrite (proj2 (Z.ltb_ge SS SN)) in Ht by lia. rewrite Heq. exact Ht.
Qed.
End Take.

Lemma getDataForWritingSTMS_ok l s maxBytes g :
  sending l s -> 0 < maxBytes < 2 ^ 62 -> (g = -1 \/ 0 <= g < 2 ^ 62) ->
  taken l s maxBytes g (getDataForWritingSTMS s maxBytes g).
Proof.
  intros Hs Hm Hg. unfold getDataForWritingSTMS. destruct (err s); [by apply taken_nothing|].
  destruct (dataForWriting s) as [d|] eqn:Ed; [|by apply taken_nothing]. destruct Hg as [-> |Hg].
  - by apply take_fast_ok.
  - rewrite (proj2 (Z.ltb_ge g 0)) by lia. by apply take_slow_ok.
Qed.

(** With nothing left in the buffer, everything is sent. *)
Lemma drained_unsent l s : sending l s -> dataForWriting s = None ->
  writeOffsetF (offsets s) = writeOffsetSS (offsets s) /\ writeOffsetSN (offsets s) = Z.of_nat (length l) /\ unsent l s = [].
Proof.
  intros [H1 [H2 H2'] H3 H4 H5] Ed. rewrite Ed in H5. cbn in H5. apply app_eq_nil in H5 as [E1 E2].
  apply (f_equal (fun x => Z.of_nat (length x))) in E1, E2. rewrite length_seg in E1, E2 by lia. cbn in E1, E2.
  split; [lia|]. split; [lia|]. unfold unsent. by rewrite E1, E2.
Qed.

Lemma sending_write l s p m :
  sending l s -> dataForWriting s = None -> p <> [] -> Z.of_nat (length (l ++ p)) < 2 ^ 62 ->
  let s' := set_marks (set_write s (writeOffset s) (Some (slice.of_list p))) m in
  sending (l ++ p) s' /\ unsent (l ++ p) s' = seqZ (Z.of_nat (length l)) (Z.of_nat (length p)).
Proof.
  intros Hs Ed Hp Hlen s'. destruct (drained_unsent l s Hs Ed) as (EF & EN & Eu). destruct Hs as [H1 [H2 H2'] H3 H4 _].
  split; cycle 1.
  { subst s'. unfold unsent. cbn [offsets set_marks set_write]. rewrite EF, EN, Z.sub_diag, length_app, Nat2Z.inj_add.
    rewrite (seqZ_nil _ 0) by lia. cbn [app]. f_equal. lia. }
  split; subst s'; cbn [offsets set_marks set_write dataForWriting]; try done.
  - rewrite length_app, Nat2Z.inj_add. lia.
  - split; [apply slice.of_list_wf|]. rewrite slice.of_list_contents, EF, seg_nil, EN, seg_app_r. done.
Qed.

(** ** Runs *)

(** The application writes (when its last call has returned) and closes the stream, a path
    takes data, the session cancels the stream. *)
Inductive event : Type :=
| EvWrite (p : list Z) (now : Z)
| EvTake (maxBytes g : Z)
| EvClose
| EvCancel (e : goerr).

Record run_t : Type := MkRun {
  written : list Z;                       (* what the stream has accepted *)
  frames : list (Z * list Z);             (* offset and data of each frame *)
  live : list (slice.t * list Z);         (* slices of the buffer's array in frames *)
  strm : stream.t;
}.

Definition stms_step (IPriority : bool) (r : run_t) (e : event) : res run_t :=
  let s := strm r in
  match e with
  | EvWrite p now =>
      match dataForWriting s with
      | Some _ => Ok r
      | None =>
          match Write IPriority s p now with
          | (WPanics, _) => Panic
          | (_, s') =>
              match dataForWriting s' with
              | None => Ok (MkRun (written r) (frames r) (live r) s')
              | Some _ => Ok (MkRun (written r ++ p) (frames r) [] s')
              end
          end
      end
  | EvTake maxBytes g =>
      match getDataForWritingSTMS s maxBytes g with
      | (Ok None, s') => Ok (MkRun (written r) (frames r) (live r) s')
      | (Ok (Some x), s') =>
          let shared := match dataForWriting s with Some d => bool_decide (slice.arr x = slice.arr d) | None => false end in
          Ok (MkRun (written r) (frames r ++ [(stms_offset s g, slice.contents x)])
                (if shared then (x, slice.contents x) :: live r else live r) s')
      | (Err e, _) => Err e
      | (Panic, _) => Panic
      end
  | EvClose => Ok (MkRun (written r) (frames r) (live r) (Close s))
  | EvCancel e => Ok (MkRun (written r) (frames r) (live r) (Cancel s e))
  end.

Fixpoint stms_run (IPriority : bool) (r : run_t) (es : list event) : res run_t :=
  match es with
  | [] => Ok r
  | e :: es => r' ← stms_step IPriority r e; stms_run IPriority r' es
  end.

Definition stms_start (id : Z) : run_t := MkRun [] [] [] (newStream id).

(** The calls for two paths or more: [-1] for the fast path, a gap for the slower one. *)
Definition event_ok (e : event) : Prop :=
  match e with
  | EvTake maxBytes g => 0 < maxBytes < 2 ^ 62 /\ (g = -1 \/ 0 <= g < 2 ^ 62)
  | _ => True
  end.

Definition event_bytes (e : event) : Z := match e with EvWrite p _ => Z.of_nat (length p) | _ => 0 end.
Definition total_bytes (es : list event) : Z := foldr Z.add 0 (map event_bytes es).

Definition positions (fs : list (Z * list Z)) : list Z :=
  concat (map (fun '(off, data) => seqZ off (Z.of_nat (length data))) fs).

Definition frame_ok (l : list Z) (f : Z * list Z) : Prop :=
  let '(off, data) := f in
  data <> [] /\ 0 <= off /\ off + Z.of_nat (length data) <= Z.of_nat (length l)
  /\ data = seg l off (off + Z.of_nat (length data)).

(** The slice [x], read from the array the buffer has now. *)
Definition reread (d x : slice.t) : list Z := slice.contents (slice.Mk (slice.arr d) (slice.lo x) (slice.hi x)).

Definition live_ok (d : slice.t) (x : slice.t * list Z) : Prop :=
  0 <= slice.lo x.1 <= slice.hi x.1 /\ (slice.hi x.1 <= slice.lo d \/ slice.hi d <= slice.lo x.1) /\ reread d x.1 = x.2.

Record run_inv (r : run_t) : Prop := {
  ri_sending : sending (written r) (strm r);
  ri_frames : Forall (frame_ok (written r)) (frames r);
  ri_once : positions (frames r) ++ unsent (written r) (strm r) ≡ₚ seqZ 0 (Z.of_nat (length (written r)));
  ri_live : forall d, dataForWriting (strm r) = Some d -> Forall (live_ok d) (live r);
}.

Lemma frame_ok_app l l' f : frame_ok l f -> frame_ok (l ++ l') f.
Proof.
  destruct f as [off data]. intros (H1 & H2 & H3 & H4). split; [done|]. split; [done|].
  split; [rewrite length_app, Nat2Z.inj_add; lia|]. rewrite seg_app_l by done. done.
Qed.

Lemma positions_app a b : positions (a ++ b) = positions a ++ positions b.
Proof. unfold positions. by rewrite map_app, concat_app. Qed.

Lemma reread_same d d' x :
  (forall i, (i < Z.to_nat (slice.lo d') \/ Z.to_nat (slice.hi d') <= i)%nat -> slice.arr d' !! i = slice.arr d !! i) ->
  0 <= slice.lo x <= slice.hi x -> slice.hi x <= slice.lo d' \/ slice.hi d' <= slice.lo x -> reread d' x = reread d x.
Proof.
  intros Hf Hx Hout. unfold reread, slice.contents, slice.len. cbn. apply list_eq. intros i.
  destruct (decide (i < Z.to_nat (slice.hi x - slice.lo x))%nat) as [Hi|Hi].
  - rewrite !lookup_take_lt, !lookup_drop by done. apply Hf. lia.
  - rewrite !lookup_take_ge by lia. done.
Qed.

Lemma live_step d x0 d' live0 :
  slice.wf x0 -> shares_ok d x0 (Some d') -> Forall (live_ok d) live0 ->
  Forall (live_ok d') (if bool_decide (slice.arr x0 = slice.arr d) then (x0, slice.contents x0) :: live0 else live0).
Proof.
  intros Hw [H1 (H2 & H3 & H4 & H5 & H6)] Hl.
  assert (Forall (live_ok d') live0) as Hold.
  { eapply Forall_impl; [exact Hl|]. intros x (X1 & X2 & X3).
    assert (slice.hi x.1 <= slice.lo d' \/ slice.hi d' <= slice.lo x.1) as Hout by lia.
    split; [done|]. split; [done|]. by rewrite (reread_same d d'). }
  case_bool_decide as E; [|done]. constructor; [|done]. destruct Hw. split; [done|]. cbn. split; [auto|].
  rewrite (reread_same d d') by auto. unfold reread, slice.contents, slice.len. cbn. by rewrite E.
Qed.

Lemma stms_offset_nonneg l s g : sending l s -> 0 <= stms_offset s g.
Proof.
  intros [? [? ?] ? ? ?]. unfold stms_offset, u64. pose proof (wrap_range 64 (writeOffsetF (offsets s) + g) ltac:(lia)) as [? ?].
  destruct (g <? 0); [destruct (_ && _); lia|destruct (_ <? _); lia].
Qed.

Lemma take_step_inv IPriority r maxBytes g r' :
  run_inv r -> event_ok (EvTake maxBytes g) -> stms_step IPriority r (EvTake maxBytes g) = Ok r' -> run_inv r'.
Proof.
  intros [I1 I2 I3 I4] [Hm Hg]. cbn. pose proof (getDataForWritingSTMS_ok _ _ _ _ I1 Hm Hg) as Ht.
  destruct (getDataForWritingSTMS (strm r) maxBytes g) as [[[x|]|e|] s'] eqn:E; cbn in Ht; try done.
  - destruct Ht as (T1 & _ & _ & _ & _ & T2 & T3 & T4 & T5 & T6 & T7). intros [= <-].
    pose proof (slice.len_contents x T2) as Hlx. pose proof (sd_order _ _ T1) as Ho.
    pose proof (stms_offset_nonneg _ _ g I1) as Hpos.
    split; cbn [written frames live strm]; [done| | |].
    + apply Forall_app. split; [done|]. constructor; [|done]. cbn. rewrite Hlx.
      split; [intros Ex; rewrite Ex in Hlx; cbn in Hlx; lia|]. split_and!; try done; lia.
    + rewrite positions_app. replace (positions [_]) with (seqZ (stms_offset (strm r) g) (slice.len x)) by (cbn; by rewrite Hlx, app_nil_r).
      rewrite <- app_assoc, <- T5. exact I3.
    + intros d' Ed'. destruct (dataForWriting (strm r)) as [d|] eqn:Ed.
      * specialize (T7 d eq_refl). rewrite Ed' in T7. apply (live_step d); auto.
      * exfalso. destruct (drained_unsent _ _ I1 Ed) as (_ & _ & Eu). rewrite Eu in T5. apply Permutation_nil_l in T5. symmetry in T5.
        apply app_eq_nil in T5 as [T5 _]. apply (f_equal length) in T5. rewrite length_seqZ in T5. cbn in T5. lia.
  - destruct Ht as (T1 & _ & _ & _ & _ & T2 & T3). intros [= <-]. split; cbn; try done; [by rewrite T2|].
    intros d' Ed'. destruct (T3 d' Ed') as (d & Ed & E1 & E2 & E3). eapply Forall_impl; [apply (I4 d Ed)|].
    intros x (X1 & X2 & X3). split; [done|]. split; [lia|]. unfold reread in *. by rewrite E1.
Qed.

Lemma seqZ_written (l p : list Z) : seqZ 0 (Z.of_nat (length (l ++ p))) = seqZ 0 (Z.of_nat (length l)) ++ seqZ (Z.of_nat (length l)) (Z.of_nat (length p)).
Proof. rewrite length_app, Nat2Z.inj_add, seqZ_app by lia. by rewrite Z.add_0_l. Qed.

Lemma write_step_inv IPriority r p now r' :
  run_inv r -> Z.of_nat (length (written r ++ p)) < 2 ^ 62 -> stms_step IPriority r (EvWrite p now) = Ok r' ->
  run_inv r' /\ (written r' = written r \/ written r' = written r ++ p).
Proof.
  intros Hi Hlen. cbn. destruct (dataForWriting (strm r)) as [d|] eqn:Ed; [intros [= <-]; auto|].
  assert (forall e, Ok (MkRun (written r) (frames r) (live r) (strm r)) = Ok r' -> run_inv r' /\ (written r' = written r \/ written r' = written r ++ e)) as Hsame.
  { intros e [= <-]. split; [|by left]. destruct r. exact Hi. }
  unfold Write. destruct (_ || _); [rewrite Ed; apply Hsame|]. destruct (finishedWriting _); [rewrite Ed; apply Hsame|].
  destruct (Z.eqb_spec (Z.of_nat (length p)) 0) as [|Hp]; [rewrite Ed; apply Hsame|]. clear Hsame.
  destruct (if IPriority then _ else _) as [m|e|]; [|done..].
  assert (p <> []) as Hne by (intros ->; by apply Hp). pose proof (sending_write _ _ p m (ri_sending _ Hi) Ed Hne Hlen) as [S1 S2].
  destruct (drained_unsent _ _ (ri_sending _ Hi) Ed) as (_ & _ & Eu). intros E.
  assert (r' = MkRun (written r ++ p) (frames r) [] (set_marks (set_write (strm r) (writeOffset (strm r)) (Some (slice.of_list p))) m)) as ->.
  { destruct (Write_wait _ _ _); [by injection E|by injection E|done]. }
  split; [|by right]. destruct Hi as [I1 I2 I3 I4]. split; cbn [written frames live strm]; [done| | |done].
  - eapply Forall_impl; [exact I2|]. intros f. apply frame_ok_app.
  - rewrite S2, seqZ_written. apply Permutation_app_tail. rewrite Eu, app_nil_r in I3. exact I3.
Qed.

Lemma sending_same l s s' : offsets s' = offsets s -> dataForWriting s' = dataForWriting s -> sending l s -> sending l s'.
Proof. intros E1 E2 []. split; by rewrite ?E1, ?E2. Qed.

(** An event that leaves the buffer alone. *)
Lemma run_inv_same r s' :
  offsets s' = offsets (strm r) -> dataForWriting s' = dataForWriting (strm r) ->
  run_inv r -> run_inv (MkRun (written r) (frames r) (live r) s').
Proof.
  intros E1 E2 [I1 I2 I3 I4]. split; cbn; [by eapply sending_same|done| |by rewrite E2].
  unfold unsent in *. by rewrite E1.
Qed.

Lemma Cancel_buffer s e : offsets (Cancel s e) = offsets s /\ dataForWriting (Cancel s e) = dataForWriting s.
Proof. unfold Cancel, first_err. by destruct (err _). Qed.

Lemma stms_step_inv IPriority r e r' :
  run_inv r -> event_ok e -> Z.of_nat (length (written r)) + event_bytes e < 2 ^ 62 -> stms_step IPriority r e = Ok r' ->
  run_inv r' /\ Z.of_nat (length (written r')) <= Z.of_nat (length (written r)) + event_bytes e.
Proof.
  intros Hi He Hlen E. destruct e as [p now|maxBytes g| |e]; cbn [event_bytes] in Hlen |- *.
  - rewrite <- Nat2Z.inj_add, <- length_app in Hlen. apply write_step_inv in E as [Hi' E]; [|done..]. split; [done|].
    rewrite <- Nat2Z.inj_add, <- length_app. destruct E as [-> | ->]; rewrite ?length_app; lia.
  - split; [by eapply take_step_inv|]. cbn in E. destruct (getDataForWritingSTMS _ _ _) as [[[x|]|e|] s']; try done;
      injection E as <-; cbn; lia.
  - injection E as <-. cbn. split; [|lia]. by apply run_inv_same.
  - injection E as <-. cbn [written]. split; [|lia]. apply run_inv_same; [apply Cancel_buffer..|done].
Qed.

(** Without the search for video frames nothing panics. *)
Lemma step_total r e : run_inv r -> event_ok e -> exists r', stms_step false r e = Ok r'.
Proof.
  intros Hi He. destruct e as [p now|maxBytes g| |e]; cbn [stms_step]; [| |eauto..].
  - destruct (dataForWriting (strm r)); [eauto|]. destruct (Write false (strm r) p now) as [w s'] eqn:E.
    assert (w <> WPanics).
    { unfold Write, Write_wait in E. repeat case_match; by injection E as <- _. }
    destruct w; [| |done]; destruct (dataForWriting s'); eauto.
  - destruct He as [Hm Hg]. pose proof (getDataForWritingSTMS_ok _ _ _ _ (ri_sending _ Hi) Hm Hg) as Ht.
    destruct (getDataForWritingSTMS _ _ _) as [[[x|]|e|] s']; cbn in Ht; [eauto|eauto|tauto..].
Qed.

(** The offset of in-order sending is not used. *)
Definition kept (s s' : stream.t) : Prop := writeOffset s' = writeOffset s /\ streamID s' = streamID s.

Lemma Write_kept IPriority s p now : kept s (Write IPriority s p now).2.
Proof. unfold Write. repeat case_match; done. Qed.

Lemma step_kept IPriority r e r' :
  run_inv r -> event_ok e -> stms_step IPriority r e = Ok r' -> kept (strm r) (strm r').
Proof.
  intros Hi He E. destruct e as [p now|maxBytes g| |e]; cbn [stms_step] in E.
  - pose proof (Write_kept IPriority (strm r) p now) as Hk. destruct (dataForWriting (strm r)); [by injection E as <-|].
    destruct (Write _ _ _ _) as [[] s']; [..|done]; destruct (dataForWriting s'); by injection E as <-.
  - destruct He as [Hm Hg]. pose proof (getDataForWritingSTMS_ok _ _ _ _ (ri_sending _ Hi) Hm Hg) as Ht.
    destruct (getDataForWritingSTMS _ _ _) as [[[x|]|e|] s']; [| |done..]; injection E as <-; destruct Ht as (_ & _ & _ & H1 & H2 & _); done.
  - by injection E as <-.
  - injection E as <-. unfold kept, Cancel, first_err. cbn. by destruct (err (strm r)).
Qed.

Lemma total_cons e es : total_bytes (e :: es) = event_bytes e + total_bytes es.
Proof. done. Qed.

Lemma total_bytes_nonneg es : 0 <= total_bytes es.
Proof. induction es as [|[]]; rewrite ?total_cons; cbn [event_bytes]; [done|lia..]. Qed.

Lemma stms_run_inv IPriority es : forall r r',
  run_inv r -> Forall event_ok es -> Z.of_nat (length (written r)) + total_bytes es < 2 ^ 62 -> stms_run IPriority r es = Ok r' ->
  run_inv r' /\ kept (strm r) (strm r').
Proof.
  induction es as [|e es IH]; intros r r' Hi He Hlen E; cbn in E; [by injection E as <-|].
  apply Forall_cons in He as [He Hes]. rewrite total_cons in Hlen. pose proof (total_bytes_nonneg es).
  destruct (stms_step IPriority r e) as [r1| |] eqn:E1; [|done..].
  destruct (stms_step_inv _ _ _ _ Hi He ltac:(lia) E1) as [Hi1 Hl1]. destruct (step_kept _ _ _ _ Hi He E1) as [K1 K2].
  destruct (IH r1 r' Hi1 Hes ltac:(lia) E) as [Hi' [K3 K4]]. split; [done|]. split; congruence.
Qed.

Lemma stms_run_total es : forall r,
  run_inv r -> Forall event_ok es -> Z.of_nat (length (written r)) + total_bytes es < 2 ^ 62 -> exists r', stms_run false r es = Ok r'.
Proof.
  induction es as [|e es IH]; intros r Hi He Hlen; cbn; [eauto|].
  apply Forall_cons in He as [He Hes]. rewrite total_cons in Hlen. pose proof (total_bytes_nonneg es).
  destruct (step_total r e Hi He) as [r1 E1]. rewrite E1. destruct (stms_step_inv _ _ _ _ Hi He ltac:(lia) E1) as [Hi1 Hl1].
  apply (IH r1); [done..|lia].
Qed.

Lemma run_inv_start id : run_inv (stms_start id).
Proof. split; cbn; [|done|done|done]. split; cbn; try done; lia. Qed.

(** ** The receiver *)

(** The byte of the stream at [x]. *)
Definition byte_at (l : list Z) (x : Z) : Z := default 0 (l !! Z.to_nat x).

Definition carries (f : StreamFrame.t) (fr : Z * list Z) : Prop := StreamFrame.Offset f = fr.1 /\ StreamFrame.Data f = fr.2.

Lemma slice_of_bytes l n : 0 <= n <= Z.of_nat (length l) -> slice_of (byte_at l) 0 n = take (Z.to_nat n) l.
Proof.
  intros Hn. apply list_eq. intros i. unfold slice_of. rewrite list_lookup_fmap.
  destruct (decide (i < Z.to_nat n)%nat) as [Hi|Hi].
  - rewrite lookup_seqZ_lt by lia. rewrite lookup_take_lt by done. cbn. unfold byte_at.
    replace (Z.to_nat (0 + Z.of_nat i)) with i by lia. by destruct (lookup_lt_is_Some_2 l i ltac:(lia)) as [b ->].
  - rewrite lookup_seqZ_ge, lookup_take_ge by lia. done.
Qed.

Lemma sent_good l f fr : frame_ok l fr -> carries f fr -> good (byte_at l) (Z.of_nat (length l)) f /\ 0 < flen f.
Proof.
  destruct fr as [off data]. intros (H1 & H2 & H3 & H4) [E1 E2]. cbn in E1, E2. unfold good, flen. rewrite E1, E2.
  assert (0 < Z.of_nat (length data)) as Hpos by (destruct data; [done|cbn; lia]).
  split; [|done]. split; [done|]. split; [done|]. split; [lia|]. intros i b Hb. pose proof (lookup_lt_Some _ _ _ Hb).
  rewrite H4 in Hb. unfold seg in Hb. rewrite lookup_take_lt, lookup_drop in Hb by lia. unfold byte_at.
  replace (Z.to_nat (off + Z.of_nat i)) with (Z.to_nat off + i)%nat by lia. by rewrite Hb.
Qed.

Lemma positions_elem fs x : x ∈ positions fs -> exists fr, fr ∈ fs /\ fr.1 <= x < fr.1 + Z.of_nat (length fr.2).
Proof.
  unfold positions. intros (y & Hx & Hy)%list_elem_of_In%in_concat. apply in_map_iff in Hx as ([off data] & <- & Hin).
  apply list_elem_of_In in Hin. apply list_elem_of_In, elem_of_seqZ in Hy. exists (off, data). cbn. split; [done|lia].
Qed.

(** ** Theorems *)

(** Over two paths or more: whatever the application writes and in whatever order and sizes
    the fast path and the slower one take the data, no call fails, every frame carries the
    bytes of the stream at the frame's offset, and every byte is in exactly one frame or still
    to be sent; in none when the buffer is empty. *)
Theorem stms_bytes_once id es :
  Forall event_ok es -> total_bytes es < 2 ^ 62 ->
  exists r, stms_run false (stms_start id) es = Ok r
    /\ Forall (frame_ok (written r)) (frames r)
    /\ positions (frames r) ++ unsent (written r) (strm r) ≡ₚ seqZ 0 (Z.of_nat (length (written r)))
    /\ (dataForWriting (strm r) = None -> positions (frames r) ≡ₚ seqZ 0 (Z.of_nat (length (written r)))).
Proof.
  intros He Hlen. destruct (stms_run_total es (stms_start id) (run_inv_start id) He Hlen) as [r E].
  destruct (stms_run_inv _ _ _ _ (run_inv_start id) He Hlen E) as [[I1 I2 I3 I4] _].
  exists r. split_and!; try done. intros Ed. destruct (drained_unsent _ _ I1 Ed) as (_ & _ & Eu). by rewrite Eu, app_nil_r in I3.
Qed.

(** The frames in flight that share the array of the stream's buffer keep their bytes, however
    the buffer is cut in place behind them. *)
Theorem stms_frames_not_overwritten IPriority id es r d :
  Forall event_ok es -> total_bytes es < 2 ^ 62 -> stms_run IPriority (stms_start id) es = Ok r ->
  dataForWriting (strm r) = Some d -> Forall (fun '(x, data) => reread d x = data) (live r).
Proof.
  intros He Hlen E Ed. destruct (stms_run_inv _ _ _ _ (run_inv_start id) He Hlen E) as [[I1 I2 I3 I4] _].
  eapply Forall_impl; [by apply I4|]. by intros [x data] (_ & _ & ?).
Qed.

(** C22. From one application to the other, with calls for a fast path (-1) or a gap, but none for a single path (-2): the
    frames sent over several paths are frames of the stream, and if some of them, in any order and with repetitions, arrive at the other side, with a FIN only at
    the end of the stream, the application there has read a prefix of what was written; and all of it, when the sender
    has sent everything, everything has arrived and a call of [Read] waits. *)
Theorem stms_delivery IPriority id es r :
  Forall event_ok es -> total_bytes es < 2 ^ 62 -> stms_run IPriority (stms_start id) es = Ok r ->
  let d := byte_at (written r) in
  let N := Z.of_nat (length (written r)) in
  (forall f fr, fr ∈ frames r -> carries f fr -> good d N f /\ 0 < flen f)
  /\ forall s fs out, history d N s fs out ->
     out = take (length out) (written r)
     /\ forall f n now,
        dataForWriting (strm r) = None -> (forall fr, fr ∈ frames r -> exists f, f ∈ fs /\ carries f fr) ->
        readable s -> 0 <= n < 2 ^ 62 -> (Read f s n now).1 = ReadWaits -> out = written r.
Proof.
  intros He Hlen E d N. destruct (stms_run_inv _ _ _ _ (run_inv_start id) He Hlen E) as [[I1 I2 I3 I4] _].
  split; [intros f fr Hfr; apply sent_good; by eapply Forall_forall in I2|].
  assert (0 <= N < 2 ^ 62) as HN by (destruct I1; unfold N; lia).
  intros s fs out H. destruct (history_received d N HN _ _ _ H) as [R1 R2 _ _]. pose proof (rd_pos _ _ _ R1).
  pose proof (si_pos _ _ _ (rd_sorter _ _ _ R1)). pose proof (length_slice d 0 (readOffset s) ltac:(lia)) as El. rewrite <- R2 in El.
  assert (out = take (length out) (written r)) as Hpre.
  { rewrite R2 at 1. unfold d. rewrite slice_of_bytes by (unfold N in *; lia). f_equal. lia. }
  split; [done|]. intros f n now Ed Hall Ho Hn Hw. destruct (decide (Z.of_nat (length out) = N)) as [EN|Hne].
  { rewrite Hpre. apply firstn_all2. unfold N in *. lia. }
  exfalso. assert (Z.of_nat (length out) ∈ positions (frames r)) as Hx.
  { destruct (drained_unsent _ _ I1 Ed) as (_ & _ & Eu). rewrite Eu, app_nil_r in I3. rewrite I3. apply elem_of_seqZ. unfold N in *. lia. }
  apply positions_elem in Hx as (fr & Hfr & Hx). destruct (Hall fr Hfr) as (g & Hg & [E1 E2]).
  apply (wait_missing d N HN s fs out f n now H Hn Ho Hw g Hg). unfold covers, flen. rewrite E1, E2. lia.
Qed.

(** The variant for a single path, [-2], does not know of the gap: the scheduler asks for it
    also when a path has no delay sample yet, and if a slower path has sent from behind a gap by
    then, the frame is filled with bytes that belong behind the slower path's. *)
Theorem stms_fallback_corrupts :
  exists es r, Forall (fun e => match e with EvTake _ g => g = -2 \/ 0 <= g | _ => True end) es
    /\ stms_run false (stms_start 5) es = Ok r
    /\ exists off data, (off, data) ∈ frames r /\ data <> seg (written r) off (off + Z.of_nat (length data)).
Proof.
  exists [EvWrite [0; 1; 2; 3; 4; 5; 6; 7; 8; 9] 0; EvTake 2 4; EvTake 6 (-2)]. eexists. split.
  { repeat (constructor; [first [exact I | left; reflexivity | right; lia]|]). constructor. }
  split; [vm_compute; reflexivity|]. exists 0, [0; 1; 2; 3; 6; 7]. split.
  - cbn. right. left.
  - vm_compute. discriminate.
Qed.

(** Data sent this way is not counted in [writeOffset], so a stream that is reset afterwards
    announces a final offset of zero, whatever it has sent. *)
Theorem stms_reset_offset IPriority id es r e rst s' :
  Forall event_ok es -> total_bytes es < 2 ^ 62 -> stms_run IPriority (stms_start id) es = Ok r ->
  Reset (strm r) e = (Some rst, s') -> rst = (id, 0).
Proof.
  intros He Hlen E Hr. destruct (stms_run_inv _ _ _ _ (run_inv_start id) He Hlen E) as [_ [K1 K2]]. cbn in K1, K2.
  unfold Reset, queue_reset, first_err in Hr. cbn in Hr.
  destruct (resetLocally _); [done|]. destruct (err (strm r)); cbn in Hr; destruct (shouldSendReset _); cbn in Hr; congruence.
Qed.

(** ** Witnesses *)

Definition sample : list event :=
  [EvWrite [0; 1; 2; 3; 4; 5; 6; 7; 8; 9] 0; EvTake 2 (-1); EvTake 3 4; EvTake 2 (-1); EvTake 2 4; EvTake 9 (-1); EvClose].

Lemma stms_sample_ok : Forall event_ok sample.
Proof. repeat (constructor; [first [exact I | split; lia]|]). constructor. Qed.

Lemma stms_bytes_once_witness :
  exists r, stms_run false (stms_start 5) sample = Ok r
    /\ Forall (frame_ok (written r)) (frames r)
    /\ positions (frames r) ++ unsent (written r) (strm r) ≡ₚ seqZ 0 (Z.of_nat (length (written r)))
    /\ (dataForWriting (strm r) = None -> positions (frames r) ≡ₚ seqZ 0 (Z.of_nat (length (written r)))).
Proof. apply (stms_bytes_once 5 sample); [apply stms_sample_ok|vm_compute; done]. Defined.

Definition sample_run : run_t := match stms_run false (stms_start 5) sample with Ok r => r | _ => stms_start 5 end.
Definition sample_buffer : slice.t := default (slice.of_list []) (dataForWriting (strm sample_run)).

Lemma stms_frames_not_overwritten_witness :
  slice.arr sample_buffer = [0; 1; 2; 3; 4; 5; 9; 7; 8; 9] /\ length (live sample_run) = 3%nat
  /\ Forall (fun '(x, data) => reread sample_buffer x = data) (live sample_run).
Proof.
  split; [vm_compute; reflexivity|]. split; [vm_compute; reflexivity|].
  apply (stms_frames_not_overwritten false 5 sample sample_run sample_buffer); [apply stms_sample_ok|vm_compute; done|vm_compute; reflexivity..].
Defined.

Lemma stms_reset_offset_witness :
  (Reset (strm sample_run) (GoErr "reset")).1 = Some (5, 0) /\ (5, 0) = (5, 0).
Proof.
  split; [vm_compute; reflexivity|].
  apply (stms_reset_offset false 5 sample sample_run (GoErr "reset") (5, 0) (Reset (strm sample_run) (GoErr "reset")).2);
    [apply stms_sample_ok|vm_compute; done|vm_compute; reflexivity..].
Defined.

(** Six bytes in three frames, which arrive in another order. *)
Definition small : list event := [EvWrite [7; 8; 9; 10; 11; 12] 0; EvTake 2 3; EvTake 9 (-1); EvTake 9 (-1)].
Definition small_run : run_t := match stms_run false (stms_start 5) small with Ok r => r | _ => stms_start 5 end.
Definition sent (fr : Z * list Z) : StreamFrame.t := part_frame false fr.1 fr.2.

Lemma sent_carries fr : carries (sent fr) fr.
Proof. done. Qed.

Lemma small_ok : Forall event_ok small.
Proof. repeat (constructor; [first [exact I | split; lia]|]). constructor. Qed.

Lemma small_sent : frames small_run = [(3, [10; 11]); (0, [7; 8; 9]); (5, [12])].
Proof. vm_compute. reflexivity. Qed.

Lemma small_frames : Forall (frame_ok (written small_run)) (frames small_run).
Proof. vm_compute. repeat (constructor; [split_and!; done|]). constructor. Qed.

Definition arrive (st : flowControlManager.t * stream.t) (i : nat) : flowControlManager.t * stream.t :=
  after_add st (sent (nth i (frames small_run) (0, []))).
Definition arrived : flowControlManager.t * stream.t := arrive (arrive (arrive (reader_flow, newStream 5) 2) 0) 1.
Definition read_all := Read arrived.1 arrived.2 6 0.

Lemma arrive_history st fs out i :
  (i < length (frames small_run))%nat -> (AddStreamFrame st.1 st.2 (sent (nth i (frames small_run) (0, [])))).1 = Ok tt ->
  history (byte_at (written small_run)) (Z.of_nat (length (written small_run))) st.2 fs out ->
  history (byte_at (written small_run)) (Z.of_nat (length (written small_run))) (arrive st i).2 (sent (nth i (frames small_run) (0, [])) :: fs) out.
Proof.
  intros Hi Hok H. destruct (nth_lookup_or_length (frames small_run) i (0, [])) as [Hl|]; [|lia].
  pose proof small_frames as Hf. eapply Forall_lookup_1 in Hf; [|exact Hl].
  destruct (sent_good _ _ _ Hf (sent_carries _)) as [Hg Hpos].
  apply (history_frame _ _ st.2 _ _ st.1 _ (arrive st i).1); [exact H|exact Hg|intros Hfin; discriminate Hfin|lia|].
  unfold arrive, after_add. rewrite <- Hok. by destruct (AddStreamFrame _ _ _) as [? []].
Qed.

Lemma small_history :
  history (byte_at (written small_run)) (Z.of_nat (length (written small_run))) read_all.2.2
    (map (fun i => sent (nth i (frames small_run) (0, []))) [1; 0; 2]%nat) [7; 8; 9; 10; 11; 12].
Proof.
  apply (history_read _ _ arrived.2 _ [] arrived.1 6 0 [7; 8; 9; 10; 11; 12] None read_all.2.1); [|lia|vm_compute; reflexivity].
  cbn [map]. apply arrive_history; [vm_compute; lia|vm_compute; reflexivity|].
  apply arrive_history; [vm_compute; lia|vm_compute; reflexivity|].
  apply arrive_history; [vm_compute; lia|vm_compute; reflexivity|]. constructor.
Qed.

Lemma stms_delivery_witness :
  frames small_run = [(3, [10; 11]); (0, [7; 8; 9]); (5, [12])]
  /\ (Read read_all.2.1 read_all.2.2 6 0).1 = ReadWaits /\ [7; 8; 9; 10; 11; 12] = written small_run.
Proof.
  split; [vm_compute; reflexivity|]. split; [vm_compute; reflexivity|].
  apply (proj2 (proj2 (stms_delivery false 5 small small_run small_ok ltac:(vm_compute; done) ltac:(vm_compute; reflexivity)) _ _ _ small_history)
           read_all.2.1 6 0); [vm_compute; reflexivity| |vm_compute; done|lia|vm_compute; reflexivity].
  intros fr Hfr. exists (sent fr). split; [|apply sent_carries].
  rewrite small_sent in *. cbn [map nth]. set_solver.
Defined.
