(* ===== verification/StreamFramer.v ===== *)
(** * Stream framer

    Models [stream_framer.go]: the frames that wait to be sent, the retransmission of stream
    frames, which are split to fit into a packet, and the composition of new stream frames from
    the data of the streams, in order ([maybePopNormalFrames], with the video frames that are
    dropped when bandwidth is short) or out of order for the STMS scheduler
    ([maybePopNormalFramesSTMS]).

    The streams map is walked by its round robin iteration; what the closure of the Go code
    captures (the frame being made, the frames made so far and their length) is the state of the
    iteration, together with the parts of the framer it changes.  [frame_t] is the frame under
    construction, which is used for the next stream when a stream has nothing to send.

    [maybePopData], which fills the buffers of the paths for schedulers that assign data ahead
    of time, is not modelled. *)

From stdpp Require Import base numbers list option strings gmap.
From S2P Require Import Prelude PublicHeader StreamFrame ClosePathFrame ControlFrames FlowControl FrameSorter StreamsMap GoSlice Stream StreamSTMS.

Local Open Scope Z_scope.

Abbreviation streams_t := (streamsMap.t stream.t).

Module streamFramer.

Record t : Type := Mk {
  smap : streams_t;
  flow : flowControlManager.t;
  retransmissionQueue : list StreamFrame.t;
  blockedFrameQueue : list BlockedFrame.t;
  addAddressFrameQueue : list AddAddressFrame.t;
  closePathFrameQueue : list ClosePathFrame.t;
  pathsFrame : option PathsFrame.t;
  retransbytes : Z;
}.

Definition newStreamFramer (m : streams_t) (f : flowControlManager.t) : t := Mk m f [] [] [] [] None 0.

Definition set_smap (f : t) (m : streams_t) : t :=
  Mk m (flow f) (retransmissionQueue f) (blockedFrameQueue f) (addAddressFrameQueue f) (closePathFrameQueue f) (pathsFrame f) (retransbytes f).
Definition set_retransmission (f : t) (fl : flowControlManager.t) (q : list StreamFrame.t) (n : Z) : t :=
  Mk (smap f) fl q (blockedFrameQueue f) (addAddressFrameQueue f) (closePathFrameQueue f) (pathsFrame f) n.
Definition set_queues (f : t) (b : list BlockedFrame.t) (a : list AddAddressFrame.t) (c : list ClosePathFrame.t) (p : option PathsFrame.t) : t :=
  Mk (smap f) (flow f) (retransmissionQueue f) b a c p (retransbytes f).

(** ** Frames that wait *)

Definition pop_front {A} (q : list A) : option A * list A := match q with [] => (None, []) | x :: q => (Some x, q) end.

Definition PopBlockedFrame (f : t) : option BlockedFrame.t * t :=
  let '(x, q) := pop_front (blockedFrameQueue f) in (x, set_queues f q (addAddressFrameQueue f) (closePathFrameQueue f) (pathsFrame f)).

Definition AddAddressForTransmission (f : t) (ipVersion : Z) (addr : AddAddressFrame.UDPAddr) : t :=
  set_queues f (blockedFrameQueue f) (addAddressFrameQueue f ++ [AddAddressFrame.Mk ipVersion addr]) (closePathFrameQueue f) (pathsFrame f).

Definition PopAddAddressFrame (f : t) : option AddAddressFrame.t * t :=
  let '(x, q) := pop_front (addAddressFrameQueue f) in (x, set_queues f (blockedFrameQueue f) q (closePathFrameQueue f) (pathsFrame f)).

Definition AddClosePathFrameForTransmission (f : t) (c : ClosePathFrame.t) : t :=
  set_queues f (blockedFrameQueue f) (addAddressFrameQueue f) (closePathFrameQueue f ++ [c]) (pathsFrame f).

Definition PopClosePathFrame (f : t) : option ClosePathFrame.t * t :=
  let '(x, q) := pop_front (closePathFrameQueue f) in (x, set_queues f (blockedFrameQueue f) (addAddressFrameQueue f) q (pathsFrame f)).

Definition Hour : Z := 3600 * 10 ^ 9.

(** [paths]: ID, failure and smoothed RTT of each path, in the order of the walk. *)
Definition AddPathsFrameForTransmission (f : t) (paths : list (Z * bool * Z)) : t :=
  let ids := map (fun '(id, _, _) => id) paths in
  let rtts := map (fun '(_, failed, rtt) => if (failed : bool) then Hour else rtt) paths in
  set_queues f (blockedFrameQueue f) (addAddressFrameQueue f) (closePathFrameQueue f)
    (Some (PathsFrame.Mk 255 (u8 (Z.of_nat (length ids))) ids rtts)).

Definition PopPathsFrame (f : t) : option PathsFrame.t * t :=
  (pathsFrame f, set_queues f (blockedFrameQueue f) (addAddressFrameQueue f) (closePathFrameQueue f) None).

(** ** Retransmissions *)

Definition AddFrameForRetransmission (f : t) (frame : StreamFrame.t) : t :=
  set_retransmission f (flow f) (retransmissionQueue f ++ [frame]) (u64 (retransbytes f + StreamFrame.DataLen frame)).

Definition HasFramesForRetransmission (f : t) : bool := negb (length (retransmissionQueue f) =? 0)%nat.

(** The first [n] bytes as a frame of their own, and the rest of the frame; [None] if the frame
    has no more than [n]. *)
Definition maybeSplitOffFrame (frame : StreamFrame.t) (n : Z) : option (StreamFrame.t * StreamFrame.t) :=
  if StreamFrame.DataLen frame <=? n then None
  else Some (StreamFrame.Mk (StreamFrame.StreamID frame) false (StreamFrame.DataLenPresent frame) (StreamFrame.Offset frame)
               (take (Z.to_nat n) (StreamFrame.Data frame)) 0 false,
             StreamFrame.Mk (StreamFrame.StreamID frame) (StreamFrame.FinBit frame) (StreamFrame.DataLenPresent frame)
               (u64 (StreamFrame.Offset frame + n)) (drop (Z.to_nat n) (StreamFrame.Data frame)) (StreamFrame.Rcvpkttime frame) (StreamFrame.Priority frame)).

Definition with_length (frame : StreamFrame.t) : StreamFrame.t :=
  StreamFrame.Mk (StreamFrame.StreamID frame) (StreamFrame.FinBit frame) true (StreamFrame.Offset frame) (StreamFrame.Data frame)
    (StreamFrame.Rcvpkttime frame) (StreamFrame.Priority frame).

(** The frames to send, their length, the rest of the queue. *)
Fixpoint retrans_loop (q : list StreamFrame.t) (maxLen currentLen : Z) (fl : flowControlManager.t)
  : list StreamFrame.t * Z * list StreamFrame.t * flowControlManager.t :=
  match q with
  | [] => ([], currentLen, [], fl)
  | frame :: q =>
      let frame := with_length frame in
      let currentLen' := u64 (currentLen + StreamFrame.MinLength frame) in
      if maxLen <=? currentLen' then ([], currentLen, frame :: q, fl)
      else
        match maybeSplitOffFrame frame (u64 (maxLen - currentLen')) with
        | Some (first, rest) =>
            ([first], u64 (currentLen' + StreamFrame.DataLen first), rest :: q,
             (flowControlManager.AddBytesRetrans fl (StreamFrame.StreamID first) (StreamFrame.DataLen first)).2)
        | None =>
            let fl := (flowControlManager.AddBytesRetrans fl (StreamFrame.StreamID frame) (StreamFrame.DataLen frame)).2 in
            let '(res, len, rest, fl) := retrans_loop q maxLen (u64 (currentLen' + StreamFrame.DataLen frame)) fl in
            (frame :: res, len, rest, fl)
        end
  end.

Definition maybePopFramesForRetransmission (f : t) (maxLen : Z) : list StreamFrame.t * Z * t :=
  let '(res, len, rest, fl) := retrans_loop (retransmissionQueue f) maxLen 0 (flow f) in
  (res, len, set_retransmission f fl rest (retransbytes f)).

(** ** Dropping video frames *)

Definition pattern_discard : list Z := [97; 98; 99; 100].
Definition headerlen : Z := 12.

(** [s.dataForWriting] from its first header on, the headers behind it moved. *)
Definition drop_before (s : stream.t) (d : slice.t) (start h : Z) (rest : list Z) : res stream.t :=
  front ← slice.upto d h;
  d ← slice.from d h;
  let m := stream.marks s in
  let next := match rest with [] => [-1] | _ => map (fun x => x - slice.len front) rest end in
  mret (stream.set_marks (stream.set_write s (stream.writeOffset s) (Some d))
          (stream.MkMarks start (stream.I_endinx m) (stream.Iframecount m) (stream.hasI m) next (stream.cansendpattern m))).

Definition set_next (m : stream.marks_t) (next : list Z) : stream.marks_t :=
  stream.MkMarks (stream.I_startinx m) (stream.I_endinx m) (stream.Iframecount m) (stream.hasI m) next (stream.cansendpattern m).
Definition set_pattern (s : stream.t) (b : bool) : stream.t :=
  let m := stream.marks s in
  stream.set_marks s (stream.MkMarks (stream.I_startinx m) (stream.I_endinx m) (stream.Iframecount m) (stream.hasI m) (stream.NextHeaderOff m) b).

(** Only the headers. *)
Fixpoint headers (d : slice.t) (offs : list Z) : res (list Z) :=
  match offs with
  | [] => Ok []
  | o :: offs => h ← slice.between d o (o + headerlen); r ← headers d offs; mret (slice.contents h ++ r)
  end.

(** Bandwidth is short: an I frame is sent, of other frames only the headers.  The pattern and
    how often it is to be sent. *)
Definition discard_short (s : stream.t) (d : slice.t) (maxLen : Z) (unenough : bool) : res (list Z * Z * stream.t) :=
  let m := stream.marks s in
  match stream.NextHeaderOff m with
  | [] => Panic
  | h :: rest =>
      if negb (stream.I_startinx m =? -1) && (0 <=? stream.I_startinx m) && (stream.I_startinx m <? i64 maxLen) then
        let next := if h <? i64 maxLen then (match rest with [] => [-1] | _ => rest end) else h :: rest in
        Ok ([], 0, set_pattern (stream.set_marks s (set_next m next)) true)
      else if 0 <=? h then
        r ← (if 0 <=? stream.I_startinx m then s ← drop_before s d 0 h rest; mret (0, s)
             else tmp ← headers d (h :: rest);
                  mret (Z.of_nat (length (h :: rest)),
                        stream.set_marks (stream.set_write s (stream.writeOffset s) (Some (slice.of_list tmp))) (set_next m [-1])));
        let '(cnt, s) := r in
        mret (pattern_discard, if unenough then cnt else cnt + 1, set_pattern s false)
      else if h =? -1 then
        let send := negb unenough || stream.cansendpattern m in
        Ok (if send then pattern_discard else [], if send then 1 else 0,
            set_pattern (stream.set_write s (stream.writeOffset s) None) false)
      else Ok ([], 0, s)
  end.

(** Bandwidth is enough again: up to the next header, data is still dropped. *)
Definition discard_end (s : stream.t) (d : slice.t) : res stream.t :=
  let m := stream.marks s in
  match stream.NextHeaderOff m with
  | [] => Panic
  | h :: rest =>
      if 0 <=? h then drop_before s d (if 0 <=? stream.I_startinx m then 0 else stream.I_startinx m) h rest
      else if h =? -1 then Ok (stream.set_write s (stream.writeOffset s) None)
      else Ok s
  end.

(** [lackbw]: the monitor's; [unenough]: [Flag_bw_unenough] of the scheduler, which the call may
    change. *)
Definition Discard (IPriority lackbw : bool) (s : stream.t) (d : slice.t) (maxLen : Z) (unenough : bool)
  : res (list Z * Z * stream.t * bool) :=
  let marked (s : stream.t) := match stream.NextHeaderOff (stream.marks s) with h :: _ => negb (h =? -3) | [] => false end in
  r ← (if IPriority && lackbw && marked s then
         '(pattern, cnt, s) ← discard_short s d maxLen unenough; mret (pattern, cnt, s, unenough)
       else if IPriority && negb lackbw && unenough then
         s ← discard_end s d; mret ([], 0, s, false)
       else mret ([], 0, s, unenough));
  let '(pattern, cnt, s, unenough) := r in
  mret (pattern, cnt, s, if IPriority && lackbw && marked s && negb unenough then true else unenough).

(** The marks after [maxLen] bytes, and the priority of the frame, if it is set. *)
Definition move_marks (m : stream.marks_t) (maxLen : Z) : stream.marks_t * option bool :=
  let n := i64 maxLen in
  let start := stream.I_startinx m in
  let end_ := stream.I_endinx m in
  let next := match map (fun x => x - n) (List.filter (fun x => n <? x) (stream.NextHeaderOff m)) with [] => [-1] | l => l end in
  let set a b h := stream.MkMarks a b (stream.Iframecount m) h next (stream.cansendpattern m) in
  if (start =? -1) && (end_ =? -1) then (set start end_ (stream.hasI m), Some false)
  else if (-2 <=? start) && (start <? n) then
    if end_ =? -1 then (set (-2) end_ (stream.hasI m), Some true)
    else if end_ <? n then (set (-1) (-1) false, Some true)
    else (set 0 (end_ - n) (stream.hasI m), Some true)
  else if n <=? start then
    if end_ =? -1 then (set (start - n) end_ (stream.hasI m), Some false)
    else if end_ =? -2 then (set (-1) (-1) false, Some false)
    else (set start (end_ - n) (stream.hasI m), Some false)
  else (set start end_ (stream.hasI m), None).

(** ** Taking data for a frame *)

Definition bytes_of (r : option slice.t) : list Z := match r with Some d => slice.contents d | None => [] end.

Definition add_offset (s : stream.t) (n : Z) : stream.t := stream.set_write s (u64 (stream.writeOffset s + n)) (stream.dataForWriting s).

(** [cnt] headers, each followed by the pattern. *)
Fixpoint header_loop (cnt : nat) (s : stream.t) (pattern data : list Z) (maxLen : Z) : res (list Z * Z) * stream.t :=
  match cnt with
  | O => (Ok (data, maxLen), s)
  | S cnt =>
      match stream.getDataForWriting s headerlen with
      | (Ok r, s) => header_loop cnt (add_offset s (Z.of_nat (length pattern))) pattern (data ++ bytes_of r ++ pattern) (u64 (maxLen - headerlen))
      | (_, s) => (Panic, s)
      end
  end.

(** The data, [None] is nil, and the length the marks are moved by. *)
Definition with_pattern (s : stream.t) (pattern : list Z) (cnt maxLen : Z) : res (option (list Z) * Z) * stream.t :=
  let first s :=
    match stream.getDataForWriting s maxLen with
    | (Ok r, s) => (Ok (pattern ++ bytes_of r), add_offset s (Z.of_nat (length pattern)))
    | (_, s) => (Panic, s)
    end in
  if cnt =? -1 then
    let '(r, s) := first s in
    let! data := r at s in (Ok (Some data, maxLen), s)
  else if 0 <? cnt then
    let len := match stream.dataForWriting s with Some d => slice.len d | None => 0 end in
    let '(r, s) := if Z.quot len headerlen <? cnt then first s else (Ok [], s) in
    let! data := r at s in
    let '(r, s) := header_loop (Z.to_nat (if Z.quot len headerlen <? cnt then cnt - 1 else cnt)) s pattern data maxLen in
    let! x := r at s in (Ok (Some x.1, x.2), s)
  else
    let '(r, s) := stream.getDataForWriting s maxLen in
    let! r := r at s in (Ok (slice.contents <$> r, maxLen), s).

Definition set_priority (frame : StreamFrame.t) (p : option bool) : StreamFrame.t :=
  match p with
  | None => frame
  | Some p => StreamFrame.Mk (StreamFrame.StreamID frame) (StreamFrame.FinBit frame) (StreamFrame.DataLenPresent frame)
                (StreamFrame.Offset frame) (StreamFrame.Data frame) (StreamFrame.Rcvpkttime frame) p
  end.

(** What is taken from a stream: the data, the stream, the frame's priority and
    [Flag_bw_unenough]. *)
Definition taking : Type := stream.t -> Z -> bool -> res (option (list Z) * option bool * bool) * stream.t.

Definition take_normal (IPriority lackbw : bool) : taking := fun s maxLen unenough =>
  match stream.dataForWriting s with
  | None => (Panic, s)
  | Some d =>
      let! x := Discard IPriority lackbw s d maxLen unenough at s in
      let '(pattern, cnt, s, unenough) := x in
      let '(r, s) := with_pattern s pattern cnt maxLen in
      let! x := r at s in
      let '(m, priority) := move_marks (stream.marks s) x.2 in
      (Ok (x.1, priority, unenough), stream.set_marks s m)
  end.

Definition take_STMS (gap : Z) : taking := fun s maxLen unenough =>
  let '(r, s) := stream.getDataForWritingSTMS s maxLen gap in
  let! r := r at s in (Ok (slice.contents <$> r, None, unenough), s).

(** ** New frames *)

(** The state of an iteration. *)
Record pop_t : Type := MkPop {
  frame_t : StreamFrame.t;
  currentLen : Z;
  res_ : list StreamFrame.t;
  pflow : flowControlManager.t;
  blocked : list BlockedFrame.t;
  unenough : bool;                   (* [Flag_bw_unenough] *)
}.

Definition new_frame : StreamFrame.t := StreamFrame.Mk 0 false true 0 [] 0 false.

Definition put (m : streams_t) (id : Z) (s : stream.t) : streams_t :=
  streamsMap.Mk (streamsMap.perspective m) (<[id := s]> (streamsMap.streams m)) (streamsMap.openStreams m) (streamsMap.roundRobinIndex m)
    (streamsMap.nextStream m) (streamsMap.highestStreamOpenedByPeer m) (streamsMap.closeErr m) (streamsMap.nextStreamToAccept m)
    (streamsMap.numOutgoingStreams m) (streamsMap.numIncomingStreams m).

Section Pop.
Context (params : Params) (offset : stream.t -> Z) (take_ : taking) (maxBytes : Z).

(** [SendWindowSize], zero on an error. *)
Definition window (fl : flowControlManager.t) (id : Z) : Z :=
  match flowControlManager.SendWindowSize params fl id with Ok w => w | _ => 0 end.

(** The frame is made and counted. *)
Definition emit (id : Z) (s : stream.t) (frame : StreamFrame.t) (data : option (list Z)) (sendWindowSize : Z) (m : streams_t) (x : pop_t)
  : res bool * (streams_t * pop_t) :=
  let fin := stream.shouldSendFin s in
  if stream.isNone data && negb fin
  then (Ok true, (put m id s, MkPop frame (currentLen x) (res_ x) (pflow x) (blocked x) (unenough x)))
  else
    let s := if fin then stream.sentFin s else s in
    let data := default [] data in
    let frame := StreamFrame.Mk (StreamFrame.StreamID frame) (fin || StreamFrame.FinBit frame) (StreamFrame.DataLenPresent frame)
                   (StreamFrame.Offset frame) data (StreamFrame.Rcvpkttime frame) (StreamFrame.Priority frame) in
    let fl := (flowControlManager.AddBytesSent (pflow x) id (Z.of_nat (length data))).2 in
    let bq := if flowControlManager.RemainingConnectionWindowSize params fl =? 0 then blocked x ++ [BlockedFrame.Mk 0]
              else if negb (StreamFrame.FinBit frame) && (u64 (sendWindowSize - StreamFrame.DataLen frame) =? 0) then blocked x ++ [BlockedFrame.Mk id]
              else blocked x in
    let len := u64 (currentLen x + u64 (StreamFrame.MinLength frame + StreamFrame.DataLen frame)) in
    let more := negb (len =? maxBytes) in
    (Ok more, (put m id s, MkPop (if more then new_frame else frame) len (res_ x ++ [frame]) fl bq (unenough x))).

Definition pop_stream (_ : Z) (s : stream.t) (st : streams_t * pop_t) : res bool * (streams_t * pop_t) :=
  let '(m, x) := st in
  let id := stream.streamID s in
  if id =? 1 then (Ok true, st)
  else
    let fr := frame_t x in
    let frame := StreamFrame.Mk id (StreamFrame.FinBit fr) (StreamFrame.DataLenPresent fr) (offset s) (StreamFrame.Data fr)
                   (StreamFrame.Rcvpkttime fr) (StreamFrame.Priority fr) in
    let x := MkPop frame (currentLen x) (res_ x) (pflow x) (blocked x) (unenough x) in
    let header := StreamFrame.MinLength frame in
    if maxBytes <? u64 (currentLen x + header) then (Ok false, (m, x))
    else
      let maxLen := u64 (u64 (maxBytes - currentLen x) - header) in
      let lenStreamData := stream.lenOfDataForWriting s in
      let sendWindowSize := if lenStreamData =? 0 then 0 else window (pflow x) id in
      let maxLen := if lenStreamData =? 0 then maxLen else Z.min maxLen sendWindowSize in
      if maxLen =? 0 then (Ok true, (m, x))
      else if lenStreamData =? 0 then emit id s frame None sendWindowSize m x
      else
        match take_ s maxLen (unenough x) with
        | (Ok (data, priority, ue), s) =>
            emit id s (set_priority frame priority) data sendWindowSize m
              (MkPop frame (currentLen x) (res_ x) (pflow x) (blocked x) ue)
        | (_, s) => (Panic, (put m id s, x))
        end.

(** The error of the iteration is ignored. *)
Definition pop_new (f : t) (ue : bool) : res (list StreamFrame.t) * (t * bool) :=
  let '(r, (m, x)) := streamsMap.RoundRobinIterate pop_stream (smap f, MkPop new_frame 0 [] (flow f) (blockedFrameQueue f) ue) in
  (match r with Panic => Panic | _ => Ok (res_ x) end,
   (Mk m (pflow x) (retransmissionQueue f) (blocked x) (addAddressFrameQueue f) (closePathFrameQueue f) (pathsFrame f) (retransbytes f), unenough x)).

End Pop.

Definition maybePopNormalFrames (params : Params) (IPriority lackbw : bool) (f : t) (maxBytes : Z) (ue : bool) : res (list StreamFrame.t) * (t * bool) :=
  pop_new params stream.writeOffset (take_normal IPriority lackbw) maxBytes f ue.

Definition maybePopNormalFramesSTMS (params : Params) (f : t) (maxBytes gap : Z) (ue : bool) : res (list StreamFrame.t) * (t * bool) :=
  pop_new params (fun s => stms_offset s gap) (take_STMS gap) maxBytes f ue.

Definition PopStreamFrames (params : Params) (IPriority lackbw : bool) (f : t) (maxLen : Z) (ue : bool) : res (list StreamFrame.t) * (t * bool) :=
  let '(fs, len, f) := maybePopFramesForRetransmission f maxLen in
  let '(r, st) := maybePopNormalFrames params IPriority lackbw f (u64 (maxLen - len)) ue in
  (new ← r; mret (fs ++ new), st).

Definition PopStreamFramesSTMS (params : Params) (f : t) (maxLen gap : Z) (ue : bool) : res (list StreamFrame.t) * (t * bool) :=
  let '(fs, len, f) := maybePopFramesForRetransmission f maxLen in
  let '(r, st) := maybePopNormalFramesSTMS params f (u64 (maxLen - len)) gap ue in
  (new ← r; mret (fs ++ new), st).

(** ** The crypto stream *)

(** A nil stream panics; [None]: the call that opens the stream has not ended. *)
Definition crypto_stream (maxIncoming : Z) (f : t) : option (res stream.t * t) :=
  match streamsMap.GetOrOpenStream stream.newStream maxIncoming (smap f) 1 with
  | Some (Ok (Some cs), m) => Some (Ok cs, set_smap f m)
  | Some (_, m) => Some (Panic, set_smap f m)
  | None => None
  end.

Definition HasCryptoStreamFrame (maxIncoming : Z) (f : t) : option (res bool * t) :=
  match crypto_stream maxIncoming f with
  | Some (r, f) => Some (cs ← r; mret (0 <? stream.lenOfDataForWriting cs), f)
  | None => None
  end.

Definition PopCryptoStreamFrame (maxIncoming : Z) (f : t) (maxLen : Z) : option (res (option StreamFrame.t) * t) :=
  match HasCryptoStreamFrame maxIncoming f with
  | Some (Ok true, f) =>
      match crypto_stream maxIncoming f with
      | Some (Ok cs, f) =>
          let frame := StreamFrame.Mk 1 false false (stream.writeOffset cs) [] 0 false in
          let '(r, cs) := stream.getDataForWriting cs (u64 (maxLen - StreamFrame.MinLength frame)) in
          Some (r ← r; mret (Some (StreamFrame.Mk 1 false false (StreamFrame.Offset frame) (bytes_of r) 0 false)),
                set_smap f (put (smap f) 1 cs))
      | Some (_, f) => Some (Panic, f)
      | None => None
      end
  | Some (Ok false, f) => Some (Ok None, f)
  | Some (Err e, f) => Some (Err e, f)
  | Some (Panic, f) => Some (Panic, f)
  | None => None
  end.

End streamFramer.
