(* ===== verification/FramerFacts.v ===== *)
(** * What the stream framer sends

    The theorems about [stream_framer.go], over the streams, the streams map and flow control:
    the frames fit into the packet; in order they carry the bytes of their streams, every byte
    once, with the FIN at the end; and what is sent stays within the peer's windows.  Over
    several paths (STMS) the last two fail. *)

From stdpp Require Import base numbers list option strings gmap.
From S2P Require Import Prelude PublicHeader StreamFrame ControlFrames FlowControl FrameSorter StreamsMap GoSlice Stream StreamRead StreamSTMS StreamFramer.
Import streamFramer.

Local Open Scope Z_scope.
#[local] Existing Instance StreamFrame.t_eq_dec.

(** ** Iterations *)

Section Iterate.
Context {S X : Type} (fn : Z -> S -> streamsMap.t S * X -> res bool * (streamsMap.t S * X)) (n : nat).
Context (P : streamsMap.t S * X -> Prop).
Hypothesis P_map : forall st, P st -> length (streamsMap.openStreams st.1) = n /\ size (streamsMap.streams st.1) = n
  /\ forall id, id ∈ streamsMap.openStreams st.1 -> is_Some (streamsMap.streams st.1 !! id).
Hypothesis P_index : forall st i, P st -> P (streamsMap.set_index st i).
Hypothesis P_fn : forall id s st, P st -> streamsMap.streams st.1 !! id = Some s -> exists b st', fn id s st = (Ok b, st') /\ P st'.

Lemma priority_invariant ids st : P st -> exists b st', streamsMap.priority_loop fn ids st = (Ok b, st') /\ P st'.
Proof.
  revert st. induction ids as [|id ids IH]; intros st Hp; cbn [streamsMap.priority_loop]; [eauto|].
  unfold streamsMap.iterateFunc. destruct (streamsMap.streams st.1 !! id) as [s|] eqn:E.
  - destruct (P_fn id s st Hp E) as (b & st' & -> & Hp'). destruct b; [auto|eauto].
  - rewrite !decide_True by done. auto.
Qed.

Lemma rr_invariant k i start st :
  P st -> exists st', streamsMap.rr_loop fn k i (Z.of_nat n) start st = (Ok tt, st') /\ P st' \/ n = 0%nat.
Proof.
  intros Hp. destruct (decide (n = 0%nat)) as [|Hn]; [exists st; by right|].
  assert (exists st', streamsMap.rr_loop fn k i (Z.of_nat n) start st = (Ok tt, st') /\ P st') as (st' & ?); [|eauto].
  revert i st Hp. induction k as [|k IH]; intros i st Hp; cbn [streamsMap.rr_loop]; [eauto|].
  destruct (P_map st Hp) as (H1 & H2 & H3). pose proof (Z.mod_pos_bound (u32 (i + start)) (Z.of_nat n) ltac:(lia)).
  destruct (lookup_lt_is_Some_2 (streamsMap.openStreams st.1) (Z.to_nat (u32 (i + start) mod Z.of_nat n)) ltac:(lia)) as [id Hid].
  rewrite Hid. destruct ((id =? 1) || (id =? 3)); [auto|].
  destruct (H3 id (list_elem_of_lookup_2 _ _ _ Hid)) as [s Hs]. unfold streamsMap.iterateFunc. rewrite Hs.
  destruct (P_fn id s st Hp Hs) as (b & st' & -> & Hp'). destruct b; [auto|eauto].
Qed.

(** What a function keeps, the iteration keeps; and it ends without an error. *)
Lemma round_robin_invariant st : P st -> exists st', streamsMap.RoundRobinIterate fn st = (Ok tt, st') /\ P st'.
Proof.
  intros Hp. unfold streamsMap.RoundRobinIterate. destruct (priority_invariant [1; 3] st Hp) as (b & st1 & -> & Hp1).
  destruct (P_map st Hp) as (_ & -> & _). destruct b; [|eauto].
  destruct (P_map st1 Hp1) as (_ & -> & _).
  destruct (rr_invariant n 0 (streamsMap.roundRobinIndex st.1) st1 Hp1) as (st2 & [H| ->]); [eauto|]. cbn. eauto.
Qed.
End Iterate.

(** ** Lengths *)

Definition frame_len (f : StreamFrame.t) : Z := StreamFrame.MinLength f + flen f.
Definition total_len (fs : list StreamFrame.t) : Z := foldr Z.add 0 (map frame_len fs).

Lemma total_len_app a b : total_len (a ++ b) = total_len a + total_len b.
Proof. unfold total_len. rewrite map_app, foldr_app. induction a as [|x a IH]; cbn; [done|]. rewrite IH. lia. Qed.

Lemma total_len_cons f fs : total_len (f :: fs) = frame_len f + total_len fs.
Proof. done. Qed.

(** A frame with its length that has data or a FIN. *)
Definition carries_some (f : StreamFrame.t) : Prop := StreamFrame.Data f <> [] \/ StreamFrame.FinBit f = true.
Definition shaped (f : StreamFrame.t) : Prop := StreamFrame.DataLenPresent f = true /\ carries_some f.

Lemma min_length_range f : 2 <= StreamFrame.MinLength f <= 15.
Proof.
  unfold StreamFrame.MinLength. assert (1 <= StreamFrame.calculateStreamIDLength f <= 4) as H1.
  { unfold StreamFrame.calculateStreamIDLength. repeat case_match; lia. }
  assert (0 <= StreamFrame.getOffsetLength f <= 8) as H2.
  { unfold StreamFrame.getOffsetLength. repeat case_match; lia. }
  rewrite (u64_small (1 + _)) by lia. rewrite (u64_small (_ + StreamFrame.getOffsetLength f)) by lia.
  destruct (StreamFrame.DataLenPresent f); rewrite ?u64_small by lia; lia.
Qed.

(** The header's length depends on the stream, the offset and the presence of the length. *)
Lemma min_length_eq f g :
  StreamFrame.StreamID f = StreamFrame.StreamID g -> StreamFrame.Offset f = StreamFrame.Offset g ->
  StreamFrame.DataLenPresent f = StreamFrame.DataLenPresent g -> StreamFrame.MinLength f = StreamFrame.MinLength g.
Proof.
  intros E1 E2 E3. unfold StreamFrame.MinLength, StreamFrame.calculateStreamIDLength, StreamFrame.getOffsetLength. by rewrite E1, E2, E3.
Qed.

(** ** The frames of one stream *)

Definition own (id : Z) (fs : list StreamFrame.t) : list StreamFrame.t := List.filter (fun f => StreamFrame.StreamID f =? id) fs.
Definition data_of (fs : list StreamFrame.t) : list Z := concat (map StreamFrame.Data fs).

Lemma own_app id a b : own id (a ++ b) = own id a ++ own id b.
Proof. apply List.filter_app. Qed.

Lemma own_snoc id fs f : own id (fs ++ [f]) = if StreamFrame.StreamID f =? id then own id fs ++ [f] else own id fs.
Proof. rewrite own_app. cbn. destruct (_ =? id); [done|by rewrite app_nil_r]. Qed.

Lemma data_of_snoc fs f : data_of (fs ++ [f]) = data_of fs ++ StreamFrame.Data f.
Proof. unfold data_of. rewrite map_app, concat_app. cbn. by rewrite app_nil_r. Qed.

(** ** Flow control *)

Definition data_bytes (id : Z) (fs : list StreamFrame.t) : Z := Z.of_nat (length (data_of (own id fs))).

(** What was sent is counted, and within the windows. *)
Record flow_ok (params : Params) (fs : list StreamFrame.t) (fl : flowControlManager.t) : Prop := {
  fl_stream : forall id c, flowControlManager.streamFlowController fl !! id = Some c ->
    flowController.bytesSent c = data_bytes id fs
    /\ flowController.bytesSent c <= flowController.getSendWindow params c < 2 ^ 62;
  fl_conn : 0 <= flowController.bytesSent (flowControlManager.connFlowController fl)
    <= flowController.getSendWindow params (flowControlManager.connFlowController fl);
  fl_conn_max : flowController.getSendWindow params (flowControlManager.connFlowController fl) < 2 ^ 62;
  fl_zero : flowControlManager.streamFlowController fl !! 0 = None;
}.

Lemma data_bytes_snoc id fs f :
  data_bytes id (fs ++ [f]) = data_bytes id fs + (if StreamFrame.StreamID f =? id then flen f else 0).
Proof.
  unfold data_bytes, flen. rewrite own_snoc. destruct (_ =? id); [|lia]. rewrite data_of_snoc, length_app. lia.
Qed.

Lemma window_spec params fs fl id c :
  flow_ok params fs fl -> flowControlManager.streamFlowController fl !! id = Some c ->
  window params fl id <= flowController.getSendWindow params c - flowController.bytesSent c
  /\ (flowController.contributesToConnection c = true ->
      window params fl id <= flowController.getSendWindow params (flowControlManager.connFlowController fl)
                             - flowController.bytesSent (flowControlManager.connFlowController fl))
  /\ window params fl id < 2 ^ 62.
Proof.
  intros [H1 H2 H3 _] Hc. destruct (H1 id c Hc) as [E1 E2]. unfold window, flowControlManager.SendWindowSize, flowControlManager.getFlowController.
  rewrite Hc. cbn. unfold flowController.SendWindowSize. rewrite !(proj2 (Z.ltb_ge _ _)) by lia.
  assert (0 <= flowController.bytesSent c) by (rewrite E1; unfold data_bytes; lia).
  rewrite !u64_small by lia. destruct (flowController.contributesToConnection c); split_and!; intros; try done; lia.
Qed.

Lemma window_none params fl id :
  flowControlManager.streamFlowController fl !! id = None -> window params fl id = 0.
Proof. intros E. unfold window, flowControlManager.SendWindowSize, flowControlManager.getFlowController. by rewrite E. Qed.

Lemma window_max params fs fl id : flow_ok params fs fl -> window params fl id < 2 ^ 62.
Proof.
  intros Hf. destruct (flowControlManager.streamFlowController fl !! id) as [c|] eqn:E; [by eapply window_spec|].
  rewrite window_none by done. lia.
Qed.

Lemma window_nonneg params fl id : 0 <= window params fl id.
Proof.
  assert (forall c, 0 <= flowController.SendWindowSize params c) as H.
  { intros c. unfold flowController.SendWindowSize, u64. destruct (_ <? _); [done|]. by apply wrap_range. }
  unfold window, flowControlManager.SendWindowSize, flowControlManager.getFlowController.
  destruct (flowControlManager.streamFlowController fl !! id) as [c|]; cbn; [|done].
  pose proof (H c). pose proof (H (flowControlManager.connFlowController fl)). destruct (flowController.contributesToConnection c); lia.
Qed.

(** Sending within the window keeps the account. *)
Lemma flow_emit params fs fl f id :
  flow_ok params fs fl -> StreamFrame.StreamID f = id -> (flen f = 0 \/ flen f <= window params fl id) ->
  flow_ok params (fs ++ [f]) (flowControlManager.AddBytesSent fl id (flen f)).2.
Proof.
  intros Hf Eid Hlen. pose proof Hf as [H1 H2 H3 H4]. assert (0 <= flen f) as Hpos by (unfold flen; lia).
  unfold flowControlManager.AddBytesSent, flowControlManager.on_stream.
  destruct (flowControlManager.streamFlowController fl !! id) as [c|] eqn:Ec; cbn [snd].
  - destruct (window_spec _ _ _ _ _ Hf Ec) as (W1 & W2 & _). destruct (H1 id c Ec) as [E1 E2].
    assert (0 <= data_bytes id fs) by (unfold data_bytes; lia).
    split; cbn [flowControlManager.streamFlowController flowControlManager.connFlowController].
    + intros id' c' [[<- <-]|[Hne Hc']]%lookup_insert_Some.
      * unfold flowController.getSendWindow in *. cbn. rewrite data_bytes_snoc, Eid, Z.eqb_refl, u64_small by lia. lia.
      * rewrite data_bytes_snoc, (proj2 (Z.eqb_neq _ _)), Z.add_0_r by congruence. by apply H1.
    + destruct (flowController.contributesToConnection c); [|done]. specialize (W2 eq_refl).
      unfold flowController.getSendWindow in *. cbn. rewrite u64_small by lia. lia.
    + by destruct (flowController.contributesToConnection c).
    + rewrite lookup_insert_ne by congruence. done.
  - rewrite window_none in Hlen by done. split; [|done..]. intros id' c' Hc'.
    rewrite data_bytes_snoc, (proj2 (Z.eqb_neq _ _)), Z.add_0_r by congruence. by apply H1.
Qed.

(** ** New frames *)

Section Pop.
Context (params : Params) (offset : stream.t -> Z) (take_ : taking) (maxBytes : Z).
Hypothesis maxBytes_range : 0 <= maxBytes < 2 ^ 62.

(** What holds of a stream of which [fs] were sent. *)
Context (Good : list StreamFrame.t -> stream.t -> Prop) (D : gset Z).

(** Data was taken from [s] for a frame, which leaves [s1]. *)
Definition after (fs : list StreamFrame.t) (s : stream.t) (data : option (list Z)) (s1 : stream.t) : Prop :=
  (data = None -> stream.shouldSendFin s1 = false -> Good fs s1)
  /\ forall f, (data <> None \/ stream.shouldSendFin s1 = true) ->
     StreamFrame.StreamID f = stream.streamID s -> StreamFrame.Offset f = offset s -> StreamFrame.Data f = default [] data ->
     StreamFrame.FinBit f = stream.shouldSendFin s1 -> Good (fs ++ [f]) (if stream.shouldSendFin s1 then stream.sentFin s1 else s1).

Hypothesis take_good : forall fs s n ue, Good fs s -> stream.lenOfDataForWriting s <> 0 -> 0 < n < 2 ^ 62 ->
  exists data pr s1, take_ s n ue = (Ok (data, pr, ue), s1) /\ stream.streamID s1 = stream.streamID s
    /\ Z.of_nat (length (default [] data)) <= n /\ data <> Some [] /\ after fs s data s1.
Hypothesis none_good : forall fs s, Good fs s -> stream.lenOfDataForWriting s = 0 -> after fs s None s.

(** [old]: the frames sent before the iteration. *)
Record pop_inv (n : nat) (old : list StreamFrame.t) (st : streams_t * pop_t) : Prop := {
  pi_map : length (streamsMap.openStreams st.1) = n /\ size (streamsMap.streams st.1) = n
    /\ forall id, id ∈ streamsMap.openStreams st.1 -> is_Some (streamsMap.streams st.1 !! id);
  pi_streams : forall id s, streamsMap.streams st.1 !! id = Some s ->
    stream.streamID s = id /\ Good (own id (old ++ res_ st.2)) s;
  pi_flow : flow_ok params (old ++ res_ st.2) (pflow st.2);
  pi_len : currentLen st.2 = total_len (res_ st.2) /\ 0 <= currentLen st.2 <= maxBytes;
  pi_frame : StreamFrame.DataLenPresent (frame_t st.2) = true
    /\ (StreamFrame.FinBit (frame_t st.2) = false \/ currentLen st.2 = maxBytes);
  pi_shape : Forall shaped (res_ st.2);
  pi_fixed : dom (streamsMap.streams st.1) = D /\ unenough st.2 = false
    /\ Forall (fun b => BlockedFrame.StreamID b = 0 \/ BlockedFrame.StreamID b ∈ D) (blocked st.2);
  pi_ids : Forall (fun f => is_Some (streamsMap.streams st.1 !! StreamFrame.StreamID f)) (old ++ res_ st.2);
}.

Lemma put_streams n m id s s' :
  streamsMap.streams m !! id = Some s ->
  (length (streamsMap.openStreams m) = n /\ size (streamsMap.streams m) = n
    /\ forall id, id ∈ streamsMap.openStreams m -> is_Some (streamsMap.streams m !! id)) ->
  length (streamsMap.openStreams (put m id s')) = n /\ size (streamsMap.streams (put m id s')) = n
    /\ forall id0, id0 ∈ streamsMap.openStreams (put m id s') -> is_Some (streamsMap.streams (put m id s') !! id0).
Proof.
  intros E (H1 & H2 & H3). cbn. split; [done|]. split; [by rewrite map_size_insert_Some by (rewrite E; eauto)|].
  intros id0 H0. destruct (decide (id = id0)) as [->|]; [by rewrite lookup_insert_eq|]. rewrite lookup_insert_ne by done. auto.
Qed.

Lemma put_dom m id s s' : streamsMap.streams m !! id = Some s -> dom (streamsMap.streams (put m id s')) = dom (streamsMap.streams m).
Proof. intros E. cbn. apply dom_insert_lookup_L. eauto. Qed.

Lemma put_present m id s' id' : is_Some (streamsMap.streams m !! id') -> is_Some (streamsMap.streams (put m id s') !! id').
Proof. intros H. cbn. destruct (decide (id = id')) as [->|]; [by rewrite lookup_insert_eq|by rewrite lookup_insert_ne]. Qed.

(** The stream that is visited may change, if the others' frames do not. *)
Lemma streams_after m id s s' old new :
  streamsMap.streams m !! id = Some s -> stream.streamID s' = id ->
  Good (own id (old ++ new)) s' ->
  (forall id' s0, id' <> id -> streamsMap.streams m !! id' = Some s0 -> stream.streamID s0 = id' /\ Good (own id' (old ++ new)) s0) ->
  forall id' s0, streamsMap.streams (put m id s') !! id' = Some s0 -> stream.streamID s0 = id' /\ Good (own id' (old ++ new)) s0.
Proof. intros E Ei Hg Ho id' s0. cbn. intros [[<- <-]|[Hne H0]]%lookup_insert_Some; auto. Qed.

Lemma emit_inv n old m x id s s1 frame data w :
  pop_inv n old (m, x) -> streamsMap.streams m !! id = Some s -> stream.streamID s1 = id ->
  StreamFrame.StreamID frame = id -> StreamFrame.Offset frame = offset s -> StreamFrame.DataLenPresent frame = true ->
  StreamFrame.FinBit frame = false ->
  currentLen x + StreamFrame.MinLength frame + Z.of_nat (length (default [] data)) <= maxBytes -> data <> Some [] ->
  (length (default [] data) = 0%nat \/ Z.of_nat (length (default [] data)) <= window params (pflow x) id) ->
  after (own id (old ++ res_ x)) s data s1 ->
  exists b st', emit params maxBytes id s1 frame data w m (MkPop frame (currentLen x) (res_ x) (pflow x) (blocked x) (unenough x)) = (Ok b, st')
    /\ pop_inv n old st'.
Proof.
  intros Hi E Ei F1 F2 F3 F4 Hlen Hdne Hw [A1 A2]. pose proof Hi as [I1 I2 I3 [I4 I4'] I5 I7 I8 I6]. cbn [fst snd] in *.
  pose proof (put_dom m id s s1 E) as Hd1. pose proof (put_dom m id s (stream.sentFin s1) E) as Hd2.
  destruct (I2 id s E) as [Eid Hg]. unfold emit. cbn [currentLen res_ pflow blocked unenough].
  destruct (stream.isNone data && negb (stream.shouldSendFin s1)) eqn:Enone.
  - apply andb_true_iff in Enone as [En Ef]. apply negb_true_iff in Ef. destruct data; [done|].
    eexists _, _. split; [done|]. split; cbn [fst snd currentLen res_ pflow frame_t]; try done.
    + by eapply put_streams.
    + eapply streams_after; [done|done|auto|]. intros id' s0 _ H0. by apply I2.
    + auto.
    + cbn [unenough]. destruct I8 as (<- & ? & ?). done.
    + eapply Forall_impl; [exact I6|]. intros f. apply put_present.
  - set (f := StreamFrame.Mk _ _ _ _ _ _ _). assert (Z.of_nat (length (default [] data)) = flen f) as Efl by done.
    assert (StreamFrame.MinLength f = StreamFrame.MinLength frame) as Emin by (by apply min_length_eq).
    pose proof (min_length_range frame) as Hmr. assert (0 <= flen f) by (unfold flen; lia).
    assert (StreamFrame.DataLen f = flen f) as Ed by (unfold StreamFrame.DataLen; apply u64_small; unfold flen in *; lia).
    rewrite Ed, Emin, (u64_small (StreamFrame.MinLength frame + _)), (u64_small (currentLen x + _)) by lia.
    eexists _, _. split; [done|]. split; cbn [fst snd currentLen res_ pflow frame_t].
    + by eapply put_streams.
    + rewrite app_assoc. eapply streams_after; [done|by destruct (stream.shouldSendFin s1)| |].
      * rewrite own_snoc. cbn [StreamFrame.StreamID f]. rewrite F1, Z.eqb_refl. apply A2; try done.
        -- apply andb_false_iff in Enone as [En|Ef%negb_false_iff]; [left; by destruct data|by right].
        -- by rewrite Eid.
        -- cbn. by rewrite F4, orb_false_r.
      * intros id' s0 Hne H0. rewrite own_snoc. cbn [StreamFrame.StreamID f]. rewrite F1, (proj2 (Z.eqb_neq _ _)) by done. by apply I2.
    + rewrite app_assoc, Efl. apply flow_emit; [done|done|]. rewrite <- Efl. lia.
    + rewrite total_len_app. unfold total_len at 2. cbn [map foldr]. unfold frame_len. rewrite Emin. split; lia.
    + destruct (Z.eqb_spec (currentLen x + (StreamFrame.MinLength frame + flen f)) maxBytes); cbn; auto.
    + apply Forall_app. split; [done|]. constructor; [|done]. split; [done|]. unfold carries_some. cbn.
      destruct data as [[|b l]|]; [done|by left|]. right. by destruct (stream.shouldSendFin s1).
    + cbn [unenough blocked]. destruct I8 as (<- & ? & I8). split; [by destruct (stream.shouldSendFin s1)|]. split; [done|].
      assert (id ∈ dom (streamsMap.streams m)) by (apply elem_of_dom; eauto).
      destruct (flowControlManager.RemainingConnectionWindowSize _ _ =? 0); [|destruct (_ && (_ =? 0)); [|exact I8]];
        (apply Forall_app; split; [exact I8|apply Forall_singleton; auto]).
    + rewrite app_assoc. apply Forall_app. split; [eapply Forall_impl; [exact I6|]; intros g; apply put_present|].
      constructor; [|done]. cbn. rewrite F1, lookup_insert_eq. done.
Qed.

Lemma pop_stream_inv n old id s st :
  pop_inv n old st -> streamsMap.streams st.1 !! id = Some s ->
  exists b st', pop_stream params offset take_ maxBytes id s st = (Ok b, st') /\ pop_inv n old st'.
Proof.
  destruct st as [m x]. cbn [fst]. intros Hi E. pose proof Hi as [I1 I2 I3 [I4 I4'] [I5 I5'] I7 I8 I6]. cbn [fst snd] in *.
  destruct (I2 id s E) as [Eid Hg]. unfold pop_stream. rewrite Eid. destruct (id =? 1); [eauto|].
  cbn [currentLen res_ pflow blocked unenough]. set (frame := StreamFrame.Mk _ _ _ _ _ _ _).
  pose proof (min_length_range frame) as Hmr. rewrite (u64_small (currentLen x + _)) by lia.
  assert (StreamFrame.FinBit frame = false -> pop_inv n old (m, MkPop frame (currentLen x) (res_ x) (pflow x) (blocked x) (unenough x))) as Hsame.
  { intros Hf. split; cbn [fst snd currentLen res_ pflow frame_t]; auto. }
  destruct (Z.ltb_spec maxBytes (currentLen x + StreamFrame.MinLength frame)) as [Hfull|Hroom].
  { eexists _, _. split; [done|]. split; cbn [fst snd currentLen res_ pflow frame_t]; auto. }
  assert (StreamFrame.FinBit frame = false) as Hf by (destruct I5' as [H5|]; [exact H5|lia]).
  rewrite (u64_small (maxBytes - _)), (u64_small (maxBytes - currentLen x - _)) by lia.
  destruct (Z.eqb_spec (stream.lenOfDataForWriting s) 0) as [E0|Hne].
  - destruct (Z.eqb_spec (maxBytes - currentLen x - StreamFrame.MinLength frame) 0) as [|Hm]; [eauto|].
    eapply emit_inv; try done; [by cbn; lia|by left|]. by apply none_good.
  - pose proof (window_max _ _ _ id I3). set (w := window params (pflow x) id) in *.
    destruct (Z.eqb_spec (Z.min (maxBytes - currentLen x - StreamFrame.MinLength frame) w) 0) as [|Hm]; [eauto|].
    destruct (take_good (own id (old ++ res_ x)) s (Z.min (maxBytes - currentLen x - StreamFrame.MinLength frame) w) (unenough x) Hg Hne)
      as (data & pr & s1 & -> & Eid1 & Hlen & Hdne & Ha); [|].
    { pose proof (window_nonneg params (pflow x) id) as Hw0. fold w in Hw0. lia. }
    edestruct (emit_inv n old m x id s s1 (set_priority frame pr) data w) as (b & st' & Hemit & Hi'); try done.
    + by rewrite Eid1.
    + by destruct pr.
    + by destruct pr.
    + by destruct pr.
    + by destruct pr.
    + replace (StreamFrame.MinLength (set_priority frame pr)) with (StreamFrame.MinLength frame) by (by destruct pr). lia.
    + right. fold w. lia.
    + exists b, st'. split; [|done]. rewrite <- Hemit. by destruct pr.
Qed.

(** ** A whole iteration *)

Lemma pop_new_ok n old f :
  pop_inv n old (smap f, MkPop new_frame 0 [] (flow f) (blockedFrameQueue f) false) ->
  exists new f', pop_new params offset take_ maxBytes f false = (Ok new, (f', false)) /\ dom (streamsMap.streams (smap f')) = D
    /\ Forall (fun b => BlockedFrame.StreamID b = 0 \/ BlockedFrame.StreamID b ∈ D) (blockedFrameQueue f')
    /\ total_len new <= maxBytes /\ flow_ok params (old ++ new) (flow f')
    /\ (length (streamsMap.openStreams (smap f')) = n /\ size (streamsMap.streams (smap f')) = n
        /\ forall id, id ∈ streamsMap.openStreams (smap f') -> is_Some (streamsMap.streams (smap f') !! id))
    /\ (forall id s, streamsMap.streams (smap f') !! id = Some s -> stream.streamID s = id /\ Good (own id (old ++ new)) s)
    /\ retransmissionQueue f' = retransmissionQueue f /\ Forall shaped new /\ Forall (fun f => is_Some (streamsMap.streams (smap f') !! StreamFrame.StreamID f)) (old ++ new).
Proof.
  intros Hi. destruct (round_robin_invariant (pop_stream params offset take_ maxBytes) n (pop_inv n old)) with (4 := Hi) as ([m x] & E & Hi').
  - intros st [H _ _ _ _ _ _ _]. exact H.
  - intros [m0 x0] i [H1 H2 H3 H4 H5 H6 H7 H8]. split; done.
  - intros id s st. apply pop_stream_inv.
  - unfold pop_new. rewrite E. destruct Hi' as [I1 I2 I3 [I4 I4'] I5 I7 (I8 & I9 & I10) I6]. cbn [fst snd] in *.
    eexists _, _. rewrite I9. split; [done|]. cbn. split_and!; try done; try lia; apply I1.
Qed.
End Pop.

(** ** Retransmissions *)

(** The bytes of frames with their places, and where their FINs are. *)
Definition frame_bytes (f : StreamFrame.t) : list (Z * Z * Z) :=
  imap (fun i b => (StreamFrame.StreamID f, StreamFrame.Offset f + Z.of_nat i, b)) (StreamFrame.Data f).
Definition bytes (fs : list StreamFrame.t) : list (Z * Z * Z) := concat (map frame_bytes fs).
Definition fin_of (f : StreamFrame.t) : list (Z * Z) :=
  if StreamFrame.FinBit f then [(StreamFrame.StreamID f, StreamFrame.Offset f + flen f)] else [].
Definition fins (fs : list StreamFrame.t) : list (Z * Z) := concat (map fin_of fs).

Lemma bytes_app a b : bytes (a ++ b) = bytes a ++ bytes b.
Proof. unfold bytes. by rewrite map_app, concat_app. Qed.
Lemma fins_app a b : fins (a ++ b) = fins a ++ fins b.
Proof. unfold fins. by rewrite map_app, concat_app. Qed.
Lemma bytes_cons f fs : bytes (f :: fs) = frame_bytes f ++ bytes fs.
Proof. done. Qed.
Lemma fins_cons f fs : fins (f :: fs) = fin_of f ++ fins fs.
Proof. done. Qed.

Definition bounded (f : StreamFrame.t) : Prop := StreamFrame.Data f <> [] -> 0 <= StreamFrame.Offset f /\ StreamFrame.Offset f + flen f < 2 ^ 62.

Lemma bounded_len f : bounded f -> StreamFrame.DataLen f = flen f.
Proof.
  intros H. unfold StreamFrame.DataLen, flen in *. apply u64_small. destruct (StreamFrame.Data f) eqn:E; [done|].
  rewrite <- E in *. unfold bounded, flen in H. destruct H; [by rewrite E|]. lia.
Qed.

(** A frame is split into two with the same bytes and the same FIN. *)
Lemma split_spec f n first rest :
  bounded f -> 0 <= n -> maybeSplitOffFrame f n = Some (first, rest) ->
  flen first = n /\ frame_bytes f = frame_bytes first ++ frame_bytes rest /\ fin_of f = fin_of first ++ fin_of rest
  /\ StreamFrame.MinLength first = StreamFrame.MinLength f /\ StreamFrame.StreamID first = StreamFrame.StreamID f.
Proof.
  intros Hb Hn. unfold maybeSplitOffFrame. rewrite (bounded_len f Hb). destruct (Z.leb_spec (flen f) n) as [|Hlt]; [done|].
  intros [= <- <-]. destruct Hb as [Ho He]; [intros E; unfold flen in Hlt; rewrite E in Hlt; cbn in Hlt; lia|].
  assert (Z.of_nat (length (take (Z.to_nat n) (StreamFrame.Data f))) = n) as Hl by (unfold flen in Hlt; rewrite length_take; lia).
  split; [done|]. split_and!; [| |by apply min_length_eq|done].
  - unfold frame_bytes. cbn. rewrite <- (take_drop (Z.to_nat n) (StreamFrame.Data f)) at 1. rewrite imap_app. f_equal.
    apply imap_ext. intros i b _. cbn. rewrite u64_small by lia. f_equal. f_equal. lia.
  - unfold fin_of, flen. cbn. destruct (StreamFrame.FinBit f); [|done]. rewrite u64_small, length_drop by lia.
    cbn. f_equal. f_equal. unfold flen in Hlt. lia.
Qed.

Lemma split_shape f n first rest :
  bounded f -> 0 < n -> maybeSplitOffFrame (with_length f) n = Some (first, rest) ->
  StreamFrame.DataLenPresent first = true /\ carries_some first /\ carries_some rest.
Proof.
  intros Hb Hn. unfold maybeSplitOffFrame. rewrite (bounded_len (with_length f) Hb).
  destruct (Z.leb_spec (flen (with_length f)) n) as [|Hlt]; [done|]. intros [= <- <-]. split; [done|]. unfold flen in Hlt. cbn in Hlt.
  split; left; cbn; intros E; apply (f_equal length) in E; [rewrite length_take in E|rewrite length_drop in E]; cbn in E; lia.
Qed.

Lemma unsplit f n : bounded f -> maybeSplitOffFrame f n = None -> flen f <= n.
Proof. intros Hb. unfold maybeSplitOffFrame. rewrite (bounded_len f Hb). by destruct (Z.leb_spec (flen f) n). Qed.

Lemma flow_retrans params fs fl id n : flow_ok params fs fl -> flow_ok params fs (flowControlManager.AddBytesRetrans fl id n).2.
Proof.
  intros [H1 H2 H3 H4]. unfold flowControlManager.AddBytesRetrans, flowControlManager.on_stream.
  destruct (flowControlManager.streamFlowController fl !! id) as [c|] eqn:Ec; cbn [snd]; [|done].
  split; cbn [flowControlManager.streamFlowController flowControlManager.connFlowController].
  - intros id' c' [[<- <-]|[Hne Hc']]%lookup_insert_Some; [|by apply H1]. by destruct (H1 id c Ec).
  - by destruct (flowController.contributesToConnection c).
  - by destruct (flowController.contributesToConnection c).
  - rewrite lookup_insert_ne by congruence. done.
Qed.

(** The frames to be sent again fit, and together with those that stay they have the bytes and
    the FINs of the queue, in order. *)
Lemma retrans_spec q : forall maxLen cur fl res len rest fl',
  Forall bounded q -> 0 <= cur <= maxLen -> maxLen < 2 ^ 62 -> retrans_loop q maxLen cur fl = (res, len, rest, fl') ->
  len = cur + total_len res /\ len <= maxLen /\ bytes q = bytes res ++ bytes rest /\ fins q = fins res ++ fins rest
  /\ (forall params fs, flow_ok params fs fl -> flow_ok params fs fl')
  /\ (cur + 16 <= maxLen -> q <> [] -> res <> [])
  /\ (Forall carries_some q -> Forall shaped res /\ Forall carries_some rest).
Proof.
  induction q as [|f q IH]; intros maxLen cur fl res len rest fl' Hb Hcur Hmax; cbn [retrans_loop].
  { intros [= <- <- <- <-]. split_and!; try done; try lia. unfold total_len. cbn. lia. }
  apply Forall_cons in Hb as [Hf Hq]. assert (bounded (with_length f)) as Hfl by exact Hf.
  pose proof (min_length_range (with_length f)) as Hm. rewrite (u64_small (cur + _)) by lia.
  destruct (Z.leb_spec maxLen (cur + StreamFrame.MinLength (with_length f))) as [Hfull|Hroom].
  { intros [= <- <- <- <-]. split_and!; try done; try lia; [unfold total_len; cbn; lia|].
    intros Hc. split; [done|]. by apply Forall_cons in Hc as [? ?]; constructor. }
  rewrite (u64_small (maxLen - _)) by lia.
  destruct (maybeSplitOffFrame _ _) as [[first tail]|] eqn:Es.
  - destruct (split_spec _ (maxLen - (cur + StreamFrame.MinLength (with_length f))) _ _ Hfl ltac:(lia) Es) as (S1 & S2 & S3 & S4 & S5).
    assert (StreamFrame.DataLen first = flen first) as -> by (unfold StreamFrame.DataLen; apply u64_small; unfold flen in *; lia).
    rewrite S1, u64_small by lia. intros [= <- <- <- <-].
    rewrite !bytes_cons, !fins_cons, total_len_cons. unfold frame_len. rewrite S4, S1.
    split_and!; try done.
    + unfold total_len. cbn. lia.
    + lia.
    + change (frame_bytes f) with (frame_bytes (with_length f)). rewrite S2. cbn. by rewrite app_nil_r, <- app_assoc.
    + change (fin_of f) with (fin_of (with_length f)). rewrite S3. cbn. by rewrite app_nil_r, <- app_assoc.
    + intros. by apply flow_retrans.
    + intros [Hc Hcq]%Forall_cons. destruct (split_shape f (maxLen - (cur + StreamFrame.MinLength (with_length f))) _ _ Hf ltac:(lia) Es) as (T1 & T2 & T3). split; [by apply Forall_singleton|by constructor].
  - pose proof (unsplit _ _ Hfl Es) as Hle. rewrite (bounded_len _ Hfl). assert (0 <= flen (with_length f)) by (unfold flen; lia).
    rewrite u64_small by lia. destruct (retrans_loop q _ _ _) as [[[res0 len0] rest0] fl0] eqn:Er. intros [= <- <- <- <-].
    destruct (IH maxLen (cur + StreamFrame.MinLength (with_length f) + flen (with_length f)) _ _ _ _ _ Hq ltac:(lia) Hmax Er) as (R1 & R2 & R3 & R4 & R5 & _ & R6).
    rewrite !bytes_cons, !fins_cons, total_len_cons. unfold frame_len. split_and!; try done; try lia.
    + by rewrite R3, app_assoc.
    + by rewrite R4, app_assoc.
    + intros. by apply R5, flow_retrans.
    + intros [Hc Hcq]%Forall_cons. destruct (R6 Hcq) as [T1 T2]. split; [by constructor|done].
Qed.

(** ** Sending in order *)

(** The bytes [l] of stream [id], from the start. *)
Definition placed (id : Z) (l : list Z) : list (Z * Z * Z) := imap (fun i b => (id, Z.of_nat i, b)) l.

Lemma placed_snoc id l l' :
  placed id (l ++ l') = placed id l ++ imap (fun i b => (id, Z.of_nat (length l) + Z.of_nat i, b)) l'.
Proof. unfold placed. rewrite imap_app. f_equal. apply imap_ext. intros i b _. cbn. f_equal. f_equal. lia. Qed.

(** [l] was written to the stream and [fs] are the frames that were made of it. *)
Record in_order (l : list Z) (fs : list StreamFrame.t) (s : stream.t) : Prop := {
  io_len : Z.of_nat (length l) < 2 ^ 62;
  io_offset : stream.writeOffset s = Z.of_nat (length (data_of fs));
  io_data : exists buffer, l = data_of fs ++ buffer /\ holds (stream.dataForWriting s) buffer;
  io_bytes : bytes fs = placed (stream.streamID s) (data_of fs);
  io_fins : forall id e, (id, e) ∈ fins fs ->
    id = stream.streamID s /\ stream.finishedWriting (stream.flags s) = true /\ e = Z.of_nat (length l)
    /\ stream.dataForWriting s = None;
}.

(** A frame with the next bytes of the stream. *)
Lemma in_order_emit l fs s f s1 rest :
  in_order l fs s -> StreamFrame.StreamID f = stream.streamID s -> StreamFrame.Offset f = stream.writeOffset s ->
  l = (data_of fs ++ StreamFrame.Data f) ++ rest -> holds (stream.dataForWriting s1) rest ->
  stream.writeOffset s1 = stream.writeOffset s + flen f -> stream.streamID s1 = stream.streamID s ->
  (StreamFrame.FinBit f = true \/ stream.dataForWriting s = None ->
     stream.finishedWriting (stream.flags s1) = true /\ stream.dataForWriting s1 = None) ->
  (stream.finishedWriting (stream.flags s) = true -> stream.finishedWriting (stream.flags s1) = true) ->
  in_order l (fs ++ [f]) s1.
Proof.
  intros [H1 H2 H3 H4 H5] E1 E2 E3 E4 E5 E6 Hfin Hmono. split; [done| | | |].
  - rewrite data_of_snoc, length_app, E5, H2. unfold flen. lia.
  - exists rest. by rewrite data_of_snoc.
  - rewrite bytes_app, H4, data_of_snoc, placed_snoc, E6. f_equal. cbn. rewrite app_nil_r. unfold frame_bytes. by rewrite E1, E2, H2.
  - intros id e. rewrite fins_app. intros [Hold|Hnew]%elem_of_app.
    + destruct (H5 id e Hold) as (-> & F1 & F2 & F3). destruct Hfin as [G1 G2]; [by right|]. by split_and!.
    + unfold fins in Hnew. cbn in Hnew. rewrite app_nil_r in Hnew. unfold fin_of in Hnew.
      destruct (StreamFrame.FinBit f) eqn:Ef; [|by apply elem_of_nil in Hnew]. apply list_elem_of_singleton in Hnew as [= -> ->].
      destruct Hfin as [G1 G2]; [by left|]. split; [congruence|]. split; [done|]. split; [|done].
      rewrite G2 in E4. cbn in E4. subst rest. rewrite E2, H2, E3, app_nil_r, length_app. unfold flen. lia.
Qed.

(** The plain [getDataForWriting]. *)
Lemma getDataForWriting_spec l fs s n :
  in_order l fs s -> stream.lenOfDataForWriting s <> 0 -> 0 < n ->
  exists d r rest, stream.getDataForWriting s n = (Ok (Some r), stream.set_write s (stream.writeOffset s + slice.len r) d)
    /\ 0 < slice.len r <= n /\ Z.of_nat (length (slice.contents r)) = slice.len r
    /\ l = (data_of fs ++ slice.contents r) ++ rest /\ holds d rest /\ is_Some (stream.dataForWriting s) /\ stream.err s = None.
Proof.
  intros [H1 H2 (buf & E & Hh) H4 H5] Hlen Hn. unfold stream.lenOfDataForWriting in Hlen. unfold stream.getDataForWriting.
  destruct (stream.err s); [done|]. destruct (stream.dataForWriting s) as [d|]; [|done]. destruct Hh as (Hw & Hc & Hne).
  pose proof (slice.len_contents d Hw) as Hl. rewrite Hc in Hl.
  assert (Z.of_nat (length l) = stream.writeOffset s + slice.len d) as Ell by (rewrite E, length_app; lia).
  destruct (Z.ltb_spec n (slice.len d)) as [Hlt|Hge].
  - destruct (slice.upto_spec d n Hw ltac:(lia)) as (r & -> & R1 & R2 & R3 & _).
    destruct (slice.from_spec d n Hw ltac:(lia)) as (d' & -> & D1 & D2 & D3 & _). cbn [or_panic].
    exists (Some d'), r, (drop (Z.to_nat n) buf). rewrite R2, u64_small by lia. split; [done|]. split; [lia|].
    split; [by rewrite (slice.len_contents r R1)|]. split; [|split; [|split; [eauto|done]]].
    + rewrite R3, Hc, <- app_assoc, take_drop. exact E.
    + split; [done|]. rewrite D3, Hc. split; [done|]. intros E0. apply (f_equal length) in E0. rewrite length_drop in E0. cbn in E0. lia.
  - exists None, d, []. rewrite u64_small by lia. split; [done|]. split; [lia|]. rewrite Hc. split; [done|].
    rewrite app_nil_r. split; [done|]. split; [done|]. split; [eauto|done].
Qed.

(** Without the treatment of video frames the data is taken in order. *)
Lemma take_normal_spec lackbw l fs s n ue :
  in_order l fs s -> stream.lenOfDataForWriting s <> 0 -> 0 < n < 2 ^ 62 ->
  exists data pr s1, take_normal false lackbw s n ue = (Ok (data, pr, ue), s1) /\ stream.streamID s1 = stream.streamID s
    /\ Z.of_nat (length (default [] data)) <= n /\ data <> Some [] /\ after stream.writeOffset (in_order l) fs s data s1.
Proof.
  intros Hi Hlen Hn. destruct (getDataForWriting_spec _ _ _ n Hi Hlen ltac:(lia)) as (d & r & rest & E & R1 & R2 & R3 & R4 & [d0 R5] & R6).
  unfold take_normal. rewrite R5. change (Discard false lackbw s d0 n ue) with (Ok ([] : list Z, 0, s, ue)).
  cbn [or_panic]. unfold with_pattern. change (0 =? -1) with false. change (0 <? 0) with false. cbn iota. rewrite E. cbn [or_panic fst snd fmap option_fmap option_map].
  destruct (move_marks _ n) as [m pr] eqn:Em. exists (Some (slice.contents r)), pr. eexists. split; [done|]. split; [done|]. split; [cbn; lia|].
  split; [intros [= E0]; rewrite E0 in R2; cbn in R2; lia|]. split; [done|]. intros f _ F1 F2 F3 F4. cbn in F3.
  assert (holds d rest) as Hd by done.
  set (s1 := stream.set_marks _ m) in *. assert (stream.shouldSendFin s1 = true -> d = None /\ stream.finishedWriting (stream.flags s) = true) as Hfin.
  { unfold stream.shouldSendFin. cbn. rewrite !andb_true_iff. intros [[[? _] _] ?]. split; [by destruct d|done]. }
  eapply (in_order_emit l fs s f _ rest); try done.
  - by rewrite F3.
  - by destruct (stream.shouldSendFin s1).
  - destruct (stream.shouldSendFin s1); cbn; unfold flen; rewrite F3; lia.
  - by destruct (stream.shouldSendFin s1).
  - intros [Ht|Ht]; [|congruence]. rewrite F4 in Ht. rewrite Ht. cbn. destruct (Hfin Ht). done.
  - by destruct (stream.shouldSendFin s1).
Qed.

Lemma none_in_order l fs s :
  in_order l fs s -> stream.lenOfDataForWriting s = 0 -> after stream.writeOffset (in_order l) fs s None s.
Proof.
  intros Hi Hlen. split; [done|]. intros f [|Hfin] F1 F2 F3 F4; [done|]. rewrite Hfin in *. cbn in F3.
  unfold stream.shouldSendFin in Hfin. apply andb_true_iff in Hfin as [[[H1 H2]%andb_true_iff H3]%andb_true_iff H4].
  destruct (io_data _ _ _ Hi) as (buf & E & Hh). unfold stream.isNone in H4. destruct (stream.dataForWriting s) eqn:Ed; [done|].
  eapply (in_order_emit l fs s f _ buf); try done.
  - by rewrite F3, app_nil_r.
  - cbn. by rewrite Ed.
  - cbn. unfold flen. rewrite F3. cbn. lia.
Qed.

(** ** Runs *)

(** Calls of the framer, and what goes on around it: the application writes to a stream (when
    its last call has returned) and closes it, a frame that was sent is lost, the peer raises a
    window (stream 0: the connection's). *)
Inductive fop : Type :=
| FWrite (id : Z) (p : list Z) (now : Z)
| FClose (id : Z)
| FPop (maxLen : Z)
| FLost (f : StreamFrame.t)
| FWindow (id off : Z).

Record frun : Type := MkFrun {
  framer : streamFramer.t;
  wrote : gmap Z (list Z);                (* what each stream has accepted *)
  fresh : list StreamFrame.t;             (* the new frames *)
  sent : list StreamFrame.t;              (* all frames, with the retransmitted ones *)
}.

Definition written_to (r : frun) (id : Z) : list Z := default [] (wrote r !! id).

Definition set_flow (f : streamFramer.t) (fl : flowControlManager.t) : streamFramer.t :=
  set_retransmission f fl (retransmissionQueue f) (retransbytes f).

Section Run.
Context (params : Params) (lackbw : bool).

Definition controller (fl : flowControlManager.t) (id : Z) : option flowController.t :=
  if id =? 0 then Some (flowControlManager.connFlowController fl) else flowControlManager.streamFlowController fl !! id.

Definition fstep (r : frun) (o : fop) : res frun :=
  let f := framer r in
  match o with
  | FWrite id p now =>
      match streamsMap.streams (smap f) !! id with
      | Some s =>
          if stream.isNone (stream.dataForWriting s) then
            let s' := (stream.Write false s p now).2 in
            Ok (MkFrun (set_smap f (put (smap f) id s'))
                  (if stream.isNone (stream.dataForWriting s') then wrote r else <[id := written_to r id ++ p]> (wrote r)) (fresh r) (sent r))
          else Ok r
      | None => Ok r
      end
  | FClose id =>
      match streamsMap.streams (smap f) !! id with
      | Some s => Ok (MkFrun (set_smap f (put (smap f) id (stream.Close s))) (wrote r) (fresh r) (sent r))
      | None => Ok r
      end
  | FPop maxLen =>
      let '(frames, (f', _)) := PopStreamFrames params false lackbw f maxLen false in
      frames ← frames;
      mret (MkFrun f' (wrote r) (fresh r ++ drop (length (maybePopFramesForRetransmission f maxLen).1.1) frames) (sent r ++ frames))
  | FLost frame =>
      if bool_decide (with_length frame ∈ sent r) then Ok (MkFrun (AddFrameForRetransmission f frame) (wrote r) (fresh r) (sent r)) else Ok r
  | FWindow id off =>
      match controller (flow f) id with
      | Some c =>
          if flowController.getSendWindow params c <=? off
          then Ok (MkFrun (set_flow f (flowControlManager.UpdateWindow (flow f) id off).2) (wrote r) (fresh r) (sent r)) else Ok r
      | None => Ok r
      end
  end.

Fixpoint frun_ops (r : frun) (os : list fop) : res frun :=
  match os with [] => Ok r | o :: os => r' ← fstep r o; frun_ops r' os end.

(** The streams are open and nothing was sent yet. *)
Record unused (f : streamFramer.t) : Prop := {
  un_map : length (streamsMap.openStreams (smap f)) = size (streamsMap.streams (smap f))
    /\ forall id, id ∈ streamsMap.openStreams (smap f) -> is_Some (streamsMap.streams (smap f) !! id);
  un_streams : forall id s, streamsMap.streams (smap f) !! id = Some s -> s = stream.newStream id;
  un_flow : forall id c, controller (flow f) id = Some c -> flowController.bytesSent c = 0 /\ 0 <= flowController.getSendWindow params c < 2 ^ 62;
  un_zero : flowControlManager.streamFlowController (flow f) !! 0 = None;
  un_queue : retransmissionQueue f = [] /\ blockedFrameQueue f = [];
}.

Definition fstart (f : streamFramer.t) : frun := MkFrun f ∅ [] [].

Definition fop_ok (o : fop) : Prop :=
  match o with FPop maxLen => 0 <= maxLen < 2 ^ 62 | FWindow _ off => off < 2 ^ 62 | _ => True end.
Definition fop_bytes (o : fop) : Z := match o with FWrite _ p _ => Z.of_nat (length p) | _ => 0 end.
Definition fops_bytes (os : list fop) : Z := foldr Z.add 0 (map fop_bytes os).

Record frun_inv (r : frun) : Prop := {
  fi_map : length (streamsMap.openStreams (smap (framer r))) = size (streamsMap.streams (smap (framer r)))
    /\ forall id, id ∈ streamsMap.openStreams (smap (framer r)) -> is_Some (streamsMap.streams (smap (framer r)) !! id);
  fi_streams : forall id s, streamsMap.streams (smap (framer r)) !! id = Some s ->
    stream.streamID s = id /\ in_order (written_to r id) (own id (fresh r)) s;
  fi_flow : flow_ok params (fresh r) (flow (framer r));
  fi_ids : Forall (fun f => is_Some (streamsMap.streams (smap (framer r)) !! StreamFrame.StreamID f)) (fresh r);
  fi_bytes : forall y, y ∈ bytes (sent r ++ retransmissionQueue (framer r)) -> y ∈ bytes (fresh r);
  fi_fins : forall y, y ∈ fins (sent r ++ retransmissionQueue (framer r)) -> y ∈ fins (fresh r);
  fi_blocked : Forall (fun b => BlockedFrame.StreamID b = 0 \/ BlockedFrame.StreamID b ∈ dom (streamsMap.streams (smap (framer r)))) (blockedFrameQueue (framer r));
  fi_shape : Forall carries_some (retransmissionQueue (framer r)) /\ Forall shaped (sent r);
  fi_fresh : forall f, f ∈ fresh r -> f ∈ sent r;
}.

Lemma elem_bytes y fs : y ∈ bytes fs <-> exists f, f ∈ fs /\ y ∈ frame_bytes f.
Proof. unfold bytes. rewrite list_elem_of_In, in_concat. setoid_rewrite in_map_iff. setoid_rewrite list_elem_of_In.
  split; [intros (l & (f & <- & Hf) & Hy)|intros (f & Hf & Hy)]; eauto.
Qed.

Lemma elem_frame_bytes id x b f :
  (id, x, b) ∈ frame_bytes f <-> StreamFrame.StreamID f = id /\ StreamFrame.Offset f <= x /\ StreamFrame.Data f !! Z.to_nat (x - StreamFrame.Offset f) = Some b.
Proof.
  unfold frame_bytes. rewrite list_elem_of_lookup. setoid_rewrite list_lookup_imap_Some. split.
  - intros (i & b' & Hb & [= -> -> ->]). split; [done|]. split; [lia|].
    replace (Z.to_nat (StreamFrame.Offset f + Z.of_nat i - StreamFrame.Offset f)) with i by lia. done.
  - intros (<- & Hx & Hb). exists (Z.to_nat (x - StreamFrame.Offset f)), b. split; [done|]. f_equal. f_equal. lia.
Qed.

Lemma elem_own_bytes id x b fs : (id, x, b) ∈ bytes fs <-> (id, x, b) ∈ bytes (own id fs).
Proof.
  rewrite !elem_bytes. split; intros (f & Hf & Hy); exists f; (split; [|done]).
  - unfold own. apply list_elem_of_In, List.filter_In. split; [by apply list_elem_of_In|]. apply elem_frame_bytes in Hy as [-> _]. apply Z.eqb_refl.
  - unfold own in Hf. by apply list_elem_of_In, List.filter_In in Hf as [Hf%list_elem_of_In _].
Qed.

(** The bytes of the new frames are the streams' bytes. *)
Lemma fresh_bytes r id x b :
  frun_inv r -> (id, x, b) ∈ bytes (fresh r) ->
  exists s, streamsMap.streams (smap (framer r)) !! id = Some s /\ 0 <= x < stream.writeOffset s
    /\ stream.writeOffset s <= Z.of_nat (length (written_to r id)) /\ written_to r id !! Z.to_nat x = Some b.
Proof.
  intros Hi Hy. assert (exists s, streamsMap.streams (smap (framer r)) !! id = Some s) as [s Hs].
  { apply elem_bytes in Hy as (f & Hf & [E _]%elem_frame_bytes). pose proof (fi_ids r Hi) as Hids.
    rewrite Forall_forall in Hids. destruct (Hids f Hf) as [s Hs]. rewrite E in Hs. eauto. }
  destruct (fi_streams r Hi id s Hs) as [Eid [H1 H2 (buf & E & Hh) H4 H5]]. exists s. split; [done|].
  apply elem_own_bytes in Hy. rewrite H4 in Hy. unfold placed in Hy. apply list_elem_of_lookup in Hy as [i Hy].
  apply list_lookup_imap_Some in Hy as (b' & Hb & [= -> -> ->]). pose proof (lookup_lt_Some _ _ _ Hb).
  split; [lia|]. split; [rewrite H2, E, length_app; lia|]. rewrite Nat2Z.id, E. by apply lookup_app_l_Some.
Qed.

Lemma queue_bounded r : frun_inv r -> Forall bounded (retransmissionQueue (framer r)).
Proof.
  intros Hi. apply Forall_forall. intros f Hf Hne.
  assert (forall i : nat, (i < length (StreamFrame.Data f))%nat -> 0 <= StreamFrame.Offset f + Z.of_nat i < 2 ^ 62 - 1) as Hall.
  { intros i Hlt. destruct (lookup_lt_is_Some_2 _ _ Hlt) as [b Hb].
    destruct (fresh_bytes r (StreamFrame.StreamID f) (StreamFrame.Offset f + Z.of_nat i) b Hi) as (s & Hs & ? & ? & _).
    - apply (fi_bytes r Hi). rewrite bytes_app. apply elem_of_app. right. apply elem_bytes. exists f. split; [done|].
      apply elem_frame_bytes. split; [done|]. split; [lia|]. by replace (Z.to_nat (StreamFrame.Offset f + Z.of_nat i - StreamFrame.Offset f)) with i by lia.
    - destruct (fi_streams r Hi _ s Hs) as [_ [H1 _ _ _ _]]. lia. }
  destruct (StreamFrame.Data f) as [|b0 l0] eqn:E; [done|]. pose proof (Hall 0%nat ltac:(cbn; lia)).
  pose proof (Hall (length l0) ltac:(cbn; lia)). unfold flen. rewrite E. cbn [length]. lia.
Qed.

Lemma after_good (w : Z -> list Z) fs s data s1 :
  stream.streamID s1 = stream.streamID s -> after stream.writeOffset (in_order (w (stream.streamID s))) fs s data s1 ->
  after stream.writeOffset (fun fs s => in_order (w (stream.streamID s)) fs s) fs s data s1.
Proof.
  intros E [H1 H2]. split; [intros; rewrite E; auto|]. intros f F0 F1 F2 F3 F4. specialize (H2 f F0 F1 F2 F3 F4).
  replace (stream.streamID (if stream.shouldSendFin s1 then _ else _)) with (stream.streamID s); [done|]. by destruct (stream.shouldSendFin s1).
Qed.

Lemma pop_step_inv r maxLen :
  frun_inv r -> 0 <= maxLen < 2 ^ 62 ->
  exists frames f' r', PopStreamFrames params false lackbw (framer r) maxLen false = (Ok frames, (f', false))
    /\ dom (streamsMap.streams (smap f')) = dom (streamsMap.streams (smap (framer r)))
    /\ total_len frames <= maxLen /\ Forall shaped frames /\ fstep r (FPop maxLen) = Ok r' /\ frun_inv r' /\ wrote r' = wrote r /\ sent r' = sent r ++ frames /\ framer r' = f'.
Proof.
  intros Hi Hm. cbn [fstep]. unfold PopStreamFrames, maybePopFramesForRetransmission.
  destruct (retrans_loop _ _ _ _) as [[[fs len] rest] fl] eqn:Er.
  destruct (retrans_spec _ maxLen 0 _ _ _ _ _ (queue_bounded r Hi) ltac:(lia) ltac:(lia) Er) as (R1 & R2 & R3 & R4 & R5 & _ & R6).
  pose proof Hi as [I1 I2 I3 I4 I5 I6 I9 [I7 I8] I10]. destruct (R6 I7) as [R7 R8].
  assert (0 <= total_len fs) as Hpos.
  { clear. induction fs as [|g fs IH]; [done|]. rewrite total_len_cons. unfold frame_len. pose proof (min_length_range g). unfold flen. lia. }
  rewrite u64_small by lia. set (f1 := set_retransmission _ _ _ _).
  destruct (pop_new_ok params stream.writeOffset (take_normal false lackbw) (maxLen - len) ltac:(lia)
    (fun fs s => in_order (written_to r (stream.streamID s)) fs s) (dom (streamsMap.streams (smap (framer r))))) with (n := size (streamsMap.streams (smap (framer r)))) (old := fresh r) (f := f1)
    as (new & f' & Ep & P0 & P00 & P1 & P2 & P3 & P4 & P5 & P7 & P6).
  - intros fs0 s n ue0 Hg Hlen Hn. destruct (take_normal_spec lackbw _ _ _ n ue0 Hg Hlen Hn) as (data & pr & s1 & E1 & E2 & E3 & E5 & E4).
    exists data, pr, s1. split_and!; try done. by apply after_good.
  - intros fs0 s Hg Hlen. apply (after_good (written_to r)); [done|]. by apply none_in_order.
  - split; cbn [fst snd res_ pflow currentLen frame_t]; try done.
    + by destruct I1.
    + intros id s Hs. rewrite app_nil_r. destruct (I2 id s Hs) as [<- Hg]. done.
    + rewrite app_nil_r. by apply R5.
    + unfold total_len. cbn. lia.
    + auto.
    + by rewrite app_nil_r.
  - unfold maybePopNormalFrames. rewrite Ep. cbn. eexists _, _, _. split; [done|]. split; [exact P0|]. split; [rewrite total_len_app; lia|].
    split; [by apply Forall_app|]. split; [done|]. rewrite drop_app_length. split; [|done]. split; cbn [framer wrote fresh sent].
    + destruct P3 as (Q1 & Q2 & Q3). split; [by rewrite Q1, Q2|done].
    + intros id s Hs. destruct (P4 id s Hs) as [<- Hg]. done.
    + exact P2.
    + exact P6.
    + rewrite P5. cbn. rewrite <- app_assoc. intros y. rewrite !bytes_app, !elem_of_app.
      rewrite bytes_app in I5. setoid_rewrite elem_of_app in I5. rewrite R3 in I5. setoid_rewrite elem_of_app in I5.
      intros [?|[[?|?]|?]]; [left; apply I5; auto|left; apply I5; auto|by right|left; apply I5; auto].
    + rewrite P5. cbn. rewrite <- app_assoc. intros y. rewrite !fins_app, !elem_of_app.
      rewrite fins_app in I6. setoid_rewrite elem_of_app in I6. rewrite R4 in I6. setoid_rewrite elem_of_app in I6.
      intros [?|[[?|?]|?]]; [left; apply I6; auto|left; apply I6; auto|by right|left; apply I6; auto].
    + rewrite P0. done.
    + rewrite P5. cbn. split; [done|]. rewrite !Forall_app. done.
    + intros f. rewrite !elem_of_app. intros [?|?]; auto.
Qed.

(** One stream changes, and what was written to it. *)
Lemma put_inv r id s s' w' :
  frun_inv r -> streamsMap.streams (smap (framer r)) !! id = Some s -> stream.streamID s' = id ->
  in_order (default [] (w' !! id)) (own id (fresh r)) s' ->
  (forall id', id' <> id -> w' !! id' = wrote r !! id') ->
  frun_inv (MkFrun (set_smap (framer r) (put (smap (framer r)) id s')) w' (fresh r) (sent r)).
Proof.
  intros [I1 I2 I3 I4 I5 I6 I8 I7 I10] Hs Eid Hg Ho. destruct I1 as [Q1 Q2].
  destruct (put_streams _ (smap (framer r)) id s s' Hs (conj Q1 (conj eq_refl Q2))) as (P1 & P2 & P3).
  split; cbn [framer wrote fresh sent]; [| |done| |done|done| |done|done].
  - split; [cbn in *; lia|exact P3].
  - cbn. intros id' s0 [[<- <-]|[Hne H0]]%lookup_insert_Some; [done|]. unfold written_to. cbn. rewrite Ho by done. by apply I2.
  - eapply Forall_impl; [exact I4|]. intros f. apply put_present.
  - cbn [smap set_smap]. rewrite (put_dom _ _ s) by done. exact I8.
Qed.

Lemma in_order_write l fs s p now :
  in_order l fs s -> stream.dataForWriting s = None -> Z.of_nat (length (l ++ p)) < 2 ^ 62 ->
  let s' := (stream.Write false s p now).2 in
  stream.streamID s' = stream.streamID s /\ in_order (if stream.isNone (stream.dataForWriting s') then l else l ++ p) fs s'.
Proof.
  intros Hi Ed Hlen. unfold stream.Write. destruct (_ || _); [cbn; by rewrite Ed|].
  destruct (stream.finishedWriting (stream.flags s)) eqn:Ef; [cbn; by rewrite Ed|].
  destruct (Z.eqb_spec (Z.of_nat (length p)) 0) as [|Hp]; [cbn; by rewrite Ed|]. cbn. split; [done|].
  destruct Hi as [H1 H2 (buf & E & Hh) H4 H5]. rewrite Ed in Hh. cbn in Hh. subst buf. rewrite app_nil_r in E. subst l. split; cbn; try done.
  - exists p. split; [done|]. split; [apply slice.of_list_wf|]. rewrite slice.of_list_contents. split; [done|]. by intros ->.
  - intros id e He. destruct (H5 id e He) as (_ & F1 & _). congruence.
Qed.

Lemma in_order_close l fs s : in_order l fs s -> in_order l fs (stream.Close s).
Proof. intros [H1 H2 H3 H4 H5]. split; try done. intros id e He. destruct (H5 id e He) as (? & _ & ? & ?). done. Qed.

Lemma frame_in_bytes f fs y : f ∈ fs -> y ∈ bytes [f] -> y ∈ bytes fs.
Proof. rewrite !elem_bytes. intros Hf (g & ->%list_elem_of_singleton & Hy). eauto. Qed.

Lemma frame_in_fins f fs y : f ∈ fs -> y ∈ fins [f] -> y ∈ fins fs.
Proof.
  unfold fins. rewrite !list_elem_of_In, !in_concat. cbn. intros Hf (l & [<-|[]] & Hy). exists (fin_of f).
  split; [|done]. by apply in_map.
Qed.

Lemma elem_fins id e fs : (id, e) ∈ fins fs <-> exists f, f ∈ fs /\ StreamFrame.FinBit f = true /\ StreamFrame.StreamID f = id /\ e = StreamFrame.Offset f + flen f.
Proof.
  unfold fins. rewrite list_elem_of_In, in_concat. setoid_rewrite in_map_iff. setoid_rewrite <- list_elem_of_In. split.
  - intros (l & (f & <- & Hf) & Hy). unfold fin_of in Hy. destruct (StreamFrame.FinBit f) eqn:E; [|by apply elem_of_nil in Hy].
    apply list_elem_of_singleton in Hy as [= -> ->]. exists f. done.
  - intros (f & Hf & E & <- & ->). exists (fin_of f). split; [by exists f|]. unfold fin_of. rewrite E. by apply list_elem_of_singleton.
Qed.

Lemma own_fins id e fs : (id, e) ∈ fins fs -> (id, e) ∈ fins (own id fs).
Proof.
  rewrite !elem_fins. intros (f & Hf & E & Ei & Ee). exists f. split; [|done]. unfold own.
  apply list_elem_of_In, List.filter_In. split; [by apply list_elem_of_In|by apply Z.eqb_eq].
Qed.

Lemma lost_inv r f : frun_inv r -> with_length f ∈ sent r -> frun_inv (MkFrun (AddFrameForRetransmission (framer r) f) (wrote r) (fresh r) (sent r)).
Proof.
  intros [I1 I2 I3 I4 I5 I6 I9 [I7 I8] I10] Hf. split; cbn [framer wrote fresh sent retransmissionQueue AddFrameForRetransmission set_retransmission]; try done.
  - intros y. rewrite app_assoc, bytes_app. intros [|Hy]%elem_of_app; [by apply I5|]. apply I5. rewrite bytes_app.
    apply elem_of_app. left. by apply (frame_in_bytes (with_length f)).
  - intros y. rewrite app_assoc, fins_app. intros [|Hy]%elem_of_app; [by apply I6|]. apply I6. rewrite fins_app.
    apply elem_of_app. left. by apply (frame_in_fins (with_length f)).
  - split; [|done]. apply Forall_app. split; [done|]. constructor; [|done]. rewrite Forall_forall in I8. apply (I8 _ Hf).
Qed.

(** A larger window. *)
Lemma raised c off :
  0 <= flowController.bytesSent c <= flowController.getSendWindow params c -> flowController.getSendWindow params c <= off < 2 ^ 62 ->
  flowController.getSendWindow params c < 2 ^ 62 ->
  let c' := (flowController.UpdateSendWindow c off).2 in
  flowController.bytesSent c' = flowController.bytesSent c
  /\ flowController.getSendWindow params c <= flowController.getSendWindow params c' < 2 ^ 62.
Proof.
  intros Hb Ho Hm. unfold flowController.UpdateSendWindow. destruct (Z.ltb_spec (flowController.sendWindow c) off) as [Hlt|Hge]; cbn; [|lia].
  split; [done|]. unfold flowController.getSendWindow in *. cbn. destruct (Z.eqb_spec off 0) as [->|]; [|lia].
  destruct (flowController.sendWindow c =? 0); lia.
Qed.

Lemma window_inv fs fl id off c :
  flow_ok params fs fl -> controller fl id = Some c -> flowController.getSendWindow params c <= off < 2 ^ 62 ->
  flow_ok params fs (flowControlManager.UpdateWindow fl id off).2.
Proof.
  intros [H1 H2 H3 H4] Hc Ho. unfold controller in Hc. unfold flowControlManager.UpdateWindow. destruct (id =? 0) eqn:E0.
  - injection Hc as <-. pose proof (raised (flowControlManager.connFlowController fl) off) as Hr.
    destruct (flowController.UpdateSendWindow _ _) as [b c']. cbn in *. destruct Hr as [R1 R2]; [lia..|]. split; cbn; try done; lia.
  - rewrite Hc. destruct (H1 id c Hc) as [E1 E2]. pose proof (raised c off) as Hr. assert (0 <= flowController.bytesSent c) by (rewrite E1; unfold data_bytes; lia).
    destruct (flowController.UpdateSendWindow _ _) as [b c']. cbn in *. destruct Hr as [R1 R2]; [lia..|]. split; cbn; try done.
    + intros id' c0 [[<- <-]|[Hne H0]]%lookup_insert_Some; [|by apply H1]. split; [congruence|lia].
    + rewrite lookup_insert_ne by (apply Z.eqb_neq in E0; done). done.
Qed.

(** What was written stays representable. *)
Definition fop_fits (r : frun) (o : fop) : Prop :=
  match o with FWrite id p _ => Z.of_nat (length (written_to r id ++ p)) < 2 ^ 62 | _ => True end.

Lemma fstep_inv r o :
  frun_inv r -> fop_ok o -> fop_fits r o ->
  exists r', fstep r o = Ok r' /\ frun_inv r' /\ dom (streamsMap.streams (smap (framer r'))) = dom (streamsMap.streams (smap (framer r)))
    /\ forall id, Z.of_nat (length (written_to r' id)) <= Z.of_nat (length (written_to r id)) + fop_bytes o.
Proof.
  intros Hi Ho Hlen. destruct o as [id p now|id|maxLen|f|id off]; cbn [fop_bytes] in *.
  - cbn [fstep]. destruct (streamsMap.streams (smap (framer r)) !! id) as [s|] eqn:Es; [|exists r; split_and!; try done; intros; lia].
    destruct (stream.dataForWriting s) eqn:Ed; cbn [stream.isNone]; [exists r; split_and!; try done; intros; lia|].
    destruct (fi_streams r Hi id s Es) as [Eid Hg].
    destruct (in_order_write _ _ _ p now Hg Ed) as [W1 W2]; [done|].
    eexists. split; [done|]. split; [|split; [by apply (put_dom _ _ s)|]].
    + apply (put_inv r id s); [done|done|congruence| |].
      * destruct (stream.isNone _); [exact W2|]. rewrite lookup_insert_eq. exact W2.
      * intros id' Hne. destruct (stream.isNone _); [done|]. by rewrite lookup_insert_ne.
    + intros id'. unfold written_to. cbn. destruct (stream.isNone _); [lia|]. destruct (decide (id' = id)) as [->|Hne].
      * rewrite lookup_insert_eq. cbn. rewrite length_app, Nat2Z.inj_add. unfold written_to. lia.
      * rewrite lookup_insert_ne by done. lia.
  - cbn [fstep]. destruct (streamsMap.streams (smap (framer r)) !! id) as [s|] eqn:Es; [|exists r; split_and!; try done; intros; lia].
    destruct (fi_streams r Hi id s Es) as [Eid Hg]. eexists. split; [done|]. split; [|split; [by apply (put_dom _ _ s)|intros; unfold written_to; cbn; lia]].
    apply (put_inv r id s); try done. by apply in_order_close.
  - destruct (pop_step_inv r maxLen Hi Ho) as (frames & f' & r' & _ & Hd & _ & _ & E & Hi' & Ew & _ & Ef). exists r'. split; [done|]. split; [done|].
    split; [by rewrite Ef|]. intros. unfold written_to. rewrite Ew. lia.
  - cbn [fstep]. case_bool_decide as Hf; [|exists r; split_and!; try done; intros; lia]. eexists. split; [done|]. split; [by apply lost_inv|]. split; [done|].
    intros; unfold written_to; cbn; lia.
  - cbn [fstep]. destruct (controller (flow (framer r)) id) as [c|] eqn:Ec; [|exists r; split_and!; try done; intros; lia].
    destruct (Z.leb_spec (flowController.getSendWindow params c) off); [|exists r; split_and!; try done; intros; lia].
    eexists. split; [done|]. split; [|split; [done|intros; unfold written_to; cbn; lia]]. destruct Hi as [I1 I2 I3 I4 I5 I6 I8 I7 I10].
    split; cbn [framer wrote fresh sent]; try done. apply (window_inv _ _ _ _ c); done.
Qed.

Lemma fops_nonneg os : 0 <= fops_bytes os.
Proof. induction os as [|[] os IH]; [done|..]; unfold fops_bytes in *; cbn [map foldr fop_bytes]; lia. Qed.

Lemma frun_total os : forall r,
  frun_inv r -> Forall fop_ok os -> (forall id, Z.of_nat (length (written_to r id)) + fops_bytes os < 2 ^ 62) ->
  exists r', frun_ops r os = Ok r' /\ frun_inv r'.
Proof.
  induction os as [|o os IH]; intros r Hi Ho Hlen; [by exists r|]. apply Forall_cons in Ho as [Ho Hos].
  pose proof (fops_nonneg os). unfold fops_bytes in *. cbn [map foldr] in Hlen.
  destruct (fstep_inv r o Hi Ho) as (r1 & E1 & Hi1 & _ & Hl1).
  { destruct o as [id p0 ?| | | |]; cbn; try done. specialize (Hlen id). cbn [fop_bytes] in Hlen. rewrite length_app. lia. }
  cbn [frun_ops]. rewrite E1. apply (IH r1 Hi1 Hos). intros id. specialize (Hlen id). specialize (Hl1 id). lia.
Qed.

Lemma frun_inv_start f : unused f -> frun_inv (fstart f).
Proof.
  intros [U1 U2 U3 U4 [U5 U6]]. split; cbn [framer wrote fresh sent fstart]; try done.
  - intros id s Hs. rewrite (U2 id s Hs). split; [done|]. split; cbn; try done; [by exists []|]. by intros id0 e He%elem_of_nil.
  - split.
    + intros id c Hc. destruct (U3 id c) as [-> ?]; [|done]. unfold controller. destruct (Z.eqb_spec id 0) as [->|]; [congruence|done].
    + destruct (U3 0 (flowControlManager.connFlowController (flow f)) eq_refl). lia.
    + destruct (U3 0 (flowControlManager.connFlowController (flow f)) eq_refl). lia.
    + done.
  - rewrite U5. done.
  - rewrite U5. done.
  - by rewrite U6.
  - by rewrite U5.
Qed.

Lemma frun_reachable f os :
  unused f -> Forall fop_ok os -> fops_bytes os < 2 ^ 62 -> exists r, frun_ops (fstart f) os = Ok r /\ frun_inv r.
Proof.
  intros Hu Ho Hlen. apply frun_total; [by apply frun_inv_start|done|]. intros id. unfold written_to. cbn. rewrite lookup_empty. cbn. lia.
Qed.
End Run.

(** ** Theorems *)

(** C21. Without the flag [-iprio] and the flag for enough room, whatever is written to any number of new streams, whatever
    is lost and sent again, however windows grow, and whatever the sizes of the packets, no call fails; the new frames of a stream carry its bytes in
    order, each once, and the buffer holds the rest; every frame ever sent, whole or split,
    carries the bytes of the stream at its offset; and a FIN is only sent at the end of a
    stream that was closed. *)
Theorem framer_in_order params lackbw f os :
  unused params f -> Forall fop_ok os -> fops_bytes os < 2 ^ 62 ->
  exists r, frun_ops params lackbw (fstart f) os = Ok r
    /\ (forall id s, streamsMap.streams (smap (framer r)) !! id = Some s ->
          bytes (own id (fresh r)) = placed id (take (Z.to_nat (stream.writeOffset s)) (written_to r id))
          /\ holds (stream.dataForWriting s) (drop (Z.to_nat (stream.writeOffset s)) (written_to r id)))
    /\ (forall id x b, (id, x, b) ∈ bytes (sent r) -> 0 <= x /\ written_to r id !! Z.to_nat x = Some b)
    /\ forall id e, (id, e) ∈ fins (sent r) -> e = Z.of_nat (length (written_to r id))
         /\ exists s, streamsMap.streams (smap (framer r)) !! id = Some s /\ stream.finishedWriting (stream.flags s) = true.
Proof.
  intros Hu Ho Hlen. destruct (frun_reachable params lackbw f os Hu Ho Hlen) as (r & E & Hi).
  exists r. split; [done|]. pose proof Hi as [I1 I2 I3 I4 I5 I6 I8 I7 I10]. split; [|split].
  - intros id s Hs. destruct (I2 id s Hs) as [Eid [H1 H2 (buf & El & Hh) H4 H5]]. rewrite H4, Eid, H2, Nat2Z.id, El.
    by rewrite take_app_length, drop_app_length.
  - intros id x b Hy. destruct (fresh_bytes params r id x b Hi) as (s & _ & Hx & _ & Hb); [|split; [lia|done]].
    apply I5. rewrite bytes_app. apply elem_of_app. by left.
  - intros id e Hy. assert ((id, e) ∈ fins (fresh r)) as Hf by (apply I6; rewrite fins_app; apply elem_of_app; by left).
    pose proof Hf as (g & Hg & _ & Eg & _)%elem_fins. apply own_fins in Hf.
    rewrite Forall_forall in I4. destruct (I4 g Hg) as [s Hs]. rewrite Eg in Hs.
    destruct (I2 id s Hs) as [Eid [_ _ _ _ H5]]. destruct (H5 id e Hf) as (_ & F1 & F2 & _). eauto.
Qed.

(** The stream offsets of all that was ever sent are within the window the peer allows the
    stream, and the bytes counted for the connection within the connection's window. *)
Theorem framer_respects_windows params lackbw f os r id x b c :
  unused params f -> Forall fop_ok os -> fops_bytes os < 2 ^ 62 -> frun_ops params lackbw (fstart f) os = Ok r ->
  (id, x, b) ∈ bytes (sent r) -> flowControlManager.streamFlowController (flow (framer r)) !! id = Some c ->
  x < flowController.getSendWindow params c
  /\ flowController.bytesSent (flowControlManager.connFlowController (flow (framer r)))
     <= flowController.getSendWindow params (flowControlManager.connFlowController (flow (framer r))).
Proof.
  intros Hu Ho Hlen E Hy Hc. destruct (frun_reachable params lackbw f os Hu Ho Hlen) as (r' & E' & Hi).
  rewrite E in E'. injection E' as <-. pose proof Hi as [I1 I2 [F1 F2 F3 F4] I4 I5 I6 I8 I7 I10]. split; [|lia].
  destruct (fresh_bytes params r id x b Hi) as (s & Hs & Hx & _); [apply I5; rewrite bytes_app; apply elem_of_app; by left|].
  destruct (I2 id s Hs) as [_ [_ H2 _ _ _]]. destruct (F1 id c Hc) as [Eb Hb]. unfold data_bytes in Eb. lia.
Qed.

(** In every such state the frames popped for a packet fit into it. *)
Theorem popped_frames_fit params lackbw f os r maxLen :
  unused params f -> Forall fop_ok os -> fops_bytes os < 2 ^ 62 -> frun_ops params lackbw (fstart f) os = Ok r -> 0 <= maxLen < 2 ^ 62 ->
  exists frames st, PopStreamFrames params false lackbw (framer r) maxLen false = (Ok frames, st) /\ total_len frames <= maxLen.
Proof.
  intros Hu Ho Hlen E Hm. destruct (frun_reachable params lackbw f os Hu Ho Hlen) as (r' & E' & Hi).
  rewrite E in E'. injection E' as <-. destruct (pop_step_inv params lackbw r maxLen Hi Hm) as (frames & f' & _ & Ep & _ & Ht & _). eauto.
Qed.

(** ** Over several paths *)

(** A client with its crypto stream, its header stream and stream 5. *)
Definition three_streams : streams_t :=
  let open m := (streamsMap.OpenStream stream.newStream 100 m).2 in
  open (open (open (streamsMap.newStreamsMap PerspectiveClient))).

Definition change (m : streams_t) (id : Z) (op : stream.t -> stream.t) : streams_t :=
  match streamsMap.streams m !! id with Some s => put m id (op s) | None => m end.

(** Send windows of [w] bytes. *)
Definition windows (w : Z) : Params := MkParams 100 100 100 100 w w.
Definition one_flow (w : Z) : flowControlManager.t :=
  flowControlManager.NewStream (flowControlManager.NewFlowControlManager (windows w)) 5 true (windows w).

(** Stream 5 with the data [p], closed. *)
Definition closed_with (IPriority : bool) (p : list Z) (w : Z) : streamFramer.t :=
  newStreamFramer (change three_streams 5 (fun s => stream.Close (stream.Write IPriority s p 0).2)) (one_flow w).

Definition pop_STMS (w maxLen gap : Z) (st : list StreamFrame.t * streamFramer.t) : list StreamFrame.t * streamFramer.t :=
  let '(r, (f, _)) := PopStreamFramesSTMS (windows w) st.2 maxLen gap false in
  (st.1 ++ match r with Ok fs => fs | _ => [] end, f).

(** When the slower path has sent the end of the stream and the fast path fills the gap, the
    buffer is empty with the last frame of the gap, which gets the FIN: with both frames
    delivered, the application reads up to the end of the gap and then the end of the stream. *)
Theorem stms_fin_truncates :
  let '(fs, _) := pop_STMS 100 50 (-1) (pop_STMS 100 50 3 ([], closed_with false [1; 2; 3; 4; 5; 6] 100)) in
  fs = [part_frame false 3 [4; 5; 6]; part_frame true 0 [1; 2; 3]]
  /\ (let '(fl, s) := deliver fs in (stream.Read fl s 100 0).1 = stream.ReadReturns [1; 2; 3] (Some EOF)).
Proof. vm_compute. split; reflexivity. Qed.

(** Flow control counts the bytes that were sent, not how far they reach: behind a gap a frame
    ends past the window the peer announced, and the peer closes the connection. *)
Theorem stms_exceeds_window :
  let w := 10 in
  let '(fs, _) := pop_STMS w 50 15 ([], closed_with false (seqZ 0 20) w) in
  fs = [part_frame false 15 [15; 16; 17; 18; 19]]
  /\ (flowControlManager.UpdateHighestReceived
        (flowControlManager.NewStream (flowControlManager.NewFlowControlManager (MkParams w w w w w w)) 5 true (MkParams w w w w w w)) 5 20).1
     = Some (flowControlManager.tooMuchData "Received 20 bytes on stream 5, allowed 10 bytes").
Proof. vm_compute. split; reflexivity. Qed.

(** ** Dropped video frames *)

(** The header of a frame that is not an I frame. *)
Definition video_header : list Z := [7; 0; 0; 0; 0; 0; 0; 9; 1; 0; 0; 0; 39].

(** When bandwidth becomes short, the headers that are kept and the patterns between them are
    not counted against the packet: for a packet with room for 40 bytes the framer makes a
    frame of 56. *)
Theorem discard_exceeds_packet :
  match (PopStreamFrames (windows 1000) true true (closed_with true (video_header ++ video_header ++ video_header) 1000) 40 false).1 with
  | Ok [f] => total_len [f] = 56
  | _ => False
  end.
Proof. vm_compute. reflexivity. Qed.

(** ** Witnesses *)

Lemma three_streams_eq :
  streamsMap.streams three_streams = <[5 := stream.newStream 5]> (<[3 := stream.newStream 3]> (<[1 := stream.newStream 1]> ∅))
  /\ streamsMap.openStreams three_streams = [1; 3; 5].
Proof. vm_compute. split; reflexivity. Qed.

Lemma three_unused w : 0 <= w < 2 ^ 62 -> unused (windows w) (newStreamFramer three_streams (one_flow w)).
Proof.
  intros Hw. destruct three_streams_eq as [E1 E2]. split; cbn [smap flow newStreamFramer retransmissionQueue]; rewrite ?E1, ?E2.
  - split; [done|]. intros id Hid. rewrite !elem_of_cons, elem_of_nil in Hid. destruct Hid as [->|[->|[->|[]]]]; vm_compute; eauto.
  - intros id s Hs. rewrite !lookup_insert_Some, lookup_empty in Hs.
    destruct Hs as [[<- <-]|[_ [[<- <-]|[_ [[<- <-]|[_ Hs]]]]]]; done.
  - intros id c. unfold controller. destruct (id =? 0); [intros [= <-]; split; [reflexivity|exact Hw]|].
    change (flowControlManager.streamFlowController (one_flow w)) with (<[5 := flowController.newFlowController 5 true (windows w)]> (∅ : gmap Z flowController.t)).
    intros [[<- <-]|[_ Hc]]%lookup_insert_Some; [split; [reflexivity|exact Hw]|]. by rewrite lookup_empty in Hc.
  - done.
  - done.
Qed.

(** Twenty bytes on stream 5, sent in three packets of which the first is lost. *)
Definition lossy : list fop :=
  [FWrite 5 (seqZ 0 20) 0; FPop 12; FClose 5; FLost (part_frame false 0 (seqZ 0 8)); FPop 14; FPop 13; FWindow 5 50; FPop 40].

Lemma lossy_ok : Forall fop_ok lossy.
Proof. repeat (constructor; [first [exact I | cbn; lia]|]). constructor. Qed.

Definition lossy_run : frun :=
  match frun_ops (windows 30) false (fstart (newStreamFramer three_streams (one_flow 30))) lossy with Ok r => r | _ => fstart (newStreamFramer three_streams (one_flow 30)) end.

Lemma framer_in_order_witness :
  exists r, frun_ops (windows 30) false (fstart (newStreamFramer three_streams (one_flow 30))) lossy = Ok r
    /\ (forall id s, streamsMap.streams (smap (framer r)) !! id = Some s ->
          bytes (own id (fresh r)) = placed id (take (Z.to_nat (stream.writeOffset s)) (written_to r id))
          /\ holds (stream.dataForWriting s) (drop (Z.to_nat (stream.writeOffset s)) (written_to r id)))
    /\ (forall id x b, (id, x, b) ∈ bytes (sent r) -> 0 <= x /\ written_to r id !! Z.to_nat x = Some b)
    /\ forall id e, (id, e) ∈ fins (sent r) -> e = Z.of_nat (length (written_to r id))
         /\ exists s, streamsMap.streams (smap (framer r)) !! id = Some s /\ stream.finishedWriting (stream.flags s) = true.
Proof.
  apply (framer_in_order (windows 30) false (newStreamFramer three_streams (one_flow 30)) lossy); [apply three_unused; lia|apply lossy_ok|vm_compute; done].
Defined.

Lemma lossy_run_ok : frun_ops (windows 30) false (fstart (newStreamFramer three_streams (one_flow 30))) lossy = Ok lossy_run.
Proof. vm_compute. reflexivity. Qed.

Definition controller5 : flowController.t :=
  default (flowController.newFlowController 5 true (windows 30)) (flowControlManager.streamFlowController (flow (framer lossy_run)) !! 5).

Lemma framer_respects_windows_witness :
  flowController.getSendWindow (windows 30) controller5 = 50
  /\ 19 < flowController.getSendWindow (windows 30) controller5
  /\ flowController.bytesSent (flowControlManager.connFlowController (flow (framer lossy_run)))
     <= flowController.getSendWindow (windows 30) (flowControlManager.connFlowController (flow (framer lossy_run))).
Proof.
  split; [vm_compute; reflexivity|].
  apply (framer_respects_windows (windows 30) false (newStreamFramer three_streams (one_flow 30)) lossy lossy_run 5 19 19 controller5);
    [apply three_unused; lia|apply lossy_ok|vm_compute; done|apply lossy_run_ok| |vm_compute; reflexivity].
  apply (list_elem_of_lookup_2 _ 27). vm_compute. reflexivity.
Defined.

Lemma popped_frames_fit_witness :
  exists frames st, PopStreamFrames (windows 30) false false (framer lossy_run) 40 false = (Ok frames, st) /\ total_len frames <= 40.
Proof.
  apply (popped_frames_fit (windows 30) false (newStreamFramer three_streams (one_flow 30)) lossy lossy_run 40);
    [apply three_unused; lia|apply lossy_ok|vm_compute; done|apply lossy_run_ok|lia].
Defined.
