(* ===== verification/PackPacket.v ===== *)
(** * Composing packets

    Models the rest of [packet_packer.go]: the frames that wait in the packer
    ([QueueControlFrame]) and the packets that are made of them and of the stream frames of the
    framer ([PackPacket] and its variants for the schedulers, [PackPing], [PackAckPacket],
    [PackConnectionClose], [PackHandshakeRetransmission], [packCryptoPacket]).

    [composeNextPacket] and [composeNextPacketSTMS] are the same code up to the call of the
    framer, and so are [PackPacket], [PackPacketSTMS] and [PackPacketRedundancy] up to the call
    that composes the payload: what differs is an argument of [compose_with] and [pack_with].
    The sealers of the crypto setup are a parameter.  A frame pointer that is nil in one of the
    packer's maps is a missing entry.  [PackPacketMOOO], which sends what a path has buffered, is
    not modelled. *)

From stdpp Require Import base numbers list option strings gmap pretty.
From S2P Require Import Prelude ByteOrder Protocol AckRanges AckFrame StreamFrame ControlFrames PublicHeader PacketUnpacker PacketPacker FlowControl FrameSorter StreamsMap GoSlice Stream StreamSTMS StreamFramer.

Local Open Scope Z_scope.

Module packetPacker.

(** What a [handshake.CryptoSetup] delivers to the packer. *)
Record CryptoSetup : Type := MkCrypto {
  GetSealer : Z * Sealer;
  GetSealerWithEncryptionLevel : Z -> res Sealer;
  GetSealerForCryptoStream : Z * Sealer;
}.

Record packedPacket : Type := MkPacked {
  number : Z;
  raw : option (list Z);                     (* [None]: nil *)
  frames : list Frame;
  encryptionLevel : Z;
}.

(** [putPacketBuffer], when the packet was sent: the bytes of a packet are in a buffer of the pool; a
    nil slice has no capacity. *)
Definition putPacketBuffer (raw : option (list Z)) : res unit :=
  match raw with Some _ => Ok tt | None => Panic end.

Record t : Type := Mk {
  base : Packer;
  framer : streamFramer.t;
  controlFrames : list Frame;
  stopWaiting : gmap Z StopWaitingFrame.t;
  ackFrame : gmap Z AckFrame.t;
  firstpayloadFrames : list Frame;
  unenough : bool;                           (* [Flag_bw_unenough] of the session's scheduler *)
}.

Definition newPacketPacker (b : Packer) (f : streamFramer.t) : t := Mk b f [] ∅ ∅ [] false.

Definition set_framer (p : t) (f : streamFramer.t) (ue : bool) : t :=
  Mk (base p) f (controlFrames p) (stopWaiting p) (ackFrame p) (firstpayloadFrames p) ue.
Definition set_control (p : t) (c : list Frame) : t :=
  Mk (base p) (framer p) c (stopWaiting p) (ackFrame p) (firstpayloadFrames p) (unenough p).
Definition set_acks (p : t) (s : gmap Z StopWaitingFrame.t) (a : gmap Z AckFrame.t) : t :=
  Mk (base p) (framer p) (controlFrames p) s a (firstpayloadFrames p) (unenough p).
Definition set_first (p : t) (fs : list Frame) : t :=
  Mk (base p) (framer p) (controlFrames p) (stopWaiting p) (ackFrame p) fs (unenough p).

Definition QueueControlFrame (p : t) (frame : Frame) (pid : Z) : t :=
  match frame with
  | FStopWaiting f => set_acks p (<[pid := f]> (stopWaiting p)) (ackFrame p)
  | FAck f => set_acks p (stopWaiting p) (<[pid := f]> (ackFrame p))
  | f => set_control p (controlFrames p ++ [f])
  end.

(** ** The payload *)

(** [frame] is added to the payload and its length. *)
Definition add_sized (frame : Frame) (x : list Frame * Z) : res (list Frame * Z) :=
  l ← Frame_MinLength frame; mret (x.1 ++ [frame], u64 (x.2 + l)).

(** The control frames, the last first; the result has those that stay. *)
Fixpoint control_loop (todo : list Frame) (x : list Frame * Z) (maxFrameSize : Z) : res (list Frame * Z) * list Frame :=
  match todo with
  | [] => (Ok x, [])
  | frame :: rest =>
      let! minLength := Frame_MinLength frame at todo in
      if maxFrameSize <? u64 (x.2 + minLength) then (Ok x, todo)
      else control_loop rest (x.1 ++ [frame], u64 (x.2 + minLength)) maxFrameSize
  end.

Definition without_length (f : StreamFrame.t) : StreamFrame.t :=
  StreamFrame.Mk (StreamFrame.StreamID f) (StreamFrame.FinBit f) false (StreamFrame.Offset f) (StreamFrame.Data f)
    (StreamFrame.Rcvpkttime f) (StreamFrame.Priority f).

(** [fs[len(fs)-1].DataLenPresent = false] *)
Fixpoint omit_last_length (fs : list StreamFrame.t) : list StreamFrame.t :=
  match fs with
  | [] => []
  | [f] => [without_length f]
  | f :: fs => f :: omit_last_length fs
  end.

(** The loop that takes the BLOCKED frames of the framer; it ends when there is none. *)
Fixpoint take_blocked (fuel : nat) (f : streamFramer.t) (cs : list Frame) : list Frame * streamFramer.t :=
  match fuel with
  | O => (cs, f)
  | S fuel =>
      match streamFramer.PopBlockedFrame f with
      | (Some b, f) => take_blocked fuel f (cs ++ [FBlocked b])
      | (None, f) => (cs, f)
      end
  end.

Definition errTooLarge (len max : Z) : goerr :=
  GoErr ("Packet Packer BUG: packet payload (" +:+ pretty (Z.to_N len) +:+ ") too large (" +:+ pretty (Z.to_N max) +:+ ")").

(** A call of the framer: how many bytes, and [Flag_bw_unenough]. *)
Definition popping : Type := streamFramer.t -> Z -> bool -> res (list StreamFrame.t) * (streamFramer.t * bool).

Definition compose_with (pop : popping) (p : t) (pid maxFrameSize : Z) (canSendStreamFrames : bool) : res (list Frame) * t :=
  let! x := (match stopWaiting p !! pid with Some f => add_sized (FStopWaiting f) ([], 0) | None => Ok ([], 0) end) at p in
  let! x := (match ackFrame p !! pid with Some f => add_sized (FAck f) x | None => Ok x end) at p in
  let '(r, rest) := control_loop (rev (controlFrames p)) x maxFrameSize in
  let p := set_control p (rev rest) in
  let! x := r at p in
  if maxFrameSize <? x.2 then (Err (errTooLarge x.2 maxFrameSize), p)
  else if negb canSendStreamFrames then (Ok x.1, p)
  else
    let '(r, (f, ue)) := pop (framer p) (u64 (u64 (maxFrameSize + 2) - x.2)) (unenough p) in
    let p := set_framer p f ue in
    let! fs := r at p in
    let '(cs, f) := take_blocked (S (length (streamFramer.blockedFrameQueue f))) f (controlFrames p) in
    (Ok (x.1 ++ map FStream (omit_last_length fs)), set_control (set_framer p f ue) cs).

Section Pack.
Context (crypto : CryptoSetup) (params : Params) (IPriority lackbw : bool) (maxIncoming : Z).

Definition composeNextPacket : t -> Z -> Z -> bool -> res (list Frame) * t :=
  compose_with (streamFramer.PopStreamFrames params IPriority lackbw).

Definition composeNextPacketSTMS (gap : Z) : t -> Z -> Z -> bool -> res (list Frame) * t :=
  compose_with (fun f maxLen ue => streamFramer.PopStreamFramesSTMS params f maxLen gap ue).

(** The redundancy scheduler: the first path composes the payload, the others repeat its stream
    frames. *)
Definition is_stream (f : Frame) : bool := match f with FStream _ => true | _ => false end.

Definition compose_redundant (isfirst : bool) (p : t) (pid maxFrameSize : Z) (canSend : bool) : res (list Frame) * t :=
  if isfirst then
    let '(r, p) := composeNextPacket p pid maxFrameSize canSend in
    (r, set_first p (match r with Ok fs => List.filter is_stream fs | _ => [] end))
  else (Ok (firstpayloadFrames p), p).

(** ** Packets *)

Definition finish (p : t) (h : PublicHeader.t) (lvl : Z) (sealer : Sealer) (fs : list Frame) (pth : SendPath) (now : Z) (rnd : option Z)
  : res (option packedPacket) * (t * SendPath) :=
  let '(r, pth) := writeAndSealPacket (base p) h fs sealer pth now rnd in
  let! raw := r at (p, pth) in
  (Ok (Some (MkPacked (PublicHeader.PacketNumber h) raw fs lvl)), (p, pth)).

(** [None]: the call that looks up the crypto stream has not ended. *)
Definition packCryptoPacket (p : t) (pth : SendPath) (now : Z) (rnd : option Z) : option (res (option packedPacket) * (t * SendPath)) :=
  let '(lvl, sealer) := GetSealerForCryptoStream crypto in
  let h := getPublicHeader (base p) lvl pth in
  match PublicHeader.GetLength h (perspective (base p)) with
  | Ok n =>
      let maxLen := u64 (u64 (u64 (MaxPacketSize - u64 (Overhead sealer)) - 50) - n) in
      match streamFramer.PopCryptoStreamFrame maxIncoming (framer p) maxLen with
      | Some (Ok (Some f), fr) => Some (finish (set_framer p fr (unenough p)) h lvl sealer [FStream f] pth now rnd)
      | Some (Err e, fr) => Some (Err e, (set_framer p fr (unenough p), pth))
      | Some (_, fr) => Some (Panic, (set_framer p fr (unenough p), pth))     (* a nil frame is written *)
      | None => None
      end
  | Err e => Some (Err e, (p, pth))
  | Panic => Some (Panic, (p, pth))
  end.

(** The STOP_WAITING frame of the path is for the packet with this header. *)
Definition number_stop_waiting (p : t) (pid : Z) (h : PublicHeader.t) : t :=
  set_acks p
    (alter (fun f => StopWaitingFrame.Mk (StopWaitingFrame.LeastUnacked f) (PublicHeader.PacketNumberLen h) (PublicHeader.PacketNumber h))
       pid (stopWaiting p)) (ackFrame p).

Definition isPing (cs : list Frame) : bool := match cs with FPing :: _ => true | _ => false end.

(** [drop_nil]: a packet that was too large is not returned ([PackPacketRedundancy]). *)
Definition pack_with (compose : t -> Z -> Z -> bool -> res (list Frame) * t) (drop_nil : bool)
    (p : t) (pth : SendPath) (now : Z) (rnd : option Z) : option (res (option packedPacket) * (t * SendPath)) :=
  match streamFramer.HasCryptoStreamFrame maxIncoming (framer p) with
  | Some (Ok true, f) => packCryptoPacket (set_framer p f (unenough p)) pth now rnd
  | Some (Ok false, f) =>
      let p := set_framer p f (unenough p) in
      let '(lvl, sealer) := GetSealer crypto in
      let pid := pathID pth in
      let h := getPublicHeader (base p) lvl pth in
      Some (let! n := PublicHeader.GetLength h (perspective (base p)) at (p, pth) in
        let p := number_stop_waiting p pid h in
        let '(r, p) :=
          if isPing (controlFrames p) then (Ok (take 1 (controlFrames p)), set_control p (drop 1 (controlFrames p)))
          else compose p pid (u64 (u64 (MaxPacketSize - u64 (Overhead sealer)) - n)) (canSendData (base p) lvl) in
        let! fs := r at (p, pth) in
        if (length fs =? 0)%nat then (Ok None, (p, pth))
        else if ((length fs =? 1)%nat && bool_decide (is_Some (stopWaiting p !! pid))) then (Ok None, (p, pth))
        else
          let p := set_acks p (delete pid (stopWaiting p)) (delete pid (ackFrame p)) in
          match finish p h lvl sealer fs pth now rnd with
          | (Ok (Some (MkPacked _ None _ _)), st) as res => if drop_nil then (Ok None, st) else res
          | res => res
          end)
  | Some (Err e, f) => Some (Err e, (set_framer p f (unenough p), pth))
  | Some (Panic, f) => Some (Panic, (set_framer p f (unenough p), pth))
  | None => None
  end.

Definition PackPacket : t -> SendPath -> Z -> option Z -> option (res (option packedPacket) * (t * SendPath)) :=
  pack_with composeNextPacket false.

Definition PackPacketSTMS (gap : Z) : t -> SendPath -> Z -> option Z -> option (res (option packedPacket) * (t * SendPath)) :=
  pack_with (composeNextPacketSTMS gap) false.

Definition PackPacketRedundancy (isfirst : bool) : t -> SendPath -> Z -> option Z -> option (res (option packedPacket) * (t * SendPath)) :=
  pack_with (compose_redundant isfirst) true.

(** [unacked]: [pth.sentPacketHandler.GetLeastUnacked()] *)
Definition PackPing (p : t) (pth : SendPath) (unacked now : Z) (rnd : option Z) : option (res (option packedPacket) * (t * SendPath)) :=
  PackPacket (set_control p (FPing :: controlFrames p)) (MkSendPath (pathID pth) unacked (generator pth) (handshakeComplete pth)) now rnd.

(** A packet of these frames only; also with an error the packet is returned. *)
Definition pack_frames (p : t) (h : PublicHeader.t) (lvl : Z) (sealer : Sealer) (fs : list Frame) (pth : SendPath) (now : Z) (rnd : option Z)
  : option packedPacket * option goerr * bool * (t * SendPath) :=
  let '(r, pth) := writeAndSealPacket (base p) h fs sealer pth now rnd in
  (Some (MkPacked (PublicHeader.PacketNumber h) (match r with Ok raw => raw | _ => None end) fs lvl),
   match r with Err e => Some e | _ => None end,
   match r with Panic => true | _ => false end, (p, pth)).

Definition PackConnectionClose (p : t) (ccf : ConnectionCloseFrame.t) (pth : SendPath) (now : Z) (rnd : option Z)
  : option packedPacket * option goerr * bool * (t * SendPath) :=
  let '(lvl, sealer) := GetSealer crypto in
  pack_frames p (getPublicHeader (base p) lvl pth) lvl sealer [FConnectionClose ccf] pth now rnd.

Definition PackAckPacket (p : t) (pth : SendPath) (now : Z) (rnd : option Z)
  : option packedPacket * option goerr * bool * (t * SendPath) :=
  match ackFrame p !! pathID pth with
  | None => (None, Some (GoErr "packet packer BUG: no ack frame queued"), false, (p, pth))
  | Some ack =>
      let '(lvl, sealer) := GetSealer crypto in
      let h := getPublicHeader (base p) lvl pth in
      let p := number_stop_waiting p (pathID pth) h in
      let fs := FAck ack :: match stopWaiting p !! pathID pth with Some f => [FStopWaiting f] | None => [] end in
      pack_frames (set_acks p (delete (pathID pth) (stopWaiting p)) (delete (pathID pth) (ackFrame p))) h lvl sealer fs pth now rnd
  end.

(** [packet]: the encryption level and the frames of a packet that was lost. *)
Definition PackHandshakeRetransmission (p : t) (packet_lvl : Z) (packet_frames : list Frame) (pth : SendPath) (now : Z) (rnd : option Z)
  : option packedPacket * option goerr * bool * (t * SendPath) :=
  if packet_lvl =? EncryptionForwardSecure
  then (None, Some (GoErr "PacketPacker BUG: forward-secure encrypted handshake packets don't need special treatment"), false, (p, pth))
  else
    match GetSealerWithEncryptionLevel crypto packet_lvl with
    | Err e => (None, Some e, false, (p, pth))
    | Panic => (None, None, true, (p, pth))
    | Ok sealer =>
        let h := getPublicHeader (base p) packet_lvl pth in
        match stopWaiting (number_stop_waiting p (pathID pth) h) !! pathID pth with
        | None => (None, Some (GoErr "PacketPacker BUG: Handshake retransmissions must contain a StopWaitingFrame"), false, (p, pth))
        | Some f =>
            pack_frames (set_acks p (delete (pathID pth) (stopWaiting p)) (ackFrame p)) h packet_lvl sealer
              (FStopWaiting f :: packet_frames) pth now rnd
        end
    end.
End Pack.

End packetPacker.
