(* ===== verification/PackFacts.v ===== *)
(** * What is packed is sent and received

    The theorems about [packet_packer.go], over the framer, the streams and the wire format:
    with enough room for the acknowledgement no call fails and no packet is too large, so that
    every frame that is taken from the framer leaves in a packet; the peer reads the frames the
    packet was made of; and what was queued is sent or stays queued.  A PING queued first breaks
    the last, and an ACK frame may be too large. *)

From stdpp Require Import base numbers list option strings gmap.
From S2P Require Import Prelude ByteOrder Protocol AckRanges AckFrame ClosePathFrame StreamFrame ControlFrames PublicHeader PacketUnpacker PacketPacker FlowControl FrameSorter StreamsMap GoSlice Stream StreamSTMS StreamFramer FramerFacts PackPacket.

Local Open Scope Z_scope.
Import packetPacker.

(** ** Lengths *)

Definition min_len (f : Frame) : Z := match Frame_MinLength f with Ok n => n | _ => 0 end.
Definition wire_len (f : Frame) : Z := min_len f + match f with FStream f => flen f | _ => 0 end.
Definition payload_len (fs : list Frame) : Z := foldr Z.add 0 (map wire_len fs).

Definition few_paths (f : Frame) : Prop := forall p, f = FPaths p -> PathsFrame.NumPaths p <= 84.

Lemma payload_len_app a b : payload_len (a ++ b) = payload_len a + payload_len b.
Proof. unfold payload_len. rewrite map_app, foldr_app. induction a as [|x a IH]; cbn; [done|]. rewrite IH. lia. Qed.

(** A valid frame is as long as it says. *)
Lemma frame_written pn l lvl version now f :
  PacketUnpacker.frame_ok pn l lvl now f -> few_paths f ->
  exists out, Frame_Write f version now = wbytes out /\ Frame_MinLength f = Ok (min_len f) /\ Z.of_nat (length out) = wire_len f.
Proof.
  intros Hok Hp. destruct (frame_min_length pn l lvl version now f Hok Hp) as (out & n & Hw & Hn & Hl).
  exists out. unfold wire_len, min_len. rewrite Hn. done.
Qed.

Lemma payload_written pn l lvl version now fs out :
  payload_ok pn l lvl now fs -> Forall few_paths fs -> write_frames version now fs = wbytes out ->
  Z.of_nat (length out) = payload_len fs.
Proof.
  revert out. induction fs as [|f fs IH]; intros out Hok Hp; [by intros [= <-]|].
  destruct Hok as (Hf & _ & Hfs). apply Forall_cons in Hp as [Hp Hps].
  destruct (frame_written pn l lvl version now f Hf Hp) as (o1 & Hw & _ & Hl).
  destruct (write_frames_unpack version pn l lvl now fs Hfs) as (o2 & Hw2 & _).
  cbn [write_frames]. rewrite Hw, Hw2. intros [= <-]. rewrite length_app, Nat2Z.inj_add, Hl, (IH o2 Hfs Hps Hw2). done.
Qed.

(** ** Control frames *)

(** What may be queued as a control frame. *)
Definition control_ok (f : Frame) : Prop :=
  match f with FStream _ | FAck _ | FStopWaiting _ => False | _ => PacketUnpacker.frame_ok 0 0 0 0 f end
  /\ few_paths f /\ min_len f <= MaxPacketSize.

Lemma control_frame_ok pn l lvl now f : control_ok f -> PacketUnpacker.frame_ok pn l lvl now f /\ ends_packet f = false.
Proof. intros [H _]. by destruct f. Qed.

Lemma control_few fs : Forall control_ok fs -> Forall few_paths fs.
Proof. intros H. eapply Forall_impl; [exact H|]. by intros f (_ & Hp & _). Qed.

Lemma control_len f : control_ok f -> Frame_MinLength f = Ok (min_len f) /\ wire_len f = min_len f /\ 0 < min_len f <= MaxPacketSize.
Proof.
  intros Hc. pose proof Hc as (Hk & Hp & Hm62). destruct (control_frame_ok 0 0 0 0 f Hc) as [Hok _].
  destruct (frame_written 0 0 0 0 0 f Hok Hp) as (out & Hw & Hm & Hl). split; [done|].
  assert (wire_len f = min_len f) as E by (unfold wire_len; destruct f; [done|lia..]). split; [done|].
  destruct (frame_roundtrip 0 0 0 0 0 f [] Hok ltac:(done)) as (tb & o & Hw' & _). rewrite Hw in Hw'. injection Hw' as ->. cbn [length] in Hl. lia.
Qed.

Lemma control_loop_spec todo : forall fs len maxFrameSize,
  Forall control_ok todo -> 0 <= len <= maxFrameSize -> maxFrameSize < 2 ^ 62 ->
  exists took rest, todo = took ++ rest /\ len + payload_len took <= maxFrameSize
    /\ control_loop todo (fs, len) maxFrameSize = (Ok (fs ++ took, len + payload_len took), rest).
Proof.
  induction todo as [|f todo IH]; intros fs len maxFrameSize Hc Hlen Hmax; cbn [control_loop].
  { exists [], []. split; [done|]. rewrite app_nil_r. unfold payload_len. cbn. rewrite Z.add_0_r. split; [lia|done]. }
  apply Forall_cons in Hc as [Hf Hc]. destruct (control_len f Hf) as (E1 & E2 & E3).
  rewrite E1. unfold MaxPacketSize in E3. cbn [or_panic fst snd]. rewrite u64_small by lia. destruct (Z.ltb_spec maxFrameSize (len + min_len f)) as [Hfull|Hroom].
  - exists [], (f :: todo). split; [done|]. rewrite app_nil_r. unfold payload_len. cbn. rewrite Z.add_0_r. split; [lia|done].
  - destruct (IH (fs ++ [f]) (len + min_len f) maxFrameSize Hc ltac:(lia) Hmax) as (took & rest & -> & T1 & T2).
    exists (f :: took), rest. split; [done|]. change (payload_len (f :: took)) with (wire_len f + payload_len took). rewrite E2.
    split; [lia|]. rewrite T2, <- app_assoc. cbn [app]. f_equal. f_equal. f_equal. lia.
Qed.

Lemma take_blocked_spec f cs :
  take_blocked (S (length (streamFramer.blockedFrameQueue f))) f cs
  = (cs ++ map FBlocked (streamFramer.blockedFrameQueue f),
     streamFramer.set_queues f [] (streamFramer.addAddressFrameQueue f) (streamFramer.closePathFrameQueue f) (streamFramer.pathsFrame f)).
Proof.
  destruct f as [m fl q bq aq cq pf rb]. cbn [streamFramer.blockedFrameQueue]. revert cs.
  induction bq as [|b bq IH]; intros cs; [by cbn; rewrite app_nil_r|].
  cbn [length]. change (take_blocked (S (S (length bq))) _ cs)
    with (take_blocked (S (length bq)) (streamFramer.Mk m fl q bq aq cq pf rb) (cs ++ [FBlocked b])).
  rewrite (IH (cs ++ [FBlocked b])), <- app_assoc. done.
Qed.

(** ** Stream frames *)

Lemma without_length_len f : StreamFrame.DataLenPresent f = true -> frame_len (without_length f) = frame_len f - 2.
Proof.
  intros E. unfold frame_len. change (flen (without_length f)) with (flen f).
  assert (StreamFrame.MinLength f = StreamFrame.MinLength (without_length f) + 2) as ->; [|lia].
  unfold StreamFrame.MinLength. rewrite E. cbn [StreamFrame.DataLenPresent without_length].
  change (StreamFrame.calculateStreamIDLength (without_length f)) with (StreamFrame.calculateStreamIDLength f).
  change (StreamFrame.getOffsetLength (without_length f)) with (StreamFrame.getOffsetLength f).
  assert (1 <= StreamFrame.calculateStreamIDLength f <= 4) by (unfold StreamFrame.calculateStreamIDLength; repeat case_match; lia).
  assert (0 <= StreamFrame.getOffsetLength f <= 8) by (unfold StreamFrame.getOffsetLength; repeat case_match; lia).
  rewrite (u64_small (1 + _)) by lia. rewrite (u64_small (_ + StreamFrame.getOffsetLength f)) by lia. by rewrite u64_small by lia.
Qed.

Lemma omit_last_snoc fs f : omit_last_length (fs ++ [f]) = fs ++ [without_length f].
Proof. induction fs as [|g fs IH]; [done|]. cbn. rewrite IH. by destruct fs. Qed.

Lemma stream_payload_len fs : payload_len (map FStream fs) = total_len fs.
Proof. unfold payload_len, total_len. by rewrite map_map. Qed.

Lemma omit_last_nil fs : map FStream (omit_last_length fs) = [] -> fs = [].
Proof. destruct fs as [|g fs _] using rev_ind; [done|]. rewrite omit_last_snoc, map_app. by intros [_ ?]%app_nil. Qed.

Lemma omit_last_with_length fs : Forall shaped fs -> map streamFramer.with_length (omit_last_length fs) = fs.
Proof.
  assert (forall f, shaped f -> streamFramer.with_length f = f /\ streamFramer.with_length (without_length f) = f) as Hw.
  { intros [id fin len off d t p] [E _]. cbn in E. subst len. done. }
  intros H. destruct fs as [|g fs _] using rev_ind; [done|]. apply Forall_app in H as [H [Hg _]%Forall_cons].
  rewrite omit_last_snoc, map_app. cbn. rewrite (proj2 (Hw g Hg)). f_equal. induction H as [|f fs Hf _ IH]; [done|]. cbn. by rewrite (proj1 (Hw f Hf)), IH.
Qed.

(** A frame that was taken from the framer. *)
Definition frame_valid (f : StreamFrame.t) : Prop :=
  shaped f /\ 0 <= StreamFrame.StreamID f < 2 ^ 32 /\ 0 <= StreamFrame.Offset f /\ StreamFrame.Offset f + flen f < 2 ^ 62.

Lemma payload_ok_app pn l lvl now a b :
  Forall (fun f => PacketUnpacker.frame_ok pn l lvl now f /\ ends_packet f = false) a -> payload_ok pn l lvl now b -> payload_ok pn l lvl now (a ++ b).
Proof. induction 1 as [|f a [Hf He] _ IH]; intros Hb; [done|]. cbn. split; [done|]. split; [by rewrite He|auto]. Qed.

Lemma total_len_nonneg fs : 0 <= total_len fs.
Proof. induction fs as [|g fs IH]; [done|]. rewrite total_len_cons. unfold frame_len, flen. pose proof (min_length_range g). lia. Qed.

(** The stream frames of a packet: the last gives up its length, which makes room for two bytes. *)
Lemma stream_part pn l lvl now fs maxLen :
  Forall frame_valid fs -> total_len fs <= maxLen + 2 -> 0 <= maxLen <= MaxPacketSize -> EncryptionUnencrypted < lvl ->
  payload_ok pn l lvl now (map FStream (omit_last_length fs)) /\ payload_len (map FStream (omit_last_length fs)) <= maxLen
  /\ Forall few_paths (map FStream (omit_last_length fs)).
Proof.
  intros Hv Hlen Hmax Hlvl. split; [|split].
  3: { apply Forall_map. eapply Forall_true. by intros f p. }
  all: destruct fs as [|g fs _] using rev_ind; [cbn; unfold payload_len; cbn; try lia; done|].
  all: rewrite omit_last_snoc, map_app; apply Forall_app in Hv as [Hv Hg]; apply Forall_singleton in Hg as [[G1 G2] (G3 & G4 & G5)].
  all: rewrite total_len_app in Hlen; unfold total_len at 2 in Hlen; cbn [map foldr] in Hlen.
  - unfold MaxPacketSize in Hmax. pose proof (total_len_nonneg fs). apply payload_ok_app.
    + apply Forall_map, Forall_forall. intros f Hf. pose proof (proj1 (Forall_forall _ _) Hv f Hf) as [[F1 F2] (F3 & F4 & F5)]. cbn. rewrite F1.
      split; [|done]. split; [|by right]. split; [split_and!; [lia..|lia|unfold flen in F5; lia|done]|]. split; [unfold flen in F5; lia|].
      rewrite F1. assert (frame_len f <= total_len fs) as Hfl.
      { clear -Hf. induction fs as [|h fs IH]; [by apply elem_of_nil in Hf|]. rewrite total_len_cons.
        apply elem_of_cons in Hf as [->|Hf]; [pose proof (total_len_nonneg fs); lia|]. specialize (IH Hf).
        unfold frame_len at 2, flen. pose proof (min_length_range h). lia. }
      unfold frame_len, flen in *. pose proof (min_length_range f). pose proof (min_length_range g). unfold MaxPacketSize. lia.
    + cbn. split; [|done]. split; [|by right]. unfold flen in G5.
      split; [split_and!; [cbn; lia..|cbn; lia|done]|]. split; [cbn; lia|]. split; [done|]. cbn.
      unfold frame_len, flen in Hlen. pose proof (min_length_range g). lia.
  - change (map FStream [without_length g]) with ([FStream (without_length g)]). rewrite payload_len_app, stream_payload_len.
    unfold payload_len. cbn [map foldr]. change (wire_len (FStream (without_length g))) with (frame_len (without_length g)).
    rewrite without_length_len by done. lia.
Qed.

(** ** Composing *)

Section Packing.
Context (params : Params) (lackbw : bool) (crypto : CryptoSetup) (maxIncoming : Z).

Definition streams_of (f : streamFramer.t) : gmap Z stream.t := streamsMap.streams (streamFramer.smap f).

(** The packer [p] in a run in which [r] was written and sent; the crypto stream is silent. *)
Record packs (p : t) (r : frun) : Prop := {
  pk_framer : FramerFacts.framer r = framer p;
  pk_run : frun_inv params r;
  pk_crypto : is_Some (streams_of (framer p) !! 1) /\ written_to r 1 = [];
  pk_ids : forall id, id ∈ dom (streams_of (framer p)) -> 0 <= id < 2 ^ 32;
  pk_control : Forall control_ok (controlFrames p);
  pk_enough : unenough p = false;
}.

(** The frames of the run can be sent. *)
Lemma sent_valid p r f : packs p r -> f ∈ sent r -> shaped f -> frame_valid f.
Proof.
  intros [E1 Hi _ Hids _ _] Hf Hs. split; [done|]. destruct Hs as [_ Hc]. rewrite <- E1 in Hids. unfold flen.
  destruct (StreamFrame.Data f) as [|b0 l0] eqn:Ed.
  - destruct Hc as [|Hfin]; [done|].
    assert ((StreamFrame.StreamID f, StreamFrame.Offset f + flen f) ∈ fins (fresh r)) as Hy.
    { apply (fi_fins _ _ Hi). rewrite fins_app. apply elem_of_app. left. apply elem_fins. exists f. done. }
    pose proof Hy as (g & Hg & _ & Eg & _)%elem_fins. apply own_fins in Hy.
    pose proof (proj1 (Forall_forall _ _) (fi_ids _ _ Hi) g Hg) as [s Hs]. rewrite Eg in Hs.
    destruct (fi_streams _ _ Hi _ s Hs) as [Eid [H1 _ _ _ H5]]. destruct (H5 _ _ Hy) as (_ & _ & He & _).
    split; [apply Hids, elem_of_dom; eauto|]. unfold flen in He. rewrite Ed in *. cbn [length] in *. lia.
  - assert (forall i b, StreamFrame.Data f !! i = Some b -> (StreamFrame.StreamID f, StreamFrame.Offset f + Z.of_nat i, b) ∈ bytes (fresh r)) as Hy.
    { intros i b Hb. apply (fi_bytes _ _ Hi). rewrite bytes_app. apply elem_of_app. left. apply elem_bytes. exists f. split; [done|].
      apply elem_frame_bytes. split; [done|]. split; [lia|]. by replace (Z.to_nat (StreamFrame.Offset f + Z.of_nat i - StreamFrame.Offset f)) with i by lia. }
    destruct (fresh_bytes _ r _ _ _ Hi (Hy 0%nat b0 ltac:(by rewrite Ed))) as (s & Hs & X1 & _).
    destruct (lookup_lt_is_Some_2 (StreamFrame.Data f) (length l0) ltac:(rewrite Ed; cbn; lia)) as [b' Hb'].
    destruct (fresh_bytes _ r _ _ _ Hi (Hy _ _ Hb')) as (s' & Hs' & X2 & X3 & _). rewrite Hs in Hs'. injection Hs' as <-.
    destruct (fi_streams _ _ Hi _ s Hs) as [_ [H1 _ _ _ _]].
    split; [apply Hids, elem_of_dom; eauto|]. cbn [length]. lia.
Qed.

(** The frames of the path that are sent first. *)
Definition heads (p : t) (pid : Z) : list Frame :=
  match stopWaiting p !! pid with Some f => [FStopWaiting f] | None => [] end
  ++ match ackFrame p !! pid with Some f => [FAck f] | None => [] end.

(** The stream frames of a payload. *)
Definition stream_frames (fs : list Frame) : list StreamFrame.t :=
  concat (map (fun f => match f with FStream f => [f] | _ => [] end) fs).

Lemma stream_frames_payload hs took fs :
  stream_frames hs = [] -> stream_frames took = [] -> stream_frames (hs ++ took ++ map FStream fs) = fs.
Proof.
  unfold stream_frames. rewrite !map_app, !concat_app. intros -> ->. cbn. induction fs as [|f fs IH]; [done|]. cbn. by rewrite IH.
Qed.

Lemma heads_no_stream p pid : stream_frames (heads p pid) = [].
Proof. unfold heads, stream_frames. by destruct (stopWaiting p !! pid), (ackFrame p !! pid). Qed.

Lemma control_no_stream fs : Forall control_ok fs -> stream_frames fs = [].
Proof. induction 1 as [|f fs Hf _ IH]; [done|]. unfold stream_frames in *. cbn. rewrite IH. by destruct f; destruct Hf. Qed.

Definition heads_ok (pn l lvl now : Z) (fs : list Frame) : Prop :=
  Forall (fun f => PacketUnpacker.frame_ok pn l lvl now f /\ ends_packet f = false) fs.

Lemma head_len pn l lvl now f :
  PacketUnpacker.frame_ok pn l lvl now f -> match f with FStopWaiting _ | FAck _ => True | _ => False end ->
  Frame_MinLength f = Ok (wire_len f) /\ 0 <= wire_len f.
Proof.
  intros Hok Hk. assert (few_paths f) as Hp by (by intros q ->).
  destruct (frame_written pn l lvl 0 now f Hok Hp) as (out & _ & E & El). rewrite E. unfold wire_len at 1. destruct f; try done; rewrite Z.add_0_r; split; done || lia.
Qed.

Lemma compose_heads p pid maxFrameSize canSend pop pn l lvl now :
  heads_ok pn l lvl now (heads p pid) -> payload_len (heads p pid) < 2 ^ 62 ->
  0 <= payload_len (heads p pid)
  /\ compose_with pop p pid maxFrameSize canSend
     = let '(r, rest) := control_loop (rev (controlFrames p)) (heads p pid, payload_len (heads p pid)) maxFrameSize in
       let p := set_control p (rev rest) in
       or_panic r p (fun x =>
       if maxFrameSize <? x.2 then (Err (errTooLarge x.2 maxFrameSize), p)
       else if negb canSend then (Ok x.1, p)
       else
         let '(r, (f, ue)) := pop (framer p) (u64 (u64 (maxFrameSize + 2) - x.2)) (unenough p) in
         let p := set_framer p f ue in
         or_panic r p (fun fs =>
         let '(cs, f) := take_blocked (S (length (streamFramer.blockedFrameQueue f))) f (controlFrames p) in
         (Ok (x.1 ++ map FStream (omit_last_length fs)), set_control (set_framer p f ue) cs))).
Proof.
  intros Hh Hb. unfold compose_with, heads in *. unfold add_sized.
  destruct (stopWaiting p !! pid) as [s|], (ackFrame p !! pid) as [a|]; cbn [app] in *; unfold payload_len in *; cbn [map foldr] in *.
  - apply Forall_cons in Hh as [[Hs _] Ha]. apply Forall_singleton in Ha as [Ha _].
    destruct (head_len _ _ _ _ _ Hs I) as [-> Es], (head_len _ _ _ _ _ Ha I) as [-> Ea]. cbn -[u64 Z.add wire_len take_blocked].
    rewrite (u64_small (0 + _)), (u64_small (0 + _ + _)), Z.add_0_l, Z.add_0_r by lia. split; [lia|done].
  - apply Forall_singleton in Hh as [Hs _]. destruct (head_len _ _ _ _ _ Hs I) as [-> Es]. cbn -[u64 Z.add wire_len take_blocked].
    rewrite (u64_small (0 + _)), Z.add_0_l, Z.add_0_r by lia. split; [lia|done].
  - apply Forall_singleton in Hh as [Ha _]. destruct (head_len _ _ _ _ _ Ha I) as [-> Ea]. cbn -[u64 Z.add wire_len take_blocked].
    rewrite (u64_small (0 + _)), Z.add_0_l, Z.add_0_r by lia. split; [lia|done].
  - split; [lia|done].
Qed.

(** The BLOCKED frames are taken out of the framer. *)
Definition drained (r : frun) : frun :=
  let f := FramerFacts.framer r in
  MkFrun (streamFramer.set_queues f [] (streamFramer.addAddressFrameQueue f) (streamFramer.closePathFrameQueue f) (streamFramer.pathsFrame f))
    (wrote r) (fresh r) (sent r).

Lemma drained_inv r : frun_inv params r -> frun_inv params (drained r).
Proof. intros [I1 I2 I3 I4 I5 I6 I8 I7 I10]. split; done. Qed.

Lemma blocked_control p r : packs p r -> Forall control_ok (map FBlocked (streamFramer.blockedFrameQueue (framer p))).
Proof.
  intros [E Hi _ Hids _ _]. apply Forall_map. pose proof (fi_blocked _ _ Hi) as Hb. rewrite E in Hb.
  eapply Forall_impl; [exact Hb|]. intros b Hid. split; [|split; [by intros q|done]]. cbn. unfold BlockedFrame.valid.
  destruct Hid as [->|Hid]; [lia|]. by apply Hids.
Qed.

Lemma compose_spec p r pid maxFrameSize canSend pn l lvl now :
  packs p r -> heads_ok pn l lvl now (heads p pid) -> payload_len (heads p pid) <= maxFrameSize <= MaxPacketSize ->
  (canSend = true -> EncryptionUnencrypted < lvl) ->
  exists took kept fs p' r', composeNextPacket params false lackbw p pid maxFrameSize canSend
      = (Ok (heads p pid ++ took ++ map FStream (omit_last_length fs)), p')
    /\ let payload := heads p pid ++ took ++ map FStream (omit_last_length fs) in
       payload_ok pn l lvl now payload /\ payload_len payload <= maxFrameSize /\ Forall few_paths payload
    /\ packs p' r' /\ base p' = base p /\ stopWaiting p' = stopWaiting p /\ ackFrame p' = ackFrame p
    /\ controlFrames p = kept ++ rev took /\ (exists bs, controlFrames p' = kept ++ map FBlocked bs)
    /\ wrote r' = wrote r /\ sent r' = sent r ++ fs.
Proof.
  intros Hp Hh Hmax Hlvl. pose proof Hp as [E1 Hi [Hc1 Hc2] Hids Hctl Hue]. unfold MaxPacketSize in *.
  destruct (compose_heads p pid maxFrameSize canSend (streamFramer.PopStreamFrames params false lackbw) pn l lvl now Hh) as [H0 Ec]; [lia|].
  unfold composeNextPacket. rewrite Ec. clear Ec.
  destruct (control_loop_spec (rev (controlFrames p)) (heads p pid) (payload_len (heads p pid)) maxFrameSize) as (took & rest & Et & Hlen & ->);
    [by apply Forall_rev|lia|lia|].
  assert (controlFrames p = rev rest ++ rev took) as Ectl by (rewrite <- rev_app_distr, <- Et, rev_involutive; done).
  rewrite Ectl in Hctl. apply Forall_app in Hctl as [Hrest Htook%Forall_rev]. rewrite rev_involutive in Htook.
  assert (heads_ok pn l lvl now (heads p pid ++ took)) as Hht.
  { apply Forall_app. split; [done|]. eapply Forall_impl; [exact Htook|]. intros f. apply control_frame_ok. }
  assert (Forall few_paths (heads p pid ++ took)) as Hpt.
  { apply Forall_app. split; [|by apply control_few]. unfold heads. apply Forall_app.
    split; [destruct (stopWaiting p !! pid)|destruct (ackFrame p !! pid)]; repeat constructor; by intros q. }
  cbn [or_panic fst snd]. rewrite <- payload_len_app in *. rewrite (proj2 (Z.ltb_ge _ _)) by lia.
  assert (0 <= payload_len (heads p pid ++ took)) as Ht0.
  { rewrite payload_len_app. enough (0 <= payload_len took) by lia. clear -Htook. induction Htook as [|f fs Hf _ IH]; [done|].
    destruct (control_len f Hf) as (_ & E & ?). unfold payload_len in *. cbn. lia. }
  destruct canSend; cbn [negb].
  - cbn [framer set_control unenough controlFrames]. rewrite Hue, <- E1, (u64_small (maxFrameSize + 2)), u64_small by lia.
    destruct (pop_step_inv params lackbw r (maxFrameSize + 2 - payload_len (heads p pid ++ took)) Hi ltac:(lia))
      as (fs & f' & r' & -> & Hd & Htot & Hsh & _ & Hi' & Ew & Es & Ef).
    cbn [or_panic]. rewrite take_blocked_spec. cbn [set_framer controlFrames].
    assert (streams_of (FramerFacts.framer r) = streams_of (framer p)) as Eso by (by rewrite E1).
    set (p1 := set_framer (set_control p (rev rest)) f' false).
    assert (packs p1 r') as Hp1.
    { split; cbn [p1 set_framer framer controlFrames unenough set_control]; try done.
      - split; [|unfold written_to; by rewrite Ew]. apply elem_of_dom. unfold streams_of. rewrite Hd. apply elem_of_dom. by rewrite E1.
      - unfold streams_of. rewrite Hd. rewrite E1. exact Hids. }
    assert (Forall frame_valid fs) as Hv.
    { apply Forall_forall. intros f Hf. apply (sent_valid p1 r'); [done|rewrite Es; apply elem_of_app; by right|].
      by apply (proj1 (Forall_forall _ _) Hsh). }
    destruct (stream_part pn l lvl now fs (maxFrameSize - payload_len (heads p pid ++ took)) Hv) as (S1 & S2 & S3);
      [lia|unfold MaxPacketSize; lia|auto|].
    eexists took, (rev rest), fs, _, (drained r'). rewrite app_assoc. split; [done|]. cbn zeta.
    split; [by apply payload_ok_app|]. split; [rewrite payload_len_app; lia|]. split; [by apply Forall_app|].
    split; [|split_and!; try done; by eexists].
    destruct Hp1 as [Q1 Q2 Q3 Q4 Q5 Q6]. pose proof (blocked_control p1 r' (Build_packs _ _ Q1 Q2 Q3 Q4 Q5 Q6)) as Hb.
    split; cbn [set_framer framer controlFrames unenough set_control drained FramerFacts.framer]; try done.
    + by rewrite Ef.
    + by apply drained_inv.
    + apply Forall_app. split; [exact Q5|exact Hb].
  - eexists took, (rev rest), [], _, r. cbn [omit_last_length map]. rewrite app_nil_r. split; [done|]. cbn zeta. rewrite !app_nil_r.
    split; [rewrite <- (app_nil_r (_ ++ _)); by apply payload_ok_app|]. split; [lia|]. split; [done|].
    split; [|split_and!; try done; exists []; by rewrite app_nil_r].
    split; done.
Qed.

(** ** Packing *)

Lemma silent p r : packs p r -> streamFramer.HasCryptoStreamFrame maxIncoming (framer p) = Some (Ok false, framer p).
Proof.
  intros [E Hi [[s Hs] Hw] _ _ _]. unfold streamFramer.HasCryptoStreamFrame, streamFramer.crypto_stream, streamsMap.GetOrOpenStream.
  unfold streams_of in Hs. rewrite Hs. rewrite <- E in Hs. destruct (fi_streams _ _ Hi 1 s Hs) as [_ [_ _ (buf & El & Hh) _ _]].
  rewrite Hw in El. symmetry in El. apply app_eq_nil in El as [_ ->].
  assert (stream.lenOfDataForWriting s = 0) as Hl.
  { unfold stream.lenOfDataForWriting. destruct (stream.err s); [done|]. destruct (stream.dataForWriting s); [|done]. by destruct Hh as (_ & _ & ?). }
  cbn. rewrite Hl. by destruct (framer p).
Qed.

Context (pth : SendPath) (now : Z) (rnd : option Z).
Abbreviation lvl := (GetSealer crypto).1.
Abbreviation sealer := (GetSealer crypto).2.

Definition header (p : t) : PublicHeader.t := getPublicHeader (base p) lvl pth.
Definition header_len (p : t) : Z := Z.of_nat (length (PublicHeader.header_bytes (header p) (version (base p)) (perspective (base p)))).
(** What is left for the payload. *)
Definition room (p : t) : Z := MaxPacketSize - Overhead sealer - header_len p.
Definition numbered (p : t) : t := number_stop_waiting p (pathID pth) (header p).

(** The path may send a packet: its acknowledgement is valid and fits. *)
Record ready (p : t) : Prop := {
  rd_path : packer_ok (base p) pth;
  rd_heads : heads_ok (PublicHeader.PacketNumber (header p)) (PublicHeader.PacketNumberLen (header p)) lvl now (heads (numbered p) (pathID pth));
  rd_fit : payload_len (heads (numbered p) (pathID pth)) <= room p;
  rd_room : 1 <= room p;
  rd_overhead : 0 <= Overhead sealer;
}.

(** The packet [pkt] leaves: it has bytes, no more than allowed, the number of the path is used up,
    and the peer reads its frames. *)
Definition leaves (p : t) (pkt : packedPacket) (pth' : SendPath) : Prop :=
  number pkt = next_number pth /\ encryptionLevel pkt = lvl /\ next_number pth < next_number pth'
  /\ exists bs, raw pkt = Some bs
     /\ ((forall d n ad, length (Seal sealer d n ad) = (length d + Z.to_nat (Overhead sealer))%nat) -> Z.of_nat (length bs) <= MaxPacketSize)
     /\ forall (Open : quicAEAD) last,
         (forall d ad, Open (Seal sealer d (number pkt) ad) (number pkt) ad = Ok (d, lvl)) ->
         0 <= last < 2 ^ 62 -> leastUnacked pth <= last + 1 ->
         2 * (last + 1 - next_number pth) < 2 ^ (8 * PublicHeader.PacketNumberLen (header p)) ->
         receive_packet Open (perspective (base p)) (version (base p)) last bs
         = Ok (with_number (PublicHeader.received (header p)) (next_number pth), lvl, seen now <$> frames pkt).

Lemma finish_spec p q fs :
  ready p -> base q = base p -> fs <> [] ->
  payload_ok (PublicHeader.PacketNumber (header p)) (PublicHeader.PacketNumberLen (header p)) lvl now fs ->
  payload_len fs <= room p -> Forall few_paths fs ->
  exists bs pth', finish q (header p) lvl sealer fs pth now rnd
      = (Ok (Some (MkPacked (PublicHeader.PacketNumber (header p)) (Some bs) fs lvl)), (q, pth'))
    /\ leaves p (MkPacked (PublicHeader.PacketNumber (header p)) (Some bs) fs lvl) pth'.
Proof.
  intros [Hok _ _ Hroom Hov] Eb Hne Hpay Hlen Hfew. unfold finish. rewrite Eb.
  destruct (PacketPacker.written (base p) sealer pth lvl fs now rnd Hok Hpay) as (payload & Hw & Hnext & E & Hrecv).
  fold (header p) in E, Hrecv. pose proof (payload_written _ _ _ _ _ _ _ Hpay Hfew Hw) as Hpl. rewrite E.
  assert (Z.of_nat (length (PublicHeader.header_bytes (header p) (version (base p)) (perspective (base p)) ++ payload)) + Overhead sealer <= MaxPacketSize) as Hfit.
  { rewrite length_app, Nat2Z.inj_add, Hpl. unfold room, header_len in Hlen. lia. }
  unfold MaxPacketSize in *. rewrite !u64_small, (proj2 (Z.ltb_ge _ _)) by lia. cbn [or_panic].
  eexists _, _. split; [done|]. split; [done|]. split; [done|]. split; [done|]. eexists. split; [done|]. split.
  - intros Hs. rewrite length_app, Hs. rewrite length_app in Hfit. unfold MaxPacketSize. lia.
  - intros Open last Hopen Hl1 Hl2 Hl3. by apply Hrecv.
Qed.

Lemma numbered_packs p r : packs p r -> packs (numbered p) r.
Proof. intros [H1 H2 H3 H4 H5 H6]. split; done. Qed.

(** [composeNextPacket] of [PackPacket], for a PING too. *)
Definition composed (p : t) : res (list Frame) * t :=
  if isPing (controlFrames p) then (Ok (take 1 (controlFrames p)), set_control p (drop 1 (controlFrames p)))
  else composeNextPacket params false lackbw p (pathID pth) (room p) (canSendData (base p) lvl).

Lemma pack_unfold p r :
  packs p r -> ready p ->
  PackPacket crypto params false lackbw maxIncoming p pth now rnd
  = Some (let '(r, q) := composed (numbered p) in
      or_panic r (q, pth) (fun fs =>
      if (length fs =? 0)%nat then (Ok None, (q, pth))
      else if ((length fs =? 1)%nat && bool_decide (is_Some (stopWaiting q !! pathID pth))) then (Ok None, (q, pth))
      else finish (set_acks q (delete (pathID pth) (stopWaiting q)) (delete (pathID pth) (ackFrame q))) (header p) lvl sealer fs pth now rnd)).
Proof.
  intros Hp [Hok _ _ Hroom Hov]. unfold PackPacket, pack_with. rewrite (silent p r Hp).
  assert (set_framer p (framer p) (unenough p) = p) as -> by (by destruct p).
  rewrite (surjective_pairing (GetSealer crypto)). cbn zeta. fold (header p).
  pose proof (PublicHeader.GetLength_bytes _ (version (base p)) (perspective (base p)) (getPublicHeader_regular _ _ lvl Hok)) as El.
  fold (header p) in El. rewrite El. cbn [or_panic].
  fold (numbered p). unfold composed. fold (header_len p). unfold room, MaxPacketSize in *. change (header_len (numbered p)) with (header_len p).
  assert (0 <= header_len p) by (unfold header_len; lia).
  rewrite (u64_small (Overhead _)), (u64_small (1350 - _)), (u64_small (1350 - _ - _)) by lia.
  change ((GetSealer crypto).1, (GetSealer crypto).2).1 with (GetSealer crypto).1. change ((GetSealer crypto).1, (GetSealer crypto).2).2 with (GetSealer crypto).2.
  f_equal. destruct (if isPing _ then _ else _) as [[fs| |] q]; cbn [or_panic]; [|done..].
  destruct (length fs =? 0)%nat; [done|]. destruct (_ && _); [done|].
  by destruct (finish _ _ _ _ _ _ _ _) as [[[[n [b|] fs' l]|]| |] st].
Qed.

Lemma pack_spec p r :
  packs p r -> ready p ->
  exists res p' pth' r' payload fs kept, PackPacket crypto params false lackbw maxIncoming p pth now rnd = Some (Ok res, (p', pth'))
    /\ packs p' r' /\ wrote r' = wrote r /\ sent r' = sent r ++ fs /\ base p' = base p
    /\ stream_frames payload = omit_last_length fs
    /\ (isPing (controlFrames p) = false ->
        exists took bs, payload = heads (numbered p) (pathID pth) ++ took ++ map FStream (omit_last_length fs)
          /\ controlFrames p = kept ++ rev took /\ controlFrames p' = kept ++ map FBlocked bs)
    /\ match res with
       | Some pkt => leaves p pkt pth' /\ frames pkt = payload
           /\ stopWaiting p' = delete (pathID pth) (stopWaiting p) /\ ackFrame p' = delete (pathID pth) (ackFrame p)
       | None => pth' = pth /\ fs = [] /\ stopWaiting p' = stopWaiting (numbered p) /\ ackFrame p' = ackFrame p
           /\ (isPing (controlFrames p) = false -> payload = [] \/ exists f, payload = [FStopWaiting f])
       end.
Proof.
  intros Hp Hr. rewrite (pack_unfold p r Hp Hr). pose proof (numbered_packs p r Hp) as Hn. pose proof Hr as [Hok Hh Hfit Hroom Hov].
  unfold composed. change (controlFrames (numbered p)) with (controlFrames p). destruct (isPing (controlFrames p)) eqn:Eping.
  - destruct (controlFrames p) as [|[] cs] eqn:Ecs; try done. rewrite firstn_cons, firstn_O, skipn_cons, skipn_O. cbn [or_panic length Nat.eqb].
    assert (packs (set_control (numbered p) cs) r) as Hq.
    { destruct Hn as [N1 N2 N3 N4 N5 N6]. split; try done. cbn in N5. rewrite Ecs in N5. by apply Forall_cons in N5 as [_ ?]. }
    destruct (bool_decide _) eqn:Esw; cbn [andb].
    + eexists None, _, pth, r, [FPing], [], cs. split; [done|]. rewrite app_nil_r. split; [done|]. by split_and!.
    + set (q := set_acks _ _ _). destruct (finish_spec p q [FPing] Hr) as (bs & pth' & Ef & Hl); [done|done|by split_and!|change (payload_len [FPing]) with 1; lia|by apply Forall_singleton; intros q'|].
      rewrite Ef. eexists (Some _), q, pth', r, [FPing], [], cs. split; [done|]. rewrite app_nil_r.
      split; [destruct Hq; split; done|]. split_and!; try done. cbn. apply map_eq. intros i.
      destruct (decide (i = pathID pth)) as [->|]; [by rewrite !lookup_delete_eq|]. by rewrite !lookup_delete_ne, lookup_alter_ne.
  - destruct (compose_spec (numbered p) r (pathID pth) (room p) (canSendData (base p) lvl) _ _ lvl now Hn Hh)
      as (took & kept & fs & p' & r' & Ec & C1 & C2 & C3 & C4 & C5 & C6 & C7 & C8 & [bs C9] & C10 & C11).
    { unfold room, header_len, MaxPacketSize in *. lia. }
    { unfold canSendData, EncryptionUnencrypted, EncryptionSecure, EncryptionForwardSecure. destruct (negb _); [intros ?%Z.leb_le|intros ?%Z.eqb_eq]; lia. }
    change (room (numbered p)) with (room p). change (base (numbered p)) with (base p). rewrite Ec. cbn [or_panic].
    set (payload := heads _ _ ++ took ++ _) in *.
    assert (stream_frames payload = omit_last_length fs) as Hsf.
    { apply stream_frames_payload; [apply heads_no_stream|]. apply control_no_stream. pose proof (pk_control _ _ Hn) as Hc.
      rewrite C8 in Hc. apply Forall_app in Hc as [_ Hc%Forall_rev]. by rewrite rev_involutive in Hc. }
    assert (forall f, payload = [] \/ payload = [f] /\ is_Some (stopWaiting p' !! pathID pth) -> fs = [] /\ (payload = [] \/ exists f, payload = [FStopWaiting f])) as Hnone.
    { intros f Hcase. rewrite C6 in Hcase. unfold payload, heads in *. destruct Hcase as [Hnil|[Hone [s Hs]]].
      - split; [|by left]. by apply app_nil in Hnil as [_ [_ Hnil%omit_last_nil]%app_nil].
      - rewrite Hs in Hone |- *. cbn [app] in Hone |- *. split; [|right; exists s; transitivity [f]; [exact Hone|by injection Hone as <-]]. injection Hone as _ Hnil.
        by apply app_nil in Hnil as [_ [_ Hnil%omit_last_nil]%app_nil]. }
    destruct (Nat.eqb_spec (length payload) 0) as [E0|Hne]; [|destruct (_ && _) eqn:E1].
    + destruct (Hnone FPing) as [-> Hpl]; [left; by apply nil_length_inv|].
      eexists None, p', pth, r', payload, [], kept. split; [done|]. split_and!; try done. intros _. by exists took, bs.
    + apply andb_true_iff in E1 as [El%Nat.eqb_eq Esw%bool_decide_eq_true]. destruct payload as [|f [|]] eqn:Epl; try done.
      destruct (Hnone f) as [-> Hpl]; [by right|].
      eexists None, p', pth, r', [f], [], kept. split; [done|]. split_and!; try done. intros _. by exists took, bs.
    + set (q := set_acks _ _ _). destruct (finish_spec p q payload Hr) as (raw & pth' & Ef & Hl); [done|by intros E; rewrite E in Hne|done..|].
      rewrite Ef. eexists (Some _), q, pth', r', payload, fs, kept. split; [done|].
      split; [destruct C4; split; done|]. split_and!; try done.
      * intros _. by exists took, bs.
      * cbn. rewrite C6. cbn. apply map_eq. intros i. destruct (decide (i = pathID pth)) as [->|]; [by rewrite !lookup_delete_eq|].
        by rewrite !lookup_delete_ne, lookup_alter_ne.
      * cbn. by rewrite C7.
Qed.
End Packing.

(** ** The acknowledgement fits *)

(** No more than 2 ^ 32 - 2 packets in a row after the first of a range, which would take six bytes. *)
Definition short_ranges (a : Acked) : Prop := forall r, r ∈ AckRanges a -> range_size r <= 4294967295.

Lemma num_writable_bound rs : forall n prev, 0 <= n < 255 -> 0 <= numWritable_loop n prev rs < 255.
Proof.
  induction rs as [|r rs IH]; intros n prev Hn; cbn [numWritable_loop]; [done|].
  destruct (Z.ltb_spec (u64 (n + rangeLength (gap_between prev r))) 255); [|done]. apply IH. split; [|done]. by apply wrap_range.
Qed.

Lemma delta_len_bound a : short_ranges a -> HasMissingRanges a = true -> getMissingSequenceNumberDeltaLen a <= 4.
Proof.
  intros Hs Hm. unfold getMissingSequenceNumberDeltaLen. rewrite Hm.
  assert (forall l m, (forall r, r ∈ l -> range_size r <= 4294967295) -> m <= 4294967295 ->
    fold_left (fun m r => if m <? range_size r then range_size r else m) l m <= 4294967295) as Hf.
  { induction l as [|r l IH]; intros m Hl Hle; [done|]. cbn. apply IH; [intros; apply Hl; by right|].
    specialize (Hl r ltac:(by left)). destruct (m <? range_size r); lia. }
  specialize (Hf (AckRanges a) 0 Hs ltac:(lia)). unfold PacketNumberLen1, PacketNumberLen2, PacketNumberLen4, PacketNumberLen6.
  set (m := fold_left _ _ _) in *. destruct (m <=? 255); [lia|]. destruct (m <=? 65535); [lia|]. by rewrite (proj2 (Z.leb_le _ _)) by lia.
Qed.

Lemma ack_len_bound f : acked_wf (AckFrame.acked f) -> short_ranges (AckFrame.acked f) -> wire_len (FAck f) <= 1286.
Proof.
  intros Hwf Hs. unfold wire_len, min_len. cbn [Frame_MinLength]. unfold AckFrame.MinLength.
  assert (0 <= GetPacketNumberLength (LargestAcked (AckFrame.acked f)) <= 6) as Hl.
  { unfold GetPacketNumberLength, PacketNumberLen1, PacketNumberLen2, PacketNumberLen4, PacketNumberLen6. repeat case_match; lia. }
  assert (0 <= getMissingSequenceNumberDeltaLen (AckFrame.acked f) <= 6) as Hd.
  { unfold getMissingSequenceNumberDeltaLen, PacketNumberLen1, PacketNumberLen2, PacketNumberLen4, PacketNumberLen6. repeat case_match; lia. }
  rewrite (u64_small (1 + 2 + 1 + _)) by lia.
  assert (0 <= (if HasMissingRanges (AckFrame.acked f) then u64 ((1 + getMissingSequenceNumberDeltaLen (AckFrame.acked f)) * numWritableNackRanges (AckFrame.acked f))
           else getMissingSequenceNumberDeltaLen (AckFrame.acked f)) <= 1275) as Hm.
  { destruct (HasMissingRanges _) eqn:Em; [|lia]. pose proof (delta_len_bound _ Hs Em). unfold numWritableNackRanges.
    destruct (AckRanges (AckFrame.acked f)) as [|r0 rs]; [by rewrite Z.mul_0_r|]. pose proof (num_writable_bound rs 0 r0 ltac:(lia)).
    rewrite (u64_small (numWritable_loop 0 r0 rs + 1)), u64_small by nia. nia. }
  rewrite (u64_small (1 + 2 + 1 + _ + _)) by lia. destruct (negb _); [rewrite u64_small by lia|]; lia.
Qed.

Lemma stop_waiting_len pn l lvl now f : PacketUnpacker.frame_ok pn l lvl now (FStopWaiting f) -> wire_len (FStopWaiting f) <= 7.
Proof.
  intros [(H1 & H2 & H3 & H4) _]. unfold wire_len, min_len. cbn [Frame_MinLength]. unfold StopWaitingFrame.MinLength.
  destruct (_ =? 0); [cbn; lia|]. cbn. unfold valid_pn_len in H3. rewrite u64_small; lia.
Qed.

Lemma header_len_bound crypto pth p :
  packer_ok (base p) pth -> is_server (perspective (base p)) && ((GetSealer crypto).1 =? EncryptionSecure) = false -> header_len crypto pth p <= 20.
Proof.
  intros Hok Hn. pose proof (PublicHeader.reg_pn_len _ _ _ (getPublicHeader_regular _ _ (GetSealer crypto).1 Hok)) as Hl.
  unfold header_len, PublicHeader.header_bytes. fold (header crypto pth p) in Hl. unfold valid_pn_len in Hl.
  assert (PublicHeader.DiversificationNonce (header crypto pth p) = []) as -> by (unfold header, getPublicHeader; cbn; by rewrite Hn).
  assert (forall (b : bool) (x y : list Z) (n : nat), (length x <= n)%nat -> (length y <= n)%nat -> (length (if b then x else y) <= n)%nat) as Hif by (by intros []).
  rewrite !length_app, enc_length, !Nat2Z.inj_add. cbn [length].
  pose proof (Hif (negb (PublicHeader.TruncateConnectionID (header crypto pth p))) (enc (ByteOrderOk := LittleEndian_ok) 8 (PublicHeader.ConnectionID (header crypto pth p))) [] 8%nat ltac:(by rewrite enc_length) ltac:(cbn; lia)).
  pose proof (Hif (PublicHeader.VersionFlag (header crypto pth p)) (enc (ByteOrderOk := LittleEndian_ok) 4 (VersionNumberToTag (PublicHeader.VersionNumber (header crypto pth p)))) [] 4%nat ltac:(by rewrite enc_length) ltac:(cbn; lia)).
  pose proof (Hif (PublicHeader.MultipathFlag (header crypto pth p)) [u8 (PublicHeader.PathID (header crypto pth p))] [] 1%nat ltac:(done) ltac:(cbn; lia)).
  lia.
Qed.

(** ** Runs *)

(** The packer, what was written to the streams and the packets that were made. *)
Record pstate : Type := MkP { packer : t; accepted : gmap Z (list Z); packets : list packedPacket }.

Definition with_stream (p : t) (id : Z) (s : stream.t) : t :=
  set_framer p (streamFramer.set_smap (framer p) (streamFramer.put (streamFramer.smap (framer p)) id s)) (unenough p).

Section Steps.
Context (params : Params) (lackbw : bool) (maxIncoming : Z).

(** The application writes and closes, the peer raises a window, a packet is lost and a frame of
    it queued again, a control frame or the acknowledgement of a path is queued, and a path that
    is ready packs a packet. *)
Inductive pstep (st : pstate) : pstate -> Prop :=
| step_write id s d now :
    id <> 1 -> streams_of (framer (packer st)) !! id = Some s -> stream.dataForWriting s = None ->
    Z.of_nat (length (default [] (accepted st !! id) ++ d)) < 2 ^ 62 ->
    let s' := (stream.Write false s d now).2 in
    pstep st (MkP (with_stream (packer st) id s')
      (if stream.isNone (stream.dataForWriting s') then accepted st else <[id := default [] (accepted st !! id) ++ d]> (accepted st)) (packets st))
| step_close id s :
    streams_of (framer (packer st)) !! id = Some s ->
    pstep st (MkP (with_stream (packer st) id (stream.Close s)) (accepted st) (packets st))
| step_window id off c :
    controller (streamFramer.flow (framer (packer st))) id = Some c -> flowController.getSendWindow params c <= off < 2 ^ 62 ->
    pstep st (MkP (set_framer (packer st)
        (set_flow (framer (packer st)) (flowControlManager.UpdateWindow (streamFramer.flow (framer (packer st))) id off).2) (unenough (packer st)))
      (accepted st) (packets st))
| step_lost pkt f :
    pkt ∈ packets st -> FStream f ∈ frames pkt ->
    pstep st (MkP (set_framer (packer st) (streamFramer.AddFrameForRetransmission (framer (packer st)) f) (unenough (packer st)))
      (accepted st) (packets st))
| step_queue f pid :
    (control_ok f \/ match f with FStopWaiting _ | FAck _ => True | _ => False end) ->
    pstep st (MkP (QueueControlFrame (packer st) f pid) (accepted st) (packets st))
| step_pack crypto pth now rnd pkt p' pth' :
    ready crypto pth now (packer st) ->
    PackPacket crypto params false lackbw maxIncoming (packer st) pth now rnd = Some (Ok pkt, (p', pth')) ->
    pstep st (MkP p' (accepted st) (packets st ++ option_list pkt)).

(** [f]: a framer with open streams that were not used. *)
Record fresh_packer (p : t) : Prop := {
  fp_unused : unused params (framer p);
  fp_crypto : is_Some (streams_of (framer p) !! 1);
  fp_ids : forall id, id ∈ dom (streams_of (framer p)) -> 0 <= id < 2 ^ 32;
  fp_empty : controlFrames p = [] /\ unenough p = false;
}.

Inductive reachable : pstate -> Prop :=
| reach_start p : fresh_packer p -> reachable (MkP p ∅ [])
| reach_step st st' : reachable st -> pstep st st' -> reachable st'.

Definition sent_frames (pkts : list packedPacket) : list StreamFrame.t := concat (map (fun pkt => stream_frames (frames pkt)) pkts).

Record pinv (st : pstate) (r : frun) : Prop := {
  pv_packs : packs params (packer st) r;
  pv_wrote : wrote r = accepted st;
  pv_sent : sent r = map streamFramer.with_length (sent_frames (packets st));
}.

(** A step of the framer is one of the packer. *)
Lemma framer_step st r o r' :
  pinv st r -> fop_ok o -> fop_fits r o -> fstep params lackbw r o = Ok r' -> written_to r' 1 = [] -> sent r' = sent r ->
  pinv (MkP (set_framer (packer st) (FramerFacts.framer r') (unenough (packer st))) (wrote r') (packets st)) r'.
Proof.
  intros [[P1 P2 P3 P4 P5 P6] Hw Hs] Ho Hb E H1 Hs'. destruct (fstep_inv params lackbw r o P2 Ho Hb) as (r1 & E1 & Hi & Hd & _).
  rewrite E in E1. injection E1 as <-. split; [|done|by rewrite Hs']. rewrite P1 in Hd.
  split; cbn [packer set_framer framer controlFrames unenough]; try done.
  - split; [|done]. apply elem_of_dom. unfold streams_of. rewrite Hd. apply elem_of_dom, P3.
  - unfold streams_of. by rewrite Hd.
Qed.

Lemma pstep_inv st st' : (exists r, pinv st r) -> pstep st st' -> exists r, pinv st' r.
Proof.
  intros [r Hv] Hstep. pose proof Hv as [Hp Hw Hs]. pose proof Hp as [P1 P2 [P3 P3'] P4 P5 P6]. destruct Hstep as
    [id s d now Hid Es Ed Hlen s'|id s Es|id off c Ec Hoff|pkt f Hpkt Hf|f pid Hf|crypto pth now rnd pkt p' pth' Hr E].
  - assert (default [] (accepted st !! id) = written_to r id) as Ew by (unfold written_to; by rewrite Hw). rewrite Ew in *. unfold streams_of in Es.
    pose (r' := MkFrun (streamFramer.set_smap (framer (packer st)) (streamFramer.put (streamFramer.smap (framer (packer st))) id s'))
      (if stream.isNone (stream.dataForWriting s') then accepted st else <[id := written_to r id ++ d]> (accepted st)) (fresh r) (sent r)).
    exists r'. apply (framer_step st r (FWrite id d now) r'); try done.
    + cbn [fstep]. rewrite P1, Es, Ed. cbn [stream.isNone]. by rewrite Hw.
    + unfold written_to. cbn. rewrite <- Hw. destruct (stream.isNone _); [done|]. by rewrite lookup_insert_ne.
  - unfold streams_of in Es.
    pose (r' := MkFrun (streamFramer.set_smap (framer (packer st)) (streamFramer.put (streamFramer.smap (framer (packer st))) id (stream.Close s)))
      (accepted st) (fresh r) (sent r)).
    exists r'. apply (framer_step st r (FClose id) r'); try done.
    + cbn [fstep]. rewrite P1, Es. by rewrite Hw.
    + unfold written_to. cbn. by rewrite <- Hw.
  - pose (r' := MkFrun (set_flow (framer (packer st)) (flowControlManager.UpdateWindow (streamFramer.flow (framer (packer st))) id off).2) (accepted st) (fresh r) (sent r)).
    exists r'. apply (framer_step st r (FWindow id off) r'); try done; [cbn; lia| |].
    + cbn [fstep]. rewrite P1, Ec, (proj2 (Z.leb_le _ _)) by lia. by rewrite Hw.
    + unfold written_to. cbn. by rewrite <- Hw.
  - pose (r' := MkFrun (streamFramer.AddFrameForRetransmission (framer (packer st)) f) (accepted st) (fresh r) (sent r)).
    exists r'. apply (framer_step st r (FLost f) r'); try done.
    + cbn [fstep]. rewrite P1, bool_decide_eq_true_2; [by rewrite Hw|]. rewrite Hs. apply list_elem_of_fmap_2.
      unfold sent_frames. apply list_elem_of_In, in_concat. exists (stream_frames (frames pkt)).
      split; [apply in_map_iff; exists pkt; split; [done|by apply list_elem_of_In]|].
      unfold stream_frames. apply in_concat. exists [f]. split; [|by left]. apply in_map_iff. exists (FStream f). split; [done|by apply list_elem_of_In].
    + unfold written_to. cbn. by rewrite <- Hw.
  - exists r. split; [|done|done]. destruct Hf as [Hf|Hf].
    + assert (QueueControlFrame (packer st) f pid = set_control (packer st) (controlFrames (packer st) ++ [f])) as -> by (by destruct f; destruct Hf).
      split; try done. apply Forall_app. split; [done|]. constructor; [exact Hf|done].
    + destruct f; try done; split; done.
  - destruct (pack_spec params lackbw crypto maxIncoming pth now rnd (packer st) r Hp Hr)
      as (res & q & pth2 & r' & payload & fs & kept & E' & Hq & Ew & Es & Eb & Esf & Hk & Hres).
    rewrite E in E'. injection E' as <- <- <-. exists r'. split; cbn [packer accepted packets]; [done|congruence|].
    rewrite Es, Hs. pose proof (proj2 (fi_shape _ _ (pk_run _ _ _ Hq))) as Hsh. rewrite Es in Hsh. apply Forall_app in Hsh as [_ Hsh].
    unfold sent_frames. destruct pkt as [pkt|].
    + destruct Hres as (_ & Ef & _). change (option_list (Some pkt)) with [pkt]. rewrite map_app, concat_app, map_app. cbn.
      by rewrite app_nil_r, Ef, Esf, omit_last_with_length.
    + destruct Hres as (_ & -> & _). change (option_list (@None packedPacket)) with (@nil packedPacket). by rewrite !app_nil_r.
Qed.

Lemma packer_run_inv st : reachable st -> exists r, pinv st r.
Proof.
  induction 1 as [p [Hu Hc Hids [He1 He2]]|st st' _ IH Hstep]; [|by eapply pstep_inv].
  exists (fstart (framer p)). split; [|done|done]. split; cbn [packer]; try done.
  - by apply frun_inv_start.
  - by rewrite He1.
Qed.

End Steps.

(** ** Theorems *)

(** C15. In every state a run can reach without the flag [-iprio] and with a silent crypto stream, a path whose
    acknowledgement is valid (so that its second range can be written) and fits packs without an error, and the packet it
    makes leaves: it is sealed, no larger than a packet may be, uses up the packet number, and a peer with recent packet
    numbers reads from it the frames as the wire carries them. *)
Theorem packets_leave params lackbw maxIncoming crypto pth now rnd st :
  reachable params lackbw maxIncoming st -> ready crypto pth now (packer st) ->
  exists pkt p' pth', PackPacket crypto params false lackbw maxIncoming (packer st) pth now rnd = Some (Ok pkt, (p', pth'))
    /\ match pkt with
       | Some pkt => leaves crypto pth now (packer st) pkt pth' /\ frames pkt <> []
       | None => pth' = pth /\ ackFrame p' = ackFrame (packer st)
       end.
Proof.
  intros Hr Hrd. destruct (packer_run_inv _ _ _ _ Hr) as [r [Hp _ _]].
  destruct (pack_spec params lackbw crypto maxIncoming pth now rnd (packer st) r Hp Hrd)
    as (pkt & p' & pth' & r' & payload & fs & kept & E & _ & _ & _ & _ & _ & _ & Hres).
  exists pkt, p', pth'. split; [done|]. destruct pkt as [pkt|]; [|by destruct Hres as (? & _ & _ & ? & _)].
  destruct Hres as (Hl & _). split; [done|]. intros Ef. rewrite (pack_unfold params lackbw crypto maxIncoming pth now rnd (packer st) r Hp Hrd) in E.
  destruct (composed _ _ _ _ _) as [[l| |] q]; cbn [or_panic] in E; try done.
  destruct (Nat.eqb_spec (length l) 0) as [|Hne]; [done|]. destruct (_ && _); [done|]. unfold finish in E.
  destruct (writeAndSealPacket _ _ _ _ _ _ _) as [[x| |] y]; cbn [or_panic] in E; [|done..]. injection E as <- _ _. cbn in Ef. by subst l.
Qed.

(** C1. What is taken from a stream leaves in a packet, and nothing else does, without the flag [-iprio] (which drops
    video data) and while the crypto stream is silent: after any steps of the packer, in which the paths that pack have
    an acknowledgement that fits, every byte below the write offset of a stream is in a stream frame of some packet, at
    its place, and every byte of a stream frame is the one that was written at its place. *)
Theorem taken_bytes_are_packed params lackbw maxIncoming st id s :
  reachable params lackbw maxIncoming st -> streams_of (framer (packer st)) !! id = Some s ->
  (forall x b, Z.of_nat x < stream.writeOffset s -> default [] (accepted st !! id) !! x = Some b ->
     exists pkt f, pkt ∈ packets st /\ FStream f ∈ frames pkt /\ (id, Z.of_nat x, b) ∈ frame_bytes f)
  /\ forall pkt f x b, pkt ∈ packets st -> FStream f ∈ frames pkt -> (id, x, b) ∈ frame_bytes f ->
       0 <= x < stream.writeOffset s /\ default [] (accepted st !! id) !! Z.to_nat x = Some b.
Proof.
  intros Hr Es. destruct (packer_run_inv _ _ _ _ Hr) as [r [[P1 P2 _ _ _ _] Hw Hs]]. unfold streams_of in Es. rewrite <- P1 in Es.
  assert (forall id, default [] (accepted st !! id) = written_to r id) as Ew by (intros; unfold written_to; by rewrite Hw). rewrite Ew.
  assert (forall f, f ∈ sent_frames (packets st) <-> exists pkt, pkt ∈ packets st /\ FStream f ∈ frames pkt) as Hin.
  { intros f. unfold sent_frames. rewrite list_elem_of_In, in_concat. setoid_rewrite in_map_iff. unfold stream_frames. split.
    - intros (l & (pkt & <- & Hpkt) & Hf). apply in_concat in Hf as (l & ([g| | | | | | | | | | |] & <- & Hg)%in_map_iff & Hf); try done.
      destruct Hf as [->|[]]. exists pkt. by rewrite !list_elem_of_In.
    - intros (pkt & Hpkt%list_elem_of_In & Hf%list_elem_of_In). eexists. split; [by exists pkt|]. apply in_concat. exists [f].
      split; [|by left]. apply in_map_iff. by exists (FStream f). }
  split.
  - intros x b Hx Hb. destruct (fi_streams _ _ P2 id s Es) as [Eid [H1 H2 (buf & El & _) H4 _]].
    assert ((id, Z.of_nat x, b) ∈ bytes (own id (fresh r))) as Hy.
    { rewrite H4, Eid. unfold placed. apply list_elem_of_lookup. exists x. apply list_lookup_imap_Some. exists b. split; [|done].
      rewrite El in Hb. rewrite lookup_app_l in Hb by lia. done. }
    apply elem_own_bytes, elem_bytes in Hy as (f & Hf & Hy). apply (fi_fresh _ _ P2) in Hf. rewrite Hs in Hf.
    apply list_elem_of_fmap in Hf as (g & -> & (pkt & Hpkt & Hg)%Hin). by exists pkt, g.
  - intros pkt f x b Hpkt Hf Hy. destruct (fresh_bytes _ r id x b P2) as (s' & Hs' & Hx & _ & Hb); [|].
    + apply (fi_bytes _ _ P2). rewrite bytes_app. apply elem_of_app. left. apply elem_bytes. exists (streamFramer.with_length f).
      split; [|done]. rewrite Hs. apply list_elem_of_fmap_2, Hin. by exists pkt.
    + rewrite Es in Hs'. injection Hs' as <-. done.
Qed.

Definition is_control (f : Frame) : bool := match f with FStream _ | FAck _ | FStopWaiting _ => false | _ => true end.

(** Control frames are neither lost nor sent twice: unless a PING is the first, those that were
    queued and the BLOCKED frames of the framer are those of the packet and those that stay. *)
Theorem control_frames_conserved params lackbw maxIncoming crypto pth now rnd st pkt p' pth' :
  reachable params lackbw maxIncoming st -> ready crypto pth now (packer st) -> isPing (controlFrames (packer st)) = false ->
  PackPacket crypto params false lackbw maxIncoming (packer st) pth now rnd = Some (Ok pkt, (p', pth')) ->
  exists bs, Permutation (controlFrames (packer st) ++ map FBlocked bs)
    (match pkt with Some pkt => List.filter is_control (frames pkt) | None => [] end ++ controlFrames p').
Proof.
  intros Hr Hrd Hping E. destruct (packer_run_inv _ _ _ _ Hr) as [r [Hp _ _]].
  destruct (pack_spec params lackbw crypto maxIncoming pth now rnd (packer st) r Hp Hrd)
    as (pkt' & q & pth2 & r' & payload & fs & kept & E' & _ & _ & _ & _ & Hsf & Hk & Hres).
  rewrite E in E'. injection E' as <- <- <-. destruct (Hk Hping) as (took & bs & Epay & E1 & E2). exists bs.
  assert (Forall control_ok took) as Ht.
  { pose proof (pk_control _ _ _ Hp) as Hc. rewrite E1 in Hc. apply Forall_app in Hc as [_ Hc%Forall_rev]. by rewrite rev_involutive in Hc. }
  assert (List.filter is_control payload = took) as Ef.
  { rewrite Epay, !List.filter_app. assert (List.filter is_control (heads (numbered crypto pth (packer st)) (pathID pth)) = []) as ->.
    { unfold heads. by destruct (stopWaiting _ !! _), (ackFrame _ !! _). }
    assert (List.filter is_control (map FStream (omit_last_length fs)) = []) as -> by (clear; generalize (omit_last_length fs); induction l; done).
    rewrite app_nil_r. cbn. clear -Ht. induction Ht as [|f l Hf _ IH]; [done|]. cbn. rewrite IH. by destruct f; destruct Hf. }
  assert (match pkt with Some pkt => List.filter is_control (frames pkt) | None => [] end = took) as ->.
  { destruct pkt as [pkt|]; [by destruct Hres as (_ & -> & _)|]. destruct Hres as (_ & _ & _ & _ & Hn).
    rewrite <- Ef. by destruct (Hn Hping) as [-> |[f ->]]. }
  rewrite E1, E2, !app_assoc. apply Permutation_app_tail. rewrite Permutation_app_comm. apply Permutation_app_tail. symmetry. apply Permutation_rev.
Qed.

(** C40. "STOP_WAITING and ACK will always fit": while no range of the ACK frame has 2 ^ 32 packets,
    both frames fit into a packet of any path, whatever its header, unless the server adds its
    nonce. *)
Theorem acknowledgement_fits crypto pth now p :
  packer_ok (base p) pth -> is_server (perspective (base p)) && ((GetSealer crypto).1 =? EncryptionSecure) = false ->
  Overhead (GetSealer crypto).2 <= 32 ->
  heads_ok (PublicHeader.PacketNumber (header crypto pth p)) (PublicHeader.PacketNumberLen (header crypto pth p)) (GetSealer crypto).1 now
    (heads (numbered crypto pth p) (pathID pth)) ->
  (forall f, ackFrame p !! pathID pth = Some f -> short_ranges (AckFrame.acked f)) ->
  payload_len (heads (numbered crypto pth p) (pathID pth)) <= room crypto pth p.
Proof.
  intros Hok Hn Hov Hh Hs. pose proof (header_len_bound crypto pth p Hok Hn) as Hl. unfold room, MaxPacketSize. unfold heads in *.
  change (ackFrame (numbered crypto pth p)) with (ackFrame p) in *. apply Forall_app in Hh as [Hsw Hack]. rewrite payload_len_app.
  assert (payload_len match ackFrame p !! pathID pth with Some f => [FAck f] | None => [] end <= 1286) as Ha.
  { destruct (ackFrame p !! pathID pth) as [f|]; [|done]. apply Forall_cons in Hack as [[(Hwf & _) _] _].
    pose proof (ack_len_bound f Hwf (Hs f eq_refl)). unfold payload_len. cbn [map foldr]. lia. }
  destruct (stopWaiting (numbered crypto pth p) !! pathID pth) as [f|]; [|change (payload_len []) with 0; lia].
  apply Forall_cons in Hsw as [[Hf _] _]. pose proof (stop_waiting_len _ _ _ _ _ Hf). unfold payload_len at 1. cbn [map foldr]. lia.
Qed.

(** ** Examples *)

Definition sample_crypto : CryptoSetup :=
  MkCrypto (EncryptionForwardSecure, null_sealer) (fun _ => Ok null_sealer) (EncryptionForwardSecure, null_sealer).
Definition sample_start : t := newPacketPacker sample_packer (streamFramer.newStreamFramer three_streams (one_flow 5000)).

(** An ACK frame and a STOP_WAITING frame wait for path 3. *)
Definition sample_ack : AckFrame.t := AckFrame.Mk 3 (MkAcked 100 1 [MkAckRange 50 100; MkAckRange 1 10]) 0 0.
Definition acknowledging (p : t) : t :=
  QueueControlFrame (QueueControlFrame p (FAck sample_ack) 3) (FStopWaiting (StopWaitingFrame.Mk 5 0 0)) 3.

(** A PING that is queued first is sent alone.  When a STOP_WAITING frame waits for the same
    path, the packet counts as one with only that frame: nothing is sent, the PING is gone, and
    the ACK frame that was queued waits on. *)
Theorem ping_is_swallowed :
  match PackPing sample_crypto (windows 5000) false false 100 (acknowledging sample_start) sample_path 5 0 None with
  | Some (Ok pkt, (p', pth')) => pkt = None /\ controlFrames p' = [] /\ pathID pth' = 3
      /\ ackFrame p' !! 3 = Some sample_ack /\ is_Some (stopWaiting p' !! 3)
  | _ => False
  end.
Proof. vm_compute. split_and!; try done. by eexists. Qed.

(** Thirty video headers, and a frame of 1000 bytes that was lost. *)
Definition overfull : t :=
  newPacketPacker sample_packer (streamFramer.AddFrameForRetransmission (closed_with true (concat (repeat video_header 30)) 5000)
    (StreamFrame.Mk 5 false true 0 (repeat 1 1000%nat) 0 false)).

(** When bandwidth is short, the frame of video headers may not fit, and [writeAndSealPacket] makes
    nothing.  [PackPacket] returns this as a packet without bytes and without an error; its frames,
    also those that are to be sent again, have left the framer, and the packet number is not used
    up; the session panics when it returns the packet's buffer. *)
Theorem oversized_packet_loses_frames :
  match PackPacket sample_crypto (windows 5000) true true 100 overfull sample_path 0 None with
  | Some (Ok (Some pkt), (p', pth')) => raw pkt = None /\ putPacketBuffer (raw pkt) = Panic /\ length (frames pkt) = 2%nat /\ pth' = sample_path
      /\ streamFramer.retransmissionQueue (framer p') = [] /\ stream.lenOfDataForWriting <$> streams_of (framer p') !! 5 = Some 0
  | _ => False
  end.
Proof. vm_compute. split_and!; done. Qed.

(** ** Witnesses *)

(** Stream 5 has data, path 3 acknowledges, a window is raised. *)
Definition stream_at (st : pstate) (id : Z) : stream.t := default (stream.newStream id) (streams_of (framer (packer st)) !! id).

Definition sample_written : pstate :=
  let s' := (stream.Write false (stream_at (MkP sample_start ∅ []) 5) [104; 105] 0).2 in
  MkP (with_stream sample_start 5 s') (<[5 := [104; 105]]> ∅) [].
Definition sample_window : Frame := FWindowUpdate (WindowUpdateFrame.Mk 5 100000).
Definition sample_queued : pstate :=
  MkP (QueueControlFrame (acknowledging (packer sample_written)) sample_window 3) (accepted sample_written) [].

Lemma sample_fresh : fresh_packer (windows 5000) sample_start.
Proof.
  split; [by apply three_unused|by eexists| |done]. intros id. unfold streams_of. change (streamFramer.smap _) with three_streams.
  rewrite (proj1 three_streams_eq), !dom_insert_L, dom_empty_L, !elem_of_union, !elem_of_singleton, elem_of_empty. lia.
Qed.

Lemma sample_queued_reachable : reachable (windows 5000) false 100 sample_queued.
Proof.
  assert (reachable (windows 5000) false 100 sample_written) as H.
  { eapply (reach_step _ _ _ (MkP sample_start ∅ [])); [by apply reach_start, sample_fresh|].
    exact (step_write _ _ _ (MkP sample_start ∅ []) 5 (stream.newStream 5) [104; 105] 0 ltac:(done) ltac:(reflexivity) ltac:(reflexivity) ltac:(vm_compute; reflexivity)). }
  eapply reach_step; [eapply reach_step; [eapply reach_step; [exact H|]|]|].
  - apply (step_queue _ _ _ _ (FAck sample_ack) 3). by right.
  - apply (step_queue _ _ _ (MkP (QueueControlFrame (packer sample_written) (FAck sample_ack) 3) _ _) (FStopWaiting (StopWaitingFrame.Mk 5 0 0)) 3). by right.
  - apply (step_queue _ _ _ (MkP (acknowledging (packer sample_written)) _ _) sample_window 3). left.
    split; [vm_compute; intuition congruence|]. split; [by intros q|vm_compute; intuition congruence].
Qed.

Lemma sample_heads_ok :
  heads_ok 9 2 EncryptionForwardSecure 0 (heads (numbered sample_crypto sample_path (packer sample_queued)) 3).
Proof. repeat (constructor; [split; [vm_compute; intuition congruence|vm_compute; reflexivity]|]). constructor. Qed.

Lemma sample_ready : ready sample_crypto sample_path 0 (packer sample_queued).
Proof. split; [split; vm_compute; intuition congruence|exact sample_heads_ok|vm_compute; congruence..]. Qed.

(** What a path packs in [sample_queued]. *)
Definition sample_packed : res (option packedPacket) * (t * SendPath) :=
  default (Panic, (sample_start, sample_path)) (PackPacket sample_crypto (windows 5000) false false 100 (packer sample_queued) sample_path 0 None).
Definition sample_pkt : option packedPacket := match sample_packed.1 with Ok pkt => pkt | _ => None end.
Definition sample_after : pstate := MkP sample_packed.2.1 (accepted sample_queued) (packets sample_queued ++ option_list sample_pkt).

Lemma sample_packed_ok :
  PackPacket sample_crypto (windows 5000) false false 100 (packer sample_queued) sample_path 0 None
  = Some (Ok sample_pkt, (sample_packed.2.1, sample_packed.2.2)).
Proof. vm_compute. reflexivity. Qed.

Lemma packets_leave_witness :
  exists pkt p' pth', PackPacket sample_crypto (windows 5000) false false 100 (packer sample_queued) sample_path 0 None = Some (Ok pkt, (p', pth'))
    /\ match pkt with
       | Some pkt => leaves sample_crypto sample_path 0 (packer sample_queued) pkt pth' /\ frames pkt <> []
       | None => pth' = sample_path /\ ackFrame p' = ackFrame (packer sample_queued)
       end.
Proof.
  apply (packets_leave (windows 5000) false 100 sample_crypto sample_path 0 None sample_queued); [exact sample_queued_reachable|exact sample_ready].
Defined.

Lemma sample_after_reachable : reachable (windows 5000) false 100 sample_after.
Proof.
  unfold sample_after. apply (reach_step _ _ _ sample_queued); [exact sample_queued_reachable|].
  exact (step_pack _ _ _ sample_queued sample_crypto sample_path 0 None sample_pkt sample_packed.2.1 sample_packed.2.2 sample_ready sample_packed_ok).
Qed.

(** The two bytes are in the packet. *)
Lemma taken_bytes_are_packed_witness :
  stream.writeOffset (stream_at sample_after 5) = 2
  /\ exists pkt f, pkt ∈ packets sample_after /\ FStream f ∈ frames pkt /\ (5, 1, 105) ∈ frame_bytes f.
Proof.
  split; [vm_compute; reflexivity|].
  apply (proj1 (taken_bytes_are_packed (windows 5000) false 100 sample_after 5 (stream_at sample_after 5) sample_after_reachable ltac:(vm_compute; reflexivity)) 1%nat 105);
    vm_compute; reflexivity.
Defined.

Lemma control_frames_conserved_witness :
  exists bs, Permutation (controlFrames (packer sample_queued) ++ map FBlocked bs)
    (match sample_pkt with Some pkt => List.filter is_control (frames pkt) | None => [] end ++ controlFrames sample_packed.2.1).
Proof.
  apply (control_frames_conserved (windows 5000) false 100 sample_crypto sample_path 0 None sample_queued sample_pkt sample_packed.2.1 sample_packed.2.2);
    [exact sample_queued_reachable|exact sample_ready|reflexivity|exact sample_packed_ok].
Defined.

Lemma acknowledgement_fits_witness :
  payload_len (heads (numbered sample_crypto sample_path (packer sample_queued)) 3) = 13
  /\ payload_len (heads (numbered sample_crypto sample_path (packer sample_queued)) (pathID sample_path)) <= room sample_crypto sample_path (packer sample_queued).
Proof.
  split; [vm_compute; reflexivity|].
  apply (acknowledgement_fits sample_crypto sample_path 0 (packer sample_queued)); [apply (rd_path _ _ _ _ sample_ready)|reflexivity|vm_compute; congruence|exact sample_heads_ok|].
  intros f [= <-] r Hr. change (r ∈ [MkAckRange 50 100; MkAckRange 1 10]) in Hr. rewrite !elem_of_cons, elem_of_nil in Hr. destruct Hr as [->|[->|[]]]; vm_compute; congruence.
Defined.
