(* ===== verification/Session.v ===== *)
(** * Sessions and their paths

    Models [session.go], the receiving side of [path.go] and [path_manager.go] over the components:
    the dispatch of packets to paths and of frames to streams, flow control, the packet handlers and
    the path manager, the creation and closing of paths, the packets that cannot be decrypted yet,
    and the removal of finished streams.

    Handlers run in a state and error monad; a call ends with a value, an error or a panic, or has
    not ended ([None]).  The streams map and flow control are those of the packer's framer, which
    share them; the session's RTT statistics are those of path 0.  What a connection writes is
    recorded in [wrote].  Channels of capacity one are flags; a send that blocks for ever has not ended.

    Parameters are the crypto setup (with the AEAD, and what happens to a diversification nonce), the
    congestion controller of a new path, what the network reports for a write, and
    [net.UDPAddr.String].  The order in which Go walks a map is
    that of [map_to_list].  The scheduler's sending loops are not part of this file. *)

From stdpp Require Import base numbers list option strings gmap.
From S2P Require Import Prelude ByteOrder Protocol AckFrame ClosePathFrame StreamFrame ControlFrames PublicHeader PacketUnpacker PacketPacker FlowControl FrameSorter GoFloat ReceivedPackets RttStats SentPackets StreamsMap GoSlice Stream StreamFramer PackPacket.

Local Open Scope Z_scope.

Abbreviation UDPAddr := AddAddressFrame.UDPAddr.

(** What surrounds a session: its configuration, the crypto setup and the network. *)
Record Env : Type := MkEnv {
  crypto : packetPacker.CryptoSetup;
  Open : quicAEAD;
  SetDiversificationNonce : list Z -> option (res unit);  (* [None]: nothing receives the nonce *)
  params : Params;
  maxIncoming : Z;
  maxOutgoing : Z;
  IPriority : bool;
  lackbw : bool;                              (* of the scheduler's monitor *)
  createPaths_ : bool;                        (* [session.createPaths] *)
  localAddrs : list UDPAddr;                  (* [pconnManager.localAddrs] *)
  addrString : UDPAddr -> string;
  conn_Write : Z -> list Z -> option goerr;   (* on which path; the error *)
  rnd : option Z;                             (* of the packet number generators *)
}.

Section Session.
Context {C : Type} `{!SendAlgorithm C} (newCongestion : Z -> C).
Context (env : Env).

Record path : Type := MkPath {
  pathID : Z;
  open : bool;
  potentiallyFailed : bool;
  sent : sentPacketHandler.t (C := C);
  rcvd : receivedPacketHandler.t;
  generator : packetNumberGenerator.t;
  leastUnacked : Z;
  lastRcvdPacketNumber : Z;
  largestRcvdPacketNumber : Z;
  lastNetworkActivityTime : Z;
  localAddr : string;
  remoteAddr : UDPAddr;
  closing : bool;                             (* [closeChan] *)
  sentPacket : bool;                          (* the channel that wakes the path's goroutine *)
}.

Record receivedPacket : Type := MkReceived {
  fromAddr : UDPAddr;
  publicHeader : PublicHeader.t;
  rawHeader : list Z;                         (* [publicHeader.Raw] *)
  data : list Z;
  rcvTime : Z;
  rcvPconn : string;                          (* the local address it arrived at *)
}.

Record pathManager : Type := MkManager {
  nxtPathID : Z;
  remoteAddrs4 : list UDPAddr;
  remoteAddrs6 : list UDPAddr;
  advertisedLocAddrs : list string;
}.

(** Why the session is to close. *)
Inductive close_reason : Type :=
| Local (e : goerr)
| Remote (code : Z) (reason : list Z).

Record session : Type := MkSession {
  perspective : Perspective;
  version : Z;
  paths : gmap Z path;
  closedPaths : gset Z;
  remoteRTTs : gmap Z Z;
  lastPathsFrameSent : Z;
  packer : packetPacker.t;
  peerBlocked : bool;
  handshakeComplete : bool;
  manager : option pathManager;
  closeErr : option close_reason;             (* [closeChan] and [closeOnce] *)
  lastActivity : Z;                           (* [lastNetworkActivityTime] *)
  keepAlivePingSent : bool;
  receivedPackets : list receivedPacket;
  undecryptablePackets : list receivedPacket;
  tooManyUndecryptable : option Z;
  wrote : list (Z * list Z);
}.

(** ** Access to the parts *)

Definition set_paths (s : session) (ps : gmap Z path) : session :=
  MkSession (perspective s) (version s) ps (closedPaths s) (remoteRTTs s) (lastPathsFrameSent s) (packer s) (peerBlocked s)
    (handshakeComplete s) (manager s) (closeErr s) (lastActivity s) (keepAlivePingSent s) (receivedPackets s) (undecryptablePackets s)
    (tooManyUndecryptable s) (wrote s).
Definition set_packer (s : session) (p : packetPacker.t) : session :=
  MkSession (perspective s) (version s) (paths s) (closedPaths s) (remoteRTTs s) (lastPathsFrameSent s) p (peerBlocked s)
    (handshakeComplete s) (manager s) (closeErr s) (lastActivity s) (keepAlivePingSent s) (receivedPackets s) (undecryptablePackets s)
    (tooManyUndecryptable s) (wrote s).
Definition set_remote (s : session) (rtts : gmap Z Z) (lastFrame : Z) : session :=
  MkSession (perspective s) (version s) (paths s) (closedPaths s) rtts lastFrame (packer s) (peerBlocked s)
    (handshakeComplete s) (manager s) (closeErr s) (lastActivity s) (keepAlivePingSent s) (receivedPackets s) (undecryptablePackets s)
    (tooManyUndecryptable s) (wrote s).
Definition set_manager (s : session) (m : option pathManager) (closed : gset Z) : session :=
  MkSession (perspective s) (version s) (paths s) closed (remoteRTTs s) (lastPathsFrameSent s) (packer s) (peerBlocked s)
    (handshakeComplete s) m (closeErr s) (lastActivity s) (keepAlivePingSent s) (receivedPackets s) (undecryptablePackets s)
    (tooManyUndecryptable s) (wrote s).
Definition set_status (s : session) (blocked : bool) (e : option close_reason) (activity : Z) (ping : bool) : session :=
  MkSession (perspective s) (version s) (paths s) (closedPaths s) (remoteRTTs s) (lastPathsFrameSent s) (packer s) blocked
    (handshakeComplete s) (manager s) e activity ping (receivedPackets s) (undecryptablePackets s)
    (tooManyUndecryptable s) (wrote s).
Definition set_received (s : session) (r u : list receivedPacket) (tooMany : option Z) : session :=
  MkSession (perspective s) (version s) (paths s) (closedPaths s) (remoteRTTs s) (lastPathsFrameSent s) (packer s) (peerBlocked s)
    (handshakeComplete s) (manager s) (closeErr s) (lastActivity s) (keepAlivePingSent s) r u tooMany (wrote s).
Definition set_wrote (s : session) (w : list (Z * list Z)) : session :=
  MkSession (perspective s) (version s) (paths s) (closedPaths s) (remoteRTTs s) (lastPathsFrameSent s) (packer s) (peerBlocked s)
    (handshakeComplete s) (manager s) (closeErr s) (lastActivity s) (keepAlivePingSent s) (receivedPackets s) (undecryptablePackets s)
    (tooManyUndecryptable s) w.

Definition framer (s : session) : streamFramer.t := packetPacker.framer (packer s).
Definition streamsMap_ (s : session) : streams_t := streamFramer.smap (framer s).
Definition flow (s : session) : flowControlManager.t := streamFramer.flow (framer s).
Definition set_framer (s : session) (f : streamFramer.t) : session :=
  set_packer s (packetPacker.set_framer (packer s) f (packetPacker.unenough (packer s))).
Definition set_streams (s : session) (m : streams_t) (fl : flowControlManager.t) : session :=
  let f := framer s in
  set_framer s (streamFramer.Mk m fl (streamFramer.retransmissionQueue f) (streamFramer.blockedFrameQueue f)
    (streamFramer.addAddressFrameQueue f) (streamFramer.closePathFrameQueue f) (streamFramer.pathsFrame f) (streamFramer.retransbytes f)).

Definition set_sent (p : path) (h : sentPacketHandler.t (C := C)) : path :=
  MkPath (pathID p) (open p) (potentiallyFailed p) h (rcvd p) (generator p) (leastUnacked p) (lastRcvdPacketNumber p)
    (largestRcvdPacketNumber p) (lastNetworkActivityTime p) (localAddr p) (remoteAddr p) (closing p) (sentPacket p).
Definition set_rcvd (p : path) (h : receivedPacketHandler.t) (last largest : Z) : path :=
  MkPath (pathID p) (open p) (potentiallyFailed p) (sent p) h (generator p) (leastUnacked p) last largest
    (lastNetworkActivityTime p) (localAddr p) (remoteAddr p) (closing p) (sentPacket p).
Definition set_flags (p : path) (op failed clos : bool) : path :=
  MkPath (pathID p) op failed (sent p) (rcvd p) (generator p) (leastUnacked p) (lastRcvdPacketNumber p)
    (largestRcvdPacketNumber p) (lastNetworkActivityTime p) (localAddr p) (remoteAddr p) clos (sentPacket p).
Definition set_sentPacket (p : path) (b : bool) : path :=
  MkPath (pathID p) (open p) (potentiallyFailed p) (sent p) (rcvd p) (generator p) (leastUnacked p) (lastRcvdPacketNumber p)
    (largestRcvdPacketNumber p) (lastNetworkActivityTime p) (localAddr p) (remoteAddr p) (closing p) b.
Definition set_activity (p : path) (time : Z) (addr : UDPAddr) : path :=
  MkPath (pathID p) (open p) (potentiallyFailed p) (sent p) (rcvd p) (generator p) (leastUnacked p) (lastRcvdPacketNumber p)
    (largestRcvdPacketNumber p) time (localAddr p) addr (closing p) (sentPacket p).
Definition set_numbers (p : path) (g : packetNumberGenerator.t) (least : Z) : path :=
  MkPath (pathID p) (open p) (potentiallyFailed p) (sent p) (rcvd p) g least (lastRcvdPacketNumber p)
    (largestRcvdPacketNumber p) (lastNetworkActivityTime p) (localAddr p) (remoteAddr p) (closing p) (sentPacket p).

(** ** The monad *)

Definition M (A : Type) : Type := session -> option (res A * session).
Definition ret {A} (a : A) : M A := fun s => Some (Ok a, s).
Definition fail {A} (e : goerr) : M A := fun s => Some (Err e, s).
Definition panic {A} : M A := fun s => Some (Panic, s).
Definition bind {A B} (m : M A) (k : A -> M B) : M B := fun s =>
  match m s with
  | Some (Ok a, s) => k a s
  | Some (Err e, s) => Some (Err e, s)
  | Some (Panic, s) => Some (Panic, s)
  | None => None
  end.
Notation "'do!' x ':=' m 'in' k" := (bind m (fun x => k)) (at level 10, x name, m at level 99, k at level 200).
Definition get : M session := fun s => Some (Ok s, s).
Definition modify (f : session -> session) : M unit := fun s => Some (Ok tt, f s).
Definition lift {A} (r : res A) : M A := fun s => Some (r, s).
(** The call returns an error, which is [None] if it is nil. *)
Definition check (e : option goerr) : M unit := match e with Some e => fail e | None => ret tt end.

(** The error is dropped. *)
Definition ignore_error (m : M unit) : M unit := fun s =>
  match m s with Some (Err _, s) => Some (Ok tt, s) | r => r end.

(** [s.paths[pid]]; a nil path is dereferenced. *)
Definition the_path (pid : Z) : M path := fun s =>
  match paths s !! pid with Some p => Some (Ok p, s) | None => Some (Panic, s) end.
Definition put_path (p : path) : M unit := modify (fun s => set_paths s (<[pathID p := p]> (paths s))).

(** ** Streams *)

(** [session.newStream], for every stream that the streams map opened: the crypto and the header
    stream do not count for the connection. *)
Definition register (fl : flowControlManager.t) (id : Z) : flowControlManager.t :=
  flowControlManager.NewStream fl id (negb ((id =? 1) || (id =? 3))) (params env).
Definition opened_flow (m m' : streams_t) (fl : flowControlManager.t) : flowControlManager.t :=
  foldl register fl (drop (length (streamsMap.openStreams m)) (streamsMap.openStreams m')).

(** A call of the streams map that may open streams. *)
Definition on_streams {A} (call : streams_t -> option (res A * streams_t)) : M A := fun s =>
  match call (streamsMap_ s) with
  | Some (r, m) => Some (r, set_streams s m (opened_flow (streamsMap_ s) m (flow s)))
  | None => None
  end.

Definition GetOrOpenStream (id : Z) : M (option stream.t) :=
  on_streams (fun m => streamsMap.GetOrOpenStream stream.newStream (maxIncoming env) m id).
Definition OpenStream : M stream.t := on_streams (fun m => Some (streamsMap.OpenStream stream.newStream (maxOutgoing env) m)).

(** [None]: the call waits for the peer to open a stream. *)
Definition AcceptStream : M stream.t :=
  on_streams (fun m => match streamsMap.AcceptStream m with (Some r, m) => Some (r, m) | (None, _) => None end).

(** The stream has changed. *)
Definition put_stream (str : stream.t) (fl : flowControlManager.t) : M unit :=
  modify (fun s => set_streams s (streamFramer.put (streamsMap_ s) (stream.streamID str) str) fl).

(** [queueResetStreamFrame] *)
Definition queueResetStreamFrame (r : option (Z * Z)) : M unit :=
  match r with
  | Some (id, offset) =>
      modify (fun s => set_packer s (packetPacker.QueueControlFrame (packer s) (FRstStream (RstStreamFrame.Mk id 0 offset)) InitialPathID))
  | None => ret tt
  end.

Definition errRstStreamOnInvalidStream : goerr := GoErr "RST_STREAM received for unknown stream".
Definition errWindowUpdateOnClosedStream : goerr := GoErr "WINDOW_UPDATE received for an already closed stream".

Definition handleStreamFrame (frame : StreamFrame.t) : M unit :=
  do! str := GetOrOpenStream (StreamFrame.StreamID frame) in
  match str with
  | None => ret tt
  | Some str =>
      do! s := get in
      let '(r, (fl, str)) := stream.AddStreamFrame (flow s) str frame in
      do! _ := put_stream str fl in
      lift r
  end.

Definition handleWindowUpdateFrame (frame : WindowUpdateFrame.t) : M unit :=
  do! _ := (if WindowUpdateFrame.StreamID frame =? 0 then ret tt
            else
              do! str := GetOrOpenStream (WindowUpdateFrame.StreamID frame) in
              match str with Some _ => ret tt | None => fail errWindowUpdateOnClosedStream end) in
  do! s := get in
  let '(r, fl) := flowControlManager.UpdateWindow (flow s) (WindowUpdateFrame.StreamID frame) (WindowUpdateFrame.ByteOffset frame) in
  do! _ := modify (fun s => set_streams s (streamsMap_ s) fl) in
  do! _ := lift r in ret tt.

Definition handleRstStreamFrame (frame : RstStreamFrame.t) : M unit :=
  do! str := GetOrOpenStream (RstStreamFrame.StreamID frame) in
  match str with
  | None => fail errRstStreamOnInvalidStream
  | Some str =>
      let '(rst, str) := stream.RegisterRemoteError str (GoErr ("RST_STREAM received with code " +:+ flowControlManager.num (RstStreamFrame.ErrorCode frame))) in
      do! s := get in
      do! _ := put_stream str (flow s) in
      do! _ := queueResetStreamFrame rst in
      do! s := get in
      let '(e, fl) := flowControlManager.ResetStream (flow s) (RstStreamFrame.StreamID frame) (RstStreamFrame.ByteOffset frame) in
      do! _ := modify (fun s => set_streams s (streamsMap_ s) fl) in
      check e
  end.

(** ** Acknowledgements and closed paths *)

Definition smoothed (p : path) : Z := RTTStats.SmoothedRTT (sentPacketHandler.rttStats (sent p)).

Definition set_rtt (h : sentPacketHandler.t (C := C)) (r : RTTStats.t) : sentPacketHandler.t :=
  sentPacketHandler.Mk (sentPacketHandler.lastSentPacketNumber h) (sentPacketHandler.skippedPackets h)
    (sentPacketHandler.numNonRetransmittablePackets h) (sentPacketHandler.LargestAcked h) (sentPacketHandler.largestReceivedPacketWithAck h) r
    (sentPacketHandler.inflight h) (sentPacketHandler.lossTime h) (sentPacketHandler.lastSentTime h) (sentPacketHandler.alarm h)
    (sentPacketHandler.stats h).

(** The session's RTT statistics are those of path 0. *)
Definition handleAckFrame (frame : AckFrame.t) (now : Z) : M unit :=
  do! pth := the_path (AckFrame.PathID frame) in
  let '(e, h) := sentPacketHandler.ReceivedAck (sent pth) frame (lastRcvdPacketNumber pth) (lastNetworkActivityTime pth) now in
  do! _ := put_path (set_sent pth h) in
  match e with
  | Some e => fail e
  | None =>
      do! pth := the_path (AckFrame.PathID frame) in
      do! first := the_path InitialPathID in
      if smoothed first <? smoothed pth
      then put_path (set_sent first (set_rtt (sent first) (RTTStats.UpdateSessionRTT (sentPacketHandler.rttStats (sent first)) (smoothed pth))))
      else ret tt
  end.

(** [pathManager.closePath]; [None]: it waits for the path, which was told to close before. *)
Definition manager_closePath (pid : Z) : M unit := fun s =>
  match paths s !! pid with
  | Some p =>
      if open p then
        if closing p then None else put_path (set_flags p (open p) (potentiallyFailed p) true) s
      else Some (Ok tt, s)
  | None => Some (Ok tt, s)
  end.

Definition errUnknownPath : goerr := GoErr "Unknown path ID to close".

Definition closePath (pid : Z) (sendClosePathFrame : bool) : M unit :=
  do! s := get in
  match paths s !! pid with
  | None => fail errUnknownPath
  | Some _ =>
      if decide (pid ∈ closedPaths s) then ret tt
      else
        do! _ := (match manager s with Some _ => manager_closePath pid | None => ret tt end) in
        do! _ := modify (fun s => set_manager s (manager s) ({[pid]} ∪ closedPaths s)) in
        if negb sendClosePathFrame then ret tt
        else
          do! pth := the_path pid in
          do! _ := put_path (set_sent pth (sentPacketHandler.SetInflightAsLost (sent pth))) in
          do! f := lift (receivedPacketHandler.GetClosePathFrame (rcvd pth)) in
          modify (fun s => set_framer s (streamFramer.AddClosePathFrameForTransmission (framer s)
                                           (ClosePathFrame.Mk pid (ClosePathFrame.acked f))))
  end.

Definition handleClosePathFrame (frame : ClosePathFrame.t) (now : Z) : M unit :=
  do! _ := closePath (ClosePathFrame.PathID frame) false in
  do! pth := the_path (ClosePathFrame.PathID frame) in
  let '(e, h) := sentPacketHandler.ReceivedClosePath (sent pth) frame (lastRcvdPacketNumber pth) now in
  do! _ := put_path (set_sent pth h) in
  check e.

(** ** Sending on a path *)

Definition send_path (s : session) (p : path) : SendPath := MkSendPath (pathID p) (leastUnacked p) (generator p) (handshakeComplete s).

(** [pth.sentPacket <- struct{}{}]: the channel has room for one, and the goroutine of an open path takes out what is
    there.  [None]: nothing takes it out any more, and the send blocks. *)
Definition signal_sent (pid : Z) : M unit := fun s =>
  match paths s !! pid with
  | Some p => if sentPacket p && negb (open p) then None else put_path (set_sentPacket p true) s
  | None => Some (Panic, s)
  end.

Definition sendPackedPacket (packet : packetPacker.packedPacket) (pid : Z) (needRetrans : bool) (now : Z) : M unit :=
  do! pth := the_path pid in
  let len := Z.of_nat (length (default [] (packetPacker.raw packet))) in
  let '(e, h) := sentPacketHandler.SentPacket (sent pth)
      (MkPacket (packetPacker.number packet) (packetPacker.frames packet) len (packetPacker.encryptionLevel packet) 0 needRetrans) now in
  do! _ := put_path (set_sent pth h) in
  let putBuffer : M unit := lift (packetPacker.putPacketBuffer (packetPacker.raw packet)) in
  match e with
  | Some e => do! _ := putBuffer in fail e
  | None =>
      let bytes := default [] (packetPacker.raw packet) in
      do! _ := signal_sent pid in
      do! _ := modify (fun s => set_wrote s (wrote s ++ [(pid, bytes)])) in
      do! _ := putBuffer in
      check (conn_Write env pid bytes)
  end.

Definition sendPing (pid now : Z) : M unit :=
  do! pth := the_path pid in
  do! s := get in
  match packetPacker.PackPing (crypto env) (params env) (IPriority env) (lackbw env) (maxIncoming env) (packer s) (send_path s pth)
          (sentPacketHandler.GetLeastUnacked (sent pth)) now (rnd env) with
  | None => fun _ => None
  | Some (r, (p, sp)) =>
      do! _ := modify (fun s => set_packer s p) in
      do! _ := put_path (set_numbers pth (PacketPacker.generator sp) (PacketPacker.leastUnacked sp)) in
      do! packet := lift r in
      match packet with None => ret tt | Some packet => sendPackedPacket packet pid true now end
  end.

(** ** Creating paths *)

(** [path.setup] *)
Definition setup (pid : Z) (local : string) (remote : UDPAddr) (version now : Z) : path :=
  let rtt := RTTStats.Mk 0 0 0 0 0 0 0 RTTStats.no_sample RTTStats.no_sample RTTStats.no_sample RTTStats.no_sample in
  MkPath pid true false (sentPacketHandler.NewSentPacketHandler rtt (newCongestion pid) now)
    (receivedPacketHandler.NewReceivedPacketHandler version now) (packetNumberGenerator.newPacketNumberGenerator 500)
    0 0 0 now local remote false false.

(** [ip.To4() != nil] *)
Definition is_ip4 (ip : list Z) : bool :=
  (length ip =? 4)%nat || ((length ip =? 16)%nat && bool_decide (take 12 ip = repeat 0 10 ++ [255; 255])).

(** [pathManager.setup]; the first path is entered by [newSession]. *)
Definition newPathManager (side : Perspective) (remote : UDPAddr) : pathManager :=
  let ip4 := is_ip4 (AddAddressFrame.IP remote) in
  MkManager (if is_server side then 2 else 1) (if ip4 then [remote] else []) (if ip4 then [] else [remote]) [].

(** What [session.setup] builds before it opens the crypto stream; without a connection manager
    ([multipath = false]) there is no path manager. *)
Definition newSession (b : Packer) (multipath : bool) (local : string) (remote : UDPAddr) (now : Z) : session :=
  let side := PacketPacker.perspective b in
  let version := PacketPacker.version b in
  MkSession side version {[InitialPathID := setup InitialPathID local remote version now]} ∅ ∅ 0
    (packetPacker.newPacketPacker b
       (streamFramer.newStreamFramer (streamsMap.newStreamsMap side) (flowControlManager.NewFlowControlManager (params env))))
    false false (if multipath then Some (newPathManager side remote) else None) None now false [] [] None [].

(** The crypto stream: the server does not expose it. *)
Definition open_crypto : M unit :=
  do! s := get in
  if is_server (perspective s) then
    do! _ := ignore_error (do! _ := GetOrOpenStream 1 in ret tt) in
    ignore_error (do! _ := AcceptStream in ret tt)
  else ignore_error (do! _ := OpenStream in ret tt).

Definition schedulePathsFrame (now : Z) : M unit :=
  modify (fun s =>
    set_framer (set_remote s (remoteRTTs s) now)
      (streamFramer.AddPathsFrameForTransmission (framer s)
         (map (fun '(pid, p) => (pid, potentiallyFailed p, smoothed p)) (map_to_list (paths s))))).

Definition the_manager : M pathManager := fun s =>
  match manager s with Some m => Some (Ok m, s) | None => Some (Panic, s) end.
Definition put_manager (m : pathManager) : M unit := modify (fun s => set_manager s (Some m) (closedPaths s)).

Definition path_exists (s : session) (local remote : UDPAddr) : bool :=
  existsb (fun '(_, p) => String.eqb (addrString env local) (localAddr p) && String.eqb (addrString env remote) (addrString env (remoteAddr p)))
    (map_to_list (paths s)).

Definition createPath (local remote : UDPAddr) (now : Z) : M unit :=
  do! s := get in
  if path_exists s local remote then ret tt
  else
    do! m := the_manager in
    let pid := nxtPathID m in
    do! _ := put_path (setup pid (addrString env local) remote (version s) now) in
    do! _ := put_manager (MkManager (u8 (nxtPathID m + 2)) (remoteAddrs4 m) (remoteAddrs6 m) (advertisedLocAddrs m)) in
    sendPing pid now.

Definition getIPVersion (ip : list Z) : Z := if is_ip4 ip then 4 else 6.

Fixpoint for_each {A} (f : A -> M unit) (l : list A) : M unit :=
  match l with [] => ret tt | a :: l => do! _ := f a in for_each f l end.

Definition advertise (local : UDPAddr) : M unit :=
  do! m := the_manager in
  if decide (addrString env local ∈ advertisedLocAddrs m) then ret tt
  else
    do! _ := modify (fun s => set_framer s (streamFramer.AddAddressForTransmission (framer s) (u8 (getIPVersion (AddAddressFrame.IP local))) local)) in
    put_manager (MkManager (nxtPathID m) (remoteAddrs4 m) (remoteAddrs6 m) (addrString env local :: advertisedLocAddrs m)).

Definition createPaths (now : Z) : M unit :=
  do! s := get in
  if is_server (perspective s) then for_each advertise (localAddrs env)
  else
    do! _ := for_each (fun local =>
      do! m := the_manager in
      for_each (fun remote => createPath local remote now)
        (if getIPVersion (AddAddressFrame.IP local) =? 4 then remoteAddrs4 m else remoteAddrs6 m)) (localAddrs env) in
    schedulePathsFrame now.

Definition handleAddAddressFrame (f : AddAddressFrame.t) (now : Z) : M unit :=
  do! m := the_manager in
  do! _ := (if AddAddressFrame.IPVersion f =? 4
            then put_manager (MkManager (nxtPathID m) (remoteAddrs4 m ++ [AddAddressFrame.Addr f]) (remoteAddrs6 m) (advertisedLocAddrs m))
            else if AddAddressFrame.IPVersion f =? 6
            then put_manager (MkManager (nxtPathID m) (remoteAddrs4 m) (remoteAddrs6 m ++ [AddAddressFrame.Addr f]) (advertisedLocAddrs m))
            else fail AddAddressFrame.ErrUnknownIPVersion) in
  if createPaths_ env then createPaths now else ret tt.

Definition errPathExists : goerr := GoErr "trying to create already existing path".
Definition errOddPath : goerr := GoErr "server tries to create odd pathID".
Definition errEvenPath : goerr := GoErr "client tries to create even pathID".

Definition createPathFromRemote (p : receivedPacket) (now : Z) : M path :=
  do! s := get in
  let pid := PublicHeader.PathID (publicHeader p) in
  match paths s !! pid with
  | Some _ => fail errPathExists
  | None =>
      if negb (is_server (perspective s)) && negb (pid mod 2 =? 0) then fail errOddPath
      else if is_server (perspective s) && (pid mod 2 =? 0) then fail errEvenPath
      else
        let pth := setup pid (rcvPconn p) (fromAddr p) (version s) now in
        do! _ := put_path pth in ret pth
  end.

(** ** Receiving *)

(** [s.closeRemote], once *)
Definition close_with (r : close_reason) : M unit :=
  modify (fun s => set_status s (peerBlocked s) (match closeErr s with Some e => Some e | None => Some r end) (lastActivity s) (keepAlivePingSent s)).

(** The PATHS frame: what the peer measured, and the paths it has given up. *)
Fixpoint handle_paths (frame : PathsFrame.t) (n : nat) (i : nat) : M unit :=
  match n with
  | O => ret tt
  | S n =>
      match PathsFrame.PathIDs frame !! i, PathsFrame.RemoteRTTs frame !! i with
      | Some pid, Some rtt =>
          do! _ := modify (fun s => set_remote s (<[pid := rtt]> (remoteRTTs s)) (lastPathsFrameSent s)) in
          do! _ := (if 30 * 60 * Second <=? rtt
                    then do! p := the_path pid in put_path (set_flags p (open p) true (closing p))
                    else ret tt) in
          handle_paths frame n (S i)
      | _, _ => panic
      end
  end.

Definition handleFrame (f : Frame) (pid rcvtime now : Z) : M unit :=
  match f with
  | FStream frame =>
      handleStreamFrame (StreamFrame.Mk (StreamFrame.StreamID frame) (StreamFrame.FinBit frame) (StreamFrame.DataLenPresent frame)
        (StreamFrame.Offset frame) (StreamFrame.Data frame) rcvtime (StreamFrame.Priority frame))
  | FAck frame => handleAckFrame frame now
  | FConnectionClose frame => close_with (Remote (ConnectionCloseFrame.ErrorCode frame) (ConnectionCloseFrame.ReasonPhrase frame))
  | FGoaway _ => fail (GoErr "unimplemented: handling GOAWAY frames")
  | FStopWaiting frame =>
      do! pth := the_path pid in
      put_path (set_rcvd pth (receivedPacketHandler.SetLowerLimit (rcvd pth) (u64 (StopWaitingFrame.LeastUnacked frame - 1)))
        (lastRcvdPacketNumber pth) (largestRcvdPacketNumber pth))
  | FRstStream frame => handleRstStreamFrame frame
  | FWindowUpdate frame => handleWindowUpdateFrame frame
  | FBlocked _ => modify (fun s => set_status s true (closeErr s) (lastActivity s) (keepAlivePingSent s))
  | FPing => ret tt
  | FAddAddress frame => fun s =>
      match manager s with
      | None => Some (Ok tt, s)
      | Some _ =>
          match handleAddAddressFrame frame now s with
          | Some (Panic, s) => Some (Panic, s)
          | Some (r, s) => (do! _ := schedulePathsFrame now in lift r) s
          | None => None
          end
      end
  | FClosePath frame => ignore_error (handleClosePathFrame frame now)
  | FPaths frame => handle_paths frame (Z.to_nat (PathsFrame.NumPaths frame)) 0
  end.

Definition tolerated (e : goerr) : bool :=
  bool_decide (e = ErrDuplicateOrOutOfOrderAck) || bool_decide (e = errRstStreamOnInvalidStream) || bool_decide (e = errWindowUpdateOnClosedStream).

Fixpoint handleFrames (fs : list Frame) (pid rcvtime now : Z) : M unit := fun s =>
  match fs with
  | [] => Some (Ok tt, s)
  | f :: fs =>
      match handleFrame f pid rcvtime now s with
      | Some (Ok _, s) => handleFrames fs pid rcvtime now s
      | Some (Err e, s) => if tolerated e then handleFrames fs pid rcvtime now s else Some (Err e, s)
      | r => r
      end
  end.

Definition is_decryption_failure (e : goerr) : bool := match e with QErr code _ => bool_decide (code = "DecryptionFailure") | _ => false end.

(** [path.handlePacketImpl] *)
Definition path_handlePacketImpl (pid : Z) (pkt : receivedPacket) (now : Z) : M unit :=
  do! pth := the_path pid in
  if negb (open pth) then ret tt
  else
    let pth := set_flags (set_activity pth (rcvTime pkt) (remoteAddr pth)) (open pth) false (closing pth) in
    do! _ := put_path pth in
    let hdr := publicHeader pkt in
    let hdr := with_number hdr (InferPacketNumber (PublicHeader.PacketNumberLen hdr) (largestRcvdPacketNumber pth) (PublicHeader.PacketNumber hdr)) in
    do! s := get in
    let r := Unpack (Open env) (version s) (rawHeader pkt) hdr (data pkt) in
    let pth := match r with
               | Err e => if is_decryption_failure e then pth
                          else if is_server (perspective s) then set_activity pth (rcvTime pkt) (fromAddr pkt) else pth
               | Ok _ => if is_server (perspective s) then set_activity pth (rcvTime pkt) (fromAddr pkt) else pth
               | Panic => pth
               end in
    do! _ := put_path pth in
    do! x := lift r in
    let number := PublicHeader.PacketNumber hdr in
    let '(e, h) := receivedPacketHandler.ReceivedPacket (rcvd pth) number (HasRetransmittableFrames x.2) (Z.of_nat (length (data pkt))) now in
    do! _ := put_path (set_rcvd pth h number (Z.max (largestRcvdPacketNumber pth) number)) in
    do! _ := check e in
    handleFrames x.2 pid (rcvTime pkt) now.

(** A client gives the nonce of the header to its crypto setup, which may not be there to take it. *)
Definition take_nonce (p : receivedPacket) : M unit := fun s =>
  let nonce := PublicHeader.DiversificationNonce (publicHeader p) in
  if negb (is_server (perspective s)) && (0 <? length nonce)%nat
  then r ← SetDiversificationNonce env nonce; Some (r, s)
  else Some (Ok tt, s).

(** [session.handlePacketImpl] *)
Definition handlePacketImpl (p : receivedPacket) (now : Z) : M unit :=
  do! _ := take_nonce p in
  do! _ := modify (fun s => set_status s (peerBlocked s) (closeErr s) (rcvTime p) false) in
  do! s := get in
  let pid := PublicHeader.PathID (publicHeader p) in
  match paths s !! pid with
  | Some _ => path_handlePacketImpl pid p now
  | None =>
      do! _ := the_manager in
      do! pth := createPathFromRemote p now in
      path_handlePacketImpl pid p now
  end.

(** [session.handlePacket] *)
Definition handlePacket (p : receivedPacket) (s : session) : session :=
  if (Z.of_nat (length (receivedPackets s)) <? 2500)
  then set_received s (receivedPackets s ++ [p]) (undecryptablePackets s) (tooManyUndecryptable s) else s.

Definition MaxUndecryptablePackets : nat := 10.

Definition tryQueueingUndecryptablePacket (p : receivedPacket) (now : Z) (s : session) : session :=
  if handshakeComplete s then s
  else if (MaxUndecryptablePackets <? length (undecryptablePackets s) + 1)%nat
  then set_received s (receivedPackets s) (undecryptablePackets s)
         (match tooManyUndecryptable s with Some t => Some t | None => Some now end)
  else set_received s (receivedPackets s) (undecryptablePackets s ++ [p]) (tooManyUndecryptable s).

Definition tryDecryptingQueuedPackets (s : session) : session :=
  let s := foldl (fun s p => handlePacket p s) s (undecryptablePackets s) in
  set_received s (receivedPackets s) [] (tooManyUndecryptable s).

(** The case of [session.run] for a received packet; an error closes the session. *)
Definition on_packet (p : receivedPacket) (now : Z) : M unit := fun s =>
  match handlePacketImpl p now s with
  | Some (Err e, s) =>
      if is_decryption_failure e then Some (Ok tt, tryQueueingUndecryptablePacket p now s)
      else close_with (Local e) s
  | r => r
  end.

(** ** Removing streams *)

(** The iteration of [garbageCollectStreams]. *)
Definition collect (_ : Z) (str : stream.t) (st : streams_t * flowControlManager.t) : res bool * (streams_t * flowControlManager.t) :=
  let id := stream.streamID str in
  if stream.finished str then
    match streamsMap.RemoveStream st.1 id with
    | (Ok _, m) => (Ok true, (m, flowControlManager.RemoveStream st.2 id))
    | (Err e, m) => (Err e, (m, st.2))
    | (Panic, m) => (Panic, (m, st.2))
    end
  else (Ok true, st).

Definition garbageCollectStreams : M unit := fun s =>
  let '(r, (m, fl)) := streamsMap.Iterate collect (streamsMap_ s, flow s) in
  Some (match r with Panic => Panic | _ => Ok tt end, set_streams s m fl).

(** ** Timers of a path *)

(** Does the alarm ask whether the path has failed? *)
Definition asks_onRTO (h : sentPacketHandler.t (C := C)) : bool :=
  sentPacketHandler.hasOutstandingRetransmittablePacket (sentPacketHandler.inflight h)
  && match sentPacketHandler.lossTime h with Some _ => false | None => true end
  && negb (sentPacketHandler.tlpCount (sentPacketHandler.inflight h) <? maxTailLossProbes).

(** [path.onRTO], for a path that is asked. *)
Definition onRTO (pid : Z) (now : Z) : M unit :=
  do! pth := the_path pid in
  if lastNetworkActivityTime pth <? sentPacketHandler.lastSentTime (sent pth) then
    do! _ := put_path (set_flags pth (open pth) true (closing pth)) in schedulePathsFrame now
  else ret tt.

(** The case of [session.run] for the timer of a path. *)
Definition on_path_timer (pid : Z) (now : Z) : M unit :=
  do! pth := the_path pid in
  match sentPacketHandler.GetAlarmTimeout (sent pth) with
  | None => ret tt
  | Some t =>
      if t <? now then
        do! _ := (if asks_onRTO (sent pth) then onRTO pid now else ret tt) in
        do! pth := the_path pid in
        put_path (set_sent pth (sentPacketHandler.OnAlarm (sent pth) now (fun t => lastNetworkActivityTime pth <? t)))
      else ret tt
  end.

(** [path.run] when the path was told to close: it ends with [path.close]. *)
Definition path_run_closed (pid : Z) : M unit :=
  do! pth := the_path pid in
  if open pth && closing pth then put_path (set_flags pth false (potentiallyFailed pth) false) else ret tt.

(** [path.run] when a packet was sent: it takes the signal, to set its timer again. *)
Definition path_run_sent (pid : Z) : M unit :=
  do! pth := the_path pid in
  if open pth && sentPacket pth then put_path (set_sentPacket pth false) else ret tt.
End Session.
