(* ===== verification/SessionFacts.v ===== *)
(** * What a session does with the packets it receives

    The theorems about [Session]: every packet is handled in finite time, whatever is in it, and
    handling it keeps the streams, their flow controllers, the paths and the queues consistent. *)

From stdpp Require Import base numbers list option strings gmap.
From S2P Require Import Prelude ByteOrder Protocol AckRanges AckFrame ClosePathFrame StreamFrame ControlFrames PublicHeader PacketUnpacker PacketPacker FlowControl FrameSorter GoFloat ReceivedPackets RttStats SentPackets StreamsMap GoSlice Stream StreamFramer FramerFacts PackPacket Session.

Local Open Scope Z_scope.
#[local] Notation "'do!' x ':=' m 'in' k" := (bind m (fun x => k)) (at level 10, x name, m at level 99, k at level 200).

(** ** Frames from the network *)

(** What the parsers promise about a frame. *)
Definition parsed (f : Frame) : Prop :=
  match f with
  | FStream f => 0 <= StreamFrame.StreamID f < 2 ^ 32 /\ wide f
  | FRstStream f => 0 <= RstStreamFrame.StreamID f < 2 ^ 32
  | FWindowUpdate f => 0 <= WindowUpdateFrame.StreamID f < 2 ^ 32
  | FAck f => acked_valid (AckFrame.acked f)
  | FClosePath f => acked_valid (ClosePathFrame.acked f)
  | FPaths f => length (PathsFrame.PathIDs f) = Z.to_nat (PathsFrame.NumPaths f) /\ length (PathsFrame.RemoteRTTs f) = Z.to_nat (PathsFrame.NumPaths f)
  | _ => True
  end.

Lemma yields_wrap {A} code (m : reader A) P : yields m P -> yields (wrap_err code m) P.
Proof.
  intros Hm s Hs. unfold wrap_err. destruct (Hm s Hs) as [Hp Ho].
  destruct (m s) as [[a s']| |]; [done| |done]. split; [done|]. by intros ? ? [=].
Qed.

(** A reader all of whose results satisfy [P], but that may also panic. *)
Lemma yields_parsed {A} code (m : reader A) (k : A -> Frame) P :
  yields m P -> (forall a, P a -> parsed (k a)) -> yields (f ← wrap_err code m; mret (k f)) parsed.
Proof. intros Hm Hk. eapply yields_bind; [by apply yields_wrap|]. intros a Ha. apply yields_ret. auto. Qed.

Lemma parse_paths_length bo k : forall s ids rtts s', PathsFrame.parse_paths bo k s = Ok ((ids, rtts), s') -> length ids = k /\ length rtts = k.
Proof.
  induction k as [|k IH]; intros s ids rtts s'; cbn [PathsFrame.parse_paths]; [by intros [= <- <- <-]|].
  intros (pid & s1 & _ & (rtt & s2 & _ & ([ids' rtts'] & s3 & E & [= <- <- <-])%reader_bind_inv)%reader_bind_inv)%reader_bind_inv.
  apply IH in E as [E1 E2]. cbn [length]. lia.
Qed.

Lemma parse_frame_yields v pn l lvl tb : 0 <= l <= 8 -> yields (parse_frame v pn l lvl tb) parsed.
Proof.
  intros Hl. pose proof (safe_parse_frame v pn l lvl tb Hl) as Hsafe. apply yields_intro; [done|].
  assert (yields (RstStreamFrame.ParseRstStreamFrame v) (fun f => 0 <= RstStreamFrame.StreamID f < 2 ^ 32)) as Hrst.
  { unfold RstStreamFrame.ParseRstStreamFrame. eapply yields_bind; [apply yields_ReadByte|]. intros _ _.
    eapply yields_bind; [apply yields_32; apply _|]. intros sid Hs. eapply yields_bind; [apply yields_64; apply _|]. intros off _.
    eapply yields_bind; [apply yields_32; apply _|]. intros e _. by apply yields_ret. }
  assert (yields (WindowUpdateFrame.ParseWindowUpdateFrame v) (fun f => 0 <= WindowUpdateFrame.StreamID f < 2 ^ 32)) as Hwin.
  { unfold WindowUpdateFrame.ParseWindowUpdateFrame. eapply yields_bind; [apply yields_ReadByte|]. intros _ _.
    eapply yields_bind; [apply yields_32; apply _|]. intros sid Hs. eapply yields_bind; [apply yields_64; apply _|]. intros off _.
    by apply yields_ret. }
  intros s a s' Hs. revert Hsafe. unfold parse_frame, parse_stream. intros _ E.
  repeat match type of E with (if ?b then _ else _) _ = _ => destruct b; cbn beta iota in E end.
  all: try (match type of E with context [PathsFrame.ParsePathsFrame] => fail 1 | _ => by apply reader_bind_inv in E as (x & s1 & _ & [= <- <-]) end).
  all: try done.
  - apply reader_bind_inv in E as (x & s1 & E1 & E2).
    destruct (yields_wrap "InvalidStreamData" _ _ (StreamFrame.stream_frame_parse_yields v) s Hs) as [_ Hx].
    destruct (Hx _ _ E1) as [[(Hid & Hoff & _) [Hlen _]] _]. destruct (_ && _); [done|]. injection E2 as <- <-. split; [exact Hid|]. split; [lia|exact Hlen].
  - eapply (yields_parsed "InvalidAckData" _ FAck _ (AckFrame.ack_frame_parse_yields v)); [|exact Hs|exact E]. auto.
  - eapply (yields_parsed "InvalidRstStreamData" _ FRstStream _ Hrst); [|exact Hs|exact E]. auto.
  - eapply (yields_parsed "InvalidWindowUpdateData" _ FWindowUpdate _ Hwin); [|exact Hs|exact E]. auto.
  - apply reader_bind_inv in E as (x & s1 & E1 & [= <- <-]).
    destruct (ClosePathFrame.close_path_frame_parse_yields v s Hs) as [_ Hx]. by destruct (Hx _ _ E1).
  - apply reader_bind_inv in E as (x & s1 & E1 & [= <- <-]). unfold PathsFrame.ParsePathsFrame in E1.
    apply reader_bind_inv in E1 as (? & ? & _ & E1). apply reader_bind_inv in E1 as (mx & ? & _ & E1). apply reader_bind_inv in E1 as (num & ? & _ & E1).
    destruct (mx <? num); [done|]. apply reader_bind_inv in E1 as ([ids rtts] & ? & E1 & [= <- <-]). by apply parse_paths_length in E1.
Qed.

Lemma unpack_loop_parsed v pn l lvl : 0 <= l <= 8 -> forall fuel fs s out,
  bytes_ok s -> Forall parsed fs -> unpack_loop v pn l lvl fuel fs s = Ok out -> Forall parsed out.
Proof.
  intros Hl fuel. induction fuel as [|fuel IH]; intros fs [|tb s] out Hs Hf; cbn [unpack_loop]; [by intros [= <-]|done|by intros [= <-]|].
  pose proof (Forall_inv_tail Hs) as Hs'. destruct (tb =? 0); [by apply IH|].
  destruct (parse_frame_yields v pn l lvl tb Hl (tb :: s) Hs) as [_ Hy].
  destruct (parse_frame v pn l lvl tb (tb :: s)) as [[f s'']| |]; [|done..]. destruct (Hy _ _ eq_refl) as [H1 H2].
  apply IH; [done|]. apply Forall_app. by split; [|constructor].
Qed.

(** What an AEAD returns is bytes. *)
Definition opens_bytes (Open : quicAEAD) : Prop := forall src n raw out lvl, Open src n raw = Ok (out, lvl) -> bytes_ok out.

Lemma unpack_parsed Open v raw hdr src lvl fs :
  opens_bytes Open -> 0 <= PublicHeader.PacketNumberLen hdr <= 8 -> Unpack Open v raw hdr src = Ok (lvl, fs) -> Forall parsed fs.
Proof.
  intros Ho Hl. unfold Unpack. destruct (Open src _ raw) as [[out lv]|e|] eqn:E; [|done..]. unfold unpack_payload.
  destruct (Nat.eqb _ _); [done|]. destruct (unpack_loop _ _ _ _ _ _ _) as [fs'|e|] eqn:E'; cbn; [|done..]. intros [= <- <-].
  eapply unpack_loop_parsed; [exact Hl| |by constructor|exact E']. by eapply Ho.
Qed.

Definition opens_quietly (Open : quicAEAD) : Prop := forall src n raw, Open src n raw <> Panic.

Lemma unpack_quiet Open v raw hdr src :
  opens_bytes Open -> opens_quietly Open -> 0 <= PublicHeader.PacketNumberLen hdr <= 8 -> Unpack Open v raw hdr src <> Panic.
Proof.
  intros Ho Hq Hl. unfold Unpack. destruct (Open src _ raw) as [[out lv]|e|] eqn:E; [|done|by destruct (Hq _ _ _ E)]. unfold unpack_payload.
  destruct (Nat.eqb _ _); [done|].
  pose proof (unpack_loop_total v (PublicHeader.PacketNumber hdr) (PublicHeader.PacketNumberLen hdr) lv Hl (length out) [] out ltac:(lia) ltac:(by eapply Ho)) as H.
  by destruct (unpack_loop _ _ _ _ _ _ _).
Qed.

(** ** The invariant *)

Section Facts.
Context {C : Type} `{!SendAlgorithm C} (newCongestion : Z -> C) (env : Env) (side : Perspective) (base : gset Z) (crash : Prop).
Hypothesis AEAD : opens_bytes (Open env).

Abbreviation session := (session (C := C)).
Abbreviation path := (path (C := C)).
Implicit Types (s : session) (p : path).

(** A path keeps the books of its packets, and is only told to close when it is noted as closed. *)
Record path_ok (closed : gset Z) (pid : Z) p : Prop := {
  po_id : pathID p = pid;
  po_sent : handler_inv (sent p);
  po_closing : closing p = true -> pid ∈ closed;
}.

(** The packet came with a header that was parsed. *)
Definition header_ok (x : receivedPacket) : Prop := 0 <= PublicHeader.PacketNumberLen (publicHeader x) <= 8.

Definition same_streams (m : streams_t) (fl : flowControlManager.t) : Prop :=
  dom (flowControlManager.streamFlowController fl) = dom (streamsMap.streams m).

(** A stream is kept under its ID, and the gaps in what it received are in order. *)
Definition stream_ok (id : Z) (str : stream.t) : Prop := stream.streamID str = id /\ gaps_ok (streamFrameSorter.gaps (stream.frameQueue str)).

(** [base] are paths that are known to exist, [crash] is what a panic is blamed on. *)
Record session_inv s : Prop := {
  si_perspective : perspective s = side;
  si_streams : streamsMap.inv (streamsMap_ s);
  si_side : streamsMap.perspective (streamsMap_ s) = perspective s;
  si_limit : is_server side = true -> streamsMap.numIncomingStreams (streamsMap_ s) <= maxIncoming env;
  si_flow : same_streams (streamsMap_ s) (flow s);
  si_contents : forall id str, streamsMap.streams (streamsMap_ s) !! id = Some str -> stream_ok id str;
  si_paths : forall pid p, paths s !! pid = Some p -> path_ok (closedPaths s) pid p;
  si_initial : is_Some (paths s !! InitialPathID);
  si_known : base ⊆ dom (paths s);
  si_managed : manager s = None -> crash;
  si_manager : forall m, manager s = Some m -> 0 <= nxtPathID m < 256 /\ nxtPathID m mod 2 = if is_server side then 0 else 1;
  si_received : (length (receivedPackets s) <= 2500)%nat;
  si_waiting : (length (undecryptablePackets s) <= MaxUndecryptablePackets)%nat;
  si_headers : Forall header_ok (receivedPackets s) /\ Forall header_ok (undecryptablePackets s);
}.

(** *** Triples: a call ends, keeps the invariant, and its value satisfies [Q] *)

Definition runs {A} (P : session -> Prop) (m : M (C := C) A) (Q : A -> session -> Prop) : Prop :=
  forall s, session_inv s -> P s -> exists r s', m s = Some (r, s') /\ session_inv s' /\ (r = Panic -> crash) /\ forall a, r = Ok a -> Q a s'.
Abbreviation always := (fun _ : session => True).
Abbreviation done_ := (fun (_ : unit) (_ : session) => True).

Lemma runs_bind {A B} (P : session -> Prop) (m : M A) (k : A -> M B) Q R :
  runs P m Q -> (forall a, runs (Q a) (k a) R) -> runs P (bind m k) R.
Proof.
  intros Hm Hk s Hs HP. unfold bind. destruct (Hm s Hs HP) as (r & s1 & -> & H1 & Hc & HQ).
  destruct r as [a|e|]; [by apply Hk; [|apply HQ]|by exists (Err e), s1|exists Panic, s1; split_and!; [done|exact H1|intros _; by apply Hc|by intros ? [=]]].
Qed.

Lemma runs_weaken_pre {A} (P P' : session -> Prop) (m : M A) Q : runs P m Q -> (forall s, P' s -> P s) -> runs P' m Q.
Proof. intros H HP s Hs Hp. by apply H; [|apply HP]. Qed.

Lemma runs_ret {A} (a : A) (P : session -> Prop) : runs P (ret a) (fun a' s => a' = a /\ P s).
Proof. intros s Hs HP. exists (Ok a), s. split_and!; [done|done|done|]. by intros ? [= <-]. Qed.

Lemma runs_weaken {A} (P P' : session -> Prop) (m : M A) (Q Q' : A -> session -> Prop) :
  runs P m Q -> (forall s, P' s -> P s) -> (forall a s, Q a s -> Q' a s) -> runs P' m Q'.
Proof. intros Hm HP HQ s Hs H'. destruct (Hm s Hs (HP s H')) as (r & s' & -> & H1 & Hc & H2). exists r, s'. split_and!; auto. Qed.

Lemma runs_post {A} (P : session -> Prop) (m : M A) (Q Q' : A -> session -> Prop) :
  runs P m Q -> (forall a s, Q a s -> Q' a s) -> runs P m Q'.
Proof. intros Hm HQ. by eapply runs_weaken. Qed.

Lemma runs_ok {A} (a : A) P : runs P (ret a) (fun _ _ => True).
Proof. eapply runs_post; [apply runs_ret|done]. Qed.
Lemma runs_fail {A} e P (Q : A -> session -> Prop) : runs P (fail e) Q.
Proof. intros s Hs _. exists (Err e), s. split_and!; [done|done|done|]. by intros ? [=]. Qed.
Lemma runs_lift {A} (r : res A) P : (r = Panic -> crash) -> runs P (lift r) (fun _ s => P s).
Proof. intros Hr s Hs HP. by exists r, s. Qed.
Lemma runs_stops {A B} (r : res A) (k : A -> M B) P Q : (forall a, r <> Ok a) -> (r = Panic -> crash) -> runs P (bind (lift r) k) Q.
Proof.
  intros Hr Hc s Hs _. unfold bind, lift. destruct r as [a|e|]; [by destruct (Hr a)| |]; eexists _, _; (split_and!; [done|done| |by intros ? [=]]); [done|by intros _; apply Hc].
Qed.
Lemma runs_check e P : runs P (check e) (fun _ s => P s).
Proof. destruct e; [apply runs_fail|]. eapply runs_post; [apply runs_ret|]. by intros ? ? [_ ?]. Qed.
Lemma runs_get P : runs P get (fun x s => x = s /\ session_inv s /\ P s).
Proof. intros s Hs HP. exists (Ok s), s. split_and!; [done|done|done|]. by intros ? [= <-]. Qed.
Lemma runs_modify (f : session -> session) (P : session -> Prop) :
  (forall s, session_inv s -> P s -> session_inv (f s)) -> runs P (modify f) done_.
Proof. intros Hf s Hs HP. exists (Ok tt), (f s). split_and!; [done|by apply Hf|done|done]. Qed.
Lemma runs_if {A} (b : bool) P (m1 m2 : M A) Q : (b = true -> runs P m1 Q) -> (b = false -> runs P m2 Q) -> runs P (if b then m1 else m2) Q.
Proof. destruct b; auto. Qed.

(** Two steps and then the rest. *)
Lemma bind_seq {A B} (m1 : M A) (m2 : M B) (k : M unit) s (r : res B) s' :
  (do! _ := m1 in m2) s = Some (r, s') ->
  (do! _ := m1 in do! _ := m2 in k) s = match r with Ok _ => k s' | Err e => Some (Err e, s') | Panic => Some (Panic, s') end.
Proof. unfold bind. destruct (m1 s) as [[[a|e|] s1]|]; [|by intros [= <- <-]..|done]. by intros ->; destruct r. Qed.

(** *** Changes of the parts *)

Lemma inv_set_paths s ps :
  session_inv s -> (forall pid p, ps !! pid = Some p -> path_ok (closedPaths s) pid p) -> is_Some (ps !! InitialPathID) ->
  base ⊆ dom ps -> session_inv (set_paths s ps).
Proof. intros [] ? ? ?. by split. Qed.

Lemma inv_put_path s p : session_inv s -> path_ok (closedPaths s) (pathID p) p -> session_inv (set_paths s (<[pathID p := p]> (paths s))).
Proof.
  intros Hs Hp. apply inv_set_paths; [done| | |].
  - intros pid p' [[<- <-]|[_ H]]%lookup_insert_Some; [done|by apply si_paths].
  - apply lookup_insert_is_Some. destruct (decide (pathID p = InitialPathID)); [by left|right]. split; [done|by apply si_initial].
  - rewrite dom_insert_L. pose proof (si_known _ Hs) as Hk. clear -Hk. set_solver.
Qed.

Lemma inv_set_streams s m fl :
  session_inv s -> streamsMap.inv m -> streamsMap.perspective m = perspective s ->
  (is_server side = true -> streamsMap.numIncomingStreams m <= maxIncoming env) -> same_streams m fl ->
  (forall id str, streamsMap.streams m !! id = Some str -> stream_ok id str) -> session_inv (set_streams s m fl).
Proof. intros [] ? ? ? ? ?. by split. Qed.

(** A change of flow control alone. *)
Lemma inv_set_flow s fl :
  session_inv s -> dom (flowControlManager.streamFlowController fl) = dom (flowControlManager.streamFlowController (flow s)) ->
  session_inv (set_streams s (streamsMap_ s) fl).
Proof. intros Hs Hd. pose proof Hs as []. apply inv_set_streams; try done. unfold same_streams. by rewrite Hd. Qed.

Lemma inv_put_stream s str str' fl :
  session_inv s -> streamsMap.streams (streamsMap_ s) !! stream.streamID str' = Some str -> same_streams (streamsMap_ s) fl ->
  gaps_ok (streamFrameSorter.gaps (stream.frameQueue str')) -> session_inv (set_streams s (streamFramer.put (streamsMap_ s) (stream.streamID str') str') fl).
Proof.
  intros Hs Hin Hd Hgaps. pose proof Hs as []. pose proof (put_dom (streamsMap_ s) (stream.streamID str') str str' Hin) as E.
  apply inv_set_streams; try done.
  - by apply (streamsMap.same_inv (streamsMap_ s)).
  - unfold same_streams in *. by rewrite Hd, E.
  - intros id x. cbn. intros [[<- <-]|[_ H]]%lookup_insert_Some; [by split|auto].
Qed.

(** What does not touch streams, paths and queues. *)
Lemma inv_kept s s' :
  session_inv s -> streamsMap_ s' = streamsMap_ s -> flow s' = flow s -> perspective s' = perspective s -> paths s' = paths s ->
  closedPaths s' = closedPaths s -> manager s' = manager s -> receivedPackets s' = receivedPackets s ->
  undecryptablePackets s' = undecryptablePackets s -> session_inv s'.
Proof. intros [] E1 E2 E3 E4 E5 E6 E7 E8. split; by rewrite ?E1, ?E2, ?E3, ?E4, ?E5, ?E6, ?E7, ?E8. Qed.

(** *** Flow control follows the streams *)

Abbreviation fdom fl := (dom (flowControlManager.streamFlowController fl)).

Lemma fdom_replace fl id c c' (f : flowController.t) :
  flowControlManager.streamFlowController fl !! id = Some c -> fdom (flowControlManager.Mk (<[id := c']> (flowControlManager.streamFlowController fl)) f) = fdom fl.
Proof. intros E. cbn. apply dom_insert_lookup_L. eauto. Qed.

Lemma fdom_check_windows fl id off inc c c' :
  flowControlManager.streamFlowController fl !! id = Some c -> fdom (flowControlManager.check_windows fl id off inc c').2 = fdom fl.
Proof. intros E. unfold flowControlManager.check_windows. repeat case_match; cbn; by apply dom_insert_lookup_L. Qed.

Lemma fdom_reset fl id off : fdom (flowControlManager.ResetStream fl id off).2 = fdom fl.
Proof.
  unfold flowControlManager.ResetStream. destruct (_ !! id) as [c|] eqn:E; [|done].
  destruct (flowController.UpdateHighestReceived c off) as [[inc e] c']. destruct e; [done|]. by eapply fdom_check_windows.
Qed.

Lemma fdom_received fl id off : fdom (flowControlManager.UpdateHighestReceived fl id off).2 = fdom fl.
Proof.
  unfold flowControlManager.UpdateHighestReceived. destruct (_ !! id) as [c|] eqn:E; [|done].
  destruct (flowController.UpdateHighestReceived c off) as [[inc e] c']. by eapply fdom_check_windows.
Qed.

Lemma fdom_window fl id off : fdom (flowControlManager.UpdateWindow fl id off).2 = fdom fl.
Proof.
  unfold flowControlManager.UpdateWindow. destruct (id =? 0); [by destruct (flowController.UpdateSendWindow _ _)|].
  destruct (_ !! id) as [c|] eqn:E; [|done]. destruct (flowController.UpdateSendWindow c off) as [b c']. by eapply fdom_replace.
Qed.

Lemma window_no_panic fl id off : (flowControlManager.UpdateWindow fl id off).1 <> Panic.
Proof.
  unfold flowControlManager.UpdateWindow. destruct (id =? 0); [by destruct (flowController.UpdateSendWindow _ _)|].
  destruct (_ !! id) as [c|]; [|done]. by destruct (flowController.UpdateSendWindow c off).
Qed.

Lemma fdom_stream_frame fl str frame r fl' str' :
  wide frame -> gaps_ok (streamFrameSorter.gaps (stream.frameQueue str)) -> stream.AddStreamFrame fl str frame = (r, (fl', str')) ->
  r <> Panic /\ fdom fl' = fdom fl /\ stream.streamID str' = stream.streamID str /\ gaps_ok (streamFrameSorter.gaps (stream.frameQueue str')).
Proof.
  intros Hw Hg.
  unfold stream.AddStreamFrame. pose proof (fdom_received fl (stream.streamID str) (u64 (StreamFrame.Offset frame + StreamFrame.DataLen frame))) as H.
  destruct (flowControlManager.UpdateHighestReceived _ _ _) as [[e|] fl1]; cbn [snd] in H; [by intros [= <- <- <-]|].
  destruct (Push_any (stream.frameQueue str) frame Hg Hw) as (e & q & -> & Hq). intros [= <- <- <-].
  split; [by destruct e as [e|]; [destruct (decide _)|]|done].
Qed.

Lemma fdom_register fl id : fdom (register env fl id) = {[id]} ∪ fdom fl.
Proof.
  clear AEAD newCongestion. unfold register, flowControlManager.NewStream. destruct (_ !! id) as [c|] eqn:E; cbn.
  - assert (id ∈ fdom fl) by (apply elem_of_dom; eauto). set_solver.
  - by rewrite dom_insert_L.
Qed.

Lemma fdom_registers ids : forall fl, fdom (foldl (register env) fl ids) = list_to_set ids ∪ fdom fl.
Proof.
  clear AEAD newCongestion. induction ids as [|id ids IH]; intros fl; cbn [foldl]; [set_solver|]. rewrite IH, fdom_register. cbn. set_solver.
Qed.

Lemma opened_flow_follows m m' fl news :
  same_streams m fl -> streamsMap.openStreams m' = streamsMap.openStreams m ++ news ->
  (forall n, is_Some (streamsMap.streams m' !! n) <-> n ∈ news \/ is_Some (streamsMap.streams m !! n)) ->
  same_streams m' (opened_flow env m m' fl).
Proof.
  clear AEAD newCongestion. unfold same_streams, opened_flow. intros Hf Ho Hc. rewrite Ho, drop_app_length, fdom_registers, Hf.
  apply set_eq. intros x. rewrite elem_of_union, elem_of_list_to_set, !elem_of_dom, Hc. tauto.
Qed.

(** *** Opening streams *)

Lemma new_stream_ok id : stream_ok id (stream.newStream id).
Proof. split; [done|]. split; [cbn; unfold MaxByteCount; lia|]. by exists (MkInterval 0 MaxByteCount). Qed.

Lemma runs_GetOrOpen id P :
  0 <= id < 2 ^ 32 ->
  runs P (GetOrOpenStream env id) (fun o s => forall str, o = Some str -> streamsMap.streams (streamsMap_ s) !! id = Some str /\ stream_ok id str).
Proof.
  clear AEAD newCongestion. intros Hid s Hs _. pose proof Hs as [H0 H1 H2 H3 H4 H5 H6 H7 H7' H7'' H8 H9 H10 H11]. unfold GetOrOpenStream, on_streams.
  destruct (streamsMap.get_or_open_spec stream.newStream (maxIncoming env) (streamsMap_ s) id H1 Hid)
    as (r & m' & news & -> & [O1 O2 O3 O4 O5 O6 O7] & Hp & Hl & Hr).
  exists r, (set_streams s m' (opened_flow env (streamsMap_ s) m' (flow s))). split; [done|]. split.
  - apply inv_set_streams; try done.
    + by rewrite O3.
    + intros Hsv. apply Hl; [by rewrite H2, H0|auto].
    + apply (opened_flow_follows _ _ _ news); [done|done|]. intros n. rewrite O7. case_decide as Hn; [|tauto].
      split; [by left|]. by eexists.
    + intros n str. rewrite O7. case_decide as Hn; [intros [= <-]; apply new_stream_ok|auto].
  - split; [done|]. intros o ->. destruct Hr as [-> _]. intros str E. split; [done|]. rewrite O7 in E.
    case_decide as Hn; [injection E as <-; apply new_stream_ok|auto].
Qed.

Lemma runs_Open P :
  runs (fun s => P s /\ streamsMap.nextStream (streamsMap_ s) + 2 < 2 ^ 32) (OpenStream env) (fun _ _ => True).
Proof.
  intros s Hs [_ Hlt]. pose proof Hs as [H0 H1 H2 H3 H4 H5 H6 H7 H7' H7'' H8 H9 H10 H11]. unfold OpenStream, on_streams, streamsMap.OpenStream.
  pose proof (streamsMap.open_impl_spec stream.newStream (maxOutgoing env) (streamsMap_ s) H1 Hlt) as Hspec.
  assert (forall r, (r = Panic -> crash) -> exists (r' : res stream.t) s', Some (r : res stream.t, set_streams s (streamsMap_ s) (opened_flow env (streamsMap_ s) (streamsMap_ s) (flow s))) = Some (r', s')
    /\ session_inv s' /\ (r' = Panic -> crash) /\ forall a, r' = Ok a -> True) as Hsame.
  { intros r Hr. exists r. eexists. split; [done|]. split; [|done]. apply inv_set_flow; [done|]. unfold opened_flow. by rewrite drop_all. }
  destruct (streamsMap.closeErr (streamsMap_ s)); [by apply Hsame|].
  destruct (streamsMap.openStreamImpl _ _ _) as [[str|e|] m'].
  - destruct Hspec as (G1 & -> & G3 & G4 & G5 & G6 & G7 & G8 & G9). eexists _, _. split; [done|]. split; [|done].
    apply inv_set_streams; try done.
    + by rewrite G6.
    + intros Hsv. rewrite (streamsMap.i_in _ G1), G3, streamsMap.odds_app, streamsMap.odds_one.
      destruct (streamsMap.i_next _ H1) as [Hn _]. rewrite (streamsMap.ours_even _ _ Hn), H2, H0, Hsv, <- (streamsMap.i_in _ H1). specialize (H3 Hsv). lia.
    + apply (opened_flow_follows _ _ _ [streamsMap.nextStream (streamsMap_ s)]); [done|done|]. intros n. rewrite G9, list_elem_of_singleton, lookup_insert_is_Some. destruct (decide (n = streamsMap.nextStream (streamsMap_ s))) as [->|Hne]; [split; [by left|by left]|]. split; [intros [?|[_ ?]]; [congruence|by right]|intros [?|?]; [done|by right]].
    + intros n str. rewrite G9. intros [[<- <-]|[_ Hn]]%lookup_insert_Some; [apply new_stream_ok|auto].
  - destruct Hspec as [-> _]. by apply Hsame.
  - done.
Qed.

(** *** Stream frames *)

Lemma runs_put_stream str fl (P : session -> Prop) :
  (forall s, P s -> is_Some (streamsMap.streams (streamsMap_ s) !! stream.streamID str) /\ fdom fl = fdom (flow s)) ->
  gaps_ok (streamFrameSorter.gaps (stream.frameQueue str)) -> runs P (put_stream str fl) done_.
Proof.
  intros HP Hg. apply runs_modify. intros s Hs [[str0 Hin] Hd]%HP. eapply inv_put_stream; [done|exact Hin| |exact Hg].
  unfold same_streams. rewrite Hd. apply (si_flow _ Hs).
Qed.

Lemma runs_queue_reset r P : runs P (queueResetStreamFrame r) done_.
Proof.
  destruct r as [[id off]|]; [|apply runs_ok]. apply runs_modify. intros s Hs _.
  by apply (inv_kept s).
Qed.

(** The stream that was looked up is still there. *)
Lemma runs_with_stream {A} (str : stream.t) id (m : M A) (P : session -> Prop) Q :
  (stream_ok id str -> runs (fun s => streamsMap.streams (streamsMap_ s) !! id = Some str) m Q) ->
  runs (fun s => forall str', Some str = Some str' -> streamsMap.streams (streamsMap_ s) !! id = Some str' /\ stream_ok id str') m Q.
Proof. intros Hm s Hs HP. destruct (HP str eq_refl) as [H1 H2]. by apply Hm. Qed.

Lemma runs_stream_frame f : 0 <= StreamFrame.StreamID f < 2 ^ 32 -> wide f -> runs always (handleStreamFrame env f) done_.
Proof.
  intros Hid Hw. eapply runs_bind; [by apply runs_GetOrOpen|]. intros [str|]; [|apply runs_ok].
  apply (runs_with_stream _ _ _ always). intros [Eid Hg].
  eapply runs_bind; [apply runs_get|]. intros s. cbn beta.
  destruct (stream.AddStreamFrame (flow s) str f) as [r [fl str']] eqn:E. destruct (fdom_stream_frame _ _ _ _ _ _ Hw Hg E) as (Hr & E1 & E2 & E3).
  eapply runs_bind; [apply runs_put_stream; [|exact E3]|intros []; eapply runs_post; [by apply runs_lift|done]].
  intros s' (-> & _ & Hin). split; [|done]. rewrite E2, Eid, Hin. by eexists.
Qed.

(** Flow control is updated with what [op] makes of it. *)
Lemma runs_flow {A} (op : flowControlManager.t -> A * flowControlManager.t) P :
  (forall fl, fdom (op fl).2 = fdom fl) ->
  forall s0, runs (fun s => s0 = s /\ session_inv s /\ P s) (modify (fun s => set_streams s (streamsMap_ s) (op (flow s0)).2)) done_.
Proof. intros Hop s0. apply runs_modify. intros s Hs (-> & _ & _). by apply inv_set_flow. Qed.

Lemma runs_window_update f : 0 <= WindowUpdateFrame.StreamID f < 2 ^ 32 -> runs always (handleWindowUpdateFrame env f) done_.
Proof.
  intros Hid. eapply (runs_bind _ _ _ (fun _ => always)).
  { apply runs_if; intros _; [apply runs_ok|]. eapply runs_bind; [by apply runs_GetOrOpen|].
    intros [str|]; [eapply runs_post; [apply runs_ok|done]|apply runs_fail]. }
  intros []. eapply runs_bind; [apply runs_get|]. intros s0.
  pose proof (runs_flow (fun fl => flowControlManager.UpdateWindow fl (WindowUpdateFrame.StreamID f) (WindowUpdateFrame.ByteOffset f))
    always ltac:(intros; apply fdom_window) s0) as H. cbn beta in H |- *.
  pose proof (window_no_panic (flow s0) (WindowUpdateFrame.StreamID f) (WindowUpdateFrame.ByteOffset f)) as Hp.
  destruct (flowControlManager.UpdateWindow _ _ _) as [r fl]. eapply runs_bind; [exact H|]. intros [].
  eapply runs_bind; [by apply runs_lift|]. intros b. apply runs_ok.
Qed.

Lemma remote_error_id str e r str' : stream.RegisterRemoteError str e = (r, str') ->
  stream.streamID str' = stream.streamID str /\ stream.frameQueue str' = stream.frameQueue str.
Proof.
  unfold stream.RegisterRemoteError, stream.queue_reset, stream.first_err.
  repeat case_match; intros [= <- <-]; simplify_eq; done.
Qed.

Lemma runs_rst_stream f : 0 <= RstStreamFrame.StreamID f < 2 ^ 32 -> runs always (handleRstStreamFrame env f) done_.
Proof.
  intros Hid. eapply runs_bind; [by apply runs_GetOrOpen|]. intros [str|]; [|apply runs_fail].
  apply (runs_with_stream _ _ _ always). intros [Eid Hg].
  destruct (stream.RegisterRemoteError str _) as [rst str'] eqn:E. apply remote_error_id in E as [E1 E2].
  eapply runs_bind; [apply runs_get|]. intros s.
  eapply runs_bind; [apply runs_put_stream; [|by rewrite E2]|intros []].
  { intros s' (-> & _ & Hin). split; [|done]. rewrite E1, Eid, Hin. by eexists. }
  eapply runs_bind; [apply runs_queue_reset|]. intros []. eapply runs_bind; [apply runs_get|]. intros s0.
  pose proof (runs_flow (fun fl => flowControlManager.ResetStream fl (RstStreamFrame.StreamID f) (RstStreamFrame.ByteOffset f))
    always ltac:(intros; apply fdom_reset) s0) as H. cbn beta in H |- *.
  destruct (flowControlManager.ResetStream _ _ _) as [e fl]. eapply runs_bind; [exact H|]. intros [].
  eapply runs_post; [apply runs_check|done].
Qed.

(** *** Paths *)

Lemma runs_the_path pid (P : session -> Prop) :
  (forall s, session_inv s -> P s -> paths s !! pid = None -> crash) ->
  runs P (the_path pid) (fun p s => path_ok (closedPaths s) pid p /\ paths s !! pid = Some p /\ P s).
Proof.
  intros Hc s Hs HP. unfold the_path. destruct (paths s !! pid) as [p|] eqn:E; eexists _, _; (split_and!; [done|done| |]).
  - done.
  - intros ? [= <-]. split; [by apply si_paths|done].
  - intros _. by eapply Hc.
  - by intros ? [=].
Qed.

(** Paths that are there. *)
Lemma known_path s pid : session_inv s -> pid ∈ base \/ crash -> paths s !! pid = None -> crash.
Proof. intros Hs [Hb|?] E; [|done]. apply (si_known _ Hs), elem_of_dom in Hb. rewrite E in Hb. by destruct Hb. Qed.
Lemma initial_path s : session_inv s -> paths s !! InitialPathID = None -> crash.
Proof. intros Hs E. pose proof (si_initial _ Hs) as [p Hp]. congruence. Qed.

Lemma runs_put_this p (P : session -> Prop) :
  (forall s, P s -> path_ok (closedPaths s) (pathID p) p) -> runs P (put_path p) (fun _ s => paths s !! pathID p = Some p).
Proof. intros HP s Hs Hp%HP. eexists _, _. split_and!; [done|by apply inv_put_path|done|]. intros ? _. cbn. by rewrite lookup_insert_eq. Qed.

Lemma runs_put_path p (P : session -> Prop) :
  (forall s, P s -> path_ok (closedPaths s) (pathID p) p) -> runs P (put_path p) (fun _ s => is_Some (paths s !! pathID p)).
Proof. intros HP. eapply runs_post; [by apply runs_put_this|]. cbn. intros _ s ->. by eexists. Qed.

(** The path with other contents. *)
Lemma ok_sent closed pid p h : path_ok closed pid p -> handler_inv h -> path_ok closed (pathID (set_sent p h)) (set_sent p h).
Proof. intros [E1 E2 E3] Hh. split; [done|done|]. cbn. by rewrite E1. Qed.
Lemma ok_same closed pid p p' : path_ok closed pid p -> pathID p' = pathID p -> sent p' = sent p -> closing p' = closing p -> path_ok closed (pathID p') p'.
Proof. intros [E1 E2 E3] H1 H2 H3. split; [done|by rewrite H2|]. by rewrite H3, H1, E1. Qed.

Lemma runs_ack f now : acked_valid (AckFrame.acked f) -> AckFrame.PathID f ∈ base \/ crash -> runs always (handleAckFrame f now) done_.
Proof.
  intros Hv Hk. eapply runs_bind; [apply runs_the_path; intros s Hs _; by apply known_path|]. intros p. cbn beta.
  destruct (sentPacketHandler.ReceivedAck _ _ _ _ _) as [e h] eqn:E.
  eapply runs_bind; [apply runs_put_path|intros []].
  { intros s (Hp & _ & _). eapply ok_sent; [done|]. pose proof (inv_ack (sent p) f (lastRcvdPacketNumber p) (lastNetworkActivityTime p) now (po_sent _ _ _ Hp) Hv) as H.
    by rewrite E in H. }
  destruct e; [apply runs_fail|]. eapply runs_bind; [apply runs_the_path; intros s Hs _; by apply known_path|]. intros p1.
  eapply runs_bind; [apply runs_the_path; intros s Hs _; by apply initial_path|]. intros p2.
  cbn beta. apply runs_if; intros _; [|apply runs_ok]. eapply runs_post; [apply runs_put_path|done]. intros s (Hp & _ & _).
  eapply ok_sent; [exact Hp|]. eapply inv_same; [apply Hp|done..].
Qed.

(** *** Closing paths *)

Lemma inv_close s pid :
  session_inv s -> pid ∉ closedPaths s -> is_Some (paths s !! pid) ->
  exists s', (do! _ := (match manager s with Some _ => manager_closePath pid | None => ret tt end) in
              modify (fun s => set_manager s (manager s) ({[pid]} ∪ closedPaths s))) s = Some (Ok tt, s')
    /\ session_inv s' /\ is_Some (paths s' !! pid).
Proof.
  intros Hs Hn [p Hp]. pose proof (si_paths _ Hs _ _ Hp) as [Eid Hsent Hcl]. clear AEAD newCongestion.
  assert (forall ps, (forall pid' p', ps !! pid' = Some p' -> path_ok ({[pid]} ∪ closedPaths s) pid' p') -> is_Some (ps !! InitialPathID) -> base ⊆ dom ps ->
    session_inv (set_manager (set_paths s ps) (manager s) ({[pid]} ∪ closedPaths s))) as Hinv.
  { destruct Hs. by split. }
  assert (forall pid' p', paths s !! pid' = Some p' -> path_ok ({[pid]} ∪ closedPaths s) pid' p') as Hmore.
  { intros pid' p' H. destruct (si_paths _ Hs _ _ H) as [E1 E2 E3]. split; [done|done|]. intros Hc%E3. set_solver. }
  assert (exists s', (ret tt : M unit) s = Some (Ok tt, s) /\ s' = set_manager (set_paths s (paths s)) (manager s) ({[pid]} ∪ closedPaths s)
    /\ session_inv s' /\ is_Some (paths s' !! pid)) as (s1 & _ & E1 & H1 & H2).
  { eexists. split; [done|]. split; [done|]. split; [apply Hinv; [done|apply Hs..]|]. cbn. by rewrite Hp. }
  unfold bind, manager_closePath, ret, modify.
  destruct (manager s) as [m|] eqn:Em; [rewrite Hp; destruct (open p); [destruct (closing p) eqn:Ec|]|].
  - exfalso. by apply Hn, Hcl.
  - eexists. split; [done|]. cbn [manager set_paths]. rewrite Em. split.
    + apply (Hinv (<[pathID p := _]> (paths s))).
      * intros pid' p' [[<- <-]|[_ H]]%lookup_insert_Some; [|by apply Hmore]. split; [done|done|]. intros _. cbn. set_solver.
      * rewrite Eid. apply lookup_insert_is_Some. destruct (decide (pid = InitialPathID)); [by left|right]. split; [done|apply Hs].
      * rewrite dom_insert_L. pose proof (si_known _ Hs). clear -H. set_solver.
    + cbn. rewrite Eid. by rewrite lookup_insert_eq.
  - eexists. split; [done|]. rewrite Em. subst s1. destruct s; done.
  - eexists. split; [done|]. rewrite Em. subst s1. destruct s; done.
Qed.

(** With a CLOSE_PATH frame to be sent, there has to be something received on the path. *)
Lemma runs_closePath pid b : (b = true -> crash) -> runs always (closePath pid b) (fun _ s => is_Some (paths s !! pid)).
Proof.
  intros Hb s Hs _. unfold closePath. unfold bind at 1, get.
  destruct (paths s !! pid) as [p|] eqn:Hp; [|by apply (runs_fail errUnknownPath always)].
  destruct (decide (pid ∈ closedPaths s)).
  { eexists _, _. split_and!; [done|done|done|]. intros ? _. rewrite Hp. by eexists. }
  destruct (inv_close s pid Hs ltac:(done) ltac:(by rewrite Hp)) as (s1 & E1 & H1 & Hsome).
  assert (runs (fun s => is_Some (paths s !! pid)) (if negb b then ret tt
    else do! pth := the_path pid in do! _ := put_path (set_sent pth (sentPacketHandler.SetInflightAsLost (sent pth))) in
         do! f := lift (receivedPacketHandler.GetClosePathFrame (rcvd pth)) in
         modify (fun s => set_framer s (streamFramer.AddClosePathFrameForTransmission (framer s) (ClosePathFrame.Mk pid (ClosePathFrame.acked f)))))
    (fun _ s => is_Some (paths s !! pid))) as Hrest.
  { apply runs_if; intros Eb; [eapply runs_post; [apply runs_ret|by intros ? ? [_ ?]]|]. apply negb_false_iff in Eb.
    eapply runs_bind; [apply runs_the_path; intros s' _ [p' Hp'] E; congruence|]. intros pth.
    eapply (runs_bind _ _ _ (fun _ s => is_Some (paths s !! pid))).
    - intros s' Hs' (Hok & E & _). assert (path_ok (closedPaths s') (pathID pth) (set_sent pth (sentPacketHandler.SetInflightAsLost (sent pth)))) as Hok'
        by (eapply ok_sent; [done|]; eapply inv_moved; [apply Hok|apply moved_set_lost, Hok|done|done]).
      eexists _, _. split_and!; [done|by apply inv_put_path|done|]. intros ? _. cbn. destruct Hok as [-> _ _]. rewrite lookup_insert_eq. by eexists.
    - intros []. eapply runs_bind; [apply runs_lift; intros _; by apply Hb|]. intros f s' Hs' Hp'.
      eexists _, _. split_and!; [done|by apply (inv_kept s')|done|done]. }
  destruct (Hrest s1 H1 Hsome) as (r & s2 & E2 & H2 & Hc & HQ). exists r, s2. split; [|done].
  etransitivity; [exact (bind_seq _ _ _ s (Ok tt) s1 E1)|exact E2].
Qed.

Lemma runs_close_path_frame f now : acked_valid (ClosePathFrame.acked f) -> runs always (handleClosePathFrame f now) done_.
Proof.
  intros Hv. eapply runs_bind; [by apply runs_closePath|]. intros [].
  eapply runs_bind; [apply runs_the_path; intros s _ [p Hp] E; congruence|]. intros p. cbn beta.
  destruct (sentPacketHandler.ReceivedClosePath _ _ _ _) as [e h] eqn:E.
  eapply runs_bind; [apply runs_put_path|intros []; eapply runs_post; [apply runs_check|done]].
  intros s (Hp & _ & _). eapply ok_sent; [done|]. pose proof (po_sent _ _ _ Hp) as Hi.
  destruct (moved_close_path _ _ _ _ _ _ (sh_counted _ Hi) Hv E) as (E1 & E2 & acked & lost & Hm & _). by eapply inv_moved.
Qed.

(** *** Pings on new paths: only a client sends them *)

Lemma crypto_stream_client f n :
  streamsMap.perspective (streamFramer.smap f) = PerspectiveClient ->
  exists r, streamFramer.crypto_stream n f = Some (r, streamFramer.set_smap f (streamFramer.smap f))
    /\ forall cs, r = Ok cs -> streamsMap.streams (streamFramer.smap f) !! 1 = Some cs.
Proof.
  intros Hc. unfold streamFramer.crypto_stream, streamsMap.GetOrOpenStream, streamsMap.closed_or_wrong. rewrite Hc.
  destruct (streamsMap.streams (streamFramer.smap f) !! 1) as [cs|] eqn:E; [eexists; split; [done|]; by intros ? [= <-]|].
  cbn. destruct (1 <=? _); eexists; (split; [done|]); by intros ? [=].
Qed.

Lemma data_for_writing_id str n r str' : stream.getDataForWriting str n = (r, str') ->
  stream.streamID str' = stream.streamID str /\ stream.frameQueue str' = stream.frameQueue str.
Proof.
  unfold stream.getDataForWriting. destruct (stream.err str); [by intros [= <- <-]|]. destruct (stream.dataForWriting str) as [d|]; [|by intros [= <- <-]].
  destruct (n <? slice.len d); [|by intros [= <- <-]]. destruct (slice.upto d n) as [x|e|]; [|by intros [= <- <-]..].
  destruct (slice.from d n) as [y|e|]; by intros [= <- <-].
Qed.

(** The framer after data of the crypto stream was taken, or none. *)
Definition crypto_taken (f f' : streamFramer.t) : Prop :=
  streamFramer.flow f' = streamFramer.flow f /\
  (streamFramer.smap f' = streamFramer.smap f
   \/ exists cs cs', streamsMap.streams (streamFramer.smap f) !! 1 = Some cs /\ (stream.streamID cs' = stream.streamID cs /\ stream.frameQueue cs' = stream.frameQueue cs)
      /\ streamFramer.smap f' = streamFramer.put (streamFramer.smap f) 1 cs').

Lemma pop_crypto_client f n maxLen :
  streamsMap.perspective (streamFramer.smap f) = PerspectiveClient ->
  exists r f', streamFramer.PopCryptoStreamFrame n f maxLen = Some (r, f') /\ crypto_taken f f'.
Proof.
  intros Hc. unfold streamFramer.PopCryptoStreamFrame, streamFramer.HasCryptoStreamFrame.
  destruct (crypto_stream_client f n Hc) as (r & -> & Hr). set (f1 := streamFramer.set_smap f (streamFramer.smap f)).
  assert (crypto_taken f f1) as Hsame by (split; [done|by left]).
  destruct r as [cs|e|]; cbn; [|by eexists _, _..]. destruct (0 <? _); [|by eexists _, _].
  destruct (crypto_stream_client f1 n Hc) as (r' & -> & Hr'). destruct r' as [cs'|e|]; [|by eexists _, _..].
  destruct (stream.getDataForWriting cs' _) as [d cs1] eqn:E. apply data_for_writing_id in E. eexists _, _. split; [done|].
  split; [done|]. right. exists cs', cs1. split; [by apply Hr'|done].
Qed.

Lemma finish_keeps (p : packetPacker.t) h lvl sealer fs sp now rd :
  exists r sp', packetPacker.finish p h lvl sealer fs sp now rd = (r, (p, sp')).
Proof.
  unfold packetPacker.finish. destruct (writeAndSealPacket (packetPacker.base p) h fs sealer sp now rd) as [r sp'].
  destruct r as [raw|e|]; by eexists _, _.
Qed.

(** A PING leads the control frames, so that no stream is asked for data. *)
Lemma ping_packs cr par ip lb n (p : packetPacker.t) sp unacked now rd :
  streamsMap.perspective (streamFramer.smap (packetPacker.framer p)) = PerspectiveClient ->
  exists r (p' : packetPacker.t) sp', packetPacker.PackPing cr par ip lb n p sp unacked now rd = Some (r, (p', sp'))
    /\ crypto_taken (packetPacker.framer p) (packetPacker.framer p').
Proof.
  intros Hc. unfold packetPacker.PackPing, packetPacker.PackPacket, packetPacker.pack_with, streamFramer.HasCryptoStreamFrame.
  set (sp0 := MkSendPath _ _ _ _). set (p0 := packetPacker.set_control p _).
  change (packetPacker.framer p0) with (packetPacker.framer p). set (fr := packetPacker.framer p) in *.
  destruct (crypto_stream_client fr n Hc) as (r & -> & Hr). set (f1 := streamFramer.set_smap fr (streamFramer.smap fr)).
  assert (crypto_taken fr f1) as Hsame by (split; [done|by left]).
  assert (forall (r : res (option packetPacker.packedPacket)) (sp' : SendPath), exists r' (p' : packetPacker.t) (sp'' : SendPath),
    Some (r, (packetPacker.set_framer p0 f1 (packetPacker.unenough p0), sp')) = Some (r', (p', sp'')) /\ crypto_taken fr (packetPacker.framer p')) as Hstop
    by (intros r0 sp'; by eexists _, _, _).
  destruct r as [cs|e|]; cbn [mbind mret res_bind res_ret]; [|apply Hstop..].
  destruct (0 <? stream.lenOfDataForWriting cs).
  - unfold packetPacker.packCryptoPacket. destruct (packetPacker.GetSealerForCryptoStream cr) as [lvl sealer].
    destruct (PublicHeader.GetLength _ _) as [len|e|]; [|apply Hstop..]. cbv zeta.
    match goal with |- context [streamFramer.PopCryptoStreamFrame n ?f ?l] => destruct (pop_crypto_client f n l Hc) as (r & f2 & -> & Ht) end.
    assert (crypto_taken fr f2) as Ht' by exact Ht.
    destruct r as [[f|]|e|]; [|by eexists _, _, _..].
    edestruct finish_keeps as (r & sp2 & ->). by eexists _, _, _.
  - destruct (packetPacker.GetSealer cr) as [lvl sealer]. cbv zeta. destruct (PublicHeader.GetLength _ _) as [len|e|]; [|apply Hstop..].
    cbn [packetPacker.controlFrames packetPacker.number_stop_waiting packetPacker.set_acks packetPacker.set_framer p0 packetPacker.set_control packetPacker.isPing take drop].
    rewrite take_0, drop_0. cbn [or_panic length Nat.eqb andb]. destruct (bool_decide _); [by eexists _, _, _|].
    edestruct finish_keeps as (r & sp2 & ->). destruct r as [[[num [raw|] fs lv]|]|e|]; by eexists _, _, _.
Qed.

Lemma inv_crypto_taken s (p : packetPacker.t) :
  session_inv s -> crypto_taken (framer s) (packetPacker.framer p) -> session_inv (set_packer s p).
Proof.
  intros Hs [E1 [E2|(cs & cs' & H1 & [H2 H3] & E2)]].
  - by apply (inv_kept s).
  - destruct (si_contents _ Hs _ _ H1) as [Eid Hg]. rewrite Eid in H2.
    assert (session_inv (set_streams s (streamFramer.put (streamsMap_ s) (stream.streamID cs') cs') (flow s))) as Hp.
    { eapply inv_put_stream; [done|by rewrite H2|apply (si_flow _ Hs)|by rewrite H3]. }
    rewrite H2 in Hp. by apply (inv_kept _ _ Hp).
Qed.

Lemma inv_sent_eq (h h' : sentPacketHandler.t (C := C)) x now e : handler_inv h -> sentPacketHandler.SentPacket h x now = (e, h') -> handler_inv h'.
Proof. intros Hi E. pose proof (inv_sent h x now Hi) as H. by rewrite E in H. Qed.

(** The path is open: its goroutine takes the signals of the packets that are sent. *)
Definition path_open (pid : Z) s : Prop := forall p, paths s !! pid = Some p -> open p = true.

Lemma runs_signal pid : crash -> runs (path_open pid) (signal_sent pid) done_.
Proof.
  intros Hcr s Hs Ho. unfold signal_sent. destruct (paths s !! pid) as [p|] eqn:Hp; [|by exists Panic, s].
  rewrite (Ho p Hp), andb_false_r. pose proof (si_paths _ Hs _ _ Hp) as Hok.
  exists (Ok tt), (set_paths s (<[pathID p := set_sentPacket p true]> (paths s))). split_and!; try done.
  apply (inv_put_path s (set_sentPacket p true)); [done|]. by eapply ok_same.
Qed.

Lemma runs_packed_packet pkt pid b now : crash -> runs (path_open pid) (sendPackedPacket env pkt pid b now) done_.
Proof.
  intros Hcr. eapply runs_bind; [by apply runs_the_path|]. intros p. cbn beta zeta.
  match goal with |- context [sentPacketHandler.SentPacket ?h ?x now] => destruct (sentPacketHandler.SentPacket h x now) as [e h'] eqn:E end.
  eapply (runs_bind _ _ _ (fun _ => path_open pid)).
  { intros s Hs (Hok & Hp & Ho). pose proof (po_id _ _ _ Hok) as Hid. eexists (Ok tt), _. split_and!; [done| |done|].
    - apply inv_put_path; [done|]. eapply ok_sent; [done|]. by eapply inv_sent_eq; [apply Hok|].
    - intros _ _ q. cbn. rewrite Hid, lookup_insert_eq. intros [= <-]. exact (Ho p Hp). }
  intros []. destruct e as [e|]; [eapply runs_bind; [by apply runs_lift|intros []; apply runs_fail]|].
  eapply runs_bind; [by apply runs_signal|intros []].
  eapply runs_bind; [|intros []; eapply runs_bind; [by apply runs_lift|intros []; eapply runs_post; [apply runs_check|done]]].
  apply runs_modify. intros s Hs _. by apply (inv_kept s).
Qed.

Lemma runs_ping pid now : is_server side = false -> crash -> runs (path_open pid) (sendPing env pid now) done_.
Proof.
  intros Hc Hcr. eapply runs_bind; [by apply runs_the_path|]. intros p. eapply runs_bind; [apply runs_get|]. intros s0.
  intros s Hs (-> & _ & Hp & Hin & Ho). cbn beta.
  destruct (ping_packs (crypto env) (params env) (IPriority env) (lackbw env) (maxIncoming env) (packer s) (send_path s p)
    (sentPacketHandler.GetLeastUnacked (sent p)) now (rnd env)) as (r & p' & sp & -> & Ht).
  { change (streamsMap.perspective (streamsMap_ s) = PerspectiveClient). rewrite (si_side _ Hs), (si_perspective _ Hs). by destruct side. }
  cbn beta iota. enough (runs (fun s' => s' = s) (do! _ := modify (fun s => set_packer s p') in
    do! _ := put_path (set_numbers p (PacketPacker.generator sp) (PacketPacker.leastUnacked sp)) in
    do! packet := lift r in match packet with None => ret tt | Some packet => sendPackedPacket env packet pid true now end) done_) as H by (by apply H).
  eapply (runs_bind _ _ _ (fun _ s' => path_ok (closedPaths s') pid p)).
  { intros s' Hs' ->. eexists _, _. split_and!; [done|by apply inv_crypto_taken|done|]. by intros ? _. }
  intros []. eapply (runs_bind _ _ _ (fun _ => path_open pid)); [|intros []].
  - eapply runs_post; [apply runs_put_this; intros s' Hok; by eapply ok_same|]. cbn. rewrite (po_id _ _ _ Hp). intros _ s' E q.
    rewrite E. intros [= <-]. by apply (Ho p).
  - eapply runs_bind; [by apply runs_lift|]. intros [pkt|]; [eapply runs_weaken_pre; [by apply runs_packed_packet|by intros ? ?]|apply runs_ok].
Qed.

(** *** Creating paths *)

Lemma setup_ok closed pid local remote v now : path_ok closed pid (setup newCongestion pid local remote v now).
Proof. split; [done| |done]. apply reachable_handler_inv. constructor. Qed.

Lemma runs_the_manager P :
  runs P the_manager (fun m s => (0 <= nxtPathID m < 256 /\ nxtPathID m mod 2 = if is_server side then 0 else 1) /\ P s).
Proof.
  intros s Hs HP. unfold the_manager. destruct (manager s) as [m|] eqn:E; eexists _, _; (split_and!; [done|done| |]).
  - done.
  - intros ? [= <-]. split; [by eapply (si_manager s)|done].
  - intros _. by apply (si_managed s).
  - by intros ? [=].
Qed.

(** The next path ID of this side. *)
Definition manager_ok (m : pathManager) : Prop := 0 <= nxtPathID m < 256 /\ nxtPathID m mod 2 = if is_server side then 0 else 1.

Lemma runs_put_manager m P : manager_ok m -> runs P (put_manager m) done_.
Proof. intros Hm. apply runs_modify. intros s [] _. split; try done. by intros ? [= <-]. Qed.

Lemma next_path_id n : 0 <= n < 256 -> 0 <= u8 (n + 2) < 256 /\ u8 (n + 2) mod 2 = n mod 2.
Proof.
  intros Hn. assert (u8 (n + 2) = n + 2 \/ (u8 (n + 2) = n + 2 - 256)) as Hu.
  { unfold u8, wrap. change (2 ^ 8) with 256. destruct (decide (n + 2 < 256)); [left; by apply Z.mod_small; lia|right].
    replace (n + 2) with (n + 2 - 256 + 1 * 256) at 1 by lia. rewrite Z.mod_add by lia. apply Z.mod_small. lia. }
  split; [apply wrap_range; lia|]. destruct Hu as [-> | ->].
  - replace (n + 2) with (n + 1 * 2) by lia. by rewrite Z.mod_add.
  - replace (n + 2 - 256) with (n + (-127) * 2) by lia. by rewrite Z.mod_add.
Qed.

Lemma runs_createPath local remote now : is_server side = false -> crash -> runs always (createPath newCongestion env local remote now) done_.
Proof.
  intros Hc Hcr. eapply runs_bind; [apply runs_get|]. intros s0. cbn beta. apply runs_if; intros _; [apply runs_ok|].
  eapply runs_bind; [apply runs_the_manager|]. intros m. cbn beta zeta.
  eapply (runs_bind _ _ _ (fun _ s => manager_ok m /\ path_open (nxtPathID m) s)).
  { intros s Hs [Hm _]. edestruct (runs_put_this (setup newCongestion (nxtPathID m) (addrString env local) remote (version s0) now) always)
      as (r & s' & E & Hs' & Hp & Hq); [intros s' _; apply setup_ok|exact Hs|exact I|]. exists r, s'. split_and!; [done..|].
    intros a ->. split; [done|]. intros q. specialize (Hq _ eq_refl). cbn in Hq. rewrite Hq. by intros [= <-]. }
  intros []. eapply (runs_bind _ _ _ (fun _ => path_open (nxtPathID m))); [|intros []; by apply runs_ping].
  intros s Hs [[H1 H2] Ho]. eexists (Ok tt), _. split_and!; [done| |done|by intros _ _].
  destruct (runs_put_manager (MkManager (u8 (nxtPathID m + 2)) (remoteAddrs4 m) (remoteAddrs6 m) (advertisedLocAddrs m)) always) with (s := s) as (r & s' & E & Hs' & _); [|done|done|by injection E as _ <-].
  destruct (next_path_id _ H1) as [H3 H4]. split; [done|]. cbn. by rewrite H4.
Qed.

Lemma runs_for_each {X} (f : X -> M unit) l : (forall x, runs always (f x) done_) -> runs always (for_each f l) done_.
Proof.
  intros Hf. induction l as [|x l IH]; cbn [for_each]; [apply runs_ok|]. eapply runs_bind; [apply Hf|]. by intros [].
Qed.

Lemma runs_advertise local : runs always (advertise env local) done_.
Proof.
  eapply runs_bind; [apply runs_the_manager|]. intros m. cbn beta. destruct (decide _); [apply runs_ok|].
  eapply (runs_bind _ _ _ (fun _ _ => manager_ok m)).
  - intros s Hs [Hm _]. eexists _, _. split_and!; [done|by apply (inv_kept s)|done|done].
  - intros []. intros s Hs Hm. by apply (runs_put_manager _ always).
Qed.

Lemma runs_schedule now P : runs P (schedulePathsFrame now) done_.
Proof. apply runs_modify. intros s Hs _. by apply (inv_kept s). Qed.

Lemma runs_createPaths now : is_server side = true \/ crash -> runs always (createPaths newCongestion env now) done_.
Proof.
  intros Hw. eapply runs_bind; [apply runs_get|]. intros s0. intros s Hs (-> & _ & _). rewrite (si_perspective _ Hs).
  destruct (is_server side) eqn:Eside; [by apply runs_for_each; [apply runs_advertise| |]|]. destruct Hw as [[=]|Hcr].
  enough (runs always (do! _ := for_each (fun local => do! m := the_manager in
    for_each (fun remote => createPath newCongestion env local remote now)
      (if getIPVersion (AddAddressFrame.IP local) =? 4 then remoteAddrs4 m else remoteAddrs6 m)) (localAddrs env) in
    schedulePathsFrame now) done_) as H by (by apply H).
  eapply runs_bind; [apply runs_for_each; intros local|intros []; apply runs_schedule].
  eapply runs_bind; [apply runs_the_manager|]. intros m. eapply runs_weaken_pre; [apply runs_for_each|done].
  intros remote. by apply runs_createPath.
Qed.

(** A client that creates paths sends pings. *)
Definition creates : Prop := is_server side = true \/ createPaths_ env = false \/ crash.

Lemma runs_add_address f now : creates -> runs always (handleAddAddressFrame newCongestion env f now) done_.
Proof.
  intros Hcr. eapply runs_bind; [apply runs_the_manager|]. intros m. cbn beta.
  eapply (runs_bind _ _ _ done_); [|intros []; apply runs_if; intros Ec; [apply runs_createPaths; destruct Hcr as [?|[?|?]]; [by left|congruence|by right]|apply runs_ok]].
  intros s Hs [Hm _].
  repeat match goal with |- context [if ?b then _ else _] => destruct b end;
    [by apply (runs_put_manager _ always)|by apply (runs_put_manager _ always)|by apply (runs_fail AddAddressFrame.ErrUnknownIPVersion always)].
Qed.

Lemma runs_from_remote x now : runs always (createPathFromRemote newCongestion x now) (fun _ s => is_Some (paths s !! PublicHeader.PathID (publicHeader x))).
Proof.
  eapply runs_bind; [apply runs_get|]. intros s0. cbn beta zeta. destruct (paths s0 !! _); [apply runs_fail|].
  apply runs_if; intros _; [apply runs_fail|]. apply runs_if; intros _; [apply runs_fail|].
  eapply runs_bind; [apply runs_put_path|intros []; eapply runs_post; [apply runs_ret|by intros ? ? [_ ?]]]. intros s _. apply setup_ok.
Qed.

(** *** Frames and packets *)

Lemma runs_close_with r P : runs P (close_with r) done_.
Proof. apply runs_modify. intros s Hs _. by apply (inv_kept s). Qed.

(** The paths that a frame takes for granted. *)
Definition known (f : Frame) : Prop :=
  match f with
  | FAck f => AckFrame.PathID f ∈ base
  | FPaths f => forall i pid rtt, PathsFrame.PathIDs f !! i = Some pid -> PathsFrame.RemoteRTTs f !! i = Some rtt ->
      30 * 60 * Second <= rtt -> pid ∈ base
  | _ => True
  end.

Lemma runs_paths f n : forall i,
  (i + n = length (PathsFrame.PathIDs f))%nat -> length (PathsFrame.PathIDs f) = length (PathsFrame.RemoteRTTs f) -> known (FPaths f) \/ crash ->
  runs always (handle_paths f n i) done_.
Proof.
  induction n as [|n IH]; intros i Hi Hl Hk; cbn [handle_paths]; [apply runs_ok|].
  destruct (lookup_lt_is_Some_2 (PathsFrame.PathIDs f) i ltac:(lia)) as [pid Hpid]. rewrite Hpid.
  destruct (lookup_lt_is_Some_2 (PathsFrame.RemoteRTTs f) i ltac:(lia)) as [rtt Hrtt]. rewrite Hrtt.
  eapply runs_bind; [apply runs_modify; intros s Hs _; by apply (inv_kept s)|]. intros [].
  eapply (runs_bind _ _ _ done_); [|intros []; apply IH; [lia|done|done]]. apply runs_if; intros Hb; [|apply runs_ok].
  apply Z.leb_le in Hb. eapply runs_bind; [apply runs_the_path; intros s Hs _; apply known_path; [done|]|].
  - destruct Hk as [Hk|?]; [left|by right]. exact (Hk i pid rtt Hpid Hrtt Hb).
  - intros p. eapply runs_post; [apply runs_put_path|done]. intros s (Hp & _ & _). by eapply ok_same.
Qed.

Lemma runs_ignore m : runs always m done_ -> runs always (ignore_error m) done_.
Proof. intros Hm s Hs _. unfold ignore_error. destruct (Hm s Hs I) as (r & s' & -> & Hs' & Hc & _). destruct r as [u|e|]; eexists _, _; (split_and!; [done|done| |done]); [by destruct u|done|exact Hc]. Qed.

Lemma runs_frame f pid rcvtime now : creates -> pid ∈ base \/ crash -> parsed f -> known f \/ crash -> runs always (handleFrame newCongestion env f pid rcvtime now) done_.
Proof.
  intros Hcr Hpid Hf Hk. destruct f as [f|f|f|f|f|f|f|f| |f|f|f]; cbn [handleFrame parsed] in *.
  - destruct Hf. by apply runs_stream_frame.
  - by apply runs_ack.
  - by apply runs_rst_stream.
  - apply runs_close_with.
  - apply runs_fail.
  - by apply runs_window_update.
  - apply runs_modify. intros s Hs _. by apply (inv_kept s).
  - eapply runs_bind; [apply runs_the_path; intros s Hs _; by apply known_path|]. intros p.
    eapply runs_post; [apply runs_put_path|done]. intros s (Hp & _ & _). by eapply ok_same.
  - apply runs_ok.
  - intros s Hs _. destruct (manager s); [|by apply (runs_ok tt always)].
    destruct (runs_add_address f now Hcr s Hs I) as (r & s' & -> & Hs' & Hc & _).
    assert (runs always (do! _ := schedulePathsFrame now in lift r) done_) as H
      by (eapply runs_bind; [apply runs_schedule|intros []; eapply runs_post; [by apply runs_lift|done]]).
    destruct r; [by apply H..|]. by eexists _, _.
  - apply runs_ignore. by apply runs_close_path_frame.
  - destruct Hf as [H1 H2]. apply runs_paths; [lia|congruence|done].
Qed.

Lemma runs_frames fs pid rcvtime now :
  creates -> pid ∈ base \/ crash -> Forall parsed fs -> Forall known fs \/ crash -> runs always (handleFrames newCongestion env fs pid rcvtime now) done_.
Proof.
  intros Hcr Hpid Hf. induction Hf as [|f fs Hf _ IH]; intros Hk s Hs _; cbn [handleFrames]; [by apply (runs_ok tt always)|].
  destruct (runs_frame f pid rcvtime now Hcr Hpid Hf) with (s := s) as (r & s' & -> & Hs' & Hc & _); [|done|done|].
  { destruct Hk as [Hk|?]; [left; by apply Forall_cons_1 in Hk as [? _]|by right]. }
  assert (runs always (handleFrames newCongestion env fs pid rcvtime now) done_) as H.
  { apply IH. destruct Hk as [Hk|?]; [left; by apply Forall_cons_1 in Hk as [_ ?]|by right]. }
  destruct r as [[]|e|]; [by apply H|destruct (tolerated e); [by apply H|]|]; by eexists _, _.
Qed.

(** The header with the packet number that is inferred from the largest one received. *)
Definition numbered (x : receivedPacket) (largest : Z) : PublicHeader.t :=
  with_number (publicHeader x)
    (InferPacketNumber (PublicHeader.PacketNumberLen (publicHeader x)) largest (PublicHeader.PacketNumber (publicHeader x))).

(** The frames in the packet are known, for a receiver in this state. *)
Definition payload_known (x : receivedPacket) (v largest : Z) : Prop :=
  forall lvl fs, Unpack (Open env) v (rawHeader x) (numbered x largest) (data x) = Ok (lvl, fs) -> Forall known fs.

Lemma runs_path_packet pid x now v largest :
  header_ok x -> creates -> pid ∈ base \/ crash -> opens_quietly (Open env) \/ crash -> payload_known x v largest \/ crash ->
  runs (fun s => version s = v /\ forall p, paths s !! pid = Some p -> largestRcvdPacketNumber p = largest)
    (path_handlePacketImpl newCongestion env pid x now) done_.
Proof.
  intros Hx Hcr Hpid Hq Hk. eapply runs_bind; [apply runs_the_path; intros s Hs _; by apply known_path|]. intros p. cbn beta.
  apply runs_if; intros _; [apply runs_ok|]. cbv zeta.
  set (p1 := set_flags (set_activity p (rcvTime x) (remoteAddr p)) (open p) false (closing p)).
  eapply (runs_bind _ _ _ (fun _ s => (path_ok (closedPaths s) pid p1 /\ largestRcvdPacketNumber p = largest) /\ version s = v)).
  { intros s Hs (Hp & E & Ev & El). assert (path_ok (closedPaths s) (pathID p1) p1) as Hok by (by eapply ok_same).
    eexists _, _. split_and!; [done|by apply inv_put_path|done|]. intros ? _. split; [|exact Ev]. split; [|by apply El]. cbn. by destruct Hp as [<- ? ?]. }
  intros []. eapply runs_bind; [apply runs_get|]. intros s0. cbn beta.
  intros s Hs (<- & _ & ([Hp El] & Ev)). change (largestRcvdPacketNumber p1) with (largestRcvdPacketNumber p). rewrite El, Ev.
  fold (numbered x largest). set (hdr := numbered x largest) in *. assert (0 <= PublicHeader.PacketNumberLen hdr <= 8) as Hl by exact Hx.
  assert (Unpack (Open env) v (rawHeader x) hdr (data x) = Panic -> crash) as Hpanic.
  { intros E. destruct Hq as [Hq|?]; [|done]. by destruct (unpack_quiet _ v (rawHeader x) hdr (data x) AEAD Hq Hl). }
  destruct (Unpack (Open env) v (rawHeader x) hdr (data x)) as [[lvl fs]|e|] eqn:E; cbn beta iota.
  - assert (Forall known fs \/ crash) as Hkn by (destruct Hk as [Hk|?]; [left; by eapply Hk|by right]).
    apply unpack_parsed in E; [|done|done]. set (p2 := if is_server (perspective s0) then _ else _).
    assert (path_ok (closedPaths s0) (pathID p2) p2) as Hok by (unfold p2; destruct (is_server _); by eapply ok_same).
    assert (pathID p2 = pid) as E2 by (unfold p2; destruct (is_server _); exact (po_id _ _ _ Hp)).
    enough (runs (fun s => path_ok (closedPaths s) pid p2) (do! _ := put_path p2 in do! x0 := lift (Ok (lvl, fs)) in
      let '(e, h) := receivedPacketHandler.ReceivedPacket (rcvd p2) (PublicHeader.PacketNumber hdr) (HasRetransmittableFrames x0.2)
                       (Z.of_nat (length (data x))) now in
      do! _ := put_path (set_rcvd p2 h (PublicHeader.PacketNumber hdr) (Z.max (largestRcvdPacketNumber p2) (PublicHeader.PacketNumber hdr))) in
      do! _ := check e in handleFrames newCongestion env x0.2 pid (rcvTime x) now) done_) as H.
    { apply H; [done|]. rewrite <- E2 at 1. exact Hok. }
    eapply (runs_bind _ _ _ (fun _ s => path_ok (closedPaths s) pid p2)).
    { intros s' Hs' Hp'. eexists _, _. split_and!; [done|apply inv_put_path; [done|by rewrite E2]|done|done]. }
    intros []. eapply (runs_bind _ _ _ (fun r s => r = (lvl, fs) /\ path_ok (closedPaths s) pid p2)).
    { intros s' Hs' Hp'. eexists _, _. split_and!; [done|done|done|]. by intros ? [= <-]. }
    intros r. cbn beta. intros s' Hs' [-> Hp']. cbn [snd].
    destruct (receivedPacketHandler.ReceivedPacket _ _ _ _ _) as [e h].
    enough (runs (fun s => path_ok (closedPaths s) pid p2) (do! _ := put_path (set_rcvd p2 h (PublicHeader.PacketNumber hdr)
      (Z.max (largestRcvdPacketNumber p2) (PublicHeader.PacketNumber hdr))) in
      do! _ := check e in handleFrames newCongestion env fs pid (rcvTime x) now) done_) as H by (by apply H).
    eapply runs_bind; [apply runs_put_path; intros s'' Hp''; by eapply ok_same|intros []].
    eapply runs_bind; [apply runs_check|intros []]. eapply runs_weaken_pre; [by apply runs_frames|done].
  - match goal with |- exists _ _, (do! _ := put_path ?q in ?k) s0 = _ /\ _ => enough (runs (fun s => s = s0) (do! _ := put_path q in k) done_) as H by (by apply H) end.
    eapply (runs_bind _ _ _ (fun _ _ => True)); [|intros []; by apply runs_stops]. eapply runs_post; [apply runs_put_path|done]. intros s' ->.
    repeat match goal with |- context [if ?b then _ else _] => destruct b end; by eapply ok_same.
  - match goal with |- exists _ _, (do! _ := put_path ?q in ?k) s0 = _ /\ _ => enough (runs (fun s => s = s0) (do! _ := put_path q in k) done_) as H by (by apply H) end.
    eapply (runs_bind _ _ _ (fun _ _ => True)); [|intros []; apply runs_stops; [done|by intros _; apply Hpanic]].
    eapply runs_post; [apply runs_put_path|done]. intros s' ->. by eapply ok_same.
Qed.

End Facts.

(** ** Sessions *)

Section Sessions.
Context {C : Type} `{!SendAlgorithm C} (newCongestion : Z -> C) (env : Env) (side : Perspective) (base : gset Z) (crash : Prop).
Hypothesis AEAD : opens_bytes (Open env).

Abbreviation session := (session (C := C)).
Abbreviation inv := (session_inv env side base crash).
Implicit Types (s : session).

Lemma inv_other base' (crash' : Prop) s :
  inv s -> base' ⊆ dom (paths s) -> (manager s = None -> crash') -> session_inv env side base' crash' s.
Proof. intros [] ? ?. by split. Qed.

Definition largest_received s pid : Z := match paths s !! pid with Some p => largestRcvdPacketNumber p | None => 0 end.

Lemma take_nonce_same x s r s' : take_nonce env x s = Some (r, s') -> s' = s.
Proof. unfold take_nonce. destruct (_ && _); [|by intros [= _ <-]]. destruct (SetDiversificationNonce env _); [|done]. by intros [= _ <-]. Qed.

(** The nonce of the packet, if there is one, is taken. *)
Definition nonce_ready x s : Prop := exists r, take_nonce env x s = Some (r, s) /\ (r = Panic -> crash).

Lemma packet_impl_ends x now s :
  let pid := PublicHeader.PathID (publicHeader x) in
  inv s -> header_ok x -> nonce_ready x s -> creates env side crash -> opens_quietly (Open env) \/ crash ->
  payload_known env ({[pid]} ∪ base) x (version s) (largest_received s pid) \/ crash ->
  exists r s', handlePacketImpl newCongestion env x now s = Some (r, s') /\ inv s' /\ (r = Panic -> crash).
Proof.
  cbv zeta. intros Hs Hx (r0 & E0 & Hc0) Hcr Hq Hk. unfold handlePacketImpl. unfold bind at 1. rewrite E0.
  destruct r0 as [[]|e|]; [|by eexists _, _..]. unfold bind at 1, modify.
  set (s1 := set_status s _ _ _ _). unfold bind at 1, get. cbn beta iota.
  assert (inv s1) as Hs1 by (by apply (inv_kept _ _ _ _ s)). change (paths s1) with (paths s). unfold largest_received in Hk.
  set (pid := PublicHeader.PathID (publicHeader x)) in *.
  assert (forall s2, session_inv env side ({[pid]} ∪ base) crash s2 -> inv s2) as Hback.
  { intros s2 H2. pose proof H2 as []. by split; try done; set_solver. }
  destruct (paths s !! pid) as [p|] eqn:Ep.
  - destruct (runs_path_packet newCongestion env side ({[pid]} ∪ base) crash AEAD pid x now (version s) (largestRcvdPacketNumber p) Hx Hcr) with (s := s1)
      as (r & s' & E & Hs' & Hc & _); [left; set_solver|done|done| | |].
    + apply inv_other; [done| |apply Hs1]. pose proof (si_known _ _ _ _ _ Hs1). apply union_subseteq. split; [|done].
      apply singleton_subseteq_l, elem_of_dom. change (paths s1) with (paths s). rewrite Ep. by eexists.
    + split; [done|]. change (paths s1) with (paths s). rewrite Ep. by intros ? [= <-].
    + exists r, s'. auto.
  - unfold bind at 1, the_manager. destruct (manager s1) as [m|] eqn:Em.
    2: { exists Panic, s1. split; [done|]. split; [done|]. intros _. by apply (si_managed _ _ _ _ _ Hs1). }
    unfold bind at 1, createPathFromRemote, bind at 1, get. cbn beta iota zeta. change (paths s1) with (paths s). fold pid. rewrite Ep.
    destruct (_ && negb (_ =? 0)); [by eexists _, _|]. destruct (_ && (_ =? 0)); [by eexists _, _|].
    unfold bind at 1, put_path, modify, ret. set (pth := setup _ _ _ _ _ _). set (s2 := set_paths s1 _).
    assert (session_inv env side ({[pid]} ∪ base) crash s2) as Hs2.
    { assert (inv s2) as H2 by (apply inv_put_path; [done|apply setup_ok]). apply inv_other; [exact H2| |apply H2].
      pose proof (si_known _ _ _ _ _ H2). apply union_subseteq. split; [|done]. apply singleton_subseteq_l, elem_of_dom. cbn. rewrite lookup_insert_eq. by eexists. }
    destruct (runs_path_packet newCongestion env side ({[pid]} ∪ base) crash AEAD pid x now (version s) 0 Hx Hcr) with (s := s2)
      as (r & s' & E & Hs' & Hc & _); [left; set_solver|done|done|done| |].
    + split; [done|]. cbn. rewrite lookup_insert_eq. by intros ? [= <-].
    + exists r, s'. auto.
Qed.

Lemma queue_inv s r u t :
  inv s -> (length r <= 2500)%nat -> (length u <= MaxUndecryptablePackets)%nat -> Forall header_ok r -> Forall header_ok u ->
  inv (set_received s r u t).
Proof. intros []. by split. Qed.

Lemma queueing_inv x now s : header_ok x -> inv s -> inv (tryQueueingUndecryptablePacket x now s).
Proof.
  intros Hx Hs. unfold tryQueueingUndecryptablePacket. destruct (handshakeComplete s); [done|].
  destruct (Nat.ltb_spec MaxUndecryptablePackets (length (undecryptablePackets s) + 1)); apply queue_inv; try done; try apply Hs.
  - rewrite length_app. cbn. lia.
  - apply Forall_app. split; [apply Hs|constructor; [exact Hx|constructor]].
Qed.

Lemma handlePacket_inv x s : header_ok x -> inv s -> inv (handlePacket x s).
Proof.
  intros Hx Hs. unfold handlePacket. destruct (Z.ltb_spec (Z.of_nat (length (receivedPackets s))) 2500); [|done].
  apply queue_inv; try apply Hs; [rewrite length_app; cbn; lia|]. apply Forall_app. split; [apply Hs|constructor; [exact Hx|constructor]].
Qed.

Lemma handled_ready x now s r s' : crash -> handlePacketImpl newCongestion env x now s = Some (r, s') -> nonce_ready x s.
Proof.
  intros Hc E. unfold handlePacketImpl, bind at 1 in E. destruct (take_nonce env x s) as [[r0 s0]|] eqn:E0; [|done].
  pose proof E0 as ->%take_nonce_same. by exists r0.
Qed.

Lemma on_packet_ends x now s :
  inv s -> header_ok x -> nonce_ready x s -> creates env side crash -> opens_quietly (Open env) \/ crash ->
  payload_known env ({[PublicHeader.PathID (publicHeader x)]} ∪ base) x (version s) (largest_received s (PublicHeader.PathID (publicHeader x))) \/ crash ->
  exists r s', on_packet newCongestion env x now s = Some (r, s') /\ inv s' /\ (r <> Panic -> r = Ok tt) /\ (r = Panic -> crash).
Proof.
  intros Hs Hx Hn Hcr Hq Hk. unfold on_packet. destruct (packet_impl_ends x now s Hs Hx Hn Hcr Hq Hk) as (r & s' & -> & Hs' & Hc).
  destruct r as [[]|e|]; [by eexists _, _| |by eexists _, _]. destruct (is_decryption_failure e).
  - eexists _, _. split; [done|]. split; [by apply queueing_inv|done].
  - destruct (runs_close_with env side base crash (Local e) (fun _ => True) s' Hs' I) as (r & s2 & E & Hs2 & Hp & _).
    unfold close_with, modify in *. injection E as <- <-. by eexists _, _.
Qed.

Lemma decrypting_inv s : inv s -> inv (tryDecryptingQueuedPackets s).
Proof.
  intros Hs. unfold tryDecryptingQueuedPackets. assert (inv (foldl (fun s x => handlePacket x s) s (undecryptablePackets s))) as H.
  { pose proof (proj2 (si_headers _ _ _ _ _ Hs)) as Hh. revert Hh. generalize (undecryptablePackets s). intros l. revert s Hs.
    induction l as [|x l IH]; intros s Hs Hh; [done|]. apply Forall_cons_1 in Hh as [Hx Hh]. by apply IH; [apply handlePacket_inv|]. }
  apply queue_inv; [done|apply H|cbn; lia|apply H|constructor].
Qed.

(** *** Removing streams *)

Lemma remove_content (m : streams_t) id str :
  streamsMap.streams m !! id = Some str -> streamsMap.streams (streamsMap.RemoveStream m id).2 = delete id (streamsMap.streams m).
Proof. intros E. unfold streamsMap.RemoveStream. rewrite E. by destruct (streamsMap.remove_first _ _ _). Qed.

(** What the iteration over [ids] leaves. *)
Record collected (ids : list Z) (m : streams_t) (fl : flowControlManager.t) (m' : streams_t) (fl' : flowControlManager.t) : Prop := {
  co_inv : streamsMap.inv m';
  co_side : streamsMap.perspective m' = streamsMap.perspective m;
  co_limit : streamsMap.numIncomingStreams m' <= streamsMap.numIncomingStreams m;
  co_streams : forall id, streamsMap.streams m' !! id =
    match streamsMap.streams m !! id with
    | Some str => if decide (id ∈ ids /\ stream.finished str = true) then None else Some str
    | None => None
    end;
  co_flow : same_streams m fl -> same_streams m' fl';
}.

Lemma collect_loop ids : forall m fl,
  streamsMap.inv m -> NoDup ids -> (forall id str, streamsMap.streams m !! id = Some str -> stream_ok id str) ->
  (forall id, id ∈ ids -> is_Some (streamsMap.streams m !! id)) ->
  exists m' fl', streamsMap.iterate_loop collect ids (m, fl) = (Ok tt, (m', fl')) /\ collected ids m fl m' fl'.
Proof.
  induction ids as [|id ids IH]; intros m fl Hm Hn Hid Hin; cbn [streamsMap.iterate_loop].
  { exists m, fl. split; [done|]. split; try done. intros id. destruct (_ !! id); [|done].
    by rewrite decide_False by (intros [[]%not_elem_of_nil _]). }
  apply NoDup_cons in Hn as [Hnot Hn]. destruct (Hin id ltac:(left)) as [str E]. destruct (Hid _ _ E) as [Eid _].
  unfold streamsMap.iterateFunc. cbn [fst]. rewrite E. unfold collect. cbn [fst snd]. rewrite Eid. destruct (stream.finished str) eqn:Ef.
  - pose proof (streamsMap.remove_spec stream.newStream m id Hm) as Hr. pose proof (remove_content m id str E) as Ec. rewrite E in Hr.
    destruct Hr as (m1 & Em & Hm1 & _ & Hop & Hp & _ & _ & Hl & _). rewrite Em in Ec |- *. cbn [snd] in Ec.
    destruct (IH m1 (flowControlManager.RemoveStream fl id) Hm1 Hn) as (m' & fl' & Ei & [C1 C2 C3 C4 C5]).
    { intros i x. rewrite Ec. intros [_ Hx]%lookup_delete_Some. by apply Hid. }
    { intros i Hi. rewrite Ec, lookup_delete_ne by (by intros ->). apply Hin. by right. }
    exists m', fl'. split; [exact Ei|]. split; [done|by rewrite C2|lia| |].
    + intros i. rewrite C4, Ec. destruct (decide (i = id)) as [->|Hne].
      * rewrite lookup_delete_eq, E, decide_True by (split; [left|done]). done.
      * rewrite lookup_delete_ne by done. destruct (_ !! i); [|done].
        destruct (decide (i ∈ ids /\ stream.finished t = true)) as [[H1 H2]|Hd].
        -- rewrite decide_True by (split; [by right|done]). done.
        -- rewrite decide_False; [done|]. intros [[?|?]%elem_of_cons ?]; [done|by apply Hd].
    + intros Hf. apply C5. unfold same_streams in *. rewrite Ec, dom_delete_L, <- Hf. cbn. by rewrite dom_delete_L.
  - destruct (IH m fl Hm Hn Hid) as (m' & fl' & Ei & [C1 C2 C3 C4 C5]); [intros; apply Hin; by right|].
    exists m', fl'. split; [exact Ei|]. split; try done. intros i. rewrite C4. destruct (_ !! i) as [x|] eqn:Ex; [|done].
    destruct (decide (i = id)) as [->|Hne].
    + simplify_eq. rewrite !decide_False; [done|by intros [_ ?]; congruence|by intros [_ ?]; congruence].
    + destruct (decide (i ∈ ids /\ stream.finished x = true)) as [[H1 H2]|Hd].
      * rewrite decide_True by (split; [by right|done]). done.
      * rewrite decide_False; [done|]. intros [[?|?]%elem_of_cons ?]; [done|by apply Hd].
Qed.

Lemma collect_spec s :
  inv s -> exists m fl, garbageCollectStreams s = Some (Ok tt, set_streams s m fl)
    /\ collected (streamsMap.openStreams (streamsMap_ s)) (streamsMap_ s) (flow s) m fl /\ inv (set_streams s m fl).
Proof.
  intros Hs. pose proof (si_streams _ _ _ _ _ Hs) as Hm. unfold garbageCollectStreams, streamsMap.Iterate. cbn [fst].
  destruct (collect_loop (streamsMap.openStreams (streamsMap_ s)) (streamsMap_ s) (flow s) Hm (streamsMap.i_nodup _ Hm) (si_contents _ _ _ _ _ Hs))
    as (m & fl & -> & Hc); [intros id Hi; by apply (streamsMap.i_dom _ Hm)|].
  exists m, fl. split; [done|]. split; [done|]. pose proof Hc as [C1 C2 C3 C4 C5]. apply inv_set_streams; try done.
  - rewrite C2. apply Hs.
  - intros Hv. pose proof (si_limit _ _ _ _ _ Hs Hv). lia.
  - apply C5, Hs.
  - intros id str. rewrite C4. destruct (_ !! id) as [x|] eqn:E; [|done]. destruct (decide _); [done|]. intros [= <-]. by apply (si_contents _ _ _ _ _ Hs).
Qed.

End Sessions.

(** ** Reachable sessions *)

(** *** Properties that a call preserves when it ends *)

Section Preserves.
Context {C : Type} `{!SendAlgorithm C} (I : session (C := C) -> Prop).

Definition preserves {A} (m : M (C := C) A) : Prop := forall s r s', I s -> m s = Some (r, s') -> I s'.

Lemma preserves_bind {A B} (m : M A) (k : A -> M B) : preserves m -> (forall a, preserves (k a)) -> preserves (bind m k).
Proof.
  intros Hm Hk s r s' Hs. unfold bind. destruct (m s) as [[[a|e|] s1]|] eqn:E; [| | |done].
  - apply Hk. by eapply Hm.
  - intros [= _ <-]. by eapply Hm.
  - intros [= _ <-]. by eapply Hm.
Qed.

Lemma preserves_ret {A} (a : A) : preserves (ret a).
Proof. by intros s r s' Hs [= _ <-]. Qed.
Lemma preserves_lift {A} (x : res A) : preserves (lift x).
Proof. by intros s r s' Hs [= _ <-]. Qed.
Lemma preserves_panic {A} : preserves (panic (A := A)).
Proof. by intros s r s' Hs [= _ <-]. Qed.
Lemma preserves_none {A} : preserves (fun _ => None (A := res A * session)).
Proof. by intros s r s'. Qed.
Lemma preserves_check e : preserves (check e).
Proof. destruct e; by intros s r s' Hs [= _ <-]. Qed.
Lemma preserves_get : preserves get.
Proof. by intros s r s' Hs [= _ <-]. Qed.
Lemma preserves_path pid : preserves (the_path pid).
Proof. intros s r s' Hs. unfold the_path. destruct (_ !! _); by intros [= _ <-]. Qed.
Lemma preserves_modify f : (forall s, I s -> I (f s)) -> preserves (modify f).
Proof. intros Hf s r s' Hs [= _ <-]. by apply Hf. Qed.
Lemma preserves_if {A} (b : bool) (m1 m2 : M A) : preserves m1 -> preserves m2 -> preserves (if b then m1 else m2).
Proof. by destruct b. Qed.

(** The path that was read is still there when the call goes on. *)
Lemma preserves_with_path {B} pid (k : path -> M B) :
  (forall s p r s', I s -> paths s !! pid = Some p -> k p s = Some (r, s') -> I s') -> preserves (bind (the_path pid) k).
Proof.
  intros Hk s r s' Hs. unfold bind, the_path. destruct (paths s !! pid) as [p|] eqn:E; [by eapply Hk|by intros [= _ <-]].
Qed.

(** A call that needs what the state it starts from has. *)
Lemma preserves_state {B} (k : session -> M B) : (forall s, preserves (k s)) -> preserves (bind get k).
Proof. intros Hk. apply preserves_bind; [apply preserves_get|exact Hk]. Qed.

Lemma preserves_ignore m : preserves m -> preserves (ignore_error m).
Proof.
  intros Hm s r s' Hs. unfold ignore_error. destruct (m s) as [[[a|e|] s1]|] eqn:E; [..|done]; intros [= _ <-]; by eapply Hm.
Qed.

Lemma preserves_for_each {A} (f : A -> M unit) l : (forall a, preserves (f a)) -> preserves (for_each f l).
Proof. intros Hf. induction l; [apply preserves_ret|apply preserves_bind; [apply Hf|done]]. Qed.
End Preserves.

Section Reachable.
Context {C : Type} `{!SendAlgorithm C} (newCongestion : Z -> C) (env : Env) (side : Perspective).
Hypothesis AEAD : opens_bytes (Open env).
Hypothesis limit : 0 <= maxIncoming env.

Abbreviation session := (session (C := C)).
Implicit Types (s : session).

(** What holds of every session. *)
Definition consistent s : Prop := session_inv env side {[InitialPathID]} True s.

(** The streams and the data the framer holds were used: read, written, reset or sent.  Which streams
    there are did not change, and what was received on them is still in order. *)
Record used (f f' : streamFramer.t) : Prop := {
  us_open : streamsMap.openStreams (streamFramer.smap f') = streamsMap.openStreams (streamFramer.smap f);
  us_dom : dom (streamsMap.streams (streamFramer.smap f')) = dom (streamsMap.streams (streamFramer.smap f));
  us_side : streamsMap.perspective (streamFramer.smap f') = streamsMap.perspective (streamFramer.smap f);
  us_next : streamsMap.nextStream (streamFramer.smap f') = streamsMap.nextStream (streamFramer.smap f);
  us_highest : streamsMap.highestStreamOpenedByPeer (streamFramer.smap f') = streamsMap.highestStreamOpenedByPeer (streamFramer.smap f);
  us_in : streamsMap.numIncomingStreams (streamFramer.smap f') = streamsMap.numIncomingStreams (streamFramer.smap f);
  us_out : streamsMap.numOutgoingStreams (streamFramer.smap f') = streamsMap.numOutgoingStreams (streamFramer.smap f);
  us_index : 0 <= streamsMap.roundRobinIndex (streamFramer.smap f') <= Z.of_nat (length (streamsMap.openStreams (streamFramer.smap f)));
  us_contents : forall id str, streamsMap.streams (streamFramer.smap f') !! id = Some str -> stream_ok id str;
  us_flow : dom (flowControlManager.streamFlowController (streamFramer.flow f')) = dom (flowControlManager.streamFlowController (streamFramer.flow f));
}.

(** What happens in a session: packets arrive and are handled, timers fire, streams are opened, used
    and collected, paths are created and closed, packets are sent. *)
Inductive step : session -> session -> Prop :=
| st_receive x s : header_ok x -> step s (handlePacket x s)
| st_packet x rest now s s' :
    receivedPackets s = x :: rest ->
    on_packet newCongestion env x now (set_received s rest (undecryptablePackets s) (tooManyUndecryptable s)) = Some (Ok tt, s') -> step s s'
| st_decrypt s : step s (tryDecryptingQueuedPackets s)
| st_open s r s' : streamsMap.nextStream (streamsMap_ s) + 2 < 2 ^ 32 -> OpenStream env s = Some (r, s') -> step s s'
| st_get id s r s' : 0 <= id < 2 ^ 32 -> GetOrOpenStream env id s = Some (r, s') -> step s s'
| st_collect s r s' : garbageCollectStreams s = Some (r, s') -> step s s'
| st_used s p : used (framer s) (packetPacker.framer p) -> step s (set_packer s p)
| st_timer pid now s r s' : on_path_timer pid now s = Some (r, s') -> step s s'
| st_sent pkt pid b now s r s' : sendPackedPacket env pkt pid b now s = Some (r, s') -> step s s'
| st_create now s r s' : createPaths newCongestion env now s = Some (r, s') -> step s s'
| st_close pid b s r s' : closePath pid b s = Some (r, s') -> step s s'
| st_closed pid s r s' : path_run_closed pid s = Some (r, s') -> step s s'
| st_woken pid s r s' : path_run_sent pid s = Some (r, s') -> step s s'.

(** A session starts with its crypto stream. *)
Inductive reachable : session -> Prop :=
| rs_new b multipath local remote now s :
    PacketPacker.perspective b = side -> open_crypto env (newSession newCongestion env b multipath local remote now) = Some (Ok tt, s) -> reachable s
| rs_step s s' : reachable s -> step s s' -> reachable s'.

Abbreviation runs := (runs env side {[InitialPathID]} True).
Abbreviation always := (fun _ : session => True).

(** A call that is part of a run keeps the session consistent. *)
Lemma call_keeps {A} (m : M A) Q s (r : res A) s' : runs always m Q -> consistent s -> m s = Some (r, s') -> consistent s'.
Proof. intros Hm Hs E. destruct (Hm s Hs I) as (r1 & s1 & E1 & Hs1 & _). rewrite E in E1. injection E1 as _ ->. exact Hs1. Qed.

Lemma new_consistent b multipath local remote now :
  PacketPacker.perspective b = side -> consistent (newSession newCongestion env b multipath local remote now).
Proof.
  intros Eb. assert (streamsMap.openStreams (streamsMap.newStreamsMap (S := stream.t) side) = [] /\ streamsMap.streams (streamsMap.newStreamsMap (S := stream.t) side) = ∅
    /\ streamsMap.perspective (streamsMap.newStreamsMap (S := stream.t) side) = side /\ streamsMap.numIncomingStreams (streamsMap.newStreamsMap (S := stream.t) side) = 0)
    as (E1 & E2 & E3 & E4) by (by destruct side).
  split; unfold newSession; cbn -[streamsMap.newStreamsMap]; rewrite ?Eb; try done.
  - apply streamsMap.new_inv.
  - intros _. by rewrite E4.
  - unfold same_streams. cbn. by rewrite E2.
  - intros id str. by rewrite E2.
  - intros pid p [<- <-]%lookup_singleton_Some. apply setup_ok.
  - intros m. destruct multipath; [|done]. intros [= <-]. cbn. by destruct side.
  - lia.
  - lia.
Qed.

(** A call that keeps the session consistent when it ends. *)
Abbreviation keeps := (preserves consistent).

Lemma keeps_runs {A} (m : M A) Q : runs always m Q -> keeps m.
Proof. intros Hm s r s'. by apply (call_keeps m Q). Qed.

Lemma keeps_accept : keeps (AcceptStream env).
Proof.
  intros s r s' Hs. unfold AcceptStream, on_streams, streamsMap.AcceptStream.
  destruct (streamsMap.closeErr (streamsMap_ s)); [|destruct (_ !! _); [|done]]; intros [= _ <-].
  - apply inv_set_flow; [done|]. unfold opened_flow. by rewrite drop_all.
  - pose proof Hs as []. apply inv_set_streams; try done.
    + by apply (streamsMap.same_inv (streamsMap_ s)).
    + unfold opened_flow. cbn [streamsMap.openStreams]. by rewrite drop_all.
Qed.

Lemma keeps_open s r s' : consistent s -> streamsMap.nextStream (streamsMap_ s) + 2 < 2 ^ 32 -> OpenStream env s = Some (r, s') -> consistent s'.
Proof.
  intros Hs Hlt E. destruct (runs_Open env side {[InitialPathID]} True always s Hs (conj I Hlt)) as (r1 & s1 & E1 & Hs1 & _).
  rewrite E in E1. injection E1 as _ ->. exact Hs1.
Qed.

Lemma keeps_crypto s r s' :
  consistent s -> streamsMap.nextStream (streamsMap_ s) + 2 < 2 ^ 32 -> open_crypto env s = Some (r, s') -> consistent s'.
Proof.
  intros Hs Hlt. unfold open_crypto. unfold bind at 1, get. destruct (is_server (perspective s)).
  - assert (keeps (do! _ := ignore_error (do! _ := GetOrOpenStream env 1 in ret tt) in ignore_error (do! _ := AcceptStream env in ret tt))) as H; [|by apply H].
    apply preserves_bind; [apply preserves_ignore|intros _; apply preserves_ignore].
    + apply preserves_bind; [|intros; apply preserves_ret]. exact (keeps_runs _ _ (runs_GetOrOpen env side {[InitialPathID]} True 1 always ltac:(lia))).
    + apply preserves_bind; [apply keeps_accept|intros; apply preserves_ret].
  - unfold ignore_error, bind. destruct (OpenStream env s) as [[[str|e|] s1]|] eqn:E; [..|done]; intros [= _ <-]; by eapply keeps_open.
Qed.

Lemma keeps_timer pid now : keeps (on_path_timer pid now).
Proof.
  assert (forall pid, runs always (the_path pid) (fun p s => path_ok (closedPaths s) pid p /\ paths s !! pid = Some p /\ True)) as Hthe
    by (intros; by apply runs_the_path).
  apply (keeps_runs _ (fun _ _ => True)). eapply runs_bind; [apply Hthe|]. intros p. cbn beta.
  destruct (sentPacketHandler.GetAlarmTimeout (sent p)) as [t|]; [|apply runs_ok]. apply runs_if; intros _; [|apply runs_ok].
  eapply (runs_bind _ _ _ _ _ _ _ (fun _ => always)).
  - apply runs_if; intros _; [|apply runs_ok]. eapply runs_bind; [by apply runs_the_path|]. intros p1. cbn beta.
    apply runs_if; intros _; [|apply runs_ok]. eapply runs_bind; [apply runs_put_path|intros []; apply runs_schedule].
    intros s (Hp & _ & _). by eapply ok_same.
  - intros []. eapply runs_bind; [apply Hthe|]. intros p1. eapply runs_post; [apply runs_put_path|done].
    intros s (Hp & _ & _). eapply ok_sent; [done|]. apply inv_on_alarm, Hp.
Qed.

Lemma keeps_closed pid : keeps (path_run_closed pid).
Proof.
  apply (keeps_runs _ (fun _ _ => True)). eapply runs_bind; [by apply runs_the_path|]. intros p. cbn beta.
  apply runs_if; intros _; [|apply runs_ok]. eapply runs_post; [apply runs_put_path|done].
  intros s ([E1 E2 E3] & _ & _). by split.
Qed.

Lemma keeps_woken pid : keeps (path_run_sent pid).
Proof.
  apply (keeps_runs _ (fun _ _ => True)). eapply runs_bind; [by apply runs_the_path|]. intros p. cbn beta.
  apply runs_if; intros _; [|apply runs_ok]. eapply runs_post; [apply runs_put_path|done]. intros s (Hp & _ & _). by eapply ok_same.
Qed.

Lemma keeps_sent_signal pid : keeps (signal_sent pid).
Proof.
  intros s r s' Hs. unfold signal_sent. destruct (paths s !! pid) as [p|] eqn:Hp; [|by intros [= _ <-]]. destruct (_ && _); [done|].
  intros [= _ <-]. pose proof (si_paths _ _ _ _ _ Hs _ _ Hp) as Hok. apply (inv_put_path _ _ _ _ s (set_sentPacket p true)); [done|]. by eapply ok_same.
Qed.

Lemma keeps_packed_packet pkt pid b now : keeps (sendPackedPacket env pkt pid b now).
Proof.
  apply preserves_with_path. intros s p r s' Hs Hp. cbn beta zeta.
  match goal with |- context [sentPacketHandler.SentPacket ?h ?x now] => destruct (sentPacketHandler.SentPacket h x now) as [e h'] eqn:E end.
  match goal with |- bind _ ?k _ = _ -> _ => assert (keeps (k tt)) as Hk; cbn beta end.
  - destruct e as [e|]; [apply preserves_bind; [apply preserves_lift|intros _; exact (preserves_check _ (Some e))]|].
    apply preserves_bind; [apply keeps_sent_signal|intros _]. apply preserves_bind; [|intros _; apply preserves_bind; [apply preserves_lift|intros _; apply preserves_check]].
    apply preserves_modify. intros s2 Hs2. by apply (inv_kept _ _ _ _ s2).
  - pose proof (si_paths _ _ _ _ _ Hs _ _ Hp) as Hok. intros Hr. eapply Hk; [|exact Hr].
    apply (inv_put_path _ _ _ _ s (set_sent p h')); [done|]. eapply ok_sent; [done|]. by eapply inv_sent_eq; [apply Hok|].
Qed.

Lemma used_inv s p : consistent s -> used (framer s) (packetPacker.framer p) -> consistent (set_packer s p).
Proof.
  intros [] [U1 U2 U3 U4 U5 U6 U7 U8 U9 U10]. split; try done; unfold streamsMap_, flow, framer in *; cbn [packer set_packer] in *.
  - destruct si_streams0 as [H1 H2 H3 H4 H5 H6 H7 H8 H9 H10].
    split; rewrite ?U1, ?U3, ?U4, ?U5, ?U6, ?U7; try done. intros id. by rewrite <- elem_of_dom, U2, elem_of_dom.
  - by rewrite U3.
  - by rewrite U6.
  - unfold same_streams in *. by rewrite U10, U2.
Qed.

Lemma keeps_on_packet x now s r s' : header_ok x -> consistent s -> on_packet newCongestion env x now s = Some (r, s') -> consistent s'.
Proof.
  intros Hx Hs E. assert (nonce_ready env True x s) as Hn.
  { unfold on_packet in E. destruct (handlePacketImpl newCongestion env x now s) as [[]|] eqn:E1; [|done]. by eapply handled_ready. }
  destruct (on_packet_ends newCongestion env side {[InitialPathID]} True AEAD x now s Hs Hx Hn) as (r1 & s2 & E1 & Hs2 & _); [by right; right|by right..|].
  rewrite E in E1. injection E1 as _ ->. exact Hs2.
Qed.

Lemma step_consistent s s' : consistent s -> step s s' -> consistent s'.
Proof.
  intros Hs Hst. destruct Hst as [x s Hx|x rest now s s' Er E|s|s r s' Hn E|id s r s' Hid E|s r s' E|s p Hu|pid now s r s' E
    |pkt pid b now s r s' E|now s r s' E|pid b s r s' E|pid s r s' E|pid s r s' E].
  - by apply handlePacket_inv.
  - pose proof (si_headers _ _ _ _ _ Hs) as [Hh Hu]. pose proof (si_received _ _ _ _ _ Hs) as Hl. rewrite Er in Hh, Hl. apply Forall_cons_1 in Hh as [Hx Hh].
    cbn [length] in Hl. set (s1 := set_received s rest _ _) in *.
    assert (consistent s1) as Hs1 by (apply queue_inv; [exact Hs|lia|exact (si_waiting _ _ _ _ _ Hs)|exact Hh|exact Hu]).
    by eapply keeps_on_packet.
  - by apply decrypting_inv.
  - by eapply keeps_open.
  - by eapply (keeps_runs _ _ (runs_GetOrOpen env side {[InitialPathID]} True id always Hid)).
  - destruct (collect_spec env side {[InitialPathID]} True s Hs) as (m & fl & E1 & _ & Hs1). rewrite E in E1. injection E1 as _ ->. exact Hs1.
  - by apply used_inv.
  - by eapply keeps_timer.
  - by eapply keeps_packed_packet.
  - by eapply (keeps_runs _ _ (runs_createPaths newCongestion env side {[InitialPathID]} True now ltac:(by right))).
  - by eapply (keeps_runs _ _ (runs_closePath env side {[InitialPathID]} True pid b ltac:(done))).
  - by eapply keeps_closed.
  - by eapply keeps_woken.
Qed.

Lemma reachable_consistent s : reachable s -> consistent s.
Proof.
  induction 1 as [b mp local remote now s Eb E|s s' _ IH Hst]; [|by eapply step_consistent].
  eapply keeps_crypto; [by apply new_consistent| |exact E]. unfold newSession. cbn -[streamsMap.newStreamsMap Z.pow]. rewrite Eb. by destruct side.
Qed.

End Reachable.
