(* ===== verification/SessionSafety.v ===== *)
(** * What a session can rely on, and what it cannot

    The theorems about sessions, over the invariant of [SessionFacts]: the session stays consistent,
    every packet is handled and none crashes a session unless it names a path the session does not
    have; and what happens when it does. *)

From stdpp Require Import base numbers list option strings gmap.
From S2P Require Import Prelude ByteOrder Protocol AckRanges AckFrame ClosePathFrame StreamFrame ControlFrames PublicHeader PacketUnpacker PacketPacker FlowControl FrameSorter GoFloat ReceivedPackets RttStats SentPackets StreamsMap GoSlice Stream StreamFramer PackPacket PackFacts Session SessionFacts.

Local Open Scope Z_scope.
#[local] Notation "'do!' x ':=' m 'in' k" := (bind m (fun x => k)) (at level 10, x name, m at level 99, k at level 200).

Section Theorems.
Context {C : Type} `{!SendAlgorithm C} (newCongestion : Z -> C) (env : Env) (side : Perspective).
Hypothesis AEAD : opens_bytes (Open env).
Hypothesis limit : 0 <= maxIncoming env.

Abbreviation session := (session (C := C)).
Abbreviation path := (path (C := C)).
Implicit Types (s : session) (p : path).
Abbreviation reachable := (reachable newCongestion env side).

(** C16. In every state of a session the open streams are exactly those with a flow controller, a
    server's peer has no more of them than it is allowed, what was received on each is sorted, every
    path is kept under its ID with exact books of the bytes in flight and a timer when something is
    to be acknowledged, the initial path is there, the next path ID has the parity of the side, and
    the queues are bounded. *)
Theorem session_consistent s :
  reachable s ->
  (forall id, is_Some (streamsMap.streams (streamsMap_ s) !! id) <-> is_Some (flowControlManager.streamFlowController (flow s) !! id))
  /\ (is_server side = true -> streamsMap.numIncomingStreams (streamsMap_ s) <= maxIncoming env)
  /\ (forall id str, streamsMap.streams (streamsMap_ s) !! id = Some str ->
        stream.streamID str = id /\ sorted 0 (streamFrameSorter.gaps (stream.frameQueue str)))
  /\ (forall pid p, paths s !! pid = Some p ->
        pathID p = pid /\ sentPacketHandler.bytesInFlight (sentPacketHandler.inflight (sent p)) = u64 (SentPackets.total (sentPacketHandler.packetHistory (sentPacketHandler.inflight (sent p))))
        /\ (sentPacketHandler.hasOutstandingRetransmittablePacket (sentPacketHandler.inflight (sent p)) = true -> is_Some (sentPacketHandler.alarm (sent p))))
  /\ is_Some (paths s !! InitialPathID)
  /\ (forall m, manager s = Some m -> 0 <= nxtPathID m < 256 /\ nxtPathID m mod 2 = if is_server side then 0 else 1)
  /\ (length (receivedPackets s) <= 2500)%nat /\ (length (undecryptablePackets s) <= MaxUndecryptablePackets)%nat.
Proof.
  intros Hs. apply reachable_consistent in Hs as [H0 H1 H2 H3 H4 H5 H6 H7 H8 H9 H10 H11 H12 H13]; [|done..].
  split_and!; try done.
  - intros id. rewrite <- !elem_of_dom. by rewrite H4.
  - intros id str Hin. by destruct (H5 id str Hin) as [? [? _]].
  - intros pid p Hp. destruct (H6 pid p Hp) as [? [[_ Hb] _ Ha] _]. by split_and!.
Qed.

(** C14. Handling a packet ends and leaves the session consistent, unless it has a diversification nonce that a
    client's crypto setup never takes.  If the session has a path manager, taking the nonce and decryption do not
    panic, the session need not create paths itself and the packet names no path that the session does not know (in
    an ACK, or in a PATHS frame as failed), the handling does not panic either, whatever else the packet contains. *)
Theorem packets_are_handled x now s :
  reachable s -> header_ok x -> take_nonce env x s <> None ->
  exists r s', on_packet newCongestion env x now s = Some (r, s') /\ consistent env side s'
    /\ (is_Some (manager s) -> take_nonce env x s = Some (Ok tt, s) -> opens_quietly (Open env) -> is_server side = true \/ createPaths_ env = false ->
        payload_known env ({[PublicHeader.PathID (publicHeader x)]} ∪ dom (paths s)) x (version s)
          (largest_received s (PublicHeader.PathID (publicHeader x))) -> r = Ok tt).
Proof.
  intros Hs Hx Hn. apply reachable_consistent in Hs; [|done..].
  assert (nonce_ready env True x s) as Hn'.
  { destruct (take_nonce env x s) as [[r0 s0]|] eqn:E; [|done]. pose proof E as ->%take_nonce_same. by exists r0. }
  destruct (on_packet_ends newCongestion env side {[InitialPathID]} True AEAD x now s Hs Hx Hn') as (r & s' & E & Hs' & Hr & _); [by right; right|by right..|].
  exists r, s'. split; [done|]. split; [done|]. intros Hm Htaken Hq Hside Hk.
  assert (session_inv env side (dom (paths s)) False s) as H2.
  { eapply inv_other; [exact Hs|done|]. intros E1. rewrite E1 in Hm. by destruct Hm. }
  destruct (on_packet_ends newCongestion env side (dom (paths s)) False AEAD x now s H2 Hx) as (r2 & s2 & E2 & _ & Hr2 & Hno);
    [by exists (Ok tt)|destruct Hside; [by left|by right; left]|by left..|].
  rewrite E in E2. injection E2 as <- <-. apply Hr2. intros ->. by apply Hno.
Qed.

(** A client gives away the nonce of a header before anything in the packet is authenticated: with a crypto setup that
    panics on it (that of TLS does) any packet with a nonce crashes the process, and with one that does not take it any
    more it blocks the session. *)
Theorem untaken_nonce x now s :
  is_server (perspective s) = false -> PublicHeader.DiversificationNonce (publicHeader x) <> [] ->
  let taken := SetDiversificationNonce env (PublicHeader.DiversificationNonce (publicHeader x)) in
  (taken = Some Panic -> handlePacketImpl newCongestion env x now s = Some (Panic, s)) /\ (taken = None -> handlePacketImpl newCongestion env x now s = None).
Proof.
  intros Hc Hn taken. assert (take_nonce env x s = (r ← taken; Some (r, s))) as E.
  { unfold take_nonce. rewrite Hc. unfold taken. by destruct (PublicHeader.DiversificationNonce (publicHeader x)). }
  split; intros Ht; unfold handlePacketImpl, bind at 1; by rewrite E, Ht.
Qed.

(** ** Paths the session does not know *)

(** The frame names a path that the session does not have, where the code takes it for granted. *)
Definition names_unknown s (f : Frame) : Prop :=
  match f with
  | FAck f => paths s !! AckFrame.PathID f = None
  | FPaths f => exists i pid rtt, (i < Z.to_nat (PathsFrame.NumPaths f))%nat /\ PathsFrame.PathIDs f !! i = Some pid
      /\ PathsFrame.RemoteRTTs f !! i = Some rtt /\ 30 * 60 * Second <= rtt /\ paths s !! pid = None
  | _ => False
  end.

Definition keyed (m : gmap Z path) : Prop := forall pid p, m !! pid = Some p -> pathID p = pid.
Abbreviation by_id s := (keyed (paths s)).

Lemma keyed_insert (m : gmap Z path) p : keyed m -> keyed (<[pathID p := p]> m).
Proof. intros Hm k q [[<- <-]|[_ H]]%lookup_insert_Some; [done|by apply Hm]. Qed.

Lemma keyed_replace (m : gmap Z path) pid p p' : keyed m -> m !! pid = Some p -> pathID p' = pathID p -> keyed (<[pid := p']> m).
Proof. intros Hm Hp E k q [[<- <-]|[_ H]]%lookup_insert_Some; [by rewrite E; apply Hm|by apply Hm]. Qed.

(** A path that replaces one makes no other one known. *)
Lemma unknown_insert (m : gmap Z path) p k pid : m !! k = None /\ is_Some (m !! pid) -> <[pid := p]> m !! k = None /\ is_Some (<[pid := p]> m !! pid).
Proof.
  intros [Hk [q Hq]]. rewrite lookup_insert_eq. split; [|by eexists]. apply lookup_insert_None. split; [done|]. intros <-. congruence.
Qed.

(** Entries of the frame that a walk from [i] over [n] of them comes to. *)
Definition failed_unknown (f : PathsFrame.t) (i n : nat) s : Prop :=
  exists j pid rtt, (i <= j < i + n)%nat /\ PathsFrame.PathIDs f !! j = Some pid /\ PathsFrame.RemoteRTTs f !! j = Some rtt
    /\ 30 * 60 * Second <= rtt /\ paths s !! pid = None.

(** The walk over a PATHS frame marks paths, adds none, and panics where one is missing. *)
Lemma paths_walk f n : forall i s, by_id s ->
  exists r s', handle_paths f n i s = Some (r, s') /\ (forall e, r <> Err e) /\ (failed_unknown f i n s -> r = Panic).
Proof.
  induction n as [|n IH]; intros i s Hid; cbn [handle_paths].
  { eexists _, _. split; [done|]. split; [done|]. intros (j & pid & rtt & ? & _). lia. }
  destruct (PathsFrame.PathIDs f !! i) as [pid|] eqn:Epid; [|by eexists _, _]. destruct (PathsFrame.RemoteRTTs f !! i) as [rtt|] eqn:Ertt; [|by eexists _, _].
  unfold bind at 1, modify. set (s1 := set_remote s _ _). unfold bind at 1.
  assert (forall s2, (forall k, paths s !! k = None -> paths s2 !! k = None) -> by_id s2 -> (paths s !! pid = None -> rtt < 30 * 60 * Second) ->
    exists r s', handle_paths f n (S i) s2 = Some (r, s') /\ (forall e, r <> Err e) /\ (failed_unknown f i (S n) s -> r = Panic)) as Hnext.
  { intros s2 Hsame Hids Hhere. destruct (IH (S i) s2 Hids) as (r & s' & E & He & Hp). exists r, s'. split; [done|]. split; [done|].
    intros (j & pid' & rtt' & Hj & H1 & H2 & H3 & H4). apply Hp. exists j, pid', rtt'.
    split; [|split_and!; try done; by apply Hsame]. destruct (decide (j = i)) as [->|]; [|lia].
    rewrite Epid in H1. rewrite Ertt in H2. simplify_eq. specialize (Hhere H4). lia. }
  destruct (Z.leb_spec (30 * 60 * Second) rtt) as [Hbig|Hsmall]; [|by apply Hnext].
  unfold bind at 1, the_path. change (paths s1) with (paths s). destruct (paths s !! pid) as [p|] eqn:Ep; [|by eexists _, _].
  unfold put_path, modify. apply Hnext; [| |congruence].
  - intros k Hk. cbn. rewrite lookup_insert_None. split; [done|]. intros <-. rewrite (Hid _ _ Ep) in Hk. congruence.
  - by apply keyed_insert.
Qed.

Lemma unknown_frame_panics f pid rcvtime now s :
  by_id s -> names_unknown s f -> exists s', handleFrame newCongestion env f pid rcvtime now s = Some (Panic, s').
Proof.
  intros Hid Hn. destruct f as [f|f|f|f|f|f|f|f| |f|f|f]; cbn [names_unknown handleFrame] in *; try done.
  - exists s. unfold handleAckFrame, bind, the_path. by rewrite Hn.
  - destruct (paths_walk f (Z.to_nat (PathsFrame.NumPaths f)) 0 s Hid) as (r & s' & -> & _ & Hp). exists s'. do 2 f_equal.
    rewrite Hp; [done|]. destruct Hn as (j & pid' & rtt & Hj & H). exists j, pid', rtt. split; [lia|exact H].
Qed.

(** A packet that is authenticated and whose first frame names a path the session does not have
    stops the whole process: the session dereferences a nil path. *)
Theorem unknown_path_panics x now s p lvl f fs :
  reachable s -> paths s !! PublicHeader.PathID (publicHeader x) = Some p -> open p = true ->
  take_nonce env x s = Some (Ok tt, s) ->
  Unpack (Open env) (version s) (rawHeader x) (numbered x (largestRcvdPacketNumber p)) (data x) = Ok (lvl, f :: fs) ->
  (receivedPacketHandler.ReceivedPacket (rcvd p) (PublicHeader.PacketNumber (numbered x (largestRcvdPacketNumber p)))
     (HasRetransmittableFrames (f :: fs)) (Z.of_nat (length (data x))) now).1 = None ->
  names_unknown s f ->
  exists s', on_packet newCongestion env x now s = Some (Panic, s').
Proof.
  intros Hs Ep Ho En Eu Er Hn. apply reachable_consistent in Hs; [|done..].
  assert (by_id s) as Hid by (intros k q Hq; by destruct (si_paths _ _ _ _ _ Hs k q Hq)).
  unfold on_packet, handlePacketImpl. unfold bind at 1. rewrite En. unfold bind at 1, modify. unfold bind at 1, get. cbn beta iota zeta.
  set (s1 := set_status s _ _ _ _). change (paths s1) with (paths s). rewrite Ep.
  unfold path_handlePacketImpl. unfold bind at 1, the_path. change (paths s1) with (paths s). rewrite Ep, Ho. cbn [negb].
  unfold bind at 1, put_path, modify. unfold bind at 1, get. cbn beta iota zeta.
  match goal with |- context [Unpack (Open env) ?v (rawHeader x) ?h (data x)] =>
    change (Unpack (Open env) v (rawHeader x) h (data x)) with (Unpack (Open env) (version s) (rawHeader x) (numbered x (largestRcvdPacketNumber p)) (data x)) end.
  rewrite Eu. unfold bind at 1, put_path, modify. unfold bind at 1, lift. cbn [snd].
  set (p2 := if is_server _ then _ else _).
  assert (rcvd p2 = rcvd p /\ pathID p2 = PublicHeader.PathID (publicHeader x)) as [E1 E2]
    by (unfold p2; destruct (is_server _); (split; [done|exact (Hid _ _ Ep)])).
  rewrite E1. change (PublicHeader.PacketNumber (with_number _ _)) with (PublicHeader.PacketNumber (numbered x (largestRcvdPacketNumber p))).
  destruct (receivedPacketHandler.ReceivedPacket _ _ _ _ _) as [e h] eqn:Eh. cbn [fst] in Er. subst e.
  unfold bind at 1, put_path, modify. unfold bind at 1, check, ret. cbn [handleFrames].
  match goal with |- context [handleFrame _ _ f ?pid ?t now ?st] => destruct (unknown_frame_panics f pid t now st) as (s' & ->) end.
  - by repeat apply keyed_insert.
  - assert (is_Some (paths s !! PublicHeader.PathID (publicHeader x))) as Hsome by (rewrite Ep; by eexists).
    destruct f; cbn [names_unknown] in *; try done.
    + cbn. rewrite E2, (Hid _ _ Ep). by eapply proj1; repeat apply unknown_insert.
    + destruct Hn as (i & pid & rtt & ? & ? & ? & ? & Hp). exists i, pid, rtt. split_and!; try done. cbn. rewrite E2, (Hid _ _ Ep).
      by eapply proj1; repeat apply unknown_insert.
  - by exists s'.
Qed.

(** The PATHS frame of a session with a failed path. *)
Definition announces (f : PathsFrame.t) (pid : Z) : Prop :=
  exists i rtt, (i < Z.to_nat (PathsFrame.NumPaths f))%nat /\ PathsFrame.PathIDs f !! i = Some pid
    /\ PathsFrame.RemoteRTTs f !! i = Some rtt /\ 30 * 60 * Second <= rtt.

Lemma schedule_announces s pid p now :
  paths s !! pid = Some p -> potentiallyFailed p = true -> (size (paths s) < 256)%nat ->
  exists f s', schedulePathsFrame now s = Some (Ok tt, s') /\ streamFramer.pathsFrame (framer s') = Some f
    /\ paths s' = paths s /\ announces (PathsFrame.received f) pid.
Proof.
  intros Hp Hf Hn. eexists _, _. split; [done|]. cbn. split; [done|]. split; [done|].
  apply elem_of_map_to_list, list_elem_of_lookup in Hp as [i Hi].
  assert (length (map_to_list (paths s)) = size (paths s)) as El by (by rewrite length_map_to_list).
  exists i, (PathsFrame.rtt_seen streamFramer.Hour). unfold PathsFrame.received. cbn. rewrite !length_map, u8_small by lia.
  split; [apply lookup_lt_Some in Hi; lia|]. rewrite !list_lookup_fmap, Hi. cbn. rewrite Hf.
  split; [done|]. split; [done|]. by vm_compute.
Qed.

(** C35. When the alarm of a path fires as a retransmission timeout, with no loss timer and both tail loss probes used,
    and nothing has arrived on the path since the last packet was sent, the session announces the path as failed to its peer; a peer that has never heard of the path,
    because no packet on it got through, panics when the announcement reaches it. *)
Theorem failed_path_crashes_peer s pid p t now side' peer pid' rcvtime now' :
  reachable s -> SessionFacts.reachable newCongestion env side' peer -> paths s !! pid = Some p -> (size (paths s) < 256)%nat ->
  sentPacketHandler.GetAlarmTimeout (sent p) = Some t -> t < now -> asks_onRTO (sent p) = true ->
  lastNetworkActivityTime p < sentPacketHandler.lastSentTime (sent p) -> paths peer !! pid = None ->
  exists f s' peer', on_path_timer pid now s = Some (Ok tt, s') /\ streamFramer.pathsFrame (framer s') = Some f
    /\ handleFrame newCongestion env (FPaths (PathsFrame.received f)) pid' rcvtime now' peer = Some (Panic, peer').
Proof.
  intros Hs Hpeer Hp Hn Ht Hlt Hasks Hsilent Hno.
  apply reachable_consistent in Hs, Hpeer; [|done..].
  assert (pathID p = pid) as Eid by (by destruct (si_paths _ _ _ _ _ Hs pid p Hp)).
  assert (by_id peer) as Hid by (intros k q Hq; by destruct (si_paths _ _ _ _ _ Hpeer k q Hq)).
  unfold on_path_timer. unfold bind at 1, the_path. rewrite Hp. cbn beta. rewrite Ht, (proj2 (Z.ltb_lt _ _) Hlt), Hasks.
  unfold bind at 1, onRTO. unfold bind at 1, the_path. rewrite Hp. rewrite (proj2 (Z.ltb_lt _ _) Hsilent).
  unfold bind at 1, put_path, modify. set (p1 := set_flags p (open p) true (closing p)). set (s1 := set_paths s _).
  assert (paths s1 !! pid = Some p1) as Hp1 by (cbn; rewrite Eid; apply lookup_insert_eq).
  destruct (schedule_announces s1 pid p1 now Hp1 eq_refl) as (f & s2 & -> & Hf & E2 & Ha).
  { cbn. rewrite Eid, map_size_insert_Some by (rewrite Hp; by eexists). done. }
  cbn beta iota. unfold bind at 1, the_path. rewrite E2, Hp1. unfold put_path, modify.
  destruct (unknown_frame_panics (FPaths (PathsFrame.received f)) pid' rcvtime now' peer Hid) as (peer' & Epeer).
  { destruct Ha as (i & rtt & H1 & H2 & H3 & H4). by exists i, pid, rtt. }
  exists f. eexists _, peer'. split; [done|]. split; [exact Hf|exact Epeer].
Qed.

(** ** What anyone can do *)

(** A server creates a path, and counts the connection as active, for any packet that names a new
    path with an odd ID, also when the packet cannot be decrypted: whoever knows the connection ID
    can do it. *)
Theorem unauthenticated_packet_opens_path x now s m e :
  is_server (perspective s) = true -> manager s = Some m -> paths s !! PublicHeader.PathID (publicHeader x) = None ->
  PublicHeader.PathID (publicHeader x) mod 2 = 1 ->
  (forall n, Open env (data x) n (rawHeader x) = Err e) ->
  exists s' p, on_packet newCongestion env x now s = Some (Ok tt, s') /\ paths s' !! PublicHeader.PathID (publicHeader x) = Some p
    /\ open p = true /\ remoteAddr p = fromAddr x /\ lastActivity s' = rcvTime x.
Proof.
  intros Hsv Hm Hno Hodd He. unfold on_packet, handlePacketImpl. unfold bind at 1, take_nonce. rewrite Hsv. cbn [negb andb]. unfold bind at 1, modify. unfold bind at 1, get. cbn beta iota zeta.
  set (s1 := set_status s _ _ _ _). change (paths s1) with (paths s). rewrite Hno.
  unfold bind at 1, the_manager. change (manager s1) with (manager s). rewrite Hm.
  unfold bind at 1, createPathFromRemote. unfold bind at 1, get. cbn beta iota zeta. change (paths s1) with (paths s). rewrite Hno.
  change (perspective s1) with (perspective s). rewrite Hsv, Hodd. cbn [negb andb Z.eqb].
  unfold bind at 1, put_path, modify, ret. set (p0 := setup _ _ _ _ _ _). cbn [pathID p0 setup].
  unfold path_handlePacketImpl. unfold bind at 1, the_path. set (s2 := set_paths s1 _).
  assert (paths s2 !! PublicHeader.PathID (publicHeader x) = Some p0) as -> by (cbn; apply lookup_insert_eq).
  cbn [p0 setup open negb]. unfold bind at 1, put_path, modify. unfold bind at 1, get. cbn beta iota zeta.
  unfold Unpack. rewrite He. cbn [is_decryption_failure]. rewrite bool_decide_eq_true_2 by done.
  unfold bind at 1, put_path, modify. unfold bind at 1, lift.
  match goal with |- exists s' p, (if ?b then Some (Ok tt, tryQueueingUndecryptablePacket x now ?st) else _) = _ /\ _ => set (s3 := st); change b with true end.
  assert (exists p, paths s3 !! PublicHeader.PathID (publicHeader x) = Some p /\ open p = true /\ remoteAddr p = fromAddr x) as (p & H1 & H2 & H3).
  { eexists. split; [cbn; apply lookup_insert_eq|]. done. }
  exists (tryQueueingUndecryptablePacket x now s3), p. split; [done|]. unfold tryQueueingUndecryptablePacket.
  destruct (handshakeComplete s3); [by split_and!|]. destruct (_ <? _)%nat; by split_and!.
Qed.

(** ** Finished streams *)

(** The collection of streams removes the finished streams, each with its flow controller, and
    keeps the others as they are; it cannot fail. *)
Theorem finished_streams_collected s :
  reachable s ->
  exists s', garbageCollectStreams s = Some (Ok tt, s')
    /\ (forall id, streamsMap.streams (streamsMap_ s') !! id =
          match streamsMap.streams (streamsMap_ s) !! id with
          | Some str => if stream.finished str then None else Some str
          | None => None
          end)
    /\ (forall id, is_Some (flowControlManager.streamFlowController (flow s') !! id) <-> is_Some (streamsMap.streams (streamsMap_ s') !! id))
    /\ streamsMap.numIncomingStreams (streamsMap_ s') <= streamsMap.numIncomingStreams (streamsMap_ s).
Proof.
  intros Hs. apply reachable_consistent in Hs; [|done..].
  destruct (collect_spec env side {[InitialPathID]} True s Hs) as (m & fl & E & [C1 C2 C3 C4 C5] & Hs').
  eexists. split; [exact E|]. split; [|split; [|exact C3]].
  - intros id. change (streamsMap_ (set_streams s m fl)) with m. rewrite C4.
    destruct (streamsMap.streams (streamsMap_ s) !! id) as [str|] eqn:Es; [|done]. destruct (stream.finished str) eqn:Ef.
    + rewrite decide_True; [done|]. split; [|done]. apply (streamsMap.i_dom _ (si_streams _ _ _ _ _ Hs)). by rewrite Es.
    + rewrite decide_False; [done|]. by intros [_ ?].
  - intros id. rewrite <- !elem_of_dom. pose proof (si_flow _ _ _ _ _ Hs') as Hf. unfold same_streams in Hf. by rewrite Hf.
Qed.
End Theorems.

(** ** Witnesses *)

#[local] Existing Instance fixed_window.
Definition one_window (_ : Z) : Z := 100000.
Definition after {A} (m : M (C := Z) A) (s : session (C := Z)) : session (C := Z) := match m s with Some (_, s) => s | None => s end.
Definition here : UDPAddr := AddAddressFrame.MkAddr [10; 0; 0; 1] 4000 "".
Definition there : UDPAddr := AddAddressFrame.MkAddr [10; 0; 0; 2] 443 "".

(** Payloads are sent as they are; those that begin with 0xee do not authenticate. *)
Definition sample_open (src : list Z) (_ : Z) (_ : list Z) : res (list Z * Z) :=
  if bool_decide (head src = Some 0xee) || negb (forallb (fun b => (0 <=? b) && (b <? 256)) src)
  then Err (GoErr "message authentication failed") else Ok (src, EncryptionForwardSecure).
Definition sample_env : Env :=
  MkEnv sample_crypto sample_open (fun _ => Some (Ok tt)) server_params 100 100 false false true
    [here] (fun a => if AddAddressFrame.Port a =? 4000 then "10.0.0.1:4000" else "10.0.0.2:443") (fun _ _ => None) None.
Definition sample_side (b : bool) : Packer := MkPacker 0xdecafbad (if b then PerspectiveServer else PerspectiveClient) VersionMP false (repeat 0 32).
Definition server0 : session := after (open_crypto sample_env) (newSession one_window sample_env (sample_side true) true "10.0.0.2:443" here 0).
Definition client0 : session := after (open_crypto sample_env) (newSession one_window sample_env (sample_side false) true "10.0.0.9:4000" there 0).

Lemma sample_limit : 0 <= maxIncoming sample_env.
Proof. done. Qed.
Lemma server0_reachable : reachable one_window sample_env PerspectiveServer server0.
Proof. apply (rs_new one_window sample_env PerspectiveServer (sample_side true) true "10.0.0.2:443" here 0); [done|]. vm_compute. reflexivity. Qed.
Lemma client0_reachable : reachable one_window sample_env PerspectiveClient client0.
Proof. apply (rs_new one_window sample_env PerspectiveClient (sample_side false) true "10.0.0.9:4000" there 0); [done|]. vm_compute. reflexivity. Qed.

(** The client creates a path and sends on it; the peer does not answer. *)
Definition client1 : session := after (createPaths one_window sample_env 1000) client0.
Definition ping_packet (n : Z) : packetPacker.packedPacket := packetPacker.MkPacked n (Some [7]) [FPing] EncryptionForwardSecure.
Definition send (n now : Z) (s : session) : session := after (sendPackedPacket sample_env (ping_packet n) 1 true now) s.
Definition client2 : session := send 4 4000 (send 3 3000 (send 2 2000 client1)).
Definition client3 : session := after (on_path_timer 1 (2 * Second)) client2.
Definition client4 : session := after (on_path_timer 1 (4 * Second)) client3.

Lemma client4_reachable : reachable one_window sample_env PerspectiveClient client4.
Proof.
  assert (forall s m (r : res unit), reachable one_window sample_env PerspectiveClient s -> m s = Some (r, after m s) ->
    (forall s', m s = Some (r, s') -> step one_window sample_env s s') -> reachable one_window sample_env PerspectiveClient (after m s)) as Hstep
    by (intros s m r Hs E Hm; eapply rs_step; [exact Hs|by apply Hm]).
  assert (forall n now s, reachable one_window sample_env PerspectiveClient s ->
    sendPackedPacket sample_env (ping_packet n) 1 true now s = Some (Ok tt, send n now s) -> reachable one_window sample_env PerspectiveClient (send n now s)) as Hsend
    by (intros n now s Hs E; apply (Hstep _ _ (Ok tt)); [exact Hs|exact E|intros s' E'; by eapply st_sent]).
  assert (forall now s, reachable one_window sample_env PerspectiveClient s ->
    on_path_timer 1 now s = Some (Ok tt, after (on_path_timer 1 now) s) -> reachable one_window sample_env PerspectiveClient (after (on_path_timer 1 now) s)) as Htimer
    by (intros now s Hs E; apply (Hstep _ _ (Ok tt)); [exact Hs|exact E|intros s' E'; by eapply st_timer]).
  apply Htimer; [|vm_compute; reflexivity]. apply Htimer; [|vm_compute; reflexivity].
  apply Hsend; [|vm_compute; reflexivity]. apply Hsend; [|vm_compute; reflexivity]. apply Hsend; [|vm_compute; reflexivity].
  apply (Hstep _ _ (Ok tt)); [exact client0_reachable|vm_compute; reflexivity|intros s' E'; by eapply st_create].
Qed.

Lemma sample_aead : opens_bytes (Open sample_env).
Proof.
  intros src n raw out lvl. cbn [Open sample_env]. unfold sample_open. destruct (bool_decide _); [done|]. cbn [orb].
  destruct (forallb _ src) eqn:E; [|done]. intros [= <- _]. apply Forall_forall. intros b Hb%list_elem_of_In.
  rewrite forallb_forall in E. specialize (E b Hb). apply andb_true_iff in E as [?%Z.leb_le ?%Z.ltb_lt]. done.
Qed.
Lemma sample_quiet : opens_quietly (Open sample_env).
Proof. intros src n raw. cbn [Open sample_env]. unfold sample_open. by destruct (_ || _). Qed.

(** A packet that arrives on a path, with this payload. *)
Definition incoming (pid n : Z) (payload : list Z) : receivedPacket :=
  MkReceived there (PublicHeader.Mk 0xdecafbad pid false false false true 2 n VersionMP [] []) [] payload 5000 "10.0.0.2:443".

Lemma session_consistent_witness :
  is_Some (paths client4 !! InitialPathID) /\ (length (undecryptablePackets client4) <= MaxUndecryptablePackets)%nat.
Proof.
  destruct (session_consistent one_window sample_env PerspectiveClient sample_aead sample_limit client4 client4_reachable) as (_ & _ & _ & _ & H1 & _ & _ & H2).
  by split.
Defined.

Definition stream_payload : list Z := [0xa0; 5; 0; 2; 104; 105; 0x04; 0; 0; 0; 9; 0; 0; 0; 0; 0; 1; 0; 0].

Lemma packets_are_handled_witness :
  exists r s', on_packet one_window sample_env (incoming 3 1 stream_payload) 6000 server0 = Some (r, s') /\ r = Ok tt.
Proof.
  destruct (packets_are_handled one_window sample_env PerspectiveServer sample_aead sample_limit (incoming 3 1 stream_payload) 6000 server0 server0_reachable) as (r & s' & E & _ & Hr).
  { unfold header_ok. cbn. lia. }
  { vm_compute. discriminate. }
  exists r, s'. split; [exact E|]. apply Hr; [by eexists|vm_compute; reflexivity|exact sample_quiet|by left|].
  intros lvl fs. vm_compute. intros [= _ <-]. repeat constructor.
Defined.

(** An ACK frame for path 9. *)
Definition unknown_ack : list Z := [0x50; 9; 1; 0; 0; 1; 0].

Lemma unknown_path_panics_witness :
  exists s', on_packet one_window sample_env (incoming 0 1 unknown_ack) 6000 server0 = Some (Panic, s').
Proof.
  destruct (paths server0 !! 0) as [p|] eqn:Ep; [|vm_compute in Ep; discriminate Ep].
  assert (open p = true /\ largestRcvdPacketNumber p = 0
    /\ (receivedPacketHandler.ReceivedPacket (rcvd p) 1 false 7 6000).1 = None) as (Eo & El & Er)
    by (vm_compute in Ep; injection Ep as <-; split; [reflexivity|split; [reflexivity|vm_compute; reflexivity]]).
  apply (unknown_path_panics one_window sample_env PerspectiveServer sample_aead sample_limit (incoming 0 1 unknown_ack) 6000 server0 p
    EncryptionForwardSecure (FAck (AckFrame.Mk 9 (MkAcked 1 1 []) 0 0)) []); [exact server0_reachable|exact Ep|exact Eo|vm_compute; reflexivity| | |].
  - rewrite El. vm_compute. reflexivity.
  - rewrite El. exact Er.
  - vm_compute. reflexivity.
Defined.

(** The client announces its silent path to a server that never heard of it. *)
Lemma failed_path_crashes_peer_witness :
  exists f s' peer', on_path_timer 1 (6 * Second) client4 = Some (Ok tt, s') /\ streamFramer.pathsFrame (framer s') = Some f
    /\ handleFrame one_window sample_env (FPaths (PathsFrame.received f)) 0 7000 7000 server0 = Some (Panic, peer').
Proof.
  destruct (paths client4 !! 1) as [p|] eqn:Ep; [|vm_compute in Ep; discriminate Ep].
  assert (sentPacketHandler.GetAlarmTimeout (sent p) = Some 500004000 /\ asks_onRTO (sent p) = true
    /\ lastNetworkActivityTime p < sentPacketHandler.lastSentTime (sent p)) as (Ea & Eo & El)
    by (vm_compute in Ep; injection Ep as <-; split; [vm_compute; reflexivity|split; [vm_compute; reflexivity|cbn; lia]]).
  apply (failed_path_crashes_peer one_window sample_env PerspectiveClient sample_aead sample_limit client4 1 p 500004000 (6 * Second)
    PerspectiveServer server0 0 7000 7000);
    [exact client4_reachable|exact server0_reachable|exact Ep|vm_compute; lia|exact Ea|vm_compute; reflexivity|exact Eo|exact El|vm_compute; reflexivity].
Defined.

Lemma unauthenticated_packet_opens_path_witness :
  exists s' p, on_packet one_window sample_env (incoming 3 1 [0xee]) 6000 server0 = Some (Ok tt, s') /\ paths s' !! 3 = Some p
    /\ open p = true /\ remoteAddr p = there /\ lastActivity s' = 5000.
Proof.
  destruct (manager server0) as [m|] eqn:Em; [|vm_compute in Em; discriminate Em].
  apply (unauthenticated_packet_opens_path one_window sample_env (incoming 3 1 [0xee]) 6000 server0 m (GoErr "message authentication failed"));
    [reflexivity|exact Em|vm_compute; reflexivity|reflexivity|intros n; reflexivity].
Defined.

Lemma finished_streams_collected_witness :
  exists s', garbageCollectStreams client4 = Some (Ok tt, s') /\ is_Some (streamsMap.streams (streamsMap_ s') !! 1).
Proof.
  destruct (finished_streams_collected one_window sample_env PerspectiveClient sample_aead sample_limit client4 client4_reachable) as (s' & E & H & _ & _).
  exists s'. split; [exact E|]. rewrite H. vm_compute. by eexists.
Defined.
