(* ===== verification/Aead.v ===== *)
(** * The AEADs of a connection

    Models [internal/crypto]: the null AEADs that protect the first packets of a handshake
    ([null_aead.go], [null_aead_fnv128a.go], [null_aead_fnv64a.go]), the AES-GCM AEADs
    ([aesgcm12_aead.go], [aesgcm_aead.go]) and the derivation of their keys
    ([key_derivation_quic_crypto.go]).

    FNV-64a is Go's [hash/fnv].  The 128-bit variant, the ciphers ([cipher.AEAD]) and HKDF are
    packages of others and parameters: [Sum128] gives the high and the low half of a hash,
    [NewGCM] the cipher of a key, [hkdf] the first bytes of a stream of key material. *)

From stdpp Require Import base numbers list option strings gmap.
From S2P Require Import Prelude ByteOrder Protocol PublicHeader PacketUnpacker PacketPacker Handshake CryptoServer.

Local Open Scope Z_scope.

(** ** The null AEADs *)

Definition errShort12 : goerr := GoErr "NullAEAD: ciphertext cannot be less than 12 bytes long".
Definition errShort8 : goerr := GoErr "NullAEAD: ciphertext cannot be less than 8 bytes long".
Definition errNotAuthentic : goerr := GoErr "NullAEAD: failed to authenticate received data".

Definition client_label : list Z := bytes_of_string "Client".
Definition server_label : list Z := bytes_of_string "Server".

Module nullAEADFNV128a.
Section Aead.
Context (Sum128 : list Z -> Z * Z) (perspective : Perspective).

Definition Open (src : list Z) (packetNumber : Z) (associatedData : list Z) : res (list Z) :=
  if (length src <? 12)%nat then Err errShort12
  else
    let '(testHigh, testLow) := Sum128 (associatedData ++ drop 12 src ++ (if is_server perspective then client_label else server_label)) in
    let low := le_val (take 8 src) in
    let high := le_val (take 4 (drop 8 src)) in
    if negb (u32 (Z.land testHigh 0xffffffff) =? high) || negb (testLow =? low) then Err errNotAuthentic
    else Ok (drop 12 src).

Definition Seal (src : list Z) (packetNumber : Z) (associatedData : list Z) : list Z :=
  let '(high, low) := Sum128 (associatedData ++ src ++ (if is_server perspective then server_label else client_label)) in
  le_bytes 8 low ++ le_bytes 4 (u32 high) ++ src.

Definition Overhead : Z := 12.

Definition aead : AEAD := MkAEAD Open (MkSealer Seal Overhead).
End Aead.
End nullAEADFNV128a.

Module nullAEADFNV64a.

(** [fnv.New64a], after the bytes were written. *)
Definition Sum64 (data : list Z) : Z :=
  foldl (fun h c => u64 (Z.lxor h c * 1099511628211)) 14695981039346656037 data.

Definition Open (src : list Z) (packetNumber : Z) (associatedData : list Z) : res (list Z) :=
  if (length src <? 8)%nat then Err errShort8
  else
    let data := take (length src - 8) src in
    if negb (Sum64 (associatedData ++ data) =? be_val (drop (length src - 8) src)) then Err errNotAuthentic else Ok data.

Definition Seal (src : list Z) (packetNumber : Z) (associatedData : list Z) : list Z :=
  src ++ be_bytes 8 (Sum64 (associatedData ++ src)).

Definition Overhead : Z := 8.

Definition aead : AEAD := MkAEAD Open (MkSealer Seal Overhead).
End nullAEADFNV64a.

(** [VersionNumber.UsesTLS] *)
Definition UsesTLS (v : Z) : bool := v =? VersionTLS.

Definition NewNullAEAD (Sum128 : list Z -> Z * Z) (p : Perspective) (v : Z) : AEAD :=
  if UsesTLS v then nullAEADFNV64a.aead else nullAEADFNV128a.aead Sum128 p.

(** ** AES-GCM *)

(** [cipher.AEAD]: nonce, text and associated data. *)
Record CipherAEAD : Type := MkCipher {
  cipher_Seal : list Z -> list Z -> list Z -> list Z;
  cipher_Open : list Z -> list Z -> list Z -> res (list Z);
  cipher_Overhead : Z;
}.

Module aeadAESGCM12.

Record t : Type := Mk {
  otherIV : list Z;
  myIV : list Z;
  encrypter : CipherAEAD;
  decrypter : CipherAEAD;
}.

Definition errKeys : goerr := GoErr "AES-GCM: expected 16-byte keys and 4-byte IVs".

Definition NewAEADAESGCM12 (NewGCM : list Z -> res CipherAEAD) (otherKey myKey otherIV myIV : list Z) : res t :=
  if negb (length myKey =? 16)%nat || negb (length otherKey =? 16)%nat || negb (length myIV =? 4)%nat || negb (length otherIV =? 4)%nat
  then Err errKeys
  else encrypter ← NewGCM myKey; decrypter ← NewGCM otherKey; mret (Mk otherIV myIV encrypter decrypter).

Definition makeNonce (iv : list Z) (packetNumber : Z) : list Z := take 4 (iv ++ repeat 0 4) ++ le_bytes 8 packetNumber.

Definition Open (a : t) (src : list Z) (packetNumber : Z) (associatedData : list Z) : res (list Z) :=
  cipher_Open (decrypter a) (makeNonce (otherIV a) packetNumber) src associatedData.
Definition Seal (a : t) (src : list Z) (packetNumber : Z) (associatedData : list Z) : list Z :=
  cipher_Seal (encrypter a) (makeNonce (myIV a) packetNumber) src associatedData.
Definition Overhead (a : t) : Z := cipher_Overhead (encrypter a).

Definition aead (a : t) : AEAD := MkAEAD (Open a) (MkSealer (Seal a) (Overhead a)).
End aeadAESGCM12.

(** For TLS: the nonce is the IV, exclusive or the packet number. *)
Module aeadAESGCM.

Record t : Type := Mk {
  otherIV : list Z;
  myIV : list Z;
  encrypter : CipherAEAD;
  decrypter : CipherAEAD;
}.

Definition ivLen : nat := 12.
Definition errIVs : goerr := GoErr "AES-GCM: expected 12 byte IVs".

Definition NewAEADAESGCM (NewGCM : list Z -> res CipherAEAD) (otherKey myKey otherIV myIV : list Z) : res t :=
  if negb (length otherIV =? ivLen)%nat || negb (length myIV =? ivLen)%nat then Err errIVs
  else encrypter ← NewGCM myKey; decrypter ← NewGCM otherKey; mret (Mk otherIV myIV encrypter decrypter).

Definition makeNonce (iv : list Z) (packetNumber : Z) : list Z :=
  zip_with Z.lxor (repeat 0 (ivLen - 8) ++ be_bytes 8 packetNumber) iv.

Definition Open (a : t) (src : list Z) (packetNumber : Z) (associatedData : list Z) : res (list Z) :=
  cipher_Open (decrypter a) (makeNonce (otherIV a) packetNumber) src associatedData.
Definition Seal (a : t) (src : list Z) (packetNumber : Z) (associatedData : list Z) : list Z :=
  cipher_Seal (encrypter a) (makeNonce (myIV a) packetNumber) src associatedData.
Definition Overhead (a : t) : Z := cipher_Overhead (encrypter a).

Definition aead (a : t) : AEAD := MkAEAD (Open a) (MkSealer (Seal a) (Overhead a)).
End aeadAESGCM.

(** ** Keys *)

Section Keys.
(** [hkdf secret salt info n]: what [io.ReadFull] reads of the stream of [hkdf.New]. *)
Context (hkdf : list Z -> list Z -> list Z -> nat -> res (list Z)) (NewGCM : list Z -> res CipherAEAD).

(** The key and the IV are read one after the other. *)
Definition diversify (key iv divNonce : list Z) : res (list Z * list Z) :=
  s ← hkdf (key ++ iv) divNonce (bytes_of_string "QUIC key diversification") (length key + length iv);
  mret (take (length key) s, drop (length key) s).

Definition key_info (forwardSecure : bool) (connID : Z) (chlo scfg cert : list Z) : list Z :=
  (if forwardSecure then bytes_of_string "QUIC forward secure key expansion" else bytes_of_string "QUIC key expansion") ++ [0]
  ++ (LE.WriteUint64 connID).1 ++ chlo ++ scfg ++ cert.

(** The peer's key, ours, the peer's IV and ours. *)
Definition deriveKeys (forwardSecure : bool) (sharedSecret nonces : list Z) (connID : Z) (chlo scfg cert divNonce : list Z)
    (keyLen : nat) (swap : bool) : res (list Z * list Z * list Z * list Z) :=
  s ← hkdf sharedSecret nonces (key_info forwardSecure connID chlo scfg cert) (2 * keyLen + 2 * 4);
  let key1 := take keyLen s in
  let key2 := take keyLen (drop keyLen s) in
  let iv1 := take 4 (drop (2 * keyLen) s) in
  let iv2 := drop (2 * keyLen + 4) s in
  '(key2, iv2) ← (if forwardSecure then mret (key2, iv2) else diversify key2 iv2 divNonce);
  mret (if swap then (key2, key1, iv2, iv1) else (key1, key2, iv1, iv2)).

Definition DeriveQuicCryptoAESKeys : KeyDerivation := fun forwardSecure sharedSecret nonces connID chlo scfg cert divNonce pers =>
  '(otherKey, myKey, otherIV, myIV) ← deriveKeys forwardSecure sharedSecret nonces connID chlo scfg cert divNonce 16 (negb (is_server pers));
  aeadAESGCM12.aead <$> aeadAESGCM12.NewAEADAESGCM12 NewGCM otherKey myKey otherIV myIV.
End Keys.
