(* ===== verification/Cookies.v ===== *)
(** * Source address tokens

    Models the cookies with which a server recognises the address of a client:
    [internal/crypto/source_address_token.go], [internal/handshake/cookie_generator.go] and
    [defaultAcceptCookie] of [server.go]; and [internal/handshake/ephermal_cache.go], the key exchange
    that a server keeps for a minute.

    A token is sealed with a cipher of its own, a parameter like HKDF.  Its content is written with
    [encoding/asn1], of which the DER of a pair of a byte string and a 64-bit integer is modelled; the
    texts of its errors are not.  Go strings are their bytes; [net.IP.String] is a parameter.  The
    clock and random bytes are arguments. *)

From stdpp Require Import base numbers list option strings gmap.
From S2P Require Import Prelude ByteOrder Protocol ControlFrames PublicHeader PacketUnpacker PacketPacker Handshake ServerConfig ConnectionParameters CryptoServer Aead.

Local Open Scope Z_scope.

(** ** DER *)

Module asn1.

Definition TagInteger : Z := 0x02.
Definition TagOctetString : Z := 0x04.
Definition TagSequence : Z := 0x30.      (* compound *)

Definition errSyntax : goerr := GoErr "asn1: syntax error".

(** How many bytes a length or an integer takes. *)
Fixpoint lengthLength (fuel : nat) (i : Z) : nat :=
  match fuel with O => 1 | S fuel => if 255 <? i then S (lengthLength fuel (Z.shiftr i 8)) else 1 end.
Fixpoint int64Length (fuel : nat) (i : Z) : nat :=
  match fuel with O => 1 | S fuel => if (127 <? i) || (i <? -128) then S (int64Length fuel (Z.shiftr i 8)) else 1 end.

Definition element (tag : Z) (content : list Z) : list Z :=
  let n := Z.of_nat (length content) in
  tag :: (if n <? 128 then [n] else let l := lengthLength 8 n in Z.lor 0x80 (Z.of_nat l) :: be_bytes l n) ++ content.

Definition int64 (i : Z) : list Z := element TagInteger (be_bytes (int64Length 8 i) i).

(** Reading. *)
Fixpoint read_length (n : nat) (acc : Z) : reader Z :=
  match n with
  | O => mret acc
  | S n =>
      b ← ReadByte;
      if 2 ^ 23 <=? acc then throw errSyntax
      else let acc := Z.lor (Z.shiftl acc 8) b in
           if acc =? 0 then throw errSyntax else read_length n acc
  end.

(** [parseTagAndLength]; the tag byte is compared as a whole. *)
Definition tag_and_length : reader (Z * Z) :=
  tag ← ReadByte;
  if Z.land tag 0x1f =? 0x1f then throw errSyntax
  else
    b ← ReadByte;
    if Z.land b 0x80 =? 0 then mret (tag, Z.land b 0x7f)
    else if Z.land b 0x7f =? 0 then throw errSyntax
    else
      n ← read_length (Z.to_nat (Z.land b 0x7f)) 0;
      if n <? 128 then throw errSyntax else mret (tag, n).

Definition read_element (expected : Z) : reader (list Z) :=
  '(tag, n) ← tag_and_length;
  if negb (tag =? expected) then throw errSyntax else ReadFull n.

(** The bytes of an integer, none too many. *)
Definition read_integer (bs : list Z) : res Z :=
  match bs with
  | [] => Err errSyntax
  | b0 :: rest =>
      let superfluous := match rest with
                         | b1 :: _ => ((b0 =? 0) && (Z.land b1 0x80 =? 0)) || ((b0 =? 0xff) && (Z.land b1 0x80 =? 0x80))
                         | [] => false
                         end in
      if superfluous then Err errSyntax
      else Ok (be_val bs - (if Z.land b0 0x80 =? 0 then 0 else 2 ^ (8 * Z.of_nat (length bs))))
  end.

(** [parseInt64] *)
Definition read_int64 (bs : list Z) : res Z := i ← read_integer bs; if (8 <? length bs)%nat then Err errSyntax else mret i.
End asn1.

(** ** Tokens *)

Module stkSource.
Definition stkKeySize : nat := 16.
Definition stkNonceSize : nat := 16.

Definition errShort : goerr := GoErr "STK too short".

Definition deriveKey (hkdf : list Z -> list Z -> list Z -> nat -> res (list Z)) (secret : list Z) : res (list Z) :=
  hkdf secret [] (bytes_of_string "QUIC source address token key") stkKeySize.

(** The cipher takes nonces of 16 bytes. *)
Definition NewStkSource (hkdf : list Z -> list Z -> list Z -> nat -> res (list Z)) (NewGCM : list Z -> res CipherAEAD)
    (secret : res (list Z)) : res CipherAEAD :=
  secret ← secret; key ← deriveKey hkdf secret; NewGCM key.

Definition NewToken (aead : CipherAEAD) (nonce : res (list Z)) (data : list Z) : res (list Z) :=
  nonce ← nonce; mret (nonce ++ cipher_Seal aead nonce data []).

Definition DecodeToken (aead : CipherAEAD) (p : list Z) : res (list Z) :=
  if (length p <? stkNonceSize)%nat then Err errShort
  else cipher_Open aead (take stkNonceSize p) (drop stkNonceSize p) [].
End stkSource.

(** [net.Addr] *)
Inductive Addr : Type :=
| UDP (a : AddAddressFrame.UDPAddr)
| OtherAddr (text : list Z).

Record Cookie : Type := MkCookie { RemoteAddr : list Z; SentTime : Z }.

(** [token] *)
Record token : Type := MkToken { Data : list Z; Timestamp : Z }.

Definition Marshal (t : token) : list Z := asn1.element asn1.TagSequence (asn1.element asn1.TagOctetString (Data t) ++ asn1.int64 (Timestamp t)).

(** What follows the two fields in the sequence is ignored; what follows the sequence is returned. *)
Definition fields (inner : list Z) : res token :=
  '(data, r) ← (asn1.read_element asn1.TagOctetString inner : res (list Z * list Z));
  '(i, _) ← (asn1.read_element asn1.TagInteger r : res (list Z * list Z));
  t ← asn1.read_int64 i;
  mret (MkToken data t).

Definition Unmarshal : reader token := fun s =>
  '(inner, rest) ← (asn1.read_element asn1.TagSequence s : res (list Z * list Z));
  t ← fields inner;
  mret (t, rest).

Definition cookiePrefixIP : Z := 0.
Definition cookiePrefixString : Z := 1.

Definition encodeRemoteAddr (a : Addr) : list Z :=
  match a with
  | UDP u => cookiePrefixIP :: AddAddressFrame.IP u
  | OtherAddr s => cookiePrefixString :: s
  end.

Definition errRest : goerr := GoErr "rest when unpacking token".

Definition CookieExpiryTime : Z := 24 * 3600 * Second.

Section Cookies.
Context (IPString : list Z -> list Z).

Definition decodeRemoteAddr (data : list Z) : list Z :=
  match data with
  | [] => []
  | p :: rest => if p =? cookiePrefixIP then IPString rest else rest
  end.

(** [CookieGenerator]; the source is its cipher. *)
Definition NewToken (g : CipherAEAD) (raddr : Addr) (now : Z) (nonce : res (list Z)) : res (list Z) :=
  stkSource.NewToken g nonce (Marshal (MkToken (encodeRemoteAddr raddr) (now / Second))).

Definition DecodeToken (g : CipherAEAD) (encrypted : list Z) : res (option Cookie) :=
  match encrypted with
  | [] => Ok None
  | _ =>
      data ← stkSource.DecodeToken g encrypted;
      '(t, rest) ← Unmarshal data;
      if negb (length rest =? 0)%nat then Err errRest
      else Ok (Some (MkCookie (decodeRemoteAddr (Data t)) (Timestamp t * Second)))
  end.

(** The address without its port. *)
Definition sourceAddr (a : Addr) : list Z := match a with UDP u => IPString (AddAddressFrame.IP u) | OtherAddr s => s end.

Definition defaultAcceptCookie (now : Z) (clientAddr : Addr) (cookie : option Cookie) : bool :=
  match cookie with
  | None => false
  | Some c => if SentTime c + CookieExpiryTime <? now then false else bool_decide (sourceAddr clientAddr = RemoteAddr c)
  end.
End Cookies.

(** ** The ephemeral key exchange *)

Module ephermalKEX.
Definition kexLifetime : Z := 60 * Second.     (* [protocol.EphermalKeyLifetime] *)

(** [kexCurrent] and [kexCurrentTime] *)
Definition cache (K : Type) : Type := option (K * Z).

(** The fast path, and the slow one with the lock; [fresh] is what [NewCurve25519KEX] returns. *)
Definition getEphermalKEX {K} (fresh : res K) (now : Z) (c : cache K) : option K * cache K :=
  match c with
  | Some (k, t) =>
      if now - t <? kexLifetime then (Some k, c)
      else if kexLifetime <? now - t then
        match fresh with
        | Ok k' => (Some k', Some (k', now))
        | _ => (Some k, c)
        end
      else (Some k, c)
  | None =>
      match fresh with
      | Ok k' => (Some k', Some (k', now))
      | _ => (None, None)
      end
  end.
End ephermalKEX.
