(* ===== verification/CookieFacts.v ===== *)
(** * What a source address token proves

    DER is read back as it was written, so a token decodes to the address and the second it was made
    for, and is accepted from that address for a day; and the ephemeral key exchange of a server is
    replaced in time. *)

From stdpp Require Import base numbers list option strings gmap.
From S2P Require Import Prelude ByteOrder Protocol ControlFrames PublicHeader PacketUnpacker PacketPacker Handshake ServerConfig ConnectionParameters CryptoServer Aead Cookies.

Local Open Scope Z_scope.

(** ** DER *)

Lemma be_bytes_S n v : be_bytes (S n) v = u8 (Z.shiftr v (8 * Z.of_nat n)) :: be_bytes n v.
Proof. unfold be_bytes. by rewrite le_bytes_S, rev_app_distr. Qed.

Lemma be_val_be_bytes n v : be_val (be_bytes n v) = v `mod` 2 ^ (8 * Z.of_nat n).
Proof. unfold be_val, be_bytes. by rewrite rev_involutive, le_val_le_bytes. Qed.

Lemma shiftl_lor acc b : 0 <= acc -> 0 <= b < 256 -> Z.lor (Z.shiftl acc 8) b = 256 * acc + b.
Proof.
  intros Ha Hb. assert (Z.land (Z.shiftl acc 8) b = 0) as H0.
  { apply Z.bits_inj'. intros k Hk. rewrite Z.land_spec, Z.shiftl_spec, Z.bits_0 by lia. destruct (Z.lt_ge_cases k 8).
    - by rewrite Z.testbit_neg_r by lia.
    - replace b with (b mod 2 ^ 8) by (apply Z.mod_small; lia). rewrite Z.mod_pow2_bits_high by lia. apply andb_false_r. }
  rewrite <- Z.lxor_lor, <- Z.add_nocarry_lxor by done. rewrite Z.shiftl_mul_pow2 by lia. lia.
Qed.

(** The second byte, for a length below 128 and for one of [l] bytes. *)
Lemma short_length tag n q : Z.land tag 0x1f <> 0x1f -> 0 <= n < 128 -> asn1.tag_and_length (tag :: n :: q) = Ok ((tag, n), q).
Proof.
  intros Ht Hn. unfold asn1.tag_and_length. erewrite reader_bind_ok by done. cbn beta. rewrite (proj2 (Z.eqb_neq _ _) Ht).
  erewrite reader_bind_ok by done. cbn beta. assert (n = n mod 2 ^ 7) as E by (symmetry; by apply Z.mod_small).
  assert (Z.land n 128 = 0) as ->. { rewrite E, <- Z.land_ones by lia. rewrite <- Z.land_assoc. apply Z.land_0_r. }
  cbn [Z.eqb]. change 127 with (Z.ones 7). rewrite Z.land_ones, <- E by lia. done.
Qed.

Lemma long_length tag (l : nat) n q r : Z.land tag 0x1f <> 0x1f -> (0 < l < 128)%nat -> 128 <= n ->
  asn1.read_length l 0 q = Ok (n, r) -> asn1.tag_and_length (tag :: Z.lor 0x80 (Z.of_nat l) :: q) = Ok ((tag, n), r).
Proof.
  intros Ht Hl Hn E. unfold asn1.tag_and_length. erewrite reader_bind_ok by done. cbn beta. rewrite (proj2 (Z.eqb_neq _ _) Ht).
  erewrite reader_bind_ok by done. cbn beta. assert (Z.of_nat l = Z.of_nat l mod 2 ^ 7) as El by (symmetry; apply Z.mod_small; lia).
  assert (Z.land (Z.of_nat l) 128 = 0) as E0. { rewrite El, <- Z.land_ones by lia. rewrite <- Z.land_assoc. apply Z.land_0_r. }
  rewrite !Z.land_lor_distr_l, E0. change (Z.land 128 128) with 128. change (Z.land 128 127) with 0. rewrite Z.lor_0_r, Z.lor_0_l. change (128 =? 0) with false. cbn iota.
  change 127 with (Z.ones 7). rewrite Z.land_ones, <- El by lia. rewrite (proj2 (Z.eqb_neq _ _)) by lia. rewrite Nat2Z.id.
  erewrite reader_bind_ok by exact E. cbn beta. by rewrite (proj2 (Z.ltb_ge _ _)) by lia.
Qed.

Lemma read_length_step l acc b q : 0 <= acc < 2 ^ 23 -> 0 <= b < 256 -> 0 < 256 * acc + b ->
  asn1.read_length (S l) acc (b :: q) = asn1.read_length l (256 * acc + b) q.
Proof.
  intros Ha Hb Hp. cbn [asn1.read_length]. erewrite reader_bind_ok by done. cbn beta. rewrite (proj2 (Z.leb_gt _ _)) by lia.
  rewrite shiftl_lor by lia. by rewrite (proj2 (Z.eqb_neq _ _)) by lia.
Qed.

Lemma element_read tag content r :
  Z.land tag 0x1f <> 0x1f -> Z.of_nat (length content) < 65536 ->
  asn1.read_element tag (asn1.element tag content ++ r) = Ok (content, r).
Proof.
  intros Ht Hn. set (n := Z.of_nat (length content)) in *.
  assert (asn1.tag_and_length (asn1.element tag content ++ r) = Ok ((tag, n), content ++ r)) as E.
  { unfold asn1.element. fold n. destruct (Z.ltb_spec n 128) as [Hs|Hs]; [apply short_length; [done|lia]|]. cbn [app]. rewrite <- app_assoc.
    destruct (Z.ltb_spec n 256) as [H1|H1].
    - assert (asn1.lengthLength 8 n = 1%nat) as -> by (cbn; rewrite (proj2 (Z.ltb_ge _ _)) by lia; done).
      apply long_length; [done|lia|done|]. change (be_bytes 1 n) with [u8 (Z.shiftr n 0)]. rewrite Z.shiftr_0_r. unfold u8, wrap. rewrite Z.mod_small by lia.
      cbn [app]. rewrite read_length_step by lia. done.
    - assert (asn1.lengthLength 8 n = 2%nat) as ->.
      { cbn [asn1.lengthLength]. rewrite (proj2 (Z.ltb_lt _ _)) by lia. rewrite Z.shiftr_div_pow2 by lia. rewrite (proj2 (Z.ltb_ge _ _)); [done|].
        apply Z.lt_succ_r, Z.div_lt_upper_bound; lia. }
      apply long_length; [done|lia|done|]. rewrite !be_bytes_S. change (8 * Z.of_nat 1) with 8. change (8 * Z.of_nat 0) with 0. cbn [be_bytes le_bytes seq map rev app].
      rewrite Z.shiftr_0_r, Z.shiftr_div_pow2 by lia. change (2 ^ 8) with 256. unfold u8, wrap. change (2 ^ 8) with 256.
      assert (1 <= n / 256 < 256) as Hd by (split; [apply Z.div_le_lower_bound; lia|apply Z.div_lt_upper_bound; lia]). rewrite (Z.mod_small (n / 256)) by lia.
      pose proof (Z.mod_pos_bound n 256 ltac:(lia)). rewrite !read_length_step by lia. cbn [asn1.read_length]. match goal with |- context [mret ?x] => replace x with n; [done|] end.
      pose proof (Z.div_mod n 256 ltac:(lia)). lia. }
  unfold asn1.read_element. erewrite reader_bind_ok by exact E. cbn beta iota. rewrite Z.eqb_refl. cbn [negb]. apply ReadFull_app.
Qed.

(** An integer that is not negative: the shortest bytes whose first bit is clear. *)
Lemma int64_length_spec : forall fuel i, 0 <= i < 2 ^ (8 * Z.of_nat fuel + 7) ->
  exists n, asn1.int64Length fuel i = S n /\ (n <= fuel)%nat /\ i < 2 ^ (8 * Z.of_nat n + 7) /\ (n <> 0%nat -> 2 ^ (8 * Z.of_nat n - 1) <= i).
Proof.
  induction fuel as [|fuel IH]; intros i Hi; cbn [asn1.int64Length]; [exists 0%nat; split_and!; [done|lia|apply Hi|done]|].
  rewrite (proj2 (Z.ltb_ge i (-128))) by lia. rewrite orb_false_r. destruct (Z.ltb_spec 127 i) as [H|H].
  - destruct (IH (Z.shiftr i 8)) as (n & -> & Hn & Hu & Hl).
    { rewrite Z.shiftr_div_pow2 by lia. split; [apply Z.div_pos; lia|]. apply Z.div_lt_upper_bound; [lia|].
      rewrite <- Z.pow_add_r by lia. replace (8 + _) with (8 * Z.of_nat (S fuel) + 7) by lia. lia. }
    exists (S n). split; [done|]. split; [lia|]. rewrite Z.shiftr_div_pow2 in Hu, Hl by lia. split.
    + pose proof (Z.div_mod i (2 ^ 8) ltac:(lia)). pose proof (Z.mod_pos_bound i (2 ^ 8) ltac:(lia)).
      replace (8 * Z.of_nat (S n) + 7) with (8 + (8 * Z.of_nat n + 7)) by lia. rewrite Z.pow_add_r by lia. nia.
    + intros _. destruct n as [|n]; [change (2 ^ (8 * Z.of_nat 1 - 1)) with 128; lia|]. specialize (Hl ltac:(done)).
      pose proof (Z.div_mod i (2 ^ 8) ltac:(lia)). pose proof (Z.mod_pos_bound i (2 ^ 8) ltac:(lia)).
      replace (8 * Z.of_nat (S (S n)) - 1) with (8 + (8 * Z.of_nat (S n) - 1)) by lia. rewrite Z.pow_add_r by lia. nia.
  - exists 0%nat. change (2 ^ (8 * Z.of_nat 0 + 7)) with 128. split_and!; [done|lia|lia|done].
Qed.

Lemma u8_of v n : 0 <= v < 256 * 2 ^ (8 * Z.of_nat n) -> u8 (Z.shiftr v (8 * Z.of_nat n)) = v / 2 ^ (8 * Z.of_nat n).
Proof.
  intros Hv. rewrite Z.shiftr_div_pow2 by lia. unfold u8, wrap. apply Z.mod_small. assert (0 < 2 ^ (8 * Z.of_nat n)) by (apply Z.pow_pos_nonneg; lia).
  change (2 ^ 8) with 256. split; [apply Z.div_pos; lia|apply Z.div_lt_upper_bound; lia].
Qed.

Lemma small_byte b : 0 <= b < 128 -> Z.land b 0x80 = 0.
Proof.
  intros Hb. replace b with (b mod 2 ^ 7) by (apply Z.mod_small; lia). rewrite <- Z.land_ones by lia. rewrite <- Z.land_assoc. apply Z.land_0_r.
Qed.

Lemma large_byte b : 128 <= b < 256 -> Z.land b 0x80 <> 0.
Proof.
  intros Hb E. assert (Z.testbit (Z.land b 128) 7 = true) as H; [|by rewrite E in H]. rewrite Z.land_spec. change (Z.testbit 128 7) with true. rewrite andb_true_r.
  apply Z.testbit_true; [lia|]. change (2 ^ 7) with 128. replace (b / 128) with 1 by (apply (Z.div_unique b 128 1 (b - 128)); lia). done.
Qed.

Lemma int64_read i : 0 <= i < 2 ^ 63 -> asn1.read_int64 (be_bytes (asn1.int64Length 8 i) i) = Ok i.
Proof.
  intros Hi. destruct (int64_length_spec 7 i Hi) as (n & E & Hn & Hu & Hl).
  assert (asn1.int64Length 8 i = S n) as ->.
  { destruct (int64_length_spec 8 i) as (m & E' & Hm & Hu' & Hl'); [split; [lia|]; transitivity (2 ^ 63); [lia|apply Z.pow_lt_mono_r; lia]|].
    rewrite E'. f_equal. destruct (Nat.lt_trichotomy m n) as [H|[H|H]]; [|done|].
    - assert (2 ^ (8 * Z.of_nat m + 7) <= 2 ^ (8 * Z.of_nat n - 1)) by (apply Z.pow_le_mono_r; lia). specialize (Hl ltac:(lia)). lia.
    - assert (2 ^ (8 * Z.of_nat n + 7) <= 2 ^ (8 * Z.of_nat m - 1)) by (apply Z.pow_le_mono_r; lia). specialize (Hl' ltac:(lia)). lia. }
  assert (0 < 2 ^ (8 * Z.of_nat n)) as Hp by (apply Z.pow_pos_nonneg; lia).
  rewrite Z.pow_add_r in Hu by lia. change (2 ^ 7) with 128 in Hu. rewrite be_bytes_S, u8_of by lia. set (b0 := i / _).
  assert (0 <= b0 < 128) as Hb0 by (unfold b0; split; [apply Z.div_pos; lia|apply Z.div_lt_upper_bound; lia]).
  assert (b0 :: be_bytes n i = be_bytes (S n) i) as E2 by (rewrite be_bytes_S, u8_of by lia; done).
  enough (asn1.read_integer (b0 :: be_bytes n i) = Ok i) as H.
  { unfold asn1.read_int64. rewrite H. cbn [mbind res_bind]. rewrite E2, length_be_bytes. by rewrite (proj2 (Nat.ltb_ge 8 (S n))) by lia. }
  unfold asn1.read_integer. rewrite (small_byte b0) by done. cbn [Z.eqb]. rewrite E2, be_val_be_bytes. rewrite (Z.mod_small i), Z.sub_0_r.
  2: { split; [lia|]. replace (8 * Z.of_nat (S n)) with (8 * Z.of_nat n + 8) by lia. rewrite Z.pow_add_r by lia. lia. }
  destruct n as [|n]; [done|]. rewrite be_bytes_S. rewrite (proj2 (Z.eqb_neq b0 255)) by lia. rewrite andb_false_l, orb_false_r.
  destruct (Z.eqb_spec b0 0) as [H0|H0]; [|done]. cbn [andb].
  assert (i < 2 ^ (8 * Z.of_nat (S n))) as Hi2 by (apply Z.div_small_iff in H0; lia). specialize (Hl ltac:(done)).
  replace (8 * Z.of_nat (S n)) with (8 * Z.of_nat n + 8) in Hi2 by lia. replace (8 * Z.of_nat (S n) - 1) with (8 * Z.of_nat n + 7) in Hl by lia.
  assert (0 < 2 ^ (8 * Z.of_nat n)) by (apply Z.pow_pos_nonneg; lia). rewrite Z.pow_add_r in Hi2, Hl by lia. change (2 ^ 8) with 256 in Hi2. change (2 ^ 7) with 128 in Hl.
  rewrite u8_of by lia. rewrite (proj2 (Z.eqb_neq _ _)); [done|]. apply large_byte. split; [apply Z.div_le_lower_bound; lia|apply Z.div_lt_upper_bound; lia].
Qed.

(** ** Tokens *)

Lemma length_element tag content : Z.of_nat (length content) < 65536 -> Z.of_nat (length (asn1.element tag content)) <= Z.of_nat (length content) + 4.
Proof.
  intros Hn. unfold asn1.element. destruct (_ <? 128); cbn [length app]; [lia|]. rewrite length_app, length_be_bytes.
  enough (asn1.lengthLength 8 (Z.of_nat (length content)) <= 2)%nat by lia. cbn [asn1.lengthLength]. destruct (Z.ltb_spec 255 (Z.of_nat (length content))); [|lia].
  rewrite Z.shiftr_div_pow2 by lia. rewrite (proj2 (Z.ltb_ge _ _)); [lia|]. apply Z.lt_succ_r, Z.div_lt_upper_bound; lia.
Qed.

Lemma length_int64 i : 0 <= i < 2 ^ 63 -> (length (be_bytes (asn1.int64Length 8 i) i) <= 9)%nat.
Proof.
  intros Hi. rewrite length_be_bytes. destruct (int64_length_spec 8 i) as (n & -> & Hn & _); [|lia].
  split; [lia|]. transitivity (2 ^ 63); [lia|apply Z.pow_lt_mono_r; lia].
Qed.

Lemma unmarshal_marshal t : Z.of_nat (length (Data t)) < 65000 -> 0 <= Timestamp t < 2 ^ 63 -> Unmarshal (Marshal t) = Ok (t, []).
Proof.
  intros Hd Ht. unfold Unmarshal, Marshal. rewrite <- (app_nil_r (asn1.element asn1.TagSequence _)).
  pose proof (length_element asn1.TagOctetString (Data t) ltac:(lia)). pose proof (length_int64 (Timestamp t) Ht).
  pose proof (length_element asn1.TagInteger (be_bytes (asn1.int64Length 8 (Timestamp t)) (Timestamp t)) ltac:(lia)).
  rewrite element_read; [|done|rewrite length_app; unfold asn1.int64; lia]. cbn [mbind res_bind]. unfold fields.
  rewrite element_read by (done || lia). cbn [mbind res_bind]. unfold asn1.int64. rewrite <- (app_nil_r (asn1.element asn1.TagInteger _)).
  rewrite element_read by (done || lia). cbn [mbind res_bind]. rewrite int64_read by done. by destruct t.
Qed.

Section Tokens.
Context (IPString : list Z -> list Z) (g : CipherAEAD).
Hypothesis opens : forall nonce text ad, cipher_Open g nonce (cipher_Seal g nonce text ad) ad = Ok text.

Abbreviation NewToken := (NewToken g).
Abbreviation DecodeToken := (DecodeToken IPString g).
(** The server's check of a token that arrives from [addr]. *)
Abbreviation accepts now addr := (cryptoSetupServer.acceptSTK DecodeToken (defaultAcceptCookie IPString now addr)).

Lemma token_decodes addr now nonce token :
  length nonce = stkSource.stkNonceSize -> Z.of_nat (length (encodeRemoteAddr addr)) < 65000 -> 0 <= now / Second < 2 ^ 63 ->
  NewToken addr now (Ok nonce) = Ok token -> DecodeToken token = Ok (Some (MkCookie (sourceAddr IPString addr) (now / Second * Second))).
Proof using opens.
  intros Hn Ha Ht [= <-]. unfold Cookies.DecodeToken. destruct (nonce ++ _) as [|b s] eqn:E; [by destruct nonce|]. rewrite <- E.
  unfold stkSource.DecodeToken. rewrite length_app, Hn. rewrite (proj2 (Nat.ltb_ge _ _)) by lia.
  rewrite take_app_length', drop_app_length' by done. rewrite opens. cbn [mbind res_bind].
  rewrite unmarshal_marshal by done. cbn. destruct addr as [u|s']; done.
Qed.

(** C12. A token that the server made for an address is accepted from every port of that address for a
    day, counted from the second it was made in, and from no other address and at no later time. *)
Theorem token_accepted_exactly addr now nonce token addr' now' :
  length nonce = stkSource.stkNonceSize -> Z.of_nat (length (encodeRemoteAddr addr)) < 65000 -> 0 <= now / Second < 2 ^ 63 ->
  NewToken addr now (Ok nonce) = Ok token ->
  (accepts now' addr' token = true <-> sourceAddr IPString addr' = sourceAddr IPString addr /\ now' <= now / Second * Second + 24 * 3600 * Second).
Proof using opens.
  intros Hn Ha Ht E. unfold cryptoSetupServer.acceptSTK. rewrite (token_decodes addr now nonce token) by done.
  unfold defaultAcceptCookie. cbn [SentTime RemoteAddr]. unfold CookieExpiryTime. destruct (Z.ltb_spec (now / Second * Second + 24 * 3600 * Second) now').
  - split; [done|]. intros [_ ?]. lia.
  - rewrite bool_decide_eq_true. split; [intros; by split|by intros [? _]].
Qed.

(** Without a token the client is asked for one. *)
Lemma no_token_refused now addr : accepts now addr [] = false.
Proof. done. Qed.
End Tokens.

(** ** The ephemeral key exchange *)

(** A server has an ephemeral key exchange as soon as one could be made, and while new ones can be made never
    hands out one that is older than a minute; within the minute it is the same for all connections. *)
Theorem ephemeral_kex_fresh {K} (fresh : res K) now (c : ephermalKEX.cache K) r c' :
  ephermalKEX.getEphermalKEX fresh now c = (r, c') ->
  r = fst <$> c' /\
  match fresh with
  | Ok k => exists t, c' = Some (default k r, t) /\ now - t <= ephermalKEX.kexLifetime /\ (c' <> c -> c' = Some (k, now))
  | _ => c' = c
  end /\
  (forall k t, c = Some (k, t) -> now - t < ephermalKEX.kexLifetime -> c' = c).
Proof.
  unfold ephermalKEX.getEphermalKEX, ephermalKEX.kexLifetime. change (60 * Second) with 60000000000. intros E.
  destruct c as [[k t]|].
  - destruct (Z.ltb_spec (now - t) 60000000000) as [H|H].
    { injection E as <- <-. split; [done|]. split; [|done]. destruct fresh; [|done..]. exists t. split; [done|]. split; [lia|done]. }
    destruct (Z.ltb_spec 60000000000 (now - t)) as [H'|H'].
    2: { injection E as <- <-. split; [done|]. split; [|done]. destruct fresh; [|done..]. exists t. split; [done|]. split; [lia|done]. }
    destruct fresh as [k'| |]; injection E as <- <-; (split; [done|]); (split; [|intros ? ? [= <- <-]; lia]); [|done..].
    exists now. split; [done|]. split; [lia|done].
  - destruct fresh as [k'| |]; injection E as <- <-; (split; [done|]); (split; [|done]); [|done..]. exists now. split; [done|]. split; [lia|done].
Qed.

(** ** Witnesses *)

(** The dotted text is not needed: any text of the bytes will do. *)
Definition plain_text (ip : list Z) : list Z := ip.
Definition token_cipher : CipherAEAD := MkCipher (fun _ text _ => 7 :: text) (fun _ src _ => Ok (drop 1 src)) 1.
Definition client_addr (port : Z) : Addr := UDP (AddAddressFrame.MkAddr [192; 0; 2; 7] port "").
Definition sample_token : list Z := repeat 5 16 ++ 7 :: Marshal (MkToken (encodeRemoteAddr (client_addr 1)) 1700000000).

(** The second form of an integer, five bytes of which the first is zero, is refused. *)
Example der_of_token :
  Marshal (MkToken [0; 192; 0; 2; 7] 1700000000) = [0x30; 13; 4; 5; 0; 192; 0; 2; 7; 2; 4; 0x65; 0x53; 0xf1; 0]
  /\ Unmarshal [0x30; 14; 4; 5; 0; 192; 0; 2; 7; 2; 5; 0; 0x65; 0x53; 0xf1; 0] = Err asn1.errSyntax.
Proof. split; vm_compute; reflexivity. Qed.

(** Another port of the same address, the day after. *)
Lemma token_accepted_exactly_witness :
  cryptoSetupServer.acceptSTK (DecodeToken plain_text token_cipher) (defaultAcceptCookie plain_text (1700086400 * Second) (client_addr 2)) sample_token = true
  /\ cryptoSetupServer.acceptSTK (DecodeToken plain_text token_cipher) (defaultAcceptCookie plain_text (1700086400 * Second + 1) (client_addr 2)) sample_token <> true.
Proof.
  assert (forall now' port, cryptoSetupServer.acceptSTK (DecodeToken plain_text token_cipher) (defaultAcceptCookie plain_text now' (client_addr port)) sample_token = true
    <-> plain_text [192; 0; 2; 7] = plain_text [192; 0; 2; 7] /\ now' <= (1700000000 * Second + 7) / Second * Second + 24 * 3600 * Second) as H.
  { intros now' port. apply (token_accepted_exactly plain_text token_cipher ltac:(intros; cbn; done) (client_addr 1) (1700000000 * Second + 7) (repeat 5 16) sample_token (client_addr port) now');
      vm_compute; intuition congruence. }
  split; [apply H; split; [done|vm_compute; discriminate]|]. intros [_ E]%H. by vm_compute in E.
Defined.

Lemma ephemeral_kex_fresh_witness : exists t, snd (ephermalKEX.getEphermalKEX (Ok 7) (61 * Second) (Some (6, 0))) = Some (7, t) /\ 61 * Second - t <= ephermalKEX.kexLifetime.
Proof.
  destruct (ephemeral_kex_fresh (Ok 7) (61 * Second) (Some (6, 0)) (Some 7) (Some (7, 61 * Second))) as (_ & (t & E & H & _) & _); [vm_compute; reflexivity|].
  exists t. split; [|exact H]. etransitivity; [|exact E]. vm_compute. reflexivity.
Defined.
