(* ===== verification/Certs.v ===== *)
(** * Certificates

    Models how a server presents its certificate and a client checks it: the compression of
    certificate chains ([internal/crypto/cert_compression.go], [cert_sets.go], [cert_cache.go]), the choice of
    a certificate for a server name ([cert_chain.go]), the proof over hello and configuration
    ([server_proof.go]) and the client's certificate manager ([cert_manager.go]).

    The common certificate sets, zlib, X.509, SHA-256, the signature schemes and the LRU cache are other
    packages: parameters.  zlib decompresses into pieces; a read gives at most what is left of one piece, the last
    one together with the final error.  The pre-shared dictionary is any byte string.  Go strings are their
    bytes. *)

From stdpp Require Import base numbers list option strings gmap.
From S2P Require Import Prelude ByteOrder Protocol PublicHeader PacketUnpacker PacketPacker Handshake ServerConfig ConnectionParameters CryptoServer CryptoClient Aead Cookies.

Local Open Scope Z_scope.

(** ** Compression of chains *)

Inductive entry : Type :=
| entryCompressed
| entryCached (h : Z)
| entryCommon (h i : Z).        (* the hash of the set, the index in it *)

(** What [zlib.NewReaderDict] decompresses. *)
Record Inflated : Type := MkInflated { pieces : list (list Z); final : goerr }.

Definition gz_Read (n : Z) (z : Inflated) : list Z * option goerr * Inflated :=
  match pieces z with
  | [] => ([], Some (final z), z)
  | p :: rest =>
      let got := take (Z.to_nat n) p in
      match drop (Z.to_nat n) p with
      | [] => (got, match rest with [] => Some (final z) | _ => None end, MkInflated rest (final z))
      | p => (got, None, MkInflated (p :: rest) (final z))
      end
  end.

Definition errHashes : goerr := GoErr "expected a multiple of 8 bytes for CCS / CCRT hashes".
Definition errCached : goerr := GoErr "unexpected cached certificate".
Definition errCertSet : goerr := GoErr "unknown certSet".
Definition errNotInSet : goerr := GoErr "certificate not found in certSet".
Definition errEntryType : goerr := GoErr "unknown entryType".
Definition errNoElement : goerr := GoErr "CertCompression BUG: no element to save uncompressed certificate".

Definition splitHashes (hashes : list Z) : res (list Z) :=
  if negb (Z.of_nat (length hashes) `mod` 8 =? 0) then Err errHashes
  else Ok (map (fun i => le_val (take 8 (drop (8 * i) hashes))) (seq 0 (length hashes / 8))).

(** [certSet.findCertInSet] *)
Definition findCertInSet (set : list (list Z)) (cert : list Z) : option nat := fst <$> list_find (fun c => c = cert) set.

Section Compression.
Context (certSets : gmap Z (list (list Z))) (certDictZlib : list Z).
(** [deflate dict text]: what a [zlib.Writer] writes for [text], closed. *)
Context (deflate : list Z -> list Z -> list Z) (NewReaderDict : list Z -> list Z -> res Inflated).

Fixpoint find_common (cert : list Z) (setHashes : list Z) : entry :=
  match setHashes with
  | [] => entryCompressed
  | h :: rest =>
      match set ← certSets !! h; findCertInSet set cert with
      | Some pos => entryCommon h (u32 (Z.of_nat pos))
      | None => find_common cert rest
      end
  end.

Definition build_entry (cachedHashes setHashes : list Z) (cert : list Z) : entry :=
  if existsb (Z.eqb (HashCert cert)) cachedHashes then entryCached (HashCert cert) else find_common cert setHashes.

Definition buildEntries (chain : list (list Z)) (cachedHashes setHashes : list Z) : list entry := map (build_entry cachedHashes setHashes) chain.

Definition is_compressed (e : entry) : bool := match e with entryCompressed => true | _ => false end.

(** The cached and common certificates in reverse order, and the dictionary. *)
Definition buildZlibDictForEntries (entries : list entry) (chain : list (list Z)) : list Z :=
  mjoin (rev (snd <$> filter (fun x => is_compressed x.1 = false) (zip entries chain))) ++ certDictZlib.

Definition entry_bytes (e : entry) : list Z :=
  match e with
  | entryCompressed => [1]
  | entryCached h => 2 :: le_bytes 8 h
  | entryCommon h i => 3 :: le_bytes 8 h ++ le_bytes 4 i
  end.

Definition with_length (cert : list Z) : list Z := le_bytes 4 (Z.of_nat (length cert)) ++ cert.

Definition compressChain (chain : list (list Z)) (pCommonSetHashes pCachedHashes : list Z) : res (list Z) :=
  cachedHashes ← splitHashes pCachedHashes;
  setHashes ← splitHashes pCommonSetHashes;
  let entries := buildEntries chain cachedHashes setHashes in
  let compressed := snd <$> filter (fun x => is_compressed x.1 = true) (zip entries chain) in
  let totalUncompressedLen := foldl (fun n cert => n + (4 + Z.of_nat (length cert))) 0 compressed in
  mret (mjoin (entry_bytes <$> entries) ++ [0]
        ++ (if 0 <? totalUncompressedLen
            then le_bytes 4 (u32 totalUncompressedLen) ++ deflate (buildZlibDictForEntries entries chain) (mjoin (with_length <$> compressed))
            else [])).

(** The list of entries with the certificates known so far.  It ends with a zero, or where the
    data end; every round reads a byte, so [S (length data)] rounds are enough. *)
Fixpoint read_entries (fuel : nat) (r : list Z) : res (list (entry * list Z) * list Z) :=
  match fuel, r with
  | O, _ | _, [] => Ok ([], [])
  | S fuel, t :: r =>
      if t =? 0 then Ok ([], r)
      else if t =? 2 then Err errCached
      else if t =? 3 then
        '(h, r) ← (LE.ReadUint64 r : res (Z * list Z));
        '(i, r) ← (LE.ReadUint32 r : res (Z * list Z));
        match certSets !! h with
        | None => Err errCertSet
        | Some set =>
            match set !! Z.to_nat i with
            | None => Err errNotInSet
            | Some cert => '(es, r) ← read_entries fuel r; mret ((entryCommon h i, cert) :: es, r)
            end
        end
      else if t =? 1 then '(es, r) ← read_entries fuel r; mret ((entryCompressed, []) :: es, r)
      else Err errEntryType
  end.

(** Skips to the next entry that is to be filled. *)
Fixpoint next_compressed (es : list (entry * list Z)) : option (list (list Z) * list (entry * list Z)) :=
  match es with
  | [] => None
  | (entryCompressed, _) :: es => Some ([], es)
  | (_, cert) :: es => '(skipped, es) ← next_compressed es; mret (cert :: skipped, es)
  end.

(** A length and a certificate of this length, in two reads; what a read does not give stays zero. *)
Definition read_cert (z : Inflated) : res (list Z * Z * Inflated) :=
  let '(lenBytes, err, z) := gz_Read 4 z in
  match err with
  | Some e => Err e
  | None =>
      let certLen := le_val (lenBytes ++ repeat 0 (4 - length lenBytes)) in
      let '(got, err, z) := gz_Read certLen z in
      let cert := got ++ repeat 0 (Z.to_nat certLen - length got) in
      match err with
      | Some e => if negb (Z.of_nat (length got) =? certLen) then Err e else Ok (cert, certLen, z)
      | None => Ok (cert, certLen, z)
      end
  end.

(** The loop over the decompressed bytes; [es] are the entries from [certIndex] on.  Every round
    fills one, so [S (length es)] rounds are enough. *)
Fixpoint fill (fuel : nat) (es : list (entry * list Z)) (z : Inflated) (totalLength uncompressedLength : Z) : res (list (list Z)) :=
  match fuel with
  | O => Panic
  | S fuel =>
      if negb (totalLength <? uncompressedLength) then Ok (snd <$> es)
      else
        '(cert, certLen, z) ← read_cert z;
        match next_compressed es with
        | None => Err errNoElement
        | Some (skipped, es) =>
            rest ← fill fuel es z (u32 (totalLength + u32 (4 + certLen))) uncompressedLength;
            mret (skipped ++ cert :: rest)
        end
  end.

Definition decompressChain (data : list Z) : res (list (list Z)) :=
  '(es, r) ← read_entries (S (length data)) data;
  if existsb (fun x => is_compressed x.1) es then
    '(uncompressedLength, r) ← (LE.ReadUint32 r : res (Z * list Z));
    z ← NewReaderDict (buildZlibDictForEntries es.*1 es.*2) r;
    fill (S (length es)) es z 0 uncompressedLength
  else Ok es.*2.

(** The hashes of the sets, in the order of the walk over the map. *)
Definition getCommonCertificateHashes : list Z := mjoin ((fun x => le_bytes 8 x.1) <$> map_to_list certSets).

(** *** The cache of compressed chains *)

(** [compressedCertsCache]: what [Get] returns for a key. *)
Definition cache : Type := Z -> option (list Z).

Definition cache_key (chain : list (list Z)) (pCommonSetHashes pCachedHashes : list Z) : Z :=
  nullAEADFNV64a.Sum64 (mjoin chain ++ pCommonSetHashes ++ pCachedHashes).

Definition getCompressedCert (c : cache) (chain : list (list Z)) (pCommonSetHashes pCachedHashes : list Z) : res (list Z) * cache :=
  let hash := cache_key chain pCommonSetHashes pCachedHashes in
  match c hash with
  | Some result => (Ok result, c)
  | None =>
      match compressChain chain pCommonSetHashes pCachedHashes with
      | Ok result => (Ok result, fun k => if k =? hash then Some result else c k)
      | r => (r, c)
      end
  end.
End Compression.

(** ** The server's certificates *)

(** [crypto.SignerOpts]: SHA-256, for RSA with PSS and a salt of 32 bytes. *)
Inductive SignerOpts : Type := OptsSHA256 | OptsPSS.

(** [tls.Certificate]; [Signer] is [None] if the key does not sign. *)
Record Certificate : Type := MkCertificate {
  Certificate_ : list (list Z);
  isRSA : bool;
  Signer : option (list Z -> SignerOpts -> res (list Z));
}.

(** [tls.Config], as far as it is used; a nil function is [None], so is a nil certificate or configuration. *)
#[warnings="-register-all"] Inductive tlsConfig : Type :=
| MkTLS (Certificates : list Certificate) (NameToCertificate : option (gmap (list Z) Certificate))
    (GetCertificate : option (list Z -> res (option Certificate))) (GetConfigForClient : option (list Z -> res (option tlsConfig))).

Definition errNoMatchingCertificate : goerr := GoErr "no matching certificate found".
Definition errNoSigner : goerr := GoErr "expected PrivateKey to implement crypto.Signer".

(** A name without the dots at its end. *)
Definition trim_dots (name : list Z) : list Z := rev ((fix go l := match l with b :: l' => if b =? 46 then go l' else l | [] => [] end) (rev name)).

(** [strings.Split] and [strings.Join] at dots. *)
Fixpoint split_dots (name : list Z) : list (list Z) :=
  match name with
  | [] => [[]]
  | b :: name =>
      match split_dots name with
      | [] => [[b]]
      | l :: ls => if b =? 46 then [] :: l :: ls else (b :: l) :: ls
      end
  end.
Fixpoint join_dots (labels : list (list Z)) : list Z :=
  match labels with
  | [] => []
  | [l] => l
  | l :: ls => l ++ 46 :: join_dots ls
  end.

(** More and more labels become wildcards; [done] are those that are. *)
Fixpoint try_wildcards (certs : gmap (list Z) Certificate) (n : nat) (labels : list (list Z)) : option Certificate :=
  match labels with
  | [] => None
  | _ :: labels =>
      match certs !! join_dots (repeat [42] (S n) ++ labels) with
      | Some cert => Some cert
      | None => try_wildcards certs (S n) labels
      end
  end.

Section CertChain.
Context (ToLower : list Z -> list Z) (Sum256 : list Z -> list Z).
Context (compress : list (list Z) -> list Z -> list Z -> res (list Z)).   (* [getCompressedCert] *)

Definition maybeGetConfigForClient (c : tlsConfig) (sni : list Z) : res (option tlsConfig) :=
  let '(MkTLS _ _ _ get) := c in
  match get with None => Ok (Some c) | Some get => get sni end.

(** From the certificates of a configuration. *)
Definition choose_certificate (certs : list Certificate) (names : option (gmap (list Z) Certificate)) (sni : list Z) : res Certificate :=
  match certs with
  | [] => Err errNoMatchingCertificate
  | first :: others =>
      match others, names with
      | [], _ | _, None => Ok first
      | _, Some names =>
          let name := trim_dots (ToLower sni) in
          match names !! name with
          | Some cert => Ok cert
          | None => Ok (default first (try_wildcards names 0 (split_dots name)))
          end
      end
  end.

(** A configuration that is nil is dereferenced. *)
Definition getCertForSNI (c : tlsConfig) (sni : list Z) : res Certificate :=
  c ← maybeGetConfigForClient c sni;
  match c with
  | None => Panic
  | Some (MkTLS certs names get _) =>
      cert ← (match get with Some get => get sni | None => Ok None end);
      match cert with Some cert => Ok cert | None => choose_certificate certs names sni end
  end.

Definition proof_digest (chlo serverConfigData : list Z) : list Z :=
  Sum256 (bytes_of_string "QUIC CHLO and server config signature" ++ [0] ++ [32; 0; 0; 0] ++ Sum256 chlo ++ serverConfigData).

Definition signServerProof (cert : Certificate) (chlo serverConfigData : list Z) : res (list Z) :=
  match Signer cert with
  | None => Err errNoSigner
  | Some sign => sign (proof_digest chlo serverConfigData) (if isRSA cert then OptsPSS else OptsSHA256)
  end.

Definition certChain (c : tlsConfig) : CertChain.t :=
  CertChain.Mk
    (fun sni chlo scfg => cert ← getCertForSNI c sni; signServerProof cert chlo scfg)
    (fun sni common cached => cert ← getCertForSNI c sni; compress (Certificate_ cert) common cached)
    (fun sni => cert ← getCertForSNI c sni; match Certificate_ cert with leaf :: _ => Ok leaf | [] => Panic end).
End CertChain.

(** ** The client's certificates *)

(** [x509.Certificate] and what is done with one. *)
Record X509 (X : Type) : Type := MkX509 {
  ParseCertificate : list Z -> goerr + X;
  Raw : X -> list Z;
  x509_isRSA : X -> bool;
  VerifyPSS : X -> list Z -> list Z -> bool;              (* digest, proof *)
  VerifyECDSA : X -> list Z -> Z -> Z -> bool;            (* digest, R, S *)
  x509_Verify : X -> list X -> string -> option goerr;    (* intermediates, name; roots and time are the configuration's *)
}.
Arguments MkX509 {X}.
Arguments ParseCertificate {X}.
Arguments Raw {X}.
Arguments x509_isRSA {X}.
Arguments VerifyPSS {X}.
Arguments VerifyECDSA {X}.
Arguments x509_Verify {X}.

Definition errNoCertificateChain : goerr := GoErr "CertManager BUG: No certicifate chain loaded".

(** [asn1.Unmarshal] into an [ecdsaSignature]. *)
Definition ecdsaSignature (proof : list Z) : res (Z * Z * list Z) :=
  '(inner, rest) ← (asn1.read_element asn1.TagSequence proof : res (list Z * list Z));
  '(rb, inner) ← (asn1.read_element asn1.TagInteger inner : res (list Z * list Z));
  r ← asn1.read_integer rb;
  '(sb, _) ← (asn1.read_element asn1.TagInteger inner : res (list Z * list Z));
  s ← asn1.read_integer sb;
  mret (r, s, rest).

Section CertManager.
Context (certSets : gmap Z (list (list Z))) (decompress : list Z -> res (list (list Z))) (Sum256 : list Z -> list Z).
Context {X : Type} (x509 : X509 X).

Definition verifyServerProof (proof : list Z) (cert : X) (chlo serverConfigData : list Z) : bool :=
  let digest := proof_digest Sum256 chlo serverConfigData in
  if x509_isRSA x509 cert then VerifyPSS x509 cert digest proof
  else match ecdsaSignature proof with
       | Ok (r, s, []) => VerifyECDSA x509 cert digest r s
       | _ => false
       end.

(** [certManager]: the chain, and [InsecureSkipVerify]. *)
Record certManager : Type := MkManager { chain : list X; insecure : bool }.

Definition NewCertManager (insecure : bool) : certManager := MkManager [] insecure.

Fixpoint parse_all (certs : list (list Z)) : goerr + list X :=
  match certs with
  | [] => inr []
  | c :: cs =>
      match ParseCertificate x509 c with
      | inl e => inl e
      | inr x => match parse_all cs with inl e => inl e | inr xs => inr (x :: xs) end
      end
  end.

(** [decompressChain] does not panic. *)
Definition cm_SetData (c : certManager) (data : list Z) : option goerr * certManager :=
  match decompress data with
  | Ok byteChain =>
      match parse_all byteChain with
      | inr chain => (None, MkManager chain (insecure c))
      | inl e => (Some e, c)
      end
  | _ => (Some errCertificateData, c)
  end.

Definition cm_GetLeafCert (c : certManager) : option (list Z) := Raw x509 <$> head (chain c).

(** The hash; zero comes with an error. *)
Definition cm_GetLeafCertHash (c : certManager) : Z := match cm_GetLeafCert c with Some leaf => HashCert leaf | None => 0 end.

Definition cm_VerifyServerProof (c : certManager) (proof chlo serverConfigData : list Z) : bool :=
  match chain c with
  | [] => false
  | leaf :: _ => verifyServerProof proof leaf chlo serverConfigData
  end.

Definition cm_Verify (c : certManager) (hostname : string) : option goerr :=
  match chain c with
  | [] => Some errNoCertificateChain
  | leaf :: intermediates => if insecure c then None else x509_Verify x509 leaf intermediates hostname
  end.

#[export] Instance certManager_is : CertManager certManager := {
  SetData := cm_SetData;
  GetCommonCertificateHashes _ := getCommonCertificateHashes certSets;
  GetLeafCert := cm_GetLeafCert;
  GetLeafCertHash := cm_GetLeafCertHash;
  VerifyServerProof := cm_VerifyServerProof;
  Verify := cm_Verify;
}.
End CertManager.
