(* ===== verification/CertFacts.v ===== *)
(** * What the certificate code guarantees

    A chain that a server compresses is the chain a client decompresses, as long as zlib hands out every
    certificate in one piece, and what becomes of it otherwise; decompression ends on any data; the proof a server signs is
    the one a client verifies; and what the choice of a certificate and the cache do. *)

From stdpp Require Import base numbers list option strings gmap.
From S2P Require Import Prelude ByteOrder Protocol PublicHeader PacketUnpacker PacketPacker Handshake ServerConfig ConnectionParameters CryptoServer CryptoClient HandshakeFacts Aead Cookies CookieFacts Certs.

Local Open Scope Z_scope.

Lemma mjoin_cons {A} (x : list A) l : mjoin (x :: l) = x ++ mjoin l.
Proof. done. Qed.

Section Compression.
Context (certSets : gmap Z (list (list Z))) (certDictZlib : list Z).
Context (deflate : list Z -> list Z -> list Z) (NewReaderDict : list Z -> list Z -> res Inflated).
(** Hashes have 64 bits and indices 32. *)
Hypothesis sets : forall h set, certSets !! h = Some set -> 0 <= h < 2 ^ 64 /\ Z.of_nat (length set) < 2 ^ 32.

Abbreviation read_entries := (read_entries certSets).
Abbreviation compressChain := (compressChain certSets certDictZlib deflate).
Abbreviation decompressChain := (decompressChain certSets certDictZlib NewReaderDict).
Abbreviation dict := (buildZlibDictForEntries certDictZlib).

(** ** Entries *)

Definition entry_ok (e : entry) (cert : list Z) : Prop :=
  match e with
  | entryCompressed => True
  | entryCached _ => False
  | entryCommon h i => 0 <= h < 2 ^ 64 /\ 0 <= i < 2 ^ 32 /\ exists set, certSets !! h = Some set /\ set !! Z.to_nat i = Some cert
  end.

(** What the client knows of a certificate before it decompresses. *)
Definition shown (x : entry * list Z) : entry * list Z := (x.1, if is_compressed x.1 then [] else x.2).

Lemma find_common_ok cert setHashes : entry_ok (find_common certSets cert setHashes) cert.
Proof using sets.
  induction setHashes as [|h hs IH]; cbn; [done|]. destruct (certSets !! h) as [set|] eqn:E; cbn; [|done].
  unfold findCertInSet. destruct (list_find _ set) as [[pos c]|] eqn:F; [|done]. cbn. destruct (sets h set E) as [Hh Hs].
  apply list_find_Some in F as (Hp & -> & _). assert (Z.of_nat pos < 2 ^ 32) by (apply lookup_lt_Some in Hp; lia).
  unfold u32, wrap. rewrite Z.mod_small by lia. split; [done|]. split; [lia|]. exists set. by rewrite Nat2Z.id.
Qed.

Lemma entries_ok chain setHashes : Forall (fun x => entry_ok x.1 x.2) (zip (buildEntries certSets chain [] setHashes) chain).
Proof using sets. induction chain as [|c cs IH]; constructor; [apply find_common_ok|exact IH]. Qed.

Lemma entries_read : forall l fuel r, Forall (fun x => entry_ok x.1 x.2) l -> (length l < fuel)%nat ->
  read_entries fuel (mjoin (entry_bytes <$> l.*1) ++ 0 :: r) = Ok (shown <$> l, r).
Proof.
  induction l as [|[e c] l IH]; intros [|fuel] r Hl Hf; cbn [length] in Hf; try lia; [done|].
  apply Forall_cons in Hl as [He Hl]. rewrite !fmap_cons, mjoin_cons. cbn [fst]. specialize (IH fuel r Hl ltac:(lia)).
  destruct e as [|h|h i]; cbn [entry_bytes app Certs.read_entries]; [|done|].
  - cbn [Z.eqb Pos.eqb]. by rewrite IH.
  - destruct He as (Hh & Hi & set & Es & Ei). cbn [Z.eqb Pos.eqb]. rewrite <- !app_assoc.
    rewrite LE_read64_bytes by done. cbn [mbind res_bind]. rewrite LE_read32_bytes by done. cbn [mbind res_bind]. rewrite Es, Ei, IH. done.
Qed.

Lemma dict_shown l : dict (shown <$> l).*1 (shown <$> l).*2 = dict l.*1 l.*2.
Proof.
  unfold buildZlibDictForEntries. f_equal. f_equal. f_equal. induction l as [|[e c] l IH]; [done|]. cbn [fmap list_fmap fst snd zip zip_with].
  rewrite !filter_cons. cbn [fst snd shown]. by destruct e; cbn [is_compressed]; rewrite ?decide_True, ?decide_False by done; cbn; rewrite IH.
Qed.

Lemma zip_of_map {B} (f : list Z -> B) chain : (zip (map f chain) chain).*1 = map f chain /\ (zip (map f chain) chain).*2 = chain.
Proof. split; [apply fst_zip|apply snd_zip]; by rewrite length_map. Qed.

(** ** Filling *)

Definition compressed (l : list (entry * list Z)) : list (list Z) := snd <$> filter (fun x => is_compressed x.1 = true) l.
Definition text (l : list (entry * list Z)) : list Z := mjoin (with_length <$> compressed l).

Lemma compressed_app l l' : compressed (l ++ l') = compressed l ++ compressed l'.
Proof. unfold compressed. by rewrite filter_app, fmap_app. Qed.

Lemma next_split l : (compressed l = [] /\ existsb (fun x => is_compressed x.1) l = false /\ next_compressed (shown <$> l) = None /\ (shown <$> l).*2 = l.*2) \/
  exists l1 c l2, l = l1 ++ (entryCompressed, c) :: l2 /\ compressed l = c :: compressed l2 /\ existsb (fun x => is_compressed x.1) l = true
    /\ next_compressed (shown <$> l) = Some (l1.*2, shown <$> l2).
Proof.
  induction l as [|[e c] l IH]; [by left|]. destruct (is_compressed e) eqn:Ee.
  - right. destruct e; [|done..]. exists [], c, l. done.
  - unfold compressed. rewrite filter_cons. cbn [fst]. rewrite decide_False by (by rewrite Ee). fold (compressed l).
    destruct IH as [(H1 & H2 & H3 & H4)|(l1 & c1 & l2 & -> & H2 & H3 & H4)].
    + left. split; [done|]. split; [cbn; by rewrite Ee|]. rewrite !fmap_cons, H4. unfold shown at 1 3. cbn [fst snd]. rewrite Ee.
      split; [|done]. destruct e; [done|..]; cbn [next_compressed]; by rewrite H3.
    + right. exists ((e, c) :: l1), c1, l2. split; [done|]. split; [done|]. split; [cbn; by rewrite Ee, H3|].
      rewrite fmap_cons. unfold shown at 1. cbn [fst snd]. rewrite Ee. destruct e; [done|..]; cbn [next_compressed]; by rewrite H4.
Qed.

(** What is read one after the other, and pieces that cut none of it. *)
Inductive uncut : list (list Z) -> list (list Z) -> Prop :=
| uncut_nil : uncut [] []
| uncut_end r reads ps : uncut reads ps -> uncut (r :: reads) (r :: ps)
| uncut_join r reads p ps : uncut reads (p :: ps) -> uncut (r :: reads) ((r ++ p) :: ps).

(** The reads of a list of certificates. *)
Definition reads (cs : list (list Z)) : list (list Z) := cs ≫= (fun c => [le_bytes 4 (Z.of_nat (length c)); c]).

Lemma uncut_one rs : rs <> [] -> uncut rs [mjoin rs].
Proof.
  induction rs as [|r rs IH]; [done|]. intros _. destruct rs as [|r2 rs]; [cbn; rewrite app_nil_r; by repeat constructor|].
  rewrite mjoin_cons. apply uncut_join. by apply IH.
Qed.

Lemma uncut_pieces rs ps : Forall (fun r => r <> []) rs -> uncut rs ps -> Forall (fun p => p <> []) ps /\ (ps = [] <-> rs = []).
Proof.
  intros Hr H. induction H as [|r rs ps _ IH|r rs p ps _ IH]; [by split|..]; apply Forall_cons in Hr as [Hr Hrs]; destruct (IH Hrs) as [H1 _]; (split; [|done]).
  - by constructor.
  - apply Forall_cons in H1 as [_ H1]. constructor; [by destruct r|done].
Qed.

Lemma read_uncut r rs ps e : Forall (fun r => r <> []) (r :: rs) -> uncut (r :: rs) ps ->
  exists ps', gz_Read (Z.of_nat (length r)) (MkInflated ps e) = (r, match rs with [] => Some e | _ => None end, MkInflated ps' e) /\ uncut rs ps'.
Proof.
  intros [Hr Hrs]%Forall_cons H. unfold gz_Read. cbn [pieces final]. rewrite Nat2Z.id. inversion H as [|? ? ps' H1|? ? p ps' H1]; subst.
  - rewrite drop_all, firstn_all. exists ps'. split; [|done]. pose proof (uncut_pieces _ _ Hrs H1) as [_ He].
    destruct ps', rs; try done; by (destruct He as [He1 He2]; first [by specialize (He1 eq_refl)|by specialize (He2 eq_refl)]).
  - rewrite take_app_length, drop_app_length. exists (p :: ps'). split; [|done]. pose proof (uncut_pieces _ _ Hrs H1) as [Hp He]. apply Forall_cons in Hp as [Hp _].
    destruct p; [done|]. destruct rs; [by inversion H1|done].
Qed.

Lemma reads_cons c cs : reads (c :: cs) = le_bytes 4 (Z.of_nat (length c)) :: c :: reads cs.
Proof. done. Qed.

Lemma reads_nonempty cs : Forall (fun c => c <> []) cs -> Forall (fun r => r <> []) (reads cs).
Proof.
  induction 1 as [|c cs Hc _ IH]; [constructor|]. rewrite reads_cons. constructor; [|by constructor].
  intros E. apply (f_equal length) in E. by rewrite length_le_bytes in E.
Qed.

Lemma cert_read c cs ps : Forall (fun c => c <> []) (c :: cs) -> Z.of_nat (length c) < 2 ^ 32 -> uncut (reads (c :: cs)) ps ->
  exists ps', read_cert (MkInflated ps EOF) = Ok (c, Z.of_nat (length c), MkInflated ps' EOF) /\ uncut (reads cs) ps'.
Proof.
  intros Hc Hlen H. pose proof (reads_nonempty _ Hc) as Hr. rewrite reads_cons in H, Hr. set (n := le_bytes 4 (Z.of_nat (length c))) in *.
  destruct (read_uncut _ _ _ EOF Hr H) as (ps1 & E1 & H1). apply Forall_cons in Hr as [_ Hr]. destruct (read_uncut _ _ _ EOF Hr H1) as (ps2 & E2 & H2).
  exists ps2. split; [|done]. unfold read_cert. assert (length n = 4%nat) as Hn by apply length_le_bytes. rewrite Hn in E1.
  change (Z.of_nat 4) with 4 in E1. rewrite E1, Hn. cbn [Nat.sub repeat]. rewrite app_nil_r. unfold n. rewrite le_val_le_bytes_small by lia. rewrite E2.
  rewrite Nat2Z.id, Nat.sub_diag. cbn [repeat]. rewrite app_nil_r. destruct (reads cs); [|done]. by rewrite Z.eqb_refl.
Qed.

Definition size_of (cs : list (list Z)) : Z := foldr (fun c n => 4 + Z.of_nat (length c) + n) 0 cs.

Lemma size_nonneg cs : 0 <= size_of cs.
Proof. unfold size_of. induction cs as [|c cs IH]; cbn [foldr]; lia. Qed.

Lemma size_foldl cs : forall n, foldl (fun n cert => n + (4 + Z.of_nat (length cert))) n cs = n + size_of cs.
Proof. induction cs as [|c cs IH]; intros n; cbn [foldl size_of foldr]; [lia|]. rewrite IH. unfold size_of. lia. Qed.

Lemma fill_all : forall fuel l total, (length l < fuel)%nat -> Forall (fun c => c <> []) (compressed l) -> 0 <= total -> total + size_of (compressed l) < 2 ^ 32 ->
  forall ps, uncut (reads (compressed l)) ps -> fill fuel (shown <$> l) (MkInflated ps EOF) total (total + size_of (compressed l)) = Ok l.*2.
Proof.
  induction fuel as [|fuel IH]; intros l total Hf Hne Ht Hs ps Hps; [lia|]. cbn [fill].
  destruct (next_split l) as [(H1 & _ & _ & H4)|(l1 & c & l2 & -> & H2 & _ & H4)].
  - rewrite H1. cbn [size_of foldr]. rewrite Z.add_0_r, Z.ltb_irrefl. cbn [negb]. f_equal. exact H4.
  - rewrite H2 in Hne, Hs, Hps |- *. pose proof Hne as Hall. apply Forall_cons in Hne as [Hc Hne]. cbn [size_of foldr] in Hs |- *. fold (size_of (compressed l2)) in Hs |- *.
    pose proof (size_nonneg (compressed l2)). rewrite (proj2 (Z.ltb_lt _ _)) by lia. cbn [negb].
    destruct (cert_read c _ ps Hall ltac:(lia) Hps) as (ps' & -> & Hps'). cbn [mbind res_bind]. rewrite H4. unfold u32, wrap. rewrite (Z.mod_small (4 + _)), Z.mod_small by lia.
    rewrite length_app in Hf. cbn [length] in Hf.
    replace (total + (4 + Z.of_nat (length c) + size_of (compressed l2))) with (total + (4 + Z.of_nat (length c)) + size_of (compressed l2)) by lia.
    rewrite IH by (done || lia). cbn. by rewrite fmap_app.
Qed.

Lemma compressed_shown (l : list (entry * list Z)) : existsb (fun x => is_compressed x.1) (shown <$> l) = existsb (fun x => is_compressed x.1) l.
Proof. induction l as [|[e c] l IH]; [done|]. cbn. by rewrite IH. Qed.

Lemma entry_bytes_positive e : (1 <= length (entry_bytes e))%nat.
Proof. destruct e; cbn [entry_bytes length]; lia. Qed.

Lemma entries_length (l : list (entry * list Z)) : (length l <= length (mjoin (entry_bytes <$> l.*1)))%nat.
Proof.
  induction l as [|[e c] l IH]; [done|]. rewrite !fmap_cons, mjoin_cons, length_app. cbn [length fst]. pose proof (entry_bytes_positive e). lia.
Qed.

Lemma text_length cs : Z.of_nat (length (mjoin (with_length <$> cs))) = size_of cs.
Proof.
  induction cs as [|c cs IH]; [done|]. rewrite fmap_cons, mjoin_cons, length_app. unfold with_length at 1. rewrite length_app, length_le_bytes.
  cbn [size_of foldr]. fold (size_of cs). lia.
Qed.

(** What is compressed is no longer than the chain. *)
Lemma compressed_size (l : list (entry * list Z)) : size_of (compressed l) <= size_of l.*2.
Proof.
  induction l as [|[e c] l IH]; [done|]. unfold compressed in *. rewrite filter_cons. cbn [fst].
  cbn [size_of foldr fmap list_fmap snd]. fold (size_of l.*2). destruct (is_compressed e).
  - rewrite decide_True by done. cbn [fmap list_fmap snd size_of foldr]. fold (size_of (filter (fun x => is_compressed x.1 = true) l).*2). lia.
  - rewrite decide_False by done. lia.
Qed.

(** What a writer was given is what a reader with the same dictionary gives back, in some pieces, before EOF. *)
Hypothesis inflates : forall d t, exists z, NewReaderDict d (deflate d t) = Ok z /\ mjoin (pieces z) = t /\ final z = EOF.

(** The entries for a hello that names these sets. *)
Definition entries_for (chain : list (list Z)) (common : list Z) : list (entry * list Z) :=
  zip (buildEntries certSets chain [] (match splitHashes common with Ok hs => hs | _ => [] end)) chain.

(** The pieces in which the reader gives the text back cut no certificate, and no length in front of one. *)
Definition gives_whole_certificates (chain : list (list Z)) (common : list Z) : Prop :=
  let l := entries_for chain common in
  forall z, NewReaderDict (dict l.*1 l.*2) (deflate (dict l.*1 l.*2) (text l)) = Ok z -> uncut (reads (compressed l)) (pieces z).

(** The chain a server sends for a hello that names common certificate sets is the chain its client decompresses:
    common certificates come from the sets of the client, the others through zlib, in their order. *)
Theorem chain_roundtrip chain common :
  Z.of_nat (length common) mod 8 = 0 -> Forall (fun c => c <> []) chain -> size_of chain < 2 ^ 32 -> gives_whole_certificates chain common ->
  exists data, compressChain chain common [] = Ok data /\ decompressChain data = Ok chain.
Proof using sets inflates.
  intros Hc Hne Hs Hwhole. unfold gives_whole_certificates, entries_for in Hwhole. unfold Certs.compressChain. change (splitHashes []) with (Ok [] : res (list Z)). cbn [mbind res_bind].
  unfold splitHashes in Hwhole |- *. rewrite Hc in Hwhole |- *. cbn [Z.eqb negb mbind res_bind] in Hwhole |- *.
  set (hs := map _ (seq 0 _)). set (l := zip (buildEntries certSets chain [] hs) chain).
  pose proof (entries_ok chain hs) as Hok. fold l in Hok.
  assert (l.*1 = buildEntries certSets chain [] hs /\ l.*2 = chain) as [E1 E2] by apply zip_of_map. rewrite <- E1.
  assert (dict l.*1 chain = dict l.*1 l.*2) as -> by (by rewrite E2). fold (compressed l). fold (text l). rewrite size_foldl, Z.add_0_l.
  eexists. split; [reflexivity|]. unfold Certs.decompressChain. cbn [app].
  rewrite entries_read; [|done|rewrite length_app; pose proof (entries_length l); lia]. cbn [mbind res_bind]. rewrite compressed_shown.
  fold hs l in Hwhole. pose proof (compressed_size l) as Hw. rewrite E2 in Hw.
  assert (Forall (fun c => c <> []) (compressed l)) as Hcs.
  { apply Forall_forall. intros c Hin. apply list_elem_of_fmap in Hin as ((e & c') & -> & Hin). apply list_elem_of_filter in Hin as [_ Hin].
    apply list_elem_of_zip_r in Hin || apply elem_of_zip_r in Hin. by eapply Forall_forall in Hne. }
  destruct (next_split l) as [(H1 & -> & _ & H4)|(l1 & c & l2 & _ & H2 & -> & _)]; [by rewrite H4, E2|].
  assert (0 < size_of (compressed l)) as Hpos by (rewrite H2; cbn [size_of foldr]; pose proof (size_nonneg (compressed l2)); unfold size_of in *; lia).
  rewrite (proj2 (Z.ltb_lt _ _)) by done. unfold u32, wrap. rewrite Z.mod_small by lia. rewrite LE_read32_bytes by lia. cbn [mbind res_bind].
  rewrite dict_shown. destruct (inflates (dict l.*1 l.*2) (text l)) as ([ps e] & Ez & _ & He). pose proof (Hwhole _ Ez) as Hps.
  cbn [pieces final] in He, Hps. rewrite Ez, He. cbn [mbind res_bind].
  rewrite <- (Z.add_0_l (size_of (compressed l))), fill_all; [by rewrite E2|rewrite length_fmap; lia|done|lia|lia|done].
Qed.
End Compression.

(** ** Any data *)

Section Decompression.
Context (certSets : gmap Z (list (list Z))) (certDictZlib : list Z) (NewReaderDict : list Z -> list Z -> res Inflated).

Lemma next_shorter : forall es skipped rest, next_compressed es = Some (skipped, rest) -> (length rest < length es)%nat.
Proof.
  induction es as [|[e c] es IH]; [done|]. intros skipped rest E. cbn [next_compressed] in E.
  destruct e; [by injection E as _ <-; cbn; lia| |]; (destruct (next_compressed es) as [[sk es']|] eqn:E2; [|done]; injection E as _ <-; specialize (IH _ _ eq_refl); cbn; lia).
Qed.

Lemma fill_ends : forall fuel es z total ulen, (length es < fuel)%nat -> fill fuel es z total ulen <> Panic.
Proof.
  induction fuel as [|fuel IH]; intros es z total ulen Hf; [lia|]. cbn [fill]. destruct (negb _); [done|].
  assert (read_cert z <> Panic) as Hr by (unfold read_cert; destruct (gz_Read 4 z) as [[lb [e|]] z1]; [done|]; destruct (gz_Read _ z1) as [[got [e|]] z2]; [by destruct (negb _)|done]).
  destruct (read_cert z) as [[[c n] z1]| |]; [|done..]. cbn [mbind res_bind].
  destruct (next_compressed es) as [[sk es']|] eqn:E; [|done]. apply next_shorter in E.
  pose proof (IH es' z1 (u32 (total + u32 (4 + n))) ulen ltac:(lia)) as H. by destruct (fill fuel es' _ _ _).
Qed.

Lemma entries_end : forall fuel r, bytes_ok r ->
  match read_entries certSets fuel r with Panic => False | Ok (_, r') => bytes_ok r' | Err _ => True end.
Proof.
  induction fuel as [|fuel IH]; intros r Hr; [apply Forall_nil_2|]. destruct r as [|t r]; [apply Forall_nil_2|]. apply Forall_cons in Hr as [_ Hr]. cbn [read_entries].
  destruct (t =? 0); [done|]. destruct (t =? 2); [done|]. destruct (t =? 3).
  - destruct (safe_read64 LittleEndian r Hr) as [Hp Ho]. change (ReadUint64 LittleEndian) with LE.ReadUint64 in *. destruct (LE.ReadUint64 r) as [[h r1]| |]; [|done..]. specialize (Ho _ _ eq_refl). cbn [mbind res_bind].
    destruct (safe_read32 LittleEndian r1 Ho) as [Hp1 Ho1]. change (ReadUint32 LittleEndian) with LE.ReadUint32 in *. destruct (LE.ReadUint32 r1) as [[i r2]| |]; [|done..]. specialize (Ho1 _ _ eq_refl). cbn [mbind res_bind].
    destruct (certSets !! h) as [set|]; [|done]. destruct (set !! Z.to_nat i); [|done]. specialize (IH r2 Ho1).
    by destruct (read_entries certSets fuel r2) as [[es r3]| |].
  - destruct (t =? 1); [|done]. specialize (IH r Hr). by destruct (read_entries certSets fuel r) as [[es r3]| |].
Qed.

(** Whatever a server sends as its certificates, decompressing them ends with a chain or an error. *)
Theorem decompression_ends data : bytes_ok data -> (forall d r, NewReaderDict d r <> Panic) -> decompressChain certSets certDictZlib NewReaderDict data <> Panic.
Proof.
  intros Hd Hz. unfold decompressChain. pose proof (entries_end (S (length data)) data Hd) as H.
  destruct (read_entries certSets (S (length data)) data) as [[es r]| |]; [|done..]. cbn [mbind res_bind]. destruct (existsb _ es); [|done].
  destruct (safe_read32 LittleEndian r H) as [Hp _]. change (ReadUint32 LittleEndian) with LE.ReadUint32 in *. destruct (LE.ReadUint32 r) as [[n r1]| |]; [|done..]. cbn [mbind res_bind].
  specialize (Hz (buildZlibDictForEntries certDictZlib es.*1 es.*2) r1). destruct (NewReaderDict _ r1) as [z| |]; [|done..]. cbn [mbind res_bind]. apply fill_ends. lia.
Qed.

Lemma cert_cut c1 c2 : c1 <> [] -> c2 <> [] -> 4 + Z.of_nat (length (c1 ++ c2)) < 2 ^ 32 ->
  read_cert (MkInflated [le_bytes 4 (Z.of_nat (length (c1 ++ c2))) ++ c1; c2] EOF) = Ok (c1 ++ repeat 0 (length c2), Z.of_nat (length (c1 ++ c2)), MkInflated [c2] EOF).
Proof.
  intros H1 H2 Hlen. unfold read_cert, gz_Read. cbn [pieces final]. change (Z.to_nat 4) with 4%nat. set (n := le_bytes 4 _). assert (length n = 4%nat) as Hn by apply length_le_bytes.
  rewrite take_app_length', drop_app_length' by done. destruct c1 as [|b c1]; [done|]. cbn [pieces final]. rewrite Hn. cbn [Nat.sub repeat]. rewrite app_nil_r.
  unfold n. rewrite le_val_le_bytes_small by lia. rewrite Nat2Z.id. rewrite length_app in *. rewrite drop_ge, take_ge by lia.
  by replace (length (b :: c1) + length c2 - length (b :: c1))%nat with (length c2) by lia.
Qed.

(** The certificate is read with a single [Read], which may give less than is asked for.  A certificate that
    zlib hands out in two pieces, as it does with one that does not fit into what is left of its window behind the dictionary,
    is not read to its end: its tail is replaced by zeros, without an error. *)
Theorem long_certificate_is_cut deflate c1 c2 :
  c1 <> [] -> c2 <> [] -> 4 + Z.of_nat (length (c1 ++ c2)) < 2 ^ 32 ->
  let c := c1 ++ c2 in
  (forall d t, NewReaderDict d (deflate d t) = Ok (MkInflated [take (4 + length c1) t; drop (4 + length c1) t] EOF)) ->
  exists data, compressChain certSets certDictZlib deflate [c] [] [] = Ok data
    /\ decompressChain certSets certDictZlib NewReaderDict data = Ok [c1 ++ repeat 0 (length c2)].
Proof.
  intros H1 H2 Hlen c Hz. assert (0 < length c1)%nat by (destruct c1; [done|cbn; lia]). assert (0 < length c2)%nat by (destruct c2; [done|cbn; lia]).
  assert (length c = length c1 + length c2)%nat as Hc by (unfold c; apply length_app).
  set (r := le_bytes 4 (u32 (0 + (4 + Z.of_nat (length c)))) ++ deflate (buildZlibDictForEntries certDictZlib [entryCompressed] [c]) (with_length c ++ [])).
  exists (1 :: 0 :: r). split.
  { unfold compressChain. change (splitHashes []) with (Ok [] : res (list Z)). cbn [mbind res_bind].
    change (filter _ (zip (buildEntries certSets [c] [] []) [c])) with [(entryCompressed, c)]. cbn [fmap list_fmap snd foldl].
    rewrite (proj2 (Z.ltb_lt _ _)) by lia. reflexivity. }
  unfold decompressChain. change (read_entries certSets _ (1 :: 0 :: r)) with (Ok ([(entryCompressed, [] : list Z)], r)). cbn [mbind res_bind existsb is_compressed fst orb].
  unfold r, u32, wrap. fold c in Hlen. rewrite Z.mod_small by lia. rewrite LE_read32_bytes by lia. cbn [mbind res_bind fmap list_fmap fst snd].
  change (buildZlibDictForEntries certDictZlib [entryCompressed] [[]]) with (buildZlibDictForEntries certDictZlib [entryCompressed] [c]). rewrite Hz. cbn [mbind res_bind].
  rewrite app_nil_r. unfold with_length. set (n := le_bytes 4 (Z.of_nat (length c))). assert (length n = 4%nat) as Hn by apply length_le_bytes.
  assert (take (4 + length c1) (n ++ c) = n ++ c1) as -> by (rewrite <- Hn, take_app_add'; [|done]; f_equal; unfold c; apply take_app_length).
  assert (drop (4 + length c1) (n ++ c) = c2) as -> by (rewrite <- Hn, drop_app_add'; [|done]; unfold c; apply drop_app_length).
  cbn [fill length]. rewrite (proj2 (Z.ltb_lt _ _)) by lia. cbn [negb]. rewrite (cert_cut c1 c2 H1 H2 Hlen : read_cert (MkInflated [n ++ c1; c2] EOF) = Ok (_, Z.of_nat (length c), _)). cbn [mbind res_bind next_compressed].
  unfold u32, wrap. rewrite (Z.mod_small (4 + _)), Z.mod_small by lia. by rewrite Z.ltb_irrefl.
Qed.
End Decompression.

(** ** From the server's certificate to the client's *)

Section Delivered.
Context (certSets : gmap Z (list (list Z))) (certDictZlib : list Z).
Context (deflate : list Z -> list Z -> list Z) (NewReaderDict : list Z -> list Z -> res Inflated).
Hypothesis sets : forall h set, certSets !! h = Some set -> 0 <= h < 2 ^ 64 /\ Z.of_nat (length set) < 2 ^ 32.
Hypothesis inflates : forall d t, exists z, NewReaderDict d (deflate d t) = Ok z /\ mjoin (pieces z) = t /\ final z = EOF.
Context (ToLower Sum256 : list Z -> list Z) {X : Type} (x509 : X509 X).

Abbreviation compress c := (fun chain common cached => (getCompressedCert certSets certDictZlib deflate c chain common cached).1).
Abbreviation decompress := (decompressChain certSets certDictZlib NewReaderDict).
#[local] Instance the_manager : CertManager (certManager (X := X)) := certManager_is certSets decompress Sum256 x509.

(** Without certificates nothing is verified. *)
#[export] Instance manager_ok : CertManagerOk (CM := certManager (X := X)).
Proof. by split; intros [[|leaf others] skip]. Qed.

Lemma hashes_length : Z.of_nat (length (getCommonCertificateHashes certSets)) mod 8 = 0.
Proof.
  unfold getCommonCertificateHashes. enough (forall l : list (Z * list (list Z)), length (mjoin ((fun x => le_bytes 8 x.1) <$> l)) = (8 * length l)%nat) as ->.
  { rewrite Nat2Z.inj_mul, Z.mul_comm. apply Z.mod_mul. lia. }
  induction l as [|x l IH]; [done|]. rewrite fmap_cons, mjoin_cons, length_app, IH, length_le_bytes. cbn [length]. lia.
Qed.

(** [x] is the certificate with these bytes. *)
Definition parses_as (c : list Z) (x : X) : Prop := ParseCertificate x509 c = inr x /\ Raw x509 x = c.

Lemma all_parsed chain xs : Forall2 parses_as chain xs -> parse_all x509 chain = inr xs.
Proof. induction 1 as [|c x cs xs [E _] _ IH]; [done|]. cbn. by rewrite E, IH. Qed.

(** The public key of [x] verifies what the key of the certificate signs. *)
Definition key_pair (cert : Certificate) (x : X) : Prop :=
  forall sign digest proof, Signer cert = Some sign -> sign digest (if isRSA cert then OptsPSS else OptsSHA256) = Ok proof ->
  (if x509_isRSA x509 x then VerifyPSS x509 x digest proof
   else match ecdsaSignature proof with Ok (r, s, []) => VerifyECDSA x509 x digest r s | _ => false end) = true.

(** What a hello with these common sets finds in the cache is what the chain compresses to. *)
Definition cache_answers (c : cache) (chain : list (list Z)) (common : list Z) : Prop :=
  forall data, c (cache_key chain common []) = Some data -> compressChain certSets certDictZlib deflate chain common [] = Ok data.

(** C8. The certificate that a server chooses for a name arrives: the client that names the certificate sets both know reads
    the chain as the server has it, so that both hash the same leaf certificate, and the proof that the server signs for a
    hello and a configuration is verified with the leaf.  The chain is shorter than 4 GB, zlib's reader gives every length
    and every certificate with the one [Read] that asks for it (a longer certificate is cut, see [long_certificate_is_cut]),
    and an answer in the cache under the hello's key is that for this chain and these sets (see [cache_confuses_hashes]). *)
Theorem certificate_delivered (cfg : tlsConfig) (c : cache) sni cert leaf others x xs (cm : certManager (X := X)) :
  getCertForSNI ToLower cfg sni = Ok cert -> Certificate_ cert = leaf :: others ->
  Forall (fun c => c <> []) (leaf :: others) -> size_of (leaf :: others) < 2 ^ 32 ->
  gives_whole_certificates certSets certDictZlib deflate NewReaderDict (leaf :: others) (getCommonCertificateHashes certSets) ->
  cache_answers c (leaf :: others) (getCommonCertificateHashes certSets) ->
  Forall2 parses_as (leaf :: others) (x :: xs) -> key_pair cert x ->
  let server := certChain ToLower Sum256 (compress c) cfg in
  CertChain.GetLeafCert server sni = Ok leaf
  /\ exists data cm', CertChain.GetCertsCompressed server sni (GetCommonCertificateHashes cm) [] = Ok data /\ SetData cm data = (None, cm')
    /\ GetLeafCert cm' = Some leaf /\ GetLeafCertHash cm' = HashCert leaf
    /\ forall chlo scfg proof, CertChain.SignServerProof server sni chlo scfg = Ok proof -> VerifyServerProof cm' proof chlo scfg = true.
Proof using sets inflates.
  intros Hg Hch Hne Hsz Hwhole Hcache Hx Hkey server. unfold server, certChain. cbn [CertChain.GetLeafCert CertChain.GetCertsCompressed CertChain.SignServerProof].
  rewrite Hg. cbn [mbind res_bind]. rewrite Hch. split; [done|].
  destruct (chain_roundtrip certSets certDictZlib deflate NewReaderDict sets inflates (leaf :: others) (getCommonCertificateHashes certSets)) as (data & E & D);
    [apply hashes_length|done|done|exact Hwhole|].
  exists data, (MkManager (x :: xs) (insecure cm)). split.
  { unfold getCompressedCert. destruct (c _) as [cached|] eqn:Ec; [|change (GetCommonCertificateHashes cm) with (getCommonCertificateHashes certSets); by rewrite E].
    apply Hcache in Ec. rewrite E in Ec. by injection Ec as <-. } cbn [SetData the_manager certManager_is]. unfold cm_SetData.
  rewrite D, (all_parsed _ _ Hx). apply Forall2_cons in Hx as [[_ Hraw] _]. split; [done|].
  cbn. unfold cm_GetLeafCertHash, cm_GetLeafCert. cbn. rewrite Hraw. split; [done|]. split; [done|].
  intros chlo scfg proof Hs. unfold signServerProof in Hs. destruct (Signer cert) as [sign|] eqn:Es; [|done].
  unfold cm_VerifyServerProof, verifyServerProof. cbn [chain]. by eapply Hkey.
Qed.
End Delivered.

(** ** The choice of a certificate *)

Lemma exact_name_wins ToLower first second others names sni cert :
  names !! trim_dots (ToLower sni) = Some cert -> choose_certificate ToLower (first :: second :: others) (Some names) sni = Ok cert.
Proof. intros E. unfold choose_certificate. by rewrite E. Qed.

(** [crypto/tls] lets [GetConfigForClient] return nil to keep the configuration; here that is a panic. *)
Lemma nil_config_panics ToLower certs names get get_config sni : get_config sni = Ok None ->
  getCertForSNI ToLower (MkTLS certs names get (Some get_config)) sni = Panic.
Proof. intros E. unfold getCertForSNI. cbn [maybeGetConfigForClient]. by rewrite E. Qed.

(** ** The cache *)

(** The key does not say where the common set hashes end and the cached hashes begin: the answer to a hello that
    names hashes as its cached certificates is handed to the next one that names them as common sets. *)
Lemma cache_confuses_hashes certSets dict deflate c chain hashes data c' :
  getCompressedCert certSets dict deflate c chain [] hashes = (Ok data, c') -> c' (cache_key chain [] hashes) = Some data ->
  getCompressedCert certSets dict deflate c' chain hashes [] = (Ok data, c').
Proof.
  intros _ E. unfold getCompressedCert. assert (cache_key chain hashes [] = cache_key chain [] hashes) as -> by (unfold cache_key; by rewrite app_nil_r).
  by rewrite E.
Qed.
