(* ===== verification/CertSamples.v ===== *)
(** * Certificates at concrete inputs

    A set of two certificates that client and server share, a compression that only marks its text, and
    certificates whose signature is the digest with their bytes. *)

From stdpp Require Import base numbers list option strings gmap.
From S2P Require Import Prelude ByteOrder Protocol PublicHeader PacketUnpacker PacketPacker Handshake ServerConfig ConnectionParameters CryptoServer CryptoClient HandshakeFacts Aead Cookies CookieFacts Certs CertFacts.

Local Open Scope Z_scope.

Definition toy_sets : gmap Z (list (list Z)) := {[ 77 := [[5; 5]; [6; 6; 6]] ]}.
Definition toy_dict : list Z := [1; 2].
Definition toy_deflate (d t : list Z) : list Z := 9 :: t.
Definition in_one_piece (t : list Z) : Inflated := MkInflated (match t with [] => [] | _ => [t] end) EOF.
Definition toy_inflate (d r : list Z) : res Inflated := match r with b :: t => if b =? 9 then Ok (in_one_piece t) else Err (GoErr "zlib") | [] => Err EOF end.

Lemma toy_sets_ok h set : toy_sets !! h = Some set -> 0 <= h < 2 ^ 64 /\ Z.of_nat (length set) < 2 ^ 32.
Proof. unfold toy_sets. intros [<- <-]%lookup_singleton_Some. split; [lia|done]. Qed.
Lemma toy_inflates d t : exists z, toy_inflate d (toy_deflate d t) = Ok z /\ mjoin (pieces z) = t /\ final z = EOF.
Proof. exists (in_one_piece t). split; [done|]. split; [|done]. destruct t; cbn; by rewrite ?app_nil_r. Qed.
Lemma reads_text cs : mjoin (reads cs) = mjoin (with_length <$> cs).
Proof. induction cs as [|c cs IH]; [done|]. rewrite reads_cons, fmap_cons, !mjoin_cons, IH. unfold with_length. by rewrite app_assoc. Qed.
Lemma one_piece_uncut cs : uncut (reads cs) (pieces (in_one_piece (mjoin (with_length <$> cs)))).
Proof.
  destruct cs as [|c cs]; [constructor|]. pose proof (uncut_one (reads (c :: cs)) ltac:(done)) as H. rewrite reads_text in H.
  unfold in_one_piece. cbn [pieces]. by destruct (mjoin (with_length <$> c :: cs)) eqn:E.
Qed.
Lemma toy_whole chain common : gives_whole_certificates toy_sets toy_dict toy_deflate toy_inflate chain common.
Proof.
  unfold gives_whole_certificates. intros z E. unfold toy_inflate, toy_deflate in E. cbn [Z.eqb Pos.eqb] in E. injection E as <-. apply one_piece_uncut.
Qed.

(** The second certificate is common. *)
Definition toy_chain : list (list Z) := [[1; 2; 3]; [6; 6; 6]; [4]].
Definition toy_hashes : list Z := le_bytes 8 5 ++ le_bytes 8 77.

Lemma chain_roundtrip_witness : exists data, compressChain toy_sets toy_dict toy_deflate toy_chain toy_hashes [] = Ok data
  /\ decompressChain toy_sets toy_dict toy_inflate data = Ok toy_chain /\ length data = 33%nat.
Proof.
  destruct (chain_roundtrip toy_sets toy_dict toy_deflate toy_inflate toy_sets_ok toy_inflates toy_chain toy_hashes) as (data & E & D);
    [done|by repeat constructor|done|apply toy_whole|].
  exists data. split; [exact E|]. split; [exact D|]. vm_compute in E. injection E as <-. reflexivity.
Defined.

Lemma decompression_ends_witness : decompressChain toy_sets toy_dict toy_inflate [1; 0; 8; 0; 0; 0; 9; 255; 255; 255; 255] <> Panic.
Proof.
  apply (decompression_ends toy_sets toy_dict toy_inflate).
  - repeat constructor; lia.
  - intros d [|b r]; [done|]. cbn. by destruct (b =? 9).
Defined.

(** Five bytes, of which the decompressor hands out the first three with the length. *)
Definition cut_inflate (d r : list Z) : res Inflated := Ok (MkInflated [take 7 (drop 1 r); drop 7 (drop 1 r)] EOF).

Lemma long_certificate_is_cut_witness : exists data, compressChain toy_sets toy_dict toy_deflate [[1; 2; 3; 4; 5]] [] [] = Ok data
  /\ decompressChain toy_sets toy_dict cut_inflate data = Ok [[1; 2; 3; 0; 0]].
Proof. apply (long_certificate_is_cut toy_sets toy_dict cut_inflate toy_deflate [1; 2; 3] [4; 5]); done. Defined.

Definition toy_x509 : X509 (list Z) :=
  MkX509 inr (fun x => x) (fun _ => true) (fun x digest proof => bool_decide (proof = digest ++ x)) (fun _ _ _ _ => false) (fun _ _ _ => None).
Definition toy_sum (l : list Z) : list Z := [Z.of_nat (length l); foldl Z.add 0 l].
Definition toy_cert : Certificate := MkCertificate toy_chain true (Some (fun digest _ => Ok (digest ++ [1; 2; 3]))).
Definition other_cert : Certificate := MkCertificate [[7]] true None.
Definition example_com : list Z := bytes_of_string "www.example.com..".
Definition toy_tls : tlsConfig :=
  MkTLS [other_cert; toy_cert] (Some {[ bytes_of_string "*.example.com" := toy_cert ]}) None None.

(** The answer to an earlier hello is in the cache. *)
Definition toy_cache : cache := (getCompressedCert toy_sets toy_dict toy_deflate (fun _ => None) toy_chain (getCommonCertificateHashes toy_sets) []).2.
Definition toy_compress : list (list Z) -> list Z -> list Z -> res (list Z) :=
  fun chain common cached => (getCompressedCert toy_sets toy_dict toy_deflate toy_cache chain common cached).1.

Lemma toy_cache_answers : is_Some (toy_cache (cache_key toy_chain (getCommonCertificateHashes toy_sets) []))
  /\ cache_answers toy_sets toy_dict toy_deflate toy_cache toy_chain (getCommonCertificateHashes toy_sets).
Proof. split; [vm_compute; by eexists|]. intros data E. vm_compute in E. injection E as <-. by vm_compute. Qed.

Lemma certificate_delivered_witness :
  CertChain.GetLeafCert (certChain (fun s => s) toy_sum toy_compress toy_tls) example_com = Ok [1; 2; 3]
  /\ exists data cm', CertChain.GetCertsCompressed (certChain (fun s => s) toy_sum toy_compress toy_tls) example_com (getCommonCertificateHashes toy_sets) [] = Ok data
    /\ cm_SetData (decompressChain toy_sets toy_dict toy_inflate) toy_x509 (NewCertManager false) data = (None, cm')
    /\ cm_VerifyServerProof toy_sum toy_x509 cm' (proof_digest toy_sum [1] [2] ++ [1; 2; 3]) [1] [2] = true.
Proof.
  assert (key_pair toy_x509 toy_cert [1; 2; 3]) as Hk by (intros sign d p [= <-] [= <-]; by apply bool_decide_eq_true).
  destruct (certificate_delivered toy_sets toy_dict toy_deflate toy_inflate toy_sets_ok toy_inflates (fun s => s) toy_sum toy_x509 toy_tls toy_cache example_com toy_cert
    [1; 2; 3] [[6; 6; 6]; [4]] [1; 2; 3] [[6; 6; 6]; [4]] (NewCertManager false)) as (H & data & cm' & E1 & E2 & _ & _ & Hp);
    [vm_compute; reflexivity|done|by repeat constructor|done|apply toy_whole|apply toy_cache_answers|by repeat constructor|exact Hk|].
  split; [exact H|]. exists data, cm'. split; [exact E1|]. split; [exact E2|]. apply Hp. vm_compute. reflexivity.
Defined.

(** A hello that names the hash of a certificate set as that of a cached certificate; the next, which names the set, is not told
    that the certificate is in it. *)
Example confused_answer :
  let empty : cache := fun _ => None in
  let '(r, c) := getCompressedCert toy_sets toy_dict toy_deflate empty [[6; 6; 6]] [] (le_bytes 8 77) in
  (getCompressedCert toy_sets toy_dict toy_deflate c [[6; 6; 6]] (le_bytes 8 77) []).1 = r
  /\ compressChain toy_sets toy_dict toy_deflate [[6; 6; 6]] (le_bytes 8 77) [] <> r.
Proof. vm_compute. split; [reflexivity|discriminate]. Qed.
