(* ===== verification/AeadFacts.v ===== *)
(** * What the AEADs guarantee

    What one end seals the other opens, with the null AEADs and with derived keys, so that packets
    are delivered under either; and which nonces AES-GCM is used with: no number of a path gives one twice,
    but equal numbers of different paths do. *)

From stdpp Require Import base numbers list option strings gmap.
From S2P Require Import Prelude ByteOrder Protocol PublicHeader PacketUnpacker PacketPacker Handshake CryptoServer Aead.

Local Open Scope Z_scope.

(** What [a] seals, [b] opens. *)
Definition matching (a b : AEAD) : Prop :=
  forall src n ad, AEAD_Open b (Seal (AEAD_Seal a) src n ad) n ad = Ok src.

Definition opposite (p : Perspective) : Perspective := match p with PerspectiveServer => PerspectiveClient | PerspectiveClient => PerspectiveServer end.

Lemma is_server_opposite p : is_server (opposite p) = negb (is_server p).
Proof. by destruct p. Qed.

(** ** The null AEADs *)

Lemma Sum64_range data : 0 <= nullAEADFNV64a.Sum64 data < 2 ^ 64.
Proof.
  unfold nullAEADFNV64a.Sum64. assert (0 <= 14695981039346656037 < 2 ^ 64) as H by done. revert H. generalize 14695981039346656037.
  induction data as [|c data IH]; intros h Hh; cbn [foldl]; [exact Hh|]. apply IH. unfold u64, wrap. apply Z.mod_pos_bound. lia.
Qed.

Section Null.
Context (Sum128 : list Z -> Z * Z).
Hypothesis halves : forall data, 0 <= (Sum128 data).1 < 2 ^ 64 /\ 0 <= (Sum128 data).2 < 2 ^ 64.

(** The tag in front of a packet is read back. *)
Lemma tag_read v n rest : (n <= 8)%nat -> le_val (take n (le_bytes n v ++ rest)) = v `mod` 2 ^ (8 * Z.of_nat n).
Proof. intros _. rewrite take_app_length' by (by rewrite length_le_bytes). apply le_val_le_bytes. Qed.

Lemma FNV128a_matches p : matching (nullAEADFNV128a.aead Sum128 p) (nullAEADFNV128a.aead Sum128 (opposite p)).
Proof.
  intros src n ad. cbn [AEAD_Open AEAD_Seal nullAEADFNV128a.aead Seal]. unfold nullAEADFNV128a.Seal, nullAEADFNV128a.Open.
  rewrite is_server_opposite. set (label := if is_server p then server_label else client_label).
  replace (if negb (is_server p) then client_label else server_label) with label by (by destruct p).
  destruct (Sum128 (ad ++ src ++ label)) as [high low] eqn:E. pose proof (halves (ad ++ src ++ label)) as [Hh Hl]. rewrite E in Hh, Hl. cbn [fst snd] in Hh, Hl.
  rewrite !length_app, !length_le_bytes. rewrite (proj2 (Nat.ltb_ge _ _)) by lia.
  assert (drop 12 (le_bytes 8 low ++ le_bytes 4 (u32 high) ++ src) = src) as ->
    by (rewrite app_assoc; apply drop_app_length'; by rewrite length_app, !length_le_bytes).
  rewrite E. rewrite (tag_read low 8) by lia. rewrite (drop_app_length' (le_bytes 8 low)) by (by rewrite length_le_bytes).
  rewrite (tag_read (u32 high) 4) by lia. rewrite (Z.mod_small low) by lia.
  rewrite (Z.mod_small (u32 high)) by (apply Z.mod_pos_bound; lia).
  replace (u32 (Z.land high 4294967295)) with (u32 high); [by rewrite !Z.eqb_refl|].
  change 4294967295 with (Z.ones 32). rewrite Z.land_ones by lia. unfold u32, wrap. by rewrite Z.mod_mod.
Qed.

Lemma FNV64a_matches : matching nullAEADFNV64a.aead nullAEADFNV64a.aead.
Proof.
  intros src n ad. cbn [AEAD_Open AEAD_Seal nullAEADFNV64a.aead Seal]. unfold nullAEADFNV64a.Seal, nullAEADFNV64a.Open.
  rewrite length_app, length_be_bytes. rewrite (proj2 (Nat.ltb_ge _ _)) by lia. replace (length src + 8 - 8)%nat with (length src) by lia.
  rewrite take_app_length, drop_app_length. unfold be_bytes, be_val. rewrite rev_involutive, le_val_le_bytes.
  rewrite Z.mod_small by (apply Sum64_range). by rewrite Z.eqb_refl.
Qed.

Lemma null_matches p v : matching (NewNullAEAD Sum128 p v) (NewNullAEAD Sum128 (opposite p) v).
Proof. unfold NewNullAEAD. destruct (UsesTLS v); [apply FNV64a_matches|apply FNV128a_matches]. Qed.

Lemma null_overhead p v src n ad :
  Z.of_nat (length (Seal (AEAD_Seal (NewNullAEAD Sum128 p v)) src n ad)) = Z.of_nat (length src) + Overhead (AEAD_Seal (NewNullAEAD Sum128 p v)).
Proof.
  unfold NewNullAEAD. destruct (UsesTLS v); cbn [AEAD_Seal Seal Overhead nullAEADFNV64a.aead nullAEADFNV128a.aead].
  - unfold nullAEADFNV64a.Seal, nullAEADFNV64a.Overhead. rewrite length_app, length_be_bytes. lia.
  - unfold nullAEADFNV128a.Seal, nullAEADFNV128a.Overhead. destruct (Sum128 _). rewrite !length_app, !length_le_bytes. lia.
Qed.
End Null.

(** ** Derived keys *)

Section Derived.
Context (hkdf : list Z -> list Z -> list Z -> nat -> res (list Z)) (NewGCM : list Z -> res CipherAEAD).
(** HKDF gives as many bytes as are asked for; a cipher takes keys of 16 bytes and opens what it sealed. *)
Hypothesis stream : forall secret salt info n, (n <= 40)%nat -> exists s, hkdf secret salt info n = Ok s /\ length s = n.
Hypothesis cipher : forall key, length key = 16%nat -> exists c, NewGCM key = Ok c.
Hypothesis opens : forall key c nonce text ad, NewGCM key = Ok c -> cipher_Open c nonce (cipher_Seal c nonce text ad) ad = Ok text.

Abbreviation derive := (DeriveQuicCryptoAESKeys hkdf NewGCM).

(** Both ends have the same two keys, one for each direction. *)
Lemma derived fs secret nonces connID chlo scfg cert div :
  exists k1 k2 iv1 iv2, length k1 = 16%nat /\ length k2 = 16%nat /\ length iv1 = 4%nat /\ length iv2 = 4%nat
    /\ deriveKeys hkdf fs secret nonces connID chlo scfg cert div 16 false = Ok (k1, k2, iv1, iv2)
    /\ deriveKeys hkdf fs secret nonces connID chlo scfg cert div 16 true = Ok (k2, k1, iv2, iv1).
Proof using stream.
  unfold deriveKeys. destruct (stream secret nonces (key_info fs connID chlo scfg cert) (2 * 16 + 2 * 4)) as (s & -> & Hs); [lia|].
  cbn [mbind res_bind]. destruct fs.
  - eexists _, _, _, _. split_and!; [..|reflexivity|reflexivity]; rewrite ?length_take, ?length_drop; lia.
  - unfold diversify. set (k2 := take 16 (drop 16 s)). set (iv2 := drop (2 * 16 + 4) s).
    assert (length k2 = 16%nat) as H1 by (unfold k2; rewrite length_take, length_drop; lia). assert (length iv2 = 4%nat) as H2 by (unfold iv2; rewrite length_drop; lia).
    rewrite H1, H2. destruct (stream (k2 ++ iv2) div (bytes_of_string "QUIC key diversification") (16 + 4)) as (d & -> & Hd); [lia|].
    eexists _, _, _, _. split_and!; [..|reflexivity|reflexivity]; rewrite ?length_take, ?length_drop; lia.
Qed.

Lemma gcm_built k1 k2 iv1 iv2 : length k1 = 16%nat -> length k2 = 16%nat -> length iv1 = 4%nat -> length iv2 = 4%nat ->
  exists c1 c2, NewGCM k1 = Ok c1 /\ NewGCM k2 = Ok c2
    /\ aeadAESGCM12.NewAEADAESGCM12 NewGCM k1 k2 iv1 iv2 = Ok (aeadAESGCM12.Mk iv1 iv2 c2 c1).
Proof using cipher.
  intros H1 H2 H3 H4. destruct (cipher k1 H1) as [c1 E1], (cipher k2 H2) as [c2 E2]. exists c1, c2. split_and!; [done|done|].
  unfold aeadAESGCM12.NewAEADAESGCM12. rewrite H1, H2, H3, H4. cbn. by rewrite E2, E1.
Qed.

Lemma derived_match fs secret nonces connID chlo scfg cert div :
  exists ac as_, derive fs secret nonces connID chlo scfg cert div PerspectiveClient = Ok (aeadAESGCM12.aead ac)
    /\ derive fs secret nonces connID chlo scfg cert div PerspectiveServer = Ok (aeadAESGCM12.aead as_)
    /\ matching (aeadAESGCM12.aead ac) (aeadAESGCM12.aead as_) /\ matching (aeadAESGCM12.aead as_) (aeadAESGCM12.aead ac)
    /\ (exists key, NewGCM key = Ok (aeadAESGCM12.encrypter ac)) /\ (exists key, NewGCM key = Ok (aeadAESGCM12.encrypter as_)).
Proof using stream cipher opens.
  destruct (derived fs secret nonces connID chlo scfg cert div) as (k1 & k2 & iv1 & iv2 & H1 & H2 & H3 & H4 & Es & Ec).
  unfold DeriveQuicCryptoAESKeys. cbn [is_server negb]. rewrite Es, Ec. cbn [mbind res_bind].
  destruct (gcm_built k1 k2 iv1 iv2 H1 H2 H3 H4) as (c1 & c2 & E1 & E2 & ->).
  destruct (gcm_built k2 k1 iv2 iv1 H2 H1 H4 H3) as (c2' & c1' & E2' & E1' & ->).
  rewrite E1 in E1'. rewrite E2 in E2'. injection E1' as <-. injection E2' as <-.
  eexists _, _. split; [reflexivity|]. split; [reflexivity|]. split_and!; [intros src n ad; by eapply opens..|by eexists|by eexists].
Qed.
End Derived.

(** ** Packets are delivered *)

(** How a crypto setup opens at a level. *)
Definition open_at (lvl : Z) (b : AEAD) : quicAEAD := fun src n ad => d ← AEAD_Open b src n ad; mret (d, lvl).

(** The packet is written exactly if it is not too large, and then it is read as it was sent. *)
Definition delivered (own peer : AEAD) (p : Packer) (pth : SendPath) (lvl : Z) (fs : list Frame) (now : Z) (rnd : option Z) (last : Z) : Prop :=
  let h := getPublicHeader p lvl pth in
  exists payload, write_frames (version p) now fs = wbytes payload
    /\ (MaxPacketSize < packet_size p h (AEAD_Seal own) payload < 2 ^ 64 -> writeAndSealPacket p h fs (AEAD_Seal own) pth now rnd = (Ok None, pth))
    /\ (packet_size p h (AEAD_Seal own) payload <= MaxPacketSize -> exists raw pth',
          writeAndSealPacket p h fs (AEAD_Seal own) pth now rnd = (Ok (Some raw), pth') /\ next_number pth < next_number pth'
          /\ receive_packet (open_at lvl peer) (perspective p) (version p) last raw
             = Ok (with_number (PublicHeader.received h) (next_number pth), lvl, seen now <$> fs)).

(** The peer has received packets up to [last], recent enough to infer the number. *)
Definition recent (p : Packer) (pth : SendPath) (lvl last : Z) : Prop :=
  0 <= last < 2 ^ 62 /\ leastUnacked pth <= last + 1
  /\ 2 * (last + 1 - next_number pth) < 2 ^ (8 * PublicHeader.PacketNumberLen (getPublicHeader p lvl pth)).

Lemma matching_delivers own peer p pth lvl fs now rnd last :
  matching own peer -> 0 <= Overhead (AEAD_Seal own) -> packer_ok p pth -> fs <> [] ->
  payload_ok (PublicHeader.PacketNumber (getPublicHeader p lvl pth)) (PublicHeader.PacketNumberLen (getPublicHeader p lvl pth)) lvl now fs ->
  recent p pth lvl last -> delivered own peer p pth lvl fs now rnd last.
Proof.
  intros Hm Hov Hok Hne Hfs (H1 & H2 & H3). destruct (written_fits p (AEAD_Seal own) pth lvl fs now rnd Hok Hov Hfs) as (payload & Hw & Hbig & Hfit).
  exists payload. split; [done|]. split; [done|]. intros Hs. destruct (Hfit Hs) as (raw & pth' & E & Hnext & Hrecv).
  exists raw, pth'. split; [done|]. split; [done|]. apply Hrecv; try done. intros text ad. unfold open_at. by rewrite (Hm text _ ad).
Qed.

(** Before there are keys, a packet that either end writes is read by the other as the frames it
    was made of, whatever the hash: the null AEAD of an end opens what the other's has sealed. *)
Theorem null_packets_delivered Sum128 p pth lvl fs now rnd last :
  (forall data, 0 <= (Sum128 data).1 < 2 ^ 64 /\ 0 <= (Sum128 data).2 < 2 ^ 64) ->
  packer_ok p pth -> fs <> [] ->
  payload_ok (PublicHeader.PacketNumber (getPublicHeader p lvl pth)) (PublicHeader.PacketNumberLen (getPublicHeader p lvl pth)) lvl now fs ->
  recent p pth lvl last ->
  delivered (NewNullAEAD Sum128 (perspective p) (version p)) (NewNullAEAD Sum128 (opposite (perspective p)) (version p)) p pth lvl fs now rnd last.
Proof. intros Hh. apply matching_delivers; [by apply null_matches|]. unfold NewNullAEAD. by destruct (UsesTLS _). Qed.

Section Delivered.
Context (hkdf : list Z -> list Z -> list Z -> nat -> res (list Z)) (NewGCM : list Z -> res CipherAEAD).
Hypothesis stream : forall secret salt info n, (n <= 40)%nat -> exists s, hkdf secret salt info n = Ok s /\ length s = n.
Hypothesis cipher : forall key, length key = 16%nat -> exists c, NewGCM key = Ok c.
Hypothesis opens : forall key c nonce text ad, NewGCM key = Ok c -> cipher_Open c nonce (cipher_Seal c nonce text ad) ad = Ok text.
Hypothesis overhead : forall key c, NewGCM key = Ok c -> 0 <= cipher_Overhead c.

(** C9. With the keys that both ends derive from the same data, a packet of valid frames that either end builds is
    written exactly if it is not too large, and read by the other, if it has received packets recent enough to infer the
    number, as the frames that were sent: key and IV of one direction are those the peer opens with, also when they are
    diversified. *)
Theorem derived_packets_delivered forward secret nonces connID chlo scfg cert div p pth lvl fs now rnd last :
  packer_ok p pth -> fs <> [] ->
  payload_ok (PublicHeader.PacketNumber (getPublicHeader p lvl pth)) (PublicHeader.PacketNumberLen (getPublicHeader p lvl pth)) lvl now fs ->
  recent p pth lvl last ->
  exists own peer, DeriveQuicCryptoAESKeys hkdf NewGCM forward secret nonces connID chlo scfg cert div (perspective p) = Ok own
    /\ DeriveQuicCryptoAESKeys hkdf NewGCM forward secret nonces connID chlo scfg cert div (opposite (perspective p)) = Ok peer
    /\ delivered own peer p pth lvl fs now rnd last.
Proof using stream cipher opens overhead.
  intros Hok Hne Hfs Hrec.
  destruct (derived_match hkdf NewGCM stream cipher opens forward secret nonces connID chlo scfg cert div) as (ac & as_ & Ec & Es & Hcs & Hsc & (k1 & Hk1) & (k2 & Hk2)).
  destruct (perspective p) eqn:Ep; cbn [opposite]; eexists _, _; (split; [eassumption|]); (split; [eassumption|]); apply matching_delivers; (done || by eapply overhead).
Qed.
End Delivered.

(** ** Nonces *)

Lemma nonce_injective iv n m : 0 <= n < 2 ^ 64 -> 0 <= m < 2 ^ 64 -> aeadAESGCM12.makeNonce iv n = aeadAESGCM12.makeNonce iv m -> n = m.
Proof.
  intros Hn Hm E. unfold aeadAESGCM12.makeNonce in E. apply app_inv_head in E. rewrite <- (le_val_le_bytes_small 8 n), <- (le_val_le_bytes_small 8 m); [by rewrite E|done..].
Qed.

(** The text of a packet, as it was sealed: header, nonce and payload. *)
Definition sealed_as (c : CipherAEAD) (hdr nonce payload : list Z) : list Z := hdr ++ cipher_Seal c nonce payload hdr.

(** The packets that a path seals with one AEAD: each with its header, its frames and when it was written.  What the path
    has to be acknowledged and whether the handshake is complete may change in between. *)
Record sealed_packet : Type := MkSealed { header : PublicHeader.t; frames : list Frame; at_time : Z; bytes : list Z }.

Inductive sends (a : aeadAESGCM12.t) (p : Packer) (lvl : Z) : SendPath -> list sealed_packet -> SendPath -> Prop :=
| sends_nil pth : sends a p lvl pth [] pth
| sends_more pth least hs fs now rnd raw pth1 l pth2 :
    let pth0 := MkSendPath (pathID pth) least (generator pth) hs in
    let h := getPublicHeader p lvl pth0 in
    packer_ok p pth0 -> payload_ok (PublicHeader.PacketNumber h) (PublicHeader.PacketNumberLen h) lvl now fs ->
    writeAndSealPacket p h fs (AEAD_Seal (aeadAESGCM12.aead a)) pth0 now rnd = (Ok (Some raw), pth1) ->
    sends a p lvl pth1 l pth2 -> sends a p lvl pth (MkSealed h fs now raw :: l) pth2.

(** The packet is its header, and under this nonce its frames. *)
Definition sealed_under (a : aeadAESGCM12.t) (p : Packer) (pid : Z) (nonce : list Z) (x : sealed_packet) : Prop :=
  (PublicHeader.MultipathFlag (header x) = true -> PublicHeader.PathID (header x) = pid)
  /\ exists payload, write_frames (version p) (at_time x) (frames x) = wbytes payload
       /\ bytes x = sealed_as (aeadAESGCM12.encrypter a) (PublicHeader.header_bytes (header x) (version p) (perspective p)) nonce payload.

(** The generator has skipped no number yet. *)
Definition fresh_at (n : Z) (pth : SendPath) : Prop := exists period, generator pth = packetNumberGenerator.Mk period n 0.

Lemma fresh_advances pth rnd n : 1 <= n < 2 ^ 62 -> fresh_at n pth -> fresh_at (n + 1) (advanced pth rnd).
Proof.
  intros Hn [period E]. exists period. unfold advanced. cbn [generator]. rewrite E. unfold packetNumberGenerator.Pop.
  cbn [packetNumberGenerator.next packetNumberGenerator.nextToSkip packetNumberGenerator.averagePeriod].
  rewrite (u64_small (n + 1)) by lia. by rewrite (proj2 (Z.eqb_neq (n + 1) 0)) by lia.
Qed.

Lemma sends_numbered a p lvl pth l pth2 n :
  sends a p lvl pth l pth2 -> 1 <= n -> fresh_at n pth ->
  Forall2 (fun m x => m < 2 ^ 62 /\ sealed_under a p (pathID pth) (aeadAESGCM12.makeNonce (aeadAESGCM12.myIV a) m) x) (seqZ n (Z.of_nat (length l))) l.
Proof.
  intros H. revert n. induction H as [pth|pth least hs fs now rnd raw pth1 l pth2 pth0 h Hok Hfs E _ IH]; intros n Hn [period Eg]; [constructor|].
  destruct (written p (AEAD_Seal (aeadAESGCM12.aead a)) pth0 lvl fs now rnd Hok Hfs) as (pl & W & _ & X & _). fold h in X.
  rewrite X in E. destruct (u64 MaxPacketSize <? _); [done|]. injection E as <- <-.
  pose proof (ok_number _ _ Hok) as Hlt. unfold next_number in Hlt. cbn [generator pth0] in Hlt. rewrite Eg in Hlt. cbn [packetNumberGenerator.next] in Hlt.
  assert (PublicHeader.PacketNumber h = n) as Eh by (unfold h, pth0, getPublicHeader, packetNumberGenerator.Peek; cbn; by rewrite Eg).
  rewrite seqZ_cons by (cbn [length]; lia). constructor.
  - split; [lia|]. split; [unfold h, getPublicHeader; cbn [header PublicHeader.MultipathFlag PublicHeader.PathID]; by intros ->|].
    exists pl. split; [exact W|]. cbn [bytes]. by rewrite <- Eh.
  - cbn [length]. replace (Z.pred (Z.of_nat (S (length l)))) with (Z.of_nat (length l)) by lia. rewrite <- Z.add_1_r.
    apply (IH (n + 1)); [lia|]. apply fresh_advances; [lia|]. by exists period.
Qed.

(** C13. AES-GCM is used with the same key and nonce more than once: the nonce is the IV and the packet number, the keys
    are those of the connection, and every path numbers its packets 1, 2, 3 and so on by itself, so the n-th packets that
    two new paths seal are sealed under the same nonce.  Within such a path no nonce comes twice. *)
Theorem nonces_repeat_across_paths a p lvl period pth1 pth2 l1 l2 end1 end2 :
  generator pth1 = packetNumberGenerator.newPacketNumberGenerator period -> generator pth2 = packetNumberGenerator.newPacketNumberGenerator period ->
  sends a p lvl pth1 l1 end1 -> sends a p lvl pth2 l2 end2 ->
  let nonce (i : nat) := aeadAESGCM12.makeNonce (aeadAESGCM12.myIV a) (Z.of_nat i + 1) in
  (forall i x, l1 !! i = Some x -> sealed_under a p (pathID pth1) (nonce i) x)
  /\ (forall i x, l2 !! i = Some x -> sealed_under a p (pathID pth2) (nonce i) x)
  /\ (forall i j, (i < length l1)%nat -> (j < length l1)%nat -> nonce i = nonce j -> i = j).
Proof.
  intros G1 G2 S1 S2 nonce.
  pose proof (sends_numbered a p lvl pth1 l1 end1 1 S1 ltac:(lia) ltac:(by exists period)) as H1.
  pose proof (sends_numbered a p lvl pth2 l2 end2 1 S2 ltac:(lia) ltac:(by exists period)) as H2.
  assert (forall l pid i x, Forall2 (fun m x => m < 2 ^ 62 /\ sealed_under a p pid (aeadAESGCM12.makeNonce (aeadAESGCM12.myIV a) m) x) (seqZ 1 (Z.of_nat (length l))) l ->
    l !! i = Some x -> Z.of_nat i + 1 < 2 ^ 62 /\ sealed_under a p pid (nonce i) x) as Hall.
  { intros l pid i x H Hx. pose proof (lookup_lt_Some _ _ _ Hx).
    pose proof (Forall2_lookup_lr _ _ _ i (1 + Z.of_nat i) x H (lookup_seqZ_lt 1 (Z.of_nat (length l)) i ltac:(lia)) Hx) as Hs. by rewrite Z.add_comm in Hs. }
  split_and!.
  - intros i x Hx. by eapply Hall.
  - intros i x Hx. by eapply Hall.
  - intros i j Hi Hj E. destruct (lookup_lt_is_Some_2 l1 i Hi) as [x Hx], (lookup_lt_is_Some_2 l1 j Hj) as [y Hy].
    destruct (Hall l1 _ i x H1 Hx) as [Li _]. destruct (Hall l1 _ j y H1 Hy) as [Lj _]. apply nonce_injective in E; lia.
Qed.
