(* ===== verification/CryptoTLS.v ===== *)
(** * The crypto setup of TLS

    Models [internal/handshake/crypto_setup_tls.go] and the derivation of its keys
    ([internal/crypto/key_derivation.go]).  TLS itself is the package mint, a parameter: what its handshake
    ends with, the exporter of the connection and its expansion of secrets. *)

From stdpp Require Import base numbers list option strings gmap.
From S2P Require Import Prelude ByteOrder Protocol PublicHeader PacketUnpacker PacketPacker Handshake CryptoServer Aead AeadFacts.

Local Open Scope Z_scope.

(** [MintController] with [mint.HkdfExpandLabel] for its cipher suite. *)
Record MintController : Type := MkMint {
  Mint_Handshake : option string;                        (* the alert *)
  ComputeExporter : list Z -> res (list Z);
  HkdfExpandLabel : list Z -> string -> nat -> list Z;   (* secret, label, length *)
  KeyLen : nat;
  IvLen : nat;
}.

Definition clientExporterLabel : list Z := bytes_of_string "EXPORTER-QUIC client 1-RTT Secret".
Definition serverExporterLabel : list Z := bytes_of_string "EXPORTER-QUIC server 1-RTT Secret".

Section TLS.
Context (NewGCM : list Z -> res CipherAEAD).

Definition computeKeyAndIV (mc : MintController) (label : list Z) : res (list Z * list Z) :=
  secret ← ComputeExporter mc label;
  mret (HkdfExpandLabel mc secret "key" (KeyLen mc), HkdfExpandLabel mc secret "iv" (IvLen mc)).

Definition DeriveAESKeys (mc : MintController) (pers : Perspective) : res AEAD :=
  let '(myLabel, otherLabel) := if is_server pers then (serverExporterLabel, clientExporterLabel) else (clientExporterLabel, serverExporterLabel) in
  '(myKey, myIV) ← computeKeyAndIV mc myLabel;
  '(otherKey, otherIV) ← computeKeyAndIV mc otherLabel;
  aeadAESGCM.aead <$> aeadAESGCM.NewAEADAESGCM NewGCM otherKey myKey otherIV myIV.

End TLS.

Module cryptoSetupTLS.

Record t : Type := Mk {
  perspective : Perspective;
  nullAEAD : AEAD;
  aead : option AEAD;
  aeadChanged : list Z;
  aeadClosed : bool;
}.

Definition NewCryptoSetupTLS (nullAEAD : AEAD) (pers : Perspective) : t := Mk pers nullAEAD None [] false.

Definition errAlert (alert : string) : goerr := GoErr ("TLS handshake error: " +:+ alert).
Definition errNoSealer : goerr := GoErr "CryptoSetup: no sealer with encryption level".

(** Ends when the handshake of TLS has. *)
Definition HandleCryptoStream (NewGCM : list Z -> res CipherAEAD) (conn : MintController) (h : t) : res unit * t :=
  match Mint_Handshake conn with
  | Some alert => (Err (errAlert alert), h)
  | None =>
      match DeriveAESKeys NewGCM conn (perspective h) with
      | Ok a => (Ok tt, Mk (perspective h) (nullAEAD h) (Some a) (aeadChanged h ++ [EncryptionForwardSecure]) true)
      | Err e => (Err e, h)
      | Panic => (Panic, h)
      end
  end.

(** With keys, nothing is opened without them. *)
Definition Open (h : t) (src : list Z) (packetNumber : Z) (associatedData : list Z) : res (list Z * Z) :=
  match aead h with
  | Some a => data ← AEAD_Open a src packetNumber associatedData; mret (data, EncryptionForwardSecure)
  | None => data ← AEAD_Open (nullAEAD h) src packetNumber associatedData; mret (data, EncryptionUnencrypted)
  end.

Definition GetSealer (h : t) : Z * Sealer :=
  match aead h with
  | Some a => (EncryptionForwardSecure, AEAD_Seal a)
  | None => (EncryptionUnencrypted, AEAD_Seal (nullAEAD h))
  end.

Definition GetSealerWithEncryptionLevel (h : t) (encLevel : Z) : res Sealer :=
  if encLevel =? EncryptionUnencrypted then Ok (AEAD_Seal (nullAEAD h))
  else if encLevel =? EncryptionForwardSecure then match aead h with Some a => Ok (AEAD_Seal a) | None => Err errNoSealer end
  else Err errNoSealer.

Definition GetSealerForCryptoStream (h : t) : Z * Sealer := (EncryptionUnencrypted, AEAD_Seal (nullAEAD h)).

(** "diversification nonce not needed for TLS" *)
Definition DiversificationNonce (h : t) : res (list Z) := Panic.
Definition SetDiversificationNonce (h : t) (nonce : list Z) : res t := Panic.
End cryptoSetupTLS.

(** ** What it guarantees *)

Section Facts.
Context (NewGCM : list Z -> res CipherAEAD).
Hypothesis cipher : forall key, length key = 16%nat \/ length key = 32%nat -> exists c, NewGCM key = Ok c.
Hypothesis opens : forall key c nonce text ad, NewGCM key = Ok c -> cipher_Open c nonce (cipher_Seal c nonce text ad) ad = Ok text.

(** Both ends of a TLS connection export the same secrets; IVs have twelve bytes. *)
Definition same_connection (a b : MintController) : Prop :=
  (forall label, exists s, ComputeExporter a label = Ok s /\ ComputeExporter b label = Ok s)
  /\ (forall s l n, HkdfExpandLabel a s l n = HkdfExpandLabel b s l n) /\ (forall s l n, length (HkdfExpandLabel a s l n) = n)
  /\ (KeyLen a = 16%nat \/ KeyLen a = 32%nat) /\ KeyLen a = KeyLen b /\ IvLen a = 12%nat /\ IvLen b = 12%nat /\ Mint_Handshake a = None /\ Mint_Handshake b = None.

Lemma same_sym a b : same_connection a b -> same_connection b a.
Proof.
  intros (H1 & H2 & H3 & H0 & H4 & H5 & H6 & H7 & H8). split; [intros l; destruct (H1 l) as (s & ? & ?); by exists s|].
  split; [by intros|]. split; [intros; by rewrite <- H2|]. by rewrite <- H4.
Qed.

Lemma tls_derived a b p : same_connection a b ->
  exists x y, DeriveAESKeys NewGCM a p = Ok (aeadAESGCM.aead x) /\ DeriveAESKeys NewGCM b (opposite p) = Ok (aeadAESGCM.aead y)
    /\ matching (aeadAESGCM.aead x) (aeadAESGCM.aead y) /\ matching (aeadAESGCM.aead y) (aeadAESGCM.aead x).
Proof using cipher opens.
  intros (H1 & H2 & H3 & H0 & H4 & H5 & H6 & _). unfold DeriveAESKeys, computeKeyAndIV. rewrite is_server_opposite.
  set (mine := if is_server p then serverExporterLabel else clientExporterLabel). set (other := if is_server p then clientExporterLabel else serverExporterLabel).
  destruct (H1 mine) as (s1 & A1 & B1), (H1 other) as (s2 & A2 & B2).
  destruct (cipher (HkdfExpandLabel a s1 "key" (KeyLen a))) as [c1 C1]; [by rewrite H3|].
  destruct (cipher (HkdfExpandLabel a s2 "key" (KeyLen a))) as [c2 C2]; [by rewrite H3|].
  exists (aeadAESGCM.Mk (HkdfExpandLabel a s2 "iv" 12) (HkdfExpandLabel a s1 "iv" 12) c1 c2),
    (aeadAESGCM.Mk (HkdfExpandLabel a s1 "iv" 12) (HkdfExpandLabel a s2 "iv" 12) c2 c1).
  split; [|split; [|split; intros src n ad; by eapply opens]].
  - replace (if is_server p then (serverExporterLabel, clientExporterLabel) else (clientExporterLabel, serverExporterLabel)) with (mine, other) by (by destruct p).
    rewrite A1. cbn [mbind res_bind mret res_ret fmap res_fmap]. rewrite A2. cbn [mbind res_bind mret res_ret fmap res_fmap]. unfold aeadAESGCM.NewAEADAESGCM. rewrite H5, !H3. cbn [negb Nat.eqb orb aeadAESGCM.ivLen]. rewrite C1. cbn [mbind res_bind mret res_ret fmap res_fmap]. by rewrite C2.
  - replace (if negb (is_server p) then (serverExporterLabel, clientExporterLabel) else (clientExporterLabel, serverExporterLabel)) with (other, mine) by (by destruct p).
    rewrite B2. cbn [mbind res_bind mret res_ret fmap res_fmap]. rewrite B1. cbn [mbind res_bind mret res_ret fmap res_fmap]. unfold aeadAESGCM.NewAEADAESGCM. rewrite H6, <- !H2, <- H4, !H3. cbn [negb Nat.eqb orb aeadAESGCM.ivLen]. rewrite C2. cbn [mbind res_bind mret res_ret fmap res_fmap]. by rewrite C1.
Qed.

(** When the handshake of TLS is over on both sides, each opens what the other seals, at the highest level, and nothing that
    is sealed without keys but by chance; the crypto stream is still sealed without keys, so that the other side, once it
    has its keys, does not read it any more. *)
Theorem tls_setups_match a b null1 null2 p h1 h2 :
  same_connection a b -> h1 = cryptoSetupTLS.NewCryptoSetupTLS null1 p -> h2 = cryptoSetupTLS.NewCryptoSetupTLS null2 (opposite p) ->
  exists h1' h2', cryptoSetupTLS.HandleCryptoStream NewGCM a h1 = (Ok tt, h1') /\ cryptoSetupTLS.HandleCryptoStream NewGCM b h2 = (Ok tt, h2')
    /\ (forall src n ad, cryptoSetupTLS.Open h2' (Seal (cryptoSetupTLS.GetSealer h1').2 src n ad) n ad = Ok (src, EncryptionForwardSecure))
    /\ (forall src n ad, cryptoSetupTLS.Open h1' (Seal (cryptoSetupTLS.GetSealer h2').2 src n ad) n ad = Ok (src, EncryptionForwardSecure))
    /\ (forall src n ad, exists x, cryptoSetupTLS.aead h2' = Some x
          /\ cryptoSetupTLS.Open h2' (Seal (cryptoSetupTLS.GetSealerForCryptoStream h1').2 src n ad) n ad
             = (data ← AEAD_Open x (Seal (AEAD_Seal null1) src n ad) n ad; mret (data, EncryptionForwardSecure))).
Proof using cipher opens.
  intros Hs -> ->. destruct (tls_derived a b p Hs) as (x & y & E1 & E2 & M1 & M2). destruct Hs as (_ & _ & _ & _ & _ & _ & _ & A1 & A2).
  eexists _, _. unfold cryptoSetupTLS.HandleCryptoStream. rewrite A1, A2. cbn [cryptoSetupTLS.perspective cryptoSetupTLS.NewCryptoSetupTLS]. rewrite E1, E2.
  split; [reflexivity|]. split; [reflexivity|]. cbn [cryptoSetupTLS.GetSealer cryptoSetupTLS.aead snd]. split; [|split].
  - intros src n ad. unfold cryptoSetupTLS.Open. cbn [cryptoSetupTLS.aead]. by rewrite M1.
  - intros src n ad. unfold cryptoSetupTLS.Open. cbn [cryptoSetupTLS.aead]. by rewrite M2.
  - intros src n ad. eexists. split; reflexivity.
Qed.
End Facts.

(** A client of TLS takes the diversification nonce of a packet header before it opens the packet: the header of any packet
    can make it panic. *)
Lemma nonce_panics h nonce : cryptoSetupTLS.SetDiversificationNonce h nonce = Panic.
Proof. done. Qed.

(** ** Witness *)

Definition toy_mint : MintController :=
  MkMint None (fun label => Ok [Z.of_nat (length label)]) (fun s _ n => repeat (hd 0 s) n) 16 12.
Definition keyed_GCM (key : list Z) : res CipherAEAD :=
  Ok (MkCipher (fun nonce text _ => take 1 key ++ nonce ++ text) (fun nonce src _ => Ok (drop (length nonce) (drop (length (take 1 key)) src))) 13).

Lemma tls_setups_match_witness :
  exists h1' h2', cryptoSetupTLS.HandleCryptoStream keyed_GCM toy_mint (cryptoSetupTLS.NewCryptoSetupTLS nullAEADFNV64a.aead PerspectiveClient) = (Ok tt, h1')
    /\ cryptoSetupTLS.HandleCryptoStream keyed_GCM toy_mint (cryptoSetupTLS.NewCryptoSetupTLS nullAEADFNV64a.aead PerspectiveServer) = (Ok tt, h2')
    /\ cryptoSetupTLS.Open h2' (Seal (cryptoSetupTLS.GetSealer h1').2 [1; 2] 5 [3]) 5 [3] = Ok ([1; 2], EncryptionForwardSecure).
Proof.
  assert (forall key c nonce text ad, keyed_GCM key = Ok c -> cipher_Open c nonce (cipher_Seal c nonce text ad) ad = Ok text) as Ho.
  { intros key c nonce text ad [= <-]. cbn [cipher_Open cipher_Seal]. by rewrite !drop_app_length. }
  destruct (tls_setups_match keyed_GCM ltac:(intros key _; by eexists) Ho toy_mint toy_mint nullAEADFNV64a.aead nullAEADFNV64a.aead PerspectiveClient _ _
    ltac:(split_and!; [by eexists|done|by intros; apply repeat_length|by left|done..]) eq_refl eq_refl) as (h1' & h2' & E1 & E2 & H & _).
  exists h1', h2'. split; [exact E1|]. split; [exact E2|]. apply H.
Defined.
