(* ===== verification/Sending.v ===== *)
(** * Sending

    Models the sending loops of [scheduler.go] over the session: what is lost is queued again
    ([getRetransmission]), a path is selected, a packet is packed, sent and recorded
    ([performPacketSending] and its variants), and acknowledgements go out on the paths that were not
    used ([ackRemainingPaths]); with the accessors of [path.go] and the window updates of [session.go].

    The scheduler is threaded through the session's monad as a value: a call that ends with an error
    closes the session, which does not use the scheduler again.  [sendPacket] and its variants loop
    until there is nothing to send; a round of the loop is a definition, and the loop runs on fuel,
    with [None] for a loop that has not ended.  One call reads the clock once, and walks every map
    in the order of [map_to_list]. *)

From stdpp Require Import base numbers list option strings gmap.
From S2P Require Import Prelude ByteOrder Protocol AckFrame ClosePathFrame StreamFrame ControlFrames PublicHeader PacketUnpacker PacketPacker FlowControl FrameSorter GoFloat ReceivedPackets RttStats SentPackets Olia UtilityControl Scheduler Monitor StreamsMap GoSlice Stream StreamFramer PackPacket Session.

Local Open Scope Z_scope.
#[local] Notation "'do!' x ':=' m 'in' k" := (bind m (fun x => k)) (at level 10, x name, m at level 99, k at level 200).

Section Sending.
Context {C : Type} `{!SendAlgorithm C} (env : Env) (Pow : float -> float -> float).
Context (collecting : bool) (elapsed : float).     (* of the utility controller *)

Abbreviation unit := Datatypes.unit.
Abbreviation M := (Session.M (C := C)).
Abbreviation path := (Session.path (C := C)).
Abbreviation session := (Session.session (C := C)).

(** ** The scheduler *)

Record scheduler : Type := MkScheduler {
  quotas : gmap Z Z;
  names : switches;                        (* [SchedulerName] and the flags *)
  waiting : Z;
  lastpath : Z;
  mon : monitor;
  totalpacketnum : Z;
}.

(** [scheduler.setup], for a utility controller that was configured elsewhere. *)
Definition scheduler_setup (name : string) (uc : option UtilityController) : scheduler :=
  MkScheduler ∅ (MkSwitches name name false false) 0 1 (Monitor.setup uc) 0.

Definition with_quotas (sch : scheduler) (q : gmap Z Z) (w last : Z) : scheduler :=
  MkScheduler q (names sch) w last (mon sch) (totalpacketnum sch).
Definition with_monitor (sch : scheduler) (n : switches) (m : monitor) : scheduler :=
  MkScheduler (quotas sch) n (waiting sch) (lastpath sch) m (totalpacketnum sch).
Definition counted (sch : scheduler) : scheduler :=
  MkScheduler (quotas sch) (names sch) (waiting sch) (lastpath sch) (mon sch) (i64 (totalpacketnum sch + 1)).

(** What the selection and the monitor see of a path. *)
Definition view (p : path) : Scheduler.path (C := C) := Scheduler.MkPath (pathID p) (open p) (potentiallyFailed p) (sent p).
Definition views (s : session) : list (Scheduler.path (C := C)) := map (fun '(_, p) => view p) (map_to_list (paths s)).
Definition path_ids (s : session) : list Z := map fst (map_to_list (paths s)).

(** What the monitor did to the paths. *)
Definition put_views (ps : list (Scheduler.path (C := C))) (s : session) : session :=
  foldl (fun s v => set_paths s (alter (fun p => set_sent p (Scheduler.sentHandler v)) (Scheduler.pathID v) (paths s))) s ps.

(** ** Queues *)

Definition queue (f : Frame) (pid : Z) : M unit := modify (fun s => set_packer s (packetPacker.QueueControlFrame (packer s) f pid)).

(** A pointer that may be nil. *)
Definition queue_ack (a : option AckFrame.t) (pid : Z) : M unit :=
  match a with
  | Some a => queue (FAck a) pid
  | None => modify (fun s => set_packer s (packetPacker.set_acks (packer s) (packetPacker.stopWaiting (packer s)) (delete pid (packetPacker.ackFrame (packer s)))))
  end.
Definition queue_stop_waiting (f : option StopWaitingFrame.t) (pid : Z) : M unit :=
  match f with
  | Some f => queue (FStopWaiting f) pid
  | None => modify (fun s => set_packer s (packetPacker.set_acks (packer s) (delete pid (packetPacker.stopWaiting (packer s))) (packetPacker.ackFrame (packer s))))
  end.

(** [path.GetAckFrame] *)
Definition GetAckFrame (pid now : Z) : M (option AckFrame.t) :=
  do! pth := the_path pid in
  do! x := lift (receivedPacketHandler.GetAckFrame (rcvd pth) now) in
  do! _ := put_path (set_rcvd pth x.2 (lastRcvdPacketNumber pth) (largestRcvdPacketNumber pth)) in
  ret (option_map (fun a => AckFrame.Mk (pathID pth) (AckFrame.acked a) (AckFrame.PacketReceivedTime a) (AckFrame.DelayTime a)) x.1).

(** [path.GetStopWaitingFrame] *)
Definition GetStopWaitingFrame (pid : Z) (force : bool) : M (option StopWaitingFrame.t) :=
  do! pth := the_path pid in
  let '(f, h) := sentPacketHandler.GetStopWaitingFrame (sent pth) force in
  do! _ := put_path (set_sent pth h) in ret f.

(** [path.SetLeastUnacked] with the handler's [GetLeastUnacked], for every path. *)
Definition set_least_unacked : M unit :=
  modify (fun s => set_paths s ((fun p => set_numbers p (generator p) (sentPacketHandler.GetLeastUnacked (sent p))) <$> paths s)).

(** [session.getWindowUpdateFrames] *)
Definition getWindowUpdateFrames (force : bool) (now : Z) : M (list WindowUpdateFrame.t) :=
  do! first := the_path InitialPathID in
  do! s := get in
  let '(us, fl) := flowControlManager.GetWindowUpdates force (smoothed first) (map snd (map_to_list (remoteRTTs s))) now
                     (map fst (map_to_list (flowControlManager.streamFlowController (flow s)))) (flow s) in
  do! _ := modify (fun s => set_streams s (streamsMap_ s) fl) in
  ret (map (fun '(id, offset) => WindowUpdateFrame.Mk id offset) us).

(** ** Retransmissions *)

(** The first path, in the order of the walk, that has a packet to be sent again. *)
Fixpoint dequeue (ps : list (Z * path)) : option (Packet * path) :=
  match ps with
  | [] => None
  | (_, p) :: ps =>
      match sentPacketHandler.DequeuePacketForRetransmission (sent p) with
      | (Some pkt, h) => Some (pkt, set_sent p h)
      | (None, _) => dequeue ps
      end
  end.

(** A frame of a lost packet. *)
Definition requeue (pid now : Z) (f : Frame) : M unit :=
  match f with
  | FStream frame => modify (fun s => set_framer s (streamFramer.AddFrameForRetransmission (framer s) frame))
  | FWindowUpdate w => fun s =>
      match flowControlManager.GetReceiveWindow (flow s) (WindowUpdateFrame.StreamID w) with
      | Ok currentOffset => if currentOffset <=? WindowUpdateFrame.ByteOffset w then queue f pid s else ret tt s
      | _ => ret tt s
      end
  | FPaths _ => schedulePathsFrame now
  | f => queue f pid
  end.

(** The packets that wait on a path. *)
Definition waiting_packets (p : path) : list Packet := sentPacketHandler.retransmissionQueue (sentPacketHandler.inflight (sent p)).
Definition total_waiting (s : session) : nat := sum_list (map (fun '(_, p) => length (waiting_packets p)) (map_to_list (paths s))).

(** Whether there was a packet, a packet of the handshake, and the path of the last packet. *)
Fixpoint retransmission_loop (fuel : nat) (has : bool) (from : option Z) (now : Z) : M (bool * option Packet * option Z) := fun s =>
  match dequeue (map_to_list (paths s)) with
  | None => Some (Ok (has, None, from), s)
  | Some (pkt, p) =>
      match fuel with
      | O => None
      | S fuel =>
          (do! _ := put_path p in
           if negb (PktEncryptionLevel pkt =? EncryptionForwardSecure) then
             if handshakeComplete s then retransmission_loop fuel true (Some (pathID p)) now
             else ret (true, Some pkt, Some (pathID p))
           else
             do! _ := for_each (requeue (pathID p) now) (GetFramesForRetransmission pkt) in
             retransmission_loop fuel true (Some (pathID p)) now) s
      end
  end.

(** There are as many rounds as packets. *)
Definition getRetransmission (now : Z) : M (bool * option Packet * option Z) := fun s =>
  retransmission_loop (total_waiting s) false None now s.

(** ** Packets *)

(** A call of the packer that may open the crypto stream. *)
Definition packing : Type := packetPacker.t -> SendPath -> Z -> option Z -> option (res (option packetPacker.packedPacket) * (packetPacker.t * SendPath)).

Definition run_pack (pack : packing) (pid now : Z) : M (option packetPacker.packedPacket) :=
  do! pth := the_path pid in
  do! s := get in
  match pack (packer s) (send_path s pth) now (rnd env) with
  | None => fun _ => None
  | Some (r, (p, sp)) =>
      do! _ := modify (fun s => set_packer s p) in
      do! _ := put_path (set_numbers pth (PacketPacker.generator sp) (PacketPacker.leastUnacked sp)) in
      lift r
  end.

(** A call of the packer that returns a packet with an error. *)
Definition run_frames (pack : packetPacker.t -> SendPath -> Z -> option Z -> option packetPacker.packedPacket * option goerr * bool * (packetPacker.t * SendPath))
    (pid now : Z) : M (option packetPacker.packedPacket) :=
  do! pth := the_path pid in
  do! s := get in
  let '(packet, e, crashed, (p, sp)) := pack (packer s) (send_path s pth) now (rnd env) in
  do! _ := modify (fun s => set_packer s p) in
  do! _ := put_path (set_numbers pth (PacketPacker.generator sp) (PacketPacker.leastUnacked sp)) in
  if (crashed : bool) then panic else do! _ := check e in ret packet.

(** A nil packet is dereferenced. *)
Definition send_or_crash (packet : option packetPacker.packedPacket) (pid now : Z) : M unit :=
  match packet with Some packet => sendPackedPacket env packet pid true now | None => panic end.

(** What the four [performPacketSending] functions share: they differ in the call of the packer and in whether
    the packet is to be sent again when it is lost.  [None]: nothing was sent. *)
Definition perform (pack : packing) (needRetrans : bool) (sch : scheduler) (windowUpdateFrames : list WindowUpdateFrame.t) (pid now : Z)
  : M (scheduler * option Packet) :=
  do! pth := the_path pid in
  do! _ := (if sentPacketHandler.ShouldSendRetransmittablePacket (sent pth) then queue FPing pid else ret tt) in
  do! packet := run_pack pack pid now in
  match packet with
  | None => ret (sch, None)
  | Some packet =>
      do! _ := sendPackedPacket env packet pid needRetrans now in
      do! _ := for_each (fun f => queue (FWindowUpdate f) pid) windowUpdateFrames in
      ret (with_quotas sch (count_packet (quotas sch) pid) (waiting sch) (lastpath sch),
           Some (MkPacket (packetPacker.number packet) (packetPacker.frames packet) (Z.of_nat (length (default [] (packetPacker.raw packet))))
                   (packetPacker.encryptionLevel packet) 0 false))
  end.

Definition PackPacket (sch : scheduler) : packing :=
  packetPacker.PackPacket (crypto env) (params env) (IPriority env) (Monitor.lackbw (mon sch)) (maxIncoming env).
Definition PackPacketSTMS (gap : Z) : packing := packetPacker.PackPacketSTMS (crypto env) (params env) (maxIncoming env) gap.
Definition PackPacketRedundancy (sch : scheduler) (isfirst : bool) : packing :=
  packetPacker.PackPacketRedundancy (crypto env) (params env) (IPriority env) (Monitor.lackbw (mon sch)) (maxIncoming env) isfirst.

Definition performPacketSending (sch : scheduler) : list WindowUpdateFrame.t -> Z -> Z -> M (scheduler * option Packet) :=
  perform (PackPacket sch) true sch.
Definition performPacketSendingSTMS (gap : Z) (sch : scheduler) : list WindowUpdateFrame.t -> Z -> Z -> M (scheduler * option Packet) :=
  perform (PackPacketSTMS gap) true sch.
Definition performPacketSendingRedundancy (isfirst : bool) (sch : scheduler) : list WindowUpdateFrame.t -> Z -> Z -> M (scheduler * option Packet) :=
  perform (PackPacketRedundancy sch isfirst) isfirst sch.
Definition performPacketSendingRDDT (isfirst : bool) (sch : scheduler) : list WindowUpdateFrame.t -> Z -> Z -> M (scheduler * option Packet) :=
  perform (PackPacketRedundancy sch isfirst) true sch.

(** ** Paths that were not used *)

(** A round of the loop of [ackRemainingPaths]. *)
Definition ack_path (sch : scheduler) (windowUpdateFrames : list WindowUpdateFrame.t) (now pid : Z) : M unit :=
  do! ackTmp := GetAckFrame pid now in
  do! _ := for_each (fun f => queue (FWindowUpdate f) pid) windowUpdateFrames in
  match ackTmp, windowUpdateFrames with
  | None, [] => ret tt
  | _, _ =>
      if (pid =? InitialPathID) && negb (isSome ackTmp) then ret tt
      else
        do! swf := GetStopWaitingFrame pid false in
        do! _ := (match swf with Some _ => queue_stop_waiting swf pid | None => ret tt end) in
        do! _ := queue_ack ackTmp pid in
        do! packet := (match ackTmp with
                       | Some _ => run_frames (packetPacker.PackAckPacket (crypto env)) pid now
                       | None => run_pack (PackPacket sch) pid now
                       end) in
        send_or_crash packet pid now
  end.

Definition ackRemainingPaths (sch : scheduler) (totalWindowUpdateFrames : list WindowUpdateFrame.t) (now : Z) : M unit :=
  do! s := get in
  do! windowUpdateFrames := (match totalWindowUpdateFrames with [] => getWindowUpdateFrames (peerBlocked s) now | us => ret us end) in
  do! s := get in
  do! _ := for_each (ack_path sch windowUpdateFrames now) (path_ids s) in
  modify (fun s => set_status s false (closeErr s) (lastActivity s) (keepAlivePingSent s)).

(** ** Parts of the rounds *)

(** The monitor, with the signals of the utility controller. *)
Definition monitor_pass (sch : scheduler) (now : Z) : M scheduler :=
  do! s := get in
  let '(m, ps) := monitor_round Pow (mon sch) collecting (views s) (views s) (views s) now elapsed in
  do! _ := modify (put_views ps) in ret (with_monitor sch (names sch) m).

(** [len(str.dataForWriting)] *)
Definition unsent_of (str : stream.t) : Z := match stream.dataForWriting str with Some d => slice.len d | None => 0 end.

(** The data that waits on the open streams; [openStreams] is read up to the number of streams. *)
Fixpoint unsent_loop (m : streams_t) (n : nat) (ids : list Z) : res (list Z) :=
  match n with
  | O => Ok []
  | S n =>
      match ids with
      | id :: ids =>
          match streamsMap.streams m !! id with
          | Some str => l ← unsent_loop m n ids; mret (unsent_of str :: l)
          | None => Panic
          end
      | [] => Panic
      end
  end.
Definition unsent (m : streams_t) : res (list Z) := unsent_loop m (size (streamsMap.streams m)) (streamsMap.openStreams m).

Definition with_bandwidth (s : session) (sch : scheduler) : scheduler :=
  with_monitor sch (names sch) (isBandwidthEnough (mon sch) (Z.of_nat (size (paths s))) (totalpacketnum sch)).

(** The path a packet is sent on. *)
Definition choose (lens : list Z) (has hasStream : bool) (from : option Z) (sch : scheduler) : M (option Z * scheduler) :=
  do! s := get in
  let ps := views s in
  let '(r, st) := selectPath (MkView (params env) (flow s) lens ps) ps ps ps
      (MkSched (quotas sch) (Name (names sch)) (waiting sch)) has hasStream (from ≫= fun id => view <$> paths s !! id) in
  do! p := lift r in
  ret (Scheduler.pathID <$> p, with_quotas sch (Scheduler.quotas st) (Scheduler.waiting st) (lastpath sch)).

Definition chooseDispatch (has : bool) (sch : scheduler) : M (option Z * scheduler) :=
  do! s := get in
  let '(r, last) := selectPathDispatch (views s) (views s) (lastpath sch) has in
  do! p := lift r in
  ret (Scheduler.pathID <$> p, with_quotas sch (quotas sch) (waiting sch) last).

Definition chooseLowLatency (has hasStream : bool) (from : option Z) (sch : scheduler) : M (option Z * scheduler) :=
  do! s := get in
  let ps := views s in
  let '(r, q) := selectPathLowLatency ps ps ps (quotas sch) has hasStream (from ≫= fun id => view <$> paths s !! id) in
  do! p := lift r in
  ret (Scheduler.pathID <$> p, with_quotas sch q (waiting sch) (lastpath sch)).

(** A packet of the handshake is sent again. *)
Definition retransmit_handshake (pkt : Packet) (pid now : Z) : M unit :=
  do! swf := GetStopWaitingFrame pid true in
  do! _ := queue_stop_waiting swf pid in
  do! packet := run_frames (fun p => packetPacker.PackHandshakeRetransmission (crypto env) p (PktEncryptionLevel pkt) (Frames pkt)) pid now in
  send_or_crash packet pid now.

(** The loops that take the frames that wait in the framer; the path is not used to queue them. *)
Fixpoint pop_loop {A} (pop : streamFramer.t -> option A * streamFramer.t) (frame : A -> Frame) (fuel : nat) : M unit :=
  match fuel with
  | O => fun _ => None
  | S fuel =>
      do! s := get in
      let '(x, f) := pop (framer s) in
      do! _ := modify (fun s => set_framer s f) in
      match x with
      | None => ret tt
      | Some a => do! _ := queue (frame a) InitialPathID in pop_loop pop frame fuel
      end
  end.

Definition queue_special : M unit :=
  do! s := get in
  do! _ := pop_loop streamFramer.PopClosePathFrame FClosePath (S (length (streamFramer.closePathFrameQueue (framer s)))) in
  do! _ := pop_loop streamFramer.PopAddAddressFrame FAddAddress (S (length (streamFramer.addAddressFrameQueue (framer s)))) in
  pop_loop streamFramer.PopPathsFrame FPaths 2.

(** The acknowledgements of the path, when there are any. *)
Definition queue_acks (hasStream : bool) (pid now : Z) : M unit :=
  do! ack := GetAckFrame pid now in
  do! _ := (match ack with Some _ => queue_ack ack pid | None => ret tt end) in
  if isSome ack || hasStream then
    do! swf := GetStopWaitingFrame pid hasStream in
    match swf with Some _ => queue_stop_waiting swf pid | None => ret tt end
  else ret tt.

(** A packet on a path that was not measured yet is sent again on one that was used less. *)
Definition duplicate (sch : scheduler) (pid : Z) (pkt : Packet) : M unit :=
  do! pth := the_path pid in
  do! s := get in
  if (smoothed pth =? 0)
     && existsb (fun '(id, p) => negb (id =? InitialPathID) && negb (id =? pid) && (quota (quotas sch) id <? quota (quotas sch) pid)
                                 && sentPacketHandler.SendingAllowed (sent p)) (map_to_list (paths s))
  then put_path (set_sent pth (sentPacketHandler.DuplicatePacket (sent pth) pkt)) else ret tt.

(** The session's configuration, with the monitor's [lackbw]. *)
Definition env_of (sch : scheduler) : Env :=
  MkEnv (crypto env) (Open env) (SetDiversificationNonce env) (params env) (maxIncoming env) (maxOutgoing env) (IPriority env) (Monitor.lackbw (mon sch))
    (createPaths_ env) (localAddrs env) (addrString env) (conn_Write env) (rnd env).

Definition ping_failed (sch : scheduler) (from : option Z) (now : Z) : M unit :=
  match from with
  | Some id => do! p := the_path id in if potentiallyFailed p then sendPing (env_of sch) id now else ret tt
  | None => ret tt
  end.

(** ** [sendPacket] *)

(** What a round leaves: the scheduler, the window updates of the next packet, and whether there is another round. *)
Definition round : Type := scheduler * list WindowUpdateFrame.t * bool.

Definition finish_unused (sch : scheduler) (now : Z) : M round :=
  do! us := getWindowUpdateFrames false now in
  do! _ := ackRemainingPaths sch us now in ret (sch, [], false).

Definition send_on (send : scheduler -> list WindowUpdateFrame.t -> Z -> Z -> M (scheduler * option Packet)) (hasStream : bool) (from : option Z) (sch : scheduler) (us : list WindowUpdateFrame.t) (pid now : Z) : M round :=
  do! _ := queue_acks hasStream pid now in
  do! _ := queue_special in
  do! x := send sch us pid now in
  match x.2 with
  | None => do! _ := ackRemainingPaths x.1 [] now in ret (x.1, [], false)
  | Some pkt =>
      let sch := counted x.1 in
      do! _ := duplicate sch pid pkt in
      do! _ := ping_failed sch from now in ret (sch, [], true)
  end.

Definition sendPacket_round (sch : scheduler) (us : list WindowUpdateFrame.t) (now : Z) : M round :=
  do! sch := monitor_pass sch now in
  do! s := get in
  do! lens := lift (unsent (streamsMap_ s)) in
  let sch := with_bandwidth s sch in
  do! r := getRetransmission now in
  do! s := get in
  let hasStream := streamFramer.HasFramesForRetransmission (framer s) in
  do! x := choose lens r.1.1 hasStream r.2 sch in
  match x.1, r.1.2 with
  | None, _ => finish_unused x.2 now
  | Some pid, Some pkt => do! _ := retransmit_handshake pkt pid now in ret (x.2, us, true)
  | Some pid, None => send_on performPacketSending hasStream r.2 x.2 us pid now
  end.

Fixpoint rounds (step : scheduler -> list WindowUpdateFrame.t -> Z -> M round) (fuel : nat) (sch : scheduler) (us : list WindowUpdateFrame.t) (now : Z) : M scheduler :=
  match fuel with
  | O => fun _ => None
  | S fuel => do! x := step sch us now in if x.2 then rounds step fuel x.1.1 x.1.2 now else ret x.1.1
  end.

(** What every variant starts with: the path is nil when the window updates are queued. *)
Definition start_sending (now : Z) : M (list WindowUpdateFrame.t) :=
  do! us := getWindowUpdateFrames false now in
  do! _ := for_each (fun f => queue (FWindowUpdate f) InitialPathID) us in ret us.

Definition sendPacket (fuel : nat) (sch : scheduler) (now : Z) : M scheduler :=
  do! _ := set_least_unacked in
  do! s := get in
  let sch := with_monitor sch (isAtbegining (names sch) (views s)) (mon sch) in
  do! us := start_sending now in
  rounds sendPacket_round fuel sch us now.

(** ** [sendPacketSTMS] *)

(** The loop that counts packets of 1322 bytes. *)
Fixpoint needed_loop (fuel : nat) (left needed n : Z) : Z :=
  match fuel with
  | O => needed
  | S fuel => if (0 <? left - needed) && (0 <? n) then needed_loop fuel left (needed + 1322) (n - 1) else needed
  end.

(** What the path with one-way delay [owd0] can send before a packet of the next one arrives; the integer
    division panics on zero. *)
Definition computed_needed (left : Z) (i : nat) (owd0 owd1 : Z) : res Z :=
  if (i =? 0)%nat && (owd1 =? 0) then Ok left
  else if owd0 =? 0 then Panic
  else Ok (Z.min left (needed_loop (S (Z.to_nat left)) left 0 (Z.quot (owd1 - owd0) owd0))).

(** The gap of every path but the first, in the order of the one-way delays; the order ends with path 0. *)
Fixpoint gap_loop (owd : Z -> Z) (i : nat) (order : list Z) (left : Z) (gap : gmap Z Z) : res (gmap Z Z) :=
  match order with
  | inx :: ((inx1 :: _ :: _) as rest) =>
      needed ← computed_needed left i (owd inx) (owd inx1);
      let gap := <[inx1 := Z.max 0 (to_int64 (of_Z64 needed))]> gap in
      if (i =? 0)%nat && (owd inx1 =? 0) then mret gap
      else gap_loop owd (S i) rest (left - quota gap inx) gap
  | _ => mret gap
  end.

(** -2: no other path to wait for; -1: the first of several. *)
Definition gap_of (m : monitor) (order : list Z) (gap : gmap Z Z) (pid : Z) : Z :=
  let first := bool_decide (head order = Some pid) in
  if (first && (length order <? 3)%nat) || (owd_of m pid <=? 0) then -2
  else if first then -1
  else quota gap pid.

Definition sendPacketSTMS_round (sch : scheduler) (us : list WindowUpdateFrame.t) (now : Z) : M round :=
  do! sch := monitor_pass sch now in
  do! s := get in
  do! lens := lift (unsent (streamsMap_ s)) in
  let path_order := (orderPaths (owd_of (mon sch)) (views s)).1 in
  let sch := with_bandwidth s sch in
  do! gap := lift (gap_loop (owd_of (mon sch)) 0 path_order (foldr Z.add 0 lens) ∅) in
  do! r := getRetransmission now in
  do! s := get in
  let hasStream := streamFramer.HasFramesForRetransmission (framer s) in
  do! x := (if decide (Name (names sch) = "dispatch"%string) then chooseDispatch r.1.1 sch
            else choose lens r.1.1 hasStream r.2 sch) in
  match x.1, r.1.2 with
  | None, _ => finish_unused x.2 now
  | Some pid, Some pkt => do! _ := retransmit_handshake pkt pid now in ret (x.2, us, true)
  | Some pid, None => send_on (performPacketSendingSTMS (gap_of (mon x.2) path_order gap pid)) hasStream r.2 x.2 us pid now
  end.

Definition sendPacketSTMS (fuel : nat) (sch : scheduler) (now : Z) : M scheduler :=
  do! _ := set_least_unacked in
  do! us := start_sending now in
  rounds sendPacketSTMS_round fuel sch us now.

(** ** [sendPacketRedundancy] and [sendPacketRDDT] *)

(** The paths a packet is sent on: the chosen one first. *)
Definition redundant_paths (s : session) (first : option Z) : list Z :=
  let others := List.filter (fun id => negb (id =? InitialPathID) && bool_decide (Some id <> first))
                  (map fst (List.filter (fun '(_, p) => open p && sentPacketHandler.SendingAllowed (sent p)) (map_to_list (paths s)))) in
  let ps := match first with Some f => f :: others | None => others end in
  if (size (paths s) =? 1)%nat then ps ++ [InitialPathID] else ps.

(** The packet on one of the paths; [first]: the others repeat its frames. *)
Definition send_copy (rddt first hasStream : bool) (from : option Z) (sch : scheduler) (us : list WindowUpdateFrame.t) (pid now : Z) : M (scheduler * bool) :=
  do! _ := queue_acks hasStream pid now in
  do! x := (if rddt then performPacketSendingRDDT first sch us pid now else performPacketSendingRedundancy first sch us pid now) in
  do! _ := ping_failed x.1 from now in ret (x.1, isSome x.2).

Fixpoint send_copies (rddt first hasStream : bool) (from : option Z) (sch : scheduler) (us : list WindowUpdateFrame.t) (pids : list Z) (now : Z) : M (scheduler * bool) :=
  match pids with
  | [] => ret (sch, false)
  | pid :: pids =>
      do! x := send_copy rddt first hasStream from sch us pid now in
      do! y := send_copies rddt false hasStream from x.1 us pids now in
      ret (y.1, x.2 || y.2)
  end.

(** [rddt]: also the copies are sent again when they are lost.  The monitor records the paths after the
    choice, which does not read it. *)
Definition redundant_round (rddt : bool) (sch : scheduler) (us : list WindowUpdateFrame.t) (now : Z) : M round :=
  do! r := getRetransmission now in
  do! s := get in
  let hasStream := streamFramer.HasFramesForRetransmission (framer s) in
  do! x := chooseLowLatency r.1.1 hasStream r.2 sch in
  do! sch := monitor_pass x.2 now in
  match redundant_paths s x.1, r.1.2 with
  | [], _ => finish_unused sch now
  | first :: _, Some pkt =>
      do! _ := retransmit_handshake pkt (if (size (paths s) =? 1)%nat then InitialPathID else first) now in ret (sch, us, true)
  | pids, None =>
      do! _ := queue_special in
      do! y := send_copies rddt true hasStream r.2 sch us pids now in
      if (y.2 : bool) then ret (y.1, [], true)
      else do! _ := ackRemainingPaths y.1 [] now in ret (y.1, [], false)
  end.

Definition sendPacketRedundancy (fuel : nat) (sch : scheduler) (now : Z) : M scheduler :=
  do! _ := set_least_unacked in
  do! us := start_sending now in
  rounds (redundant_round false) fuel sch us now.

Definition sendPacketRDDT (fuel : nat) (sch : scheduler) (now : Z) : M scheduler :=
  do! _ := set_least_unacked in
  do! us := start_sending now in
  rounds (redundant_round true) fuel sch us now.

(** [session.sendPacket] *)
Definition session_sendPacket (fuel : nat) (sch : scheduler) (now : Z) : M scheduler :=
  let name := Name (names sch) in
  if bool_decide (name = "moooko"%string) || bool_decide (name = "dispatch"%string) then sendPacketSTMS fuel sch now
  else if decide (name = "redundancy"%string) then sendPacketRedundancy fuel sch now
  else if decide (name = "RDDT"%string) then sendPacketRDDT fuel sch now
  else sendPacket fuel sch now.
End Sending.
