(* ===== verification/SendingFacts.v ===== *)
(** * Sending: what holds of it

    Theorems about [Sending]: what was lost is queued again, once and completely; a packet that is
    sent is recorded as it has to be, and written once; when the gaps of the STMS scheduler are defined; and
    where the sending loops crash or ignore the congestion window. *)

From stdpp Require Import base numbers list option strings gmap.
From S2P Require Import Prelude ByteOrder Protocol AckFrame ClosePathFrame StreamFrame ControlFrames PublicHeader PacketUnpacker PacketPacker FlowControl FrameSorter GoFloat ReceivedPackets RttStats SentPackets Olia UtilityControl Scheduler Monitor StreamsMap GoSlice Stream StreamFramer PackPacket Session SessionSafety Sending.

Local Open Scope Z_scope.
#[local] Notation "'do!' x ':=' m 'in' k" := (bind m (fun x => k)) (at level 10, x name, m at level 99, k at level 200).

(** ** Frames that have to arrive *)

(** All but the acknowledgements and what belongs to them: later ones take their place. *)
Fixpoint lasting (fs : list Frame) : list Frame :=
  match fs with
  | [] => []
  | FAck _ :: fs | FStopWaiting _ :: fs => lasting fs
  | f :: fs => f :: lasting fs
  end.

Lemma strip_lasting fs : stripNonRetransmittableFrames fs = lasting fs.
Proof. induction fs as [|f fs IH]; [done|]. unfold stripNonRetransmittableFrames in *. cbn [List.filter]. destruct f; cbn [IsFrameRetransmittable lasting]; by rewrite IH. Qed.

Lemma resent_lasting pkt : GetFramesForRetransmission pkt = lasting (Frames pkt).
Proof. unfold GetFramesForRetransmission. induction (Frames pkt) as [|f fs IH]; [done|]. cbn [List.filter]. destruct f; cbn [lasting]; by rewrite IH. Qed.

(** Something besides data. *)
Definition more_than_data (fs : list Frame) : bool := existsb (fun f => match f with FStream _ => false | _ => true end) fs.

Lemma more_lasting fs : HasRetransmittableFramesForRed (lasting fs) = more_than_data (lasting fs).
Proof. unfold HasRetransmittableFramesForRed, more_than_data. induction fs as [|f fs IH]; [done|]. destruct f; cbn [lasting existsb IsFrameRetransmittableForRed]; by rewrite ?IH. Qed.

(** What is kept of a packet that was sent: what has to arrive, and of a copy only what is more than data. *)
Definition kept (needRetrans : bool) (n len lvl : Z) (fs : list Frame) (now : Z) : list Packet :=
  match lasting fs with
  | [] => []
  | l => if needRetrans || more_than_data l then [MkPacket n l len lvl now needRetrans] else []
  end.

Section Retransmission.
Context {C : Type} `{!SendAlgorithm C}.

Abbreviation path := (Session.path (C := C)).
Abbreviation session := (Session.session (C := C)).
Implicit Types (s : session) (p : path) (ps : gmap Z path).

(** The packets that wait to be sent again, on all paths. *)
Definition lost_on ps : list Packet := concat (map (fun '(_, p) => waiting_packets p) (map_to_list ps)).
Definition lost s : list Packet := lost_on (paths s).

Lemma lost_total s : total_waiting s = length (lost s).
Proof.
  unfold total_waiting, lost, lost_on. induction (map_to_list (paths s)) as [|[pid p] l IH]; [done|].
  cbn. by rewrite length_app, IH.
Qed.

Lemma lost_delete ps pid p : ps !! pid = Some p -> lost_on ps ≡ₚ waiting_packets p ++ lost_on (delete pid ps).
Proof.
  intros Hp. unfold lost_on. rewrite <- (map_to_list_delete ps pid p Hp). done.
Qed.

Lemma lost_insert ps pid p p' : ps !! pid = Some p ->
  waiting_packets p ++ lost_on (<[pid := p']> ps) ≡ₚ waiting_packets p' ++ lost_on ps.
Proof.
  intros Hp. rewrite (lost_delete ps pid p Hp), (lost_delete (<[pid := p']> ps) pid p') by apply lookup_insert_eq.
  rewrite delete_insert_eq. rewrite !app_assoc. by rewrite (Permutation_app_comm (waiting_packets p)).
Qed.

(** The walk takes the first packet of a path. *)
Lemma dequeue_spec l :
  (dequeue l = None /\ concat (map (fun '(_, p) => waiting_packets p) l) = [])
  \/ exists pid p pkt q h, (pid, p) ∈ l /\ waiting_packets p = pkt :: q /\ dequeue l = Some (pkt, set_sent p h)
       /\ waiting_packets (set_sent p h) = q /\ sentPacketHandler.DequeuePacketForRetransmission (sent p) = (Some pkt, h).
Proof.
  induction l as [|[pid p] l IH]; [by left|]. cbn [dequeue map concat].
  unfold sentPacketHandler.DequeuePacketForRetransmission at 1 2, waiting_packets at 1.
  destruct (sentPacketHandler.retransmissionQueue (sentPacketHandler.inflight (sent p))) as [|pkt q] eqn:E.
  - destruct IH as [[-> H]|(pid' & p' & pkt & q & h & Hin & Hrest)]; [by left|]. right.
    exists pid', p', pkt, q, h. split; [by right|done].
  - right. eexists pid, p, pkt, q, _. split; [left|]. split; [done|]. unfold sentPacketHandler.DequeuePacketForRetransmission. rewrite E. by split_and!.
Qed.

(** ** Frames that are queued again *)

(** What the paths look like to the peer, when it is told about them. *)
Definition announced s : list (Z * bool * Z) := map (fun '(pid, p) => (pid, potentiallyFailed p, smoothed p)) (map_to_list (paths s)).
(** The PATHS frame about them waits in the framer. *)
Definition announces_paths s (l : list (Z * bool * Z)) : Prop :=
  streamFramer.pathsFrame (framer s) = streamFramer.pathsFrame (streamFramer.AddPathsFrameForTransmission (framer s) l).

Definition stream_part (f : Frame) : list StreamFrame.t := match f with FStream f => [f] | _ => [] end.
Definition is_paths (f : Frame) : bool := match f with FPaths _ => true | _ => false end.

(** What the packer is to send again of a frame: a window update only if the window did not grow since; the framer has its
    data, and a PATHS frame is made anew. *)
Definition control_part (fl : flowControlManager.t) (f : Frame) : list Frame :=
  match f with
  | FStream _ | FPaths _ | FAck _ | FStopWaiting _ => []
  | FWindowUpdate w =>
      match flowControlManager.GetReceiveWindow fl (WindowUpdateFrame.StreamID w) with
      | Ok current => if current <=? WindowUpdateFrame.ByteOffset w then [f] else []
      | _ => []
      end
  | f => [f]
  end.

(** [s'] is [s] with these frames queued. *)
Record queued (s s' : session) (fs : list Frame) : Prop := {
  qd_paths : paths s' = paths s;
  qd_handshake : handshakeComplete s' = handshakeComplete s;
  qd_wrote : wrote s' = wrote s;
  qd_flow : flow s' = flow s;
  qd_stream : streamFramer.retransmissionQueue (framer s') = streamFramer.retransmissionQueue (framer s) ++ (fs ≫= stream_part);
  qd_control : packetPacker.controlFrames (packer s') = packetPacker.controlFrames (packer s) ++ (fs ≫= control_part (flow s));
  qd_none : existsb is_paths fs = false -> streamFramer.pathsFrame (framer s') = streamFramer.pathsFrame (framer s);
  qd_announced : existsb is_paths fs = true -> announces_paths s' (announced s);
}.

Lemma queued_refl s : queued s s [].
Proof. split; try done; by rewrite app_nil_r. Qed.

Lemma queued_trans s1 s2 s3 fs gs : queued s1 s2 fs -> queued s2 s3 gs -> queued s1 s3 (fs ++ gs).
Proof.
  intros [A1 A2 A3 A4 A5 A6 A7 A8] [B1 B2 B3 B4 B5 B6 B7 B8]. split; try congruence.
  - by rewrite B5, A5, bind_app, app_assoc.
  - by rewrite B6, A6, A4, bind_app, app_assoc.
  - rewrite existsb_app. intros [H1 H2]%orb_false_iff. by rewrite B7, A7.
  - rewrite existsb_app. destruct (existsb is_paths gs) eqn:E; intros H.
    + specialize (B8 eq_refl). unfold announced in *. by rewrite A1 in B8.
    + rewrite orb_false_r in H. specialize (A8 H). unfold announces_paths in *. rewrite (B7 eq_refl), A8. done.
Qed.

Lemma requeue_spec pid now f s : exists s', requeue pid now f s = Some (Ok tt, s') /\ queued s s' [f].
Proof.
  assert (forall s', paths s' = paths s -> handshakeComplete s' = handshakeComplete s -> wrote s' = wrote s -> framer s' = framer s ->
    is_paths f = false -> stream_part f = [] ->
    packetPacker.controlFrames (packer s') = packetPacker.controlFrames (packer s) ++ control_part (flow s) f -> queued s s' [f]) as Hq.
  { intros s' E1 E2 E3 E4 E5 E6 E7. split; try done; unfold flow; rewrite ?E4; cbn; rewrite ?E5, ?E6, ?app_nil_r; done. }
  destruct f as [fr|a|cc|g|sw|r|w|b| |ad|cp|pf]; cbn [requeue].
  all: try (eexists; split; [reflexivity|by apply Hq; rewrite ?app_nil_r]).
  - eexists. split; [reflexivity|]. split; try done. by rewrite app_nil_r.
  - cbn [control_part] in Hq. destruct (flowControlManager.GetReceiveWindow _ _) as [o|e|]; [destruct (o <=? _)|..]; eexists; (split; [reflexivity|]);
      by apply Hq; rewrite ?app_nil_r.
  - eexists. split; [reflexivity|]. split; try done; cbn; by rewrite app_nil_r.
Qed.

Lemma requeue_all pid now fs : forall s, exists s', for_each (requeue pid now) fs s = Some (Ok tt, s') /\ queued s s' fs.
Proof.
  induction fs as [|f fs IH]; intros s; [by exists s; split; [|apply queued_refl]|].
  destruct (requeue_spec pid now f s) as (s1 & E1 & Q1). destruct (IH s1) as (s2 & E2 & Q2).
  exists s2. split; [|by apply (queued_trans s s1 s2 [f])]. cbn [for_each]. unfold bind. by rewrite E1.
Qed.

(** ** The loop *)

Definition secure (pkt : Packet) : bool := PktEncryptionLevel pkt =? EncryptionForwardSecure.

(** The frames of the packets that are sent again frame by frame. *)
Definition secure_frames (pkts : list Packet) : list Frame := List.filter secure pkts ≫= (fun pkt => lasting (Frames pkt)).

(** What getRetransmission took from the queues of the paths, and what became of it. *)
Record requeued (s s' : session) (taken : list Packet) (hs : option Packet) (from : option Z) : Prop := {
  rq_lost : lost s ≡ₚ taken ++ option_list hs ++ lost s';
  rq_all : hs = None -> lost s' = [];
  rq_handshake : forall pkt, hs = Some pkt -> secure pkt = false /\ handshakeComplete s = false;
  rq_stream : streamFramer.retransmissionQueue (framer s') = streamFramer.retransmissionQueue (framer s) ++ (secure_frames taken ≫= stream_part);
  rq_control : packetPacker.controlFrames (packer s') = packetPacker.controlFrames (packer s) ++ (secure_frames taken ≫= control_part (flow s));
  rq_none : existsb is_paths (secure_frames taken) = false -> streamFramer.pathsFrame (framer s') = streamFramer.pathsFrame (framer s);
  rq_announced : existsb is_paths (secure_frames taken) = true -> exists l, l ≡ₚ announced s /\ announces_paths s' l;
  rq_taken : forall pkt, pkt ∈ taken -> secure pkt = true \/ handshakeComplete s = true;
  rq_wrote : wrote s' = wrote s;
  rq_from : taken ++ option_list hs <> [] -> exists pid, from = Some pid /\ is_Some (paths s !! pid);
}.

(** One packet leaves its queue. *)
Lemma taken_one s pid p pkt q h :
  paths s !! pid = Some p -> pathID p = pid -> waiting_packets p = pkt :: q -> waiting_packets (set_sent p h) = q ->
  lost s ≡ₚ pkt :: lost (set_paths s (<[pathID (set_sent p h) := set_sent p h]> (paths s))).
Proof.
  intros Hp Eid Hw Hq. change (pathID (set_sent p h)) with (pathID p). rewrite Eid.
  pose proof (lost_insert (paths s) pid p (set_sent p h) Hp) as H. rewrite Hw, Hq in H.
  apply (Permutation_app_inv_l q). rewrite <- H. cbn. by rewrite Permutation_middle.
Qed.

(** A packet was taken from a path: the rest of the session is as it was. *)
Lemma announced_taken s pid p pkt q :
  paths s !! pid = Some p -> pathID p = pid -> sentPacketHandler.DequeuePacketForRetransmission (sent p) = (Some pkt, q) ->
  announced (set_paths s (<[pid := set_sent p q]> (paths s))) ≡ₚ announced s.
Proof.
  intros Hp Eid E. unfold announced. cbn [paths set_paths].
  rewrite <- (map_to_list_delete (paths s) pid p Hp), <- (map_to_list_delete (<[pid := set_sent p q]> (paths s)) pid (set_sent p q)) by apply lookup_insert_eq.
  rewrite delete_insert_eq. cbn. assert (smoothed (set_sent p q) = smoothed p) as ->; [|done].
  unfold smoothed. cbn. revert E. unfold sentPacketHandler.DequeuePacketForRetransmission. destruct (sentPacketHandler.retransmissionQueue _); [done|]. by intros [= _ <-].
Qed.

(** A packet that was taken and whose frames were queued, before the rest of the loop. *)
Lemma requeued_cons s s1 s2 s' pkt taken hs from pid :
  lost s ≡ₚ pkt :: lost s1 -> announced s1 ≡ₚ announced s -> handshakeComplete s1 = handshakeComplete s -> wrote s1 = wrote s -> packer s1 = packer s ->
  queued s1 s2 (secure_frames [pkt]) -> (forall k, is_Some (paths s1 !! k) -> is_Some (paths s !! k)) ->
  is_Some (paths s !! pid) -> secure pkt = true \/ handshakeComplete s = true -> (taken ++ option_list hs = [] -> from = Some pid) -> requeued s2 s' taken hs from -> requeued s s' (pkt :: taken) hs from.
Proof.
  intros Hl Ha T1 T2 T3 [P1 P2 P3 P4 P5 P6 P7 P8] Hsub Hpid Hsec Hfrom [R1 R2 R3 R4 R5 R6 R7 R8 R9 R10].
  assert (secure_frames (pkt :: taken) = secure_frames [pkt] ++ secure_frames taken) as Ef.
  { unfold secure_frames. cbn [List.filter]. destruct (secure pkt); [|done]. cbn. by rewrite app_nil_r. }
  assert (framer s1 = framer s) as T4 by (unfold framer; by rewrite T3). assert (flow s1 = flow s) as T5 by (unfold flow; by rewrite T4).
  rewrite T5 in P4, P6. rewrite T3 in P6. rewrite T4 in P5, P7.
  split; rewrite ?Ef, ?bind_app, ?existsb_app.
  - rewrite Hl. cbn. apply perm_skip. rewrite <- R1. unfold lost. by rewrite P1.
  - done.
  - intros x Hx. rewrite <- T1, <- P2. by apply R3.
  - by rewrite R4, P5, app_assoc.
  - by rewrite R5, P6, P4, app_assoc.
  - intros [H1 H2]%orb_false_iff. by rewrite R6, P7.
  - assert (announced s2 = announced s1) as E2 by (unfold announced; by rewrite P1).
    destruct (existsb is_paths (secure_frames taken)) eqn:E; intros H.
    + destruct (R7 eq_refl) as (l & H1 & H2). exists l. by rewrite <- Ha, <- E2.
    + rewrite orb_false_r in H. exists (announced s1). split; [done|]. specialize (P8 H). unfold announces_paths in *. by rewrite (R6 eq_refl), P8.
  - intros x [->|Hx]%elem_of_cons; [done|]. rewrite <- T1, <- P2. by apply R8.
  - congruence.
  - intros _. destruct (taken ++ option_list hs) as [|x l] eqn:E; [exists pid; split; [by apply Hfrom|done]|].
    destruct R10 as (k & -> & Hk); [done|]. exists k. split; [done|]. apply Hsub. by rewrite <- P1.
Qed.

Lemma loop_spec now n : forall s has from, keyed (paths s) -> (length (lost s) <= n)%nat ->
  exists taken hs from' s', retransmission_loop n has from now s = Some (Ok (has || negb (bool_decide (taken ++ option_list hs = [])), hs, from'), s')
    /\ requeued s s' taken hs from' /\ (taken ++ option_list hs = [] -> from' = from).
Proof.
  induction n as [|n IH]; intros s has from Hk Hn; cbn [retransmission_loop];
    destruct (dequeue_spec (map_to_list (paths s))) as [[-> Hnil]|(pid & p & pkt & q & h & Hin & Hw & -> & Hq & Hd)].
  1,3: exists [], None, from, s; rewrite orb_false_r; split; [done|]; split; [|done]; split; try done;
    [by rewrite app_nil_r|by rewrite app_nil_r|intros x H; by apply elem_of_nil in H].
  all: apply elem_of_map_to_list in Hin; pose proof (taken_one s pid p pkt q h Hin (Hk _ _ Hin) Hw Hq) as Hl;
    pose proof (announced_taken s pid p pkt h Hin (Hk _ _ Hin) Hd) as Ha.
  { exfalso. apply Permutation_length in Hl. cbn in Hl. lia. }
  change (pathID (set_sent p h)) with (pathID p) in *. rewrite (Hk _ _ Hin) in Hl.
  set (s1 := set_paths s _) in Hl. assert (keyed (paths s1)) as Hk1 by (by apply (keyed_replace _ pid p)).
  assert (length (lost s1) <= n)%nat as Hn1 by (apply Permutation_length in Hl; cbn in Hl; lia).
  assert (forall k, is_Some (paths s1 !! k) -> is_Some (paths s !! k)) as Hsub.
  { intros k. cbn. destruct (decide (pid = k)) as [<-|Hne]; [by rewrite Hin|by rewrite lookup_insert_ne]. }
  assert (is_Some (paths s !! pid)) as Hpid by (by rewrite Hin).
  unfold bind at 1, put_path at 1, modify at 1. change (pathID (set_sent p h)) with (pathID p). rewrite (Hk _ _ Hin). fold s1. fold (secure pkt).
  destruct (secure pkt) eqn:Esec; cbn [negb].
  - destruct (requeue_all pid now (GetFramesForRetransmission pkt) s1) as (s2 & E2 & Q2).
    unfold bind at 1. rewrite E2. destruct (IH s2 true (Some pid)) as (taken & hs & from' & s' & E & R & Hf).
    { by rewrite (qd_paths _ _ _ Q2). } { unfold lost. by rewrite (qd_paths _ _ _ Q2). }
    exists (pkt :: taken), hs, from', s'. split; [by rewrite E, orb_true_r|]. split; [|done].
    apply (requeued_cons s s1 s2 s' pkt taken hs from' pid); try done; [|by left].
    unfold secure_frames. cbn [List.filter]. rewrite Esec. cbn. by rewrite app_nil_r, <- resent_lasting.
  - destruct (handshakeComplete s) eqn:Eh.
    + destruct (IH s1 true (Some pid)) as (taken & hs & from' & s' & E & R & Hf); [done..|].
      exists (pkt :: taken), hs, from', s'. split; [by rewrite E, orb_true_r|]. split; [|done].
      apply (requeued_cons s s1 s1 s' pkt taken hs from' pid); try done; [|by right]. unfold secure_frames. cbn. rewrite Esec. apply queued_refl.
    + exists [], (Some pkt), (Some pid), s1. split; [by rewrite orb_true_r|]. split; [|done]. split; try done.
      * by intros x [= <-].
      * by rewrite app_nil_r.
      * by rewrite app_nil_r.
      * by intros x ?%elem_of_nil.
      * intros _. by exists pid.
Qed.

End Retransmission.

(** ** Packets that are sent *)

Section Sent.
Context {C : Type} `{!SendAlgorithm C} (env : Env).

Abbreviation path := (Session.path (C := C)).
Abbreviation session := (Session.session (C := C)).
Implicit Types (s : session) (p : path).

Lemma bind_value {A B} (m : M (C := C) A) (k : A -> M B) s (b : B) s' :
  (do! a := m in k a) s = Some (Ok b, s') -> exists a s1, m s = Some (Ok a, s1) /\ k a s1 = Some (Ok b, s').
Proof. unfold bind. destruct (m s) as [[[a|e|] s1]|]; [|done..]. by exists a, s1. Qed.

Lemma bind_step {A B} (m : M (C := C) A) (k : A -> M B) s a s1 : m s = Some (Ok a, s1) -> (do! x := m in k x) s = k a s1.
Proof. unfold bind. by intros ->. Qed.

Lemma the_path_value s pid p s' : the_path pid s = Some (Ok p, s') -> paths s !! pid = Some p /\ s' = s.
Proof. unfold the_path. destruct (paths s !! pid) as [q|]; [|done]. by intros [= <- <-]. Qed.

Lemma sent_packet_spec (h h' : sentPacketHandler.t (C := C)) packet now :
  sentPacketHandler.SentPacket h packet now = (None, h') ->
  sentPacketHandler.lastSentPacketNumber h < PacketNumber packet
  /\ sentPacketHandler.lastSentPacketNumber h' = PacketNumber packet
  /\ sentPacketHandler.packetHistory (sentPacketHandler.inflight h')
     = sentPacketHandler.packetHistory (sentPacketHandler.inflight h)
       ++ kept (NeedRetrans packet) (PacketNumber packet) (Length packet) (PktEncryptionLevel packet) (Frames packet) now.
Proof.
  unfold sentPacketHandler.SentPacket. rewrite strip_lasting, (more_lasting (Frames packet)). unfold kept. destruct (Z.leb_spec (PacketNumber packet) (sentPacketHandler.lastSentPacketNumber h)); [done|].
  destruct (_ <? _); [done|]. intros [= <-]. split; [lia|]. 
  split; [done|]. cbn [sentPacketHandler.inflight sentPacketHandler.updateLossDetectionAlarm].
  destruct (lasting (Frames packet)) as [|f l]; [cbn; by rewrite app_nil_r|]. cbn [andb].
  destruct (NeedRetrans packet), (more_than_data (f :: l)); cbn; by rewrite ?app_nil_r.
Qed.

Lemma queue_updates us pid s : for_each (fun f => queue (FWindowUpdate f) pid) us s
  = Some (Ok tt, set_packer s (packetPacker.set_control (packer s) (packetPacker.controlFrames (packer s) ++ map FWindowUpdate us))).
Proof.
  revert s. induction us as [|u us IH]; intros s; [cbn; rewrite app_nil_r; by destruct s as [? ? ? ? ? ? []]|].
  cbn [for_each]. unfold bind. change (queue (FWindowUpdate u) pid s) with (Some (Ok tt, set_packer s (packetPacker.QueueControlFrame (packer s) (FWindowUpdate u) pid))).
  cbn iota beta. rewrite IH. cbn. by rewrite <- app_assoc.
Qed.

(** Packing does not touch what is in flight. *)
Lemma run_pack_spec pack pid now s x s' : run_pack env pack pid now s = Some (Ok x, s') ->
  exists p g least, paths s !! pid = Some p /\ paths s' = <[pathID p := set_numbers p g least]> (paths s) /\ wrote s' = wrote s.
Proof.
  unfold run_pack. intros (p & s1 & [Hp ->]%the_path_value & E)%bind_value. unfold bind at 1, get in E.
  destruct (pack (packer s) (send_path s p) now (rnd env)) as [[r [pk sp]]|]; [|done].
  unfold bind, modify, put_path, lift in E. injection E as _ <-. by eexists p, _, _.
Qed.

Lemma signal_value pid s s' : keyed (paths s) -> signal_sent pid s = Some (Ok tt, s') ->
  exists p, paths s !! pid = Some p /\ s' = set_paths s (<[pid := set_sentPacket p true]> (paths s)).
Proof.
  intros Hk. unfold signal_sent. destruct (paths s !! pid) as [p|] eqn:Hp; [|done]. destruct (_ && _); [done|]. intros [= <-]. exists p.
  cbn. by rewrite (Hk _ _ Hp).
Qed.

Lemma packed_packet_spec pkt pid b now s s' : keyed (paths s) -> sendPackedPacket env pkt pid b now s = Some (Ok tt, s') ->
  exists p h bytes, paths s !! pid = Some p /\ paths s' = <[pid := set_sentPacket (set_sent p h) true]> (paths s) /\ wrote s' = wrote s ++ [(pid, bytes)]
    /\ packetPacker.raw pkt = Some bytes
    /\ sentPacketHandler.SentPacket (sent p) (MkPacket (packetPacker.number pkt) (packetPacker.frames pkt) (Z.of_nat (length bytes)) (packetPacker.encryptionLevel pkt) 0 b) now = (None, h).
Proof.
  intros Hk. unfold sendPackedPacket. intros (p & s1 & [Hp ->]%the_path_value & E)%bind_value. cbn beta zeta in E.
  destruct (sentPacketHandler.SentPacket _ _ _) as [[e|] h] eqn:Es; apply bind_value in E as ([] & s2 & E2 & E);
    unfold put_path, modify in E2; injection E2 as <-; change (pathID (set_sent p h)) with (pathID p) in E; rewrite (Hk _ _ Hp) in E.
  { by unfold bind, lift in E; destruct (packetPacker.putPacketBuffer _). }
  apply bind_value in E as ([] & s3 & (q & Hq & ->)%signal_value & E); cycle 1.
  { by apply (keyed_replace _ pid p). }
  cbn in Hq. rewrite lookup_insert_eq in Hq. injection Hq as <-.
  unfold bind, modify, lift in E. destruct (packetPacker.raw pkt) as [bytes|]; [|done].
  exists p, h, bytes. cbn [default from_option] in *. split; [done|]. unfold packetPacker.putPacketBuffer, check in E. destruct (conn_Write _ _ _); [done|]. injection E as <-.
  split_and!; [|done..]. cbn. by rewrite insert_insert_eq.
Qed.

(** A path whose goroutine has ended takes one more signal; the packet after that blocks the session, which has recorded it
    but not written it. *)
Theorem ended_path_blocks pkt pid b now s p h : keyed (paths s) -> paths s !! pid = Some p -> open p = false ->
  sentPacketHandler.SentPacket (sent p) (MkPacket (packetPacker.number pkt) (packetPacker.frames pkt)
    (Z.of_nat (length (default [] (packetPacker.raw pkt)))) (packetPacker.encryptionLevel pkt) 0 b) now = (None, h) ->
  if sentPacket p then sendPackedPacket env pkt pid b now s = None
  else forall s', sendPackedPacket env pkt pid b now s = Some (Ok tt, s') -> exists p', paths s' !! pid = Some p' /\ open p' = false /\ sentPacket p' = true.
Proof.
  intros Hk Hp Ho Es. destruct (sentPacket p) eqn:Et.
  - unfold sendPackedPacket, bind at 1, the_path. rewrite Hp. cbn beta zeta. rewrite Es. unfold bind at 1, put_path, modify. unfold bind at 1, signal_sent.
    cbn [paths set_paths]. change (pathID (set_sent p h)) with (pathID p). rewrite (Hk _ _ Hp), lookup_insert_eq.
    change (sentPacket (set_sent p h)) with (sentPacket p). change (open (set_sent p h)) with (open p). by rewrite Et, Ho.
  - intros s' (q & h' & bytes & Hq & E & _)%packed_packet_spec; [|done]. rewrite Hp in Hq. injection Hq as <-. rewrite E, lookup_insert_eq.
    eexists. split; [reflexivity|]. by split.
Qed.

(** C27. A packet that one of the scheduler's [performPacketSending] functions sends is written once, on the chosen path
    and on no other; it is recorded there under a number larger than any before, with everything in it but
    acknowledgements, to be sent again if it is lost (of the copies of the redundancy scheduler only those are recorded
    that have more than data), and the path's quota counts it. *)
Theorem sent_packets_are_recorded pack needRetrans sch us pid now s sch' pkt s' :
  keyed (paths s) ->
  perform env pack needRetrans sch us pid now s = Some (Ok (sch', Some pkt), s') ->
  exists p p' bytes,
    paths s !! pid = Some p /\ paths s' !! pid = Some p' /\ (forall k, k <> pid -> paths s' !! k = paths s !! k)
    /\ wrote s' = wrote s ++ [(pid, bytes)] /\ Length pkt = Z.of_nat (length bytes)
    /\ sentPacketHandler.lastSentPacketNumber (sent p) < PacketNumber pkt
    /\ sentPacketHandler.lastSentPacketNumber (sent p') = PacketNumber pkt
    /\ sentPacketHandler.packetHistory (sentPacketHandler.inflight (sent p'))
       = sentPacketHandler.packetHistory (sentPacketHandler.inflight (sent p))
         ++ kept needRetrans (PacketNumber pkt) (Length pkt) (PktEncryptionLevel pkt) (Frames pkt) now
    /\ quotas sch' = count_packet (quotas sch) pid.
Proof.
  intros Hk. unfold perform.
  intros (p & s0 & [Hp ->]%the_path_value & (? & s1 & E1 & (pk & s2 & E2 & E3)%bind_value)%bind_value)%bind_value.
  assert (paths s1 = paths s /\ wrote s1 = wrote s) as [P1 W1] by (destruct (sentPacketHandler.ShouldSendRetransmittablePacket _); by injection E1 as _ <-).
  apply run_pack_spec in E2 as (p1 & g & least & Hp1 & P2 & W2). rewrite P1, Hp in Hp1. injection Hp1 as <-.
  destruct pk as [pk|]; [|done]. apply bind_value in E3 as ([] & s3 & E3 & E4).
  rewrite (Hk _ _ Hp), P1 in P2.
  apply packed_packet_spec in E3 as (p3 & h & bytes & Hp3 & P3 & W3 & Eraw & Es); cycle 1.
  { rewrite P2. by apply (keyed_replace _ pid p). }
  unfold bind in E4. rewrite queue_updates in E4. injection E4 as <- <- <-.
  rewrite P2, lookup_insert_eq in Hp3. injection Hp3 as <-. rewrite Eraw in *. cbn [default from_option Length PacketNumber Frames PktEncryptionLevel] in *.
  apply sent_packet_spec in Es as (H1 & H2 & H3).
  exists p, (set_sentPacket (set_sent (set_numbers p g least) h) true), bytes. cbn [paths set_packer wrote]. split_and!; try done.
  - by rewrite P3, lookup_insert_eq.
  - intros k Hne. by rewrite P3, lookup_insert_ne, P2, lookup_insert_ne.
  - by rewrite W3, W2, W1.
Qed.
(** The public header of a packet can always be written. *)
Lemma header_length_defined (b : Packer) lvl sp : exists n, PublicHeader.GetLength (getPublicHeader b lvl sp) (PacketPacker.perspective b) = Ok n.
Proof.
  assert (GetPacketNumberLengthForPublicHeader (packetNumberGenerator.Peek (PacketPacker.generator sp)) (PacketPacker.leastUnacked sp) ∈ [2; 4; 6]) as Hl.
  { unfold GetPacketNumberLengthForPublicHeader. repeat case_match; set_solver. }
  unfold PublicHeader.GetLength, getPublicHeader. cbn [PublicHeader.VersionFlag PublicHeader.ResetFlag PublicHeader.PacketNumberLen].
  rewrite andb_false_r. destruct (is_server _) eqn:Es; cbn [negb andb].
  all: repeat (apply elem_of_cons in Hl as [->|Hl]; [rewrite ?andb_false_r, ?andb_true_r; cbn; by eexists|]); by apply elem_of_nil in Hl.
Qed.

(** A PING is first in line and a STOP_WAITING frame waits: nothing is packed, and the PING is gone. *)
Lemma ping_packs_nothing (ip lb : bool) n (p : packetPacker.t) sp now rd cs :
  streamFramer.HasCryptoStreamFrame n (packetPacker.framer p) = Some (Ok false, packetPacker.framer p) ->
  packetPacker.controlFrames p = FPing :: cs -> is_Some (packetPacker.stopWaiting p !! PacketPacker.pathID sp) ->
  exists p' : packetPacker.t, packetPacker.PackPacket (crypto env) (params env) ip lb n p sp now rd = Some (Ok None, (p', sp)) /\ packetPacker.controlFrames p' = cs.
Proof.
  intros Hc Hp Hs. unfold packetPacker.PackPacket, packetPacker.pack_with. rewrite Hc.
  destruct (packetPacker.GetSealer (crypto env)) as [lvl sealer]. cbv zeta.
  destruct (header_length_defined (packetPacker.base p) lvl sp) as [len El].
  match goal with |- context [PublicHeader.GetLength ?h ?v] => replace (PublicHeader.GetLength h v) with (Ok len) by (symmetry; exact El) end.
  cbn [packetPacker.controlFrames packetPacker.number_stop_waiting packetPacker.set_acks packetPacker.set_framer]. rewrite Hp.
  cbn [packetPacker.isPing take drop]. rewrite take_0, drop_0. cbn [or_panic length Nat.eqb andb packetPacker.stopWaiting packetPacker.set_control].
  rewrite bool_decide_true; [by eexists|]. by apply lookup_alter_is_Some.
Qed.

(** A PING that waits first in line (it was queued to keep the connection alive, say) crashes the
    session: when window updates are due on a path whose own acknowledgements are not, and a STOP_WAITING frame
    is, [ackRemainingPaths] packs nothing for the path and dereferences the nil packet. *)
Theorem nil_packet_crashes sch us now pid s p rc f h cs :
  paths s !! pid = Some p -> pathID p = pid -> pid <> InitialPathID -> us <> [] ->
  receivedPacketHandler.GetAckFrame (rcvd p) now = Ok (None, rc) ->
  sentPacketHandler.GetStopWaitingFrame (sent p) false = (Some f, h) ->
  packetPacker.controlFrames (packer s) = FPing :: cs ->
  streamFramer.HasCryptoStreamFrame (maxIncoming env) (framer s) = Some (Ok false, framer s) ->
  exists s', ack_path env sch us now pid s = Some (Panic, s').
Proof.
  intros Hp Eid Hne Hus Hack Hstop Hping Hcr. unfold ack_path.
  set (p1 := set_rcvd p rc (lastRcvdPacketNumber p) (largestRcvdPacketNumber p)).
  rewrite (bind_step _ _ _ None (set_paths s (<[pid := p1]> (paths s)))); cycle 1.
  { unfold GetAckFrame, bind, the_path. rewrite Hp, Hack. cbn. by rewrite Eid. }
  set (s1 := set_paths s _). rewrite (bind_step _ _ _ tt _ (queue_updates us pid s1)). set (s2 := set_packer s1 _).
  assert (paths s2 !! pid = Some p1) as Hp1 by apply lookup_insert_eq.
  destruct us as [|u us]; [done|]. apply Z.eqb_neq in Hne. rewrite Hne. cbn [andb isSome negb].
  rewrite (bind_step _ _ _ (Some f) (set_paths s2 (<[pid := set_sent p1 h]> (paths s2)))); cycle 1.
  { unfold GetStopWaitingFrame, bind, the_path. rewrite Hp1. change (sent p1) with (sent p). rewrite Hstop. unfold put_path, modify, ret.
    change (pathID (set_sent p1 h)) with (pathID p). by rewrite Eid. }
  set (s3 := set_paths s2 _). unfold queue_stop_waiting, queue, queue_ack, modify. do 2 (rewrite (bind_step _ _ _ tt _ eq_refl)). set (s5 := set_packer _ _).
  assert (paths s5 !! pid = Some (set_sent p1 h)) as Hp5 by apply lookup_insert_eq.
  destruct (ping_packs_nothing (IPriority env) (Monitor.lackbw (mon sch)) (maxIncoming env) (packer s5) (send_path s5 (set_sent p1 h)) now (rnd env)
    (cs ++ map FWindowUpdate (u :: us))) as (pk & Epk & _); [exact Hcr|cbn; by rewrite Hping| |].
  { cbn. rewrite Eid. rewrite lookup_insert_eq. by eexists. }
  unfold run_pack, bind, the_path at 1. rewrite Hp5. unfold get. unfold PackPacket at 1. rewrite Epk. by eexists.
Qed.
End Sent.

(** ** The gaps of the STMS scheduler *)

Section Gaps.
Context {C : Type} `{!SendAlgorithm C} (owd : Z -> Z).

Lemma computed_fails left i d0 d1 : computed_needed left i d0 d1 = Panic \/ exists n, computed_needed left i d0 d1 = Ok n.
Proof. unfold computed_needed. repeat case_match; eauto. Qed.

Lemma computed_defined left i d0 d1 : d0 <> 0 -> exists n, computed_needed left i d0 d1 = Ok n.
Proof. intros H. unfold computed_needed. apply Z.eqb_neq in H. rewrite H. case_match; eauto. Qed.

Definition measured (ids : list Z) : list Z := List.filter (fun id => negb (owd id =? 0)) ids.
Definition unmeasured (ids : list Z) : list Z := List.filter (fun id => owd id =? 0) ids.

(** The slower paths last, those without a delay after them. *)
Lemma split_measured l :
  (forall a b x y, (a < b)%nat -> l !! a = Some x -> l !! b = Some y -> owd y = 0 \/ (owd x <> 0 /\ owd x <= owd y)) ->
  l = measured l ++ unmeasured l.
Proof.
  induction l as [|x l IH]; intros H; [done|]. unfold measured, unmeasured. cbn [List.filter].
  assert (l = measured l ++ unmeasured l) as E by (apply IH; intros a b y z Hab Hy Hz; by apply (H (S a) (S b)); [lia|..]).
  destruct (Z.eqb_spec (owd x) 0) as [Hx|Hx]; cbn; [|by f_equal].
  assert (measured l = []) as Hm; [|by unfold measured in *; rewrite Hm in *; cbn in *; f_equal].
  apply filter_none. intros y Hy. apply negb_false_iff, Z.eqb_eq. apply list_elem_of_lookup in Hy as [b Hb].
  destruct (H 0%nat (S b) x y ltac:(lia) eq_refl Hb) as [|[]]; done.
Qed.

Lemma length_filter_perm (P : Z -> bool) l l' : l ≡ₚ l' -> length (List.filter P l) = length (List.filter P l').
Proof. induction 1 as [|x l l' _ IH|x y l|l1 l2 l3 _ IH1 _ IH2]; cbn; repeat case_match; cbn; congruence. Qed.

Definition gap_outcome (r : res (gmap Z Z)) (crashes : Prop) : Prop :=
  (r = Panic /\ crashes) \/ (exists gap, r = Ok gap /\ forall id, 0 <= quota gap id) /\ ~ crashes.

Lemma gap_positive (gap : gmap Z Z) k v : (forall id, 0 <= quota gap id) -> 0 <= v -> forall id, 0 <= quota (<[k := v]> gap) id.
Proof. intros H Hv id. unfold quota. destruct (decide (k = id)) as [<-|]; [by rewrite lookup_insert_eq|rewrite lookup_insert_ne by done; apply H]. Qed.

(** A step of the loop that is defined. *)
Lemma gap_step i x y z l left gap : owd x <> 0 ->
  exists v, 0 <= v /\ gap_loop owd i (x :: y :: z :: l) left gap
    = if (i =? 0)%nat && (owd y =? 0) then Ok (<[y := v]> gap) else gap_loop owd (S i) (y :: z :: l) (left - quota (<[y := v]> gap) x) (<[y := v]> gap).
Proof.
  intros Hx. destruct (computed_defined left i (owd x) (owd y) Hx) as [n En].
  exists (Z.max 0 (to_int64 (of_Z64 n))). split; [lia|]. cbn [gap_loop]. by rewrite En.
Qed.

Lemma gap_ends i x l left gap : (length l <= 1)%nat -> gap_loop owd i (x :: l) left gap = Ok gap.
Proof. destruct l as [|y [|z l]]; [done..|cbn; lia]. Qed.

Lemma short_tail (m u : list Z) x y : m ++ u ++ [x] = [y] -> u = [].
Proof. intros E%(f_equal length). rewrite !length_app in E. destruct u; [done|cbn in E; lia]. Qed.

(** Behind the first position. *)
Lemma gap_rest m u : forall i left gap, Forall (fun id => owd id <> 0) m -> Forall (fun id => owd id = 0) u -> (forall id, 0 <= quota gap id) ->
  gap_outcome (gap_loop owd (S i) (m ++ u ++ [InitialPathID]) left gap) (2 <= length u)%nat.
Proof.
  induction m as [|x m IH]; intros i left gap Hm Hu Hg.
  - destruct u as [|x [|y u]]; cbn [app].
    + right. split; [by exists gap|cbn; lia].
    + right. split; [by exists gap|cbn; lia].
    + left. split; [|cbn; lia]. apply Forall_cons_1 in Hu as [Hx _].
      destruct (u ++ [InitialPathID]) as [|z l] eqn:E; [by destruct u|]. cbn [gap_loop]. unfold computed_needed. by rewrite Hx.
  - apply Forall_cons_1 in Hm as [Hx Hm]. cbn [app]. destruct (m ++ u ++ [InitialPathID]) as [|y [|z l]] eqn:E.
    + by destruct m, u.
    + rewrite gap_ends by (cbn; lia). assert (u = []) as -> by (by eapply short_tail). right. split; [by exists gap|cbn; lia].
    + destruct (gap_step (S i) x y z l left gap Hx) as (v & Hv & ->). cbn [Nat.eqb andb].
      apply IH; try done. by apply gap_positive.
Qed.

Lemma gap_all m u left : Forall (fun id => owd id <> 0) m -> Forall (fun id => owd id = 0) u ->
  gap_outcome (gap_loop owd 0 (m ++ u ++ [InitialPathID]) left ∅) (2 <= length m /\ 2 <= length u)%nat.
Proof.
  intros Hm Hu. assert (forall id, 0 <= quota ∅ id) as H0 by (intros id; unfold quota; by rewrite lookup_empty).
  destruct m as [|x m]; cbn [app].
  - right. split; [|cbn; lia]. destruct u as [|x [|y u]]; [by exists ∅..|]. cbn [app].
    destruct (u ++ [InitialPathID]) as [|z l] eqn:E; [by destruct u|]. apply Forall_cons_1 in Hu as [_ [Hy _]%Forall_cons_1].
    cbn [gap_loop]. unfold computed_needed. rewrite Hy. cbn. eexists. split; [done|]. apply gap_positive; [done|lia].
  - apply Forall_cons_1 in Hm as [Hx Hm]. destruct (m ++ u ++ [InitialPathID]) as [|y [|z l]] eqn:E.
    + by destruct m, u.
    + rewrite gap_ends by (cbn; lia). assert (u = []) as -> by (by eapply short_tail). right. split; [by exists ∅|cbn; lia].
    + destruct (gap_step 0 x y z l left ∅ Hx) as (v & Hv & ->). destruct m as [|y' m].
      * right. split; [|cbn; lia]. destruct u as [|y' u]; [done|]. apply Forall_cons_1 in Hu as [Hy _]. injection E as -> _.
        rewrite Hy. cbn. eexists. split; [done|]. by apply gap_positive.
      * injection E as -> E. apply Forall_cons_1 in Hm as [Hy Hm]. apply Z.eqb_neq in Hy as Hy'. rewrite Hy'. cbn [Nat.eqb andb]. rewrite <- E.
        destruct (gap_rest (y :: m) u 0 (left - quota (<[y := v]> ∅) x) (<[y := v]> ∅)) as [[Ec Hc]|[Hok Hn]]; [by constructor|done|by apply gap_positive| |].
        { left. split; [exact Ec|cbn; lia]. } { right. split; [exact Hok|cbn; lia]. }
Qed.

(** The gaps of the STMS scheduler are defined and not negative for every number of paths and every
    delay, except when at least two paths have a measured delay and at least two do not: then the
    scheduler divides by the delay of a path that was not measured, which panics. *)
Theorem gaps_divide_by_zero (order : list (Scheduler.path (C := C))) left :
  (forall id, owd id < 2 ^ 63) ->
  let ids := List.filter (fun id => negb (id =? InitialPathID)) (map Scheduler.pathID order) in
  let r := gap_loop owd 0 (orderPaths owd order).1 left ∅ in
  (r = Panic <-> (2 <= length (measured ids) /\ 2 <= length (unmeasured ids))%nat)
  /\ (r <> Panic -> exists gap, r = Ok gap /\ forall id, 0 <= quota gap id).
Proof.
  intros Howd ids r. destruct (paths_sorted owd Howd order) as (l & m & E & Hp & Hs). subst r. rewrite E. cbn [fst].
  fold ids in Hp. apply split_measured in Hs. rewrite Hs, <- app_assoc.
  assert (length (measured l) = length (measured ids)) as <- by (by apply length_filter_perm).
  assert (length (unmeasured l) = length (unmeasured ids)) as <- by (by apply length_filter_perm).
  destruct (gap_all (measured l) (unmeasured l) left) as [[-> H]|[(gap & -> & Hg) H]].
  - unfold measured. apply Forall_forall. intros x [_ Hx]%list_elem_of_In%filter_In. by apply negb_true_iff, Z.eqb_neq in Hx.
  - unfold unmeasured. apply Forall_forall. intros x [_ Hx]%list_elem_of_In%filter_In. by apply Z.eqb_eq in Hx.
  - split; [by split|done].
  - split; [by split|]. intros _. by exists gap.
Qed.
End Gaps.

(** ** A single path *)

Section SinglePath.
Context {C : Type} `{!SendAlgorithm C} (env : Env).

Abbreviation path := (Session.path (C := C)).
Abbreviation session := (Session.session (C := C)).
Implicit Types (s : session) (p : path).

Lemma single_views s p : paths s = {[InitialPathID := p]} -> views s = [view p].
Proof. intros E. unfold views. by rewrite E, map_to_list_singleton. Qed.

Lemma only_path_blocked p : pathID p = InitialPathID -> Scheduler.SendingAllowed (view p) = false -> only_path [view p] false = Ok None.
Proof. intros Eid Hb. unfold only_path, path_at. cbn [List.find view Scheduler.pathID]. rewrite Eid. cbn. change (Scheduler.MkPath _ _ _ _) with (view p). by rewrite Hb. Qed.

(** When the window of the only path is full and nothing is to be sent again, every scheduler that
    chooses a path chooses none; but the redundancy schedulers send on it all the same, for they add
    the only path to those they chose without asking whether it may send: until they run out of data
    they ignore congestion control. *)
Theorem single_path_ignores_window s p lens hasStream sch :
  paths s = {[InitialPathID := p]} -> pathID p = InitialPathID -> Scheduler.SendingAllowed (view p) = false ->
  (exists sch', choose env lens false hasStream None sch s = Some (Ok (None, sch'), s))
  /\ (exists sch', chooseDispatch false sch s = Some (Ok (None, sch'), s))
  /\ (exists sch', chooseLowLatency false hasStream None sch s = Some (Ok (None, sch'), s))
  /\ redundant_paths s None = [InitialPathID].
Proof.
  intros E Eid Hb. pose proof (single_views s p E) as Ev. pose proof (only_path_blocked p Eid Hb) as Eo. split_and!.
  - unfold choose, bind, get. cbn beta iota zeta. rewrite Ev.
    match goal with |- context [selectPath ?v ?a ?b ?c ?d ?e ?f ?g] => assert (exists st, selectPath v a b c d e f g = (Ok None, st)) as [st ->] end; [|by eexists].
    unfold selectPath, selectPathLowLatency, selectPathRoundRobin, selectBLEST, selectECF. cbn [vpaths length Nat.leb]. rewrite Eo.
    repeat case_decide; try (by eexists). destruct (flt _ _); by eexists.
  - unfold chooseDispatch, bind, get. cbn beta iota zeta. rewrite Ev. unfold selectPathDispatch. cbn [length Nat.leb]. rewrite Eo. by eexists.
  - unfold chooseLowLatency, bind, get. cbn beta iota zeta. rewrite Ev. unfold selectPathLowLatency. cbn [length Nat.leb]. rewrite Eo. by eexists.
  - unfold redundant_paths. rewrite E, map_to_list_singleton, map_size_singleton. cbn [List.filter]. unfold Scheduler.SendingAllowed in Hb.
    cbn [view Scheduler.open_ Scheduler.sentHandler] in Hb. by rewrite Hb.
Qed.
End SinglePath.
