(* ===== verification/SendingKeeps.v ===== *)
(** * Sending keeps a session consistent

    Packing a packet reads, writes and closes streams, but opens and removes none: what
    [SessionFacts] calls the use of the framer.  From it, and from the invariants of the packet
    handlers, every sending loop of [Sending] keeps the session consistent, whatever it sends and
    however it ends. *)

From stdpp Require Import base numbers list option strings gmap.
From S2P Require Import Prelude ByteOrder Protocol AckFrame ClosePathFrame StreamFrame ControlFrames PublicHeader PacketUnpacker PacketPacker FlowControl FrameSorter GoFloat ReceivedPackets RttStats SentPackets Olia UtilityControl Scheduler Monitor StreamsMap GoSlice Stream StreamFramer FramerFacts PackPacket Session SessionFacts Sending.

Local Open Scope Z_scope.
#[local] Notation "'do!' x ':=' m 'in' k" := (bind m (fun x => k)) (at level 10, x name, m at level 99, k at level 200).

(** ** Streams: the receiving side is not touched *)

Definition same_read (s s' : stream.t) : Prop :=
  stream.streamID s' = stream.streamID s /\ stream.frameQueue s' = stream.frameQueue s.

#[local] Instance same_read_preorder : PreOrder same_read.
Proof. split; [by intros s|]. intros s1 s2 s3 [E1 E2] [E3 E4]. split; congruence. Qed.

Lemma taken_STMS s n g r s' : stream.getDataForWritingSTMS s n g = (r, s') -> same_read s s'.
Proof.
  unfold stream.getDataForWritingSTMS, stream.take_fast, stream.take_only, stream.take_slow, or_panic. cbv zeta.
  intros H. repeat match type of H with context [match ?x with _ => _ end] => destruct x end; simplify_eq; by split.
Qed.

Lemma taken_data s n r s' : stream.getDataForWriting s n = (r, s') -> same_read s s'.
Proof. intros [H1 H2]%data_for_writing_id. by split. Qed.

Lemma before_dropped s d a h rest s' : streamFramer.drop_before s d a h rest = Ok s' -> same_read s s'.
Proof.
  unfold streamFramer.drop_before. destruct (slice.upto d h) as [x|e|]; [|done..]. destruct (slice.from d h) as [y|e|]; [|done..].
  by intros [= <-].
Qed.

Lemma discarded ip lb s d n ue p c s' ue' : streamFramer.Discard ip lb s d n ue = Ok (p, c, s', ue') -> same_read s s'.
Proof.
  assert (forall p c s', streamFramer.discard_short s d n ue = Ok (p, c, s') -> same_read s s') as Hshort.
  { clear. intros p c s'. unfold streamFramer.discard_short. destruct (stream.NextHeaderOff _) as [|h rest]; [done|].
    destruct (_ && _); [by intros [= <- <- <-]|]. destruct (0 <=? h).
    - destruct (0 <=? stream.I_startinx _).
      + destruct (streamFramer.drop_before s d 0 h rest) as [s1|e|] eqn:E; [|done..]. apply before_dropped in E. by intros [= <- <- <-].
      + destruct (streamFramer.headers d (h :: rest)) as [l|e|]; [|done..]. by intros [= <- <- <-].
    - destruct (h =? -1); by intros [= <- <- <-]. }
  assert (forall s', streamFramer.discard_end s d = Ok s' -> same_read s s') as Hend.
  { clear. intros s'. unfold streamFramer.discard_end. destruct (stream.NextHeaderOff _) as [|h rest]; [done|].
    destruct (0 <=? h); [by intros ?%before_dropped|]. destruct (h =? -1); by intros [= <-]. }
  unfold streamFramer.Discard. destruct (ip && lb && _).
  - destruct (streamFramer.discard_short s d n ue) as [[[p1 c1] s1]|e|]; [|done..]. intros [= <- <- <- _]. by eapply Hshort.
  - destruct (ip && negb lb && ue); [|by intros [= _ _ <- _]].
    destruct (streamFramer.discard_end s d) as [s1|e|]; [|done..]. intros [= _ _ <- _]. by apply Hend.
Qed.

Lemma headers_taken cnt : forall s pattern data n r s', streamFramer.header_loop cnt s pattern data n = (r, s') -> same_read s s'.
Proof.
  induction cnt as [|cnt IH]; intros s pattern data n r s'; cbn [streamFramer.header_loop]; [by intros [= _ <-]|].
  destruct (stream.getDataForWriting s streamFramer.headerlen) as [[x|e|] s1] eqn:E; apply taken_data in E; [|by intros [= _ <-]..].
  intros H%IH. etransitivity; [exact E|]. exact H.
Qed.

Lemma with_pattern_taken s pattern cnt n r s' : streamFramer.with_pattern s pattern cnt n = (r, s') -> same_read s s'.
Proof.
  unfold streamFramer.with_pattern, or_panic.
  destruct (stream.getDataForWriting s n) as [[x|e|] s1] eqn:E; apply taken_data in E;
    destruct (cnt =? -1); [by intros [= _ <-]| |by intros [= _ <-]| |by intros [= _ <-]|]; (destruct (0 <? cnt); [|by intros [= _ <-]]);
    (destruct (_ <? cnt); [try (by (intros [= _ <-]))|]).
  all: match goal with |- context [streamFramer.header_loop ?k ?s0 ?p ?d ?m] => destruct (streamFramer.header_loop k s0 p d m) as [y s2] eqn:Eh end;
    apply headers_taken in Eh; destruct y; intros [= _ <-]; first [exact Eh|etransitivity; [exact E|exact Eh]].
Qed.

(** What the schedulers take from a stream. *)
Definition reads_nothing (take_ : streamFramer.taking) : Prop := forall s n ue r s', take_ s n ue = (r, s') -> same_read s s'.

Lemma normal_reads_nothing ip lb : reads_nothing (streamFramer.take_normal ip lb).
Proof.
  intros s n ue r s'. unfold streamFramer.take_normal. destruct (stream.dataForWriting s) as [d|]; [|by intros [= _ <-]].
  destruct (streamFramer.Discard ip lb s d n ue) as [[[[p c] s1] ue1]|e|] eqn:E; cbn [or_panic]; [|by intros [= _ <-]..].
  apply discarded in E. destruct (streamFramer.with_pattern s1 p c n) as [[x|e|] s2] eqn:Ew; apply with_pattern_taken in Ew; cbn [or_panic];
    [destruct (streamFramer.move_marks _ _) as [m pr]|..]; intros [= _ <-]; etransitivity; [exact E|exact Ew|exact E|exact Ew|exact E|exact Ew].
Qed.

Lemma STMS_reads_nothing gap : reads_nothing (streamFramer.take_STMS gap).
Proof.
  intros s n ue r s'. unfold streamFramer.take_STMS. destruct (stream.getDataForWritingSTMS s n gap) as [[x|e|] s1] eqn:E; apply taken_STMS in E;
    by intros [= _ <-].
Qed.

(** ** The streams map *)

Record map_used (m m' : streams_t) : Prop := {
  mu_open : streamsMap.openStreams m' = streamsMap.openStreams m;
  mu_dom : dom (streamsMap.streams m') = dom (streamsMap.streams m);
  mu_side : streamsMap.perspective m' = streamsMap.perspective m;
  mu_next : streamsMap.nextStream m' = streamsMap.nextStream m;
  mu_highest : streamsMap.highestStreamOpenedByPeer m' = streamsMap.highestStreamOpenedByPeer m;
  mu_in : streamsMap.numIncomingStreams m' = streamsMap.numIncomingStreams m;
  mu_out : streamsMap.numOutgoingStreams m' = streamsMap.numOutgoingStreams m;
  mu_index : streamsMap.roundRobinIndex m' = streamsMap.roundRobinIndex m \/ 0 <= streamsMap.roundRobinIndex m' < Z.of_nat (size (streamsMap.streams m));
  mu_streams : forall id s', streamsMap.streams m' !! id = Some s' -> exists s, streamsMap.streams m !! id = Some s /\ same_read s s';
}.

Lemma size_of_dom (m m' : gmap Z stream.t) : dom m' = dom m -> size m' = size m.
Proof. intros E. by rewrite <- !size_dom, E. Qed.

#[local] Instance map_used_preorder : PreOrder map_used.
Proof.
  split.
  - intros m. split; try done; [by left|]. intros id s' H. exists s'. by split.
  - intros m1 m2 m3 [A1 A2 A3 A4 A5 A6 A7 A8 A9] [B1 B2 B3 B4 B5 B6 B7 B8 B9]. split; try congruence.
    + rewrite (size_of_dom _ _ A2) in B8. destruct B8 as [B8|B8]; [rewrite B8; exact A8|by right].
    + intros id s3 H3. destruct (B9 id s3 H3) as (s2 & H2 & E2). destruct (A9 id s2 H2) as (s1 & H1 & E1).
      exists s1. split; [done|]. by etransitivity.
Qed.

Lemma put_used m id s s' : streamsMap.streams m !! id = Some s -> same_read s s' -> map_used m (streamFramer.put m id s').
Proof.
  intros H E. split; try done; [by apply (put_dom m id s)|by left|].
  intros k x. cbn. intros [[<- <-]|[_ Hk]]%lookup_insert_Some; [by exists s|]. exists x. by split.
Qed.

Lemma index_used {X} m (st : streams_t * X) i : map_used m st.1 -> 0 <= i < Z.of_nat (size (streamsMap.streams m)) -> map_used m (streamsMap.set_index st i).1.
Proof. intros [A1 A2 A3 A4 A5 A6 A7 A8 A9] Hi. split; try done. by right. Qed.

(** ** Iterations: what a function keeps, however it ends *)

Section Iterate.
Context {X : Type} (fn : Z -> stream.t -> streams_t * X -> res bool * (streams_t * X)) (m : streams_t).
Context (P : streams_t * X -> Prop).
Hypothesis P_used : forall st, P st -> map_used m st.1.
Hypothesis P_index : forall st i, P st -> 0 <= i < Z.of_nat (size (streamsMap.streams m)) -> P (streamsMap.set_index st i).
Hypothesis P_fn : forall id s st b st', P st -> streamsMap.streams st.1 !! id = Some s -> fn id s st = (b, st') -> P st'.

Lemma func_keeps id st b st' : P st -> streamsMap.iterateFunc fn id st = (b, st') -> P st'.
Proof.
  intros Hp. unfold streamsMap.iterateFunc. destruct (streamsMap.streams st.1 !! id) as [s|] eqn:E; [by apply P_fn|]. by intros [= _ <-].
Qed.

Lemma priority_keeps ids : forall st b st', P st -> streamsMap.priority_loop fn ids st = (b, st') -> P st'.
Proof.
  induction ids as [|id ids IH]; intros st b st' Hp; cbn [streamsMap.priority_loop]; [by intros [= _ <-]|].
  destruct (streamsMap.iterateFunc fn id st) as [r st1] eqn:E. apply func_keeps in E; [|done]. destruct r as [c|e|].
  - destruct c; [by apply IH|by intros [= _ <-]].
  - do 2 (case_decide; [|by intros [= _ <-]]). by apply IH.
  - by intros [= _ <-].
Qed.

Lemma rr_keeps k : forall i start st b st', P st -> (0 < size (streamsMap.streams m))%nat ->
  streamsMap.rr_loop fn k i (Z.of_nat (size (streamsMap.streams m))) start st = (b, st') -> P st'.
Proof.
  induction k as [|k IH]; intros i start st b st' Hp Hn; cbn [streamsMap.rr_loop]; [by intros [= _ <-]|].
  destruct (streamsMap.openStreams st.1 !! _) as [id|]; [|by intros [= _ <-]]. destruct ((id =? 1) || (id =? 3)); [by apply IH|].
  destruct (streamsMap.iterateFunc fn id st) as [r st1] eqn:E. apply func_keeps in E; [|done]. destruct r as [c|e|]; [|by intros [= _ <-]..].
  assert (P (streamsMap.set_index st1 (u32 (streamsMap.roundRobinIndex st1.1 + 1) mod Z.of_nat (size (streamsMap.streams m))))) as Hp1
    by (apply P_index; [done|apply Z.mod_pos_bound; lia]).
  destruct c; [by apply IH|by intros [= _ <-]].
Qed.

Lemma round_robin_keeps st b st' : P st -> streamsMap.RoundRobinIterate fn st = (b, st') -> P st'.
Proof.
  intros Hp. unfold streamsMap.RoundRobinIterate.
  destruct (streamsMap.priority_loop fn [1; 3] st) as [r st1] eqn:E. apply priority_keeps in E; [|done]. destruct r as [c|e|].
  - destruct c; [|by intros [= _ <-]]. rewrite (size_of_dom _ _ (mu_dom _ _ (P_used _ Hp))), (size_of_dom _ _ (mu_dom _ _ (P_used _ E))).
    destruct (decide (size (streamsMap.streams m) = 0%nat)) as [En|]; [rewrite En; by intros [= _ <-]|]. apply rr_keeps; [done|]. lia.
  - by intros [= _ <-].
  - by intros [= _ <-].
Qed.
End Iterate.

(** ** Flow control *)

Abbreviation fdom fl := (dom (flowControlManager.streamFlowController fl)).

Lemma fdom_on_stream fl id op : fdom (flowControlManager.on_stream fl id op).2 = fdom fl.
Proof. unfold flowControlManager.on_stream. destruct (_ !! id) as [c|] eqn:E; [|done]. by eapply fdom_replace. Qed.

Lemma fdom_updates force rtt remote now ids : forall fl, fdom (flowControlManager.stream_updates force rtt remote now ids fl).2 = fdom fl.
Proof.
  induction ids as [|id ids IH]; intros fl; cbn [flowControlManager.stream_updates]; [done|].
  destruct (_ !! id) as [c|] eqn:E; [|apply IH]. destruct (flowController.MaybeUpdateWindow c rtt remote now) as [[[nec inc] off] c'].
  destruct (force || nec); [|rewrite IH; by eapply fdom_replace].
  match goal with |- context [flowControlManager.stream_updates force rtt remote now ids ?f] => pose proof (IH f) as H; destruct (flowControlManager.stream_updates force rtt remote now ids f) as [us g] end.
  cbn [snd] in *. rewrite H. destruct (_ && _); by eapply fdom_replace.
Qed.

Lemma fdom_window_updates force rtt remote now ids fl : fdom (flowControlManager.GetWindowUpdates force rtt remote now ids fl).2 = fdom fl.
Proof.
  unfold flowControlManager.GetWindowUpdates. pose proof (fdom_updates force rtt remote now ids fl) as H.
  destruct (flowControlManager.stream_updates force rtt remote now ids fl) as [us g].
  by destruct (flowController.MaybeUpdateWindow _ _ _ _) as [[[nec inc] off] c'].
Qed.

(** ** The framer *)

Definition named (m : streams_t) : Prop := forall id s, streamsMap.streams m !! id = Some s -> stream.streamID s = id.

Lemma map_used_named m m' : named m -> map_used m m' -> named m'.
Proof. intros Hn Hu id s' H. destruct (mu_streams _ _ Hu id s' H) as (s & Hs & [E _]). rewrite E. by apply Hn. Qed.

Record framer_used (f f' : streamFramer.t) : Prop := {
  fu_map : map_used (streamFramer.smap f) (streamFramer.smap f');
  fu_flow : fdom (streamFramer.flow f') = fdom (streamFramer.flow f);
}.

#[local] Instance framer_used_preorder : PreOrder framer_used.
Proof. split; [by intros f|]. intros f1 f2 f3 [A1 A2] [B1 B2]. split; [by etransitivity|congruence]. Qed.

Section Pop.
Context (params : Params) (offset : stream.t -> Z) (take_ : streamFramer.taking) (maxBytes : Z) (f : streamFramer.t).
Hypothesis take_reads : reads_nothing take_.
Hypothesis names : named (streamFramer.smap f).

Definition popped (st : streams_t * streamFramer.pop_t) : Prop :=
  map_used (streamFramer.smap f) st.1 /\ fdom (streamFramer.pflow st.2) = fdom (streamFramer.flow f).

Lemma popped_emit id s s1 frame data w m x b st' :
  popped (m, x) -> streamsMap.streams m !! id = Some s -> same_read s s1 ->
  streamFramer.emit params maxBytes id s1 frame data w m x = (b, st') -> popped st'.
Proof.
  intros [Hm Hf] Hs E. unfold streamFramer.emit. destruct (_ && _).
  - intros [= _ <-]. split; [|exact Hf]. cbn. etransitivity; [exact Hm|]. by apply (put_used m id s).
  - intros [= _ <-]. split; cbn [fst snd streamFramer.pflow]; [|etransitivity; [apply fdom_on_stream|exact Hf]].
    etransitivity; [exact Hm|]. apply (put_used m id s); [done|]. etransitivity; [exact E|]. by destruct (stream.shouldSendFin s1).
Qed.

Lemma popped_stream id s st b st' :
  popped st -> streamsMap.streams st.1 !! id = Some s -> streamFramer.pop_stream params offset take_ maxBytes id s st = (b, st') -> popped st'.
Proof.
  intros Hp Hs. assert (stream.streamID s = id) as Eid by (by apply (map_used_named _ _ names (proj1 Hp))).
  destruct st as [m x]. cbn [fst] in Hs. unfold streamFramer.pop_stream. rewrite Eid. destruct (id =? 1); [by intros [= _ <-]|].
  cbn [streamFramer.currentLen]. destruct (_ <? _); [by intros [= _ <-]|]. destruct (_ =? 0); [by intros [= _ <-]|].
  destruct (_ =? 0); [by apply (popped_emit id s)|].
  destruct (take_ s _ _) as [[[[data pr] ue]|e|] s1] eqn:E; apply take_reads in E; [by apply (popped_emit id s)|..];
    intros [= _ <-]; (split; [|exact (proj2 Hp)]); cbn [fst]; (etransitivity; [exact (proj1 Hp)|by apply (put_used m id s)]).
Qed.

Lemma pop_new_used ue r f' ue' : streamFramer.pop_new params offset take_ maxBytes f ue = (r, (f', ue')) -> framer_used f f'.
Proof.
  unfold streamFramer.pop_new.
  destruct (streamsMap.RoundRobinIterate _ _) as [b [m x]] eqn:E.
  eapply (round_robin_keeps _ (streamFramer.smap f) popped) in E.
  - destruct E as [H1 H2]. intros [= _ <- _]. by split.
  - by intros st [H _].
  - intros st i [H1 H2] Hi. split; [by apply index_used|exact H2].
  - apply popped_stream.
  - by split.
Qed.
End Pop.

Lemma retrans_flow q : forall maxLen len fl res len' rest fl', streamFramer.retrans_loop q maxLen len fl = (res, len', rest, fl') -> fdom fl' = fdom fl.
Proof.
  induction q as [|x q IH]; intros maxLen len fl res len' rest fl'; cbn [streamFramer.retrans_loop]; [by intros [= _ _ _ <-]|].
  destruct (_ <=? _); [by intros [= _ _ _ <-]|]. destruct (streamFramer.maybeSplitOffFrame _ _) as [[first more]|].
  - intros [= _ _ _ <-]. apply fdom_on_stream.
  - match goal with |- context [streamFramer.retrans_loop q maxLen ?l ?g] => destruct (streamFramer.retrans_loop q maxLen l g) as [[[r n] t] fl1] eqn:E end.
    apply IH in E. intros [= _ _ _ <-]. rewrite E. apply fdom_on_stream.
Qed.

(** What the packer asks the framer for. *)
Definition pops (pop : packetPacker.popping) : Prop :=
  forall f n ue r f' ue', named (streamFramer.smap f) -> pop f n ue = (r, (f', ue')) -> framer_used f f'.

Lemma retransmissions_used f n fs len f' : streamFramer.maybePopFramesForRetransmission f n = (fs, len, f') -> framer_used f f'.
Proof.
  unfold streamFramer.maybePopFramesForRetransmission. destruct (streamFramer.retrans_loop _ _ _ _) as [[[r l] t] fl] eqn:E. apply retrans_flow in E.
  intros [= _ _ <-]. by split.
Qed.

Lemma normal_pops params ip lb : pops (streamFramer.PopStreamFrames params ip lb).
Proof.
  intros f n ue r f' ue' Hn. unfold streamFramer.PopStreamFrames. destruct (streamFramer.maybePopFramesForRetransmission f n) as [[fs len] f1] eqn:E.
  apply retransmissions_used in E. destruct (streamFramer.maybePopNormalFrames _ _ _ _ _ _) as [r1 [f2 ue2]] eqn:E2.
  apply pop_new_used in E2; [|apply normal_reads_nothing|by eapply map_used_named; [|apply (fu_map _ _ E)]].
  intros [= _ <- _]. by etransitivity.
Qed.

Lemma STMS_pops params gap : pops (fun f n ue => streamFramer.PopStreamFramesSTMS params f n gap ue).
Proof.
  intros f n ue r f' ue' Hn. unfold streamFramer.PopStreamFramesSTMS. destruct (streamFramer.maybePopFramesForRetransmission f n) as [[fs len] f1] eqn:E.
  apply retransmissions_used in E. destruct (streamFramer.maybePopNormalFramesSTMS _ _ _ _ _) as [r1 [f2 ue2]] eqn:E2.
  apply pop_new_used in E2; [|apply STMS_reads_nothing|by eapply map_used_named; [|apply (fu_map _ _ E)]].
  intros [= _ <- _]. by etransitivity.
Qed.

(** ** The packer *)

(** A composition of frames. *)
Definition composes (compose : packetPacker.t -> Z -> Z -> bool -> res (list Frame) * packetPacker.t) : Prop :=
  forall p pid n can r p', named (streamFramer.smap (packetPacker.framer p)) -> compose p pid n can = (r, p') ->
    framer_used (packetPacker.framer p) (packetPacker.framer p').

Lemma blocked_used k : forall f cs cs' f', packetPacker.take_blocked k f cs = (cs', f') -> framer_used f f'.
Proof.
  induction k as [|k IH]; intros f cs cs' f'; cbn [packetPacker.take_blocked]; [by intros [= _ <-]|].
  destruct (streamFramer.PopBlockedFrame f) as [[b|] f1] eqn:E; unfold streamFramer.PopBlockedFrame in E;
    destruct (streamFramer.pop_front _) as [y q]; injection E as -> <-; [|intros [= _ <-]; by split].
  intros H%IH. etransitivity; [|exact H]. by split.
Qed.

Lemma compose_composes pop : pops pop -> composes (packetPacker.compose_with pop).
Proof.
  intros Hpop p pid n can r p' Hn. unfold packetPacker.compose_with, or_panic.
  assert (framer_used (packetPacker.framer p) (packetPacker.framer p)) as H0 by reflexivity.
  destruct (match packetPacker.stopWaiting p !! pid with Some _ => _ | None => _ end) as [x|e|]; [|by intros [= _ <-]..].
  destruct (match packetPacker.ackFrame p !! pid with Some _ => _ | None => _ end) as [x1|e|]; [|by intros [= _ <-]..].
  destruct (packetPacker.control_loop _ _ _) as [[x2|e|] rest]; [|by intros [= _ <-]..].
  destruct (_ <? _); [by intros [= _ <-]|]. destruct (negb can); [by intros [= _ <-]|].
  destruct (pop _ _ _) as [r1 [f1 ue]] eqn:E. apply Hpop in E; [|exact Hn]. destruct r1 as [fs|e|]; [|by intros [= _ <-]..].
  destruct (packetPacker.take_blocked _ _ _) as [cs f2] eqn:Eb. apply blocked_used in Eb. intros [= _ <-]. cbn. by etransitivity.
Qed.

Lemma normal_composes params ip lb : composes (packetPacker.composeNextPacket params ip lb).
Proof. apply compose_composes, normal_pops. Qed.

Lemma STMS_composes params gap : composes (packetPacker.composeNextPacketSTMS params gap).
Proof. apply compose_composes, STMS_pops. Qed.

Lemma redundant_composes params ip lb isfirst : composes (packetPacker.compose_redundant params ip lb isfirst).
Proof.
  intros p pid n can r p' Hn. unfold packetPacker.compose_redundant. destruct isfirst; [|by intros [= _ <-]].
  destruct (packetPacker.composeNextPacket params ip lb p pid n can) as [r1 p1] eqn:E. apply normal_composes in E; [|done].
  by intros [= _ <-].
Qed.

(** The crypto stream was opened; it may have been closed since. *)
Definition has_crypto (f : streamFramer.t) : Prop :=
  is_server (streamsMap.perspective (streamFramer.smap f)) = true -> is_Some (streamsMap.streams (streamFramer.smap f) !! 1) \/ 1 <= streamsMap.highestStreamOpenedByPeer (streamFramer.smap f).

Lemma used_crypto f f' : framer_used f f' -> has_crypto f -> has_crypto f'.
Proof.
  intros [[_ E E1 _ E2 _ _ _ _] _]. unfold has_crypto. rewrite <- !elem_of_dom. by rewrite E, E1, E2.
Qed.

Lemma crypto_stream_opened n f : has_crypto f ->
  exists r, streamFramer.crypto_stream n f = Some (r, streamFramer.set_smap f (streamFramer.smap f))
    /\ forall cs, r = Ok cs -> streamsMap.streams (streamFramer.smap f) !! 1 = Some cs.
Proof.
  intros Hc. destruct (is_server (streamsMap.perspective (streamFramer.smap f))) eqn:Es.
  2: { apply crypto_stream_client. by destruct (streamsMap.perspective _). }
  specialize (Hc Es). unfold streamFramer.crypto_stream, streamsMap.GetOrOpenStream.
  destruct (streamsMap.streams (streamFramer.smap f) !! 1) as [cs|]; [eexists; split; [done|]; by intros ? [= <-]|].
  destruct Hc as [[? ?]|Hc]; [done|]. unfold streamsMap.closed_or_wrong. rewrite Es. cbn. rewrite (proj2 (Z.leb_le _ _) Hc).
  eexists. split; [done|]. by intros ?.
Qed.

Lemma has_crypto_used n f r f' : has_crypto f -> streamFramer.HasCryptoStreamFrame n f = Some (r, f') -> framer_used f f'.
Proof.
  intros Hc. destruct (crypto_stream_opened n f Hc) as (x & E & _). unfold streamFramer.HasCryptoStreamFrame. rewrite E.
  intros [= _ <-]. by split.
Qed.

Lemma pop_crypto_used n f k r f' : has_crypto f -> streamFramer.PopCryptoStreamFrame n f k = Some (r, f') -> framer_used f f'.
Proof.
  intros Hc. unfold streamFramer.PopCryptoStreamFrame. destruct (streamFramer.HasCryptoStreamFrame n f) as [[r1 f1]|] eqn:E; [|done].
  apply has_crypto_used in E; [|done]. pose proof (used_crypto _ _ E Hc) as Hc1.
  destruct r1 as [[]|e|]; [|by intros [= _ <-]..]. destruct (crypto_stream_opened n f1 Hc1) as (x & -> & Hx).
  destruct x as [cs|e|]; [|intros [= _ <-]; etransitivity; [exact E|by split]..]. pose proof (Hx cs eq_refl) as Hcs. destruct (stream.getDataForWriting cs _) as [r2 cs'] eqn:Ed. apply taken_data in Ed. intros [= _ <-].
  etransitivity; [exact E|]. split; [|done]. by apply (put_used _ 1 cs).
Qed.

Lemma crypto_packet_used crypto n p sp now rd r p' sp' :
  has_crypto (packetPacker.framer p) -> packetPacker.packCryptoPacket crypto n p sp now rd = Some (r, (p', sp')) ->
  framer_used (packetPacker.framer p) (packetPacker.framer p').
Proof.
  intros Hc. unfold packetPacker.packCryptoPacket. destruct (packetPacker.GetSealerForCryptoStream crypto) as [lvl sealer].
  destruct (PublicHeader.GetLength _ _) as [len|e|]; [|by intros [= _ <- _]..]. cbv zeta.
  destruct (streamFramer.PopCryptoStreamFrame _ _ _) as [[r1 f1]|] eqn:E; [|done]. apply pop_crypto_used in E; [|done].
  destruct r1 as [[f|]|e|]; [|by intros [= _ <- _]..].
  edestruct finish_keeps as (r2 & sp2 & E2). rewrite E2. by intros [= _ <- _].
Qed.

Lemma pack_used crypto n compose b p sp now rd r p' sp' :
  composes compose -> named (streamFramer.smap (packetPacker.framer p)) -> has_crypto (packetPacker.framer p) ->
  packetPacker.pack_with crypto n compose b p sp now rd = Some (r, (p', sp')) -> framer_used (packetPacker.framer p) (packetPacker.framer p').
Proof.
  intros Hcomp Hn Hc. unfold packetPacker.pack_with. destruct (streamFramer.HasCryptoStreamFrame _ _) as [[r1 f1]|] eqn:E; [|done].
  apply has_crypto_used in E; [|done]. pose proof (used_crypto _ _ E Hc) as Hc1. pose proof (map_used_named _ _ Hn (fu_map _ _ E)) as Hn1.
  destruct r1 as [[]|e|]; [|..|by intros [= _ <- _]|by intros [= _ <- _]].
  - intros H%crypto_packet_used; [|exact Hc1]. by etransitivity.
  - destruct (packetPacker.GetSealer crypto) as [lvl sealer]. unfold or_panic.
    destruct (PublicHeader.GetLength _ _) as [len|e|]; [|by intros [= _ <- _]..].
    match goal with |- Some (let '(r, p) := ?x in _) = _ -> _ => destruct x as [r2 p2] eqn:E2 end.
    assert (framer_used (packetPacker.framer p) (packetPacker.framer p2)) as H2.
    { destruct (packetPacker.isPing _); [injection E2 as _ <-; exact E|]. apply Hcomp in E2; [|exact Hn1]. etransitivity; [exact E|exact E2]. }
    destruct r2 as [fs|e|]; [|by intros [= _ <- _]..]. destruct (_ =? 0)%nat; [by intros [= _ <- _]|]. destruct (_ && _); [by intros [= _ <- _]|].
    edestruct finish_keeps as (r3 & sp3 & E3). rewrite E3. destruct r3 as [[[k [raw|] fr lv]|]|e|]; try destruct b; by intros [= _ <- _].
Qed.

(** ** Sessions *)

Section Sessions.
Context {C : Type} `{!SendAlgorithm C} (env : Env) (side : Perspective).

Abbreviation session := (Session.session (C := C)).
Abbreviation path := (Session.path (C := C)).
Implicit Types (s : session) (p : path).

(** A consistent session whose crypto stream was opened. *)
Definition live s : Prop := consistent env side s /\ has_crypto (framer s).
Abbreviation keeps := (preserves live).

Lemma live_named s : live s -> named (streamsMap_ s).
Proof. intros [Hs _] id str H. by destruct (si_contents _ _ _ _ _ Hs id str H). Qed.

Lemma live_packer s (pk : packetPacker.t) : live s -> framer_used (framer s) (packetPacker.framer pk) -> live (set_packer s pk).
Proof.
  intros [Hs Hc] Hu. split; [|by apply (used_crypto (framer s))]. apply used_inv; [exact Hs|].
  pose proof (si_streams _ _ _ _ _ Hs) as Hi. destruct Hu as [[U1 U2 U3 U4 U5 U6 U7 U8 U9] Uf]. split; try done.
  - pose proof (streamsMap.inv_size _ Hi) as En. pose proof (streamsMap.i_index _ Hi) as Hx. unfold streamsMap_ in *.
    destruct U8 as [->|U8]; [exact Hx|]. rewrite En in U8. lia.
  - intros id str H. destruct (U9 id str H) as (str0 & H0 & E1 & E2). destruct (si_contents _ _ _ _ _ Hs id str0 H0) as [E3 E4].
    split; [by rewrite E1|by rewrite E2].
Qed.

Lemma live_path s p : live s -> path_ok (closedPaths s) (pathID p) p -> live (set_paths s (<[pathID p := p]> (paths s))).
Proof. intros [Hs Hc] Hp. split; [by apply inv_put_path|exact Hc]. Qed.

Lemma live_ok s pid p : live s -> paths s !! pid = Some p -> path_ok (closedPaths s) pid p.
Proof. intros [Hs _]. by apply (si_paths _ _ _ _ _ Hs). Qed.

(** What does not touch streams, paths and queues. *)
Lemma live_kept s s' :
  live s -> framer s' = framer s -> perspective s' = perspective s -> paths s' = paths s ->
  closedPaths s' = closedPaths s -> manager s' = manager s -> receivedPackets s' = receivedPackets s ->
  undecryptablePackets s' = undecryptablePackets s -> live s'.
Proof.
  intros [Hs Hc] Ef E3 E4 E5 E6 E7 E8. split; [|by rewrite Ef].
  apply (inv_kept _ _ _ _ s); try done; unfold streamsMap_, flow; by rewrite Ef.
Qed.

(** *** Queues and paths *)

Lemma keeps_framer f : (forall s, framer_used (framer s) (f (framer s))) -> keeps (modify (fun s => set_framer s (f (framer s)))).
Proof. intros Hf. apply preserves_modify. intros s Hs. apply live_packer; [done|apply Hf]. Qed.

Lemma keeps_packer f : (forall pk, packetPacker.framer (f pk) = packetPacker.framer pk) -> keeps (modify (fun s => set_packer s (f (packer s)))).
Proof.
  intros Hf. apply preserves_modify. intros s Hs. apply live_packer; [done|]. unfold framer. by rewrite Hf.
Qed.

Lemma keeps_queue f pid : keeps (queue f pid).
Proof. apply (keeps_packer (fun p : packetPacker.t => packetPacker.QueueControlFrame p f pid)). by intros pk; destruct f. Qed.

Lemma keeps_queue_ack a pid : keeps (queue_ack a pid).
Proof. destruct a; [apply keeps_queue|]. by apply (keeps_packer (fun p : packetPacker.t => packetPacker.set_acks p (packetPacker.stopWaiting p) (delete pid (packetPacker.ackFrame p)))). Qed.

Lemma keeps_queue_stop f pid : keeps (queue_stop_waiting f pid).
Proof. destruct f; [apply keeps_queue|]. by apply (keeps_packer (fun p : packetPacker.t => packetPacker.set_acks p (delete pid (packetPacker.stopWaiting p)) (packetPacker.ackFrame p))). Qed.

Lemma stop_waiting_inv (h : sentPacketHandler.t (C := C)) force : handler_inv h -> handler_inv (sentPacketHandler.GetStopWaitingFrame h force).2.
Proof.
  intros Hi. unfold sentPacketHandler.GetStopWaitingFrame. destruct (stopWaitingManager.GetStopWaitingFrame _ _) as [f m]. by apply (inv_same h).
Qed.

Lemma keeps_stop_waiting pid force : keeps (GetStopWaitingFrame pid force).
Proof.
  apply preserves_with_path. intros s p r s' Hs Hp. pose proof (live_ok _ _ _ Hs Hp) as Hok.
  pose proof (stop_waiting_inv (sent p) force (po_sent _ _ _ Hok)) as Hi.
  destruct (sentPacketHandler.GetStopWaitingFrame (sent p) force) as [f h]. cbn [snd] in Hi. intros [= _ <-].
  apply (live_path s (set_sent p h)); [done|]. exact (ok_sent _ _ _ _ Hok Hi).
Qed.

Lemma keeps_GetAckFrame pid now : keeps (GetAckFrame pid now).
Proof.
  apply preserves_with_path. intros s p r s' Hs Hp. unfold bind, lift. destruct (receivedPacketHandler.GetAckFrame (rcvd p) now) as [x|e|]; [|by intros [= _ <-]..].
  intros [= _ <-]. apply (live_path s (set_rcvd p x.2 (lastRcvdPacketNumber p) (largestRcvdPacketNumber p))); [done|].
  eapply ok_same; [exact (live_ok _ _ _ Hs Hp)|done..].
Qed.

Lemma keeps_least_unacked : keeps set_least_unacked.
Proof.
  apply preserves_modify. intros s [Hs Hc]. split; [|exact Hc]. apply inv_set_paths; [exact Hs|..].
  - intros pid p'. rewrite lookup_fmap_Some. intros (p & <- & Hp). pose proof (si_paths _ _ _ _ _ Hs _ _ Hp) as [E1 E2 E3]. by split.
  - rewrite lookup_fmap, fmap_is_Some. apply (si_initial _ _ _ _ _ Hs).
  - rewrite dom_fmap_L. apply (si_known _ _ _ _ _ Hs).
Qed.

Lemma keeps_window_updates force now : keeps (getWindowUpdateFrames force now).
Proof.
  unfold getWindowUpdateFrames. apply preserves_bind; [apply preserves_path|]. intros first.
  intros s r s' Hs. unfold bind at 1, get.
  match goal with |- context [flowControlManager.GetWindowUpdates ?a ?b ?c ?d ?e ?f] => pose proof (fdom_window_updates a b c d e f) as H; destruct (flowControlManager.GetWindowUpdates a b c d e f) as [us fl] end.
  intros [= _ <-]. apply live_packer; [exact Hs|]. split; [done|exact H].
Qed.

Lemma keeps_blocked f : keeps (modify (fun s => set_status s (f s) (closeErr s) (lastActivity s) (keepAlivePingSent s))).
Proof. apply preserves_modify. intros s Hs. by apply (live_kept s). Qed.

(** *** Packets *)

Lemma keeps_signal pid : keeps (signal_sent pid).
Proof.
  intros s r s' Hs. unfold signal_sent. destruct (paths s !! pid) as [p|] eqn:Hp; [|by intros [= _ <-]]. destruct (_ && _); [done|].
  intros [= _ <-]. apply (live_path s (set_sentPacket p true)); [done|]. pose proof (live_ok _ _ _ Hs Hp) as Hok. by eapply ok_same.
Qed.

Lemma keeps_packed e0 pkt pid b now : keeps (sendPackedPacket e0 pkt pid b now).
Proof.
  apply preserves_with_path. intros s p r s' Hs Hp. cbn beta zeta.
  match goal with |- context [sentPacketHandler.SentPacket ?h ?x now] => destruct (sentPacketHandler.SentPacket h x now) as [e h'] eqn:E end.
  assert (live (set_paths s (<[pathID (set_sent p h') := set_sent p h']> (paths s)))) as H1.
  { apply (live_path s (set_sent p h')); [done|]. pose proof (live_ok _ _ _ Hs Hp) as Hok. eapply ok_sent; [done|]. eapply inv_sent_eq; [apply Hok|exact E]. }
  intros Hr. unfold bind at 1, put_path, modify at 1 in Hr. revert Hr. generalize dependent (set_paths s (<[pathID (set_sent p h') := set_sent p h']> (paths s))).
  intros s1 Hs1. match goal with |- ?m s1 = _ -> _ => assert (keeps m) as Hm; [|by apply Hm] end.
  destruct e as [e|]; [apply preserves_bind; [apply preserves_lift|intros _; apply preserves_check with (e := Some e)]|].
  apply preserves_bind; [apply keeps_signal|intros _]. apply preserves_bind; [|intros _; apply preserves_bind; [apply preserves_lift|intros _; apply preserves_check]].
  apply preserves_modify. intros s2 Hs2. by apply (live_kept s2).
Qed.

Definition packs_framer (pack : packing) : Prop := forall (pk : packetPacker.t) sp now rd r (pk' : packetPacker.t) sp',
  named (streamFramer.smap (packetPacker.framer pk)) -> has_crypto (packetPacker.framer pk) -> pack pk sp now rd = Some (r, (pk', sp')) ->
  framer_used (packetPacker.framer pk) (packetPacker.framer pk').

Lemma live_numbers s p pid g least : live s -> path_ok (closedPaths s) pid p ->
  live (set_paths s (<[pathID (set_numbers p g least) := set_numbers p g least]> (paths s))).
Proof. intros Hs Hp. apply (live_path s (set_numbers p g least)); [done|]. by eapply ok_same. Qed.

(** After a call of the packer. *)
Lemma keeps_packed_state {A} s pid p (pk : packetPacker.t) g least (m : M A) r s' :
  live s -> paths s !! pid = Some p -> framer_used (framer s) (packetPacker.framer pk) -> keeps m ->
  (do! _ := modify (fun s => set_packer s pk) in do! _ := put_path (set_numbers p g least) in m) s = Some (r, s') -> live s'.
Proof.
  intros Hs Hp Hu Hm. unfold bind, modify, put_path. apply Hm. apply (live_numbers (set_packer s pk) p pid).
  - by apply live_packer.
  - exact (live_ok _ _ _ Hs Hp).
Qed.

Lemma keeps_run_pack pack pid now : packs_framer pack -> keeps (run_pack env pack pid now).
Proof.
  intros Hpk. apply preserves_with_path. intros s p r s' Hs Hp. unfold bind at 1, get.
  destruct (pack (packer s) (send_path s p) now (rnd env)) as [[x [pk sp]]|] eqn:E; [|done].
  apply Hpk in E; [|exact (live_named _ Hs)|exact (proj2 Hs)].
  apply keeps_packed_state with (pid := pid); try done. apply preserves_lift.
Qed.

Lemma keeps_run_frames pack pid now :
  (forall (pk : packetPacker.t) sp now rd x e c (pk' : packetPacker.t) sp', pack pk sp now rd = (x, e, c, (pk', sp')) -> packetPacker.framer pk' = packetPacker.framer pk) ->
  keeps (run_frames env pack pid now).
Proof.
  intros Hpk. apply preserves_with_path. intros s p r s' Hs Hp. unfold bind at 1, get.
  destruct (pack (packer s) (send_path s p) now (rnd env)) as [[[x e] c] [pk sp]] eqn:E. apply Hpk in E.
  apply keeps_packed_state with (pid := pid); try done; [unfold framer; by rewrite E|].
  destruct c; [apply preserves_panic|apply preserves_bind; [apply preserves_check|intros _; apply preserves_ret]].
Qed.

Lemma frames_framer (pk : packetPacker.t) h lvl sealer fs sp now rd x e c (pk' : packetPacker.t) sp' :
  packetPacker.pack_frames pk h lvl sealer fs sp now rd = (x, e, c, (pk', sp')) -> pk' = pk.
Proof. unfold packetPacker.pack_frames. destruct (writeAndSealPacket _ _ _ _ _ _ _). by intros [= _ _ _ <- _]. Qed.

Lemma ack_framer cr (pk : packetPacker.t) sp now rd x e c (pk' : packetPacker.t) sp' :
  packetPacker.PackAckPacket cr pk sp now rd = (x, e, c, (pk', sp')) -> packetPacker.framer pk' = packetPacker.framer pk.
Proof.
  unfold packetPacker.PackAckPacket. destruct (_ !! _); [|by intros [= _ _ _ <- _]]. destruct (packetPacker.GetSealer cr).
  by intros ->%frames_framer.
Qed.

Lemma retransmission_framer cr lvl fs (pk : packetPacker.t) sp now rd x e c (pk' : packetPacker.t) sp' :
  packetPacker.PackHandshakeRetransmission cr pk lvl fs sp now rd = (x, e, c, (pk', sp')) -> packetPacker.framer pk' = packetPacker.framer pk.
Proof.
  unfold packetPacker.PackHandshakeRetransmission. destruct (_ =? _); [by intros [= _ _ _ <- _]|].
  destruct (packetPacker.GetSealerWithEncryptionLevel cr lvl); [|by intros [= _ _ _ <- _]..].
  cbv zeta. destruct (_ !! _); [|by intros [= _ _ _ <- _]]. by intros ->%frames_framer.
Qed.

Lemma normal_packs cr par ip lb n : packs_framer (packetPacker.PackPacket cr par ip lb n).
Proof. intros pk sp now rd r pk' sp' Hn Hc. apply pack_used; [apply normal_composes|done..]. Qed.

Lemma STMS_packs gap : packs_framer (PackPacketSTMS env gap).
Proof. intros pk sp now rd r pk' sp' Hn Hc. apply pack_used; [apply STMS_composes|done..]. Qed.

Lemma redundant_packs sch isfirst : packs_framer (PackPacketRedundancy env sch isfirst).
Proof. intros pk sp now rd r pk' sp' Hn Hc. apply pack_used; [apply redundant_composes|done..]. Qed.

Lemma keeps_ping e0 pid now : keeps (sendPing e0 pid now).
Proof.
  apply preserves_with_path. intros s p r s' Hs Hp. unfold bind at 1, get.
  destruct (packetPacker.PackPing _ _ _ _ _ _ _ _ _ _) as [[x [pk sp]]|] eqn:E; [|done].
  apply normal_packs in E; [|exact (live_named _ Hs)|exact (proj2 Hs)].
  apply keeps_packed_state with (pid := pid); try done.
  apply preserves_bind; [apply preserves_lift|]. intros [pkt|]; [apply keeps_packed|apply preserves_ret].
Qed.

Lemma keeps_performs pack b sch us pid now : packs_framer pack -> keeps (perform env pack b sch us pid now).
Proof.
  intros Hpk. apply preserves_bind; [apply preserves_path|]. intros p.
  apply preserves_bind; [apply preserves_if; [apply keeps_queue|apply preserves_ret]|]. intros _.
  apply preserves_bind; [by apply keeps_run_pack|]. intros [pkt|]; [|apply preserves_ret].
  apply preserves_bind; [apply keeps_packed|]. intros _.
  apply preserves_bind; [apply preserves_for_each; intros u; apply keeps_queue|]. intros _. apply preserves_ret.
Qed.

Lemma keeps_ack_path sch us now pid : keeps (ack_path env sch us now pid).
Proof.
  apply preserves_bind; [apply keeps_GetAckFrame|]. intros ack.
  apply preserves_bind; [apply preserves_for_each; intros u; apply keeps_queue|]. intros _.
  assert (keeps (if (pid =? InitialPathID) && negb (isSome ack) then ret tt else
    do! swf := GetStopWaitingFrame pid false in
    do! _ := (match swf with Some _ => queue_stop_waiting swf pid | None => ret tt end) in
    do! _ := queue_ack ack pid in
    do! packet := (match ack with
                   | Some _ => run_frames env (packetPacker.PackAckPacket (crypto env)) pid now
                   | None => run_pack env (PackPacket env sch) pid now
                   end) in send_or_crash env packet pid now)) as H.
  { apply preserves_if; [apply preserves_ret|]. apply preserves_bind; [apply keeps_stop_waiting|]. intros swf.
    apply preserves_bind; [destruct swf; [apply keeps_queue_stop|apply preserves_ret]|]. intros _.
    apply preserves_bind; [apply keeps_queue_ack|]. intros _. apply preserves_bind.
    - destruct ack; [apply keeps_run_frames; intros; by eapply ack_framer|apply keeps_run_pack, normal_packs].
    - intros [pkt|]; [apply keeps_packed|apply preserves_panic]. }
  destruct ack; [exact H|]. destruct us; [apply preserves_ret|exact H].
Qed.

Lemma keeps_remaining sch us now : keeps (ackRemainingPaths env sch us now).
Proof.
  apply preserves_state. intros s. apply preserves_bind; [destruct us; [apply keeps_window_updates|apply preserves_ret]|]. intros us'.
  apply preserves_state. intros s1. apply preserves_bind; [apply preserves_for_each; intros pid; apply keeps_ack_path|]. intros _.
  apply keeps_blocked.
Qed.

(** *** Retransmissions *)

Lemma keeps_schedule now : keeps (schedulePathsFrame now).
Proof. apply preserves_modify. intros s Hs. apply (live_kept (set_framer s (streamFramer.AddPathsFrameForTransmission (framer s) (map (fun '(pid, p) => (pid, potentiallyFailed p, smoothed p)) (map_to_list (paths s)))))); try done. by apply live_packer. Qed.

Lemma keeps_requeue pid now f : keeps (requeue pid now f).
Proof.
  destruct f; cbn [requeue]; try apply keeps_queue.
  - by apply (keeps_framer (fun fr => streamFramer.AddFrameForRetransmission fr _)).
  - intros s r s' Hs. destruct (flowControlManager.GetReceiveWindow _ _) as [o|e|]; [destruct (o <=? _)|..]; try (by apply preserves_ret); by apply keeps_queue.
  - apply keeps_schedule.
Qed.

Lemma dequeued_ok closed l pkt p : (forall pid q, (pid, q) ∈ l -> path_ok closed pid q) -> dequeue l = Some (pkt, p) -> path_ok closed (pathID p) p.
Proof.
  induction l as [|[pid q] l IH]; intros Hl; [done|]. cbn [dequeue]. unfold sentPacketHandler.DequeuePacketForRetransmission.
  destruct (sentPacketHandler.retransmissionQueue _) as [|x xs]; [apply IH; intros k y Hy; apply Hl; by right|].
  intros [= _ <-]. pose proof (Hl pid q ltac:(left)) as Hq. apply (ok_sent closed pid q); [exact Hq|]. by apply inv_queue, (po_sent _ _ _ Hq).
Qed.

Lemma keeps_loop now n : forall has from, keeps (retransmission_loop n has from now).
Proof.
  induction n as [|n IH]; intros has from s r s' Hs; cbn [retransmission_loop]; (destruct (dequeue _) as [[pkt p]|] eqn:E; [|by intros [= _ <-]]); [done|].
  apply (dequeued_ok (closedPaths s)) in E; [|intros pid q Hq%elem_of_map_to_list; by apply (live_ok s)].
  unfold bind at 1, put_path, modify. pose proof (live_path s p Hs E) as H1. destruct (negb _).
  - destruct (handshakeComplete s); [by apply IH|by intros [= _ <-]].
  - revert H1. match goal with |- _ -> ?m _ = _ -> _ => assert (keeps m) as Hm; [|by apply Hm] end.
    apply preserves_bind; [apply preserves_for_each; intros f; apply keeps_requeue|intros _; apply IH].
Qed.

Lemma keeps_retransmission now : keeps (getRetransmission now).
Proof. intros s r s'. apply keeps_loop. Qed.

(** *** The rounds *)

Context (Pow : float -> float -> float) (collecting : bool) (elapsed : float).

(** The monitor gives a path's controller other parameters and leaves the rest. *)
Definition tuned (v v' : Scheduler.path (C := C)) : Prop :=
  v' = v \/ exists gain backoff, v' = apply_signal v gain backoff.

Lemma applied_tuned order : forall m now m' ps, apply_all Pow m order now elapsed = (m', ps) -> Forall2 tuned order ps.
Proof.
  induction order as [|v order IH]; intros m now m' ps; cbn [apply_all]; [intros [= _ <-]; constructor|].
  unfold monitorApplyUtility. destruct (utilityController m) as [uc|].
  - destruct (Compute Pow uc _ now elapsed) as [sig uc'].
    destruct (apply_all Pow _ order now elapsed) as [m1 ps1] eqn:E. apply IH in E. intros [= _ <-]. constructor; [right; by eexists _, _|done].
  - destruct (apply_all Pow m order now elapsed) as [m1 ps1] eqn:E. apply IH in E. intros [= _ <-]. constructor; [by left|done].
Qed.

Lemma live_put ps : forall s, Forall (fun v => handler_inv (Scheduler.sentHandler v)) ps -> live s -> live (put_views ps s).
Proof.
  induction ps as [|v ps IH]; intros s Hps [Hs Hc]; [by split|]. apply Forall_cons_1 in Hps as [Hv Hps]. apply IH; [done|]. split; [|exact Hc].
  apply inv_set_paths; [exact Hs|..].
  - intros pid p'. rewrite lookup_alter_Some. intros [(<- & p & Hp & ->)|[_ Hp]]; [|by apply (si_paths _ _ _ _ _ Hs)].
    pose proof (si_paths _ _ _ _ _ Hs _ _ Hp) as [E1 E2 E3]. by split.
  - rewrite lookup_alter_is_Some. apply (si_initial _ _ _ _ _ Hs).
  - rewrite dom_alter_L. apply (si_known _ _ _ _ _ Hs).
Qed.

Lemma keeps_monitor sch now : keeps (monitor_pass Pow collecting elapsed sch now).
Proof.
  intros s r s' Hs. unfold monitor_pass, bind at 1, get. destruct (monitor_round _ _ _ _ _ _ _ _) as [m ps] eqn:E.
  unfold monitor_round in E. apply applied_tuned in E. intros [= _ <-]. apply live_put; [|exact Hs].
  assert (Forall (fun v => handler_inv (Scheduler.sentHandler v)) (views s)) as Hv.
  { apply Forall_forall. intros v. unfold views. rewrite list_elem_of_fmap. intros ([pid p] & -> & Hp%elem_of_map_to_list).
    apply (po_sent _ _ _ (live_ok _ _ _ Hs Hp)). }
  clear -E Hv. induction E as [|v v' vs vs' Ht _ IH]; [constructor|]. apply Forall_cons_1 in Hv as [Hv Hvs]. constructor; [|by apply IH].
  destruct Ht as [->|(g & b & ->)]; [exact Hv|]. cbn. by apply (inv_same (Scheduler.sentHandler v)).
Qed.

Lemma keeps_pop {A} (pop : streamFramer.t -> option A * streamFramer.t) frame n :
  (forall f, framer_used f (pop f).2) -> keeps (pop_loop pop frame n).
Proof.
  intros Hp. induction n as [|n IH]; cbn [pop_loop]; [apply preserves_none|].
  intros s r s' Hs. unfold bind at 1, get. pose proof (Hp (framer s)) as Hu. destruct (pop (framer s)) as [x f].
  unfold bind at 1, modify. assert (live (set_framer s f)) as H1 by (by apply live_packer). revert H1.
  match goal with |- _ -> ?m _ = _ -> _ => assert (keeps m) as Hm; [|by apply Hm] end.
  destruct x as [a|]; [|apply preserves_ret]. apply preserves_bind; [apply keeps_queue|done].
Qed.

Lemma keeps_special : keeps queue_special.
Proof.
  apply preserves_state. intros s.
  apply preserves_bind; [apply keeps_pop|intros _; apply preserves_bind; [apply keeps_pop|intros _; apply keeps_pop]];
    intros f; [unfold streamFramer.PopClosePathFrame|unfold streamFramer.PopAddAddressFrame|by split]; by destruct (streamFramer.pop_front _).
Qed.

Lemma keeps_acks b pid now : keeps (queue_acks b pid now).
Proof.
  apply preserves_bind; [apply keeps_GetAckFrame|]. intros ack.
  apply preserves_bind; [destruct ack; [apply keeps_queue_ack|apply preserves_ret]|]. intros _.
  apply preserves_if; [|apply preserves_ret]. apply preserves_bind; [apply keeps_stop_waiting|].
  intros [f|]; [apply keeps_queue_stop|apply preserves_ret].
Qed.

Lemma keeps_duplicate sch pid pkt : keeps (duplicate sch pid pkt).
Proof.
  apply preserves_with_path. intros s p r s' Hs Hp. unfold bind, get. destruct (_ && _); [|by intros [= _ <-]].
  intros [= _ <-]. apply (live_path s (set_sent p (sentPacketHandler.DuplicatePacket (sent p) pkt))); [done|].
  pose proof (live_ok _ _ _ Hs Hp) as Hok. apply (ok_sent (closedPaths s) pid p); [exact Hok|]. exact (proj2 (inv_queue (sent p) _ (0) (po_sent _ _ _ Hok))).
Qed.

Lemma keeps_ping_failed sch from now : keeps (ping_failed env sch from now).
Proof.
  destruct from as [id|]; [|apply preserves_ret]. apply preserves_bind; [apply preserves_path|]. intros p.
  apply preserves_if; [apply keeps_ping|apply preserves_ret].
Qed.

Lemma keeps_handshake pkt pid now : keeps (retransmit_handshake env pkt pid now).
Proof.
  apply preserves_bind; [apply keeps_stop_waiting|]. intros swf. apply preserves_bind; [apply keeps_queue_stop|]. intros _.
  apply preserves_bind; [apply keeps_run_frames; intros; by eapply retransmission_framer|].
  intros [x|]; [apply keeps_packed|apply preserves_panic].
Qed.

Lemma keeps_unused sch now : keeps (finish_unused env sch now).
Proof.
  apply preserves_bind; [apply keeps_window_updates|]. intros us. apply preserves_bind; [apply keeps_remaining|]. intros _. apply preserves_ret.
Qed.

Lemma keeps_send_on send b from sch us pid now : keeps (send sch us pid now) -> keeps (send_on env send b from sch us pid now).
Proof.
  intros Hsend. apply preserves_bind; [apply keeps_acks|]. intros _. apply preserves_bind; [apply keeps_special|]. intros _.
  apply preserves_bind; [exact Hsend|]. intros [sch' [pkt|]]; cbn [fst snd].
  - apply preserves_bind; [apply keeps_duplicate|]. intros _. apply preserves_bind; [apply keeps_ping_failed|]. intros _. apply preserves_ret.
  - apply preserves_bind; [apply keeps_remaining|]. intros _. apply preserves_ret.
Qed.

(** A choice reads the session. *)
Lemma keeps_choose lens has b from sch : keeps (choose env lens has b from sch).
Proof.
  apply preserves_state. intros s. cbv zeta. destruct (selectPath _ _ _ _ _ _ _ _) as [r st].
  apply preserves_bind; [apply preserves_lift|intros p; apply preserves_ret].
Qed.
Lemma keeps_dispatch has sch : keeps (chooseDispatch has sch).
Proof.
  apply preserves_state. intros s. destruct (selectPathDispatch _ _ _ _) as [r l].
  apply preserves_bind; [apply preserves_lift|intros p; apply preserves_ret].
Qed.
Lemma keeps_low_latency has b from sch : keeps (chooseLowLatency has b from sch).
Proof.
  apply preserves_state. intros s. cbv zeta. destruct (selectPathLowLatency _ _ _ _ _ _ _) as [r q].
  apply preserves_bind; [apply preserves_lift|intros p; apply preserves_ret].
Qed.

Lemma keeps_round sch us now : keeps (sendPacket_round env Pow collecting elapsed sch us now).
Proof.
  apply preserves_bind; [apply keeps_monitor|]. intros sch1. apply preserves_state. intros s. apply preserves_bind; [apply preserves_lift|]. intros lens.
  apply preserves_bind; [apply keeps_retransmission|]. intros x. apply preserves_state. intros s1. cbv zeta.
  apply preserves_bind; [apply keeps_choose|]. intros [[pid|] sch2]; cbn [fst snd]; [|apply keeps_unused].
  destruct x.1.2 as [pkt|]; [|apply keeps_send_on, keeps_performs, normal_packs].
  apply preserves_bind; [apply keeps_handshake|]. intros _. apply preserves_ret.
Qed.

Lemma keeps_STMS_round sch us now : keeps (sendPacketSTMS_round env Pow collecting elapsed sch us now).
Proof.
  apply preserves_bind; [apply keeps_monitor|]. intros sch1. apply preserves_state. intros s. apply preserves_bind; [apply preserves_lift|]. intros lens.
  cbv zeta. apply preserves_bind; [apply preserves_lift|]. intros gap.
  apply preserves_bind; [apply keeps_retransmission|]. intros x. apply preserves_state. intros s1.
  apply preserves_bind; [case_decide; [apply keeps_dispatch|apply keeps_choose]|]. intros [[pid|] sch2]; cbn [fst snd]; [|apply keeps_unused].
  destruct x.1.2 as [pkt|]; [|apply keeps_send_on, keeps_performs, STMS_packs].
  apply preserves_bind; [apply keeps_handshake|]. intros _. apply preserves_ret.
Qed.

Lemma keeps_copies rddt b from us now pids : forall first sch, keeps (send_copies env rddt first b from sch us pids now).
Proof.
  induction pids as [|pid pids IH]; intros first sch; cbn [send_copies]; [apply preserves_ret|].
  apply preserves_bind; [|intros x; apply preserves_bind; [apply IH|intros y; apply preserves_ret]].
  apply preserves_bind; [apply keeps_acks|]. intros _. apply preserves_bind; [destruct rddt; apply keeps_performs, redundant_packs|]. intros x.
  apply preserves_bind; [apply keeps_ping_failed|intros _; apply preserves_ret].
Qed.

Lemma keeps_redundant rddt sch us now : keeps (redundant_round env Pow collecting elapsed rddt sch us now).
Proof.
  apply preserves_bind; [apply keeps_retransmission|]. intros x. apply preserves_state. intros s. cbv zeta.
  apply preserves_bind; [apply keeps_low_latency|]. intros y. apply preserves_bind; [apply keeps_monitor|]. intros sch1.
  destruct (redundant_paths s y.1) as [|pid pids]; [apply keeps_unused|]. destruct x.1.2 as [pkt|].
  - apply preserves_bind; [apply keeps_handshake|]. intros _. apply preserves_ret.
  - apply preserves_bind; [apply keeps_special|]. intros _. apply preserves_bind; [apply keeps_copies|]. intros z.
    apply preserves_if; [apply preserves_ret|]. apply preserves_bind; [apply keeps_remaining|intros _; apply preserves_ret].
Qed.

Lemma keeps_rounds step n now : (forall sch us, keeps (step sch us now)) -> forall sch us, keeps (rounds step n sch us now).
Proof.
  intros Hst. induction n as [|n IH]; intros sch us; cbn [rounds]; [apply preserves_none|].
  apply preserves_bind; [apply Hst|]. intros x. apply preserves_if; [apply IH|apply preserves_ret].
Qed.

Lemma keeps_start now : keeps (start_sending now).
Proof.
  apply preserves_bind; [apply keeps_window_updates|]. intros us.
  apply preserves_bind; [apply preserves_for_each; intros u; apply keeps_queue|intros _; apply preserves_ret].
Qed.

Lemma keeps_sending n sch now : keeps (session_sendPacket env Pow collecting elapsed n sch now).
Proof.
  unfold session_sendPacket. cbv zeta. apply preserves_if; [|case_decide; [|case_decide]].
  1-3: apply preserves_bind; [apply keeps_least_unacked|]; intros _; apply preserves_bind; [apply keeps_start|]; intros us; apply keeps_rounds; intros.
  - apply keeps_STMS_round.
  - apply keeps_redundant.
  - apply keeps_redundant.
  - apply preserves_bind; [apply keeps_least_unacked|]; intros _. apply preserves_state; intros s. cbv zeta.
    apply preserves_bind; [apply keeps_start|]; intros us. apply keeps_rounds. intros. apply keeps_round.
Qed.

(** A session that sends stays consistent: whatever the scheduler, the monitor and the utility
    controller do, and however the sending loop ends (also with an error or a panic), the open streams
    are still those with a flow controller, every path is kept under its ID with exact books of the bytes in flight
    and an armed timer, and the initial path is there. *)
Theorem sending_keeps_consistent n sch now s r s' :
  consistent env side s -> has_crypto (framer s) ->
  session_sendPacket env Pow collecting elapsed n sch now s = Some (r, s') ->
  consistent env side s' /\ has_crypto (framer s').
Proof. intros Hs Hc. by apply (keeps_sending n sch now s r s'). Qed.
End Sessions.
