(* ===== verification/SendingSamples.v ===== *)
(** * Sending: concrete runs

    Sessions that send, lose and crash: the theorems of [SendingFacts] at concrete inputs. *)

From stdpp Require Import base numbers list option strings gmap.
From S2P Require Import Prelude ByteOrder Protocol AckRanges AckFrame ClosePathFrame StreamFrame ControlFrames PublicHeader PacketUnpacker PacketPacker FlowControl FrameSorter GoFloat ReceivedPackets RttStats SentPackets Olia UtilityControl Scheduler Monitor StreamsMap GoSlice Stream StreamFramer PackPacket Session SessionFacts SessionSafety Sending SendingFacts.

Local Open Scope Z_scope.
#[local] Existing Instance fixed_window.

Lemma reachable_keyed s : reachable one_window sample_env PerspectiveClient s -> keyed (paths s).
Proof.
  intros Hs. apply reachable_consistent in Hs; [|exact sample_aead|exact sample_limit].
  intros pid p Hp. apply (po_id _ _ _ (si_paths _ _ _ _ _ Hs _ _ Hp)).
Qed.


Definition sch0 : scheduler := scheduler_setup "rtt" None.

(** A PING waits for the first path of the client. *)
Definition pinging (s : session (C := Z)) : session (C := Z) := set_packer s (packetPacker.QueueControlFrame (packer s) FPing InitialPathID).

Lemma sent_packets_are_recorded_witness : exists p', paths (after (perform sample_env (PackPacket sample_env sch0) true sch0 [] 0 2000) (pinging client0)) !! InitialPathID = Some p'
  /\ length (sentPacketHandler.packetHistory (sentPacketHandler.inflight (sent p'))) = 1%nat.
Proof.
  assert (keyed (paths (pinging client0))) as Hk by exact (reachable_keyed _ client0_reachable).
  assert (exists sch' pkt s', perform sample_env (PackPacket sample_env sch0) true sch0 [] 0 2000 (pinging client0) = Some (Ok (sch', Some pkt), s')
    /\ Frames pkt = [FPing] /\ PktEncryptionLevel pkt = EncryptionForwardSecure) as (sch' & pkt & s' & E & Ef & El)
    by (vm_compute; eexists _, _, _; split; [reflexivity|split; reflexivity]).
  destruct (sent_packets_are_recorded sample_env (PackPacket sample_env sch0) true sch0 [] 0 2000 (pinging client0) sch' pkt s' Hk E)
    as (p & p' & bytes & Hp & Hp' & _ & _ & _ & _ & _ & Hh & _).
  exists p'. unfold after. rewrite E. split; [exact Hp'|]. rewrite Hh, Ef.
  assert (p = setup one_window 0 "10.0.0.9:4000" there VersionMP 0) as -> by (vm_compute in Hp; injection Hp as <-; vm_compute; reflexivity). reflexivity.
Defined.

(** Four paths besides the first, two of which were measured. *)
Lemma gaps_divide_by_zero_witness : (forall id, sample_owd id < 2 ^ 63) /\
  gap_loop sample_owd 0 (orderPaths sample_owd (map (fun id => sample_path id 0) [0; 3; 1; 5; 7])).1 100 ∅ = Panic.
Proof.
  assert (forall id, sample_owd id < 2 ^ 63) as H by (intros id; unfold sample_owd; repeat case_match; lia).
  split; [exact H|]. apply (gaps_divide_by_zero sample_owd (map (fun id => sample_path id 0) [0; 3; 1; 5; 7]) 100 H). vm_compute. split; lia.
Defined.

(** The client lost packets on path 1, so that a STOP_WAITING frame is due there. *)
Lemma nil_packet_crashes_witness : exists s', ack_path sample_env sch0 [WindowUpdateFrame.Mk 0 5000] (5 * Second) 1 (pinging client4) = Some (Panic, s').
Proof.
  assert (exists p, paths (pinging client4) !! 1 = Some p) as [p Hp] by (vm_compute; eexists; reflexivity).
  assert (pathID p = 1 /\ (exists rc, receivedPacketHandler.GetAckFrame (rcvd p) (5 * Second) = Ok (None, rc))
    /\ exists f h, sentPacketHandler.GetStopWaitingFrame (sent p) false = (Some f, h)) as (Eid & [rc Ea] & f & h & Es).
  { vm_compute in Hp. injection Hp as <-. vm_compute. split; [reflexivity|]. split; [eexists; reflexivity|eexists _, _; reflexivity]. }
  refine (nil_packet_crashes sample_env sch0 [WindowUpdateFrame.Mk 0 5000] (5 * Second) 1 (pinging client4) p rc f h [] Hp Eid _ _ Ea Es _ _).
  - discriminate.
  - discriminate.
  - vm_compute. reflexivity.
  - vm_compute. reflexivity.
Defined.

(** A session with one path, a window of 1000 bytes and 5000 bytes to send. *)
Definition finished (s : session (C := Z)) : session (C := Z) :=
  MkSession (perspective s) (version s) (paths s) (closedPaths s) (remoteRTTs s) (lastPathsFrameSent s) (packer s) (peerBlocked s)
    true (manager s) (closeErr s) (lastActivity s) (keepAlivePingSent s) (receivedPackets s) (undecryptablePackets s) (tooManyUndecryptable s) (wrote s).
Definition write (id : Z) (p : list Z) (s : session (C := Z)) : session (C := Z) :=
  match streamsMap.streams (streamsMap_ s) !! id with
  | Some str => set_streams s (streamFramer.put (streamsMap_ s) id (stream.Write false str p 0).2) (flow s)
  | None => s
  end.
Definition busy0 : session := after (OpenStream sample_env) (after (OpenStream sample_env)
  (after (open_crypto sample_env) (newSession (fun _ => 1000) sample_env (sample_side false) true "10.0.0.9:4000" there 0))).
Definition busy1 : session := write 5 (repeat 7 5000) (finished busy0).
Definition no_power (x y : float) : float := x.
Definition busy : session := after (sendPacket sample_env no_power false f0 10 sch0 Second) busy1.
Definition sizes (s : session (C := Z)) : list (Z * nat) := map (fun '(pid, bytes) => (pid, length bytes)) (wrote s).

(** The schedulers that respect the window send one packet and wait; RDDT sends everything, and a
    copy of the first packet. *)
Lemma redundancy_floods :
  sizes (after (sendPacket sample_env no_power false f0 20 sch0 Second) busy1) = [(0, 1350%nat)]
  /\ sizes (after (sendPacketSTMS sample_env no_power false f0 20 sch0 Second) busy1) = [(0, 1350%nat)]
  /\ sizes (after (sendPacketRDDT sample_env no_power false f0 20 sch0 Second) busy1)
     = [(0, 1350%nat); (0, 1350%nat); (0, 1350%nat); (0, 1350%nat); (0, 1060%nat)].
Proof. vm_compute. split_and!; reflexivity. Qed.

Lemma single_path_ignores_window_witness : redundant_paths busy None = [InitialPathID]
  /\ exists sch', choose sample_env [5000] false false None sch0 busy = Some (Ok (None, sch'), busy).
Proof.
  assert (exists p, paths busy = {[InitialPathID := p]} /\ pathID p = InitialPathID /\ Scheduler.SendingAllowed (view p) = false) as (p & H1 & H2 & H3)
    by (vm_compute; eexists; split; [reflexivity|split; reflexivity]).
  destruct (single_path_ignores_window sample_env busy p [5000] false sch0 H1 H2 H3) as (Hc & _ & _ & Hr). split; [exact Hr|exact Hc].
Defined.

(** The peer closes path 1 of the client, and the path's goroutine ends.  A BLOCKED frame then has the client send a
    window update on that path, and after a second one it never comes back, whatever the fuel. *)
Definition closed_path : session (C := Z) :=
  after (path_run_closed 1) (after (path_run_sent 1) (after (handleClosePathFrame (ClosePathFrame.Mk 1 (MkAcked 1 1 [])) 2000) (finished client1))).
Definition blocked (now : Z) (s : session (C := Z)) : session (C := Z) := after (handleFrame one_window sample_env (FBlocked (BlockedFrame.Mk 0)) 0 now now) s.
Definition signalled : session (C := Z) := after (session_sendPacket sample_env no_power false f0 20 sch0 3000) (blocked 3000 closed_path).

Lemma blocked_frames_hang_session :
  (exists sch, session_sendPacket sample_env no_power false f0 20 sch0 3000 (blocked 3000 closed_path) = Some (Ok sch, signalled))
  /\ sizes signalled = sizes closed_path ++ [(1, 50%nat)]
  /\ forall n, session_sendPacket sample_env no_power false f0 n sch0 4000 (blocked 4000 signalled) = None.
Proof.
  split; [|split]; [eexists; vm_compute; reflexivity|vm_compute; reflexivity|].
  intros [|n]; vm_compute; reflexivity.
Qed.

Lemma ended_path_blocks_witness : exists p, paths signalled !! 1 = Some p /\ sentPacket p = true
  /\ sendPackedPacket sample_env (ping_packet 9) 1 true 4000 signalled = None.
Proof.
  assert (keyed (paths signalled)) as Hk.
  { intros k p. revert k p. change (map_Forall (fun k p => pathID p = k) (paths signalled)). apply (bool_decide_unpack _). vm_compute. exact I. }
  assert ((fun p => (open p, sentPacket p, (sentPacketHandler.SentPacket (sent p) (MkPacket 9 [FPing] 1 EncryptionForwardSecure 0 true) 4000).1)) <$> paths signalled !! 1
    = Some (false, true, None)) as Hx by (vm_compute; reflexivity).
  destruct (paths signalled !! 1) as [p|] eqn:Hp; [|discriminate Hx]. cbn [fmap option_fmap option_map] in Hx. injection Hx as Ho Et Es.
  exists p. split; [reflexivity|]. split; [exact Et|].
  pose proof (ended_path_blocks sample_env (ping_packet 9) 1 true 4000 signalled p _ Hk Hp Ho (injective_projections _ (None, _) Es eq_refl)) as H.
  rewrite Et in H. exact H.
Defined.
