(* ===== verification/SendingBounded.v ===== *)
(** * Sending ends

    The loops of [sendPacket] and [sendPacketSTMS] run until there is nothing to send, or no path to send on.
    That they end is not in their code: it follows from the limit on the packets a path keeps track of.  Every round
    that is followed by another sends a packet the path must keep, sends an acknowledgement that was due, or takes
    a packet of the handshake out of a queue; what is left of all three, counted together, bounds the number of rounds. *)

From stdpp Require Import base numbers list option strings gmap.
From S2P Require Import Prelude ByteOrder Protocol AckFrame ClosePathFrame StreamFrame ControlFrames PublicHeader PacketUnpacker PacketPacker FlowControl FrameSorter GoFloat ReceivedPackets RttStats SentPackets Olia UtilityControl Scheduler Monitor StreamsMap GoSlice Stream StreamFramer PackPacket Session SessionFacts SessionSafety Sending SendingFacts SendingKeeps.

Local Open Scope Z_scope.
#[local] Notation "'do!' x ':=' m 'in' k" := (bind m (fun x => k)) (at level 10, x name, m at level 99, k at level 200).

#[local] Existing Instance map_used_preorder.
#[local] Existing Instance framer_used_preorder.

(** ** Sums over a map *)

Section Total.
Context {A : Type} (f : A -> Z).
Implicit Types (m : gmap Z A).

Definition sum_over m : Z := foldr (fun x n => f x.2 + n) 0 (map_to_list m).

Lemma sum_over_perm (l l' : list (Z * A)) : l ≡ₚ l' -> foldr (fun x n => f x.2 + n) 0 l = foldr (fun x n => f x.2 + n) 0 l'.
Proof. induction 1; cbn; lia. Qed.

Lemma sum_over_delete m k x : m !! k = Some x -> sum_over m = f x + sum_over (delete k m).
Proof. intros H. unfold sum_over. by rewrite <- (sum_over_perm _ _ (map_to_list_delete m k x H)). Qed.

Lemma sum_over_insert m k x y : m !! k = Some x -> sum_over (<[k := y]> m) = sum_over m - f x + f y.
Proof.
  intros H. rewrite (sum_over_delete m k x H), (sum_over_delete (<[k := y]> m) k y) by apply lookup_insert_eq.
  rewrite delete_insert_eq. lia.
Qed.

Lemma sum_over_nonneg m : (forall x, 0 <= f x) -> 0 <= sum_over m.
Proof. intros Hf. unfold sum_over. induction (map_to_list m) as [|[k x] l IH]; cbn; [lia|]. specialize (Hf x). lia. Qed.

Lemma sum_over_member m k x : (forall x, 0 <= f x) -> m !! k = Some x -> f x <= sum_over m.
Proof. intros Hf H. rewrite (sum_over_delete m k x H). pose proof (sum_over_nonneg (delete k m) Hf). lia. Qed.

(** What is there was there before and did not cost less. *)
Lemma sum_over_le m : (forall x, 0 <= f x) -> forall m0, (forall k x, m !! k = Some x -> exists x0, m0 !! k = Some x0 /\ f x <= f x0) -> sum_over m <= sum_over m0.
Proof.
  intros Hf. induction m as [|k x m Hk IH] using map_ind; intros m0 H.
  - unfold sum_over at 1. rewrite map_to_list_empty. by apply sum_over_nonneg.
  - destruct (H k x (lookup_insert_eq m k x)) as (x0 & H0 & Hx). rewrite (sum_over_delete _ k x) by apply lookup_insert_eq.
    rewrite delete_insert_eq, delete_id by done. rewrite (sum_over_delete m0 k x0 H0). enough (sum_over m <= sum_over (delete k m0)) by lia.
    apply IH. intros j y Hj. assert (k <> j) as Hne by (intros ->; congruence).
    destruct (H j y) as (y0 & Hy0 & Hy); [by rewrite lookup_insert_ne|]. exists y0. by rewrite lookup_delete_ne.
Qed.
End Total.

(** ** What is left to do *)

Section Cost.
Context {C : Type} `{!SendAlgorithm C} (env : Env) (side : Perspective).

Abbreviation path := (Session.path (C := C)).
Abbreviation session := (Session.session (C := C)).
Implicit Types (s : session) (p : path).
Abbreviation live := (live env side).
Abbreviation keeps := (preserves live).

Definition history p : list Packet := sentPacketHandler.packetHistory (sentPacketHandler.inflight (sent p)).

(** The packets a path may still keep track of, whether an acknowledgement is due, and the packets that wait. *)
Definition slots p : Z := Z.max 0 (MaxTrackedSentPackets - Z.of_nat (length (history p))).
Definition ack_due p (now : Z) : bool :=
  receivedPacketHandler.ackQueued (rcvd p) || match receivedPacketHandler.ackAlarm (rcvd p) with None => false | Some a => negb (now <? a) end.
Definition path_cost (now : Z) p : Z := 2 * slots p + (if ack_due p now then 2 else 0) + Z.of_nat (length (waiting_packets p)).

(** Frames the packer holds that need no acknowledgement. *)
Definition bare (f : Frame) : bool := negb (IsFrameRetransmittable f).
Definition packer_cost (pk : packetPacker.t) : Z :=
  2 * (Z.of_nat (size (packetPacker.ackFrame pk)) + Z.of_nat (length (List.filter bare (packetPacker.controlFrames pk)))).

Definition cost (now : Z) s : Z := sum_over (path_cost now) (paths s) + packer_cost (packer s).

(** The lists fit into memory. *)
Definition in_memory s : Prop := forall pid p, paths s !! pid = Some p -> Z.of_nat (length (history p)) < 2 ^ 62.

Lemma path_cost_nonneg now p : 0 <= path_cost now p.
Proof. unfold path_cost, slots. destruct (ack_due p now); lia. Qed.

Lemma cost_nonneg now s : 0 <= cost now s.
Proof. unfold cost, packer_cost. pose proof (sum_over_nonneg (path_cost now) (paths s) (path_cost_nonneg now)). lia. Qed.

(** *** Calls that cost nothing *)

(** The paths and queues were left as they are, or there is less in them. *)
Record no_dearer (now : Z) s s' : Prop := {
  nd_paths : forall pid p', paths s' !! pid = Some p' -> exists p, paths s !! pid = Some p /\ length (history p') = length (history p) /\ path_cost now p' <= path_cost now p;
  nd_packer : packer_cost (packer s') <= packer_cost (packer s);
}.

Lemma no_dearer_cost now s s' : no_dearer now s s' -> cost now s' <= cost now s.
Proof.
  intros [H1 H2]. unfold cost. enough (sum_over (path_cost now) (paths s') <= sum_over (path_cost now) (paths s)) by lia.
  apply sum_over_le; [apply path_cost_nonneg|]. intros pid p' Hp. destruct (H1 pid p' Hp) as (p & Hp0 & _ & Hc). by exists p.
Qed.

Lemma no_dearer_memory now s s' : no_dearer now s s' -> in_memory s -> in_memory s'.
Proof. intros [H _] Hm pid p' Hp. destruct (H pid p' Hp) as (p & Hp0 & -> & _). by eapply Hm. Qed.

Lemma no_dearer_packer now s pk : packer_cost pk <= packer_cost (packer s) -> no_dearer now s (set_packer s pk).
Proof. intros H. split; [|done]. intros pid p Hp. by exists p. Qed.

Lemma no_dearer_path now s pid p p' : paths s !! pid = Some p -> pathID p' = pid -> length (history p') = length (history p) -> path_cost now p' <= path_cost now p ->
  no_dearer now s (set_paths s (<[pathID p' := p']> (paths s))).
Proof.
  intros Hp Hid Hl Hc. split; [|done]. intros k q. cbn. rewrite Hid. destruct (decide (pid = k)) as [<-|Hne].
  - rewrite lookup_insert_eq. intros [= <-]. by exists p.
  - rewrite lookup_insert_ne by done. intros Hq. by exists q.
Qed.

(** *** Bounds *)

(** A session within a bound. *)
Definition within (now b : Z) s : Prop := in_memory s /\ cost now s <= b.

(** A call that ends well leaves at least [d a] less to do. *)
Definition spends {A} (now : Z) (m : M (C := C) A) (d : A -> Z) : Prop := forall b s a s',
  b < 2 ^ 62 -> live s -> within now b s -> m s = Some (Ok a, s') -> within now (b - d a) s'.
Abbreviation free now m := (spends now m (fun _ => 0)).

Lemma spends_less {A} now (m : M A) d d' : (forall a, d' a <= d a) -> spends now m d -> spends now m d'.
Proof. intros Hd Hm b s a s' Hb Hl Hw E. destruct (Hm b s a s' Hb Hl Hw E) as [H1 H2]. specialize (Hd a). split; [done|lia]. Qed.

Lemma spends_bind {A B} now (m : M A) (k : A -> M B) (d : A -> Z) e : keeps m -> (forall a, 0 <= d a) -> spends now m d ->
  (forall a, spends now (k a) (fun x => e x - d a)) -> spends now (bind m k) e.
Proof.
  intros Hkeep Hd Hm Hk b s x s' Hb Hl Hw (a & s1 & E1 & E2)%bind_value. specialize (Hd a).
  destruct (Hk a (b - d a) s1 x s' ltac:(lia) (Hkeep _ _ _ Hl E1) (Hm _ _ _ _ Hb Hl Hw E1) E2) as [H1 H2]. split; [done|lia].
Qed.

Lemma free_bind {A B} now (m : M A) (k : A -> M B) e : keeps m -> free now m -> (forall a, spends now (k a) e) -> spends now (bind m k) e.
Proof.
  intros Hkeep Hm Hk. apply (spends_bind now m k (fun _ => 0)); [done|done|done|]. intros a. eapply spends_less; [|apply Hk]. intros x. lia.
Qed.

Lemma spends_idle {A} now (m : M A) : (forall s a s', live s -> m s = Some (Ok a, s') -> no_dearer now s s') -> free now m.
Proof.
  intros Hm b s a s' _ Hl [H1 H2] E. apply Hm in E; [|done]. split; [by eapply no_dearer_memory|]. pose proof (no_dearer_cost _ _ _ E). lia.
Qed.

Lemma no_dearer_refl now s : no_dearer now s s.
Proof. split; [|done]. intros pid p Hp. by exists p. Qed.

Lemma free_ret {A} now (a : A) : free now (ret a).
Proof. apply spends_idle. intros s x s' _ [= _ <-]. apply no_dearer_refl. Qed.
Lemma free_lift {A} now (x : res A) : free now (lift x).
Proof. apply spends_idle. intros s a s' _ [= _ <-]. apply no_dearer_refl. Qed.
Lemma free_get now : free now get.
Proof. apply spends_idle. intros s a s' _ [= _ <-]. apply no_dearer_refl. Qed.
Lemma free_path now pid : free now (the_path pid).
Proof. apply spends_idle. intros s a s' _ [_ ->]%the_path_value. apply no_dearer_refl. Qed.
Lemma free_if {A} now (b : bool) (m1 m2 : M A) d : spends now m1 d -> spends now m2 d -> spends now (if b then m1 else m2) d.
Proof. by destruct b. Qed.
Lemma spends_panic {A} now d : spends now (panic (A := A)) d.
Proof. by intros b s a s'. Qed.
Lemma free_state {B} now (k : session -> M B) d : (forall s, spends now (k s) d) -> spends now (bind get k) d.
Proof. intros H. apply free_bind; [apply preserves_get|apply free_get|exact H]. Qed.
Lemma free_modify now f : (forall s, no_dearer now s (f s)) -> free now (modify f).
Proof. intros Hf. apply spends_idle. by intros s a s' _ [= _ <-]. Qed.
Lemma free_for_each {A} now (f : A -> M Datatypes.unit) l : (forall a, keeps (f a)) -> (forall a, free now (f a)) -> free now (for_each f l).
Proof. intros Hk Hf. induction l; [apply free_ret|]. by apply free_bind. Qed.

(** *** Queues *)

Lemma bare_app (l l' : list Frame) : length (List.filter bare (l ++ l')) = (length (List.filter bare l) + length (List.filter bare l'))%nat.
Proof. by rewrite List.filter_app, length_app. Qed.

Definition no_ack (f : Frame) : Prop := match f with FAck _ | FStopWaiting _ => False | _ => True end.

Lemma queue_cost (pk : packetPacker.t) f pid : no_ack f -> packer_cost (packetPacker.QueueControlFrame pk f pid) <= packer_cost pk.
Proof.
  intros Hf. assert (packetPacker.QueueControlFrame pk f pid = packetPacker.set_control pk (packetPacker.controlFrames pk ++ [f])) as -> by (by destruct f).
  unfold packer_cost. cbn. rewrite bare_app. destruct f; done || (cbn; lia).
Qed.

Lemma free_queue now f pid : no_ack f -> free now (queue f pid).
Proof. intros Hf. apply free_modify. intros s. by apply no_dearer_packer, queue_cost. Qed.

Lemma free_queue_stop now f pid : free now (queue_stop_waiting f pid).
Proof. destruct f; apply free_modify; intros s; apply no_dearer_packer; unfold packer_cost; cbn; lia. Qed.

Lemma free_stop_waiting now pid force : free now (GetStopWaitingFrame pid force).
Proof.
  apply spends_idle. intros s f s' Hl (p & s1 & [Hp ->]%the_path_value & E)%bind_value. unfold sentPacketHandler.GetStopWaitingFrame in E.
  destruct (stopWaitingManager.GetStopWaitingFrame _ _) as [x w]. injection E as _ <-.
  match goal with |- no_dearer _ _ (set_paths _ (<[_ := ?q]> _)) => apply (no_dearer_path now s pid p q) end; try done. apply (po_id _ _ _ (live_ok _ _ _ _ _ Hl Hp)).
Qed.

Lemma free_least_unacked now : free now set_least_unacked.
Proof.
  apply free_modify. intros s. split; [|done]. intros pid q. cbn. rewrite lookup_fmap_Some. intros (p & <- & Hp). exists p. by split_and!.
Qed.

Lemma free_window_updates now force t : free now (getWindowUpdateFrames force t).
Proof.
  apply spends_idle. intros s us s' _ (p & s1 & [Hp ->]%the_path_value & E)%bind_value. unfold bind at 1, get in E.
  destruct (flowControlManager.GetWindowUpdates _ _ _ _ _ _) as [us1 fl]. injection E as _ <-. by apply no_dearer_packer.
Qed.

(** An acknowledgement that is taken was due, and the path owes it no longer. *)
Lemma ack_taken now pid s ack s' : live s -> GetAckFrame pid now s = Some (Ok ack, s') ->
  packer s' = packer s /\ (in_memory s -> in_memory s') /\ cost now s' + (if isSome ack then 2 else 0) <= cost now s.
Proof.
  intros Hl (p & ? & [Hp ->]%the_path_value & E)%bind_value. pose proof (po_id _ _ _ (live_ok _ _ _ _ _ Hl Hp)) as Hid.
  apply bind_value in E as ([a r] & ? & E1 & E2). unfold lift in E1. injection E1 as Eg <-.
  apply bind_value in E2 as (? & ? & E3 & E4). injection E3 as _ <-. injection E4 as <- <-. cbn [fst snd].
  assert (in_memory s -> in_memory (set_paths s (<[pathID p := set_rcvd p r (lastRcvdPacketNumber p) (largestRcvdPacketNumber p)]> (paths s)))) as Hm.
  { intros Hm k q. cbn. rewrite Hid. destruct (decide (pid = k)) as [<-|Hne]; [rewrite lookup_insert_eq; intros [= <-]; exact (Hm pid p Hp)|].
    rewrite lookup_insert_ne by done. apply Hm. }
  split; [done|]. split; [exact Hm|]. unfold cost. cbn [packer set_paths paths set_rcvd pathID]. rewrite Hid, (sum_over_insert _ _ pid p) by done.
  enough (path_cost now (set_rcvd p r (lastRcvdPacketNumber p) (largestRcvdPacketNumber p)) + (if isSome (option_map (fun x => AckFrame.Mk (pathID p) (AckFrame.acked x) (AckFrame.PacketReceivedTime x) (AckFrame.DelayTime x)) a) then 2 else 0) <= path_cost now p)
    by (unfold set_rcvd in *; rewrite Hid in *; lia).
  unfold path_cost, slots, history, waiting_packets, ack_due. cbn [sent rcvd set_rcvd]. unfold receivedPacketHandler.GetAckFrame in Eg.
  destruct (receivedPacketHandler.ackQueued (rcvd p)) eqn:Eq; cbn [negb andb orb] in *.
  - destruct (receivedPacketHandler.reported (rcvd p)) as [rp|e|]; [|done..]. injection Eg as <- <-. cbn. lia.
  - destruct (receivedPacketHandler.ackAlarm (rcvd p)) as [al|] eqn:Ea.
    + destruct (now <? al) eqn:El; [injection Eg as <- <-; cbn; rewrite Eq, Ea, El; cbn; lia|].
      destruct (receivedPacketHandler.reported (rcvd p)) as [rp|e|]; [|done..]. injection Eg as <- <-. cbn. lia.
    + injection Eg as <- <-. cbn. rewrite Eq, Ea. cbn. lia.
Qed.

Lemma queue_ack_cost (pk : packetPacker.t) a pid : packer_cost (packetPacker.QueueControlFrame pk (FAck a) pid) <= packer_cost pk + 2.
Proof.
  unfold packer_cost. cbn [packetPacker.QueueControlFrame packetPacker.set_acks packetPacker.ackFrame packetPacker.controlFrames].
  rewrite map_size_insert. destruct (packetPacker.ackFrame pk !! pid); unfold id; lia.
Qed.

(** What is due on a path moves to the packer. *)
Lemma free_acks now b pid : free now (queue_acks b pid now).
Proof.
  intros bd s x s' Hb Hl [Hm Hc] (ack & s1 & E1 & (u & s2 & E2 & E3)%bind_value)%bind_value.
  pose proof (keeps_GetAckFrame _ _ pid now _ _ _ Hl E1) as Hl1. apply ack_taken in E1 as (Ep & Hm1 & Hc1); [|done].
  assert (live s2) as Hl2 by (destruct ack; [by eapply keeps_queue_ack|by injection E2 as _ <-]).
  assert (within now bd s2) as Hw2.
  { destruct ack as [a|]; injection E2 as _ <-; cbn [isSome] in Hc1; (split; [exact (Hm1 Hm)|]); [|lia].
    unfold cost in Hc, Hc1 |- *. pose proof (queue_ack_cost (packer s1) a pid) as Hq. rewrite Ep in *. cbn [paths packer set_packer packetPacker.QueueControlFrame] in *. lia. }
  revert E3. apply (free_if now (isSome ack || b)) with (d := fun _ => 0); [|apply free_ret|done..].
  apply free_bind; [apply keeps_stop_waiting|apply free_stop_waiting|]. intros [f|]; [apply free_queue_stop|apply free_ret].
Qed.

(** *** Packing *)

Definition bares (fs : list Frame) : Z := Z.of_nat (length (List.filter bare fs)).

Lemma bares_app fs gs : bares (fs ++ gs) = bares fs + bares gs.
Proof. unfold bares. rewrite bare_app. lia. Qed.
Lemma bares_rev fs : bares (rev fs) = bares fs.
Proof. induction fs as [|f fs IH]; [done|]. cbn [rev]. rewrite bares_app, IH. unfold bares. cbn. destruct (bare f); cbn; lia. Qed.
Lemma bares_nonneg fs : 0 <= bares fs.
Proof. unfold bares. lia. Qed.

(** Control frames are packed or stay. *)
Lemma control_loop_bares todo : forall x n r rest, packetPacker.control_loop todo x n = (Ok r, rest) -> exists took, todo = took ++ rest /\ r.1 = x.1 ++ took.
Proof.
  induction todo as [|f todo IH]; intros x n r rest; cbn [packetPacker.control_loop]; [intros [= <- <-]; exists []; split; [done|by rewrite app_nil_r]|].
  destruct (Frame_MinLength f) as [l|e|]; [|done..]. cbn [or_panic]. destruct (n <? _).
  - intros [= <- <-]. exists []. split; [done|by rewrite app_nil_r].
  - intros (took & -> & E)%IH. exists (f :: took). split; [done|]. rewrite E. cbn. by rewrite <- app_assoc.
Qed.

Lemma blocked_bares k : forall f cs cs' f', packetPacker.take_blocked k f cs = (cs', f') -> bares cs' = bares cs.
Proof.
  induction k as [|k IH]; intros f cs cs' f'; cbn [packetPacker.take_blocked]; [by intros [= <- _]|].
  destruct (streamFramer.PopBlockedFrame f) as [[b|] f1]; [|by intros [= <- _]]. intros ->%IH. rewrite bares_app. unfold bares at 2. cbn. lia.
Qed.

(** The payload: what is waiting for the path, control frames and stream frames. *)
Definition heads (pk : packetPacker.t) (pid : Z) : list Frame :=
  option_list (FStopWaiting <$> packetPacker.stopWaiting pk !! pid) ++ option_list (FAck <$> packetPacker.ackFrame pk !! pid).

Definition takes (compose : packetPacker.t -> Z -> Z -> bool -> res (list Frame) * packetPacker.t) : Prop := forall (pk : packetPacker.t) pid n can fs (pk' : packetPacker.t),
  compose pk pid n can = (Ok fs, pk') ->
  packetPacker.ackFrame pk' = packetPacker.ackFrame pk /\ packetPacker.stopWaiting pk' = packetPacker.stopWaiting pk
  /\ exists took ss, fs = heads pk pid ++ took ++ map FStream ss /\ bares (packetPacker.controlFrames pk') + bares took = bares (packetPacker.controlFrames pk).

Lemma add_sized_value f x y : packetPacker.add_sized f x = Ok y -> y.1 = x.1 ++ [f].
Proof. unfold packetPacker.add_sized. destruct (Frame_MinLength f) as [l|e|]; [|done..]. by intros [= <-]. Qed.

Lemma compose_takes pop : takes (packetPacker.compose_with pop).
Proof.
  intros pk pid n can fs pk'. unfold packetPacker.compose_with, or_panic.
  destruct (match packetPacker.stopWaiting pk !! pid with Some f => _ | None => _ end) as [x1|e|] eqn:E1; [|done..].
  destruct (match packetPacker.ackFrame pk !! pid with Some f => _ | None => _ end) as [x2|e|] eqn:E2; [|done..].
  assert (x2.1 = heads pk pid) as Eh.
  { unfold heads. destruct (packetPacker.stopWaiting pk !! pid) as [w|]; [apply add_sized_value in E1; cbn in E1|injection E1 as <-];
      (destruct (packetPacker.ackFrame pk !! pid) as [a|]; [apply add_sized_value in E2; rewrite E2|injection E2 as <-]); cbn; rewrite ?E1; done. }
  destruct (packetPacker.control_loop _ _ _) as [[x3|e|] rest] eqn:E3; [|done..]. apply control_loop_bares in E3 as (took & Ec & Ef). rewrite Eh in Ef.
  assert (bares (rev rest) + bares took = bares (packetPacker.controlFrames pk)) as Hb
    by (rewrite <- (bares_rev (packetPacker.controlFrames pk)), Ec, bares_app, bares_rev; lia).
  destruct (n <? x3.2); [done|]. destruct can; cbn [negb].
  - destruct (pop _ _ _) as [[ss|e|] [f ue]]; [|done..]. destruct (packetPacker.take_blocked _ _ _) as [cs f1] eqn:Eb. apply blocked_bares in Eb.
    intros [= <- <-]. cbn in *. split; [done|]. split; [done|]. exists took, (packetPacker.omit_last_length ss). rewrite Ef, <- app_assoc. split; [done|]. lia.
  - intros [= <- <-]. split; [done|]. split; [done|]. exists took, []. rewrite Ef. cbn. by rewrite app_nil_r.
Qed.

(** A packet that is packed has to be kept track of, or has what was waiting to be acknowledged. *)
Definition pays (pk pk' : packetPacker.t) (x : option packetPacker.packedPacket) : Prop :=
  packer_cost pk' <= packer_cost pk /\ forall pkt, x = Some pkt -> List.filter IsFrameRetransmittable (packetPacker.frames pkt) <> [] \/ packer_cost pk' + 2 <= packer_cost pk.

Lemma finish_frames (p : packetPacker.t) h lvl sealer fs sp now rd x (p' : packetPacker.t) sp' :
  packetPacker.finish p h lvl sealer fs sp now rd = (Ok x, (p', sp')) -> p' = p /\ exists raw, x = Some (packetPacker.MkPacked (PublicHeader.PacketNumber h) raw fs lvl).
Proof.
  unfold packetPacker.finish. destruct (writeAndSealPacket _ _ _ _ _ _ _) as [[raw|e|] sp1]; [|done..]. cbn. intros [= <- <- _]. split; [done|by eexists].
Qed.

Lemma crypto_pays cr n pk sp now rd x pk' sp' : packetPacker.packCryptoPacket cr n pk sp now rd = Some (Ok x, (pk', sp')) -> pays pk pk' x.
Proof.
  unfold packetPacker.packCryptoPacket. destruct (packetPacker.GetSealerForCryptoStream cr) as [lvl sealer]. destruct (PublicHeader.GetLength _ _) as [len|e|]; [|done..].
  cbv zeta. destruct (streamFramer.PopCryptoStreamFrame _ _ _) as [[[[f|]|e|] fr]|]; [|done..]. intros E. injection E as E.
  apply finish_frames in E as (-> & raw & ->). split; [done|]. intros pkt [= <-]. by left.
Qed.

Lemma all_bare fs : List.filter IsFrameRetransmittable fs = [] -> bares fs = Z.of_nat (length fs).
Proof. induction fs as [|f fs IH]; [done|]. unfold bares, bare in *. cbn. destruct (IsFrameRetransmittable f); [done|]. intros H%IH. cbn. lia. Qed.

Lemma heads_pay (pk : packetPacker.t) pid took ss c :
  let fs := heads pk pid ++ took ++ map FStream ss in
  fs <> [] -> ~ (length fs = 1%nat /\ is_Some (packetPacker.stopWaiting pk !! pid)) -> c + bares took = bares (packetPacker.controlFrames pk) ->
  2 * (Z.of_nat (size (delete pid (packetPacker.ackFrame pk))) + c) <= packer_cost pk
  /\ (List.filter IsFrameRetransmittable fs <> [] \/ 2 * (Z.of_nat (size (delete pid (packetPacker.ackFrame pk))) + c) + 2 <= packer_cost pk).
Proof.
  intros fs Hne Hone Hc. unfold packer_cost. fold (bares (packetPacker.controlFrames pk)). rewrite map_size_delete. pose proof (bares_nonneg took).
  assert (forall a, packetPacker.ackFrame pk !! pid = Some a -> (0 < size (packetPacker.ackFrame pk))%nat) as Hsz.
  { intros a Ha. assert (size (packetPacker.ackFrame pk) <> 0%nat); [|lia]. intros E%map_size_empty_inv. by rewrite E, lookup_empty in Ha. }
  split; [destruct (packetPacker.ackFrame pk !! pid) as [a|]; unfold id; lia|].
  destruct (decide (List.filter IsFrameRetransmittable fs = [])) as [Hb|]; [right|by left]. unfold fs in Hb. rewrite !List.filter_app in Hb.
  apply app_eq_nil in Hb as [_ [Hb Hs]%app_eq_nil]. destruct ss as [|f ss]; [|done]. apply all_bare in Hb.
  destruct (packetPacker.ackFrame pk !! pid) as [a|] eqn:Ea; [specialize (Hsz a eq_refl); unfold id; lia|]. destruct took as [|f took]; [exfalso|cbn [length] in Hb; unfold id; lia].
  unfold fs, heads in *. rewrite Ea in *. destruct (packetPacker.stopWaiting pk !! pid); [apply Hone; by split|by apply Hne].
Qed.

(** The end of a call of the packer, for a payload [fs]. *)
Lemma payload_pays b (q pk : packetPacker.t) pid h lvl sealer fs sp now rd x (pk' : packetPacker.t) sp' :
  let q' := packetPacker.set_acks q (delete pid (packetPacker.stopWaiting q)) (delete pid (packetPacker.ackFrame q)) in
  packer_cost q <= packer_cost pk ->
  (fs <> [] -> ~ (length fs = 1%nat /\ is_Some (packetPacker.stopWaiting q !! pid)) ->
    packer_cost q' <= packer_cost pk /\ (List.filter IsFrameRetransmittable fs <> [] \/ packer_cost q' + 2 <= packer_cost pk)) ->
  (if (length fs =? 0)%nat then (Ok None, (q, sp))
   else if ((length fs =? 1)%nat && bool_decide (is_Some (packetPacker.stopWaiting q !! pid))) then (Ok None, (q, sp))
   else match packetPacker.finish q' h lvl sealer fs sp now rd with
        | (Ok (Some (packetPacker.MkPacked _ None _ _)), st) as res => if (b : bool) then (Ok None, st) else res
        | res => res
        end) = (Ok x, (pk', sp')) -> pays pk pk' x.
Proof.
  intros q' Hq Hfs. destruct (Nat.eqb_spec (length fs) 0) as [|Hne]; [by intros [= <- <- _]|].
  destruct ((length fs =? 1)%nat && _) eqn:El; [by intros [= <- <- _]|].
  destruct Hfs as [H1 H2]; [by intros ->|intros [Hl Hs]; by rewrite Hl, bool_decide_true in El|].
  destruct (packetPacker.finish q' h lvl sealer fs sp now rd) as [[x1|e|] [q1 sp1]] eqn:E; [|done..]. apply finish_frames in E as (-> & raw & ->).
  assert (pays pk q' (Some (packetPacker.MkPacked (PublicHeader.PacketNumber h) raw fs lvl))) as Hp by (split; [done|]; by intros pkt [= <-]).
  destruct raw; [by intros [= <- <- _]|]. destruct b; intros [= <- <- _]; [by split|done].
Qed.

Lemma ping_first cs : packetPacker.isPing cs = true -> exists l, cs = FPing :: l.
Proof. destruct cs as [|[] l]; try done. by exists l. Qed.

Lemma pack_pays cr n compose b (pk : packetPacker.t) sp now rd x (pk' : packetPacker.t) sp' :
  takes compose -> packetPacker.pack_with cr n compose b pk sp now rd = Some (Ok x, (pk', sp')) -> pays pk pk' x.
Proof.
  intros Ht. unfold packetPacker.pack_with. destruct (streamFramer.HasCryptoStreamFrame _ _) as [[[[]|e|] f]|]; [|..|done|done|done].
  { by intros ?%crypto_pays. }
  destruct (packetPacker.GetSealer cr) as [lvl sealer]. unfold or_panic. destruct (PublicHeader.GetLength _ _) as [len|e|]; [|done..]. cbv zeta. intros E. apply (inj Some) in E. revert E.
  set (q := packetPacker.number_stop_waiting _ _ _). assert (packer_cost q = packer_cost pk) as Eq by done. clearbody q.
  match goal with |- context [let '(r, p) := ?y in _] => destruct y as [r p] eqn:E1 end. destruct r as [fs|e|]; [|done..].
  apply payload_pays with (b := b).
  - rewrite <- Eq. destruct (packetPacker.isPing _) eqn:Ep; [|apply Ht in E1 as (Ea & _ & took & ss & _ & Hb)].
    + apply ping_first in Ep as [cs Ec]. rewrite Ec in E1. injection E1 as _ <-. unfold packer_cost. cbn. by rewrite Ec, ?drop_0.
    + unfold packer_cost, bares in *. pose proof (bares_nonneg took). unfold bares in *. rewrite Ea. lia.
  - rewrite <- Eq. destruct (packetPacker.isPing _) eqn:Ep; [|apply Ht in E1 as (Ea & Ew & took & ss & -> & Hb)].
    + apply ping_first in Ep as [cs Ec]. rewrite Ec in E1. injection E1 as <- <-. intros _ _. split; [|by left].
      unfold packer_cost. cbn [packetPacker.set_acks packetPacker.set_control packetPacker.ackFrame packetPacker.controlFrames take drop]. rewrite Ec, ?drop_0, map_size_delete. cbn. destruct (packetPacker.ackFrame q !! _); unfold id; lia.
    + rewrite Ew, Ea. intros Hne Hone. exact (heads_pay q _ took ss (bares (packetPacker.controlFrames p)) Hne Hone Hb).
Qed.

(** *** Packets *)

(** A packet that is kept track of takes a place that was free. *)
Lemma sent_room (h h' : sentPacketHandler.t (C := C)) packet now :
  sentPacketHandler.SentPacket h packet now = (None, h') ->
  Z.of_nat (length (sentPacketHandler.retransmissionQueue (sentPacketHandler.inflight h))) + Z.of_nat (length (sentPacketHandler.packetHistory (sentPacketHandler.inflight h))) + 1 < 2 ^ 64 ->
  sentPacketHandler.retransmissionQueue (sentPacketHandler.inflight h') = sentPacketHandler.retransmissionQueue (sentPacketHandler.inflight h)
  /\ Z.of_nat (length (sentPacketHandler.packetHistory (sentPacketHandler.inflight h))) + 1 <= MaxTrackedSentPackets.
Proof.
  unfold sentPacketHandler.SentPacket. destruct (_ <=? _); [done|]. destruct (Z.ltb_spec MaxTrackedSentPackets (u64 (Z.of_nat (length (sentPacketHandler.retransmissionQueue (sentPacketHandler.inflight h)))
    + Z.of_nat (length (sentPacketHandler.packetHistory (sentPacketHandler.inflight h))) + 1))) as [|Hm]; [done|].
  intros [= <-] Hb. rewrite u64_small in Hm by lia. split; [|lia]. cbn [sentPacketHandler.inflight sentPacketHandler.updateLossDetectionAlarm].
  match goal with |- context [if ?b then _ else _] => by destruct b end.
Qed.

Lemma kept_needed pkt (n len lvl now : Z) : length (kept true n len lvl (packetPacker.frames pkt) now)
  = match List.filter IsFrameRetransmittable (packetPacker.frames pkt) with [] => 0%nat | _ => 1%nat end.
Proof. unfold kept. rewrite <- strip_lasting. unfold stripNonRetransmittableFrames. by destruct (List.filter _ _). Qed.

Lemma kept_one b n len lvl fs now : (length (kept b n len lvl fs now) <= 1)%nat.
Proof. unfold kept. destruct (lasting fs); [cbn; lia|]. destruct (_ || _); cbn; lia. Qed.

Lemma packed_packer e0 pkt pid b now s s' : sendPackedPacket e0 pkt pid b now s = Some (Ok tt, s') -> packer s' = packer s.
Proof.
  unfold sendPackedPacket. intros (p & s1 & [_ ->]%the_path_value & E)%bind_value. cbn beta zeta in E.
  destruct (sentPacketHandler.SentPacket _ _ _) as [[e|] h]; unfold bind at 1, put_path, modify in E; cbn iota beta in E;
    [by unfold bind, lift in E; destruct (packetPacker.putPacketBuffer _)|].
  apply bind_value in E as ([] & s2 & E2 & E). unfold signal_sent in E2. destruct (_ !! pid); [|done]. destruct (_ && _); [done|]. injection E2 as <-.
  unfold bind, modify, lift in E. destruct (packetPacker.putPacketBuffer _) as [[]|e'|]; [|done..].
  unfold check in E. destruct (conn_Write _ _ _); [done|]. by injection E as <-.
Qed.

(** What a packet costs that is sent. *)
Definition price (b : bool) (pkt : packetPacker.packedPacket) : Z :=
  if b then match List.filter IsFrameRetransmittable (packetPacker.frames pkt) with [] => 0 | _ => 2 end else 0.

Lemma packed_spends now e0 pkt pid b : spends now (sendPackedPacket e0 pkt pid b now) (fun _ => price b pkt).
Proof.
  intros bd s [] s' Hb Hl [Hm Hc] E0. pose proof E0 as (p & h & bytes & Hp & Hps & _ & _ & Es)%packed_packet_spec; [|by intros k q Hq; apply (po_id _ _ _ (live_ok _ _ _ _ _ Hl Hq))].
  pose proof (po_id _ _ _ (live_ok _ _ _ _ _ Hl Hp)) as Hid. specialize (Hm pid p Hp) as Hmp.
  pose proof (sum_over_member _ _ _ _ (path_cost_nonneg now) Hp) as Hpc. assert (0 <= packer_cost (packer s)) by (unfold packer_cost; lia).
  assert (Z.of_nat (length (waiting_packets p)) <= path_cost now p) as Hq by (unfold path_cost, slots; destruct (ack_due p now); lia).
  pose proof (packed_packer _ _ _ _ _ _ _ E0) as Epk.
  pose proof (sent_packet_spec _ _ _ _ Es) as (_ & _ & Hh).
  apply sent_room in Es as [Eq Hroom]; [|unfold history in Hmp; unfold waiting_packets in Hq; unfold cost in Hc; lia].
  cbn [NeedRetrans PacketNumber Length PktEncryptionLevel Frames] in Hh. set (p' := set_sentPacket (set_sent p h) true) in Hps.
  match type of Hh with _ = _ ++ ?l => set (recorded := l) in Hh end.
  assert (Z.of_nat (length (history p')) = Z.of_nat (length (history p)) + Z.of_nat (length recorded)) as Hlen
    by (unfold history; cbn; rewrite Hh, length_app; lia).
  pose proof (kept_one b (packetPacker.number pkt) (Z.of_nat (length bytes)) (packetPacker.encryptionLevel pkt) (packetPacker.frames pkt) now) as Hone. fold recorded in Hone.
  assert (path_cost now p' + price b pkt <= path_cost now p) as Hpay.
  { unfold path_cost, slots. change (ack_due p' now) with (ack_due p now). assert (waiting_packets p' = waiting_packets p) as -> by done.
    fold (history p) in Hroom. rewrite Hlen. unfold price. destruct b; [|lia]. unfold recorded. rewrite kept_needed. destruct (List.filter _ _); lia. }
  split.
  - intros k q. rewrite Hps. destruct (decide (pid = k)) as [<-|Hne]; [|rewrite lookup_insert_ne by done; apply Hm].
    rewrite lookup_insert_eq. intros [= <-]. rewrite Hlen. unfold MaxTrackedSentPackets, history in *. lia.
  - unfold cost in *. rewrite Epk, Hps, (sum_over_insert _ _ pid p) by done. fold p'. lia.
Qed.

(** A call of the packer that keeps the framer in order and pays for its packet. *)
Definition packs_paid (pack : packing) : Prop := packs_framer pack /\ forall (pk : packetPacker.t) sp t rd x (pk' : packetPacker.t) sp', pack pk sp t rd = Some (Ok x, (pk', sp')) -> pays pk pk' x.

Lemma normal_paid cr par ip lb n : packs_paid (packetPacker.PackPacket cr par ip lb n).
Proof. split; [apply normal_packs|]. intros pk sp t rd x pk' sp'. apply pack_pays, compose_takes. Qed.
Lemma STMS_paid gap : packs_paid (PackPacketSTMS env gap).
Proof. split; [apply STMS_packs|]. intros pk sp t rd x pk' sp'. apply pack_pays, compose_takes. Qed.

(** After a call of the packer: its packet, when it does not have to be kept track of, has cost less than what it took. *)
Lemma packed_state now bd s p pid (pk : packetPacker.t) g least d :
  live s -> within now bd s -> paths s !! pid = Some p -> packer_cost pk + d <= packer_cost (packer s) ->
  within now (bd - d) (set_paths (set_packer s pk) (<[pathID (set_numbers p g least) := set_numbers p g least]> (paths s))).
Proof.
  intros Hl [Hm Hc] Hp Hpk. pose proof (po_id _ _ _ (live_ok _ _ _ _ _ Hl Hp)) as Hid.
  assert (no_dearer now s (set_paths s (<[pathID (set_numbers p g least) := set_numbers p g least]> (paths s)))) as Hn by (by apply (no_dearer_path now s pid p)).
  split; [exact (no_dearer_memory _ _ _ Hn Hm)|]. pose proof (no_dearer_cost _ _ _ Hn) as H. unfold cost in *. cbn [paths packer set_paths set_packer] in *. lia.
Qed.

Definition cheap (x : option packetPacker.packedPacket) : Z := match x with Some pkt => 2 - price true pkt | None => 0 end.

Lemma run_pack_spends now pack pid t : packs_paid pack -> spends now (run_pack env pack pid t) cheap.
Proof.
  intros [_ Hp] bd s x s' Hb Hl Hw (p & s1 & [Hpid ->]%the_path_value & E)%bind_value. unfold bind at 1, get in E.
  destruct (pack (packer s) (send_path s p) t (rnd env)) as [[r [pk sp]]|] eqn:Ep; [|done]. unfold bind, modify, put_path, lift in E. injection E as -> <-.
  apply Hp in Ep as [H1 H2]. apply (packed_state now bd s p pid pk); [done..|]. unfold cheap, price. destruct x as [pkt|]; [|lia].
  destruct (H2 pkt eq_refl) as [H|H]; destruct (List.filter _ _); done || lia.
Qed.

Lemma run_frames_free now pack pid t :
  (forall (pk : packetPacker.t) sp now rd x e c (pk' : packetPacker.t) sp', pack pk sp now rd = (x, e, c, (pk', sp')) -> packer_cost pk' <= packer_cost pk) ->
  free now (run_frames env pack pid t).
Proof.
  intros Hp bd s x s' Hb Hl Hw (p & s1 & [Hpid ->]%the_path_value & E)%bind_value. unfold bind at 1, get in E.
  destruct (pack (packer s) (send_path s p) t (rnd env)) as [[[x1 e] c] [pk sp]] eqn:Ep. apply Hp in Ep. unfold bind at 1, modify in E. unfold bind at 1, put_path, modify in E.
  assert (within now (bd - 0) s') as H; [|exact H]. destruct c; [done|]. unfold bind, check in E. destruct e; [done|]. injection E as _ <-.
  apply (packed_state now bd s p pid pk); [done..|lia].
Qed.

Lemma price_range b pkt : 0 <= price b pkt <= 2.
Proof. unfold price. destruct b; [destruct (List.filter IsFrameRetransmittable (packetPacker.frames pkt))|]; lia. Qed.

Lemma free_packed now e0 pkt pid b : free now (sendPackedPacket e0 pkt pid b now).
Proof. apply (spends_less now _ (fun _ => price b pkt)); [|apply packed_spends]. intros a. apply price_range. Qed.

Lemma free_updates now us pid : free now (for_each (fun f => queue (FWindowUpdate f) pid) us).
Proof. apply free_for_each; [intros f; apply keeps_queue|intros f; by apply free_queue]. Qed.

(** A packet that is sent costs. *)
Lemma perform_spends pack sch us pid now : packs_paid pack -> spends now (perform env pack true sch us pid now) (fun x => if isSome x.2 then 2 else 0).
Proof.
  intros Hp. apply free_bind; [apply preserves_path|apply free_path|]. intros p.
  apply free_bind; [apply preserves_if; [apply keeps_queue|apply preserves_ret]|apply free_if; [by apply free_queue|apply free_ret]|]. intros _.
  apply (spends_bind now (run_pack env pack pid now) _ cheap); [by apply keeps_run_pack, Hp| |by apply run_pack_spends|].
  { intros [pkt|]; unfold cheap; [pose proof (price_range true pkt)|]; lia. }
  intros [pkt|]; cbn [cheap].
  - apply (spends_bind now _ _ (fun _ => price true pkt)); [apply keeps_packed|intros _; apply price_range|apply packed_spends|]. intros _.
    apply free_bind; [apply preserves_for_each; intros u; apply keeps_queue|apply free_updates|]. intros _.
    intros bd s x s' _ _ Hw [= <- <-]. cbn. destruct Hw as [Hm Hc]. split; [done|lia].
  - intros bd s x s' _ _ [Hm Hc] [= <- <-]. cbn. split; [done|lia].
Qed.

Lemma free_handshake now pkt pid : free now (retransmit_handshake env pkt pid now).
Proof.
  apply free_bind; [apply keeps_stop_waiting|apply free_stop_waiting|]. intros swf.
  apply free_bind; [apply keeps_queue_stop|apply free_queue_stop|]. intros _.
  apply free_bind; [apply keeps_run_frames; intros; by eapply retransmission_framer|apply run_frames_free|].
  - intros pk sp t rd x e c pk' sp'. unfold packetPacker.PackHandshakeRetransmission. destruct (_ =? _); [by intros [= _ _ _ <- _]|].
    destruct (packetPacker.GetSealerWithEncryptionLevel _ _); [|by intros [= _ _ _ <- _]..]. cbv zeta. destruct (_ !! _); [|by intros [= _ _ _ <- _]].
    by intros ->%frames_framer.
  - intros [x|]; [apply free_packed|apply spends_panic].
Qed.

Lemma free_ping now e0 pid : free now (sendPing e0 pid now).
Proof.
  intros bd s x s' Hb Hl Hw E. pose proof E as (p & s1 & [Hp ->]%the_path_value & E1)%bind_value. unfold bind at 1, get in E1.
  unfold packetPacker.PackPing in E1. destruct (packetPacker.PackPacket _ _ _ _ _ _ _ _ _) as [[r [pk sp]]|] eqn:Ep; [|done].
  unfold bind at 1, modify in E1. unfold bind at 1, put_path, modify in E1. apply bind_value in E1 as (y & s2 & E1 & E2). unfold lift in E1. injection E1 as -> <-.
  pose proof Ep as [Hc _]%pack_pays; [|apply compose_takes].
  set (q := packetPacker.set_control (packer s) (FPing :: packetPacker.controlFrames (packer s))) in *.
  assert (packer_cost q = packer_cost (packer s)) as Eq by done.
  assert (live (set_packer s pk)) as Hl1.
  { apply normal_packs in Ep; [|exact (live_named _ _ _ Hl)|exact (proj2 Hl)]. by apply live_packer. }
  pose proof (packed_state now bd s p pid pk (PacketPacker.generator sp) (PacketPacker.leastUnacked sp) 0 Hl Hw Hp ltac:(lia)) as Hw2.
  match type of E2 with _ ?st = _ => assert (live st) as Hl2 by (apply (live_numbers _ _ (set_packer s pk) p pid); [done|exact (live_ok _ _ _ _ _ Hl Hp)]) end.
  destruct y as [pkt|]; [|by injection E2 as <- <-]. replace (bd - 0) with (bd - 0 - 0) by lia. eapply free_packed; [|exact Hl2|exact Hw2|exact E2]. lia.
Qed.

(** A packet is queued a second time. *)
Lemma duplicate_cost now bd s sch pid pkt s' : live s -> within now bd s -> duplicate sch pid pkt s = Some (Ok tt, s') -> within now (bd + 1) s'.
Proof.
  intros Hl [Hm Hc] (p & s1 & [Hp ->]%the_path_value & E)%bind_value. unfold bind, get in E. destruct (_ && _); injection E as <-; [|split; [done|lia]].
  pose proof (po_id _ _ _ (live_ok _ _ _ _ _ Hl Hp)) as Hid. split.
  - intros k q. cbn. rewrite Hid. destruct (decide (pid = k)) as [<-|Hne]; [rewrite lookup_insert_eq; intros [= <-]; exact (Hm pid p Hp)|].
    rewrite lookup_insert_ne by done. apply Hm.
  - unfold cost in *. cbn [paths packer set_paths set_sent pathID]. rewrite Hid, (sum_over_insert _ _ pid p) by done. fold (set_sent p (sentPacketHandler.DuplicatePacket (sent p) pkt)).
    enough (path_cost now (set_sent p (sentPacketHandler.DuplicatePacket (sent p) pkt)) = path_cost now p + 1) by (unfold set_sent in *; rewrite Hid in *; lia).
    unfold path_cost, waiting_packets, slots, history, ack_due. cbn. rewrite length_app. cbn. lia.
Qed.

(** *** Retransmissions *)

Lemma free_requeue now pid f : match f with FAck _ | FStopWaiting _ => false | _ => true end = true -> free now (requeue pid now f).
Proof.
  intros Hf. destruct f; cbn [requeue]; try done; try (by apply free_queue).
  - apply free_modify. intros s. by apply no_dearer_packer.
  - intros bd s x s' Hb Hl Hw. destruct (flowControlManager.GetReceiveWindow _ _) as [o|e|]; [destruct (o <=? _)|..]; try (by apply free_ret); by apply free_queue.
  - apply free_modify. intros s. split; [|done]. intros k p Hp. by exists p.
Qed.

Lemma free_requeue_all now pid pkt : free now (for_each (requeue pid now) (GetFramesForRetransmission pkt)).
Proof.
  assert (forall fs, Forall (fun f => match f with FAck _ | FStopWaiting _ => false | _ => true end = true) fs -> free now (for_each (requeue pid now) fs)) as H.
  { induction 1 as [|f fs Hf _ IH]; [apply free_ret|]. apply free_bind; [apply keeps_requeue|by apply free_requeue|by intros _]. }
  apply H. unfold GetFramesForRetransmission. apply Forall_forall. intros f. rewrite list_elem_of_In, filter_In. by intros [_ ?].
Qed.

Lemma dequeued l pkt p' : dequeue (C := C) l = Some (pkt, p') ->
  exists pid p q, (pid, p) ∈ l /\ waiting_packets p = pkt :: q /\ p' = set_sent p (sentPacketHandler.DequeuePacketForRetransmission (sent p)).2.
Proof.
  induction l as [|[pid p] l IH]; [done|]. cbn [dequeue]. destruct (sentPacketHandler.DequeuePacketForRetransmission (sent p)) as [[x|] h] eqn:E.
  - intros [= <- <-]. unfold sentPacketHandler.DequeuePacketForRetransmission in E. destruct (sentPacketHandler.retransmissionQueue (sentPacketHandler.inflight (sent p))) as [|y q] eqn:Eq; [done|].
    injection E as <- <-. exists pid, p, q. split; [left|]. split; [exact Eq|]. unfold sentPacketHandler.DequeuePacketForRetransmission. by rewrite Eq.
  - intros (pid' & p1 & q & Hin & H)%IH. exists pid', p1, q. split; [by right|done].
Qed.

(** One packet less waits. *)
Lemma dequeue_cost now bd s pkt p' : live s -> within now bd s -> dequeue (map_to_list (paths s)) = Some (pkt, p') ->
  let s1 := set_paths s (<[pathID p' := p']> (paths s)) in live s1 /\ within now (bd - 1) s1.
Proof.
  intros Hl [Hm Hc] E. split.
  - apply live_path; [done|]. apply (dequeued_ok (closedPaths s)) in E; [done|]. intros pid q Hq%elem_of_map_to_list. by apply (live_ok env side s).
  - apply dequeued in E as (pid & p & q & Hin%elem_of_map_to_list & Hq & ->). pose proof (po_id _ _ _ (live_ok _ _ _ _ _ Hl Hin)) as Hid.
    unfold waiting_packets in Hq. unfold sentPacketHandler.DequeuePacketForRetransmission. rewrite Hq. cbn [snd pathID set_sent]. split.
    + intros k y. cbn. rewrite Hid. destruct (decide (pid = k)) as [<-|Hne]; [rewrite lookup_insert_eq; intros [= <-]; exact (Hm pid p Hin)|].
      rewrite lookup_insert_ne by done. apply Hm.
    + unfold cost in *. cbn [paths packer set_paths]. rewrite Hid, (sum_over_insert _ _ pid p) by done.
      match goal with |- context [path_cost now (set_sent p ?h)] => enough (path_cost now (set_sent p h) + 1 = path_cost now p) by lia end.
      unfold path_cost, waiting_packets, slots, history, ack_due. cbn. rewrite Hq. cbn [length]. lia.
Qed.

Lemma loop_spends now n : forall has from, spends now (retransmission_loop n has from now) (fun r => if isSome r.1.2 then 1 else 0).
Proof.
  induction n as [|n IH]; intros has from bd s x s' Hb Hl Hw; cbn [retransmission_loop];
    (destruct (dequeue (map_to_list (paths s))) as [[pkt p]|] eqn:E; [|intros [= <- <-]; cbn; destruct Hw; split; [done|lia]]); [done|].
  apply (dequeue_cost now bd) in E as [Hl1 Hw1]; [|done..]. unfold bind at 1, put_path, modify. set (s1 := set_paths s _) in *. clearbody s1.
  destruct (negb _).
  - destruct (handshakeComplete s); [|by intros [= <- <-]]. intros E. destruct (IH _ _ (bd - 1) s1 x s' ltac:(lia) Hl1 Hw1 E) as [H1 H2]. split; [done|lia].
  - intros (u & s2 & E1 & E2)%bind_value. assert (live s2) as Hl2 by (eapply (preserves_for_each live); [|exact Hl1|exact E1]; intros f; apply keeps_requeue).
    apply (free_requeue_all now _ pkt (bd - 1)) in E1; [|lia|done..]. destruct (IH _ _ (bd - 1 - 0) s2 x s' ltac:(lia) Hl2 E1 E2) as [H2 H3]. split; [done|lia].
Qed.

Lemma retransmission_spends now : spends now (getRetransmission now) (fun r => if isSome r.1.2 then 1 else 0).
Proof. intros bd s x s'. apply loop_spends. Qed.

(** *** The rounds *)

Context (Pow : float -> float -> float) (collecting : bool) (elapsed : float).

(** The monitor leaves what the handlers hold. *)
Definition holds_same (h h' : sentPacketHandler.t (C := C)) : Prop :=
  length (sentPacketHandler.packetHistory (sentPacketHandler.inflight h')) = length (sentPacketHandler.packetHistory (sentPacketHandler.inflight h))
  /\ length (sentPacketHandler.retransmissionQueue (sentPacketHandler.inflight h')) = length (sentPacketHandler.retransmissionQueue (sentPacketHandler.inflight h)).

Lemma put_views_cost now ps : forall s,
  Forall (fun v => forall p, paths s !! Scheduler.pathID v = Some p -> holds_same (sent p) (Scheduler.sentHandler v)) ps -> no_dearer now s (put_views ps s).
Proof.
  induction ps as [|v ps IH]; intros s Hps; [apply no_dearer_refl|]. apply Forall_cons_1 in Hps as [Hv Hps].
  set (s1 := set_paths s (alter (fun p => set_sent p (Scheduler.sentHandler v)) (Scheduler.pathID v) (paths s))).
  destruct (IH s1) as [H1 H2].
  - eapply Forall_impl; [exact Hps|]. intros w Hw p. cbn. rewrite lookup_alter_Some. intros [(E & q & Hq & ->)|[_ Hp]]; [|by apply Hw].
    destruct (Hw q Hq) as [W1 W2]. rewrite <- E in Hq. destruct (Hv q Hq) as [V1 V2]. split; cbn; congruence.
  - split; [|done]. intros pid p' Hp'. destruct (H1 pid p' Hp') as (p & Hp & El & Ec). revert Hp. cbn. rewrite lookup_alter_Some. intros [(E & q & Hq & ->)|[_ Hp]]; [|by exists p].
    subst pid. exists q. split; [done|]. destruct (Hv q Hq) as [V1 V2]. split; [by rewrite El|]. etransitivity; [exact Ec|].
    unfold path_cost, slots, history, waiting_packets, ack_due. cbn. rewrite V1, V2. lia.
Qed.

Lemma free_monitor now sch t : free now (monitor_pass Pow collecting elapsed sch t).
Proof.
  apply spends_idle. intros s x s' Hl. unfold monitor_pass, bind at 1, get. destruct (monitor_round _ _ _ _ _ _ _ _) as [m ps] eqn:E.
  unfold monitor_round in E. apply applied_tuned in E. intros [= _ <-]. apply put_views_cost.
  assert (Forall (fun v => forall p, paths s !! Scheduler.pathID v = Some p -> holds_same (sent p) (Scheduler.sentHandler v)) (views s)) as Hv.
  { apply Forall_forall. intros v. unfold views. rewrite list_elem_of_fmap. intros ([pid p] & -> & Hp%elem_of_map_to_list) q. cbn.
    rewrite (po_id _ _ _ (live_ok _ _ _ _ _ Hl Hp)), Hp. by intros [= <-]. }
  clear -E Hv. induction E as [|v v' vs vs' Ht _ IH]; [constructor|]. apply Forall_cons_1 in Hv as [Hv Hvs]. constructor; [|by apply IH].
  destruct Ht as [->|(g & b & ->)]; [exact Hv|]. intros p Hp. exact (Hv p Hp).
Qed.

Lemma free_pop {A} now (pop : streamFramer.t -> option A * streamFramer.t) frame n : (forall f, framer_used f (pop f).2) -> (forall a, no_ack (frame a)) -> free now (pop_loop pop frame n).
Proof.
  intros Hu Hf. induction n as [|n IH]; cbn [pop_loop]; [by intros bd s x s'|]. intros bd s x s' Hb Hl Hw. unfold bind at 1, get. specialize (Hu (framer s)).
  destruct (pop (framer s)) as [y f]. unfold bind at 1, modify. cbn [snd] in Hu. assert (live (set_framer s f)) as Hl1 by (by apply live_packer).
  assert (within now bd (set_framer s f)) as Hw1 by exact Hw. revert Hl1 Hw1. generalize (set_framer s f). intros s1 Hl1 Hw1.
  match goal with |- ?m s1 = _ -> _ => assert (free now m) as Hm; [|by apply Hm] end.
  destruct y as [a|]; [|apply free_ret]. apply free_bind; [apply keeps_queue|by apply free_queue|by intros _].
Qed.

Lemma keeps_close_frames n : keeps (pop_loop (C := C) streamFramer.PopClosePathFrame FClosePath n).
Proof. apply keeps_pop. intros f. unfold streamFramer.PopClosePathFrame. by destruct (streamFramer.pop_front _). Qed.
Lemma keeps_address_frames n : keeps (pop_loop (C := C) streamFramer.PopAddAddressFrame FAddAddress n).
Proof. apply keeps_pop. intros f. unfold streamFramer.PopAddAddressFrame. by destruct (streamFramer.pop_front _). Qed.

Lemma free_special now : free now queue_special.
Proof.
  apply free_state. intros s. apply free_bind; [apply keeps_close_frames|apply free_pop; [|done]|intros _; apply free_bind; [apply keeps_address_frames|apply free_pop; [|done]|intros _; apply free_pop; [|done]]];
    intros f; [unfold streamFramer.PopClosePathFrame|unfold streamFramer.PopAddAddressFrame|by split]; by destruct (streamFramer.pop_front _).
Qed.

Lemma free_ping_failed now sch from : free now (ping_failed env sch from now).
Proof.
  destruct from as [id|]; [|apply free_ret]. apply free_bind; [apply preserves_path|apply free_path|]. intros p. apply free_if; [apply free_ping|apply free_ret].
Qed.

Lemma free_choose now lens has b from sch : free now (choose env lens has b from sch).
Proof.
  apply free_state. intros s. cbv zeta. destruct (selectPath _ _ _ _ _ _ _ _) as [r st]. apply free_bind; [apply preserves_lift|apply free_lift|intros p; apply free_ret].
Qed.
Lemma free_dispatch now has sch : free now (chooseDispatch has sch).
Proof.
  apply free_state. intros s. destruct (selectPathDispatch _ _ _ _) as [r l]. apply free_bind; [apply preserves_lift|apply free_lift|intros p; apply free_ret].
Qed.

(** A round that another follows leaves less to do. *)
Definition advances (now k : Z) (m : M (C := C) round) : Prop := forall bd s x s',
  bd < 2 ^ 62 -> live s -> within now bd s -> m s = Some (Ok x, s') -> x.2 = true -> within now (bd - k) s'.

Lemma advances_bind {A} now k (m : M A) (c : A -> M round) d : keeps m -> (forall a, 0 <= d a) -> spends now m d -> (forall a, advances now (k - d a) (c a)) -> advances now k (bind m c).
Proof.
  intros Hkeep Hd Hm Hc bd s x s' Hb Hl Hw (a & s1 & E1 & E2)%bind_value Hx. specialize (Hd a).
  destruct (Hc a (bd - d a) s1 x s' ltac:(lia) (Hkeep _ _ _ Hl E1) (Hm _ _ _ _ Hb Hl Hw E1) E2 Hx) as [H1 H2]. split; [done|lia].
Qed.
Lemma advances_free {A} now k (m : M A) (c : A -> M round) : keeps m -> free now m -> (forall a, advances now k (c a)) -> advances now k (bind m c).
Proof. intros Hk Hm Hc. apply (advances_bind now k m c (fun _ => 0)); try done. intros a. rewrite Z.sub_0_r. apply Hc. Qed.
Lemma advances_state now k (c : session -> M round) : (forall s, advances now k (c s)) -> advances now k (bind get c).
Proof. intros H. apply advances_free; [apply preserves_get|apply free_get|exact H]. Qed.

(** The last round. *)
Lemma advances_last {A} now k (m : M A) (f : A -> round) : (forall a, (f a).2 = false) -> advances now k (bind m (fun a => ret (f a))).
Proof. intros Hf bd s x s' _ _ _ (a & s1 & _ & E)%bind_value. injection E as <- _. by rewrite Hf. Qed.
Lemma advances_unused now k sch t : advances now k (finish_unused env sch t).
Proof. intros bd s x s' _ _ _ (us & s1 & _ & (u & s2 & _ & E)%bind_value)%bind_value. by injection E as <- _. Qed.

Lemma advances_send_on send b from sch us pid now : keeps (send sch us pid now) -> spends now (send sch us pid now) (fun x => if isSome x.2 then 2 else 0) ->
  advances now 1 (send_on env send b from sch us pid now).
Proof.
  intros Hkeep Hsend. apply advances_free; [apply keeps_acks|apply free_acks|]. intros _. apply advances_free; [apply keeps_special|apply free_special|]. intros _.
  intros bd s x s' Hb Hl Hw ([sch' [pkt|]] & s1 & E1 & E2)%bind_value Hx; cbn [fst snd] in E2.
  - pose proof (Hsend bd s _ s1 Hb Hl Hw E1) as Hw1. pose proof (Hkeep _ _ _ Hl E1) as Hl1. cbn [isSome snd] in Hw1.
    apply bind_value in E2 as ([] & s2 & E2 & ([] & s3 & E3 & E4)%bind_value). injection E4 as _ <-.
    pose proof (keeps_duplicate _ _ _ _ _ _ _ _ Hl1 E2) as Hl2. apply (duplicate_cost now (bd - 2)) in E2; [|done..].
    apply (free_ping_failed now _ _ (bd - 2 + 1)) in E3; [|lia|done..]. destruct E3 as [H1 H2]. split; [done|lia].
  - apply bind_value in E2 as (u & s2 & _ & E2). injection E2 as <- _. done.
Qed.

Lemma advances_round sch us now : advances now 1 (sendPacket_round env Pow collecting elapsed sch us now).
Proof.
  apply advances_free; [apply keeps_monitor|apply free_monitor|]. intros sch1. apply advances_state. intros s. apply advances_free; [apply preserves_lift|apply free_lift|]. intros lens.
  apply (advances_bind now 1 _ _ (fun r => if isSome r.1.2 then 1 else 0)); [apply keeps_retransmission|intros r; destruct (isSome _); lia|apply retransmission_spends|]. intros r.
  apply advances_state. intros s1. cbv zeta. apply advances_free; [apply keeps_choose|apply free_choose|]. intros [[pid|] sch2]; cbn [fst snd]; [|apply advances_unused].
  destruct r.1.2 as [pkt|]; cbn [isSome].
  - apply advances_free; [apply keeps_handshake|apply free_handshake|]. intros _. intros bd s2 x s' _ _ Hw [= <- <-] _. by rewrite Z.sub_0_r.
  - rewrite Z.sub_0_r. apply advances_send_on; [apply keeps_performs, normal_packs|apply perform_spends, normal_paid].
Qed.

Lemma advances_STMS_round sch us now : advances now 1 (sendPacketSTMS_round env Pow collecting elapsed sch us now).
Proof.
  apply advances_free; [apply keeps_monitor|apply free_monitor|]. intros sch1. apply advances_state. intros s. apply advances_free; [apply preserves_lift|apply free_lift|]. intros lens.
  cbv zeta. apply advances_free; [apply preserves_lift|apply free_lift|]. intros gap.
  apply (advances_bind now 1 _ _ (fun r => if isSome r.1.2 then 1 else 0)); [apply keeps_retransmission|intros r; destruct (isSome _); lia|apply retransmission_spends|]. intros r.
  apply advances_state. intros s1. apply advances_free; [case_decide; [apply keeps_dispatch|apply keeps_choose]|case_decide; [apply free_dispatch|apply free_choose]|].
  intros [[pid|] sch2]; cbn [fst snd]; [|apply advances_unused]. destruct r.1.2 as [pkt|]; cbn [isSome].
  - apply advances_free; [apply keeps_handshake|apply free_handshake|]. intros _. intros bd s2 x s' _ _ Hw [= <- <-] _. by rewrite Z.sub_0_r.
  - rewrite Z.sub_0_r. apply advances_send_on; [apply keeps_performs, STMS_packs|apply perform_spends, STMS_paid].
Qed.

(** ** Open paths stay open *)

(** The goroutine of every path runs: it takes the signals of packets that are sent. *)
Definition awake (s : session) : Prop := forall pid p, paths s !! pid = Some p -> open p = true.
Abbreviation wakes := (preserves awake).

Lemma wakes_same f : (forall s, paths (f s) = paths s) -> wakes (modify f).
Proof. intros Hf. apply preserves_modify. intros s Hs. unfold awake. by rewrite Hf. Qed.
Lemma awake_insert s pid p : awake s -> open p = true -> awake (set_paths s (<[pid := p]> (paths s))).
Proof. intros Hs Hp k q. cbn. intros [[_ <-]|[_ H]]%lookup_insert_Some; [done|by eapply Hs]. Qed.
Lemma wakes_put p : open p = true -> wakes (put_path p).
Proof. intros Hp. apply preserves_modify. intros s Hs. by apply awake_insert. Qed.
Lemma wakes_path {B} pid (k : path -> M B) : (forall p, open p = true -> wakes (k p)) -> wakes (bind (the_path pid) k).
Proof. intros Hk. apply preserves_with_path. intros s p r s' Hs Hp E. by eapply (Hk p (Hs _ _ Hp) s r s'). Qed.
Lemma wakes_signal pid : wakes (signal_sent pid).
Proof.
  intros s r s' Hs. unfold signal_sent. destruct (paths s !! pid) as [p|] eqn:Hp; [|by intros [= _ <-]]. destruct (_ && _); [done|].
  intros [= _ <-]. apply awake_insert; [done|exact (Hs _ _ Hp)].
Qed.

Create HintDb wakes.

Ltac wake_step :=
  match goal with
  | |- preserves awake (bind (the_path _) _) => apply wakes_path; intros ? ?
  | |- preserves awake (bind _ _) => apply preserves_bind; [|intros ?]
  | |- preserves awake (put_path _) => apply wakes_put; done
  | |- preserves awake (modify _) => apply wakes_same; done
  | |- preserves awake (signal_sent _) => apply wakes_signal
  | |- preserves awake (ret _) => apply preserves_ret
  | |- preserves awake (lift _) => apply preserves_lift
  | |- preserves awake (check _) => apply preserves_check
  | |- preserves awake (fail _) => apply (preserves_check _ (Some _))
  | |- preserves awake panic => apply preserves_panic
  | |- preserves awake get => apply preserves_get
  | |- preserves awake (the_path _) => apply preserves_path
  | |- preserves awake (for_each _ _) => apply preserves_for_each; intros ?
  | |- preserves awake (queue _ _) => apply wakes_same; done
  | |- preserves awake (fun _ => None) => apply preserves_none
  | |- preserves awake (match ?x with _ => _ end) => destruct x
  | |- preserves awake _ => solve [auto with wakes]
  end.
Ltac wakes := cbv zeta; repeat (wake_step; cbv zeta; cbn [fst snd]).

Lemma wakes_packed e0 pkt pid b now : wakes (sendPackedPacket e0 pkt pid b now).
Proof. unfold sendPackedPacket. wakes. Qed.
#[local] Hint Resolve wakes_packed : wakes.
Lemma wakes_ping e0 pid now : wakes (sendPing e0 pid now).
Proof. unfold sendPing. wakes. Qed.
Lemma wakes_run_pack pack pid t : wakes (run_pack env pack pid t).
Proof. unfold run_pack. wakes. Qed.
Lemma wakes_run_frames pack pid t : wakes (run_frames env pack pid t).
Proof. unfold run_frames. wakes. Qed.
Lemma wakes_GetAckFrame pid now : wakes (GetAckFrame pid now).
Proof. unfold GetAckFrame. wakes. Qed.
Lemma wakes_stop_waiting pid force : wakes (GetStopWaitingFrame pid force).
Proof. unfold GetStopWaitingFrame. wakes. Qed.
Lemma wakes_queue_ack a pid : wakes (queue_ack a pid).
Proof. unfold queue_ack. wakes. Qed.
Lemma wakes_queue_stop f pid : wakes (queue_stop_waiting f pid).
Proof. unfold queue_stop_waiting. wakes. Qed.
Lemma wakes_window_updates force now : wakes (getWindowUpdateFrames force now).
Proof. unfold getWindowUpdateFrames. wakes. Qed.
#[local] Hint Resolve wakes_ping wakes_run_pack wakes_run_frames wakes_GetAckFrame wakes_stop_waiting wakes_queue_ack wakes_queue_stop wakes_window_updates : wakes.

Lemma wakes_acks b pid now : wakes (queue_acks b pid now).
Proof. unfold queue_acks. wakes. Qed.
Lemma wakes_ack_path sch us now pid : wakes (ack_path env sch us now pid).
Proof. unfold ack_path, send_or_crash. wakes. Qed.
#[local] Hint Resolve wakes_acks wakes_ack_path : wakes.
Lemma wakes_remaining sch us now : wakes (ackRemainingPaths env sch us now).
Proof. unfold ackRemainingPaths. wakes. Qed.
Lemma wakes_perform pack b sch us pid now : wakes (perform env pack b sch us pid now).
Proof. unfold perform. wakes. Qed.
Lemma wakes_handshake pkt pid now : wakes (retransmit_handshake env pkt pid now).
Proof. unfold retransmit_handshake, send_or_crash. wakes. Qed.
Lemma wakes_duplicate sch pid pkt : wakes (duplicate sch pid pkt).
Proof. unfold duplicate. wakes. Qed.
Lemma wakes_ping_failed sch from now : wakes (ping_failed env sch from now).
Proof. unfold ping_failed. wakes. Qed.
#[local] Hint Resolve wakes_remaining wakes_perform wakes_handshake wakes_duplicate wakes_ping_failed : wakes.

Lemma wakes_pop {A} (pop : streamFramer.t -> option A * streamFramer.t) frame n : wakes (pop_loop (C := C) pop frame n).
Proof.
  induction n as [|n IH]; cbn [pop_loop]; [apply preserves_none|]. apply preserves_bind; [apply preserves_get|]. intros s. destruct (pop (framer s)) as [x f]. wakes.
Qed.
#[local] Hint Resolve wakes_pop : wakes.
Lemma wakes_special : wakes queue_special.
Proof. unfold queue_special. wakes. Qed.
Lemma wakes_choose lens has b from sch : wakes (choose env lens has b from sch).
Proof. unfold choose. wakes. Qed.
Lemma wakes_dispatch has sch : wakes (chooseDispatch (C := C) has sch).
Proof. unfold chooseDispatch. wakes. Qed.
Lemma wakes_least_unacked : wakes set_least_unacked.
Proof. apply preserves_modify. intros s Hs pid p. cbn. rewrite lookup_fmap_Some. intros (q & <- & Hq). exact (Hs _ _ Hq). Qed.
Lemma wakes_start now : wakes (start_sending now).
Proof. unfold start_sending. wakes. Qed.

Lemma wakes_monitor sch now : wakes (monitor_pass Pow collecting elapsed sch now).
Proof.
  apply preserves_bind; [apply preserves_get|]. intros s. destruct (monitor_round _ _ _ _ _ _ _ _) as [m ps].
  apply preserves_bind; [|intros; apply preserves_ret]. apply preserves_modify. clear s. induction ps as [|v ps IH]; intros s Hs; [done|]. cbn [put_views foldl].
  apply IH. intros k q. cbn. rewrite lookup_alter_Some. intros [(_ & x & Hx & ->)|[_ H]]; [exact (Hs _ _ Hx)|exact (Hs _ _ H)].
Qed.

Lemma wakes_requeue pid now f : wakes (requeue pid now f).
Proof.
  destruct f as [fr|a|cc|g|sw|r|w|b| |ad|cp|pf]; cbn [requeue]; try (by apply wakes_same).
  intros s x s' Hs. destruct (flowControlManager.GetReceiveWindow _ _) as [o|e|]; [destruct (o <=? _)|..]; by intros [= _ <-].
Qed.
#[local] Hint Resolve wakes_requeue : wakes.

Lemma wakes_loop now n : forall has from, wakes (retransmission_loop (C := C) n has from now).
Proof.
  induction n as [|n IH]; intros has from s r s' Hs; cbn [retransmission_loop];
    destruct (dequeue_spec (map_to_list (paths s))) as [[-> _]|(pid & p & pkt & q & h & Hin & _ & -> & _)]; [by intros [= _ <-]|done|by intros [= _ <-]|].
  apply elem_of_map_to_list in Hin. assert (open (set_sent p h) = true) as Ho by exact (Hs _ _ Hin).
  match goal with |- ?m s = _ -> _ => assert (wakes m) as Hw; [|by apply Hw] end.
  apply preserves_bind; [by apply wakes_put|intros _]. repeat apply preserves_if; [apply IH|apply preserves_ret|].
  apply preserves_bind; [wakes|intros _; apply IH].
Qed.
Lemma wakes_retransmission now : wakes (getRetransmission now).
Proof. intros s r s'. apply wakes_loop. Qed.
#[local] Hint Resolve wakes_special wakes_choose wakes_dispatch wakes_least_unacked wakes_start wakes_monitor wakes_retransmission : wakes.

Lemma wakes_unused sch now : wakes (finish_unused env sch now).
Proof. unfold finish_unused. wakes. Qed.
#[local] Hint Resolve wakes_unused : wakes.
Lemma wakes_round sch us now : wakes (sendPacket_round env Pow collecting elapsed sch us now).
Proof. unfold sendPacket_round, send_on, performPacketSending. wakes. Qed.
Lemma wakes_STMS_round sch us now : wakes (sendPacketSTMS_round env Pow collecting elapsed sch us now).
Proof. unfold sendPacketSTMS_round, send_on, performPacketSendingSTMS. wakes. Qed.

(** ** Calls that end *)

Definition ends {A} (m : M (C := C) A) : Prop := forall s, live s -> awake s -> m s <> None.

Lemma ends_bind {A B} (m : M A) (k : A -> M B) : wakes m -> keeps m -> ends m -> (forall a, ends (k a)) -> ends (bind m k).
Proof.
  intros Hwake Hkeep Hm Hk s Hl Hw. unfold bind. specialize (Hm s Hl Hw). destruct (m s) as [[[a|e|] s1]|] eqn:E; try done.
  apply Hk; [exact (Hkeep _ _ _ Hl E)|exact (Hwake _ _ _ Hw E)].
Qed.
Lemma ends_some {A} (m : M A) : (forall s, exists r, m s = Some r) -> ends m.
Proof. intros H s _ _. destruct (H s) as [r ->]. done. Qed.
Lemma ends_ret {A} (a : A) : ends (ret a).
Proof. done. Qed.
Lemma ends_lift {A} (x : res A) : ends (lift x).
Proof. done. Qed.
Lemma ends_panic {A} : ends (panic (A := A)).
Proof. done. Qed.
Lemma ends_check e : ends (check e).
Proof. by destruct e. Qed.
Lemma ends_modify f : ends (modify f).
Proof. done. Qed.
Lemma ends_path pid : ends (the_path pid).
Proof. intros s _ _. unfold the_path. by destruct (_ !! _). Qed.
Lemma ends_if {A} (b : bool) (m1 m2 : M A) : ends m1 -> ends m2 -> ends (if b then m1 else m2).
Proof. by destruct b. Qed.
Lemma ends_state {B} (k : session -> M B) : (forall s, ends (k s)) -> ends (bind get k).
Proof. intros H. apply ends_bind; [by wakes|apply preserves_get|done|exact H]. Qed.
Lemma ends_with_path {B} pid (k : path -> M B) : (forall p, ends (k p)) -> ends (bind (the_path pid) k).
Proof. intros H. apply ends_bind; [by wakes|apply preserves_path|apply ends_path|exact H]. Qed.
Lemma ends_for_each {A} (f : A -> M Datatypes.unit) l : (forall a, wakes (f a)) -> (forall a, keeps (f a)) -> (forall a, ends (f a)) -> ends (for_each f l).
Proof. intros Hw Hk Hf. induction l; [done|]. by apply ends_bind. Qed.

(** *** Packets *)

Lemma packed_ends e0 pkt pid b now s : awake s -> keyed (paths s) -> sendPackedPacket e0 pkt pid b now s <> None.
Proof.
  intros Hw Hk. unfold sendPackedPacket, bind at 1, the_path. destruct (paths s !! pid) as [p|] eqn:Hp; [|done]. cbn beta zeta.
  destruct (sentPacketHandler.SentPacket _ _ _) as [[e|] h]; unfold bind at 1, put_path, modify; [by unfold bind, lift; destruct (packetPacker.putPacketBuffer _)|].
  unfold bind at 1, signal_sent. cbn [paths set_paths]. change (pathID (set_sent p h)) with (pathID p). rewrite (Hk _ _ Hp), lookup_insert_eq.
  change (open (set_sent p h)) with (open p). rewrite (Hw _ _ Hp), andb_false_r. unfold bind, put_path, modify, lift. destruct (packetPacker.putPacketBuffer _); [|done..].
  unfold check. by destruct (conn_Write _ _ _).
Qed.

Lemma live_keyed s : live s -> keyed (paths s).
Proof. intros Hl pid p Hp. exact (po_id _ _ _ (live_ok _ _ _ _ _ Hl Hp)). Qed.

Lemma ends_packed e0 pkt pid b now : ends (sendPackedPacket e0 pkt pid b now).
Proof. intros s Hl Hw. apply packed_ends; [exact Hw|by apply live_keyed]. Qed.

Definition packs_end (pack : packing) : Prop := forall (pk : packetPacker.t) sp t rd, has_crypto (packetPacker.framer pk) -> pack pk sp t rd <> None.

Lemma has_crypto_ends n f : has_crypto f -> streamFramer.HasCryptoStreamFrame n f <> None.
Proof. intros Hc. destruct (crypto_stream_opened n f Hc) as (r & E & _). unfold streamFramer.HasCryptoStreamFrame. by rewrite E. Qed.

Lemma pop_crypto_ends n f k : has_crypto f -> streamFramer.PopCryptoStreamFrame n f k <> None.
Proof.
  intros Hc. unfold streamFramer.PopCryptoStreamFrame. pose proof (has_crypto_ends n f Hc). destruct (streamFramer.HasCryptoStreamFrame n f) as [[r1 f1]|] eqn:E; [|done].
  apply has_crypto_used in E; [|done]. pose proof (used_crypto _ _ E Hc) as Hc1. destruct r1 as [[]|e|]; try done.
  destruct (crypto_stream_opened n f1 Hc1) as (x & -> & _). destruct x as [cs|e|]; [|done..]. by destruct (stream.getDataForWriting cs _).
Qed.

Lemma pack_ends cr n compose b : packs_end (packetPacker.pack_with cr n compose b).
Proof.
  intros pk sp t rd Hc. unfold packetPacker.pack_with. pose proof (has_crypto_ends n _ Hc). destruct (streamFramer.HasCryptoStreamFrame _ _) as [[r1 f1]|] eqn:E; [|done].
  apply has_crypto_used in E; [|done]. pose proof (used_crypto _ _ E Hc) as Hc1. destruct r1 as [[]|e|]; [|by destruct (packetPacker.GetSealer cr)|done..].
  unfold packetPacker.packCryptoPacket. destruct (packetPacker.GetSealerForCryptoStream cr) as [lvl sealer]. destruct (PublicHeader.GetLength _ _) as [len|e|]; [|done..]. cbv zeta.
  pose proof (pop_crypto_ends n f1) as Hp.
  match goal with |- context [streamFramer.PopCryptoStreamFrame n ?g ?k] => specialize (Hp k Hc1); change g with f1; destruct (streamFramer.PopCryptoStreamFrame n f1 k) as [[[[?|]|?|] ?]|] end; done.
Qed.

Lemma ends_run_pack pack pid t : packs_end pack -> ends (run_pack env pack pid t).
Proof.
  intros Hp s Hl. unfold run_pack, bind at 1, the_path. destruct (paths s !! pid) as [p|]; [|done]. unfold bind at 1, get.
  specialize (Hp (packer s) (send_path s p) t (rnd env) (proj2 Hl)). by destruct (pack _ _ _ _) as [[r [pk sp]]|].
Qed.

Lemma ends_run_frames pack pid t : ends (run_frames env pack pid t).
Proof.
  intros s Hl. unfold run_frames, bind at 1, the_path. destruct (paths s !! pid) as [p|]; [|done]. unfold bind at 1, get.
  destruct (pack _ _ _ _) as [[[x e] c] [pk sp]]. unfold bind at 1, modify. unfold bind at 1, put_path, modify. destruct c; [done|]. unfold bind, check. by destruct e.
Qed.

Lemma ends_ping e0 pid now : ends (sendPing e0 pid now).
Proof.
  intros s Hl Hw. unfold sendPing, bind at 1, the_path. destruct (paths s !! pid) as [p|] eqn:Hp; [|done]. unfold bind at 1, get.
  unfold packetPacker.PackPing. match goal with |- context [packetPacker.PackPacket ?a ?b ?c ?d ?e ?pk ?sp ?t ?r] => pose proof (pack_ends a e (packetPacker.composeNextPacket b c d) false pk sp t r (proj2 Hl)) as H; unfold packetPacker.PackPacket end.
  destruct (packetPacker.pack_with _ _ _ _ _ _ _ _) as [[r [pk sp]]|]; [|done]. unfold bind at 1, modify. unfold bind at 1, put_path, modify.
  unfold bind, lift. destruct r as [[pkt|]|e|]; [|done..]. apply packed_ends.
  - apply (awake_insert (set_packer s pk)); [exact Hw|exact (Hw _ _ Hp)].
  - apply (keyed_insert _ (set_numbers p _ _)), (live_keyed s Hl).
Qed.

Lemma normal_ends cr par ip lb n : packs_end (packetPacker.PackPacket cr par ip lb n).
Proof. intros pk sp t rd. apply pack_ends. Qed.
Lemma STMS_ends gap : packs_end (PackPacketSTMS env gap).
Proof. intros pk sp t rd. apply pack_ends. Qed.

(** *** Acknowledgements and queues *)

Lemma ends_GetAckFrame pid now : ends (GetAckFrame pid now).
Proof. intros s _ _. unfold GetAckFrame, bind, the_path, lift. destruct (paths s !! pid) as [p|]; [|done]. by destruct (receivedPacketHandler.GetAckFrame (rcvd p) now). Qed.

Lemma ends_stop_waiting pid force : ends (GetStopWaitingFrame pid force).
Proof. intros s _ _. unfold GetStopWaitingFrame, bind, the_path. destruct (paths s !! pid) as [p|]; [|done]. by destruct (sentPacketHandler.GetStopWaitingFrame (sent p) force). Qed.

Lemma ends_queue_stop f pid : ends (queue_stop_waiting f pid).
Proof. by destruct f. Qed.
Lemma ends_queue_ack a pid : ends (queue_ack a pid).
Proof. by destruct a. Qed.

Lemma ends_updates us pid : ends (for_each (fun f => queue (FWindowUpdate f) pid) us).
Proof. apply ends_for_each; [intros; by wakes|intros f; apply keeps_queue|done]. Qed.

Lemma ends_window_updates force now : ends (getWindowUpdateFrames force now).
Proof. intros s _ _. unfold getWindowUpdateFrames, bind, the_path, get. destruct (paths s !! _); [|done]. by destruct (flowControlManager.GetWindowUpdates _ _ _ _ _ _). Qed.

Lemma ends_acks b pid now : ends (queue_acks b pid now).
Proof.
  apply ends_bind; [by wakes|apply keeps_GetAckFrame|apply ends_GetAckFrame|]. intros a.
  apply ends_bind; [by wakes|destruct a; [apply keeps_queue_ack|apply preserves_ret]|destruct a; [apply ends_queue_ack|done]|]. intros _.
  apply ends_if; [|done]. apply ends_bind; [by wakes|apply keeps_stop_waiting|apply ends_stop_waiting|]. intros [f|]; [apply ends_queue_stop|done].
Qed.

Lemma ends_send_or_crash x pid now : ends (send_or_crash env x pid now).
Proof. destruct x; [apply ends_packed|done]. Qed.

Lemma ends_ack_path sch us now pid : ends (ack_path env sch us now pid).
Proof.
  apply ends_bind; [by wakes|apply keeps_GetAckFrame|apply ends_GetAckFrame|]. intros a.
  apply ends_bind; [by wakes|apply preserves_for_each; intros f; apply keeps_queue|apply ends_updates|]. intros _.
  assert (ends (if (pid =? InitialPathID) && negb (isSome a) then ret tt else
    do! swf := GetStopWaitingFrame pid false in
    do! _ := (match swf with Some _ => queue_stop_waiting swf pid | None => ret tt end) in
    do! _ := queue_ack a pid in
    do! packet := (match a with Some _ => run_frames env (packetPacker.PackAckPacket (crypto env)) pid now | None => run_pack env (PackPacket env sch) pid now end) in
    send_or_crash env packet pid now)) as H; [|destruct a; [exact H|destruct us; [done|exact H]]].
  apply ends_if; [done|]. apply ends_bind; [by wakes|apply keeps_stop_waiting|apply ends_stop_waiting|]. intros swf.
  apply ends_bind; [by wakes|destruct swf; [apply keeps_queue_stop|apply preserves_ret]|destruct swf; [apply ends_queue_stop|done]|]. intros _.
  apply ends_bind; [by wakes|apply keeps_queue_ack|apply ends_queue_ack|]. intros _.
  apply ends_bind; [by wakes|destruct a; [apply keeps_run_frames; intros; by eapply ack_framer|apply keeps_run_pack, normal_packs]|
    destruct a; [apply ends_run_frames|apply ends_run_pack, normal_ends]|]. intros x. apply ends_send_or_crash.
Qed.

Lemma ends_remaining sch us now : ends (ackRemainingPaths env sch us now).
Proof.
  apply ends_state. intros s. apply ends_bind; [by wakes|destruct us; [apply keeps_window_updates|apply preserves_ret]|destruct us; [apply ends_window_updates|done]|]. intros us'.
  apply ends_state. intros s1. apply ends_bind; [by wakes|apply preserves_for_each; intros pid; apply keeps_ack_path|apply ends_for_each; intros pid; [by wakes|apply keeps_ack_path|apply ends_ack_path]|done].
Qed.

(** A loop that takes frames from a queue has a turn for each of them and one more. *)
Lemma ends_pop {A} (pop : streamFramer.t -> option A * streamFramer.t) frame (left : streamFramer.t -> nat) :
  (forall f a f', pop f = (Some a, f') -> (left f' < left f)%nat) -> forall n s, (left (framer s) < n)%nat -> pop_loop (C := C) pop frame n s <> None.
Proof.
  intros Hpop. induction n as [|n IH]; intros s Hn; [lia|]. cbn [pop_loop]. unfold bind at 1, get. destruct (pop (framer s)) as [x f] eqn:E.
  unfold bind at 1, modify. destruct x as [a|]; [|done]. apply Hpop in E. unfold bind, queue, modify. apply IH. destruct (frame a); cbn; lia.
Qed.

Lemma pop_other {A X} (pop : streamFramer.t -> option A * streamFramer.t) frame (g : streamFramer.t -> X) :
  (forall f, g (pop f).2 = g f) -> forall n s s', pop_loop (C := C) pop frame n s = Some (Ok tt, s') -> g (framer s') = g (framer s).
Proof.
  intros Hg. induction n as [|n IH]; intros s s'; [done|]. cbn [pop_loop]. unfold bind at 1, get. specialize (Hg (framer s)). destruct (pop (framer s)) as [x f].
  unfold bind at 1, modify. cbn [snd] in Hg. destruct x as [a|]; [|by intros [= <-]]. unfold bind, queue, modify. intros ->%IH. rewrite <- Hg. by destruct (frame a).
Qed.

Lemma ends_special : ends queue_special.
Proof.
  intros s _ _. unfold queue_special, bind at 1, get. unfold bind at 1.
  assert (pop_loop streamFramer.PopClosePathFrame FClosePath (S (length (streamFramer.closePathFrameQueue (framer s)))) s <> None) as H1.
  { apply (ends_pop _ _ (fun f => length (streamFramer.closePathFrameQueue f))); [|lia]. intros f a f'. unfold streamFramer.PopClosePathFrame.
    destruct (streamFramer.closePathFrameQueue f); intros [= _ <-]; cbn; lia. }
  destruct (pop_loop _ FClosePath _ s) as [[[[]|e|] s1]|] eqn:E1; try done.
  assert (streamFramer.addAddressFrameQueue (framer s1) = streamFramer.addAddressFrameQueue (framer s)) as <-.
  { eapply (pop_other _ _ streamFramer.addAddressFrameQueue), E1. intros f. unfold streamFramer.PopClosePathFrame. by destruct (streamFramer.pop_front _). }
  unfold bind at 1. assert (pop_loop streamFramer.PopAddAddressFrame FAddAddress (S (length (streamFramer.addAddressFrameQueue (framer s1)))) s1 <> None) as H2.
  { apply (ends_pop _ _ (fun f => length (streamFramer.addAddressFrameQueue f))); [|lia]. intros f a f'. unfold streamFramer.PopAddAddressFrame.
    destruct (streamFramer.addAddressFrameQueue f); intros [= _ <-]; cbn; lia. }
  destruct (pop_loop _ FAddAddress _ s1) as [[[[]|e|] s2]|]; try done.
  apply (ends_pop _ _ (fun f => if isSome (streamFramer.pathsFrame f) then 1%nat else 0%nat)); [|destruct (isSome _); lia].
  intros f a f' [= E <-]. cbn. rewrite E. cbn. lia.
Qed.

(** *** Rounds *)

Lemma ends_retransmission now : ends (getRetransmission now).
Proof.
  intros s Hl _. unfold getRetransmission. rewrite lost_total.
  destruct (loop_spec now (length (lost s)) s false None) as (taken & hs & from & s' & -> & _); [|lia|done].
  intros pid p Hp. exact (po_id _ _ _ (live_ok _ _ _ _ _ Hl Hp)).
Qed.

Lemma ends_monitor sch now : ends (monitor_pass Pow collecting elapsed sch now).
Proof. intros s _ _. unfold monitor_pass, bind at 1, get. by destruct (monitor_round _ _ _ _ _ _ _ _). Qed.

Lemma ends_choose lens has b from sch : ends (choose env lens has b from sch).
Proof. intros s _ _. unfold choose, bind at 1, get. cbv zeta. destruct (selectPath _ _ _ _ _ _ _ _) as [r st]. by destruct r. Qed.
Lemma ends_dispatch has sch : ends (chooseDispatch has sch).
Proof. intros s _ _. unfold chooseDispatch, bind at 1, get. destruct (selectPathDispatch _ _ _ _) as [r l]. by destruct r. Qed.

Lemma ends_perform pack b sch us pid now : packs_framer pack -> packs_end pack -> ends (perform env pack b sch us pid now).
Proof.
  intros Hk Hp. apply ends_with_path. intros p.
  apply ends_bind; [by wakes|apply preserves_if; [apply keeps_queue|apply preserves_ret]|by apply ends_if|]. intros _.
  apply ends_bind; [by wakes|by apply keeps_run_pack|by apply ends_run_pack|]. intros [pkt|]; [|done].
  apply ends_bind; [by wakes|apply keeps_packed|apply ends_packed|]. intros _.
  apply ends_bind; [by wakes|apply preserves_for_each; intros f; apply keeps_queue|apply ends_updates|done].
Qed.

Lemma ends_handshake pkt pid now : ends (retransmit_handshake env pkt pid now).
Proof.
  apply ends_bind; [by wakes|apply keeps_stop_waiting|apply ends_stop_waiting|]. intros swf.
  apply ends_bind; [by wakes|apply keeps_queue_stop|apply ends_queue_stop|]. intros _.
  apply ends_bind; [by wakes|apply keeps_run_frames; intros; by eapply retransmission_framer|apply ends_run_frames|]. intros x. apply ends_send_or_crash.
Qed.

Lemma ends_duplicate sch pid pkt : ends (duplicate sch pid pkt).
Proof. apply ends_with_path. intros p. apply ends_state. intros s. by apply ends_if. Qed.

Lemma ends_ping_failed sch from now : ends (ping_failed env sch from now).
Proof. destruct from as [id|]; [|done]. apply ends_with_path. intros p. apply ends_if; [apply ends_ping|done]. Qed.

Lemma ends_unused sch now : ends (finish_unused env sch now).
Proof.
  apply ends_bind; [by wakes|apply keeps_window_updates|apply ends_window_updates|]. intros us.
  apply ends_bind; [by wakes|apply keeps_remaining|apply ends_remaining|done].
Qed.

Lemma ends_send_on send b from sch us pid now : wakes (send sch us pid now) -> keeps (send sch us pid now) -> ends (send sch us pid now) -> ends (send_on env send b from sch us pid now).
Proof.
  intros Hw Hk Hsend. apply ends_bind; [by wakes|apply keeps_acks|apply ends_acks|]. intros _. apply ends_bind; [by wakes|apply keeps_special|apply ends_special|]. intros _.
  apply ends_bind; [exact Hw|exact Hk|exact Hsend|]. intros [sch' [pkt|]]; cbn [fst snd].
  - apply ends_bind; [by wakes|apply keeps_duplicate|apply ends_duplicate|]. intros _. apply ends_bind; [by wakes|apply keeps_ping_failed|apply ends_ping_failed|done].
  - apply ends_bind; [by wakes|apply keeps_remaining|apply ends_remaining|done].
Qed.

Lemma ends_round sch us now : ends (sendPacket_round env Pow collecting elapsed sch us now).
Proof.
  apply ends_bind; [by wakes|apply keeps_monitor|apply ends_monitor|]. intros sch1. apply ends_state. intros s. apply ends_bind; [by wakes|apply preserves_lift|done|]. intros lens.
  apply ends_bind; [by wakes|apply keeps_retransmission|apply ends_retransmission|]. intros r. apply ends_state. intros s1. cbv zeta.
  apply ends_bind; [by wakes|apply keeps_choose|apply ends_choose|]. intros [[pid|] sch2]; cbn [fst snd]; [|apply ends_unused].
  destruct r.1.2 as [pkt|]; [|apply ends_send_on; [apply wakes_perform|apply keeps_performs, normal_packs|apply ends_perform; [apply normal_packs|apply normal_ends]]].
  apply ends_bind; [by wakes|apply keeps_handshake|apply ends_handshake|done].
Qed.

Lemma ends_STMS_round sch us now : ends (sendPacketSTMS_round env Pow collecting elapsed sch us now).
Proof.
  apply ends_bind; [by wakes|apply keeps_monitor|apply ends_monitor|]. intros sch1. apply ends_state. intros s. apply ends_bind; [by wakes|apply preserves_lift|done|]. intros lens.
  cbv zeta. apply ends_bind; [by wakes|apply preserves_lift|done|]. intros gap.
  apply ends_bind; [by wakes|apply keeps_retransmission|apply ends_retransmission|]. intros r. apply ends_state. intros s1.
  apply ends_bind; [by wakes|case_decide; [apply keeps_dispatch|apply keeps_choose]|case_decide; [apply ends_dispatch|apply ends_choose]|].
  intros [[pid|] sch2]; cbn [fst snd]; [|apply ends_unused].
  destruct r.1.2 as [pkt|]; [|apply ends_send_on; [apply wakes_perform|apply keeps_performs, STMS_packs|apply ends_perform; [apply STMS_packs|apply STMS_ends]]].
  apply ends_bind; [by wakes|apply keeps_handshake|apply ends_handshake|done].
Qed.

(** ** The loops *)

Lemma rounds_last step now sch us s n : forall x, match x with (Ok y, _) => y.2 = false | _ => True end -> step sch us now s = Some x -> (0 < n)%nat ->
  rounds step n sch us now s = Some (match x.1 with Ok y => Ok y.1.1 | Err e => Err e | Panic => Panic end, x.2).
Proof.
  intros [[[[sch1 us1] again]|e|] s1] Hx E Hn; (destruct n as [|n]; [lia|]); cbn [rounds]; unfold bind; rewrite E; [|done..].
  cbn in *. by rewrite Hx.
Qed.

(** What bounds the rounds that are left is fuel enough, and the result does not depend on it. *)
Lemma rounds_end step now :
  (forall sch us, wakes (step sch us now)) -> (forall sch us, keeps (step sch us now)) -> (forall sch us, ends (step sch us now)) ->
  (forall sch us, advances now 1 (step sch us now)) ->
  forall k sch us s, Z.of_nat k < 2 ^ 62 -> live s -> awake s -> within now (Z.of_nat k) s ->
  exists y, forall n, (k < n)%nat -> rounds step n sch us now s = Some y.
Proof.
  intros Hwake Hkeep Hend Hadv. induction k as [|k IH]; intros sch us s Hb Hl Ha Hw;
    (destruct (step sch us now s) as [[[[[sch1 us1] []]|e|] s1]|] eqn:E; [|eexists; intros n Hn; refine (rounds_last step now sch us s n _ _ E _); done || lia..|by apply Hend in E]).
  - destruct (Hadv sch us _ _ _ _ Hb Hl Hw E eq_refl) as [_ Hc]. pose proof (cost_nonneg now s1). lia.
  - pose proof (Hadv sch us _ _ _ _ Hb Hl Hw E eq_refl) as Hw1. replace (Z.of_nat (S k) - 1) with (Z.of_nat k) in Hw1 by lia.
    destruct (IH sch1 us1 s1 ltac:(lia) (Hkeep _ _ _ _ _ Hl E) (Hwake _ _ _ _ _ Ha E) Hw1) as [y Hy]. exists y. intros [|n] Hn; [lia|].
    cbn [rounds]. unfold bind. rewrite E. cbn [fst snd]. apply Hy. lia.
Qed.

Lemma free_start now : free now (start_sending now).
Proof.
  apply free_bind; [apply keeps_window_updates|apply free_window_updates|]. intros us.
  apply free_bind; [apply preserves_for_each; intros f; apply keeps_queue|apply free_updates|]. intros _. apply free_ret.
Qed.
Lemma ends_start now : ends (start_sending now).
Proof.
  apply ends_bind; [by wakes|apply keeps_window_updates|apply ends_window_updates|]. intros us.
  apply ends_bind; [by wakes|apply preserves_for_each; intros f; apply keeps_queue|apply ends_updates|done].
Qed.

(** A call that costs nothing, followed by one that ends within the cost. *)
Definition settles {A} (now : Z) (m : nat -> M (C := C) A) : Prop := forall s, live s -> awake s -> in_memory s -> cost now s < 2 ^ 62 ->
  exists r s', forall n, cost now s < Z.of_nat n -> m n s = Some (r, s').

Lemma settles_bind {A B} now (m : M A) (k : A -> nat -> M B) : wakes m -> keeps m -> free now m -> ends m -> (forall a, settles now (k a)) -> settles now (fun n => bind m (fun a => k a n)).
Proof.
  intros Hwake Hkeep Hfree Hend Hk s Hl Ha Hm Hc. unfold bind. specialize (Hend s Hl Ha). destruct (m s) as [[[a|e|] s1]|] eqn:E; [|by eexists _, _|by eexists _, _|done].
  destruct (Hfree (cost now s) s a s1 Hc Hl ltac:(by split) E) as [Hm1 Hc1]. rewrite Z.sub_0_r in Hc1.
  destruct (Hk a s1 (Hkeep _ _ _ Hl E) (Hwake _ _ _ Ha E) Hm1 ltac:(lia)) as (r & s' & H). exists r, s'. intros n Hn. apply H. lia.
Qed.

Lemma settles_rounds step now sch us :
  (forall sch us, wakes (step sch us now)) -> (forall sch us, keeps (step sch us now)) -> (forall sch us, ends (step sch us now)) -> (forall sch us, advances now 1 (step sch us now)) ->
  settles now (fun n => rounds step n sch us now).
Proof.
  intros Hwake Hkeep Hend Hadv s Hl Ha Hm Hc. pose proof (cost_nonneg now s).
  destruct (rounds_end step now Hwake Hkeep Hend Hadv (Z.to_nat (cost now s)) sch us s ltac:(lia) Hl Ha ltac:(split; [done|lia])) as [[r s'] H'].
  exists r, s'. intros n Hn. apply H'. lia.
Qed.

Lemma ends_least_unacked : ends set_least_unacked.
Proof. done. Qed.

Lemma settles_STMS sch now : settles now (fun n => sendPacketSTMS env Pow collecting elapsed n sch now).
Proof.
  apply settles_bind; [by wakes|apply keeps_least_unacked|apply free_least_unacked|apply ends_least_unacked|]. intros _.
  apply settles_bind; [by wakes|apply keeps_start|apply free_start|apply ends_start|]. intros us.
  apply settles_rounds; intros sch1 us1; [apply wakes_STMS_round|apply keeps_STMS_round|apply ends_STMS_round|apply advances_STMS_round].
Qed.

Lemma settles_normal sch now : settles now (fun n => sendPacket env Pow collecting elapsed n sch now).
Proof.
  apply settles_bind; [by wakes|apply keeps_least_unacked|apply free_least_unacked|apply ends_least_unacked|]. intros _.
  apply settles_bind; [by wakes|apply preserves_get|apply free_get|done|]. intros s.
  apply settles_bind; [by wakes|apply keeps_start|apply free_start|apply ends_start|]. intros us.
  apply settles_rounds; intros sch1 us1; [apply wakes_round|apply keeps_round|apply ends_round|apply advances_round].
Qed.

(** Whether the scheduler sends the same packet on several paths. *)
Definition copies (name : string) : bool := bool_decide (name = "redundancy"%string) || bool_decide (name = "RDDT"%string).

(** C28. As long as the goroutine of every path runs, a call of [sendPacket] ends, with its packets sent, an error or a
    panic, for every scheduler that does not send copies: in a session any client or server can reach, the loop runs no
    more often than there are places for packets to keep track of, acknowledgements that are due and packets that wait to
    be sent again.  The fuel of the loop does not matter beyond that. *)
Theorem sending_ends sch now s : consistent env side s -> has_crypto (framer s) -> awake s -> in_memory s -> cost now s < 2 ^ 62 ->
  copies (Name (names sch)) = false ->
  exists r s', forall n, cost now s < Z.of_nat n -> session_sendPacket env Pow collecting elapsed n sch now s = Some (r, s').
Proof.
  intros Hcons Hcr Ha Hm Hc [Hr%bool_decide_eq_false Ht%bool_decide_eq_false]%orb_false_iff.
  assert (settles now (fun n => session_sendPacket env Pow collecting elapsed n sch now)) as H; [|by apply H].
  unfold session_sendPacket. cbv zeta. destruct (_ || _); [apply settles_STMS|].
  destruct (decide _) as [|_]; [done|]. destruct (decide _) as [|_]; [done|]. apply settles_normal.
Qed.
End Cost.
