(* ===== verification/SessionRun.v ===== *)
(** * The run loop of a session

    Models [session.run] and what belongs to it: the deadlines of the timers of a session and of its
    paths, the keep-alive PINGs, the timeouts, the order in which a turn of the loop handles an event, sends
    and collects streams, and the closing of a session: [handleCloseError], [closePaths],
    [sendConnectionClose], [sendPublicReset]; with the error codes of [qerr].

    A turn of the loop handles one event, which the caller chooses: Go's [select] takes any that is
    ready.  The clock is read once in a turn.  What the application learns through channels
    ([handshakeChan], [handshakeCompleteChan]) and the goroutine of the path manager, which creates
    the paths, are not part of the loop. *)

From stdpp Require Import base numbers list option strings gmap.
From S2P Require Import Prelude ByteOrder Protocol AckFrame ClosePathFrame StreamFrame ControlFrames PublicHeader PacketUnpacker PacketPacker FlowControl FrameSorter GoFloat ReceivedPackets RttStats SentPackets Olia UtilityControl Scheduler Monitor StreamsMap GoSlice Stream StreamFramer PackPacket Session Handshake CryptoServer Sending.

Local Open Scope Z_scope.
#[local] Notation "'do!' x ':=' m 'in' k" := (bind m (fun x => k)) (at level 10, x name, m at level 99, k at level 200).

(** ** Error codes *)

Definition error_codes : list (string * Z) := [
  ("InternalError", 1); ("StreamDataAfterTermination", 2); ("InvalidPacketHeader", 3); ("InvalidFrameData", 4);
  ("MissingPayload", 48); ("InvalidFecData", 5); ("InvalidStreamData", 46); ("OverlappingStreamData", 87);
  ("UnencryptedStreamData", 61); ("AttemptToSendUnencryptedStreamData", 88); ("UnencryptedFecData", 77);
  ("InvalidRstStreamData", 6); ("InvalidConnectionCloseData", 7); ("InvalidGoawayData", 8);
  ("InvalidWindowUpdateData", 57); ("InvalidBlockedData", 58); ("InvalidStopWaitingData", 60);
  ("InvalidPathCloseData", 78); ("InvalidAckData", 9); ("InvalidVersionNegotiationPacket", 10);
  ("InvalidPublicRstPacket", 11); ("DecryptionFailure", 12); ("EncryptionFailure", 13); ("PacketTooLarge", 14);
  ("PeerGoingAway", 16); ("InvalidStreamID", 17); ("InvalidPriority", 49); ("TooManyOpenStreams", 18);
  ("TooManyAvailableStreams", 76); ("PublicReset", 19); ("InvalidVersion", 20); ("InvalidHeaderID", 22);
  ("InvalidNegotiatedValue", 23); ("DecompressionFailure", 24); ("NetworkIdleTimeout", 25); ("HandshakeTimeout", 67);
  ("ErrorMigratingAddress", 26); ("ErrorMigratingPort", 86); ("PacketWriteError", 27); ("PacketReadError", 51);
  ("EmptyStreamFrameNoFin", 50); ("InvalidHeadersStreamData", 56); ("HeadersStreamDataDecompressFailure", 97);
  ("FlowControlReceivedTooMuchData", 59); ("FlowControlSentTooMuchData", 63); ("FlowControlInvalidWindow", 64);
  ("ConnectionIPPooled", 62); ("TooManyOutstandingSentPackets", 68); ("TooManyOutstandingReceivedPackets", 69);
  ("ConnectionCancelled", 70); ("BadPacketLossRate", 71); ("PublicResetsPostHandshake", 73);
  ("TimeoutsWithOpenStreams", 74); ("FailedToSerializePacket", 75); ("TooManyRtos", 85); ("HandshakeFailed", 28);
  ("CryptoTagsOutOfOrder", 29); ("CryptoTooManyEntries", 30); ("CryptoInvalidValueLength", 31);
  ("CryptoMessageAfterHandshakeComplete", 32); ("InvalidCryptoMessageType", 33);
  ("InvalidCryptoMessageParameter", 34); ("InvalidChannelIDSignature", 52); ("CryptoMessageParameterNotFound", 35);
  ("CryptoMessageParameterNoOverlap", 36); ("CryptoMessageIndexNotFound", 37); ("CryptoInternalError", 38);
  ("CryptoVersionNotSupported", 39); ("CryptoHandshakeStatelessReject", 72); ("CryptoNoSupport", 40);
  ("CryptoTooManyRejects", 41); ("ProofInvalid", 42); ("CryptoDuplicateTag", 43);
  ("CryptoEncryptionLevelIncorrect", 44); ("CryptoServerConfigExpired", 45); ("CryptoSymmetricKeySetupFailed", 53);
  ("CryptoMessageWhileValidatingClientHello", 54); ("CryptoUpdateBeforeHandshakeComplete", 65);
  ("VersionNegotiationMismatch", 55); ("BadMultipathFlag", 79); ("IPAddressChanged", 80);
  ("ConnectionMigrationNoMigratableStreams", 81); ("ConnectionMigrationTooManyChanges", 82);
  ("ConnectionMigrationNoNewNetwork", 83); ("ConnectionMigrationNonMigratableStream", 84)].

(** The number of a code; the names are those of the source. *)
Definition code_number (name : string) : Z := default 0 (snd <$> List.find (fun '(n, _) => String.eqb n name) error_codes).

(** [ErrorCode.String], for a code that has a name. *)
Definition code_name (number : Z) : option string := fst <$> List.find (fun '(_, c) => c =? number) error_codes.

(** [ToQuicError]: code and message. *)
Definition ToQuicError (e : goerr) : string * string :=
  match e with
  | QErr code msg => (code, msg)
  | GoErr msg => ("InternalError"%string, msg)
  | EOF => ("InternalError"%string, "EOF"%string)
  end.

(** The bytes of a string, and back. *)
Definition string_bytes (s : string) : list Z := map (fun a => Z.of_nat (Ascii.nat_of_ascii a)) (String.list_ascii_of_string s).
Definition bytes_string (l : list Z) : string := String.string_of_list_ascii (map (fun b => Ascii.ascii_of_nat (Z.to_nat b)) l).

Section Run.
Context {C : Type} `{!SendAlgorithm C} (newCongestion : Z -> C) (env : Env) (Pow : float -> float -> float).
Context (collecting : bool) (elapsed : float).     (* of the utility controller *)

Abbreviation unit := Datatypes.unit.
Abbreviation M := (Session.M (C := C)).
Abbreviation path := (Session.path (C := C)).
Abbreviation session := (Session.session (C := C)).

(** What the loop reads of the configuration. *)
Record Config : Type := MkConfig {
  KeepAlive : bool;
  HandshakeTimeout : Z;
  idleTimeout : Z;             (* of [connectionParameters] *)
  sessionCreationTime : Z;
}.

Section Loop.
Context (cfg : Config).

(** ** Timers *)

Definition PublicResetTimeout : Z := 500 * Millisecond.

(** [session.maybeResetTimer]: when the timer fires. *)
Definition session_deadline (s : session) : Z :=
  let deadline := time_add (lastActivity s)
    (if KeepAlive cfg && handshakeComplete s && negb (keepAlivePingSent s) then Z.quot (idleTimeout cfg) 2 else idleTimeout cfg) in
  let deadline := if handshakeComplete s then deadline else Z.min deadline (time_add (sessionCreationTime cfg) (HandshakeTimeout cfg)) in
  match tooManyUndecryptable s with
  | Some t => Z.min deadline (time_add t PublicResetTimeout)
  | None => deadline
  end.

Definition minPathTimer : Z := 10 * Millisecond.
Definition maxPathTimer : Z := Second.

Definition path_idleTimeout (s : session) (p : path) : Z :=
  if open p && (negb (pathID p =? InitialPathID) || handshakeComplete s) then idleTimeout cfg else HandshakeTimeout cfg.

(** [path.maybeResetTimer] *)
Definition path_deadline (s : session) (p : path) (now : Z) : Z :=
  let deadline := match receivedPacketHandler.GetAlarmTimeout (rcvd p) with Some t => t | None => time_add (lastNetworkActivityTime p) (path_idleTimeout s p) end in
  let deadline := match sentPacketHandler.GetAlarmTimeout (sent p) with Some t => Z.min deadline t | None => deadline end in
  Z.min (Z.max deadline (time_add now minPathTimer)) (time_add now maxPathTimer).

(** ** A turn of the loop *)

Inductive event : Type :=
| Timer                        (* of the session *)
| SendingScheduled
| PathTimer (pid : Z)
| PacketReceived
| AeadChanged                  (* the crypto setup has other keys *)
| AeadClosed.                  (* the handshake is complete *)

Definition set_handshake (s : session) : session :=
  MkSession (perspective s) (version s) (paths s) (closedPaths s) (remoteRTTs s) (lastPathsFrameSent s) (packer s) (peerBlocked s)
    true (manager s) (closeErr s) (lastActivity s) (keepAlivePingSent s) (receivedPackets s) (undecryptablePackets s)
    (tooManyUndecryptable s) (wrote s).

(** Does the turn go on after the event?  An error of a packet ends it.  [None]: nothing was received. *)
Definition on_event (e : event) (now : Z) : M bool := fun s =>
  match e with
  | Timer | SendingScheduled => Some (Ok true, s)
  | PathTimer pid => (do! _ := on_path_timer pid now in ret true) s
  | PacketReceived =>
      match receivedPackets s with
      | [] => None
      | x :: rest =>
          match handlePacketImpl newCongestion env x now (set_received s rest (undecryptablePackets s) (tooManyUndecryptable s)) with
          | Some (Ok _, s) => Some (Ok true, s)
          | Some (Err e, s) =>
              if is_decryption_failure e then Some (Ok false, tryQueueingUndecryptablePacket x now s)
              else (do! _ := close_with (Local e) in ret false) s
          | Some (Panic, s) => Some (Panic, s)
          | None => None
          end
      end
  | AeadChanged => Some (Ok true, tryDecryptingQueuedPackets s)
  | AeadClosed => Some (Ok true, set_handshake s)
  end.

(** PINGs for every path when there was no activity for half of the idle timeout. *)
Definition keep_alive (now : Z) : M unit :=
  do! s := get in
  if KeepAlive cfg && handshakeComplete s && (Z.quot (idleTimeout cfg) 2 <=? now - lastActivity s) then
    do! _ := for_each (fun pid => queue FPing pid) (path_ids s) in
    modify (fun s => set_status s (peerBlocked s) (closeErr s) (lastActivity s) true)
  else ret tt.

(** [closeLocal] with an error of the quic packages. *)
Definition closeLocal (code msg : string) : M unit := close_with (Local (QErr code msg)).

(** The timeouts. *)
Definition timeouts (now : Z) : M unit :=
  do! s := get in
  do! _ := (match tooManyUndecryptable s with
            | Some t => if (time_add t PublicResetTimeout <? now) && negb (length (undecryptablePackets s) =? 0)%nat
                        then closeLocal "DecryptionFailure" "too many undecryptable packets received" else ret tt
            | None => ret tt
            end) in
  do! _ := (if negb (handshakeComplete s) && (HandshakeTimeout cfg <=? now - sessionCreationTime cfg)
            then closeLocal "HandshakeTimeout" "Crypto handshake did not complete in time." else ret tt) in
  if handshakeComplete s && (idleTimeout cfg <=? now - lastActivity s)
  then closeLocal "NetworkIdleTimeout" "No recent network activity." else ret tt.

(** A PATHS frame every 200 ms, when a stream besides the crypto and the header stream is open. *)
Definition announce_paths (now : Z) : M unit :=
  do! s := get in
  if handshakeComplete s && (VersionMP <=? version s) && (200 * Millisecond <=? now - lastPathsFrameSent s)
     && (2 <? Z.of_nat (length (streamsMap.openStreams (streamsMap_ s))))
  then schedulePathsFrame now else ret tt.

(** [sendPacket]; an error closes the session. *)
Definition send_turn (fuel : nat) (sch : scheduler) (now : Z) : M scheduler := fun s =>
  match session_sendPacket env Pow collecting elapsed fuel sch now s with
  | Some (Err e, s) => (do! _ := close_with (Local e) in ret sch) s
  | r => r
  end.

Definition turn (fuel : nat) (e : event) (sch : scheduler) (now : Z) : M scheduler :=
  do! go := on_event e now in
  if (go : bool) then
    do! _ := keep_alive now in
    do! sch := send_turn fuel sch now in
    do! _ := timeouts now in
    do! _ := announce_paths now in
    do! _ := garbageCollectStreams in
    ret sch
  else ret sch.

(** ** Closing *)

Definition errCloseSessionForNewVersion : goerr := GoErr "closing session in order to recreate it with a new version".

(** The error as a [QuicError]; a nil error is [PeerGoingAway]. *)
Definition close_error (r : close_reason) : goerr :=
  match r with
  | Local e => QErr (ToQuicError e).1 (ToQuicError e).2
  | Remote code reason =>
      QErr (default ("ErrorCode(" +:+ flowControlManager.num code +:+ ")")%string (code_name code)) (bytes_string reason)
  end.

(** A path that is told to close takes it, and its goroutine ends with [path.close]; one that has ended stays as it is. *)
Definition stopped (p : path) : path := if open p then set_flags p false (potentiallyFailed p) false else p.

(** Every path is told, and ends.  [session.closePaths] waits for the goroutines; where the loop only tells them
    ([pathManager.closePaths], or itself), they end on their own, and nothing asks before it whether they have. *)
Definition closePaths : M unit := modify (fun s => set_paths s (stopped <$> paths s)).

Definition write_first (bytes : list Z) : M unit :=
  do! _ := the_path InitialPathID in
  do! _ := modify (fun s => set_wrote s (wrote s ++ [(InitialPathID, bytes)])) in
  check (conn_Write env InitialPathID bytes).

Definition sendPublicReset (rejected : Z) : M unit :=
  do! s := get in write_first (PublicReset.WritePublicReset (connectionID (packetPacker.base (packer s))) rejected 0).1.

Definition sendConnectionClose (code msg : string) (now : Z) : M unit :=
  do! p := the_path InitialPathID in
  do! _ := put_path (set_numbers p (generator p) (sentPacketHandler.GetLeastUnacked (sent p))) in
  do! packet := run_frames env (fun pk => packetPacker.PackConnectionClose (crypto env) pk (ConnectionCloseFrame.Mk (code_number code) (string_bytes msg)))
                  InitialPathID now in
  match packet with
  | Some packet => write_first (default [] (packetPacker.raw packet))
  | None => panic
  end.

Definition handleCloseError (r : close_reason) (now : Z) : M unit :=
  let e := close_error r in
  do! _ := modify (fun s => set_streams s (streamsMap.CloseWithError (fun str => stream.Cancel str e) (streamsMap_ s) e) (flow s)) in
  match r with
  | Remote _ _ => closePaths
  | Local x =>
      if decide (x = errCloseSessionForNewVersion) then ret tt
      else
        do! _ := closePaths in
        let '(code, msg) := ToQuicError x in
        if bool_decide (code = "DecryptionFailure"%string) || bool_decide (x = ErrHOLExperiment) || bool_decide (x = ErrNSTPExperiment)
        then do! p := the_path InitialPathID in sendPublicReset (lastRcvdPacketNumber p)
        else sendConnectionClose code msg now
  end.

(** What the loop does when it finds the reason to close.  [asked]: before it waits, and it tells every path itself;
    otherwise it has the path manager tell them, if there is one, and stop. *)
Definition stop_paths (asked : bool) : M unit := fun s => if asked || isSome (manager s) then closePaths s else ret tt s.

(** The end of [run], for a session that has a reason to close. *)
Definition close_session (asked : bool) (now : Z) : M unit := fun s =>
  match closeErr s with
  | Some r =>
      (do! _ := stop_paths asked in ignore_error (handleCloseError r now)) s
  | None => None
  end.
End Loop.

(** [session.GetAvailiableSpace]: what the congestion windows leave. *)
Definition GetAvailiableSpace (s : session) : Z :=
  foldl (fun space '(_, p) =>
    let tmp := i64 (sentPacketHandler.GetCWND (sent p) - sentPacketHandler.GetBytesInflight (sent p)) in
    if 0 <? tmp then i64 (space + tmp) else space) 0 (map_to_list (paths s)).
End Run.
