(* ===== verification/SessionRunFacts.v ===== *)
(** * The run loop: what holds of it

    A session that runs stays consistent, whatever events its loop handles, in any order and beside
    the other goroutines that use it; the timers fire in time for every timeout, the timeouts close the session
    and closing it ends every stream and path; and how a peer, or the keep-alive, brings it down. *)

From stdpp Require Import base numbers list option strings gmap.
From S2P Require Import Prelude ByteOrder Protocol AckFrame ClosePathFrame StreamFrame ControlFrames PublicHeader PacketUnpacker PacketPacker FlowControl FrameSorter GoFloat ReceivedPackets RttStats SentPackets Olia UtilityControl Scheduler Monitor StreamsMap GoSlice Stream StreamFramer PackPacket Session SessionFacts Handshake CryptoServer Sending SendingKeeps SessionRun.

Local Open Scope Z_scope.
#[local] Notation "'do!' x ':=' m 'in' k" := (bind m (fun x => k)) (at level 10, x name, m at level 99, k at level 200).

#[local] Abbreviation highest m := (streamsMap.highestStreamOpenedByPeer m).

(** ** A server's crypto stream was opened *)

Section Opened.
Context {C : Type} `{!SendAlgorithm C} (newCongestion : Z -> C) (env : Env).

Abbreviation session := (Session.session (C := C)).
Abbreviation path := (Session.path (C := C)).
Implicit Types (s : session) (p : path).

(** A server's peer has opened a stream. *)
Definition opened s : Prop := is_server (perspective s) = true -> 1 <= streamsMap.highestStreamOpenedByPeer (streamsMap_ s).
Abbreviation opens := (preserves opened).

Lemma opened_up s s' : perspective s' = perspective s -> highest (streamsMap_ s) <= highest (streamsMap_ s') -> opened s -> opened s'.
Proof. unfold opened. intros -> Hle H Hs. specialize (H Hs). lia. Qed.

Lemma opens_modify f : (forall s, perspective (f s) = perspective s /\ highest (streamsMap_ (f s)) = highest (streamsMap_ s)) -> opens (modify f).
Proof. intros Hf. apply preserves_modify. intros s. destruct (Hf s) as [H1 H2]. apply opened_up; [done|lia]. Qed.

Lemma highest_put (m : streams_t) id str : highest (streamsMap.putStream m id str) = highest m.
Proof. unfold streamsMap.putStream. by destruct (_ !! _). Qed.

Lemma highest_remote n (m : streams_t) id r m' : streamsMap.openRemoteStream stream.newStream n m id = (r, m') -> highest m <= highest m'.
Proof.
  unfold streamsMap.openRemoteStream. destruct (_ <=? _); [by intros [= _ <-]|]. destruct (_ <? _); [by intros [= _ <-]|].
  intros [= _ <-]. rewrite highest_put. change (highest (streamsMap.counted m _)) with (highest m).
  destruct (Z.ltb_spec (highest m) id); cbn; [lia|done].
Qed.

Lemma highest_loop n id : forall k (m : streams_t) sid r m', streamsMap.open_loop stream.newStream k n m sid id = Some (r, m') -> highest m <= highest m'.
Proof.
  induction k as [|k IH]; intros m sid r m'; cbn [streamsMap.open_loop]; (destruct (sid <=? id); [|by intros [= _ <-]]); [done|].
  destruct (streamsMap.openRemoteStream _ _ _ _) as [[s|e|] m1] eqn:E; apply highest_remote in E; [|by intros [= _ <-]..].
  intros H%IH. lia.
Qed.

Lemma highest_get n (m : streams_t) id r m' : streamsMap.GetOrOpenStream stream.newStream n m id = Some (r, m') -> highest m <= highest m'.
Proof.
  unfold streamsMap.GetOrOpenStream. destruct (_ !! _); [by intros [= _ <-]|]. destruct (streamsMap.closed_or_wrong m id); [by intros [= _ <-]|].
  destruct (streamsMap.open_loop _ _ _ _ _ _) as [[[x|e|] m1]|] eqn:E; [..|done]; apply highest_loop in E; by intros [= _ <-].
Qed.

Lemma opens_streams {A} (call : streams_t -> option (res A * streams_t)) :
  (forall m r m', call m = Some (r, m') -> highest m <= highest m') -> opens (on_streams env call).
Proof.
  intros Hc s r s' Hs. unfold on_streams. destruct (call _) as [[x m]|] eqn:E; [|done]. apply Hc in E. intros [= _ <-].
  revert Hs. by apply opened_up.
Qed.

Lemma opens_get id : opens (GetOrOpenStream env id).
Proof. apply opens_streams. intros m r m'. apply highest_get. Qed.

Lemma opens_open : opens (OpenStream env).
Proof.
  apply opens_streams. intros m r m'. unfold streamsMap.OpenStream, streamsMap.openStreamImpl.
  destruct (streamsMap.closeErr m); [by intros [= _ <-]|]. destruct (_ <=? _); intros [= _ <-]; [done|]. by rewrite highest_put.
Qed.

(** The crypto stream is looked up when a PING is packed. *)
Lemma highest_has n f r f' : streamFramer.HasCryptoStreamFrame n f = Some (r, f') -> highest (streamFramer.smap f) <= highest (streamFramer.smap f').
Proof.
  unfold streamFramer.HasCryptoStreamFrame, streamFramer.crypto_stream.
  destruct (streamsMap.GetOrOpenStream _ _ _ _) as [[[[cs|]|e|] m]|] eqn:E; [..|done]; apply highest_get in E; by intros [= _ <-].
Qed.

Lemma highest_pop n f k r f' : streamFramer.PopCryptoStreamFrame n f k = Some (r, f') -> highest (streamFramer.smap f) <= highest (streamFramer.smap f').
Proof.
  unfold streamFramer.PopCryptoStreamFrame. destruct (streamFramer.HasCryptoStreamFrame n f) as [[r1 f1]|] eqn:E; [|done].
  apply highest_has in E. destruct r1 as [[]|e|]; [|by intros [= _ <-]..]. unfold streamFramer.crypto_stream.
  destruct (streamsMap.GetOrOpenStream _ _ _ _) as [[[[cs|]|e|] m]|] eqn:E1; [..|done]; apply highest_get in E1; [|intros [= _ <-]; cbn; lia..].
  destruct (stream.getDataForWriting _ _) as [r2 cs']. intros [= _ <-]. cbn. lia.
Qed.

Lemma highest_ping cr par ip lb n (p : packetPacker.t) sp u now rd r (p' : packetPacker.t) sp' : packetPacker.PackPing cr par ip lb n p sp u now rd = Some (r, (p', sp')) ->
  highest (streamFramer.smap (packetPacker.framer p)) <= highest (streamFramer.smap (packetPacker.framer p')).
Proof.
  unfold packetPacker.PackPing, packetPacker.PackPacket, packetPacker.pack_with. cbn [packetPacker.framer packetPacker.set_control].
  destruct (streamFramer.HasCryptoStreamFrame _ _) as [[r1 f1]|] eqn:E; [|done]. apply highest_has in E.
  destruct r1 as [[]|e|]; [|..|by intros [= _ <- _]|by intros [= _ <- _]].
  - unfold packetPacker.packCryptoPacket. destruct (packetPacker.GetSealerForCryptoStream cr) as [lvl sealer].
    destruct (PublicHeader.GetLength _ _) as [len|x|]; [|by intros [= _ <- _]..]. cbv zeta.
    destruct (streamFramer.PopCryptoStreamFrame _ _ _) as [[r2 f2]|] eqn:E2; [|done]. apply highest_pop in E2. cbn in E2.
    destruct r2 as [[f|]|x|]; [|intros [= _ <- _]; cbn; lia..]. edestruct finish_keeps as (r3 & sp3 & E3). rewrite E3. intros [= _ <- _]. cbn. lia.
  - destruct (packetPacker.GetSealer cr) as [lvl sealer]. unfold or_panic.
    destruct (PublicHeader.GetLength _ _) as [len|x|]; [|by intros [= _ <- _]..].
    cbn [packetPacker.isPing packetPacker.controlFrames packetPacker.number_stop_waiting packetPacker.set_acks packetPacker.set_framer packetPacker.set_control take drop].
    destruct (_ =? 0)%nat; [by intros [= _ <- _]|]. destruct (_ && _); [by intros [= _ <- _]|].
    edestruct finish_keeps as (r3 & sp3 & E3). rewrite E3. destruct r3 as [[[k [raw|] fr lv]|]|x|]; by intros [= _ <- _].
Qed.

(** *** The handlers *)

(** One step towards the calls a handler is made of. *)
Ltac open_step :=
  match goal with
  | |- preserves _ (bind _ _) => apply preserves_bind; [|intros ?]
  | |- preserves _ (ret _) => apply preserves_ret
  | |- preserves _ get => apply preserves_get
  | |- preserves _ panic => apply preserves_panic
  | |- preserves _ (lift _) => apply preserves_lift
  | |- preserves _ (check _) => apply preserves_check
  | |- preserves _ (fail ?e) => exact (preserves_lift _ (Err e))
  | |- preserves _ (the_path _) => apply preserves_path
  | |- preserves _ (ignore_error _) => apply preserves_ignore
  | |- preserves _ (for_each _ _) => apply preserves_for_each; intros ?
  | |- preserves _ (modify _) => by apply opens_modify
  | |- preserves _ (put_path _) => by apply opens_modify
  | |- preserves _ (put_stream _ _) => by apply opens_modify
  | |- preserves _ (put_manager _) => by apply opens_modify
  | |- preserves _ (close_with _) => by apply opens_modify
  | |- preserves _ (schedulePathsFrame _) => by apply opens_modify
  | |- preserves _ (fun _ => None) => apply preserves_none
  | |- preserves _ (GetOrOpenStream _ _) => apply opens_get
  | |- preserves _ (match ?x with _ => _ end) => destruct x
  end.
Ltac open_steps := cbv zeta; repeat open_step.

Lemma opens_manager : opens the_manager.
Proof. intros s r s' Hs. unfold the_manager. destruct (manager s); by intros [= _ <-]. Qed.

Lemma opens_stream_frame f : opens (handleStreamFrame env f).
Proof. unfold handleStreamFrame. open_steps. Qed.

Lemma opens_window_update f : opens (handleWindowUpdateFrame env f).
Proof. unfold handleWindowUpdateFrame. open_steps. Qed.

Lemma opens_rst f : opens (handleRstStreamFrame env f).
Proof. unfold handleRstStreamFrame, queueResetStreamFrame. open_steps. Qed.

Lemma opens_ack f now : opens (handleAckFrame f now).
Proof. unfold handleAckFrame. open_steps. Qed.

Lemma opens_closing pid : opens (manager_closePath pid).
Proof.
  intros s r s' Hs. unfold manager_closePath. destruct (paths s !! pid); [|by intros [= _ <-]].
  destruct (open _); [|by intros [= _ <-]]. destruct (closing _); [done|]. by intros [= _ <-].
Qed.

Lemma opens_close_path pid b : opens (closePath pid b).
Proof. unfold closePath. open_steps. apply opens_closing. Qed.

Lemma opens_close_frame f now : opens (handleClosePathFrame f now).
Proof. unfold handleClosePathFrame. open_steps. apply opens_close_path. Qed.

Lemma opens_signal pid : opens (signal_sent pid).
Proof. intros s r s' Hs. unfold signal_sent. destruct (paths s !! pid); [|by intros [= _ <-]]. destruct (_ && _); [done|]. by intros [= _ <-]. Qed.

Lemma opens_packed pkt pid b now : opens (sendPackedPacket env pkt pid b now).
Proof. unfold sendPackedPacket. open_steps. apply opens_signal. Qed.

Lemma opens_ping pid now : opens (sendPing env pid now).
Proof.
  apply preserves_bind; [apply preserves_path|]. intros p. intros s r s' Hs. unfold bind at 1, get.
  destruct (packetPacker.PackPing _ _ _ _ _ _ _ _ _ _) as [[x [pk sp]]|] eqn:E; [|done]. apply highest_ping in E.
  assert (opened (set_packer s pk)) as H1 by (revert Hs; by apply opened_up).
  assert (opens (do! _ := put_path (set_numbers p (PacketPacker.generator sp) (PacketPacker.leastUnacked sp)) in
    do! packet := lift x in match packet with None => ret tt | Some packet => sendPackedPacket env packet pid true now end)) as H2
    by (open_steps; apply opens_packed).
  exact (H2 _ _ _ H1).
Qed.

Lemma opens_create_path l rem now : opens (createPath newCongestion env l rem now).
Proof. unfold createPath. open_steps; [apply opens_manager|apply opens_ping]. Qed.

Lemma opens_create now : opens (createPaths newCongestion env now).
Proof. unfold createPaths, advertise. open_steps; first [apply opens_manager|apply opens_create_path]. Qed.

Lemma opens_add_address f now : opens (handleAddAddressFrame newCongestion env f now).
Proof. unfold handleAddAddressFrame. open_steps; first [apply opens_manager|apply opens_create]. Qed.

Lemma opens_paths f n : forall i, opens (handle_paths f n i).
Proof. induction n as [|n IH]; intros i; cbn [handle_paths]; open_steps. apply IH. Qed.

Lemma opens_frame f pid rcvtime now : opens (handleFrame newCongestion env f pid rcvtime now).
Proof.
  destruct f; cbn [handleFrame]; open_steps;
    first [apply opens_stream_frame|apply opens_ack|apply opens_rst|apply opens_window_update|apply opens_close_frame|apply opens_paths|idtac].
  intros s r s' Hs. destruct (manager s); [|by intros [= _ <-]].
  destruct (handleAddAddressFrame newCongestion env f now s) as [[x s1]|] eqn:E; [|done]. apply opens_add_address in E; [|exact Hs].
  destruct x as [[]|e|]; [| |by intros [= _ <-]]; (intros [= _ <-]; revert E; by apply opened_up).
Qed.

Lemma opens_frames fs pid rcvtime now : opens (handleFrames newCongestion env fs pid rcvtime now).
Proof.
  induction fs as [|f fs IH]; intros s r s' Hs; cbn [handleFrames]; [by intros [= _ <-]|].
  destruct (handleFrame _ _ _ _ _ _ s) as [[x s1]|] eqn:E; [|done]. apply opens_frame in E; [|exact Hs].
  destruct x as [[]|e|]; [by apply IH| |by intros [= _ <-]]. destruct (tolerated e); [by apply IH|by intros [= _ <-]].
Qed.

Lemma opens_handle pid x now : opens (path_handlePacketImpl newCongestion env pid x now).
Proof. unfold path_handlePacketImpl. open_steps; apply opens_frames. Qed.

Lemma opens_from_remote x now : opens (createPathFromRemote newCongestion x now).
Proof. unfold createPathFromRemote. open_steps. Qed.

Lemma opens_nonce x : opens (take_nonce env x).
Proof. by intros s r s' Hs ->%take_nonce_same. Qed.

Lemma opens_packet x now : opens (handlePacketImpl newCongestion env x now).
Proof. unfold handlePacketImpl. open_steps; first [apply opens_handle|apply opens_manager|apply opens_from_remote|apply opens_nonce]. Qed.

Lemma opens_timer pid now : opens (on_path_timer pid now).
Proof. unfold on_path_timer, onRTO. open_steps. Qed.

Lemma opens_ended pid : opens (path_run_closed pid).
Proof. unfold path_run_closed. open_steps. Qed.
Lemma opens_woken pid : opens (path_run_sent pid).
Proof. unfold path_run_sent. open_steps. Qed.

Lemma highest_collect ids : forall m fl r m' fl', streamsMap.iterate_loop collect ids (m, fl) = (r, (m', fl')) -> highest m' = highest m.
Proof.
  induction ids as [|id ids IH]; intros m fl r m' fl'; cbn [streamsMap.iterate_loop]; [by intros [= _ <- _]|].
  unfold streamsMap.iterateFunc. cbn [fst]. destruct (_ !! id) as [str|]; [|by intros [= _ <- _]]. unfold collect. cbn [fst snd].
  destruct (stream.finished str); [|apply IH]. destruct (streamsMap.RemoveStream m _) as [r1 m1] eqn:E.
  assert (highest m1 = highest m) as H1 by (unfold streamsMap.RemoveStream in E; repeat case_match; by injection E as _ <-).
  destruct r1; [intros H%IH; congruence|by intros [= _ <- _]..].
Qed.

Lemma opens_collect : opens garbageCollectStreams.
Proof.
  intros s r s' Hs. unfold garbageCollectStreams, streamsMap.Iterate. destruct (streamsMap.iterate_loop _ _ _) as [x [m fl]] eqn:E.
  intros [= _ <-]. apply highest_collect in E. revert Hs. apply opened_up; [done|]. change (streamsMap_ (set_streams s m fl)) with m.
  cbn [fst] in E. lia.
Qed.
End Opened.

(** ** A running session is consistent *)

Section Running.
Context {C : Type} `{!SendAlgorithm C} (newCongestion : Z -> C) (env : Env) (side : Perspective).
Context (Pow : float -> float -> float) (collecting : bool) (elapsed : float) (cfg : Config).
Hypothesis AEAD : opens_bytes (Open env).
Hypothesis room : 0 < maxIncoming env.

Abbreviation session := (Session.session (C := C)).
Implicit Types (s : session).
Abbreviation live := (SendingKeeps.live (C := C) env side).
Abbreviation keeps := (preserves live).
Abbreviation opens := (preserves (opened (C := C))).
Abbreviation consistent := (SessionFacts.consistent (C := C) env side).

Lemma live_opened s : live s <-> consistent s /\ opened s.
Proof.
  unfold SendingKeeps.live, has_crypto, opened. split; intros [Hs Hc]; (split; [done|]); pose proof (si_side _ _ _ _ _ Hs) as E; unfold streamsMap_ in *.
  - intros H. destruct Hc as [H1|]; [by rewrite E| |done]. pose proof (si_streams _ _ _ _ _ Hs) as Hi.
    apply (streamsMap.i_remote _ Hi); [by apply (streamsMap.i_dom _ Hi)|]. unfold streamsMap_. rewrite E. by destruct (perspective s).
  - intros H. right. apply Hc. by rewrite <- E.
Qed.

Lemma keeps_live {A} (m : M A) : preserves consistent m -> opens m -> keeps m.
Proof. intros Hc Ho s r s' [Hs H]%live_opened E. apply live_opened. split; [by eapply Hc|by eapply Ho]. Qed.

(** The crypto stream of a server is there from the start. *)
Lemma crypto_opens n : 0 < n ->
  exists cs m, streamsMap.GetOrOpenStream stream.newStream n (streamsMap.newStreamsMap PerspectiveServer) 1 = Some (Ok (Some cs), m) /\ highest m = 1.
Proof. intros Hn. destruct n as [|p|p]; [lia| |lia]. vm_compute. by eexists _, _. Qed.

Lemma new_opened b mp local remote now s :
  PacketPacker.perspective b = side -> open_crypto env (newSession newCongestion env b mp local remote now) = Some (Ok tt, s) -> opened s.
Proof.
  intros Eb. unfold open_crypto, bind at 1, get. unfold newSession at 1. cbn [perspective]. rewrite Eb. destruct side; cbn [is_server].
  - destruct (crypto_opens _ room) as (cs & m & E & Eh). unfold bind at 1, ignore_error at 1, bind at 1, GetOrOpenStream, on_streams.
    change (streamsMap_ (newSession newCongestion env b mp local remote now)) with (streamsMap.newStreamsMap (S := stream.t) (PacketPacker.perspective b)).
    rewrite Eb, E. cbn [ret]. intros H. assert (opens (ignore_error (do! _ := AcceptStream env in ret tt))) as Ha.
    { apply preserves_ignore, preserves_bind; [|intros; apply preserves_ret]. apply opens_streams. intros m1 r m2. unfold streamsMap.AcceptStream.
      destruct (streamsMap.closeErr m1); [|destruct (_ !! _); [|done]]; by intros [= _ <-]. }
    apply Ha in H; [exact H|]. intros _. change (1 <= highest m). lia.
  - assert (opens (ignore_error (do! _ := OpenStream env in ret tt))) as H.
    { apply preserves_ignore, preserves_bind; [apply opens_open|intros; apply preserves_ret]. }
    intros E. apply H in E; [exact E|]. unfold opened, newSession. cbn [perspective]. by rewrite Eb.
Qed.

(** *** A turn of the loop *)

Lemma keeps_path_timer pid now : keeps (on_path_timer pid now).
Proof. apply keeps_live; [by apply keeps_timer|apply opens_timer]. Qed.

(** A received packet: what the loop does is [on_packet], besides that it learns whether to go on. *)
Lemma event_packet x rest now s r s' : receivedPackets s = x :: rest ->
  on_event newCongestion env PacketReceived now s = Some (r, s') ->
  exists r', on_packet newCongestion env x now (set_received s rest (undecryptablePackets s) (tooManyUndecryptable s)) = Some (r', s').
Proof.
  intros E. unfold on_event, on_packet. rewrite E. set (s1 := set_received s _ _ _).
  destruct (handlePacketImpl newCongestion env x now s1) as [[[[]|e|] s2]|]; [by intros [= _ <-]; eexists| |by intros [= _ <-]; eexists|done].
  destruct (is_decryption_failure e); by intros [= _ <-]; eexists.
Qed.

Lemma opens_on_packet x now : opens (on_packet newCongestion env x now).
Proof.
  intros s r s' Hs. unfold on_packet. destruct (handlePacketImpl newCongestion env x now s) as [[y s1]|] eqn:E; [|done].
  apply opens_packet in E; [|exact Hs]. destruct y as [[]|e|]; [by intros [= _ <-]| |by intros [= _ <-]].
  destruct (is_decryption_failure e); intros [= _ <-]; [|by revert E; apply opened_up].
  unfold tryQueueingUndecryptablePacket. by repeat case_match; revert E; apply opened_up.
Qed.

Lemma handled_consistent x rest now s r s' : receivedPackets s = x :: rest -> consistent s ->
  on_packet newCongestion env x now (set_received s rest (undecryptablePackets s) (tooManyUndecryptable s)) = Some (r, s') -> consistent s'.
Proof.
  intros Er Hs E. pose proof (si_headers _ _ _ _ _ Hs) as [Hh Hu]. pose proof (si_received _ _ _ _ _ Hs) as Hl.
  rewrite Er in Hh, Hl. apply Forall_cons_1 in Hh as [Hx Hh]. cbn [length] in Hl. set (s1 := set_received s rest _ _) in *.
  assert (consistent s1) as Hs1 by (apply queue_inv; [exact Hs|lia|exact (si_waiting _ _ _ _ _ Hs)|exact Hh|exact Hu]).
  by apply (keeps_on_packet newCongestion env side AEAD x now s1 r).
Qed.

Lemma decrypting_up (l : list receivedPacket) : forall s, perspective (foldl (fun s x => handlePacket x s) s l) = perspective s
  /\ packer (foldl (fun s x => handlePacket x s) s l) = packer s.
Proof.
  induction l as [|x l IH]; intros s; cbn [foldl]; [done|]. destruct (IH (handlePacket x s)) as [-> ->].
  unfold handlePacket. by destruct (_ <? _).
Qed.

Lemma keeps_on_event e now : keeps (on_event newCongestion env e now).
Proof.
  destruct e; intros s r s' Hs; cbn [on_event].
  - by intros [= _ <-].
  - by intros [= _ <-].
  - assert (keeps (do! _ := on_path_timer pid now in ret true)) as H by (apply preserves_bind; [apply keeps_path_timer|intros; apply preserves_ret]).
    by apply H.
  - intros E. pose proof Hs as [Hc Ho]%live_opened. destruct (receivedPackets s) as [|x rest] eqn:Er; [done|].
    pose proof (event_packet x rest now s r s' Er) as H. cbn [on_event] in H. rewrite Er in H.
    apply H in E as [r' E]. apply live_opened. split; [by eapply handled_consistent|]. eapply opens_on_packet; [|exact E].
    revert Ho. by apply opened_up.
  - intros [= _ <-]. pose proof Hs as [Hc Ho]%live_opened. apply live_opened. split; [by apply decrypting_inv|].
    unfold tryDecryptingQueuedPackets. destruct (decrypting_up (undecryptablePackets s) s) as [E1 E2].
    revert Ho. apply opened_up; [exact E1|]. unfold streamsMap_, framer. cbn [packer set_received]. by rewrite E2.
  - intros [= _ <-]. by apply (live_kept env side s).
Qed.

Lemma keeps_close_with e : keeps (close_with e).
Proof. apply preserves_modify. intros s Hs. by apply (live_kept env side s). Qed.

Lemma keeps_alive now : keeps (keep_alive cfg now).
Proof.
  apply preserves_state. intros s. apply preserves_if; [|apply preserves_ret].
  apply preserves_bind; [apply preserves_for_each; intros pid; by apply keeps_queue|]. intros _. apply preserves_modify.
  intros s1 Hs. by apply (live_kept env side s1).
Qed.

Lemma keeps_timeouts now : keeps (timeouts cfg now).
Proof.
  apply preserves_state. intros s.
  apply preserves_bind; [destruct (tooManyUndecryptable s); [apply preserves_if; [apply keeps_close_with|apply preserves_ret]|apply preserves_ret]|]. intros _.
  apply preserves_bind; [apply preserves_if; [apply keeps_close_with|apply preserves_ret]|]. intros _.
  apply preserves_if; [apply keeps_close_with|apply preserves_ret].
Qed.

Lemma keeps_announce now : keeps (announce_paths now).
Proof. apply preserves_state. intros s. apply preserves_if; [by apply keeps_schedule|apply preserves_ret]. Qed.

Lemma keeps_collect : keeps garbageCollectStreams.
Proof.
  apply keeps_live; [|apply opens_collect]. intros s r s' Hs E.
  destruct (collect_spec env side {[InitialPathID]} True s Hs) as (m & fl & E1 & _ & Hs1). rewrite E in E1. by injection E1 as _ ->.
Qed.

Lemma keeps_send_turn n sch now : keeps (send_turn env Pow collecting elapsed n sch now).
Proof.
  intros s r s' Hs. unfold send_turn. destruct (session_sendPacket env Pow collecting elapsed n sch now s) as [[x s1]|] eqn:E; [|done].
  apply (keeps_sending env side) in E; [|exact Hs]. destruct x as [sch'|e|]; [by intros [= _ <-]| |by intros [= _ <-]].
  intros [= _ <-]. by apply (live_kept env side s1).
Qed.

Lemma keeps_turn n e sch now : keeps (turn newCongestion env Pow collecting elapsed cfg n e sch now).
Proof.
  apply preserves_bind; [apply keeps_on_event|]. intros go. apply preserves_if; [|apply preserves_ret].
  apply preserves_bind; [apply keeps_alive|]. intros _. apply preserves_bind; [apply keeps_send_turn|]. intros sch'.
  apply preserves_bind; [apply keeps_timeouts|]. intros _. apply preserves_bind; [apply keeps_announce|]. intros _.
  apply preserves_bind; [apply keeps_collect|intros _; apply preserves_ret].
Qed.

(** *** Closing *)

Lemma cancel_reads (str : stream.t) e : same_read str (stream.Cancel str e).
Proof. unfold stream.Cancel, stream.first_err. by destruct (stream.err _). Qed.

Lemma cancelled_used s e :
  framer_used (framer s) (framer (set_streams s (streamsMap.CloseWithError (fun str => stream.Cancel str e) (streamsMap_ s) e) (flow s))).
Proof.
  split; [|done]. split; try done; [|by left|].
  - cbn. apply dom_fmap_L.
  - intros id str. cbn. rewrite lookup_fmap. destruct (_ !! id) as [x|] eqn:E; [|done]. cbn. intros [= <-]. exists x. split; [done|apply cancel_reads].
Qed.

Lemma keeps_closePaths : keeps closePaths.
Proof.
  apply preserves_modify. intros s [Hs Hc]. split; [|exact Hc]. apply inv_set_paths; [exact Hs|..].
  - intros pid p. rewrite lookup_fmap. destruct (paths s !! pid) as [q|] eqn:E; [|done]. cbn. intros [= <-].
    pose proof (si_paths _ _ _ _ _ Hs _ _ E) as [H1 H2 H3]. unfold stopped. destruct (open q); by split.
  - rewrite lookup_fmap. destruct (si_initial _ _ _ _ _ Hs) as [p ->]. by eexists.
  - rewrite dom_fmap_L. apply (si_known _ _ _ _ _ Hs).
Qed.

Lemma keeps_write_first bytes : keeps (write_first env bytes).
Proof.
  apply preserves_bind; [apply preserves_path|]. intros p. apply preserves_bind; [|intros; apply preserves_check].
  apply preserves_modify. intros s Hs. by apply (live_kept env side s).
Qed.

Lemma keeps_connection_close code msg now : keeps (sendConnectionClose env code msg now).
Proof.
  apply preserves_with_path. intros s p r s' Hs Hp. unfold bind at 1, put_path, modify. intros E.
  match type of E with ?m ?s1 = _ => assert (keeps m) as H; [|apply H in E; [exact E|]] end.
  - apply preserves_bind; [|intros [pkt|]; [apply keeps_write_first|apply preserves_panic]].
    apply keeps_run_frames. intros pk sp now' rd x e c pk' sp'. unfold packetPacker.PackConnectionClose.
    destruct (packetPacker.GetSealer (crypto env)). by intros ->%frames_framer.
  - apply (live_numbers env side s p InitialPathID); [exact Hs|]. by apply (live_ok env side).
Qed.

Lemma keeps_close_error r now : keeps (handleCloseError env r now).
Proof.
  apply preserves_bind; [apply preserves_modify; intros s Hs; apply (live_packer env side s); [exact Hs|apply (cancelled_used s)]|]. intros _.
  destruct r as [x|code reason]; [|apply keeps_closePaths]. case_decide; [apply preserves_ret|].
  apply preserves_bind; [apply keeps_closePaths|]. intros _. destruct (ToQuicError x) as [code msg].
  apply preserves_if; [|apply keeps_connection_close].
  apply preserves_bind; [apply preserves_path|]. intros p. apply preserves_state. intros s. apply keeps_write_first.
Qed.

(** *** Whatever runs beside the loop *)

Lemma step_opened s s' : consistent s -> step newCongestion env s s' -> opened s -> opened s'.
Proof.
  intros Hs Hst Ho. destruct Hst as [x s Hx|x rest now s s' Er E|s|s r s' Hn E|id s r s' Hid E|s r s' E|s p Hu|pid now s r s' E
    |pkt pid b now s r s' E|now s r s' E|pid b s r s' E|pid s r s' E|pid s r s' E].
  - revert Ho. unfold handlePacket. destruct (_ <? _); [by apply opened_up|done].
  - eapply opens_on_packet; [|exact E]. revert Ho. by apply opened_up.
  - unfold tryDecryptingQueuedPackets. destruct (decrypting_up (undecryptablePackets s) s) as [E1 E2].
    revert Ho. apply opened_up; [exact E1|]. unfold streamsMap_, framer. cbn [packer set_received]. by rewrite E2.
  - by eapply opens_open.
  - by eapply opens_get.
  - by eapply opens_collect.
  - revert Ho. apply opened_up; [done|]. change (streamsMap_ (set_packer s p)) with (streamFramer.smap (packetPacker.framer p)).
    unfold streamsMap_. by rewrite (us_highest _ _ Hu).
  - by eapply opens_timer.
  - by eapply opens_packed.
  - by eapply opens_create.
  - by eapply opens_close_path.
  - by eapply opens_ended.
  - by eapply opens_woken.
Qed.

(** A session runs: it starts with its crypto stream, its loop takes turns, the goroutines of the
    application, the network and the path manager step in between, it is asked to close, and in the end it closes. *)
Inductive running : session -> Prop :=
| run_new b multipath local remote now s :
    PacketPacker.perspective b = side -> open_crypto env (newSession newCongestion env b multipath local remote now) = Some (Ok tt, s) -> running s
| run_turn fuel e sch now s r s' : running s -> turn newCongestion env Pow collecting elapsed cfg fuel e sch now s = Some (r, s') -> running s'
| run_beside s s' : running s -> step newCongestion env s s' -> running s'
| run_asked x s r s' : running s -> close_with x s = Some (r, s') -> running s'
| run_close asked now s r s' : running s -> close_session env asked now s = Some (r, s') -> running s'.

Lemma keeps_stop_paths asked : keeps (stop_paths asked).
Proof. intros x r x' Hx. unfold stop_paths. destruct (_ || _); [by apply keeps_closePaths|by apply preserves_ret]. Qed.

Lemma running_live s : running s -> live s.
Proof.
  induction 1 as [b mp local remote now s Eb E|fuel e sch now s r s' _ IH E|s s' _ IH Hst|x s r s' _ IH E|asked now s r s' _ IH E].
  - apply live_opened. split; [|by eapply new_opened].
    apply (reachable_consistent newCongestion env side AEAD); [lia|by eapply rs_new].
  - by eapply keeps_turn.
  - apply live_opened in IH as [Hc Ho]. apply live_opened. split; [|by eapply step_opened].
    by apply (step_consistent newCongestion env side AEAD s).
  - by eapply keeps_close_with.
  - revert E. unfold close_session. destruct (closeErr s) as [x|]; [|done]. apply preserves_bind; [|intros _; apply preserves_ignore, keeps_close_error|exact IH].
    apply keeps_stop_paths.
Qed.

(** C3. A session that runs is consistent: after any turns of its loop, whatever events they handle,
    under any scheduler and at any times, however a turn ends, with other goroutines stepping in between and after
    closing, the open streams are those with a flow controller, the books of every path are exact, and the crypto
    stream of a server was opened. *)
Theorem running_consistent s : running s -> consistent s /\ has_crypto (framer s).
Proof. exact (running_live s). Qed.
End Running.
