(* ===== verification/SessionEnds.v ===== *)
(** * How a session ends

    The timers of a session fire in time for its timeouts; closing a session cancels its streams,
    ends its paths and writes at most one packet; and a RST_STREAM frame for the crypto stream, which the
    session accepts and the loop collects, crashes the process when it next packs. *)

From stdpp Require Import base numbers list option strings gmap.
From S2P Require Import Prelude ByteOrder Protocol AckFrame ClosePathFrame StreamFrame ControlFrames PublicHeader PacketUnpacker PacketPacker FlowControl FrameSorter GoFloat ReceivedPackets RttStats SentPackets Olia UtilityControl Scheduler Monitor StreamsMap GoSlice Stream StreamFramer PackPacket Session SessionFacts SessionSafety Handshake CryptoServer Sending SendingKeeps SessionRun SessionRunFacts.

Local Open Scope Z_scope.
#[local] Notation "'do!' x ':=' m 'in' k" := (bind m (fun x => k)) (at level 10, x name, m at level 99, k at level 200).

Section Ends.
Context {C : Type} `{!SendAlgorithm C} (env : Env) (side : Perspective).

Abbreviation session := (Session.session (C := C)).
Abbreviation path := (Session.path (C := C)).
Implicit Types (s : session) (p : path).

(** ** Timeouts *)

Section Timeouts.
Context (cfg : Config).

(** Why the session is to be closed at a time: the first reason counts. *)
Definition timed_out s (now : Z) : option string :=
  if match tooManyUndecryptable s with Some t => t + PublicResetTimeout <? now | None => false end && negb (length (undecryptablePackets s) =? 0)%nat
  then Some "DecryptionFailure"%string
  else if negb (handshakeComplete s)
  then (if HandshakeTimeout cfg <=? now - sessionCreationTime cfg then Some "HandshakeTimeout"%string else None)
  else if idleTimeout cfg <=? now - lastActivity s then Some "NetworkIdleTimeout"%string else None.

(** The timer fires before anything times out, and before a keep-alive PING is due. *)
Lemma deadline_covers s now code : 0 <= idleTimeout cfg -> timed_out s now = Some code -> session_deadline cfg s <= now.
Proof.
  intros Hi. unfold timed_out, session_deadline, time_add. pose proof (Z.quot_le_upper_bound (idleTimeout cfg) 2 (idleTimeout cfg)).
  destruct (tooManyUndecryptable s) as [t|]; destruct (handshakeComplete s); cbn [negb andb]; rewrite ?andb_false_r, ?andb_true_r; repeat case_match; intros [=]; lia.
Qed.

(** C30. The timeouts of a session close it in time and for the right reason: when one has expired, the
    session gets the error of the first that has, its timer was due by then, and otherwise nothing changes. *)
Theorem timeouts_close_in_time s now :
  0 <= idleTimeout cfg -> closeErr s = None ->
  exists s', timeouts cfg now s = Some (Ok tt, s') /\
    match timed_out s now with
    | Some code => session_deadline cfg s <= now /\ exists msg, closeErr s' = Some (Local (QErr code msg))
    | None => s' = s
    end.
Proof.
  intros Hi Ec. pose proof (fun code => deadline_covers s now code Hi) as Hd. revert Hd.
  unfold timeouts, timed_out, bind, get, closeLocal, close_with, modify, ret, time_add.
  destruct (tooManyUndecryptable s) as [t|]; [destruct (_ <? _)|]; destruct (negb (length _ =? 0)%nat), (handshakeComplete s),
    (HandshakeTimeout cfg <=? _), (idleTimeout cfg <=? _); cbn; rewrite ?Ec; intros Hd;
    (eexists; split; [reflexivity|]); first [done|split; [by eapply Hd|by eexists]].
Qed.

Lemma queued_pings pids : forall s, for_each (fun pid => queue FPing pid) pids s
  = Some (Ok tt, set_packer s (packetPacker.set_control (packer s) (packetPacker.controlFrames (packer s) ++ repeat FPing (length pids)))).
Proof.
  induction pids as [|pid pids IH]; intros s; cbn [for_each repeat length].
  - rewrite app_nil_r. by destruct s as [? ? ? ? ? ? []].
  - unfold bind, queue at 1, modify. rewrite IH. cbn. by rewrite <- app_assoc.
Qed.

(** Without activity for half of the idle timeout the loop queues a PING for every path in every
    turn, whether or not it has sent one: [keepAlivePingSent] only delays the timer. *)
Theorem keep_alive_repeats s now :
  KeepAlive cfg = true -> handshakeComplete s = true -> Z.quot (idleTimeout cfg) 2 <= now - lastActivity s ->
  exists s', keep_alive cfg now s = Some (Ok tt, s') /\ keepAlivePingSent s' = true /\ lastActivity s' = lastActivity s
    /\ packetPacker.controlFrames (packer s') = packetPacker.controlFrames (packer s) ++ repeat FPing (size (paths s)).
Proof.
  intros Hk Hh Hi. unfold keep_alive, bind, get. rewrite Hk, Hh, (proj2 (Z.leb_le _ _) Hi). cbn [andb]. rewrite queued_pings.
  eexists. split; [reflexivity|]. split_and!; [done|done|]. cbn. unfold path_ids. by rewrite length_map, length_map_to_list.
Qed.

End Timeouts.

(** ** Closing *)

(** Every stream was cancelled, and no more are taken. *)
Definition cancelled s : Prop :=
  is_Some (streamsMap.closeErr (streamsMap_ s))
  /\ (forall id str, streamsMap.streams (streamsMap_ s) !! id = Some str -> stream.cancelled (stream.flags str) = true /\ stream.err str <> None).
Definition paths_ended s : Prop := forall pid p, paths s !! pid = Some p -> open p = false.
Definition ended (w : list (Z * list Z)) s : Prop := cancelled s /\ paths_ended s /\ wrote s = w.

Lemma cancelled_streams (m : streams_t) e id str :
  streamsMap.streams (streamsMap.CloseWithError (fun str => stream.Cancel str e) m e) !! id = Some str ->
  stream.cancelled (stream.flags str) = true /\ stream.err str <> None.
Proof.
  cbn. rewrite lookup_fmap. destruct (_ !! id) as [x|]; [|done]. cbn. intros [= <-]. unfold stream.Cancel, stream.first_err. cbn.
  by destruct (stream.err x) eqn:E; cbn; rewrite ?E.
Qed.

Lemma ended_put w s p pid g least : ended w s -> paths s !! pid = Some p -> ended w (set_paths s (<[pathID p := set_numbers p g least]> (paths s))).
Proof.
  intros (H1 & H3 & H4) Hp. split; [exact H1|]. split; [|done]. intros k q. cbn. intros [[_ <-]|[_ H]]%lookup_insert_Some; [exact (H3 _ _ Hp)|exact (H3 k _ H)].
Qed.

Lemma ended_packer w s (pk : packetPacker.t) : ended w s -> packetPacker.framer pk = framer s -> ended w (set_packer s pk).
Proof. intros ([H1 H2] & H3 & H4) E. unfold ended, cancelled, streamsMap_, framer. cbn. rewrite E. by split_and!. Qed.

(** The packet that closes is written once. *)
Lemma write_first_ends w bytes s : ended w s -> exists r s', write_first env bytes s = Some (r, s')
  /\ exists w', ended w' s' /\ (w' = w \/ w' = w ++ [(InitialPathID, bytes)]).
Proof.
  intros He. unfold write_first, bind at 1, the_path. destruct (paths s !! InitialPathID); [|eexists _, _; split; [done|]; exists w; split; [exact He|by left]].
  destruct He as (H1 & H3 & H4). unfold bind, modify, check. destruct (conn_Write env InitialPathID bytes); eexists _, _; (split; [done|]);
    exists (w ++ [(InitialPathID, bytes)]); (split; [|by right]); (split; [exact H1|split; [exact H3|]]); cbn; by rewrite H4.
Qed.

Lemma close_frame_packs ccf (pk : packetPacker.t) sp now x e c (pk' : packetPacker.t) sp' :
  packetPacker.PackConnectionClose (crypto env) pk ccf sp now (rnd env) = (x, e, c, (pk', sp')) -> pk' = pk.
Proof. unfold packetPacker.PackConnectionClose. destruct (packetPacker.GetSealer (crypto env)). apply frames_framer. Qed.

(** Packing it touches neither the streams nor the paths. *)
Lemma close_packed_ends w ccf now s : ended w s -> exists r s',
  run_frames env (fun pk => packetPacker.PackConnectionClose (crypto env) pk ccf) InitialPathID now s = Some (r, s') /\ ended w s'.
Proof.
  intros He. unfold run_frames, bind at 1, the_path. destruct (paths s !! InitialPathID) as [p|] eqn:Hp; [|by eexists _, _].
  unfold bind at 1, get. destruct (packetPacker.PackConnectionClose _ _ _ _ _ _) as [[[x e] c] [pk sp]] eqn:E. apply close_frame_packs in E as ->.
  unfold bind, put_path, modify. pose proof (ended_put w (set_packer s (packer s)) p InitialPathID (PacketPacker.generator sp) (PacketPacker.leastUnacked sp)
    (ended_packer w s _ He eq_refl) Hp) as H. destruct c; [by eexists _, _|]. destruct e; by eexists _, _.
Qed.

Lemma connection_close_ends w code msg now s : ended w s -> exists r s', sendConnectionClose env code msg now s = Some (r, s')
  /\ exists w', ended w' s' /\ (w' = w \/ exists bytes, w' = w ++ [(InitialPathID, bytes)]).
Proof.
  assert (forall s1, ended w s1 -> exists w', ended w' s1 /\ (w' = w \/ exists bytes, w' = w ++ [(InitialPathID, bytes)])) as Hnone
    by (intros s1 H1; exists w; split; [exact H1|by left]).
  intros He. unfold sendConnectionClose, bind at 1, the_path. destruct (paths s !! InitialPathID) as [p|] eqn:Hp; [|by eexists _, _; split; [done|apply Hnone]].
  unfold bind at 1, put_path, modify. pose proof (ended_put w s p InitialPathID (generator p) (sentPacketHandler.GetLeastUnacked (sent p)) He Hp) as H1.
  change (pathID (set_numbers p (generator p) (sentPacketHandler.GetLeastUnacked (sent p)))) with (pathID p).
  unfold bind. destruct (close_packed_ends w (ConnectionCloseFrame.Mk (code_number code) (string_bytes msg)) now _ H1) as (x & s2 & -> & H2).
  destruct x as [[x|]|e|]; [|by eexists _, _; split; [done|apply Hnone]..].
  destruct (write_first_ends w (default [] (packetPacker.raw x)) s2 H2) as (r & s' & -> & w' & Hw & H). eexists _, _. split; [done|].
  exists w'. split; [done|]. destruct H as [->| ->]; [by left|right; by eexists].
Qed.

Lemma stopped_ends s : paths_ended (set_paths s (stopped <$> paths s)).
Proof. intros pid p. cbn. rewrite lookup_fmap. destruct (_ !! pid) as [q|]; [|done]. intros [= <-]. unfold stopped. by destruct (open q) eqn:E. Qed.

(** What handling the reason leaves: only a session that is created again for another version keeps its paths as they are. *)
Lemma close_error_ends reason now s : exists r s', handleCloseError env reason now s = Some (r, s') /\ cancelled s'
  /\ (reason <> Local errCloseSessionForNewVersion \/ paths_ended s -> paths_ended s')
  /\ (wrote s' = wrote s \/ exists bytes e, wrote s' = wrote s ++ [(InitialPathID, bytes)] /\ reason = Local e /\ e <> errCloseSessionForNewVersion).
Proof.
  unfold handleCloseError, bind at 1, modify. set (s0 := set_streams s _ _).
  assert (cancelled s0) as H0 by (split; [by eexists|exact (cancelled_streams (streamsMap_ s) (close_error reason))]).
  assert (ended (wrote s) (set_paths s0 (stopped <$> paths s0))) as H2 by (split; [exact H0|split; [apply stopped_ends|done]]).
  destruct reason as [e|code phrase]; [|eexists _, _; split; [reflexivity|]; split; [exact H0|split; [intros _; apply H2|by left]]].
  destruct (decide (e = errCloseSessionForNewVersion)) as [->|Hne].
  { eexists _, _. split; [reflexivity|]. split; [exact H0|]. split; [by intros [|]|by left]. }
  assert (forall m : M (C := C) Datatypes.unit, (forall s2, ended (wrote s) s2 -> exists r s', m s2 = Some (r, s')
      /\ exists w', ended w' s' /\ (w' = wrote s \/ exists bytes, w' = wrote s ++ [(InitialPathID, bytes)])) ->
    exists r s', (do! _ := closePaths in m) s0 = Some (r, s') /\ cancelled s' /\ (Local e <> Local errCloseSessionForNewVersion \/ paths_ended s -> paths_ended s')
      /\ (wrote s' = wrote s \/ exists bytes e0, wrote s' = wrote s ++ [(InitialPathID, bytes)] /\ Local e = Local e0 /\ e0 <> errCloseSessionForNewVersion)) as Hm.
  { intros m Hm. unfold bind, closePaths, modify. destruct (Hm _ H2) as (r & s' & -> & w' & (H3 & H4 & H5) & H6). eexists _, _. split; [done|].
    split; [done|]. split; [done|]. rewrite H5. destruct H6 as [->|[bytes ->]]; [by left|right]. by exists bytes, e. }
  destruct (ToQuicError e) as [code msg]. apply Hm. intros s2 Hs2. destruct (_ || _).
  - unfold bind at 1, the_path. destruct (paths s2 !! InitialPathID) as [p|]; [|eexists _, _; split; [done|]; exists (wrote s); split; [exact Hs2|by left]].
    unfold sendPublicReset, bind at 1, get.
    match goal with |- context [write_first env ?b] => destruct (write_first_ends (wrote s) b s2 Hs2) as (r & s' & -> & w & Hw & H) end.
    eexists _, _. split; [done|]. exists w. split; [exact Hw|]. destruct H as [->| ->]; [by left|right; by eexists].
  - by apply connection_close_ends.
Qed.


(** ** A reset of the crypto stream *)

(** The first reset by the peer finishes a stream. *)
Lemma remote_error_finishes str e : stream.resetRemotely (stream.flags str) = false -> stream.finished (stream.RegisterRemoteError str e).2 = true.
Proof.
  intros H. unfold stream.RegisterRemoteError. rewrite H. unfold stream.queue_reset, stream.shouldSendReset, stream.finished, stream.finishedWriteAndSentFin, stream.first_err.
  destruct str as [? ? ? ? er [c fr fw rl rr fs rs] ? ? ? ? ? ?]. cbn in *. subst rr. destruct er, c, fr, fw, rl, fs, rs; reflexivity.
Qed.

Lemma no_crypto_stream n f : has_crypto f -> streamsMap.streams (streamFramer.smap f) !! 1 = None ->
  streamFramer.HasCryptoStreamFrame n f = Some (Panic, streamFramer.set_smap f (streamFramer.smap f)).
Proof.
  intros Hc H1. destruct (crypto_stream_opened n f Hc) as (r & E & Hr). unfold streamFramer.HasCryptoStreamFrame. rewrite E.
  destruct r as [cs|e|]; [by rewrite (Hr cs eq_refl) in H1| |done]. 
  unfold streamFramer.crypto_stream in E. by destruct (streamsMap.GetOrOpenStream _ _ _ _) as [[[[]| |] ?]|].
Qed.

Lemma crypto_gone_panics cr n compose b (pk : packetPacker.t) sp now rd :
  has_crypto (packetPacker.framer pk) -> streamsMap.streams (streamFramer.smap (packetPacker.framer pk)) !! 1 = None ->
  exists st, packetPacker.pack_with cr n compose b pk sp now rd = Some (Panic, st).
Proof.
  intros Hc H1. unfold packetPacker.pack_with. rewrite no_crypto_stream by done. by eexists.
Qed.

Lemma run_panics pack pid now s p : paths s !! pid = Some p ->
  (exists st, pack (packer s) (send_path s p) now (rnd env) = Some (Panic, st)) -> exists s', run_pack env pack pid now s = Some (Panic, s').
Proof. intros Hp [[pk sp] E]. unfold run_pack, bind, the_path, get, modify, put_path, lift. rewrite Hp, E. by eexists. Qed.

Lemma queued_reset rst s : exists s', queueResetStreamFrame rst s = Some (Ok tt, s') /\ streamsMap_ s' = streamsMap_ s.
Proof. destruct rst as [[id off]|]; eexists; split; reflexivity. Qed.

Lemma checked_flow fl e s : exists r s', (do! _ := modify (fun s => set_streams s (streamsMap_ s) fl) in check e) s = Some (r, s') /\ streamsMap_ s' = streamsMap_ s.
Proof. destruct e; eexists _, _; split; reflexivity. Qed.

Lemma reset_finishes f s str : stream.streamID str = 1 ->
  RstStreamFrame.StreamID f = 1 -> streamsMap.streams (streamsMap_ s) !! 1 = Some str -> stream.resetRemotely (stream.flags str) = false ->
  exists r1 s1 str1, handleRstStreamFrame env f s = Some (r1, s1) /\ streamsMap.streams (streamsMap_ s1) !! 1 = Some str1 /\ stream.finished str1 = true.
Proof.
  intros Eid Hid Hstr Hr. unfold handleRstStreamFrame, bind at 1, GetOrOpenStream, on_streams, streamsMap.GetOrOpenStream. rewrite Hid, Hstr.
  set (e := GoErr _). pose proof (remote_error_finishes str e Hr) as Hf. destruct (stream.RegisterRemoteError str e) as [rst str1] eqn:E.
  apply remote_error_id in E as [E1 _]. cbn [snd] in Hf.
  unfold bind at 1, get at 1. unfold bind at 1, put_stream at 1, modify at 1. unfold bind at 1.
  match goal with |- context [queueResetStreamFrame rst ?x] => destruct (queued_reset rst x) as (s2 & -> & H2) end.
  unfold bind at 1, get. destruct (flowControlManager.ResetStream _ _ _) as [er fl]. destruct (checked_flow fl er s2) as (r & s3 & -> & H3).
  exists r, s3, str1. split; [done|]. split; [|exact Hf]. rewrite H3, H2. cbn. rewrite E1, Eid. apply lookup_insert_eq.
Qed.

(** What a reset leaves, when the loop has collected the streams. *)
Lemma reset_collected f s str : live env side s ->
  RstStreamFrame.StreamID f = 1 -> streamsMap.streams (streamsMap_ s) !! 1 = Some str -> stream.resetRemotely (stream.flags str) = false ->
  exists r1 s1 s2, handleRstStreamFrame env f s = Some (r1, s1) /\ garbageCollectStreams s1 = Some (Ok tt, s2) /\ live env side s2
    /\ streamsMap.streams (streamsMap_ s2) !! 1 = None.
Proof.
  intros Hs Hid Hstr Hr. pose proof Hs as [Hc Ho]%live_opened.
  destruct (si_contents _ _ _ _ _ Hc _ _ Hstr) as [Eid _]. destruct (reset_finishes f s str Eid Hid Hstr Hr) as (r1 & s1 & str1 & E1 & H1 & Hf).
  pose proof (opens_rst env f s r1 s1 Ho E1) as Ho1.
  destruct (runs_rst_stream env side {[InitialPathID]} True f ltac:(lia) s Hc I) as (r & s1' & E & Hc1 & _).
  rewrite E1 in E. injection E as _ <-.
  destruct (collect_spec env side {[InitialPathID]} True s1 Hc1) as (m & fl & E2 & [C1 C2 C3 C4 C5] & Hc2).
  exists r1, s1, (set_streams s1 m fl). split; [done|]. split; [done|]. split; [apply live_opened; split; [exact Hc2|by eapply opens_collect]|].
  change (streamsMap_ (set_streams s1 m fl)) with m. rewrite C4, H1, decide_True; [done|]. split; [|done].
  apply (streamsMap.i_dom _ (si_streams _ _ _ _ _ Hc1)). by eexists.
Qed.

Lemma ping_panics pid now s p : paths s !! pid = Some p -> has_crypto (framer s) -> streamsMap.streams (streamsMap_ s) !! 1 = None ->
  exists s', sendPing env pid now s = Some (Panic, s').
Proof.
  intros Hp Hc H1. unfold sendPing, bind, the_path, get. rewrite Hp. unfold packetPacker.PackPing, packetPacker.PackPacket.
  match goal with |- context [packetPacker.pack_with ?cr ?n ?f ?b ?pk ?sp ?t ?rd] => destruct (crypto_gone_panics cr n f b pk sp t rd Hc H1) as ([pk' sp'] & ->) end.
  unfold modify, put_path, lift. by eexists.
Qed.

End Ends.
