(* ===== verification/RunSamples.v ===== *)
(** * Running: concrete runs

    A server that a reset of its crypto stream brings down, a client that times out, keeps alive and
    closes: the theorems of [SessionRunFacts], [SessionEnds] and [SendingKeeps] at concrete inputs. *)

From stdpp Require Import base numbers list option strings gmap.
From S2P Require Import Prelude ByteOrder Protocol AckFrame ClosePathFrame StreamFrame ControlFrames PublicHeader PacketUnpacker PacketPacker FlowControl FrameSorter GoFloat ReceivedPackets RttStats SentPackets Olia UtilityControl Scheduler Monitor StreamsMap GoSlice Stream StreamFramer PackPacket Session SessionFacts SessionSafety Handshake CryptoServer Sending SendingFacts SendingKeeps SendingSamples SendingBounded SessionRun SessionRunFacts SessionEnds.

Local Open Scope Z_scope.
#[local] Existing Instance fixed_window.

Definition sample_cfg : Config := MkConfig true (10 * Second) (30 * Second) 0.
Definition sample_turn (e : event) (now : Z) (s : session (C := Z)) : option (res scheduler * session (C := Z)) :=
  turn one_window sample_env no_power false f0 sample_cfg 20 e sch0 now s.

(** The packet has one frame, RST_STREAM for stream 1. *)
Definition reset_payload : list Z := [0x01; 0; 0; 0; 1; 0; 0; 0; 0; 0; 0; 0; 0; 0; 0; 0; 0].
Definition server1 : session := handlePacket (incoming 0 1 reset_payload) server0.
Definition server2 : session := match sample_turn PacketReceived 6000 server1 with Some (_, s) => s | None => server1 end.

(** The turn that takes the packet ends well, and the next turn, whatever wakes the loop, panics. *)
Lemma crypto_reset_run :
  (exists sch, sample_turn PacketReceived 6000 server1 = Some (Ok sch, server2)) /\ closeErr server2 = None
  /\ (exists s, sample_turn Timer 7000 server2 = Some (Panic, s)).
Proof. split; [|split]; [eexists; vm_compute; reflexivity|vm_compute; reflexivity|eexists; vm_compute; reflexivity]. Qed.

Lemma sample_room : 0 < maxIncoming sample_env.
Proof. done. Qed.

Lemma server2_running : running one_window sample_env PerspectiveServer no_power false f0 sample_cfg server2.
Proof.
  assert (running one_window sample_env PerspectiveServer no_power false f0 sample_cfg server1) as H.
  { eapply run_beside; [|apply st_receive].
    - apply (run_new one_window sample_env PerspectiveServer no_power false f0 sample_cfg (sample_side true) true "10.0.0.2:443" here 0); [done|].
      vm_compute. reflexivity.
    - unfold header_ok. cbn. lia. }
  destruct crypto_reset_run as ((sch & E) & _ & _). by eapply run_turn.
Qed.

Lemma running_consistent_witness : consistent sample_env PerspectiveServer server2 /\ streamsMap.streams (streamsMap_ server2) !! 1 = None.
Proof.
  destruct (running_consistent one_window sample_env PerspectiveServer no_power false f0 sample_cfg sample_aead sample_room server2 server2_running) as [Hc _].
  split; [exact Hc|]. vm_compute. reflexivity.
Defined.

Lemma client0_live : live sample_env PerspectiveClient client0.
Proof. split; [apply (reachable_consistent one_window sample_env PerspectiveClient sample_aead sample_limit), client0_reachable|]. by intros ?. Qed.

Lemma pinging_live : live sample_env PerspectiveClient (pinging client0).
Proof. exact (keeps_queue sample_env PerspectiveClient FPing 0 client0 (Ok tt) (pinging client0) client0_live eq_refl). Qed.

Lemma sending_keeps_consistent_witness : exists sch s', session_sendPacket sample_env no_power false f0 20 sch0 2000 (pinging client0) = Some (Ok sch, s')
  /\ length (wrote s') = 1%nat /\ consistent sample_env PerspectiveClient s'.
Proof.
  assert (exists sch s', session_sendPacket sample_env no_power false f0 20 sch0 2000 (pinging client0) = Some (Ok sch, s') /\ length (wrote s') = 1%nat)
    as (sch & s' & E & Hw) by (eexists _, _; vm_compute; split; reflexivity).
  exists sch, s'. split; [exact E|]. split; [exact Hw|].
  exact (proj1 (sending_keeps_consistent sample_env PerspectiveClient no_power false f0 20 sch0 2000 (pinging client0) (Ok sch) s'
    (proj1 pinging_live) (proj2 pinging_live) E)).
Defined.

Lemma pinging_memory : in_memory (pinging client0).
Proof.
  intros pid p. revert pid p. change (map_Forall (fun (_ : Z) p => Z.of_nat (length (history p)) < 2 ^ 62) (paths (pinging client0))).
  apply (bool_decide_unpack _). vm_compute. exact I.
Qed.

Lemma pinging_awake : awake (pinging client0).
Proof.
  intros pid p. revert pid p. change (map_Forall (fun (_ : Z) p => open p = true) (paths (pinging client0))).
  apply (bool_decide_unpack _). vm_compute. exact I.
Qed.

Lemma sending_ends_witness : exists r s', forall n, 1500000 < Z.of_nat n -> session_sendPacket sample_env no_power false f0 n sch0 2000 (pinging client0) = Some (r, s').
Proof.
  assert (cost 2000 (pinging client0) <= 1500000) as Hc by (vm_compute; discriminate).
  destruct (sending_ends sample_env PerspectiveClient no_power false f0 sch0 2000 (pinging client0) (proj1 pinging_live) (proj2 pinging_live) pinging_awake pinging_memory) as (r & s' & H);
    [apply (Z.le_lt_trans _ 1500000 _ Hc); reflexivity|reflexivity|].
  exists r, s'. intros n Hn. apply H. exact (Z.le_lt_trans _ _ _ Hc Hn).
Defined.

Lemma timeouts_close_in_time_witness : exists s', timeouts sample_cfg (11 * Second) server0 = Some (Ok tt, s')
  /\ exists msg, closeErr s' = Some (Local (QErr "HandshakeTimeout" msg)).
Proof.
  destruct (timeouts_close_in_time sample_cfg server0 (11 * Second)) as (s' & E & H); [done|vm_compute; reflexivity|].
  exists s'. split; [exact E|]. assert (timed_out sample_cfg server0 (11 * Second) = Some "HandshakeTimeout"%string) as Et by (vm_compute; reflexivity).
  rewrite Et in H. exact (proj2 H).
Defined.

(** Sixteen seconds without a packet, of an idle timeout of thirty: a PING for each path. *)
Lemma keep_alive_repeats_witness : exists s', keep_alive sample_cfg (16 * Second) (finished client1) = Some (Ok tt, s')
  /\ length (packetPacker.controlFrames (packer s')) = 2%nat.
Proof.
  destruct (keep_alive_repeats sample_cfg (finished client1) (16 * Second)) as (s' & E & _ & _ & H); [done|done|vm_compute; discriminate|].
  exists s'. split; [exact E|]. rewrite H. vm_compute. reflexivity.
Defined.


