(* ===== verification/Endpoint.v ===== *)
(** * Endpoints: server and client

    Models how a server and a client dispatch packets to their sessions, create sessions and negotiate the
    version ([server.go], [client.go]), and how they complete a configuration.

    A session is seen through the interface [packetHandler], the class [PacketHandler] here; what creates one is
    an argument.  Other arguments are the outcome of writes to the network, random connection IDs and
    [net.UDPAddr.String]; the network of an address is always UDP.  What an endpoint itself writes is recorded.
    Sockets, the goroutines that listen on them and the channels through which an application waits for a
    session are not modelled. *)

From stdpp Require Import base numbers list option strings gmap.
From S2P Require Import Prelude ByteOrder Protocol AckFrame ClosePathFrame StreamFrame ControlFrames PublicHeader PacketUnpacker PacketPacker FlowControl FrameSorter GoFloat ReceivedPackets RttStats SentPackets Olia UtilityControl Scheduler Monitor StreamsMap GoSlice Stream StreamFramer PackPacket Session Handshake CryptoServer Sending SessionRun Aead Cookies.

Local Open Scope Z_scope.

(** ** Configuration *)

(** [Config] of [interface.go]; [None] where a function is nil. *)
Record Config : Type := MkConfig {
  Versions : list Z;
  RequestConnectionIDTruncation : bool;
  HandshakeTimeout : Z;
  IdleTimeout : Z;
  AcceptCookie : option (Z -> Addr -> option Cookie -> bool);     (* the clock first *)
  MaxReceiveStreamFlowControlWindow : Z;
  MaxReceiveConnectionFlowControlWindow : Z;
  KeepAlive : bool;
  CacheHandshake : bool;
  CreatePaths : bool;
  SchedulerName : string;
  GenerateRedundancy : bool;
  IPriority : bool;
  UtilityMode : string;
  LogControlActions : bool;
  ExperimentRunID : string;
  ExperimentInputFile : string;
  Phase2Enabled : bool;
  Phase2Owner : bool;
  EndpointRole : string;
  Phase2StateDir : string;
}.

(** [&Config{CreatePaths: createPaths}] *)
Definition empty_config (createPaths : bool) : Config :=
  MkConfig [] false 0 0 None 0 0 false false createPaths "" false false "" false "" "" false false "" "".

Definition DefaultHandshakeTimeout : Z := 10 * Second.
Definition DefaultIdleTimeout : Z := 30 * Second.
Definition DefaultMaxReceiveStreamFlowControlWindowServer : Z := 2 ^ 20.
Definition DefaultMaxReceiveConnectionFlowControlWindowServer : Z := 3 * 2 ^ 19.
Definition DefaultMaxReceiveStreamFlowControlWindowClient : Z := 16 * 2 ^ 20.
Definition DefaultMaxReceiveConnectionFlowControlWindowClient : Z := 24 * 2 ^ 20.

(** The value that is set, or the default. *)
Definition or_default (v d : Z) : Z := if v =? 0 then d else v.
Definition versions_of (config : Config) : list Z := match Versions config with [] => SupportedVersions | vs => vs end.

Definition populateServerConfig (IPString : list Z -> list Z) (config : option Config) : Config :=
  let config := default (empty_config true) config in
  MkConfig (versions_of config) false
    (or_default (HandshakeTimeout config) DefaultHandshakeTimeout) (or_default (IdleTimeout config) DefaultIdleTimeout)
    (Some (default (defaultAcceptCookie IPString) (AcceptCookie config)))
    (or_default (MaxReceiveStreamFlowControlWindow config) DefaultMaxReceiveStreamFlowControlWindowServer)
    (or_default (MaxReceiveConnectionFlowControlWindow config) DefaultMaxReceiveConnectionFlowControlWindowServer)
    (KeepAlive config) false (CreatePaths config) (SchedulerName config) (GenerateRedundancy config) (IPriority config) (UtilityMode config)
    (LogControlActions config) (ExperimentRunID config) (ExperimentInputFile config) (Phase2Enabled config) (Phase2Owner config)
    (EndpointRole config) (Phase2StateDir config).

Definition populateClientConfig (config : option Config) : Config :=
  let config := default (empty_config false) config in
  MkConfig (versions_of config) (RequestConnectionIDTruncation config)
    (or_default (HandshakeTimeout config) DefaultHandshakeTimeout) (or_default (IdleTimeout config) DefaultIdleTimeout)
    None
    (or_default (MaxReceiveStreamFlowControlWindow config) DefaultMaxReceiveStreamFlowControlWindowClient)
    (or_default (MaxReceiveConnectionFlowControlWindow config) DefaultMaxReceiveConnectionFlowControlWindowClient)
    (KeepAlive config) (CacheHandshake config) (CreatePaths config) (SchedulerName config) (GenerateRedundancy config) (IPriority config)
    (UtilityMode config) (LogControlActions config) (ExperimentRunID config) (ExperimentInputFile config) (Phase2Enabled config)
    (Phase2Owner config) (EndpointRole config) (Phase2StateDir config).

(** ** Packets and sessions *)

Record receivedRawPacket : Type := MkRaw {
  raw_rcvPconn : string;
  raw_remoteAddr : UDPAddr;
  raw_data : list Z;
  raw_rcvTime : Z;
}.

(** The packet for a session, behind the header [hdr] with the bytes [r] left to read. *)
Definition received_packet (p : receivedRawPacket) (hdr : PublicHeader.t) (r : list Z) : receivedPacket :=
  MkReceived (raw_remoteAddr p) hdr (take (length (raw_data p) - length r) (raw_data p)) r (raw_rcvTime p) (raw_rcvPconn p).

(** [packetHandler]: the operations of a session an endpoint calls; [Close] without the wait for the run loop to end. *)
Class PacketHandler (S : Type) : Type := {
  ph_handlePacket : receivedPacket -> S -> S;
  ph_GetVersion : S -> Z;
  ph_RemoteAddr : S -> res UDPAddr;
  ph_Close : option goerr -> S -> S;
  ph_closeRemote : string -> string -> S -> S;      (* code and message *)
}.

(** What an endpoint relies on. *)
Class PacketHandlerOk (S : Type) `{!PacketHandler S} : Prop := {
  version_handled x s : ph_GetVersion (ph_handlePacket x s) = ph_GetVersion s;
  version_closed e s : ph_GetVersion (ph_Close e s) = ph_GetVersion s;
}.

(** Sessions are one. *)
Section SessionHandler.
Context {C : Type}.

Definition session_RemoteAddr (s : session (C := C)) : res UDPAddr :=
  match paths s !! InitialPathID with Some p => Ok (remoteAddr p) | None => Panic end.

Definition close_now (r : close_reason) (s : session (C := C)) : session (C := C) := match close_with r s with Some (_, s') => s' | None => s end.

#[export] Instance session_handler : PacketHandler (session (C := C)) := {
  ph_handlePacket := handlePacket;
  ph_GetVersion := Session.version;
  ph_RemoteAddr := session_RemoteAddr;
  ph_Close e := close_now (Local (default (QErr "PeerGoingAway" "") e));
  ph_closeRemote code msg := close_now (Remote (code_number code) (string_bytes msg));
}.

#[export] Instance session_handler_ok : PacketHandlerOk (session (C := C)).
Proof. split; [|done]. intros x s. cbn. unfold handlePacket. by destruct (_ <? _). Qed.
End SessionHandler.
