(* ===== verification/Server.v ===== *)
(** * The server

    Models [server.go]: to which session a packet goes, when a session is created, when the server
    answers itself, with a version negotiation packet or a public reset, and how closed sessions are
    remembered for a while.

    The queue of [Accept] and the goroutines around it are left out: what an application sees of a
    session is not part of the dispatch.  The clock of a timer is not modelled; one that was set may fire at
    any later point. *)

From stdpp Require Import base numbers list option strings gmap.
From S2P Require Import Prelude ByteOrder Protocol ControlFrames PublicHeader PacketUnpacker PacketPacker Session Handshake CryptoServer Endpoint.

Local Open Scope Z_scope.

Definition errSmallPacket : goerr := GoErr "dropping small packet with unknown version".
Definition errVersionBug : goerr := GoErr "Server BUG: negotiated version not supported".

Section Server.
Context {S : Type} `{!PacketHandler S}.
(** The session for a remote address, a version and a connection ID; what the network reports for a write. *)
Context (newSession : UDPAddr -> Z -> Z -> res S) (WriteTo : list Z -> UDPAddr -> option goerr).

(** A closed session is [None] until it is deleted. *)
Record server : Type := MkServer {
  versions : list Z;                           (* of the configuration *)
  sessions : gmap Z (option S);
  deletions : list Z;                          (* timers of [removeConnection], by connection ID *)
  replies : list (UDPAddr * list Z);
}.

Definition set_sessions (s : server) (m : gmap Z (option S)) : server := MkServer (versions s) m (deletions s) (replies s).

(** [pconn.WriteTo] *)
Definition reply (bytes : list Z) (addr : UDPAddr) (s : server) : res unit * server :=
  (match WriteTo bytes addr with Some e => Err e | None => Ok tt end,
   MkServer (versions s) (sessions s) (deletions s) (replies s ++ [(addr, bytes)])).

(** A public reset is only logged. *)
Definition log_reset (known : bool) (r : list Z) (s : server) : res unit * server :=
  if known then match PublicReset.ParsePublicReset r with Panic => (Panic, s) | _ => (Ok tt, s) end else (Ok tt, s).

(** The packet is for [session], or for a new one; its header was read. *)
Definition dispatch (session : option S) (p : receivedRawPacket) (hdr : PublicHeader.t) (r : list Z) (connID : Z) (s : server) : res unit * server :=
  match session with
  | Some session => (Ok tt, set_sessions s (<[connID := Some (ph_handlePacket (received_packet p hdr r) session)]> (sessions s)))
  | None =>
      let version := PublicHeader.VersionNumber hdr in
      if negb (IsSupportedVersion (versions s) version) then (Err errVersionBug, s)
      else
        match newSession (raw_remoteAddr p) version (PublicHeader.ConnectionID hdr) with
        | Ok session => (Ok tt, set_sessions s (<[connID := Some (ph_handlePacket (received_packet p hdr r) session)]> (sessions s)))
        | Err e => (Err e, s)
        | Panic => (Panic, s)
        end
  end.

(** With the header: resets are ignored, and so is a packet of an old version for a session; a first packet of a version that
    is not supported is answered. *)
Definition handle_header (session : option S) (p : receivedRawPacket) (hdr : PublicHeader.t) (r : list Z) (connID : Z) (s : server) : res unit * server :=
  let ok := bool_decide (is_Some session) in
  let unsupported := PublicHeader.VersionFlag hdr && negb (IsSupportedVersion (versions s) (PublicHeader.VersionNumber hdr)) in
  if PublicHeader.ResetFlag hdr then log_reset ok r s
  else if ok && unsupported then (Ok tt, s)
  else if unsupported then
    if Z.of_nat (length (raw_data p)) <? ClientHelloMinimumSize + Z.of_nat (length (raw_data p) - length r) then (Err errSmallPacket, s)
    else reply (ComposeVersionNegotiation (PublicHeader.ConnectionID hdr) (versions s)) (raw_remoteAddr p) s
  else dispatch session p hdr r connID s.

(** For a session, or none. *)
Definition handle_for (session : option S) (p : receivedRawPacket) (connID : Z) (s : server) : res unit * server :=
  let version := match session with Some x => ph_GetVersion x | None => VersionUnknown end in
  match PublicHeader.ParsePublicHeader PerspectiveClient version (raw_data p) with
  | Ok (hdr, r) => handle_header session p hdr r connID s
  | Err e =>
      if decide (e = PublicHeader.ErrPacketWithUnknownVersion) then reply (PublicReset.WritePublicReset connID 0 0).1 (raw_remoteAddr p) s
      else (Err (QErr "InvalidPacketHeader" (Error e)), s)
  | Panic => (Panic, s)
  end.

Definition server_handlePacket (p : receivedRawPacket) (s : server) : res unit * server :=
  match PublicHeader.PeekConnectionID PerspectiveClient (raw_data p) with
  | Ok (connID, _) =>
      match sessions s !! connID with
      | Some None => (Ok tt, s)                (* a late packet for a closed session *)
      | Some (Some session) => handle_for (Some session) p connID s
      | None => handle_for None p connID s
      end
  | Err e => (Err (QErr "InvalidPacketHeader" (Error e)), s)
  | Panic => (Panic, s)
  end.

(** The run loop of a session has ended: [removeConnection]; the timer deletes the entry after
    [ClosedSessionDeleteTimeout], a minute. *)
Definition removeConnection (id : Z) (s : server) : server :=
  MkServer (versions s) (<[id := None]> (sessions s)) (deletions s ++ [id]) (replies s).
Definition on_deletion (n : nat) (s : server) : option server :=
  id ← deletions s !! n; mret (MkServer (versions s) (delete id (sessions s)) (delete n (deletions s)) (replies s)).

(** [server.Close], without the waits. *)
Definition server_Close (s : server) : server := set_sessions s (option_map (ph_Close None) <$> sessions s).

Definition ListenImpl (versions : list Z) : server := MkServer versions ∅ [] [].

(** ** Runs of a server *)

(** What a session does by itself. *)
Context (own : Z -> S -> S -> Prop).

Inductive server_step : server -> server -> Prop :=
| ss_packet p s r s' : bytes_ok (raw_data p) -> server_handlePacket p s = (r, s') -> server_step s s'
| ss_session id x x' s : sessions s !! id = Some (Some x) -> own id x x' -> server_step s (set_sessions s (<[id := Some x']> (sessions s)))
| ss_ended id x s : sessions s !! id = Some (Some x) -> server_step s (removeConnection id s)
| ss_deletion n s s' : on_deletion n s = Some s' -> server_step s s'
| ss_close s : server_step s (server_Close s).

Inductive serving (vs : list Z) : server -> Prop :=
| serving_new : serving vs (ListenImpl vs)
| serving_step s s' : serving vs s -> server_step s s' -> serving vs s'.
End Server.
