(* ===== verification/Client.v ===== *)
(** * The client

    Models [client.go] from the first packet on: which packets a client takes, the negotiation of the version and
    the session that a new version needs.  The channels through which the application waits for the handshake are left
    out; closing [versionNegotiationChan] is the flag [versionNegotiated]. *)

From stdpp Require Import base numbers list option strings gmap.
From S2P Require Import Prelude ByteOrder Protocol ControlFrames PublicHeader PacketUnpacker PacketPacker Session Handshake CryptoServer SessionRun Endpoint.

Local Open Scope Z_scope.

(** [strconv] of [%#x] for an unsigned number of 64 bits. *)
Fixpoint hex_digits (fuel : nat) (n : Z) : string :=
  match fuel with
  | O => EmptyString
  | S fuel =>
      let d := String (Ascii.ascii_of_nat (Z.to_nat (let d := n mod 16 in if d <? 10 then 48 + d else 87 + d))) EmptyString in
      if n <? 16 then d else (hex_digits fuel (n / 16) +:+ d)%string
  end.
Definition hex (n : Z) : string := ("0x" +:+ hex_digits 16 n)%string.

Section Client.
Context {S : Type} `{!PacketHandler S}.
(** The session for a remote address, a version, a connection ID and the versions of the server's negotiation packet. *)
Context (newClientSession : UDPAddr -> Z -> Z -> list Z -> res S) (addrString : UDPAddr -> string).

(** [session] is [None] where the interface is nil; [replaced] are the sessions of earlier versions, whose run loops
    end. *)
Record client : Type := MkClient {
  config : Config;
  connectionID : Z;
  client_version : Z;
  versionNegotiated : bool;
  receivedVersionNegotiationPacket : bool;
  session : option S;
  replaced : list S;
}.

Definition set_session (c : client) (x : option S) : client :=
  MkClient (config c) (connectionID c) (client_version c) (versionNegotiated c) (receivedVersionNegotiationPacket c) x (replaced c).
Definition set_negotiated (c : client) : client :=
  MkClient (config c) (connectionID c) (client_version c) true (receivedVersionNegotiationPacket c) (session c) (replaced c).
Definition set_received_negotiation (c : client) : client :=
  MkClient (config c) (connectionID c) (client_version c) (versionNegotiated c) true (session c) (replaced c).
Definition set_version (c : client) (v id : Z) : client :=
  MkClient (config c) id v (versionNegotiated c) (receivedVersionNegotiationPacket c) (session c) (replaced c).
Definition set_replaced (c : client) (l : list S) : client :=
  MkClient (config c) (connectionID c) (client_version c) (versionNegotiated c) (receivedVersionNegotiationPacket c) (session c) l.

(** On the session, which is not nil. *)
Definition on_session (f : S -> S) (c : client) : res unit * client :=
  match session c with Some x => (Ok tt, set_session c (Some (f x))) | None => (Panic, c) end.

(** An error leaves the client without a session. *)
Definition createNewSession (remote : UDPAddr) (negotiatedVersions : list Z) (c : client) : res unit * client :=
  match newClientSession remote (client_version c) (connectionID c) negotiatedVersions with
  | Ok x => (Ok tt, set_session c (Some x))
  | Err e => (Err e, set_session c None)
  | Panic => (Panic, c)
  end.

(** The deferred [oldSession.Close]: nil panics. *)
Definition close_old (old : option S) (r : res unit * client) : res unit * client :=
  match old, r with
  | _, (Panic, c) => (Panic, c)
  | Some x, (r, c) => (r, set_replaced c (replaced c ++ [ph_Close (Some errCloseSessionForNewVersion) x]))
  | None, (_, c) => (Panic, c)
  end.

Definition InvalidVersion : goerr := QErr "InvalidVersion" "".

(** [newID] is what [GenerateConnectionID] returns. *)
Definition handlePacketWithVersionFlag (hdr : PublicHeader.t) (remote : UDPAddr) (newID : res Z) (c : client) : res unit * client :=
  if existsb (fun v => v =? client_version c) (PublicHeader.SupportedVersions hdr) then (Ok tt, c)
  else
    let c := set_received_negotiation c in
    let newVersion := ChooseSupportedVersion (Versions (config c)) (PublicHeader.SupportedVersions hdr) in
    if newVersion =? VersionUnsupported then (Err InvalidVersion, c)
    else
      match newID with
      | Ok id => close_old (session c) (createNewSession remote (PublicHeader.SupportedVersions hdr) (set_version c newVersion id))
      | Err e => (Err e, set_version c newVersion 0)
      | Panic => (Panic, c)
      end.

Definition reset_message (n : Z) : string := "Received a Public Reset for packet number " +:+ hex n.

(** A public reset counts if it is for the connection and comes from the address of the session. *)
Definition handle_reset (p : receivedRawPacket) (hdr : PublicHeader.t) (r : list Z) (c : client) : res unit * client :=
  match session c with
  | None => (Panic, c)
  | Some x =>
      match ph_RemoteAddr x with
      | Ok cr =>
          if negb (String.eqb (addrString cr) (addrString (raw_remoteAddr p))) || negb (PublicHeader.ConnectionID hdr =? connectionID c) then (Ok tt, c)
          else
            match PublicReset.ParsePublicReset r with
            | Ok (pr, _) => on_session (ph_closeRemote "PublicReset" (reset_message (PublicReset.RejectedPacketNumber pr))) c
            | Err _ => (Ok tt, c)
            | Panic => (Panic, c)
            end
      | Err _ | Panic => (Panic, c)
      end
  end.

(** A packet whose header is that of this connection. *)
Definition client_handle (p : receivedRawPacket) (hdr : PublicHeader.t) (r : list Z) (newID : res Z) (c : client) : res unit * client :=
  if PublicHeader.ResetFlag hdr then handle_reset p hdr r c
  else if (receivedVersionNegotiationPacket c || versionNegotiated c) && PublicHeader.VersionFlag hdr then (Ok tt, c)
  else
    let c := if negb (PublicHeader.VersionFlag hdr) && negb (versionNegotiated c) then set_negotiated c else c in
    if PublicHeader.VersionFlag hdr then
      match handlePacketWithVersionFlag hdr (raw_remoteAddr p) newID c with
      | (Err e, c) => on_session (ph_Close (Some e)) c
      | r => r
      end
    else on_session (ph_handlePacket (received_packet p hdr r)) c.

Definition client_handlePacket (p : receivedRawPacket) (newID : res Z) (c : client) : res unit * client :=
  match PublicHeader.ParsePublicHeader PerspectiveServer (client_version c) (raw_data p) with
  | Ok (hdr, r) =>
      if PublicHeader.TruncateConnectionID hdr && negb (RequestConnectionIDTruncation (config c)) then (Ok tt, c)
      else if negb (PublicHeader.TruncateConnectionID hdr) && negb (PublicHeader.ConnectionID hdr =? connectionID c) then (Ok tt, c)
      else client_handle p hdr r newID c
  | Err _ => (Ok tt, c)
  | Panic => (Panic, c)
  end.

(** [DialNonFWSecure] up to its first session. *)
Definition Dial (cfg : option Config) (connID : Z) (remote : UDPAddr) : res client :=
  let clientConfig := populateClientConfig cfg in
  match Versions clientConfig with
  | [] => Panic
  | v :: _ =>
      match createNewSession remote [] (MkClient clientConfig connID v false false None []) with
      | (Ok _, c) => Ok c
      | (Err e, _) => Err e
      | (Panic, _) => Panic
      end
  end.
End Client.
