(* ===== verification/ServerFacts.v ===== *)
(** * What a server does with packets

    Any packet is refused, ignored, answered or handed to the session of its connection, and nothing else
    happens to the server; the sessions it serves run as those of [SessionRunFacts]; connections that ended are
    remembered until their timer fires. *)

From stdpp Require Import base numbers list option strings gmap.
From S2P Require Import Prelude ByteOrder Protocol AckFrame ClosePathFrame StreamFrame ControlFrames PublicHeader PacketUnpacker PacketPacker FlowControl FrameSorter GoFloat ReceivedPackets RttStats SentPackets Olia UtilityControl Scheduler Monitor StreamsMap GoSlice Stream StreamFramer PackPacket Session SessionFacts Handshake CryptoServer Sending SendingKeeps SessionRun SessionRunFacts Endpoint Server.

Local Open Scope Z_scope.

(** ** Headers *)

(** What every header that is read satisfies. *)
Definition read_ok (h : PublicHeader.t) : Prop := 0 <= PublicHeader.PacketNumberLen h <= 8.

Lemma path_and_number_len h pers v s h' r : PublicHeader.parse_path_and_number h pers v s = Ok (h', r) -> PublicHeader.PacketNumberLen h' = PublicHeader.PacketNumberLen h.
Proof.
  unfold PublicHeader.parse_path_and_number. intros (a & s1 & _ & H)%reader_bind_inv. apply reader_bind_inv in H as (b & s2 & _ & H). by injection H as <- _.
Qed.

Lemma header_read pers v s h r : PublicHeader.ParsePublicHeader pers v s = Ok (h, r) -> read_ok h.
Proof.
  unfold PublicHeader.ParsePublicHeader. intros (fb & s1 & _ & H)%reader_bind_inv.
  destruct (_ && negb (_ || _)); [discriminate|]. destruct (_ && negb (is_server pers)); [discriminate|].
  apply reader_bind_inv in H as (c & s2 & _ & H). destruct (_ && (c =? 0)); [discriminate|]. apply reader_bind_inv in H as (n & s3 & _ & H).
  set (len := if PublicHeader.hasPacketNumber _ _ _ then _ else 0) in H.
  assert (0 <= len <= 8) as Hlen.
  { unfold len, PublicHeader.packet_number_len. destruct (PublicHeader.hasPacketNumber _ _ _); [|lia].
    repeat match goal with |- context [if ?b then _ else _] => destruct b end; vm_compute; intuition discriminate. }
  enough (PublicHeader.PacketNumberLen h = len) as E by (unfold read_ok; by rewrite E).
  unfold PublicHeader.parse_version in H. destruct (_ && _); [|by apply path_and_number_len in H].
  destruct (is_server pers).
  - apply reader_bind_inv in H as (k & s4 & _ & H). destruct (negb _); [discriminate|]. destruct (PublicHeader.read_versions _ _). by injection H as <- _.
  - apply reader_bind_inv in H as (k & s4 & _ & H). by apply path_and_number_len in H.
Qed.

Lemma versions_rest : forall fuel s, bytes_ok s -> bytes_ok (PublicHeader.read_versions fuel s).2.
Proof.
  induction fuel as [|fuel IH]; intros s Hs; cbn [PublicHeader.read_versions]; [done|]. destruct (safe_read32 LittleEndian s Hs) as [_ Ho].
  destruct (ReadUint32 LittleEndian s) as [[tag s']| |]; [|apply Forall_nil_2..]. specialize (IH s' (Ho _ _ eq_refl)). by destruct (PublicHeader.read_versions fuel s').
Qed.

Lemma safe_path_and_number h pers v : read_ok h -> safe (PublicHeader.parse_path_and_number h pers v).
Proof.
  intros Hh. apply safe_bind; [apply safe_if; auto with go|]. intros pid. apply safe_bind; [|intros; apply safe_ret].
  apply safe_if; [|apply safe_ret]. by apply (safe_readN (GetByteOrder v)).
Qed.

Lemma header_safe pers v : safe (PublicHeader.ParsePublicHeader pers v).
Proof.
  unfold PublicHeader.ParsePublicHeader. apply safe_bind; [auto with go|]. intros fb. apply safe_if; [apply safe_throw|]. apply safe_if; [apply safe_throw|].
  set (len := if PublicHeader.hasPacketNumber _ _ _ then _ else 0).
  assert (0 <= len <= 8) as Hlen.
  { unfold len, PublicHeader.packet_number_len. destruct (PublicHeader.hasPacketNumber _ _ _); [|lia].
    repeat match goal with |- context [if ?b then _ else _] => destruct b end; vm_compute; intuition discriminate. }
  apply safe_bind; [apply safe_if; [apply (safe_read64 LittleEndian)|apply safe_ret]|]. intros c. apply safe_if; [apply safe_throw|].
  apply safe_bind; [apply safe_if; [apply safe_ReadFull|apply safe_ret]|]. intros nonce. unfold PublicHeader.parse_version.
  apply safe_if; [|by apply safe_path_and_number]. apply safe_if.
  - apply safe_bind; [apply safe_Len|]. intros n. apply safe_if; [apply safe_throw|]. intros s Hs. pose proof (versions_rest (S (length s)) s Hs) as H.
    destruct (PublicHeader.read_versions _ _) as [vs r]. split; [done|]. by intros ? ? [= _ <-].
  - apply safe_bind; [apply (safe_read32 LittleEndian)|]. intros tag. by apply safe_path_and_number.
Qed.

Lemma peek_safe pers s : bytes_ok s -> PublicHeader.PeekConnectionID pers s <> Panic.
Proof.
  intros Hs. unfold PublicHeader.PeekConnectionID.
  assert (safe (flags ← ReadByte; let t := Z.land flags 8 =? 0 in
    if t && negb (is_server pers) then throw PublicHeader.errReceivedTruncatedConnectionID else if negb t then ReadUint64 LittleEndian else mret 0)) as H.
  { apply safe_bind; [auto with go|]. intros fb. cbn beta zeta. apply safe_if; [apply safe_throw|]. apply safe_if; [apply (safe_read64 LittleEndian)|apply safe_ret]. }
  destruct (H s Hs) as [Hp _]. cbn zeta in Hp |- *. match type of Hp with ?x <> _ => destruct x as [[c s']| |] end; done.
Qed.

Lemma reset_safe s : bytes_ok s -> PublicReset.ParsePublicReset s <> Panic.
Proof.
  intros Hs. unfold PublicReset.ParsePublicReset, mbind, reader_bind. destruct (handshake_parser_sound s Hs) as [Hp _].
  destruct (HandshakeMessage.ParseHandshakeMessage s) as [[m r]| |]; [|done..]. destruct (negb _); [done|].
  assert (forall name v q, (exists n q', PublicReset.number name v q = Ok (n, q')) \/ (exists e, PublicReset.number name v q = Err e)) as Hn.
  { intros name v q. unfold PublicReset.number. destruct v as [v|]; [|right; by eexists]. destruct (Nat.eqb_spec (length v) 8) as [E|]; [|right; by eexists]. cbn [negb]. left.
    destruct v as [|b1 [|b2 [|b3 [|b4 [|b5 [|b6 [|b7 [|b8 [|]]]]]]]]]; try done. by eexists _, _. }
  destruct (Hn "RSEQ"%string (HandshakeMessage.Data m !! TagRSEQ) r) as [(n1 & q1 & ->)|(e & ->)]; [|done].
  destruct (Hn "RNON"%string (HandshakeMessage.Data m !! TagRNON) q1) as [(n2 & q2 & ->)|(e & ->)]; done.
Qed.

(** ** What becomes of a packet *)

Lemma reset_length id : length (PublicReset.WritePublicReset id 0 0).1 = 49%nat.
Proof. reflexivity. Qed.

Lemma negotiation_length id vs : Z.of_nat (length (ComposeVersionNegotiation id vs)) = 9 + 4 * Z.of_nat (length vs).
Proof. rewrite Compose_bytes, !length_app, !Nat2Z.inj_add, length_tags, enc_length. cbn [length]. lia. Qed.

Section Dispatch.
Abbreviation unit := Datatypes.unit.
Context {S : Type} `{!PacketHandler S} (newSession : UDPAddr -> Z -> Z -> res S) (WriteTo : list Z -> UDPAddr -> option goerr).
Abbreviation server := (server (S := S)).
Implicit Types (s : server) (p : receivedRawPacket).

Abbreviation handle := (server_handlePacket newSession WriteTo).

(** A public reset, or the answer to a packet of the size of a first hello. *)
Definition reply_ok (vs : list Z) (data bytes : list Z) : Prop :=
  length bytes = 49%nat \/ Z.of_nat (length bytes) = 9 + 4 * Z.of_nat (length vs) /\ ClientHelloMinimumSize <= Z.of_nat (length data).

Inductive outcome p s : res unit -> server -> Prop :=
| refused e : outcome p s (Err e) s
| ignored : outcome p s (Ok tt) s
| answered bytes r : r <> Panic -> reply_ok (versions s) (raw_data p) bytes ->
    outcome p s r (MkServer (versions s) (sessions s) (deletions s) (replies s ++ [(raw_remoteAddr p, bytes)]))
| delivered_to v hdr rest x :
    PublicHeader.ParsePublicHeader PerspectiveClient v (raw_data p) = Ok (hdr, rest) -> PublicHeader.ResetFlag hdr = false ->
    sessions s !! PublicHeader.ConnectionID hdr = Some (Some x)
    \/ sessions s !! PublicHeader.ConnectionID hdr = None /\ IsSupportedVersion (versions s) (PublicHeader.VersionNumber hdr) = true
       /\ newSession (raw_remoteAddr p) (PublicHeader.VersionNumber hdr) (PublicHeader.ConnectionID hdr) = Ok x ->
    outcome p s (Ok tt) (set_sessions s (<[PublicHeader.ConnectionID hdr := Some (ph_handlePacket (received_packet p hdr rest) x)]> (sessions s))).

Hypothesis no_panic : forall remote v id, newSession remote v id <> Panic.

Lemma reply_outcome p s bytes : reply_ok (versions s) (raw_data p) bytes ->
  outcome p s (reply WriteTo bytes (raw_remoteAddr p) s).1 (reply WriteTo bytes (raw_remoteAddr p) s).2.
Proof. intros H. apply answered; [|done]. cbn. by destruct (WriteTo _ _). Qed.

Lemma handled_for p s session connID r s' :
  bytes_ok (raw_data p) -> PublicHeader.PeekConnectionID PerspectiveClient (raw_data p) = Ok (connID, raw_data p) ->
  sessions s !! connID = Some <$> session -> handle_for newSession WriteTo session p connID s = (r, s') -> outcome p s r s'.
Proof using no_panic.
  intros Hd Hpeek Hses. unfold handle_for. set (v := match session with Some x => _ | None => _ end).
  destruct (header_safe PerspectiveClient v (raw_data p) Hd) as [Hp Ho].
  destruct (PublicHeader.ParsePublicHeader PerspectiveClient v (raw_data p)) as [[hdr rest]|e|] eqn:E; [| |done].
  2: { destruct (decide _); [|intros [= <- <-]; apply refused]. intros E2.
       pose proof (reply_outcome p s (PublicReset.WritePublicReset connID 0 0).1 (or_introl (reset_length _))) as H. by rewrite E2 in H. }
  pose proof (PublicHeader.peek_connection_id_agrees _ _ _ _ _ E) as Ha. rewrite Hpeek in Ha. injection Ha as ->.
  specialize (Ho _ _ eq_refl). unfold handle_header. destruct (PublicHeader.ResetFlag hdr) eqn:Er.
  { unfold log_reset. pose proof (reset_safe rest Ho). destruct (bool_decide _); [destruct (PublicReset.ParsePublicReset rest); [| |done]|]; intros [= <- <-]; apply ignored. }
  destruct (bool_decide _ && _) eqn:Eo; [intros [= <- <-]; apply ignored|]. destruct (_ && negb _) eqn:Eu.
  { destruct (Z.ltb_spec (Z.of_nat (length (raw_data p))) (ClientHelloMinimumSize + Z.of_nat (length (raw_data p) - length rest))); [intros [= <- <-]; apply refused|].
    intros E2. assert (reply_ok (versions s) (raw_data p) (ComposeVersionNegotiation (PublicHeader.ConnectionID hdr) (versions s))) as H1
      by (right; split; [apply negotiation_length|lia]). pose proof (reply_outcome p s _ H1) as H2. by rewrite E2 in H2. }
  unfold dispatch. destruct session as [x|].
  - intros [= <- <-]. eapply delivered_to; [exact E|done|by left].
  - destruct (IsSupportedVersion _ _) eqn:Ev; cbn [negb]; [|intros [= <- <-]; apply refused].
    destruct (newSession _ _ _) as [x|e|] eqn:En; [|intros [= <- <-]; apply refused|by destruct (no_panic _ _ _ En)].
    intros [= <- <-]. eapply delivered_to; [exact E|done|by right].
Qed.

Lemma handled p s r s' : bytes_ok (raw_data p) -> handle p s = (r, s') -> outcome p s r s'.
Proof using no_panic.
  intros Hd. unfold server_handlePacket. pose proof (peek_safe PerspectiveClient (raw_data p) Hd) as Hp.
  destruct (PublicHeader.PeekConnectionID PerspectiveClient (raw_data p)) as [[connID q]|e|] eqn:E; [|intros [= <- <-]; apply refused|done].
  assert (q = raw_data p) as -> by (unfold PublicHeader.PeekConnectionID in E; cbn zeta in E; match type of E with match ?x with _ => _ end = _ => destruct x as [[]| |] end; congruence).
  destruct (sessions s !! connID) as [[x|]|] eqn:Es; [|intros [= <- <-]; apply ignored|]; by apply handled_for.
Qed.


(** ** Serving *)

Context (own : Z -> S -> S -> Prop) (vs : list Z).
Abbreviation serving := (serving newSession WriteTo own vs).

(** What holds of every session of a server: it holds of new sessions, and neither packets nor what a session does by
    itself nor closing ends it. *)
Section Sessions.
Context (Good : Z -> S -> Prop).
Hypothesis good_new : forall remote v id x, IsSupportedVersion vs v = true -> newSession remote v id = Ok x -> Good id x.
Hypothesis good_packet : forall v data hdr rest p x, PublicHeader.ParsePublicHeader PerspectiveClient v data = Ok (hdr, rest) ->
  let id := PublicHeader.ConnectionID hdr in Good id x -> Good id (ph_handlePacket (received_packet p hdr rest) x).
Hypothesis good_own : forall id x x', own id x x' -> Good id x -> Good id x'.
Hypothesis good_close : forall id x, Good id x -> Good id (ph_Close None x).

Definition all_good s : Prop := versions s = vs /\ forall id x, sessions s !! id = Some (Some x) -> Good id x.

Lemma good_insert s id x : all_good s -> Good id x -> all_good (set_sessions s (<[id := Some x]> (sessions s))).
Proof. intros [Hv H] Hx. split; [done|]. intros j y. cbn. destruct (decide (id = j)) as [->|]; [rewrite lookup_insert_eq; by intros [= <-]|]. rewrite lookup_insert_ne by done. apply H. Qed.

Lemma serving_good s : serving s -> all_good s.
Proof using no_panic good_new good_packet good_own good_close.
  induction 1 as [|s s' _ [Hv IH] Hst]; [by split|].
  destruct Hst as [p s r s' Hd E|id x x' s Hx Ho|id x s Hx|n s s' E|s].
  - apply handled in E; [|done]. destruct E as [e| |bytes r Hr Hb|v hdr rest x E Er Hx]; [by split..|]. apply good_insert; [by split|].
    eapply good_packet; [exact E|]. destruct Hx as [Hx|(_ & H2 & H3)]; [by apply IH|]. rewrite Hv in H2. by eapply good_new.
  - apply good_insert; [by split|]. eapply good_own; [done|]. by apply IH.
  - split; [done|]. intros j y. cbn. destruct (decide (id = j)) as [->|]; [by rewrite lookup_insert_eq|]. rewrite lookup_insert_ne by done. apply IH.
  - unfold on_deletion in E. destruct (deletions s !! n) as [id|]; [|done]. cbn in E. injection E as <-. split; [done|]. intros j y. cbn.
    intros [_ H]%lookup_delete_Some. by apply IH.
  - split; [done|]. intros j y. cbn. rewrite lookup_fmap. destruct (sessions s !! j) as [[z|]|] eqn:Ej; [|done..]. cbn. intros [= <-]. by apply good_close, IH.
Qed.
End Sessions.

(** C11. A server remembers its closed connections, each until its own timer fires: there is exactly one timer for every
    connection that was closed and not yet deleted and none for any other, so that no timer deletes a session that lives, and in
    the meantime a packet for the connection is dropped, without an answer and without a new session. *)
Theorem closed_connections_remembered s :
  serving s ->
  NoDup (deletions s) /\ (forall id, id ∈ deletions s <-> sessions s !! id = Some None)
  /\ (forall n s' id x, on_deletion n s = Some s' -> sessions s !! id = Some (Some x) -> sessions s' !! id = Some (Some x))
  /\ forall p id, id ∈ deletions s -> PublicHeader.PeekConnectionID PerspectiveClient (raw_data p) = Ok (id, raw_data p) -> handle p s = (Ok tt, s).
Proof using no_panic.
  intros Hs. enough (NoDup (deletions s) /\ forall id, id ∈ deletions s <-> sessions s !! id = Some None) as [H1 H2].
  { split; [done|]. split; [done|]. split.
    - intros n s' id x E Hx. unfold on_deletion in E. destruct (deletions s !! n) as [i|] eqn:Ei; [|done]. cbn in E. injection E as <-. cbn.
      rewrite lookup_delete_ne; [done|]. intros ->. apply list_elem_of_lookup_2, H2 in Ei. congruence.
    - intros p id Hid E. unfold server_handlePacket. rewrite E. apply H2 in Hid. by rewrite Hid. }
  induction Hs as [|s s' _ [IH1 IH2] Hst]; [split; [constructor|intros id; cbn; rewrite lookup_empty; split; [by intros ?%not_elem_of_nil|done]]|].
  assert (forall id x, sessions s !! id <> Some None -> let s' := set_sessions s (<[id := Some x]> (sessions s)) in
    NoDup (deletions s') /\ forall j, j ∈ deletions s' <-> sessions s' !! j = Some None) as Hins.
  { intros id x Hn s2. split; [done|]. intros j. cbn. rewrite IH2. destruct (decide (id = j)) as [->|]; [rewrite lookup_insert_eq; split; [by intros ?%Hn|done]|].
    by rewrite lookup_insert_ne. }
  destruct Hst as [p s r s' Hd E|id x x' s Hx Ho|id x s Hx|n s s' E|s].
  - apply handled in E; [|done]. destruct E as [e| |bytes r Hr Hb|v hdr rest x E Er Hx]; [done..|]. apply Hins. by destruct Hx as [->|[-> _]].
  - apply Hins. by rewrite Hx.
  - cbn. assert (id ∉ deletions s) as Hid by (rewrite IH2; congruence). split.
    + apply NoDup_app. split; [done|]. split; [|apply NoDup_singleton]. by intros j Hj ->%list_elem_of_singleton.
    + intros j. rewrite elem_of_app, list_elem_of_singleton, IH2. destruct (decide (id = j)) as [->|]; [rewrite lookup_insert_eq; by split; [|right]|].
      rewrite lookup_insert_ne by done. split; [by intros [?|?]|by left].
  - unfold on_deletion in E. destruct (deletions s !! n) as [i|] eqn:Ei; [|done]. cbn in E. injection E as <-. cbn.
    rewrite <- (take_drop_middle _ _ _ Ei) in IH1. apply NoDup_app in IH1 as (N1 & N2 & N3). apply NoDup_cons in N3 as [N3 N4].
    rewrite delete_take_drop. split; [apply NoDup_app; split; [done|]; split; [|done]; intros j Hj Hj'; apply (N2 j Hj); by right|].
    intros j. rewrite lookup_delete_Some, <- IH2. rewrite <- (take_drop_middle _ _ _ Ei) at 3. rewrite !elem_of_app, elem_of_cons. split.
    + intros [Hj|Hj]; (split; [|by eauto]); intros ->; [apply (N2 j Hj); by left|done].
    + intros [Hn [Hj|[Hj|Hj]]]; [by left|by destruct Hn|by right].
  - cbn. split; [done|]. intros j. rewrite IH2, lookup_fmap. destruct (sessions s !! j) as [[z|]|]; done.
Qed.
End Dispatch.

(** ** Serving sessions *)

Section Served.
Context {C : Type} `{!SendAlgorithm C} (newCongestion : Z -> C) (env : Z -> Env) (WriteTo : list Z -> UDPAddr -> option goerr).
Context (Pow : float -> float -> float) (collecting : bool) (elapsed : float) (cfg : SessionRun.Config).
Abbreviation session := (Session.session (C := C)).
Context (newServerSession : UDPAddr -> Z -> Z -> res session) (vs : list Z).
Implicit Types (x : session).

(** What surrounds the session of a connection: its keys, the stream limits. *)
Hypothesis surrounded : forall id, opens_bytes (Open (env id)) /\ 0 < maxIncoming (env id).
(** The server makes sessions of [Session]. *)
Hypothesis made : forall remote v id, match newServerSession remote v id with
  | Ok x => exists b multipath local now, PacketPacker.perspective b = PerspectiveServer
      /\ open_crypto (env id) (newSession newCongestion (env id) b multipath local remote now) = Some (Ok tt, x)
  | Err _ => True
  | Panic => False
  end.

Abbreviation running id := (running newCongestion (env id) PerspectiveServer Pow collecting elapsed cfg).

(** What a session does by itself: turns of its loop, what other goroutines do in between, and the end. *)
Inductive session_own (id : Z) : session -> session -> Prop :=
| own_turn fuel e sch now x r x' : turn newCongestion (env id) Pow collecting elapsed cfg fuel e sch now x = Some (r, x') -> session_own id x x'
| own_beside x x' : step newCongestion (env id) x x' -> session_own id x x'
| own_asked y x r x' : close_with y x = Some (r, x') -> session_own id x x'
| own_close asked now x r x' : close_session (env id) asked now x = Some (r, x') -> session_own id x x'.

(** C4. The sessions of a server are those of [Session], running: whatever datagrams arrive for whatever connections, interleaved with
    what the sessions do by themselves, every one of them is consistent, and has had its crypto stream. *)
Theorem served_sessions_consistent s id x :
  serving newServerSession WriteTo session_own vs s -> sessions s !! id = Some (Some x) ->
  consistent (env id) PerspectiveServer x /\ has_crypto (framer x).
Proof using surrounded made.
  intros Hs Hx. destruct (surrounded id) as [H1 H2]. apply (running_live newCongestion (env id) PerspectiveServer Pow collecting elapsed cfg H1 H2).
  revert id x Hx H1 H2. enough (all_good vs (fun id x => running id x) s) as [_ H] by (intros; by apply H).
  apply (serving_good newServerSession WriteTo) with (own := session_own); [|..|done].
  - intros remote v id E. specialize (made remote v id). by rewrite E in made.
  - intros remote v id x _ E. specialize (made remote v id). rewrite E in made. destruct made as (b & mp & local & now & Hb & Ho). by eapply run_new.
  - intros v data hdr rest p x E id' Hr. eapply run_beside; [exact Hr|]. apply st_receive. by eapply header_read.
  - intros id x x' Hst Hr. destruct Hst as [fuel e sch now x r x' E|x x' E|y x r x' E|now x r x' E];
      [by eapply run_turn|by eapply run_beside|by eapply run_asked|by eapply run_close].
  - intros id x Hr. by eapply run_asked.
Qed.
End Served.
