(* ===== verification/ClientFacts.v ===== *)
(** * What a client does with packets, and how client and server agree on a version

    The version of a client changes once at most, to one that both list; a version negotiation between a
    client and a server ends with a session of the client's most preferred common version on both sides; what a
    packet cannot do to a client, and what a failing session does. *)

From stdpp Require Import base numbers list option strings gmap.
From S2P Require Import Prelude ByteOrder Protocol AckFrame ClosePathFrame StreamFrame ControlFrames PublicHeader PacketUnpacker PacketPacker FlowControl FrameSorter GoFloat ReceivedPackets RttStats SentPackets Olia UtilityControl Scheduler Monitor StreamsMap GoSlice Stream StreamFramer PackPacket Session SessionFacts Handshake CryptoServer Sending SendingKeeps SessionRun SessionRunFacts Endpoint Server Client ServerFacts.

Local Open Scope Z_scope.


Section Client.
Abbreviation unit := Datatypes.unit.
Context {S : Type} `{!PacketHandler S} (newClientSession : UDPAddr -> Z -> Z -> list Z -> res S) (addrString : UDPAddr -> string).
Abbreviation client := (client (S := S)).
Implicit Types (c : client) (p : receivedRawPacket).

Abbreviation handle := (client_handlePacket newClientSession addrString).

(** The version negotiation is over. *)
Definition settled c : Prop := versionNegotiated c = true \/ receivedVersionNegotiationPacket c = true.

(** What a packet leaves as it was. *)
Record same_connection c c' : Prop := {
  sc_config : config c' = config c;
  sc_id : connectionID c' = connectionID c;
  sc_version : client_version c' = client_version c;
  sc_replaced : replaced c' = replaced c;
  sc_settled : settled c -> settled c';
}.

(** The packet switched the version. *)
Record switched p c c' : Prop := {
  sw_open : ~ settled c;
  sw_config : config c' = config c;
  sw_settled : settled c';
  sw_replaced : (length (replaced c') <= Datatypes.S (length (replaced c)))%nat;
  sw_header : exists hdr rest, PublicHeader.ParsePublicHeader PerspectiveServer (client_version c) (raw_data p) = Ok (hdr, rest)
    /\ (PublicHeader.TruncateConnectionID hdr = false -> PublicHeader.ConnectionID hdr = connectionID c)
    /\ (client_version c ∉ PublicHeader.SupportedVersions hdr)
    /\ client_version c' = ChooseSupportedVersion (Versions (config c)) (PublicHeader.SupportedVersions hdr)
    /\ (client_version c' ∈ Versions (config c)) /\ (client_version c' ∈ PublicHeader.SupportedVersions hdr);
}.

Lemma same_refl c : same_connection c c.
Proof. by split. Qed.

Lemma on_session_same f c c0 r c' : same_connection c0 c -> on_session f c = (r, c') -> same_connection c0 c'.
Proof. intros [] E. unfold on_session in E. destruct (session c); injection E as _ <-; by split. Qed.

Lemma create_keeps remote vs c r c' : createNewSession newClientSession remote vs c = (r, c') ->
  config c' = config c /\ connectionID c' = connectionID c /\ client_version c' = client_version c /\ replaced c' = replaced c
  /\ receivedVersionNegotiationPacket c' = receivedVersionNegotiationPacket c.
Proof. unfold createNewSession. destruct (newClientSession _ _ _ _); intros [= _ <-]; done. Qed.

Lemma close_old_keeps old r c r' c' : close_old old (r, c) = (r', c') ->
  config c' = config c /\ connectionID c' = connectionID c /\ client_version c' = client_version c
  /\ receivedVersionNegotiationPacket c' = receivedVersionNegotiationPacket c /\ (length (replaced c') <= Datatypes.S (length (replaced c)))%nat.
Proof.
  unfold close_old. destruct old as [x|]; [|by destruct r; intros [= _ <-]; split_and!; try lia].
  destruct r; intros [= _ <-]; cbn; split_and!; try done; rewrite ?length_app; cbn; lia.
Qed.

Lemma flag_packet p hdr rest newID c r c' :
  PublicHeader.ParsePublicHeader PerspectiveServer (client_version c) (raw_data p) = Ok (hdr, rest) ->
  (PublicHeader.TruncateConnectionID hdr = false -> PublicHeader.ConnectionID hdr = connectionID c) -> ~ settled c ->
  handlePacketWithVersionFlag newClientSession hdr (raw_remoteAddr p) newID c = (r, c') -> same_connection c c' \/ switched p c c'.
Proof.
  intros Ep Hid Hs. unfold handlePacketWithVersionFlag. destruct (existsb _ _) eqn:Ev; [intros [= _ <-]; by left; apply same_refl|].
  assert (client_version c ∉ PublicHeader.SupportedVersions hdr) as Hn.
  { intros Hin%list_elem_of_In. rewrite <- not_true_iff_false in Ev. apply Ev, existsb_exists. exists (client_version c). split; [done|apply Z.eqb_refl]. }
  change (Versions (config (set_received_negotiation c))) with (Versions (config c)).
  remember (ChooseSupportedVersion (Versions (config c)) (PublicHeader.SupportedVersions hdr)) as v eqn:Ec. destruct (Z.eqb_spec v VersionUnsupported) as [|Hv]; [intros [= _ <-]; left; split; try done; by right|].
  assert (v ∈ Versions (config c) /\ v ∈ PublicHeader.SupportedVersions hdr) as [H1 H2].
  { destruct (choose_supported_version (Versions (config c)) (PublicHeader.SupportedVersions hdr)) as [(l1 & l2 & E & H & _)|[_ H]]; rewrite <- Ec in H; [rewrite <- Ec in E|done].
    split; [|exact H]. rewrite E. apply elem_of_app. right. by left. }
  destruct newID as [id|e|]; [| |intros [= _ <-]; left; split; try done; by right].
  - destruct (createNewSession _ _ _ _) as [r1 c1] eqn:E1. apply create_keeps in E1 as (K1 & K2 & K3 & K4 & K5); cbn in K1, K2, K3, K4, K5.
    intros E2. apply close_old_keeps in E2 as (L1 & L2 & L3 & L4 & L5). right. split; try done; try congruence.
    + right. rewrite L4, K5. done.
    + exists hdr, rest. rewrite L3, K3, <- Ec. done.
  - intros [= _ <-]. right. split; try done; [by right|cbn; lia|]. exists hdr, rest. rewrite <- Ec. done.
Qed.

(** Every packet. *)
Lemma client_step p newID c r c' : handle p newID c = (r, c') -> same_connection c c' \/ switched p c c'.
Proof.
  unfold client_handlePacket. destruct (PublicHeader.ParsePublicHeader _ _ _) as [[hdr rest]|e|] eqn:Ep; [|intros [= _ <-]; by left; apply same_refl..].
  destruct (PublicHeader.TruncateConnectionID hdr && _) eqn:E1; [intros [= _ <-]; by left; apply same_refl|].
  destruct (negb (PublicHeader.TruncateConnectionID hdr) && _) eqn:E2; [intros [= _ <-]; by left; apply same_refl|].
  assert (PublicHeader.TruncateConnectionID hdr = false -> PublicHeader.ConnectionID hdr = connectionID c) as Hid.
  { intros Ht. rewrite Ht in E2. cbn in E2. apply negb_false_iff, Z.eqb_eq in E2. exact E2. }
  unfold client_handle. destruct (PublicHeader.ResetFlag hdr).
  { unfold handle_reset. destruct (session c) as [x|] eqn:Ex; [|intros [= _ <-]; by left; apply same_refl].
    destruct (ph_RemoteAddr x); [|intros [= _ <-]; by left; apply same_refl..]. destruct (_ || _); [intros [= _ <-]; by left; apply same_refl|].
    destruct (PublicReset.ParsePublicReset rest) as [[pr q]|e|]; [|intros [= _ <-]; by left; apply same_refl..].
    intros E. left. eapply on_session_same; [apply same_refl|exact E]. }
  destruct (_ && PublicHeader.VersionFlag hdr) eqn:Es; [intros [= _ <-]; by left; apply same_refl|].
  destruct (PublicHeader.VersionFlag hdr) eqn:Ef; cbn [negb andb].
  - rewrite andb_true_r in Es. apply orb_false_iff in Es as [S1 S2]. assert (~ settled c) as Hs by (unfold settled; rewrite S1, S2; by intros [|]).
    destruct (handlePacketWithVersionFlag _ _ _ _ _) as [r1 c1] eqn:E. apply flag_packet with (rest := rest) in E; [|done..].
    destruct r1 as [u|e|]; [by intros [= _ <-]| |by intros [= _ <-]]. intros E3.
    assert (same_connection c1 c') as K by (eapply on_session_same; [apply same_refl|exact E3]). destruct K as [K1 K2 K3 K4 K5].
    destruct E as [[]|[]]; [left|right]; split; try congruence; try (by rewrite K4); auto. destruct sw_header0 as (h & q & H). exists h, q. rewrite K3. exact H.
  - intros E. left. eapply on_session_same; [|exact E]. destruct (versionNegotiated c); [apply same_refl|]. split; try done. by left.
Qed.

(** Sequences of packets, with the connection IDs that are drawn on the way. *)
Inductive later : client -> client -> Prop :=
| later_refl c : later c c
| later_step c p newID r c1 c2 : later c c1 -> handle p newID c1 = (r, c2) -> later c c2.

Lemma later_trans c c1 c2 : later c c1 -> later c1 c2 -> later c c2.
Proof. intros H H2. induction H2 as [|? ? ? ? ? ? _ IH E]; [done|]. eapply later_step; [by apply IH|exact E]. Qed.

(** A client starts with its first version and no old session. *)
Definition started cfg v c : Prop :=
  config c = cfg /\ client_version c = v /\ versionNegotiated c = false /\ receivedVersionNegotiationPacket c = false /\ replaced c = [].

(** C10. The version of a client changes once at most, whatever packets arrive: before a version negotiation packet came and while no other
    packet showed that the server accepts the version; only through a packet of its connection that does not list
    the version in use; and to one that it supports itself.  From then on version and connection ID stay, and one session at most was replaced. *)
Theorem client_switches_once cfg v c0 c c' :
  started cfg v c0 -> v ∈ Versions cfg -> later c0 c -> later c c' ->
  (client_version c ∈ Versions cfg) /\ (length (replaced c) <= 1)%nat /\ (~ settled c -> client_version c = v)
  /\ (settled c -> settled c' /\ client_version c' = client_version c /\ connectionID c' = connectionID c /\ replaced c' = replaced c).
Proof.
  intros (S1 & S2 & S3 & S4 & S5) Hv H0 H1.
  assert (config c = cfg /\ (client_version c ∈ Versions cfg) /\ (length (replaced c) <= 1)%nat /\ (~ settled c -> client_version c = v /\ replaced c = [])) as (K1 & K2 & K3 & K4).
  { clear H1. induction H0 as [c|c p newID r c1 c2 _ IH E].
    - split; [done|]. rewrite S2, S5. split; [done|]. split; [cbn; lia|done].
    - specialize (IH S1 S2 S3 S4 S5) as (I1 & I2 & I3 & I4). apply client_step in E as [[]|[]].
      + rewrite sc_config0, sc_version0, sc_replaced0. split; [done|]. split; [done|]. split; [done|]. intros Hs. apply I4. by intros ?%sc_settled0.
      + destruct (I4 sw_open0) as [_ E]. rewrite E in sw_replaced0. split; [congruence|]. split.
        * destruct sw_header0 as (h & q & _ & _ & _ & _ & H & _). by rewrite <- I1.
        * split; [cbn in sw_replaced0; lia|]. by intros []. }
  split; [done|]. split; [done|]. split; [intros Hs; by apply K4|]. clear - H1. intros Hs. induction H1 as [c|c p newID r c1 c2 _ IH E]; [done|].
  destruct (IH Hs) as (J1 & J2 & J3 & J4). apply client_step in E as [[]|[]]; [|done]. split; [by apply sc_settled0|]. split_and!; congruence.
Qed.
End Client.

(** ** Client and server *)

Lemma client_connection h v : PublicHeader.regular h v PerspectiveClient ->
  PublicHeader.TruncateConnectionID h = false /\ PublicHeader.ConnectionID (PublicHeader.received h) = PublicHeader.ConnectionID h
  /\ PublicHeader.ResetFlag (PublicHeader.received h) = false /\ PublicHeader.VersionFlag (PublicHeader.received h) = PublicHeader.VersionFlag h
  /\ (PublicHeader.VersionFlag h = true -> PublicHeader.VersionNumber (PublicHeader.received h) = v).
Proof.
  intros Hr. assert (PublicHeader.TruncateConnectionID h = false) as Ht by (destruct (PublicHeader.TruncateConnectionID h) eqn:E; [by pose proof (PublicHeader.reg_truncate _ _ _ Hr E)|done]).
  split; [done|]. cbn. rewrite Ht. cbn. split; [done|]. split; [apply (PublicHeader.reg_reset _ _ _ Hr)|]. split; [done|].
  intros Hf. rewrite Hf. by destruct (PublicHeader.reg_version _ _ _ Hr Hf) as (_ & -> & _).
Qed.

Lemma supported_in vs v : IsSupportedVersion vs v = true <-> v ∈ vs.
Proof. unfold IsSupportedVersion. rewrite existsb_exists. setoid_rewrite Z.eqb_eq. split; [by intros (x & H%list_elem_of_In & ->)|intros H%list_elem_of_In; eauto]. Qed.

Lemma header_truncate pers v fb q h r : PublicHeader.ParsePublicHeader pers v (fb :: q) = Ok (h, r) -> PublicHeader.TruncateConnectionID h = (Z.land fb 8 =? 0).
Proof.
  unfold PublicHeader.ParsePublicHeader. intros (fb' & s1 & E & H)%reader_bind_inv. injection E as <- <-.
  destruct (_ && negb (_ || _)); [discriminate|]. destruct (_ && negb (is_server pers)); [discriminate|].
  apply reader_bind_inv in H as (c & s2 & _ & H). destruct (_ && (c =? 0)); [discriminate|]. apply reader_bind_inv in H as (n & s3 & _ & H).
  assert (forall g pers v s h r, PublicHeader.parse_path_and_number g pers v s = Ok (h, r) -> PublicHeader.TruncateConnectionID h = PublicHeader.TruncateConnectionID g) as Hp.
  { intros g p' v' s h' r' (? & ? & _ & H')%reader_bind_inv. apply reader_bind_inv in H' as (? & ? & _ & H'). by injection H' as <- _. }
  unfold PublicHeader.parse_version in H. destruct (_ && _); [|by apply Hp in H]. destruct (is_server pers).
  - apply reader_bind_inv in H as (k & s4 & _ & H). destruct (negb _); [discriminate|]. destruct (PublicHeader.read_versions _ _). by injection H as <- _.
  - apply reader_bind_inv in H as (k & s4 & _ & H). by apply Hp in H.
Qed.

Lemma negotiation_read id vs version : 1 <= id < 2 ^ 64 -> Forall (fun v => 0 <= v < 1000) vs ->
  exists g, PublicHeader.ParsePublicHeader PerspectiveServer version (ComposeVersionNegotiation id vs) = Ok (g, [])
    /\ PublicHeader.ConnectionID g = id /\ PublicHeader.VersionFlag g = true /\ PublicHeader.ResetFlag g = false
    /\ PublicHeader.SupportedVersions g = vs /\ PublicHeader.TruncateConnectionID g = false.
Proof.
  intros Hid Hvs. destruct (version_negotiation_roundtrip id vs version Hid Hvs) as (g & E & H1 & H2 & H3 & H4). exists g. split_and!; try done.
  rewrite Compose_bytes in E. by apply header_truncate in E.
Qed.

Section Together.
Abbreviation unit := Datatypes.unit.
Context {S T : Type} `{!PacketHandler S} `{!PacketHandler T}.
Context (newSession : UDPAddr -> Z -> Z -> res S) (WriteTo : list Z -> UDPAddr -> option goerr).
Context (newClientSession : UDPAddr -> Z -> Z -> list Z -> res T) (addrString : UDPAddr -> string).
Implicit Types (s : server (S := S)) (c : client (S := T)).

Abbreviation server_takes := (server_handlePacket newSession WriteTo).
Abbreviation client_takes := (client_handlePacket newClientSession addrString).

(** A client's packet: its header and what it has sealed. *)
Definition packet_of (h : PublicHeader.t) (v : Z) (sealed : list Z) : list Z := PublicHeader.header_bytes h v PerspectiveClient ++ sealed.

Lemma packet_parsed h v v' sealed : PublicHeader.regular h v PerspectiveClient -> (PublicHeader.VersionFlag h = true \/ v' = v /\ v <> VersionUnknown) ->
  PublicHeader.ParsePublicHeader PerspectiveClient v' (packet_of h v sealed) = Ok (PublicHeader.received h, sealed)
  /\ PublicHeader.PeekConnectionID PerspectiveClient (packet_of h v sealed) = Ok (PublicHeader.ConnectionID h, packet_of h v sealed).
Proof.
  intros Hr Hv. pose proof (PublicHeader.parse_bytes h v v' PerspectiveClient sealed Hr Hv) as E. fold (packet_of h v sealed) in E.
  split; [exact E|]. apply PublicHeader.peek_connection_id_agrees in E. by destruct (client_connection h v Hr) as (_ & <- & _).
Qed.

Lemma packet_received h v sealed addr time pconn :
  received_packet (MkRaw pconn addr (packet_of h v sealed) time) (PublicHeader.received h) sealed
  = MkReceived addr (PublicHeader.received h) (PublicHeader.header_bytes h v PerspectiveClient) sealed time pconn.
Proof.
  unfold received_packet, packet_of. cbn [raw_data raw_remoteAddr raw_rcvTime raw_rcvPconn]. rewrite length_app, Nat.add_sub, take_app_length. done.
Qed.

(** Which session a packet is for: the one of its connection, or a new one. *)
Definition session_for s h v addr (x : S) : Prop :=
  sessions s !! PublicHeader.ConnectionID h = Some (Some x) /\ ph_GetVersion x = v /\ v <> VersionUnknown \/
  sessions s !! PublicHeader.ConnectionID h = None /\ PublicHeader.VersionFlag h = true /\ newSession addr v (PublicHeader.ConnectionID h) = Ok x.

Lemma packet_routed s h v sealed addr time pconn x :
  PublicHeader.regular h v PerspectiveClient -> v ∈ versions s -> session_for s h v addr x ->
  server_takes (MkRaw pconn addr (packet_of h v sealed) time) s
  = (Ok tt, set_sessions s (<[PublicHeader.ConnectionID h := Some (ph_handlePacket
      (MkReceived addr (PublicHeader.received h) (PublicHeader.header_bytes h v PerspectiveClient) sealed time pconn) x)]> (sessions s))).
Proof.
  intros Hr Hv Hx. set (p := MkRaw pconn addr (packet_of h v sealed) time).
  destruct (client_connection h v Hr) as (_ & H2 & H3 & H4 & H5). pose proof (proj2 (supported_in (versions s) v) Hv) as Hsup.
  rewrite <- packet_received. fold p. unfold server_handlePacket. destruct (packet_parsed h v v sealed Hr) as [_ Epeek].
  { destruct Hx as [(_ & _ & ?)|(_ & ? & _)]; [by right|by left]. }
  cbn [raw_data p]. rewrite Epeek. destruct Hx as [(Hx & Hxv & Hn)|(Hx & Hf & Hnew)]; rewrite Hx; unfold handle_for; cbn [raw_data p].
  - rewrite Hxv. rewrite (proj1 (packet_parsed h v v sealed Hr (or_intror (conj eq_refl Hn)))). unfold handle_header. rewrite H3, H4.
    destruct (PublicHeader.VersionFlag h) eqn:Ef; cbn [andb]; [rewrite H5, Hsup by done; cbn [negb andb]|]; rewrite ?andb_false_r; done.
  - rewrite (proj1 (packet_parsed h v VersionUnknown sealed Hr (or_introl Hf))). unfold handle_header. rewrite H3, H4, Hf, H5, Hsup by done. cbn [negb andb].
    rewrite andb_false_r. unfold dispatch. rewrite H5, Hsup, H2 by done. cbn [negb raw_remoteAddr p]. by rewrite Hnew.
Qed.

(** C5. A packet of valid frames that a client's packer makes under a version the server supports reaches the session of its
    connection at the server, or makes the server create that session, if it has the version flag and its ID is not that of a
    connection closed before, and reads there as the frames as the wire carries them, with the number it was sent with, if the
    packet numbers received are recent enough to infer it. *)
Theorem client_packets_arrive s p sealer pth lvl fs now rnd raw pth' addr time pconn x (Open : quicAEAD) last :
  packer_ok p pth -> PacketPacker.perspective p = PerspectiveClient -> fs <> [] -> (PacketPacker.version p ∈ versions s) ->
  let h := getPublicHeader p lvl pth in
  payload_ok (PublicHeader.PacketNumber h) (PublicHeader.PacketNumberLen h) lvl now fs ->
  writeAndSealPacket p h fs sealer pth now rnd = (Ok (Some raw), pth') ->
  session_for s h (PacketPacker.version p) addr x ->
  (forall payload ad, Open (Seal sealer payload (PublicHeader.PacketNumber h) ad) (PublicHeader.PacketNumber h) ad = Ok (payload, lvl)) ->
  0 <= last < 2 ^ 62 -> PacketPacker.leastUnacked pth <= last + 1 -> 2 * (last + 1 - next_number pth) < 2 ^ (8 * PublicHeader.PacketNumberLen h) ->
  exists y, server_takes (MkRaw pconn addr raw time) s
      = (Ok tt, set_sessions s (<[PacketPacker.connectionID p := Some (ph_handlePacket y x)]> (sessions s)))
    /\ fromAddr y = addr /\ rcvTime y = time
    /\ let hdr := with_number (publicHeader y) (InferPacketNumber (PublicHeader.PacketNumberLen (publicHeader y)) last (PublicHeader.PacketNumber (publicHeader y))) in
       PublicHeader.PacketNumber hdr = next_number pth /\ Unpack Open (PacketPacker.version p) (rawHeader y) hdr (data y) = Ok (lvl, seen now <$> fs).
Proof.
  intros Hok Hp Hne Hv h Hfs E Hx Hopen Hl1 Hl2 Hl3. pose proof (getPublicHeader_regular p pth lvl Hok) as Hr. rewrite Hp in Hr. fold h in Hr.
  destruct (written p sealer pth lvl fs now rnd Hok Hfs) as (payload & _ & _ & Ew & Hrec). fold h in Ew, Hrec. rewrite Ew in E.
  destruct (u64 MaxPacketSize <? _); [done|]. rewrite Hp in *. set (sealed := Seal sealer _ _ _) in *.
  change (PublicHeader.header_bytes h (PacketPacker.version p) PerspectiveClient ++ sealed) with (packet_of h (PacketPacker.version p) sealed) in *.
  assert (raw = packet_of h (PacketPacker.version p) sealed) as -> by congruence. clear E Ew.
  eexists. split; [apply (packet_routed s h (PacketPacker.version p) sealed addr time pconn x Hr Hv Hx)|]. split; [done|]. split; [done|]. cbn [publicHeader rawHeader data].
  specialize (Hrec Open last Hne (fun payload ad => Hopen payload ad) Hl1 Hl2 Hl3). unfold receive_packet in Hrec.
  rewrite (proj1 (packet_parsed h (PacketPacker.version p) (PacketPacker.version p) sealed Hr ltac:(right; split; [done|]; destruct (ok_version _ _ Hok); unfold VersionUnknown; lia))) in Hrec.
  assert (take (length (packet_of h (PacketPacker.version p) sealed) - length sealed) (packet_of h (PacketPacker.version p) sealed) = PublicHeader.header_bytes h (PacketPacker.version p) PerspectiveClient) as Et
    by (unfold packet_of; rewrite length_app, Nat.add_sub; apply take_app_length).
  rewrite Et in Hrec. set (hdr := with_number _ _) in *. destruct (Unpack Open _ _ hdr sealed) as [[lv gs]| |]; [|done..]. cbn [mbind res_bind] in Hrec.
  clearbody hdr. change (Ok (hdr, lv, gs) = Ok (with_number (PublicHeader.received h) (next_number pth), lvl, seen now <$> fs)) in Hrec.
  remember (with_number (PublicHeader.received h) (next_number pth)) as hdr' eqn:Eh. injection Hrec as -> -> ->. by rewrite Eh.
Qed.

Lemma list_versions s h v sealed addr time pconn :
  PublicHeader.regular h v PerspectiveClient -> PublicHeader.VersionFlag h = true -> ~ v ∈ versions s ->
  sessions s !! PublicHeader.ConnectionID h = None -> ClientHelloMinimumSize <= Z.of_nat (length sealed) ->
  let answer := ComposeVersionNegotiation (PublicHeader.ConnectionID h) (versions s) in
  WriteTo answer addr = None ->
  server_takes (MkRaw pconn addr (packet_of h v sealed) time) s = (Ok tt, MkServer (versions s) (sessions s) (deletions s) (replies s ++ [(addr, answer)])).
Proof.
  intros Hr Hf Hv Hs Hlen answer Hw. destruct (client_connection h v Hr) as (_ & H2 & H3 & H4 & H5).
  assert (IsSupportedVersion (versions s) v = false) as Hsup by (apply not_true_iff_false; by rewrite supported_in).
  destruct (packet_parsed h v VersionUnknown sealed Hr (or_introl Hf)) as [E Epeek]. unfold server_handlePacket. cbn [raw_data]. rewrite Epeek, Hs.
  unfold handle_for. cbn [raw_data]. rewrite E. unfold handle_header. rewrite H3, H4, Hf, H5, Hsup by done. cbn [negb andb bool_decide raw_data raw_remoteAddr].
  rewrite (proj2 (Z.ltb_ge _ _)) by (unfold packet_of; rewrite length_app; lia).
  change (bool_decide (is_Some (None : option S))) with false. cbn [andb]. unfold reply. rewrite H2. fold answer. by rewrite Hw.
Qed.

(** C6. A version negotiation succeeds.  A client that offers a version the server does not have, in a first packet of the size of a
    hello, is sent the server's versions; it switches to its most preferred version among them, under a new connection ID, and
    closes the old session; and its first packet under the new version makes the server create a session of that version. *)
Theorem version_negotiation_converges s c h v sealed addr time pconn from time' pconn' newID x x' h' sealed' y :
  let v' := ChooseSupportedVersion (Versions (config c)) (versions s) in
  let answer := ComposeVersionNegotiation (PublicHeader.ConnectionID h) (versions s) in
  PublicHeader.regular h v PerspectiveClient -> PublicHeader.VersionFlag h = true -> ~ v ∈ versions s -> v' <> VersionUnsupported ->
  Forall (fun u => 0 <= u < 1000) (versions s) -> sessions s !! PublicHeader.ConnectionID h = None -> ClientHelloMinimumSize <= Z.of_nat (length sealed) ->
  connectionID c = PublicHeader.ConnectionID h -> client_version c = v -> ~ settled c -> session c = Some x ->
  WriteTo answer addr = None -> newClientSession from v' newID (versions s) = Ok x' ->
  PublicHeader.regular h' v' PerspectiveClient -> PublicHeader.ConnectionID h' = newID -> PublicHeader.VersionFlag h' = true ->
  sessions s !! newID = None -> newSession addr v' newID = Ok y ->
  exists s1 c1 s2,
    server_takes (MkRaw pconn addr (packet_of h v sealed) time) s = (Ok tt, s1) /\ replies s1 = replies s ++ [(addr, answer)] /\ sessions s1 = sessions s
    /\ client_takes (MkRaw pconn' from answer time') (Ok newID) c = (Ok tt, c1)
    /\ client_version c1 = v' /\ connectionID c1 = newID /\ session c1 = Some x' /\ replaced c1 = replaced c ++ [ph_Close (Some errCloseSessionForNewVersion) x]
    /\ server_takes (MkRaw pconn addr (packet_of h' v' sealed') time) s1 = (Ok tt, s2)
    /\ sessions s2 = <[newID := Some (ph_handlePacket (MkReceived addr (PublicHeader.received h') (PublicHeader.header_bytes h' v' PerspectiveClient) sealed' time pconn) y)]> (sessions s).
Proof.
  intros v' answer Hr Hf Hv Hv' Hvs Hs Hlen Hid Hcv Hset Hx Hw Hnew Hr' Hid' Hf' Hs' Hy.
  eexists _, _, _. split; [by apply list_versions|]. split; [done|]. split; [done|]. split; [|cbn [sessions]].
  - unfold client_handlePacket. cbn [raw_data].
    assert (1 <= PublicHeader.ConnectionID h < 2 ^ 64) as Hc by (apply (PublicHeader.reg_conn _ _ _ Hr); by destruct (client_connection h v Hr)).
    destruct (negotiation_read (PublicHeader.ConnectionID h) (versions s) (client_version c) Hc Hvs) as (g & E & G1 & G2 & G3 & G4 & G5). fold answer in E. rewrite E.
    rewrite G5, G1, Hid, Z.eqb_refl. cbn [andb negb]. unfold client_handle. rewrite G3, G2. unfold settled in Hset.
    destruct (receivedVersionNegotiationPacket c) eqn:R1; [destruct Hset; by right|]. destruct (versionNegotiated c) eqn:R2; [destruct Hset; by left|]. cbn [orb andb negb].
    unfold handlePacketWithVersionFlag. rewrite G4, Hcv. replace (existsb (fun u => u =? v) (versions s)) with (IsSupportedVersion (versions s) v) by done.
    assert (IsSupportedVersion (versions s) v = false) as -> by (apply not_true_iff_false; by rewrite supported_in).
    change (Versions (config (set_received_negotiation c))) with (Versions (config c)). fold v'. rewrite (proj2 (Z.eqb_neq _ _)) by done.
    unfold createNewSession. cbn [client_version connectionID set_version raw_remoteAddr]. rewrite Hnew. change (session (set_received_negotiation c)) with (session c). rewrite Hx. reflexivity.
  - split; [done|]. split; [done|]. split; [done|]. split; [done|]. rewrite <- Hid'. split; [apply packet_routed; [done| |right; rewrite Hid'; cbn; split_and!; done]|done].
    cbn [versions]. destruct (choose_supported_version (Versions (config c)) (versions s)) as [(l1 & l2 & _ & H & _)|[_ H]]; [exact H|done].
Qed.

(** A version switch needs a new session.  If it cannot be made, the interface is nil when the client closes its session with the
    error, so that the client panics instead of giving up the connection. *)
Lemma failed_switch_panics c g from newID x e :
  ~ settled c -> session c = Some x -> ~ client_version c ∈ PublicHeader.SupportedVersions g ->
  let v' := ChooseSupportedVersion (Versions (config c)) (PublicHeader.SupportedVersions g) in
  v' <> VersionUnsupported -> newClientSession from v' newID (PublicHeader.SupportedVersions g) = Err e ->
  PublicHeader.ResetFlag g = false -> PublicHeader.VersionFlag g = true ->
  forall p r, raw_remoteAddr p = from -> exists c', client_handle newClientSession addrString p g r (Ok newID) c = (Panic, c').
Proof.
  intros Hs Hx Hv v' Hv' Hn Hr Hf p r Hp. unfold client_handle. rewrite Hr, Hf. unfold settled in Hs.
  destruct (receivedVersionNegotiationPacket c) eqn:R1; [destruct Hs; by right|]. destruct (versionNegotiated c) eqn:R2; [destruct Hs; by left|]. cbn [orb andb negb].
  unfold handlePacketWithVersionFlag. replace (existsb (fun u => u =? client_version c) (PublicHeader.SupportedVersions g)) with (IsSupportedVersion (PublicHeader.SupportedVersions g) (client_version c)) by done.
  assert (IsSupportedVersion (PublicHeader.SupportedVersions g) (client_version c) = false) as -> by (apply not_true_iff_false; by rewrite supported_in).
  change (Versions (config (set_received_negotiation c))) with (Versions (config c)). fold v'. rewrite (proj2 (Z.eqb_neq _ _)) by done.
  unfold createNewSession. cbn [client_version connectionID set_version]. rewrite Hp, Hn. change (session (set_received_negotiation c)) with (session c). rewrite Hx. by eexists.
Qed.
End Together.
