(* ===== verification/AeadSamples.v ===== *)
(** * The AEADs at concrete inputs

    Toy ciphers and hashes that satisfy what the theorems of [AeadFacts] ask for, and a client that
    creates two paths and seals the first packet of both under one nonce. *)

From stdpp Require Import base numbers list option strings gmap.
From S2P Require Import Prelude ByteOrder Protocol AckFrame ClosePathFrame StreamFrame ControlFrames PublicHeader PacketUnpacker PacketPacker FlowControl FrameSorter GoFloat ReceivedPackets RttStats SentPackets StreamsMap GoSlice Stream StreamFramer PackPacket Session SessionFacts SessionSafety Handshake CryptoServer Aead AeadFacts.

Local Open Scope Z_scope.
#[local] Existing Instance fixed_window.

Definition toy_Sum128 (data : list Z) : Z * Z := (Z.of_nat (length data) mod 2 ^ 64, nullAEADFNV64a.Sum64 data).

Lemma toy_halves data : 0 <= (toy_Sum128 data).1 < 2 ^ 64 /\ 0 <= (toy_Sum128 data).2 < 2 ^ 64.
Proof. split; cbn [fst snd toy_Sum128]; [apply Z.mod_pos_bound; lia|apply Sum64_range]. Qed.

(** The cipher writes the key's first byte and the nonce in front of the text. *)
Definition toy_GCM (key : list Z) : res CipherAEAD :=
  Ok (MkCipher (fun nonce text _ => take 1 key ++ nonce ++ text) (fun nonce src _ => Ok (drop (length nonce) (drop (length (take 1 key)) src))) 13).
Definition toy_hkdf (secret salt info : list Z) (n : nat) : res (list Z) := Ok (map (fun i => Z.of_nat i mod 256) (seq (length secret + length info) n)).

Lemma toy_stream secret salt info n : (n <= 40)%nat -> exists s, toy_hkdf secret salt info n = Ok s /\ length s = n.
Proof. intros _. eexists. split; [reflexivity|]. by rewrite length_map, length_seq. Qed.
Lemma toy_cipher key : length key = 16%nat -> exists c, toy_GCM key = Ok c.
Proof. intros _. by eexists. Qed.
Lemma toy_opens key c nonce text ad : toy_GCM key = Ok c -> cipher_Open c nonce (cipher_Seal c nonce text ad) ad = Ok text.
Proof. intros [= <-]. cbn [cipher_Open cipher_Seal]. by rewrite !drop_app_length. Qed.

Lemma toy_overhead key c : toy_GCM key = Ok c -> 0 <= cipher_Overhead c.
Proof. by intros [= <-]. Qed.

Lemma sample_packer_ok : packer_ok sample_packer sample_path.
Proof. split; vm_compute; intuition congruence. Qed.

Lemma sample_recent lvl : recent sample_packer sample_path lvl 8.
Proof. split; [done|]. by vm_compute. Qed.

(** The PING and the STREAM frame on the crypto stream, unencrypted. *)
Definition first_frames : list Frame := [FPing; FStream (StreamFrame.Mk 1 false false 0 [104; 105] 0 false)].

Lemma null_packets_delivered_witness :
  delivered (NewNullAEAD toy_Sum128 PerspectiveClient VersionMP) (NewNullAEAD toy_Sum128 PerspectiveServer VersionMP) sample_packer sample_path
    EncryptionUnencrypted first_frames 0 None 8.
Proof.
  apply (null_packets_delivered toy_Sum128 sample_packer sample_path EncryptionUnencrypted first_frames 0 None 8 toy_halves sample_packer_ok).
  - discriminate.
  - vm_compute. intuition congruence.
  - apply sample_recent.
Defined.

Lemma derived_packets_delivered_witness :
  exists own peer, DeriveQuicCryptoAESKeys toy_hkdf toy_GCM false [1; 2] [3] 0xdecafbad [] [] [] [9] PerspectiveClient = Ok own
    /\ DeriveQuicCryptoAESKeys toy_hkdf toy_GCM false [1; 2] [3] 0xdecafbad [] [] [] [9] PerspectiveServer = Ok peer
    /\ delivered own peer sample_packer sample_path EncryptionForwardSecure sample_frames 0 None 8.
Proof.
  apply (derived_packets_delivered toy_hkdf toy_GCM toy_stream toy_cipher toy_opens toy_overhead false [1; 2] [3] 0xdecafbad [] [] [] [9]
    sample_packer sample_path EncryptionForwardSecure sample_frames 0 None 8 sample_packer_ok).
  - discriminate.
  - vm_compute. intuition congruence.
  - apply sample_recent.
Defined.

(** Published values of FNV-1a. *)
Example fnv64a_test_vectors :
  map nullAEADFNV64a.Sum64 [[]; bytes_of_string "a"; bytes_of_string "foobar"] = [0xcbf29ce484222325; 0xaf63dc4c8601ec8c; 0x85944171f73967e8].
Proof. vm_compute. reflexivity. Qed.

Definition toy_aead : aeadAESGCM12.t :=
  aeadAESGCM12.Mk [5; 6; 7; 8] [1; 2; 3; 4] (MkCipher (fun nonce text _ => 77 :: nonce ++ text) (fun _ src _ => Ok (drop 13 src)) 13)
    (MkCipher (fun nonce text _ => 88 :: nonce ++ text) (fun _ src _ => Ok (drop 13 src)) 13).

(** Two new paths; the first sends two packets, the second one. *)
Definition new_path (pid : Z) : SendPath := MkSendPath pid 0 (packetNumberGenerator.newPacketNumberGenerator 500) true.
Definition sealed (pth : SendPath) (fs : list Frame) : sealed_packet :=
  let h := getPublicHeader sample_packer EncryptionForwardSecure pth in
  MkSealed h fs 0 (match writeAndSealPacket sample_packer h fs (AEAD_Seal (aeadAESGCM12.aead toy_aead)) pth 0 None with (Ok (Some raw), _) => raw | _ => [] end).
Definition small_frames : list Frame := [FPing; FStream (StreamFrame.Mk 7 false false 1000 [104; 105] 0 false)].
Definition sent1 : list sealed_packet := [sealed (new_path 3) small_frames; sealed (advanced (new_path 3) None) first_frames].
Definition sent2 : list sealed_packet := [sealed (new_path 5) first_frames].

Lemma sends_sample pth fs l pth2 : packer_ok sample_packer pth ->
  payload_ok (PublicHeader.PacketNumber (getPublicHeader sample_packer EncryptionForwardSecure pth))
    (PublicHeader.PacketNumberLen (getPublicHeader sample_packer EncryptionForwardSecure pth)) EncryptionForwardSecure 0 fs ->
  writeAndSealPacket sample_packer (getPublicHeader sample_packer EncryptionForwardSecure pth) fs (AEAD_Seal (aeadAESGCM12.aead toy_aead)) pth 0 None
    = (Ok (Some (bytes (sealed pth fs))), advanced pth None) ->
  sends toy_aead sample_packer EncryptionForwardSecure (advanced pth None) l pth2 ->
  sends toy_aead sample_packer EncryptionForwardSecure pth (sealed pth fs :: l) pth2.
Proof.
  intros Hok Hfs E H. refine (sends_more toy_aead sample_packer EncryptionForwardSecure pth (PacketPacker.leastUnacked pth) (PacketPacker.handshakeComplete pth) fs 0 None
    (bytes (sealed pth fs)) (advanced pth None) l pth2 _ _ _ H); by destruct pth.
Qed.

Lemma nonces_repeat_across_paths_witness : exists x y nonce, sent1 !! 0%nat = Some x /\ sent2 !! 0%nat = Some y
  /\ sealed_under toy_aead sample_packer 3 nonce x /\ sealed_under toy_aead sample_packer 5 nonce y.
Proof.
  assert (sends toy_aead sample_packer EncryptionForwardSecure (new_path 3) sent1 (advanced (advanced (new_path 3) None) None)) as S1.
  { apply sends_sample; [split; vm_compute; intuition congruence|vm_compute; intuition congruence|vm_compute; reflexivity|].
    apply sends_sample; [split; vm_compute; intuition congruence|vm_compute; intuition congruence|vm_compute; reflexivity|constructor]. }
  assert (sends toy_aead sample_packer EncryptionForwardSecure (new_path 5) sent2 (advanced (new_path 5) None)) as S2.
  { apply sends_sample; [split; vm_compute; intuition congruence|vm_compute; intuition congruence|vm_compute; reflexivity|constructor]. }
  destruct (nonces_repeat_across_paths toy_aead sample_packer EncryptionForwardSecure 500 (new_path 3) (new_path 5) sent1 sent2 _ _ eq_refl eq_refl S1 S2) as (H1 & H2 & _).
  eexists _, _, _. split; [reflexivity|]. split; [reflexivity|]. split; [exact (H1 0%nat _ eq_refl)|exact (H2 0%nat _ eq_refl)].
Defined.

(** A client whose handshake is complete finds two local addresses and creates a path from each: the PINGs that
    open paths 1 and 3 have the number 1, and nonce 1, 2, 3, 4, 1, 0 .. 0 behind the 77 that the cipher writes. *)
Definition keyed_env : Env :=
  MkEnv (packetPacker.MkCrypto (EncryptionForwardSecure, AEAD_Seal (aeadAESGCM12.aead toy_aead)) (fun _ => Err (GoErr "")) (EncryptionForwardSecure, AEAD_Seal (aeadAESGCM12.aead toy_aead)))
    sample_open (fun _ => Some (Ok tt)) server_params 100 100 false false true [here; AddAddressFrame.MkAddr [10; 0; 1; 1] 4001 ""]
    (fun a => if AddAddressFrame.Port a =? 4000 then "10.0.0.1:4000" else if AddAddressFrame.Port a =? 4001 then "10.0.1.1:4001" else "10.0.0.2:443") (fun _ _ => None) None.
Definition keyed_client : session :=
  let s := after (open_crypto keyed_env) (newSession one_window keyed_env (sample_side false) true "10.0.0.9:4000" there 0) in
  MkSession (Session.perspective s) (Session.version s) (paths s) (closedPaths s) (remoteRTTs s) (lastPathsFrameSent s) (packer s) (peerBlocked s)
    true (manager s) (closeErr s) (lastActivity s) (keepAlivePingSent s) (receivedPackets s) (undecryptablePackets s) (tooManyUndecryptable s) (wrote s).

Lemma first_packets_share_a_nonce :
  map (fun '(pid, raw) => (pid, length raw, drop (length raw - 14) raw)) (wrote (after (createPaths one_window keyed_env 1000) keyed_client))
  = [(1, 26%nat, 77 :: [1; 2; 3; 4; 1; 0; 0; 0; 0; 0; 0; 0] ++ [7]); (3, 26%nat, 77 :: [1; 2; 3; 4; 1; 0; 0; 0; 0; 0; 0; 0] ++ [7])].
Proof. vm_compute. reflexivity. Qed.
