(* ===== verification/EndpointSamples.v ===== *)
(** * Server and client at concrete inputs

    A server that serves sessions of [Session], with a hello of 1100 bytes; a client whose version it does
    not have. *)

From stdpp Require Import base numbers list option strings gmap.
From S2P Require Import Prelude ByteOrder Protocol AckFrame ClosePathFrame StreamFrame ControlFrames PublicHeader PacketUnpacker PacketPacker FlowControl FrameSorter GoFloat ReceivedPackets RttStats SentPackets Olia UtilityControl Scheduler Monitor StreamsMap GoSlice Stream StreamFramer PackPacket Session SessionFacts SessionSafety Handshake CryptoServer Sending SendingKeeps SendingSamples SessionRun SessionRunFacts RunSamples Endpoint Server Client ServerFacts ClientFacts.

Local Open Scope Z_scope.
#[local] Existing Instance fixed_window.

Abbreviation toy_session := (Session.session (C := Z)).

Definition toy_new (remote : UDPAddr) (v id : Z) : res toy_session :=
  match open_crypto sample_env (newSession one_window sample_env (MkPacker id PerspectiveServer v false (repeat 0 32)) true "10.0.0.2:443" remote 0) with
  | Some (Ok _, x) => Ok x
  | _ => Err (GoErr "no crypto stream")
  end.
Definition toy_new_client (remote : UDPAddr) (v id : Z) (_ : list Z) : res toy_session :=
  Ok (newSession one_window sample_env (MkPacker id PerspectiveClient v false (repeat 0 32)) true "10.0.0.9:4000" remote 0).
Definition toy_write (_ : list Z) (_ : UDPAddr) : option goerr := None.

Lemma toy_new_total remote v id : toy_new remote v id <> Panic.
Proof. unfold toy_new. by destruct (open_crypto _ _) as [[[]]|]. Qed.

Lemma toy_made remote v id : match toy_new remote v id with
  | Ok x => exists b multipath local now, PacketPacker.perspective b = PerspectiveServer
      /\ open_crypto sample_env (newSession one_window sample_env b multipath local remote now) = Some (Ok tt, x)
  | Err _ => True
  | Panic => False
  end.
Proof.
  unfold toy_new. destruct (open_crypto sample_env _) as [[[[]|e|] x]|] eqn:E; [|done..].
  exists (MkPacker id PerspectiveServer v false (repeat 0 32)), true, "10.0.0.2:443"%string, 0. done.
Qed.

Definition hello_header (id v : Z) : PublicHeader.t := PublicHeader.Mk id 0 true false false false 1 1 v [] [].
Definition hello (id v : Z) : receivedRawPacket := MkRaw "10.0.0.2:443" here (packet_of (hello_header id v) v (repeat 7 1100)) 5000.

Lemma hello_regular id v : 1 <= id < 2 ^ 64 -> 0 <= v < 1000 -> PublicHeader.regular (hello_header id v) v PerspectiveClient.
Proof. intros Hid Hv. split; cbn; try done; [by left|by left]. Qed.

Lemma hello_bytes id v : bytes_ok (raw_data (hello id v)).
Proof.
  unfold hello, packet_of, PublicHeader.header_bytes. cbn [raw_data hello_header PublicHeader.TruncateConnectionID PublicHeader.VersionFlag PublicHeader.MultipathFlag PublicHeader.DiversificationNonce negb app].
  constructor; [apply u8_byte|]. rewrite !bytes_ok_app. split_and!; try apply enc_bytes; [apply Forall_nil_2..|]. apply Forall_forall. intros b Hb%list_elem_of_In%repeat_spec. lia.
Qed.

(** The server has the versions 512 and 39, and served a hello for connection 77. *)
Definition toy_server : server (S := toy_session) := ListenImpl [512; 39].
Definition serving_one : server (S := toy_session) := (server_handlePacket toy_new toy_write (hello 77 512) toy_server).2.
Abbreviation toy_own := (fun id => session_own one_window (fun _ => sample_env) no_power false f0 sample_cfg id).

Lemma serving_one_serves : serving toy_new toy_write toy_own [512; 39] serving_one.
Proof.
  eapply serving_step; [apply serving_new|]. apply (ss_packet _ _ _ (hello 77 512) _ (server_handlePacket toy_new toy_write (hello 77 512) toy_server).1); [apply hello_bytes|].
  apply surjective_pairing.
Qed.

Definition one_session : toy_session := match sessions serving_one !! 77 with Some (Some x) => x | _ => after (ret tt) (newSession one_window sample_env (sample_side true) true "" here 0) end.
Lemma one_is_served : sessions serving_one !! 77 = Some (Some one_session).
Proof. vm_compute. reflexivity. Qed.


(** The session of connection 77 has ended. *)
Lemma closed_connections_remembered_witness :
  deletions (removeConnection 77 serving_one) = [77] /\ server_handlePacket toy_new toy_write (hello 77 512) (removeConnection 77 serving_one) = (Ok tt, removeConnection 77 serving_one).
Proof.
  destruct (closed_connections_remembered toy_new toy_write toy_new_total toy_own [512; 39] (removeConnection 77 serving_one)) as (_ & _ & _ & H).
  { eapply serving_step; [exact serving_one_serves|]. eapply ss_ended. exact one_is_served. }
  split; [reflexivity|]. apply (H _ 77); [by left|]. vm_compute. reflexivity.
Defined.

Lemma served_sessions_consistent_witness : consistent sample_env PerspectiveServer one_session /\ length (receivedPackets one_session) = 1%nat.
Proof.
  split; [|vm_compute; reflexivity].
  exact (proj1 (served_sessions_consistent one_window (fun _ => sample_env) toy_write no_power false f0 sample_cfg toy_new [512; 39]
    (fun _ => conj sample_aead sample_room) toy_made serving_one 77 one_session serving_one_serves one_is_served)).
Defined.

(** ** The client *)

Definition first_client : client (S := toy_session) :=
  match Dial toy_new_client (Some (MkConfig [38; 512; 39] false 0 0 None 0 0 false false false "" false false "" false "" "" false false "" "")) 77 there with
  | Ok c => c
  | _ => MkClient (populateClientConfig None) 0 0 false false None []
  end.
Definition server_answer : receivedRawPacket := MkRaw "10.0.0.9:4000" there (ComposeVersionNegotiation 77 [512; 39]) 7000.
Definition second_client : client (S := toy_session) := (client_handlePacket toy_new_client (addrString sample_env) server_answer (Ok 99) first_client).2.

(** The server's answer makes it switch from 38 to 512; the answer again does nothing. *)
Lemma client_switches_once_witness :
  client_version second_client = 512
  /\ client_version (client_handlePacket toy_new_client (addrString sample_env) server_answer (Ok 100) second_client).2 = 512
  /\ length (replaced second_client) = 1%nat.
Proof.
  assert (settled second_client) as Hs by (right; vm_compute; reflexivity).
  destruct (client_switches_once toy_new_client (addrString sample_env) (config first_client) 38 first_client second_client
    (client_handlePacket toy_new_client (addrString sample_env) server_answer (Ok 100) second_client).2) as (_ & _ & _ & H).
  - vm_compute. split_and!; reflexivity.
  - left.
  - eapply later_step; [apply later_refl|]. apply surjective_pairing.
  - eapply later_step; [apply later_refl|]. apply surjective_pairing.
  - destruct (H Hs) as (_ & -> & _). split; [vm_compute; reflexivity|]. split; vm_compute; reflexivity.
Defined.

(** Both ends: the client offers 38, is told 512 and 39, and ends with a session of version 512 under connection 99. *)
Lemma version_negotiation_converges_witness : exists s1 c1 s2 y,
  server_handlePacket toy_new toy_write (hello 77 38) toy_server = (Ok tt, s1)
  /\ client_handlePacket toy_new_client (addrString sample_env) (MkRaw "10.0.0.9:4000" there (ComposeVersionNegotiation 77 [512; 39]) 7000) (Ok 99) first_client = (Ok tt, c1)
  /\ client_version c1 = 512
  /\ server_handlePacket toy_new toy_write (hello 99 512) s1 = (Ok tt, s2) /\ sessions s2 !! 99 = Some (Some y) /\ Session.version y = 512.
Proof.
  assert (exists x, session first_client = Some x) as [x Hx] by (vm_compute; by eexists).
  assert (exists x', toy_new_client there 512 99 [512; 39] = Ok x') as [x' Hx'] by (vm_compute; by eexists).
  assert (exists y, toy_new here 512 99 = Ok y) as [y Hy] by (vm_compute; by eexists).
  destruct (version_negotiation_converges toy_new toy_write toy_new_client (addrString sample_env) toy_server first_client (hello_header 77 38) 38 (repeat 7 1100) here 5000 "10.0.0.2:443"
    there 7000 "10.0.0.9:4000" 99 x x' (hello_header 99 512) (repeat 7 1100) y) as (s1 & c1 & s2 & E1 & _ & _ & E2 & Hv & _ & _ & _ & E3 & Hs).
  - by apply hello_regular.
  - done.
  - vm_compute. intros H. by apply list_elem_of_In in H as [|[|[]]].
  - vm_compute. discriminate.
  - repeat constructor; lia.
  - vm_compute. reflexivity.
  - vm_compute. discriminate.
  - vm_compute. reflexivity.
  - vm_compute. reflexivity.
  - unfold settled. vm_compute. by intros [|].
  - exact Hx.
  - done.
  - exact Hx'.
  - by apply hello_regular.
  - done.
  - done.
  - vm_compute. reflexivity.
  - exact Hy.
  - exists s1, c1, s2. eexists. split; [exact E1|]. split; [exact E2|]. split; [exact Hv|]. split; [exact E3|]. split; [rewrite Hs; apply lookup_insert_eq|].
    cbn [ph_handlePacket session_handler]. unfold handlePacket. destruct (_ <? _); [cbn [Session.version set_received]|]; vm_compute in Hy; injection Hy as <-; reflexivity.
Defined.

(** The session of connection 77 gets the next packet of its client. *)
Lemma client_packets_arrive_witness : exists y lvl fs,
  server_handlePacket toy_new toy_write (MkRaw "10.0.0.2:443" here
    (default [] (match writeAndSealPacket (MkPacker 77 PerspectiveClient 512 false (repeat 0 32)) (getPublicHeader (MkPacker 77 PerspectiveClient 512 false (repeat 0 32)) EncryptionForwardSecure PacketPacker.sample_path)
       sample_frames null_sealer PacketPacker.sample_path 0 None with (Ok raw, _) => raw | _ => None end)) 8000) serving_one
    = (Ok tt, set_sessions serving_one (<[77 := Some (handlePacket y one_session)]> (sessions serving_one)))
  /\ Unpack null_open 512 (rawHeader y) (with_number (publicHeader y) 9) (data y) = Ok (lvl, fs) /\ fs = (seen 0 <$> sample_frames).
Proof.
  set (pk := MkPacker 77 PerspectiveClient 512 false (repeat 0 32)).
  assert (exists raw pth', writeAndSealPacket pk (getPublicHeader pk EncryptionForwardSecure PacketPacker.sample_path) sample_frames null_sealer PacketPacker.sample_path 0 None = (Ok (Some raw), pth'))
    as (raw & pth' & E) by (eexists _, _; vm_compute; reflexivity).
  rewrite E. change (default [] (Some raw)) with raw.
  destruct (client_packets_arrive toy_new toy_write serving_one pk null_sealer PacketPacker.sample_path EncryptionForwardSecure sample_frames 0 None raw pth' here 8000 "10.0.0.2:443"
    one_session null_open 8) as (y & E1 & _ & _ & Hn & Hu).
  - split; vm_compute; intuition congruence.
  - done.
  - discriminate.
  - left.
  - vm_compute. intuition congruence.
  - exact E.
  - left. split; [exact one_is_served|]. split; [vm_compute; reflexivity|discriminate].
  - intros payload ad. reflexivity.
  - lia.
  - vm_compute. discriminate.
  - vm_compute. reflexivity.
  - exists y, EncryptionForwardSecure, (seen 0 <$> sample_frames). split; [exact E1|]. split; [|done].
    cbn zeta in Hn. replace (with_number (publicHeader y) 9) with (with_number (publicHeader y) (InferPacketNumber (PublicHeader.PacketNumberLen (publicHeader y)) 8 (PublicHeader.PacketNumber (publicHeader y)))); [exact Hu|].
    f_equal. cbn [with_number PublicHeader.PacketNumber] in Hn. rewrite Hn. reflexivity.
Defined.
